(* ===== verification/_CoqProject ===== *)
-Q . S2P
Prelude.v
DList.v
Mem.v
Slab.v
Buddy.v
BuddyInv.v
BuddySpec.v
BuddyAlloc.v
BuddyInit.v
BuddyPool.v
Kmem.v
KmemInv.v
KmemSpec.v
KmemFree.v
KmemAlloc.v
KmemHeap.v
RbTree.v
RbRep.v
RbInv.v
RbInsert.v
RbDelete.v
RbUnlink.v
RbTreeSpec.v
Vmm.v
VmmInv.v
VmmInsert.v
VmmMap.v
VmmUnmap.v
VmmUser.v
VmmFork.v
VmmSim.v
Vc4Cl.v
Vc4Bo.v
Vc4BoSpec.v
Vc4Validate.v
Vc4Reloc.v
Vc4ValidateSpec.v
Vc4Render.v
Vc4RenderSpec.v
Vc4Gem.v
Vc4GemSpec.v
Vc4Sim.v
Kern.v
Sched.v
SchedSpec.v
SchedFrame.v
TimerSpec.v
Wait.v
SemSpec.v
KernSim.v
Pipe.v
PipeSpec.v
Bitmap.v
CString.v
CStringSpec.v
Printfmt.v
PrintfmtSpec.v
PrintfmtNum.v
Bytes.v
Disk.v
Sfs.v
SfsVol.v
SfsTree.v
SfsMap.v
SfsFile.v
SfsIo.v
SfsFileSpec.v
SfsTrunc.v
SfsDir.v
SfsDirent.v
SfsDirSpec.v
SfsCache.v
SfsReclaim.v
SfsCreate.v
SfsUnlink.v
SfsLookup.v
SfsLookupSpec.v
SfsMount.v
SfsSync.v
SfsSim.v
