(* ===== verification/Prelude.v ===== *)
(** * uCore-plus: a verification library

    Functional models of the core of the teaching kernel uCore-plus
    ([ucore/src/kern-ucore]) and theorems about them.  This file holds the
    notation, monad, tactics and generic lemmas that all others use.

    ** The program and its parts

    uCore-plus is a small Unix-like kernel.  Physical pages come from a buddy
    allocator, kernel objects from slabs of a few sizes above it.  A process has an
    address space, which is a sorted list of memory areas and, when there are
    many, a red-black tree over them.  Processes run in the order of a run
    queue; they sleep on wait queues, on which semaphores, pipes and timers are
    built.  A block file system keeps files as trees of blocks and its free
    blocks in a bitmap, on any device that transfers blocks.  On the
    Raspberry Pi a driver for the VideoCore IV GPU takes command lists from
    user programs, validates them, writes the render list itself and drives the
    hardware.  Almost every queue is a ring of [list_entry_t] members of the
    objects themselves, and the strings and the formatter serve everybody.

    Configuration: [ARCH=arm], [BOARD=raspberrypi], 32 bits, one processor,
    [SCHEDULER_MLFQ], [HEAP_SLAB], swapping and the Bionic parts off.

    ** How code is modelled

    A C function is a function in the state and error monad [M] of this file:
    [M S A] is [S → res (A * S)], and [Err] tells a failed assertion or [panic]
    ([Panic]), a load or store outside an object ([Fault]) and the end of the
    fuel of a loop ([OutOfFuel]).  A [while] loop is [loop fuel body], whose body
    answers [inl] to go on and [inr] to stop; the fuel of each loop is a number
    that the state gives (the entries of the list store, the nodes of the tree
    store, the mapped bytes, the bits of a word), and the theorems show that it
    is never used up where they say that the function returns.  Unsigned values are
    integers in [0, 2^w), and every operation that can wrap is followed by
    [u8], [u16], [u32] or [s32].  Structures are records; the store of a kind
    of object is a finite map from names (addresses) to records; list entries
    and tree nodes live in stores of their own, keyed by the member that
    contains them, so that [le2vma] and the like are inversions of a
    constructor.  Memory that is read as bytes (strings, command lists) is the
    byte store of [Mem].

    ** Files

    Lists and trees
    - [DList]: [libs/list.h].  [rep] relates the pointers to finite lists, and
      each operation has a lemma against it.
    - [RbTree]: [libs/rb_tree.c].  [RbRep] (pointers and trees), [RbInv] (the
      red-black invariant), [RbInsert], [RbDelete], [RbUnlink] prove what
      [RbTreeSpec] states over sequences: [rb_tree_correct],
      [rb_search_logarithmic].

    Memory
    - [Buddy]: [arch/arm/mm/buddy_pmm.c] and the entry points of [pmm.c].
      [BuddyInv], [BuddySpec], [BuddyAlloc], [BuddyInit] keep the invariant;
      [BuddyPool] states the contract: [page_pool_correct],
      [alloc_pages_complete].
    - [Slab]: the size classes of [kmalloc] in [mm/slab.c], as its callers
      see them.  [Kmem]: the whole of [mm/slab.c] on top of [Buddy], slabs
      included; [KmemInv] is the invariant of the heap, [KmemSpec],
      [KmemFree], [KmemAlloc] follow growing, allocating, releasing and
      destroying, and [KmemHeap] states the contract under any sequence of
      [kmalloc], [kfree] and page requests: [kernel_heap_correct].
    - [Vmm]: [mm/vmm.c].  [VmmInv] is the invariant (each address space is a
      sorted list of disjoint areas; list, tree, count and cache agree)
      with the lookups; [VmmInsert] inserts and removes; [VmmMap], [VmmUnmap],
      [VmmUser], [VmmFork] give the system calls' functions on every branch.
      [unmap_spec] says what unmapping a range does, with the references of
      shared memory it gives back, and [mm_brk_correct] composes it with
      [brk_spec]; [dup_outcome] tells why a fork stopped copying.  [VmmSim]
      has concrete address spaces.

    Processes
    - [Kern]: the structures that scheduling and synchronisation share.
    - [Sched]: [schedule/sched*.c].  [SchedSpec] states the class interface
      [RunQueue], which the round-robin classes and MLFQ implement, and
      [schedule_fair]; [SchedFrame] says what scheduling leaves alone;
      [TimerSpec] treats the list of time differences.
    - [Wait]: [sync/wait.c] and [sync/sem.c]; [SemSpec] is a system of
      processes as a step relation, with [sem_conservation] and
      [sem_no_panic]; [KernSim] has concrete states.

    Files
    - [Pipe]: [fs/pipe/pipe_state.c]; [PipeSpec] is a step relation of readers
      and writers with [pipe_fifo].
    - [Bitmap]: [fs/sfs/bitmap.c] refines a finite set of blocks.
    - [Bytes]: ranges of byte arrays.  [Disk]: [fs/iobuf.c],
      [fs/devs/dev_disk0.c] and the RAM disk; what a file system relies on is
      the interface [BlockDevice] with [BlockDeviceLaws], which the RAM disk
      implements.  [disk0_io_correct] covers every request, the one at a
      negative offset that wraps past the driver's check included.
    - [Sfs]: [fs/sfs/sfs.h], [sfs_io.c] and, from [sfs_inode.c], blocks, the block
      map and file data, over any block device.  [SfsVol] is the volume (the free map
      is a set of blocks, blocks are read and written whole), [SfsTree] the tree
      of pointers of an inode as a finite map, [SfsMap] finding, adding and
      removing a block of it, [SfsFile] and [SfsIo] the transfers.  The contract
      is a file as a sequence of bytes: [SfsFileSpec] ([sfs_io_correct], with
      the writes past the end that panic or leave a gap) and [SfsTrunc]
      ([sfs_truncfile_correct], with exactly the blocks that are given back);
      [SfsSim] has a small volume.
    - [SfsDir]: the rest of [sfs_inode.c] and the reference counts of
      [fs/vfs/inode.c].  [SfsDirent] reads and writes the entries of a directory,
      [SfsDirSpec] makes of them a finite map from names to numbers of inodes
      and adds and renames names ([sfs_link_correct], [sfs_rename_correct]).
      [SfsCache] is the hash table of inodes in memory over the lists of
      [DList], with loading, creating and writing back; [SfsReclaim] gives up ([sfs_reclaim_correct], [sfs_inode_roundtrip]).
      [SfsCreate] and [SfsUnlink] compose both ([sfs_create_correct],
      [sfs_mkdir_correct], [sfs_unlink_correct]).  [SfsLookup] has the paths; [SfsLookupSpec] sees the
      file system as a tree of directories and files, in which [sfs_lookup] walks
      ([sfs_lookup_correct]) and whose paths [sfs_namefile] writes
      ([sfs_namefile_correct]).  Renaming between two directories and
      [sfs_getdirentry] are defined but have no theorem.
    - [SfsMount]: [fs/sfs/sfs_fs.c], what an image is and what a mount makes of
      it ([sfs_do_mount_correct]), [SfsSync] that writing
      back and mounting again loses nothing ([sfs_sync_mount_roundtrip]).
      [SfsSim] also mounts an image of eleven blocks on the RAM disk and runs the
      operations on it.

    Libraries
    - [Mem]: bytes; [CString], [CStringSpec]: [libs/string.c], with the routines
      an architecture replaces as the members of a class, and the C part of the
      ARM [__memmove];
      [Printfmt], [PrintfmtSpec], [PrintfmtNum]: [libs/printfmt.c], with the
      round trip through [strtol].

    VideoCore IV driver ([arch/arm/mach-raspberrypi])
    - [Vc4Cl] (command lists and packets), [Vc4Bo] (mailbox, buffer objects),
      [Vc4Validate], [Vc4Render], [Vc4Gem] (job submission), each with its
      [Spec]; [Vc4Sim] has a concrete firmware and jobs.  [Vc4Reloc] is the
      reference the validators are proved equal to: a translation of packets
      and shader records as a function on bytes ([translate_cl],
      [translate_recs]), with what it guarantees of each packet
      ([packet_safe], [rec_safe]) and what it does not (the addresses of
      shader states and the offsets into buffer objects).
      [vc4_submit_cl_ioctl] composes all of them, and
      [vc4_submit_cl_ioctl_correct] covers every path through it and tells the
      bytes the GPU is started on.

    ** What the theorems show

    - Contracts: the abstract state a component promises (a sequence, a set,
      a map of areas, a list of deadlines, a pool of pages, a queue of bytes)
      and that each operation does to it what it should, with the code of every
      error branch; nothing outside the operation's objects changes.
    - Invariants of step relations, by induction on the steps: semaphores,
      pipes, the page pool, the kernel heap.
    - The GPU driver: the lists handed to the hardware are the translation of
      those submitted, index arrays and binning areas lie in buffer objects of
      the job, a buffer object leaves nothing locked, mapped or allocated when it is
      freed, and sizes computed before allocation are exact.
    - Bounds: tree depth, size classes, overflow checks of the job layout.
    - Liveness: every runnable process runs within one round of the queue;
      the formatter terminates.
    - Round trips: render lists and their decoder, numbers and [strtol], an
      inode and its block, a file system and its image.
    - Defects: theorems whose statement is a wrong outcome hold of the code as
      it is: [usem_up_after_timeout_panics], [linux_timer_use_after_free],
      [pipe_lost_wakeup], [lookup_bos_overruns_handles],
      [vc4_free_bo_ioctl_frees_bin_bo], [sfs_write_past_end_panics],
      [sfs_failed_extension_panics].

    ** Parameters and assumptions

    The GPU firmware ([mbox_call], with the laws [FirmwareLaws] of its
    allocator: which blocks are allocated, which are locked and where, and that
    locked blocks are apart), the assembly routines of [arch/arm/libs], with the
    contract that [string.c] gives them ([fills], [copies_apart]), the V3D registers
    ([hw]), the success of [kmalloc] ([avail],
    [kalloc], [oom]) and the content of fresh memory are arguments; [Vc4Sim]
    instantiates the laws.  Interrupts are off in the sections the code
    protects so, and each such section is one atomic step.  The semaphores of
    a file system and of its inodes are free when an operation takes them.  The page table is
    hardware state: calls into it are recorded as events.

    ** Not modelled

    - The MMU code of [pmm.c], traps, boot and board code, the assembly of
      [arch/arm/libs]: register and coprocessor accesses.  [mm/swap.c]: swapping is off.
    - [process/], the VFS above the file systems (paths, descriptors, mount
      table), devices other than the disk, [sync/event.c] and [sync/mbox.c]; of
      [vmm.c], the locks, the copies to and from user memory and the page fault
      path.
    - FatFs, YAFFS2, the Linux device environment ([module/]), loadable modules,
      network and package trees: third-party code, or headers for it.
    - The self-tests ([check_vmm], [check_rb_tree], ...) and the debug output. *)

From Stdlib Require Export ZArith Lia.
From stdpp Require Export base option strings numbers gmap fin_maps list.

Open Scope Z_scope.

(** ** Machine integers

    The modelled configuration is the 32-bit one ([ARCH=arm],
    [BOARD=raspberrypi]): [int], [long], [size_t], [uintptr_t] have 32 bits.
    An unsigned w-bit value is a [Z] in [0, 2^w); every C operation that can
    wrap is followed by the conversion written out below. *)

Definition u8 (z : Z) : Z := z mod 2 ^ 8.
Definition u16 (z : Z) : Z := z mod 2 ^ 16.
Definition u32 (z : Z) : Z := z mod 2 ^ 32.
Definition u64 (z : Z) : Z := z mod 2 ^ 64.

(** Conversion to a signed 32-bit value (two's complement). *)
Definition s32 (z : Z) : Z := (z + 2 ^ 31) mod 2 ^ 32 - 2 ^ 31.

(** [libs/types.h]: the rounding macros, at the width of [size_t]. *)
Definition ROUNDDOWN (a n : Z) : Z := u32 a - u32 a mod n.
Definition ROUNDUP (a n : Z) : Z := ROUNDDOWN (u32 (u32 a + u32 n - 1)) (u32 n).

(** The length of a list, as an integer. *)
Notation len l := (Z.of_nat (length l)).

Definition PGSIZE : Z := 4096.

(** [mach-raspberrypi/memlayout.h]: where physical memory is mapped. *)
Definition KERNBASE : Z := 0xc0000000.
Definition KMEMSIZE : Z := 0x8000000.
Definition KERNTOP : Z := KERNBASE + KMEMSIZE.

(** [libs/error.h] *)
Definition E_NOENT : Z := 2.
Definition E_IO : Z := 5.
Definition E_AGAIN : Z := 11.
Definition E_NOMEM : Z := 12.
Definition E_FAULT : Z := 14.
Definition E_BUSY : Z := 16.
Definition E_EXIST : Z := 17.
Definition E_XDEV : Z := 18.
Definition E_NODEV : Z := 19.
Definition E_NOTDIR : Z := 20.
Definition E_ISDIR : Z := 21.
Definition E_INVAL : Z := 22.
Definition E_FBIG : Z := 27.
Definition E_UNIMP : Z := 35.
Definition E_KILLED : Z := 37.
Definition E_NO_MEM : Z := E_NOMEM.
Definition E_TIMEOUT : Z := E_BUSY.
Definition E_TOO_BIG : Z := E_FBIG.

(** ** Outcomes of kernel code

    [Panic] is a failed [assert] or an explicit [panic]; [Fault] is an access
    through a pointer that designates no object of the modelled store;
    [OutOfFuel] is a loop whose fuel ran out, which the total-correctness
    theorems exclude. *)

Inductive err : Type := Panic | Fault | OutOfFuel.

Inductive res (A : Type) : Type :=
| Ok (a : A)
| Err (e : err).
Arguments Ok {A} a.
Arguments Err {A} e.

#[export] Instance err_eq_dec : EqDecision err.
Proof. solve_decision. Defined.

#[export] Instance res_eq_dec {A} `{EqDecision A} : EqDecision (res A).
Proof. solve_decision. Defined.

#[export] Instance res_ret : MRet res := λ A a, Ok a.
#[export] Instance res_bind : MBind res :=
  λ A B k m, match m with Ok a => k a | Err e => Err e end.

(** The state-and-error monad of the imperative components. *)
Definition M (S A : Type) : Type := S → res (A * S).

#[export] Instance M_ret {S} : MRet (M S) := λ A a s, Ok (a, s).
#[export] Instance M_bind {S} : MBind (M S) :=
  λ A B k m s, match m s with Ok (a, s') => k a s' | Err e => Err e end.

Definition fail {S A} (e : err) : M S A := λ _, Err e.
Definition get {S} : M S S := λ s, Ok (s, s).
Definition put {S} (s : S) : M S unit := λ _, Ok (tt, s).
Definition modify {S} (f : S → S) : M S unit := λ s, Ok (tt, f s).
Definition gets {S A} (f : S → A) : M S A := λ s, Ok (f s, s).

(** [assert(b)] of [libs/assert.h]. *)
Definition assert {S} (b : bool) : M S unit :=
  λ s, if b then Ok (tt, s) else Err Panic.

(** Dereference: a missing object is a [Fault]. *)
Definition deref {S A} (f : S → option A) : M S A :=
  λ s, match f s with Some a => Ok (a, s) | None => Err Fault end.

Definition when {S} (b : bool) (m : M S unit) : M S unit :=
  if b then m else mret tt.

(** A C loop: the body answers [inl] to go round again, [inr] to leave. *)
Fixpoint loop {S A B} (fuel : nat) (body : A → M S (A + B)) (a : A) : M S B :=
  match fuel with
  | O => fail OutOfFuel
  | S fuel' =>
      r ← body a;
      match r with
      | inl a' => loop fuel' body a'
      | inr b => mret b
      end
  end.

(** ** Record update

    [r <| f := v |>] is [r] with the field [f] replaced, as a C assignment to
    a member.  A record declares its eta-expansion as an instance of [Eta];
    the setter of a field is computed from it. *)

Class Eta (R : Type) := eta_of : R → R.
Class Setter {R T : Type} (proj : R → T) := update_field : (T → T) → R → R.
#[global] Arguments update_field {R T} proj {Setter} _ _ /.

Ltac solve_setter :=
  lazymatch goal with
  | |- @Setter ?R ?T ?proj =>
      let inst := constr:(_ : Eta R) in
      exact (fun (f : T → T) (r : R) =>
        ltac:(let t := eval hnf in inst in
              let t := eval cbv beta in (t r) in
              let t := eval pattern (proj r) in t in
              lazymatch t with
              | ?h _ => let u := eval cbv beta in (h (f (proj r))) in exact u
              end))
  end.
#[export] Hint Extern 1 (Setter _) => solve_setter : typeclass_instances.

Notation "r <| proj := v |>" := (update_field proj (λ _, v) r)
  (at level 12, left associativity, proj constr at level 0,
   format "r  <| proj  :=  v |>") : stdpp_scope.

(** Code on one field of the state, as a call with a pointer to the member. *)
Definition on_field {S T A} (proj : S → T) `{!Setter proj} (m : M T A) : M S A := λ s,
  match m (proj s) with Ok (a, t) => Ok (a, s <| proj := t |>) | Err e => Err e end.

(** Running code on a concrete state: the state is named, not written out. *)
Definition run_result {S A} (m : M S A) (s : S) : option A := match m s with Ok (a, _) => Some a | Err _ => None end.
Definition run_state {S A} (m : M S A) (s : S) : S := match m s with Ok (_, s') => s' | Err _ => s end.
Lemma run_ok {S A} (m : M S A) s a s' : run_result m s = Some a → s' = run_state m s → m s = Ok (a, s').
Proof. unfold run_result, run_state. intros E ->. by destruct (m s) as [[]|]; simplify_eq. Qed.
#[global] Strategy 1000 [run_state].
Ltac by_run := eapply run_ok; [by vm_compute|exact eq_refl].

(** ** Total correctness

    [wp m s Q]: from the state [s] the code returns normally (no panic, no
    fault, the fuel suffices) with a result and a state that satisfy [Q]. *)

Definition wp {S A} (m : M S A) (s : S) (Q : A → S → Prop) : Prop :=
  ∃ a s', m s = Ok (a, s') ∧ Q a s'.

Lemma bind_ok {S A B} (m : M S A) (k : A → M S B) s a s' :
  m s = Ok (a, s') → (m ≫= k) s = k a s'.
Proof. unfold mbind, M_bind. by intros ->. Qed.

Lemma on_field_ok {S T A} (proj : S → T) `{!Setter proj} (m : M T A) s a t :
  m (proj s) = Ok (a, t) → on_field proj m s = Ok (a, s <| proj := t |>).
Proof. unfold on_field. by intros ->. Qed.

Lemma bind_err {S A B} (m : M S A) (k : A → M S B) s e :
  m s = Err e → (m ≫= k) s = Err e.
Proof. unfold mbind, M_bind. by intros ->. Qed.

Lemma bind_inv {S A B} (m : M S A) (k : A → M S B) s b s'' :
  (m ≫= k) s = Ok (b, s'') → ∃ a s', m s = Ok (a, s') ∧ k a s' = Ok (b, s'').
Proof. unfold mbind, M_bind. destruct (m s) as [[a s']|]; naive_solver. Qed.

(** Binds associate, state by state. *)
Lemma bind_assoc {S A B C} (m : M S A) (f : A → M S B) (g : B → M S C) s :
  (m ≫= λ a, f a ≫= g) s = ((m ≫= f) ≫= g) s.
Proof. unfold mbind, M_bind. by destruct (m s) as [[a s']|]. Qed.

Lemma loop_step {S A B} fuel (body : A → M S (A + B)) a s :
  loop (Datatypes.S fuel) body a s =
  match body a s with
  | Ok (inl a', s') => loop fuel body a' s'
  | Ok (inr b, s') => Ok (b, s')
  | Err e => Err e
  end.
Proof. simpl. unfold mbind, M_bind. by destruct (body a s) as [[[a'|b] s']|]. Qed.

Lemma loop_next {S A B} fuel (body : A → M S (A + B)) a s a' s' :
  body a s = Ok (inl a', s') → loop (Datatypes.S fuel) body a s = loop fuel body a' s'.
Proof. intros E. by rewrite loop_step, E. Qed.
Lemma loop_stop {S A B} fuel (body : A → M S (A + B)) a s b s' :
  body a s = Ok (inr b, s') → loop (Datatypes.S fuel) body a s = Ok (b, s').
Proof. intros E. by rewrite loop_step, E. Qed.

(** More fuel gives the same result. *)
Lemma loop_fuel {S A B} (n m : nat) (body : A → M S (A + B)) a s r :
  loop n body a s = Ok r → (n ≤ m)%nat → loop m body a s = Ok r.
Proof.
  revert m a s. induction n as [|n IH]; intros [|m] a s E Hm; try done; [lia|].
  rewrite loop_step in *. destruct (body a s) as [[[a'|b] s']|]; [|done|done]. apply IH; [done|lia].
Qed.

(** A loop that goes round [n] times through given arguments and states. *)
Lemma loop_iter {S A B} (n fuel : nat) (body : A → M S (A + B)) (a : nat → A) (s : nat → S) r s' :
  (∀ i, (i < n)%nat → body (a i) (s i) = Ok (inl (a (Datatypes.S i)), s (Datatypes.S i))) →
  body (a n) (s n) = Ok (inr r, s') → (n < fuel)%nat →
  loop fuel body (a O) (s O) = Ok (r, s').
Proof.
  revert fuel a s. induction n as [|n IH]; intros [|fuel] a s Hi Hn Hf; try lia.
  { by apply loop_stop. }
  rewrite (loop_next _ _ _ _ _ _ (Hi O ltac:(lia))).
  apply (IH fuel (a ∘ Datatypes.S) (s ∘ Datatypes.S)); [|done|lia].
  intros i ?. apply Hi. lia.
Qed.

Section wp_rules.
Context {S : Type}.
Implicit Types (s : S).

Lemma wp_ok {A} (m : M S A) s a s' (Q : A → S → Prop) :
  m s = Ok (a, s') → Q a s' → wp m s Q.
Proof. intros. by exists a, s'. Qed.

Lemma wp_bind {A B} (m : M S A) (k : A → M S B) s Q :
  wp m s (λ a s', wp (k a) s' Q) → wp (m ≫= k) s Q.
Proof.
  intros (a & s' & Hm & b & s'' & Hk & HQ). exists b, s''.
  by rewrite (bind_ok _ _ _ _ _ Hm).
Qed.

Lemma wp_mono {A} (m : M S A) s (Q Q' : A → S → Prop) :
  wp m s Q → (∀ a s', Q a s' → Q' a s') → wp m s Q'.
Proof. intros (a & s' & ? & ?) HQ. exists a, s'. eauto. Qed.

Lemma wp_ret {A} (a : A) s (Q : A → S → Prop) : Q a s → wp (mret a) s Q.
Proof. intros. by exists a, s. Qed.
Lemma wp_get s (Q : S → S → Prop) : Q s s → wp get s Q.
Proof. intros. by exists s, s. Qed.
Lemma wp_put s s' (Q : unit → S → Prop) : Q tt s' → wp (put s') s Q.
Proof. intros. by exists tt, s'. Qed.
Lemma wp_gets {A} (f : S → A) s (Q : A → S → Prop) : Q (f s) s → wp (gets f) s Q.
Proof. intros. by exists (f s), s. Qed.
Lemma wp_modify (f : S → S) s (Q : unit → S → Prop) : Q tt (f s) → wp (modify f) s Q.
Proof. intros. by exists tt, (f s). Qed.
Lemma wp_deref {A} (f : S → option A) s a (Q : A → S → Prop) :
  f s = Some a → Q a s → wp (deref f) s Q.
Proof. intros Hf HQ. exists a, s. split; [|done]. unfold deref. by rewrite Hf. Qed.
Lemma wp_assert (b : bool) s (Q : unit → S → Prop) : b = true → Q tt s → wp (assert b) s Q.
Proof. intros -> HQ. by exists tt, s. Qed.

(** The loop rule: an invariant and a measure bounded by the fuel. *)
Lemma wp_loop {A B} (I : A → S → Prop) (μ : A → S → nat)
    (Q : B → S → Prop) (body : A → M S (A + B)) :
  (∀ a s, I a s → wp (body a) s (λ r s',
      match r with
      | inl a' => I a' s' ∧ (μ a' s' < μ a s)%nat
      | inr b => Q b s'
      end)) →
  ∀ fuel a s, I a s → (μ a s < fuel)%nat → wp (loop fuel body a) s Q.
Proof.
  intros Hbody fuel. induction fuel as [|fuel IH]; intros a s HI Hfuel; [lia|].
  simpl. apply wp_bind. eapply wp_mono; [by apply Hbody|].
  intros [a'|b] s' Hr; [|by apply wp_ret].
  destruct Hr as [HI' Hμ]. apply IH; [done|lia].
Qed.

(** What a loop that returned has established. *)
Lemma loop_partial {A B} (I : A → S → Prop) (Q : B → S → Prop)
    (body : A → M S (A + B)) :
  (∀ a s r s', I a s → body a s = Ok (r, s') →
      match r with inl a' => I a' s' | inr b => Q b s' end) →
  ∀ fuel a s b s', I a s → loop fuel body a s = Ok (b, s') → Q b s'.
Proof.
  intros Hbody fuel. induction fuel as [|fuel IH]; intros a s b s' HI H; [done|].
  simpl in H. apply bind_inv in H as (r & s1 & H1 & H2).
  specialize (Hbody _ _ _ _ HI H1). destruct r as [a'|b']; [eauto|].
  unfold mret, M_ret in H2. by simplify_eq.
Qed.
End wp_rules.

(** ** Tactics and hints *)

Create HintDb ucore.

(** Step through a returned computation in a hypothesis. *)
Ltac inv_bind :=
  repeat match goal with
  | H : mbind _ _ _ = Ok _ |- _ =>
      let a := fresh "v" in let s := fresh "st" in
      let H1 := fresh "Hm" in let H2 := fresh "Hk" in
      apply bind_inv in H as (a & s & H1 & H2)
  | H : mret _ _ = Ok _ |- _ => unfold mret, M_ret in H; simplify_eq
  | H : get _ = Ok _ |- _ => unfold get in H; simplify_eq
  | H : put _ _ = Ok _ |- _ => unfold put in H; simplify_eq
  | H : gets _ _ = Ok _ |- _ => unfold gets in H; simplify_eq
  | H : modify _ _ = Ok _ |- _ => unfold modify in H; simplify_eq
  | H : fail _ _ = Ok _ |- _ => discriminate H
  | H : assert ?b _ = Ok _ |- _ =>
      let E := fresh "Hassert" in
      unfold assert in H; destruct b eqn:E; [simplify_eq | discriminate H]
  | H : deref ?f ?s = Ok _ |- _ =>
      let E := fresh "Hderef" in
      unfold deref in H; destruct (f s) eqn:E; [simplify_eq | discriminate H]
  end.

(** Step through the goal: the structural rules of [wp]. *)
Ltac wp_step :=
  lazymatch goal with
  | |- wp (mbind _ _) _ _ => apply wp_bind
  | |- wp (mret _) _ _ => apply wp_ret
  | |- wp get _ _ => apply wp_get
  | |- wp (put _) _ _ => apply wp_put
  | |- wp (gets _) _ _ => apply wp_gets
  | |- wp (modify _) _ _ => apply wp_modify
  | |- wp (if ?b then _ else _) _ _ => let E := fresh "Hc" in destruct b eqn:E
  end.
Ltac wp_steps := repeat (wp_step; simpl).

(** Split the boolean conditions of the C code. *)
Ltac split_bools :=
  repeat match goal with
  | H : _ && _ = true |- _ => apply andb_true_iff in H as [? ?]
  | H : _ || _ = false |- _ => apply orb_false_iff in H as [? ?]
  | H : negb _ = true |- _ => apply negb_true_iff in H
  | H : negb _ = false |- _ => apply negb_false_iff in H
  | H : bool_decide _ = true |- _ => apply bool_decide_eq_true in H
  | H : bool_decide _ = false |- _ => apply bool_decide_eq_false in H
  end.

(** ** Lemmas on machine integers *)

Lemma u8_range z : 0 ≤ u8 z < 256.
Proof. unfold u8. apply Z.mod_pos_bound. lia. Qed.
Lemma u16_range z : 0 ≤ u16 z < 2 ^ 16.
Proof. unfold u16. apply Z.mod_pos_bound. lia. Qed.
Lemma u32_range z : 0 ≤ u32 z < 2 ^ 32.
Proof. unfold u32. apply Z.mod_pos_bound. lia. Qed.
Lemma u8_id z : 0 ≤ z < 256 → u8 z = z.
Proof. intros. unfold u8. by rewrite Z.mod_small. Qed.
Lemma u16_id z : 0 ≤ z < 2 ^ 16 → u16 z = z.
Proof. intros. unfold u16. by rewrite Z.mod_small. Qed.
Lemma u32_id z : 0 ≤ z < 2 ^ 32 → u32 z = z.
Proof. intros. unfold u32. by rewrite Z.mod_small. Qed.
Lemma u32_u32 z : u32 (u32 z) = u32 z.
Proof. apply u32_id, u32_range. Qed.
Lemma s32_id z : - 2 ^ 31 ≤ z < 2 ^ 31 → s32 z = z.
Proof. intros. unfold s32. rewrite Z.mod_small; lia. Qed.
Lemma s32_range z : - 2 ^ 31 ≤ s32 z < 2 ^ 31.
Proof. unfold s32. pose proof (Z.mod_pos_bound (z + 2 ^ 31) (2 ^ 32)). lia. Qed.

#[export] Hint Resolve u8_range u16_range u32_range s32_range : ucore.

Lemma ROUNDDOWN_page a :
  0 ≤ a < 2 ^ 32 →
  ROUNDDOWN a PGSIZE ≤ a < ROUNDDOWN a PGSIZE + PGSIZE ∧
  ROUNDDOWN a PGSIZE mod PGSIZE = 0.
Proof.
  intros Ha. unfold ROUNDDOWN, PGSIZE. rewrite u32_id by lia.
  pose proof (Z.mod_pos_bound a 4096). split; [lia|].
  rewrite Zminus_mod_idemp_r, Z.sub_diag. done.
Qed.

Lemma ROUNDUP_spec a n :
  0 < n < 2 ^ 32 → 0 ≤ a → a + n ≤ 2 ^ 32 → a ≤ ROUNDUP a n < a + n ∧ ROUNDUP a n mod n = 0.
Proof.
  intros Hn Ha Hb. unfold ROUNDUP, ROUNDDOWN. rewrite (u32_id n), (u32_id a) by lia.
  rewrite !(u32_id (a + n - 1)) by lia.
  pose proof (Z.mod_pos_bound (a + n - 1) n). split; [lia|].
  rewrite Zminus_mod_idemp_r, Z.sub_diag. apply Z.mod_0_l. lia.
Qed.

Lemma ROUNDUP_page a :
  0 ≤ a → a + PGSIZE ≤ 2 ^ 32 →
  a ≤ ROUNDUP a PGSIZE < a + PGSIZE ∧ ROUNDUP a PGSIZE mod PGSIZE = 0.
Proof. apply ROUNDUP_spec. done. Qed.

(** Rounding up that does not fit in 32 bits wraps to 0. *)
Lemma ROUNDUP_wrap a n :
  0 < n < 2 ^ 32 → a < 2 ^ 32 → 2 ^ 32 < a + n → ROUNDUP a n = 0.
Proof.
  intros Hn Ha Hb. unfold ROUNDUP, ROUNDDOWN. rewrite (u32_id n), (u32_id a) by lia.
  assert (u32 (a + n - 1) = a + n - 1 - 2 ^ 32) as ->.
  { unfold u32. symmetry. apply (Z.mod_unique_pos _ _ 1); lia. }
  rewrite u32_id by lia. rewrite Z.mod_small by lia. lia.
Qed.
