(* ===== verification/DList.v ===== *)
(** * [libs/list.h]: circular doubly linked lists

    Every queue of the kernel (run queues, wait queues, timers, memory areas,
    free pages, semaphores, buffer objects) is a [list_entry_t] ring threaded
    through the objects themselves.  This file models the operations of
    [list.h] pointer by pointer on a store of list entries and proves that
    they implement finite lists: [rep h L] says that the store [h] holds,
    for every head [k] of the map [L], a ring whose elements in order are
    [L !! k], all rings being disjoint.  An entry that is initialised and on
    no list is a head of the empty list, as in the C code, where
    [list_empty(&p->run_link)] is the test "is [p] queued?". *)

From S2P Require Import Prelude.

(** ** The operations *)

(** [struct list_entry] *)
Record list_entry (K : Type) : Type := mk_entry { prev : K; next : K }.
Arguments mk_entry {K} prev next.
Arguments prev {K} l.
Arguments next {K} l.

Section dlist.
Context {K : Type} `{Countable K}.
Implicit Types (h : gmap K (list_entry K)) (x y u v k elm : K) (l a b : list K).

(** [p->next = v] and [p->prev = v] on an entry of the store. *)
Definition set_next (p v : K) : M (gmap K (list_entry K)) unit := λ h,
  match h !! p with
  | Some e => Ok (tt, <[p := mk_entry (prev e) v]> h)
  | None => Err Fault
  end.
Definition set_prev (p v : K) : M (gmap K (list_entry K)) unit := λ h,
  match h !! p with
  | Some e => Ok (tt, <[p := mk_entry v (next e)]> h)
  | None => Err Fault
  end.

Definition list_init (elm : K) : M (gmap K (list_entry K)) unit :=
  modify (λ h, <[elm := mk_entry elm elm]> h).

Definition list_next (listelm : K) : M (gmap K (list_entry K)) K :=
  e ← deref (λ h : gmap K (list_entry K), h !! listelm); mret (next e).

Definition list_prev (listelm : K) : M (gmap K (list_entry K)) K :=
  e ← deref (λ h : gmap K (list_entry K), h !! listelm); mret (prev e).

Definition list_empty (list : K) : M (gmap K (list_entry K)) bool :=
  n ← list_next list; mret (bool_decide (n = list)).

(** The two stores into [elm] overwrite the whole entry, so they are also
    defined on an [elm] that was never initialised. *)
Definition list_add_ (elm prev next : K) : M (gmap K (list_entry K)) unit :=
  _ ← set_prev next elm;
  _ ← set_next prev elm;
  modify (λ h, <[elm := mk_entry prev next]> h).

Definition list_del_ (prev next : K) : M (gmap K (list_entry K)) unit :=
  _ ← set_next prev next;
  set_prev next prev.

Definition list_add_before (listelm elm : K) : M (gmap K (list_entry K)) unit :=
  p ← list_prev listelm; list_add_ elm p listelm.

Definition list_add_after (listelm elm : K) : M (gmap K (list_entry K)) unit :=
  n ← list_next listelm; list_add_ elm listelm n.

Definition list_add (listelm elm : K) : M (gmap K (list_entry K)) unit :=
  list_add_after listelm elm.

Definition list_del (listelm : K) : M (gmap K (list_entry K)) unit :=
  p ← list_prev listelm; n ← list_next listelm; list_del_ p n.

Definition list_del_init (listelm : K) : M (gmap K (list_entry K)) unit :=
  _ ← list_del listelm; list_init listelm.

(** ** Representation *)

Definition next_of h x : option K := next <$> h !! x.
Definition prev_of h x : option K := prev <$> h !! x.

Definition link h x y : Prop := next_of h x = Some y ∧ prev_of h y = Some x.

(** Consecutive nodes of the walk are linked both ways. *)
Fixpoint path h (c : list K) : Prop :=
  match c with
  | x :: c' => match c' with y :: _ => link h x y ∧ path h c' | [] => True end
  | [] => True
  end.

(** The ring of head [k] with elements [l]. *)
Definition ring h k l : Prop := NoDup (k :: l) ∧ path h (k :: l ++ [k]).

(** Disjointness of the rings of a collection of lists. *)
Definition disjoint_lists (L : gmap K (list K)) : Prop :=
  ∀ k1 l1 k2 l2 x, L !! k1 = Some l1 → L !! k2 = Some l2 →
    x ∈ k1 :: l1 → x ∈ k2 :: l2 → k1 = k2.

Definition rep h (L : gmap K (list K)) : Prop :=
  (∀ k l, L !! k = Some l → ring h k l) ∧ disjoint_lists L.

(** [x] is on no list and heads no list. *)
Definition unlisted (L : gmap K (list K)) x : Prop :=
  ∀ k l, L !! k = Some l → x ∉ k :: l.

(** [x] may be put on a list: it is unlisted, or initialised and alone. *)
Definition available (L : gmap K (list K)) x : Prop :=
  unlisted (delete x L) x ∧ (L !! x = None ∨ L !! x = Some []).

(** ** Walks *)

Lemma path_cons h x y c : path h (x :: y :: c) ↔ link h x y ∧ path h (y :: c).
Proof. done. Qed.

Lemma path_split h a u v b :
  path h (a ++ u :: v :: b) ↔ path h (a ++ [u]) ∧ link h u v ∧ path h (v :: b).
Proof.
  induction a as [|x a IH]; simpl app; [by rewrite path_cons; simpl; tauto|].
  destruct a as [|y a]; simpl app in *.
  - rewrite !path_cons. simpl. tauto.
  - rewrite !path_cons in *. rewrite IH. tauto.
Qed.

(** A walk depends on the [next] of all nodes but the last and on the [prev]
    of all nodes but the first. *)
Lemma path_frame h h' c :
  (∀ z, z ∈ removelast c → next_of h' z = next_of h z) →
  (∀ z, z ∈ tail c → prev_of h' z = prev_of h z) →
  path h c → path h' c.
Proof.
  induction c as [|x c IH]; [done|]. destruct c as [|y c]; [done|].
  rewrite !path_cons. intros Hn Hp [[? ?] ?]. split.
  - split; [rewrite Hn|rewrite Hp]; try done; set_solver.
  - apply IH; [|intros; apply Hp; simpl in *; set_solver|done].
    intros z Hz. apply Hn. change (removelast (x :: y :: c)) with (x :: removelast (y :: c)).
    set_solver.
Qed.

(** The effect of an operation on the two pointer fields. *)
Definition relinked h h' (nx pv : K → option (option K)) : Prop :=
  (∀ z, next_of h' z = match nx z with Some r => r | None => next_of h z end) ∧
  (∀ z, prev_of h' z = match pv z with Some r => r | None => prev_of h z end).

Lemma elem_of_removelast (z : K) c : z ∈ removelast c → z ∈ c.
Proof.
  induction c as [|x c IH]; [done|]. destruct c as [|y c]; [set_solver|].
  change (removelast (x :: y :: c)) with (x :: removelast (y :: c)). set_solver.
Qed.

Lemma removelast_snoc l x : removelast (l ++ [x]) = l.
Proof. apply removelast_last. Qed.

(** Inserting [elm] between two consecutive nodes of a ring. *)
Lemma ring_insert h h' k l a u v b elm :
  ring h k l → k :: l ++ [k] = a ++ u :: v :: b → elm ∉ k :: l →
  (∀ z, next_of h' z = if decide (z = elm) then Some v
                       else if decide (z = u) then Some elm else next_of h z) →
  (∀ z, prev_of h' z = if decide (z = elm) then Some u
                       else if decide (z = v) then Some elm else prev_of h z) →
  path h' (a ++ u :: elm :: v :: b).
Proof.
  intros [Hnd Hpath] Hc Helm Hn Hp. rewrite Hc in Hpath.
  apply path_split in Hpath as (Ha & Hl & Hb).
  assert (k :: l = a ++ u :: removelast (v :: b)) as Hkl.
  { rewrite <-(removelast_snoc (k :: l) k). simpl app. rewrite Hc.
    rewrite !removelast_app by done. done. }
  assert (l ++ [k] = tail (a ++ [u]) ++ v :: b) as Hlk.
  { change (l ++ [k]) with (tail (k :: l ++ [k])). rewrite Hc. destruct a; [done|]. simpl. by rewrite <-app_assoc. }
  assert (NoDup (l ++ [k])) as Hnd'.
  { apply NoDup_app. apply NoDup_cons in Hnd as [? ?].
    split_and!; [done|set_solver|apply NoDup_singleton]. }
  assert (elm ∉ a ++ u :: v :: b) as Hnew by (rewrite <-Hc; set_solver).
  rewrite Hkl in Hnd. rewrite Hlk in Hnd'.
  apply NoDup_app in Hnd as (Hnda & Hdisj & Hndu).
  apply NoDup_cons in Hndu as [Hu _].
  apply NoDup_app in Hnd' as (_ & Hdisj' & Hndv).
  apply NoDup_cons in Hndv as [Hv _].
  apply path_split. split_and!.
  - eapply path_frame; [| |exact Ha].
    + rewrite removelast_snoc. intros z Hz. rewrite Hn.
      rewrite !decide_False; [done| |]; intros ->; [apply (Hdisj u Hz)|]; set_solver.
    + intros z Hz. rewrite Hp. rewrite !decide_False; [done| |]; intros ->.
      * apply (Hdisj' v Hz). set_solver.
      * apply Hnew. destruct a; simpl in *; set_solver.
  - split; rewrite ?Hn, ?Hp; [|by rewrite decide_True].
    rewrite decide_False by set_solver. by rewrite decide_True.
  - apply path_cons. split.
    + split; rewrite ?Hn, ?Hp; [by rewrite decide_True|].
      rewrite decide_False by set_solver. by rewrite decide_True.
    + eapply path_frame; [| |exact Hb].
      * intros z Hz. rewrite Hn. rewrite !decide_False; [done| |]; intros ->; [done|].
        apply elem_of_removelast in Hz. set_solver.
      * intros z Hz. simpl in Hz. rewrite Hp. rewrite !decide_False; [done| |]; intros ->; set_solver.
Qed.

(** Unlinking [x] from between its neighbours. *)
Lemma ring_delete h h' k l a u x v b :
  ring h k l → k :: l ++ [k] = a ++ u :: x :: v :: b →
  (∀ z, next_of h' z = if decide (z = u) then Some v else next_of h z) →
  (∀ z, prev_of h' z = if decide (z = v) then Some u else prev_of h z) →
  path h' (a ++ u :: v :: b).
Proof.
  intros [Hnd Hpath] Hc Hn Hp. rewrite Hc in Hpath.
  apply path_split in Hpath as (Ha & _ & Hb). apply path_cons in Hb as [_ Hb].
  assert (k :: l = a ++ u :: x :: removelast (v :: b)) as Hkl.
  { rewrite <-(removelast_snoc (k :: l) k). simpl app. rewrite Hc.
    rewrite !removelast_app by done. done. }
  assert (l ++ [k] = tail (a ++ [u]) ++ x :: v :: b) as Hlk.
  { change (l ++ [k]) with (tail (k :: l ++ [k])). rewrite Hc. destruct a; [done|]. simpl. by rewrite <-app_assoc. }
  assert (NoDup (l ++ [k])) as Hnd'.
  { apply NoDup_app. apply NoDup_cons in Hnd as [? ?].
    split_and!; [done|set_solver|apply NoDup_singleton]. }
  rewrite Hkl in Hnd. rewrite Hlk in Hnd'.
  apply NoDup_app in Hnd as (Hnda & Hdisj & Hndu).
  apply NoDup_cons in Hndu as [Hu _].
  apply NoDup_app in Hnd' as (_ & Hdisj' & Hndv).
  apply NoDup_cons in Hndv as [_ Hndv]. apply NoDup_cons in Hndv as [Hv _].
  apply path_split. split_and!.
  - eapply path_frame; [| |exact Ha].
    + rewrite removelast_snoc. intros z Hz. rewrite Hn.
      rewrite decide_False; [done|]. intros ->. apply (Hdisj u Hz). set_solver.
    + intros z Hz. rewrite Hp. rewrite decide_False; [done|]. intros ->.
      apply (Hdisj' v Hz). set_solver.
  - split; rewrite ?Hn, ?Hp; by rewrite decide_True.
  - eapply path_frame; [| |exact Hb].
    + intros z Hz. rewrite Hn. rewrite decide_False; [done|]. intros ->. set_solver.
    + intros z Hz. simpl in Hz. rewrite Hp. rewrite decide_False; [done|]. intros ->. set_solver.
Qed.

(** ** Effect of the pointer operations on the two fields *)

Lemma next_of_insert h p e z :
  next_of (<[p := e]> h) z = if decide (z = p) then Some (next e) else next_of h z.
Proof.
  unfold next_of. rewrite lookup_insert. repeat case_decide; naive_solver.
Qed.
Lemma prev_of_insert h p e z :
  prev_of (<[p := e]> h) z = if decide (z = p) then Some (prev e) else prev_of h z.
Proof.
  unfold prev_of. rewrite lookup_insert. repeat case_decide; naive_solver.
Qed.

Lemma set_next_ok h p v e :
  h !! p = Some e → set_next p v h = Ok (tt, <[p := mk_entry (prev e) v]> h).
Proof. unfold set_next. by intros ->. Qed.
Lemma set_prev_ok h p v e :
  h !! p = Some e → set_prev p v h = Ok (tt, <[p := mk_entry v (next e)]> h).
Proof. unfold set_prev. by intros ->. Qed.

Lemma set_next_fields h p v :
  is_Some (h !! p) → ∃ h', set_next p v h = Ok (tt, h') ∧
    (∀ z, is_Some (h' !! z) ↔ is_Some (h !! z)) ∧
    (∀ z, next_of h' z = if decide (z = p) then Some v else next_of h z) ∧
    (∀ z, prev_of h' z = prev_of h z).
Proof.
  intros [e He]. eexists. split; [by apply set_next_ok|].
  split_and!; intros z.
  - rewrite lookup_insert. case_decide; [subst; rewrite He|done]. naive_solver.
  - apply next_of_insert.
  - rewrite prev_of_insert. case_decide; [|done]. subst. unfold prev_of. by rewrite He.
Qed.
Lemma set_prev_fields h p v :
  is_Some (h !! p) → ∃ h', set_prev p v h = Ok (tt, h') ∧
    (∀ z, is_Some (h' !! z) ↔ is_Some (h !! z)) ∧
    (∀ z, prev_of h' z = if decide (z = p) then Some v else prev_of h z) ∧
    (∀ z, next_of h' z = next_of h z).
Proof.
  intros [e He]. eexists. split; [by apply set_prev_ok|].
  split_and!; intros z.
  - rewrite lookup_insert. case_decide; [subst; rewrite He|done]. naive_solver.
  - apply prev_of_insert.
  - rewrite next_of_insert. case_decide; [|done]. subst. unfold next_of. by rewrite He.
Qed.

Lemma list_add__fields h elm u v :
  is_Some (h !! u) → is_Some (h !! v) →
  ∃ h', list_add_ elm u v h = Ok (tt, h') ∧
    (∀ z, next_of h' z = if decide (z = elm) then Some v
                         else if decide (z = u) then Some elm else next_of h z) ∧
    (∀ z, prev_of h' z = if decide (z = elm) then Some u
                         else if decide (z = v) then Some elm else prev_of h z).
Proof.
  intros Hu Hv. unfold list_add_.
  destruct (set_prev_fields h v elm Hv) as (h1 & E1 & D1 & P1 & N1).
  rewrite (bind_ok _ _ _ _ _ E1).
  destruct (set_next_fields h1 u elm) as (h2 & E2 & D2 & N2 & P2); [by apply D1|].
  rewrite (bind_ok _ _ _ _ _ E2). unfold modify. eexists. split; [done|].
  split; intros z.
  - rewrite next_of_insert, N2, N1. done.
  - rewrite prev_of_insert, P2, P1. done.
Qed.

Lemma list_del__fields h u v :
  is_Some (h !! u) → is_Some (h !! v) →
  ∃ h', list_del_ u v h = Ok (tt, h') ∧
    (∀ z, next_of h' z = if decide (z = u) then Some v else next_of h z) ∧
    (∀ z, prev_of h' z = if decide (z = v) then Some u else prev_of h z).
Proof.
  intros Hu Hv. unfold list_del_.
  destruct (set_next_fields h u v Hu) as (h1 & E1 & D1 & N1 & P1).
  rewrite (bind_ok _ _ _ _ _ E1).
  destruct (set_prev_fields h1 v u) as (h2 & E2 & D2 & P2 & N2); [by apply D1|].
  exists h2. split; [done|]. split; intros z; [by rewrite N2, N1|by rewrite P2, P1].
Qed.

(** ** The operations implement lists *)

Lemma ring_step h k l1 l2 a u v b :
  ring h k (l1 ++ l2) → k :: l1 = a ++ [u] → l2 ++ [k] = v :: b →
  k :: (l1 ++ l2) ++ [k] = a ++ u :: v :: b ∧ link h u v.
Proof.
  intros [_ Hp] Hu Hv.
  assert (k :: (l1 ++ l2) ++ [k] = a ++ u :: v :: b) as Hc.
  { rewrite <-app_assoc, Hv, app_comm_cons, Hu, <-app_assoc. done. }
  split; [done|]. rewrite Hc in Hp. by apply path_split in Hp as (? & ? & ?).
Qed.

Lemma link_some h u v : link h u v → is_Some (h !! u) ∧ is_Some (h !! v).
Proof.
  unfold link, next_of, prev_of. intros [Hn Hp].
  destruct (h !! u), (h !! v); naive_solver.
Qed.

Lemma list_next_link h u v : link h u v → list_next u h = Ok (v, h).
Proof.
  intros [Hn _]. unfold next_of in Hn. unfold list_next, mbind, M_bind, deref.
  destruct (h !! u) as [e|]; [|done]. by simplify_eq/=.
Qed.
Lemma list_prev_link h u v : link h u v → list_prev v h = Ok (u, h).
Proof.
  intros [_ Hp]. unfold prev_of in Hp. unfold list_prev, mbind, M_bind, deref.
  destruct (h !! v) as [e|]; [|done]. by simplify_eq/=.
Qed.

(** The successor and the predecessor along a ring. *)
Lemma list_next_spec h L k l1 l2 a u v b :
  rep h L → L !! k = Some (l1 ++ l2) → k :: l1 = a ++ [u] → l2 ++ [k] = v :: b →
  list_next u h = Ok (v, h).
Proof.
  intros [Hr _] Hk Hu Hv. apply list_next_link.
  by apply (ring_step h k l1 l2 a u v b (Hr _ _ Hk)).
Qed.
Lemma list_prev_spec h L k l1 l2 a u v b :
  rep h L → L !! k = Some (l1 ++ l2) → k :: l1 = a ++ [u] → l2 ++ [k] = v :: b →
  list_prev v h = Ok (u, h).
Proof.
  intros [Hr _] Hk Hu Hv. apply list_prev_link.
  by apply (ring_step h k l1 l2 a u v b (Hr _ _ Hk)).
Qed.

Lemma available_notin L k l elm :
  L !! k = Some l → available L elm → elm ≠ k → elm ∉ k :: l.
Proof.
  intros Hk [Hun _] Hne. apply (Hun k l). by rewrite lookup_delete_ne.
Qed.

Lemma ring_frame h h' k l :
  ring h k l →
  (∀ z, z ∈ k :: l → next_of h' z = next_of h z ∧ prev_of h' z = prev_of h z) →
  ring h' k l.
Proof.
  intros [Hnd Hp] Hz. split; [done|]. eapply path_frame; [| |exact Hp].
  - change (k :: l ++ [k]) with ((k :: l) ++ [k]). rewrite removelast_snoc.
    intros z ?. by apply Hz.
  - intros z Hin. simpl in Hin. apply Hz. set_solver.
Qed.

Lemma rep_add h L k l1 l2 a u v b elm :
  rep h L → L !! k = Some (l1 ++ l2) → k :: l1 = a ++ [u] → l2 ++ [k] = v :: b →
  available L elm → elm ≠ k →
  ∃ h', list_add_ elm u v h = Ok (tt, h') ∧
        rep h' (<[k := l1 ++ elm :: l2]> (delete elm L)).
Proof.
  intros [Hr Hdisj] Hk Hu Hv Hav Hne.
  pose proof (Hr _ _ Hk) as Hring.
  destruct (ring_step _ _ _ _ _ _ _ _ Hring Hu Hv) as [Hc Hl].
  destruct (link_some _ _ _ Hl) as [Hsu Hsv].
  destruct (list_add__fields h elm u v Hsu Hsv) as (h' & E & Hn & Hp).
  pose proof (available_notin _ _ _ _ Hk Hav Hne) as Hnotin.
  assert (u ∈ k :: l1 ++ l2 ∧ v ∈ k :: l1 ++ l2) as [Hinu Hinv].
  { split.
    - assert (u ∈ k :: l1) by (rewrite Hu; set_solver). set_solver.
    - assert (v ∈ l2 ++ [k]) by (rewrite Hv; set_solver). set_solver. }
  exists h'. split; [done|]. split.
  - intros k' l' Hk'. destruct (decide (k' = k)) as [->|Hkk].
    + rewrite lookup_insert_eq in Hk'. injection Hk' as <-. split.
      * destruct Hring as [Hnd _]. clear Hc.
        change (NoDup ((k :: l1) ++ elm :: l2)).
        rewrite <-Permutation_middle. by apply NoDup_cons.
      * pose proof (ring_insert _ _ _ _ _ _ _ _ _ Hring Hc Hnotin Hn Hp) as Hpath.
        assert (k :: (l1 ++ elm :: l2) ++ [k] = (k :: l1) ++ elm :: (l2 ++ [k])) as ->
          by (by rewrite <-app_assoc).
        rewrite Hu, Hv. by rewrite <-app_assoc.
    + rewrite lookup_insert_ne in Hk' by done.
      apply lookup_delete_Some in Hk' as [Hek Hk'].
      eapply ring_frame; [by apply Hr|]. intros z Hz. rewrite Hn, Hp.
      assert (z ≠ elm). { intros ->. by apply (available_notin _ _ _ _ Hk' Hav Hek). }
      assert (z ≠ u). { intros ->. by apply Hkk, (Hdisj _ _ _ _ u Hk' Hk). }
      assert (z ≠ v). { intros ->. by apply Hkk, (Hdisj _ _ _ _ v Hk' Hk). }
      by rewrite !decide_False.
  - intros k1 m1 k2 m2 x H1 H2 Hx1 Hx2.
    rewrite lookup_insert_Some in H1. rewrite lookup_insert_Some in H2.
    rewrite lookup_delete_Some in H1. rewrite lookup_delete_Some in H2.
    destruct H1 as [[<- <-]|(? & ? & H1)], H2 as [[<- <-]|(? & ? & H2)]; try done.
    + destruct (decide (x = elm)) as [->|].
      * by destruct (available_notin _ _ _ _ H2 Hav).
      * eapply Hdisj; [exact Hk|exact H2| |exact Hx2]. set_solver.
    + destruct (decide (x = elm)) as [->|].
      * by destruct (available_notin _ _ _ _ H1 Hav).
      * eapply Hdisj; [exact H1|exact Hk|exact Hx1|]. set_solver.
    + eauto.
Qed.

(** [list_add_after u elm], [list_add_before v elm]: [elm] goes between [u],
    the last of [k :: l1], and [v], the first of [l2 ++ [k]]. *)
Lemma list_add_after_at h L k l1 l2 a u elm :
  rep h L → L !! k = Some (l1 ++ l2) → k :: l1 = a ++ [u] →
  available L elm → elm ≠ k →
  ∃ h', list_add_after u elm h = Ok (tt, h') ∧
        rep h' (<[k := l1 ++ elm :: l2]> (delete elm L)).
Proof.
  intros Hrep Hk Hu Hav Hne.
  assert (∃ v b, l2 ++ [k] = v :: b) as (v & b & Hv) by (destruct l2; simpl; eauto).
  destruct (rep_add _ _ _ _ _ _ _ _ _ _ Hrep Hk Hu Hv Hav Hne) as (h' & E & Hrep').
  exists h'. split; [|done]. unfold list_add_after.
  by rewrite (bind_ok _ _ _ _ _ (list_next_spec _ _ _ _ _ _ _ _ _ Hrep Hk Hu Hv)).
Qed.

Lemma list_add_before_at h L k l1 l2 v b elm :
  rep h L → L !! k = Some (l1 ++ l2) → l2 ++ [k] = v :: b →
  available L elm → elm ≠ k →
  ∃ h', list_add_before v elm h = Ok (tt, h') ∧
        rep h' (<[k := l1 ++ elm :: l2]> (delete elm L)).
Proof.
  intros Hrep Hk Hv Hav Hne.
  assert (∃ a u, k :: l1 = a ++ [u]) as (a & u & Hu).
  { destruct (exists_last (l := k :: l1)) as (a & u & ->); [done|eauto]. }
  destruct (rep_add _ _ _ _ _ _ _ _ _ _ Hrep Hk Hu Hv Hav Hne) as (h' & E & Hrep').
  exists h'. split; [|done]. unfold list_add_before.
  by rewrite (bind_ok _ _ _ _ _ (list_prev_spec _ _ _ _ _ _ _ _ _ Hrep Hk Hu Hv)).
Qed.

Lemma list_add_after_spec h L k l elm :
  rep h L → L !! k = Some l → available L elm → elm ≠ k →
  ∃ h', list_add_after k elm h = Ok (tt, h') ∧ rep h' (<[k := elm :: l]> (delete elm L)).
Proof. intros ? ? ? ?. by apply (list_add_after_at h L k [] l [] k elm). Qed.

Lemma list_add_before_spec h L k l elm :
  rep h L → L !! k = Some l → available L elm → elm ≠ k →
  ∃ h', list_add_before k elm h = Ok (tt, h') ∧ rep h' (<[k := l ++ [elm]]> (delete elm L)).
Proof.
  intros ? ? ? ?. apply (list_add_before_at h L k l [] k []); try done. by rewrite app_nil_r.
Qed.

Lemma rep_del h L k l1 x l2 :
  rep h L → L !! k = Some (l1 ++ x :: l2) →
  ∃ h', list_del x h = Ok (tt, h') ∧ rep h' (<[k := l1 ++ l2]> L).
Proof.
  intros Hrep Hk. pose proof Hrep as [Hr Hdisj]. pose proof (Hr _ _ Hk) as Hring.
  assert (∃ a u, k :: l1 = a ++ [u]) as (a & u & Hu).
  { destruct (exists_last (l := k :: l1)) as (a & u & ->); [done|eauto]. }
  assert (∃ v b, l2 ++ [k] = v :: b) as (v & b & Hv) by (destruct l2; simpl; eauto).
  assert ((l1 ++ [x]) ++ l2 = l1 ++ x :: l2) as Hl by by rewrite <-app_assoc.
  assert (k :: (l1 ++ x :: l2) ++ [k] = a ++ u :: x :: v :: b) as Hc.
  { transitivity ((k :: l1) ++ x :: (l2 ++ [k])); [by rewrite <-app_assoc|].
    rewrite Hu, Hv. by rewrite <-app_assoc. }
  pose proof Hring as [Hnd Hpath]. rewrite Hc in Hpath.
  apply path_split in Hpath as (_ & Hux & Hxv). apply path_cons in Hxv as [Hxv _].
  destruct (link_some _ _ _ Hux) as [Hsu _], (link_some _ _ _ Hxv) as [_ Hsv].
  destruct (list_del__fields h u v Hsu Hsv) as (h' & E & Hn & Hp).
  exists h'. split.
  { unfold list_del. rewrite (bind_ok _ _ _ _ _ (list_prev_link _ _ _ Hux)).
    by rewrite (bind_ok _ _ _ _ _ (list_next_link _ _ _ Hxv)). }
  assert (u ∈ k :: l1 ++ x :: l2 ∧ v ∈ k :: l1 ++ x :: l2) as [Hinu Hinv].
  { split.
    - assert (u ∈ k :: l1) by (rewrite Hu; set_solver). set_solver.
    - assert (v ∈ l2 ++ [k]) by (rewrite Hv; set_solver). set_solver. }
  split.
  - intros k' l' Hk'. destruct (decide (k' = k)) as [->|Hkk].
    + rewrite lookup_insert_eq in Hk'. injection Hk' as <-. split.
      * change (NoDup ((k :: l1) ++ x :: l2)) in Hnd.
        rewrite <-Permutation_middle in Hnd. by apply NoDup_cons in Hnd as [_ ?].
      * assert (k :: (l1 ++ l2) ++ [k] = a ++ u :: v :: b) as ->.
        { transitivity ((k :: l1) ++ (l2 ++ [k])); [by rewrite <-app_assoc|].
          rewrite Hu, Hv. by rewrite <-app_assoc. }
        by apply (ring_delete _ _ _ _ _ _ _ _ _ Hring Hc).
    + rewrite lookup_insert_ne in Hk' by done.
      eapply ring_frame; [by apply Hr|]. intros z Hz. rewrite Hn, Hp.
      assert (z ≠ u). { intros ->. by apply Hkk, (Hdisj _ _ _ _ u Hk' Hk). }
      assert (z ≠ v). { intros ->. by apply Hkk, (Hdisj _ _ _ _ v Hk' Hk). }
      by rewrite !decide_False.
  - intros k1 m1 k2 m2 z H1 H2 Hx1 Hx2.
    rewrite lookup_insert_Some in H1. rewrite lookup_insert_Some in H2.
    destruct H1 as [[<- <-]|(? & H1)], H2 as [[<- <-]|(? & H2)]; try done.
    + eapply Hdisj; [exact Hk|exact H2| |exact Hx2]. set_solver.
    + eapply Hdisj; [exact H1|exact Hk|exact Hx1|]. set_solver.
    + eauto.
Qed.

(** After [list_del] the element is on no list. *)
Lemma rep_del_unlisted h L k l1 x l2 :
  rep h L → L !! k = Some (l1 ++ x :: l2) → unlisted (<[k := l1 ++ l2]> L) x.
Proof.
  intros [Hr Hdisj] Hk k' l' Hk' Hin.
  assert (x ∈ k :: l1 ++ x :: l2) as Hx by set_solver.
  apply lookup_insert_Some in Hk' as [[<- <-]|[Hne Hk']].
  - destruct (Hr _ _ Hk) as [Hnd _].
    change (NoDup ((k :: l1) ++ x :: l2)) in Hnd.
    rewrite <-Permutation_middle in Hnd. apply NoDup_cons in Hnd as [? _]. set_solver.
  - by apply Hne, (Hdisj _ _ _ _ x Hk Hk').
Qed.

Lemma rep_init h L x :
  rep h L → available L x →
  ∃ h', list_init x h = Ok (tt, h') ∧ rep h' (<[x := []]> L).
Proof.
  intros [Hr Hdisj] Hav. eexists. split; [done|].
  assert (∀ k l, k ≠ x → L !! k = Some l → x ∉ k :: l) as Hnot.
  { intros k l Hne Hk. by apply (available_notin L). }
  split.
  - intros k l Hk. apply lookup_insert_Some in Hk as [[<- <-]|[Hne Hk]].
    + split; [apply NoDup_singleton|]. simpl. unfold link, next_of, prev_of.
      by rewrite !lookup_insert_eq.
    + eapply ring_frame; [by apply Hr|]. intros z Hz.
      assert (z ≠ x) by (intros ->; by apply (Hnot _ _ (not_eq_sym Hne) Hk)).
      unfold next_of, prev_of. by rewrite !lookup_insert_ne.
  - intros k1 m1 k2 m2 z H1 H2 Hx1 Hx2.
    rewrite lookup_insert_Some in H1. rewrite lookup_insert_Some in H2.
    destruct H1 as [[<- <-]|(? & H1)], H2 as [[<- <-]|(? & H2)]; try done.
    + apply list_elem_of_singleton in Hx1 as ->. by destruct (Hnot _ _ (not_eq_sym H0) H2).
    + apply list_elem_of_singleton in Hx2 as ->. by destruct (Hnot _ _ (not_eq_sym H0) H1).
    + eauto.
Qed.

Lemma unlisted_available L x : unlisted L x → available L x.
Proof.
  intros Hun. assert (L !! x = None) as Hx.
  { destruct (L !! x) eqn:E; [|done]. destruct (Hun _ _ E). set_solver. }
  split; [|by left]. intros k l Hk. apply lookup_delete_Some in Hk as [_ Hk]. by apply Hun.
Qed.

Lemma list_del_init_spec h L k l1 x l2 :
  rep h L → L !! k = Some (l1 ++ x :: l2) →
  ∃ h', list_del_init x h = Ok (tt, h') ∧ rep h' (<[x := []]> (<[k := l1 ++ l2]> L)).
Proof.
  intros Hrep Hk. destruct (rep_del _ _ _ _ _ _ Hrep Hk) as (h1 & E1 & Hrep1).
  destruct (rep_init h1 _ x Hrep1) as (h2 & E2 & Hrep2).
  { by eapply unlisted_available, rep_del_unlisted. }
  exists h2. split; [|done]. unfold list_del_init. by rewrite (bind_ok _ _ _ _ _ E1).
Qed.

(** [list_empty] on a head, and on an element that is queued. *)
Lemma list_empty_spec h L k l :
  rep h L → L !! k = Some l →
  list_empty k h = Ok (match l with [] => true | _ => false end, h).
Proof.
  intros Hrep Hk. pose proof Hrep as [Hr _]. destruct (Hr _ _ Hk) as [Hnd _].
  assert (∃ v b, l ++ [k] = v :: b) as (v & b & Hv) by (destruct l; simpl; eauto).
  unfold list_empty.
  rewrite (bind_ok _ _ _ _ _ (list_next_spec h L k [] l [] k v b Hrep Hk eq_refl Hv)).
  unfold mret, M_ret. destruct l as [|y l]; simplify_eq/=.
  - by rewrite bool_decide_true.
  - rewrite bool_decide_false; [done|]. intros ->. apply NoDup_cons in Hnd. set_solver.
Qed.

Lemma list_empty_elem h L k l x :
  rep h L → L !! k = Some l → x ∈ l → list_empty x h = Ok (false, h).
Proof.
  intros Hrep Hk Hx. pose proof Hrep as [Hr _]. destruct (Hr _ _ Hk) as [Hnd _].
  apply list_elem_of_split in Hx as (l1 & l2 & ->).
  assert (∃ v b, l2 ++ [k] = v :: b) as (v & b & Hv) by (destruct l2; simpl; eauto).
  unfold list_empty.
  rewrite (bind_ok _ _ _ _ _ (list_next_spec h L k (l1 ++ [x]) l2 (k :: l1) x v b Hrep
    ltac:(by rewrite <-app_assoc) eq_refl Hv)).
  unfold mret, M_ret. rewrite bool_decide_false; [done|]. intros ->.
  change (NoDup ((k :: l1) ++ x :: l2)) in Hnd.
  rewrite <-Permutation_middle in Hnd. apply NoDup_cons in Hnd as [Hnd _].
  destruct l2; simplify_eq/=; set_solver.
Qed.

(** A node that is alone may be put on another list. *)
Lemma rep_alone_available h L x : rep h L → L !! x = Some [] → available L x.
Proof.
  intros [_ Hdisj] Hx. split; [|by right]. intros k l Hk Hin.
  apply lookup_delete_Some in Hk as [Hne Hk]. apply Hne.
  apply (Hdisj x [] k l x Hx Hk); [set_solver|done].
Qed.

(** Forgetting an entry that is on no list (its memory is given back). *)
Lemma rep_forget h L x : rep h L → unlisted L x → rep (delete x h) L.
Proof.
  intros [Hr Hdisj] Hun. split; [|done]. intros k l Hk.
  eapply ring_frame; [by apply Hr|]. intros z Hz.
  assert (z ≠ x) by (intros ->; by apply (Hun _ _ Hk)).
  unfold next_of, prev_of. by rewrite lookup_delete_ne.
Qed.

Lemma rep_empty : rep ∅ ∅.
Proof. split; [by intros ? ?|by intros ? ? ? ?]. Qed.

Lemma rep_weaken h L L' : L' ⊆ L → rep h L → rep h L'.
Proof.
  intros Hs [Hr Hd]. split; [intros k l Hk; by apply Hr, (lookup_weaken _ _ _ _ Hk Hs)|].
  intros k1 l1 k2 l2 x H1 H2. apply Hd; by eapply lookup_weaken.
Qed.

(** ** Walks along a list

    After the elements [l1] a walk stands at [cursor k l1]; the next one is
    the first of [l2], or the head again. *)

Definition cursor k l1 : K := default k (last l1).

Lemma cursor_snoc k l x : cursor k (l ++ [x]) = x.
Proof. unfold cursor. by rewrite last_snoc. Qed.
Lemma cursor_split k l1 : ∃ a, k :: l1 = a ++ [cursor k l1].
Proof.
  destruct (exists_last (l := k :: l1)) as (a & u & E); [done|]. exists a. rewrite E. do 2 f_equal.
  unfold cursor. destruct a as [|y a]; simplify_eq/=; [done|]. by rewrite last_snoc.
Qed.
Lemma head_split k l2 : ∃ b, l2 ++ [k] = default k (head l2) :: b.
Proof. destruct l2; simpl; eauto. Qed.

Lemma list_next_cursor h L k l1 l2 :
  rep h L → L !! k = Some (l1 ++ l2) → list_next (cursor k l1) h = Ok (default k (head l2), h).
Proof.
  intros Hr Hk. destruct (cursor_split k l1) as [a Ha]. destruct (head_split k l2) as [b Hb].
  by apply (list_next_spec h L k l1 l2 a _ _ b).
Qed.
Lemma list_prev_cursor h L k l1 l2 :
  rep h L → L !! k = Some (l1 ++ l2) → list_prev (default k (head l2)) h = Ok (cursor k l1, h).
Proof.
  intros Hr Hk. destruct (cursor_split k l1) as [a Ha]. destruct (head_split k l2) as [b Hb].
  by apply (list_prev_spec h L k l1 l2 a _ _ b).
Qed.

(** A walk visits each entry of the store at most once. *)
Lemma path_dom h c x : path h c → (1 < length c)%nat → x ∈ c → is_Some (h !! x).
Proof.
  induction c as [|y c IH]; [simpl; lia|]. destruct c as [|z c]; [simpl; lia|].
  rewrite path_cons. intros [Hl Hp] _ Hx. destruct (link_some _ _ _ Hl) as [Hy Hz].
  apply elem_of_cons in Hx as [->|Hx]; [done|]. destruct c as [|w c].
  - apply list_elem_of_singleton in Hx as ->. done.
  - apply IH; [done|simpl; lia|done].
Qed.
Lemma rep_dom h L k l x : rep h L → L !! k = Some l → x ∈ k :: l → is_Some (h !! x).
Proof.
  intros [Hr _] Hk Hx. destruct (Hr _ _ Hk) as [_ Hp]. eapply path_dom; [exact Hp| |].
  - simpl. rewrite length_app. simpl. lia.
  - set_solver.
Qed.
Lemma rep_size h L k l : rep h L → L !! k = Some l → (length l < size h)%nat.
Proof.
  intros Hrep Hk. pose proof Hrep as [Hr _]. destruct (Hr _ _ Hk) as [Hnd _].
  assert (list_to_set (k :: l) ⊆ dom h) as Hsub.
  { intros x Hx. apply elem_of_list_to_set in Hx. apply elem_of_dom. by eapply rep_dom. }
  apply subseteq_size in Hsub. rewrite size_list_to_set in Hsub by done. rewrite size_dom in Hsub. simpl in Hsub. lia.
Qed.

(** Insertion writes to the list and to the new element only. *)
Lemma list_add_after_frame h L k l1 l2 elm h' z :
  rep h L → L !! k = Some (l1 ++ l2) → list_add_after (cursor k l1) elm h = Ok (tt, h') →
  z ≠ elm → z ∉ k :: l1 ++ l2 → h' !! z = h !! z.
Proof.
  intros Hr Hk E Hz Hin. unfold list_add_after in E. rewrite (bind_ok _ _ _ _ _ (list_next_cursor _ _ _ _ _ Hr Hk)) in E.
  assert (Hu : z ≠ cursor k l1).
  { destruct (cursor_split k l1) as [a Ha]. intros ->. apply Hin. rewrite app_comm_cons, Ha. set_solver. }
  assert (Hv : z ≠ default k (head l2)).
  { intros ->. apply Hin. destruct l2; simpl; set_solver. }
  unfold list_add_ in E. apply bind_inv in E as ([] & h1 & E1 & E). apply bind_inv in E as ([] & h2 & E2 & E).
  unfold set_prev in E1. unfold set_next in E2. destruct (h !! _); [|done]. injection E1 as <-.
  destruct (<[_ := _]> h !! _); [|done]. injection E2 as <-. injection E as <-. by rewrite !lookup_insert_ne by congruence.
Qed.

End dlist.

(** ** Building a store from its lists *)

Section build.
Context {K : Type} `{Countable K}.

Definition add_all (h : K) (l : list K) (m : gmap K (list_entry K)) : gmap K (list_entry K) :=
  foldl (λ m e, match list_add_before h e m with Ok (_, m') => m' | Err _ => m end) m l.

(** The entries of the lists [spec], each given by its head and its elements. *)
Fixpoint build (spec : list (K * list K)) : gmap K (list_entry K) :=
  match spec with
  | [] => ∅
  | (h, l) :: spec' => add_all h l (<[h := mk_entry h h]> (build spec'))
  end.

Definition nodes (spec : list (K * list K)) : list K := concat (map (λ x, x.1 :: x.2) spec).

Lemma add_all_rep l : ∀ l0 h m L,
  rep m L → L !! h = Some l0 → NoDup l → h ∉ l → (∀ e, e ∈ l → unlisted L e) →
  rep (add_all h l m) (<[h := l0 ++ l]> L).
Proof.
  induction l as [|e l IH]; intros l0 h m L Hr Hh Hnd Hn Hun; unfold add_all; simpl.
  - by rewrite app_nil_r, insert_id.
  - apply NoDup_cons in Hnd as [He Hnd].
    destruct (list_add_before_spec m L h l0 e Hr Hh) as (m' & E & Hr').
    { apply unlisted_available, Hun. left. } { set_solver. }
    rewrite E. rewrite delete_id in Hr'.
    2: { destruct (L !! e) eqn:Ee; [|done]. exfalso. apply (Hun e ltac:(left) _ _ Ee). left. }
    specialize (IH (l0 ++ [e]) h m' _ Hr'). rewrite <-app_assoc, insert_insert_eq in IH.
    apply IH; [apply lookup_insert_eq|done|set_solver|].
    intros e' He' k' l' [[<- <-]|[Hne Hk']]%lookup_insert_Some; [|by apply (Hun e'); [set_solver|]].
    intros Hin. apply (Hun e' ltac:(set_solver) h l0 Hh). set_solver.
Qed.

Lemma nodes_lookup spec h l y :
  (list_to_map spec : gmap K (list K)) !! h = Some l → y ∈ h :: l → y ∈ nodes spec.
Proof.
  induction spec as [|[h' l'] spec IH]; [done|]. simpl.
  intros [[-> ->]|[_ Hl]]%lookup_insert_Some Hy; unfold nodes; simpl; [set_solver|].
  specialize (IH Hl Hy). unfold nodes in IH. set_solver.
Qed.

Lemma build_rep spec : NoDup (nodes spec) → rep (build spec) (list_to_map spec).
Proof.
  induction spec as [|[h l] spec IH]; [intros _; apply rep_empty|].
  unfold nodes. simpl. intros [Hn Hnd]%NoDup_cons. apply NoDup_app in Hnd as (Hnl & Hd & Hnd).
  specialize (IH Hnd).
  assert (∀ y, y = h ∨ y ∈ l → unlisted (list_to_map spec : gmap K (list K)) y) as Hun.
  { intros y Hy k l' Hl' Hin. assert (y ∈ nodes spec) by by eapply nodes_lookup.
    destruct Hy as [->|Hy]; [apply Hn; apply elem_of_app; by right|by apply (Hd y)]. }
  destruct (rep_init _ _ h IH) as (m' & E & Hr); [by apply unlisted_available, Hun; left|].
  injection E as <-.
  replace (<[h := l]> (list_to_map spec : gmap K (list K)))
    with (<[h := [] ++ l]> (<[h := []]> (list_to_map spec) : gmap K (list K))) by apply insert_insert_eq.
  apply add_all_rep; [done|apply lookup_insert_eq|done|set_solver|].
  intros e He k' l' [[<- <-]|[Hne Hk']]%lookup_insert_Some; [set_solver|].
  by apply (Hun e (or_intror He)).
Qed.
End build.
