(* ===== verification/Mem.v ===== *)
(** * Byte memory

    The byte-addressed memory that the string routines and the GPU command
    lists are written to: a finite map from addresses to bytes, with the
    little-endian accesses of [vc4_cl.h] and the block operations.  A read of
    an address that is not mapped is an error; writes are total, so that
    writing outside the intended area is visible as a change there and the
    safety theorems have to exclude it. *)

From S2P Require Import Prelude.

(** The [n] bytes of [z], least significant first. *)
Fixpoint le_bytes (n : nat) (z : Z) : list Z :=
  match n with
  | O => []
  | S n' => z mod 256 :: le_bytes n' (z / 256)
  end.

Fixpoint le_combine (bs : list Z) : Z :=
  match bs with
  | [] => 0
  | b :: bs' => b + 256 * le_combine bs'
  end.

Fixpoint write_bytes (a : Z) (bs : list Z) (m : gmap Z Z) : gmap Z Z :=
  match bs with
  | [] => m
  | b :: bs' => write_bytes (a + 1) bs' (<[a := b]> m)
  end.

Fixpoint read_bytes (m : gmap Z Z) (a : Z) (n : nat) : option (list Z) :=
  match n with
  | O => Some []
  | S n' => b ← m !! a; bs ← read_bytes m (a + 1) n'; Some (b :: bs)
  end.

(** [vc4_cl.h]: accesses through the packed structures. *)
Definition put_unaligned_32 (ptr val : Z) (m : gmap Z Z) : gmap Z Z :=
  write_bytes ptr (le_bytes 4 val) m.
Definition put_unaligned_16 (ptr val : Z) (m : gmap Z Z) : gmap Z Z :=
  write_bytes ptr (le_bytes 2 val) m.
Definition get_unaligned_32 (m : gmap Z Z) (ptr : Z) : option Z :=
  le_combine <$> read_bytes m ptr 4.
Definition get_unaligned_16 (m : gmap Z Z) (ptr : Z) : option Z :=
  le_combine <$> read_bytes m ptr 2.

(** ** Lemmas *)

Lemma le_bytes_length n z : length (le_bytes n z) = n.
Proof. revert z. induction n; simpl; auto. Qed.

Lemma le_bytes_range n z : Forall (λ b, 0 ≤ b < 256) (le_bytes n z).
Proof.
  revert z. induction n as [|n IH]; intros z; simpl; constructor; [|done].
  apply Z.mod_pos_bound. lia.
Qed.

Lemma le_combine_bytes n z :
  le_combine (le_bytes n z) = z mod 256 ^ Z.of_nat n.
Proof.
  revert z. induction n as [|n IH]; intros z; simpl le_bytes; simpl le_combine.
  { by rewrite Z.mod_1_r. }
  rewrite IH, Nat2Z.inj_succ, Z.pow_succ_r by lia.
  rewrite Z.rem_mul_r by lia. done.
Qed.

Lemma le_combine_u32 z : 0 ≤ z < 2 ^ 32 → le_combine (le_bytes 4 z) = z.
Proof. intros. rewrite le_combine_bytes. apply Z.mod_small. lia. Qed.
Lemma le_combine_u16 z : 0 ≤ z < 2 ^ 16 → le_combine (le_bytes 2 z) = z.
Proof. intros. rewrite le_combine_bytes. apply Z.mod_small. lia. Qed.

Lemma le_combine_range bs :
  Forall (λ b, 0 ≤ b < 256) bs → 0 ≤ le_combine bs < 256 ^ Z.of_nat (length bs).
Proof.
  induction 1 as [|b bs Hb _ IH]; simpl le_combine; simpl length; [simpl; lia|].
  rewrite Nat2Z.inj_succ, Z.pow_succ_r by lia. lia.
Qed.

Lemma write_bytes_app a bs1 bs2 m :
  write_bytes a (bs1 ++ bs2) m =
  write_bytes (a + Z.of_nat (length bs1)) bs2 (write_bytes a bs1 m).
Proof.
  revert a m. induction bs1 as [|b bs1 IH]; intros a m; simpl.
  - by rewrite Z.add_0_r.
  - rewrite IH. f_equal. lia.
Qed.

(** Writes touch exactly the addresses they cover. *)
Lemma write_bytes_outside a bs m x :
  x < a ∨ a + Z.of_nat (length bs) ≤ x → write_bytes a bs m !! x = m !! x.
Proof.
  revert a m. induction bs as [|b bs IH]; intros a m Hx; simpl in *; [done|].
  rewrite IH by lia. apply lookup_insert_ne. lia.
Qed.

Lemma write_bytes_inside a bs m i b :
  bs !! i = Some b → write_bytes a bs m !! (a + Z.of_nat i) = Some b.
Proof.
  revert a m i. induction bs as [|b' bs IH]; intros a m [|i] Hi; simplify_eq/=.
  - rewrite write_bytes_outside by lia. by rewrite Z.add_0_r, lookup_insert_eq.
  - rewrite <-(IH (a + 1) (<[a:=b']> m) i Hi). f_equal. lia.
Qed.

Lemma read_bytes_ext m m' a n :
  (∀ x, a ≤ x < a + Z.of_nat n → m' !! x = m !! x) →
  read_bytes m' a n = read_bytes m a n.
Proof.
  revert a. induction n as [|n IH]; intros a Hx; simpl; [done|].
  rewrite Hx by lia. destruct (m !! a); simpl; [|done].
  rewrite IH; [done|]. intros. apply Hx. lia.
Qed.

Lemma read_write_bytes a bs m : read_bytes (write_bytes a bs m) a (length bs) = Some bs.
Proof.
  revert a m. induction bs as [|b bs IH]; intros a m; simpl; [done|].
  rewrite write_bytes_outside by lia. rewrite lookup_insert_eq. simpl. by rewrite IH.
Qed.

Lemma read_bytes_length m a n bs : read_bytes m a n = Some bs → length bs = n.
Proof.
  revert a bs. induction n as [|n IH]; intros a bs; simpl; [naive_solver|].
  destruct (m !! a); simpl; [|done]. destruct (read_bytes m (a + 1) n) eqn:E; simpl; [|done].
  intros [= <-]. simpl. f_equal. by eapply IH.
Qed.

(** A sub-range of what was just written reads back. *)
Lemma read_write_sub a bs m k j :
  (k + j ≤ length bs)%nat →
  read_bytes (write_bytes a bs m) (a + Z.of_nat k) j = Some (take j (drop k bs)).
Proof.
  intros Hk. set (mid := take j (drop k bs)).
  assert (length mid = j) as Hmid by (unfold mid; rewrite length_take, length_drop; lia).
  assert (bs = take k bs ++ mid ++ drop j (drop k bs)) as E
    by (unfold mid; by rewrite !take_drop).
  assert (length (take k bs) = k) as Hpre by (rewrite length_take; lia).
  rewrite E at 1. rewrite !write_bytes_app, Hpre, Hmid.
  rewrite (read_bytes_ext (write_bytes (a + Z.of_nat k) mid (write_bytes a (take k bs) m))).
  - rewrite <-(read_write_bytes (a + Z.of_nat k) mid (write_bytes a (take k bs) m)).
    by rewrite Hmid.
  - intros x Hx. apply write_bytes_outside. lia.
Qed.

(** A stored value reads back truncated to 32 bits. *)
Lemma get_put_raw p v m : get_unaligned_32 (put_unaligned_32 p v m) p = Some (u32 v).
Proof.
  unfold get_unaligned_32, put_unaligned_32.
  pose proof (read_write_bytes p (le_bytes 4 v) m) as Hr. rewrite le_bytes_length in Hr.
  rewrite Hr. cbn [fmap option_fmap option_map]. by rewrite le_combine_bytes.
Qed.

Lemma get_put_32 p v m : 0 ≤ v < 2 ^ 32 → get_unaligned_32 (put_unaligned_32 p v m) p = Some v.
Proof. intros Hv. rewrite get_put_raw. by rewrite u32_id. Qed.

Lemma get_32_ext m m' p :
  (∀ x, p ≤ x < p + 4 → m' !! x = m !! x) → get_unaligned_32 m' p = get_unaligned_32 m p.
Proof. intros. unfold get_unaligned_32. f_equal. apply read_bytes_ext. auto with lia. Qed.

Lemma put_32_outside p v m x :
  x < p ∨ p + 4 ≤ x → put_unaligned_32 p v m !! x = m !! x.
Proof.
  intros. unfold put_unaligned_32. apply write_bytes_outside. rewrite le_bytes_length. lia.
Qed.

(** The two memories agree outside [[lo, hi)]. *)
Definition mem_frame (lo hi : Z) (m m' : gmap Z Z) : Prop :=
  ∀ x, x < lo ∨ hi ≤ x → m' !! x = m !! x.

Lemma mem_frame_refl lo hi m : mem_frame lo hi m m.
Proof. by intros x. Qed.
Lemma mem_frame_trans lo hi m1 m2 m3 :
  mem_frame lo hi m1 m2 → mem_frame lo hi m2 m3 → mem_frame lo hi m1 m3.
Proof. intros H1 H2 x Hx. by rewrite H2, H1. Qed.
Lemma mem_frame_weaken lo hi lo' hi' m m' :
  mem_frame lo hi m m' → lo' ≤ lo → hi ≤ hi' → mem_frame lo' hi' m m'.
Proof. intros H ? ? x Hx. apply H. lia. Qed.
Lemma mem_frame_write lo hi a bs m :
  lo ≤ a → a + Z.of_nat (length bs) ≤ hi → mem_frame lo hi m (write_bytes a bs m).
Proof. intros ?? x Hx. apply write_bytes_outside. lia. Qed.
Lemma mem_frame_put_32 lo hi p v m :
  lo ≤ p → p + 4 ≤ hi → mem_frame lo hi m (put_unaligned_32 p v m).
Proof. intros ?? x Hx. apply put_32_outside. lia. Qed.
Lemma mem_frame_insert lo hi p v m :
  lo ≤ p < hi → mem_frame lo hi m (<[p := v]> m).
Proof. intros ? x Hx. apply lookup_insert_ne. lia. Qed.
#[export] Hint Resolve mem_frame_refl : ucore.
