(* ===== verification/Slab.v ===== *)
(** * Size classes of the kernel heap

    [mm/slab.c]: [kmalloc] rounds a request up to a power of two between 32
    bytes and 128 KB ([getorder]) and takes an object from the cache of that
    size.  Whether the cache has an object is decided by the free physical
    memory; it is the argument [avail] of [kmalloc]. *)

From S2P Require Import Prelude.

Definition MIN_SIZE_ORDER : Z := 5.
Definition MAX_SIZE_ORDER : Z := 17.

(** The loop of [getorder]: [(order, order_size)]; 14 rounds cover the orders
    5 to 17. *)
Definition getorder {S} (n : Z) : M S Z :=
  loop 14 (λ '(order, order_size),
    if negb (order <=? MAX_SIZE_ORDER) then fail Panic
    else if n <=? order_size then mret (inr order)
    else mret (inl (order + 1, u32 (Z.shiftl order_size 1))))
  (MIN_SIZE_ORDER, Z.shiftl 1 MIN_SIZE_ORDER).

(** [kmalloc]: the size of the object that is returned, [None] for [NULL]. *)
Definition kmalloc {S} (avail : bool) (size : Z) : M S (option Z) :=
  _ ← assert (0 <? size);
  order ← getorder size;
  if MAX_SIZE_ORDER <? order then mret None
  else mret (if avail then Some (2 ^ order) else None).

(** ** Theorems *)

Lemma getorder_from {S} (n order : Z) (fuel : nat) (s : S) :
  5 ≤ order ≤ 18 → Z.of_nat fuel = 19 - order → (order = 18 → 2 ^ 17 < n) →
  loop fuel (λ '(order, order_size),
    if negb (order <=? MAX_SIZE_ORDER) then fail Panic
    else if n <=? order_size then mret (inr order)
    else mret (inl (order + 1, u32 (Z.shiftl order_size 1)))) (order, 2 ^ order) s =
  if n <=? 2 ^ 17 then Ok (Z.max order (Z.log2_up n), s) else Err (A := Z * S) Panic.
Proof.
  revert order. induction fuel as [|fuel IH]; intros order Ho Hf Hlast; [lia|].
  rewrite loop_step. unfold MAX_SIZE_ORDER. destruct (Z.leb_spec order 17); simpl.
  - destruct (Z.leb_spec n (2 ^ order)) as [Hn|Hn]; simpl.
    + assert (2 ^ order ≤ 2 ^ 17) by (apply Z.pow_le_mono_r; lia).
      rewrite (proj2 (Z.leb_le _ _)) by lia. unfold mret, M_ret. do 2 f_equal.
      pose proof (Z.log2_up_le_mono _ _ Hn) as Hl. rewrite Z.log2_up_pow2 in Hl by lia. lia.
    + rewrite Z.shiftl_mul_pow2, Z.mul_comm, Z.pow_1_r, <-Z.pow_succ_r by lia.
      rewrite u32_id by (split; [lia|]; apply Z.pow_lt_mono_r; lia).
      rewrite <-Z.add_1_r, IH; [|lia|lia|intros; by replace 17 with order by lia].
      destruct (Z.leb_spec n (2 ^ 17)); [|done]. do 2 f_equal.
      assert (order < Z.log2_up n) by (apply Z.log2_up_lt_pow2; lia). lia.
  - assert (order = 18) as -> by lia.
    rewrite (proj2 (Z.leb_gt _ _)) by auto. done.
Qed.

Lemma getorder_spec {S} n (s : S) :
  getorder n s = if n <=? 2 ^ 17 then Ok (Z.max 5 (Z.log2_up n), s) else Err Panic.
Proof. apply (getorder_from n 5 14); lia. Qed.

(** The size class of a request. *)
Definition size_class (n : Z) : Z := 2 ^ Z.max 5 (Z.log2_up n).

Lemma size_class_range n : 0 < n → n ≤ size_class n ∧ size_class n < Z.max 33 (2 * n).
Proof.
  intros Hn. unfold size_class. destruct (decide (n = 1)) as [->|Hn1]; [by vm_compute|].
  pose proof (Z.log2_up_spec n ltac:(lia)) as [Hlo Hhi].
  destruct (Z.max_spec 5 (Z.log2_up n)) as [[Hm ->]|[Hm ->]].
  - split; [lia|]. assert (2 ^ Z.log2_up n = 2 * 2 ^ Z.pred (Z.log2_up n)).
    { rewrite <-Z.pow_succ_r by lia. f_equal. lia. }
    lia.
  - split; [|lia]. assert (2 ^ Z.log2_up n ≤ 2 ^ 5) by (apply Z.pow_le_mono_r; lia). lia.
Qed.

Lemma kmalloc_ok {S} (avail : bool) (size : Z) (s : S) :
  0 < size ≤ 2 ^ 17 → kmalloc avail size s = Ok (if avail then Some (size_class size) else None, s).
Proof.
  intros Hs. unfold kmalloc. rewrite (proj2 (Z.ltb_lt _ _)) by lia. cbn [assert].
  rewrite (bind_ok _ _ _ _ _ eq_refl).
  erewrite bind_ok; [|rewrite getorder_spec, (proj2 (Z.leb_le _ _)) by lia; reflexivity].
  assert (Z.log2_up size ≤ 17).
  { assert (size ≤ 2 ^ 17) as Hle by lia.
    pose proof (Z.log2_up_le_mono _ _ Hle) as Hl. rewrite Z.log2_up_pow2 in Hl by lia. done. }
  rewrite (proj2 (Z.ltb_ge _ _)) by (unfold MAX_SIZE_ORDER; lia). by destruct avail.
Qed.

(** What [kmalloc] gives.  A request of 1 to 128 KB is answered with an
    object that holds it and is smaller than twice the request (or the
    smallest object, 32 bytes), or with [NULL] when there is no memory; a
    request of 0 or of more than 128 KB panics, so that the test for a too
    large order behind [getorder] is never taken. *)
Theorem kmalloc_spec (S : Type) (avail : bool) (size : Z) (s : S) :
  kmalloc avail size s =
    (if (0 <? size) && (size <=? 2 ^ 17)
     then Ok (if avail then Some (size_class size) else None, s) else Err Panic) ∧
  (0 < size → size ≤ size_class size < Z.max 33 (2 * size)).
Proof.
  split; [|apply size_class_range].
  destruct (Z.ltb_spec 0 size) as [Hs|Hs]; cbn [andb].
  2:{ unfold kmalloc. by rewrite (proj2 (Z.ltb_ge _ _)) by lia. }
  destruct (Z.leb_spec size (2 ^ 17)) as [Hle|Hgt]; [by apply kmalloc_ok|].
  unfold kmalloc. rewrite (proj2 (Z.ltb_lt _ _)) by lia. cbn [assert].
  rewrite (bind_ok _ _ _ _ _ eq_refl).
  apply bind_err. by rewrite getorder_spec, (proj2 (Z.leb_gt _ _)) by done.
Qed.
