(* ===== verification/Buddy.v ===== *)
(** * The buddy page allocator

    [arch/arm/mm/buddy_pmm.c], with [alloc_pages], [free_pages] and
    [nr_free_pages] of [arch/arm/mm/pmm.c] and the page structure of
    [arch/arm/include/memlayout_common.h].  A [struct Page *] is the index of
    the page in the array [pages], which is its page number ([page2ppn]). *)

From S2P Require Import Prelude DList.

Definition MAX_ORDER : Z := 10.
Definition MAX_ZONE_NUM : Z := 10.
Definition PG_reserved : Z := 0.
Definition PG_property : Z := 1.

Record Page : Type := mk_page { ref : Z; flags : Z; property : Z; zone_num : Z }.
#[export] Instance eta_Page : Eta Page := λ r, mk_page (ref r) (flags r) (property r) (zone_num r).

Definition PageReserved (p : Page) : bool := Z.testbit (flags p) PG_reserved.
Definition PageProperty (p : Page) : bool := Z.testbit (flags p) PG_property.
Definition SetPageProperty (p : Page) : Page := p <| flags := Z.setbit (flags p) PG_property |>.
Definition ClearPageProperty (p : Page) : Page := p <| flags := Z.clearbit (flags p) PG_property |>.

(** The linked members: [free_area[k].free_list] and [page->page_link]. *)
Inductive blink : Type := free_list (k : Z) | page_link (p : Z).
#[export] Instance blink_eq_dec : EqDecision blink.
Proof. solve_decision. Defined.
#[export] Instance blink_countable : Countable blink.
Proof.
  refine (inj_countable' (λ x, match x with free_list k => inl k | page_link p => inr p end)
    (λ x, match x with inl k => free_list k | inr p => page_link p end) _).
  by intros [].
Defined.

(** [zone_cnt] is the static counter of [buddy_init_memmap]; [used_pages] is
    that of the processor. *)
Record pmm : Type := mk_pmm {
  pages : gmap Z Page;
  npage : Z;
  plinks : gmap blink (list_entry blink);
  nr_free : gmap Z Z;
  mem_base : gmap Z Z;
  zone_cnt : Z;
  used_pages : Z;
}.
#[export] Instance eta_pmm : Eta pmm := λ r,
  mk_pmm (pages r) (npage r) (plinks r) (nr_free r) (mem_base r) (zone_cnt r) (used_pages r).

Definition on_plinks {A} (m : M (gmap blink (list_entry blink)) A) : M pmm A := λ s,
  match m (plinks s) with Ok (a, h) => Ok (a, s <| plinks := h |>) | Err e => Err e end.
Definition get_page (p : Z) : M pmm Page := deref (λ s, pages s !! p).
Definition set_page (p : Z) (f : Page → Page) : M pmm unit :=
  v ← get_page p; modify (λ s, s <| pages := <[p := f v]> (pages s) |>).
Definition add_nr_free (k d : Z) : M pmm unit :=
  n ← deref (λ s, nr_free s !! k); modify (λ s, s <| nr_free := <[k := u32 (n + d)]> (nr_free s) |>).
Definition le2page (le : blink) : M pmm Z :=
  match le with page_link p => mret p | _ => fail Fault end.

(** ** Initialisation *)

Definition buddy_init_body (i : Z) : M pmm (Z + unit) :=
  if i <=? MAX_ORDER then
    _ ← on_plinks (list_init (free_list i));
    _ ← modify (λ s, s <| nr_free := <[i := 0]> (nr_free s) |>);
    mret (inl (i + 1))
  else mret (inr tt).
Definition buddy_init : M pmm unit := loop 12 buddy_init_body 0.

Definition memmap_page_body (last : Z) (p : Z) : M pmm (Z + unit) :=
  if p =? last then mret (inr tt)
  else
    s ← get;
    v ← get_page p;
    _ ← assert (PageReserved v);
    _ ← set_page p (λ v, v <| flags := 0 |> <| property := 0 |> <| zone_num := zone_cnt s |> <| ref := 0 |>);
    mret (inl (p + 1)).

(** The inner loop: blocks of one order. *)
Definition memmap_order_body (order order_size : Z) (q : Z * Z) : M pmm (Z * Z + Z * Z) :=
  let '(p, n) := q in
  if order_size <=? n then
    _ ← set_page p (λ v, v <| property := order |>);
    _ ← set_page p SetPageProperty;
    _ ← on_plinks (list_add (free_list order) (page_link p));
    _ ← add_nr_free order 1;
    mret (inl (p + order_size, n - order_size))
  else mret (inr (p, n)).

Definition memmap_body (q : Z * Z * Z * Z) : M pmm (Z * Z * Z * Z + unit) :=
  let '(p, n, order, order_size) := q in
  if n =? 0 then mret (inr tt)
  else
    r ← loop (S (Z.to_nat n)) (memmap_order_body order order_size) (p, n);
    mret (inl (r.1, r.2, u32 (order - 1), Z.shiftr order_size 1)).

Definition buddy_init_memmap (base n : Z) : M pmm unit :=
  s ← get;
  _ ← assert ((0 <? n) && (zone_cnt s <? MAX_ZONE_NUM));
  _ ← loop (S (Z.to_nat n)) (memmap_page_body (base + n)) base;
  _ ← modify (λ s, s <| mem_base := <[zone_cnt s := base]> (mem_base s) |>
                     <| zone_cnt := zone_cnt s + 1 |>);
  loop 12 memmap_body (base, n, MAX_ORDER, Z.shiftl 1 MAX_ORDER).

(** ** Freeing *)

Definition page2idx (p : Z) : M pmm Z :=
  v ← get_page p; b ← deref (λ s, mem_base s !! zone_num v); mret (p - b).
Definition idx2page (z idx : Z) : M pmm Z :=
  b ← deref (λ s, mem_base s !! z); mret (b + idx).

Definition page_is_buddy (p order z : Z) : M pmm bool :=
  s ← get;
  if p <? npage s then
    v ← get_page p;
    if zone_num v =? z then
      mret (negb (PageReserved v) && PageProperty v && (property v =? order))
    else mret false
  else mret false.

Definition clear_page_body (last : Z) (p : Z) : M pmm (Z + unit) :=
  if p =? last then mret (inr tt)
  else
    v ← get_page p;
    _ ← assert (negb (PageReserved v) && negb (PageProperty v));
    _ ← set_page p (λ v, v <| flags := 0 |> <| ref := 0 |>);
    mret (inl (p + 1)).

Definition merge_body (z : Z) (q : Z * Z) : M pmm (Z * Z + Z * Z) :=
  let '(page_idx, order) := q in
  if order <? MAX_ORDER then
    let buddy_idx := Z.lxor page_idx (Z.shiftl 1 order) in
    buddy ← idx2page z buddy_idx;
    b ← page_is_buddy buddy order z;
    if negb b then mret (inr (page_idx, order))
    else
      _ ← add_nr_free order (-1);
      _ ← on_plinks (list_del (page_link buddy));
      _ ← set_page buddy ClearPageProperty;
      mret (inl (Z.land page_idx buddy_idx, order + 1))
  else mret (inr (page_idx, order)).

Definition buddy_free_pages_sub (base order : Z) : M pmm unit :=
  page_idx ← page2idx base;
  _ ← assert (Z.land page_idx (Z.shiftl 1 order - 1) =? 0);
  _ ← loop (S (Z.to_nat (2 ^ order))) (clear_page_body (base + Z.shiftl 1 order)) base;
  v ← get_page base;
  let z := zone_num v in
  r ← loop 11 (merge_body z) (page_idx, order);
  let '(page_idx, order) := r in
  page ← idx2page z page_idx;
  _ ← set_page page (λ v, v <| property := order |>);
  _ ← set_page page SetPageProperty;
  _ ← add_nr_free order 1;
  on_plinks (list_add (free_list order) (page_link page)).

(** The ascending pass over the set bits of the index, then the descending
    pass over the bits of what is left. *)
Definition ascend_body (q : Z * Z * Z * Z) : M pmm (Z * Z * Z * Z + Z * Z * Z * Z) :=
  let '(base, n, order, order_size) := q in
  if order_size <=? n then
    _ ← assert (order <=? MAX_ORDER);
    idx ← page2idx base;
    if negb (Z.land idx order_size =? 0) then
      _ ← buddy_free_pages_sub base order;
      mret (inl (base + order_size, n - order_size, order + 1, Z.shiftl order_size 1))
    else mret (inl (base, n, order + 1, Z.shiftl order_size 1))
  else mret (inr (base, n, order, order_size)).

Definition shrink_body (n : Z) (q : Z * Z) : M pmm (Z * Z + Z * Z) :=
  let '(order, order_size) := q in
  if n <? order_size then mret (inl (order - 1, Z.shiftr order_size 1)) else mret (inr (order, order_size)).

Definition descend_body (q : Z * Z * Z * Z) : M pmm (Z * Z * Z * Z + unit) :=
  let '(base, n, order, order_size) := q in
  if n =? 0 then mret (inr tt)
  else
    r ← loop 34 (shrink_body n) (order, order_size);
    let '(order, order_size) := r in
    _ ← buddy_free_pages_sub base order;
    mret (inl (base + order_size, n - order_size, order, order_size)).

Definition buddy_free_pages (base n : Z) : M pmm unit :=
  _ ← assert (0 <? n);
  if n =? 1 then buddy_free_pages_sub base 0
  else
    r ← loop 33 ascend_body (base, n, 0, 1);
    loop (S (Z.to_nat r.1.1.2)) descend_body r.

Definition free_pages (base n : Z) : M pmm unit :=
  _ ← buddy_free_pages base n;
  modify (λ s, s <| used_pages := u32 (used_pages s - n) |>).

(** ** Allocation *)

Definition getorder_body (n : Z) (q : Z * Z) : M pmm (Z * Z + Z) :=
  let '(order, order_size) := q in
  if order <=? MAX_ORDER then
    mret (if n <=? order_size then inr order else inl (order + 1, Z.shiftl order_size 1))
  else fail Panic.
Definition getorder (n : Z) : M pmm Z := loop 12 (getorder_body n) (0, 1).

(** The halves of a larger block go back to the free lists. *)
Definition split_body (page order : Z) (q : Z * Z) : M pmm (Z * Z + unit) :=
  let '(cur_order, size) := q in
  if order <? cur_order then
    let cur_order := cur_order - 1 in
    let size := Z.shiftr size 1 in
    let buddy := page + size in
    _ ← set_page buddy (λ v, v <| property := cur_order |>);
    _ ← set_page buddy SetPageProperty;
    _ ← add_nr_free cur_order 1;
    _ ← on_plinks (list_add (free_list cur_order) (page_link buddy));
    mret (inl (cur_order, size))
  else mret (inr tt).

Definition find_body (order cur_order : Z) : M pmm (Z + option Z) :=
  if cur_order <=? MAX_ORDER then
    e ← on_plinks (list_empty (free_list cur_order));
    if negb e then
      le ← on_plinks (list_next (free_list cur_order));
      page ← le2page le;
      _ ← add_nr_free cur_order (-1);
      _ ← on_plinks (list_del le);
      _ ← loop 12 (split_body page order) (cur_order, Z.shiftl 1 cur_order);
      _ ← set_page page ClearPageProperty;
      mret (inr (Some page))
    else mret (inl (cur_order + 1))
  else mret (inr None).

Definition buddy_alloc_pages_sub (order : Z) : M pmm (option Z) :=
  _ ← assert (order <=? MAX_ORDER);
  loop 12 (find_body order) order.

Definition buddy_alloc_pages (n : Z) : M pmm (option Z) :=
  _ ← assert (0 <? n);
  order ← getorder n;
  let order_size := Z.shiftl 1 order in
  page ← buddy_alloc_pages_sub order;
  match page with
  | Some p =>
      _ ← (if negb (n =? order_size) then free_pages (p + n) (order_size - n) else mret tt);
      mret page
  | None => mret None
  end.

Definition alloc_pages (n : Z) : M pmm (option Z) :=
  page ← buddy_alloc_pages n;
  match page with
  | Some _ => _ ← modify (λ s, s <| used_pages := u32 (used_pages s + n) |>); mret page
  | None => mret page
  end.

Definition nr_free_body (q : Z * Z) : M pmm (Z * Z + Z) :=
  let '(order, ret) := q in
  if order <=? MAX_ORDER then
    n ← deref (λ s, nr_free s !! order);
    mret (inl (order + 1, u32 (ret + n * Z.shiftl 1 order)))
  else mret (inr ret).
Definition buddy_nr_free_pages : M pmm Z := loop 12 nr_free_body (0, 0).
Definition nr_free_pages : M pmm Z := buddy_nr_free_pages.
