(* ===== verification/BuddyInv.v ===== *)
(** * The invariant of the buddy allocator

    The free blocks are a finite map from first pages to orders.  The free
    lists, their counts and the page flags represent that map, the blocks are
    aligned in their zones and disjoint, and no two of them are buddies. *)

From S2P Require Import Prelude DList Buddy.

(** The block of order [k] at [p]; the pages of the blocks of [B]. *)
Definition in_block (p k q : Z) : Prop := p ≤ q < p + 2 ^ k.
#[export] Instance in_block_dec p k q : Decision (in_block p k q).
Proof. unfold in_block. apply _. Defined.
Definition free_page (B : gmap Z Z) (q : Z) : Prop := ∃ p k, B !! p = Some k ∧ in_block p k q.

Definition zone_of (s : pmm) (q : Z) : option Z := zone_num <$> pages s !! q.
Definition buddy_of (zb p k : Z) : Z := zb + Z.lxor (p - zb) (2 ^ k).

(** A page that may be handed out: in zone [z], not reserved. *)
Definition usable (s : pmm) (z q : Z) : Prop :=
  ∃ v, pages s !! q = Some v ∧ zone_num v = z ∧ PageReserved v = false.
Record in_zone (s : pmm) (z zb p k : Z) : Prop := {
  iz_base : mem_base s !! z = Some zb;
  iz_ge : zb ≤ p;
  iz_aligned : (p - zb) mod 2 ^ k = 0;
  iz_usable q : in_block p k q → usable s z q;
}.

(** The free lists hold the blocks of [B]. *)
Definition lists_ok (h : gmap blink (list_entry blink)) (nr : gmap Z Z) (B : gmap Z Z) : Prop :=
  ∃ L, rep h L ∧ (∀ x, is_Some (L !! x) → ∃ k, 0 ≤ k ≤ MAX_ORDER ∧ x = free_list k) ∧
    ∀ k, 0 ≤ k ≤ MAX_ORDER → ∃ l, L !! free_list k = Some (page_link <$> l) ∧
      (∀ p, p ∈ l ↔ B !! p = Some k) ∧ nr !! k = Some (Z.of_nat (length l)).

(** [ex]: pages that carry the flag of a free block without being one yet. *)
Record buddy_inv (s : pmm) (B : gmap Z Z) (ex : Z → Prop) : Prop := {
  bi_lists : lists_ok (plinks s) (nr_free s) B;
  bi_blocks p k : B !! p = Some k → 0 ≤ k ≤ MAX_ORDER ∧ ∃ z zb, in_zone s z zb p k;
  bi_head p k : B !! p = Some k →
    ∃ v, pages s !! p = Some v ∧ PageProperty v = true ∧ property v = k;
  bi_disjoint p k q j : B !! p = Some k → B !! q = Some j → p ≠ q → p + 2 ^ k ≤ q ∨ q + 2 ^ j ≤ p;
  bi_flags q v : pages s !! q = Some v → PageReserved v = false → PageProperty v = true →
    ¬ ex q → is_Some (B !! q);
  bi_dom q : is_Some (pages s !! q) ↔ 0 ≤ q < npage s;
  bi_npage : npage s ≤ 2 ^ 20;
  bi_base z zb : mem_base s !! z = Some zb → 0 ≤ zb;
  bi_merged p k z zb : B !! p = Some k → k < MAX_ORDER →
    zone_of s p = Some z → mem_base s !! z = Some zb →
    B !! buddy_of zb p k = Some k → zone_of s (buddy_of zb p k) ≠ Some z;
}.

Definition nobody : Z → Prop := λ _, False.

(** ** Flags *)

Lemma set_property v : PageProperty (SetPageProperty v) = true.
Proof. change (Z.testbit (Z.setbit (flags v) 1) 1 = true). by apply Z.setbit_eq. Qed.
Lemma set_reserved v : PageReserved (SetPageProperty v) = PageReserved v.
Proof. change (Z.testbit (Z.setbit (flags v) 1) 0 = Z.testbit (flags v) 0). by apply Z.setbit_neq. Qed.
Lemma clear_property v : PageProperty (ClearPageProperty v) = false.
Proof. change (Z.testbit (Z.clearbit (flags v) 1) 1 = false). by apply Z.clearbit_eq. Qed.
Lemma clear_reserved v : PageReserved (ClearPageProperty v) = PageReserved v.
Proof. change (Z.testbit (Z.clearbit (flags v) 1) 0 = Z.testbit (flags v) 0). by apply Z.clearbit_neq. Qed.

(** ** Frames *)

(** [s'] has the zones of [s] and the same pages in them. *)
Record same_zones (s s' : pmm) : Prop := {
  sz_npage : npage s' = npage s;
  sz_base : mem_base s' = mem_base s;
  sz_cnt : zone_cnt s' = zone_cnt s;
  sz_used : used_pages s' = used_pages s;
  sz_zone q : zone_of s' q = zone_of s q;
  sz_usable q z : usable s' z q ↔ usable s z q;
}.

Lemma same_zones_refl s : same_zones s s.
Proof. by constructor. Qed.
Lemma same_zones_trans s1 s2 s3 : same_zones s1 s2 → same_zones s2 s3 → same_zones s1 s3.
Proof.
  intros H1 H2. constructor.
  - by rewrite (sz_npage _ _ H2), (sz_npage _ _ H1).
  - by rewrite (sz_base _ _ H2), (sz_base _ _ H1).
  - by rewrite (sz_cnt _ _ H2), (sz_cnt _ _ H1).
  - by rewrite (sz_used _ _ H2), (sz_used _ _ H1).
  - intros q. by rewrite (sz_zone _ _ H2), (sz_zone _ _ H1).
  - intros q z. by rewrite (sz_usable _ _ H2), (sz_usable _ _ H1).
Qed.

(** Links and counts are no part of the zones. *)
Lemma same_zones_links s h nr : same_zones s (s <| plinks := h |> <| nr_free := nr |>).
Proof. by constructor. Qed.

Lemma same_zones_page s p v v' :
  pages s !! p = Some v → zone_num v' = zone_num v → PageReserved v' = PageReserved v →
  same_zones s (s <| pages := <[p := v']> (pages s) |>).
Proof.
  intros Hp Hz Hr. constructor; try done; intros q.
  - unfold zone_of. simpl. destruct (decide (q = p)) as [->|Hne].
    + rewrite lookup_insert_eq, Hp. simpl. by rewrite Hz.
    + by rewrite lookup_insert_ne.
  - intros z. unfold usable. simpl. destruct (decide (q = p)) as [->|Hne].
    + rewrite lookup_insert_eq, Hp. split; intros (w & E & ? & ?); simplify_eq;
        eexists; (split; [done|]); split; congruence.
    + by rewrite lookup_insert_ne.
Qed.

Lemma in_zone_same s s' z zb p k : same_zones s s' → in_zone s z zb p k → in_zone s' z zb p k.
Proof.
  intros Hs []. constructor; [by rewrite (sz_base _ _ Hs)|done|done|].
  intros q Hq. by apply (sz_usable _ _ Hs), iz_usable0.
Qed.

(** The pages that are in use: in zone [z], not reserved, not flagged, not free. *)
Definition owned (s : pmm) (B : gmap Z Z) (z p n : Z) : Prop :=
  ∀ q, p ≤ q < p + n → (∃ v, pages s !! q = Some v ∧ zone_num v = z ∧
    PageReserved v = false ∧ PageProperty v = false) ∧ ¬ free_page B q.

(** ** Blocks *)

Lemma pow2_pos k : 0 ≤ k → 1 ≤ 2 ^ k.
Proof. intros Hk. pose proof (Z.pow_pos_nonneg 2 k ltac:(lia) Hk). lia. Qed.
#[export] Hint Resolve pow2_pos : ucore.

Lemma in_block_self p k : 0 ≤ k → in_block p k p.
Proof. intros Hk. unfold in_block. pose proof (pow2_pos k Hk). lia. Qed.

Lemma in_zone_head s z zb p k : 0 ≤ k → in_zone s z zb p k → zone_of s p = Some z.
Proof.
  intros Hk Hz. destruct (iz_usable _ _ _ _ _ Hz p (in_block_self p k Hk)) as (v & E & Hv & _).
  unfold zone_of. rewrite E. simpl. by rewrite Hv.
Qed.

Lemma free_page_insert B p k q :
  B !! p = None → free_page (<[p := k]> B) q ↔ free_page B q ∨ in_block p k q.
Proof.
  intros Hp. split.
  - intros (p' & k' & H & Hq). apply lookup_insert_Some in H as [[<- <-]|[? ?]]; [by right|].
    left. by exists p', k'.
  - intros [(p' & k' & H & Hq)|Hq].
    + exists p', k'. split; [|done]. rewrite lookup_insert_ne; [done|]. congruence.
    + exists p, k. by rewrite lookup_insert_eq.
Qed.

(** Taking a block out of the map takes its pages, and no others. *)
Lemma free_page_delete s B ex p k q :
  buddy_inv s B ex → B !! p = Some k → free_page (delete p B) q ↔ free_page B q ∧ ¬ in_block p k q.
Proof.
  intros Hi Hp. split.
  - intros (p' & k' & H & Hq). apply lookup_delete_Some in H as [Hne H].
    split; [by exists p', k'|]. unfold in_block in *.
    destruct (bi_disjoint _ _ _ Hi _ _ _ _ Hp H Hne); lia.
  - intros [(p' & k' & H & Hq) Hn]. exists p', k'. split; [|done].
    rewrite lookup_delete_ne; [done|]. intros ->. by simplify_eq.
Qed.

Lemma bi_pow s B ex p k : buddy_inv s B ex → B !! p = Some k → 1 ≤ 2 ^ k.
Proof. intros Hi Hp. destruct (bi_blocks _ _ _ Hi _ _ Hp) as [Hk _]. apply pow2_pos. lia. Qed.

Lemma free_head s B ex p k : buddy_inv s B ex → B !! p = Some k → free_page B p.
Proof.
  intros Hi Hp. exists p, k. split; [done|]. apply in_block_self.
  destruct (bi_blocks _ _ _ Hi _ _ Hp). lia.
Qed.

(** A list of pages is no longer than there are pages. *)
Lemma page_list_length (l : list Z) n :
  NoDup l → (∀ p, p ∈ l → 0 ≤ p < n) → Z.of_nat (length l) ≤ Z.max 0 n.
Proof.
  intros Hnd Hl. rewrite <-(size_list_to_set (C := gset Z)) by done.
  assert (list_to_set l ⊆ (list_to_set (seqZ 0 n) : gset Z)) as Hsub.
  { intros x Hx. apply elem_of_list_to_set in Hx. apply elem_of_list_to_set, elem_of_seqZ.
    specialize (Hl x Hx). lia. }
  apply subseteq_size in Hsub. rewrite (size_list_to_set (seqZ 0 n)) in Hsub by apply NoDup_seqZ.
  rewrite length_seqZ in Hsub. lia.
Qed.

Lemma fmap_link_nodup h L k (l : list Z) :
  rep h L → L !! free_list k = Some (page_link <$> l) → NoDup l.
Proof.
  intros [Hr _] Hk. destruct (Hr _ _ Hk) as [Hnd _]. apply NoDup_cons in Hnd as [_ Hnd].
  by eapply NoDup_fmap_1.
Qed.

(** The count of a list does not overflow. *)
Lemma list_bound s B ex k (l : list Z) :
  buddy_inv s B ex → NoDup l → (∀ p, p ∈ l → B !! p = Some k) → Z.of_nat (length l) ≤ 2 ^ 20.
Proof.
  intros Hi Hnd Hmem.
  transitivity (Z.max 0 (npage s)); [|pose proof (bi_npage _ _ _ Hi); lia].
  apply page_list_length; [done|]. intros p Hp. apply Hmem in Hp.
  destruct (bi_head _ _ _ Hi _ _ Hp) as (v & Hv & _). by apply (bi_dom _ _ _ Hi).
Qed.

(** ** Updates *)

(** A page that heads no free block changes. *)
Lemma inv_page s B ex (ex' : Z → Prop) p v v' :
  buddy_inv s B ex → pages s !! p = Some v → B !! p = None →
  zone_num v' = zone_num v → PageReserved v' = PageReserved v →
  (PageProperty v' = true → ex' p) → (∀ q, q ≠ p → ex q → ex' q) →
  buddy_inv (s <| pages := <[p := v']> (pages s) |>) B ex'.
Proof.
  intros Hi Hp HB Hz Hr Hpr Hex. pose proof (same_zones_page s p v v' Hp Hz Hr) as Hs.
  destruct Hi as [Hl Hb Hh Hd Hf Hdom Hn Hbase Hm]. constructor; simpl; try done.
  - intros p' k H. destruct (Hb _ _ H) as (Hk & z & zb & Hzz). split; [done|].
    exists z, zb. by apply (in_zone_same s).
  - intros p' k H. rewrite lookup_insert_ne by congruence. by apply Hh.
  - intros q w Hq Hrw Hpw Hx. destruct (decide (q = p)) as [->|Hne].
    + rewrite lookup_insert_eq in Hq. simplify_eq. by destruct Hx; apply Hpr.
    + rewrite lookup_insert_ne in Hq by done. apply (Hf q w); auto.
  - intros q. rewrite <-Hdom. destruct (decide (q = p)) as [->|Hne].
    + rewrite lookup_insert_eq, Hp. naive_solver.
    + by rewrite lookup_insert_ne.
  - intros p' k z zb H Hk. pose proof (Hm p' k z zb H Hk) as Hm'.
    pose proof (sz_zone _ _ Hs p') as Z1. pose proof (sz_zone _ _ Hs (buddy_of zb p' k)) as Z2.
    simpl in Z1, Z2. by rewrite Z1, Z2.
Qed.

(** A block leaves the free lists; its flag stays for the moment. *)
Lemma inv_remove s B ex p k :
  buddy_inv s B ex → B !! p = Some k →
  ∃ h n, list_del (page_link p) (plinks s) = Ok (tt, h) ∧ nr_free s !! k = Some n ∧ 0 < n ≤ 2 ^ 20 ∧
    buddy_inv (s <| plinks := h |> <| nr_free := <[k := n - 1]> (nr_free s) |>) (delete p B)
      (λ q, ex q ∨ q = p).
Proof.
  intros Hi Hp. pose proof (bi_blocks _ _ _ Hi _ _ Hp) as [Hk _].
  pose proof Hi as [(L & Hrep & Hkeys & Hl) Hb Hh Hd Hf Hdom Hn Hbase Hm].
  destruct (Hl k Hk) as (l & HL & Hmem & Hnr).
  pose proof (fmap_link_nodup _ _ _ _ Hrep HL) as Hnd.
  assert (Hlen := list_bound _ _ _ k l Hi Hnd (λ q, proj1 (Hmem q))).
  apply Hmem in Hp as Hin. apply list_elem_of_split in Hin as (l1 & l2 & ->).
  rewrite fmap_app, fmap_cons in HL.
  destruct (rep_del _ _ _ _ _ _ Hrep HL) as (h & E & Hrep').
  exists h, (Z.of_nat (length (l1 ++ p :: l2))). split; [done|]. split; [done|].
  rewrite length_app in *. simpl length in *. split; [lia|].
  rewrite <-Permutation_middle in Hnd. apply NoDup_cons in Hnd as [Hnin Hnd].
  constructor; simpl; try done.
  - exists (<[free_list k := (page_link <$> l1) ++ (page_link <$> l2)]> L). split; [done|]. split.
    + intros x. destruct (decide (x = free_list k)) as [->|Hne]; [by exists k|].
      rewrite lookup_insert_ne by done. apply Hkeys.
    + intros j Hj. destruct (decide (j = k)) as [->|Hne].
      * exists (l1 ++ l2). rewrite !lookup_insert_eq, fmap_app, length_app. split; [done|]. split; [|f_equal; lia].
        intros q. rewrite lookup_delete_Some, <-Hmem. set_solver.
      * destruct (Hl j Hj) as (l' & HL' & Hmem' & Hnr'). exists l'.
        rewrite !lookup_insert_ne by congruence. split; [done|]. split; [|done].
        intros q. rewrite lookup_delete_Some, <-Hmem'. split; [|naive_solver]. intros Hq. split; [|done].
        intros <-. apply Hmem' in Hq. congruence.
  - intros q j H. apply lookup_delete_Some in H as [_ H]. destruct (Hb _ _ H) as (Hj & z & zb & Hz).
    split; [done|]. exists z, zb. destruct Hz. by constructor.
  - intros q j H. apply lookup_delete_Some in H as [_ H]. by apply Hh.
  - intros q j q' j' H H'. apply lookup_delete_Some in H as [_ H]. apply lookup_delete_Some in H' as [_ H'].
    by apply Hd.
  - intros q w Hq Hr Hpr Hx. destruct (Hf q w Hq Hr Hpr) as [j Hj]; [naive_solver|].
    exists j. apply lookup_delete_Some. split; [naive_solver|done].
  - intros q j z zb H Hj Hz Hzb H'. apply lookup_delete_Some in H as [_ H]. apply lookup_delete_Some in H' as [_ H'].
    by apply (Hm q j).
Qed.

(** A flagged block enters the free lists: its pages are in no other block and
    its buddy is not free. *)
Lemma inv_insert s B (ex ex' : Z → Prop) z zb p k v :
  buddy_inv s B ex → 0 ≤ k ≤ MAX_ORDER → in_zone s z zb p k →
  pages s !! p = Some v → PageProperty v = true → property v = k →
  (∀ q, in_block p k q → ¬ free_page B q) →
  (k < MAX_ORDER → B !! buddy_of zb p k = Some k → zone_of s (buddy_of zb p k) ≠ Some z) →
  (∀ q, q ≠ p → ex q → ex' q) →
  ∃ h n, list_add (free_list k) (page_link p) (plinks s) = Ok (tt, h) ∧ nr_free s !! k = Some n ∧
    0 ≤ n ≤ 2 ^ 20 ∧
    buddy_inv (s <| plinks := h |> <| nr_free := <[k := n + 1]> (nr_free s) |>) (<[p := k]> B) ex'.
Proof.
  intros Hi Hk Hz Hv Hpr Hprop Hfree Hbud Hex.
  assert (HB : B !! p = None).
  { destruct (B !! p) as [j|] eqn:E; [|done]. exfalso. apply (Hfree p); [apply in_block_self; lia|].
    by apply (free_head _ _ _ _ _ Hi E). }
  pose proof Hi as [(L & Hrep & Hkeys & Hl) Hb Hh Hd Hf Hdom Hn Hbase Hm].
  destruct (Hl k Hk) as (l & HL & Hmem & Hnr).
  pose proof (fmap_link_nodup _ _ _ _ Hrep HL) as Hnd.
  assert (Hlen := list_bound _ _ _ k l Hi Hnd (λ q, proj1 (Hmem q))).
  assert (Hun : unlisted L (page_link p)).
  { intros x l' Hx Hin. destruct (Hkeys x) as (j & Hj & ->); [by eexists|].
    apply elem_of_cons in Hin as [?|Hin]; [done|].
    destruct (Hl j Hj) as (lj & HLj & Hmemj & _). rewrite HLj in Hx. simplify_eq.
    apply list_elem_of_fmap in Hin as (q & [= <-] & Hq). apply Hmemj in Hq. congruence. }
  destruct (list_add_after_spec _ _ _ _ (page_link p) Hrep HL (unlisted_available _ _ Hun) ltac:(done))
    as (h & E & Hrep').
  rewrite delete_id in Hrep' by (destruct (unlisted_available _ _ Hun) as [_ [?|Hsome]]; [done|];
    destruct (Hkeys (page_link p)) as (? & _ & ?); [by eexists|done]).
  exists h, (Z.of_nat (length l)). split; [done|]. split; [done|]. split; [lia|].
  constructor; simpl; try done.
  - exists (<[free_list k := page_link p :: (page_link <$> l)]> L). split; [done|]. split.
    + intros x. destruct (decide (x = free_list k)) as [->|Hne]; [by exists k|].
      rewrite lookup_insert_ne by done. apply Hkeys.
    + intros j Hj. destruct (decide (j = k)) as [->|Hne].
      * exists (p :: l). rewrite !lookup_insert_eq. split; [done|]. split; [|f_equal; simpl; lia].
        intros q. rewrite elem_of_cons, lookup_insert_Some, Hmem. naive_solver.
      * destruct (Hl j Hj) as (l' & HL' & Hmem' & Hnr'). exists l'.
        rewrite !lookup_insert_ne by congruence. split; [done|]. split; [|done].
        intros q. rewrite lookup_insert_Some, Hmem'. naive_solver.
  - intros q j H. apply lookup_insert_Some in H as [[<- <-]|[_ H]].
    + split; [done|]. exists z, zb. destruct Hz. by constructor.
    + destruct (Hb _ _ H) as (Hj & z' & zb' & Hz'). split; [done|]. exists z', zb'. destruct Hz'. by constructor.
  - intros q j H. apply lookup_insert_Some in H as [[<- <-]|[_ H]]; [by exists v|by apply Hh].
  - assert (Hapart : ∀ q j, B !! q = Some j → p + 2 ^ k ≤ q ∨ q + 2 ^ j ≤ p).
    { intros q j H. pose proof (bi_pow _ _ _ _ _ Hi H). pose proof (pow2_pos k ltac:(lia)).
      destruct (decide (p + 2 ^ k ≤ q)); [by left|]. right.
      destruct (decide (q + 2 ^ j ≤ p)); [done|]. exfalso.
      apply (Hfree (Z.max p q)); [unfold in_block; lia|]. exists q, j. split; [done|]. unfold in_block. lia. }
    intros q j q' j' H H' Hne.
    apply lookup_insert_Some in H as [[<- <-]|[_ H]]; apply lookup_insert_Some in H' as [[<- <-]|[_ H']].
    + done.
    + by apply Hapart.
    + destruct (Hapart _ _ H); lia.
    + by apply Hd.
  - intros q w Hq Hr Hpw Hx. destruct (decide (q = p)) as [->|Hne]; [rewrite lookup_insert_eq; by eexists|].
    rewrite lookup_insert_ne by done. apply (Hf q w); auto.
  - intros q j z' zb' H Hj Hzq Hzb H'. change (zone_of s q = Some z') in Hzq.
    change (zone_of s (buddy_of zb' q j) ≠ Some z').
    pose proof (in_zone_head s z zb p k ltac:(lia) Hz) as Hzp.
    assert (Hself : ∀ zb x i, 0 ≤ i → buddy_of zb x i ≠ x).
    { intros zb0 x i Hi0 Heq. unfold buddy_of in Heq.
      assert (Z.lxor (x - zb0) (2 ^ i) = x - zb0) as Hx by lia.
      apply (f_equal (Z.lxor (x - zb0))) in Hx.
      rewrite <-Z.lxor_assoc, Z.lxor_nilpotent, Z.lxor_0_l in Hx. pose proof (pow2_pos i Hi0). lia. }
    apply lookup_insert_Some in H as [[<- <-]|[Hne H]].
    + rewrite lookup_insert_ne in H' by (intros Heq; by apply (Hself zb' p k ltac:(lia))).
      assert (z' = z) as -> by congruence. rewrite (iz_base _ _ _ _ _ Hz) in Hzb. simplify_eq. by apply Hbud.
    + apply lookup_insert_Some in H' as [[Hpb <-]|[_ H']]; [|by apply (Hm q j)].
      intros Hzz. rewrite <-Hpb in Hzz. assert (z' = z) as -> by congruence.
      pose proof (iz_base _ _ _ _ _ Hz) as Hzb'. assert (zb' = zb) as -> by congruence.
      assert (buddy_of zb p k = q) as Hq.
      { rewrite Hpb. unfold buddy_of. replace (zb + Z.lxor (q - zb) (2 ^ k) - zb) with (Z.lxor (q - zb) (2 ^ k)) by lia.
        rewrite Z.lxor_assoc, Z.lxor_nilpotent, Z.lxor_0_r. lia. }
      rewrite Hq in Hbud. by apply (Hbud Hj H).
Qed.
