(* ===== verification/BuddySpec.v ===== *)
(** * The buddy allocator implements a set of free pages *)

From S2P Require Import Prelude DList Buddy BuddyInv.

(** ** Rules for the accessors *)

Lemma get_page_ok s p v : pages s !! p = Some v → get_page p s = Ok (v, s).
Proof. intros H. unfold get_page, deref. by rewrite H. Qed.
Lemma set_page_ok s p f v :
  pages s !! p = Some v → set_page p f s = Ok (tt, s <| pages := <[p := f v]> (pages s) |>).
Proof. intros H. unfold set_page. by rewrite (bind_ok _ _ _ _ _ (get_page_ok _ _ _ H)). Qed.
Lemma add_nr_free_ok s k d n :
  nr_free s !! k = Some n → 0 ≤ n + d < 2 ^ 32 →
  add_nr_free k d s = Ok (tt, s <| nr_free := <[k := n + d]> (nr_free s) |>).
Proof.
  intros H Hn. unfold add_nr_free. rewrite (bind_ok _ _ s n s) by (unfold deref; by rewrite H).
  unfold modify. by rewrite u32_id.
Qed.
Lemma on_plinks_ok {A} (m : M _ A) s a h :
  m (plinks s) = Ok (a, h) → on_plinks m s = Ok (a, s <| plinks := h |>).
Proof. intros H. unfold on_plinks. by rewrite H. Qed.
Lemma on_plinks_read {A} (m : M _ A) s a : m (plinks s) = Ok (a, plinks s) → on_plinks m s = Ok (a, s).
Proof. intros H. unfold on_plinks. rewrite H. by destruct s. Qed.

(** ** Powers of two as bit masks *)

Lemma shiftl_pow k : 0 ≤ k → Z.shiftl 1 k = 2 ^ k.
Proof. intros. by rewrite Z.shiftl_1_l. Qed.

Lemma lxor_even a : Z.lxor (2 * a) 1 = 2 * a + 1.
Proof. rewrite <-Z.add_nocarry_lxor; [done|]. change 1 with (Z.ones 1). rewrite Z.land_ones by lia. rewrite Z.mul_comm. apply Z.mod_mul. done. Qed.
Lemma lxor_odd a : Z.lxor (2 * a + 1) 1 = 2 * a.
Proof. rewrite <-lxor_even, Z.lxor_assoc. change (Z.lxor 1 1) with 0. apply Z.lxor_0_r. Qed.
Lemma land_pair a : Z.land (2 * a) (2 * a + 1) = 2 * a.
Proof.
  rewrite <-lxor_even. apply Z.bits_inj'. intros n Hn. rewrite Z.land_spec, Z.lxor_spec.
  destruct (decide (n = 0)) as [->|Hne].
  - by rewrite Z.testbit_even_0.
  - assert (Z.testbit 1 n = false) as ->; [|by rewrite xorb_false_r, andb_diag].
    change 1 with (Z.ones 1). apply Z.ones_spec_high. lia.
Qed.

(** The index of the buddy, and of the block that both make up. *)
Lemma buddy_index i k :
  0 ≤ k → i mod 2 ^ k = 0 →
  let b := Z.lxor i (2 ^ k) in
  (b = i + 2 ^ k ∧ Z.land i b = i ∧ i mod 2 ^ (k + 1) = 0) ∨
  (b = i - 2 ^ k ∧ Z.land i b = b ∧ b mod 2 ^ (k + 1) = 0).
Proof.
  intros Hk Hi b. pose proof (pow2_pos k Hk) as Hp.
  assert (∃ j, i = Z.shiftl j k) as [j ->].
  { exists (i / 2 ^ k). rewrite Z.shiftl_mul_pow2 by done. pose proof (Z.div_mod i (2 ^ k)). lia. }
  subst b. rewrite <-(shiftl_pow k Hk), <-Z.shiftl_lxor, <-Z.shiftl_land.
  rewrite Z.pow_add_r by lia. change (2 ^ 1) with 2. rewrite !Z.shiftl_mul_pow2 by done.
  destruct (Z.Even_or_Odd j) as [[a ->]|[a ->]].
  - left. rewrite lxor_even, land_pair. split_and!; [lia|done|].
    rewrite <-(Z.mul_assoc 2), (Z.mul_comm 2), <-Z.mul_assoc. apply Z.mod_mul. lia.
  - right. rewrite lxor_odd, Z.land_comm, land_pair. split_and!; [lia|done|].
    rewrite <-(Z.mul_assoc 2), (Z.mul_comm 2), <-Z.mul_assoc. apply Z.mod_mul. lia.
Qed.

Lemma land_low_mask i k : 0 ≤ k → Z.land i (Z.shiftl 1 k - 1) = i mod 2 ^ k.
Proof. intros Hk. rewrite shiftl_pow by done. rewrite <-Z.land_ones by done. f_equal. rewrite Z.ones_equiv. lia. Qed.

(** ** Putting a block on the free lists *)

Definition put_block (p k : Z) : M pmm unit :=
  _ ← set_page p (λ v, v <| property := k |>);
  _ ← set_page p SetPageProperty;
  _ ← add_nr_free k 1;
  on_plinks (list_add (free_list k) (page_link p)).

Lemma put_block_ok s B ex z zb p k :
  buddy_inv s B ex → 0 ≤ k ≤ MAX_ORDER → in_zone s z zb p k →
  (∀ q, in_block p k q → ¬ free_page B q) →
  (k < MAX_ORDER → B !! buddy_of zb p k = Some k → zone_of s (buddy_of zb p k) ≠ Some z) →
  ∃ s', put_block p k s = Ok (tt, s') ∧ buddy_inv s' (<[p := k]> B) ex ∧ same_zones s s' ∧
    (∀ q, q ≠ p → pages s' !! q = pages s !! q).
Proof.
  intros Hi Hk Hz Hfree Hbud.
  destruct (iz_usable _ _ _ _ _ Hz p (in_block_self p k ltac:(lia))) as (v & Hv & Hvz & Hvr).
  assert (HB : B !! p = None).
  { destruct (B !! p) as [j|] eqn:E; [|done]. exfalso. apply (Hfree p); [apply in_block_self; lia|].
    by apply (free_head _ _ _ _ _ Hi E). }
  set (ex1 q := ex q ∨ q = p). set (v1 := v <| property := k |>).
  set (s1 := s <| pages := <[p := v1]> (pages s) |>).
  assert (Hi1 : buddy_inv s1 B ex1) by (apply (inv_page s B ex ex1 p v); try done; subst ex1; simpl; auto).
  assert (Hv1 : pages s1 !! p = Some v1) by (subst s1; simpl; by rewrite lookup_insert_eq).
  set (s2 := s1 <| pages := <[p := SetPageProperty v1]> (pages s1) |>).
  assert (Hi2 : buddy_inv s2 B ex1).
  { apply (inv_page s1 B ex1 ex1 p v1); try done; [apply set_reserved|subst ex1; simpl; auto]. }
  assert (Hs2 : same_zones s s2).
  { eapply same_zones_trans; [by apply (same_zones_page s p v v1)|].
    apply (same_zones_page s1 p v1); [done|done|apply set_reserved]. }
  destruct (inv_insert s2 B ex1 ex z zb p k (SetPageProperty v1)) as (h & n & E & Hn & Hnb & Hi'); try done.
  { by apply (in_zone_same s). }
  { subst s2. simpl. by rewrite lookup_insert_eq. }
  { apply set_property. }
  { intros Hlt HBb. rewrite (sz_zone _ _ Hs2). by apply Hbud. }
  { subst ex1. simpl. naive_solver. }
  eexists. split; [|split; [exact Hi'|split]].
  - unfold put_block. rewrite (bind_ok _ _ _ _ _ (set_page_ok s p _ v Hv)). fold v1. fold s1.
    rewrite (bind_ok _ _ _ _ _ (set_page_ok s1 p _ v1 Hv1)). fold s2.
    rewrite (bind_ok _ _ _ _ _ (add_nr_free_ok s2 k 1 n Hn ltac:(lia))).
    by rewrite (on_plinks_ok _ _ tt h).
  - eapply same_zones_trans; [exact Hs2|]. apply same_zones_links.
  - intros q Hq. simpl. by rewrite !lookup_insert_ne.
Qed.

(** ** Taking a block off the free lists *)

Definition take_block (p k : Z) : M pmm unit :=
  _ ← add_nr_free k (-1);
  on_plinks (list_del (page_link p)).

Lemma take_block_ok s B ex p k :
  buddy_inv s B ex → B !! p = Some k →
  ∃ s', take_block p k s = Ok (tt, s') ∧ buddy_inv s' (delete p B) (λ q, ex q ∨ q = p) ∧
    same_zones s s' ∧ pages s' = pages s.
Proof.
  intros Hi Hp. destruct (inv_remove _ _ _ _ _ Hi Hp) as (h & n & E & Hn & Hnb & Hi').
  eexists. split; [|split; [exact Hi'|split; [apply same_zones_links|done]]].
  unfold take_block. rewrite (bind_ok _ _ _ _ _ (add_nr_free_ok s k (-1) n Hn ltac:(lia))).
  by rewrite (on_plinks_ok _ _ tt h).
Qed.

(** The flag of a block that left the lists is cleared. *)
Lemma clear_flag_ok s B p k z zb :
  buddy_inv s B (λ q, nobody q ∨ q = p) → B !! p = None → 0 ≤ k → in_zone s z zb p k →
  ∃ s', set_page p ClearPageProperty s = Ok (tt, s') ∧ buddy_inv s' B nobody ∧ same_zones s s' ∧
    (∀ q, q ≠ p → pages s' !! q = pages s !! q) ∧
    (∃ v, pages s' !! p = Some v ∧ PageProperty v = false).
Proof.
  intros Hi Hp Hk Hz. destruct (iz_usable _ _ _ _ _ Hz p (in_block_self p k Hk)) as (v & Hv & _).
  eexists. split; [by apply set_page_ok|]. split_and!.
  - apply (inv_page s B (λ q, nobody q ∨ q = p) nobody p v); try done; [apply clear_reserved|by rewrite clear_property|].
    intros q Hq [?|?]; done.
  - by apply (same_zones_page s p v); [done|done|apply clear_reserved].
  - intros q Hq. simpl. by rewrite lookup_insert_ne.
  - exists (ClearPageProperty v). simpl. rewrite lookup_insert_eq. split; [done|apply clear_property].
Qed.

(** Inside a free block only the first page is flagged. *)
Lemma block_flags s B ex p k q v :
  buddy_inv s B ex → B !! p = Some k → in_block p k q → q ≠ p → pages s !! q = Some v →
  PageReserved v = false → ¬ ex q → PageProperty v = false.
Proof.
  intros Hi Hp Hq Hne Hv Hr Hx. destruct (PageProperty v) eqn:E; [|done].
  destruct (bi_flags _ _ _ Hi q v Hv Hr E Hx) as [j Hj].
  pose proof (bi_pow _ _ _ _ _ Hi Hj). unfold in_block in Hq.
  destruct (bi_disjoint _ _ _ Hi _ _ _ _ Hp Hj (not_eq_sym Hne)); lia.
Qed.

Lemma owned_frame s s' B B' z p n :
  owned s B z p n → (∀ q, p ≤ q < p + n → pages s' !! q = pages s !! q) →
  (∀ q, p ≤ q < p + n → free_page B' q → free_page B q) → owned s' B' z p n.
Proof.
  intros H Hpg Hfr q Hq. destruct (H q Hq) as [Hv Hnf]. split; [by rewrite Hpg|].
  intros Hf. apply Hnf. by apply Hfr.
Qed.

Lemma owned_app s B z p n1 n2 :
  0 ≤ n1 → 0 ≤ n2 → owned s B z p (n1 + n2) ↔ owned s B z p n1 ∧ owned s B z (p + n1) n2.
Proof.
  intros H1 H2. split.
  - intros H. split; intros q Hq; apply H; lia.
  - intros [Ha Hb] q Hq. destruct (decide (q < p + n1)); [apply Ha; lia|apply Hb; lia].
Qed.

(** A block taken off the lists and cleared belongs to its taker. *)
Lemma take_clear_ok s B p k z :
  buddy_inv s B nobody → B !! p = Some k → zone_of s p = Some z →
  ∃ s1 s', take_block p k s = Ok (tt, s1) ∧ set_page p ClearPageProperty s1 = Ok (tt, s') ∧
    buddy_inv s' (delete p B) nobody ∧ same_zones s s' ∧
    (∀ q, q ≠ p → pages s' !! q = pages s !! q) ∧ owned s' (delete p B) z p (2 ^ k).
Proof.
  intros Hi Hp Hzp. destruct (bi_blocks _ _ _ Hi _ _ Hp) as (Hk & z' & zb & Hz).
  assert (z' = z) as ->.
  { pose proof (in_zone_head s z' zb p k ltac:(lia) Hz). congruence. }
  destruct (take_block_ok _ _ _ _ _ Hi Hp) as (s1 & E1 & Hi1 & Hs1 & Hp1).
  destruct (clear_flag_ok s1 (delete p B) p k z zb Hi1 (lookup_delete_eq _ _) ltac:(lia) (in_zone_same _ _ _ _ _ _ Hs1 Hz))
    as (s2 & E2 & Hi2 & Hs2 & Hp2 & Hv2).
  exists s1, s2. split_and!; try done.
  - by eapply same_zones_trans.
  - intros q Hq. by rewrite Hp2, Hp1.
  - intros q Hq. split; [|rewrite (free_page_delete _ _ _ _ _ _ Hi Hp); unfold in_block; lia].
    destruct (iz_usable _ _ _ _ _ Hz q Hq) as (v & Hv & Hvz & Hvr).
    destruct (decide (q = p)) as [->|Hne].
    + destruct Hv2 as (v2 & Hv2 & Hf). exists v2. split; [done|].
      assert (usable s2 z p) as (v2' & Hv2' & ? & ?).
      { apply (sz_usable _ _ Hs2), (sz_usable _ _ Hs1). by exists v. }
      rewrite Hv2 in Hv2'. simplify_eq. done.
    + exists v. rewrite Hp2, Hp1 by done. split_and!; try done.
      apply (block_flags s B nobody p k q); try done. by intros [].
Qed.

(** ** Freeing one block *)

Lemma clear_pages_ok s B z base n :
  buddy_inv s B nobody → owned s B z base (Z.of_nat n) →
  ∃ s', loop (S n) (clear_page_body (base + Z.of_nat n)) base s = Ok (tt, s') ∧
    buddy_inv s' B nobody ∧ same_zones s s' ∧ owned s' B z base (Z.of_nat n) ∧
    (∀ q, ¬ (base ≤ q < base + Z.of_nat n) → pages s' !! q = pages s !! q).
Proof.
  revert s base. induction n as [|n IH]; intros s base Hi Ho.
  { exists s. split_and!; try done. apply loop_stop. unfold clear_page_body.
    change (Z.of_nat 0) with 0. by rewrite Z.add_0_r, Z.eqb_refl. }
  destruct (Ho base) as [(v & Hv & Hvz & Hvr & Hvp) Hnf]; [lia|].
  assert (HB : B !! base = None).
  { destruct (B !! base) eqn:E; [|done]. destruct Hnf. by apply (free_head _ _ _ _ _ Hi E). }
  set (v' := v <| flags := 0 |> <| ref := 0 |>). set (s1 := s <| pages := <[base := v']> (pages s) |>).
  assert (Hi1 : buddy_inv s1 B nobody) by by apply (inv_page s B nobody nobody base v).
  assert (Hs1 : same_zones s s1) by by apply (same_zones_page s base v).
  assert (Ho1 : owned s1 B z (base + 1) (Z.of_nat n)).
  { eapply owned_frame; [|intros q Hq; subst s1; simpl; apply lookup_insert_ne; lia|done].
    intros q Hq. apply Ho. lia. }
  destruct (IH s1 (base + 1) Hi1 Ho1) as (s' & E & Hi' & Hs' & Ho' & Hf').
  exists s'. split_and!; try done.
  - rewrite (loop_next _ _ _ _ (base + 1) s1).
    + replace (base + Z.of_nat (S n)) with (base + 1 + Z.of_nat n) by lia. done.
    + unfold clear_page_body. rewrite (proj2 (Z.eqb_neq base _)) by lia.
      rewrite (bind_ok _ _ _ _ _ (get_page_ok _ _ _ Hv)), Hvr, Hvp. cbn [negb andb assert].
      rewrite (bind_ok (assert true) _ s tt s) by done.
      by rewrite (bind_ok _ _ _ _ _ (set_page_ok _ _ _ _ Hv)).
  - by eapply same_zones_trans.
  - intros q Hq. destruct (decide (q = base)) as [->|Hne]; [|apply Ho'; lia].
    split; [|done]. exists v'. rewrite Hf' by lia. subst s1. simpl. by rewrite lookup_insert_eq.
  - intros q Hq. rewrite Hf' by lia. subst s1. simpl. apply lookup_insert_ne. lia.
Qed.

Lemma idx2page_ok s z zb idx : mem_base s !! z = Some zb → idx2page z idx s = Ok (zb + idx, s).
Proof. intros H. unfold idx2page. by rewrite (bind_ok _ _ s zb s) by (unfold deref; by rewrite H). Qed.

(** [page_is_buddy] recognises the free block of that order in the zone. *)
Lemma page_is_buddy_ok s B z b k :
  buddy_inv s B nobody → 0 ≤ b →
  page_is_buddy b k z s = Ok (bool_decide (B !! b = Some k ∧ zone_of s b = Some z), s).
Proof.
  intros Hi Hb. unfold page_is_buddy. rewrite (bind_ok get _ s s s) by done.
  destruct (Z.ltb_spec b (npage s)) as [Hlt|Hge].
  - destruct (proj2 (bi_dom _ _ _ Hi b)) as [v Hv]; [lia|].
    rewrite (bind_ok _ _ _ _ _ (get_page_ok _ _ _ Hv)). unfold zone_of. rewrite Hv. simpl.
    destruct (Z.eqb_spec (zone_num v) z) as [Hz|Hz].
    + unfold mret, M_ret. do 2 f_equal. symmetry. destruct (PageReserved v) eqn:Hr; simpl.
      * apply bool_decide_eq_false. intros [HB _].
        destruct (bi_blocks _ _ _ Hi _ _ HB) as (Hk & z' & zb & Hzz).
        destruct (iz_usable _ _ _ _ _ Hzz b (in_block_self b k ltac:(lia))) as (v' & Hv' & _ & ?). congruence.
      * destruct (PageProperty v) eqn:Hp; simpl.
        -- destruct (bi_flags _ _ _ Hi b v Hv Hr Hp) as [j Hj]; [by intros []|].
           destruct (bi_head _ _ _ Hi _ _ Hj) as (v' & Hv' & _ & Hprop).
           destruct (Z.eqb_spec (property v) k); [apply bool_decide_eq_true|apply bool_decide_eq_false]; [|naive_solver congruence].
           split; congruence.
        -- apply bool_decide_eq_false. intros [HB _].
           destruct (bi_head _ _ _ Hi _ _ HB) as (v' & Hv' & ? & _). congruence.
    + unfold mret, M_ret. rewrite bool_decide_eq_false_2; [done|]. intros [_ ?]. congruence.
  - unfold mret, M_ret. rewrite bool_decide_eq_false_2; [done|]. intros [HB _].
    destruct (bi_head _ _ _ Hi _ _ HB) as (v & Hv & _).
    pose proof (proj1 (bi_dom _ _ _ Hi b) (mk_is_Some _ _ Hv)). lia.
Qed.

(** What the merging loop keeps: the block at index [i] of order [k] is in
    hand, and together with the free blocks it makes up what was free at the
    start and the block freed. *)
Record merging (s0 : pmm) (B0 : gmap Z Z) (z zb i0 k0 : Z) (s : pmm) (B : gmap Z Z) (i k : Z) : Prop := {
  mg_inv : buddy_inv s B nobody;
  mg_order : 0 ≤ k ≤ MAX_ORDER;
  mg_index : 0 ≤ i;
  mg_zone : in_zone s z zb (zb + i) k;
  mg_owned : owned s B z (zb + i) (2 ^ k);
  mg_same : same_zones s0 s;
  mg_free q : free_page B q ∨ in_block (zb + i) k q ↔ free_page B0 q ∨ in_block (zb + i0) k0 q;
  mg_frame q : ¬ free_page B0 q → ¬ in_block (zb + i0) k0 q → pages s !! q = pages s0 !! q;
}.

Lemma merge_step s0 B0 z zb i0 k0 s B i k :
  merging s0 B0 z zb i0 k0 s B i k → k < MAX_ORDER →
  let b := Z.lxor i (2 ^ k) in
  B !! (zb + b) = Some k → zone_of s (zb + b) = Some z →
  ∃ s1 s', take_block (zb + b) k s = Ok (tt, s1) ∧ set_page (zb + b) ClearPageProperty s1 = Ok (tt, s') ∧
    merging s0 B0 z zb i0 k0 s' (delete (zb + b) B) (Z.land i b) (k + 1).
Proof.
  intros [Hi Hk Hi0 Hz Ho Hs Hfree Hframe] Hlt b HB Hzb.
  destruct (take_clear_ok _ _ _ _ _ Hi HB Hzb) as (s1 & s' & E1 & E2 & Hi' & Hs' & Hpg & Hob).
  exists s1, s'. split; [done|]. split; [done|].
  pose proof (pow2_pos k ltac:(lia)) as Hpos.
  assert (Hpow : 2 ^ (k + 1) = 2 ^ k + 2 ^ k) by (rewrite Z.pow_add_r by lia; change (2 ^ 1) with 2; lia).
  pose proof (iz_aligned _ _ _ _ _ Hz) as Hal. replace (zb + i - zb) with i in Hal by lia.
  assert (Ho' : owned s' (delete (zb + b) B) z (zb + i) (2 ^ k)).
  { eapply owned_frame; [exact Ho| |].
    - intros q Hq. apply Hpg. intros ->. apply (proj2 (Ho _ Hq)). by apply (free_head _ _ _ _ _ Hi HB).
    - intros q _. rewrite (free_page_delete _ _ _ _ _ _ Hi HB). tauto. }
  assert (Hdel : ∀ q, free_page (delete (zb + b) B) q ↔ free_page B q ∧ ¬ in_block (zb + b) k q)
    by (intros q; apply (free_page_delete _ _ _ _ _ _ Hi HB)).
  assert (Hbf : ∀ q, in_block (zb + b) k q → free_page B q) by (intros q Hq; by exists (zb + b), k).
  destruct (buddy_index i k ltac:(lia) Hal) as [(Eb & El & Em)|(Eb & El & Em)]; fold b in Eb, El, Em;
    rewrite El.
  - assert (Hw : owned s' (delete (zb + b) B) z (zb + i) (2 ^ (k + 1))).
    { rewrite Hpow. apply owned_app; [lia|lia|]. split; [done|]. by replace (zb + i + 2 ^ k) with (zb + b) by lia. }
    assert (Hblk : ∀ q, in_block (zb + i) (k + 1) q ↔ in_block (zb + i) k q ∨ in_block (zb + b) k q)
      by (intros q; unfold in_block; rewrite Hpow, Eb; lia).
    constructor; try done; [unfold MAX_ORDER in *; lia| |by eapply same_zones_trans| |].
    + constructor; [rewrite (sz_base _ _ Hs'); apply (iz_base _ _ _ _ _ Hz)|lia|by replace (zb + i - zb) with i by lia|].
      intros q Hq. destruct (Hw q Hq) as [(v & ? & ? & ? & _) _]. by exists v.
    + intros q. rewrite Hdel, Hblk, <-Hfree. specialize (Hbf q). destruct (decide (in_block (zb + b) k q)); tauto.
    + intros q Hq1 Hq2. rewrite Hpg; [by apply Hframe|]. intros ->.
      assert (free_page B (zb + b)) as Hf by by apply (free_head _ _ _ _ _ Hi HB).
      destruct (proj1 (Hfree (zb + b)) (or_introl Hf)); done.
  - assert (Hw : owned s' (delete (zb + b) B) z (zb + b) (2 ^ (k + 1))).
    { rewrite Hpow. apply owned_app; [lia|lia|]. split; [done|]. by replace (zb + b + 2 ^ k) with (zb + i) by lia. }
    assert (Hblk : ∀ q, in_block (zb + b) (k + 1) q ↔ in_block (zb + i) k q ∨ in_block (zb + b) k q)
      by (intros q; unfold in_block; rewrite Hpow, Eb; lia).
    assert (Hb0 : 0 ≤ b) by (unfold b; apply Z.lxor_nonneg; lia).
    constructor; try done; [unfold MAX_ORDER in *; lia| |by eapply same_zones_trans| |].
    + constructor; [rewrite (sz_base _ _ Hs'); apply (iz_base _ _ _ _ _ Hz)|lia|by replace (zb + b - zb) with b by lia|].
      intros q Hq. destruct (Hw q Hq) as [(v & ? & ? & ? & _) _]. by exists v.
    + intros q. rewrite Hdel, Hblk, <-Hfree. specialize (Hbf q). destruct (decide (in_block (zb + b) k q)); tauto.
    + intros q Hq1 Hq2. rewrite Hpg; [by apply Hframe|]. intros ->.
      assert (free_page B (zb + b)) as Hf by by apply (free_head _ _ _ _ _ Hi HB).
      destruct (proj1 (Hfree (zb + b)) (or_introl Hf)); done.
Qed.

(** The loop stops when the buddy is not free or the block is maximal. *)
Definition merged (s : pmm) (B : gmap Z Z) (z zb i k : Z) : Prop :=
  k < MAX_ORDER → B !! buddy_of zb (zb + i) k = Some k → zone_of s (buddy_of zb (zb + i) k) ≠ Some z.

Lemma merge_loop_ok s0 B0 z zb i0 k0 fuel s B i k :
  merging s0 B0 z zb i0 k0 s B i k → (Z.to_nat (MAX_ORDER - k) < fuel)%nat →
  ∃ s' B' i' k', loop fuel (merge_body z) (i, k) s = Ok ((i', k'), s') ∧
    merging s0 B0 z zb i0 k0 s' B' i' k' ∧ merged s' B' z zb i' k'.
Proof.
  revert s B i k. induction fuel as [|fuel IH]; intros s B i k Hm Hf; [lia|].
  destruct (decide (k < MAX_ORDER)) as [Hlt|Hge].
  2:{ exists s, B, i, k. split; [|by split; [done|intros ?]].
      apply loop_stop. unfold merge_body. by rewrite (proj2 (Z.ltb_ge k MAX_ORDER)) by lia. }
  pose proof (mg_order _ _ _ _ _ _ _ _ _ _ Hm) as Hk. pose proof (mg_index _ _ _ _ _ _ _ _ _ _ Hm) as Hi0.
  pose proof (mg_inv _ _ _ _ _ _ _ _ _ _ Hm) as Hi. pose proof (mg_zone _ _ _ _ _ _ _ _ _ _ Hm) as Hz.
  pose proof (iz_base _ _ _ _ _ Hz) as Hbase. pose proof (bi_base _ _ _ Hi _ _ Hbase) as Hzb0.
  set (b := Z.lxor i (2 ^ k)).
  assert (Hb0 : 0 ≤ b) by (unfold b; apply Z.lxor_nonneg; pose proof (pow2_pos k ltac:(lia)); lia).
  assert (Hbud : buddy_of zb (zb + i) k = zb + b).
  { unfold buddy_of, b. do 2 f_equal. lia. }
  assert (Hbody : merge_body z (i, k) s =
    if bool_decide (B !! (zb + b) = Some k ∧ zone_of s (zb + b) = Some z)
    then (_ ← take_block (zb + b) k; _ ← set_page (zb + b) ClearPageProperty; mret (inl (Z.land i b, k + 1))) s
    else Ok (inr (i, k), s)).
  { unfold merge_body. rewrite (proj2 (Z.ltb_lt k MAX_ORDER)), shiftl_pow by lia. fold b.
    rewrite (bind_ok _ _ _ _ _ (idx2page_ok s z zb b Hbase)).
    rewrite (bind_ok _ _ _ _ _ (page_is_buddy_ok s B z (zb + b) k Hi ltac:(lia))).
    case_bool_decide; cbn [negb]; [|done]. unfold take_block.
    apply (bind_assoc (add_nr_free k (-1)) (λ _, on_plinks (list_del (page_link (zb + b))))). }
  case_bool_decide as Hd.
  - destruct Hd as [HB Hzb]. destruct (merge_step _ _ _ _ _ _ _ _ _ _ Hm Hlt HB Hzb) as (s1 & s' & E1 & E2 & Hm').
    fold b in E1, E2, Hm'. destruct (IH s' _ _ _ Hm') as (s2 & B2 & i2 & k2 & E & H2); [lia|].
    exists s2, B2, i2, k2. split; [|done]. rewrite (loop_next _ _ _ _ (Z.land i b, k + 1) s'); [done|].
    rewrite Hbody, (bind_ok _ _ _ _ _ E1). by rewrite (bind_ok _ _ _ _ _ E2).
  - exists s, B, i, k. split; [by apply loop_stop|]. split; [done|]. intros _. rewrite Hbud. naive_solver.
Qed.

(** What freeing [n] pages at [p] does: they are free, nothing else changes. *)
Record freed (s : pmm) (B : gmap Z Z) (p n : Z) (s' : pmm) (B' : gmap Z Z) : Prop := {
  fd_inv : buddy_inv s' B' nobody;
  fd_free q : free_page B' q ↔ free_page B q ∨ p ≤ q < p + n;
  fd_same : same_zones s s';
  fd_frame q : ¬ free_page B q → ¬ (p ≤ q < p + n) → pages s' !! q = pages s !! q;
}.

Lemma page2idx_ok s z zb p :
  zone_of s p = Some z → mem_base s !! z = Some zb → page2idx p s = Ok (p - zb, s).
Proof.
  unfold zone_of. intros Hz Hb. destruct (pages s !! p) as [v|] eqn:E; [|done]. simplify_eq/=.
  unfold page2idx. rewrite (bind_ok _ _ _ _ _ (get_page_ok _ _ _ E)).
  by rewrite (bind_ok _ _ s zb s) by (unfold deref; by rewrite Hb).
Qed.

Lemma free_sub_ok s B z zb p k :
  buddy_inv s B nobody → 0 ≤ k ≤ MAX_ORDER → mem_base s !! z = Some zb → zb ≤ p →
  (p - zb) mod 2 ^ k = 0 → owned s B z p (2 ^ k) →
  ∃ s' B', buddy_free_pages_sub p k s = Ok (tt, s') ∧ freed s B p (2 ^ k) s' B'.
Proof.
  intros Hi Hk Hbase Hge Hal Ho. pose proof (pow2_pos k ltac:(lia)) as Hpos.
  assert (Hn : Z.of_nat (Z.to_nat (2 ^ k)) = 2 ^ k) by lia.
  rewrite <-Hn in Ho. destruct (clear_pages_ok s B z p _ Hi Ho) as (s1 & E1 & Hi1 & Hs1 & Ho1 & Hf1).
  rewrite Hn in *.
  destruct (Ho1 p) as [(v & Hv & Hvz & _) _]; [lia|].
  assert (Hzp : zone_of s p = Some z).
  { rewrite <-(sz_zone _ _ Hs1). unfold zone_of. rewrite Hv. simpl. by rewrite Hvz. }
  assert (Hbase1 : mem_base s1 !! z = Some zb) by by rewrite (sz_base _ _ Hs1).
  assert (Hm : merging s1 B z zb (p - zb) k s1 B (p - zb) k).
  { replace p with (zb + (p - zb)) in Ho1 at 1 by lia.
    constructor; try done; [lia|].
    constructor; [done|lia|by replace (zb + (p - zb) - zb) with (p - zb) by lia|].
    intros q Hq. destruct (Ho1 q Hq) as [(w & ? & ? & ? & _) _]. by exists w. }
  destruct (merge_loop_ok _ _ _ _ _ _ 11 _ _ _ _ Hm) as (s2 & B2 & i' & k' & E2 & Hm2 & Hmd);
    [unfold MAX_ORDER; lia|].
  destruct Hm2 as [Hi2 Hk2 Hi0 Hz2 Ho2 Hs2 Hfree2 Hframe2].
  destruct (put_block_ok s2 B2 nobody z zb (zb + i') k' Hi2 Hk2 Hz2) as (s3 & E3 & Hi3 & Hs3 & Hf3); [|done|].
  { intros q Hq. apply (Ho2 q). exact Hq. }
  assert (HB : B2 !! (zb + i') = None).
  { destruct (B2 !! (zb + i')) eqn:E; [|done]. exfalso.
    apply (proj2 (Ho2 (zb + i') (in_block_self (zb + i') k' ltac:(lia)))). by apply (free_head _ _ _ _ _ Hi2 E). }
  replace (zb + (p - zb)) with p in * by lia.
  exists s3, (<[zb + i' := k']> B2). split.
  - unfold buddy_free_pages_sub.
    rewrite (bind_ok _ _ _ _ _ (page2idx_ok _ _ _ _ Hzp Hbase)), land_low_mask, Hal by lia.
    rewrite (bind_ok (assert _) _ s tt s) by done.
    rewrite shiftl_pow by lia. rewrite (bind_ok _ _ _ _ _ E1), (bind_ok _ _ _ _ _ (get_page_ok _ _ _ Hv)), Hvz.
    rewrite (bind_ok _ _ _ _ _ E2), (bind_ok _ _ _ _ _ (idx2page_ok s2 z zb i' (iz_base _ _ _ _ _ Hz2))).
    exact E3.
  - constructor; [done| | |].
    + intros q. rewrite free_page_insert by done. rewrite Hfree2. done.
    + by eapply same_zones_trans; [|eapply same_zones_trans].
    + intros q Hq1 Hq2. rewrite Hf3, Hframe2, Hf1; try done.
      intros ->. assert (in_block (zb + i') k' (zb + i')) as Hin by (apply in_block_self; lia).
      destruct (proj1 (Hfree2 (zb + i')) (or_intror Hin)); done.
Qed.

(** ** Freeing a range *)

Lemma freed_refl s B p : buddy_inv s B nobody → freed s B p 0 s B.
Proof. intros Hi. constructor; try done. intros q. split; [by left|intros [?|?]; [done|lia]]. Qed.

Lemma freed_trans s B p n1 n2 s1 B1 s2 B2 :
  0 ≤ n1 → 0 ≤ n2 → freed s B p n1 s1 B1 → freed s1 B1 (p + n1) n2 s2 B2 → freed s B p (n1 + n2) s2 B2.
Proof.
  intros Hn1 Hn2 [Hi1 Hf1 Hs1 Hfr1] [Hi2 Hf2 Hs2 Hfr2]. constructor; [done| |by eapply same_zones_trans|].
  - intros q. rewrite Hf2, Hf1. split; [intros [[?|?]|?]|intros [?|?]]; try tauto; try (right; lia).
    destruct (decide (q < p + n1)); [left; right; lia|right; lia].
  - intros q Hq1 Hq2. rewrite Hfr2; [apply Hfr1; [done|lia]| |lia]. rewrite Hf1. intros [?|?]; [done|lia].
Qed.

Lemma owned_freed s B z b n m s' B' :
  0 ≤ n → owned s B z b (n + m) → freed s B b n s' B' → owned s' B' z (b + n) m.
Proof.
  intros Hn Ho [Hi Hf Hs Hfr]. intros q Hq. destruct (Ho q) as [Hv Hnf]; [lia|].
  rewrite Hfr by (done || lia). split; [done|]. rewrite Hf. intros [?|?]; [done|lia].
Qed.

Lemma aligned_le i j k : 0 ≤ j ≤ k → i mod 2 ^ k = 0 → i mod 2 ^ j = 0.
Proof.
  intros Hj Hi. apply Z.mod_divide in Hi; [|pose proof (pow2_pos k); lia].
  apply Z.mod_divide; [pose proof (pow2_pos j); lia|]. transitivity (2 ^ k); [|done].
  exists (2 ^ (k - j)). rewrite <-Z.pow_add_r by lia. f_equal. lia.
Qed.

(** Bit [k] of an index that is a multiple of [2^k]. *)
Lemma index_bit i k :
  0 ≤ k → i mod 2 ^ k = 0 →
  if negb (Z.land i (2 ^ k) =? 0) then (i + 2 ^ k) mod 2 ^ (k + 1) = 0 else i mod 2 ^ (k + 1) = 0.
Proof.
  intros Hk Hi. pose proof (pow2_pos k Hk) as Hp.
  assert (∃ j, i = Z.shiftl j k) as [j ->].
  { exists (i / 2 ^ k). rewrite Z.shiftl_mul_pow2 by done. pose proof (Z.div_mod i (2 ^ k)). lia. }
  rewrite <-(shiftl_pow k Hk), <-Z.shiftl_land. rewrite Z.pow_add_r by lia. change (2 ^ 1) with 2.
  rewrite !Z.shiftl_mul_pow2 by done. change 1 with (Z.ones 1) at 1. rewrite Z.land_ones by lia. change (2 ^ 1) with 2.
  pose proof (Z.mod_pos_bound j 2 ltac:(lia)). pose proof (Z.div_mod j 2 ltac:(lia)) as Hj.
  destruct (Z.eqb_spec (j mod 2 * 2 ^ k) 0) as [E|E]; cbn [negb].
  - assert (j mod 2 = 0) as E0 by lia. rewrite E0 in Hj.
    replace (j * 2 ^ k) with (j / 2 * (2 ^ k * 2)) by lia. apply Z.mod_mul. lia.
  - assert (j mod 2 = 1) as E1 by nia. rewrite E1 in Hj.
    replace (j * 2 ^ k + 1 * 2 ^ k) with ((j / 2 + 1) * (2 ^ k * 2)) by lia. apply Z.mod_mul. lia.
Qed.

Section free_range.
Variables (s0 : pmm) (B0 : gmap Z Z) (z zb base n : Z).
Hypothesis Hbase : mem_base s0 !! z = Some zb.
Hypothesis Hge : zb ≤ base.
Hypothesis Hn : 0 < n < 2048.

(** The pages below [b] are freed, the [m] pages from there are still owned. *)
Record freeing (b m k : Z) (s : pmm) (B : gmap Z Z) : Prop := {
  fg_freed : freed s0 B0 base (b - base) s B;
  fg_owned : owned s B z b m;
  fg_end : b + m = base + n;
  fg_left : 0 ≤ m ≤ n;
  fg_order : 0 ≤ k;
  fg_aligned : (b - zb) mod 2 ^ k = 0;
}.

Lemma freeing_step b m k j s B :
  freeing b m k s B → 0 ≤ j ≤ k → j ≤ MAX_ORDER → 2 ^ j ≤ m →
  ∃ s' B', buddy_free_pages_sub b j s = Ok (tt, s') ∧
    freed s0 B0 base (b + 2 ^ j - base) s' B' ∧ owned s' B' z (b + 2 ^ j) (m - 2 ^ j).
Proof using Hbase Hge Hn.
  intros [Hfd Ho He Hm Hk Hal] Hj Hjm Hle. pose proof (pow2_pos j ltac:(lia)) as Hp.
  pose proof (fd_same _ _ _ _ _ _ Hfd) as Hs.
  assert (Hb : mem_base s !! z = Some zb) by by rewrite (sz_base _ _ Hs).
  replace m with (2 ^ j + (m - 2 ^ j)) in Ho by lia.
  destruct (free_sub_ok s B z zb b j (fd_inv _ _ _ _ _ _ Hfd) ltac:(lia) Hb ltac:(lia)) as (s' & B' & E & Hfd').
  { by apply (aligned_le _ j k). }
  { apply owned_app in Ho; [tauto|lia|lia]. }
  exists s', B'. split; [done|]. split; [|by eapply owned_freed; [lia| |]].
  replace (b + 2 ^ j - base) with (b - base + 2 ^ j) by lia.
  eapply freed_trans; [lia|lia|exact Hfd|]. by replace (base + (b - base)) with b by lia.
Qed.

Lemma ascend_ok b m k s B fuel :
  freeing b m k s B → k ≤ 11 → (Z.to_nat (12 - k) < fuel)%nat →
  ∃ s' B' b' m' k', loop fuel ascend_body (b, m, k, 2 ^ k) s = Ok ((b', m', k', 2 ^ k'), s') ∧
    freeing b' m' k' s' B' ∧ k' ≤ 11 ∧ m' < 2 ^ k'.
Proof using Hbase Hge Hn.
  revert b m k s B. induction fuel as [|fuel IH]; intros b m k s B Hg Hk Hf; [lia|].
  pose proof (fg_order _ _ _ _ _ Hg) as Hk0. pose proof (fg_left _ _ _ _ _ Hg) as Hm.
  destruct (Z.leb_spec (2 ^ k) m) as [Hle|Hgt].
  2:{ exists s, B, b, m, k. split; [|done]. apply loop_stop. unfold ascend_body.
      by rewrite (proj2 (Z.leb_gt (2 ^ k) m)). }
  assert (Hk10 : k ≤ 10).
  { destruct (decide (k = 11)) as [->|]; [change (2 ^ 11) with 2048 in Hle; lia|lia]. }
  assert (Hz : page2idx b s = Ok (b - zb, s)).
  { apply (page2idx_ok _ z zb).
    - destruct (fg_owned _ _ _ _ _ Hg b) as [(v & Hv & Hvz & _) _]; [pose proof (pow2_pos k Hk0); lia|].
      unfold zone_of. rewrite Hv. simpl. by rewrite Hvz.
    - by rewrite (sz_base _ _ (fd_same _ _ _ _ _ _ (fg_freed _ _ _ _ _ Hg))). }
  assert (Hsh : Z.shiftl (2 ^ k) 1 = 2 ^ (k + 1)).
  { rewrite Z.shiftl_mul_pow2, Z.pow_add_r by lia. done. }
  pose proof (index_bit (b - zb) k Hk0 (fg_aligned _ _ _ _ _ Hg)) as Hbit.
  assert (Hpre : ascend_body (b, m, k, 2 ^ k) s =
    if negb (Z.land (b - zb) (2 ^ k) =? 0)
    then (_ ← buddy_free_pages_sub b k; mret (inl (b + 2 ^ k, m - 2 ^ k, k + 1, 2 ^ (k + 1)))) s
    else Ok (inl (b, m, k + 1, 2 ^ (k + 1)), s)).
  { unfold ascend_body. rewrite (proj2 (Z.leb_le (2 ^ k) m)) by done.
    rewrite (proj2 (Z.leb_le k MAX_ORDER)) by (unfold MAX_ORDER; lia).
    rewrite (bind_ok (assert true) _ s tt s) by done. rewrite (bind_ok _ _ _ _ _ Hz), Hsh.
    by destruct (negb _). }
  destruct (negb (Z.land (b - zb) (2 ^ k) =? 0)).
  - destruct (freeing_step b m k k s B Hg ltac:(lia) ltac:(unfold MAX_ORDER; lia) Hle) as (s' & B' & E & Hfd & Ho).
    destruct (IH (b + 2 ^ k) (m - 2 ^ k) (k + 1) s' B') as (s2 & B2 & b' & m' & k' & E2 & H2); [|lia|lia|].
    { destruct Hg. pose proof (pow2_pos k Hk0). constructor; [done|done|lia|lia|lia|].
      by replace (b + 2 ^ k - zb) with (b - zb + 2 ^ k) by lia. }
    exists s2, B2, b', m', k'. split; [|done].
    rewrite (loop_next _ _ _ _ (b + 2 ^ k, m - 2 ^ k, k + 1, 2 ^ (k + 1)) s'); [done|].
    by rewrite Hpre, (bind_ok _ _ _ _ _ E).
  - destruct (IH b m (k + 1) s B) as (s2 & B2 & b' & m' & k' & E2 & H2); [|lia|lia|].
    { destruct Hg. by constructor; try lia. }
    exists s2, B2, b', m', k'. split; [|done]. by rewrite (loop_next _ _ _ _ (b, m, k + 1, 2 ^ (k + 1)) s).
Qed.

Lemma shrink_ok m k s fuel :
  0 < m → m < 2 ^ k → 0 ≤ k → (Z.to_nat k < fuel)%nat →
  ∃ j, loop fuel (shrink_body m) (k, 2 ^ k) s = Ok ((j, 2 ^ j), s) ∧ 0 ≤ j ≤ k ∧ 2 ^ j ≤ m < 2 ^ (j + 1).
Proof using.
  revert k. induction fuel as [|fuel IH]; intros k Hm Hlt Hk Hf; [lia|].
  assert (k ≠ 0) by (intros ->; change (2 ^ 0) with 1 in Hlt; lia).
  assert (Hpk : 2 ^ k = 2 ^ (k - 1) * 2).
  { replace k with (k - 1 + 1) at 1 by lia. rewrite Z.pow_add_r by lia. done. }
  rewrite (loop_next _ _ _ _ (k - 1, 2 ^ (k - 1)) s).
  2:{ unfold shrink_body. rewrite (proj2 (Z.ltb_lt m _)) by done. unfold mret, M_ret. do 4 f_equal.
      rewrite Hpk, Z.shiftr_div_pow2 by lia. apply Z.div_mul. done. }
  destruct (decide (m < 2 ^ (k - 1))) as [Hl|Hl].
  - destruct (IH (k - 1)) as (j & E & Hj & Hjm); [lia|lia|lia|lia|]. exists j. split; [done|]. split; [lia|done].
  - exists (k - 1). replace (k - 1 + 1) with k by lia. split; [|lia].
    destruct fuel as [|fuel]; [lia|]. apply loop_stop. unfold shrink_body.
    by rewrite (proj2 (Z.ltb_ge m _)) by lia.
Qed.

Lemma descend_ok b m k s B fuel :
  freeing b m k s B → k ≤ 11 → m < 2 ^ k → (Z.to_nat m < fuel)%nat →
  ∃ s' B', loop fuel descend_body (b, m, k, 2 ^ k) s = Ok (tt, s') ∧ freed s0 B0 base n s' B'.
Proof using Hbase Hge Hn.
  revert b m k s B. induction fuel as [|fuel IH]; intros b m k s B Hg Hk Hlt Hf; [lia|].
  pose proof (fg_order _ _ _ _ _ Hg) as Hk0. pose proof (fg_left _ _ _ _ _ Hg) as Hm.
  destruct (decide (m = 0)) as [->|Hm0].
  { exists s, B. split; [by apply loop_stop|]. destruct Hg. by replace n with (b - base) by lia. }
  destruct (shrink_ok m k s 34 ltac:(lia) Hlt Hk0 ltac:(lia)) as (j & E & Hj & Hjm).
  assert (Hj10 : j ≤ 10).
  { destruct (decide (11 ≤ j)); [|lia]. pose proof (Z.pow_le_mono_r 2 11 j ltac:(lia) ltac:(lia)) as Hp.
    change (2 ^ 11) with 2048 in Hp. lia. }
  assert (Hpj : 2 ^ (j + 1) = 2 ^ j + 2 ^ j) by (rewrite Z.pow_add_r by lia; change (2 ^ 1) with 2; lia).
  pose proof (pow2_pos j ltac:(lia)) as Hp.
  destruct (freeing_step b m k j s B Hg Hj ltac:(unfold MAX_ORDER; lia) ltac:(lia)) as (s' & B' & E' & Hfd & Ho).
  destruct (IH (b + 2 ^ j) (m - 2 ^ j) j s' B') as (s2 & B2 & E2 & H2); [|lia|lia|lia|].
  { destruct Hg. constructor; [done|done|lia|lia|lia|].
    replace (b + 2 ^ j - zb) with (b - zb + 1 * 2 ^ j) by lia. rewrite Z.mod_add by lia.
    by apply (aligned_le _ j k). }
  exists s2, B2. split; [|done]. rewrite (loop_next _ _ _ _ (b + 2 ^ j, m - 2 ^ j, j, 2 ^ j) s'); [done|].
  unfold descend_body. rewrite (proj2 (Z.eqb_neq m 0)) by done.
  rewrite (bind_ok _ _ _ _ _ E). by rewrite (bind_ok _ _ _ _ _ E').
Qed.
End free_range.

Lemma free_range_ok s B z zb base n :
  buddy_inv s B nobody → mem_base s !! z = Some zb → zb ≤ base → 0 < n < 2048 → owned s B z base n →
  ∃ s' B', buddy_free_pages base n s = Ok (tt, s') ∧ freed s B base n s' B'.
Proof.
  intros Hi Hb Hge Hn Ho. unfold buddy_free_pages.
  rewrite (proj2 (Z.ltb_lt 0 n)), (bind_ok (assert true) _ s tt s) by (done || lia).
  destruct (Z.eqb_spec n 1) as [->|Hn1].
  { apply (free_sub_ok s B z zb base 0); try done. apply Z.mod_1_r. }
  destruct (ascend_ok s B z zb base n Hb Hge Hn base n 0 s B 33) as (s1 & B1 & b & m & k & E & Hg & Hk & Hlt); [|lia|lia|].
  { constructor; try done; try lia; [rewrite Z.sub_diag; by apply freed_refl|apply Z.mod_1_r]. }
  change (2 ^ 0) with 1 in E. rewrite (bind_ok _ _ _ _ _ E).
  destruct (descend_ok s B z zb base n Hb Hge Hn b m k s1 B1 (S (Z.to_nat m)) Hg Hk Hlt) as (s2 & B2 & E2 & H2); [lia|].
  exists s2, B2. by split.
Qed.
