(* ===== verification/BuddyAlloc.v ===== *)
(** * Allocation, initialisation and accounting of the buddy allocator *)

From S2P Require Import Prelude DList Buddy BuddyInv BuddySpec.

(** ** The order of a request *)

Lemma getorder_loop n k s fuel :
  0 ≤ k ≤ 11 → (k = 0 ∨ 2 ^ (k - 1) < n) → (Z.to_nat (11 - k) < fuel)%nat →
  if n <=? 1024
  then ∃ j, loop fuel (getorder_body n) (k, 2 ^ k) s = Ok (j, s) ∧ 0 ≤ j ≤ MAX_ORDER ∧ n ≤ 2 ^ j ∧ (j = 0 ∨ 2 ^ (j - 1) < n)
  else loop fuel (getorder_body n) (k, 2 ^ k) s = Err Panic.
Proof.
  revert k. induction fuel as [|fuel IH]; intros k Hk Hlow Hf; [lia|].
  destruct (decide (k = 11)) as [->|Hk11].
  { destruct (Z.leb_spec n 1024).
    - destruct Hlow as [?|Hlow]; [lia|]. change (2 ^ (11 - 1)) with 1024 in Hlow. lia.
    - done. }
  destruct (decide (n ≤ 2 ^ k)) as [Hle|Hgt].
  - assert (2 ^ k ≤ 1024) by (change 1024 with (2 ^ 10); apply Z.pow_le_mono_r; lia).
    rewrite (proj2 (Z.leb_le n 1024)) by lia. exists k. split; [|unfold MAX_ORDER; lia].
    apply loop_stop. unfold getorder_body. rewrite (proj2 (Z.leb_le k MAX_ORDER)) by (unfold MAX_ORDER; lia).
    by rewrite (proj2 (Z.leb_le n (2 ^ k))).
  - rewrite (loop_next _ _ _ _ (k + 1, 2 ^ (k + 1)) s).
    + apply IH; [lia| |lia]. right. replace (k + 1 - 1) with k by lia. lia.
    + unfold getorder_body. rewrite (proj2 (Z.leb_le k MAX_ORDER)) by (unfold MAX_ORDER; lia).
      rewrite (proj2 (Z.leb_gt n (2 ^ k))) by lia. unfold mret, M_ret.
      by rewrite Z.shiftl_mul_pow2, Z.pow_add_r by lia.
Qed.

Lemma getorder_ok n s :
  if n <=? 1024
  then ∃ k, getorder n s = Ok (k, s) ∧ 0 ≤ k ≤ MAX_ORDER ∧ n ≤ 2 ^ k ∧ (k = 0 ∨ 2 ^ (k - 1) < n)
  else getorder n s = Err Panic.
Proof. apply (getorder_loop n 0 s 12); [lia|by left|lia]. Qed.

(** ** Splitting *)

Definition held (p : Z) : Z → Prop := λ q, nobody q ∨ q = p.

(** The upper half of a block that is split has the lower half as its buddy. *)
Lemma upper_half_buddy zb p c :
  0 ≤ c → (p - zb) mod 2 ^ (c + 1) = 0 → buddy_of zb (p + 2 ^ c) c = p.
Proof.
  intros Hc Hal. unfold buddy_of. pose proof (pow2_pos c Hc) as Hp.
  assert (Hpow : 2 ^ (c + 1) = 2 ^ c + 2 ^ c) by (rewrite Z.pow_add_r by lia; change (2 ^ 1) with 2; lia).
  assert (Hal' : (p - zb) mod 2 ^ c = 0) by (apply (aligned_le _ c (c + 1)); [lia|done]).
  destruct (buddy_index (p - zb) c Hc Hal') as [(Eb & _)|(Eb & _ & Em)].
  - replace (p + 2 ^ c - zb) with (Z.lxor (p - zb) (2 ^ c)) by lia.
    rewrite Z.lxor_assoc, Z.lxor_nilpotent, Z.lxor_0_r. lia.
  - exfalso. rewrite Eb in Em. apply Z.mod_divide in Em as [x Hx]; [|lia].
    apply Z.mod_divide in Hal as [y Hy]; [|lia].
    rewrite Hpow in Hx, Hy. assert (2 ^ c * (2 * (y - x) - 1) = 0) as [?|?]%Z.mul_eq_0 by lia; lia.
Qed.

(** [put_block] at the head of a body. *)
Lemma put_block_bind {A} p k (m : M pmm A) s :
  (_ ← put_block p k; m) s =
  (_ ← set_page p (λ v, v <| property := k |>);
   _ ← set_page p SetPageProperty;
   _ ← add_nr_free k 1;
   _ ← on_plinks (list_add (free_list k) (page_link p));
   m) s.
Proof.
  unfold put_block. unfold mbind, M_bind. destruct (set_page _ _ s) as [[[] s1]|]; [|done].
  destruct (set_page _ _ s1) as [[[] s2]|]; [|done]. by destruct (add_nr_free _ _ s2) as [[[] s3]|].
Qed.

Lemma split_ok s B z zb p k c fuel :
  buddy_inv s B (held p) → 0 ≤ k ≤ c → c ≤ MAX_ORDER → in_zone s z zb p c →
  (∀ q, in_block p c q → ¬ free_page B q) → (Z.to_nat (c - k) < fuel)%nat →
  ∃ s' B', loop fuel (split_body p k) (c, 2 ^ c) s = Ok (tt, s') ∧ buddy_inv s' B' (held p) ∧
    same_zones s s' ∧ (∀ q, free_page B' q ↔ free_page B q ∨ in_block p c q ∧ ¬ in_block p k q) ∧
    (∀ q, ¬ in_block p c q → pages s' !! q = pages s !! q).
Proof.
  revert s B c. induction fuel as [|fuel IH]; intros s B c Hi Hk Hc Hz Hnf Hf; [lia|].
  destruct (decide (c = k)) as [->|Hne].
  { exists s, B. split_and!; try done; [|intros q; tauto]. apply loop_stop. unfold split_body.
    by rewrite Z.ltb_irrefl. }
  set (c' := c - 1). assert (Hcc : c = c' + 1) by lia. clearbody c'. subst c.
  pose proof (pow2_pos c' ltac:(lia)) as Hp.
  assert (Hpow : 2 ^ (c' + 1) = 2 ^ c' + 2 ^ c') by (rewrite Z.pow_add_r by lia; change (2 ^ 1) with 2; lia).
  pose proof (iz_aligned _ _ _ _ _ Hz) as Hal.
  assert (Hzb : in_zone s z zb (p + 2 ^ c') c').
  { destruct Hz as [Hb Hge _ Hu]. constructor; [done|lia| |].
    - replace (p + 2 ^ c' - zb) with (p - zb + 1 * 2 ^ c') by lia. rewrite Z.mod_add by lia.
      apply (aligned_le _ c' (c' + 1)); [lia|done].
    - intros q Hq. apply Hu. unfold in_block in *. lia. }
  assert (Hza : in_zone s z zb p c').
  { destruct Hz as [Hb Hge _ Hu]. constructor; [done|done|by apply (aligned_le _ c' (c' + 1)); [lia|]|].
    intros q Hq. apply Hu. unfold in_block in *. lia. }
  destruct (put_block_ok s B (held p) z zb (p + 2 ^ c') c' Hi ltac:(lia) Hzb) as (s1 & E1 & Hi1 & Hs1 & Hf1).
  { intros q Hq. apply Hnf. unfold in_block in *. lia. }
  { intros _ HB. rewrite upper_half_buddy in HB by (done || lia). exfalso.
    apply (Hnf p (in_block_self p (c' + 1) ltac:(lia))). by apply (free_head _ _ _ _ _ Hi HB). }
  assert (HBn : B !! (p + 2 ^ c') = None).
  { destruct (B !! (p + 2 ^ c')) eqn:E; [|done]. exfalso. apply (Hnf (p + 2 ^ c')); [unfold in_block; lia|].
    by apply (free_head _ _ _ _ _ Hi E). }
  destruct (IH s1 (<[p + 2 ^ c' := c']> B) c' Hi1) as (s' & B' & E & Hi' & Hs' & Hfr & Hpg);
    [lia|lia|by apply (in_zone_same s)| |lia|].
  { intros q Hq. rewrite free_page_insert by done. intros [Hq'|Hq'].
    - apply (Hnf q); [unfold in_block in *; lia|done].
    - unfold in_block in *. lia. }
  exists s', B'. split_and!; [|done|by eapply same_zones_trans| |].
  - rewrite (loop_next _ _ _ _ (c', 2 ^ c') s1); [done|]. unfold split_body.
    rewrite (proj2 (Z.ltb_lt k (c' + 1))) by lia.
    replace (c' + 1 - 1) with c' by lia.
    assert (Z.shiftr (2 ^ (c' + 1)) 1 = 2 ^ c') as ->.
    { rewrite Z.shiftr_div_pow2 by lia. change (2 ^ 1) with 2. rewrite Hpow.
      replace (2 ^ c' + 2 ^ c') with (2 ^ c' * 2) by lia. by apply Z.div_mul. }
    rewrite <-put_block_bind. by rewrite (bind_ok _ _ _ _ _ E1).
  - intros q. rewrite Hfr, free_page_insert by done.
    unfold in_block. rewrite Hpow. pose proof (Z.pow_le_mono_r 2 k c' ltac:(lia) ltac:(lia)).
    destruct (decide (p ≤ q < p + (2 ^ c' + 2 ^ c'))); destruct (decide (q < p + 2 ^ c')); intuition lia.
  - intros q Hq. rewrite Hpg, Hf1; [done| |].
    + intros ->. apply Hq. unfold in_block. lia.
    + unfold in_block in *. lia.
Qed.

(** ** Allocation of one block *)

(** What taking the pages [[p, p + n)] does. *)
Record taken (s : pmm) (B : gmap Z Z) (z p n : Z) (s' : pmm) (B' : gmap Z Z) : Prop := {
  tk_inv : buddy_inv s' B' nobody;
  tk_was_free q : p ≤ q < p + n → free_page B q;
  tk_free q : free_page B' q ↔ free_page B q ∧ ¬ (p ≤ q < p + n);
  tk_owned : owned s' B' z p n;
  tk_same : same_zones s s';
  tk_frame q : ¬ free_page B q → pages s' !! q = pages s !! q;
}.

(** The free list of an order, as the code looks at it. *)
Lemma list_head_ok s B ex c :
  buddy_inv s B ex → 0 ≤ c ≤ MAX_ORDER →
  (on_plinks (list_empty (free_list c)) s = Ok (true, s) ∧ ∀ p, B !! p ≠ Some c) ∨
  (∃ p, on_plinks (list_empty (free_list c)) s = Ok (false, s) ∧
     on_plinks (list_next (free_list c)) s = Ok (page_link p, s) ∧ B !! p = Some c).
Proof.
  intros Hi Hc. destruct (bi_lists _ _ _ Hi) as (L & Hrep & _ & Hl).
  destruct (Hl c Hc) as (l & HL & Hmem & _).
  pose proof (list_empty_spec _ _ _ _ Hrep HL) as Hemp. destruct l as [|p l].
  - left. split; [by apply on_plinks_read|]. intros p Hp. apply Hmem in Hp. by apply elem_of_nil in Hp.
  - right. exists p. split; [by apply on_plinks_read|]. split; [|apply Hmem; set_solver].
    apply on_plinks_read.
    by apply (list_next_spec _ L (free_list c) [] (page_link <$> p :: l) [] (free_list c) (page_link p)
      ((page_link <$> l) ++ [free_list c])).
Qed.

Lemma take_split_ok s B p c k :
  buddy_inv s B nobody → B !! p = Some c → 0 ≤ k ≤ c →
  ∃ s1 s2 s' B' z, take_block p c s = Ok (tt, s1) ∧
    loop 12 (split_body p k) (c, 2 ^ c) s1 = Ok (tt, s2) ∧ set_page p ClearPageProperty s2 = Ok (tt, s') ∧
    taken s B z p (2 ^ k) s' B' ∧ ∃ zb, in_zone s z zb p c.
Proof.
  intros Hi HB Hk. destruct (bi_blocks _ _ _ Hi _ _ HB) as (Hc & z & zb & Hz).
  destruct (take_block_ok _ _ _ _ _ Hi HB) as (s1 & E1 & Hi1 & Hs1 & Hp1).
  assert (Hdel : ∀ q, free_page (delete p B) q ↔ free_page B q ∧ ¬ in_block p c q)
    by (intros q; apply (free_page_delete _ _ _ _ _ _ Hi HB)).
  assert (Hall : ∀ q, in_block p c q → free_page B q) by (intros q Hq; by exists p, c).
  destruct (split_ok s1 (delete p B) z zb p k c 12 Hi1 Hk ltac:(lia) (in_zone_same _ _ _ _ _ _ Hs1 Hz))
    as (s2 & B2 & E2 & Hi2 & Hs2 & Hfr2 & Hpg2); [|unfold MAX_ORDER in *; lia|].
  { intros q Hq. rewrite Hdel. tauto. }
  pose proof (Z.pow_le_mono_r 2 k c ltac:(lia) ltac:(lia)) as Hpow.
  pose proof (pow2_pos k ltac:(lia)) as Hpos.
  assert (Hsub : ∀ q, in_block p k q → in_block p c q) by (unfold in_block; lia).
  assert (HB2 : B2 !! p = None).
  { destruct (B2 !! p) eqn:E; [|done]. exfalso.
    assert (free_page B2 p) as Hf by by apply (free_head _ _ _ _ _ Hi2 E).
    apply Hfr2 in Hf as [Hf|[_ Hf]]; [apply Hdel in Hf as [_ Hf]|]; apply Hf, in_block_self; lia. }
  assert (Hzk : in_zone s2 z zb p k).
  { apply (in_zone_same s); [by eapply same_zones_trans|]. destruct Hz as [? ? ? Hu].
    constructor; [done|done|by apply (aligned_le _ k c)|auto]. }
  destruct (clear_flag_ok s2 B2 p k z zb Hi2 HB2 ltac:(lia) Hzk) as (s3 & E3 & Hi3 & Hs3 & Hpg3 & v3 & Hv3 & Hf3).
  assert (Hss : same_zones s s3) by (eapply same_zones_trans; [|done]; by eapply same_zones_trans).
  exists s1, s2, s3, B2, z. split_and!; try done; [|by exists zb].
  assert (Hfree : ∀ q, free_page B2 q ↔ free_page B q ∧ ¬ in_block p k q).
  { intros q. rewrite Hfr2, Hdel. specialize (Hall q). specialize (Hsub q).
    destruct (decide (in_block p c q)); destruct (decide (in_block p k q)); tauto. }
  constructor; try done.
  - intros q Hq. apply Hall, Hsub. exact Hq.
  - intros q Hq. split; [|rewrite Hfree; unfold in_block; tauto].
    destruct (iz_usable _ _ _ _ _ (in_zone_same _ _ _ _ _ _ Hs3 Hzk) q Hq) as (v & Hv & Hvz & Hvr).
    exists v. split_and!; try done. destruct (decide (q = p)) as [->|Hne]; [congruence|].
    destruct (PageProperty v) eqn:Hpr; [|done]. exfalso.
    destruct (bi_flags _ _ _ Hi3 q v Hv Hvr Hpr) as [j Hj]; [by intros []|].
    assert (free_page B2 q) as Hf by by apply (free_head _ _ _ _ _ Hi3 Hj).
    apply Hfree in Hf as [_ Hf]. apply Hf. exact Hq.
  - intros q Hq. rewrite Hpg3, Hpg2, Hp1; [done| |].
    + intros Hin. by apply Hq, Hall.
    + intros ->. apply Hq. by apply (free_head _ _ _ _ _ Hi HB).
Qed.

Lemma alloc_sub_ok s B k :
  buddy_inv s B nobody → 0 ≤ k ≤ MAX_ORDER →
  (∃ p z zb c s' B', buddy_alloc_pages_sub k s = Ok (Some p, s') ∧ taken s B z p (2 ^ k) s' B' ∧
     in_zone s z zb p c ∧ k ≤ c) ∨
  (buddy_alloc_pages_sub k s = Ok (None, s) ∧ ∀ p j, B !! p = Some j → j < k).
Proof.
  intros Hi Hk. unfold buddy_alloc_pages_sub.
  rewrite (proj2 (Z.leb_le k MAX_ORDER)) by lia. rewrite !(bind_ok (assert true) _ s tt s) by done.
  assert (Hloop : ∀ fuel c, k ≤ c ≤ MAX_ORDER + 1 → (Z.to_nat (MAX_ORDER + 1 - c) < fuel)%nat →
    (∀ p j, B !! p = Some j → k ≤ j → c ≤ j) →
    (∃ p z zb d s' B', loop fuel (find_body k) c s = Ok (Some p, s') ∧ taken s B z p (2 ^ k) s' B' ∧
       in_zone s z zb p d ∧ k ≤ d) ∨
    (loop fuel (find_body k) c s = Ok (None, s) ∧ ∀ p j, B !! p = Some j → j < k)).
  2:{ apply Hloop; [lia|unfold MAX_ORDER; lia|done]. }
  intros fuel. induction fuel as [|fuel IH]; intros c Hc Hf Hbelow; [lia|].
  destruct (decide (c = MAX_ORDER + 1)) as [->|Hne].
  { right. split.
    - apply loop_stop. unfold find_body. by rewrite (proj2 (Z.leb_gt _ _)) by lia.
    - intros p j Hp. destruct (decide (j < k)); [done|]. pose proof (Hbelow _ _ Hp ltac:(lia)).
      destruct (bi_blocks _ _ _ Hi _ _ Hp). lia. }
  assert (Hcm : (c <=? MAX_ORDER) = true) by (apply Z.leb_le; lia).
  destruct (list_head_ok s B nobody c Hi ltac:(lia)) as [[Ee Hnone]|(p & Ee & En & HB)].
  - assert (Hbelow' : ∀ p j, B !! p = Some j → k ≤ j → c + 1 ≤ j).
    { intros p j Hp Hj. pose proof (Hbelow _ _ Hp Hj). assert (j ≠ c) by (intros ->; by apply (Hnone p)). lia. }
    rewrite (loop_next _ _ _ _ (c + 1) s).
    2:{ unfold find_body. rewrite Hcm. by rewrite (bind_ok _ _ _ _ _ Ee). }
    apply IH; [lia|lia|done].
  - destruct (take_split_ok s B p c k Hi HB ltac:(lia)) as (s1 & s2 & s' & B' & z & E1 & E2 & E3 & Htk & zb & Hz).
    left. exists p, z, zb, c, s', B'. split; [|split; [done|split; [done|lia]]].
    apply loop_stop. unfold find_body. rewrite Hcm, (bind_ok _ _ _ _ _ Ee). cbn [negb].
    rewrite (bind_ok _ _ _ _ _ En). cbn [le2page]. rewrite (bind_ok (mret p) _ s p s) by done.
    rewrite shiftl_pow by lia.
    assert (Hb : ∀ m, (_ ← add_nr_free c (-1); _ ← on_plinks (list_del (page_link p)); m) s = (m : M pmm (Z + option Z)) s1).
    { intros m. rewrite <-(bind_ok (take_block p c) (λ _, m) s tt s1 E1). unfold take_block.
      apply (bind_assoc (add_nr_free c (-1)) (λ _, on_plinks (list_del (page_link p)))). }
    rewrite Hb, (bind_ok _ _ _ _ _ E2). by rewrite (bind_ok _ _ _ _ _ E3).
Qed.

(** ** The interface *)

Lemma buddy_inv_used s B ex u : buddy_inv s B ex → buddy_inv (s <| used_pages := u |>) B ex.
Proof.
  intros [Hl Hb Hh Hd Hf Hdom Hn Hbase Hm]. constructor; try done.
  intros p k H. destruct (Hb p k H) as (Hk & z & zb & []). split; [done|]. by exists z, zb.
Qed.

Lemma owned_used s B z p n u : owned s B z p n → owned (s <| used_pages := u |>) B z p n.
Proof. done. Qed.

(** [n] pages that the caller holds, in one zone. *)
Definition holds (s : pmm) (B : gmap Z Z) (p n : Z) : Prop :=
  ∃ z zb, mem_base s !! z = Some zb ∧ zb ≤ p ∧ owned s B z p n.

Lemma free_pages_ok s B p n :
  buddy_inv s B nobody → 0 < n < 2048 → holds s B p n →
  ∃ s1 s' B', free_pages p n s = Ok (tt, s') ∧ s' = s1 <| used_pages := u32 (used_pages s - n) |> ∧
    freed s B p n s1 B' ∧ buddy_inv s' B' nobody.
Proof.
  intros Hi Hn (z & zb & Hb & Hge & Ho).
  destruct (free_range_ok s B z zb p n Hi Hb Hge Hn Ho) as (s1 & B' & E & Hfd).
  exists s1, (s1 <| used_pages := u32 (used_pages s - n) |>), B'. split_and!; [|done|done|].
  - unfold free_pages. rewrite (bind_ok _ _ _ _ _ E). unfold modify.
    by rewrite (sz_used _ _ (fd_same _ _ _ _ _ _ Hfd)).
  - apply buddy_inv_used, Hfd.
Qed.

(** The tail of a block that is larger than asked for goes back. *)
Lemma alloc_pages_ok s B n :
  buddy_inv s B nobody → 0 < n ≤ 1024 →
  ∃ k, 0 ≤ k ≤ MAX_ORDER ∧ n ≤ 2 ^ k ∧ (k = 0 ∨ 2 ^ (k - 1) < n) ∧
  ((∃ p s' B' s1 z zb, alloc_pages n s = Ok (Some p, s') ∧ taken s B z p n s1 B' ∧ mem_base s !! z = Some zb ∧ zb ≤ p ∧
      s' = s1 <| used_pages := u32 (u32 (used_pages s - (2 ^ k - n)) + n) |>) ∨
   (alloc_pages n s = Ok (None, s) ∧ ∀ p j, B !! p = Some j → j < k)).
Proof.
  intros Hi Hn. pose proof (getorder_ok n s) as Hg. rewrite (proj2 (Z.leb_le n 1024)) in Hg by lia.
  destruct Hg as (k & Eg & Hk & Hle & Hlow). exists k. split_and!; try done; try lia.
  pose proof (pow2_pos k ltac:(lia)) as Hpos.
  assert (Hpre : ∀ r s1, buddy_alloc_pages_sub k s = Ok (r, s1) →
    alloc_pages n s = (page ← (match r with
      | Some p => _ ← (if negb (n =? 2 ^ k) then free_pages (p + n) (2 ^ k - n) else mret tt); mret r
      | None => mret None end);
      match page with
      | Some _ => _ ← modify (λ s, s <| used_pages := u32 (used_pages s + n) |>); mret page
      | None => mret page end) s1).
  { intros r s1 E. unfold alloc_pages, buddy_alloc_pages.
    rewrite (proj2 (Z.ltb_lt 0 n)) by lia.
    unfold mbind at 1, M_bind at 1. rewrite (bind_ok (assert true) _ s tt s) by done.
    rewrite (bind_ok _ _ _ _ _ Eg), shiftl_pow by lia. by rewrite (bind_ok _ _ _ _ _ E). }
  destruct (alloc_sub_ok s B k Hi Hk) as [(p & z & zb & c & s1 & B1 & E & Htk & Hz & Hkc)|[E Hnone]].
  2:{ right. split; [|done]. by rewrite (Hpre _ _ E). }
  left. rewrite (Hpre _ _ E). destruct Htk as [Hi1 Hwas Hfr Ho Hs Hpg].
  destruct (Z.eqb_spec n (2 ^ k)) as [->|Hne]; cbn [negb].
  - exists p, (s1 <| used_pages := u32 (u32 (used_pages s - (2 ^ k - 2 ^ k)) + 2 ^ k) |>), B1, s1, z, zb.
    split; [|split; [by constructor|split; [apply (iz_base _ _ _ _ _ Hz)|split; [apply (iz_ge _ _ _ _ _ Hz)|done]]]].
    unfold mbind, M_bind, mret, M_ret, modify. rewrite (sz_used _ _ Hs), Z.sub_diag, Z.sub_0_r.
    do 3 f_equal. unfold u32. by rewrite Z.add_mod_idemp_l.
  - assert (Hsplit : 2 ^ k = n + (2 ^ k - n)) by lia.
    rewrite Hsplit in Ho. apply owned_app in Ho as [Ho1 Ho2]; [|lia|lia].
    assert (2 ^ k ≤ 1024) by (change 1024 with (2 ^ 10); apply Z.pow_le_mono_r; unfold MAX_ORDER in *; lia).
    destruct (free_pages_ok s1 B1 (p + n) (2 ^ k - n) Hi1 ltac:(lia)) as (s2 & s3 & B2 & E2 & Es3 & Hfd & Hi3).
    { exists z, zb. rewrite (sz_base _ _ Hs). pose proof (iz_ge _ _ _ _ _ Hz).
      split; [apply (iz_base _ _ _ _ _ Hz)|split; [lia|done]]. }
    exists p, (s3 <| used_pages := u32 (used_pages s3 + n) |>), B2, s2, z, zb.
    split; [|split; [|split; [apply (iz_base _ _ _ _ _ Hz)|split; [apply (iz_ge _ _ _ _ _ Hz)|]]]].
    + rewrite (bind_ok _ _ s1 (Some p) s3); [done|]. by rewrite (bind_ok _ _ _ _ _ E2).
    + destruct Hfd as [Hi2 Hfr2 Hs2 Hpg2]. constructor; [done| | | |by eapply same_zones_trans|].
      * intros q Hq. apply Hwas. lia.
      * intros q. rewrite Hfr2, Hfr. split; [intros [[? ?]|?]|intros [? ?]].
        -- split; [done|]. lia.
        -- split; [apply Hwas; lia|lia].
        -- destruct (decide (p + n ≤ q < p + n + (2 ^ k - n))); [by right|]. left. split; [done|]. lia.
      * eapply owned_frame; [exact Ho1| |].
        -- intros q Hq. apply Hpg2; [|lia]. rewrite Hfr. lia.
        -- intros q Hq. rewrite Hfr2. intros [?|?]; [done|lia].
      * intros q Hq. rewrite Hpg2, Hpg; [done|done| |].
        -- rewrite Hfr. tauto.
        -- intros Hin. apply Hq, Hwas. lia.
    + rewrite Es3. simpl. by rewrite (sz_used _ _ Hs).
Qed.
