(* ===== verification/BuddyInit.v ===== *)
(** * Booting the buddy allocator

    [buddy_init] makes the free lists; [buddy_init_memmap] turns a range of
    reserved pages into a zone cut in blocks of decreasing order, and keeps
    the invariant of [BuddyInv]. *)

From S2P Require Import Prelude DList Buddy BuddyInv BuddySpec.

(** ** The free lists *)

(** The lists of the orders below [n], all empty. *)
Definition empty_lists (n : nat) : gmap blink (list blink) :=
  list_to_map ((λ i, (free_list (Z.of_nat i), [])) <$> seq 0 n).

Lemma empty_lists_lookup n x l :
  empty_lists n !! x = Some l ↔ l = [] ∧ ∃ k, 0 ≤ k < Z.of_nat n ∧ x = free_list k.
Proof.
  unfold empty_lists. rewrite <-elem_of_list_to_map.
  - rewrite list_elem_of_fmap. setoid_rewrite elem_of_seq. split.
    + intros (i & [= -> ->] & Hi). split; [done|]. exists (Z.of_nat i). split; [lia|done].
    + intros (-> & k & Hk & ->). exists (Z.to_nat k). split; [by rewrite Z2Nat.id by lia|lia].
  - rewrite <-list_fmap_compose. apply (NoDup_fmap_2_strong _ (seq 0 n)); [|apply NoDup_seq].
    intros i j _ _ [= H]. lia.
Qed.

(** Before [buddy_init] the array of pages is there, all of it reserved. *)
Record unbooted (s : pmm) : Prop := {
  ub_dom q : is_Some (pages s !! q) ↔ 0 ≤ q < npage s;
  ub_reserved q v : pages s !! q = Some v → PageReserved v = true;
  ub_npage : npage s ≤ 2 ^ 20;
  ub_base : mem_base s = ∅;
  ub_plinks : plinks s = ∅;
  ub_cnt : zone_cnt s = 0;
  ub_used : used_pages s = 0;
}.

Lemma buddy_init_ok s :
  unbooted s →
  ∃ s', buddy_init s = Ok (tt, s') ∧ buddy_inv s' ∅ nobody ∧ pages s' = pages s ∧ npage s' = npage s ∧
    mem_base s' = ∅ ∧ zone_cnt s' = 0 ∧ used_pages s' = 0.
Proof.
  intros [Hdom Hres Hn Hb Hpl Hz Hu].
  set (I (i : Z) (t : pmm) := 0 ≤ i ≤ 11 ∧ rep (plinks t) (empty_lists (Z.to_nat i)) ∧
    (∀ k, 0 ≤ k < i → nr_free t !! k = Some 0) ∧ pages t = pages s ∧ npage t = npage s ∧
    mem_base t = ∅ ∧ zone_cnt t = 0 ∧ used_pages t = 0).
  destruct (wp_loop I (λ i _, Z.to_nat (11 - i)) (λ _ t, I 11 t) buddy_init_body) with (fuel := 12%nat) (a := 0) (s := s)
    as ([] & s' & E & HI).
  - intros i t (Hi & Hrep & Hnr & Hrest). unfold buddy_init_body. destruct (Z.leb_spec i MAX_ORDER) as [Hle|Hgt].
    2:{ apply wp_ret. assert (i = 11) as -> by (unfold MAX_ORDER in *; lia). by split. }
    set (L := empty_lists (Z.to_nat i)) in *.
    assert (HL : L !! free_list i = None).
    { destruct (L !! free_list i) as [l|] eqn:El; [|done].
      apply empty_lists_lookup in El as (_ & k & Hk & [= ->]). lia. }
    assert (Hun : unlisted L (free_list i)).
    { intros k l Hk Hin. apply empty_lists_lookup in Hk as (-> & j & Hj & ->).
      apply elem_of_cons in Hin as [[= ->]|Hin]; [lia|by apply elem_of_nil in Hin]. }
    destruct (rep_init _ _ (free_list i) Hrep (unlisted_available _ _ Hun)) as (h & Eh & Hrep').
    apply wp_bind, (wp_ok _ _ _ _ _ (on_plinks_ok _ _ _ _ Eh)).
    apply wp_bind, wp_modify, wp_ret. unfold MAX_ORDER in *. split; [|lia].
    split; [lia|]. split; [|split; [|exact Hrest]].
    + simpl. assert (empty_lists (Z.to_nat (i + 1)) = <[free_list i := []]> L) as ->; [|done].
      apply map_eq. intros x. apply option_eq. intros l. rewrite empty_lists_lookup, lookup_insert_Some.
      unfold L. rewrite empty_lists_lookup. split.
      * intros (-> & k & Hk & ->). destruct (decide (k = i)) as [->|?]; [by left|].
        right. split; [congruence|]. split; [done|]. exists k. split; [lia|done].
      * intros [[<- <-]|(_ & -> & k & Hk & ->)]; (split; [done|]); eexists; (split; [|done]); lia.
    + intros k Hk. simpl. destruct (decide (k = i)) as [->|?]; [apply lookup_insert_eq|].
      rewrite lookup_insert_ne by done. apply Hnr. lia.
  - split; [lia|]. rewrite Hpl. split; [apply rep_empty|]. split; [lia|]. done.
  - lia.
  - destruct HI as (_ & Hrep & Hnr & Hp & Hn' & Hb' & Hz' & Hu'). exists s'. split_and!; try done.
    constructor; simpl; try done.
    + eexists. split; [exact Hrep|]. change (Z.to_nat 11) with 11%nat. split.
      * intros x [l Hl]. apply empty_lists_lookup in Hl as (_ & k & Hk & ->).
        exists k. split; [unfold MAX_ORDER; lia|done].
      * intros k Hk. exists []. split; [|split; [|apply Hnr; unfold MAX_ORDER in *; lia]].
        -- apply empty_lists_lookup. split; [done|]. exists k. unfold MAX_ORDER in *. split; [lia|done].
        -- intros p. rewrite lookup_empty. split; [intros Hin; by apply elem_of_nil in Hin|done].
    + intros q v Hq Hr. rewrite Hp in Hq. apply Hres in Hq. congruence.
    + intros q. by rewrite Hp, Hn'.
    + by rewrite Hn'.
    + intros z zb. by rewrite Hb', lookup_empty.
Qed.

(** ** A new zone *)

(** A reserved page is part of no block; it may join any zone. *)
Lemma inv_unreserve s B q v v' :
  buddy_inv s B nobody → pages s !! q = Some v → PageReserved v = true → PageProperty v' = false →
  buddy_inv (s <| pages := <[q := v']> (pages s) |>) B nobody.
Proof.
  intros Hi Hq Hr Hp.
  assert (Hblk : ∀ p k z zb j, in_zone s z zb p k → in_block p k j → j ≠ q).
  { intros p k z zb j Hz Hj ->. destruct (iz_usable _ _ _ _ _ Hz q Hj) as (w & Hw & _ & ?). congruence. }
  assert (Hhead : ∀ p k, B !! p = Some k → p ≠ q).
  { intros p k HB. destruct (bi_blocks _ _ _ Hi _ _ HB) as (Hk & z & zb & Hz).
    apply (Hblk p k z zb p Hz), in_block_self. lia. }
  destruct Hi as [Hl Hb Hh Hd Hf Hdom Hn Hbase Hm]. constructor; simpl; try done.
  - intros p k HB. destruct (Hb _ _ HB) as (Hk & z & zb & Hz). split; [done|]. exists z, zb.
    pose proof (Hblk p k z zb) as Hne. destruct Hz as [? ? ? Hu]. constructor; try done.
    intros j Hj. unfold usable. simpl. rewrite lookup_insert_ne; [by apply Hu|].
    intros Heq. by apply (Hne j).
  - intros p k HB. rewrite lookup_insert_ne; [by apply Hh|]. pose proof (Hhead _ _ HB). congruence.
  - intros p w Hw Hrw Hpw _. destruct (decide (p = q)) as [->|Hne].
    + rewrite lookup_insert_eq in Hw. simplify_eq. congruence.
    + rewrite lookup_insert_ne in Hw by done. apply (Hf p w); [done|done|done|intros []].
  - intros p. rewrite <-Hdom. destruct (decide (p = q)) as [->|Hne].
    + rewrite lookup_insert_eq, Hq. naive_solver.
    + by rewrite lookup_insert_ne.
  - intros p k z zb HB Hk Hz Hzb HB'. unfold zone_of in *. simpl in *.
    pose proof (Hhead _ _ HB). pose proof (Hhead _ _ HB').
    rewrite lookup_insert_ne in Hz by done. rewrite lookup_insert_ne by done. by apply (Hm p k z zb).
Qed.

(** The first loop: the pages of the range join zone [zone_cnt]. *)
Lemma memmap_pages_ok s B z base n :
  buddy_inv s B nobody → zone_cnt s = z →
  (∀ q, base ≤ q < base + Z.of_nat n → ∃ v, pages s !! q = Some v ∧ PageReserved v = true) →
  ∃ s', loop (S n) (memmap_page_body (base + Z.of_nat n)) base s = Ok (tt, s') ∧ buddy_inv s' B nobody ∧
    (∀ q, base ≤ q < base + Z.of_nat n → ∃ v, pages s' !! q = Some v ∧ zone_num v = z ∧
       PageReserved v = false ∧ PageProperty v = false) ∧
    (∀ q, ¬ (base ≤ q < base + Z.of_nat n) → pages s' !! q = pages s !! q) ∧
    npage s' = npage s ∧ mem_base s' = mem_base s ∧ zone_cnt s' = zone_cnt s ∧ used_pages s' = used_pages s.
Proof.
  revert s base. induction n as [|n IH]; intros s base Hi Hz Hr.
  { exists s. split_and!; try done; [|lia]. apply loop_stop. unfold memmap_page_body.
    change (Z.of_nat 0) with 0. by rewrite Z.add_0_r, Z.eqb_refl. }
  destruct (Hr base) as (v & Hv & Hvr); [lia|].
  set (v' := v <| flags := 0 |> <| property := 0 |> <| zone_num := z |> <| ref := 0 |>).
  set (s1 := s <| pages := <[base := v']> (pages s) |>).
  destruct (IH s1 (base + 1)) as (s' & E & Hi' & Hin & Hout & Hrest).
  - by apply (inv_unreserve s B base v).
  - done.
  - intros q Hq. simpl. rewrite lookup_insert_ne by lia. apply Hr. lia.
  - exists s'. split; [|split; [done|split; [|split; [|done]]]].
    + rewrite (loop_next _ _ _ _ (base + 1) s1).
      { by replace (base + Z.of_nat (S n)) with (base + 1 + Z.of_nat n) by lia. }
      unfold memmap_page_body. rewrite (proj2 (Z.eqb_neq _ _)) by lia.
      rewrite (bind_ok get _ s s s) by done. rewrite (bind_ok _ _ _ _ _ (get_page_ok _ _ _ Hv)), Hvr.
      rewrite (bind_ok (assert true) _ s tt s) by done. rewrite (bind_ok _ _ _ _ _ (set_page_ok s base _ v Hv)).
      by subst z.
    + intros q Hq. destruct (decide (q = base)) as [->|Hne]; [|apply Hin; lia].
      exists v'. rewrite Hout by lia. split; [apply lookup_insert_eq|done].
    + intros q Hq. rewrite Hout by lia. simpl. apply lookup_insert_ne. lia.
Qed.

(** The zone is entered in the table. *)
Lemma inv_zone s B base z c :
  buddy_inv s B nobody → mem_base s !! z = None → 0 ≤ base →
  buddy_inv (s <| mem_base := <[z := base]> (mem_base s) |> <| zone_cnt := c |>) B nobody.
Proof.
  intros Hi Hz Hbase0.
  assert (Hne : ∀ z' zb p k, in_zone s z' zb p k → z' ≠ z).
  { intros z' zb p k Hzz ->. pose proof (iz_base _ _ _ _ _ Hzz). congruence. }
  destruct Hi as [Hl Hb Hh Hd Hf Hdom Hn Hbase Hm]. constructor; simpl; try done.
  - intros p k HB. destruct (Hb _ _ HB) as (Hk & z' & zb & Hzz). split; [done|]. exists z', zb.
    pose proof (Hne _ _ _ _ Hzz). destruct Hzz. constructor; try done. simpl. by rewrite lookup_insert_ne.
  - intros z' zb [[<- <-]|[_ H]]%lookup_insert_Some; [done|by apply (Hbase z')].
  - intros p k z' zb HB Hk Hz' Hzb.
    destruct (Hb _ _ HB) as (Hk0 & z2 & zb2 & Hzz). pose proof (Hne _ _ _ _ Hzz) as Hz2.
    pose proof (in_zone_head s z2 zb2 p k ltac:(lia) Hzz) as Hhead.
    assert (z2 = z') as -> by (change (zone_of s p = Some z') in Hz'; congruence).
    rewrite lookup_insert_ne in Hzb by done. by apply (Hm p k).
Qed.

(** Counting a block before it is linked, or after. *)
Lemma add_links_comm s k d (m : M (gmap blink (list_entry blink)) unit) s' :
  (_ ← add_nr_free k d; on_plinks m) s = Ok (tt, s') →
  (_ ← on_plinks m; add_nr_free k d) s = Ok (tt, s').
Proof.
  unfold add_nr_free, on_plinks, deref, modify, mbind, M_bind. destruct (nr_free s !! k) eqn:Hk; [|done].
  simpl. destruct (m (plinks s)) as [[[] h]|]; [|done]. intros [= <-]. simpl. by rewrite Hk.
Qed.

Lemma put_block_linked p k s s' :
  put_block p k s = Ok (tt, s') →
  ∀ {B} (f : M pmm B),
  (_ ← set_page p (λ v, v <| property := k |>); _ ← set_page p SetPageProperty;
   _ ← on_plinks (list_add (free_list k) (page_link p)); _ ← add_nr_free k 1; f) s = f s'.
Proof.
  unfold put_block. intros H B f. apply bind_inv in H as ([] & s1 & E1 & H).
  apply bind_inv in H as ([] & s2 & E2 & H). rewrite (bind_ok _ _ _ _ _ E1), (bind_ok _ _ _ _ _ E2).
  apply add_links_comm in H. apply bind_inv in H as ([] & s3 & E3 & H).
  rewrite (bind_ok _ _ _ _ _ E3). by rewrite (bind_ok _ _ _ _ _ H).
Qed.

Section carving.
Context (s0 : pmm) (B0 : gmap Z Z) (z base N : Z).
Context (Hfresh : ∀ q, free_page B0 q → zone_of s0 q ≠ Some z).

(** The pages [[base, p)] have been cut in blocks, [n] pages from [p] are left. *)
Record carving (s : pmm) (B : gmap Z Z) (p n : Z) : Prop := {
  cv_inv : buddy_inv s B nobody;
  cv_base : mem_base s !! z = Some base;
  cv_left : base ≤ p ∧ 0 ≤ n ∧ p + n = base + N;
  cv_owned : owned s B z p n;
  cv_free q : free_page B q ↔ free_page B0 q ∨ base ≤ q < p;
  cv_same : same_zones s0 s;
  cv_frame q : ¬ (base ≤ q < p) → pages s !! q = pages s0 !! q;
}.

Lemma carve_step s B p n k :
  carving s B p n → 0 ≤ k ≤ MAX_ORDER → 2 ^ k ≤ n → (p - base) mod 2 ^ k = 0 →
  (k < MAX_ORDER → (p - base) mod 2 ^ (k + 1) = 0) →
  ∃ s', put_block p k s = Ok (tt, s') ∧ carving s' (<[p := k]> B) (p + 2 ^ k) (n - 2 ^ k).
Proof using Hfresh.
  intros [Hi Hb Hl Ho Hf Hs Hfr] Hk Hle Hal Hal'. pose proof (pow2_pos k ltac:(lia)) as Hp.
  assert (HB : B !! p = None).
  { destruct (B !! p) as [j|] eqn:E; [|done]. exfalso. destruct (Ho p ltac:(lia)) as [_ Hno].
    by apply Hno, (free_head _ _ _ _ _ Hi E). }
  destruct (put_block_ok s B nobody z base p k Hi Hk) as (s' & E & Hi' & Hs' & Hfr').
  - constructor; [done|lia|done|]. intros q Hq. unfold in_block in Hq.
    destruct (Ho q ltac:(lia)) as [(v & ? & ? & ? & ?) _]. by exists v.
  - intros q Hq. apply Ho. unfold in_block in Hq. lia.
  - intros Hlt HBb.
    assert (Hbud : buddy_of base p k = p + 2 ^ k).
    { unfold buddy_of. pose proof (buddy_index (p - base) k ltac:(lia) Hal) as Hbi. cbv zeta in Hbi.
      destruct Hbi as [(Hx & _)|(Hx & _ & Hx2)]; [rewrite Hx; lia|]. exfalso. rewrite Hx in Hx2. specialize (Hal' Hlt).
      assert (Hpow : 2 ^ (k + 1) = 2 * 2 ^ k) by (rewrite Z.pow_add_r by lia; change (2 ^ 1) with 2; lia).
      pose proof (Z.div_mod (p - base) (2 ^ (k + 1)) ltac:(lia)) as D1.
      pose proof (Z.div_mod (p - base - 2 ^ k) (2 ^ (k + 1)) ltac:(lia)) as D2. rewrite Hal' in D1. rewrite Hx2 in D2.
      rewrite Hpow in D1, D2. generalize dependent ((p - base) / (2 * 2 ^ k)).
      generalize dependent ((p - base - 2 ^ k) / (2 * 2 ^ k)). intros a Ha b Hb'.
      assert (2 ^ k * (2 * (b - a) - 1) = 0) as H0 by lia. apply Z.mul_eq_0 in H0. lia. }
    rewrite Hbud in *. apply (free_head _ _ _ _ _ Hi) in HBb. apply Hf in HBb as [HBb|?]; [|lia].
    rewrite (sz_zone _ _ Hs). by apply Hfresh.
  - exists s'. split; [done|]. constructor; [done| |lia| | |by eapply same_zones_trans|].
    + by rewrite (sz_base _ _ Hs').
    + apply (owned_frame s s' B); [intros q Hq; apply Ho; lia| |].
      * intros q Hq. apply Hfr'. lia.
      * intros q Hq. rewrite free_page_insert by done. unfold in_block. intros [?|?]; [done|lia].
    + intros q. rewrite free_page_insert by done. rewrite Hf. unfold in_block.
      destruct (decide (q < p)); destruct (decide (q < p + 2 ^ k)); intuition lia.
    + intros q Hq. rewrite Hfr' by lia. apply Hfr. lia.
Qed.

Lemma carve_order s B p n k fuel :
  carving s B p n → 0 ≤ k ≤ MAX_ORDER → (p - base) mod 2 ^ k = 0 →
  (k < MAX_ORDER → 2 ^ k ≤ n → (p - base) mod 2 ^ (k + 1) = 0 ∧ n < 2 ^ (k + 1)) → (Z.to_nat n < fuel)%nat →
  ∃ s' B' p' n', loop fuel (memmap_order_body k (2 ^ k)) (p, n) s = Ok ((p', n'), s') ∧
    carving s' B' p' n' ∧ (p' - base) mod 2 ^ k = 0 ∧ n' < 2 ^ k.
Proof using Hfresh.
  intros Hc Hk. revert s B p n Hc. induction fuel as [|fuel IH]; intros s B p n Hc Hal Hone Hf; [lia|].
  pose proof (pow2_pos k ltac:(lia)) as Hp. pose proof (cv_left _ _ _ _ Hc) as Hl.
  destruct (decide (2 ^ k ≤ n)) as [Hle|Hgt].
  2:{ exists s, B, p, n. split; [|split; [done|split; [done|lia]]]. apply loop_stop.
      unfold memmap_order_body. by rewrite (proj2 (Z.leb_gt _ _)) by lia. }
  destruct (carve_step s B p n k Hc Hk Hle Hal) as (s1 & E & Hc1); [naive_solver|].
  destruct (IH s1 _ _ _ Hc1) as (s' & B' & p' & n' & E' & H'); [| |lia|].
  - replace (p + 2 ^ k - base) with (p - base + 1 * 2 ^ k) by lia. by rewrite Z.mod_add by lia.
  - intros Hlt Hle2. exfalso. destruct (Hone Hlt Hle) as [_ Hn].
    assert (2 ^ (k + 1) = 2 * 2 ^ k) by (rewrite Z.pow_add_r by lia; change (2 ^ 1) with 2; lia). lia.
  - exists s', B', p', n'. split; [|done].
    rewrite (loop_next _ _ _ _ (p + 2 ^ k, n - 2 ^ k) s1); [done|]. unfold memmap_order_body.
    rewrite (proj2 (Z.leb_le _ _)) by lia. by apply (put_block_linked p k s s1 E).
Qed.

Lemma carve_all s B p n k fuel :
  carving s B p n → 0 ≤ k ≤ MAX_ORDER → (p - base) mod 2 ^ k = 0 →
  (k < MAX_ORDER → (p - base) mod 2 ^ (k + 1) = 0 ∧ n < 2 ^ (k + 1)) → (Z.to_nat k + 1 < fuel)%nat →
  ∃ s' B', loop fuel memmap_body (p, n, k, 2 ^ k) s = Ok (tt, s') ∧ carving s' B' (base + N) 0.
Proof using Hfresh.
  revert s B p n k. induction fuel as [|fuel IH]; intros s B p n k Hc Hk Hal Hone Hf; [lia|].
  pose proof (cv_left _ _ _ _ Hc) as Hl. destruct (decide (n = 0)) as [->|Hn].
  { exists s, B. replace (base + N) with p by lia. split; [|done]. by apply loop_stop. }
  destruct (carve_order s B p n k (S (Z.to_nat n)) Hc Hk Hal) as (s1 & B1 & p1 & n1 & E & Hc1 & Hal1 & Hn1); [auto|lia|].
  rewrite (loop_next _ _ _ _ (p1, n1, u32 (k - 1), Z.shiftr (2 ^ k) 1) s1).
  2:{ unfold memmap_body. rewrite (proj2 (Z.eqb_neq _ _)) by done. by rewrite (bind_ok _ _ _ _ _ E). }
  destruct (decide (k = 0)) as [->|Hk0].
  { pose proof (cv_left _ _ _ _ Hc1) as Hl1. change (2 ^ 0) with 1 in Hn1. assert (n1 = 0) as -> by lia.
    exists s1, B1. replace (base + N) with p1 by lia. split; [|done]. destruct fuel; [lia|]. by apply loop_stop. }
  assert (Hpk : 2 ^ k = 2 ^ (k - 1) * 2).
  { replace k with (k - 1 + 1) at 1 by lia. rewrite Z.pow_add_r by lia. done. }
  rewrite u32_id by (unfold MAX_ORDER in *; lia).
  assert (Z.shiftr (2 ^ k) 1 = 2 ^ (k - 1)) as ->.
  { rewrite Z.shiftr_div_pow2 by lia. change (2 ^ 1) with 2. rewrite Hpk. by apply Z.div_mul. }
  apply (IH s1 B1 p1 n1 (k - 1)); [done|lia| |intros _; replace (k - 1 + 1) with k by lia; done|lia].
  by apply (aligned_le _ (k - 1) k); [lia|].
Qed.
End carving.

(** ** [buddy_init_memmap] *)

Lemma buddy_init_memmap_ok s B base n :
  buddy_inv s B nobody → zone_cnt s < MAX_ZONE_NUM → mem_base s !! zone_cnt s = None → 0 ≤ base → 0 < n →
  (∀ q, base ≤ q < base + n → ∃ v, pages s !! q = Some v ∧ PageReserved v = true) →
  ∃ s' B', buddy_init_memmap base n s = Ok (tt, s') ∧ buddy_inv s' B' nobody ∧
    (∀ q, free_page B' q ↔ free_page B q ∨ base ≤ q < base + n) ∧
    (∀ q, ¬ (base ≤ q < base + n) → pages s' !! q = pages s !! q) ∧
    npage s' = npage s ∧ mem_base s' = <[zone_cnt s := base]> (mem_base s) ∧
    zone_cnt s' = zone_cnt s + 1 ∧ used_pages s' = used_pages s.
Proof.
  intros Hi Hcnt Hz Hb0 Hn Hr. unfold buddy_init_memmap. rewrite (bind_ok get _ s s s) by done.
  rewrite (proj2 (Z.ltb_lt 0 n)), (proj2 (Z.ltb_lt _ _)) by lia. rewrite (bind_ok (assert _) _ s tt s) by done.
  set (z := zone_cnt s) in *.
  assert (Hnn : Z.of_nat (Z.to_nat n) = n) by lia. rewrite <-Hnn in Hr.
  destruct (memmap_pages_ok s B z base _ Hi eq_refl Hr) as (s1 & E1 & Hi1 & Hin & Hout & Hn1 & Hb1 & Hc1 & Hu1).
  rewrite Hnn in *. rewrite (bind_ok _ _ _ _ _ E1).
  set (s2 := s1 <| mem_base := <[z := base]> (mem_base s1) |> <| zone_cnt := z + 1 |>).
  rewrite (bind_ok (modify _) _ s1 tt s2) by (unfold modify; rewrite Hc1; done).
  assert (Hi2 : buddy_inv s2 B nobody) by (apply inv_zone; [done|by rewrite Hb1|done]).
  assert (Hres : ∀ q, base ≤ q < base + n → ¬ free_page B q).
  { intros q Hq (p & k & HB & Hqk). destruct (bi_blocks _ _ _ Hi _ _ HB) as (_ & z' & zb & Hzz).
    destruct (iz_usable _ _ _ _ _ Hzz q Hqk) as (v & Hv & _ & Hvr). destruct (Hr q Hq) as (w & Hw & ?). congruence. }
  assert (Hfresh : ∀ q, free_page B q → zone_of s2 q ≠ Some z).
  { intros q Hq. pose proof (Hres q) as Hnot. destruct Hq as (p & k & HB & Hqk).
    destruct (bi_blocks _ _ _ Hi _ _ HB) as (_ & z' & zb & Hzz). pose proof (iz_base _ _ _ _ _ Hzz) as Hzb.
    destruct (iz_usable _ _ _ _ _ Hzz q Hqk) as (v & Hv & Hvz & _).
    unfold zone_of. simpl. rewrite Hout; [rewrite Hv; simpl; congruence|]. intros Hq. apply (Hnot Hq). by exists p, k. }
  destruct (carve_all s2 B z base n Hfresh s2 B base n MAX_ORDER 12) as (s' & B' & E & Hc).
  - constructor; try done.
    + simpl. apply lookup_insert_eq.
    + lia.
    + intros q Hq. split; [by apply Hin|by apply Hres].
    + intros q. split; [by left|intros [?|?]; [done|lia]].
  - done.
  - by rewrite Z.sub_diag.
  - unfold MAX_ORDER. lia.
  - simpl. lia.
  - exists s', B'. destruct Hc as [Hi' _ _ _ Hf Hs Hfr]. split_and!; try done.
    + intros q Hq. rewrite Hfr by done. simpl. by apply Hout.
    + by rewrite (sz_npage _ _ Hs).
    + rewrite (sz_base _ _ Hs). simpl. by rewrite Hb1.
    + by rewrite (sz_cnt _ _ Hs).
    + by rewrite (sz_used _ _ Hs).
Qed.
