(* ===== verification/BuddyPool.v ===== *)
(** * The buddy allocator as a pool of pages

    Clients of [alloc_pages], [free_pages], [nr_free_pages] and
    [buddy_init_memmap] see a set of pages: the ranges handed out are disjoint,
    nothing is lost, the count is the number of free pages, and a request
    fails only when no aligned run of free pages is large enough. *)

From stdpp Require Import sets fin_sets relations.
From S2P Require Import Prelude DList Buddy BuddyInv BuddySpec BuddyAlloc BuddyInit.

(** ** Coalescing *)

Lemma aligned_same_block a b m : 0 < m → a mod m = 0 → b mod m = 0 → a ≤ b < a + m → a = b.
Proof.
  intros Hm Ha Hb Hab. apply Z.mod_divide in Ha as [x ->]; [|lia]. apply Z.mod_divide in Hb as [y ->]; [|lia].
  assert (x = y) as ->; [nia|done].
Qed.

(** Free aligned runs lie in one free block. *)
Lemma coalesced s B z zb (k : nat) p :
  buddy_inv s B nobody → mem_base s !! z = Some zb → Z.of_nat k ≤ MAX_ORDER →
  (p - zb) mod 2 ^ Z.of_nat k = 0 →
  (∀ q, in_block p (Z.of_nat k) q → free_page B q ∧ zone_of s q = Some z) →
  ∃ p' k', B !! p' = Some k' ∧ Z.of_nat k ≤ k' ∧ in_block p' k' p.
Proof.
  intros Hi Hb. revert p. induction k as [|k IH]; intros p Hk Hal Hrun.
  { destruct (Hrun p) as [(p' & k' & HB & Hp) _]; [by apply in_block_self|].
    exists p', k'. split; [done|]. split; [|done]. destruct (bi_blocks _ _ _ Hi _ _ HB). lia. }
  set (j := Z.of_nat k) in *. assert (Z.of_nat (S k) = j + 1) as Ej by lia. rewrite Ej in *.
  pose proof (pow2_pos j ltac:(lia)) as Hp.
  assert (Hpow : 2 ^ (j + 1) = 2 ^ j + 2 ^ j) by (rewrite Z.pow_add_r by lia; change (2 ^ 1) with 2; lia).
  assert (Hhalf : ∀ q, in_block p (j + 1) q → (q - zb) mod 2 ^ j = 0 → q + 2 ^ j ≤ p + 2 ^ (j + 1) →
    ∃ p' k', B !! p' = Some k' ∧ in_block p' k' q ∧ (p' - zb) mod 2 ^ k' = 0 ∧ (j + 1 ≤ k' ∨ k' = j ∧ p' = q)).
  { intros q Hq Hqal Hqle. destruct (IH q) as (p' & k' & HB & Hk' & Hin); [lia|done| |].
    { intros x Hx. apply Hrun. unfold in_block in *. lia. }
    exists p', k'. split; [done|]. split; [done|]. destruct (bi_blocks _ _ _ Hi _ _ HB) as (Hk0 & z' & zb' & Hz).
    destruct (iz_usable _ _ _ _ _ Hz q Hin) as (v & Hv & Hvz & _).
    destruct (Hrun q Hq) as [_ Hzq]. unfold zone_of in Hzq. rewrite Hv in Hzq. simplify_eq/=.
    pose proof (iz_base _ _ _ _ _ Hz) as Hb'. assert (zb' = zb) as -> by congruence.
    pose proof (iz_aligned _ _ _ _ _ Hz) as Hal'. split; [done|].
    destruct (decide (j + 1 ≤ k')); [by left|]. right. assert (k' = j) as -> by lia. split; [done|].
    unfold in_block in Hin. pose proof (aligned_same_block (p' - zb) (q - zb) (2 ^ j)). lia. }
  destruct (Hhalf p) as (p1 & k1 & HB1 & Hin1 & _ & Hor1);
    [by apply in_block_self; lia|by apply (aligned_le _ j (j + 1)); [lia|]|lia|].
  destruct Hor1 as [Hge|[-> ->]]; [by exists p1, k1|].
  destruct (Hhalf (p + 2 ^ j)) as (p2 & k2 & HB2 & Hin2 & Hal2 & Hor2); [unfold in_block; lia| |lia|].
  { replace (p + 2 ^ j - zb) with (p - zb + 1 * 2 ^ j) by lia. rewrite Z.mod_add by lia.
    by apply (aligned_le _ j (j + 1)); [lia|]. }
  destruct Hor2 as [Hge|[-> ->]].
  - exists p2, k2. split; [done|]. split; [done|].
    apply (aligned_le _ (j + 1) k2) in Hal2 as Hal2'; [|lia]. unfold in_block in *. split; [|lia].
    destruct (decide (p2 ≤ p)) as [?|Hgt]; [done|]. exfalso.
    pose proof (aligned_same_block (p - zb) (p2 - zb) (2 ^ (j + 1))). lia.
  - exfalso. destruct (Hrun p) as [_ Hzp]; [by apply in_block_self; lia|].
    destruct (Hrun (p + 2 ^ j)) as [_ Hzq]; [unfold in_block; lia|].
    assert (buddy_of zb p j = p + 2 ^ j) as Hbud.
    { replace p with (p + 2 ^ j - 2 ^ j) at 1 by lia. unfold buddy_of.
      pose proof (buddy_index (p - zb) j ltac:(lia) (aligned_le _ j (j + 1) ltac:(lia) Hal)) as Hbi. cbv zeta in Hbi.
      replace (p + 2 ^ j - 2 ^ j - zb) with (p - zb) by lia.
      destruct Hbi as [(Hx & _)|(Hx & _ & Hx2)]; [rewrite Hx; lia|]. exfalso. rewrite Hx in Hx2.
      pose proof (aligned_same_block (p - zb - 2 ^ j) (p - zb) (2 ^ (j + 1)) ltac:(lia) Hx2 Hal). lia. }
    apply (bi_merged _ _ _ Hi p j z zb HB1 ltac:(lia) Hzp Hb); by rewrite Hbud.
Qed.

(** ** The count of free pages *)

(** The pages of the blocks whose first pages are listed. *)
Definition pages_of (k : Z) (l : list Z) : list Z := l ≫= λ p, seqZ p (2 ^ k).

Lemma elem_of_pages_of k l q : q ∈ pages_of k l ↔ ∃ p, p ∈ l ∧ in_block p k q.
Proof.
  unfold pages_of. rewrite list_elem_of_bind. unfold in_block. split.
  - intros (p & Hq & Hp). apply elem_of_seqZ in Hq. eauto.
  - intros (p & Hp & Hq). exists p. split; [by apply elem_of_seqZ|done].
Qed.

Lemma length_pages_of k l : 0 ≤ k → Z.of_nat (length (pages_of k l)) = Z.of_nat (length l) * 2 ^ k.
Proof.
  intros Hk. pose proof (pow2_pos k Hk). induction l as [|p l IH]; [done|].
  unfold pages_of in *. rewrite bind_cons, length_app, length_seqZ. simpl length. lia.
Qed.

Lemma pages_of_nodup s B ex k l :
  buddy_inv s B ex → NoDup l → (∀ p, p ∈ l → B !! p = Some k) → NoDup (pages_of k l).
Proof.
  intros Hi. induction 1 as [|p l Hp Hl IH]; intros Hmem; [constructor|].
  unfold pages_of in *. rewrite bind_cons. apply NoDup_app. split; [apply NoDup_seqZ|].
  split; [|apply IH; set_solver].
  intros q Hq Hq'. apply elem_of_seqZ in Hq. apply elem_of_pages_of in Hq' as (p' & Hp' & Hin).
  unfold in_block in Hin. assert (p ≠ p') by (intros ->; done).
  destruct (bi_disjoint _ _ _ Hi p k p' k); [apply Hmem; set_solver|apply Hmem; set_solver|done|lia|lia].
Qed.

Lemma nr_free_loop s B fuel k F :
  buddy_inv s B nobody → 0 ≤ k ≤ MAX_ORDER + 1 → NoDup F →
  (∀ q, q ∈ F ↔ ∃ p j, B !! p = Some j ∧ j < k ∧ in_block p j q) → (Z.to_nat (MAX_ORDER + 1 - k) < fuel)%nat →
  ∃ F', loop fuel nr_free_body (k, Z.of_nat (length F)) s = Ok (Z.of_nat (length F'), s) ∧ NoDup F' ∧
    ∀ q, q ∈ F' ↔ free_page B q.
Proof.
  intros Hi. revert k F. induction fuel as [|fuel IH]; intros k F Hk Hnd HF Hf; [lia|].
  assert (Hbound : ∀ l : list Z, NoDup l → (∀ q, q ∈ l → free_page B q) → Z.of_nat (length l) ≤ 2 ^ 20).
  { intros l Hl Hq. transitivity (Z.max 0 (npage s)); [|pose proof (bi_npage _ _ _ Hi); lia].
    apply page_list_length; [done|]. intros q Hin. apply Hq in Hin as (p & j & HB & Hin).
    destruct (bi_blocks _ _ _ Hi _ _ HB) as (_ & z & zb & Hz).
    destruct (iz_usable _ _ _ _ _ Hz q Hin) as (v & Hv & _). by apply (bi_dom _ _ _ Hi). }
  destruct (decide (k = MAX_ORDER + 1)) as [->|Hne].
  { exists F. split; [|split; [done|]].
    - apply loop_stop. unfold nr_free_body. by rewrite (proj2 (Z.leb_gt _ _)) by lia.
    - intros q. rewrite HF. split; [intros (p & j & ? & _ & ?); by exists p, j|].
      intros (p & j & HB & Hin). exists p, j. destruct (bi_blocks _ _ _ Hi _ _ HB). split; [done|]. split; [lia|done]. }
  destruct (bi_lists _ _ _ Hi) as (L & Hrep & _ & Hl). destruct (Hl k ltac:(lia)) as (l & HL & Hmem & Hnr).
  pose proof (fmap_link_nodup _ _ _ _ Hrep HL) as Hndl.
  set (F1 := F ++ pages_of k l).
  assert (HF1 : ∀ q, q ∈ F1 ↔ ∃ p j, B !! p = Some j ∧ j < k + 1 ∧ in_block p j q).
  { intros q. unfold F1. rewrite elem_of_app, HF, elem_of_pages_of. setoid_rewrite Hmem. split.
    - intros [(p & j & ? & ? & ?)|(p & ? & ?)]; [exists p, j|exists p, k]; split_and!; try done; lia.
    - intros (p & j & HB & Hj & Hin). destruct (decide (j = k)) as [->|?]; [right; by exists p|].
      left. exists p, j. split_and!; try done. lia. }
  assert (Hnd1 : NoDup F1).
  { apply NoDup_app. split; [done|]. split; [|apply (pages_of_nodup s B nobody); [done|done|apply Hmem]].
    intros q Hq Hq'. apply HF in Hq as (p & j & HB & Hj & Hin). apply elem_of_pages_of in Hq' as (p' & Hp' & Hin').
    apply Hmem in Hp'. unfold in_block in *.
    destruct (bi_disjoint _ _ _ Hi p j p' k HB Hp'); [intros ->; simplify_eq; lia|lia|lia]. }
  pose proof (Hbound F1 Hnd1) as Hb1. pose proof (length_pages_of k l ltac:(lia)) as Hlen.
  assert (Hlen1 : Z.of_nat (length F1) = Z.of_nat (length F) + Z.of_nat (length l) * 2 ^ k)
    by (unfold F1; rewrite length_app; lia).
  destruct (IH (k + 1) F1 ltac:(lia) Hnd1 HF1 ltac:(lia)) as (F' & E & HF').
  exists F'. split; [|done]. rewrite (loop_next _ _ _ _ (k + 1, Z.of_nat (length F1)) s); [done|].
  unfold nr_free_body. rewrite (proj2 (Z.leb_le _ _)) by lia.
  rewrite (bind_ok _ _ s (Z.of_nat (length l)) s) by (unfold deref; by rewrite Hnr).
  rewrite shiftl_pow by lia. unfold mret, M_ret. do 4 f_equal. rewrite Hlen1. apply u32_id. split; [lia|].
  enough (Z.of_nat (length F1) ≤ 2 ^ 20) by lia. apply Hb1.
  intros q Hq. apply HF1 in Hq as (p & j & ? & _ & ?). by exists p, j.
Qed.

Lemma nr_free_pages_ok s B :
  buddy_inv s B nobody →
  ∃ F : gset Z, (∀ q, q ∈ F ↔ free_page B q) ∧ nr_free_pages s = Ok (Z.of_nat (size F), s).
Proof.
  intros Hi. destruct (nr_free_loop s B 12 0 [] Hi) as (F & E & Hnd & HF);
    [unfold MAX_ORDER; lia|constructor| |unfold MAX_ORDER; simpl; lia|].
  { intros q. split; [intros Hq; by apply elem_of_nil in Hq|]. intros (p & j & HB & Hj & _).
    destruct (bi_blocks _ _ _ Hi _ _ HB). lia. }
  exists (list_to_set F). split; [intros q; by rewrite elem_of_list_to_set|].
  by rewrite size_list_to_set.
Qed.

(** ** Clients *)

(** A page of a zone: not reserved. *)
Definition managed (s : pmm) (q : Z) : Prop := ∃ v, pages s !! q = Some v ∧ PageReserved v = false.
Definition in_range (q : Z) (r : Z * Z) : Prop := r.1 ≤ q < r.1 + r.2.
Definition held_by (H : list (Z * Z)) (q : Z) : Prop := ∃ r, r ∈ H ∧ in_range q r.

(** The page [q] is free: in a zone and in nobody's hands. *)
Definition page_available (s : pmm) (H : list (Z * Z)) (q : Z) : Prop := managed s q ∧ ¬ held_by H q.

(** A step of the kernel: a zone is added, pages are asked for, pages that
    somebody holds are given back.  [H] lists the ranges handed out. *)
Inductive pool_step : pmm * list (Z * Z) → pmm * list (Z * Z) → Prop :=
| step_memmap s s' H base n :
    0 ≤ base → 0 < n → zone_cnt s < MAX_ZONE_NUM →
    (∀ q, base ≤ q < base + n → ∃ v, pages s !! q = Some v ∧ PageReserved v = true) →
    buddy_init_memmap base n s = Ok (tt, s') → pool_step (s, H) (s', H)
| step_alloc s s' H n p :
    0 < n ≤ 1024 → alloc_pages n s = Ok (Some p, s') → pool_step (s, H) (s', (p, n) :: H)
| step_alloc_null s s' H n :
    0 < n ≤ 1024 → alloc_pages n s = Ok (None, s') → pool_step (s, H) (s', H)
| step_free s s' H1 H2 p n :
    free_pages p n s = Ok (tt, s') → pool_step (s, H1 ++ (p, n) :: H2) (s', H1 ++ H2).

Definition pool_reachable (s : pmm) (H : list (Z * Z)) : Prop :=
  ∃ s0 s1, unbooted s0 ∧ buddy_init s0 = Ok (tt, s1) ∧ rtc pool_step (s1, []) (s, H).

(** The ranges of [H] share no page. *)
Fixpoint disjoint_ranges (H : list (Z * Z)) : Prop :=
  match H with
  | [] => True
  | r :: H => (∀ q, in_range q r → ¬ held_by H q) ∧ disjoint_ranges H
  end.

Lemma held_by_middle H1 r H2 q : held_by (H1 ++ r :: H2) q ↔ in_range q r ∨ held_by (H1 ++ H2) q.
Proof.
  unfold held_by. setoid_rewrite elem_of_app. setoid_rewrite elem_of_cons. naive_solver.
Qed.
Lemma held_by_cons r H q : held_by (r :: H) q ↔ in_range q r ∨ held_by H q.
Proof. apply (held_by_middle []). Qed.

Lemma disjoint_middle H1 r H2 :
  disjoint_ranges (H1 ++ r :: H2) ↔ (∀ q, in_range q r → ¬ held_by (H1 ++ H2) q) ∧ disjoint_ranges (H1 ++ H2).
Proof.
  induction H1 as [|r1 H1 IH]; [done|]. simpl. rewrite IH. setoid_rewrite held_by_middle.
  setoid_rewrite held_by_cons. naive_solver.
Qed.

Record pool_inv (s : pmm) (B : gmap Z Z) (H : list (Z * Z)) : Prop := {
  pi_inv : buddy_inv s B nobody;
  pi_fresh z : is_Some (mem_base s !! z) → z < zone_cnt s;
  pi_held p n : (p, n) ∈ H → 0 < n ≤ 1024 ∧ holds s B p n;
  pi_disjoint : disjoint_ranges H;
  pi_all q : free_page B q ↔ page_available s H q;
}.

(** The pages that are held keep their fields. *)
Definition held_kept (H : list (Z * Z)) (s s' : pmm) : Prop :=
  npage s' = npage s ∧ ∀ q, held_by H q → pages s' !! q = pages s !! q.

Lemma managed_usable s q : managed s q ↔ ∃ z, usable s z q.
Proof. unfold managed, usable. naive_solver. Qed.

Lemma managed_same s s' q : same_zones s s' → managed s' q ↔ managed s q.
Proof. intros Hs. rewrite !managed_usable. by setoid_rewrite (sz_usable _ _ Hs). Qed.

Lemma free_managed s B ex q : buddy_inv s B ex → free_page B q → managed s q.
Proof.
  intros Hi (p & k & HB & Hq). destruct (bi_blocks _ _ _ Hi _ _ HB) as (_ & z & zb & Hz).
  apply managed_usable. exists z. by apply (iz_usable _ _ _ _ _ Hz).
Qed.

(** Holders keep their pages when the pages of others change. *)
Lemma holds_frame s s' B B' p n :
  holds s B p n → (∀ z zb, mem_base s !! z = Some zb → mem_base s' !! z = Some zb) →
  (∀ q, p ≤ q < p + n → pages s' !! q = pages s !! q) →
  (∀ q, p ≤ q < p + n → free_page B' q → free_page B q) → holds s' B' p n.
Proof.
  intros (z & zb & Hb & Hge & Ho) Hbase Hpg Hf. exists z, zb. split; [auto|]. split; [done|].
  by eapply owned_frame.
Qed.

Lemma holds_not_free s B p n q : holds s B p n → p ≤ q < p + n → ¬ free_page B q.
Proof. intros (z & zb & _ & _ & Ho) Hq. apply (Ho q Hq). Qed.
Lemma holds_managed s B p n q : holds s B p n → p ≤ q < p + n → managed s q.
Proof. intros (z & zb & _ & _ & Ho) Hq. destruct (Ho q Hq) as [(v & ? & ? & ? & ?) _]. by exists v. Qed.

(** ** The steps keep the invariant *)

Lemma pool_memmap s B H base n :
  pool_inv s B H → 0 ≤ base → 0 < n → zone_cnt s < MAX_ZONE_NUM →
  (∀ q, base ≤ q < base + n → ∃ v, pages s !! q = Some v ∧ PageReserved v = true) →
  ∃ s' B', buddy_init_memmap base n s = Ok (tt, s') ∧ pool_inv s' B' H.
Proof.
  intros [Hi Hfr Hh Hd Ha] Hb0 Hn Hc Hr.
  assert (Hz : mem_base s !! zone_cnt s = None).
  { destruct (mem_base s !! zone_cnt s) eqn:E; [|done]. specialize (Hfr (zone_cnt s)). rewrite E in Hfr.
    pose proof (Hfr ltac:(by eexists)). lia. }
  destruct (buddy_init_memmap_ok s B base n Hi Hc Hz Hb0 Hn Hr) as (s' & B' & E & Hi' & Hf & Hpg & _ & Hb' & Hc' & _).
  exists s', B'. split; [done|].
  assert (Hnm : ∀ q, base ≤ q < base + n → ¬ managed s q).
  { intros q Hq (v & Hv & Hvr). destruct (Hr q Hq) as (w & Hw & ?). congruence. }
  assert (Hm : ∀ q, managed s' q ↔ managed s q ∨ base ≤ q < base + n).
  { intros q. destruct (decide (base ≤ q < base + n)) as [Hq|Hq].
    - split; [by right|]. intros _. apply (free_managed s' B' nobody); [done|]. apply Hf. by right.
    - unfold managed. rewrite Hpg by done. tauto. }
  assert (Hhr : ∀ q, held_by H q → ¬ (base ≤ q < base + n)).
  { intros q ([p m] & Hr1 & Hq) Hin. apply (Hnm q Hin). destruct (Hh _ _ Hr1) as [_ Hh1].
    by apply (holds_managed s B p m). }
  constructor; [done| | |done|].
  - intros z. rewrite Hb', Hc'. destruct (decide (z = zone_cnt s)) as [->|Hne]; [lia|].
    rewrite lookup_insert_ne by done. intros Hs. apply Hfr in Hs. lia.
  - intros p m Hin. destruct (Hh _ _ Hin) as [Hm0 Hh1]. split; [done|].
    assert (Hout : ∀ q, p ≤ q < p + m → ¬ (base ≤ q < base + n)).
    { intros q Hq. apply Hhr. by exists (p, m). }
    eapply holds_frame; [done| | |].
    + intros z zb Hzb. rewrite Hb', lookup_insert_ne; [done|]. intros <-. congruence.
    + intros q Hq. by apply Hpg, Hout.
    + intros q Hq. rewrite Hf. intros [?|?]; [done|]. by destruct (Hout q Hq).
  - intros q. rewrite Hf, Ha. unfold page_available. rewrite Hm. specialize (Hhr q). tauto.
Qed.

Lemma pool_alloc s B H n :
  pool_inv s B H → 0 < n ≤ 1024 →
  (∃ p s' B', alloc_pages n s = Ok (Some p, s') ∧ pool_inv s' B' ((p, n) :: H) ∧ held_kept H s s' ∧
     ∀ q, in_range q (p, n) → page_available s H q) ∨
  (alloc_pages n s = Ok (None, s) ∧ ∃ k, 0 ≤ k ≤ MAX_ORDER ∧ n ≤ 2 ^ k ∧ (k = 0 ∨ 2 ^ (k - 1) < n) ∧
     ∀ p j, B !! p = Some j → j < k).
Proof.
  intros [Hi Hfr Hh Hd Ha] Hn.
  destruct (alloc_pages_ok s B n Hi Hn) as (k & Hk & Hle & Hlow & [(p & s' & B' & s1 & z & zb & E & Htk & Hzb & Hge & Es')|[E Hno]]).
  2:{ right. split; [done|]. by exists k. }
  left. destruct Htk as [Hi1 Hwas Hf Ho Hs Hpg]. exists p, s', B'. split; [done|].
  split; [|split; [|intros q Hq; by apply Ha, Hwas]]; subst s'; cycle 1.
  { split; [apply (sz_npage _ _ Hs)|]. intros q ([p' m] & Hin & Hq). apply Hpg.
    by apply (holds_not_free s B p' m), Hq; apply Hh. }
  constructor.
  - by apply buddy_inv_used.
  - intros z'. simpl. rewrite (sz_base _ _ Hs), (sz_cnt _ _ Hs). apply Hfr.
  - intros p' m Hin. apply elem_of_cons in Hin as [[= -> ->]|Hin].
    + split; [done|]. exists z, zb. simpl. by rewrite (sz_base _ _ Hs).
    + destruct (Hh _ _ Hin) as [Hm Hh1]. split; [done|]. eapply holds_frame; [exact Hh1| | |].
      * intros z' zb' Hz'. simpl. by rewrite (sz_base _ _ Hs).
      * intros q Hq. simpl. apply Hpg. by apply (holds_not_free s B p' m).
      * intros q Hq. rewrite Hf. tauto.
  - split; [|done]. intros q Hq ([p' m] & Hin & Hq'). destruct (Hh _ _ Hin) as [_ Hh1].
    by apply (holds_not_free s B p' m q Hh1), Hwas.
  - intros q. rewrite Hf, Ha. unfold page_available. rewrite held_by_cons.
    change (managed (s1 <| used_pages := _ |>) q) with (managed s1 q). rewrite (managed_same _ _ _ Hs).
    change (in_range q (p, n)) with (p ≤ q < p + n). tauto.
Qed.

Lemma pool_free s B H1 p n H2 :
  pool_inv s B (H1 ++ (p, n) :: H2) →
  ∃ s' B', free_pages p n s = Ok (tt, s') ∧ pool_inv s' B' (H1 ++ H2) ∧ held_kept (H1 ++ H2) s s'.
Proof.
  intros [Hi Hfr Hh Hd Ha]. destruct (Hh p n) as [Hn Hhp]; [set_solver|].
  apply disjoint_middle in Hd as [Hd1 Hd].
  destruct (free_pages_ok s B p n Hi ltac:(lia) Hhp) as (s1 & s' & B' & E & Es' & [_ Hf Hs Hpg] & Hi').
  exists s', B'. split; [done|]. split; subst s'; cycle 1.
  { split; [apply (sz_npage _ _ Hs)|]. intros q ([p' m] & Hin & Hq). destruct (Hh p' m) as [_ Hh1]; [set_solver|].
    apply Hpg; [by apply (holds_not_free s B p' m)|]. intros Hq'. apply (Hd1 q Hq'). by exists (p', m). }
  constructor; [done| | |done|].
  - intros z. simpl. rewrite (sz_base _ _ Hs), (sz_cnt _ _ Hs). apply Hfr.
  - intros p' m Hin. destruct (Hh p' m) as [Hm Hh1]; [set_solver|]. split; [done|].
    assert (Hout : ∀ q, p' ≤ q < p' + m → ¬ (p ≤ q < p + n)).
    { intros q Hq Hq'. apply (Hd1 q Hq'). by exists (p', m). }
    eapply holds_frame; [exact Hh1| | |].
    + intros z zb Hz. simpl. by rewrite (sz_base _ _ Hs).
    + intros q Hq. simpl. apply Hpg; [by apply (holds_not_free s B p' m)|by apply Hout].
    + intros q Hq. rewrite Hf. intros [?|?]; [done|]. by destruct (Hout q Hq).
  - intros q. rewrite Hf, Ha. unfold page_available. rewrite held_by_middle.
    change (managed (s1 <| used_pages := _ |>) q) with (managed s1 q). rewrite (managed_same _ _ _ Hs).
    change (in_range q (p, n)) with (p ≤ q < p + n).
    pose proof (holds_managed s B p n q Hhp). pose proof (Hd1 q) as Hd1q.
    change (in_range q (p, n)) with (p ≤ q < p + n) in Hd1q.
    destruct (decide (p ≤ q < p + n)); tauto.
Qed.

(** The order of the holders does not matter. *)
#[export] Instance held_by_proper : Proper ((≡ₚ) ==> (=) ==> iff) held_by.
Proof. intros H H' HH q _ <-. unfold held_by. by setoid_rewrite HH. Qed.
#[export] Instance disjoint_ranges_proper : Proper ((≡ₚ) ==> iff) disjoint_ranges.
Proof.
  induction 1 as [|r H H' HP IH|r1 r2 H|H1 H2 H3 _ IH1 _ IH2]; [done| | |by rewrite IH1].
  - simpl. rewrite IH. by setoid_rewrite HP.
  - simpl. setoid_rewrite held_by_cons. naive_solver.
Qed.
#[export] Instance pool_inv_proper : Proper ((=) ==> (=) ==> (≡ₚ) ==> iff) pool_inv.
Proof.
  intros s _ <- B _ <- H H' HP. unfold page_available.
  assert (Hone : ∀ H H' : list (Z * Z), H ≡ₚ H' → pool_inv s B H → pool_inv s B H').
  { clear. intros H H' HP [? ? Hh Hd Ha]. constructor; [done|done| |by rewrite <-HP|].
    - intros p n. rewrite <-HP. apply Hh.
    - intros q. rewrite Ha. unfold page_available. by rewrite HP. }
  split; by apply Hone.
Qed.

(** A holder may set flags of its pages, other than the two the allocator
    reads. *)
Lemma pool_flag s B H q f v :
  pool_inv s B H → held_by H q → pages s !! q = Some v → Z.testbit f PG_reserved = PageReserved v →
  Z.testbit f PG_property = PageProperty v →
  pool_inv (s <| pages := <[q := v <| flags := f |>]> (pages s) |>) B H.
Proof.
  intros [Hi Hfr Hh Hd Ha] Hq Hv Hr Hp. set (v' := v <| flags := f |>).
  assert (Hno : ¬ free_page B q).
  { destruct Hq as ([p n] & Hin & Hq). by apply (holds_not_free s B p n), Hq; apply Hh. }
  assert (Hpv : PageProperty v = false).
  { destruct Hq as ([p n] & Hin & Hq). destruct (Hh p n Hin) as [_ (z & zb & _ & _ & Ho)].
    destruct (Ho q Hq) as [(w & Hw & _ & _ & Hpw) _]. by simplify_eq. }
  assert (Hs : same_zones s (s <| pages := <[q := v']> (pages s) |>)) by by apply (same_zones_page s q v).
  constructor; [|done| |done|].
  - apply (inv_page s B nobody nobody q v v'); try done.
    + destruct (B !! q) as [k|] eqn:EB; [|done]. destruct Hno. by eapply free_head.
    + intros Hpp. unfold PageProperty in Hpp. change (flags v') with f in Hpp. rewrite Hp in Hpp. congruence.
  - intros p n Hin. destruct (Hh p n Hin) as [Hn (z & zb & Hb & Hge & Ho)]. split; [done|].
    exists z, zb. split; [done|]. split; [done|]. intros x Hx. destruct (Ho x Hx) as [(w & Hw & Hz & Hrw & Hpw) Hf].
    split; [|done]. simpl. destruct (decide (x = q)) as [->|Hne].
    + rewrite lookup_insert_eq. exists v'. simplify_eq. split_and!; [done|done|by rewrite <-Hrw|by rewrite <-Hpw].
    + rewrite lookup_insert_ne by done. by exists w.
  - intros x. rewrite Ha. unfold page_available. by rewrite (managed_same _ _ _ Hs).
Qed.

Lemma pool_reachable_inv s H : pool_reachable s H → ∃ B, pool_inv s B H.
Proof.
  intros (s0 & s1 & Hub & E & Hrtc).
  destruct (buddy_init_ok s0 Hub) as (s1' & E' & Hi & Hp & Hn & Hb & Hc & Hu).
  assert (s1' = s1) as -> by congruence.
  assert (pool_inv s1 ∅ []) as Hinv.
  { constructor; [done| | |done|].
    - intros z. rewrite Hb, lookup_empty. by intros [].
    - intros p m Hin. by apply elem_of_nil in Hin.
    - intros q. split; [intros (p & k & HB & _); by rewrite lookup_empty in HB|].
      intros [(v & Hv & Hr) _]. rewrite Hp in Hv. apply (ub_reserved _ Hub) in Hv. congruence. }
  remember (s1, []) as c0 eqn:Ec0. remember (s, H) as c eqn:Ec.
  assert (∃ B, pool_inv c0.1 B c0.2) as Hex by (subst; by exists ∅). clear - Hrtc Hex Ec.
  enough (∃ B, pool_inv c.1 B c.2) as Hg by by subst.
  clear s H Ec. induction Hrtc as [c|c1 c2 c3 Hstep _ IH]; [done|]. apply IH. clear IH.
  destruct Hex as [B Hinv], Hstep as [s s' H base n ? ? ? ? E|s s' H n p Hn E|s s' H n Hn E|s s' H1 H2 p n E]; simpl in *.
  - destruct (pool_memmap s B H base n Hinv) as (? & B' & ? & ?); try done. exists B'. congruence.
  - destruct (pool_alloc s B H n Hinv Hn) as [(? & ? & B' & ? & ? & _ & _)|[? _]]; [exists B'|]; congruence.
  - destruct (pool_alloc s B H n Hinv Hn) as [(? & ? & B' & ? & ? & _ & _)|[? _]]; [|exists B]; congruence.
  - destruct (pool_free s B H1 p n H2 Hinv) as (? & B' & ? & ? & _). exists B'. congruence.
Qed.

(** ** The properties *)

(** C30. The page allocator is a pool of pages.  After [buddy_init] and any
    sequence of zones added, requests and releases of what was handed out: the
    ranges handed out are pairwise disjoint; [nr_free_pages] is the number of
    pages that are in a zone and in nobody's hands; a request of 1 to 1024
    pages returns, and the pages it answers were available; a holder can always
    give its pages back (no assertion of the release path fails). *)
Theorem page_pool_correct s H :
  pool_reachable s H →
  disjoint_ranges H ∧
  (∃ F : gset Z, (∀ q, q ∈ F ↔ page_available s H q) ∧ nr_free_pages s = Ok (Z.of_nat (size F), s)) ∧
  (∀ n, 0 < n ≤ 1024 → ∃ r s', alloc_pages n s = Ok (r, s') ∧
     match r with Some p => ∀ q, in_range q (p, n) → page_available s H q | None => s' = s end) ∧
  (∀ p n, (p, n) ∈ H → ∃ s', free_pages p n s = Ok (tt, s')).
Proof.
  intros Hr. destruct (pool_reachable_inv s H Hr) as [B Hinv]. split; [apply Hinv|]. split; [|split].
  - destruct (nr_free_pages_ok s B (pi_inv _ _ _ Hinv)) as (F & HF & E). exists F. split; [|done].
    intros q. by rewrite HF, (pi_all _ _ _ Hinv).
  - intros n Hn. destruct (pool_alloc s B H n Hinv Hn) as [(p & s' & B' & E & _ & _ & Hp)|[E _]].
    + by exists (Some p), s'.
    + by exists None, s.
  - intros p n (H1 & H2 & ->)%list_elem_of_split. destruct (pool_free _ _ _ _ _ _ Hinv) as (s' & ? & E & _).
    by exists s'.
Qed.

(** C31. A request fails only for want of room: if [alloc_pages] answers
    [NULL] then in no zone is there an aligned run of available pages of the
    order of the request (coalescing leaves no two free buddies apart). *)
Theorem alloc_pages_complete s H n s' :
  pool_reachable s H → 0 < n ≤ 1024 → alloc_pages n s = Ok (None, s') →
  ∃ k, 0 ≤ k ∧ n ≤ 2 ^ k ∧ (k = 0 ∨ 2 ^ (k - 1) < n) ∧
    ∀ z zb p, mem_base s !! z = Some zb → (p - zb) mod 2 ^ k = 0 →
      ¬ ∀ q, in_range q (p, 2 ^ k) → page_available s H q ∧ zone_of s q = Some z.
Proof.
  intros Hr Hn E. destruct (pool_reachable_inv s H Hr) as [B Hinv].
  destruct (pool_alloc s B H n Hinv Hn) as [(? & ? & ? & ? & _)|[_ (k & Hk & Hle & Hlow & Hno)]]; [congruence|].
  exists k. split; [lia|]. split; [done|]. split; [done|]. intros z zb p Hb Hal Hrun.
  destruct (coalesced s B z zb (Z.to_nat k) p) as (p' & k' & HB & Hk' & _); try rewrite Z2Nat.id by lia; try done.
  - apply Hinv.
  - lia.
  - intros q Hq. destruct (Hrun q Hq) as [Ha Hz]. split; [by apply (pi_all _ _ _ Hinv)|done].
  - pose proof (Hno _ _ HB). lia.
Qed.

(** The sizes [alloc_pages] accepts: a request of no page or of more
    than 1024 pages panics, in [buddy_alloc_pages] or [getorder], whatever the
    state; it is not answered with [NULL]. *)
Theorem alloc_pages_panics n s : n ≤ 0 ∨ 1024 < n → alloc_pages n s = Err Panic.
Proof.
  intros Hn. unfold alloc_pages, buddy_alloc_pages.
  unfold mbind at 1, M_bind at 1. destruct (Z.ltb_spec 0 n) as [Hp|Hp].
  2:{ by rewrite (bind_err (assert false) _ s Panic) by done. }
  rewrite (bind_ok (assert true) _ s tt s) by done. pose proof (getorder_ok n s) as Hg.
  rewrite (proj2 (Z.leb_gt n 1024)) in Hg by lia. by rewrite (bind_err _ _ _ _ Hg).
Qed.

(** The counter [used_pages] drifts: [buddy_alloc_pages] gives the tail
    of the block back through [free_pages], which subtracts it from the
    counter although it was never added.  A request of [n] pages served from a
    block of [2^k] changes the counter by [n - (2^k - n)], not by [n]. *)
Theorem used_pages_drift s H n p s' :
  pool_reachable s H → 0 < n ≤ 1024 → alloc_pages n s = Ok (Some p, s') →
  ∃ k, 0 ≤ k ≤ MAX_ORDER ∧ n ≤ 2 ^ k ∧ (k = 0 ∨ 2 ^ (k - 1) < n) ∧
    used_pages s' = u32 (used_pages s + n - (2 ^ k - n)).
Proof.
  intros Hr Hn E. destruct (pool_reachable_inv s H Hr) as [B Hinv].
  destruct (alloc_pages_ok s B n (pi_inv _ _ _ Hinv) Hn) as (k & Hk & Hle & Hlow & [(p' & s1 & B' & s2 & z & zb & E' & _ & _ & _ & Es)|[E' _]]);
    [|congruence].
  exists k. split; [done|]. split; [done|]. split; [done|]. assert (s' = s1) as -> by congruence. rewrite Es. simpl.
  unfold u32. rewrite Z.add_mod_idemp_l by done. f_equal. lia.
Qed.

(** ** A machine of 16 pages *)

Definition reserved_page : Page := mk_page 0 1 0 0.
Definition boot_state (n : Z) : pmm :=
  mk_pmm (list_to_map ((λ q, (q, reserved_page)) <$> seqZ 0 n)) n ∅ ∅ ∅ 0 0.

Lemma boot_lookup n q v : pages (boot_state n) !! q = Some v ↔ v = reserved_page ∧ 0 ≤ q < n.
Proof.
  simpl. rewrite <-elem_of_list_to_map.
  - rewrite list_elem_of_fmap. setoid_rewrite elem_of_seqZ. split.
    + intros (x & [= -> ->] & ?). split; [done|lia].
    + intros [-> ?]. exists q. split; [done|lia].
  - rewrite <-list_fmap_compose. apply (NoDup_fmap_2_strong _ (seqZ 0 n)); [|apply NoDup_seqZ].
    by intros x y _ _ [= H].
Qed.

Lemma boot_unbooted n : n ≤ 2 ^ 20 → unbooted (boot_state n).
Proof.
  intros Hn. constructor; try done.
  - intros q. split.
    + intros [v Hv]. by apply boot_lookup in Hv as [_ ?].
    + intros Hq. exists reserved_page. by apply boot_lookup.
  - intros q v Hv. by apply boot_lookup in Hv as [-> _].
Qed.

Definition machine0 : pmm := run_state (buddy_init_memmap 1 13) (run_state buddy_init (boot_state 16)).
Definition machine1 : pmm := run_state (alloc_pages 3) machine0.
Definition machine2 : pmm := run_state (alloc_pages 1) machine1.
Definition machine3 : pmm := run_state (free_pages 9 3) machine2.

Lemma machine_reachable :
  pool_reachable machine0 [] ∧ pool_reachable machine1 [(9, 3)] ∧ pool_reachable machine2 [(12, 1); (9, 3)] ∧
  pool_reachable machine3 [(12, 1)].
Proof.
  assert (H0 : pool_reachable machine0 []).
  { exists (boot_state 16), (run_state buddy_init (boot_state 16)). split; [by apply boot_unbooted|].
    split; [by_run|]. eapply rtc_l; [|apply rtc_refl]. apply (step_memmap _ _ _ 1 13); try lia.
    - by vm_compute.
    - intros q Hq. exists reserved_page. split; [|done].
      apply (proj2 (boot_lookup 16 q reserved_page)). split; [done|lia].
    - by_run. }
  assert (Hstep : ∀ s H s' H', pool_reachable s H → pool_step (s, H) (s', H') → pool_reachable s' H').
  { intros s H s' H' (s0 & s1 & Hub & E & Hrtc) Hs. exists s0, s1. split; [done|]. split; [done|].
    by eapply rtc_r. }
  assert (H1 : pool_reachable machine1 [(9, 3)]).
  { apply (Hstep _ _ _ _ H0). apply step_alloc; [lia|by_run]. }
  assert (H2 : pool_reachable machine2 [(12, 1); (9, 3)]).
  { apply (Hstep _ _ _ _ H1). apply step_alloc; [lia|by_run]. }
  assert (H3 : pool_reachable machine3 [(12, 1)]).
  { apply (Hstep _ _ _ _ H2). apply (step_free _ _ [(12, 1)] []). by_run. }
  done.
Qed.

Lemma page_pool_correct_witness :
  pool_reachable machine2 [(12, 1); (9, 3)] ∧ disjoint_ranges [(12, 1); (9, 3)] ∧
  nr_free_pages machine2 = Ok (9, machine2) ∧ ∃ s', free_pages 9 3 machine2 = Ok (tt, s').
Proof.
  destruct machine_reachable as (_ & _ & H & _). split; [exact H|].
  destruct (page_pool_correct _ _ H) as (Hd & _ & _ & Hf). split; [exact Hd|]. split; [by vm_compute|].
  apply Hf. by right; left.
Defined.

Lemma alloc_pages_complete_witness :
  alloc_pages 10 machine2 = Ok (None, machine2) ∧
  ∃ k, 0 ≤ k ∧ 10 ≤ 2 ^ k ∧ (k = 0 ∨ 2 ^ (k - 1) < 10) ∧
    ∀ z zb p, mem_base machine2 !! z = Some zb → (p - zb) mod 2 ^ k = 0 →
      ¬ ∀ q, in_range q (p, 2 ^ k) → page_available machine2 [(12, 1); (9, 3)] q ∧ zone_of machine2 q = Some z.
Proof.
  assert (E : alloc_pages 10 machine2 = Ok (None, machine2)) by by vm_compute.
  split; [exact E|]. destruct machine_reachable as (_ & _ & H & _).
  apply (alloc_pages_complete machine2 [(12, 1); (9, 3)] 10 machine2 H); [lia|exact E].
Defined.

Lemma alloc_pages_panics_witness : alloc_pages 1025 machine0 = Err Panic.
Proof. apply alloc_pages_panics. lia. Defined.

(** After the two requests and one release, a page is in use and the
    counter says none. *)
Lemma used_pages_drift_witness :
  alloc_pages 3 machine0 = Ok (Some 9, machine1) ∧
  (∃ k, 0 ≤ k ≤ MAX_ORDER ∧ 3 ≤ 2 ^ k ∧ (k = 0 ∨ 2 ^ (k - 1) < 3) ∧
    used_pages machine1 = u32 (used_pages machine0 + 3 - (2 ^ k - 3))) ∧
  pool_reachable machine3 [(12, 1)] ∧ used_pages machine3 = 0.
Proof.
  assert (E : alloc_pages 3 machine0 = Ok (Some 9, machine1)) by by_run.
  split; [exact E|]. destruct machine_reachable as (H & _ & _ & H3). split; [|split; [exact H3|by vm_compute]].
  apply (used_pages_drift machine0 [] 3 9 machine1 H); [lia|exact E].
Defined.
