(* ===== verification/Kmem.v ===== *)
(** * The kernel heap

    [mm/slab.c]: thirteen caches of objects of 32 bytes to 128 KB.  A cache
    keeps rings of slabs; a slab is a run of pages from the buddy allocator
    ([Buddy]) that is cut into objects, with a control block [slab_t] that
    chains the free ones.  The control block stands at the start of the pages
    or, for large objects, in an object of a smaller cache ([off_slab]).

    A cache is named by its index in [slab_cache], a slab by the address of its
    control block.  The words [slab_bufctl(slabp)[i]] behind the control block
    are the entries [(slabp, i)] of [bufctl].  [page_cache] and [page_slab] are
    the uses of [page_link.next] and [page_link.prev] of the pages of a slab
    ([SET_PAGE_CACHE], [SET_PAGE_SLAB]), which are on no free list. *)

From S2P Require Import Prelude DList Buddy Slab.

Definition PG_slab : Z := 2.
Definition PageSlab (p : Page) : bool := Z.testbit (flags p) PG_slab.
Definition SetPageSlab (p : Page) : Page := p <| flags := Z.setbit (flags p) PG_slab |>.
Definition ClearPageSlab (p : Page) : Page := p <| flags := Z.clearbit (flags p) PG_slab |>.

Definition BUFCTL_END : Z := 0xFFFFFFFF.
Definition SLAB_LIMIT : Z := 0xFFFFFFFE.
Definition KMALLOC_MAX_ORDER : Z := 10.
Definition SLAB_CACHE_NUM : Z := MAX_SIZE_ORDER - MIN_SIZE_ORDER + 1.
Definition sizeof_slab : Z := 24.
Definition sizeof_bufctl : Z := 4.

Record slab_t : Type := mk_slab { s_mem : Z; inuse : Z; offset : Z; free : Z }.
#[export] Instance eta_slab_t : Eta slab_t := λ r, mk_slab (s_mem r) (inuse r) (offset r) (free r).

Record kmem_cache_t : Type := mk_cache {
  objsize : Z; num : Z; obj_offset : Z; off_slab : bool; page_order : Z; slab_cachep : option Z }.

(** The linked members: the two rings of a cache, and the slabs. *)
Inductive slink : Type := slabs_full (c : Z) | slabs_notfull (c : Z) | slab_link (a : Z).
#[export] Instance slink_eq_dec : EqDecision slink.
Proof. solve_decision. Defined.
#[export] Instance slink_countable : Countable slink.
Proof.
  refine (inj_countable'
    (λ x, match x with slabs_full c => inl c | slabs_notfull c => inr (inl c) | slab_link a => inr (inr a) end)
    (λ x, match x with inl c => slabs_full c | inr (inl c) => slabs_notfull c | inr (inr a) => slab_link a end) _).
  by intros [].
Defined.

Record heap : Type := mk_heap {
  pm : pmm;
  slab_cache : gmap Z kmem_cache_t;
  slabs : gmap Z slab_t;
  bufctl : gmap (Z * Z) Z;
  slinks : gmap slink (list_entry slink);
  page_cache : gmap Z Z;
  page_slab : gmap Z Z;
}.
#[export] Instance eta_heap : Eta heap := λ r,
  mk_heap (pm r) (slab_cache r) (slabs r) (bufctl r) (slinks r) (page_cache r) (page_slab r).

Definition on_pm {A} (m : M pmm A) : M heap A := λ s,
  match m (pm s) with Ok (a, p) => Ok (a, s <| pm := p |>) | Err e => Err e end.
Definition on_slinks {A} (m : M (gmap slink (list_entry slink)) A) : M heap A := λ s,
  match m (slinks s) with Ok (a, h) => Ok (a, s <| slinks := h |>) | Err e => Err e end.
Definition get_slab (a : Z) : M heap slab_t := deref (λ s, slabs s !! a).
Definition set_slab (a : Z) (f : slab_t → slab_t) : M heap unit :=
  d ← get_slab a; modify (λ s, s <| slabs := <[a := f d]> (slabs s) |>).
Definition get_cache (c : Z) : M heap kmem_cache_t := deref (λ s, slab_cache s !! c).
Definition le2slab (le : slink) : M heap Z := match le with slab_link a => mret a | _ => fail Fault end.

(** ** Addresses of pages, [arch/arm/include/pmm.h] *)

Definition page2kva (page : Z) : M heap Z :=
  s ← get;
  _ ← assert (page <? npage (pm s));
  mret (u32 (u32 (Z.shiftl page 12) + KERNBASE)).
Definition kva2page (kva : Z) : M heap Z :=
  _ ← assert (KERNBASE <=? kva);
  let ppn := Z.shiftr (kva - KERNBASE) 12 in
  s ← get;
  _ ← assert (ppn <? npage (pm s));
  mret ppn.

(** ** The layout of slabs *)

Definition slab_mgmt_size (num align : Z) : Z := ROUNDUP (u32 (sizeof_slab + u32 (num * sizeof_bufctl))) align.

Definition estimate_body {S} (objsize align slab_size nr_objs : Z) : M S (Z + Z) :=
  mret (if slab_size <? u32 (slab_mgmt_size nr_objs align + u32 (nr_objs * objsize))
        then inl (u32 (nr_objs - 1)) else inr nr_objs).
(** [(remainder, num)]. *)
Definition cache_estimate {S} (order objsize align : Z) (off_slab : bool) : M S (Z * Z) :=
  let slab_size := u32 (Z.shiftl PGSIZE order) in
  if off_slab then
    let nr_objs := slab_size / objsize in
    let nr_objs := if SLAB_LIMIT <? nr_objs then SLAB_LIMIT else nr_objs in
    mret (u32 (slab_size - u32 (nr_objs * objsize)), nr_objs)
  else
    let nr_objs := u32 (slab_size - sizeof_slab) / u32 (objsize + sizeof_bufctl) in
    nr_objs ← loop (Datatypes.S (Z.to_nat nr_objs)) (estimate_body objsize align slab_size) nr_objs;
    let nr_objs := if SLAB_LIMIT <? nr_objs then SLAB_LIMIT else nr_objs in
    mret (u32 (slab_size - u32 (nr_objs * objsize) - slab_mgmt_size nr_objs align), nr_objs).

(** [(num, page_order, left_over)]. *)
Definition slab_order_body {S} (objsize align : Z) (off_slab : bool) (order : Z) : M S (Z + Z * Z * Z) :=
  if order <=? KMALLOC_MAX_ORDER then
    r ← cache_estimate order objsize align off_slab;
    let '(remainder, num) := r in
    if negb (num =? 0) then
      _ ← (if off_slab then assert (num <=? u32 (objsize - sizeof_slab) / sizeof_bufctl) else mret tt);
      if u32 (remainder * 8) <=? u32 (Z.shiftl PGSIZE order) then mret (inr (num, order, remainder))
      else mret (inl (order + 1))
    else mret (inl (order + 1))
  else fail Panic.
Definition calculate_slab_order {S} (objsize align : Z) (off_slab : bool) : M S (Z * Z * Z) :=
  loop 12 (slab_order_body objsize align off_slab) 0.

(** The fields of the cache, when its rings are made. *)
Definition cache_layout {S} (objsize align : Z) : M S kmem_cache_t :=
  let objsize := ROUNDUP objsize align in
  let off := Z.shiftr PGSIZE 3 <=? objsize in
  r ← calculate_slab_order objsize align off;
  let '(num, order, left_over) := r in
  _ ← assert (0 <? num);
  let mgmt_size := slab_mgmt_size num align in
  if off && negb (mgmt_size <=? left_over) then
    o ← getorder mgmt_size;
    mret (mk_cache objsize num 0 true order (Some (o - MIN_SIZE_ORDER)))
  else mret (mk_cache objsize num mgmt_size false order None).

Definition init_kmem_cache (c objsize align : Z) : M heap unit :=
  _ ← on_slinks (list_init (slabs_full c));
  _ ← on_slinks (list_init (slabs_notfull c));
  k ← cache_layout objsize align;
  modify (λ s, s <| slab_cache := <[c := k]> (slab_cache s) |>).

Definition slab_init_body (i : Z) : M heap (Z + unit) :=
  if i <? SLAB_CACHE_NUM then
    _ ← init_kmem_cache i (u32 (Z.shiftl 1 (i + MIN_SIZE_ORDER))) 16;
    mret (inl (i + 1))
  else mret (inr tt).
Definition slab_init : M heap unit := loop 14 slab_init_body 0.

(** ** Growing a cache *)

Definition kmem_cache_slabmgmt (alloc : Z → M heap (option Z)) (c page : Z) : M heap (option Z) :=
  objp ← page2kva page;
  k ← get_cache c;
  slabp ← (if off_slab k then c' ← deref (λ _, slab_cachep k); alloc c'
           else a ← page2kva page; mret (Some a));
  match slabp with
  | None => mret None
  | Some a =>
      _ ← modify (λ s, s <| slabs := <[a := mk_slab (u32 (objp + obj_offset k)) 0 (obj_offset k)
                                             (default 0 (free <$> slabs s !! a))]> (slabs s) |>);
      mret (Some a)
  end.

Definition page_owner_body (c a : Z) (q : Z * Z) : M heap (Z * Z + unit) :=
  let '(page, order_size) := q in
  _ ← modify (λ s, s <| page_cache := <[page := c]> (page_cache s) |> <| page_slab := <[page := a]> (page_slab s) |>);
  _ ← on_pm (set_page page SetPageSlab);
  let order_size := order_size - 1 in
  if negb (order_size =? 0) then mret (inl (page + 1, order_size)) else mret (inr tt).

Definition set_bufctl (a i v : Z) : M heap unit :=
  modify (λ s, s <| bufctl := <[(a, i) := v]> (bufctl s) |>).
Definition bufctl_body (a num i : Z) : M heap (Z + unit) :=
  if i <? num then _ ← set_bufctl a i (i + 1); mret (inl (i + 1)) else mret (inr tt).

Definition kmem_cache_grow (alloc : Z → M heap (option Z)) (c : Z) : M heap bool :=
  k ← get_cache c;
  page ← on_pm (alloc_pages (Z.shiftl 1 (page_order k)));
  match page with
  | None => mret false
  | Some page =>
      slabp ← kmem_cache_slabmgmt alloc c page;
      match slabp with
      | None => _ ← on_pm (free_pages page (Z.shiftl 1 (page_order k))); mret false
      | Some a =>
          let order_size := Z.shiftl 1 (page_order k) in
          _ ← loop (S (Z.to_nat order_size)) (page_owner_body c a) (page, order_size);
          _ ← loop (S (Z.to_nat (num k))) (bufctl_body a (num k)) 0;
          _ ← set_bufctl a (num k - 1) BUFCTL_END;
          _ ← set_slab a (λ d, d <| free := 0 |>);
          _ ← on_slinks (list_add (slabs_notfull c) (slab_link a));
          mret true
      end
  end.

(** ** Allocation *)

Definition kmem_cache_alloc_one (c a : Z) : M heap Z :=
  k ← get_cache c;
  _ ← set_slab a (λ d, d <| inuse := u32 (inuse d + 1) |>);
  d ← get_slab a;
  let objp := u32 (s_mem d + u32 (free d * objsize k)) in
  n ← deref (λ s, bufctl s !! (a, free d));
  _ ← set_slab a (λ d, d <| free := n |>);
  _ ← when (n =? BUFCTL_END)
        (_ ← on_slinks (list_del (slab_link a)); on_slinks (list_add (slabs_full c) (slab_link a)));
  mret objp.

(** One round of [try_again]. *)
Definition cache_alloc_body (alloc : Z → M heap (option Z)) (c : Z) (_ : unit) : M heap (unit + option Z) :=
  e ← on_slinks (list_empty (slabs_notfull c));
  if (e : bool) then
    g ← kmem_cache_grow alloc c;
    if (g : bool) then mret (inl tt) else mret (inr None)
  else
    le ← on_slinks (list_next (slabs_notfull c));
    a ← le2slab le;
    objp ← kmem_cache_alloc_one c a;
    mret (inr (Some objp)).

(** The control blocks of a cache come from a smaller one: the depth of the
    recursion is bounded by the number of caches. *)
Fixpoint kmem_cache_alloc (depth : nat) (c : Z) : M heap (option Z) :=
  match depth with
  | O => fail OutOfFuel
  | S depth => loop 2 (cache_alloc_body (kmem_cache_alloc depth) c) tt
  end.
Definition cache_depth : nat := Z.to_nat SLAB_CACHE_NUM.

Definition kmalloc (size : Z) : M heap (option Z) :=
  _ ← assert (0 <? size);
  order ← getorder size;
  if MAX_SIZE_ORDER <? order then mret None
  else kmem_cache_alloc cache_depth (order - MIN_SIZE_ORDER).

(** ** Release *)

Definition clear_slab_body (q : Z * Z) : M heap (Z * Z + unit) :=
  let '(p, order_size) := q in
  v ← on_pm (get_page p);
  _ ← assert (PageSlab v);
  _ ← on_pm (set_page p ClearPageSlab);
  let order_size := order_size - 1 in
  if negb (order_size =? 0) then mret (inl (p + 1, order_size)) else mret (inr tt).

Definition kmem_slab_destroy (release : option Z → Z → M heap unit) (c a : Z) : M heap unit :=
  d ← get_slab a;
  k ← get_cache c;
  page ← kva2page (u32 (s_mem d - offset d));
  let order_size := Z.shiftl 1 (page_order k) in
  _ ← loop (S (Z.to_nat order_size)) clear_slab_body (page, order_size);
  _ ← on_pm (free_pages page (Z.shiftl 1 (page_order k)));
  if off_slab k then release (slab_cachep k) a else mret tt.

Definition kmem_cache_free_one (release : option Z → Z → M heap unit) (c a objp : Z) : M heap unit :=
  k ← get_cache c;
  d ← get_slab a;
  let objnr := u32 (objp - s_mem d) / objsize k in
  _ ← set_bufctl a objnr (free d);
  _ ← set_slab a (λ d, d <| free := objnr |>);
  _ ← set_slab a (λ d, d <| inuse := u32 (inuse d - 1) |>);
  d ← get_slab a;
  if inuse d =? 0 then
    _ ← on_slinks (list_del (slab_link a));
    kmem_slab_destroy release c a
  else if inuse d =? num k - 1 then
    _ ← on_slinks (list_del (slab_link a));
    on_slinks (list_add (slabs_notfull c) (slab_link a))
  else mret tt.

(** The cache pointer of a page that is in no slab is not read. *)
Fixpoint kmem_cache_free (depth : nat) (c : option Z) (objp : Z) : M heap unit :=
  match depth with
  | O => fail OutOfFuel
  | S depth =>
      page ← kva2page objp;
      v ← on_pm (get_page page);
      if negb (PageSlab v) then fail Panic
      else
        a ← deref (λ s, page_slab s !! page);
        c ← deref (λ _, c);
        kmem_cache_free_one (kmem_cache_free depth) c a objp
  end.

Definition kfree (objp : Z) : M heap unit :=
  if objp =? 0 then mret tt
  else
    page ← kva2page objp;
    s ← get;
    kmem_cache_free cache_depth (page_cache s !! page) objp.

(** ** Accounting *)

Definition full_body (c : Z) (q : slink * Z) : M heap (slink * Z + Z) :=
  let '(le, total) := q in
  le ← on_slinks (list_next le);
  if decide (le = slabs_full c) then mret (inr total)
  else
    k ← get_cache c;
    mret (inl (le, u32 (total + u32 (num k * objsize k)))).
Definition notfull_body (c : Z) (q : slink * Z) : M heap (slink * Z + Z) :=
  let '(le, total) := q in
  le ← on_slinks (list_next le);
  if decide (le = slabs_notfull c) then mret (inr total)
  else
    a ← le2slab le;
    d ← get_slab a;
    k ← get_cache c;
    mret (inl (le, u32 (total + u32 (inuse d * objsize k)))).
Definition allocated_body (q : Z * Z) : M heap (Z * Z + Z) :=
  let '(i, total) := q in
  if i <? SLAB_CACHE_NUM then
    s ← get;
    total ← loop (S (size (slinks s))) (full_body i) (slabs_full i, total);
    total ← loop (S (size (slinks s))) (notfull_body i) (slabs_notfull i, total);
    mret (inl (i + 1, total))
  else mret (inr total).
Definition slab_allocated : M heap Z := loop 14 allocated_body (0, 0).
