(* ===== verification/KmemInv.v ===== *)
(** * The invariant of the kernel heap

    [heap_inv s G O R]: in the state [s] the caches hold the slabs of [G]; each
    slab chains its free objects and owns its pages; every other object is
    either live ([O], with its size) or the control block of a slab; the pages
    that others hold are the ranges of [R]. *)

From stdpp Require Import sets list_numbers.
From S2P Require Import Prelude DList Buddy BuddyInv BuddySpec BuddyAlloc BuddyInit BuddyPool Slab Kmem.

(** ** The layout of each cache *)

Definition no_layout : kmem_cache_t := mk_cache 0 0 0 false 0 None.
Definition layouts : list kmem_cache_t :=
  (λ i : nat, match cache_layout (2 ^ (Z.of_nat i + MIN_SIZE_ORDER)) 16 tt with Ok (k, _) => k | Err _ => no_layout end)
    <$> seq 0 13.
Definition layout (c : Z) : kmem_cache_t := default no_layout (layouts !! Z.to_nat c).

(** What the invariant needs: the objects fit behind the control block, and
    the control block fits before them or in an object of its own cache. *)
Record layout_ok (c : Z) (k : kmem_cache_t) : Prop := {
  lk_size : objsize k = 2 ^ (c + 5);
  lk_num : 1 ≤ num k ≤ 113;
  lk_order : 0 ≤ page_order k ≤ 5;
  lk_offset : 0 ≤ obj_offset k;
  lk_fits : obj_offset k + num k * objsize k ≤ PGSIZE * 2 ^ page_order k;
  lk_control : match slab_cachep k with
    | Some c' => off_slab k = true ∧ 0 ≤ c' < 2 ∧ sizeof_slab + num k * sizeof_bufctl ≤ 2 ^ (c' + 5)
    | None => off_slab k = false ∧ sizeof_slab + num k * sizeof_bufctl ≤ obj_offset k
    end;
}.

Lemma cache_cases c : 0 ≤ c < 13 → c ∈ seqZ 0 13.
Proof. intros Hc. apply elem_of_seqZ. lia. Qed.

Lemma layout_facts c : 0 ≤ c < 13 → layout_ok c (layout c).
Proof.
  intros Hc%cache_cases. revert c Hc. apply Forall_forall.
  repeat (apply Forall_cons; split; [constructor; vm_compute; intuition congruence|]). apply Forall_nil. done.
Qed.
Lemma small_on_slab c : 0 ≤ c < 2 → off_slab (layout c) = false.
Proof. intros Hc. assert (c = 0 ∨ c = 1) as [-> | ->] by lia; by vm_compute. Qed.
Lemma cache_layout_ok {S} c (s : S) : 0 ≤ c < 13 → cache_layout (2 ^ (c + 5)) 16 s = Ok (layout c, s).
Proof.
  intros Hc%cache_cases. revert c Hc. apply Forall_forall.
  repeat (apply Forall_cons; split; [vm_compute; reflexivity|]). by apply Forall_nil.
Qed.

(** ** Slabs *)

(** A slab: its cache, its first page, its free objects as they are chained. *)
Record sinfo : Type := mk_sinfo { si_cache : Z; si_page : Z; si_free : list Z }.
#[export] Instance eta_sinfo : Eta sinfo := λ r, mk_sinfo (si_cache r) (si_page r) (si_free r).

Implicit Types (s : heap) (a c i x : Z) (g h : sinfo) (G : gmap Z sinfo) (O : gmap Z Z) (R : list (Z * Z)).

Definition kva (page : Z) : Z := page * PGSIZE + KERNBASE.
Definition lay g : kmem_cache_t := layout (si_cache g).
Definition obj g i : Z := kva (si_page g) + obj_offset (lay g) + i * objsize (lay g).
Definition slab_pages g : Z * Z := (si_page g, 2 ^ page_order (lay g)).
Definition ranges G : list (Z * Z) := slab_pages ∘ snd <$> map_to_list G.
Definition object g i : Prop := 0 ≤ i < num (lay g).
Definition allocated g i : Prop := object g i ∧ i ∉ si_free g.

(** The chain of free objects, from the index [first]. *)
Fixpoint chain (b : gmap (Z * Z) Z) a (first : Z) (fl : list Z) : Prop :=
  match fl with
  | [] => first = BUFCTL_END
  | i :: fl => first = i ∧ ∃ n, b !! (a, i) = Some n ∧ chain b a n fl
  end.

Record slab_ok s a g : Prop := {
  so_cache : 0 ≤ si_cache g < 13;
  so_slab : ∃ first, slabs s !! a = Some (mk_slab (obj g 0) (num (lay g) - Z.of_nat (length (si_free g))) (obj_offset (lay g)) first) ∧
    chain (bufctl s) a first (si_free g);
  so_free : NoDup (si_free g) ∧ ∀ i, i ∈ si_free g → object g i;
  so_pages q : in_range q (slab_pages g) → page_cache s !! q = Some (si_cache g) ∧ page_slab s !! q = Some a ∧
    ∃ v, pages (pm s) !! q = Some v ∧ PageSlab v = true;
}.

(** Where the control block is. *)
Definition control_ok G a g : Prop :=
  match slab_cachep (lay g) with
  | None => a = kva (si_page g)
  | Some c' => ∃ b h i, G !! b = Some h ∧ si_cache h = c' ∧ allocated h i ∧ a = obj h i
  end.

(** ** The rings of the caches *)

Definition ring_head c (full : bool) : slink := if full then slabs_full c else slabs_notfull c.
Definition slab_is_full g : bool := bool_decide (si_free g = []).
Definition slab_lists (h : gmap slink (list_entry slink)) G : Prop :=
  ∃ L, rep h L ∧ (∀ k, is_Some (L !! k) → ∃ c b, 0 ≤ c < 13 ∧ k = ring_head c b) ∧
    ∀ c b, 0 ≤ c < 13 → ∃ l, L !! ring_head c b = Some (slab_link <$> l) ∧
      ∀ a, a ∈ l ↔ ∃ g, G !! a = Some g ∧ si_cache g = c ∧ slab_is_full g = b.

(** ** The heap *)

Definition with_control G x : Prop := ∃ g, G !! x = Some g ∧ off_slab (lay g) = true.

(** The caches, the slabs and their pages. *)
Record heap_base s G R : Prop := {
  hi_pool : ∃ B, pool_inv (pm s) B (ranges G ++ R);
  hi_npage : npage (pm s) ≤ KMEMSIZE / PGSIZE;
  hi_cache c : 0 ≤ c < 13 → slab_cache s !! c = Some (layout c);
  hi_lists : slab_lists (slinks s) G;
  hi_slab a g : G !! a = Some g → slab_ok s a g;
}.

(** The objects in use: live, or control blocks.  [ex]: a new slab, which has
    no object in use yet. *)
Record objects_ok (ex : option Z) G O : Prop := {
  hi_used a g : G !! a = Some g → ex ≠ Some a → Z.of_nat (length (si_free g)) < num (lay g);
  hi_control a g : G !! a = Some g → control_ok G a g;
  hi_live x n : O !! x = Some n →
    ∃ a g i, G !! a = Some g ∧ allocated g i ∧ x = obj g i ∧ n = objsize (lay g);
  hi_block a g i : G !! a = Some g → allocated g i → is_Some (O !! obj g i) ∨ with_control G (obj g i);
  hi_own x : with_control G x → O !! x = None;
}.
Definition heap_inv (ex : option Z) s G O R : Prop := heap_base s G R ∧ objects_ok ex G O.

(** ** Addresses *)

Section addresses.
Context {s : heap} {G : gmap Z sinfo} {R : list (Z * Z)}.
Hypothesis Hinv : heap_base s G R.

Lemma slab_layout a g : G !! a = Some g → layout_ok (si_cache g) (lay g).
Proof. intros Hg. apply layout_facts, (so_cache _ _ _ (hi_slab _ _ _ Hinv _ _ Hg)). Qed.

Lemma ranges_elem a g : G !! a = Some g → slab_pages g ∈ ranges G.
Proof.
  intros Hg. unfold ranges. apply list_elem_of_fmap. exists (a, g). split; [done|]. by apply elem_of_map_to_list.
Qed.

(** A slab is in the memory that the kernel maps. *)
Lemma slab_range a g : G !! a = Some g → 0 ≤ si_page g ∧ si_page g + 2 ^ page_order (lay g) ≤ npage (pm s).
Proof.
  intros Hg. destruct (hi_pool _ _ _ Hinv) as [B HB]. pose proof (slab_layout _ _ Hg) as Hk.
  pose proof (lk_order _ _ Hk) as Ho. pose proof (pow2_pos (page_order (lay g)) ltac:(lia)) as Hp.
  destruct (pi_held _ _ _ HB (si_page g) (2 ^ page_order (lay g))) as [_ Hh].
  { apply elem_of_app. left. by apply (ranges_elem a g). }
  assert (Hdom : ∀ q, in_range q (slab_pages g) → 0 ≤ q < npage (pm s)).
  { intros q Hq. apply (bi_dom _ _ _ (pi_inv _ _ _ HB)). destruct (holds_managed _ _ _ _ _ Hh Hq) as (v & Hv & _). eauto. }
  pose proof (Hdom (si_page g) ltac:(unfold in_range; simpl; lia)).
  pose proof (Hdom (si_page g + 2 ^ page_order (lay g) - 1) ltac:(unfold in_range; simpl; lia)). lia.
Qed.

(** The [d]-th byte of an object is in a page of the slab. *)
Lemma obj_byte a g i d :
  G !! a = Some g → object g i → 0 ≤ d < objsize (lay g) →
  in_range ((obj g i + d - KERNBASE) / PGSIZE) (slab_pages g) ∧ KERNBASE ≤ obj g i + d < KERNTOP.
Proof.
  intros Hg Hi Hd. pose proof (slab_layout _ _ Hg) as Hk. destruct (slab_range _ _ Hg) as [H0 Hn].
  pose proof (hi_npage _ _ _ Hinv) as Hnp. change (KMEMSIZE / PGSIZE) with 32768 in Hnp.
  pose proof (lk_offset _ _ Hk). pose proof (lk_fits _ _ Hk) as Hf. unfold object in Hi.
  set (e := obj_offset (lay g) + i * objsize (lay g) + d).
  assert (He : 0 ≤ e < PGSIZE * 2 ^ page_order (lay g)).
  { unfold e. assert (i * objsize (lay g) + objsize (lay g) ≤ num (lay g) * objsize (lay g)) by nia. split; [nia|lia]. }
  replace (obj g i + d) with (si_page g * PGSIZE + KERNBASE + e) by (unfold obj, kva, e; lia).
  replace (si_page g * PGSIZE + KERNBASE + e - KERNBASE) with (e + si_page g * PGSIZE) by lia.
  rewrite Z.div_add by done. unfold in_range, slab_pages. simpl.
  assert (0 ≤ e / PGSIZE) by (apply Z.div_pos; [lia|done]).
  assert (e / PGSIZE < 2 ^ page_order (lay g)) by (apply Z.div_lt_upper_bound; [done|lia]).
  unfold KERNTOP, KMEMSIZE, PGSIZE, KERNBASE in *. split; [lia|]. split; [lia|]. nia.
Qed.

(** A page is in one slab. *)
Lemma slab_page_unique a g b h q :
  G !! a = Some g → G !! b = Some h → in_range q (slab_pages g) → in_range q (slab_pages h) → a = b ∧ g = h.
Proof.
  intros Hg Hh Hqg Hqh. destruct (so_pages _ _ _ (hi_slab _ _ _ Hinv _ _ Hg) q Hqg) as (_ & Ha & _).
  destruct (so_pages _ _ _ (hi_slab _ _ _ Hinv _ _ Hh) q Hqh) as (_ & Hb & _).
  assert (a = b) as -> by congruence. split; [done|congruence].
Qed.

Lemma objsize_pos a g : G !! a = Some g → 32 ≤ objsize (lay g) ≤ 2 ^ 17.
Proof.
  intros Hg. rewrite (lk_size _ _ (slab_layout _ _ Hg)).
  pose proof (so_cache _ _ _ (hi_slab _ _ _ Hinv _ _ Hg)). split; [apply (Z.pow_le_mono_r 2 5)|apply Z.pow_le_mono_r]; lia.
Qed.

(** Two objects that share a byte are the same. *)
Lemma obj_disjoint a g i b h j d e :
  G !! a = Some g → object g i → 0 ≤ d < objsize (lay g) → G !! b = Some h → object h j → 0 ≤ e < objsize (lay h) →
  obj g i + d = obj h j + e → a = b ∧ g = h ∧ i = j.
Proof.
  intros Hg Hi Hd Hh Hj He E. destruct (obj_byte a g i d Hg Hi Hd) as [Hq1 _]. destruct (obj_byte b h j e Hh Hj He) as [Hq2 _].
  rewrite E in Hq1. destruct (slab_page_unique a g b h _ Hg Hh Hq1 Hq2) as [-> ->]. split; [done|]. split; [done|].
  unfold obj in E. nia.
Qed.
Lemma obj_inj a g i b h j :
  G !! a = Some g → object g i → G !! b = Some h → object h j → obj g i = obj h j → a = b ∧ g = h ∧ i = j.
Proof.
  intros Hg Hi Hh Hj E. pose proof (objsize_pos _ _ Hg). pose proof (objsize_pos _ _ Hh).
  apply (obj_disjoint a g i b h j 0 0); try done; lia.
Qed.

Lemma kva_page a g :
  G !! a = Some g → a = kva (si_page g) → in_range ((a - KERNBASE) / PGSIZE) (slab_pages g) ∧ KERNBASE ≤ a < KERNTOP.
Proof.
  intros Hg ->. destruct (slab_range _ _ Hg) as [H0 Hn]. pose proof (slab_layout _ _ Hg) as Hk.
  pose proof (lk_order _ _ Hk). pose proof (pow2_pos (page_order (lay g)) ltac:(lia)).
  pose proof (hi_npage _ _ _ Hinv) as Hnp. change (KMEMSIZE / PGSIZE) with 32768 in Hnp.
  unfold kva. replace (si_page g * PGSIZE + KERNBASE - KERNBASE) with (si_page g * PGSIZE) by lia. rewrite Z.div_mul by done.
  split; [unfold in_range; simpl; lia|]. unfold KERNTOP, KMEMSIZE, PGSIZE, KERNBASE in *. lia.
Qed.

(** The block of a control structure: its slab's first page or an object. *)
Lemma control_page ex O a g :
  objects_ok ex G O → G !! a = Some g → ∃ b h, G !! b = Some h ∧ in_range ((a - KERNBASE) / PGSIZE) (slab_pages h) ∧
    (off_slab (lay g) = false → b = a) ∧ KERNBASE ≤ a < KERNTOP.
Proof.
  intros Hob Hg. pose proof (slab_layout _ _ Hg) as Hk. pose proof (lk_control _ _ Hk) as Hc.
  pose proof (hi_control _ _ _ Hob _ _ Hg) as Hco. unfold control_ok in Hco.
  destruct (slab_cachep (lay g)) as [c'|].
  - destruct Hco as (b & h & i & Hh & _ & [Hi _] & ->). exists b, h. split; [done|].
    pose proof (objsize_pos _ _ Hh). destruct (obj_byte b h i 0 Hh Hi ltac:(lia)) as [Hq Hr]. rewrite Z.add_0_r in *.
    split; [done|]. split; [|done]. destruct Hc as [Ho _]. congruence.
  - subst a. exists (kva (si_page g)), g. split; [done|]. destruct (kva_page (kva (si_page g)) g Hg eq_refl). split; [done|]. by split.
Qed.

Lemma kva2page_ok q d : in_range q (0, npage (pm s)) → 0 ≤ d < PGSIZE → kva2page (kva q + d) s = Ok (q, s).
Proof.
  intros [H0 Hq] Hd. simpl in *. unfold kva2page, kva. rewrite (proj2 (Z.leb_le _ _)) by (unfold PGSIZE in *; lia).
  rewrite (bind_ok _ _ s tt s) by done. cbv zeta. rewrite Z.shiftr_div_pow2 by lia.
  replace (q * PGSIZE + KERNBASE + d - KERNBASE) with (d + q * 2 ^ 12) by (unfold PGSIZE in *; lia).
  rewrite Z.div_add by done. rewrite Z.div_small by (unfold PGSIZE in *; lia). rewrite Z.add_0_l.
  rewrite (bind_ok get _ s s s) by done. by rewrite (proj2 (Z.ltb_lt _ _)) by lia.
Qed.

(** [kva2page] of an object finds its slab. *)
Lemma obj_kva2page a g i :
  G !! a = Some g → object g i → ∃ q, kva2page (obj g i) s = Ok (q, s) ∧ in_range q (slab_pages g).
Proof.
  intros Hg Hi. pose proof (objsize_pos _ _ Hg). destruct (obj_byte a g i 0 Hg Hi ltac:(lia)) as [Hq Hr].
  rewrite Z.add_0_r in *. exists ((obj g i - KERNBASE) / PGSIZE). split; [|done].
  destruct (slab_range _ _ Hg) as [H0 Hn]. unfold in_range in Hq. simpl in Hq.
  rewrite <-(kva2page_ok ((obj g i - KERNBASE) / PGSIZE) ((obj g i - KERNBASE) mod PGSIZE)).
  - f_equal. unfold kva. pose proof (Z.div_mod (obj g i - KERNBASE) PGSIZE ltac:(done)). lia.
  - unfold in_range. simpl. lia.
  - by apply Z.mod_pos_bound.
Qed.

Lemma page2kva_ok q : in_range q (0, npage (pm s)) → page2kva q s = Ok (kva q, s).
Proof.
  intros [H0 Hq]. simpl in *. pose proof (hi_npage _ _ _ Hinv) as Hnp. change (KMEMSIZE / PGSIZE) with 32768 in Hnp.
  unfold page2kva. rewrite (bind_ok get _ s s s) by done. rewrite (proj2 (Z.ltb_lt _ _)) by lia.
  rewrite (bind_ok _ _ s tt s) by done. unfold mret, M_ret, kva. do 2 f_equal.
  rewrite Z.shiftl_mul_pow2 by lia. change (2 ^ 12) with PGSIZE.
  rewrite (u32_id (q * PGSIZE)), u32_id; [done| |]; unfold PGSIZE, KERNBASE; lia.
Qed.
End addresses.

(** ** Rings *)

Lemma ring_head_inj c b c' b' : ring_head c b = ring_head c' b' → c = c' ∧ b = b'.
Proof. by destruct b, b'; intros [= ->]. Qed.

Lemma lists_heads (L : gmap slink (list slink)) a c b :
  (∀ k, is_Some (L !! k) → ∃ c b, 0 ≤ c < 13 ∧ k = ring_head c b) → L !! slab_link a = None ∧ slab_link a ≠ ring_head c b.
Proof.
  intros HL. split; [|by destruct b]. destruct (L !! slab_link a) eqn:E; [|done].
  destruct (HL (slab_link a)) as (? & [] & _ & [=]). by rewrite E.
Qed.

Lemma lists_set w G a g g' :
  slab_lists w G → G !! a = Some g → si_cache g' = si_cache g → slab_is_full g' = slab_is_full g → slab_lists w (<[a := g']> G).
Proof.
  intros (L & Hr & HL & Hl) Ha Hc Hf. exists L. split; [done|]. split; [done|]. intros c b Hcr.
  destruct (Hl c b Hcr) as (l & El & Hm). exists l. split; [done|]. intros x. rewrite Hm.
  destruct (decide (x = a)) as [->|Hne]; [|by rewrite lookup_insert_ne]. rewrite lookup_insert_eq. split.
  - intros (g0 & Hg0 & ? & ?). simplify_eq. eauto.
  - intros (g0 & [= <-] & ? & ?). exists g. split; [done|]. by rewrite <-Hc, <-Hf.
Qed.

Lemma lists_del w G a g :
  slab_lists w G → G !! a = Some g → 0 ≤ si_cache g < 13 →
  ∃ w', list_del (slab_link a) w = Ok (tt, w') ∧ slab_lists w' (delete a G).
Proof.
  intros (L & Hr & HL & Hl) Ha Hcr. set (k := ring_head (si_cache g) (slab_is_full g)).
  destruct (Hl (si_cache g) (slab_is_full g) Hcr) as (l & El & Hm).
  assert (a ∈ l) as (l1 & l2 & ->)%list_elem_of_split by (apply Hm; eauto).
  rewrite fmap_app, fmap_cons in El. destruct (rep_del w L k _ _ _ Hr El) as (w' & E & Hr').
  destruct Hr as [Hrg _]. destruct (Hrg _ _ El) as [Hnd _]. apply NoDup_cons in Hnd as [_ Hnd].
  rewrite <-fmap_cons, <-fmap_app in Hnd. apply NoDup_fmap_1 in Hnd. apply NoDup_app in Hnd as (Hn1 & Hn12 & [Hn Hn2]%NoDup_cons).
  exists w'. split; [exact E|]. exists (<[k := (slab_link <$> l1) ++ (slab_link <$> l2)]> L). split; [exact Hr'|]. split.
  { intros k'. destruct (decide (k' = k)) as [->|Hne]; [intros _; by exists (si_cache g), (slab_is_full g)|]. rewrite lookup_insert_ne by done. apply HL. }
  intros c b Hc. destruct (decide (ring_head c b = k)) as [Ek|Hne].
  - apply ring_head_inj in Ek as [-> ->]. exists (l1 ++ l2). fold k. rewrite lookup_insert_eq, fmap_app. split; [done|].
    intros x. destruct (decide (x = a)) as [->|Hxa].
    + rewrite lookup_delete_eq. split; [|naive_solver]. intros [Hx|Hx]%elem_of_app; [|done].
      destruct (Hn12 a Hx). set_solver.
    + rewrite lookup_delete_ne, <-Hm by done. set_solver.
  - destruct (Hl c b Hc) as (l & Elc & Hmc). exists l. rewrite lookup_insert_ne by done. split; [done|].
    intros x. rewrite Hmc. destruct (decide (x = a)) as [->|Hxa]; [|by rewrite lookup_delete_ne].
    rewrite lookup_delete_eq, Ha. split; [|naive_solver]. intros (g0 & [= <-] & <- & <-). by destruct Hne.
Qed.

Lemma lists_add w G a g :
  slab_lists w G → G !! a = None → 0 ≤ si_cache g < 13 →
  ∃ w', list_add (ring_head (si_cache g) (slab_is_full g)) (slab_link a) w = Ok (tt, w') ∧ slab_lists w' (<[a := g]> G) ∧
    list_next (ring_head (si_cache g) (slab_is_full g)) w' = Ok (slab_link a, w') ∧
    list_empty (ring_head (si_cache g) (slab_is_full g)) w' = Ok (false, w').
Proof.
  intros (L & Hr & HL & Hl) Ha Hcr. set (k := ring_head (si_cache g) (slab_is_full g)).
  destruct (Hl (si_cache g) (slab_is_full g) Hcr) as (l & El & Hm). fold k in El.
  destruct (lists_heads L a (si_cache g) (slab_is_full g) HL) as [HLa Hak]. fold k in Hak.
  assert (Hun : unlisted L (slab_link a)).
  { intros k' l' Hk' Hin. destruct (HL k' ltac:(eauto)) as (c & b & Hc & ->).
    apply elem_of_cons in Hin as [Hin|Hin]; [by destruct b|].
    destruct (Hl c b Hc) as (l0 & El0 & Hm0). simplify_eq. apply list_elem_of_fmap in Hin as (x & [= <-] & Hx).
    apply Hm0 in Hx as (g0 & ? & _). congruence. }
  destruct (list_add_after_spec w L k _ (slab_link a) Hr El (unlisted_available _ _ Hun) Hak) as (w' & E & Hr').
  rewrite delete_id in Hr' by done. exists w'. split; [exact E|]. set (L' := <[k := slab_link a :: (slab_link <$> l)]> L) in *.
  assert (L' !! k = Some (slab_link a :: (slab_link <$> l))) as Hk' by apply lookup_insert_eq. split.
  2:{ split; [by apply (list_next_cursor w' L' k [] (slab_link a :: (slab_link <$> l)))|].
      by rewrite (list_empty_spec _ _ _ _ Hr' Hk'). }
  exists L'. split; [done|]. unfold L'. split.
  { intros k'. destruct (decide (k' = k)) as [->|Hne]; [intros _; by exists (si_cache g), (slab_is_full g)|].
    rewrite lookup_insert_ne by done. apply HL. }
  intros c b Hc. destruct (decide (ring_head c b = k)) as [Ek|Hne].
  - apply ring_head_inj in Ek as [-> ->]. exists (a :: l). fold k. rewrite lookup_insert_eq. split; [done|].
    intros x. rewrite elem_of_cons, Hm. destruct (decide (x = a)) as [->|Hxa]; [rewrite lookup_insert_eq; naive_solver|].
    rewrite lookup_insert_ne by done. naive_solver.
  - destruct (Hl c b Hc) as (l0 & Elc & Hmc). exists l0. rewrite lookup_insert_ne by done. split; [done|].
    intros x. rewrite Hmc. destruct (decide (x = a)) as [->|Hxa]; [|by rewrite lookup_insert_ne].
    rewrite lookup_insert_eq, Ha. split; [naive_solver|]. intros (g0 & [= <-] & <- & <-). by destruct Hne.
Qed.

(** Whether a cache has a slab with a free object, and which one it takes. *)
Lemma lists_notfull w G c :
  slab_lists w G → 0 ≤ c < 13 →
  (list_empty (slabs_notfull c) w = Ok (true, w) ∧ ∀ a g, G !! a = Some g → si_cache g = c → slab_is_full g = true) ∨
  (list_empty (slabs_notfull c) w = Ok (false, w) ∧ ∃ a g, list_next (slabs_notfull c) w = Ok (slab_link a, w) ∧
    G !! a = Some g ∧ si_cache g = c ∧ slab_is_full g = false).
Proof.
  intros (L & Hr & HL & Hl) Hc. destruct (Hl c false Hc) as (l & El & Hm). simpl in El.
  pose proof (list_empty_spec _ _ _ _ Hr El) as He. destruct l as [|a l].
  - left. split; [done|]. intros a g Ha Hg. destruct (slab_is_full g) eqn:E; [done|].
    assert (a ∈ []) as []%elem_of_nil. apply Hm. eauto.
  - right. split; [done|]. destruct (Hm a) as [Ha _]. destruct (Ha ltac:(set_solver)) as (g & ? & ? & ?).
    exists a, g. split; [|done]. by apply (list_next_cursor w L (slabs_notfull c) [] (slab_link a :: (slab_link <$> l))).
Qed.
