(* ===== verification/KmemSpec.v ===== *)
(** * The operations of the kernel heap

    What growing, allocating, releasing and destroying do to the slabs and the
    objects of [KmemInv]. *)

From stdpp Require Import sets list_numbers.
From S2P Require Import Prelude DList Buddy BuddyInv BuddySpec BuddyAlloc BuddyInit BuddyPool Slab Kmem KmemInv.

Implicit Types (s : heap) (a c i x : Z) (g h : sinfo) (G : gmap Z sinfo) (O : gmap Z Z) (R : list (Z * Z)).

(** ** Frames *)

Lemma chain_frame (b b' : gmap (Z * Z) Z) a first fl :
  (∀ i, i ∈ fl → b' !! (a, i) = b !! (a, i)) → chain b a first fl → chain b' a first fl.
Proof.
  revert first. induction fl as [|i fl IH]; intros first Hb; [done|]. intros [-> (n & Hn & Hc)]. split; [done|].
  exists n. split; [rewrite Hb; [done|set_solver]|]. apply IH; [|done]. intros j Hj. apply Hb. set_solver.
Qed.

Record same_slab s s' a g : Prop := {
  ss_slab : slabs s' !! a = slabs s !! a;
  ss_bufctl i : bufctl s' !! (a, i) = bufctl s !! (a, i);
  ss_pages q : in_range q (slab_pages g) →
    page_cache s' !! q = page_cache s !! q ∧ page_slab s' !! q = page_slab s !! q ∧ pages (pm s') !! q = pages (pm s) !! q;
}.

Lemma slab_ok_frame s s' a g : same_slab s s' a g → slab_ok s a g → slab_ok s' a g.
Proof.
  intros [Hs Hb Hp] [Hc (first & Hf & Hch) Hfr Hpg]. constructor; [done| |done|].
  - exists first. rewrite Hs. split; [done|]. apply (chain_frame (bufctl s)); [intros; apply Hb|done].
  - intros q Hq. destruct (Hp q Hq) as (-> & -> & ->). by apply Hpg.
Qed.

(** ** Slabs as a map *)

Lemma ranges_insert G a g : G !! a = None → ranges (<[a := g]> G) ≡ₚ slab_pages g :: ranges G.
Proof. intros Ha. unfold ranges. by rewrite map_to_list_insert. Qed.
Lemma ranges_delete G a g : G !! a = Some g → ranges G ≡ₚ slab_pages g :: ranges (delete a G).
Proof. intros Ha. rewrite <-(ranges_insert _ a) by apply lookup_delete_eq. by rewrite insert_delete_id. Qed.
Lemma ranges_set G a g g' : G !! a = Some g → slab_pages g' = slab_pages g → ranges (<[a := g']> G) ≡ₚ ranges G.
Proof.
  intros Ha Hp. rewrite (ranges_delete G a g Ha), <-Hp, <-insert_delete_eq. apply ranges_insert, lookup_delete_eq.
Qed.

(** ** Pages *)

(** Pages of others come and go. *)
Lemma base_pm s p' G R R' :
  heap_base s G R → (∃ B, pool_inv p' B (ranges G ++ R')) → held_kept (ranges G) (pm s) p' →
  heap_base (s <| pm := p' |>) G R'.
Proof.
  intros Hi HB [Hn Hk]. pose proof Hi as [_ Hnp Hc Hl Hs]. constructor; [done|by rewrite <-Hn in Hnp|done|done|].
  intros a g Hg. apply (slab_ok_frame s); [|by apply Hs]. constructor; [done|done|]. intros q Hq. split_and!; [done|done|].
  apply Hk. exists (slab_pages g). split; [by apply (ranges_elem a)|done].
Qed.

Lemma held_kept_app H H' p p' : held_kept (H ++ H') p p' → held_kept H p p'.
Proof. intros [Hn Hk]. split; [done|]. intros q (r & Hr & Hq). apply Hk. exists r. set_solver. Qed.

Lemma heap_alloc_pages ex s G O R n :
  heap_inv ex s G O R → 0 < n ≤ 1024 →
  (∃ p p', alloc_pages n (pm s) = Ok (Some p, p') ∧ heap_inv ex (s <| pm := p' |>) G O ((p, n) :: R)) ∨
  alloc_pages n (pm s) = Ok (None, pm s).
Proof.
  intros [Hb Ho] Hn. pose proof (hi_pool _ _ _ Hb) as [B HB].
  destruct (pool_alloc _ _ _ _ HB Hn) as [(p & p' & B' & E & Hp & Hk & _)|[E _]]; [left|by right].
  exists p, p'. split; [done|]. split; [|done]. apply (base_pm s _ G R); [done| |by eapply held_kept_app].
  exists B'. by rewrite <-Permutation_middle.
Qed.

Lemma heap_free_pages ex s G O R1 p n R2 :
  heap_inv ex s G O (R1 ++ (p, n) :: R2) →
  ∃ p', free_pages p n (pm s) = Ok (tt, p') ∧ heap_inv ex (s <| pm := p' |>) G O (R1 ++ R2).
Proof.
  intros [Hb Ho]. pose proof (hi_pool _ _ _ Hb) as [B HB]. rewrite app_assoc in HB.
  destruct (pool_free _ _ _ _ _ _ HB) as (p' & B' & E & Hp & Hk). exists p'. split; [done|]. split; [|done].
  rewrite <-app_assoc in Hp, Hk. apply (base_pm s _ G (R1 ++ (p, n) :: R2)); [done|by exists B'|by eapply held_kept_app].
Qed.

(** ** Objects *)

Lemma lay_free g fl : lay (g <| si_free := fl |>) = lay g.
Proof. done. Qed.
Lemma obj_free g fl i : obj (g <| si_free := fl |>) i = obj g i.
Proof. done. Qed.

Section objects.
Context {s : heap} {G : gmap Z sinfo} {R : list (Z * Z)}.
Hypothesis Hb : heap_base s G R.

(** Changing the free list of a slab changes no object of the others. *)
Lemma with_control_set a g fl x :
  G !! a = Some g → with_control (<[a := g <| si_free := fl |>]> G) x ↔ with_control G x.
Proof.
  intros Ha. unfold with_control. destruct (decide (x = a)) as [->|Hne]; [|by rewrite lookup_insert_ne].
  rewrite lookup_insert_eq, Ha. split; intros (h & [= <-] & Hh); eauto.
Qed.

(** A control block outside its pages is an object of its own cache. *)
Lemma control_object b h c' : G !! b = Some h → slab_cachep (lay h) = Some c' → with_control G b ∧ 0 ≤ c' < 2.
Proof.
  intros Hh E. pose proof (lk_control _ _ (slab_layout Hb _ _ Hh)) as Hlk. rewrite E in Hlk.
  destruct Hlk as (Ho & Hc & _). split; [by exists h|done].
Qed.

Lemma control_set a g fl b h :
  G !! a = Some g → G !! b = Some h → control_ok G b h →
  (∀ i, with_control G b → allocated g i → b = obj g i → allocated (g <| si_free := fl |>) i) →
  control_ok (<[a := g <| si_free := fl |>]> G) b h.
Proof.
  intros Ha Hbh Hc Hal. unfold control_ok in *. destruct (slab_cachep (lay h)) as [c'|] eqn:Ec; [|done].
  destruct (control_object _ _ _ Hbh Ec) as [Hwc _].
  destruct Hc as (b' & h' & i & Hh' & Hc' & Hi & ->). destruct (decide (b' = a)) as [->|Hne].
  - simplify_eq. exists a, (g <| si_free := fl |>), i. rewrite lookup_insert_eq. split_and!; try done. by apply Hal.
  - exists b', h', i. by rewrite lookup_insert_ne.
Qed.

(** The first free object of [a] is taken. *)
Lemma objects_alloc ex O a g i fl :
  objects_ok ex G O → G !! a = Some g → si_free g = i :: fl → ex = None ∨ ex = Some a →
  object g i → i ∉ fl → Z.of_nat (length (i :: fl)) ≤ num (lay g) →
  O !! obj g i = None ∧
  objects_ok None (<[a := g <| si_free := fl |>]> G) (<[obj g i := objsize (lay g)]> O).
Proof.
  intros [Hu Hc Hl Hbl Hw] Ha Hfl Hex Hi Hni Hlen. set (g' := g <| si_free := fl |>).
  assert (Hai : ¬ allocated g i) by (intros [_ Hn]; apply Hn; rewrite Hfl; set_solver).
  assert (Hno : ∀ b h j, G !! b = Some h → allocated h j → obj h j ≠ obj g i).
  { intros b h j Hh [Hj Hnj] E. destruct (obj_inj Hb b h j a g i Hh Hj Ha Hi E) as (-> & -> & ->). by apply Hai. }
  assert (HO : O !! obj g i = None).
  { destruct (O !! obj g i) as [n|] eqn:E; [|done]. destruct (Hl _ _ E) as (b & h & j & Hh & Hj & Ej & _).
    by destruct (Hno b h j Hh Hj). }
  assert (Hallo : ∀ j, allocated g j → allocated g' j).
  { intros j [Hj Hnj]. split; [done|]. rewrite Hfl in Hnj. simpl. set_solver. }
  split; [done|]. constructor.
  - intros b h Hh _. destruct (decide (b = a)) as [->|Hne].
    + rewrite lookup_insert_eq in Hh. injection Hh as <-. change (Z.of_nat (length fl) < num (lay g)). simpl length in Hlen. lia.
    + rewrite lookup_insert_ne in Hh by done. apply (Hu b); [done|]. destruct Hex as [-> | ->]; congruence.
  - intros b h Hh. destruct (decide (b = a)) as [->|Hne].
    + rewrite lookup_insert_eq in Hh. injection Hh as <-. apply (control_set a g fl a g); [done|done|by apply (Hc a g)|auto].
    + rewrite lookup_insert_ne in Hh by done. apply control_set; [done|done|by apply Hc|auto].
  - intros x n Hx. destruct (decide (x = obj g i)) as [->|Hne].
    + rewrite lookup_insert_eq in Hx. simplify_eq. exists a, g', i. rewrite lookup_insert_eq. split_and!; try done.
    + rewrite lookup_insert_ne in Hx by done. destruct (Hl _ _ Hx) as (b & h & j & Hh & Hj & -> & ->).
      destruct (decide (b = a)) as [->|Hba].
      * simplify_eq. exists a, g', j. rewrite lookup_insert_eq. split_and!; try done. by apply Hallo.
      * exists b, h, j. by rewrite lookup_insert_ne.
  - intros b h j Hh Hj. unfold g'; rewrite with_control_set by done; fold g'.
    destruct (decide (b = a)) as [->|Hba].
    + rewrite lookup_insert_eq in Hh. injection Hh as <-. destruct (decide (j = i)) as [->|Hji].
      * left. change (obj g' i) with (obj g i). by rewrite lookup_insert_eq.
      * destruct Hj as [Hj Hnj]. assert (allocated g j) as Hgj by (split; [done|rewrite Hfl; simpl in Hnj; set_solver]).
        change (obj g' j) with (obj g j). destruct (Hbl a g j Ha Hgj) as [?|?]; [left|by right].
        by rewrite lookup_insert_ne by (by apply not_eq_sym, (Hno a)).
    + rewrite lookup_insert_ne in Hh by done. destruct (Hbl b h j Hh Hj) as [?|?]; [left|by right].
      by rewrite lookup_insert_ne by (by apply not_eq_sym, (Hno b)).
  - intros x. unfold g'; rewrite with_control_set by done; fold g'. intros Hx. rewrite lookup_insert_ne; [by apply Hw|].
    intros <-. destruct Hx as (h & Hh & Hoff). pose proof (Hc _ _ Hh) as Hco. unfold control_ok in Hco.
    pose proof (lk_control _ _ (slab_layout Hb _ _ Hh)) as Hlk. destruct (slab_cachep (lay h)) as [c'|].
    + destruct Hco as (b' & h' & j & Hh' & _ & Hj & E). by apply (Hno b' h' j).
    + destruct Hlk. congruence.
Qed.

(** A live object of [a] is given back, and others of the slab are in use. *)
Lemma objects_free O a g i :
  objects_ok None G O → G !! a = Some g → allocated g i → is_Some (O !! obj g i) →
  Z.of_nat (length (i :: si_free g)) < num (lay g) →
  objects_ok None (<[a := g <| si_free := i :: si_free g |>]> G) (delete (obj g i) O).
Proof.
  intros [Hu Hc Hl Hbl Hw] Ha Hi Hli Hlen. set (g' := g <| si_free := i :: si_free g |>).
  assert (Hno : ¬ with_control G (obj g i)) by (intros Hx%Hw; rewrite Hx in Hli; by destruct Hli).
  assert (Hallo : ∀ j, allocated g' j ↔ allocated g j ∧ j ≠ i).
  { intros j. unfold allocated, object. simpl. change (lay g') with (lay g). set_solver. }
  assert (Hcs : ∀ b h, G !! b = Some h → control_ok (<[a := g']> G) b h).
  { intros b h Hh. apply control_set; [done|done|by apply Hc|]. intros j Hwc Hj E. apply Hallo. split; [done|].
    intros ->. apply Hno. by rewrite <-E. }
  constructor.
  - intros b h Hh _. destruct (decide (b = a)) as [->|Hne].
    + rewrite lookup_insert_eq in Hh. by injection Hh as <-.
    + rewrite lookup_insert_ne in Hh by done. by apply (Hu b).
  - intros b h Hh. destruct (decide (b = a)) as [->|Hne].
    + rewrite lookup_insert_eq in Hh. injection Hh as <-. by apply (Hcs a g).
    + rewrite lookup_insert_ne in Hh by done. by apply Hcs.
  - intros x n (Hne & Hx)%lookup_delete_Some. destruct (Hl _ _ Hx) as (b & h & j & Hh & Hj & -> & ->).
    destruct (decide (b = a)) as [->|Hba].
    + simplify_eq. exists a, g', j. rewrite lookup_insert_eq. split_and!; try done. apply Hallo. split; [done|]. by intros ->.
    + exists b, h, j. by rewrite lookup_insert_ne.
  - intros b h j Hh Hj. unfold g'; rewrite with_control_set by done; fold g'. destruct (decide (b = a)) as [->|Hba].
    + rewrite lookup_insert_eq in Hh. injection Hh as <-. apply Hallo in Hj as [Hj Hji]. change (obj g' j) with (obj g j).
      destruct (Hbl a g j Ha Hj) as [?|?]; [left|by right]. rewrite lookup_delete_ne; [done|].
      intros E. destruct Hj, Hi. by destruct (obj_inj Hb a g i a g j) as (_ & _ & ->).
    + rewrite lookup_insert_ne in Hh by done. destruct (Hbl b h j Hh Hj) as [?|?]; [left|by right]. rewrite lookup_delete_ne; [done|].
      intros E. destruct Hj, Hi. by destruct (obj_inj Hb a g i b h j) as (-> & _ & _).
  - intros x. unfold g'; rewrite with_control_set by done; fold g'. intros Hx%Hw. apply lookup_delete_None. by right.
Qed.

(** The last live object of [a] goes, and the slab with it; its control block,
    if it is an object, is live again. *)
Definition control_back a g O : gmap Z Z :=
  match slab_cachep (lay g) with Some c' => <[a := objsize (layout c')]> O | None => O end.

Lemma objects_destroy O a g i :
  objects_ok None G O → G !! a = Some g → (∀ j, allocated g j ↔ j = i) → is_Some (O !! obj g i) →
  objects_ok None (delete a G) (control_back a g (delete (obj g i) O)).
Proof.
  intros [Hu Hc Hl Hbl Hw] Ha Hall Hli. pose proof (proj2 (Hall i) eq_refl) as [Hi _].
  assert (Hno : ¬ with_control G (obj g i)) by (intros Hx%Hw; rewrite Hx in Hli; by destruct Hli).
  assert (Hnoa : ∀ b h j, G !! b = Some h → b ≠ a → allocated h j → obj h j ≠ obj g i).
  { intros b h j Hh Hne [Hj _] E. by destruct (obj_inj Hb b h j a g i Hh Hj Ha Hi E) as (-> & _). }
  assert (Hwc : ∀ x, with_control (delete a G) x ↔ with_control G x ∧ x ≠ a).
  { intros x. unfold with_control. split; [intros (h & [? ?]%lookup_delete_Some & ?); split; [by exists h|done]|].
    intros [(h & Hh & ?) Hne]. exists h. by rewrite lookup_delete_ne. }
  assert (HOa : with_control G a → delete (obj g i) O !! a = None).
  { intros Hx%Hw. apply lookup_delete_None. by right. }
  pose proof (Hc _ _ Ha) as Hca. pose proof (lk_control _ _ (slab_layout Hb _ _ Ha)) as Hlk.
  unfold control_back, control_ok in *.
  assert (Hnc : ∀ b h j, G !! b = Some h → b ≠ a → allocated h j → obj h j ≠ a → is_Some (delete (obj g i) O !! obj h j) ∨ with_control (delete a G) (obj h j)).
  { intros b h j Hh Hne Hj Hja. destruct (Hbl b h j Hh Hj) as [?|?]; [left|right; by apply Hwc].
    rewrite lookup_delete_ne; [done|]. by apply not_eq_sym, (Hnoa b). }
  assert (Hlive : ∀ x n, delete (obj g i) O !! x = Some n → ∃ b h j, delete a G !! b = Some h ∧ allocated h j ∧ x = obj h j ∧ n = objsize (lay h)).
  { intros x n (Hne & Hx)%lookup_delete_Some. destruct (Hl _ _ Hx) as (b & h & j & Hh & Hj & -> & ->).
    exists b, h, j. rewrite lookup_delete_ne; [done|]. intros <-. simplify_eq. apply Hall in Hj as ->. done. }
  constructor.
  - intros b h (Hne & Hh)%lookup_delete_Some _. by apply (Hu b).
  - intros b h (Hne & Hh)%lookup_delete_Some. pose proof (Hc _ _ Hh) as Hch. unfold control_ok in *.
    destruct (slab_cachep (lay h)) as [c'|] eqn:Ec; [|done]. destruct Hch as (b' & h' & j & Hh' & ? & Hj & ->).
    exists b', h', j. rewrite lookup_delete_ne; [done|]. intros <-. simplify_eq. apply Hall in Hj as ->.
    apply Hno. by eapply (control_object _ h).
  - intros x n. destruct (slab_cachep (lay g)) as [c'|]; [|apply Hlive]. intros [[<- <-]|[Hne Hx]]%lookup_insert_Some; [|by apply Hlive].
    assert (with_control G a) as Hwa by (exists g; split; [done|by destruct Hlk]).
    destruct Hca as (b & h & j & Hh & Ech & Hj & Ea). exists b, h, j. unfold lay. rewrite Ech. rewrite lookup_delete_ne; [done|].
    intros <-. assert (h = g) as -> by congruence. apply Hall in Hj as ->. apply Hno. by rewrite <-Ea.
  - intros b h j (Hne & Hh)%lookup_delete_Some Hj. destruct (decide (obj h j = a)) as [E|Hja].
    + rewrite E. destruct (slab_cachep (lay g)) as [c'|]; [left; by rewrite lookup_insert_eq|]. exfalso. destruct Hlk as [Hoff _].
      destruct Hj as [Hj _]. pose proof (objsize_pos Hb _ _ Hh). destruct (obj_byte Hb b h j 0 Hh Hj ltac:(lia)) as [Hq _].
      rewrite Z.add_0_r, E in Hq. destruct (kva_page Hb a g Ha Hca) as [Hqa _]. by destruct (slab_page_unique Hb b h a g _ Hh Ha Hq Hqa) as [-> _].
    + destruct (Hnc b h j Hh (not_eq_sym Hne) Hj Hja) as [Hs|?]; [left|by right].
      destruct (slab_cachep (lay g)); [by rewrite lookup_insert_ne|done].
  - intros x [Hx Hne]%Hwc. destruct (slab_cachep (lay g)); [rewrite lookup_insert_ne by done|]; apply lookup_delete_None; right; by apply Hw.
Qed.

(** A new slab without objects in use; its control block, if it is an object,
    is no longer live. *)
Lemma objects_new O a g :
  objects_ok None G O → G !! a = None → (∀ j, ¬ allocated g j) → layout_ok (si_cache g) (lay g) →
  match slab_cachep (lay g) with
  | Some c' => ∃ b h j, G !! b = Some h ∧ si_cache h = c' ∧ allocated h j ∧ a = obj h j
  | None => a = kva (si_page g)
  end →
  objects_ok (Some a) (<[a := g]> G) (match slab_cachep (lay g) with Some _ => delete a O | None => O end).
Proof.
  intros [Hu Hc Hl Hbl Hw] Ha Hnone Hk Hctl.
  assert (Hlk : off_slab (lay g) = bool_decide (is_Some (slab_cachep (lay g)))).
  { pose proof (lk_control _ _ Hk) as Hlk. by destruct (slab_cachep (lay g)), Hlk. }
  assert (Hwc : ∀ x, with_control (<[a := g]> G) x ↔ with_control G x ∨ x = a ∧ is_Some (slab_cachep (lay g))).
  { intros x. unfold with_control. split.
    - intros (h & [[<- <-]|[? Hh]]%lookup_insert_Some & Ho); [right|left; by exists h]. split; [done|].
      by rewrite Hlk, bool_decide_eq_true in Ho.
    - intros [(h & Hh & Ho)|[-> Hs]]; [exists h; rewrite lookup_insert_ne; [done|congruence]|]. exists g.
      rewrite lookup_insert_eq, Hlk. split; [done|]. by apply bool_decide_eq_true. }
  assert (Hlift : ∀ b h, G !! b = Some h → <[a := g]> G !! b = Some h).
  { intros b h Hh. rewrite lookup_insert_ne; [done|congruence]. }
  constructor.
  - intros b h [[<- <-]|[? Hh]]%lookup_insert_Some Hex; [done|]. by apply (Hu b).
  - intros b h [[<- <-]|[? Hh]]%lookup_insert_Some.
    + unfold control_ok. destruct (slab_cachep (lay g)) as [c'|]; [|done].
      destruct Hctl as (b & h & j & Hh & ? & ? & ?). exists b, h, j. by rewrite (Hlift b h).
    + pose proof (Hc _ _ Hh) as Hco. unfold control_ok in *. destruct (slab_cachep (lay h)) as [c'|]; [|done].
      destruct Hco as (b' & h' & j & Hh' & ? & ? & ?). exists b', h', j. by rewrite (Hlift b' h').
  - intros x n Hx. assert (O !! x = Some n) as Hx'.
    { destruct (slab_cachep (lay g)); [|done]. by apply lookup_delete_Some in Hx as [_ Hx]. }
    destruct (Hl _ _ Hx') as (b & h & j & Hh & ? & ? & ?). exists b, h, j. by rewrite (Hlift b h).
  - intros b h j [[<- <-]|[? Hh]]%lookup_insert_Some Hj; [by destruct (Hnone j)|]. rewrite Hwc.
    destruct (Hbl b h j Hh Hj) as [Hs|?]; [|by right; left].
    destruct (slab_cachep (lay g)) as [c'|]; [|by left].
    destruct (decide (obj h j = a)) as [->|Hne]; [right; right; eauto|left]. by rewrite lookup_delete_ne.
  - intros x [Hx|[-> [c' ->]]]%Hwc; [|apply lookup_delete_eq]. apply Hw in Hx.
    destruct (slab_cachep (lay g)); [apply lookup_delete_None; by right|done].
Qed.
End objects.

(** ** Steps of the code *)

Lemma on_pm_ok {A} (m : M pmm A) s r p' : m (pm s) = Ok (r, p') → on_pm m s = Ok (r, s <| pm := p' |>).
Proof. intros E. unfold on_pm. by rewrite E. Qed.
Lemma on_slinks_ok {A} (m : M (gmap slink (list_entry slink)) A) s r w' :
  m (slinks s) = Ok (r, w') → on_slinks m s = Ok (r, s <| slinks := w' |>).
Proof. intros E. unfold on_slinks. by rewrite E. Qed.
Lemma get_slab_ok s a d : slabs s !! a = Some d → get_slab a s = Ok (d, s).
Proof. intros E. unfold get_slab, deref. by rewrite E. Qed.
Lemma set_slab_ok s a d f : slabs s !! a = Some d → set_slab a f s = Ok (tt, s <| slabs := <[a := f d]> (slabs s) |>).
Proof. intros E. unfold set_slab. by rewrite (bind_ok _ _ _ _ _ (get_slab_ok _ _ _ E)). Qed.
Lemma get_cache_ok s G R c : heap_base s G R → 0 ≤ c < 13 → get_cache c s = Ok (layout c, s).
Proof. intros Hb Hc. unfold get_cache, deref. by rewrite (hi_cache _ _ _ Hb). Qed.
Lemma heap_slinks_id s : s <| slinks := slinks s |> = s.
Proof. by destruct s. Qed.

(** A slab whose free list changes. *)
Lemma base_set s s' G R a g g' :
  heap_base s G R → G !! a = Some g → si_cache g' = si_cache g → si_page g' = si_page g →
  pm s' = pm s → slab_cache s' = slab_cache s → page_cache s' = page_cache s → page_slab s' = page_slab s →
  (∀ b, b ≠ a → slabs s' !! b = slabs s !! b) → (∀ b i, b ≠ a → bufctl s' !! (b, i) = bufctl s !! (b, i)) →
  slab_lists (slinks s') (<[a := g']> G) →
  (∃ first, slabs s' !! a = Some (mk_slab (obj g 0) (num (lay g) - Z.of_nat (length (si_free g'))) (obj_offset (lay g)) first) ∧
    chain (bufctl s') a first (si_free g')) →
  NoDup (si_free g') ∧ (∀ i, i ∈ si_free g' → object g i) →
  heap_base s' (<[a := g']> G) R.
Proof.
  intros [Hp Hn Hc Hl Hs] Ha Ec Epg Ep Esc Epc Eps Hsl Hbc Hl' Hslab Hfree.
  assert (El : lay g' = lay g) by (unfold lay; by rewrite Ec).
  assert (Eo : ∀ i, obj g' i = obj g i) by (intros i; unfold obj; by rewrite El, Epg).
  assert (Esp : slab_pages g' = slab_pages g) by (unfold slab_pages; by rewrite El, Epg).
  constructor; rewrite ?Ep, ?Esc; [|done|done|done|].
  - destruct Hp as [B HB]. exists B. by rewrite (ranges_set G a g g').
  - intros b h [[<- <-]|[Hne Hh]]%lookup_insert_Some.
    + destruct (Hs a g Ha) as [? _ _ Hpg]. constructor; [by rewrite Ec|by rewrite El, Eo| |].
      * unfold object in *. by rewrite El.
      * rewrite Esp, Ep, Epc, Eps, Ec. done.
    + apply (slab_ok_frame s); [|by apply Hs]. constructor; [by apply Hsl|intros i; by apply Hbc|].
      intros q _. by rewrite Ep, Epc, Eps.
Qed.

(** Moving a slab to the ring where it now belongs. *)
Lemma lists_move w G a g g' :
  slab_lists w G → G !! a = Some g → si_cache g' = si_cache g → 0 ≤ si_cache g < 13 →
  ∃ w1 w', list_del (slab_link a) w = Ok (tt, w1) ∧
    list_add (ring_head (si_cache g) (slab_is_full g')) (slab_link a) w1 = Ok (tt, w') ∧ slab_lists w' (<[a := g']> G).
Proof.
  intros Hl Ha Ec Hc. destruct (lists_del w G a g Hl Ha Hc) as (w1 & E1 & Hl1).
  destruct (lists_add w1 (delete a G) a g' Hl1 (lookup_delete_eq _ _)) as (w' & E2 & Hl' & _); [by rewrite Ec|].
  rewrite Ec in E2. rewrite insert_delete_eq in Hl'. by exists w1, w'.
Qed.

Lemma obj_u32 s G R a g i : heap_base s G R → G !! a = Some g → object g i → u32 (obj g 0 + u32 (i * objsize (lay g))) = obj g i.
Proof.
  intros Hb Ha Hi. pose proof (objsize_pos Hb _ _ Ha). destruct (obj_byte Hb a g i 0 Ha Hi ltac:(lia)) as [_ Hr].
  unfold object in Hi. pose proof (lk_num _ _ (slab_layout Hb _ _ Ha)).
  rewrite (u32_id (i * _)) by (split; [nia|]; change (2 ^ 32) with 4294967296; change (2 ^ 17) with 131072 in *; nia).
  replace (obj g 0 + i * objsize (lay g)) with (obj g i) by (unfold obj; lia).
  apply u32_id. unfold KERNTOP, KMEMSIZE, KERNBASE in Hr. lia.
Qed.

Lemma alloc_one_ok ex s G O R a g i fl :
  heap_inv ex s G O R → G !! a = Some g → si_free g = i :: fl → ex = None ∨ ex = Some a →
  ∃ s', kmem_cache_alloc_one (si_cache g) a s = Ok (obj g i, s') ∧ O !! obj g i = None ∧
    heap_inv None s' (<[a := g <| si_free := fl |>]> G) (<[obj g i := objsize (lay g)]> O) R.
Proof.
  intros [Hb Ho] Ha Hfl Hex. pose proof (hi_slab _ _ _ Hb a g Ha) as [Hc Hsl Hfree Hpg].
  destruct Hsl as (first & Hs & Hch). rewrite Hfl in Hch, Hfree. destruct Hch as [-> (n & Hn & Hch)].
  destruct Hfree as [[Hni Hnd]%NoDup_cons Hobj]. pose proof (Hobj i ltac:(set_solver)) as Hi.
  pose proof (slab_layout Hb _ _ Ha) as Hk. pose proof (lk_num _ _ Hk).
  assert (Hlen : Z.of_nat (length (i :: fl)) ≤ num (lay g)).
  { transitivity (Z.of_nat (length (seqZ 0 (num (lay g))))); [|rewrite length_seqZ; lia]. apply inj_le.
    apply submseteq_length, NoDup_submseteq; [by constructor|]. intros j Hj. apply elem_of_seqZ. specialize (Hobj j Hj). unfold object in Hobj. lia. }
  destruct (objects_alloc Hb ex O a g i fl Ho Ha Hfl Hex Hi Hni Hlen) as [HO Ho']. simpl length in Hlen. rewrite Hfl in Hs. simpl length in Hs.
  set (d' := mk_slab (obj g 0) (num (lay g) - Z.of_nat (length fl)) (obj_offset (lay g)) n).
  set (s1 := s <| slabs := <[a := d']> (slabs s) |>). set (g' := g <| si_free := fl |>).
  assert (Hfn : (n =? BUFCTL_END) = slab_is_full g').
  { unfold slab_is_full. simpl. destruct fl as [|j fl]; simpl in Hch; [by subst n|]. destruct Hch as [-> _].
    specialize (Hobj j ltac:(set_solver)). unfold object in Hobj. apply Z.eqb_neq. unfold BUFCTL_END. lia. }
  assert (Hm : ∃ w', (∀ s2, slinks s2 = slinks s → when (n =? BUFCTL_END)
      (_ ← on_slinks (list_del (slab_link a)); on_slinks (list_add (slabs_full (si_cache g)) (slab_link a))) s2 = Ok (tt, s2 <| slinks := w' |>)) ∧
      slab_lists w' (<[a := g']> G)).
  { rewrite Hfn. destruct (slab_is_full g') eqn:Ef.
    - destruct (lists_move (slinks s) G a g g' (hi_lists _ _ _ Hb) Ha eq_refl Hc) as (w1 & w' & E1 & E2 & Hl'). rewrite Ef in E2.
      exists w'. split; [|done]. intros s2 Es2. simpl when. rewrite <-Es2 in E1. rewrite (bind_ok _ _ _ _ _ (on_slinks_ok _ _ _ _ E1)).
      exact (on_slinks_ok _ (s2 <| slinks := w1 |>) _ _ E2).
    - exists (slinks s). split; [intros s2 <-; by rewrite heap_slinks_id|].
      apply (lists_set _ _ _ g); [apply Hb|done|done|]. rewrite Ef. unfold slab_is_full. by rewrite Hfl. }
  destruct Hm as (w' & Hw & Hl'). exists (s1 <| slinks := w' |>). split; [|split; [done|split; [|done]]].
  - unfold kmem_cache_alloc_one. rewrite (bind_ok _ _ _ _ _ (get_cache_ok _ _ _ _ Hb Hc)). fold (lay g).
    rewrite (bind_ok _ _ _ _ _ (set_slab_ok _ _ _ _ Hs)). cbv beta.
    match goal with |- context [<[a := ?d]> (slabs s)] => set (d1 := d) end.
    assert (d1 = mk_slab (obj g 0) (num (lay g) - Z.of_nat (length fl)) (obj_offset (lay g)) i) as ->.
    { unfold d1. cbn. f_equal. rewrite u32_id by lia. lia. }
    set (s0 := s <| slabs := _ |>). erewrite (bind_ok (get_slab a)); [|apply (get_slab_ok s0), lookup_insert_eq]. cbv zeta.
    simpl s_mem. simpl free. rewrite (obj_u32 _ _ _ _ _ _ Hb Ha Hi).
    rewrite (bind_ok _ _ s0 n s0) by (unfold deref; change (bufctl s0) with (bufctl s); by rewrite Hn).
    erewrite (bind_ok (set_slab a _)); [|apply (set_slab_ok s0), lookup_insert_eq]. cbv beta.
    replace (s0 <| slabs := _ |>) with s1; [|unfold s1, s0, d'; cbn; by rewrite insert_insert_eq].
    by rewrite (bind_ok _ _ _ _ _ (Hw s1 eq_refl)).
  - apply (base_set s _ _ _ a g); try done.
    + intros b Hne. simpl. by apply lookup_insert_ne.
    + exists n. simpl. rewrite lookup_insert_eq. done.
    + split; [done|]. intros j Hj. apply Hobj. simpl in Hj. set_solver.
Qed.

(** ** The flags of pages *)

Lemma heap_set_page_ok p q v f : pages p !! q = Some v → set_page q f p = Ok (tt, p <| pages := <[q := f v]> (pages p) |>).
Proof. intros E. unfold set_page. rewrite (bind_ok _ _ p v p); [done|]. unfold get_page, deref. by rewrite E. Qed.

Lemma set_slab_flag v : Z.testbit (flags (SetPageSlab v)) PG_slab = true.
Proof. change (Z.testbit (Z.setbit (flags v) 2) 2 = true). by apply Z.setbit_eq. Qed.

Lemma pool_set_slab p B H q v :
  pool_inv p B H → held_by H q → pages p !! q = Some v → pool_inv (p <| pages := <[q := SetPageSlab v]> (pages p) |>) B H.
Proof.
  intros HB Hq Hv. apply (pool_flag _ _ _ _ (Z.setbit (flags v) 2)); [done..| |].
  - change (Z.testbit (Z.setbit (flags v) 2) 0 = Z.testbit (flags v) 0). by apply Z.setbit_neq.
  - change (Z.testbit (Z.setbit (flags v) 2) 1 = Z.testbit (flags v) 1). by apply Z.setbit_neq.
Qed.
Lemma pool_clear_slab p B H q v :
  pool_inv p B H → held_by H q → pages p !! q = Some v → pool_inv (p <| pages := <[q := ClearPageSlab v]> (pages p) |>) B H.
Proof.
  intros HB Hq Hv. apply (pool_flag _ _ _ _ (Z.clearbit (flags v) 2)); [done..| |].
  - change (Z.testbit (Z.clearbit (flags v) 2) 0 = Z.testbit (flags v) 0). by apply Z.clearbit_neq.
  - change (Z.testbit (Z.clearbit (flags v) 2) 1 = Z.testbit (flags v) 1). by apply Z.clearbit_neq.
Qed.

(** The pages outside the range [r] are those of [p]. *)
Definition outside (r : Z * Z) (p p' : pmm) : Prop :=
  npage p' = npage p ∧ ∀ q, ¬ in_range q r → pages p' !! q = pages p !! q.

Lemma clear_loop (n fuel : nat) q s B H :
  pool_inv (pm s) B H → (∀ x, in_range x (q, Z.of_nat (S n)) → held_by H x ∧ ∃ v, pages (pm s) !! x = Some v ∧ PageSlab v = true) →
  (n < fuel)%nat →
  ∃ p', loop fuel clear_slab_body (q, Z.of_nat (S n)) s = Ok (tt, s <| pm := p' |>) ∧ pool_inv p' B H ∧
    outside (q, Z.of_nat (S n)) (pm s) p'.
Proof.
  revert fuel q s. induction n as [|n IH]; intros [|fuel] q s HB Hr Hf; try lia;
    (destruct (Hr q) as [Hq (v & Hv & Hsl)]; [unfold in_range; simpl; lia|]);
    set (p1 := pm s <| pages := <[q := ClearPageSlab v]> (pages (pm s)) |>);
    pose proof (pool_clear_slab _ _ _ _ _ HB Hq Hv) as HB1; fold p1 in HB1;
    assert (Eb : ∀ m, clear_slab_body (q, m) s = Ok (if negb (m - 1 =? 0) then inl (q + 1, m - 1) else inr tt, s <| pm := p1 |>))
      by (intros m; unfold clear_slab_body;
          rewrite (bind_ok _ _ s v s) by (unfold on_pm, get_page, deref; rewrite Hv; by destruct s);
          rewrite Hsl, (bind_ok _ _ s tt s) by done;
          rewrite (bind_ok _ _ _ _ _ (on_pm_ok _ _ _ _ (heap_set_page_ok _ _ _ _ Hv))); by destruct (negb _)).
  - exists p1. split; [by apply loop_stop; rewrite Eb|]. split; [done|]. split; [done|]. intros x Hx. simpl.
    apply lookup_insert_ne. intros <-. apply Hx. unfold in_range. simpl. lia.
  - destruct (IH fuel (q + 1) (s <| pm := p1 |>)) as (p' & E & HB' & Hn & Ho); [done| |lia|].
    { intros x Hx. destruct (Hr x) as [? Hv']; [unfold in_range in *; simpl in *; lia|]. split; [done|].
      simpl. rewrite lookup_insert_ne; [done|]. unfold in_range in Hx. simpl in Hx. lia. }
    exists p'. split; [|split; [done|]].
    + rewrite (loop_next _ _ _ _ (q + 1, Z.of_nat (S n)) (s <| pm := p1 |>)); [exact E|]. rewrite Eb.
      replace (Z.of_nat (S (S n)) - 1) with (Z.of_nat (S n)) by lia. by rewrite (proj2 (Z.eqb_neq _ _)) by lia.
    + split; [by rewrite Hn|]. intros x Hx. rewrite Ho.
      * simpl. apply lookup_insert_ne. intros <-. apply Hx. unfold in_range. simpl. lia.
      * unfold in_range in *. simpl in *. lia.
Qed.

Lemma owner_loop (n fuel : nat) c a q s B H :
  pool_inv (pm s) B H → (∀ x, in_range x (q, Z.of_nat (S n)) → held_by H x) → (n < fuel)%nat →
  ∃ p' pc ps, loop fuel (page_owner_body c a) (q, Z.of_nat (S n)) s =
      Ok (tt, s <| pm := p' |> <| page_cache := pc |> <| page_slab := ps |>) ∧
    pool_inv p' B H ∧ outside (q, Z.of_nat (S n)) (pm s) p' ∧
    (∀ x, ¬ in_range x (q, Z.of_nat (S n)) → pc !! x = page_cache s !! x ∧ ps !! x = page_slab s !! x) ∧
    (∀ x, in_range x (q, Z.of_nat (S n)) → pc !! x = Some c ∧ ps !! x = Some a ∧
       ∃ v, pages p' !! x = Some v ∧ PageSlab v = true).
Proof.
  revert fuel q s. induction n as [|n IH]; intros [|fuel] q s HB Hr Hf; try lia;
    (assert (held_by H q) as Hq by (apply Hr; unfold in_range; simpl; lia));
    (assert (∃ v, pages (pm s) !! q = Some v) as [v Hv] by
      (destruct Hq as ([y m] & Hin & Hq); destruct (pi_held _ _ _ HB _ _ Hin) as [_ Hh];
       destruct (holds_managed _ _ _ _ _ Hh Hq) as (v & ? & _); by exists v));
    set (p1 := pm s <| pages := <[q := SetPageSlab v]> (pages (pm s)) |>);
    pose proof (pool_set_slab _ _ _ _ _ HB Hq Hv) as HB1; fold p1 in HB1;
    set (s1 := s <| page_cache := <[q := c]> (page_cache s) |> <| page_slab := <[q := a]> (page_slab s) |> <| pm := p1 |>);
    assert (Eb : ∀ m, page_owner_body c a (q, m) s = Ok (if negb (m - 1 =? 0) then inl (q + 1, m - 1) else inr tt, s1))
      by (intros m; unfold page_owner_body; set (s0 := s <| page_cache := <[q := c]> (page_cache s) |> <| page_slab := <[q := a]> (page_slab s) |>);
          rewrite (bind_ok _ _ s tt s0) by done;
          rewrite (bind_ok _ _ _ _ _ (on_pm_ok _ s0 _ _ (heap_set_page_ok (pm s0) _ _ _ Hv))); by destruct (negb _)).
  - exists p1, (<[q := c]> (page_cache s)), (<[q := a]> (page_slab s)). split; [by apply loop_stop; rewrite Eb|].
    split; [done|]. split; [split; [done|]|split].
    + intros x Hx. simpl. apply lookup_insert_ne. intros <-. apply Hx. unfold in_range. simpl. lia.
    + intros x Hx. assert (q ≠ x) by (intros <-; apply Hx; unfold in_range; simpl; lia). by rewrite !lookup_insert_ne.
    + intros x Hx. assert (x = q) as -> by (unfold in_range in Hx; simpl in Hx; lia). rewrite !lookup_insert_eq.
      split_and!; [done|done|]. simpl. rewrite lookup_insert_eq. eexists. split; [done|]. apply set_slab_flag.
  - destruct (IH fuel (q + 1) s1) as (p' & pc & ps & E & HB' & [Hn Ho] & Hout & Hin); [done| |lia|].
    { intros x Hx. apply Hr. unfold in_range in *; simpl in *; lia. }
    exists p', pc, ps. split; [|split; [done|split; [split; [by rewrite Hn|]|split]]].
    + rewrite (loop_next _ _ _ _ (q + 1, Z.of_nat (S n)) s1); [exact E|]. rewrite Eb.
      replace (Z.of_nat (S (S n)) - 1) with (Z.of_nat (S n)) by lia. by rewrite (proj2 (Z.eqb_neq _ _)) by lia.
    + intros x Hx. rewrite Ho; [|unfold in_range in *; simpl in *; lia]. simpl. apply lookup_insert_ne. intros <-. apply Hx.
      unfold in_range. simpl. lia.
    + intros x Hx. assert (q ≠ x) by (intros <-; apply Hx; unfold in_range; simpl; lia).
      destruct (Hout x) as [-> ->]; [unfold in_range in *; simpl in *; lia|]. simpl. by rewrite !lookup_insert_ne.
    + intros x Hx. destruct (decide (x = q)) as [->|Hne].
      * assert (¬ in_range q (q + 1, Z.of_nat (S n))) as Hnq by (unfold in_range; simpl; lia).
        destruct (Hout q Hnq) as [-> ->]. rewrite (Ho q Hnq). simpl. rewrite !lookup_insert_eq. split_and!; [done|done|].
        eexists. split; [done|]. apply set_slab_flag.
      * apply Hin. unfold in_range in *. simpl in *. lia.
Qed.
