(* ===== verification/KmemFree.v ===== *)
(** * Releasing an object of the kernel heap

    [kmem_cache_free] puts the object back in its slab; a slab without objects
    in use is destroyed: its pages go back to the buddy allocator and its
    control block, if it is an object, to the cache it came from. *)

From stdpp Require Import sets list_numbers.
From S2P Require Import Prelude DList Buddy BuddyInv BuddySpec BuddyAlloc BuddyInit BuddyPool Slab Kmem KmemInv KmemSpec.

Implicit Types (s : heap) (a c i x : Z) (g h : sinfo) (G : gmap Z sinfo) (O : gmap Z Z) (R : list (Z * Z)).

(** The last part of [kmem_cache_free_one], with the control block [d]. *)
Definition after_free (release : option Z → Z → M heap unit) c a (d : slab_t) : M heap unit :=
  if inuse d =? 0 then
    _ ← on_slinks (list_del (slab_link a));
    kmem_slab_destroy release c a
  else if inuse d =? num (layout c) - 1 then
    _ ← on_slinks (list_del (slab_link a));
    on_slinks (list_add (slabs_notfull c) (slab_link a))
  else mret tt.

(** The control block when the object [i] is back at the head of the chain. *)
Definition freed_block g i : slab_t :=
  mk_slab (obj g 0) (num (lay g) - Z.of_nat (length (i :: si_free g))) (obj_offset (lay g)) i.

Section free_one.
Context {s : heap} {G : gmap Z sinfo} {R : list (Z * Z)} {a : Z} {g : sinfo} {i : Z}.
Hypotheses (Hb : heap_base s G R) (Ha : G !! a = Some g) (Hi : allocated g i).

Let g' : sinfo := g <| si_free := i :: si_free g |>.

Lemma free_length : Z.of_nat (length (i :: si_free g)) ≤ num (lay g).
Proof.
  destruct (so_free _ _ _ (hi_slab _ _ _ Hb a g Ha)) as [Hnd Hobj]. destruct Hi as [Hio Hin].
  pose proof (lk_num _ _ (slab_layout Hb _ _ Ha)).
  transitivity (Z.of_nat (length (seqZ 0 (num (lay g))))); [|rewrite length_seqZ; lia]. apply inj_le.
  apply submseteq_length, NoDup_submseteq; [by constructor|]. intros j Hj. apply elem_of_seqZ.
  apply elem_of_cons in Hj as [->|Hj]; [|apply Hobj in Hj]; unfold object in *; lia.
Qed.

Lemma only_object j : Z.of_nat (length (i :: si_free g)) = num (lay g) → allocated g j ↔ j = i.
Proof.
  destruct (so_free _ _ _ (hi_slab _ _ _ Hb a g Ha)) as [Hnd Hobj]. intros Hlen.
  split; [|by intros ->]. intros [Hj Hnj]. destruct Hi as [Hio Hin].
  assert (Hp : i :: si_free g ≡ₚ seqZ 0 (num (lay g))).
  { apply submseteq_length_Permutation; [|rewrite length_seqZ; lia]. apply NoDup_submseteq; [by constructor|].
    intros x Hx. apply elem_of_seqZ. apply elem_of_cons in Hx as [->|Hx]; [|apply Hobj in Hx]; unfold object in *; lia. }
  assert (j ∈ i :: si_free g) as [->|?]%elem_of_cons; [|done|done]. rewrite Hp. apply elem_of_seqZ. unfold object in Hj. lia.
Qed.

Lemma free_one_prefix release :
  ∃ first, chain (bufctl s) a first (si_free g) ∧
    kmem_cache_free_one release (si_cache g) a (obj g i) s =
    after_free release (si_cache g) a (freed_block g i)
      (s <| bufctl := <[(a, i) := first]> (bufctl s) |> <| slabs := <[a := freed_block g i]> (slabs s) |>).
Proof.
  destruct (hi_slab _ _ _ Hb a g Ha) as [Hc (first & Hs & Hch) _ _]. exists first. split; [done|]. destruct Hi as [Hio _].
  pose proof (objsize_pos Hb _ _ Ha). pose proof (lk_num _ _ (slab_layout Hb _ _ Ha)). pose proof free_length as Hlen.
  unfold kmem_cache_free_one. rewrite (bind_ok _ _ _ _ _ (get_cache_ok _ _ _ _ Hb Hc)). fold (lay g).
  rewrite (bind_ok _ _ _ _ _ (get_slab_ok _ _ _ Hs)). cbv zeta. simpl s_mem.
  assert (u32 (obj g i - obj g 0) / objsize (lay g) = i) as ->.
  { replace (obj g i - obj g 0) with (i * objsize (lay g)) by (unfold obj; lia). unfold object in Hio.
    rewrite u32_id by (split; [nia|]; change (2 ^ 32) with 4294967296; change (2 ^ 17) with 131072 in *; nia).
    apply Z.div_mul. lia. }
  simpl free. set (s0 := s <| bufctl := <[(a, i) := first]> (bufctl s) |>).
  rewrite (bind_ok (set_bufctl a i first) _ s tt s0) by done.
  rewrite (bind_ok _ _ _ _ _ (set_slab_ok s0 a _ _ Hs)). cbv beta.
  set (s1 := s0 <| slabs := _ |>). erewrite (bind_ok (set_slab a _)); [|apply (set_slab_ok s1), lookup_insert_eq]. cbv beta.
  set (s2 := s1 <| slabs := _ |>). erewrite (bind_ok (get_slab a)); [|apply (get_slab_ok s2), lookup_insert_eq].
  assert (Hfb : mk_slab (obj g 0) (u32 (num (lay g) - Z.of_nat (length (si_free g)) - 1)) (obj_offset (lay g)) i = freed_block g i).
  { unfold freed_block. simpl length in *. rewrite u32_id by lia. f_equal. lia. }
  match goal with |- context [inuse ?d =? 0] => change d with
    (mk_slab (obj g 0) (u32 (num (lay g) - Z.of_nat (length (si_free g)) - 1)) (obj_offset (lay g)) i); rewrite Hfb end.
  replace s2 with (s0 <| slabs := <[a := freed_block g i]> (slabs s) |>); [done|].
  rewrite <-Hfb. unfold s2, s1, s0. cbn. by rewrite insert_insert_eq.
Qed.

(** Others of the slab are in use: the slab stays. *)
Lemma free_keep release O :
  objects_ok None G O → is_Some (O !! obj g i) → Z.of_nat (length (i :: si_free g)) < num (lay g) →
  ∃ s', kmem_cache_free_one release (si_cache g) a (obj g i) s = Ok (tt, s') ∧
    heap_inv None s' (<[a := g']> G) (delete (obj g i) O) R.
Proof.
  intros Ho Hli Hlen. destruct (free_one_prefix release) as (first & Hch & ->).
  pose proof (objects_free Hb O a g i Ho Ha Hi Hli Hlen) as Ho'. fold g' in Ho'.
  destruct (hi_slab _ _ _ Hb a g Ha) as [Hc _ [Hnd Hobj] _]. set (s1 := s <| bufctl := _ |> <| slabs := _ |>).
  assert (∃ w', after_free release (si_cache g) a (freed_block g i) s1 = Ok (tt, s1 <| slinks := w' |>) ∧
    slab_lists w' (<[a := g']> G)) as (w' & E & Hl').
  { unfold after_free. change (num (layout (si_cache g))) with (num (lay g)).
    change (inuse (freed_block g i)) with (num (lay g) - Z.of_nat (S (length (si_free g)))).
    simpl length in Hlen. rewrite (proj2 (Z.eqb_neq (_ - _) 0)) by lia.
    destruct (lists_move (slinks s) G a g g' (hi_lists _ _ _ Hb) Ha eq_refl Hc) as (w1 & w' & E1 & E2 & Hl').
    destruct (Z.eqb_spec (num (lay g) - Z.of_nat (S (length (si_free g)))) (num (lay g) - 1)) as [Ef|Ef].
    - exists w'. split; [|done]. rewrite (bind_ok _ _ _ _ _ (on_slinks_ok _ s1 _ _ E1)).
      exact (on_slinks_ok _ (s1 <| slinks := w1 |>) _ _ E2).
    - exists (slinks s). split; [by destruct s|]. apply (lists_set _ _ _ g); [apply Hb|done|done|].
      unfold slab_is_full. simpl. destruct (si_free g); [simpl in Ef; lia|done]. }
  exists (s1 <| slinks := w' |>). split; [done|]. split; [|done].
  apply (base_set s _ G R a g g'); try done.
  - intros b Hne. simpl. by apply lookup_insert_ne.
  - intros b j Hne. simpl. apply lookup_insert_ne. congruence.
  - exists i. simpl. rewrite lookup_insert_eq. split; [done|]. split; [done|]. exists first. rewrite lookup_insert_eq.
    split; [done|]. apply (chain_frame (bufctl s)); [|done]. intros j Hj. apply lookup_insert_ne. destruct Hi as [_ Hn]. congruence.
  - destruct Hi as [Hio Hin]. simpl. split; [by constructor|]. intros j [->|Hj]%elem_of_cons; [done|by apply Hobj].
Qed.

(** The slab goes: its pages are those of somebody else. *)
Lemma base_delete s' :
  slab_cache s' = slab_cache s → page_cache s' = page_cache s → page_slab s' = page_slab s →
  (∀ b, b ≠ a → slabs s' !! b = slabs s !! b) → (∀ b j, b ≠ a → bufctl s' !! (b, j) = bufctl s !! (b, j)) →
  slab_lists (slinks s') (delete a G) → (∃ B, pool_inv (pm s') B (ranges G ++ R)) → outside (slab_pages g) (pm s) (pm s') →
  heap_base s' (delete a G) (slab_pages g :: R).
Proof.
  intros Esc Epc Eps Hsl Hbc Hl' [B HB] [Hn Hpg]. pose proof Hb as [_ Hnp Hc _ Hs]. constructor.
  - exists B. rewrite <-Permutation_middle, app_comm_cons. by rewrite <-(ranges_delete G a g Ha).
  - by rewrite Hn.
  - by rewrite Esc.
  - done.
  - intros b h [Hne Hh]%lookup_delete_Some. apply (slab_ok_frame s); [|by apply Hs]. constructor; [by apply Hsl|auto|].
    intros q Hq. rewrite Epc, Eps, Hpg; [done|]. intros Hqa. by destruct (slab_page_unique Hb b h a g q Hh Ha Hq Hqa) as [-> _].
Qed.

Lemma free_last release O :
  objects_ok None G O → is_Some (O !! obj g i) → Z.of_nat (length (i :: si_free g)) = num (lay g) →
  ∃ s', kmem_cache_free_one release (si_cache g) a (obj g i) s =
      (if off_slab (lay g) then release (slab_cachep (lay g)) a else mret tt) s' ∧
    heap_inv None s' (delete a G) (control_back a g (delete (obj g i) O)) R.
Proof.
  intros Ho Hli Hlen. destruct (free_one_prefix release) as (first & Hch & ->).
  pose proof (objects_destroy Hb O a g i Ho Ha (λ j, only_object j Hlen) Hli) as Ho'.
  destruct (hi_slab _ _ _ Hb a g Ha) as [Hc _ _ Hpg]. set (s1 := s <| bufctl := _ |> <| slabs := _ |>).
  destruct (lists_del (slinks s) G a g (hi_lists _ _ _ Hb) Ha Hc) as (w1 & E1 & Hl1).
  pose proof (slab_layout Hb _ _ Ha) as Hk. pose proof (lk_order _ _ Hk) as Hord.
  pose proof (pow2_pos (page_order (lay g)) ltac:(lia)) as Hpow.
  unfold after_free. change (inuse (freed_block g i)) with (num (lay g) - Z.of_nat (length (i :: si_free g))).
  rewrite Hlen, Z.sub_diag. cbn [Z.eqb].
  rewrite (bind_ok _ _ _ _ _ (on_slinks_ok _ s1 _ _ E1)). set (s2 := s1 <| slinks := w1 |>). unfold kmem_slab_destroy.
  erewrite (bind_ok (get_slab a)); [|apply (get_slab_ok s2), lookup_insert_eq].
  rewrite (bind_ok (get_cache _) _ s2 (lay g) s2) by (apply (get_cache_ok s _ _ _ Hb) in Hc as E; unfold get_cache, deref in *;
    change (slab_cache s2) with (slab_cache s); by destruct (slab_cache s !! si_cache g); simplify_eq).
  destruct (slab_range Hb _ _ Ha) as [H0 Hnp]. pose proof (hi_npage _ _ _ Hb) as Hnp2. change (KMEMSIZE / PGSIZE) with 32768 in Hnp2.
  simpl s_mem. simpl offset. replace (u32 (obj g 0 - obj_offset (lay g))) with (kva (si_page g) + 0).
  2:{ unfold obj. rewrite u32_id; unfold kva, PGSIZE, KERNBASE in *; lia. }
  rewrite (bind_ok _ _ s2 (si_page g) s2).
  2:{ apply kva2page_ok; [unfold in_range; simpl; change (pm s2) with (pm s); lia|done]. }
  cbv zeta. rewrite shiftl_pow by lia.
  destruct (Z.to_nat (2 ^ page_order (lay g))) as [|n] eqn:En; [lia|].
  assert (2 ^ page_order (lay g) = Z.of_nat (S n)) as Epow by lia.
  destruct (hi_pool _ _ _ Hb) as [B HB].
  destruct (clear_loop n (S (S n)) (si_page g) s2 B (ranges G ++ R) HB) as (p' & E & HB' & Hout); [|lia|].
  { intros q Hq. rewrite <-Epow in Hq. split; [|by apply Hpg]. exists (slab_pages g). split; [|done].
    apply elem_of_app. left. by apply (ranges_elem a). }
  rewrite Epow, (bind_ok _ _ _ _ _ E). rewrite <-Epow in *. set (s3 := s2 <| pm := p' |>).
  assert (Hb3 : heap_base s3 (delete a G) (slab_pages g :: R)).
  { apply base_delete; try done; [| |by exists B].
    - intros b Hne. simpl. by apply lookup_insert_ne.
    - intros b j Hne. simpl. apply lookup_insert_ne. congruence. }
  destruct (heap_free_pages None s3 (delete a G) (control_back a g (delete (obj g i) O)) [] (si_page g) (2 ^ page_order (lay g)) R (conj Hb3 Ho'))
    as (p4 & E4 & Hinv4).
  exists (s3 <| pm := p4 |>). split; [|done]. by rewrite (bind_ok _ _ _ _ _ (on_pm_ok _ s3 _ _ E4)).
Qed.
End free_one.

(** ** [kmem_cache_free] and [kfree] *)

Lemma cache_of_size c c' : 0 ≤ c < 13 → 0 ≤ c' < 13 → objsize (layout c) = objsize (layout c') → c = c'.
Proof.
  intros Hc Hc'. rewrite (lk_size _ _ (layout_facts c Hc)), (lk_size _ _ (layout_facts c' Hc')). intros E.
  apply Z.pow_inj_r in E; lia.
Qed.

Lemma free_enter s G R a g i depth :
  heap_base s G R → G !! a = Some g → object g i →
  ∃ q, kva2page (obj g i) s = Ok (q, s) ∧ page_cache s !! q = Some (si_cache g) ∧
    kmem_cache_free (S depth) (Some (si_cache g)) (obj g i) s =
    kmem_cache_free_one (kmem_cache_free depth) (si_cache g) a (obj g i) s.
Proof.
  intros Hb Ha Hi. destruct (obj_kva2page Hb a g i Ha Hi) as (q & E & Hq). exists q. split; [done|].
  destruct (so_pages _ _ _ (hi_slab _ _ _ Hb a g Ha) q Hq) as (Hc & Hs & v & Hv & Hf). split; [done|].
  simpl kmem_cache_free. rewrite (bind_ok _ _ _ _ _ E).
  rewrite (bind_ok _ _ s v s) by (unfold on_pm, get_page, deref; rewrite Hv; by destruct s). rewrite Hf. cbn [negb].
  rewrite (bind_ok _ _ s a s) by (unfold deref; by rewrite Hs). done.
Qed.

(** One level: the slab stays, or goes and its control block is released. *)
Lemma cache_free_step s G O R a g i depth :
  heap_inv None s G O R → G !! a = Some g → allocated g i → is_Some (O !! obj g i) →
  (∃ s' G', kmem_cache_free (S depth) (Some (si_cache g)) (obj g i) s = Ok (tt, s') ∧
     heap_inv None s' G' (delete (obj g i) O) R) ∨
  (∃ s' G' c', kmem_cache_free (S depth) (Some (si_cache g)) (obj g i) s = kmem_cache_free depth (Some c') a s' ∧
     slab_cachep (lay g) = Some c' ∧ delete (obj g i) O !! a = None ∧
     heap_inv None s' G' (<[a := objsize (layout c')]> (delete (obj g i) O)) R).
Proof.
  intros [Hb Ho] Ha Hi Hli. destruct (free_enter s G R a g i depth Hb Ha (proj1 Hi)) as (_ & _ & _ & E). rewrite !E.
  pose proof (free_length Hb Ha Hi) as Hlen.
  destruct (decide (Z.of_nat (length (i :: si_free g)) < num (lay g))) as [Hlt|Hge].
  - left. destruct (free_keep Hb Ha Hi (kmem_cache_free depth) O Ho Hli Hlt) as (s' & Es & Hinv). eauto.
  - destruct (free_last Hb Ha Hi (kmem_cache_free depth) O Ho Hli ltac:(lia)) as (s' & Es & Hinv).
    pose proof (lk_control _ _ (slab_layout Hb _ _ Ha)) as Hlk. unfold control_back in Hinv.
    destruct (slab_cachep (lay g)) as [c'|] eqn:Ec; destruct Hlk as [Hoff Hlk]; rewrite Es, Hoff; [right|left; eauto].
    exists s', (delete a G), c'. split_and!; [done|done| |done]. apply lookup_delete_None. right.
    apply (hi_own _ _ _ Ho). by exists g.
Qed.

Lemma cache_free_small s G O R a g i depth :
  heap_inv None s G O R → G !! a = Some g → allocated g i → is_Some (O !! obj g i) → si_cache g < 2 →
  ∃ s' G', kmem_cache_free (S depth) (Some (si_cache g)) (obj g i) s = Ok (tt, s') ∧
    heap_inv None s' G' (delete (obj g i) O) R.
Proof.
  intros Hinv Ha Hi Hli Hsm. destruct (cache_free_step s G O R a g i depth Hinv Ha Hi Hli) as [?|(s' & G' & c' & _ & Ec & _)]; [done|].
  exfalso. pose proof (so_cache _ _ _ (hi_slab _ _ _ (proj1 Hinv) a g Ha)) as Hc.
  pose proof (lk_control _ _ (slab_layout (proj1 Hinv) _ _ Ha)) as Hlk. rewrite Ec in Hlk. destruct Hlk as [Hoff _].
  unfold lay in Hoff. rewrite (small_on_slab (si_cache g)) in Hoff by lia. done.
Qed.

Lemma cache_free_ok s G O R a g i depth :
  heap_inv None s G O R → G !! a = Some g → allocated g i → is_Some (O !! obj g i) →
  ∃ s' G', kmem_cache_free (S (S depth)) (Some (si_cache g)) (obj g i) s = Ok (tt, s') ∧
    heap_inv None s' G' (delete (obj g i) O) R.
Proof.
  intros Hinv Ha Hi Hli. destruct (cache_free_step s G O R a g i (S depth) Hinv Ha Hi Hli) as [?|(s' & G' & c' & -> & Ec & Hno & Hinv')]; [done|].
  pose proof (lk_control _ _ (slab_layout (proj1 Hinv) _ _ Ha)) as Hlk. rewrite Ec in Hlk. destruct Hlk as (_ & Hc' & _).
  destruct (hi_live _ _ _ (proj2 Hinv') a _ (lookup_insert_eq _ _ _)) as (b & h & j & Hh & Hj & -> & Esz).
  assert (si_cache h = c') as <-.
  { apply cache_of_size; [apply (hi_slab _ _ _ (proj1 Hinv') _ _ Hh)|lia|by symmetry]. }
  destruct (cache_free_small s' G' _ R b h j depth Hinv' Hh Hj) as (s2 & G2 & E2 & Hinv2); [by rewrite lookup_insert_eq|lia|].
  exists s2, G2. split; [done|]. by rewrite delete_insert_id in Hinv2.
Qed.

Lemma kfree_ok s G O R x n :
  heap_inv None s G O R → O !! x = Some n →
  ∃ s' G', kfree x s = Ok (tt, s') ∧ heap_inv None s' G' (delete x O) R.
Proof.
  intros Hinv Hx. destruct (hi_live _ _ _ (proj2 Hinv) x n Hx) as (a & g & i & Ha & Hi & -> & _).
  destruct (cache_free_ok s G O R a g i 11 Hinv Ha Hi ltac:(by eexists)) as (s' & G' & E & Hinv').
  exists s', G'. split; [|done]. destruct (free_enter s G R a g i 0 (proj1 Hinv) Ha (proj1 Hi)) as (q & Eq & Hpc & _).
  pose proof (objsize_pos (proj1 Hinv) _ _ Ha). destruct (obj_byte (proj1 Hinv) a g i 0 Ha (proj1 Hi) ltac:(lia)) as [_ Hr].
  unfold kfree. rewrite (proj2 (Z.eqb_neq _ _)) by (unfold KERNBASE in Hr; lia).
  rewrite (bind_ok _ _ _ _ _ Eq). rewrite (bind_ok get _ s s s) by done. by rewrite Hpc.
Qed.
