(* ===== verification/KmemAlloc.v ===== *)
(** * Allocating from the kernel heap

    [kmem_cache_grow] makes a slab of fresh pages; [kmem_cache_alloc] takes the
    first free object of a slab, after growing the cache when it has none. *)

From stdpp Require Import sets list_numbers.
From S2P Require Import Prelude DList Buddy BuddyInv BuddySpec BuddyAlloc BuddyInit BuddyPool Slab Kmem KmemInv KmemSpec KmemFree.

Implicit Types (s : heap) (a c i x : Z) (g h : sinfo) (G : gmap Z sinfo) (O : gmap Z Z) (R : list (Z * Z)).

(** ** The chain of a new slab *)

Lemma bufctl_loop (n fuel : nat) a num s :
  num = Z.of_nat n → (n < fuel)%nat →
  ∃ b, loop fuel (bufctl_body a num) 0 s = Ok (tt, s <| bufctl := b |>) ∧
    (∀ i, 0 ≤ i < num → b !! (a, i) = Some (i + 1)) ∧ (∀ y i, y ≠ a → b !! (y, i) = bufctl s !! (y, i)).
Proof.
  intros -> Hf. set (bi := fix bi (k : nat) := match k with O => bufctl s | S k => <[(a, Z.of_nat k) := Z.of_nat k + 1]> (bi k) end).
  exists (bi n). split; [|split].
  - replace s with (s <| bufctl := bi O |>) at 1 by by destruct s.
    apply (loop_iter n fuel (bufctl_body a (Z.of_nat n)) Z.of_nat (λ k, s <| bufctl := bi k |>)); [| |done].
    + intros k Hk. unfold bufctl_body. rewrite (proj2 (Z.ltb_lt _ _)) by lia.
      rewrite (bind_ok _ _ _ tt (s <| bufctl := bi (S k) |>)) by done. unfold mret, M_ret. do 3 f_equal. lia.
    + unfold bufctl_body. by rewrite (proj2 (Z.ltb_ge _ _)) by lia.
  - clear Hf. intros i. induction n as [|n IH]; [lia|]. intros Hi. simpl. destruct (decide (i = Z.of_nat n)) as [->|Hne].
    + by rewrite lookup_insert_eq.
    + rewrite lookup_insert_ne by congruence. apply IH. lia.
  - clear Hf. intros y i Hy. induction n as [|n IH]; [done|]. simpl. by rewrite lookup_insert_ne by congruence.
Qed.

Lemma chain_seq (b : gmap (Z * Z) Z) a num (n : nat) k :
  b !! (a, num - 1) = Some BUFCTL_END → (∀ i, 0 ≤ i < num - 1 → b !! (a, i) = Some (i + 1)) →
  0 ≤ k → num = k + Z.of_nat (S n) → chain b a k (seqZ k (Z.of_nat (S n))).
Proof.
  intros Hlast Hb. revert k. induction n as [|n IH]; intros k Hk Hn.
  - rewrite (seqZ_cons k) by lia. simpl. split; [done|]. exists BUFCTL_END.
    replace k with (num - 1) by lia. by rewrite Hlast.
  - rewrite (seqZ_cons k) by lia. simpl chain. split; [done|]. exists (Z.succ k). split; [rewrite Hb by lia; f_equal; lia|].
    replace (Z.pred (Z.of_nat (S (S n)))) with (Z.of_nat (S n)) by lia. apply IH; lia.
Qed.

(** ** Installing a slab *)

(** The rest of [kmem_cache_grow], once the control block is there. *)
Definition install c a page : M heap bool :=
  let order_size := Z.shiftl 1 (page_order (layout c)) in
  _ ← loop (S (Z.to_nat order_size)) (page_owner_body c a) (page, order_size);
  _ ← loop (S (Z.to_nat (num (layout c)))) (bufctl_body a (num (layout c))) 0;
  _ ← set_bufctl a (num (layout c) - 1) BUFCTL_END;
  _ ← set_slab a (λ d, d <| free := 0 |>);
  _ ← on_slinks (list_add (slabs_notfull c) (slab_link a));
  mret true.

Definition new_slab c page : sinfo := mk_sinfo c page (seqZ 0 (num (layout c))).

Lemma new_slab_free c page j : 0 ≤ c < 13 → ¬ allocated (new_slab c page) j.
Proof. intros Hc [Ho Hn]. apply Hn. simpl. apply elem_of_seqZ. unfold object, lay in Ho. simpl in Ho. lia. Qed.

Lemma base_insert s s' G R a g :
  heap_base s G (slab_pages g :: R) → G !! a = None →
  slab_cache s' = slab_cache s → npage (pm s') = npage (pm s) → (∃ B, pool_inv (pm s') B (ranges G ++ slab_pages g :: R)) →
  (∀ q, ¬ in_range q (slab_pages g) → page_cache s' !! q = page_cache s !! q ∧ page_slab s' !! q = page_slab s !! q ∧
     pages (pm s') !! q = pages (pm s) !! q) →
  (∀ b, b ≠ a → slabs s' !! b = slabs s !! b) → (∀ b j, b ≠ a → bufctl s' !! (b, j) = bufctl s !! (b, j)) →
  slab_lists (slinks s') (<[a := g]> G) → slab_ok s' a g → heap_base s' (<[a := g]> G) R.
Proof.
  intros [[B0 HB0] Hnp Hc _ Hs] Ha Esc Hn [B HB] Hpg Hsl Hbc Hl' Hok. constructor.
  - exists B. rewrite (ranges_insert G a g Ha). simpl. by rewrite Permutation_middle.
  - by rewrite Hn.
  - by rewrite Esc.
  - done.
  - intros b h [[<- <-]|[Hne Hh]]%lookup_insert_Some; [done|]. apply (slab_ok_frame s); [|by apply Hs].
    constructor; [by apply Hsl|auto|]. intros q Hq. apply Hpg. intros Hqg.
    pose proof (proj1 (disjoint_middle _ _ _) (pi_disjoint _ _ _ HB0)) as [Hd _]. apply (Hd q Hqg).
    exists (slab_pages h). split; [|done]. apply elem_of_app. left. unfold ranges. apply list_elem_of_fmap.
    exists (b, h). split; [done|]. by apply elem_of_map_to_list.
Qed.

Lemma install_ok s G O R c a page f :
  heap_inv None s G O (slab_pages (new_slab c page) :: R) → 0 ≤ c < 13 → G !! a = None →
  slabs s !! a = Some (mk_slab (kva page + obj_offset (layout c)) 0 (obj_offset (layout c)) f) →
  match slab_cachep (layout c) with
  | Some c' => ∃ b h j, G !! b = Some h ∧ si_cache h = c' ∧ allocated h j ∧ a = obj h j
  | None => a = kva page
  end →
  ∃ s', install c a page s = Ok (true, s') ∧
    heap_inv (Some a) s' (<[a := new_slab c page]> G) (match slab_cachep (layout c) with Some _ => delete a O | None => O end) R ∧
    list_next (slabs_notfull c) (slinks s') = Ok (slab_link a, slinks s') ∧
    list_empty (slabs_notfull c) (slinks s') = Ok (false, slinks s').
Proof.
  intros [Hb Ho] Hc Ha Hs Hctl. set (g := new_slab c page) in *. pose proof (layout_facts c Hc) as Hk.
  pose proof (objects_new O a g Ho Ha (λ j, new_slab_free c page j Hc) Hk Hctl) as Ho'.
  change (lay g) with (layout c) in Ho'.
  pose proof (lk_order _ _ Hk) as Hord. pose proof (pow2_pos (page_order (layout c)) ltac:(lia)) as Hpow.
  pose proof (lk_num _ _ Hk) as Hnum. unfold install. rewrite shiftl_pow by lia.
  destruct (Z.to_nat (2 ^ page_order (layout c))) as [|n] eqn:En; [lia|].
  assert (2 ^ page_order (layout c) = Z.of_nat (S n)) as Epow by lia.
  assert (slab_pages g = (page, Z.of_nat (S n))) as Esp by (rewrite <-Epow; done).
  destruct (hi_pool _ _ _ Hb) as [B HB].
  destruct (owner_loop n (S (S n)) c a page s B _ HB) as (p1 & pc & ps & E1 & HB1 & [Hn1 Hout1] & Hpout & Hpin); [|lia|].
  { intros q Hq. exists (slab_pages g). rewrite <-Esp in Hq. split; [set_solver|done]. }
  rewrite Epow, (bind_ok _ _ _ _ _ E1). set (s1 := s <| pm := p1 |> <| page_cache := pc |> <| page_slab := ps |>).
  destruct (Z.to_nat (num (layout c))) as [|m] eqn:Em; [lia|]. assert (num (layout c) = Z.of_nat (S m)) as Enum by lia.
  destruct (bufctl_loop (S m) (S (S m)) a (num (layout c)) s1 Enum ltac:(lia)) as (b2 & E2 & Hb2 & Hb2o).
  rewrite (bind_ok _ _ _ _ _ E2). set (s2 := s1 <| bufctl := b2 |>).
  set (b3 := <[(a, num (layout c) - 1) := BUFCTL_END]> b2).
  set (s3 := s2 <| bufctl := b3 |>). rewrite (bind_ok _ _ s2 tt s3) by done.
  rewrite (bind_ok _ _ _ _ _ (set_slab_ok s3 a _ _ Hs)). cbv beta. set (s4 := s3 <| slabs := _ |>).
  destruct (lists_add (slinks s) G a g (hi_lists _ _ _ Hb) Ha Hc) as (w' & E4 & Hl' & Hnext & Hempty).
  assert (ring_head (si_cache g) (slab_is_full g) = slabs_notfull c) as Ering.
  { unfold slab_is_full, g. simpl. rewrite Enum, (seqZ_cons 0) by lia. done. }
  rewrite Ering in E4, Hnext, Hempty. rewrite (bind_ok _ _ _ _ _ (on_slinks_ok _ s4 _ _ E4)).
  exists (s4 <| slinks := w' |>). split; [done|]. split; [|done]. split; [|done].
  apply (base_insert s); try done.
  - by exists B.
  - intros q Hq. rewrite Esp in Hq. destruct (Hpout q Hq) as [? ?]. split_and!; [done|done|by apply Hout1].
  - intros y Hy. simpl. by apply lookup_insert_ne.
  - intros y j Hy. simpl. unfold b3. rewrite lookup_insert_ne by congruence. by apply Hb2o.
  - constructor.
    + done.
    + exists 0. simpl. rewrite lookup_insert_eq. split.
      * f_equal. rewrite length_seqZ. unfold obj, lay. simpl. f_equal; lia.
      * rewrite Enum. apply (chain_seq b3 a (num (layout c)) m 0); [by apply lookup_insert_eq| |lia|lia].
        intros i Hi. unfold b3. rewrite lookup_insert_ne by (intros [= ?]; lia). apply Hb2. lia.
    + simpl. split; [apply NoDup_seqZ|]. intros j Hj%elem_of_seqZ. unfold object. change (lay g) with (layout c). lia.
    + intros q Hq. rewrite Esp in Hq. by apply Hpin.
Qed.

(** A block of fresh pages and a live object are no control blocks. *)
Lemma fresh_page s G O R p n :
  heap_inv None s G O ((p, n) :: R) → 0 < n → G !! kva p = None.
Proof.
  intros [Hb Ho] Hn. destruct (G !! kva p) as [g|] eqn:Hg; [|done]. exfalso.
  destruct (control_page Hb None O _ _ Ho Hg) as (b & h & Hh & Hq & _).
  unfold kva in Hq. replace (p * PGSIZE + KERNBASE - KERNBASE) with (p * PGSIZE) in Hq by lia. rewrite Z.div_mul in Hq by done.
  destruct (hi_pool _ _ _ Hb) as [B HB]. pose proof (proj1 (disjoint_middle _ _ _) (pi_disjoint _ _ _ HB)) as [Hd _].
  apply (Hd p); [unfold in_range; simpl; lia|]. exists (slab_pages h). split; [|done]. apply elem_of_app. left.
  by apply (ranges_elem b).
Qed.

Lemma live_not_slab s G O R x n : heap_inv None s G O R → O !! x = Some n → G !! x = None.
Proof.
  intros [Hb Ho] Hx. destruct (G !! x) as [g|] eqn:Hg; [|done]. exfalso.
  pose proof (lk_control _ _ (slab_layout Hb _ _ Hg)) as Hlk. pose proof (hi_control _ _ _ Ho _ _ Hg) as Hco.
  unfold control_ok in Hco. destruct (slab_cachep (lay g)) as [c'|].
  { assert (with_control G x) as Hw by (exists g; by destruct Hlk). apply (hi_own _ _ _ Ho) in Hw. congruence. }
  destruct (hi_live _ _ _ Ho _ _ Hx) as (b & h & j & Hh & [Hj _] & E & _).
  pose proof (objsize_pos Hb _ _ Hh). destruct (obj_byte Hb b h j 0 Hh Hj ltac:(lia)) as [Hq _]. rewrite Z.add_0_r, <-E in Hq.
  destruct (kva_page Hb x g Hg Hco) as [Hqg _]. destruct (slab_page_unique Hb b h x g _ Hh Hg Hq Hqg) as [-> ->].
  pose proof (lk_num _ _ (slab_layout Hb _ _ Hg)). destruct Hlk as [_ Hlk]. unfold obj in E. rewrite Hco in E.
  unfold object in Hj. unfold sizeof_slab, sizeof_bufctl in Hlk. nia.
Qed.

(** Writing a new control block. *)
Lemma base_new_block s G R a d : heap_base s G R → G !! a = None → heap_base (s <| slabs := <[a := d]> (slabs s) |>) G R.
Proof.
  intros [Hp Hn Hc Hl Hs] Ha. constructor; [done|done|done|done|]. intros y g Hy.
  apply (slab_ok_frame s); [|by apply Hs]. constructor; [|done|done]. simpl. apply lookup_insert_ne. congruence.
Qed.

(** ** Growing *)

(** There are no pages for a slab of the cache [c], or none for the control
    block of that slab. *)
Definition no_pages c (p : pmm) : Prop := alloc_pages (2 ^ page_order (layout c)) p = Ok (None, p).
Definition starved c (p : pmm) : Prop :=
  no_pages c p ∨ ∃ c' q p', slab_cachep (layout c) = Some c' ∧
    alloc_pages (2 ^ page_order (layout c)) p = Ok (Some q, p') ∧ no_pages c' p'.

(** What a caller may expect of an allocator for the cache [c]. *)
Definition allocates (alloc : Z → M heap (option Z)) c : Prop := ∀ s G O R, heap_inv None s G O R →
  (∃ s', alloc c s = Ok (None, s') ∧ starved c (pm s) ∧ ∃ G', heap_inv None s' G' O R) ∨
  (∃ x s', alloc c s = Ok (Some x, s') ∧ O !! x = None ∧ ∃ G', heap_inv None s' G' (<[x := objsize (layout c)]> O) R).

Definition grown c s' G' a g : Prop := G' !! a = Some g ∧ si_cache g = c ∧ si_free g = seqZ 0 (num (layout c)) ∧
  list_next (slabs_notfull c) (slinks s') = Ok (slab_link a, slinks s') ∧
  list_empty (slabs_notfull c) (slinks s') = Ok (false, slinks s').

Lemma grow_ok alloc c s G O R :
  (∀ c', slab_cachep (layout c) = Some c' → allocates alloc c') → 0 ≤ c < 13 → heap_inv None s G O R →
  (∃ s', kmem_cache_grow alloc c s = Ok (false, s') ∧ starved c (pm s) ∧ ∃ G', heap_inv None s' G' O R) ∨
  (∃ s' G' a g, kmem_cache_grow alloc c s = Ok (true, s') ∧ heap_inv (Some a) s' G' O R ∧ grown c s' G' a g).
Proof.
  intros Hal Hc Hinv. pose proof (layout_facts c Hc) as Hk. pose proof (lk_order _ _ Hk) as Hord.
  pose proof (pow2_pos (page_order (layout c)) ltac:(lia)) as Hpow. pose proof (lk_control _ _ Hk) as Hlk.
  assert (2 ^ page_order (layout c) ≤ 2 ^ 5) as Hle by (apply Z.pow_le_mono_r; lia).
  unfold kmem_cache_grow. rewrite (bind_ok _ _ _ _ _ (get_cache_ok _ _ _ _ (proj1 Hinv) Hc)). rewrite shiftl_pow by lia.
  destruct (heap_alloc_pages None s G O R (2 ^ page_order (layout c)) Hinv ltac:(lia)) as [(p & p1 & E1 & Hinv1)|E1];
    rewrite (bind_ok _ _ _ _ _ (on_pm_ok _ s _ _ E1)).
  2:{ left. eexists. split; [done|]. split; [by left|]. exists G. by destruct s. }
  set (s1 := s <| pm := p1 |>) in *. set (g := new_slab c p).
  change (p, 2 ^ page_order (layout c)) with (slab_pages g) in Hinv1. unfold kmem_cache_slabmgmt.
  assert (Hpr : in_range p (0, npage (pm s1))).
  { destruct (hi_pool _ _ _ (proj1 Hinv1)) as [B HB]. destruct (pi_held _ _ _ HB p (2 ^ page_order (layout c))) as [_ Hh].
    { apply elem_of_app. right. by left. }
    unfold in_range. simpl. apply (bi_dom _ _ _ (pi_inv _ _ _ HB)).
    destruct (holds_managed _ _ _ _ p Hh) as (v & Hv & _); [lia|eauto]. }
  assert (Hkva : 0 ≤ kva p + obj_offset (layout c) < 2 ^ 32).
  { destruct Hpr as [H0 Hp]. cbn [fst snd] in H0, Hp. pose proof (hi_npage _ _ _ (proj1 Hinv1)) as Hnp. change (KMEMSIZE / PGSIZE) with 32768 in Hnp.
    pose proof (lk_offset _ _ Hk). pose proof (lk_fits _ _ Hk). pose proof (lk_num _ _ Hk).
    pose proof (lk_size _ _ Hk). pose proof (pow2_pos (c + 5) ltac:(lia)).
    assert (0 ≤ num (layout c) * objsize (layout c)) by nia. change (2 ^ 5) with 32 in Hle. change (2 ^ 32) with 4294967296.
    set (P := 2 ^ page_order (layout c)) in *. unfold kva, PGSIZE, KERNBASE in *. lia. }
  rewrite <-bind_assoc. rewrite (bind_ok _ _ _ _ _ (page2kva_ok (proj1 Hinv1) p Hpr)). rewrite <-bind_assoc.
  rewrite (bind_ok _ _ _ _ _ (get_cache_ok _ _ _ _ (proj1 Hinv1) Hc)). rewrite <-bind_assoc.
  rewrite (u32_id _ Hkva). destruct (slab_cachep (layout c)) as [c'|] eqn:Ec.
  - destruct Hlk as (Hoff & Hc' & _). rewrite Hoff. rewrite <-bind_assoc.
    rewrite (bind_ok (deref _) _ s1 c' s1) by done.
    destruct (Hal c' eq_refl s1 G O _ Hinv1) as [(s2 & E2 & Hst & G2 & Hinv2)|(a & s2 & E2 & HO & G2 & Hinv2)]; rewrite (bind_ok _ _ _ _ _ E2).
    + left. assert (starved c (pm s)) as Hstc.
      { right. exists c', p, p1. split_and!; [done|done|]. destruct Hst as [?|(c'' & _ & _ & Ec' & _)]; [done|].
        pose proof (lk_control _ _ (layout_facts c' ltac:(lia))) as Hlk'. rewrite Ec' in Hlk'. destruct Hlk' as [Hoff' _].
        by rewrite small_on_slab in Hoff'. }
      rewrite (bind_ok _ _ s2 None s2) by done.
      destruct (heap_free_pages None s2 G2 O [] p (2 ^ page_order (layout c)) R Hinv2) as (p3 & E3 & Hinv3).
      rewrite (bind_ok _ _ _ _ _ (on_pm_ok _ s2 _ _ E3)). eexists. split; [done|]. split; [done|]. by exists G2.
    + right. pose proof (live_not_slab _ _ _ _ _ _ Hinv2 (lookup_insert_eq _ _ _)) as Hnone.
      set (d := mk_slab (kva p + obj_offset (layout c)) 0 (obj_offset (layout c)) (default 0 (free <$> slabs s2 !! a))).
      rewrite <-bind_assoc. set (s3 := s2 <| slabs := <[a := d]> (slabs s2) |>).
      rewrite (bind_ok (modify _) _ s2 tt s3) by done. rewrite (bind_ok _ _ s3 (Some a) s3) by done.
      destruct (hi_live _ _ _ (proj2 Hinv2) a _ (lookup_insert_eq _ _ _)) as (b & h & j & Hh & Hj & Ea & Esz).
      assert (si_cache h = c').
      { apply cache_of_size; [apply (hi_slab _ _ _ (proj1 Hinv2) _ _ Hh)|lia|by symmetry]. }
      destruct (install_ok s3 G2 (<[a := objsize (layout c')]> O) R c a p (default 0 (free <$> slabs s2 !! a))) as (s4 & E4 & Hinv4 & Hnx);
        [|done|done|apply lookup_insert_eq|rewrite Ec; by exists b, h, j|].
      { split; [by apply base_new_block; [apply Hinv2|]|apply Hinv2]. }
      exists s4, (<[a := g]> G2), a, g. split; [unfold install in E4; cbv zeta in E4; rewrite shiftl_pow in E4 by lia; exact E4|]. rewrite Ec, delete_insert_id in Hinv4 by done.
      split; [done|]. split; [apply lookup_insert_eq|]. done.
  - right. destruct Hlk as [Hoff _]. rewrite Hoff. rewrite <-bind_assoc.
    rewrite (bind_ok _ _ _ _ _ (page2kva_ok (proj1 Hinv1) p Hpr)). rewrite (bind_ok _ _ s1 (Some (kva p)) s1) by done.
    set (a := kva p). set (d := mk_slab (a + obj_offset (layout c)) 0 (obj_offset (layout c)) (default 0 (free <$> slabs s1 !! a))).
    rewrite <-bind_assoc. set (s3 := s1 <| slabs := <[a := d]> (slabs s1) |>).
    rewrite (bind_ok (modify _) _ s1 tt s3) by done. rewrite (bind_ok _ _ s3 (Some a) s3) by done.
    pose proof (fresh_page _ _ _ _ p (2 ^ page_order (layout c)) Hinv1 ltac:(lia)) as Hnone.
    destruct (install_ok s3 G O R c a p (default 0 (free <$> slabs s1 !! a))) as (s4 & E4 & Hinv4 & Hnx);
      [|done|done|apply lookup_insert_eq|by rewrite Ec|].
    { split; [by apply base_new_block; [apply Hinv1|]|apply Hinv1]. }
    rewrite Ec in Hinv4. exists s4, (<[a := g]> G), a, g. split; [unfold install in E4; cbv zeta in E4; rewrite shiftl_pow in E4 by lia; exact E4|]. split; [done|]. split; [apply lookup_insert_eq|]. done.
Qed.

(** ** [kmem_cache_alloc] and [kmalloc] *)

(** Taking the first free object of the slab the cache looks at. *)
Lemma take_first ex alloc c s G O R a g u :
  heap_inv ex s G O R → 0 ≤ c < 13 → G !! a = Some g → si_cache g = c → slab_is_full g = false → ex = None ∨ ex = Some a →
  list_next (slabs_notfull c) (slinks s) = Ok (slab_link a, slinks s) →
  list_empty (slabs_notfull c) (slinks s) = Ok (false, slinks s) →
  ∃ x s', cache_alloc_body alloc c u s = Ok (inr (Some x), s') ∧ O !! x = None ∧
    ∃ G', heap_inv None s' G' (<[x := objsize (layout c)]> O) R.
Proof.
  intros Hinv Hc Ha Hg Hf Hex Hnext Hempty. unfold slab_is_full in Hf. apply bool_decide_eq_false in Hf.
  destruct (si_free g) as [|i fl] eqn:Efl; [done|].
  destruct (alloc_one_ok ex s G O R a g i fl Hinv Ha Efl Hex) as (s' & E & HO & Hinv'). rewrite Hg in E.
  exists (obj g i), s'. split; [|split; [done|]].
  - unfold cache_alloc_body. rewrite (bind_ok _ _ _ _ _ (on_slinks_ok _ _ _ _ Hempty)), heap_slinks_id. cbv iota.
    rewrite (bind_ok _ _ _ _ _ (on_slinks_ok _ _ _ _ Hnext)), heap_slinks_id.
    rewrite (bind_ok _ _ s a s) by done. by rewrite (bind_ok _ _ _ _ _ E).
  - eexists. unfold lay in Hinv'. rewrite Hg in Hinv'. exact Hinv'.
Qed.

Lemma cache_alloc_ok alloc c :
  0 ≤ c < 13 → (∀ c', slab_cachep (layout c) = Some c' → allocates alloc c') →
  allocates (λ c, loop 2 (cache_alloc_body alloc c) tt) c.
Proof.
  intros Hc Hal s G O R Hinv.
  destruct (lists_notfull _ _ c (hi_lists _ _ _ (proj1 Hinv)) Hc) as [[He _]|(He & a & g & Hnext & Ha & Hg & Hf)].
  2:{ right. destruct (take_first None alloc c s G O R a g tt Hinv Hc Ha Hg Hf (or_introl eq_refl) Hnext He) as (x & s' & E & HO & G' & Hinv').
      exists x, s'. split; [by apply loop_stop|]. eauto. }
  assert (Hbody : cache_alloc_body alloc c tt s =
    (g ← kmem_cache_grow alloc c; if (g : bool) then mret (inl tt) else mret (inr None)) s).
  { unfold cache_alloc_body. by rewrite (bind_ok _ _ _ _ _ (on_slinks_ok _ _ _ _ He)), heap_slinks_id. }
  destruct (grow_ok alloc c s G O R Hal Hc Hinv) as [(s1 & E1 & Hinv1)|(s1 & G1 & a & g & E1 & Hinv1 & Ha & Hg & Hfr & Hnext & He1)].
  { left. exists s1. split; [|done]. apply loop_stop. by rewrite Hbody, (bind_ok _ _ _ _ _ E1). }
  right. destruct (take_first (Some a) alloc c s1 G1 O R a g tt) as (x & s' & E & HO & G' & Hinv'); try done; [|by right|].
  { unfold slab_is_full. rewrite Hfr. pose proof (lk_num _ _ (layout_facts c Hc)). rewrite (seqZ_cons 0) by lia. done. }
  exists x, s'. split; [|eauto]. rewrite (loop_next _ _ _ _ tt s1); [by apply loop_stop|].
  by rewrite Hbody, (bind_ok _ _ _ _ _ E1).
Qed.

Lemma kmem_cache_alloc_ok depth c : 0 ≤ c < 13 → allocates (kmem_cache_alloc (S (S depth))) c.
Proof.
  intros Hc. apply (cache_alloc_ok (kmem_cache_alloc (S depth)) c Hc). intros c' Ec.
  pose proof (lk_control _ _ (layout_facts c Hc)) as Hlk. rewrite Ec in Hlk. destruct Hlk as (_ & Hc' & _).
  apply (cache_alloc_ok (kmem_cache_alloc depth) c'); [lia|]. intros c'' Ec'.
  pose proof (lk_control _ _ (layout_facts c' ltac:(lia))) as Hlk. rewrite Ec' in Hlk. destruct Hlk as [Hoff _].
  by rewrite small_on_slab in Hoff.
Qed.

Lemma size_class_layout n : 0 < n ≤ 2 ^ 17 →
  let order := Z.max 5 (Z.log2_up n) in 5 ≤ order ≤ 17 ∧ objsize (layout (order - MIN_SIZE_ORDER)) = size_class n.
Proof.
  intros Hn order. assert (Z.log2_up n ≤ 17).
  { pose proof (Z.log2_up_le_mono n (2 ^ 17) ltac:(lia)) as Hl. by rewrite Z.log2_up_pow2 in Hl by lia. }
  assert (5 ≤ order ≤ 17) as Ho by lia. split; [done|]. unfold MIN_SIZE_ORDER.
  rewrite (lk_size _ _ (layout_facts (order - 5) ltac:(lia))). unfold size_class. f_equal. lia.
Qed.

Lemma kmalloc_inv s G O R n :
  heap_inv None s G O R → 0 < n ≤ 2 ^ 17 →
  (∃ s', kmalloc n s = Ok (None, s') ∧ starved (Z.max 5 (Z.log2_up n) - MIN_SIZE_ORDER) (pm s) ∧ ∃ G', heap_inv None s' G' O R) ∨
  (∃ x s', kmalloc n s = Ok (Some x, s') ∧ O !! x = None ∧ ∃ G', heap_inv None s' G' (<[x := size_class n]> O) R).
Proof.
  intros Hinv Hn. destruct (size_class_layout n Hn) as [Ho Esz]. set (order := Z.max 5 (Z.log2_up n)) in *.
  assert (E : kmalloc n s = kmem_cache_alloc cache_depth (order - MIN_SIZE_ORDER) s).
  { unfold kmalloc. rewrite (proj2 (Z.ltb_lt _ _)) by lia. rewrite (bind_ok _ _ s tt s) by done.
    rewrite (bind_ok _ _ s order s) by (by rewrite getorder_spec, (proj2 (Z.leb_le _ _)) by lia).
    unfold MAX_SIZE_ORDER. by rewrite (proj2 (Z.ltb_ge _ _)) by lia. }
  rewrite E, <-Esz. by apply (kmem_cache_alloc_ok 11 (order - MIN_SIZE_ORDER) ltac:(unfold MIN_SIZE_ORDER; lia) s G O R).
Qed.

Lemma kmalloc_range n s : n ≤ 0 ∨ 2 ^ 17 < n → kmalloc n s = Err Panic.
Proof.
  intros Hn. unfold kmalloc. destruct (Z.ltb_spec 0 n) as [H0|H0]; [|done].
  rewrite (bind_ok _ _ s tt s) by done. apply bind_err. by rewrite getorder_spec, (proj2 (Z.leb_gt _ _)) by lia.
Qed.
