(* ===== verification/KmemHeap.v ===== *)
(** * What the kernel heap guarantees

    After [slab_init], under any sequence of [kmalloc], [kfree] and of page
    requests by others: the live objects are disjoint, apart from the control
    blocks of the slabs and from the pages of others; no call panics or faults;
    when nothing is live every page is back. *)

From stdpp Require Import sets list_numbers relations.
From S2P Require Import Prelude DList Buddy BuddyInv BuddySpec BuddyAlloc BuddyInit BuddyPool Slab.
From S2P Require Import Kmem KmemInv KmemSpec KmemFree KmemAlloc.

Implicit Types (s : heap) (a c i x : Z) (g h : sinfo) (G : gmap Z sinfo) (O : gmap Z Z) (R : list (Z * Z)).

(** ** Booting *)

Definition boot_heap (p : pmm) : heap := mk_heap p ∅ ∅ ∅ ∅ ∅ ∅.

(** The first [i] caches have empty rings. *)
Definition empty_rings (w : gmap slink (list_entry slink)) i : Prop :=
  ∃ L, rep w L ∧ ∀ k l, L !! k = Some l ↔ l = [] ∧ ∃ c b, 0 ≤ c < i ∧ k = ring_head c b.

Lemma empty_ring_add (w : gmap slink (list_entry slink)) (L : gmap slink (list slink)) k :
  rep w L → (∀ k l, L !! k = Some l → l = []) → L !! k = None →
  ∃ w', list_init k w = Ok (tt, w') ∧ rep w' (<[k := []]> L).
Proof.
  intros Hr Hl Hk. apply rep_init; [done|]. apply unlisted_available. intros k' l' Hk' Hin.
  rewrite (Hl _ _ Hk') in Hin. apply list_elem_of_singleton in Hin. congruence.
Qed.

Lemma init_kmem_cache_ok s i :
  0 ≤ i < 13 → empty_rings (slinks s) i →
  ∃ w', init_kmem_cache i (2 ^ (i + 5)) 16 s = Ok (tt, s <| slinks := w' |> <| slab_cache := <[i := layout i]> (slab_cache s) |>) ∧
    empty_rings w' (i + 1).
Proof.
  intros Hi (L & Hr & HL).
  assert (Hnone : ∀ b, L !! ring_head i b = None).
  { intros b. destruct (L !! ring_head i b) eqn:E; [|done]. apply HL in E as (_ & c & b' & Hc & [-> ->]%ring_head_inj). lia. }
  assert (Hnil : ∀ k l, L !! k = Some l → l = []) by (intros k l E; by apply HL in E as [? _]).
  destruct (empty_ring_add (slinks s) L (slabs_full i) Hr Hnil (Hnone true)) as (w1 & E1 & Hr1).
  destruct (empty_ring_add w1 (<[slabs_full i := []]> L) (slabs_notfull i) Hr1) as (w2 & E2 & Hr2).
  { intros k l [[<- <-]|[_ E]]%lookup_insert_Some; [done|by apply (Hnil k)]. }
  { rewrite lookup_insert_ne by done. apply (Hnone false). }
  exists w2. split.
  - unfold init_kmem_cache. rewrite (bind_ok _ _ _ _ _ (on_slinks_ok _ s _ _ E1)).
    change (s <| slinks := w2 |> <| slab_cache := _ |>) with (s <| slinks := w1 |> <| slinks := w2 |> <| slab_cache := <[i := layout i]> (slab_cache s) |>).
    set (s1 := s <| slinks := w1 |>). rewrite (bind_ok _ _ _ _ _ (on_slinks_ok _ s1 _ _ E2)).
    by rewrite (bind_ok _ _ _ _ _ (cache_layout_ok i _ Hi)).
  - exists (<[slabs_notfull i := []]> (<[slabs_full i := []]> L)). split; [done|]. intros k l. split.
    + intros [[<- <-]|[_ [[<- <-]|[_ E]]%lookup_insert_Some]]%lookup_insert_Some.
      * split; [done|]. exists i, false. split; [lia|done].
      * split; [done|]. exists i, true. split; [lia|done].
      * apply HL in E as (-> & c & b & Hc & ->). split; [done|]. exists c, b. split; [lia|done].
    + intros (-> & c & b & Hc & ->). destruct (decide (c = i)) as [->|Hne].
      * destruct b; simpl; [rewrite lookup_insert_ne by done|]; apply lookup_insert_eq.
      * rewrite !lookup_insert_ne by (intros E; by destruct b; simplify_eq/=). apply HL. split; [done|]. exists c, b. split; [lia|done].
Qed.

Lemma slab_init_loop (n fuel : nat) i s :
  i + Z.of_nat n = 13 → 0 ≤ i → (n < fuel)%nat → empty_rings (slinks s) i →
  (∀ c, 0 ≤ c < i → slab_cache s !! c = Some (layout c)) →
  ∃ w' C, loop fuel slab_init_body i s = Ok (tt, s <| slinks := w' |> <| slab_cache := C |>) ∧ empty_rings w' 13 ∧
    ∀ c, 0 ≤ c < 13 → C !! c = Some (layout c).
Proof.
  revert fuel i s. induction n as [|n IH]; intros [|fuel] i s Hn H0 Hf Hw HC; try lia.
  - exists (slinks s), (slab_cache s). replace 13 with i by lia. split; [|done]. destruct s. apply loop_stop.
    unfold slab_init_body. rewrite (proj2 (Z.ltb_ge _ _)); [done|]. change SLAB_CACHE_NUM with 13. lia.
  - destruct (init_kmem_cache_ok s i ltac:(lia) Hw) as (w1 & E1 & Hw1).
    set (s1 := s <| slinks := w1 |> <| slab_cache := <[i := layout i]> (slab_cache s) |>) in *.
    destruct (IH fuel (i + 1) s1) as (w' & C & E & Hw' & HC'); [lia|lia|lia|done| |].
    { intros c Hc. simpl. destruct (decide (c = i)) as [->|Hne]; [apply lookup_insert_eq|].
      rewrite lookup_insert_ne by done. apply HC. lia. }
    exists w', C. split; [|done]. rewrite (loop_next _ _ _ _ (i + 1) s1); [exact E|]. unfold slab_init_body.
    rewrite (proj2 (Z.ltb_lt _ _)) by (change SLAB_CACHE_NUM with 13; lia).
    assert (u32 (Z.shiftl 1 (i + MIN_SIZE_ORDER)) = 2 ^ (i + 5)) as ->.
    { unfold MIN_SIZE_ORDER. rewrite shiftl_pow by lia. apply u32_id. split; [apply Z.pow_nonneg; lia|]. apply Z.pow_lt_mono_r; lia. }
    by rewrite (bind_ok _ _ _ _ _ E1).
Qed.

Lemma slab_init_ok p B R :
  pool_inv p B R → npage p ≤ KMEMSIZE / PGSIZE →
  ∃ s, slab_init (boot_heap p) = Ok (tt, s) ∧ heap_inv None s ∅ ∅ R ∧ pm s = p.
Proof.
  intros HB Hn. assert (empty_rings (slinks (boot_heap p)) 0) as Hw.
  { exists ∅. split; [apply rep_empty|]. intros k l. rewrite lookup_empty. split; [done|]. intros (_ & c & b & Hc & _). lia. }
  destruct (slab_init_loop 13 14 0 (boot_heap p) ltac:(lia) ltac:(lia) ltac:(lia) Hw ltac:(intros; lia)) as (w' & C & E & (L & Hr & HL) & HC).
  eexists. split; [exact E|]. clear E. split; [|done]. split.
  - constructor; [by exists B|done|done| |by intros a g].
    exists L. split; [done|]. split.
    + intros k [l Hl]. apply HL in Hl as (_ & c & b & Hc & ->). by exists c, b.
    + intros c b Hc. exists []. split; [apply HL; split; [done|]; by exists c, b|]. intros a. split; [by intros []%elem_of_nil|].
      intros (g & Hg & _). by rewrite lookup_empty in Hg.
  - constructor; [by intros a g|by intros a g|by intros x n|by intros a g|]. intros x (g & Hg & _). by rewrite lookup_empty in Hg.
Qed.

(** ** Clients *)

(** A state of the heap, the live objects with their sizes, and the ranges of
    pages that others hold. *)
Inductive heap_step : heap * gmap Z Z * list (Z * Z) → heap * gmap Z Z * list (Z * Z) → Prop :=
| step_kmalloc s s' O R n x :
    0 < n ≤ 2 ^ 17 → kmalloc n s = Ok (Some x, s') → heap_step (s, O, R) (s', <[x := size_class n]> O, R)
| step_kmalloc_null s s' O R n :
    0 < n ≤ 2 ^ 17 → kmalloc n s = Ok (None, s') → heap_step (s, O, R) (s', O, R)
| step_kfree s s' O R x n :
    O !! x = Some n → kfree x s = Ok (tt, s') → heap_step (s, O, R) (s', delete x O, R)
| step_get_pages s p' O R n p :
    0 < n ≤ 1024 → alloc_pages n (pm s) = Ok (Some p, p') → heap_step (s, O, R) (s <| pm := p' |>, O, (p, n) :: R)
| step_put_pages s p' O R1 R2 n p :
    free_pages p n (pm s) = Ok (tt, p') → heap_step (s, O, R1 ++ (p, n) :: R2) (s <| pm := p' |>, O, R1 ++ R2).

Definition heap_reachable s O R : Prop :=
  ∃ p0 R0 s0, pool_reachable p0 R0 ∧ npage p0 ≤ KMEMSIZE / PGSIZE ∧ slab_init (boot_heap p0) = Ok (tt, s0) ∧
    rtc heap_step (s0, ∅, R0) (s, O, R).

Lemma heap_step_inv s O R s' O' R' G :
  heap_step (s, O, R) (s', O', R') → heap_inv None s G O R → ∃ G', heap_inv None s' G' O' R'.
Proof.
  intros Hst Hinv. inversion Hst as [? ? ? ? n x Hn E|? ? ? ? n Hn E|? ? ? ? x n Hx E|? p' ? ? n p Hn E|? p' ? R1 R2 n p E]; simplify_eq.
  - destruct (kmalloc_inv s G O R' n Hinv Hn) as [(s1 & E1 & _)|(x1 & s1 & E1 & _ & Hinv')]; [congruence|].
    rewrite E in E1. by simplify_eq.
  - destruct (kmalloc_inv s G O' R' n Hinv Hn) as [(s1 & E1 & _ & Hinv')|(x1 & s1 & E1 & _)]; [|congruence].
    rewrite E in E1. by simplify_eq.
  - destruct (kfree_ok s G O R' x n Hinv Hx) as (s1 & G1 & E1 & Hinv'). rewrite E in E1. simplify_eq. eauto.
  - destruct (heap_alloc_pages None s G O' R n Hinv Hn) as [(p1 & p2 & E1 & Hinv')|E1]; [|congruence].
    rewrite E in E1. simplify_eq. eauto.
  - destruct (heap_free_pages None s G O' R1 p n R2 Hinv) as (p1 & E1 & Hinv'). rewrite E in E1. simplify_eq. eauto.
Qed.

Lemma heap_reachable_inv s O R : heap_reachable s O R → ∃ G, heap_inv None s G O R.
Proof.
  intros (p0 & R0 & s0 & Hp & Hn & E & Hrtc). destruct (pool_reachable_inv _ _ Hp) as [B HB].
  destruct (slab_init_ok p0 B R0 HB Hn) as (s0' & E' & Hinv & _). rewrite E in E'. injection E' as <-. clear E HB Hp Hn.
  remember (s0, ∅, R0) as c0 eqn:E0. remember (s, O, R) as c1 eqn:E1.
  assert (∃ G, heap_inv None c0.1.1 G c0.1.2 c0.2) as Hex by (subst; eauto). clear - Hrtc Hex E1.
  enough (∃ G, heap_inv None c1.1.1 G c1.1.2 c1.2) as Hg by by subst. clear E1.
  induction Hrtc as [c|c1 c2 c3 Hstep _ IH]; [done|]. apply IH. destruct Hex as [G Hinv].
  destruct c1 as [[s1 O1] R1], c2 as [[s2 O2] R2]. by apply (heap_step_inv s1 O1 R1 s2 O2 R2 G).
Qed.

Lemma heap_reachable_step s O R s' O' R' :
  heap_reachable s O R → heap_step (s, O, R) (s', O', R') → heap_reachable s' O' R'.
Proof.
  intros (p0 & R0 & s0 & Hp & Hn & E & Hrtc) Hst. exists p0, R0, s0. split; [exact Hp|]. split; [exact Hn|]. split; [exact E|].
  eapply rtc_r; [exact Hrtc|exact Hst].
Qed.

(** ** Where objects and control blocks are *)

Section inv.
Context {s : heap} {G : gmap Z sinfo} {O : gmap Z Z} {R : list (Z * Z)}.
Hypothesis Hinv : heap_inv None s G O R.

(** Two objects of slabs that are not the same share no byte. *)
Lemma objects_apart a g i b h j :
  G !! a = Some g → object g i → G !! b = Some h → object h j → obj g i ≠ obj h j →
  obj g i + objsize (lay g) ≤ obj h j ∨ obj h j + objsize (lay h) ≤ obj g i.
Proof.
  destruct Hinv as [Hb Ho]. intros Ha Hi Hh Hj Hne. pose proof (objsize_pos Hb _ _ Ha). pose proof (objsize_pos Hb _ _ Hh).
  destruct (Z.le_gt_cases (obj g i + objsize (lay g)) (obj h j)); [by left|].
  destruct (Z.le_gt_cases (obj h j + objsize (lay h)) (obj g i)); [by right|]. exfalso. apply Hne.
  destruct (Z.le_gt_cases (obj g i) (obj h j)).
  - by destruct (obj_disjoint Hb a g i b h j (obj h j - obj g i) 0) as (_ & -> & ->); try done; lia.
  - by destruct (obj_disjoint Hb a g i b h j 0 (obj g i - obj h j)) as (_ & -> & ->); try done; lia.
Qed.

Lemma live_disjoint x n y m : O !! x = Some n → O !! y = Some m → x ≠ y → x + n ≤ y ∨ y + m ≤ x.
Proof.
  intros Hx Hy Hne. destruct (hi_live _ _ _ (proj2 Hinv) _ _ Hx) as (a & g & i & Ha & [Hi _] & -> & ->).
  destruct (hi_live _ _ _ (proj2 Hinv) _ _ Hy) as (b & h & j & Hh & [Hj _] & -> & ->). by apply (objects_apart a g i b h j).
Qed.

Lemma live_in_kernel x n d :
  O !! x = Some n → 0 ≤ d < n → KERNBASE ≤ x + d < KERNTOP ∧ ¬ held_by R ((x + d - KERNBASE) / PGSIZE).
Proof.
  intros Hx Hd. destruct (hi_live _ _ _ (proj2 Hinv) _ _ Hx) as (a & g & i & Ha & [Hi _] & -> & ->).
  destruct (obj_byte (proj1 Hinv) a g i d Ha Hi Hd) as [Hq Hr]. split; [done|]. intros Hh.
  destruct (hi_pool _ _ _ (proj1 Hinv)) as [B HB]. pose proof (pi_disjoint _ _ _ HB) as Hdis.
  rewrite (ranges_delete G a g Ha) in Hdis. destruct Hdis as [Hdis _]. apply (Hdis _ Hq). unfold held_by in *.
  destruct Hh as (r & Hr' & ?). exists r. split; [|done]. apply elem_of_app. by right.
Qed.

Lemma control_apart a g x n :
  G !! a = Some g → O !! x = Some n → a + (sizeof_slab + num (lay g) * sizeof_bufctl) ≤ x ∨ x + n ≤ a.
Proof.
  destruct Hinv as [Hb Ho]. intros Ha Hx. destruct (hi_live _ _ _ Ho _ _ Hx) as (b & h & j & Hh & [Hj Hnj] & -> & ->).
  pose proof (lk_control _ _ (slab_layout Hb _ _ Ha)) as Hlk. pose proof (hi_control _ _ _ Ho _ _ Ha) as Hco.
  pose proof (objsize_pos Hb _ _ Hh) as Hsz. unfold control_ok in Hco. destruct (slab_cachep (lay g)) as [c'|].
  - destruct Hlk as (Hoff & Hc' & Hfit). destruct Hco as (b' & h' & i & Hh' & Ec & [Hi _] & Ea).
    assert (objsize (lay h') = 2 ^ (c' + 5)) as Esz by (rewrite <-Ec; apply (lk_size _ _ (slab_layout Hb _ _ Hh'))).
    destruct (objects_apart b' h' i b h j Hh' Hi Hh Hj) as [?|?]; [|left; lia|right; lia]. intros E.
    assert (with_control G a) as Hw%(hi_own _ _ _ Ho) by by exists g. congruence.
  - destruct Hlk as [_ Hfit]. pose proof (lk_order _ _ (slab_layout Hb _ _ Ha)) as Ho1.
    pose proof (lk_order _ _ (slab_layout Hb _ _ Hh)) as Ho2. pose proof (slab_layout Hb _ _ Ha) as Hk.
    destruct (decide (b = a)) as [->|Hne].
    { assert (h = g) as -> by congruence. left. unfold obj. unfold object in Hj. rewrite Hco. nia. }
    (* other pages *)
    assert (Hpg : ∀ d, 0 ≤ d < objsize (lay h) → obj h j + d < a ∨ a + (sizeof_slab + num (lay g) * sizeof_bufctl) ≤ obj h j + d).
    { intros d Hd. destruct (Z.lt_ge_cases (obj h j + d) a) as [?|Hge]; [by left|].
      destruct (Z.le_gt_cases (a + (sizeof_slab + num (lay g) * sizeof_bufctl)) (obj h j + d)) as [?|Hlt]; [by right|]. exfalso.
      destruct (obj_byte Hb b h j d Hh Hj Hd) as [Hq _]. apply Hne.
      destruct (slab_page_unique Hb b h a g ((obj h j + d - KERNBASE) / PGSIZE) Hh Ha Hq) as [-> _]; [|done].
      pose proof (lk_fits _ _ Hk) as Hfits. pose proof (lk_num _ _ Hk). pose proof (objsize_pos Hb _ _ Ha).
      pose proof (pow2_pos (page_order (lay g)) ltac:(lia)).
      rewrite Hco in Hge, Hlt. unfold kva in Hge, Hlt. set (e := obj h j + d - KERNBASE - si_page g * PGSIZE).
      assert (0 ≤ e < PGSIZE * 2 ^ page_order (lay g)) as He by (unfold e; split; [lia|nia]).
      replace (obj h j + d - KERNBASE) with (e + si_page g * PGSIZE) by (unfold e; lia). rewrite Z.div_add by done.
      unfold in_range. simpl. assert (0 ≤ e / PGSIZE) by (apply Z.div_pos; [lia|done]).
      assert (e / PGSIZE < 2 ^ page_order (lay g)) by (apply Z.div_lt_upper_bound; [done|lia]). lia. }
    destruct (Hpg 0 ltac:(lia)) as [Hl|?]; [right|left; lia].
    destruct (Z.le_gt_cases (obj h j + objsize (lay h)) a) as [?|Hgt]; [done|]. exfalso.
    destruct (Hpg (a - obj h j) ltac:(lia)) as [?|?]; [lia|]. unfold sizeof_slab, sizeof_bufctl in *.
    pose proof (lk_num _ _ Hk). lia.
Qed.

(** Without a live object there is no slab: an object in use is then a control
    block, whose slab has one in turn, in a cache that keeps its control blocks
    in its own pages. *)
Lemma no_live_no_slab : O = ∅ → G = ∅.
Proof.
  destruct Hinv as [Hb Ho]. intros HO.
  assert (Hobj : ∀ a g, G !! a = Some g → ∃ i, allocated g i).
  { intros a g Ha. pose proof (hi_used _ _ _ Ho a g Ha ltac:(done)) as Hu. pose proof (lk_num _ _ (slab_layout Hb _ _ Ha)).
    destruct (decide (Forall (λ i, i ∈ si_free g) (seqZ 0 (num (lay g))))) as [Hall|Hn].
    - exfalso. pose proof (NoDup_submseteq _ (si_free g) (NoDup_seqZ 0 (num (lay g))) (proj1 (Forall_forall _ _) Hall)) as Hsub.
      apply submseteq_length in Hsub. rewrite length_seqZ in Hsub. lia.
    - apply not_Forall_Exists in Hn; [|apply _]. apply Exists_exists in Hn as (i & Hi%elem_of_seqZ & Hni). exists i.
      split; [unfold object; lia|done]. }
  assert (Hctl : ∀ a g i, G !! a = Some g → allocated g i → off_slab (lay g) = false ∧ with_control G (obj g i)).
  { intros a g i Ha Hi. destruct (hi_block _ _ _ Ho a g i Ha Hi) as [[? Hx]|(h & Hh & Hoff)]; [by rewrite HO in Hx|].
    split; [|by exists h]. pose proof (lk_control _ _ (slab_layout Hb _ _ Hh)) as Hlk.
    pose proof (hi_control _ _ _ Ho _ _ Hh) as Hco. unfold control_ok in Hco. destruct (slab_cachep (lay h)) as [c'|]; [|destruct Hlk; congruence].
    destruct Hco as (b & h' & j & Hh' & Ec & [Hj _] & E). destruct Hi as [Hi _].
    destruct (obj_inj Hb a g i b h' j Ha Hi Hh' Hj E) as (_ & -> & _). unfold lay. rewrite Ec. apply small_on_slab, Hlk. }
  apply map_empty. intros a. destruct (G !! a) as [g|] eqn:Ha; [|done]. exfalso.
  destruct (Hobj a g Ha) as [i Hi]. destruct (Hctl a g i Ha Hi) as [_ (h & Hh & Hoff)].
  destruct (Hobj _ h Hh) as [j Hj]. destruct (Hctl _ h j Hh Hj) as [Hoff' _]. congruence.
Qed.
End inv.

(** Empty rings add nothing to the count. *)
Lemma empty_walks s c total L :
  rep (slinks s) L → L !! slabs_full c = Some [] → L !! slabs_notfull c = Some [] →
  loop (S (size (slinks s))) (full_body c) (slabs_full c, total) s = Ok (total, s) ∧
  loop (S (size (slinks s))) (notfull_body c) (slabs_notfull c, total) s = Ok (total, s).
Proof.
  intros Hr Hf Hn. split; apply loop_stop.
  - unfold full_body. rewrite (bind_ok _ _ _ _ _ (on_slinks_ok _ _ _ _ (list_next_cursor _ _ (slabs_full c) [] [] Hr Hf))).
    rewrite heap_slinks_id. by rewrite decide_True.
  - unfold notfull_body. rewrite (bind_ok _ _ _ _ _ (on_slinks_ok _ _ _ _ (list_next_cursor _ _ (slabs_notfull c) [] [] Hr Hn))).
    rewrite heap_slinks_id. by rewrite decide_True.
Qed.

Lemma no_slab_allocated s O R : heap_inv None s ∅ O R → slab_allocated s = Ok (0, s).
Proof.
  intros [Hb _]. destruct (hi_lists _ _ _ Hb) as (L & Hr & _ & Hl). unfold slab_allocated.
  assert (Hnil : ∀ c b, 0 ≤ c < 13 → L !! ring_head c b = Some []).
  { intros c b Hc. destruct (Hl c b Hc) as (l & El & Hm). destruct l as [|a l]; [done|]. exfalso.
    destruct (proj1 (Hm a)) as (g & Hg & _); [by left|]. by rewrite lookup_empty in Hg. }
  apply (loop_iter 13 14 allocated_body (λ k : nat, (Z.of_nat k, 0)) (λ _, s)); [| |lia].
  - intros k Hk. unfold allocated_body. rewrite (proj2 (Z.ltb_lt _ _)) by (change SLAB_CACHE_NUM with 13; lia).
    rewrite (bind_ok get _ s s s) by done.
    destruct (empty_walks s (Z.of_nat k) 0 L Hr (Hnil (Z.of_nat k) true ltac:(lia)) (Hnil (Z.of_nat k) false ltac:(lia))) as [E1 E2].
    rewrite (bind_ok _ _ _ _ _ E1), (bind_ok _ _ _ _ _ E2). unfold mret, M_ret. do 4 f_equal. lia.
  - done.
Qed.

(** ** The properties *)

(** C15. The kernel heap.  After [slab_init] and any sequence of [kmalloc],
    [kfree] of live objects and page requests by others:
    - live objects share no byte with each other, with the control block
      ([slab_t] and its [bufctl] array) of any slab on a ring, or with pages
      that others hold;
    - [kmalloc] of 1 byte to 128 KB returns: a new object of the request's size
      class, apart from all live ones, or [NULL], and then the page allocator
      had no pages for a slab of the class or for its control block;
    - [kmalloc] of 0 or of more than 128 KB panics;
    - [kfree] of a live object returns, and so does [kfree] of [NULL];
    - when nothing is live, [slab_allocated] is 0 and every page that nobody
      else holds is free again. *)
Theorem kernel_heap_correct s O R :
  heap_reachable s O R →
  (∀ x n y m, O !! x = Some n → O !! y = Some m → x ≠ y → x + n ≤ y ∨ y + m ≤ x) ∧
  (∀ x n d, O !! x = Some n → 0 ≤ d < n → KERNBASE ≤ x + d < KERNTOP ∧ ¬ held_by R ((x + d - KERNBASE) / PGSIZE)) ∧
  (∃ L, rep (slinks s) L ∧ ∀ c full, 0 ≤ c < SLAB_CACHE_NUM →
     ∃ l k, L !! ring_head c full = Some (slab_link <$> l) ∧ slab_cache s !! c = Some k ∧
       ∀ a x n, a ∈ l → O !! x = Some n → a + (sizeof_slab + num k * sizeof_bufctl) ≤ x ∨ x + n ≤ a) ∧
  (∀ n, if (0 <? n) && (n <=? 2 ^ 17) then
     ∃ r s', kmalloc n s = Ok (r, s') ∧
       match r with
       | Some x => n ≤ size_class n ∧ heap_reachable s' (<[x := size_class n]> O) R ∧ O !! x = None ∧
           ∀ y m, O !! y = Some m → x + size_class n ≤ y ∨ y + m ≤ x
       | None => heap_reachable s' O R ∧ starved (Z.max 5 (Z.log2_up n) - MIN_SIZE_ORDER) (pm s)
       end
   else kmalloc n s = Err Panic) ∧
  (∀ x n, O !! x = Some n → ∃ s', kfree x s = Ok (tt, s') ∧ heap_reachable s' (delete x O) R) ∧
  kfree 0 s = Ok (tt, s) ∧
  (O = ∅ → slab_allocated s = Ok (0, s) ∧
     ∃ F : gset Z, (∀ q, q ∈ F ↔ page_available (pm s) R q) ∧ nr_free_pages (pm s) = Ok (Z.of_nat (size F), pm s)).
Proof.
  intros Hr. destruct (heap_reachable_inv s O R Hr) as [G Hinv]. split_and!.
  - intros x n y m. by apply (live_disjoint Hinv).
  - intros x n d. by apply (live_in_kernel Hinv).
  - destruct (hi_lists _ _ _ (proj1 Hinv)) as (L & Hrep & _ & Hl). exists L. split; [done|]. intros c full Hc.
    destruct (Hl c full Hc) as (l & El & Hm). exists l, (layout c). split; [done|]. split; [by apply Hinv|].
    intros a x n Ha Hx. apply Hm in Ha as (g & Hg & <- & _). by apply (control_apart Hinv a g x n).
  - intros n. destruct (Z.ltb_spec 0 n) as [H0|H0]; [|apply kmalloc_range; lia].
    destruct (Z.leb_spec n (2 ^ 17)) as [Hn|Hn]; [|apply kmalloc_range; lia]. cbn [andb].
    destruct (kmalloc_inv s G O R n Hinv ltac:(lia)) as [(s' & E & Hst & _)|(x & s' & E & HO & G' & Hinv')].
    + exists None, s'. split; [done|]. split; [|done]. apply (heap_reachable_step s O R); [done|]. apply (step_kmalloc_null _ _ _ _ n); [lia|done].
    + exists (Some x), s'. split; [done|]. split; [apply size_class_range; lia|]. split; [|split; [done|]].
      * apply (heap_reachable_step s O R); [done|]. apply step_kmalloc; [lia|done].
      * intros y m Hy. assert (x ≠ y) by congruence. apply (live_disjoint Hinv'); [apply lookup_insert_eq|by rewrite lookup_insert_ne|done].
  - intros x n Hx. destruct (kfree_ok s G O R x n Hinv Hx) as (s' & G' & E & _). exists s'. split; [done|].
    apply (heap_reachable_step s O R); [done|]. by apply (step_kfree _ _ _ _ _ n).
  - done.
  - intros HO. pose proof (no_live_no_slab Hinv HO) as ->. split; [by apply (no_slab_allocated s O R)|].
    destruct (hi_pool _ _ _ (proj1 Hinv)) as [B HB]. destruct (nr_free_pages_ok _ _ (pi_inv _ _ _ HB)) as (F & HF & E).
    exists F. split; [|done]. intros q. by rewrite HF, (pi_all _ _ _ HB).
Qed.

(** ** A machine with 13 pages *)

Definition heap0 : heap := run_state slab_init (boot_heap machine0).
Definition heap1 : heap := run_state (kmalloc 100) heap0.
Definition heap2 : heap := run_state (kmalloc 1000) heap1.
Definition object1 : Z := 3221278864.
Definition object2 : Z := 3221262336.
Definition objects2 : gmap Z Z := <[object2 := size_class 1000]> (<[object1 := size_class 100]> ∅).

Lemma heap2_reachable : heap_reachable heap2 objects2 [].
Proof.
  assert (heap_reachable heap0 ∅ []) as H0.
  { exists machine0, [], heap0. destruct machine_reachable as [H _]. split; [exact H|]. split; [by vm_compute|].
    split; [by_run|]. apply rtc_refl. }
  assert (heap_reachable heap1 (<[object1 := size_class 100]> ∅) []) as H1.
  { apply (heap_reachable_step heap0 ∅ [] _ _ _ H0), step_kmalloc; [lia|by_run]. }
  apply (heap_reachable_step heap1 _ [] _ _ _ H1), step_kmalloc; [lia|by_run].
Qed.

(** The second object is a page of its own slab, whose control block of 64
    bytes is an object of the second cache. *)
Lemma kernel_heap_correct_witness :
  heap_reachable heap2 objects2 [] ∧ run_result slab_allocated heap2 = Some (128 + 1024 + 64) ∧
  ¬ held_by [] ((object2 + 1023 - KERNBASE) / PGSIZE) ∧ ∃ s', kfree object2 heap2 = Ok (tt, s').
Proof.
  split; [exact heap2_reachable|]. split; [by vm_compute|].
  destruct (kernel_heap_correct heap2 objects2 [] heap2_reachable) as (_ & Hk & _ & _ & Hf & _).
  split; [apply (Hk object2 1024 1023); [by vm_compute|lia]|].
  destruct (Hf object2 1024) as (s' & E & _); [by vm_compute|]. by exists s'.
Defined.
