(* ===== verification/RbTree.v ===== *)
(** * [libs/rb_tree.c]: red-black trees

    The trees of the memory areas.  A node is a member of the object it
    orders; the store of nodes maps the address of each to its fields, with
    the two extra nodes of a tree: [nil], which every leaf pointer designates,
    and [root], whose left child is the root of the tree.  The macros
    [FUNC_ROTATE], [RB_INSERT_SUB] and [RB_DELETE_FIXUP_SUB], which the source
    instantiates with the names of two members, take a [side]. *)

From S2P Require Import Prelude.

(** [_left] and [_right] of the macros. *)
Inductive side : Type := sleft | sright.
#[export] Instance side_eq_dec : EqDecision side.
Proof. solve_decision. Defined.
Definition other (s : side) : side := match s with sleft => sright | sright => sleft end.

Record rb_node (K : Type) : Type := mk_rb { red : bool; parent : K; left : K; right : K }.
Arguments mk_rb {K} _ _ _ _.
Arguments red {K} _.
Arguments parent {K} _.
Arguments left {K} _.
Arguments right {K} _.
#[export] Instance eta_rb_node K : Eta (rb_node K) := λ r, mk_rb (red r) (parent r) (left r) (right r).

(** [compare] is a function of the two nodes that the tree operations call. *)
Record rb_tree (K : Type) : Type := mk_tree { compare : K → K → Z; nil : K; root : K }.
Arguments mk_tree {K} _ _ _.
Arguments compare {K} _ _ _.
Arguments nil {K} _.
Arguments root {K} _.

Section rb_tree.
Context {K : Type} `{Countable K}.
Notation heap := (gmap K (rb_node K)).
Implicit Types (tree : rb_tree K) (node x y z w : K).

(** Loads and stores of members. *)
Definition child (s : side) (n : rb_node K) : K := match s with sleft => left n | sright => right n end.
Definition with_child (s : side) (v : K) (n : rb_node K) : rb_node K :=
  match s with sleft => n <| left := v |> | sright => n <| right := v |> end.
Definition rd {A} (f : rb_node K → A) (p : K) : M heap A := n ← deref (λ h : heap, h !! p); mret (f n).
Definition wr (p : K) (f : rb_node K → rb_node K) : M heap unit :=
  n ← deref (λ h : heap, h !! p); modify (λ h : heap, <[p := f n]> h).
Definition set_child (s : side) (p v : K) : M heap unit := wr p (with_child s v).
Definition set_parent (p v : K) : M heap unit := wr p (λ n, n <| parent := v |>).
Definition set_red (p : K) (c : bool) : M heap unit := wr p (λ n, n <| red := c |>).

(** [t]: whether [kmalloc] finds room for the tree; [a], [b]: what the two
    calls of [rb_node_create] answer. *)
Definition rb_tree_create (cmp : K → K → Z) (t : bool) (a b : option K) : M heap (option (rb_tree K)) :=
  if negb t then mret None else
  match a with
  | None => mret None
  | Some nl =>
      _ ← modify (λ h : heap, <[nl := mk_rb false nl nl nl]> h);
      match b with
      | None => _ ← modify (λ h : heap, delete nl h); mret None
      | Some rt =>
          _ ← modify (λ h : heap, <[rt := mk_rb false nl nl nl]> h);
          mret (Some (mk_tree cmp nl rt))
      end
  end.
Definition rb_tree_destroy tree : M heap unit :=
  modify (λ h : heap, delete (nil tree) (delete (root tree) h)).

Definition rb_tree_empty tree : M heap bool :=
  l ← rd left (root tree); mret (bool_decide (l = nil tree)).

(** [FUNC_ROTATE(_, s, other s)]. *)
Definition rb_rotate (s : side) tree x : M heap unit :=
  y ← rd (child (other s)) x;
  _ ← assert (bool_decide (x ≠ root tree ∧ x ≠ nil tree ∧ y ≠ nil tree));
  yl ← rd (child s) y;
  _ ← set_child (other s) x yl;
  yl ← rd (child s) y;
  _ ← when (bool_decide (yl ≠ nil tree)) (set_parent yl x);
  xp ← rd parent x;
  _ ← set_parent y xp;
  xp ← rd parent x;
  xs ← rd (child s) xp;
  _ ← (if decide (x = xs) then set_child s xp y else set_child (other s) xp y);
  _ ← set_child s y x;
  _ ← set_parent x y;
  r ← rd red (nil tree);
  assert (negb r).

(** Fuel of a loop that walks the tree: the number of nodes in the store. *)
Definition walk {A B} (body : A → M heap (A + B)) (a : A) : M heap B :=
  h ← get; loop (S (size h)) body a.

Definition insert_binary_body tree node (p : K * K) : M heap (K * K + K) :=
  let '(y, x) := p in
  if decide (x ≠ nil tree) then
    x' ← (if 0 <? compare tree x node then rd left x else rd right x);
    mret (inl (x, x'))
  else mret (inr y).
Definition rb_insert_binary tree node : M heap unit :=
  let z := node in
  _ ← set_child sright z (nil tree);
  _ ← set_child sleft z (nil tree);
  x ← rd left (root tree);
  y ← walk (insert_binary_body tree node) (root tree, x);
  _ ← set_parent z y;
  if decide (y = root tree) then set_child sleft y z
  else if 0 <? compare tree y z then set_child sleft y z else set_child sright y z.

(** [RB_INSERT_SUB(s, other s)]: the new [x]. *)
Definition rb_insert_sub (s : side) tree x : M heap K :=
  p ← rd parent x; g ← rd parent p;
  y ← rd (child (other s)) g;
  yr ← rd red y;
  if (yr : bool) then
    _ ← set_red p false;
    _ ← set_red y false;
    _ ← set_red g true;
    mret g
  else
    po ← rd (child (other s)) p;
    x ← (if decide (x = po) then _ ← rb_rotate s tree p; mret p else mret x);
    p ← rd parent x;
    _ ← set_red p false;
    g ← rd parent p;
    _ ← set_red g true;
    _ ← rb_rotate (other s) tree g;
    mret x.

Definition rb_insert_body tree x : M heap (K + unit) :=
  p ← rd parent x;
  r ← rd red p;
  if (r : bool) then
    g ← rd parent p;
    gl ← rd left g;
    x' ← rb_insert_sub (if decide (p = gl) then sleft else sright) tree x;
    mret (inl x')
  else mret (inr tt).
Definition rb_insert tree node : M heap unit :=
  _ ← rb_insert_binary tree node;
  _ ← set_red node true;
  _ ← walk (rb_insert_body tree) node;
  l ← rd left (root tree);
  _ ← set_red l false;
  rn ← rd red (nil tree);
  rr ← rd red (root tree);
  assert (negb rn && negb rr).

(** The extreme node of a subtree on side [s]. *)
Definition descend_body (s : side) tree y : M heap (K + K) :=
  l ← rd (child s) y;
  if decide (l ≠ nil tree) then mret (inl l) else mret (inr y).

Definition successor_body (p : K * K) : M heap (K * K + K) :=
  let '(x, y) := p in
  r ← rd right y;
  if decide (x = r) then y' ← rd parent y; mret (inl (y, y')) else mret (inr y).
Definition rb_tree_successor tree node : M heap K :=
  y ← rd right node;
  if decide (y ≠ nil tree) then walk (descend_body sleft tree) y
  else
    y ← rd parent node;
    y ← walk successor_body (node, y);
    if decide (y = root tree) then mret (nil tree) else mret y.

Definition predecessor_body tree (p : K * K) : M heap (K * K + K) :=
  let '(x, y) := p in
  l ← rd left y;
  if decide (x = l) then
    if decide (y = root tree) then mret (inr (nil tree))
    else y' ← rd parent y; mret (inl (y, y'))
  else mret (inr y).
Definition rb_tree_predecessor tree node : M heap K :=
  y ← rd left node;
  if decide (y ≠ nil tree) then walk (descend_body sright tree) y
  else
    y ← rd parent node;
    walk (predecessor_body tree) (node, y).

Definition search_body tree (cmp : K → Z) node : M heap (K + K) :=
  if decide (node ≠ nil tree) then
    let r := cmp node in
    if r =? 0 then mret (inr node)
    else n ← (if 0 <? r then rd left node else rd right node); mret (inl n)
  else mret (inr node).
Definition rb_search tree (cmp : K → Z) : M heap (option K) :=
  node ← rd left (root tree);
  node ← walk (search_body tree cmp) node;
  mret (if decide (node ≠ nil tree) then Some node else None).

(** [RB_DELETE_FIXUP_SUB(s, other s)]: the new [x]; [rt] is the variable
    [root] of [rb_delete_fixup]. *)
Definition rb_delete_fixup_sub (s : side) tree (rt : K) x : M heap K :=
  xp ← rd parent x;
  w ← rd (child (other s)) xp;
  wr_ ← rd red w;
  w ← (if (wr_ : bool) then
         _ ← set_red w false;
         xp ← rd parent x;
         _ ← set_red xp true;
         _ ← rb_rotate s tree xp;
         xp ← rd parent x;
         rd (child (other s)) xp
       else mret w);
  wl ← rd (child s) w;
  wlr ← rd red wl;
  wo ← rd (child (other s)) w;
  wor ← rd red wo;
  if negb wlr && negb wor then
    _ ← set_red w true;
    rd parent x
  else
    w ← (if negb wor then
           wl ← rd (child s) w;
           _ ← set_red wl false;
           _ ← set_red w true;
           _ ← rb_rotate (other s) tree w;
           xp ← rd parent x;
           rd (child (other s)) xp
         else mret w);
    xp ← rd parent x;
    c ← rd red xp;
    _ ← set_red w c;
    _ ← set_red xp false;
    wo ← rd (child (other s)) w;
    _ ← set_red wo false;
    _ ← rb_rotate s tree xp;
    mret rt.

Definition delete_fixup_body tree (rt : K) x : M heap (K + K) :=
  if decide (x ≠ rt) then
    r ← rd red x;
    if negb r then
      xp ← rd parent x;
      l ← rd left xp;
      x' ← rb_delete_fixup_sub (if decide (x = l) then sleft else sright) tree rt x;
      mret (inl x')
    else mret (inr x)
  else mret (inr x).
Definition rb_delete_fixup tree node : M heap unit :=
  rt ← rd left (root tree);
  x ← walk (delete_fixup_body tree rt) node;
  set_red x false.

Definition rb_delete tree node : M heap unit :=
  let z := node in
  zl ← rd left z;
  zr ← rd right z;
  y ← (if decide (zl = nil tree ∨ zr = nil tree) then mret z else rb_tree_successor tree z);
  yl ← rd left y;
  x ← (if decide (yl ≠ nil tree) then mret yl else rd right y);
  _ ← assert (bool_decide (y ≠ root tree ∧ y ≠ nil tree));
  yp ← rd parent y;
  _ ← set_parent x yp;
  yp ← rd parent y;
  ypl ← rd left yp;
  _ ← (if decide (y = ypl) then set_child sleft yp x else set_child sright yp x);
  yr ← rd red y;
  _ ← (if decide (y ≠ z) then
         zp ← rd parent z;
         zpl ← rd left zp;
         _ ← (if decide (z = zpl) then set_child sleft zp y else set_child sright zp y);
         zr ← rd right z;
         _ ← set_parent zr y;
         zl ← rd left z;
         _ ← set_parent zl y;
         nz ← deref (λ h : heap, h !! z);
         wr y (λ _, nz)
       else mret tt);
  if negb yr then rb_delete_fixup tree x else mret tt.

Definition rb_node_prev tree node : M heap (option K) :=
  p ← rb_tree_predecessor tree node; mret (if decide (p ≠ nil tree) then Some p else None).
Definition rb_node_next tree node : M heap (option K) :=
  n ← rb_tree_successor tree node; mret (if decide (n ≠ nil tree) then Some n else None).
Definition rb_node_root tree : M heap (option K) :=
  n ← rd left (root tree); mret (if decide (n ≠ nil tree) then Some n else None).
Definition rb_node_left tree node : M heap (option K) :=
  n ← rd left node; mret (if decide (n ≠ nil tree) then Some n else None).
Definition rb_node_right tree node : M heap (option K) :=
  n ← rd right node; mret (if decide (n ≠ nil tree) then Some n else None).
End rb_tree.
