(* ===== verification/RbRep.v ===== *)
(** * Red-black trees in the store

    [Rep] relates the pointer structure of [RbTree] to an inductive tree; a
    context is the path from a place in the tree up to its root, as the code
    follows it by [parent].  Recolouring, rotation, the attachment of a leaf
    and the removal of a node are proved here once, on both sides. *)

From S2P Require Import Prelude RbTree.

(** ** Trees and contexts *)

Inductive tree (K : Type) : Type := E | T (c : bool) (l : tree K) (k : K) (r : tree K).
Arguments E {K}.
Arguments T {K} _ _ _ _.

(** One step up: the subtree is the child [s] of the node [k]. *)
Record frame (K : Type) : Type := Fr { f_side : side; f_red : bool; f_key : K; f_sib : tree K }.
Arguments Fr {K} _ _ _ _.
Arguments f_side {K} _.
Arguments f_red {K} _.
Arguments f_key {K} _.
Arguments f_sib {K} _.

Section rep.
Context {K : Type} `{Countable K} (tr : rb_tree K).
Notation heap := (gmap K (rb_node K)).
Notation ctx := (list (frame K)).
Implicit Types (h : heap) (t a b d : tree K) (k x y z p q : K) (C : ctx) (s : side).

(** The node with [a] on side [s] and [b] on the other. *)
Definition node s (c : bool) a k b : tree K := match s with sleft => T c a k b | sright => T c b k a end.
Definition fill_in (f : frame K) t : tree K := node (f_side f) (f_red f) t (f_key f) (f_sib f).
Fixpoint plug C t : tree K := match C with [] => t | f :: C => plug C (fill_in f t) end.

Fixpoint inorder t : list K := match t with E => [] | T _ l k r => inorder l ++ k :: inorder r end.
Definition ptr t : K := match t with E => nil tr | T _ _ k _ => k end.
Definition is_red t : bool := match t with E => false | T c _ _ _ => c end.

Definition around s (l : list K) k (m : list K) : list K := match s with sleft => l ++ k :: m | sright => m ++ k :: l end.
Fixpoint ckeys C : list K := match C with [] => [] | f :: C => f_key f :: inorder (f_sib f) ++ ckeys C end.

(** The parent of the place, and the side it is on. *)
Definition parent_of C : K := match C with [] => root tr | f :: _ => f_key f end.
Definition hole_side C : side := match C with [] => sleft | f :: _ => f_side f end.

Definition mkn s (c : bool) p x y : rb_node K := match s with sleft => mk_rb c p x y | sright => mk_rb c p y x end.

Fixpoint tree_at h p t : Prop :=
  match t with
  | E => True
  | T c l k r => h !! k = Some (mk_rb c p (ptr l) (ptr r)) ∧ tree_at h k l ∧ tree_at h k r
  end.
Fixpoint ctx_at h C p : Prop :=
  match C with
  | [] => h !! root tr = Some (mk_rb false (nil tr) p (nil tr))
  | f :: C => h !! f_key f = Some (mkn (f_side f) (f_red f) (parent_of C) p (ptr (f_sib f))) ∧
      tree_at h (f_key f) (f_sib f) ∧ ctx_at h C (f_key f)
  end.

(** [nil] is black; its parent is whatever was last stored there. *)
Definition nil_at h q : Prop := h !! nil tr = Some (mk_rb false q (nil tr) (nil tr)).

(** The tree [plug C t], seen from the place of [t]. *)
Record at_place h (q : K) C t : Prop := {
  ap_nil : nil_at h q;
  ap_ctx : ctx_at h C (ptr t);
  ap_tree : tree_at h (parent_of C) t;
  ap_nodup : NoDup (nil tr :: root tr :: ckeys C ++ inorder t);
}.
Definition Rep h t : Prop := ∃ q, at_place h q [] t.

(** ** Structure *)

Lemma other_other s : other (other s) = s.
Proof. by destruct s. Qed.
Lemma child_mkn s c p x y : child s (mkn s c p x y) = x.
Proof. by destruct s. Qed.
Lemma child_other_mkn s c p x y : child (other s) (mkn s c p x y) = y.
Proof. by destruct s. Qed.
Lemma with_child_mkn s c p x y v : with_child s v (mkn s c p x y) = mkn s c p v y.
Proof. by destruct s. Qed.
Lemma with_other_mkn s c p x y v : with_child (other s) v (mkn s c p x y) = mkn s c p x v.
Proof. by destruct s. Qed.
Lemma red_mkn s c p x y : red (mkn s c p x y) = c.
Proof. by destruct s. Qed.
Lemma parent_mkn s c p x y : parent (mkn s c p x y) = p.
Proof. by destruct s. Qed.
Lemma with_red_mkn s c c' p x y : (mkn s c p x y) <| red := c' |> = mkn s c' p x y.
Proof. by destruct s. Qed.
Lemma with_parent_mkn s c p p' x y : (mkn s c p x y) <| parent := p' |> = mkn s c p' x y.
Proof. by destruct s. Qed.
Lemma mkn_other s c p x y : mkn (other s) c p x y = mkn s c p y x.
Proof. by destruct s. Qed.
Lemma node_other s c a k b : node (other s) c a k b = node s c b k a.
Proof. by destruct s. Qed.

Lemma ptr_node s c a k b : ptr (node s c a k b) = k.
Proof. by destruct s. Qed.
Lemma is_red_node s c a k b : is_red (node s c a k b) = c.
Proof. by destruct s. Qed.
Lemma inorder_node s c a k b : inorder (node s c a k b) = around s (inorder a) k (inorder b).
Proof. by destruct s. Qed.
Lemma around_perm s l k m : around s l k m ≡ₚ k :: l ++ m.
Proof. destruct s; simpl; [by rewrite Permutation_middle|]. rewrite (Permutation_app_comm l m). by rewrite Permutation_middle. Qed.
Lemma tree_at_node h p s c a k b :
  tree_at h p (node s c a k b) ↔ h !! k = Some (mkn s c p (ptr a) (ptr b)) ∧ tree_at h k a ∧ tree_at h k b.
Proof. destruct s; simpl; tauto. Qed.

Lemma node_of t s : t ≠ E → ∃ c a k b, t = node s c a k b.
Proof. destruct t as [|c l k r]; [done|]. intros _. destruct s; [by exists c, l, k, r|by exists c, r, k, l]. Qed.

Lemma ptr_nil t : nil tr ∉ inorder t → ptr t = nil tr ↔ t = E.
Proof.
  intros Hn. destruct t as [|c l k r]; [done|]. simpl. split; [|done]. intros ->. destruct Hn. simpl. set_solver.
Qed.
Lemma ptr_in t : t ≠ E → ptr t ∈ inorder t.
Proof. destruct t; [done|]. intros _. simpl. set_solver. Qed.

(** Moving one step: the tree is the same. *)
Lemma at_place_fill h q C f t : at_place h q C (fill_in f t) ↔ at_place h q (f :: C) t.
Proof.
  assert (Hp : ckeys C ++ inorder (fill_in f t) ≡ₚ ckeys (f :: C) ++ inorder t).
  { unfold fill_in. rewrite inorder_node, around_perm. simpl. solve_Permutation. }
  assert (Hnd : NoDup (nil tr :: root tr :: ckeys C ++ inorder (fill_in f t)) ↔
    NoDup (nil tr :: root tr :: ckeys (f :: C) ++ inorder t)) by by rewrite Hp.
  split; intros [Hn Hc Ht Hd]; apply Hnd in Hd; constructor; try done.
  - simpl. apply tree_at_node in Ht as (Hk & _ & Hs). unfold fill_in in Hc. rewrite ptr_node in Hc. done.
  - simpl. by apply tree_at_node in Ht as (_ & Ht & _).
  - simpl in Hc. unfold fill_in. rewrite ptr_node. tauto.
  - simpl in Hc. unfold fill_in. apply tree_at_node. tauto.
Qed.

Lemma at_place_plug h q C t : at_place h q [] (plug C t) ↔ at_place h q C t.
Proof. revert t. induction C as [|f C IH]; intros t; [done|]. simpl. by rewrite IH, at_place_fill. Qed.

(** ** Frames *)

Lemma tree_at_insert h p t k n : k ∉ inorder t → tree_at h p t → tree_at (<[k := n]> h) p t.
Proof.
  revert p. induction t as [|c l IHl x r IHr]; intros p Hk Ht; [done|]. simpl in *.
  destruct Ht as (Hx & Hl & Hr). rewrite lookup_insert_ne by set_solver.
  split; [done|]. split; [apply IHl|apply IHr]; set_solver.
Qed.
Lemma ctx_at_insert h C p k n : k ∉ ckeys C → k ≠ root tr → ctx_at h C p → ctx_at (<[k := n]> h) C p.
Proof.
  revert p. induction C as [|f C IH]; intros p Hk Hr Hc; simpl in *; [by rewrite lookup_insert_ne|].
  destruct Hc as (Hx & Hs & Hc). rewrite lookup_insert_ne by set_solver.
  split; [done|]. split; [apply tree_at_insert; set_solver|apply IH; set_solver].
Qed.
Lemma nil_at_insert h q k n : k ≠ nil tr → nil_at h q → nil_at (<[k := n]> h) q.
Proof. unfold nil_at. intros. by rewrite lookup_insert_ne. Qed.

(** The parent of a subtree changes. *)
Lemma tree_at_parent h p p' s c a k b :
  k ∉ inorder a → k ∉ inorder b → tree_at h p (node s c a k b) →
  tree_at (<[k := mkn s c p' (ptr a) (ptr b)]> h) p' (node s c a k b).
Proof.
  intros Ha Hb Ht. apply tree_at_node in Ht as (Hk & Hta & Htb). apply tree_at_node.
  rewrite lookup_insert_eq. split; [done|]. by split; apply tree_at_insert.
Qed.

(** The parent of the place, and a new child there. *)
Lemma up_in C : parent_of C = root tr ∨ parent_of C ∈ ckeys C.
Proof. destruct C; [by left|]. right. simpl. set_solver. Qed.

Lemma hole_write h C p :
  NoDup (root tr :: ckeys C) → ctx_at h C p →
  ∃ n, h !! parent_of C = Some n ∧ child (hole_side C) n = p ∧
    (∀ q, ctx_at (<[parent_of C := with_child (hole_side C) q n]> h) C q) ∧
    (child (other (hole_side C)) n = nil tr ∨ child (other (hole_side C)) n ∈ ckeys C) ∧
    parent n = match C with [] => nil tr | _ :: C' => parent_of C' end ∧
    red n = match C with [] => false | f :: _ => f_red f end.
Proof.
  intros Hnd Hc. destruct C as [|f C]; simpl in *.
  - eexists. split; [done|]. split; [done|]. split; [|by split; [left|]]. intros q. by rewrite lookup_insert_eq.
  - destruct Hc as (Hx & Hs & Hc). eexists. split; [done|]. rewrite child_mkn, child_other_mkn, parent_mkn, red_mkn.
    split; [done|]. split; [|split; [|done]].
    + intros q. rewrite with_child_mkn, lookup_insert_eq. split; [done|].
      apply NoDup_cons in Hnd as [Hr Hnd]. apply NoDup_cons in Hnd as [Hk _]. split; [apply tree_at_insert; set_solver|].
      apply ctx_at_insert; set_solver.
    + destruct (f_sib f) as [|c l k r] eqn:Es; [by left|]. right. simpl. set_solver.
Qed.
End rep.

(** ** Loads and stores at a place *)

Section ops.
Context {K : Type} `{Countable K} (tr : rb_tree K).
Notation heap := (gmap K (rb_node K)).
Notation ctx := (list (frame K)).
Implicit Types (h : heap) (t a b d : tree K) (k x y z p q : K) (C : ctx) (s : side).

Lemma rd_ok {A} (f : rb_node K → A) h p n : h !! p = Some n → rd f p h = Ok (f n, h).
Proof. intros Hp. unfold rd, deref, mbind, M_bind, mret, M_ret. by rewrite Hp. Qed.
Lemma wr_ok h p n f : h !! p = Some n → wr p f h = Ok (tt, <[p := f n]> h).
Proof. intros Hp. unfold wr, deref, mbind, M_bind, modify. by rewrite Hp. Qed.
Lemma set_child_ok h s p n v : h !! p = Some n → set_child s p v h = Ok (tt, <[p := with_child s v n]> h).
Proof. apply wr_ok. Qed.
Lemma set_parent_ok h s p c q x y v :
  h !! p = Some (mkn s c q x y) → set_parent p v h = Ok (tt, <[p := mkn s c v x y]> h).
Proof. intros Hp. rewrite <-(with_parent_mkn s c q v x y). by apply wr_ok. Qed.

Lemma tree_at_frame h h' p t : (∀ z, z ∈ inorder t → h' !! z = h !! z) → tree_at tr h p t → tree_at tr h' p t.
Proof.
  revert p. induction t as [|c l IHl k r IHr]; intros p Hf Ht; [done|]. simpl in *. destruct Ht as (Hk & Hl & Hr).
  rewrite Hf by set_solver. split; [done|]. split; [apply IHl|apply IHr]; try done; set_solver.
Qed.
Lemma ctx_at_frame h h' C p :
  (∀ z, z ∈ ckeys C → h' !! z = h !! z) → h' !! root tr = h !! root tr → ctx_at tr h C p → ctx_at tr h' C p.
Proof.
  revert p. induction C as [|f C IH]; intros p Hf Hr Hc; simpl in *; [by rewrite Hr|].
  destruct Hc as (Hk & Hs & Hc). rewrite Hf by set_solver. split; [done|].
  split; [eapply tree_at_frame; [|done]|apply IH; try done]; set_solver.
Qed.

(** The root of a subtree, if there is one, gets a new parent. *)
Lemma reparent_ok h p t v :
  tree_at tr h p t → NoDup (nil tr :: inorder t) →
  ∃ h', when (bool_decide (ptr tr t ≠ nil tr)) (set_parent (ptr tr t) v) h = Ok (tt, h') ∧ tree_at tr h' v t ∧
    ∀ z, z ∉ inorder t → h' !! z = h !! z.
Proof.
  intros Ht Hnd. apply NoDup_cons in Hnd as [Hn Hnd]. destruct t as [|c a k b].
  { exists h. by rewrite bool_decide_eq_false_2 by auto. }
  rewrite bool_decide_eq_true_2 by (by rewrite ptr_nil).
  change (T c a k b) with (node sleft c a k b) in *. apply tree_at_node in Ht as Ht'. destruct Ht' as (Hk & _ & _).
  rewrite ptr_node. exists (<[k := mkn sleft c v (ptr tr a) (ptr tr b)]> h).
  rewrite inorder_node, around_perm in Hnd. apply NoDup_cons in Hnd as [Hk' _].
  split; [by apply (set_parent_ok _ _ _ _ p)|]. split.
  - eapply tree_at_parent; [set_solver|set_solver|done].
  - intros z Hz. apply lookup_insert_ne. intros <-. apply Hz. rewrite inorder_node, around_perm. set_solver.
Qed.

(** The nodes of a place are distinct. *)
Record distinct_at C a k b : Prop := {
  da_nil : k ≠ nil tr;
  da_root : k ≠ root tr;
  da_nil_root : nil tr ≠ root tr;
  da_ctx : k ∉ ckeys C;
  da_a : k ∉ inorder a;
  da_b : k ∉ inorder b;
  da_nils : nil tr ∉ ckeys C ∧ nil tr ∉ inorder a ∧ nil tr ∉ inorder b;
  da_roots : root tr ∉ ckeys C ∧ root tr ∉ inorder a ∧ root tr ∉ inorder b;
  da_ctx_a z : z ∈ ckeys C → z ∉ inorder a;
  da_ctx_b z : z ∈ ckeys C → z ∉ inorder b;
  da_a_b z : z ∈ inorder a → z ∉ inorder b;
  da_nodup : NoDup (root tr :: ckeys C);
}.

Lemma place_distinct h q C s c a k b : at_place tr h q C (node s c a k b) → distinct_at C a k b.
Proof.
  intros [_ _ _ Hnd]. rewrite inorder_node, around_perm in Hnd.
  apply NoDup_cons in Hnd as [Hn Hnd]. apply NoDup_cons in Hnd as [Hr Hnd].
  apply NoDup_app in Hnd as (Hc & Hca & Hnd). apply NoDup_cons in Hnd as [Hk Hnd].
  apply NoDup_app in Hnd as (Ha & Hab & Hb).
  constructor; [set_solver..|]. apply NoDup_cons. split; [set_solver|done].
Qed.

(** What the node and its parent say. *)
Lemma place_node h q C s c a k b :
  at_place tr h q C (node s c a k b) → h !! k = Some (mkn s c (parent_of tr C) (ptr tr a) (ptr tr b)).
Proof. intros [_ _ Ht _]. by apply tree_at_node in Ht as (Hk & _). Qed.

Lemma place_nil h q C t : at_place tr h q C t → h !! nil tr = Some (mk_rb false q (nil tr) (nil tr)).
Proof. by intros [Hn _ _ _]. Qed.

(** The colour of a subtree's root, leaves included. *)
Lemma place_red h q C t : at_place tr h q C t → rd red (ptr tr t) h = Ok (is_red t, h).
Proof.
  intros Hp. destruct t as [|c l k r]; simpl.
  - by rewrite (rd_ok _ _ _ _ (place_nil _ _ _ _ Hp)).
  - by rewrite (rd_ok _ _ _ _ (place_node h q C sleft c l k r Hp)).
Qed.

Lemma set_red_place h q C s c c' a k b :
  at_place tr h q C (node s c a k b) →
  ∃ h', set_red k c' h = Ok (tt, h') ∧ at_place tr h' q C (node s c' a k b).
Proof.
  intros Hp. pose proof (place_node _ _ _ _ _ _ _ _ Hp) as Hk. pose proof (place_distinct _ _ _ _ _ _ _ _ Hp) as [].
  eexists. split; [by apply wr_ok|]. rewrite with_red_mkn. destruct Hp as [Hn Hc Ht Hnd].
  constructor.
  - by apply nil_at_insert.
  - rewrite ptr_node in *. by apply ctx_at_insert.
  - apply tree_at_node in Ht as (_ & Ha & Hb). apply tree_at_node. rewrite lookup_insert_eq.
    split; [done|]. by split; apply tree_at_insert.
  - by rewrite inorder_node in *.
Qed.

(** The test [if (p == pp->_left) pp->_left = v; else pp->_right = v]: it
    replaces the child at the place. *)
Lemma relink_place h C p v s :
  NoDup (root tr :: ckeys C) → ctx_at tr h C p → p ≠ nil tr → p ∉ ckeys C →
  ∃ n n', h !! parent_of tr C = Some n ∧
    (if decide (p = child s n) then set_child s (parent_of tr C) v else set_child (other s) (parent_of tr C) v) h =
      Ok (tt, <[parent_of tr C := n']> h) ∧ ctx_at tr (<[parent_of tr C := n']> h) C v.
Proof.
  intros Hnd Hc Hpn Hpc. destruct (hole_write tr h C p Hnd Hc) as (n & Hn & Hch & Hw & Hoth & _).
  exists n, (with_child (hole_side C) v n). split; [done|]. split; [|apply Hw].
  destruct (decide (s = hole_side C)) as [->|Hne].
  - rewrite decide_True by done. by apply wr_ok.
  - assert (s = other (hole_side C)) as -> by (destruct s, (hole_side C); done).
    rewrite decide_False by (intros Heq; rewrite <-Heq in Hoth; naive_solver).
    rewrite other_other. by apply wr_ok.
Qed.

(** [rb_rotate]: the child on the far side comes up. *)
Lemma rb_rotate_place h q C s c1 c2 a x b y d :
  at_place tr h q C (node s c1 a x (node s c2 b y d)) →
  ∃ h', rb_rotate s tr x h = Ok (tt, h') ∧ at_place tr h' q C (node s c2 (node s c1 a x b) y d).
Proof.
  intros Hp. pose proof (place_node _ _ _ _ _ _ _ _ Hp) as Hx. rewrite ptr_node in Hx.
  pose proof (place_distinct _ _ _ _ _ _ _ _ Hp) as [D1 D2 D3 D4 D5 D6 D7 D8 D9 D10 D11 D12].
  assert (Hp2 : at_place tr h q (Fr (other s) c1 x a :: C) (node s c2 b y d)).
  { apply at_place_fill. unfold fill_in. simpl. by rewrite node_other. }
  pose proof (place_node _ _ _ _ _ _ _ _ Hp2) as Hy. simpl parent_of in Hy.
  pose proof (place_distinct _ _ _ _ _ _ _ _ Hp2) as [E1 E2 E3 E4 E5 E6 E7 E8 E9 E10 E11 E12].
  assert (Hndb : NoDup (nil tr :: inorder b)).
  { destruct Hp2 as [_ _ _ Hn2]. rewrite inorder_node, around_perm in Hn2. apply NoDup_cons. split; [set_solver|].
    apply NoDup_cons in Hn2 as [_ Hn2]. apply NoDup_cons in Hn2 as [_ Hn2]. apply NoDup_app in Hn2 as (_ & _ & Hn2).
    apply NoDup_cons in Hn2 as [_ Hn2]. by apply NoDup_app in Hn2 as [Hb _]. }
  destruct Hp as [Hn Hc Ht Hnd]. rewrite ptr_node in Hc.
  apply tree_at_node in Ht as (_ & Ha & Ht). apply tree_at_node in Ht as (_ & Hb & Hd).
  simpl ckeys in *. rewrite inorder_node, around_perm in D6, D7, D8.
  rewrite not_elem_of_cons, not_elem_of_app in D6, E4. destruct D6 as (Hxy & Hxb & Hxd), E4 as (_ & Hya & HyC).
  destruct D7 as (N1 & N2 & N3), D8 as (R1 & R2 & R3). rewrite not_elem_of_cons, not_elem_of_app in N3, R3.
  assert (Hab : ∀ z, z ∈ inorder a → z ∉ inorder b) by (intros z Hz; apply E9; set_solver - D1).
  assert (Had : ∀ z, z ∈ inorder a → z ∉ inorder d) by (intros z Hz; apply E10; set_solver - D1).
  assert (HCb : ∀ z, z ∈ ckeys C → z ∉ inorder b) by (intros z Hz; apply E9; set_solver - D1).
  assert (HCd : ∀ z, z ∈ ckeys C → z ∉ inorder d) by (intros z Hz; apply E10; set_solver - D1).
  clear E9 E10 D10 D11.
  assert (Hu : ∀ z, z ∉ ckeys C → z ≠ root tr → parent_of tr C ≠ z).
  { intros z Hz1 Hz2 <-. by destruct (up_in tr C). }
  assert (Huy : parent_of tr C ≠ y) by by apply Hu.
  assert (Hux : parent_of tr C ≠ x) by by apply Hu.
  assert (Hun : parent_of tr C ≠ nil tr) by by apply Hu.
  unfold rb_rotate. rewrite (bind_ok _ _ _ _ _ (rd_ok _ _ _ _ Hx)), child_other_mkn.
  rewrite bool_decide_eq_true_2, (bind_ok (assert true) _ h tt h) by done.
  rewrite (bind_ok _ _ _ _ _ (rd_ok _ _ _ _ Hy)), child_mkn.
  rewrite (bind_ok _ _ _ _ _ (set_child_ok _ _ _ _ _ Hx)), with_other_mkn.
  set (h1 := <[x := _]> h). assert (Hy1 : h1 !! y = Some (mkn s c2 x (ptr tr b) (ptr tr d)))
    by (unfold h1; by rewrite lookup_insert_ne).
  rewrite (bind_ok _ _ _ _ _ (rd_ok _ _ _ _ Hy1)), child_mkn.
  assert (Hb1 : tree_at tr h1 y b) by (apply tree_at_insert; [set_solver|done]).
  destruct (reparent_ok h1 y b x Hb1 Hndb) as (h2 & E' & Hb2 & Hf2). rewrite (bind_ok _ _ _ _ _ E').
  assert (Hx2 : h2 !! x = Some (mkn s c1 (parent_of tr C) (ptr tr a) (ptr tr b))).
  { rewrite Hf2 by set_solver. apply lookup_insert_eq. }
  assert (Hy2 : h2 !! y = Some (mkn s c2 x (ptr tr b) (ptr tr d))) by (rewrite Hf2; done).
  rewrite (bind_ok _ _ _ _ _ (rd_ok _ _ _ _ Hx2)), parent_mkn.
  rewrite (bind_ok _ _ _ _ _ (set_parent_ok _ _ _ _ _ _ _ _ Hy2)).
  set (h3 := <[y := _]> h2).
  assert (Hx3 : h3 !! x = Some (mkn s c1 (parent_of tr C) (ptr tr a) (ptr tr b))) by (unfold h3; by rewrite lookup_insert_ne).
  rewrite (bind_ok _ _ _ _ _ (rd_ok _ _ _ _ Hx3)), parent_mkn.
  assert (Hf3 : ∀ z, z ≠ x → z ≠ y → z ∉ inorder b → h3 !! z = h !! z).
  { intros z Hz1 Hz2 Hz3. unfold h3. rewrite lookup_insert_ne, Hf2 by done. unfold h1. by rewrite lookup_insert_ne. }
  assert (Hc3 : ctx_at tr h3 C x).
  { eapply ctx_at_frame; [| |exact Hc]; [intros z Hz|]; apply Hf3; set_solver. }
  destruct (relink_place h3 C x y s D12 Hc3 D1 D4) as (n & n' & Hun3 & Erl & Hc4).
  rewrite (bind_ok _ _ _ _ _ (rd_ok _ _ _ _ Hun3)), (bind_ok _ _ _ _ _ Erl).
  set (h4 := <[parent_of tr C := n']> h3) in *.
  assert (Hy4 : h4 !! y = Some (mkn s c2 (parent_of tr C) (ptr tr b) (ptr tr d))).
  { unfold h4. rewrite lookup_insert_ne by done. apply lookup_insert_eq. }
  rewrite (bind_ok _ _ _ _ _ (set_child_ok _ _ _ _ _ Hy4)), with_child_mkn.
  set (h5 := <[y := _]> h4).
  assert (Hx5 : h5 !! x = Some (mkn s c1 (parent_of tr C) (ptr tr a) (ptr tr b))).
  { unfold h5, h4. by rewrite !lookup_insert_ne by done. }
  rewrite (bind_ok _ _ _ _ _ (set_parent_ok _ _ _ _ _ _ _ _ Hx5)).
  set (h6 := <[x := _]> h5).
  assert (Hf6 : ∀ z, z ≠ x → z ≠ y → z ≠ parent_of tr C → h6 !! z = h3 !! z).
  { intros z Hz1 Hz2 Hz3. unfold h6, h5, h4. by rewrite !lookup_insert_ne by done. }
  assert (Hn6 : nil_at tr h6 q).
  { unfold nil_at. rewrite Hf6 by done. rewrite Hf3 by set_solver. done. }
  rewrite (bind_ok _ _ _ _ _ (rd_ok _ _ _ _ Hn6)). exists h6. split; [done|].
  assert (Hup : ∀ z, z ∈ inorder a ∨ z ∈ inorder b ∨ z ∈ inorder d → z ≠ parent_of tr C).
  { intros z Hz. apply not_eq_sym, Hu; [|intros ->; naive_solver]. intros HzC.
    destruct Hz as [Hz|[Hz|Hz]]; [by apply (D9 z)|by apply (HCb z)|by apply (HCd z)]. }
  constructor.
  - done.
  - rewrite ptr_node. unfold h6, h5. apply ctx_at_insert; [done|done|]. apply ctx_at_insert; [set_solver|done|done].
  - apply tree_at_node. rewrite ptr_node, tree_at_node. split_and!.
    + unfold h6. rewrite lookup_insert_ne by done. apply lookup_insert_eq.
    + apply lookup_insert_eq.
    + eapply tree_at_frame; [|exact Ha]. intros z Hz. rewrite Hf6, Hf3; [done|set_solver..|]. apply Hup. auto.
    + eapply tree_at_frame; [|exact Hb2]. intros z Hz. rewrite Hf6; [|set_solver|set_solver|apply Hup; auto].
      unfold h3. apply lookup_insert_ne. set_solver.
    + eapply tree_at_frame; [|exact Hd]. intros z Hz. rewrite Hf6, Hf3; [done|set_solver..|]. apply Hup. auto.
  - eapply NoDup_Permutation_proper; [|exact Hnd]. do 2 constructor.
    rewrite !inorder_node, !around_perm. solve_Permutation.
Qed.
End ops.
