(* ===== verification/RbInv.v ===== *)
(** * The red-black invariant

    The invariant on trees and, seen from a place in the tree, on contexts;
    the in-order sequence; the height bound. *)

From S2P Require Import Prelude RbTree RbRep.

Section inv.
Context {K : Type}.
Notation ctx := (list (frame K)).
Implicit Types (t a b d : tree K) (k x y z : K) (C : ctx) (s : side) (n : nat).

(** Every path from the root down crosses [n] black nodes. *)
Fixpoint black_height t n : Prop :=
  match t with
  | E => n = 0%nat
  | T c l _ r => ∃ m, n = (if c then m else S m) ∧ black_height l m ∧ black_height r m
  end.
(** A red node has black children. *)
Fixpoint no_red_red t : Prop :=
  match t with
  | E => True
  | T c l _ r => (c = true → is_red l = false ∧ is_red r = false) ∧ no_red_red l ∧ no_red_red r
  end.
Definition rb_ok t : Prop := is_red t = false ∧ no_red_red t ∧ ∃ n, black_height t n.

(** The place takes a subtree of black height [n]; a red frame has a black
    parent. *)
Definition ctx_black C : Prop := match C with [] => False | f :: _ => f_red f = false end.
Fixpoint ctx_ok C n : Prop :=
  match C with
  | [] => True
  | f :: C => black_height (f_sib f) n ∧ no_red_red (f_sib f) ∧
      (f_red f = true → is_red (f_sib f) = false ∧ ctx_black C) ∧ ctx_ok C (if f_red f then n else S n)
  end.

Lemma black_height_node s c a k b n :
  black_height (node s c a k b) n ↔ ∃ m, n = (if c then m else S m) ∧ black_height a m ∧ black_height b m.
Proof. destruct s; simpl; naive_solver. Qed.
Lemma no_red_red_node s c a k b :
  no_red_red (node s c a k b) ↔ (c = true → is_red a = false ∧ is_red b = false) ∧ no_red_red a ∧ no_red_red b.
Proof. destruct s; simpl; naive_solver. Qed.

(** A red node at the place, and the conditions on its surroundings. *)
Lemma black_height_unique t n m : black_height t n → black_height t m → n = m.
Proof.
  revert n m. induction t as [|c l IHl k r _]; simpl; intros n m; [congruence|].
  intros (n' & -> & Hn & _) (m' & -> & Hm & _). by rewrite (IHl _ _ Hn Hm).
Qed.

Lemma plug_ok C t n :
  black_height t n → no_red_red t → ctx_ok C n → (is_red t = true → ctx_black C) → rb_ok (plug C t).
Proof.
  revert t n. induction C as [|f C IH]; intros t n Hb Hr Hc Hrc; simpl in *.
  - split; [|by split; [|exists n]]. by destruct (is_red t); [destruct Hrc|].
  - destruct Hc as (Hsb & Hsr & Hf & Hc). unfold fill_in.
    apply (IH _ (if f_red f then n else S n)); [| |done|].
    + apply black_height_node. by exists n.
    + apply no_red_red_node. split; [|done]. intros Hfr. destruct (Hf Hfr) as [Hs _]. split; [|done].
      destruct (is_red t); [|done]. specialize (Hrc eq_refl). congruence.
    + rewrite is_red_node. intros Hfr. by apply Hf.
Qed.

Lemma plug_inv C t :
  rb_ok (plug C t) → ∃ n, black_height t n ∧ no_red_red t ∧ ctx_ok C n ∧ (is_red t = true → ctx_black C).
Proof.
  revert t. induction C as [|f C IH]; intros t Hok; simpl in *.
  - destruct Hok as (Hr & Hn & n & Hb). exists n. split_and!; try done. congruence.
  - apply IH in Hok as (n & Hb & Hr & Hc & Hrc). unfold fill_in in *.
    apply black_height_node in Hb as (m & -> & Hbt & Hbs). apply no_red_red_node in Hr as (Hfr & Hrt & Hrs).
    rewrite is_red_node in Hrc. exists m. split_and!; try done.
    + intros Hf. split; [by apply Hfr|by apply Hrc].
    + intros Ht. destruct (f_red f) eqn:Ef; [|done]. destruct (Hfr eq_refl). congruence.
Qed.

(** ** In-order sequences *)

Definition left_of (f : frame K) : list K := match f_side f with sleft => [] | sright => inorder (f_sib f) ++ [f_key f] end.
Definition right_of (f : frame K) : list K := match f_side f with sleft => f_key f :: inorder (f_sib f) | sright => [] end.
Fixpoint lefts C : list K := match C with [] => [] | f :: C => lefts C ++ left_of f end.
Fixpoint rights C : list K := match C with [] => [] | f :: C => right_of f ++ rights C end.

Lemma inorder_plug C t : inorder (plug C t) = lefts C ++ inorder t ++ rights C.
Proof.
  revert t. induction C as [|f C IH]; intros t; simpl; [by rewrite app_nil_r|].
  rewrite IH. unfold fill_in, left_of, right_of. destruct (f_side f); simpl.
  - by rewrite app_nil_r, <-!app_assoc.
  - by rewrite <-!app_assoc.
Qed.

Lemma plug_inorder C t t' : inorder t = inorder t' → inorder (plug C t) = inorder (plug C t').
Proof. intros Ht. by rewrite !inorder_plug, Ht. Qed.

Lemma find_place t z : z ∈ inorder t → ∃ C c a b, t = plug C (T c a z b).
Proof.
  enough (Hg : ∀ C0, z ∈ inorder t → ∃ C c a b, plug C0 t = plug C (T c a z b)) by by apply (Hg []).
  induction t as [|c l IHl k r IHr]; intros C0 Hz; [by apply elem_of_nil in Hz|].
  simpl in Hz. apply elem_of_app in Hz as [Hz|Hz]; [|apply elem_of_cons in Hz as [->|Hz]].
  - apply (IHl (Fr sleft c k r :: C0) Hz).
  - by exists C0, c, l, r.
  - apply (IHr (Fr sright c k l :: C0) Hz).
Qed.

Lemma plug_app C D t : plug (D ++ C) t = plug C (plug D t).
Proof. revert t. induction D as [|f D IH]; intros t; [done|]. simpl. apply IH. Qed.

(** The place of the first, or last, node of a subtree. *)
Lemma extreme_place s t :
  t ≠ E → ∃ D c k b, t = plug D (node s c E k b) ∧ Forall (λ f, f_side f = s) D.
Proof.
  induction t as [|c l IHl k r IHr]; [done|]. intros _. destruct s.
  - destruct (decide (inorder l = [])) as [Hl|Hl].
    + exists [], c, k, r. destruct l as [|? l1 ? ?]; [done|]. simpl in Hl. by destruct (inorder l1).
    + destruct IHl as (D & c' & k' & b & -> & HD); [by intros ->|].
      exists (D ++ [Fr sleft c k r]), c', k', b. rewrite plug_app. split; [done|].
      apply Forall_app. split; [done|]. by constructor.
  - destruct (decide (inorder r = [])) as [Hr|Hr].
    + exists [], c, k, l. destruct r as [|? r1 ? ?]; [done|]. simpl in Hr. by destruct (inorder r1).
    + destruct IHr as (D & c' & k' & b & -> & HD); [by intros ->|].
      exists (D ++ [Fr sright c k l]), c', k', b. rewrite plug_app. split; [done|].
      apply Forall_app. split; [done|]. by constructor.
Qed.

(** ** The height *)

Fixpoint height t : nat := match t with E => 0 | T _ l _ r => S (height l `max` height r) end.
Definition weight t : nat := length (inorder t).

Lemma black_height_weight t n : black_height t n → (2 ^ n ≤ S (weight t))%nat.
Proof.
  unfold weight. revert n. induction t as [|c l IHl k r IHr]; simpl; intros n; [by intros ->|].
  intros (m & -> & Hl & Hr). specialize (IHl _ Hl). specialize (IHr _ Hr).
  rewrite length_app. simpl. destruct c; simpl; lia.
Qed.

Lemma height_black t n :
  black_height t n → no_red_red t → (height t ≤ 2 * n + (if is_red t then 1 else 0))%nat.
Proof.
  revert n. induction t as [|c l IHl k r IHr]; simpl; intros n; [lia|].
  intros (m & -> & Hl & Hr) (Hc & Hnl & Hnr). specialize (IHl _ Hl Hnl). specialize (IHr _ Hr Hnr).
  destruct c.
  - destruct Hc as [El Er]; [done|]. rewrite El in IHl. rewrite Er in IHr. lia.
  - destruct (is_red l), (is_red r); lia.
Qed.

(** A red-black tree of [n] nodes has height at most [2 log2 (n + 1)]. *)
Lemma rb_height t : rb_ok t → (height t ≤ 2 * Nat.log2 (S (weight t)))%nat.
Proof.
  intros (Hr & Hn & n & Hb). pose proof (height_black t n Hb Hn) as Hh. rewrite Hr in Hh.
  pose proof (black_height_weight t n Hb) as Hw. apply Nat.log2_le_pow2 in Hw; lia.
Qed.

Lemma place_depth C t : (length C ≤ height (plug C t))%nat.
Proof.
  enough (length C + height t ≤ height (plug C t))%nat by lia. revert t.
  induction C as [|f C IH]; intros t; [simpl; lia|]. simpl. specialize (IH (fill_in f t)).
  assert (S (height t) ≤ height (fill_in f t))%nat; [|lia]. unfold fill_in. destruct (f_side f); simpl; lia.
Qed.
Lemma height_weight t : (height t ≤ weight t)%nat.
Proof. unfold weight. induction t as [|c l IHl k r IHr]; simpl; [done|]. rewrite length_app. simpl. lia. Qed.
End inv.
