(* ===== verification/RbInsert.v ===== *)
(** * Insertion in a red-black tree

    [rb_insert] puts the new node at the place that [compare] selects and
    keeps the invariant of [RbInv]; every assertion on the way holds. *)

From S2P Require Import Prelude RbTree RbRep RbInv.

Section insert.
Context {K : Type} `{Countable K} (tr : rb_tree K).
Notation heap := (gmap K (rb_node K)).
Notation ctx := (list (frame K)).
Implicit Types (h : heap) (t a b d : tree K) (k x y z p q : K) (C : ctx) (s : side).

(** ** Places *)

Lemma node_cases t s : t = E ∨ ∃ c a k b, t = node s c a k b.
Proof. destruct t as [|c l k r]; [by left|]. right. destruct s; [by exists c, l, k, r|by exists c, r, k, l]. Qed.

Lemma red_node t s : is_red t = true → ∃ a k b, t = node s true a k b.
Proof. destruct (node_cases t s) as [->|(c & a & k & b & ->)]; [done|]. rewrite is_red_node. intros ->. by exists a, k, b. Qed.

(** The place of the sibling. *)
Lemma at_place_sibling h q C s c k sib t :
  at_place tr h q (Fr s c k sib :: C) t ↔ at_place tr h q (Fr (other s) c k t :: C) sib.
Proof. rewrite <-!at_place_fill. unfold fill_in. simpl. by rewrite node_other. Qed.

(** The fields of the parent and the grandparent. *)
Lemma rd_up h q f C t :
  at_place tr h q (f :: C) t →
  ∃ n, h !! f_key f = Some n ∧ red n = f_red f ∧ parent n = parent_of tr C ∧
    child (f_side f) n = ptr tr t ∧ child (other (f_side f)) n = ptr tr (f_sib f).
Proof.
  intros [_ (Hk & _ & _) _ _]. eexists. split; [done|].
  by rewrite red_mkn, parent_mkn, child_mkn, child_other_mkn.
Qed.

(** The test of the side, for a node at the place. *)
Lemma side_test h q f C s c a k b n :
  at_place tr h q (f :: C) (node s c a k b) → h !! f_key f = Some n →
  (if decide (k = left n) then sleft else sright) = f_side f ∧ (k = child (other (f_side f)) n → False).
Proof.
  intros Hp Hn. destruct (rd_up _ _ _ _ _ Hp) as (n' & Hn' & _ & _ & Hc & Ho). rewrite Hn' in Hn. injection Hn as <-.
  rewrite ptr_node in Hc. assert (Hne : k ≠ child (other (f_side f)) n').
  { rewrite Ho. destruct Hp as [Hnil _ _ Hnd]. rewrite inorder_node, around_perm in Hnd. simpl in Hnd.
    destruct (f_sib f) as [|cs l ks r]; simpl.
    - intros ->. apply NoDup_cons in Hnd as [Hnd _]. apply Hnd. set_solver.
    - intros ->. do 3 apply NoDup_cons in Hnd as [_ Hnd].
      apply NoDup_app in Hnd as (_ & Hnd & _). apply (Hnd ks); set_solver. }
  split; [|done]. destruct (f_side f); simpl in *.
  - by rewrite decide_True.
  - by rewrite decide_False.
Qed.

(** ** The repair loop *)

Lemma insert_black_uncle h q C s s1 p sib g u t :
  at_place tr h q (Fr s1 true p sib :: Fr s false g u :: C) t → is_red t = true → is_red u = false →
  ∃ h' x' low B p', rb_insert_sub s tr (ptr tr t) h = Ok (x', h') ∧ x' = ptr tr low ∧ is_red low = true ∧
    at_place tr h' q C (node s false low p' (node s true B g u)) ∧
    (∀ n, black_height t n ∧ black_height sib n ∧ no_red_red t ∧ no_red_red sib ∧ is_red sib = false →
       black_height low n ∧ black_height B n ∧ no_red_red low ∧ no_red_red B ∧ is_red B = false) ∧
    inorder (node s false low p' (node s true B g u)) = inorder (node s false (node s1 true t p sib) g u).
Proof.
  intros Hp Hrt Hru. destruct (red_node t s Hrt) as (a & x & b & ->). rewrite ptr_node.
  pose proof (place_node _ _ _ _ _ _ _ _ _ Hp) as Hx. simpl in Hx.
  destruct (rd_up _ _ _ _ _ Hp) as (np & Hnp & _ & Hpp & Hpc & Hpo). simpl in *. rewrite ptr_node in Hpc.
  assert (Hg : at_place tr h q (Fr s false g u :: C) (node s1 true (node s true a x b) p sib)).
  { apply at_place_fill in Hp. done. }
  destruct (rd_up _ _ _ _ _ Hg) as (ng & Hng & _ & _ & Hgc & Hgo). simpl in *.
  assert (Hu : rd red (ptr tr u) h = Ok (false, h)).
  { apply at_place_sibling in Hg. rewrite <-Hru. by eapply place_red. }
  destruct (side_test _ _ _ _ _ _ _ _ _ _ Hp Hnp) as [_ Hfar]. simpl in Hfar.
  (* the inner grandchild first comes up *)
  assert (∃ h1 low B p', (if decide (x = child (other s) np) then _ ← rb_rotate s tr p; mret p else mret x) h = Ok (ptr tr low, h1) ∧
    is_red low = true ∧ at_place tr h1 q (Fr s false g u :: C) (node s true low p' B) ∧
    (∀ n, black_height (node s true a x b) n ∧ black_height sib n ∧ no_red_red (node s true a x b) ∧ no_red_red sib ∧ is_red sib = false →
       black_height low n ∧ black_height B n ∧ no_red_red low ∧ no_red_red B ∧ is_red B = false) ∧
    around s (inorder low) p' (inorder B) = inorder (node s1 true (node s true a x b) p sib))
    as (h1 & low & B & p' & E1 & Hlow & H1 & Hinv & Hord).
  { destruct (decide (s1 = s)) as [->|Hne].
    - exists h, (node s true a x b), sib, p. rewrite decide_False by (intros Heq; by apply Hfar). rewrite ptr_node.
      split; [done|]. split; [apply is_red_node|]. split; [done|]. split; [tauto|]. by rewrite !inorder_node.
    - assert (s1 = other s) as -> by (destruct s, s1; done). rewrite decide_True by by rewrite Hpc.
      rewrite node_other in Hg. destruct (rb_rotate_place _ _ _ _ _ _ _ _ _ _ _ _ Hg) as (h1 & Er & H1).
      exists h1, (node s true sib p a), b, x. rewrite (bind_ok _ _ _ _ _ Er), ptr_node. split; [done|].
      split; [apply is_red_node|]. split; [done|]. split.
      + intros n. rewrite !black_height_node, !no_red_red_node. intros ((m & -> & Ha & Hb) & Hs & (Hc & Hna & Hnb) & Hns & Hrs).
        destruct (Hc eq_refl) as [Hra Hrb]. split_and!; try done. by exists m.
      + rewrite node_other, !inorder_node. destruct s; simpl; by rewrite <-!app_assoc. }
  (* recolour and rotate the grandparent *)
  pose proof (place_node _ _ _ _ _ _ _ _ _ H1) as Hp'. simpl in Hp'.
  assert (Hpl : ∃ n, h1 !! ptr tr low = Some n ∧ parent n = p').
  { destruct (red_node low s Hlow) as (la & lk & lb & ->).
    apply (at_place_fill tr h1 q _ (Fr s true p' B)), place_node in H1. rewrite ptr_node.
    eexists. split; [done|]. apply parent_mkn. }
  destruct Hpl as (nl & Hnl & Hpl).
  destruct (set_red_place _ _ _ _ _ _ false _ _ _ H1) as (h2 & E2 & H2).
  pose proof (place_node _ _ _ _ _ _ _ _ _ H2) as Hp2. simpl in Hp2.
  assert (H2g : at_place tr h2 q C (node s false (node s false low p' B) g u)) by (by apply at_place_fill in H2).
  destruct (set_red_place _ _ _ _ _ _ true _ _ _ H2g) as (h3 & E3 & H3).
  assert (H3' : at_place tr h3 q C (node (other s) true u g (node (other s) false B p' low))).
  { by rewrite !node_other. }
  destruct (rb_rotate_place _ _ _ _ _ _ _ _ _ _ _ _ H3') as (h4 & E4 & H4).
  rewrite !node_other in H4.
  exists h4, (ptr tr low), low, B, p'. split; [|split; [done|split; [done|split; [done|split; [done|]]]]].
  - unfold rb_insert_sub. rewrite (bind_ok _ _ _ _ _ (rd_ok _ _ _ _ Hx)), parent_mkn.
    rewrite (bind_ok _ _ _ _ _ (rd_ok _ _ _ _ Hnp)), Hpp. rewrite (bind_ok _ _ _ _ _ (rd_ok _ _ _ _ Hng)), Hgo.
    rewrite (bind_ok _ _ _ _ _ Hu). rewrite (bind_ok _ _ _ _ _ (rd_ok _ _ _ _ Hnp)). rewrite (bind_ok _ _ _ _ _ E1).
    rewrite (bind_ok _ _ _ _ _ (rd_ok _ _ _ _ Hnl)), Hpl. rewrite (bind_ok _ _ _ _ _ E2).
    rewrite (bind_ok _ _ _ _ _ (rd_ok _ _ _ _ Hp2)), parent_mkn. simpl parent_of. rewrite (bind_ok _ _ _ _ _ E3).
    by rewrite (bind_ok _ _ _ _ _ E4).
  - rewrite !inorder_node in *. rewrite <-Hord. destruct s; simpl; by rewrite <-!app_assoc.
Qed.

Lemma insert_red_uncle h q C s s1 p sib g u t :
  at_place tr h q (Fr s1 true p sib :: Fr s false g u :: C) t → is_red t = true → is_red u = true →
  ∃ h' u', rb_insert_sub s tr (ptr tr t) h = Ok (g, h') ∧
    at_place tr h' q C (node s true (node s1 false t p sib) g u') ∧
    is_red u' = false ∧ inorder u' = inorder u ∧
    (∀ n, black_height u n ∧ no_red_red u → black_height u' (S n) ∧ no_red_red u').
Proof.
  intros Hp Hrt Hru. destruct (red_node t s Hrt) as (a & x & b & ->). rewrite ptr_node.
  destruct (red_node u s Hru) as (ua & y & ub & ->).
  pose proof (place_node _ _ _ _ _ _ _ _ _ Hp) as Hx. simpl in Hx.
  destruct (rd_up _ _ _ _ _ Hp) as (np & Hnp & _ & Hpp & _). simpl in *.
  assert (Hg : at_place tr h q (Fr s false g (node s true ua y ub) :: C) (node s1 true (node s true a x b) p sib)).
  { by apply at_place_fill in Hp. }
  destruct (rd_up _ _ _ _ _ Hg) as (ng & Hng & _ & _ & _ & Hgo). simpl in *. rewrite ptr_node in Hgo.
  assert (Hy : rd red y h = Ok (true, h)).
  { apply at_place_sibling, place_red in Hg. by rewrite ptr_node, is_red_node in Hg. }
  destruct (set_red_place _ _ _ _ _ _ false _ _ _ Hg) as (h1 & E1 & H1). apply at_place_sibling in H1.
  destruct (set_red_place _ _ _ _ _ _ false _ _ _ H1) as (h2 & E2 & H2). apply at_place_sibling in H2.
  apply at_place_fill in H2. unfold fill_in in H2. simpl in H2.
  destruct (set_red_place _ _ _ _ _ _ true _ _ _ H2) as (h3 & E3 & H3).
  exists h3, (node s false ua y ub). split; [|split; [done|split; [apply is_red_node|split; [by rewrite !inorder_node|]]]].
  - unfold rb_insert_sub. rewrite (bind_ok _ _ _ _ _ (rd_ok _ _ _ _ Hx)), parent_mkn.
    rewrite (bind_ok _ _ _ _ _ (rd_ok _ _ _ _ Hnp)), Hpp. rewrite (bind_ok _ _ _ _ _ (rd_ok _ _ _ _ Hng)), Hgo.
    rewrite (bind_ok _ _ _ _ _ Hy). rewrite (bind_ok _ _ _ _ _ E1), (bind_ok _ _ _ _ _ E2). by rewrite (bind_ok _ _ _ _ _ E3).
  - intros n. rewrite !black_height_node, !no_red_red_node. intros [(m & -> & ? & ?) (_ & ? & ?)].
    split; [by exists m|done].
Qed.

(** The loop has nothing to repair below a black parent. *)
Lemma insert_stop h q C a x b fuel :
  at_place tr h q C (node sleft true a x b) → (C = [] ∨ ctx_black C) →
  loop (S fuel) (rb_insert_body tr) x h = Ok (tt, h).
Proof.
  intros Hp HC. apply loop_stop. unfold rb_insert_body.
  rewrite (bind_ok _ _ _ _ _ (rd_ok _ _ _ _ (place_node _ _ _ _ _ _ _ _ _ Hp))), parent_mkn.
  destruct (hole_write tr h C x) as (nu & Hnu & _ & _ & _ & _ & Hru).
  { destruct Hp as [_ _ _ Hnd]. apply NoDup_cons in Hnd as [_ Hnd]. rewrite app_comm_cons in Hnd.
    by apply NoDup_app in Hnd as [Hnd _]. }
  { destruct Hp as [_ Hc _ _]. by rewrite ptr_node in Hc. }
  rewrite (bind_ok _ _ _ _ _ (rd_ok _ _ _ _ Hnu)), Hru.
  destruct C as [|f C]; [done|]. destruct HC as [?|Hb]; [done|]. simpl in Hb. by rewrite Hb.
Qed.

Lemma insert_loop_ok fuel h q C t n :
  at_place tr h q C t → is_red t = true → black_height t n → no_red_red t → ctx_ok C n → (length C < fuel)%nat →
  ∃ h' T', loop fuel (rb_insert_body tr) (ptr tr t) h = Ok (tt, h') ∧ at_place tr h' q [] T' ∧
    inorder T' = inorder (plug C t) ∧ ∃ c l k r, T' = T c l k r ∧ rb_ok (T false l k r).
Proof.
  revert h C t n. induction fuel as [|fuel IH]; intros h C t n Hp Hr Hb Hn Hc Hf; [lia|].
  destruct (red_node t sleft Hr) as (a & x & b & Et).
  destruct C as [|[s1 [] p sib] C].
  { (* at the root *)
    exists h, t. subst t. rewrite ptr_node. split; [apply (insert_stop _ _ _ _ _ _ _ Hp); by left|].
    split; [done|]. split; [done|]. exists true, a, x, b. split; [done|].
    simpl in Hb, Hn. destruct Hb as (m & -> & Ha & Hb). destruct Hn as (_ & Hna & Hnb).
    split; [done|]. split; [done|]. exists (S m). by exists m. }
  2:{ (* below a black parent *)
    exists h, (plug (Fr s1 false p sib :: C) t).
    assert (Hok : rb_ok (plug (Fr s1 false p sib :: C) t)) by (by apply (plug_ok _ _ n)).
    split; [|split; [by apply at_place_plug|split; [done|]]].
    - subst t. rewrite ptr_node. apply (insert_stop _ _ _ _ _ _ _ Hp). by right.
    - destruct (plug _ t) as [|c l k r] eqn:Ep.
      + assert (x ∈ inorder (plug (Fr s1 false p sib :: C) t)) as Hin; [|rewrite Ep in Hin; by apply elem_of_nil in Hin].
        rewrite inorder_plug, Et. simpl. set_solver.
      + exists c, l, k, r. split; [done|]. destruct Hok as (Hcr & Hnr & m & Hm). simpl in Hcr. subst c.
        split; [done|]. split; [done|]. by exists m. }
  destruct Hc as (Hbs & Hns & Hsib & Hc). destruct (Hsib eq_refl) as [Hrs HC].
  destruct C as [|[s [] g u] C]; [done|done|]. destruct Hc as (Hbu & Hnu & _ & Hc). simpl in Hbu, Hnu, Hc, Hbs, Hns, Hrs.
  (* the body up to the macro *)
  assert (Hbody : ∀ r, rb_insert_sub s tr (ptr tr t) h = r →
    rb_insert_body tr (ptr tr t) h = match r with Ok (x', h') => Ok (inl x', h') | Err e => Err e end).
  { intros r Er. unfold rb_insert_body. subst t. rewrite ptr_node in *.
    rewrite (bind_ok _ _ _ _ _ (rd_ok _ _ _ _ (place_node _ _ _ _ _ _ _ _ _ Hp))), parent_mkn. simpl parent_of.
    destruct (rd_up _ _ _ _ _ Hp) as (np & Hnp & Hrp & Hpp & _). simpl in Hnp, Hrp, Hpp.
    rewrite (bind_ok _ _ _ _ _ (rd_ok _ _ _ _ Hnp)), Hrp. rewrite (bind_ok _ _ _ _ _ (rd_ok _ _ _ _ Hnp)), Hpp.
    apply at_place_fill in Hp. destruct (rd_up _ _ _ _ _ Hp) as (ng & Hng & _). simpl in Hng.
    destruct (side_test _ _ _ _ _ _ _ _ _ _ Hp Hng) as [Hside _]. simpl in Hside.
    rewrite (bind_ok _ _ _ _ _ (rd_ok _ _ _ _ Hng)), Hside. unfold mbind, M_bind. rewrite Er. by destruct r as [[]|]. }
  destruct (is_red u) eqn:Hru.
  - destruct (insert_red_uncle _ _ _ _ _ _ _ _ _ _ Hp Hr Hru) as (h1 & u' & E1 & H1 & Hru' & Hiu & Hu').
    destruct (Hu' n (conj Hbu Hnu)) as [Hbu' Hnu'].
    assert (Hsn : is_red (node s1 false t p sib) = false) by apply is_red_node.
    destruct (IH h1 C (node s true (node s1 false t p sib) g u') (S n)) as (h' & T' & E' & H' & Hi' & Hok'); try done.
    + apply is_red_node.
    + apply black_height_node. exists (S n). split; [done|]. split; [|done]. apply black_height_node. by exists n.
    + apply no_red_red_node. split; [done|]. split; [|done]. apply no_red_red_node. done.
    + simpl in Hf. lia.
    + exists h', T'. rewrite (loop_next _ _ _ _ g h1) by (by rewrite (Hbody _ E1)). rewrite ptr_node in E'.
      split; [done|]. split; [done|]. split; [|done]. rewrite Hi'. simpl. unfold fill_in. simpl.
      apply plug_inorder. by rewrite !inorder_node, Hiu.
  - destruct (insert_black_uncle _ _ _ _ _ _ _ _ _ _ Hp Hr Hru) as (h1 & x' & low & B & p' & E1 & -> & Hlow & H1 & Hinv & Hord).
    destruct (Hinv n) as (Hbl & HbB & Hnl & HnB & HrB); [done|].
    set (t' := node s false low p' (node s true B g u)) in *.
    assert (Hok : rb_ok (plug C t')).
    { apply (plug_ok _ _ (S n)); [| |done|unfold t'; by rewrite is_red_node].
      - apply black_height_node. exists n. split; [done|]. split; [done|]. apply black_height_node. by exists n.
      - apply no_red_red_node. split; [done|]. split; [done|]. by apply no_red_red_node. }
    assert (Hstop : loop fuel (rb_insert_body tr) (ptr tr low) h1 = Ok (tt, h1)).
    { destruct fuel as [|fuel]; [simpl in Hf; lia|]. apply (at_place_fill tr h1 q C (Fr s false p' (node s true B g u))) in H1.
      destruct (red_node low sleft Hlow) as (la & lk & lb & ->). rewrite ptr_node.
      apply (insert_stop _ _ _ _ _ _ _ H1). by right. }
    exists h1, (plug C t'). rewrite (loop_next _ _ _ _ (ptr tr low) h1) by (by rewrite (Hbody _ E1)).
    split; [done|]. split; [by apply at_place_plug|]. split; [simpl; unfold fill_in; simpl; by apply plug_inorder|].
    destruct (plug C t') as [|c l k r] eqn:Ep.
    + assert (p' ∈ inorder (plug C t')) as Hin; [|rewrite Ep in Hin; by apply elem_of_nil in Hin].
      rewrite inorder_plug. unfold t'. rewrite inorder_node, around_perm. set_solver.
    + exists c, l, k, r. split; [done|]. destruct Hok as (Hcr & ? & ?). simpl in Hcr. by subst c.
Qed.

(** ** The place of the new node *)

(** [P] holds from some point of the list on. *)
Definition mono (P : K → Prop) (l : list K) : Prop := ∀ l1 x l2, l = l1 ++ x :: l2 → P x → Forall P l2.

Lemma mono_before P l l1 x l2 : mono P l → l = l1 ++ x :: l2 → ¬ P x → Forall (λ y, ¬ P y) l1.
Proof.
  intros Hm -> Hx. apply Forall_forall. intros y Hy HPy. apply list_elem_of_split in Hy as (u & v & ->).
  rewrite <-app_assoc in Hm. simpl in Hm. specialize (Hm u y (v ++ x :: l2) eq_refl HPy).
  apply Forall_app in Hm as [_ Hm]. apply Forall_cons in Hm as [? _]. done.
Qed.

Definition on_path (P : K → Prop) `{∀ x, Decision (P x)} (f : frame K) : Prop :=
  f_side f = if decide (P (f_key f)) then sleft else sright.

Lemma path_sides P `{∀ x, Decision (P x)} C t :
  mono P (inorder (plug C t)) → Forall (on_path P) C → Forall (λ y, ¬ P y) (lefts C) ∧ Forall P (rights C).
Proof.
  revert t. induction C as [|f C IH]; intros t Hm HC; [by split; constructor|].
  apply Forall_cons in HC as [Hf HC]. destruct (IH _ Hm HC) as [Hl Hr].
  rewrite inorder_plug in Hm. unfold on_path in Hf. simpl in *. unfold left_of, right_of in *.
  destruct (decide (P (f_key f))) as [HP|HP]; rewrite Hf in *; simpl in *.
  - rewrite app_nil_r in *. split; [done|]. constructor; [done|].
    by apply (Hm (lefts C ++ inorder t) (f_key f) (inorder (f_sib f) ++ rights C)); [rewrite <-!app_assoc|].
  - split; [|done]. rewrite app_assoc. apply Forall_app. split; [|by constructor].
    apply (mono_before _ _ _ (f_key f) (inorder t ++ rights C) Hm); [by rewrite <-!app_assoc|done].
Qed.

Lemma rd_root h q C t : at_place tr h q C t → rd left (root tr) h = Ok (ptr tr (plug C t), h).
Proof. intros Hp. apply at_place_plug in Hp. destruct Hp as [_ Hc _ _]. by rewrite (rd_ok _ _ _ _ Hc). Qed.

Lemma tree_at_dom h p t z : tree_at tr h p t → z ∈ inorder t → is_Some (h !! z).
Proof.
  revert p. induction t as [|c l IHl k r IHr]; intros p Ht Hz; simpl in *; [by apply elem_of_nil in Hz|].
  destruct Ht as (Hk & Hl & Hr). apply elem_of_app in Hz as [Hz|Hz]; [by eapply IHl|].
  apply elem_of_cons in Hz as [->|Hz]; [by eexists|by eapply IHr].
Qed.

(** The fuel of the walks suffices. *)
Lemma place_fuel h q C t : at_place tr h q C t → (2 + length C + height t ≤ size h)%nat.
Proof.
  intros Hp. assert (length C + height t ≤ height (plug C t))%nat as Hd.
  { clear. revert t. induction C as [|f C IH]; intros t; [simpl; lia|]. simpl. specialize (IH (fill_in f t)).
    assert (S (height t) ≤ height (fill_in f t))%nat; [|lia]. unfold fill_in. destruct (f_side f); simpl; lia. }
  pose proof (height_weight (plug C t)) as Hw. unfold weight in Hw.
  apply at_place_plug in Hp. destruct Hp as [Hn Hc Ht Hnd]. simpl in Hnd.
  enough (length (nil tr :: root tr :: inorder (plug C t)) ≤ size h)%nat by (simpl in *; lia).
  rewrite <-(size_list_to_set (C := gset K)) by done. rewrite <-(size_dom h). apply subseteq_size.
  intros z Hz. apply elem_of_list_to_set in Hz. apply elem_of_dom.
  apply elem_of_cons in Hz as [->|Hz]; [by eexists|]. apply elem_of_cons in Hz as [->|Hz]; [by eexists|].
  by eapply tree_at_dom.
Qed.

Lemma walk_ok {A B} (body : A → M heap (A + B)) (v : A) h (r : B) h' :
  loop (S (size h)) body v h = Ok (r, h') → walk body v h = Ok (r, h').
Proof. done. Qed.

Lemma insert_walk_ok fuel h q C t z :
  at_place tr h q C t → (height t < fuel)%nat → Forall (on_path (λ x, 0 < compare tr x z)) C →
  ∃ C', loop fuel (insert_binary_body tr z) (parent_of tr C, ptr tr t) h = Ok (parent_of tr C', h) ∧ at_place tr h q C' E ∧
    plug C' E = plug C t ∧ Forall (on_path (λ x, 0 < compare tr x z)) C'.
Proof.
  revert C t. induction fuel as [|fuel IH]; intros C t Hp Hf HC; [lia|].
  destruct t as [|c l k r].
  { exists C. split; [|done]. apply loop_stop. unfold insert_binary_body. by rewrite decide_False by auto. }
  pose proof (place_node _ _ _ _ sleft _ _ _ _ Hp) as Hk. pose proof (place_distinct _ _ _ _ sleft _ _ _ _ Hp) as [Hkn _].
  simpl in Hk. destruct (decide (0 < compare tr k z)) as [Hlt|Hge].
  - destruct (IH (Fr sleft c k r :: C) l) as (C' & E & HC'); [by apply at_place_fill|simpl in Hf; lia| |].
    { constructor; [|done]. unfold on_path. simpl. by rewrite decide_True. }
    exists C'. split; [|done]. rewrite (loop_next _ _ _ _ (k, ptr tr l) h); [done|].
    unfold insert_binary_body. simpl ptr. rewrite decide_True by done. rewrite (proj2 (Z.ltb_lt _ _)) by done.
    by rewrite (bind_ok _ _ _ _ _ (rd_ok _ _ _ _ Hk)).
  - destruct (IH (Fr sright c k l :: C) r) as (C' & E & HC'); [by apply at_place_fill|simpl in Hf; lia| |].
    { constructor; [|done]. unfold on_path. simpl. by rewrite decide_False. }
    exists C'. split; [|done]. rewrite (loop_next _ _ _ _ (k, ptr tr r) h); [done|].
    unfold insert_binary_body. simpl ptr. rewrite decide_True by done. rewrite (proj2 (Z.ltb_ge 0 _)) by (apply Z.nlt_ge; done).
    by rewrite (bind_ok _ _ _ _ _ (rd_ok _ _ _ _ Hk)).
Qed.

(** A leaf is hung at an empty place. *)
Lemma attach_place h q C z c p :
  at_place tr h q C E → z ≠ nil tr → z ≠ root tr → z ∉ ckeys C → h !! z = Some (mk_rb c p (nil tr) (nil tr)) →
  ∃ h', (_ ← set_parent z (parent_of tr C); set_child (hole_side C) (parent_of tr C) z) h = Ok (tt, h') ∧
    at_place tr h' q C (T c E z E).
Proof.
  intros [Hn Hc _ Hnd] Hzn Hzr HzC Hz.
  assert (Huz : parent_of tr C ≠ z) by (intros <-; by destruct (up_in tr C)).
  rewrite (bind_ok _ _ _ _ _ (set_parent_ok h sleft z c p (nil tr) (nil tr) _ Hz)). simpl mkn.
  set (h1 := <[z := _]> h). assert (Hc1 : ctx_at tr h1 C (nil tr)) by by apply ctx_at_insert.
  assert (Hnd' : NoDup (root tr :: ckeys C)).
  { apply NoDup_cons in Hnd as [_ Hnd]. simpl in Hnd. by rewrite app_nil_r in Hnd. }
  destruct (hole_write tr h1 C _ Hnd' Hc1) as (n & Hun & _ & Hw & _). eexists. split; [by apply set_child_ok|].
  assert (Hun' : parent_of tr C ≠ nil tr).
  { rewrite app_nil_r in Hnd. apply NoDup_cons in Hnd as [Hnd _]. intros Heq. apply Hnd. rewrite <-Heq.
    destruct (up_in tr C) as [->|?]; set_solver. }
  constructor.
  - apply nil_at_insert; [done|]. by apply nil_at_insert.
  - apply Hw.
  - simpl. rewrite lookup_insert_ne by done. unfold h1. by rewrite lookup_insert_eq.
  - simpl in *. rewrite app_nil_r in Hnd. eapply NoDup_Permutation_proper.
    { transitivity (z :: nil tr :: root tr :: ckeys C); [|reflexivity]. rewrite (Permutation_app_comm (ckeys C)). solve_Permutation. }
    constructor; [set_solver|done].
Qed.

Lemma rb_insert_binary_ok h q t z :
  at_place tr h q [] t → is_Some (h !! z) → z ≠ nil tr → z ≠ root tr → z ∉ inorder t →
  mono (λ x, 0 < compare tr x z) (inorder t) →
  ∃ h' C c A B, rb_insert_binary tr z h = Ok (tt, h') ∧ at_place tr h' q C (T c E z E) ∧ plug C E = t ∧
    lefts C = A ∧ rights C = B ∧ Forall (λ x, ¬ 0 < compare tr x z) A ∧ Forall (λ x, 0 < compare tr x z) B.
Proof.
  intros Hp [nz Hnz] Hzn Hzr Hzt Hm. unfold rb_insert_binary.
  rewrite (bind_ok _ _ _ _ _ (set_child_ok h sright z nz _ Hnz)). set (h1 := <[z := _]> h).
  rewrite (bind_ok _ _ _ _ _ (set_child_ok h1 sleft z _ _ (lookup_insert_eq _ _ _))).
  set (h2 := <[z := _]> h1).
  assert (Hz2 : h2 !! z = Some (mk_rb (red nz) (parent nz) (nil tr) (nil tr))) by (unfold h2; by rewrite lookup_insert_eq).
  assert (Hf2 : ∀ x, x ≠ z → h2 !! x = h !! x) by (intros x Hx; unfold h2, h1; by rewrite !lookup_insert_ne).
  assert (Hp2 : at_place tr h2 q [] t).
  { destruct Hp as [Hn Hc Ht Hnd]. constructor; [| | |done].
    - unfold nil_at. by rewrite Hf2.
    - simpl in *. by rewrite Hf2.
    - eapply tree_at_frame; [|done]. intros x Hx. apply Hf2. intros ->. done. }
  rewrite (bind_ok _ _ _ _ _ (rd_root _ _ _ _ Hp2)).
  pose proof (place_fuel _ _ _ _ Hp2) as Hfuel.
  destruct (insert_walk_ok (S (size h2)) h2 q [] t z Hp2 ltac:(simpl in Hfuel; lia) (Forall_nil_2 _)) as (C & Ew & HpC & HC & Hpath).
  simpl plug in *. rewrite (bind_ok _ _ _ _ _ (walk_ok _ _ _ _ _ Ew)). simpl in HC.
  assert (HzC : z ∉ ckeys C).
  { intros Hz. apply Hzt. rewrite <-HC, inorder_plug. simpl. clear - Hz. induction C as [|f C IH]; simpl in *; [done|].
    unfold left_of, right_of. destruct (f_side f); set_solver. }
  destruct (attach_place _ _ _ _ _ _ HpC Hzn Hzr HzC Hz2) as (h' & Ea & H').
  rewrite <-HC in Hm. destruct (path_sides _ C E Hm Hpath) as [HA HB].
  exists h', C, (red nz), (lefts C), (rights C). split_and!; try done.
  rewrite <-Ea. unfold mbind, M_bind. destruct (set_parent z (parent_of tr C) h2) as [[[] h3]|]; [|done].
  destruct C as [|f C]; simpl; [by rewrite decide_True|].
  rewrite decide_False.
  - apply Forall_cons in Hpath as [Hf _]. unfold on_path in Hf. rewrite Hf. destruct (decide (0 < compare tr (f_key f) z)).
    + by rewrite (proj2 (Z.ltb_lt _ _)).
    + by rewrite (proj2 (Z.ltb_ge 0 _)) by (apply Z.nlt_ge; done).
  - destruct HpC as [_ _ _ Hnd]. apply NoDup_cons in Hnd as [_ Hnd]. apply NoDup_cons in Hnd as [Hnd _]. set_solver.
Qed.

(** ** [rb_insert] *)

Lemma rb_insert_ok h t z :
  Rep tr h t → rb_ok t → is_Some (h !! z) → z ≠ nil tr → z ≠ root tr → z ∉ inorder t →
  mono (λ x, 0 < compare tr x z) (inorder t) →
  ∃ h' t' A B, rb_insert tr z h = Ok (tt, h') ∧ Rep tr h' t' ∧ rb_ok t' ∧ inorder t = A ++ B ∧
    inorder t' = A ++ z :: B ∧ Forall (λ x, ¬ 0 < compare tr x z) A ∧ Forall (λ x, 0 < compare tr x z) B.
Proof.
  intros [q Hp] Hok Hz Hzn Hzr Hzt Hm.
  destruct (rb_insert_binary_ok h q t z Hp Hz Hzn Hzr Hzt Hm) as (h1 & C & c & A & B & E1 & H1 & HC & HA & HB & HAf & HBf).
  destruct (set_red_place tr h1 q C sleft c true E z E H1) as (h2 & E2 & H2). simpl node in H2.
  assert (Hctx : ∃ n, black_height (E : tree K) n ∧ ctx_ok C n).
  { rewrite <-HC in Hok. apply plug_inv in Hok as (n & ? & _ & ? & _). by exists n. }
  destruct Hctx as (n & -> & Hctx).
  assert (Hbh : black_height (T true E z E) 0) by (by exists 0%nat).
  pose proof (place_fuel _ _ _ _ H2) as Hfuel.
  destruct (insert_loop_ok (S (size h2)) h2 q C (T true E z E) 0 H2) as (h3 & T' & E3 & H3 & Hi & c' & l & k & r & -> & Hok'); try done.
  { simpl in *. lia. }
  destruct (set_red_place tr h3 q [] sleft c' false l k r H3) as (h4 & E4 & H4).
  exists h4, (T false l k r), A, B. split_and!; try done.
  - unfold rb_insert. rewrite (bind_ok _ _ _ _ _ E1), (bind_ok _ _ _ _ _ E2).
    rewrite (bind_ok _ _ _ _ _ (walk_ok _ _ _ _ _ E3)). rewrite (bind_ok _ _ _ _ _ (rd_root _ _ _ _ H3)). simpl ptr.
    rewrite (bind_ok _ _ _ _ _ E4). rewrite (bind_ok _ _ _ _ _ (rd_ok red _ _ _ (ap_nil _ _ _ _ _ H4))).
    by rewrite (bind_ok _ _ _ _ _ (rd_ok red _ _ _ (ap_ctx _ _ _ _ _ H4))).
  - by exists q.
  - rewrite <-HC, inorder_plug. simpl. by rewrite HA, HB.
  - change (inorder (T c' l k r) = A ++ z :: B). rewrite Hi, inorder_plug. simpl. by rewrite HA, HB.
Qed.
End insert.
