(* ===== verification/RbDelete.v ===== *)
(** * Deletion from a red-black tree

    [rb_delete] unlinks the node and leaves the other nodes in order;
    [rb_delete_fixup] restores the invariant, and none of the assertions of
    the rotations fails.  [nil] takes part: while the repair stands at an empty
    place, the parent of [nil] is the parent of that place. *)

From S2P Require Import Prelude RbTree RbRep RbInv RbInsert.

Section delete.
Context {K : Type} `{Countable K} (tr : rb_tree K).
Notation heap := (gmap K (rb_node K)).
Notation ctx := (list (frame K)).
Implicit Types (h : heap) (t a b d : tree K) (k x y z w p q : K) (C : ctx) (s : side) (n : nat).

(** ** The place of a node that may be [nil] *)

Definition nil_here (q : K) C t : Prop := t = E → q = parent_of tr C.

Lemma rd_parent h q C t : at_place tr h q C t → nil_here q C t → rd parent (ptr tr t) h = Ok (parent_of tr C, h).
Proof.
  intros Hp Hq. destruct (node_cases t sleft) as [->|(c & a & k & b & ->)].
  - by rewrite (rd_ok _ _ _ _ (ap_nil _ _ _ _ _ Hp)), Hq.
  - rewrite ptr_node. by rewrite (rd_ok _ _ _ _ (place_node _ _ _ _ _ _ _ _ _ Hp)), parent_mkn.
Qed.

(** The test of the side, for a place with a sibling. *)
Lemma side_test_sib h q f C t (n : rb_node K) :
  at_place tr h q (f :: C) t → f_sib f ≠ E → h !! f_key f = Some n →
  (if decide (ptr tr t = left n) then sleft else sright) = f_side f.
Proof.
  intros Hp Hs Hn. destruct (node_cases t sleft) as [->|(c & a & k & b & ->)].
  2:{ rewrite ptr_node. by apply (side_test tr _ _ _ _ _ _ _ _ _ _ Hp Hn). }
  destruct (rd_up _ _ _ _ _ _ Hp) as (n' & Hn' & _ & _ & Hc & Ho). rewrite Hn' in Hn. injection Hn as <-.
  destruct (node_cases (f_sib f) sleft) as [?|(c & a & k & b & Es)]; [done|]. rewrite Es, ptr_node in Ho.
  destruct f as [s0 c0 k0 w0]. apply at_place_sibling in Hp as Hp'. simpl in *. subst w0.
  pose proof (place_distinct tr _ _ _ sleft _ _ _ _ Hp') as [Hk _]. destruct s0; simpl in *.
  - by rewrite decide_True.
  - rewrite decide_False; [done|]. congruence.
Qed.

(** ** The repair: a black sibling *)

(** The last steps of [RB_DELETE_FIXUP_SUB], with a red far child. *)
Definition fixup_last s (rt : K) x w : M heap K :=
  xp ← rd parent x;
  c ← rd red xp;
  _ ← set_red w c;
  _ ← set_red xp false;
  wo ← rd (child (other s)) w;
  _ ← set_red wo false;
  _ ← rb_rotate s tr xp;
  mret rt.

(** What follows the choice of [w] in [RB_DELETE_FIXUP_SUB]. *)
Definition fixup_rest s (rt : K) x w : M heap K :=
  wl ← rd (child s) w;
  wlr ← rd red wl;
  wo ← rd (child (other s)) w;
  wor ← rd red wo;
  if negb wlr && negb wor then
    _ ← set_red w true;
    rd parent x
  else
    w ← (if negb wor then
           wl ← rd (child s) w;
           _ ← set_red wl false;
           _ ← set_red w true;
           _ ← rb_rotate (other s) tr w;
           xp ← rd parent x;
           rd (child (other s)) xp
         else mret w);
    fixup_last s rt x w.

(** The colours of the children of the sibling. *)
Lemma sibling_reads h q s cp p wl kw cw wr C t :
  at_place tr h q (Fr s cp p (node s cw wl kw wr) :: C) t →
  h !! kw = Some (mkn s cw p (ptr tr wl) (ptr tr wr)) ∧
  rd red (ptr tr wl) h = Ok (is_red wl, h) ∧ rd red (ptr tr wr) h = Ok (is_red wr, h).
Proof.
  intros Hp. apply at_place_sibling in Hp. split; [by apply (place_node tr h q (Fr (other s) cp p t :: C))|]. split.
  - apply (at_place_fill tr h q _ (Fr s cw kw wr)) in Hp. by eapply place_red.
  - rewrite <-node_other in Hp. apply (at_place_fill tr h q _ (Fr (other s) cw kw wl)) in Hp. by eapply place_red.
Qed.

Lemma fixup_recolour h q s cp p wl kw wr C t rt :
  at_place tr h q (Fr s cp p (node s false wl kw wr) :: C) t → nil_here q (Fr s cp p (node s false wl kw wr) :: C) t →
  is_red wl = false → is_red wr = false →
  ∃ h', fixup_rest s rt (ptr tr t) kw h = Ok (p, h') ∧ at_place tr h' q C (node s cp t p (node s true wl kw wr)).
Proof.
  intros Hp Hq Hl Hr. destruct (sibling_reads _ _ _ _ _ _ _ _ _ _ _ Hp) as (Hw & Ewl & Ewr). rewrite Hl in Ewl. rewrite Hr in Ewr.
  apply at_place_sibling in Hp. destruct (set_red_place _ _ _ _ _ _ true _ _ _ Hp) as (h1 & E1 & H1).
  apply at_place_sibling in H1. rewrite ?other_other in H1.
  exists h1. split; [|by apply at_place_fill in H1].
  unfold fixup_rest. rewrite (bind_ok _ _ _ _ _ (rd_ok _ _ _ _ Hw)), child_mkn, (bind_ok _ _ _ _ _ Ewl).
  rewrite (bind_ok _ _ _ _ _ (rd_ok _ _ _ _ Hw)), child_other_mkn, (bind_ok _ _ _ _ _ Ewr). cbn [negb andb].
  rewrite (bind_ok _ _ _ _ _ E1). by apply (rd_parent h1 q (Fr s cp p (node s true wl kw wr) :: C) t).
Qed.

(** Case 4: the far child of the sibling is red. *)
Lemma fixup_far h q s cp p A kw a' kb b' C t rt :
  at_place tr h q (Fr s cp p (node s false A kw (node s true a' kb b')) :: C) t →
  nil_here q (Fr s cp p (node s false A kw (node s true a' kb b')) :: C) t →
  ∃ h', fixup_last s rt (ptr tr t) kw h = Ok (rt, h') ∧
    at_place tr h' q C (node s cp (node s false t p A) kw (node s false a' kb b')).
Proof.
  intros Hp Hq. pose proof (rd_parent _ _ _ _ Hp Hq) as Ep. simpl parent_of in Ep.
  destruct (rd_up _ _ _ _ _ _ Hp) as (np & Hnp & Hrp & _). simpl in Hnp, Hrp.
  apply at_place_sibling in Hp. destruct (set_red_place _ _ _ _ _ _ cp _ _ _ Hp) as (h1 & E1 & H1).
  apply at_place_fill in H1. unfold fill_in in H1. simpl in H1. rewrite node_other in H1.
  destruct (set_red_place _ _ _ _ _ _ false _ _ _ H1) as (h2 & E2 & H2).
  assert (H2w : at_place tr h2 q (Fr (other s) false p t :: C) (node s cp A kw (node s true a' kb b'))).
  { apply at_place_fill. unfold fill_in. simpl. by rewrite node_other. }
  pose proof (place_node _ _ _ _ _ _ _ _ _ H2w) as Hw2. simpl in Hw2. rewrite ptr_node in Hw2.
  rewrite <-node_other in H2w. apply (at_place_fill tr h2 q _ (Fr (other s) cp kw A)) in H2w.
  destruct (set_red_place _ _ _ _ _ _ false _ _ _ H2w) as (h3 & E3 & H3).
  apply at_place_fill, at_place_fill in H3. unfold fill_in in H3. simpl in H3. rewrite !node_other in H3.
  destruct (rb_rotate_place _ _ _ _ _ _ _ _ _ _ _ _ H3) as (h4 & E4 & H4).
  exists h4. split; [|done]. unfold fixup_last.
  rewrite (bind_ok _ _ _ _ _ Ep), (bind_ok _ _ _ _ _ (rd_ok _ _ _ _ Hnp)), Hrp.
  rewrite (bind_ok _ _ _ _ _ E1), (bind_ok _ _ _ _ _ E2), (bind_ok _ _ _ _ _ (rd_ok _ _ _ _ Hw2)), child_other_mkn.
  rewrite (bind_ok _ _ _ _ _ E3). by rewrite (bind_ok _ _ _ _ _ E4).
Qed.

Lemma fixup_rotate h q s cp p wl kw wr C t rt :
  at_place tr h q (Fr s cp p (node s false wl kw wr) :: C) t → nil_here q (Fr s cp p (node s false wl kw wr) :: C) t →
  is_red wl = true ∨ is_red wr = true →
  ∃ h' A kw' B, fixup_rest s rt (ptr tr t) kw h = Ok (rt, h') ∧
    at_place tr h' q C (node s cp (node s false t p A) kw' B) ∧ is_red B = false ∧
    (∀ n, black_height wl n → black_height wr n → no_red_red wl → no_red_red wr →
       black_height A n ∧ black_height B (S n) ∧ no_red_red A ∧ no_red_red B) ∧
    inorder (node s cp (node s false t p A) kw' B) = inorder (node s cp t p (node s false wl kw wr)).
Proof.
  intros Hp Hq Hor. destruct (sibling_reads _ _ _ _ _ _ _ _ _ _ _ Hp) as (Hw & Ewl & Ewr).
  unfold fixup_rest. rewrite (bind_ok _ _ _ _ _ (rd_ok _ _ _ _ Hw)), child_mkn, (bind_ok _ _ _ _ _ Ewl).
  rewrite (bind_ok _ _ _ _ _ (rd_ok _ _ _ _ Hw)), child_other_mkn, (bind_ok _ _ _ _ _ Ewr).
  destruct (is_red wr) eqn:Hr.
  - rewrite andb_false_r. cbn [negb]. rewrite (bind_ok (mret kw) _ h kw h) by done.
    destruct (red_node wr s Hr) as (a' & kb & b' & ->). destruct (fixup_far _ _ _ _ _ _ _ _ _ _ _ _ rt Hp Hq) as (h' & E' & H').
    exists h', wl, kw, (node s false a' kb b'). split; [done|]. split; [done|]. split; [apply is_red_node|]. split.
    + intros n Hbl. rewrite !black_height_node, !no_red_red_node. intros (m & -> & ? & ?) ? (_ & ? & ?).
      split_and!; try done. by exists m.
    + rewrite !inorder_node. destruct s; simpl; by rewrite <-!app_assoc.
  - destruct Hor as [Hl|?]; [|done]. rewrite Hl. cbn [negb andb]. destruct (red_node wl s Hl) as (wll & kl & wlr & ->).
    rewrite ptr_node in *.
    (* case 3: the near child comes up *)
    apply at_place_sibling in Hp as Hpw. apply at_place_fill in Hp as Hpp.
    apply (at_place_fill tr h q _ (Fr s false kw wr)) in Hpw.
    destruct (set_red_place _ _ _ _ _ _ false _ _ _ Hpw) as (h1 & E1 & H1).
    apply at_place_fill in H1. unfold fill_in in H1. simpl in H1.
    destruct (set_red_place _ _ _ _ _ _ true _ _ _ H1) as (h2 & E2 & H2).
    rewrite <-(node_other s true), <-(node_other s false) in H2.
    destruct (rb_rotate_place _ _ _ _ _ _ _ _ _ _ _ _ H2) as (h3 & E3 & H3).
    rewrite !node_other in H3. apply at_place_sibling in H3. rewrite ?other_other in H3.
    assert (Hq3 : nil_here q (Fr s cp p (node s false wll kl (node s true wlr kw wr)) :: C) t) by done.
    pose proof (rd_parent _ _ _ _ H3 Hq3) as Ep. simpl parent_of in Ep.
    destruct (rd_up _ _ _ _ _ _ H3) as (np & Hnp & _ & _ & _ & Hno). simpl in Hnp, Hno. rewrite ptr_node in Hno.
    destruct (fixup_far _ _ _ _ _ _ _ _ _ _ _ _ rt H3 Hq3) as (h' & E' & H').
    exists h', wll, kl, (node s false wlr kw wr). split; [|split; [done|split; [apply is_red_node|split]]].
    + rewrite (bind_ok _ _ h kl h3); [done|]. rewrite (bind_ok _ _ _ _ _ (rd_ok _ _ _ _ Hw)), child_mkn.
      rewrite (bind_ok _ _ _ _ _ E1), (bind_ok _ _ _ _ _ E2), (bind_ok _ _ _ _ _ E3), (bind_ok _ _ _ _ _ Ep).
      rewrite (rd_ok _ _ _ _ Hnp), Hno. reflexivity.
    + intros n. rewrite !black_height_node, !no_red_red_node. intros (m & -> & ? & ?) Hbr (Hc & ? & ?) ?.
      split_and!; try done. by exists m.
    + rewrite !inorder_node. destruct s; simpl; rewrite <-?app_assoc; simpl; rewrite <-?app_assoc; done.
Qed.

(** ** One round *)

(** A black sibling is taken as it is. *)
Lemma fixup_sub_black h q s cp p wl kw wr C t rt :
  at_place tr h q (Fr s cp p (node s false wl kw wr) :: C) t → nil_here q (Fr s cp p (node s false wl kw wr) :: C) t →
  rb_delete_fixup_sub s tr rt (ptr tr t) h = fixup_rest s rt (ptr tr t) kw h.
Proof.
  intros Hp Hq. pose proof (rd_parent _ _ _ _ Hp Hq) as Ep. simpl parent_of in Ep.
  destruct (rd_up _ _ _ _ _ _ Hp) as (np & Hnp & _ & _ & _ & Hno). simpl in Hnp, Hno. rewrite ptr_node in Hno.
  apply at_place_sibling, place_red in Hp. rewrite ptr_node, is_red_node in Hp.
  unfold rb_delete_fixup_sub. rewrite (bind_ok _ _ _ _ _ Ep), (bind_ok _ _ _ _ _ (rd_ok _ _ _ _ Hnp)), Hno.
  rewrite (bind_ok _ _ _ _ _ Hp). by rewrite (bind_ok (mret kw) _ h kw h).
Qed.

(** Case 1: a red sibling comes up, the parent turns red. *)
Lemma fixup_sub_red h q s p wl kw wr C t rt :
  at_place tr h q (Fr s false p (node s true wl kw wr) :: C) t → nil_here q (Fr s false p (node s true wl kw wr) :: C) t →
  ∃ h', rb_delete_fixup_sub s tr rt (ptr tr t) h = fixup_rest s rt (ptr tr t) (ptr tr wl) h' ∧
    at_place tr h' q (Fr s true p wl :: Fr s false kw wr :: C) t.
Proof.
  intros Hp Hq. pose proof (rd_parent _ _ _ _ Hp Hq) as Ep. simpl parent_of in Ep.
  destruct (rd_up _ _ _ _ _ _ Hp) as (np & Hnp & _ & _ & _ & Hno). simpl in Hnp, Hno. rewrite ptr_node in Hno.
  apply at_place_sibling in Hp as Hp'. apply place_red in Hp' as Er. rewrite ptr_node, is_red_node in Er.
  destruct (set_red_place _ _ _ _ _ _ false _ _ _ Hp') as (h1 & E1 & H1).
  apply at_place_sibling in H1. rewrite ?other_other in H1.
  pose proof (rd_parent _ _ _ _ H1 Hq) as Ep1. simpl parent_of in Ep1.
  apply at_place_fill in H1. unfold fill_in in H1. simpl in H1.
  destruct (set_red_place _ _ _ _ _ _ true _ _ _ H1) as (h2 & E2 & H2).
  destruct (rb_rotate_place _ _ _ _ _ _ _ _ _ _ _ _ H2) as (h3 & E3 & H3).
  apply (at_place_fill tr h3 q C (Fr s false kw wr)), (at_place_fill tr h3 q _ (Fr s true p wl)) in H3.
  assert (Hq3 : nil_here q (Fr s true p wl :: Fr s false kw wr :: C) t) by done.
  pose proof (rd_parent _ _ _ _ H3 Hq3) as Ep3. simpl parent_of in Ep3.
  destruct (rd_up _ _ _ _ _ _ H3) as (np3 & Hnp3 & _ & _ & _ & Hno3). simpl in Hnp3, Hno3.
  exists h3. split; [|done]. unfold rb_delete_fixup_sub.
  rewrite (bind_ok _ _ _ _ _ Ep), (bind_ok _ _ _ _ _ (rd_ok _ _ _ _ Hnp)), Hno, (bind_ok _ _ _ _ _ Er).
  rewrite (bind_ok _ _ h (ptr tr wl) h3); [done|].
  rewrite (bind_ok _ _ _ _ _ E1), (bind_ok _ _ _ _ _ Ep1), (bind_ok _ _ _ _ _ E2), (bind_ok _ _ _ _ _ E3).
  rewrite (bind_ok _ _ _ _ _ Ep3). rewrite (rd_ok _ _ _ _ Hnp3), Hno3. reflexivity.
Qed.

(** ** The loop *)

(** The loop and the last store: the tree is mended. *)
Definition mends (m : M heap K) h q (l : list K) : Prop :=
  ∃ x h1 h2 T', m h = Ok (x, h1) ∧ set_red x false h1 = Ok (tt, h2) ∧ at_place tr h2 q [] T' ∧ rb_ok T' ∧ inorder T' = l.

(** Blackening a black node changes nothing. *)
Lemma blacken_black h k (nd : rb_node K) : h !! k = Some nd → red nd = false → set_red k false h = Ok (tt, h).
Proof.
  intros Hk Hr. unfold set_red. rewrite (wr_ok _ _ _ _ Hk). rewrite insert_id; [done|].
  rewrite Hk. f_equal. destruct nd; simpl in *. by subst.
Qed.

(** The loop stops at a red node, or at the old root. *)
Lemma fixup_at_red fuel h q C t p (w' : tree K) s rt n :
  at_place tr h q C (node s true t p w') → black_height t n → no_red_red t → black_height w' n → no_red_red w' →
  ctx_ok C (S n) →
  mends (loop (S fuel) (delete_fixup_body tr rt) p) h q (inorder (plug C (node s true t p w'))).
Proof.
  intros Hp Hbt Hnt Hbw Hnw Hc. destruct (set_red_place _ _ _ _ _ _ false _ _ _ Hp) as (h2 & E2 & H2).
  exists p, h, h2, (plug C (node s false t p w')). split; [|split; [done|split; [by apply at_place_plug|split]]].
  - apply loop_stop. unfold delete_fixup_body. destruct (decide (p ≠ rt)); [|done].
    pose proof (place_red _ _ _ _ _ Hp) as Er. rewrite ptr_node, is_red_node in Er. by rewrite (bind_ok _ _ _ _ _ Er).
  - apply (plug_ok _ _ (S n)); [|by apply no_red_red_node|done|by rewrite is_red_node].
    apply black_height_node. by exists n.
  - apply plug_inorder. by rewrite !inorder_node.
Qed.

Lemma ptr_plug_ctx f C t t' : ptr tr (plug (f :: C) t) = ptr tr (plug (f :: C) t').
Proof.
  revert f t t'. induction C as [|g C IH]; intros f t t'; simpl; [unfold fill_in; by rewrite !ptr_node|]. apply IH.
Qed.

(** After the last rotation the loop leaves at [rt], which is black. *)
Lemma fixup_at_root fuel h q s cp t p A kw' B C n rt :
  at_place tr h q C (node s cp (node s false t p A) kw' B) → is_red B = false →
  black_height t n → no_red_red t → black_height A n → black_height B (S n) → no_red_red A → no_red_red B →
  ctx_ok C (if cp then S n else S (S n)) → (cp = true → ctx_black C) →
  (rt = p ∨ ∃ f C', C = f :: C' ∧ rt = ptr tr (plug C t)) →
  mends (loop (S fuel) (delete_fixup_body tr rt) rt) h q (inorder (plug C (node s cp (node s false t p A) kw' B))).
Proof.
  intros Hp HrB Hbt Hnt HbA HbB HnA HnB Hc Hcp Hroot. set (t' := node s cp (node s false t p A) kw' B) in *.
  assert (Hok : rb_ok (plug C t')).
  { apply (plug_ok _ _ (if cp then S n else S (S n))); [| |done|unfold t'; by rewrite is_red_node].
    - apply black_height_node. exists (S n). split; [by destruct cp|]. split; [|done]. apply black_height_node. by exists n.
    - apply no_red_red_node. rewrite is_red_node. split; [done|]. split; [|done]. by apply no_red_red_node. }
  assert (∃ nd, h !! rt = Some nd ∧ red nd = false) as (nd & Hnd & Hred).
  { destruct Hroot as [->|(f & C' & -> & ->)].
    - apply (at_place_fill tr h q C (Fr s cp kw' B)) in Hp. eexists. split; [by eapply place_node|]. apply red_mkn.
    - rewrite (ptr_plug_ctx f C' t t'). apply at_place_plug in Hp. destruct Hok as (Hr & _).
      destruct (node_cases (plug (f :: C') t') sleft) as [Ep|(c & a & k & b & Ep)]; rewrite Ep in *.
      + exfalso. assert (f_key f ∈ inorder (plug (f :: C') t')) as Hin; [|rewrite Ep in Hin; by apply elem_of_nil in Hin].
        rewrite inorder_plug. simpl. unfold left_of, right_of. destruct (f_side f); set_solver.
      + rewrite ptr_node. eexists. split; [by eapply place_node|]. rewrite red_mkn. by rewrite is_red_node in Hr. }
  exists rt, h, h, (plug C t'). split; [|split; [by eapply blacken_black|split; [by apply at_place_plug|done]]].
  apply loop_stop. unfold delete_fixup_body. rewrite decide_False; [done|]. by intros [].
Qed.

Lemma ptr_plug_in f C t : ptr tr (plug (f :: C) t) ∈ ckeys (f :: C).
Proof.
  revert f t. induction C as [|g C IH]; intros f t; [unfold plug, fill_in; rewrite ptr_node; simpl; set_solver|].
  change (plug (f :: g :: C) t) with (plug (g :: C) (fill_in f t)). specialize (IH g (fill_in f t)).
  change (ckeys (f :: g :: C)) with (f_key f :: inorder (f_sib f) ++ ckeys (g :: C)). set_solver.
Qed.

Lemma place_not_root h q f C t : at_place tr h q (f :: C) t → ptr tr t ≠ ptr tr (plug (f :: C) t).
Proof.
  intros [_ _ _ Hnd] Heq. pose proof (ptr_plug_in f C t) as Hin. rewrite <-Heq in Hin.
  apply NoDup_cons in Hnd as [Hn Hnd]. apply NoDup_cons in Hnd as [_ Hnd]. apply NoDup_app in Hnd as (_ & Hnd & _).
  destruct (node_cases t sleft) as [->|(c & a & k & b & ->)]; [set_solver|].
  rewrite ptr_node in Hin. apply (Hnd _ Hin). rewrite inorder_node, around_perm. set_solver.
Qed.

Lemma black_node t n s : black_height t (S n) → is_red t = false →
  ∃ a k b, t = node s false a k b ∧ black_height a n ∧ black_height b n.
Proof.
  intros Hb Hr. destruct (node_cases t s) as [->|(c & a & k & b & ->)]; [by simpl in Hb|].
  rewrite is_red_node in Hr. subst c. apply black_height_node in Hb as (m & [= ->] & ? & ?). by exists a, k, b.
Qed.

Lemma mends_next fuel rt x h x' h' q l :
  delete_fixup_body tr rt x h = Ok (inl x', h') → mends (loop fuel (delete_fixup_body tr rt) x') h' q l →
  mends (loop (S fuel) (delete_fixup_body tr rt) x) h q l.
Proof. intros E (y & h1 & h2 & T' & El & H'). exists y, h1, h2, T'. by rewrite (loop_next _ _ _ _ _ _ E). Qed.

(** The body below a parent, up to the macro. *)
Lemma delete_body_eq h q f C t rt :
  at_place tr h q (f :: C) t → nil_here q (f :: C) t → is_red t = false → f_sib f ≠ E → rt = ptr tr (plug (f :: C) t) →
  ∀ x' h', rb_delete_fixup_sub (f_side f) tr rt (ptr tr t) h = Ok (x', h') →
    delete_fixup_body tr rt (ptr tr t) h = Ok (inl x', h').
Proof.
  intros Hp Hq Hr Hs -> x' h' E. unfold delete_fixup_body. rewrite decide_True by (by eapply place_not_root).
  pose proof (place_red _ _ _ _ _ Hp) as Er. rewrite (bind_ok _ _ _ _ _ Er), Hr. cbn [negb].
  rewrite (bind_ok _ _ _ _ _ (rd_parent _ _ _ _ Hp Hq)). destruct (rd_up _ _ _ _ _ _ Hp) as (n & Hn & _).
  simpl parent_of. rewrite (bind_ok _ _ _ _ _ (rd_ok _ _ _ _ Hn)), (side_test_sib _ _ _ _ _ _ Hp Hs Hn).
  by rewrite (bind_ok _ _ _ _ _ E).
Qed.

(** The loop from the root, or from a red node. *)
Lemma fixup_ends fuel h q C t n rt :
  at_place tr h q C t → black_height t n → no_red_red t → ctx_ok C (S n) → rt = ptr tr (plug C t) →
  C = [] ∨ is_red t = true →
  mends (loop (S fuel) (delete_fixup_body tr rt) (ptr tr t)) h q (inorder (plug C t)).
Proof.
  intros Hp Hb Hn Hc Hrt Hor.
  assert (Hstop : loop (S fuel) (delete_fixup_body tr rt) (ptr tr t) h = Ok (ptr tr t, h)).
  { apply loop_stop. unfold delete_fixup_body. destruct (decide (ptr tr t ≠ rt)) as [Hne|?]; [|done].
    destruct Hor as [->|Hr]; [done|]. pose proof (place_red _ _ _ _ _ Hp) as Er. by rewrite (bind_ok _ _ _ _ _ Er), Hr. }
  destruct (node_cases t sleft) as [->|(c & a & k & b & ->)].
  - destruct Hor as [->|?]; [|done]. exists (nil tr), h, h, E. split; [done|].
    split; [by eapply blacken_black; [apply (ap_nil _ _ _ _ _ Hp)|]|]. split; [done|]. split; [|done].
    split; [done|]. split; [done|]. by exists 0%nat.
  - destruct (set_red_place _ _ _ _ _ _ false _ _ _ Hp) as (h2 & E2 & H2). rewrite ptr_node in *.
    exists k, h, h2, (plug C (node sleft false a k b)). split; [done|]. split; [done|].
    split; [by apply at_place_plug|]. split; [|apply plug_inorder; by rewrite !inorder_node].
    apply black_height_node in Hb as (m & Hm & Ha & Hbb). apply no_red_red_node in Hn as (_ & Hna & Hnb).
    apply (plug_ok _ _ (S m)); [|by apply no_red_red_node| |by rewrite is_red_node].
    + apply black_height_node. by exists m.
    + destruct c; [by subst|]. destruct Hor as [->|Hr]; [done|]. by rewrite is_red_node in Hr.
Qed.

Lemma fixup_loop_ok fuel h q C t n rt :
  at_place tr h q C t → nil_here q C t → black_height t n → no_red_red t → ctx_ok C (S n) →
  rt = ptr tr (plug C t) → (length C < fuel)%nat →
  mends (loop (S fuel) (delete_fixup_body tr rt) (ptr tr t)) h q (inorder (plug C t)).
Proof.
  revert h C t n. induction fuel as [|fuel IH]; intros h C t n Hp Hq Hb Hn Hc Hrt Hf; [lia|].
  destruct C as [|f C]; [by apply (fixup_ends _ _ _ _ _ n); auto|].
  destruct (is_red t) eqn:Hr; [by apply (fixup_ends _ _ _ _ _ n); auto|].
  destruct f as [s cp p w]. destruct Hc as (Hbw & Hnw & Hcp & Hc). cbn [f_sib f_red] in *.
  assert (Hwne : w ≠ E) by (intros ->; done).
  pose proof (delete_body_eq h q _ C t rt Hp Hq Hr Hwne Hrt) as Hbody. cbn [f_side] in Hbody.
  assert (Hroot : rt = p ∨ ∃ f' C', C = f' :: C' ∧ rt = ptr tr (plug C t)).
  { destruct C as [|f' C']; [left|right].
    - rewrite Hrt. simpl. unfold fill_in. by rewrite ptr_node.
    - exists f', C'. split; [done|]. rewrite Hrt. apply (ptr_plug_ctx f' C'). }
  destruct (is_red w) eqn:Hrw.
  - (* a red sibling *)
    assert (cp = false) as -> by (destruct cp; [destruct (Hcp eq_refl); congruence|done]).
    destruct (red_node w s Hrw) as (wl & kw & wr & ->).
    apply black_height_node in Hbw as (m & Hm & Hbl & Hbr). rewrite <-Hm in Hbl, Hbr.
    apply no_red_red_node in Hnw as (Hcl & Hnl & Hnr). destruct (Hcl eq_refl) as [Hrl Hrr].
    destruct (fixup_sub_red _ _ _ _ _ _ _ _ _ rt Hp Hq) as (h1 & Es & H1).
    destruct (black_node wl n s Hbl Hrl) as (wll & kl & wlr & -> & Hbll & Hblr). rewrite ptr_node in Es.
    apply no_red_red_node in Hnl as (_ & Hnll & Hnlr).
    assert (Hq1 : nil_here q (Fr s true p (node s false wll kl wlr) :: Fr s false kw wr :: C) t) by done.
    assert (Hc1 : ctx_ok (Fr s false kw wr :: C) (S n)) by done.
    assert (Hord : ∀ t', inorder t' = inorder (node s true t p (node s false wll kl wlr)) →
      inorder (plug (Fr s false kw wr :: C) t') = inorder (plug (Fr s false p (node s true (node s false wll kl wlr) kw wr) :: C) t)).
    { intros t' Ht'. simpl. apply plug_inorder. unfold fill_in. simpl. rewrite !inorder_node, Ht', !inorder_node.
      destruct s; simpl; rewrite <-?app_assoc; simpl; rewrite <-?app_assoc; done. }
    destruct (is_red wll) eqn:Ell; [|destruct (is_red wlr) eqn:Elr].
    1,2: destruct (fixup_rotate _ _ _ _ _ _ _ _ _ _ rt H1 Hq1) as (h2 & A & kw' & B & E2 & H2 & HrB & HAB & Ho); [auto|];
      destruct (HAB n) as (HbA & HbB & HnA & HnB); try done;
      rewrite <-(Hord (node s true (node s false t p A) kw' B)) by (rewrite Ho, !inorder_node; done);
      apply (mends_next _ _ _ _ rt h2); [apply Hbody; by rewrite Es|];
      apply (fixup_at_root _ _ _ _ true _ _ _ _ _ _ n); try done;
      destruct Hroot as [?|(f' & C' & -> & ->)]; [by left|right];
      eexists _, _; split; [done|]; simpl; apply ptr_plug_ctx.
    destruct (fixup_recolour _ _ _ _ _ _ _ _ _ _ rt H1 Hq1 Ell Elr) as (h2 & E2 & H2).
    rewrite <-(Hord (node s true t p (node s true wll kl wlr))) by (rewrite !inorder_node; done).
    apply (mends_next _ _ _ _ p h2); [apply Hbody; by rewrite Es|].
    apply (fixup_at_red _ _ _ _ _ _ _ _ _ n); try done.
    + apply black_height_node. by exists n.
    + apply no_red_red_node. done.
  - destruct (black_node w n s Hbw Hrw) as (wl & kw & wr & -> & Hbl & Hbr).
    apply no_red_red_node in Hnw as (_ & Hnl & Hnr).
    pose proof (fixup_sub_black _ _ _ _ _ _ _ _ _ _ rt Hp Hq) as Es.
    destruct (is_red wl) eqn:Ell; [|destruct (is_red wr) eqn:Elr].
    1,2: destruct (fixup_rotate _ _ _ _ _ _ _ _ _ _ rt Hp Hq) as (h2 & A & kw' & B & E2 & H2 & HrB & HAB & Ho); [auto|];
      destruct (HAB n) as (HbA & HbB & HnA & HnB); try done;
      apply (mends_next _ _ _ _ rt h2); [apply Hbody; by rewrite Es|];
      simpl; unfold fill_in; simpl; rewrite <-(plug_inorder C _ _ Ho);
      apply (fixup_at_root _ _ _ _ cp _ _ _ _ _ _ n); try done; naive_solver.
    destruct (fixup_recolour _ _ _ _ _ _ _ _ _ _ rt Hp Hq Ell Elr) as (h2 & E2 & H2).
    apply (mends_next _ _ _ _ p h2); [apply Hbody; by rewrite Es|].
    assert (Hord : inorder (plug C (node s cp t p (node s true wl kw wr))) = inorder (plug (Fr s cp p (node s false wl kw wr) :: C) t)).
    { simpl. unfold fill_in. simpl. apply plug_inorder. by rewrite !inorder_node. }
    rewrite <-Hord. assert (Hbw' : black_height (node s true wl kw wr) n) by (apply black_height_node; by exists n).
    destruct cp.
    + apply (fixup_at_red _ _ _ _ _ _ _ _ _ n); try done. by apply no_red_red_node.
    + destruct fuel as [|fuel]; [simpl in Hf; lia|].
      pose proof (IH h2 C (node s false t p (node s true wl kw wr)) (S n) H2) as IH'. rewrite ptr_node in IH'.
      apply IH'; try done.
      * intros ?. by destruct s.
      * apply black_height_node. by exists n.
      * apply no_red_red_node. split; [done|]. split; [done|]. by apply no_red_red_node.
      * rewrite Hrt. destruct C as [|f' C']; [simpl; unfold fill_in; by rewrite !ptr_node|apply (ptr_plug_ctx f' C')].
      * simpl in Hf. lia.
Qed.
End delete.
