(* ===== verification/RbUnlink.v ===== *)
(** * [rb_delete]

    Unlinking a node: the node with at most one child is spliced out; a node
    with two children gives its place to its successor. *)

From S2P Require Import Prelude RbTree RbRep RbInv RbInsert RbDelete.

Section unlink.
Context {K : Type} `{Countable K} (tr : rb_tree K).
Notation heap := (gmap K (rb_node K)).
Notation ctx := (list (frame K)).
Implicit Types (h : heap) (t a b d : tree K) (k x y z p q : K) (C : ctx) (s : side).

Lemma rb_delete_fixup_ok h q C t n :
  at_place tr h q C t → nil_here tr q C t → black_height t n → no_red_red t → ctx_ok C (S n) →
  ∃ h' t', rb_delete_fixup tr (ptr tr t) h = Ok (tt, h') ∧ at_place tr h' q [] t' ∧ rb_ok t' ∧
    inorder t' = inorder (plug C t).
Proof.
  intros Hp Hq Hb Hn Hc. pose proof (place_fuel _ _ _ _ _ Hp) as Hfuel.
  destruct (fixup_loop_ok tr (size h) h q C t n _ Hp Hq Hb Hn Hc eq_refl) as (x & h1 & h2 & T' & E1 & E2 & H2 & Hok & Hi); [lia|].
  exists h2, T'. split; [|done]. unfold rb_delete_fixup. rewrite (bind_ok _ _ _ _ _ (rd_root _ _ _ _ _ Hp)).
  by rewrite (bind_ok _ _ _ _ _ (walk_ok _ _ _ _ _ E1)).
Qed.

(** ** Splicing *)

Lemma set_parent_sub h q p t v :
  nil_at tr h q → tree_at tr h p t → NoDup (nil tr :: inorder t) →
  ∃ h' q', set_parent (ptr tr t) v h = Ok (tt, h') ∧ nil_at tr h' q' ∧ tree_at tr h' v t ∧
    (∀ z, z ≠ nil tr → z ∉ inorder t → h' !! z = h !! z) ∧ (t = E → q' = v) ∧ (t ≠ E → q' = q).
Proof.
  intros Hn Ht Hnd. destruct (node_cases t sleft) as [->|(c & a & k & b & ->)].
  - exists (<[nil tr := mk_rb false v (nil tr) (nil tr)]> h), v. split; [|split; [apply lookup_insert_eq|]].
    + by apply (set_parent_ok h sleft _ _ q).
    + split; [done|]. split; [|done]. intros z Hz _. by rewrite lookup_insert_ne.
  - apply NoDup_cons in Hnd as [Hnil Hnd]. rewrite inorder_node, around_perm in Hnil, Hnd.
    apply NoDup_cons in Hnd as [Hk _]. apply tree_at_node in Ht as Hk'. destruct Hk' as (Hk' & _).
    exists (<[k := mkn sleft c v (ptr tr a) (ptr tr b)]> h), q. rewrite ptr_node.
    split; [by apply (set_parent_ok h sleft _ _ p)|]. split; [apply nil_at_insert; [set_solver|done]|].
    split; [eapply tree_at_parent; [set_solver|set_solver|done]|].
    split; [|done]. intros z _ Hz. rewrite lookup_insert_ne; [done|]. intros <-. apply Hz.
    rewrite inorder_node, around_perm. set_solver.
Qed.

(** The only child of [y] takes its place. *)
Lemma splice_place h q C c l y r :
  at_place tr h q C (T c l y r) → l = E ∨ r = E →
  let t := match l with E => r | _ => l end in
  ∃ h' q', (_ ← set_parent (ptr tr t) (parent_of tr C);
      yp ← rd parent y;
      ypl ← rd left yp;
      if decide (y = ypl) then set_child sleft yp (ptr tr t) else set_child sright yp (ptr tr t)) h = Ok (tt, h') ∧
    at_place tr h' q' C t ∧ nil_here tr q' C t ∧ (t ≠ E → q' = q) ∧ h' !! y = h !! y ∧
    inorder t = inorder l ++ inorder r.
Proof.
  intros Hp Hor t. pose proof (place_node tr h q C sleft c l y r Hp) as Hy. simpl in Hy.
  pose proof (place_distinct tr h q C sleft c l y r Hp) as [D1 D2 D3 D4 D5 D6 D7 D8 D9 D10 D11 D12].
  destruct Hp as [Hn Hc (_ & Hl & Hr) Hnd].
  assert (Ht : tree_at tr h y t ∧ inorder t = inorder l ++ inorder r).
  { subst t. destruct Hor as [->| ->]; [done|]. destruct l; [done|]. by rewrite app_nil_r. }
  destruct Ht as [Ht Hi].
  assert (Hnd' : NoDup (nil tr :: root tr :: ckeys C ++ inorder t)).
  { rewrite Hi. eapply sublist_NoDup; [exact Hnd|]. simpl. do 2 constructor.
    apply sublist_app; [done|]. apply sublist_app; [done|]. by constructor. }
  assert (Hndt : NoDup (nil tr :: inorder t)).
  { eapply sublist_NoDup; [exact Hnd'|]. constructor. constructor. by apply sublist_inserts_l. }
  destruct (set_parent_sub h q y t (parent_of tr C) Hn Ht Hndt) as (h1 & q' & E1 & Hn1 & Ht1 & Hf1 & Hq1 & Hq2).
  assert (Hyt : y ∉ inorder t) by (rewrite Hi; set_solver).
  assert (HCt : ∀ z, z ∈ ckeys C → z ∉ inorder t) by (intros z Hz; rewrite Hi; set_solver).
  assert (Hc1 : ctx_at tr h1 C y).
  { eapply ctx_at_frame; [| |exact Hc]; [intros z Hz; apply Hf1; [set_solver|by apply HCt]|].
    apply Hf1; [done|]. rewrite Hi. set_solver. }
  destruct (relink_place tr h1 C y (ptr tr t) sleft D12 Hc1 D1 D4) as (n & n' & Hun & Erl & Hc2).
  exists (<[parent_of tr C := n']> h1), q'.
  assert (Hu : ∀ z, z ∉ ckeys C → z ≠ root tr → parent_of tr C ≠ z).
  { intros z Hz1 Hz2 <-. by destruct (up_in tr C). }
  assert (Hy1 : h1 !! y = h !! y) by by apply Hf1.
  split; [|split; [|split; [|split; [done|split; [|done]]]]].
  - rewrite (bind_ok _ _ _ _ _ E1). rewrite (bind_ok _ _ h1 (parent_of tr C) h1).
    2:{ by rewrite (rd_ok _ _ _ _ (eq_trans Hy1 Hy)). }
    by rewrite (bind_ok _ _ _ _ _ (rd_ok _ _ _ _ Hun)).
  - constructor; [|done| |done].
    + apply nil_at_insert; [|done]. apply Hu; [set_solver|done].
    + apply tree_at_insert; [|done]. intros Hin. destruct (up_in tr C) as [Hur|Hur].
      * rewrite Hur, Hi in Hin. set_solver.
      * by apply (HCt _ Hur).
  - exact Hq1.
  - rewrite lookup_insert_ne; [done|]. by apply Hu.
Qed.

(** ** The successor *)

Lemma extreme_walk_ok fuel h q C t s :
  at_place tr h q C t → t ≠ E → (height t < fuel)%nat →
  ∃ D c k b, t = plug D (node s c E k b) ∧ Forall (λ f, f_side f = s) D ∧
    loop fuel (descend_body s tr) (ptr tr t) h = Ok (k, h).
Proof.
  revert C t. induction fuel as [|fuel IH]; intros C t Hp Hne Hf; [lia|].
  destruct (node_cases t s) as [?|(c & a & k & b & ->)]; [done|].
  pose proof (place_node _ _ _ _ _ _ _ _ _ Hp) as Hk.
  assert (Hbody : descend_body s tr k h =
    (if decide (ptr tr a ≠ nil tr) then mret (inl (ptr tr a)) else mret (inr k) : M heap (K + K)) h).
  { unfold descend_body. by rewrite (bind_ok _ _ _ _ _ (rd_ok _ _ _ _ Hk)), child_mkn. }
  pose proof (place_distinct _ _ _ _ _ _ _ _ _ Hp) as D.
  destruct (node_cases a s) as [->|(c' & a' & k' & b' & ->)].
  - exists [], c, k, b. split; [done|]. split; [constructor|]. rewrite ptr_node. apply loop_stop.
    rewrite Hbody. by rewrite decide_False by auto.
  - apply (at_place_fill tr h q C (Fr s c k b)) in Hp.
    destruct (IH _ _ Hp) as (D' & c1 & k1 & b1 & Et & HD & El); [by destruct s| |].
    { destruct s; simpl in *; lia. }
    exists (D' ++ [Fr s c k b]), c1, k1, b1. split; [|split].
    + rewrite plug_app, <-Et. done.
    + apply Forall_app. split; [done|]. by constructor.
    + rewrite ptr_node. rewrite (loop_next _ _ _ _ (ptr tr (node s c' a' k' b')) h); [done|].
      rewrite Hbody, decide_True; [done|]. rewrite ptr_node.
      intros ->. destruct (da_nils _ _ _ _ _ D) as (_ & Hn & _). apply Hn. rewrite inorder_node, around_perm. set_solver.
Qed.

(** ** The successor takes the place of the node *)

Definition replace_code z y : M heap unit :=
  zp ← rd parent z;
  zpl ← rd left zp;
  _ ← (if decide (z = zpl) then set_child sleft zp y else set_child sright zp y);
  zr ← rd right z;
  _ ← set_parent zr y;
  zl ← rd left z;
  _ ← set_parent zl y;
  nz ← deref (λ h : heap, h !! z);
  wr y (λ _, nz).

Lemma replace_place h q C c a z b y ny :
  at_place tr h q C (T c a z b) → a ≠ E → h !! y = Some ny → y ≠ nil tr → y ≠ root tr →
  y ∉ ckeys C → y ∉ inorder (T c a z b) →
  ∃ h' q', replace_code z y h = Ok (tt, h') ∧ at_place tr h' q' C (T c a y b) ∧
    (b = E → q' = y) ∧ (b ≠ E → q' = q).
Proof.
  intros Hp Ha Hy Hyn Hyr HyC Hyt. pose proof (place_node tr h q C sleft c a z b Hp) as Hz. simpl in Hz.
  pose proof (place_distinct tr h q C sleft c a z b Hp) as [D1 D2 D3 D4 D5 D6 D7 D8 D9 D10 D11 D12].
  destruct Hp as [Hn Hc (_ & Hta & Htb) Hnd]. simpl in Hyt. rewrite not_elem_of_app, not_elem_of_cons in Hyt.
  destruct Hyt as (Hya & Hyz & Hyb). simpl ptr in Hc.
  assert (Hnda : NoDup (nil tr :: inorder a) ∧ NoDup (nil tr :: inorder b)).
  { apply NoDup_cons in Hnd as [_ Hnd]. apply NoDup_cons in Hnd as [_ Hnd]. apply NoDup_app in Hnd as (_ & _ & Hnd).
    simpl in Hnd. apply NoDup_app in Hnd as (? & _ & Hnd). apply NoDup_cons in Hnd as [_ Hnd].
    split; apply NoDup_cons; split; try done; set_solver. }
  assert (Hu : ∀ x, x ∉ ckeys C → x ≠ root tr → parent_of tr C ≠ x).
  { intros x Hx1 Hx2 <-. by destruct (up_in tr C). }
  destruct (relink_place tr h C z y sleft D12 Hc D1 D4) as (n & n' & Hun & Erl & Hc1).
  set (h1 := <[parent_of tr C := n']> h) in *.
  assert (Hf1 : ∀ x, x ∉ ckeys C → x ≠ root tr → h1 !! x = h !! x).
  { intros x Hx1 Hx2. unfold h1. rewrite lookup_insert_ne; [done|]. by apply Hu. }
  assert (HaC : ∀ x, x ∈ inorder a ∨ x ∈ inorder b → x ∉ ckeys C ∧ x ≠ root tr).
  { intros x Hx. split; [|intros ->; naive_solver]. intros HxC. destruct Hx; [by apply (D9 x)|by apply (D10 x)]. }
  assert (Hta1 : tree_at tr h1 z a) by (eapply tree_at_frame; [|exact Hta]; intros x Hx; apply Hf1; naive_solver).
  assert (Htb1 : tree_at tr h1 z b) by (eapply tree_at_frame; [|exact Htb]; intros x Hx; apply Hf1; naive_solver).
  assert (Hn1 : nil_at tr h1 q) by (unfold nil_at; rewrite Hf1; [done|naive_solver|done]).
  destruct (set_parent_sub h1 q z b y Hn1 Htb1 (proj2 Hnda)) as (h2 & q2 & E2 & Hn2 & Htb2 & Hf2 & Hq2 & Hq2').
  assert (Hta2 : tree_at tr h2 z a).
  { eapply tree_at_frame; [|exact Hta1]. intros x Hx. apply Hf2; [|by apply D11]. intros ->. naive_solver. }
  destruct (set_parent_sub h2 q2 z a y Hn2 Hta2 (proj1 Hnda)) as (h3 & q3 & E3 & Hn3 & Hta3 & Hf3 & _ & Hq3).
  assert (Hz1 : h1 !! z = Some (mk_rb c (parent_of tr C) (ptr tr a) (ptr tr b))) by by rewrite Hf1.
  assert (Hz2 : h2 !! z = Some (mk_rb c (parent_of tr C) (ptr tr a) (ptr tr b))) by by rewrite Hf2.
  assert (Hz3 : h3 !! z = Some (mk_rb c (parent_of tr C) (ptr tr a) (ptr tr b))) by by rewrite Hf3.
  assert (Hy3 : h3 !! y = Some ny) by (rewrite Hf3, Hf2, Hf1; done).
  set (h4 := <[y := mk_rb c (parent_of tr C) (ptr tr a) (ptr tr b)]> h3).
  exists h4, q2. rewrite (Hq3 Ha) in Hn3. split; [|split; [constructor|done]].
  - unfold replace_code. rewrite (bind_ok _ _ _ _ _ (rd_ok _ _ _ _ Hz)). simpl parent.
    rewrite (bind_ok _ _ _ _ _ (rd_ok _ _ _ _ Hun)), (bind_ok _ _ _ _ _ Erl).
    rewrite (bind_ok _ _ _ _ _ (rd_ok _ _ _ _ Hz1)). simpl right. rewrite (bind_ok _ _ _ _ _ E2).
    rewrite (bind_ok _ _ _ _ _ (rd_ok _ _ _ _ Hz2)). simpl left. rewrite (bind_ok _ _ _ _ _ E3).
    rewrite (bind_ok _ _ h3 (mk_rb c (parent_of tr C) (ptr tr a) (ptr tr b)) h3) by (unfold deref; by rewrite Hz3).
    by rewrite (wr_ok _ _ _ _ Hy3).
  - by apply nil_at_insert.
  - simpl ptr. apply ctx_at_insert; [done|done|]. eapply ctx_at_frame; [| |exact Hc1].
    + intros x Hx. rewrite Hf3, Hf2; try done; try (intros ->; naive_solver); [by apply D10|by apply D9].
    + rewrite Hf3, Hf2; try done; naive_solver.
  - simpl. unfold h4. rewrite lookup_insert_eq. split; [done|]. split; (apply tree_at_insert; [done|]); [done|].
    eapply tree_at_frame; [|exact Htb2]. intros x Hx. apply Hf3; [intros ->; naive_solver|].
    intros Hxa. by apply (D11 x).
  - apply NoDup_cons in Hnd as [Hd1 Hnd]. apply NoDup_cons in Hnd as [Hd2 Hnd]. simpl in *.
    assert (Hperm : ∀ v, ckeys C ++ inorder a ++ v :: inorder b ≡ₚ v :: ckeys C ++ inorder a ++ inorder b).
    { intros v. solve_Permutation. }
    rewrite Hperm in *. apply NoDup_cons in Hnd as [_ Hnd]. apply NoDup_cons. split; [set_solver|].
    apply NoDup_cons. split; [set_solver|]. apply NoDup_cons. split; [set_solver|done].
Qed.

(** ** [rb_delete] *)

(** The body after the choice of [y], as the code runs it. *)
Definition delete_code z y : M heap unit :=
  yl ← rd left y;
  x ← (if decide (yl ≠ nil tr) then mret yl else rd right y);
  _ ← assert (bool_decide (y ≠ root tr ∧ y ≠ nil tr));
  yp ← rd parent y;
  _ ← set_parent x yp;
  yp ← rd parent y;
  ypl ← rd left yp;
  _ ← (if decide (y = ypl) then set_child sleft yp x else set_child sright yp x);
  yr ← rd red y;
  _ ← (if decide (y ≠ z) then replace_code z y else mret tt);
  if negb yr then rb_delete_fixup tr x else mret tt.

Lemma delete_code_ok h q C c l y r z :
  at_place tr h q C (T c l y r) → l = E ∨ r = E →
  let t := match l with E => r | _ => l end in
  ∃ h1 q1, at_place tr h1 q1 C t ∧ nil_here tr q1 C t ∧ (t ≠ E → q1 = q) ∧ h1 !! y = h !! y ∧
    inorder t = inorder l ++ inorder r ∧
    delete_code z y h = (_ ← (if decide (y ≠ z) then replace_code z y else mret tt);
                         if negb c then rb_delete_fixup tr (ptr tr t) else mret tt : M heap unit) h1.
Proof.
  intros Hp Hor t. pose proof (place_node tr h q C sleft c l y r Hp) as Hy. simpl in Hy.
  pose proof (place_distinct tr h q C sleft c l y r Hp) as D.
  destruct (splice_place h q C c l y r Hp Hor) as (h1 & q1 & E1 & H1 & Hq1 & Hq & Hy1 & Hi).
  fold t in E1, H1, Hq1, Hq, Hi. exists h1, q1. do 5 (split; [done|]). unfold delete_code.
  rewrite (bind_ok _ _ _ _ _ (rd_ok _ _ _ _ Hy)). simpl left.
  rewrite (bind_ok _ _ h (ptr tr t) h).
  2:{ subst t. destruct l as [|cl ll kl rl]; simpl ptr.
      - rewrite decide_False by auto. by rewrite (rd_ok _ _ _ _ Hy).
      - rewrite decide_True; [done|]. intros Heq. simpl in Heq. subst kl. destruct (da_nils _ _ _ _ _ D) as (_ & Hn & _). simpl in Hn. set_solver. }
  rewrite bool_decide_eq_true_2 by (destruct D; done). rewrite (bind_ok (assert true) _ h tt h) by done.
  rewrite (bind_ok _ _ _ _ _ (rd_ok _ _ _ _ Hy)). simpl parent.
  assert (Hr1 : rd red y h1 = Ok (c, h1)) by by rewrite (rd_ok _ _ _ _ (eq_trans Hy1 Hy)).
  apply bind_inv in E1 as ([] & ha & Ea & E1). apply bind_inv in E1 as (yp & hb & Eb & E1).
  apply bind_inv in E1 as (ypl & hc & Ec & E1).
  rewrite (bind_ok _ _ _ _ _ Ea), (bind_ok _ _ _ _ _ Eb), (bind_ok _ _ _ _ _ Ec), (bind_ok _ _ _ _ _ E1).
  by rewrite (bind_ok _ _ _ _ _ Hr1).
Qed.

(** What is left after the splice, with the colour of the spliced node. *)
Lemma delete_finish h q C (c : bool) t :
  at_place tr h q C t → nil_here tr q C t →
  (∃ n, black_height t n ∧ no_red_red t ∧ ctx_ok C (if c then n else S n)) → (c = true → is_red t = false) →
  ∃ h' t', (if negb c then rb_delete_fixup tr (ptr tr t) else mret tt : M heap unit) h = Ok (tt, h') ∧
    at_place tr h' q [] t' ∧ rb_ok t' ∧ inorder t' = inorder (plug C t).
Proof.
  intros Hp Hq (n & Hb & Hn & Hc) Hr. destruct c; cbn [negb].
  - exists h, (plug C t). split; [done|]. split; [by apply at_place_plug|]. split; [|done].
    apply (plug_ok _ _ n); try done. rewrite Hr by done. done.
  - by apply (rb_delete_fixup_ok _ _ _ _ n).
Qed.

Lemma ctx_ok_rekey (D : ctx) s c z y a C n : ctx_ok (D ++ Fr s c z a :: C) n → ctx_ok (D ++ Fr s c y a :: C) n.
Proof.
  revert n. induction D as [|f D IH]; intros n; [done|]. simpl. intros (? & ? & Hf & Hc).
  split; [done|]. split; [done|]. split; [|by apply IH]. intros Hr. destruct (Hf Hr) as [? Hb]. split; [done|].
  by destruct D.
Qed.

(** The parts of a node with one child. *)
Lemma single_child C c (l : tree K) y r (t := match l with E => r | _ => l end) :
  rb_ok (plug C (T c l y r)) → l = E ∨ r = E →
  (∃ n, black_height t n ∧ no_red_red t ∧ ctx_ok C (if c then n else S n)) ∧ (c = true → is_red t = false).
Proof.
  intros Hok Hor. apply plug_inv in Hok as (n & (m & -> & Hl & Hr) & (Hc & Hnl & Hnr) & Hctx & _).
  assert (Ht : t = l ∨ t = r) by (subst t; destruct l; auto). split.
  - exists m. destruct Ht as [-> | ->]; by destruct c.
  - intros ->. destruct (Hc eq_refl) as [? ?]. by destruct Ht as [-> | ->].
Qed.

Lemma all_left (D : ctx) : Forall (λ f, f_side f = sleft) D → lefts D = ([] : list K).
Proof. induction 1 as [|f D Hf _ IH]; [done|]. simpl. unfold left_of. by rewrite IH, Hf. Qed.

Lemma rb_delete_eq h q C c a z b :
  at_place tr h q C (T c a z b) → ∀ y,
  (if decide (ptr tr a = nil tr ∨ ptr tr b = nil tr) then mret z else rb_tree_successor tr z) h = Ok (y, h) →
  rb_delete tr z h = delete_code z y h.
Proof.
  intros Hp y Hy. pose proof (place_node tr h q C sleft c a z b Hp) as Hz. simpl in Hz.
  unfold rb_delete. rewrite (bind_ok _ _ _ _ _ (rd_ok _ _ _ _ Hz)). rewrite (bind_ok _ _ _ _ _ (rd_ok _ _ _ _ Hz)). simpl.
  by rewrite (bind_ok _ _ _ _ _ Hy).
Qed.

Lemma rb_delete_ok h t z :
  Rep tr h t → rb_ok t → z ∈ inorder t →
  ∃ h' t' A B, rb_delete tr z h = Ok (tt, h') ∧ Rep tr h' t' ∧ rb_ok t' ∧ inorder t = A ++ z :: B ∧ inorder t' = A ++ B.
Proof.
  intros [q Hp] Hok Hz. destruct (find_place t z Hz) as (C & c & a & b & ->).
  rewrite (at_place_plug tr h q C) in Hp.
  pose proof (place_distinct tr h q C sleft c a z b Hp) as D.
  assert (Hnila : ptr tr a = nil tr ↔ a = E) by (apply ptr_nil; apply D).
  assert (Hnilb : ptr tr b = nil tr ↔ b = E) by (apply ptr_nil; apply D).
  destruct (decide (ptr tr a = nil tr ∨ ptr tr b = nil tr)) as [Hor|Hboth].
  - (* at most one child *)
    rewrite (rb_delete_eq _ _ _ _ _ _ _ Hp z) by (by rewrite decide_True). rewrite Hnila, Hnilb in Hor.
    destruct (delete_code_ok _ _ _ _ _ _ _ z Hp Hor) as (h1 & q1 & H1 & Hq1 & _ & _ & Hi & ->).
    destruct (single_child _ _ _ _ _ Hok Hor) as [Hbh Hred].
    destruct (delete_finish h1 q1 C c _ H1 Hq1 Hbh Hred) as (h' & t' & E' & H' & Hok' & Hi').
    exists h', t', (lefts C ++ inorder a), (inorder b ++ rights C). rewrite decide_False by auto.
    split; [done|]. split; [by exists q1|]. split; [done|]. rewrite Hi', !inorder_plug, Hi. simpl. by rewrite <-!app_assoc.
  - (* the successor takes the place *)
    apply Decidable.not_or in Hboth as [Ha Hb]. rewrite Hnila in Ha. rewrite Hnilb in Hb.
    pose proof Hp as Hpb. apply (at_place_fill tr h q C (Fr sright c z a)) in Hpb.
    pose proof (place_fuel _ _ _ _ _ Hpb) as Hfuel.
    destruct (extreme_walk_ok (S (size h)) h q _ b sleft Hpb Hb ltac:(lia)) as (D1 & cy & y & d & -> & HD1 & El). simpl node in *.
    rewrite (rb_delete_eq _ _ _ _ _ _ _ Hp y).
    2:{ rewrite decide_False by naive_solver. pose proof (place_node tr h q C sleft c a z _ Hp) as Hzn. simpl in Hzn.
        unfold rb_tree_successor. rewrite (bind_ok _ _ _ _ _ (rd_ok _ _ _ _ Hzn)). simpl right.
        rewrite decide_True by naive_solver. exact (walk_ok _ _ _ _ _ El). }
    assert (Hpy : at_place tr h q (D1 ++ Fr sright c z a :: C) (T cy E y d)).
    { apply at_place_plug. rewrite plug_app. by apply at_place_plug. }
    assert (Hyz : y ≠ z ∧ y ≠ nil tr ∧ y ≠ root tr ∧ y ∉ ckeys C ∧ y ∉ inorder (T c a z (plug D1 d))).
    { pose proof (place_distinct tr h q _ sleft cy E y d Hpy) as Dy.
      assert (Hperm : ckeys (D1 ++ Fr sright c z a :: C) ++ inorder d ≡ₚ ckeys C ++ inorder (T c a z (plug D1 d))).
      { clear. simpl. rewrite inorder_plug. induction D1 as [|f D1 IH]; simpl in *; [solve_Permutation|].
        rewrite <-app_assoc, IH. unfold left_of, right_of. destruct (f_side f); simpl; solve_Permutation. }
      assert (Hyin : y ∉ ckeys C ++ inorder (T c a z (plug D1 d))).
      { rewrite <-Hperm. destruct Dy. set_solver. }
      apply not_elem_of_app in Hyin as [Hy1 Hy2]. destruct Dy. split_and!; try done. intros ->. simpl in Hy2. set_solver. }
    destruct Hyz as (Hyz & Hyn & Hyr & HyC & Hyt).
    destruct (delete_code_ok _ _ _ _ _ _ _ z Hpy (or_introl eq_refl)) as (h1 & q1 & H1 & Hq1 & Hq & Hy1 & Hi & ->).
    pose proof (place_node tr h q _ sleft cy E y d Hpy) as Hyn0. rewrite Hyn0 in Hy1. rewrite decide_True by done.
    assert (H1' : at_place tr h1 q1 C (T c a z (plug D1 d))).
    { apply at_place_plug. change (plug C (T c a z (plug D1 d))) with (plug (Fr sright c z a :: C) (plug D1 d)).
      rewrite <-plug_app. by apply at_place_plug. }
    destruct (replace_place h1 q1 C c a z (plug D1 d) y _ H1' Ha Hy1 Hyn Hyr HyC Hyt) as (h2 & q2 & E2 & H2 & Hq2 & Hq2').
    assert (H2' : at_place tr h2 q2 (D1 ++ Fr sright c y a :: C) d).
    { apply at_place_plug. rewrite plug_app. change (plug (Fr sright c y a :: C) (plug D1 d)) with (plug C (T c a y (plug D1 d))).
      by apply (at_place_plug tr h2 q2 C). }
    assert (Hnh : nil_here tr q2 (D1 ++ Fr sright c y a :: C) d).
    { intros ->. destruct D1 as [|f D1]; [by apply Hq2|]. rewrite Hq2'; [by apply Hq1|].
      intros Heq. apply (f_equal inorder) in Heq. rewrite inorder_plug in Heq. simpl in Heq.
      unfold left_of, right_of in Heq. destruct (f_side f); simpl in Heq; [by destruct (lefts D1)|by destruct (lefts D1), (inorder (f_sib f))]. }
    assert (Hok' : rb_ok (plug (D1 ++ Fr sright c z a :: C) (T cy E y d))) by (rewrite plug_app; exact Hok).
    destruct (single_child _ _ _ _ _ Hok' (or_introl eq_refl)) as [(n & Hbh & Hnr & Hctx) Hred].
    apply (ctx_ok_rekey _ _ _ _ y) in Hctx.
    destruct (delete_finish h2 q2 _ cy d H2' Hnh (ex_intro _ n (conj Hbh (conj Hnr Hctx))) Hred) as (h' & t' & E' & H' & Hokt & Hi').
    exists h', t', (lefts C ++ inorder a), (y :: inorder d ++ rights D1 ++ rights C).
    rewrite (bind_ok _ _ _ _ _ E2). split; [done|]. split; [by exists q2|]. split; [done|].
    rewrite Hi', plug_app, !inorder_plug. simpl. rewrite !inorder_plug, (all_left _ HD1). unfold left_of. simpl.
    by rewrite <-!app_assoc; simpl; rewrite <-?app_assoc.
Qed.
End unlink.
