(* ===== verification/RbTreeSpec.v ===== *)
(** * What [libs/rb_tree.c] promises

    [holds_seq tr h l]: in the store [h] the tree [tr] is a well-formed
    red-black tree whose nodes, from left to right, are [l].  Against it:
    creation, insertion, deletion, search, predecessor and successor, the
    logarithmic bound on the walks, and the frame: an operation writes only to
    the nodes of its tree and to the node it is given. *)

From S2P Require Import Prelude RbTree RbRep RbInv RbInsert RbDelete RbUnlink.

Section spec.
Context {K : Type} `{Countable K} (tr : rb_tree K).
Notation heap := (gmap K (rb_node K)).
Notation ctx := (list (frame K)).
Implicit Types (h : heap) (t a b d : tree K) (k x y z p q : K) (C : ctx) (s : side) (l : list K).

Definition holds_seq h l : Prop := ∃ t, Rep tr h t ∧ rb_ok t ∧ inorder t = l.

Lemma holds_seq_nodup h l : holds_seq h l → NoDup (nil tr :: root tr :: l).
Proof. intros (t & (q & [_ _ _ Hnd]) & _ & <-). exact Hnd. Qed.
Lemma holds_seq_dom h l z : holds_seq h l → z ∈ l → is_Some (h !! z).
Proof. intros (t & (q & [_ _ Ht _]) & _ & <-) Hz. by eapply tree_at_dom. Qed.

(** ** Neighbours *)

Definition or_nil (o : option K) : K := match o with Some k => k | None => nil tr end.

Lemma pred_climb fuel h q C t :
  at_place tr h q C t → t ≠ E → (length C < fuel)%nat →
  loop fuel (predecessor_body tr) (ptr tr t, parent_of tr C) h = Ok (or_nil (last (lefts C)), h).
Proof.
  revert C t. induction fuel as [|fuel IH]; intros C t Hp Hne Hf; [lia|].
  destruct C as [|f C].
  { apply loop_stop. unfold predecessor_body. simpl parent_of. rewrite (bind_ok _ _ _ _ _ (rd_root _ _ _ _ _ Hp)). simpl plug.
    by rewrite !decide_True. }
  destruct (rd_up _ _ _ _ _ _ Hp) as (n & Hn & _ & Hpar & Hc & Ho).
  assert (Hroot : f_key f ≠ root tr).
  { destruct Hp as [_ _ _ Hnd]. apply NoDup_cons in Hnd as [_ Hnd]. apply NoDup_cons in Hnd as [Hnd _]. set_solver. }
  destruct (node_cases t sleft) as [?|(c & a & k & b & ->)]; [done|]. rewrite ptr_node in *.
  destruct (side_test _ _ _ _ _ _ _ _ _ _ _ Hp Hn) as [_ Hnot].
  destruct (f_side f) eqn:Hs; simpl in Hc, Hnot.
  - rewrite (loop_next _ _ _ _ (f_key f, parent_of tr C) h).
    2:{ unfold predecessor_body. simpl parent_of. rewrite (bind_ok _ _ _ _ _ (rd_ok _ _ _ _ Hn)), decide_True, decide_False by done.
        by rewrite (bind_ok _ _ _ _ _ (rd_ok _ _ _ _ Hn)), Hpar. }
    apply at_place_fill in Hp. pose proof (IH C _ Hp) as IH'. unfold fill_in in IH'. rewrite ptr_node in IH'.
    rewrite IH'; [|by rewrite Hs|simpl in Hf; lia]. simpl. unfold left_of. by rewrite Hs, app_nil_r.
  - apply loop_stop. unfold predecessor_body. simpl parent_of.
    rewrite (bind_ok _ _ _ _ _ (rd_ok _ _ _ _ Hn)), decide_False by done.
    simpl. unfold left_of. by rewrite Hs, app_assoc, last_snoc.
Qed.

Lemma succ_climb fuel h q C t :
  at_place tr h q C t → t ≠ E → (length C < fuel)%nat →
  ∃ r, loop fuel successor_body (ptr tr t, parent_of tr C) h = Ok (r, h) ∧
    match head (rights C) with Some k => r = k ∧ k ≠ root tr | None => r = root tr end.
Proof.
  revert C t. induction fuel as [|fuel IH]; intros C t Hp Hne Hf; [lia|].
  assert (Hnil : ptr tr t ≠ nil tr).
  { destruct Hp as [_ _ _ Hnd]. apply NoDup_cons in Hnd as [Hnd _]. rewrite ptr_nil; [done|]. set_solver. }
  destruct C as [|f C].
  { exists (root tr). split; [|done]. apply loop_stop. unfold successor_body. simpl parent_of.
    destruct Hp as [_ Hc _ _]. by rewrite (bind_ok _ _ _ _ _ (rd_ok _ _ _ _ Hc)), decide_False. }
  destruct (rd_up _ _ _ _ _ _ Hp) as (n & Hn & _ & Hpar & Hc & Ho).
  assert (Hroot : f_key f ≠ root tr).
  { destruct Hp as [_ _ _ Hnd]. apply NoDup_cons in Hnd as [_ Hnd]. apply NoDup_cons in Hnd as [Hnd _]. set_solver. }
  destruct (node_cases t sleft) as [?|(c & a & k & b & ->)]; [done|]. rewrite ptr_node in *.
  destruct (side_test _ _ _ _ _ _ _ _ _ _ _ Hp Hn) as [_ Hnot].
  destruct (f_side f) eqn:Hs; simpl in Hc, Hnot.
  - exists (f_key f). split.
    + apply loop_stop. unfold successor_body. simpl parent_of.
      by rewrite (bind_ok _ _ _ _ _ (rd_ok _ _ _ _ Hn)), decide_False.
    + simpl. unfold right_of. by rewrite Hs.
  - apply at_place_fill in Hp. destruct (IH C _ Hp) as (r & E & Hr); [by unfold fill_in; rewrite Hs|simpl in Hf; lia|].
    unfold fill_in in E. rewrite ptr_node in E. exists r. split; [|simpl; unfold right_of; by rewrite Hs].
    rewrite (loop_next _ _ _ _ (f_key f, parent_of tr C) h); [done|]. unfold successor_body. simpl parent_of.
    rewrite (bind_ok _ _ _ _ _ (rd_ok _ _ _ _ Hn)), decide_True by done.
    by rewrite (bind_ok _ _ _ _ _ (rd_ok _ _ _ _ Hn)), Hpar.
Qed.

Lemma all_right (D : ctx) : Forall (λ f, f_side f = sright) D → rights D = ([] : list K).
Proof. induction 1 as [|f D Hf _ IH]; [done|]. simpl. unfold right_of. by rewrite IH, Hf. Qed.

Lemma in_not_nil h l z : holds_seq h l → z ∈ l → z ≠ nil tr.
Proof. intros Hs Hz ->. apply holds_seq_nodup in Hs. apply NoDup_cons in Hs as [Hs _]. set_solver. Qed.

Lemma split_unique l1 z l2 m1 m2 :
  NoDup (l1 ++ z :: l2) → l1 ++ z :: l2 = m1 ++ z :: m2 → l1 = m1 ∧ l2 = m2.
Proof.
  revert m1. induction l1 as [|x l1 IH]; intros [|y m1] Hnd Heq; simpl in *; simplify_eq.
  - done.
  - apply NoDup_cons in Hnd as [Hnd _]. set_solver.
  - apply NoDup_cons in Hnd as [Hnd _]. set_solver.
  - apply NoDup_cons in Hnd as [_ Hnd]. by destruct (IH m1 Hnd) as [-> ->].
Qed.

(** The place of a node of the sequence. *)
Lemma seq_place h l1 z l2 :
  holds_seq h (l1 ++ z :: l2) →
  ∃ q C c a b, at_place tr h q C (T c a z b) ∧ l1 = lefts C ++ inorder a ∧ l2 = inorder b ++ rights C.
Proof.
  intros (t & (q & Hp) & _ & Hi). destruct (find_place t z) as (C & c & a & b & ->); [rewrite Hi; set_solver|].
  pose proof (ap_nodup _ _ _ _ _ Hp) as Hnd. rewrite (at_place_plug tr h q C) in Hp.
  exists q, C, c, a, b. split; [done|]. simpl ckeys in Hnd. do 2 apply NoDup_cons in Hnd as [_ Hnd]. simpl app in Hnd.
  rewrite Hi in Hnd. rewrite inorder_plug in Hi. simpl in Hi.
  apply (split_unique l1 z l2); [done|]. rewrite <-Hi, <-!app_assoc. done.
Qed.

Lemma rb_node_prev_ok h l1 z l2 : holds_seq h (l1 ++ z :: l2) → rb_node_prev tr z h = Ok (last l1, h).
Proof.
  intros Hs. assert (Hnn : ∀ x, x ∈ l1 → x ≠ nil tr) by (intros x Hx; eapply in_not_nil; [exact Hs|set_solver]).
  destruct (seq_place _ _ _ _ Hs) as (q & C & c & a & b & Hp & -> & ->).
  pose proof (place_node tr h q C sleft c a z b Hp) as Hz. simpl in Hz. pose proof (place_fuel _ _ _ _ _ Hp) as Hfuel.
  pose proof (place_distinct tr h q C sleft c a z b Hp) as D.
  assert (Hpred : rb_tree_predecessor tr z h = Ok (or_nil (last (lefts C ++ inorder a)), h)).
  { unfold rb_tree_predecessor. rewrite (bind_ok _ _ _ _ _ (rd_ok _ _ _ _ Hz)). cbv beta iota delta [left].
    assert (Hnil : ptr tr a = nil tr ↔ a = E) by (apply ptr_nil; apply D). destruct (decide (ptr tr a ≠ nil tr)) as [Ha|Ha].
    - apply (at_place_fill tr h q C (Fr sleft c z b)) in Hp.
      destruct (extreme_walk_ok tr (S (size h)) h q _ a sright Hp) as (D1 & c1 & k & b1 & -> & HD & El); [naive_solver|simpl in Hfuel; lia|].
      rewrite (walk_ok _ _ _ _ _ El), inorder_plug, (all_right _ HD). simpl.
      by rewrite app_nil_r, !app_assoc, last_snoc.
    - apply dec_stable in Ha. apply Hnil in Ha as ->. rewrite (bind_ok _ _ _ _ _ (rd_ok _ _ _ _ Hz)). simpl parent.
      apply walk_ok. cbn [inorder]. rewrite app_nil_r. by apply (pred_climb _ _ _ _ _ Hp); [|simpl in Hfuel; lia]. }
  unfold rb_node_prev. rewrite (bind_ok _ _ _ _ _ Hpred). unfold mret, M_ret. do 2 f_equal.
  destruct (last _) as [k|] eqn:Hl; simpl; [|by rewrite decide_False by auto].
  rewrite decide_True; [done|]. apply Hnn. by apply last_Some_elem_of.
Qed.

Lemma rb_node_next_ok h l1 z l2 : holds_seq h (l1 ++ z :: l2) → rb_node_next tr z h = Ok (head l2, h).
Proof.
  intros Hs. assert (Hnn : ∀ x, x ∈ l2 → x ≠ nil tr) by (intros x Hx; eapply in_not_nil; [exact Hs|set_solver]).
  destruct (seq_place _ _ _ _ Hs) as (q & C & c & a & b & Hp & -> & ->).
  pose proof (place_node tr h q C sleft c a z b Hp) as Hz. simpl in Hz. pose proof (place_fuel _ _ _ _ _ Hp) as Hfuel.
  pose proof (place_distinct tr h q C sleft c a z b Hp) as D.
  assert (Hsucc : rb_tree_successor tr z h = Ok (or_nil (head (inorder b ++ rights C)), h)).
  { unfold rb_tree_successor. rewrite (bind_ok _ _ _ _ _ (rd_ok _ _ _ _ Hz)). cbv beta iota delta [right].
    assert (Hnil : ptr tr b = nil tr ↔ b = E) by (apply ptr_nil; apply D). destruct (decide (ptr tr b ≠ nil tr)) as [Ha|Ha].
    - apply (at_place_fill tr h q C (Fr sright c z a)) in Hp.
      destruct (extreme_walk_ok tr (S (size h)) h q _ b sleft Hp) as (D1 & c1 & k & b1 & -> & HD & El); [naive_solver|simpl in Hfuel; lia|].
      rewrite (walk_ok _ _ _ _ _ El), inorder_plug, (all_left _ HD). done.
    - apply dec_stable in Ha. apply Hnil in Ha as ->. rewrite (bind_ok _ _ _ _ _ (rd_ok _ _ _ _ Hz)). simpl parent.
      destruct (succ_climb (S (size h)) _ _ _ _ Hp) as (r & E & Hr); [done|simpl in Hfuel; lia|].
      rewrite (bind_ok _ _ _ _ _ (walk_ok _ _ _ _ _ E)). simpl.
      destruct (head (rights C)) as [k|] eqn:Hh; simpl.
      + destruct Hr as [-> ?]. by rewrite decide_False.
      + subst r. by rewrite decide_True. }
  unfold rb_node_next. rewrite (bind_ok _ _ _ _ _ Hsucc). unfold mret, M_ret. do 2 f_equal.
  destruct (head _) as [k|] eqn:Hl; simpl; [|by rewrite decide_False by auto].
  rewrite decide_True; [done|]. apply Hnn. by apply head_Some_elem_of.
Qed.

(** ** Search *)

(** [cmp] is negative, then zero, then positive along the sequence. *)
Definition cmp_sorted (cmp : K → Z) l : Prop :=
  ∀ l1 x l2, l = l1 ++ x :: l2 →
    (0 < cmp x → Forall (λ y, 0 < cmp y) l2) ∧ (cmp x < 0 → Forall (λ y, cmp y < 0) l1).

Lemma cmp_sorted_app cmp l m : cmp_sorted cmp (l ++ m) → cmp_sorted cmp l ∧ cmp_sorted cmp m.
Proof.
  intros Hs. split; intros l1 x l2 ->.
  - destruct (Hs l1 x (l2 ++ m)) as [H1 H2]; [by rewrite <-app_assoc|]. split; [|done].
    intros Hx. by apply Forall_app in H1 as [? _].
  - destruct (Hs (l ++ l1) x l2) as [H1 H2]; [by rewrite <-app_assoc|]. split; [done|].
    intros Hx. by apply H2, Forall_app in Hx as [_ ?].
Qed.

Lemma search_loop_ok fuel cmp h q C t :
  at_place tr h q C t → cmp_sorted cmp (inorder t) → (height t < fuel)%nat →
  ∃ r, loop fuel (search_body tr cmp) (ptr tr t) h = Ok (or_nil r, h) ∧
    match r with Some z => z ∈ inorder t ∧ cmp z = 0 | None => ∀ x, x ∈ inorder t → cmp x ≠ 0 end.
Proof.
  revert C t. induction fuel as [|fuel IH]; intros C t Hp Hs Hf; [lia|].
  destruct t as [|c l k r].
  { exists None. split; [|intros x Hx; by apply elem_of_nil in Hx]. apply loop_stop. unfold search_body. simpl.
    by rewrite decide_False by auto. }
  pose proof (place_node tr h q C sleft c l k r Hp) as Hk. pose proof (place_distinct tr h q C sleft c l k r Hp) as D.
  simpl in Hs, Hk. destruct (Hs _ _ _ eq_refl) as [Hpos Hneg].
  apply cmp_sorted_app in Hs as [Hsl Hsr]. apply (cmp_sorted_app cmp [k]) in Hsr as [_ Hsr].
  assert (Hbody : search_body tr cmp k h = (if cmp k =? 0 then mret (inr k)
    else n ← (if 0 <? cmp k then rd left k else rd right k); mret (inl n) : M heap (K + K)) h).
  { unfold search_body. by rewrite decide_True by apply D. }
  simpl ptr. destruct (Z.eqb_spec (cmp k) 0) as [E0|E0].
  - exists (Some k). split; [by apply loop_stop; rewrite Hbody|]. split; [set_solver|done].
  - destruct (Z.ltb_spec 0 (cmp k)) as [Hlt|Hge].
    + apply (at_place_fill tr h q C (Fr sleft c k r)) in Hp.
      destruct (IH _ _ Hp Hsl) as (o & E & Ho); [simpl in Hf; lia|]. exists o. split.
      * rewrite (loop_next _ _ _ _ (ptr tr l) h); [done|]. by rewrite Hbody, (bind_ok _ _ _ _ _ (rd_ok _ _ _ _ Hk)).
      * destruct o as [z|]; [destruct Ho; split; [set_solver|done]|]. intros x Hx. specialize (Hpos Hlt).
        rewrite Forall_forall in Hpos. simpl in Hx. apply elem_of_app in Hx as [?|[->|Hx]%elem_of_cons]; [auto|lia|].
        specialize (Hpos x Hx). simpl in Hpos. lia.
    + apply (at_place_fill tr h q C (Fr sright c k l)) in Hp.
      destruct (IH _ _ Hp Hsr) as (o & E & Ho); [simpl in Hf; lia|]. exists o. split.
      * rewrite (loop_next _ _ _ _ (ptr tr r) h); [done|]. by rewrite Hbody, (bind_ok _ _ _ _ _ (rd_ok _ _ _ _ Hk)).
      * destruct o as [z|]; [destruct Ho; split; [set_solver|done]|]. intros x Hx. specialize (Hneg ltac:(lia)).
        rewrite Forall_forall in Hneg. simpl in Hx. apply elem_of_app in Hx as [Hx|[->|Hx]%elem_of_cons]; [|lia|auto].
        specialize (Hneg x Hx). simpl in Hneg. lia.
Qed.

(** Twice the logarithm of the number of nodes bounds the search. *)
Lemma rb_search_ok cmp h l :
  holds_seq h l → cmp_sorted cmp l →
  ∃ r root_node, rd left (root tr) h = Ok (root_node, h) ∧ rb_search tr cmp h = Ok (r, h) ∧
    (∀ fuel, (2 * Nat.log2 (S (length l)) < fuel)%nat → loop fuel (search_body tr cmp) root_node h = Ok (or_nil r, h)) ∧
    match r with Some z => z ∈ l ∧ cmp z = 0 | None => ∀ x, x ∈ l → cmp x ≠ 0 end.
Proof.
  intros Hseq Hs. pose proof Hseq as (t & (q & Hp) & Hok & <-).
  pose proof (rd_root _ _ _ _ _ Hp) as Er. simpl plug in Er. pose proof (place_fuel _ _ _ _ _ Hp) as Hfuel.
  destruct (search_loop_ok (S (size h)) cmp h q [] t Hp Hs) as (r & E & Hr); [simpl in Hfuel; lia|].
  exists r, (ptr tr t). split; [done|]. split; [|split; [|done]].
  - unfold rb_search. rewrite (bind_ok _ _ _ _ _ Er), (bind_ok _ _ _ _ _ (walk_ok _ _ _ _ _ E)).
    unfold mret, M_ret. do 2 f_equal. destruct r as [z|]; simpl; [|by rewrite decide_False by auto].
    rewrite decide_True; [done|]. destruct Hr as [Hz _]. by eapply in_not_nil.
  - intros fuel Hfu. pose proof (rb_height t Hok) as Hh. unfold weight in Hh.
    destruct (search_loop_ok fuel cmp h q [] t Hp Hs) as (r' & E' & Hr'); [lia|].
    pose proof (loop_fuel _ (fuel `max` S (size h)) _ _ _ _ E ltac:(lia)) as M1.
    pose proof (loop_fuel _ (fuel `max` S (size h)) _ _ _ _ E' ltac:(lia)) as M2. rewrite E'. congruence.
Qed.

(** ** Creation *)

Lemma rb_tree_create_ok cmp h nl rt :
  nl ≠ rt → ∃ h', rb_tree_create cmp true (Some nl) (Some rt) h = Ok (Some (mk_tree cmp nl rt), h') ∧
    h' = <[rt := mk_rb false nl nl nl]> (<[nl := mk_rb false nl nl nl]> h).
Proof. intros Hne. by eexists. Qed.

Lemma empty_holds h :
  nil tr ≠ root tr → h !! nil tr = Some (mk_rb false (nil tr) (nil tr) (nil tr)) →
  h !! root tr = Some (mk_rb false (nil tr) (nil tr) (nil tr)) → holds_seq h [].
Proof.
  intros Hne Hn Hr. exists E. split; [|split; [|done]].
  - exists (nil tr). constructor; [done|done|done|]. simpl. apply NoDup_cons. split; [set_solver|]. apply NoDup_singleton.
  - split; [done|]. split; [done|]. by exists 0%nat.
Qed.
End spec.

(** ** Frame *)

Section frame.
Context {K : Type} `{Countable K} (tr : rb_tree K).
Notation heap := (gmap K (rb_node K)).

(** The code runs the same way in a larger store and leaves the rest alone. *)
Definition local {A} (m : M heap A) : Prop := ∀ h hf a h',
  h ##ₘ hf → m h = Ok (a, h') → dom h' = dom h ∧ h' ##ₘ hf ∧ m (h ∪ hf) = Ok (a, h' ∪ hf).

Lemma local_ret {A} (a : A) : local (mret a : M heap A).
Proof. intros h hf b h' Hd [= -> ->]. done. Qed.
Lemma local_bind {A B} (m : M heap A) (k : A → M heap B) : local m → (∀ a, local (k a)) → local (m ≫= k).
Proof.
  intros Hm Hk h hf b h' Hd E. apply bind_inv in E as (a & h1 & E1 & E2).
  destruct (Hm _ _ _ _ Hd E1) as (D1 & Hd1 & F1). destruct (Hk a _ _ _ _ Hd1 E2) as (D2 & Hd2 & F2).
  split; [congruence|]. split; [done|]. by rewrite (bind_ok _ _ _ _ _ F1).
Qed.
Lemma local_assert (b : bool) : local (assert b : M heap unit).
Proof. intros h hf a h' Hd E. unfold assert in *. destruct b; [|done]. by simplify_eq. Qed.
Lemma local_deref p : local (deref (λ h : heap, h !! p)).
Proof.
  intros h hf a h' Hd E. unfold deref in *. destruct (h !! p) eqn:Hp; [|done]. injection E as <- <-.
  split; [done|]. split; [done|]. by rewrite (lookup_union_Some_l _ _ _ _ Hp).
Qed.
Lemma local_wr p f : local (wr p f : M heap unit).
Proof.
  intros h hf a h' Hd E. unfold wr in *. apply bind_inv in E as (n & h1 & E1 & E2).
  unfold deref in E1. destruct (h !! p) as [n'|] eqn:Hp; [|done]. injection E1 as -> ->. injection E2 as <- <-.
  split; [|split].
  - rewrite dom_insert_lookup_L; [done|]. by exists n.
  - apply map_disjoint_insert_l. split; [|done]. apply (map_disjoint_Some_l _ _ _ _ Hd Hp).
  - unfold deref, mbind, M_bind, modify. rewrite (lookup_union_Some_l _ _ _ _ Hp). by rewrite insert_union_l.
Qed.
Lemma local_rd {A} (f : rb_node K → A) p : local (rd f p).
Proof. apply local_bind; [apply local_deref|]. intros n. apply local_ret. Qed.
Lemma local_loop {A B} fuel (body : A → M heap (A + B)) a : (∀ a, local (body a)) → local (loop fuel body a).
Proof.
  intros Hb. revert a. induction fuel as [|fuel IH]; intros a; [intros h hf x h' _ [=]|].
  simpl. apply local_bind; [done|]. intros [a'|b]; [done|apply local_ret].
Qed.
Lemma local_walk {A B} (body : A → M heap (A + B)) a : (∀ a, local (body a)) → local (walk body a).
Proof.
  intros Hb h hf r h' Hd E. destruct (local_loop (S (size h)) body a Hb h hf r h' Hd E) as (D & Hd' & F).
  split; [done|]. split; [done|]. change (loop (S (size (h ∪ hf))) body a (h ∪ hf) = Ok (r, h' ∪ hf)).
  apply (loop_fuel _ _ _ _ _ _ F). rewrite map_size_disj_union by done. lia.
Qed.

Ltac local_tac :=
  repeat match goal with
  | |- ∀ _, local _ => intros ?
  | |- local (mbind _ _) => apply local_bind
  | |- local (mret _) => apply local_ret
  | |- local (rd _ _) => apply local_rd
  | |- local (wr _ _) => apply local_wr
  | |- local (assert _) => apply local_assert
  | |- local (deref _) => apply local_deref
  | |- local (walk _ _) => apply local_walk
  | |- local (set_child _ _ _) => apply local_wr
  | |- local (set_parent _ _) => apply local_wr
  | |- local (set_red _ _) => apply local_wr
  | |- local (when _ _) => unfold when
  | |- local (if ?b then _ else _) => destruct b
  | |- local (match ?x with _ => _ end) => destruct x
  end.

Lemma local_rotate s x : local (rb_rotate s tr x).
Proof. unfold rb_rotate. local_tac. Qed.
Lemma local_insert z : local (rb_insert tr z).
Proof.
  unfold rb_insert, rb_insert_binary, insert_binary_body, rb_insert_body, rb_insert_sub.
  local_tac; apply local_rotate.
Qed.
Lemma local_delete z : local (rb_delete tr z).
Proof.
  unfold rb_delete, rb_tree_successor, descend_body, successor_body, rb_delete_fixup, delete_fixup_body, rb_delete_fixup_sub.
  local_tac; apply local_rotate.
Qed.

(** The nodes of a tree, and the rest of the store. *)
Definition footprint (l : list K) : gset K := list_to_set (nil tr :: root tr :: l).

Lemma holds_seq_frame (h h' : heap) (l : list K) :
  (∀ z, z ∈ footprint l → h' !! z = h !! z) → holds_seq tr h l → holds_seq tr h' l.
Proof.
  intros Hf (t & (q & [Hn Hc Ht Hnd]) & Hok & <-). exists t. split; [|done]. exists q.
  assert (Hf' : ∀ z, z ∈ nil tr :: root tr :: inorder t → h' !! z = h !! z).
  { intros z Hz. apply Hf. by apply elem_of_list_to_set. }
  constructor; [| | |done].
  - unfold nil_at. rewrite Hf'; [done|]. set_solver.
  - simpl in *. rewrite Hf'; [done|]. set_solver.
  - eapply tree_at_frame; [|exact Ht]. intros z Hz. apply Hf'. set_solver.
Qed.

(** A local operation on the nodes of [X] leaves the others as they are. *)
Lemma local_frame {A} (m : M heap A) (X : gset K) h a hs :
  local m → m (filter (λ kv, kv.1 ∈ X) h) = Ok (a, hs) →
  ∃ h', m h = Ok (a, h') ∧ (∀ z, z ∈ X → h' !! z = hs !! z) ∧ (∀ z, z ∉ X → h' !! z = h !! z).
Proof.
  intros Hm E. set (h1 := filter _ h) in *. set (h2 := filter (λ kv, kv.1 ∉ X) h).
  assert (Hd : h1 ##ₘ h2) by apply map_disjoint_filter_complement.
  assert (Hu : h1 ∪ h2 = h) by apply map_filter_union_complement.
  destruct (Hm _ _ _ _ Hd E) as (Dm & Hd' & F). rewrite Hu in F. exists (hs ∪ h2). split; [done|]. split; intros z Hz.
  - assert (h2 !! z = None) as Hz2.
    { apply map_lookup_filter_None. right. intros n _ Hn. simpl in Hn. done. }
    destruct (hs !! z) as [n|] eqn:Hs; [by apply lookup_union_Some_l|]. by apply lookup_union_None.
  - assert (hs !! z = None) as Hs.
    { apply not_elem_of_dom. rewrite Dm. apply not_elem_of_dom. apply map_lookup_filter_None.
      right. intros n _ Hn. simpl in Hn. done. }
    rewrite lookup_union_r by done. unfold h2. destruct (h !! z) as [n|] eqn:Hh.
    + by apply map_lookup_filter_Some.
    + apply map_lookup_filter_None. by left.
Qed.

Lemma filter_holds (h : heap) (l : list K) (X : gset K) :
  footprint l ⊆ X → holds_seq tr h l → holds_seq tr (filter (λ kv, kv.1 ∈ X) h) l.
Proof.
  intros HX. apply holds_seq_frame. intros z Hz.
  destruct (h !! z) as [n|] eqn:Hh; [apply map_lookup_filter_Some; split; [done|set_solver]|].
  apply map_lookup_filter_None. by left.
Qed.

(** ** Insertion and deletion, with their frames *)

Lemma rb_insert_spec (h : heap) (l : list K) z :
  holds_seq tr h l → is_Some (h !! z) → z ≠ nil tr → z ≠ root tr → z ∉ l → mono (λ x, 0 < compare tr x z) l →
  ∃ h' l1 l2, rb_insert tr z h = Ok (tt, h') ∧ l = l1 ++ l2 ∧ holds_seq tr h' (l1 ++ z :: l2) ∧
    Forall (λ x, ¬ 0 < compare tr x z) l1 ∧ Forall (λ x, 0 < compare tr x z) l2 ∧
    (∀ x, x ∉ footprint (z :: l) → h' !! x = h !! x).
Proof.
  intros Hs [n Hz] Hzn Hzr Hzl Hm. set (X := footprint (z :: l)).
  assert (HX : footprint l ⊆ X) by (unfold X, footprint; set_solver).
  destruct (filter_holds h l X HX Hs) as (t & Hrep & Hok & Hi). rewrite <-Hi in Hm, Hzl.
  destruct (rb_insert_ok tr (filter (λ kv, kv.1 ∈ X) h) t z Hrep Hok) as (hs & t' & A & B & E & Hrep' & Hok' & HAB & Ht' & HA & HB); try done.
  { exists n. apply map_lookup_filter_Some. split; [done|]. unfold X, footprint. set_solver. }
  destruct (local_frame _ X h _ _ (local_insert z) E) as (h' & E' & HinX & HoutX).
  exists h', A, B. split; [done|]. split; [congruence|]. split; [|done].
  apply (holds_seq_frame hs).
  - intros x Hx. apply HinX. revert Hx. unfold X, footprint. rewrite <-Hi, HAB, !elem_of_list_to_set. set_solver.
  - by exists t'.
Qed.

Lemma rb_delete_spec (h : heap) (l1 : list K) z l2 :
  holds_seq tr h (l1 ++ z :: l2) →
  ∃ h', rb_delete tr z h = Ok (tt, h') ∧ holds_seq tr h' (l1 ++ l2) ∧
    (∀ x, x ∉ footprint (l1 ++ z :: l2) → h' !! x = h !! x) ∧ is_Some (h' !! z).
Proof.
  intros Hs. set (X := footprint (l1 ++ z :: l2)). pose proof (holds_seq_nodup _ _ _ Hs) as Hnd.
  destruct (filter_holds h _ X (reflexivity _) Hs) as (t & Hrep & Hok & Hi).
  destruct (rb_delete_ok tr (filter (λ kv, kv.1 ∈ X) h) t z Hrep Hok) as (hs & t' & A & B & E & Hrep' & Hok' & HAB & Ht').
  { rewrite Hi. set_solver. }
  destruct (local_frame _ X h _ _ (local_delete z) E) as (h' & E' & HinX & HoutX).
  assert (l1 = A ∧ l2 = B) as [-> ->].
  { apply (split_unique l1 z l2); [|congruence]. do 2 apply NoDup_cons in Hnd as [_ Hnd]. done. }
  exists h'. split; [done|]. split; [|split; [done|]].
  - apply (holds_seq_frame hs); [|by exists t'].
    intros x Hx. apply HinX. revert Hx. unfold X, footprint. rewrite !elem_of_list_to_set. set_solver.
  - rewrite HinX by (unfold X, footprint; set_solver). apply elem_of_dom.
    destruct (local_delete z _ ∅ _ _ (map_disjoint_empty_r _) E) as [-> _]. apply elem_of_dom.
    destruct (holds_seq_dom tr h _ z Hs) as [n Hn]; [set_solver|]. exists n. apply map_lookup_filter_Some.
    split; [done|]. unfold X, footprint. set_solver.
Qed.
End frame.

(** ** The properties *)

(** C32. Red-black trees, pointer by pointer.  Let the store hold a
    well-formed red-black tree with the nodes [l] in order.  [rb_insert] of a
    new node puts it where [compare] says, [rb_delete] takes a node out,
    [rb_node_prev] and [rb_node_next] answer the neighbours of a node; the
    result is again a well-formed red-black tree, no assertion fails, and no
    node outside the tree is written. *)
Theorem rb_tree_correct {K} `{Countable K} (tr : rb_tree K) h l :
  holds_seq tr h l →
  (∀ z, is_Some (h !! z) → z ≠ nil tr → z ≠ root tr → z ∉ l → mono (λ x, 0 < compare tr x z) l →
    ∃ h' l1 l2, rb_insert tr z h = Ok (tt, h') ∧ l = l1 ++ l2 ∧ holds_seq tr h' (l1 ++ z :: l2) ∧
      Forall (λ x, ¬ 0 < compare tr x z) l1 ∧ Forall (λ x, 0 < compare tr x z) l2 ∧
      (∀ x, x ∉ footprint tr (z :: l) → h' !! x = h !! x)) ∧
  (∀ l1 z l2, l = l1 ++ z :: l2 →
    (∃ h', rb_delete tr z h = Ok (tt, h') ∧ holds_seq tr h' (l1 ++ l2) ∧
      ∀ x, x ∉ footprint tr l → h' !! x = h !! x) ∧
    rb_node_prev tr z h = Ok (last l1, h) ∧ rb_node_next tr z h = Ok (head l2, h)).
Proof.
  intros Hs. split; [intros z Hz Hzn Hzr Hzl Hm; by apply rb_insert_spec|].
  intros l1 z l2 ->. split; [|split; [by eapply rb_node_prev_ok|by eapply rb_node_next_ok]].
  destruct (rb_delete_spec tr h l1 z l2 Hs) as (h' & E & Hs' & Hf & _). by exists h'.
Qed.

(** C33. Search is exact and logarithmic: in a tree of [n] nodes, sorted for
    the comparison, [rb_search] finds a node that compares equal if there is
    one, and its loop goes round at most [2 log2 (n + 1)] times before it
    stops. *)
Theorem rb_search_logarithmic {K} `{Countable K} (tr : rb_tree K) cmp h l :
  holds_seq tr h l → cmp_sorted cmp l →
  ∃ r top, rb_search tr cmp h = Ok (r, h) ∧
    match r with Some z => z ∈ l ∧ cmp z = 0 | None => ∀ x, x ∈ l → cmp x ≠ 0 end ∧
    rd left (root tr) h = Ok (top, h) ∧
    ∀ fuel, (2 * Nat.log2 (S (length l)) < fuel)%nat →
      loop fuel (search_body tr cmp) top h = Ok (or_nil tr r, h).
Proof.
  intros Hs Hc. destruct (rb_search_ok tr cmp h l Hs Hc) as (r & top & Et & E & Hf & Hr).
  by exists r, top.
Qed.

(** Nodes are numbers; the store has room for eight of them. *)
Definition ztree : rb_tree Z := mk_tree (λ x y, x - y) (-1) (-2).
Definition zstore : gmap Z (rb_node Z) :=
  list_to_map ((λ i, (i, mk_rb false 0 0 0)) <$> seqZ (-2) 10).
Definition zrun {A} (m : M (gmap Z (rb_node Z)) A) (h : gmap Z (rb_node Z)) : gmap Z (rb_node Z) :=
  match m h with Ok (_, h') => h' | Err _ => h end.
Definition ztree3 : gmap Z (rb_node Z) :=
  zrun (_ ← rb_tree_create (compare ztree) true (Some (-1)) (Some (-2));
        _ ← rb_insert ztree 5; _ ← rb_insert ztree 1; rb_insert ztree 3) zstore.

Lemma ztree3_holds : holds_seq ztree ztree3 [1; 3; 5].
Proof.
  exists (T false (T true E 1 E) 3 (T true E 5 E)). split; [|split; [|done]].
  - exists (-1). constructor; [by vm_compute|by vm_compute|by vm_compute|].
    apply (bool_decide_unpack _). by vm_compute.
  - split; [done|]. split; [done|]. exists 1%nat, 0%nat. split; [done|]. split; by exists 0%nat.
Qed.

Lemma rb_tree_correct_witness :
  holds_seq ztree ztree3 [1; 3; 5] ∧
  (∃ h' l1 l2, rb_insert ztree 4 ztree3 = Ok (tt, h') ∧ [1; 3; 5] = l1 ++ l2 ∧ holds_seq ztree h' (l1 ++ 4 :: l2)) ∧
  (∃ h', rb_delete ztree 3 ztree3 = Ok (tt, h') ∧ holds_seq ztree h' [1; 5]) ∧
  rb_node_prev ztree 3 ztree3 = Ok (Some 1, ztree3).
Proof.
  split; [exact ztree3_holds|]. destruct (rb_tree_correct ztree ztree3 [1; 3; 5] ztree3_holds) as [Hins Hdel].
  split; [|split].
  - destruct (Hins 4) as (h' & l1 & l2 & E & Hl & Hh & _).
    + eexists. by vm_compute.
    + done.
    + done.
    + apply (bool_decide_unpack _). by vm_compute.
    + intros l1 x l2 Hl Hx. simpl in Hx.
      destruct l1 as [|? [|? [|? [|? ?]]]]; simplify_eq/=; try lia; repeat constructor; simpl; lia.
    + exists h', l1, l2. split; [exact E|]. split; [exact Hl|exact Hh].
  - destruct (Hdel [1] 3 [5] eq_refl) as [(h' & E & Hh & _) _]. exists h'. split; [exact E|exact Hh].
  - destruct (Hdel [1] 3 [5] eq_refl) as [_ [E _]]. exact E.
Defined.

Lemma rb_search_logarithmic_witness :
  cmp_sorted (λ x, x - 3) [1; 3; 5] ∧ rb_search ztree (λ x, x - 3) ztree3 = Ok (Some 3, ztree3) ∧
  ∃ r top, rd left (root ztree) ztree3 = Ok (top, ztree3) ∧
    ∀ fuel, (2 * Nat.log2 4 < fuel)%nat → loop fuel (search_body ztree (λ x, x - 3)) top ztree3 = Ok (or_nil ztree r, ztree3).
Proof.
  assert (Hc : cmp_sorted (λ x, x - 3) [1; 3; 5]).
  { intros l1 x l2 Hl. destruct l1 as [|? [|? [|? [|? ?]]]]; simplify_eq/=; split; intros ?; try lia; repeat constructor; simpl; lia. }
  split; [exact Hc|]. split; [by vm_compute|].
  destruct (rb_search_logarithmic ztree (λ x, x - 3) ztree3 [1; 3; 5] ztree3_holds Hc) as (r & top & _ & _ & Et & Hf).
  exists r, top. split; [exact Et|exact Hf].
Defined.
