(* ===== verification/Vmm.v ===== *)
(** * Virtual memory areas

    [mm/vmm.c] (and the structures of [mm/vmm.h]): the address space of a
    process is an [mm_struct] with a list of areas sorted by address, a
    red-black tree over the same areas once there are 32 of them, and a cache
    of the last area found.  Lists and trees are those of [DList] and [RbTree],
    on stores whose keys are the members that link the objects.

    Objects are named by numbers that are never used again.  [oom] holds the
    answers of the next [kmalloc]s ([true]: no memory); when it is used up
    they succeed.  The calls into the page tables ([mm/pmm.c]) and
    [shmem_destroy] are recorded in [events]; [copies] holds what the next
    [copy_range]s answer. *)

From S2P Require Import Prelude DList RbTree.

Definition VM_READ : Z := 0x1.
Definition VM_WRITE : Z := 0x2.
Definition VM_EXEC : Z := 0x4.
Definition VM_STACK : Z := 0x8.
Definition VM_SHARE : Z := 0x10.
Definition VM_IO : Z := 0x4000.
Definition RB_MIN_MAP_COUNT : Z := 32.

Definition USERBASE : Z := 0x30000000.
Definition USERTOP : Z := 0x70000000.
Definition USER_ACCESS (start end_ : Z) : bool :=
  (USERBASE <=? start) && (start <? end_) && (end_ <=? USERTOP).
Definition KERN_ACCESS (start end_ : Z) : bool :=
  (KERNBASE <=? start) && (start <? end_) && (end_ <=? KERNTOP).

(** ** State *)

(** The linked members: lists, and nodes of trees with their sentinels. *)
Inductive vlink : Type := mmap_list (mm : Z) | proc_mm_link (mm : Z) | list_link (vma : Z) | free_list.
#[export] Instance vlink_eq_dec : EqDecision vlink.
Proof. solve_decision. Defined.
#[export] Instance vlink_countable : Countable vlink.
Proof.
  refine (inj_countable'
    (λ x, match x with mmap_list m => inl (inl m) | proc_mm_link m => inl (inr m) | list_link v => inr (inl v) | free_list => inr (inr tt) end)
    (λ x, match x with inl (inl m) => mmap_list m | inl (inr m) => proc_mm_link m | inr (inl v) => list_link v | inr (inr _) => free_list end) _).
  by intros [].
Defined.

Inductive vnode : Type := rb_link (vma : Z) | tree_nil (tree : Z) | tree_root (tree : Z).
#[export] Instance vnode_eq_dec : EqDecision vnode.
Proof. solve_decision. Defined.
#[export] Instance vnode_countable : Countable vnode.
Proof.
  refine (inj_countable'
    (λ x, match x with rb_link v => inl v | tree_nil t => inr (inl t) | tree_root t => inr (inr t) end)
    (λ x, match x with inl v => rb_link v | inr (inl t) => tree_nil t | inr (inr t) => tree_root t end) _).
  by intros [].
Defined.

(** [vm_mm] is not written before the area is inserted. *)
Record vma_struct : Type := mk_vma {
  vm_mm : option Z; vm_start : Z; vm_end : Z; vm_flags : Z; shmem : option Z; shmem_off : Z }.
#[export] Instance eta_vma_struct : Eta vma_struct := λ r,
  mk_vma (vm_mm r) (vm_start r) (vm_end r) (vm_flags r) (shmem r) (shmem_off r).

Record mm_struct : Type := mk_mm {
  mmap_tree : option Z; mmap_cache : option Z; pgdir : Z; map_count : Z; swap_address : Z;
  mm_count : Z; locked_by : Z; brk_start : Z; brk : Z; mm_sem : Z }.
#[export] Instance eta_mm_struct : Eta mm_struct := λ r,
  mk_mm (mmap_tree r) (mmap_cache r) (pgdir r) (map_count r) (swap_address r)
        (mm_count r) (locked_by r) (brk_start r) (brk r) (mm_sem r).

Record shmem_struct : Type := mk_shmem { shmem_ref : Z; len : Z }.
#[export] Instance eta_shmem_struct : Eta shmem_struct := λ r, mk_shmem (shmem_ref r) (len r).

Inductive event : Type :=
| unmap_range (pgdir start end_ : Z)
| unmap_page (pgdir la : Z)
| exit_range (pgdir start end_ : Z)
| copy_range (to from start end_ : Z) (share : bool)
| shmem_destroy (sh : Z).

Record vst : Type := mk_vst {
  vmas : gmap Z vma_struct;
  mms : gmap Z mm_struct;
  shmems : gmap Z shmem_struct;
  vlinks : gmap vlink (list_entry vlink);
  rbs : gmap vnode (rb_node vnode);
  fresh : Z;
  oom : list bool;
  copies : list Z;
  events : list event;
}.
#[export] Instance eta_vst : Eta vst := λ r,
  mk_vst (vmas r) (mms r) (shmems r) (vlinks r) (rbs r) (fresh r) (oom r) (copies r) (events r).

Definition on_vlinks {A} (m : M (gmap vlink (list_entry vlink)) A) : M vst A := λ s,
  match m (vlinks s) with Ok (a, h) => Ok (a, s <| vlinks := h |>) | Err e => Err e end.
Definition on_rbs {A} (m : M (gmap vnode (rb_node vnode)) A) : M vst A := λ s,
  match m (rbs s) with Ok (a, h) => Ok (a, s <| rbs := h |>) | Err e => Err e end.
Definition get_vma (v : Z) : M vst vma_struct := deref (λ s, vmas s !! v).
Definition set_vma (v : Z) (f : vma_struct → vma_struct) : M vst unit :=
  a ← get_vma v; modify (λ s, s <| vmas := <[v := f a]> (vmas s) |>).
Definition get_mm (m : Z) : M vst mm_struct := deref (λ s, mms s !! m).
Definition set_mm (m : Z) (f : mm_struct → mm_struct) : M vst unit :=
  d ← get_mm m; modify (λ s, s <| mms := <[m := f d]> (mms s) |>).
Definition le2vma (le : vlink) : M vst Z := match le with list_link v => mret v | _ => fail Fault end.
Definition rbn2vma (node : vnode) : M vst Z := match node with rb_link v => mret v | _ => fail Fault end.
Definition emit (e : event) : M vst unit := modify (λ s, s <| events := events s ++ [e] |>).

(** A new name, or no memory. *)
Definition kmalloc : M vst (option Z) := λ s,
  match oom s with
  | true :: os => Ok (None, s <| oom := os |>)
  | _ => Ok (Some (fresh s), s <| oom := tail (oom s) |> <| fresh := fresh s + 1 |>)
  end.

(** The entries of the lists bound the walks. *)
Definition list_walk {A B} (body : A → M vst (A + B)) (a : A) : M vst B :=
  s ← get; loop (S (size (vlinks s))) body a.
Definition tree_walk {A B} (body : A → M vst (A + B)) (a : A) : M vst B :=
  s ← get; loop (S (size (rbs s))) body a.

(** ** Creation and destruction *)

Definition mm_create : M vst (option Z) :=
  mm ← kmalloc;
  match mm with
  | None => mret None
  | Some mm =>
      _ ← on_vlinks (list_init (mmap_list mm));
      _ ← modify (λ s, s <| mms := <[mm := mk_mm None None 0 0 0 0 0 0 0 1]> (mms s) |>);
      _ ← on_vlinks (list_init (proc_mm_link mm));
      mret (Some mm)
  end.

(** The new object's [rb_link] exists and holds no meaningful value. *)
Definition vma_create (start end_ flags : Z) : M vst (option Z) :=
  vma ← kmalloc;
  match vma with
  | None => mret None
  | Some v =>
      _ ← modify (λ s, s <| vmas := <[v := mk_vma None start end_ flags None 0]> (vmas s) |>
                         <| rbs := <[rb_link v := mk_rb false (rb_link v) (rb_link v) (rb_link v)]> (rbs s) |>);
      mret (Some v)
  end.

Definition shmem_ref_add (sh : option Z) (d : Z) : M vst Z :=
  sh ← deref (λ _, sh);
  x ← deref (λ s, shmems s !! sh);
  let r := s32 (shmem_ref x + d) in
  _ ← modify (λ s, s <| shmems := <[sh := x <| shmem_ref := r |>]> (shmems s) |>);
  mret r.
Definition shmem_ref_inc (sh : option Z) : M vst Z := shmem_ref_add sh 1.
Definition shmem_ref_dec (sh : option Z) : M vst Z := shmem_ref_add sh (-1).

Definition kfree_vma (v : Z) : M vst unit :=
  _ ← get_vma v;
  modify (λ s, s <| vmas := delete v (vmas s) |> <| rbs := delete (rb_link v) (rbs s) |>
                 <| vlinks := delete (list_link v) (vlinks s) |>).

Definition vma_destroy (v : Z) : M vst unit :=
  a ← get_vma v;
  _ ← (if negb (Z.land (vm_flags a) VM_SHARE =? 0) then
         r ← shmem_ref_dec (shmem a);
         when (r =? 0)
           (sh ← deref (λ _ : vst, shmem a);
            _ ← modify (λ s, s <| shmems := delete sh (shmems s) |>);
            emit (shmem_destroy sh))
       else mret tt);
  kfree_vma v.

(** ** Lookup *)

Definition vma_compare (h : gmap Z vma_struct) (n1 n2 : vnode) : Z :=
  match n1, n2 with
  | rb_link v1, rb_link v2 =>
      match h !! v1, h !! v2 with
      | Some a1, Some a2 =>
          if vm_start a1 <? vm_start a2 then -1 else if vm_start a2 <? vm_start a1 then 1 else 0
      | _, _ => 0
      end
  | _, _ => 0
  end.
(** The tree [t], as its operations see it. *)
Definition tree_of (s : vst) (t : Z) : rb_tree vnode := mk_tree (vma_compare (vmas s)) (tree_nil t) (tree_root t).

Definition find_rb_body (t addr : Z) (node : option vnode) : M vst (option vnode + option Z) :=
  match node with
  | None => mret (inr None)
  | Some node =>
      tmp ← rbn2vma node;
      a ← get_vma tmp;
      s ← get;
      if addr <? vm_end a then
        if vm_start a <=? addr then mret (inr (Some tmp))
        else n ← on_rbs (rb_node_left (tree_of s t) node); mret (inl n)
      else n ← on_rbs (rb_node_right (tree_of s t) node); mret (inl n)
  end.
Definition find_vma_rb (t addr : Z) : M vst (option Z) :=
  s ← get;
  node ← on_rbs (rb_node_root (tree_of s t));
  tree_walk (find_rb_body t addr) node.

Definition find_list_body (mm addr : Z) (le : vlink) : M vst (vlink + option Z) :=
  le ← on_vlinks (list_next le);
  if decide (le = mmap_list mm) then mret (inr None)
  else
    v ← le2vma le;
    a ← get_vma v;
    if (vm_start a <=? addr) && (addr <? vm_end a) then mret (inr (Some v)) else mret (inl le).

(** The area [v] contains [addr]. *)
Definition hits (v : option Z) (addr : Z) : M vst bool :=
  match v with
  | None => mret false
  | Some v => a ← get_vma v; mret ((vm_start a <=? addr) && (addr <? vm_end a))
  end.

Definition find_vma (mm : option Z) (addr : Z) : M vst (option Z) :=
  match mm with
  | None => mret None
  | Some mm =>
      d ← get_mm mm;
      hit ← hits (mmap_cache d) addr;
      vma ← (if (hit : bool) then mret (mmap_cache d)
             else match mmap_tree d with
                  | Some t => find_vma_rb t addr
                  | None => list_walk (find_list_body mm addr) (mmap_list mm)
                  end);
      _ ← (match vma with
           | Some v => set_mm mm (λ d, d <| mmap_cache := Some v |>)
           | None => mret tt
           end);
      mret vma
  end.

Definition find_vma_intersection (mm : option Z) (start end_ : Z) : M vst (option Z) :=
  vma ← find_vma mm start;
  match vma with
  | None => mret None
  | Some v => a ← get_vma v; mret (if end_ <=? vm_start a then None else Some v)
  end.

(** ** Insertion and removal *)

Definition check_vma_overlap (prev next : Z) : M vst unit :=
  p ← get_vma prev;
  n ← get_vma next;
  _ ← assert (vm_start p <? vm_end p);
  _ ← assert (vm_end p <=? vm_start n);
  assert (vm_start n <? vm_end n).

Definition insert_vma_rb (t v : Z) (want_prev : bool) : M vst (option Z) :=
  s ← get;
  _ ← on_rbs (rb_insert (tree_of s t) (rb_link v));
  if want_prev then
    prev ← on_rbs (rb_node_prev (tree_of s t) (rb_link v));
    match prev with
    | Some n => p ← rbn2vma n; mret (Some p)
    | None => mret None
    end
  else mret None.

Definition rb_tree_create_vma : M vst (option Z) :=
  t ← kmalloc;
  match t with
  | None => mret None
  | Some t =>
      a ← kmalloc;
      b ← (match a with Some _ => kmalloc | None => mret None end);
      s ← get;
      r ← on_rbs (rb_tree_create (vma_compare (vmas s)) true ((λ _, tree_nil t) <$> a) ((λ _, tree_root t) <$> b));
      mret (match r with Some _ => Some t | None => None end)
  end.

Definition place_body (mm start : Z) (p : vlink * vlink) : M vst (vlink * vlink + vlink) :=
  let '(le, le_prev) := p in
  le ← on_vlinks (list_next le);
  if decide (le = mmap_list mm) then mret (inr le_prev)
  else
    v ← le2vma le;
    a ← get_vma v;
    if start <? vm_start a then mret (inr le_prev) else mret (inl (le, le)).

Definition build_tree_body (mm t : Z) (le : vlink) : M vst (vlink + unit) :=
  le ← on_vlinks (list_next le);
  if decide (le = mmap_list mm) then mret (inr tt)
  else
    v ← le2vma le;
    _ ← insert_vma_rb t v false;
    mret (inl le).

(** Build the tree when there are enough areas; this may fail. *)
Definition grow_tree (mm : Z) : M vst unit :=
  d ← get_mm mm;
  if bool_decide (mmap_tree d = None) && (RB_MIN_MAP_COUNT <=? map_count d) then
    t ← rb_tree_create_vma;
    _ ← set_mm mm (λ d, d <| mmap_tree := t |>);
    match t with
    | Some t => list_walk (build_tree_body mm t) (mmap_list mm)
    | None => mret tt
    end
  else mret tt.

Definition insert_vma_struct (mm v : Z) : M vst unit :=
  a ← get_vma v;
  _ ← assert (vm_start a <? vm_end a);
  let list := mmap_list mm in
  d ← get_mm mm;
  le_prev ← (match mmap_tree d with
             | Some t =>
                 mmap_prev ← insert_vma_rb t v true;
                 mret (match mmap_prev with Some p => list_link p | None => list end)
             | None => list_walk (place_body mm (vm_start a)) (list, list)
             end);
  le_next ← on_vlinks (list_next le_prev);
  _ ← (if decide (le_prev ≠ list) then p ← le2vma le_prev; check_vma_overlap p v else mret tt);
  _ ← (if decide (le_next ≠ list) then n ← le2vma le_next; check_vma_overlap v n else mret tt);
  _ ← set_vma v (λ a, a <| vm_mm := Some mm |>);
  _ ← on_vlinks (list_add_after le_prev (list_link v));
  _ ← set_mm mm (λ d, d <| map_count := s32 (map_count d + 1) |>);
  grow_tree mm.

Definition remove_vma_struct (mm v : Z) : M vst Z :=
  a ← get_vma v;
  _ ← assert (bool_decide (vm_mm a = Some mm));
  d ← get_mm mm;
  s ← get;
  _ ← (match mmap_tree d with
       | Some t => on_rbs (rb_delete (tree_of s t) (rb_link v))
       | None => mret tt
       end);
  _ ← on_vlinks (list_del (list_link v));
  _ ← when (bool_decide (mmap_cache d = Some v)) (set_mm mm (λ d, d <| mmap_cache := None |>));
  _ ← set_mm mm (λ d, d <| map_count := s32 (map_count d - 1) |>);
  mret 0.

Definition destroy_body (mm : Z) (_ : unit) : M vst (unit + unit) :=
  le ← on_vlinks (list_next (mmap_list mm));
  if decide (le = mmap_list mm) then mret (inr tt)
  else
    _ ← on_vlinks (list_del le);
    v ← le2vma le;
    _ ← vma_destroy v;
    mret (inl tt).
Definition mm_destroy (mm : Z) : M vst unit :=
  d ← get_mm mm;
  _ ← assert (mm_count d =? 0);
  s ← get;
  _ ← (match mmap_tree d with Some t => on_rbs (rb_tree_destroy (tree_of s t)) | None => mret tt end);
  _ ← list_walk (destroy_body mm) tt;
  modify (λ s, s <| mms := delete mm (mms s) |>
                 <| vlinks := delete (mmap_list mm) (delete (proc_mm_link mm) (vlinks s)) |>).

(** ** Mapping *)

(** The result code, and the area stored through [vma_store]. *)
Definition mm_map (mm : option Z) (addr len flags : Z) : M vst (Z * option Z) :=
  let start := ROUNDDOWN addr PGSIZE in
  let end_ := ROUNDUP (u32 (addr + len)) PGSIZE in
  if negb (USER_ACCESS start end_) then mret (- E_INVAL, None)
  else
    _ ← assert (bool_decide (mm ≠ None));
    m ← deref (λ _, mm);
    vma ← find_vma mm start;
    a ← (match vma with Some v => a ← get_vma v; mret (vm_start a <? end_) | None => mret false end);
    if (a : bool) then mret (- E_INVAL, None)
    else
      vma ← vma_create start end_ (Z.ldiff flags VM_SHARE);
      match vma with
      | None => mret (- E_NO_MEM, None)
      | Some v => _ ← insert_vma_struct m v; mret (0, Some v)
      end.

Definition mm_map_shmem (mm : option Z) (addr flags : Z) (sh : option Z) : M vst (Z * option Z) :=
  if negb (addr mod PGSIZE =? 0) || bool_decide (sh = None) then mret (- E_INVAL, None)
  else
    _ ← shmem_ref_inc sh;
    id ← deref (λ _, sh);
    x ← deref (λ s, shmems s !! id);
    r ← mm_map mm addr (len x) flags;
    if negb (r.1 =? 0) then _ ← shmem_ref_dec sh; mret (r.1, None)
    else
      v ← deref (λ _, r.2);
      _ ← set_vma v (λ a, a <| shmem := sh |> <| shmem_off := 0 |> <| vm_flags := Z.lor (vm_flags a) VM_SHARE |>);
      mret (0, Some v).

Definition vma_resize (v start end_ : Z) : M vst unit :=
  _ ← assert ((start mod PGSIZE =? 0) && (end_ mod PGSIZE =? 0));
  a ← get_vma v;
  _ ← assert ((vm_start a <=? start) && (start <? end_) && (end_ <=? vm_end a));
  _ ← when (negb (Z.land (vm_flags a) VM_SHARE =? 0))
        (set_vma v (λ a, a <| shmem_off := u32 (shmem_off a + (start - vm_start a)) |>));
  set_vma v (λ a, a <| vm_start := start |> <| vm_end := end_ |>).

(** The page-wise path of device memory: the entry of each page, if it
    exists, is cleared. *)
Definition unmap_io_body (pgdir end_ : Z) (p : Z * Z) : M vst (Z * Z + unit) :=
  let '(start, la) := p in
  let off := u32 (start - la) in
  let size := u32 (PGSIZE - off) in
  let size := if u32 (end_ - start) <? size then u32 (end_ - start) else size in
  _ ← emit (unmap_page pgdir la);
  let start := u32 (start + size) in
  let la := u32 (la + PGSIZE) in
  if negb (start =? 0) && (start <? end_) then mret (inl (start, la)) else mret (inr tt).
Definition unmap_vma_range (pgdir v start end_ : Z) : M vst unit :=
  _ ← assert ((start mod PGSIZE =? 0) && (end_ mod PGSIZE =? 0));
  a ← get_vma v;
  if negb (Z.land (vm_flags a) VM_IO =? 0) then
    loop (S (Z.to_nat ((end_ - start) / PGSIZE))) (unmap_io_body pgdir end_) (start, ROUNDDOWN start PGSIZE)
  else emit (unmap_range pgdir start end_).

Definition collect_body (mm end_ : Z) (v : Z) : M vst (Z + unit) :=
  a ← get_vma v;
  if vm_start a <? end_ then
    le ← on_vlinks (list_next (list_link v));
    _ ← remove_vma_struct mm v;
    _ ← on_vlinks (list_add free_list (list_link v));
    if decide (le = mmap_list mm) then mret (inr tt)
    else v ← le2vma le; mret (inl v)
  else mret (inr tt).

Definition release_body (mm start end_ : Z) (le : vlink) : M vst (vlink + unit) :=
  if decide (le ≠ free_list) then
    v ← le2vma le;
    le ← on_vlinks (list_next le);
    a ← get_vma v;
    d ← get_mm mm;
    _ ← (if vm_start a <? start then
           let un_start := start in let un_end := vm_end a in
           _ ← vma_resize v (vm_start a) un_start;
           _ ← insert_vma_struct mm v;
           unmap_vma_range (pgdir d) v un_start un_end
         else
           let un_start := vm_start a in let un_end := vm_end a in
           if end_ <? un_end then
             let un_end := end_ in
             _ ← vma_resize v un_end (vm_end a);
             _ ← insert_vma_struct mm v;
             unmap_vma_range (pgdir d) v un_start un_end
           else
             _ ← unmap_vma_range (pgdir d) v un_start un_end;
             vma_destroy v);
    mret (inl le)
  else mret (inr tt).

Definition mm_unmap (mm : option Z) (addr len : Z) : M vst Z :=
  let start := ROUNDDOWN addr PGSIZE in
  let end_ := ROUNDUP (u32 (addr + len)) PGSIZE in
  if negb (USER_ACCESS start end_) then mret (- E_INVAL)
  else
    _ ← assert (bool_decide (mm ≠ None));
    m ← deref (λ _, mm);
    vma ← find_vma mm start;
    match vma with
    | None => mret 0
    | Some v =>
        a ← get_vma v;
        d ← get_mm m;
        if end_ <=? vm_start a then mret 0
        else if (vm_start a <? start) && (end_ <? vm_end a) then
          nvma ← vma_create (vm_start a) start (vm_flags a);
          match nvma with
          | None => mret (- E_NO_MEM)
          | Some n =>
              _ ← vma_resize v end_ (vm_end a);
              _ ← insert_vma_struct m n;
              _ ← unmap_vma_range (pgdir d) v start end_;
              mret 0
          end
        else
          _ ← on_vlinks (list_init free_list);
          _ ← list_walk (collect_body m end_) v;
          le ← on_vlinks (list_next free_list);
          _ ← list_walk (release_body m start end_) le;
          mret 0
    end.

(** ** Duplication and exit *)

Definition dup_body (to from : Z) (le : vlink) : M vst (vlink + Z) :=
  le ← on_vlinks (list_prev le);
  if decide (le = mmap_list from) then mret (inr 0)
  else
    v ← le2vma le;
    a ← get_vma v;
    nvma ← vma_create (vm_start a) (vm_end a) (vm_flags a);
    match nvma with
    | None => mret (inr (- E_NO_MEM))
    | Some n =>
        let share := negb (Z.land (vm_flags a) VM_SHARE =? 0) in
        _ ← when share
              (_ ← set_vma n (λ b, b <| shmem := shmem a |> <| shmem_off := shmem_off a |>);
               _ ← shmem_ref_inc (shmem a); mret tt);
        _ ← insert_vma_struct to n;
        dt ← get_mm to; df ← get_mm from;
        _ ← emit (copy_range (pgdir dt) (pgdir df) (vm_start a) (vm_end a) share);
        s ← get;
        _ ← modify (λ s, s <| copies := tail (copies s) |>);
        if negb (default 0 (head (copies s)) =? 0) then mret (inr (- E_NO_MEM)) else mret (inl le)
    end.
Definition dup_mmap (to from : option Z) : M vst Z :=
  _ ← assert (bool_decide (to ≠ None) && bool_decide (from ≠ None));
  t ← deref (λ _, to); f ← deref (λ _, from);
  list_walk (dup_body t f) (mmap_list f).

Definition exit_unmap_body (mm pgdir : Z) (le : vlink) : M vst (vlink + vlink) :=
  le ← on_vlinks (list_next le);
  if decide (le = mmap_list mm) then mret (inr le)
  else
    v ← le2vma le;
    a ← get_vma v;
    _ ← unmap_vma_range pgdir v (vm_start a) (vm_end a);
    mret (inl le).
Definition exit_range_body (mm pgdir : Z) (le : vlink) : M vst (vlink + unit) :=
  le ← on_vlinks (list_next le);
  if decide (le = mmap_list mm) then mret (inr tt)
  else
    v ← le2vma le;
    a ← get_vma v;
    _ ← emit (exit_range pgdir (vm_start a) (vm_end a));
    mret (inl le).
Definition exit_mmap (mm : option Z) : M vst unit :=
  _ ← assert (bool_decide (mm ≠ None));
  m ← deref (λ _, mm);
  d ← get_mm m;
  _ ← assert (mm_count d =? 0);
  le ← list_walk (exit_unmap_body m (pgdir d)) (mmap_list m);
  list_walk (exit_range_body m (pgdir d)) le.

(** ** Free ranges, the heap, user pointers *)

Definition unmapped_body (mm len : Z) (p : vlink * Z) : M vst (vlink * Z + Z) :=
  let '(le, start) := p in
  le ← on_vlinks (list_prev le);
  if decide (le = mmap_list mm) then mret (inr (if USERBASE <=? start then start else 0))
  else
    v ← le2vma le;
    a ← get_vma v;
    if vm_end a <=? start then mret (inr start)
    else if vm_start a <? u32 (start + len) then
      if vm_start a <=? len then mret (inr 0) else mret (inl (le, vm_start a - len))
    else mret (inl (le, start)).
Definition get_unmapped_area (mm len : Z) : M vst Z :=
  if (len =? 0) || (USERTOP <? len) then mret 0
  else list_walk (unmapped_body mm len) (mmap_list mm, USERTOP - len).

Definition mm_brk (mm : option Z) (addr len : Z) : M vst Z :=
  let start := ROUNDDOWN addr PGSIZE in
  let end_ := ROUNDUP (u32 (addr + len)) PGSIZE in
  if negb (USER_ACCESS start end_) then mret (- E_INVAL)
  else
    ret ← mm_unmap mm start (end_ - start);
    if negb (ret =? 0) then mret ret
    else
      let flags := Z.lor VM_READ VM_WRITE in
      vma ← find_vma mm (u32 (start - 1));
      grow ← (match vma with
              | Some v => a ← get_vma v;
                  mret (if (vm_end a =? start) && (vm_flags a =? flags) then Some v else None)
              | None => mret None
              end);
      match grow with
      | Some v => _ ← set_vma v (λ a, a <| vm_end := end_ |>); mret 0
      | None =>
          nvma ← vma_create start end_ flags;
          match nvma with
          | None => mret (- E_NO_MEM)
          | Some n => m ← deref (λ _, mm); _ ← insert_vma_struct m n; mret 0
          end
      end.

Definition mem_check_body (mm : option Z) (end_ : Z) (write : bool) (start : Z) : M vst (Z + bool) :=
  if start <? end_ then
    vma ← find_vma mm start;
    match vma with
    | None => mret (inr false)
    | Some v =>
        a ← get_vma v;
        if start <? vm_start a then mret (inr false)
        else if Z.land (vm_flags a) (if write then VM_WRITE else VM_READ) =? 0 then mret (inr false)
        else if write && negb (Z.land (vm_flags a) VM_STACK =? 0) && (start <? u32 (vm_start a + PGSIZE))
        then mret (inr false)
        else mret (inl (vm_end a))
    end
  else mret (inr true).
Definition user_mem_check (mm : option Z) (addr len : Z) (write : bool) : M vst bool :=
  match mm with
  | Some _ =>
      if negb (USER_ACCESS addr (u32 (addr + len))) then mret false
      else list_walk (mem_check_body mm (u32 (addr + len)) write) addr
  | None => mret (KERN_ACCESS addr (u32 (addr + len)))
  end.
