(* ===== verification/VmmInv.v ===== *)
(** * The invariant of the address spaces

    [vmm_ok s A]: in the state [s] every address space [m] holds, in its list
    and in its tree, the areas [A !! m] in the order of their addresses; the
    areas are page-aligned, inside user memory and disjoint; the cache
    designates one of them. *)

From S2P Require Import Prelude DList RbTree RbRep RbInv RbInsert RbTreeSpec Vmm.
From Stdlib Require Import Sorted.

(** ** Areas *)

(** An area under its name. *)
Notation entry := (Z * vma_struct)%type.
Implicit Types (s : vst) (m v t addr start : Z) (x y : vma_struct) (p q : entry) (l : list entry)
  (A : gmap Z (list entry)) (L : gmap vlink (list vlink)).

Definition contains addr x : Prop := vm_start x ≤ addr < vm_end x.
#[export] Instance contains_dec addr x : Decision (contains addr x).
Proof. unfold contains. apply _. Defined.

Record area_ok x : Prop := {
  ao_range : USERBASE ≤ vm_start x ∧ vm_start x < vm_end x ∧ vm_end x ≤ USERTOP;
  ao_page : vm_start x mod PGSIZE = 0 ∧ vm_end x mod PGSIZE = 0;
}.

(** Each area ends before the later ones start. *)
Definition before p q : Prop := vm_end p.2 ≤ vm_start q.2.
Definition sorted_areas l : Prop := StronglySorted before l ∧ Forall (λ p, area_ok p.2) l.

Fixpoint find_in addr l : option Z :=
  match l with
  | [] => None
  | p :: l => if decide (contains addr p.2) then Some p.1 else find_in addr l
  end.

(** ** The invariant *)

Definition link_fresh (n : Z) (k : vlink) : Prop :=
  match k with mmap_list i | proc_mm_link i | list_link i => i < n | free_list => True end.

(** The rings of the store: the lists of the address spaces, among others. *)
Record links_ok s A L : Prop := {
  lo_rep : rep (vlinks s) L;
  lo_list : ∀ m l, A !! m = Some l → L !! mmap_list m = Some (list_link <$> l.*1);
  lo_fresh : ∀ k ks e, L !! k = Some ks → e ∈ k :: ks → link_fresh (fresh s) e;
}.

Record mm_fields m (d : mm_struct) s l : Prop := {
  mf_mm : mms s !! m = Some d;
  mf_count : map_count d = Z.of_nat (length l);
  mf_cache : ∀ v, mmap_cache d = Some v → v ∈ l.*1;
  mf_tree : ∀ t, mmap_tree d = Some t → t < fresh s ∧ holds_seq (tree_of s t) (rbs s) (rb_link <$> l.*1);
}.
Record mm_ok s m l : Prop := {
  mo_vmas : ∀ p, p ∈ l → vmas s !! p.1 = Some p.2 ∧ vm_mm p.2 = Some m ∧ is_Some (rbs s !! rb_link p.1);
  mo_nodup : NoDup l.*1;
  mo_sorted : sorted_areas l;
  mo_mm : ∃ d, mm_fields m d s l;
}.

Record vmm_inv s A L : Prop := {
  vi_links : links_ok s A L;
  vi_dom : dom (mms s) = dom A;
  vi_mm : ∀ m l, A !! m = Some l → mm_ok s m l;
  vi_trees : ∀ m1 d1 m2 d2 t, mms s !! m1 = Some d1 → mms s !! m2 = Some d2 →
    mmap_tree d1 = Some t → mmap_tree d2 = Some t → m1 = m2;
  vi_fresh : (∀ v x, vmas s !! v = Some x → v < fresh s) ∧ (∀ m d, mms s !! m = Some d → m < fresh s);
}.
Definition vmm_ok s A : Prop := ∃ L, vmm_inv s A L.

(** ** Sorted areas *)

Lemma sorted_app l1 l2 :
  sorted_areas (l1 ++ l2) ↔
  sorted_areas l1 ∧ sorted_areas l2 ∧ (∀ p q, p ∈ l1 → q ∈ l2 → before p q).
Proof.
  unfold sorted_areas. rewrite Forall_app. induction l1 as [|p l1 IH]; simpl.
  - split; [intros [? [? ?]]; split_and!; auto using SSorted_nil, Forall_nil|naive_solver].
    intros p q Hp. by apply elem_of_nil in Hp.
  - split.
    + intros [Hs [Hf1 Hf2]]. apply StronglySorted_inv in Hs as [Hs Hp]. apply Forall_app in Hp as [Hp1 Hp2].
      apply Forall_cons in Hf1 as [Hpo Hf1]. destruct IH as [IH _]. destruct (IH (conj Hs (conj Hf1 Hf2))) as ([??] & [??] & H3).
      split_and!; [by constructor|by constructor|done|done|].
      intros p' q [->|Hp']%elem_of_cons Hq; [|by apply H3]. rewrite Forall_forall in Hp2. by apply Hp2.
    + intros ([Hs1 Hf1] & [Hs2 Hf2] & H3). apply StronglySorted_inv in Hs1 as [Hs1 Hp]. apply Forall_cons in Hf1 as [Hpo Hf1].
      destruct IH as [_ IH]. destruct IH as [Hs _]; [split_and!; auto; set_solver|].
      split; [|by split; [constructor|]]. constructor; [done|]. apply Forall_app. split; [done|].
      apply Forall_forall. intros q Hq. apply H3; set_solver.
Qed.
Lemma sorted_cons p l : sorted_areas (p :: l) ↔ area_ok p.2 ∧ sorted_areas l ∧ (∀ q, q ∈ l → before p q).
Proof.
  rewrite (sorted_app [p] l). split.
  - intros ([_ Ho] & Hs & Hb). apply Forall_cons in Ho as [Ho _]. split_and!; [done|done|]. intros q Hq. apply Hb; set_solver.
  - intros (Ho & Hs & Hb). split; [|split; [done|]].
    + split; [by repeat constructor|by constructor].
    + intros p' q Hp'%list_elem_of_singleton Hq. subst. by apply Hb.
Qed.
Lemma sorted_in l p : sorted_areas l → p ∈ l → area_ok p.2.
Proof. intros [_ Hf] Hp. rewrite Forall_forall in Hf. by apply Hf. Qed.

Lemma find_in_Some addr l v : find_in addr l = Some v → ∃ p, p ∈ l ∧ p.1 = v ∧ contains addr p.2.
Proof.
  induction l as [|p l IH]; [done|]. simpl. case_decide; [intros [= <-]; exists p; set_solver|].
  intros (q & ? & ? & ?)%IH. exists q. set_solver.
Qed.
Lemma find_in_None addr l : find_in addr l = None ↔ ∀ p, p ∈ l → ¬ contains addr p.2.
Proof.
  induction l as [|p l IH]; simpl; [split; [intros _ p Hp; by apply elem_of_nil in Hp|done]|].
  case_decide as Hc; [split; [done|]; intros H; exfalso; apply (H p); [set_solver|done]|].
  rewrite IH. split; [intros H q [->|Hq]%elem_of_cons; auto|intros H q Hq; apply H; set_solver].
Qed.
(** Disjoint areas: an address is in one of them at most. *)
Lemma find_in_unique addr l p : sorted_areas l → p ∈ l → contains addr p.2 → find_in addr l = Some p.1.
Proof.
  induction l as [|q l IH]; [intros _ Hp; by apply elem_of_nil in Hp|].
  intros (Ho & Hs & Hb)%sorted_cons Hp Hc. simpl. apply elem_of_cons in Hp as [->|Hp]; [by rewrite decide_True|].
  rewrite decide_False; [auto|]. intros Hq. specialize (Hb p Hp). unfold before, contains in *. lia.
Qed.

(** At most one area per page, so that the count of areas is an [int]. *)
Lemma sorted_length l lo :
  sorted_areas l → (∀ p, p ∈ l → lo ≤ vm_start p.2) → lo ≤ USERTOP → Z.of_nat (length l) ≤ USERTOP - lo.
Proof.
  revert lo. induction l as [|p l IH]; intros lo Hs Hlo Hle; [simpl; lia|].
  apply sorted_cons in Hs as (Ho & Hs & Hb). destruct Ho as [[H1 [H2 H3]] _].
  pose proof (Hlo p ltac:(set_solver)) as Hp.
  specialize (IH (vm_end p.2) Hs). rewrite Nat2Z.inj_succ || idtac. simpl length.
  assert (Z.of_nat (length l) ≤ USERTOP - vm_end p.2) by (apply IH; [exact Hb|done]). lia.
Qed.
Lemma sorted_count l : sorted_areas l → Z.of_nat (length l) ≤ 2 ^ 30.
Proof.
  intros Hs. pose proof (sorted_length l USERBASE Hs) as H. unfold USERBASE, USERTOP in *.
  assert (Z.of_nat (length l) ≤ 0x70000000 - 0x30000000); [|lia]. apply H; [|lia].
  intros p Hp. apply (sorted_in l p Hs Hp).
Qed.

(** * Finding areas *)

(** ** Rules for the accessors *)

Lemma on_vlinks_ok {X} (f : M _ X) s a h : f (vlinks s) = Ok (a, h) → on_vlinks f s = Ok (a, s <| vlinks := h |>).
Proof. intros E. unfold on_vlinks. by rewrite E. Qed.
Lemma on_vlinks_read {X} (f : M _ X) s a : f (vlinks s) = Ok (a, vlinks s) → on_vlinks f s = Ok (a, s).
Proof. intros E. unfold on_vlinks. rewrite E. by destruct s. Qed.
Lemma on_rbs_ok {X} (f : M _ X) s a h : f (rbs s) = Ok (a, h) → on_rbs f s = Ok (a, s <| rbs := h |>).
Proof. intros E. unfold on_rbs. by rewrite E. Qed.
Lemma on_rbs_read {X} (f : M _ X) s a : f (rbs s) = Ok (a, rbs s) → on_rbs f s = Ok (a, s).
Proof. intros E. unfold on_rbs. rewrite E. by destruct s. Qed.
Lemma get_vma_ok s v x : vmas s !! v = Some x → get_vma v s = Ok (x, s).
Proof. intros E. unfold get_vma, deref. by rewrite E. Qed.
Lemma get_mm_ok s m d : mms s !! m = Some d → get_mm m s = Ok (d, s).
Proof. intros E. unfold get_mm, deref. by rewrite E. Qed.
Lemma set_vma_ok s v x f : vmas s !! v = Some x → set_vma v f s = Ok (tt, s <| vmas := <[v := f x]> (vmas s) |>).
Proof. intros E. unfold set_vma. by rewrite (bind_ok _ _ _ _ _ (get_vma_ok _ _ _ E)). Qed.
Lemma set_mm_ok s m d f : mms s !! m = Some d → set_mm m f s = Ok (tt, s <| mms := <[m := f d]> (mms s) |>).
Proof. intros E. unfold set_mm. by rewrite (bind_ok _ _ _ _ _ (get_mm_ok _ _ _ E)). Qed.

Lemma list_walk_ok {X Y} (body : X → M vst (X + Y)) a s r :
  loop (S (size (vlinks s))) body a s = r → list_walk body a s = r.
Proof. done. Qed.

(** [compare] plays no part in the representation. *)
Lemma holds_seq_compare {K} `{Countable K} (tr tr' : rb_tree K) h (l : list K) :
  nil tr' = nil tr → root tr' = root tr → holds_seq tr h l → holds_seq tr' h l.
Proof.
  destruct tr as [c n r], tr' as [c' n' r']. simpl. intros -> -> (t & (q & [Hn Hc Ht Hnd]) & Hok).
  exists t. split; [|done]. exists q. assert (Hp : ∀ t0 : tree K, ptr (mk_tree c' n r) t0 = ptr (mk_tree c n r) t0) by by intros [].
  assert (Hta : ∀ (t0 : tree K) par, tree_at (mk_tree c n r) h par t0 → tree_at (mk_tree c' n r) h par t0).
  { induction t0 as [|c0 a IHa k b IHb]; intros par; [done|]. simpl. rewrite !Hp. intros (? & ? & ?). auto. }
  constructor; [done| |by apply Hta|done]. simpl in *. by rewrite Hp.
Qed.

(** ** The three searches *)

Lemma find_in_app addr l1 l2 :
  find_in addr (l1 ++ l2) = match find_in addr l1 with Some v => Some v | None => find_in addr l2 end.
Proof. induction l1 as [|p l1 IH]; [done|]. simpl. by case_decide. Qed.

(** The areas before one that starts after [addr], and those after one that
    ends before it, do not matter. *)
Lemma find_in_left addr l1 p l2 :
  sorted_areas (l1 ++ p :: l2) → addr < vm_start p.2 → find_in addr (l1 ++ p :: l2) = find_in addr l1.
Proof.
  intros (_ & (Hp & Hs2 & Hb)%sorted_cons & _)%sorted_app Hlt. rewrite find_in_app. destruct (find_in addr l1); [done|].
  apply find_in_None. intros q [->|Hq]%elem_of_cons; unfold contains; [lia|].
  specialize (Hb q Hq). unfold before in Hb. destruct Hp as [[? [? ?]] _]. lia.
Qed.
Lemma find_in_right addr l1 p l2 :
  sorted_areas (l1 ++ p :: l2) → vm_end p.2 ≤ addr → find_in addr (l1 ++ p :: l2) = find_in addr l2.
Proof.
  intros (Hs1 & (Hp & Hs2 & Hb2)%sorted_cons & Hb)%sorted_app Hlt. rewrite find_in_app.
  destruct (find_in addr l1) as [v|] eqn:Hf.
  - exfalso. apply find_in_Some in Hf as (q & Hq & _ & Hc). specialize (Hb q p Hq ltac:(set_solver)).
    unfold before, contains in *. destruct Hp as [[? [? ?]] _]. lia.
  - simpl. rewrite decide_False; [done|]. unfold contains. lia.
Qed.

Definition node_of {K} (t : tree K) : option K := match t with E => None | T _ _ k _ => Some k end.
Lemma child_node s C c a k b (q : vnode) (tr : rb_tree vnode) :
  at_place tr (rbs s) q C (T c a k b) →
  rb_node_left tr k (rbs s) = Ok (node_of a, rbs s) ∧ rb_node_right tr k (rbs s) = Ok (node_of b, rbs s).
Proof.
  intros Hp. pose proof (place_node tr _ q C sleft c a k b Hp) as Hk. pose proof (place_distinct tr _ q C sleft c a k b Hp) as D.
  destruct (da_nils _ _ _ _ _ D) as (_ & Ha & Hb). unfold rb_node_left, rb_node_right.
  rewrite !(bind_ok _ _ _ _ _ (rd_ok _ _ _ _ Hk)). simpl. split; unfold mret, M_ret; do 2 f_equal.
  - destruct a; simpl in *; [by rewrite decide_False by auto|]. rewrite decide_True; [done|]. set_solver.
  - destruct b; simpl in *; [by rewrite decide_False by auto|]. rewrite decide_True; [done|]. set_solver.
Qed.

Lemma find_rb_loop fuel t addr s (q : vnode) C tt l :
  at_place (tree_of s t) (rbs s) q C tt → inorder tt = rb_link <$> l.*1 → sorted_areas l →
  (∀ p, p ∈ l → vmas s !! p.1 = Some p.2) → (height tt < fuel)%nat →
  loop fuel (find_rb_body t addr) (node_of tt) s = Ok (find_in addr l, s).
Proof.
  revert C tt l. induction fuel as [|fuel IH]; intros C tt l Hp Hi Hs Hv Hf; [lia|].
  destruct tt as [|c a k b].
  { simpl in Hi. symmetry in Hi. apply fmap_nil_inv, fmap_nil_inv in Hi as ->. by apply loop_stop. }
  destruct (child_node _ _ _ _ _ _ _ _ Hp) as [El Er].
  simpl in Hi. symmetry in Hi. rewrite <-list_fmap_compose in Hi. apply fmap_app_inv in Hi as (l1 & l2' & Hl1 & Hl2' & ->).
  symmetry in Hl2'. apply fmap_cons_inv in Hl2' as (p & l2 & -> & Hl2 & ->). rewrite list_fmap_compose in Hl1, Hl2.
  assert (Hb : find_rb_body t addr (Some (rb_link p.1)) s =
    (if addr <? vm_end p.2 then if vm_start p.2 <=? addr then mret (inr (Some p.1)) else n ← on_rbs (rb_node_left (tree_of s t) (rb_link p.1)); mret (inl n)
     else n ← on_rbs (rb_node_right (tree_of s t) (rb_link p.1)); mret (inl n) : M vst (option vnode + option Z)) s).
  { unfold find_rb_body. simpl rbn2vma. rewrite (bind_ok _ _ s p.1 s) by done.
    rewrite (bind_ok _ _ _ _ _ (get_vma_ok _ _ _ (Hv p ltac:(set_solver)))). by rewrite (bind_ok _ _ s s s). }
  simpl node_of in *. simpl in El, Er, Hf.
  pose proof Hs as (Hs1 & (Hpo & Hs2 & Hb2)%sorted_cons & Hb1)%sorted_app.
  destruct (Z.ltb_spec addr (vm_end p.2)) as [H1|H1]; [destruct (Z.leb_spec (vm_start p.2) addr) as [H2|H2]|].
  - rewrite (find_in_unique addr _ p Hs); [|set_solver|by unfold contains]. by apply loop_stop.
  - rewrite find_in_left by done.
    rewrite (loop_next _ _ _ _ (node_of a) s); [|by rewrite Hb, (bind_ok _ _ _ _ _ (on_rbs_read _ _ _ El))].
    apply (at_place_fill _ _ q C (Fr sleft c (rb_link p.1) b)) in Hp. apply (IH _ _ _ Hp); [done|done| |lia].
    intros p' Hp'. apply Hv. set_solver.
  - rewrite find_in_right by done.
    rewrite (loop_next _ _ _ _ (node_of b) s); [|by rewrite Hb, (bind_ok _ _ _ _ _ (on_rbs_read _ _ _ Er))].
    apply (at_place_fill _ _ q C (Fr sright c (rb_link p.1) a)) in Hp. apply (IH _ _ _ Hp); [done|done| |lia].
    intros p' Hp'. apply Hv. set_solver.
Qed.

Lemma find_vma_rb_ok t addr s l :
  holds_seq (tree_of s t) (rbs s) (rb_link <$> l.*1) → sorted_areas l → (∀ p, p ∈ l → vmas s !! p.1 = Some p.2) →
  find_vma_rb t addr s = Ok (find_in addr l, s).
Proof.
  intros (tt & (q & Hp) & _ & Hi) Hs Hv. unfold find_vma_rb. rewrite (bind_ok _ _ s s s) by done.
  assert (Er : rb_node_root (tree_of s t) (rbs s) = Ok (node_of tt, rbs s)).
  { unfold rb_node_root. rewrite (bind_ok _ _ _ _ _ (rd_root _ _ _ _ _ Hp)). simpl plug. unfold mret, M_ret. do 2 f_equal.
    destruct Hp as [_ _ _ Hnd]. apply NoDup_cons in Hnd as [Hn _]. destruct tt; simpl in *; [by rewrite decide_False by auto|].
    rewrite decide_True; [done|]. set_solver. }
  rewrite (bind_ok _ _ _ _ _ (on_rbs_read _ _ _ Er)).
  apply (find_rb_loop _ _ _ _ _ _ _ _ Hp); try done. pose proof (place_fuel _ _ _ _ _ Hp). simpl in *. lia.
Qed.

(** Steps along the list of an address space. *)
Definition pos (m : Z) (l : list entry) : vlink := cursor (mmap_list m) (list_link <$> l.*1).
Definition first (m : Z) (l : list entry) : vlink := match l with [] => mmap_list m | p :: _ => list_link p.1 end.
Lemma pos_snoc m l p : pos m (l ++ [p]) = list_link p.1.
Proof. unfold pos. rewrite !fmap_app. apply cursor_snoc. Qed.
Lemma first_default m l : first m l = default (mmap_list m) (head (list_link <$> l.*1)).
Proof. by destruct l. Qed.

Definition lists_ok s L m (l : list entry) : Prop := rep (vlinks s) L ∧ L !! mmap_list m = Some (list_link <$> l.*1).
Lemma lists_split s L m l1 l2 :
  lists_ok s L m (l1 ++ l2) → rep (vlinks s) L ∧ L !! mmap_list m = Some ((list_link <$> l1.*1) ++ (list_link <$> l2.*1)).
Proof. unfold lists_ok. by rewrite !fmap_app. Qed.
Lemma next_pos s L m l1 l2 : lists_ok s L m (l1 ++ l2) → on_vlinks (list_next (pos m l1)) s = Ok (first m l2, s).
Proof. intros [Hr HL]%lists_split. rewrite first_default. apply on_vlinks_read. by eapply list_next_cursor. Qed.
Lemma prev_first s L m l1 l2 : lists_ok s L m (l1 ++ l2) → on_vlinks (list_prev (first m l2)) s = Ok (pos m l1, s).
Proof. intros [Hr HL]%lists_split. rewrite first_default. apply on_vlinks_read. by eapply list_prev_cursor. Qed.
Lemma lists_size s L m l : lists_ok s L m l → (length l < size (vlinks s))%nat.
Proof. intros [Hr HL]. pose proof (rep_size _ _ _ _ Hr HL) as H. by rewrite !length_fmap in H. Qed.

Lemma find_list_loop fuel m addr s L l1 l2 :
  lists_ok s L m (l1 ++ l2) → (∀ p, p ∈ l1 ++ l2 → vmas s !! p.1 = Some p.2) → (length l2 < fuel)%nat →
  loop fuel (find_list_body m addr) (pos m l1) s = Ok (find_in addr l2, s).
Proof.
  revert fuel l1. induction l2 as [|p l2 IH]; intros [|fuel] l1 HL Hv Hf; try (simpl in Hf; lia).
  - apply loop_stop. unfold find_list_body. rewrite (bind_ok _ _ _ _ _ (next_pos _ _ _ _ _ HL)). simpl. by rewrite decide_True.
  - assert (Hb : find_list_body m addr (pos m l1) s =
      Ok (if decide (contains addr p.2) then inr (Some p.1) else inl (list_link p.1), s)).
    { unfold find_list_body. rewrite (bind_ok _ _ _ _ _ (next_pos _ _ _ _ _ HL)). simpl first.
      rewrite decide_False by done. simpl le2vma. rewrite (bind_ok _ _ s p.1 s) by done.
      rewrite (bind_ok _ _ _ _ _ (get_vma_ok _ _ _ (Hv p ltac:(set_solver)))).
      destruct (decide _) as [Hc|Hc]; destruct (Z.leb_spec (vm_start p.2) addr), (Z.ltb_spec addr (vm_end p.2)); simpl; try done;
        exfalso; unfold contains in Hc; lia. }
    simpl find_in. destruct (decide (contains addr p.2)); [by apply loop_stop|].
    rewrite (loop_next _ _ _ _ _ _ Hb), <-(pos_snoc m l1 p).
    apply IH; [by rewrite <-app_assoc|by rewrite <-app_assoc|simpl in Hf; lia].
Qed.

(** ** [find_vma] *)

(** Only caches differ. *)
Definition uncached (d : mm_struct) : mm_struct := d <| mmap_cache := None |>.
Definition quiet s s' : Prop :=
  ∃ M, s' = s <| mms := M |> ∧ ∀ m, uncached <$> M !! m = uncached <$> mms s !! m.

Lemma quiet_refl s : quiet s s.
Proof. exists (mms s). split; [by destruct s|done]. Qed.
Lemma quiet_trans s1 s2 s3 : quiet s1 s2 → quiet s2 s3 → quiet s1 s3.
Proof. intros (M1 & -> & H1) (M2 & -> & H2). exists M2. split; [done|]. intros m. by rewrite H2, H1. Qed.
Lemma quiet_mm s s' m d : quiet s s' → mms s !! m = Some d → ∃ d', mms s' !! m = Some d' ∧ uncached d' = uncached d.
Proof.
  intros (M & -> & HM) Hd. specialize (HM m). rewrite Hd in HM. apply fmap_Some in HM as (d' & Hd' & Heq). by exists d'.
Qed.

Lemma mm_lists s A L m l : vmm_inv s A L → A !! m = Some l → lists_ok s L m l.
Proof. intros Hi Hm. split; [apply Hi|]. by apply (lo_list _ _ _ (vi_links _ _ _ Hi)). Qed.

(** Writing the cache. *)
Lemma set_cache_inv s A L m l d v :
  vmm_inv s A L → A !! m = Some l → mms s !! m = Some d → v ∈ l.*1 →
  vmm_inv (s <| mms := <[m := d <| mmap_cache := Some v |>]> (mms s) |>) A L ∧
  quiet s (s <| mms := <[m := d <| mmap_cache := Some v |>]> (mms s) |>).
Proof.
  intros [Hlk Hdom Hmm Htr Hfr] Hm Hd Hv. split.
  - constructor; [destruct Hlk; by constructor| | | |].
    + simpl. rewrite dom_insert_lookup_L; [done|]. by eexists.
    + intros m' l' Hm'. destruct (Hmm m' l' Hm') as [Hvm Hnd Hs (d' & [H1 H2 H3 H4])]. constructor; [done..|].
      destruct (decide (m' = m)) as [->|Hne].
      * exists (d <| mmap_cache := Some v |>). simplify_eq. constructor; simpl; [by rewrite lookup_insert_eq|done|by intros ? [= <-]|done].
      * exists d'. constructor; simpl; [by rewrite lookup_insert_ne|done..].
    + intros m1 d1 m2 d2 t H1 H2 Ht1 Ht2. simpl in H1, H2.
      apply lookup_insert_Some in H1 as [[<- <-]|[Hn1 H1]], H2 as [[<- <-]|[Hn2 H2]]; eauto.
    + destruct Hfr as [Hf1 Hf2]. split; [done|]. intros m' d'. simpl. intros [[<- <-]|[_ H]]%lookup_insert_Some; eauto.
  - eexists. split; [done|]. intros m'. rewrite lookup_insert. case_decide; [subst; by rewrite Hd|done].
Qed.

Lemma find_vma_ok s A L m l addr :
  vmm_inv s A L → A !! m = Some l →
  ∃ s', find_vma (Some m) addr s = Ok (find_in addr l, s') ∧ vmm_inv s' A L ∧ quiet s s'.
Proof.
  intros Hi Hm. destruct (vi_mm _ _ _ Hi m l Hm) as [Hvm Hnd Hs (d & [Hd Hcnt Hca Htree])].
  assert (Hv : ∀ p, p ∈ l → vmas s !! p.1 = Some p.2) by (intros p Hp; apply Hvm, Hp).
  pose proof (mm_lists _ _ _ _ _ Hi Hm) as HL. pose proof (lists_size _ _ _ _ HL) as Hsz.
  unfold find_vma. rewrite (bind_ok _ _ _ _ _ (get_mm_ok _ _ _ Hd)).
  assert (∃ hit : bool, hits (mmap_cache d) addr s = Ok (hit, s) ∧ (hit = true → mmap_cache d = find_in addr l)) as (hit & Eh & Hhit).
  { unfold hits. destruct (mmap_cache d) as [v|]; [|by exists false].
    pose proof (Hca v eq_refl) as Hin. apply list_elem_of_fmap in Hin as (p & -> & Hp). rewrite (bind_ok _ _ _ _ _ (get_vma_ok _ _ _ (Hv p Hp))).
    eexists. split; [done|]. intros [?%Z.leb_le ?%Z.ltb_lt]%andb_true_iff. by rewrite (find_in_unique addr l p). }
  rewrite (bind_ok _ _ _ _ _ Eh).
  assert (E : (if hit then mret (mmap_cache d) else match mmap_tree d with
    | Some t => find_vma_rb t addr | None => list_walk (find_list_body m addr) (mmap_list m) end : M vst (option Z)) s = Ok (find_in addr l, s)).
  { destruct hit; [by rewrite <-Hhit|]. destruct (mmap_tree d) as [t|].
    - apply find_vma_rb_ok; [by apply Htree|done|done].
    - apply list_walk_ok. by apply (find_list_loop _ m addr s L [] l); [| |lia]. }
  rewrite (bind_ok _ _ _ _ _ E). destruct (find_in addr l) as [v|] eqn:Hf.
  - apply find_in_Some in Hf as (p & Hp & <- & _). rewrite (bind_ok _ _ _ _ _ (set_mm_ok _ _ _ _ Hd)).
    eexists. split; [done|]. eapply set_cache_inv; [done..|]. by apply list_elem_of_fmap_2.
  - eexists. split; [done|]. split; [done|apply quiet_refl].
Qed.
