(* ===== verification/VmmInsert.v ===== *)
(** * Inserting and removing an area

    [insert_vma_struct] puts an area that overlaps no other at its place in
    the list and in the tree, builds the tree when there are enough areas, and
    panics on an overlap; [remove_vma_struct] takes an area out. *)

From Stdlib Require Import Sorted.
From S2P Require Import Prelude DList RbTree RbRep RbInv RbInsert RbTreeSpec Vmm VmmInv.

(** A list is split in one way by a threshold. *)
Lemma threshold {X} (P : X → Prop) a b c d :
  Forall (λ x, ¬ P x) a → Forall P b → Forall (λ x, ¬ P x) c → Forall P d → a ++ b = c ++ d → a = c ∧ b = d.
Proof.
  revert c. induction a as [|x a IH]; intros [|y c] Ha Hb Hc Hd E; simplify_eq/=; [done| | |].
  - apply Forall_cons in Hb as [? _], Hc as [? _]. done.
  - apply Forall_cons in Ha as [? _], Hd as [? _]. done.
  - apply Forall_cons in Ha as [_ Ha], Hc as [_ Hc]. by destruct (IH c) as [-> ->].
Qed.

(** ** Rebuilding the invariant *)

Implicit Types (s : vst) (m v t addr start : Z) (x y : vma_struct) (p q : entry) (l : list entry)
  (A : gmap Z (list entry)) (L : gmap vlink (list vlink)).

(** What an operation on the address space [m] leaves alone. *)
Record framed s s' m : Prop := {
  fr_mms : ∀ m', m' ≠ m → mms s' !! m' = mms s !! m';
  fr_vmas : ∀ v x m', vmas s !! v = Some x → vm_mm x = Some m' → m' ≠ m →
    vmas s' !! v = Some x ∧ rbs s' !! rb_link v = rbs s !! rb_link v;
  fr_trees : ∀ m' d t, m' ≠ m → mms s !! m' = Some d → mmap_tree d = Some t →
    rbs s' !! tree_nil t = rbs s !! tree_nil t ∧ rbs s' !! tree_root t = rbs s !! tree_root t;
  fr_fresh : fresh s ≤ fresh s' ∧ (∀ v x, vmas s' !! v = Some x → v < fresh s');
  fr_dom : dom (mms s') = dom (mms s);
  fr_tree : ∀ d t, mms s' !! m = Some d → mmap_tree d = Some t →
    (∃ d0, mms s !! m = Some d0 ∧ mmap_tree d0 = Some t) ∨ fresh s ≤ t;
}.

Lemma mm_ok_frame s s' m m' l :
  framed s s' m → m' ≠ m → mm_ok s m' l → mm_ok s' m' l.
Proof.
  intros [F1 F2 F3 [F4 _] _ _] Hne [Hvm Hnd Hs (d & [Hd Hc Hca Ht])]. constructor; [|done|done|].
  - intros p Hp. destruct (Hvm p Hp) as (Hv & Hm & Hn). destruct (F2 _ _ _ Hv Hm Hne) as [-> ->]. done.
  - exists d. constructor; [by rewrite F1|done|done|]. intros t Htr. destruct (Ht t Htr) as [Hlt Hh]. split; [lia|].
    apply (holds_seq_compare (tree_of s t)); [done|done|]. apply (holds_seq_frame _ (rbs s)); [|done].
    intros n Hn. unfold footprint in Hn. apply elem_of_list_to_set in Hn. simpl in Hn.
    destruct (F3 m' d t Hne Hd Htr) as [Hn1 Hn2].
    apply elem_of_cons in Hn as [->|[->|Hn]%elem_of_cons]; [done|done|].
    apply list_elem_of_fmap in Hn as (v & -> & Hv). apply list_elem_of_fmap in Hv as (p & -> & Hp).
    destruct (Hvm p Hp) as (Hv & Hm & _). by destruct (F2 _ _ _ Hv Hm Hne).
Qed.

Lemma inv_update s s' A L L' m l l' :
  vmm_inv s A L → A !! m = Some l → framed s s' m →
  rep (vlinks s') L' → L' !! mmap_list m = Some (list_link <$> l'.*1) →
  (∀ m', m' ≠ m → L' !! mmap_list m' = L !! mmap_list m') →
  (∀ k ks e, L' !! k = Some ks → e ∈ k :: ks → link_fresh (fresh s') e) →
  mm_ok s' m l' → vmm_inv s' (<[m := l']> A) L'.
Proof.
  intros [[Hr Hl Hlf] Hdom Hmm Htr [Hf1 Hf2]] Hm F Hr' Hl' Hother Hlf' Hok. constructor.
  - constructor; [done| |done]. intros m' l0 [[<- <-]|[Hne Hm']]%lookup_insert_Some; [done|].
    rewrite Hother by done. by apply Hl.
  - rewrite (fr_dom _ _ _ F), Hdom, dom_insert_lookup_L; [done|]. by eexists.
  - intros m' l0 [[<- <-]|[Hne Hm']]%lookup_insert_Some; [done|]. eapply mm_ok_frame; [done..|]. by apply Hmm.
  - assert (Hold : ∀ m' d t, m' ≠ m → mms s' !! m' = Some d → mmap_tree d = Some t → mms s !! m' = Some d ∧ t < fresh s).
    { intros m' d t Hne Hd Ht. rewrite (fr_mms _ _ _ F) in Hd by done. split; [done|].
      assert (is_Some (A !! m')) as [l0 Hl0] by (apply elem_of_dom; rewrite <-Hdom; apply elem_of_dom; by eexists).
      destruct (mo_mm _ _ _ (Hmm _ _ Hl0)) as (d' & [Hd' _ _ Ht']). simplify_eq. by apply Ht'. }
    intros m1 d1 m2 d2 t H1 H2 Ht1 Ht2. destruct (decide (m1 = m)) as [->|N1], (decide (m2 = m)) as [->|N2]; [done| | |].
    + destruct (Hold _ _ _ N2 H2 Ht2) as [H2' Hlt]. destruct (fr_tree _ _ _ F _ _ H1 Ht1) as [(d0 & H0 & Ht0)|]; [eauto|lia].
    + destruct (Hold _ _ _ N1 H1 Ht1) as [H1' Hlt]. destruct (fr_tree _ _ _ F _ _ H2 Ht2) as [(d0 & H0 & Ht0)|]; [eauto|lia].
    + destruct (Hold _ _ _ N1 H1 Ht1), (Hold _ _ _ N2 H2 Ht2). eauto.
  - split; [apply F|]. intros m' d Hd. destruct (fr_fresh _ _ _ F) as [Hle _].
    assert (m' ∈ dom (mms s)) as [d' Hd']%elem_of_dom by (rewrite <-(fr_dom _ _ _ F); apply elem_of_dom; by eexists).
    specialize (Hf2 _ _ Hd'). lia.
Qed.

(** ** An area that is in no address space *)

Record loose s A L m v x : Prop := {
  lv_vma : vmas s !! v = Some x;
  lv_mm : ∀ m', vm_mm x = Some m' → m' = m;
  lv_link : unlisted L (list_link v);
  lv_node : is_Some (rbs s !! rb_link v);
}.
Lemma loose_notin s A L m v x m' l : vmm_inv s A L → loose s A L m v x → A !! m' = Some l → v ∉ l.*1.
Proof.
  intros Hi Hl Hm Hv. apply (lv_link _ _ _ _ _ _ Hl _ _ (lo_list _ _ _ (vi_links _ _ _ Hi) _ _ Hm)).
  apply elem_of_cons. right. by apply list_elem_of_fmap_2.
Qed.

(** The areas before and after the place of an area that starts at [start]. *)
Lemma place_split start l :
  sorted_areas l → ∃ l1 l2, l = l1 ++ l2 ∧ (∀ p, p ∈ l1 → vm_start p.2 ≤ start) ∧ (∀ p, p ∈ l2 → start < vm_start p.2).
Proof.
  induction l as [|p l IH]; intros Hs; [exists [], []; split_and!; [done|..]; intros p Hp; by apply elem_of_nil in Hp|].
  apply sorted_cons in Hs as (Hp & Hs & Hb). destruct (Z.ltb_spec start (vm_start p.2)) as [Hlt|Hge].
  - exists [], (p :: l). split_and!; [done|intros q Hq; by apply elem_of_nil in Hq|].
    intros q [->|Hq]%elem_of_cons; [done|]. specialize (Hb q Hq). unfold before in Hb. destruct Hp as [[? [? ?]] _]. lia.
  - destruct (IH Hs) as (l1 & l2 & -> & H1 & H2). exists (p :: l1), l2. split_and!; [done| |done].
    intros q [->|Hq]%elem_of_cons; [done|auto].
Qed.

(** ** The place in the list *)

Lemma place_loop fuel s L m start l1 l2 l3 :
  lists_ok s L m (l1 ++ l2 ++ l3) → (∀ p, p ∈ l1 ++ l2 ++ l3 → vmas s !! p.1 = Some p.2) →
  (∀ p, p ∈ l2 → vm_start p.2 ≤ start) → (∀ p, p ∈ l3 → start < vm_start p.2) → (length l2 < fuel)%nat →
  loop fuel (place_body m start) (pos m l1, pos m l1) s = Ok (pos m (l1 ++ l2), s).
Proof.
  revert fuel l1. induction l2 as [|p l2 IH]; intros [|fuel] l1 HL Hv H2 H3 Hf; try (simpl in Hf; lia).
  - apply loop_stop. unfold place_body. rewrite (bind_ok _ _ _ _ _ (next_pos _ _ _ _ _ HL)). rewrite app_nil_r.
    destruct l3 as [|q l3]; simpl first; [by rewrite decide_True|]. rewrite decide_False by done.
    simpl le2vma. rewrite (bind_ok _ _ s q.1 s) by done. rewrite (bind_ok _ _ _ _ _ (get_vma_ok _ _ _ (Hv q ltac:(set_solver)))).
    by rewrite (proj2 (Z.ltb_lt start (vm_start q.2)) (H3 q ltac:(set_solver))).
  - rewrite (loop_next _ _ _ _ (pos m (l1 ++ [p]), pos m (l1 ++ [p])) s).
    + assert (El : l1 ++ (p :: l2) = (l1 ++ [p]) ++ l2) by by rewrite <-app_assoc. rewrite El.
      apply IH; [by rewrite <-app_assoc|by rewrite <-app_assoc|set_solver|done|simpl in Hf; lia].
    + unfold place_body. rewrite (bind_ok _ _ _ _ _ (next_pos _ _ _ _ _ HL)). simpl first. rewrite decide_False by done.
      simpl le2vma. rewrite (bind_ok _ _ s p.1 s) by done. rewrite (bind_ok _ _ _ _ _ (get_vma_ok _ _ _ (Hv p ltac:(set_solver)))).
      rewrite (proj2 (Z.ltb_ge start (vm_start p.2)) (H2 p ltac:(set_solver))). by rewrite pos_snoc.
Qed.

(** ** The place in the tree *)

Lemma compare_pos h v1 v2 x y :
  h !! v1 = Some x → h !! v2 = Some y → 0 < vma_compare h (rb_link v1) (rb_link v2) ↔ vm_start y < vm_start x.
Proof. intros H1 H2. unfold vma_compare. rewrite H1, H2. destruct (Z.ltb_spec (vm_start x) (vm_start y)), (Z.ltb_spec (vm_start y) (vm_start x)); lia. Qed.

Lemma tree_place s t v x l1 l2 :
  sorted_areas (l1 ++ l2) → (∀ p, p ∈ l1 ++ l2 → vmas s !! p.1 = Some p.2) → vmas s !! v = Some x →
  v ∉ (l1 ++ l2).*1 → is_Some (rbs s !! rb_link v) →
  (∀ p, p ∈ l1 → vm_start p.2 ≤ vm_start x) → (∀ p, p ∈ l2 → vm_start x < vm_start p.2) →
  holds_seq (tree_of s t) (rbs s) (rb_link <$> (l1 ++ l2).*1) →
  ∃ h, rb_insert (tree_of s t) (rb_link v) (rbs s) = Ok (tt, h) ∧
    holds_seq (tree_of s t) h ((rb_link <$> l1.*1) ++ rb_link v :: (rb_link <$> l2.*1)) ∧
    (∀ n, n ≠ rb_link v → n ∉ footprint (tree_of s t) (rb_link <$> (l1 ++ l2).*1) → h !! n = rbs s !! n).
Proof.
  intros Hs Hv Hx Hnin Hnode H1 H2 Hh. set (P := λ n, 0 < compare (tree_of s t) n (rb_link v)).
  assert (HP : ∀ p, p ∈ l1 ++ l2 → P (rb_link p.1) ↔ vm_start x < vm_start p.2).
  { intros p Hp. unfold P. simpl. apply compare_pos; [by apply Hv|done]. }
  assert (HF1 : Forall (λ n, ¬ P n) (rb_link <$> l1.*1)).
  { apply Forall_forall. intros n Hn. apply list_elem_of_fmap in Hn as (v' & -> & Hn). apply list_elem_of_fmap in Hn as (p & -> & Hp).
    rewrite HP by set_solver. specialize (H1 p Hp). lia. }
  assert (HF2 : Forall P (rb_link <$> l2.*1)).
  { apply Forall_forall. intros n Hn. apply list_elem_of_fmap in Hn as (v' & -> & Hn). apply list_elem_of_fmap in Hn as (p & -> & Hp).
    apply HP; [set_solver|]. by apply H2. }
  destruct (rb_insert_spec (tree_of s t) (rbs s) (rb_link <$> (l1 ++ l2).*1) (rb_link v) Hh Hnode) as (h & a & b & E & Hab & Hh' & Ha & Hb & Hfr); [done|done| | |].
  - intros Hn. apply list_elem_of_fmap in Hn as (v' & [= <-] & Hn). done.
  - rewrite !fmap_app. intros a n b Hab HPn. apply app_eq_inv in Hab as [(c & Hc1 & Hc)|(c & Hc1 & Hc)].
    + rewrite Hc1 in HF1. destruct c as [|n' c]; simpl in Hc.
      * rewrite <-Hc in HF2. by apply Forall_cons in HF2 as [_ ?].
      * injection Hc as -> ->. exfalso. rewrite Forall_forall in HF1. apply (HF1 n'); [set_solver|done].
    + rewrite Hc in HF2. apply Forall_app in HF2 as [_ HF2]. by apply Forall_cons in HF2 as [_ ?].
  - rewrite !fmap_app in Hab. destruct (threshold P _ _ _ _ HF1 HF2 Ha Hb Hab) as [<- <-].
    exists h. split; [done|]. split; [done|]. intros n Hn Hf. apply Hfr. unfold footprint in *. set_solver.
Qed.

(** ** Building the tree *)

(** Everything but the areas, lists and trees; of the answers of [kmalloc] some
    are used up. *)
Definition meta (d : mm_struct) : mm_struct := d <| mmap_tree := None |> <| mmap_cache := None |> <| map_count := 0 |>.
Record kept s s' : Prop := {
  kp_shmems : shmems s' = shmems s;
  kp_events : events s' = events s;
  kp_copies : copies s' = copies s;
  kp_oom : ∃ k, oom s' = drop k (oom s);
  kp_mms : ∀ m, meta <$> mms s' !! m = meta <$> mms s !! m;
}.
Lemma kept_refl s : kept s s.
Proof. constructor; [done..|by exists 0%nat|done]. Qed.
Lemma kept_trans s1 s2 s3 : kept s1 s2 → kept s2 s3 → kept s1 s3.
Proof.
  intros [H1 H2 H3 [k Hk] H4] [G1 G2 G3 [k' Hk'] G4]. constructor; [congruence..| |congruence].
  exists (k + k')%nat. by rewrite Hk', Hk, drop_drop.
Qed.
Lemma kept_mm s s' m d : kept s s' → mms s !! m = Some d → ∃ d', mms s' !! m = Some d' ∧ meta d' = meta d.
Proof. intros [_ _ _ _ Hk] Hd. specialize (Hk m). rewrite Hd in Hk. apply fmap_Some in Hk as (d' & ? & ?). by exists d'. Qed.
Lemma quiet_kept s s' : quiet s s' → kept s s'.
Proof.
  intros (M & -> & HM). constructor; [done..|by exists 0%nat|]. intros m. simpl. specialize (HM m).
  destruct (M !! m), (mms s !! m); simpl in *; simplify_eq; [|done]. f_equal. unfold meta, uncached in *. simpl in *. congruence.
Qed.
Lemma kept_mms s s' m d d' :
  mms s !! m = Some d → meta d' = meta d → shmems s' = shmems s → events s' = events s → copies s' = copies s →
  (∃ k, oom s' = drop k (oom s)) → mms s' = <[m := d']> (mms s) → kept s s'.
Proof.
  intros Hd Hm H1 H2 H3 Ho H4. constructor; [done..|]. intros m'. rewrite H4, lookup_insert. case_decide; [subst; rewrite Hd; simpl; by f_equal|done].
Qed.

Lemma insert_vma_rb_ok s t v h :
  rb_insert (tree_of s t) (rb_link v) (rbs s) = Ok (tt, h) → insert_vma_rb t v false s = Ok (None, s <| rbs := h |>).
Proof. intros E. unfold insert_vma_rb. rewrite (bind_ok _ _ s s s) by done. by rewrite (bind_ok _ _ _ _ _ (on_rbs_ok _ _ _ _ E)). Qed.

Lemma build_loop fuel s L m t l1 l2 :
  lists_ok s L m (l1 ++ l2) → (∀ p, p ∈ l1 ++ l2 → vmas s !! p.1 = Some p.2 ∧ is_Some (rbs s !! rb_link p.1)) →
  sorted_areas (l1 ++ l2) → NoDup (l1 ++ l2).*1 → holds_seq (tree_of s t) (rbs s) (rb_link <$> l1.*1) → (length l2 < fuel)%nat →
  ∃ h, loop fuel (build_tree_body m t) (pos m l1) s = Ok (tt, s <| rbs := h |>) ∧
    holds_seq (tree_of s t) h (rb_link <$> (l1 ++ l2).*1) ∧
    (∀ n, n ∉ footprint (tree_of s t) (rb_link <$> (l1 ++ l2).*1) → h !! n = rbs s !! n).
Proof.
  revert fuel s l1. induction l2 as [|p l2 IH]; intros [|fuel] s l1 HL Hv Hs Hnd Hh Hf; try (simpl in Hf; lia).
  - exists (rbs s). rewrite app_nil_r. split; [|done]. apply loop_stop. unfold build_tree_body.
    rewrite (bind_ok _ _ _ _ _ (next_pos _ _ _ _ _ HL)). simpl. rewrite decide_True by done. by destruct s.
  - pose proof Hs as (Hs1 & (Hpo & Hs2 & Hb2)%sorted_cons & Hb)%sorted_app. destruct (Hv p ltac:(set_solver)) as [Hvp Hnp].
    assert (Hn1 : p.1 ∉ l1.*1).
    { rewrite fmap_app in Hnd. apply NoDup_app in Hnd as (_ & Hd & _). intros Hin. apply (Hd _ Hin). set_solver. }
    destruct (tree_place s t p.1 p.2 l1 []) as (h & E & Hh' & Hfr); rewrite ?app_nil_r; try done.
    { intros q Hq. apply Hv. set_solver. }
    { intros q Hq. specialize (Hb q p Hq ltac:(set_solver)). unfold before in Hb. assert (area_ok q.2) as [[? [? ?]] _]; [|lia].
      by apply (sorted_in l1). }
    { intros q Hq. by apply elem_of_nil in Hq. }
    rewrite app_nil_r in Hfr. assert (El : l1 ++ p :: l2 = (l1 ++ [p]) ++ l2) by by rewrite <-app_assoc.
    destruct (IH fuel (s <| rbs := h |>) (l1 ++ [p])) as (h' & E' & Hh2 & Hfr2).
    + by rewrite <-El.
    + rewrite <-El. intros q Hq. destruct (Hv q Hq) as [Hvq Hnq]. split; [done|]. simpl.
      destruct (decide (rb_link q.1 ∈ (rb_link <$> l1.*1) ++ [rb_link p.1])) as [Hin|Hin].
      * eapply holds_seq_dom; [exact Hh'|exact Hin].
      * rewrite Hfr; [done|intros [= Heq]; apply Hin; rewrite Heq; set_solver|]. unfold footprint. simpl. set_solver.
    + by rewrite <-El.
    + by rewrite <-El.
    + rewrite !fmap_app. exact Hh'.
    + simpl in Hf. lia.
    + exists h'. split; [|split].
      * rewrite (loop_next _ _ _ _ (pos m (l1 ++ [p])) (s <| rbs := h |>)); [exact E'|].
        unfold build_tree_body. rewrite (bind_ok _ _ _ _ _ (next_pos _ _ _ _ _ HL)). simpl first. rewrite decide_False by done.
        simpl le2vma. rewrite (bind_ok _ _ s p.1 s) by done. rewrite (bind_ok _ _ _ _ _ (insert_vma_rb_ok _ _ _ _ E)). by rewrite pos_snoc.
      * rewrite El. exact Hh2.
      * intros n Hn. rewrite <-El in Hfr2. rewrite (Hfr2 n Hn). simpl.
        apply Hfr; [intros ->; apply Hn|revert Hn]; unfold footprint; rewrite !fmap_app; simpl; set_solver.
Qed.

(** [kmalloc] answers a new name or runs out of memory. *)
Definition alloc_ok s s' (r : option Z) : Prop :=
  s' = match r with None => s <| oom := tail (oom s) |> | Some _ => s <| oom := tail (oom s) |> <| fresh := fresh s + 1 |> end ∧
  r = match head (oom s) with Some true => None | _ => Some (fresh s) end.
Lemma kmalloc_new s : ∃ r s', kmalloc s = Ok (r, s') ∧ alloc_ok s s' r.
Proof. unfold kmalloc, alloc_ok. destruct (oom s) as [|[] os] eqn:E; do 2 eexists; (split; [done|]); simpl; by rewrite ?E. Qed.

Lemma rb_tree_create_vma_ok s :
  ∃ r o n h, rb_tree_create_vma s = Ok (r, s <| oom := o |> <| fresh := n |> <| rbs := h |>) ∧ (∃ k, o = drop k (oom s)) ∧ fresh s ≤ n ∧
    (∀ k, k ≠ tree_nil (fresh s) → k ≠ tree_root (fresh s) → h !! k = rbs s !! k) ∧
    match r with None => True | Some t => t = fresh s ∧ t < n ∧ holds_seq (tree_of s t) h [] end.
Proof.
  unfold rb_tree_create_vma. destruct (kmalloc_new s) as (r1 & s1 & E1 & Hs1 & Hr1). rewrite (bind_ok _ _ _ _ _ E1).
  destruct r1 as [t|].
  2:{ exists None, (tail (oom s)), (fresh s), (rbs s). subst s1. split; [by destruct s|]. split; [exists 1%nat; by destruct (oom s)|]. split; [lia|]. done. }
  assert (t = fresh s) as -> by (destruct (head (oom s)) as [[]|]; congruence).
  destruct (kmalloc_new s1) as (r2 & s2 & E2 & Hs2 & Hr2). rewrite (bind_ok _ _ _ _ _ E2). destruct r2 as [a|].
  2:{ simpl. rewrite (bind_ok _ _ s2 None s2) by done. rewrite (bind_ok _ _ s2 s2 s2) by done. simpl.
      exists None, (oom s2), (fresh s2), (rbs s). subst s2 s1. split; [by destruct s|]. split; [exists 2%nat; by destruct (oom s) as [|? []]|]. simpl. split; [lia|]. done. }
  destruct (kmalloc_new s2) as (r3 & s3 & E3 & Hs3 & Hr3). rewrite (bind_ok _ _ _ _ _ E3). rewrite (bind_ok _ _ s3 s3 s3) by done.
  assert (∃ k, oom s3 = drop k (oom s)) as H3.
  { exists 3%nat. subst s3 s2 s1. destruct r3; simpl; by destruct (oom s) as [|? [|? []]]. }
  destruct r3 as [b|].
  - set (h := <[tree_root (fresh s) := mk_rb false (tree_nil (fresh s)) (tree_nil (fresh s)) (tree_nil (fresh s))]>
      (<[tree_nil (fresh s) := mk_rb false (tree_nil (fresh s)) (tree_nil (fresh s)) (tree_nil (fresh s))]> (rbs s))).
    exists (Some (fresh s)), (oom s3), (fresh s3), h.
    split; [subst s3 s2 s1; by destruct s|]. split; [exact H3|]. split; [subst s3 s2 s1; simpl; lia|]. split; [|split_and!; [done|subst s3 s2 s1; simpl; lia|]].
    + intros k Hk1 Hk2. unfold h. by rewrite !lookup_insert_ne by done.
    + apply empty_holds; [done| |]; unfold h; simpl; [|by rewrite lookup_insert_eq]. by rewrite lookup_insert_ne, lookup_insert_eq by done.
  - exists None, (oom s3), (fresh s3), (delete (tree_nil (fresh s)) (<[tree_nil (fresh s) := mk_rb false (tree_nil (fresh s)) (tree_nil (fresh s)) (tree_nil (fresh s))]> (rbs s))).
    split; [subst s3 s2 s1; by destruct s|]. split; [exact H3|]. split; [subst s3 s2 s1; simpl; lia|]. split; [|done].
    intros k Hk1 _. by rewrite lookup_delete_ne, lookup_insert_ne by done.
Qed.

(** What a change of the state does not touch beyond [m]'s tree. *)
Lemma grow_tree_ok s A L m l :
  vmm_inv s A L → A !! m = Some l →
  ∃ s', grow_tree m s = Ok (tt, s') ∧ vmm_inv s' A L ∧ kept s s' ∧ vmas s' = vmas s ∧ vlinks s' = vlinks s ∧ fresh s ≤ fresh s' ∧
    (∀ v, is_Some (rbs s !! rb_link v) → is_Some (rbs s' !! rb_link v)).
Proof.
  intros Hi Hm. pose proof (vi_mm _ _ _ Hi m l Hm) as [Hvm Hnd Hs (d & [Hd Hcnt Hca Htree])].
  unfold grow_tree. rewrite (bind_ok _ _ _ _ _ (get_mm_ok _ _ _ Hd)). destruct (bool_decide _ && _) eqn:Hc.
  2:{ exists s. split; [done|]. split; [done|]. split; [apply kept_refl|]. split_and!; [done|done|lia|done]. }
  apply andb_true_iff in Hc as [Hnone%bool_decide_eq_true _].
  destruct (rb_tree_create_vma_ok s) as (r & o & n & h & E & Ho & Hn & Hh & Hr). rewrite (bind_ok _ _ _ _ _ E).
  set (s1 := s <| oom := o |> <| fresh := n |> <| rbs := h |>).
  rewrite (bind_ok _ _ _ _ _ (set_mm_ok s1 m d _ Hd)). set (d' := d <| mmap_tree := r |>).
  set (s2 := s1 <| mms := <[m := d']> (mms s1) |>).
  assert (HL : lists_ok s2 L m l) by by apply (mm_lists s A).
  assert (Hnode : ∀ v, rbs s2 !! rb_link v = rbs s !! rb_link v) by (intros v; by apply Hh).
  assert (Hdom : dom (<[m := d']> (mms s)) = dom (mms s)) by (rewrite dom_insert_lookup_L; [done|by eexists]).
  assert (Hbuild : ∃ h', (match r with Some t => list_walk (build_tree_body m t) (mmap_list m) | None => mret tt end) s2 = Ok (tt, s2 <| rbs := h' |>) ∧
    (∀ t, r = Some t → holds_seq (tree_of s t) h' (rb_link <$> l.*1)) ∧
    (∀ v, v ∉ l.*1 → h' !! rb_link v = rbs s !! rb_link v) ∧
    (∀ t, r ≠ Some t → t ≠ fresh s → h' !! tree_nil t = rbs s !! tree_nil t ∧ h' !! tree_root t = rbs s !! tree_root t) ∧
    (∀ v, is_Some (rbs s !! rb_link v) → is_Some (h' !! rb_link v))).
  { destruct r as [t|].
    - destruct Hr as (-> & Hlt & Hh0).
      destruct (build_loop (S (size (vlinks s2))) s2 L m (fresh s) [] l) as (h' & E' & Hh' & Hfr); try done.
      { intros p Hp. rewrite Hnode. destruct (Hvm p Hp) as (? & _ & ?). done. }
      { pose proof (lists_size _ _ _ _ HL). lia. }
      exists h'. split; [exact E'|]. split; [by intros t [= <-]|].
      assert (Hout : ∀ k, k ∉ footprint (tree_of s2 (fresh s)) (rb_link <$> l.*1) → k ≠ tree_nil (fresh s) → k ≠ tree_root (fresh s) → h' !! k = rbs s !! k).
      { intros k Hk H1 H2. rewrite (Hfr k Hk). by apply Hh. }
      assert (Hl : ∀ v, v ∉ l.*1 → h' !! rb_link v = rbs s !! rb_link v).
      { intros v Hv. apply Hout; [|done|done]. unfold footprint. simpl. rewrite !elem_of_union, !elem_of_singleton, elem_of_list_to_set.
        intros [?|[?|Hin]]; [done|done|]. apply list_elem_of_fmap in Hin as (v' & [= <-] & ?). done. }
      split; [done|]. split.
      + intros t Ht Htf. split; apply Hout; try congruence; unfold footprint; simpl;
          rewrite !elem_of_union, !elem_of_singleton, elem_of_list_to_set; (intros [?|[?|Hin]]; [congruence|congruence|]);
          by apply list_elem_of_fmap in Hin as (v' & ? & ?).
      + intros v Hv. destruct (decide (v ∈ l.*1)) as [Hin|Hin]; [|by rewrite Hl].
        eapply holds_seq_dom; [exact Hh'|]. by apply list_elem_of_fmap_2.
    - exists h. split; [by destruct s|]. split; [done|]. split; [intros v _; by apply Hh|]. split; [|intros v; by rewrite Hh].
      intros t _ Ht. split; apply Hh; congruence. }
  destruct Hbuild as (h' & E' & Ht' & Hout & Htr & Hsome). exists (s2 <| rbs := h' |>). split; [exact E'|].
  assert (F : framed s (s2 <| rbs := h' |>) m).
  { constructor.
    - intros m' Hne. simpl. by rewrite lookup_insert_ne.
    - intros v x m' Hv Hx Hne. split; [done|]. simpl. apply Hout. intros Hin. apply list_elem_of_fmap in Hin as (p & -> & Hp).
      destruct (Hvm p Hp) as (? & ? & _). congruence.
    - intros m' d0 t Hne Hd0 Ht0. simpl. apply Htr.
      + intros ->. destruct Hr as (-> & _). assert (is_Some (A !! m')) as [l' Hl'].
        { apply elem_of_dom. rewrite <-(vi_dom _ _ _ Hi). apply elem_of_dom. by eexists. }
        destruct (mo_mm _ _ _ (vi_mm _ _ _ Hi _ _ Hl')) as (d1 & [Hd1 _ _ Ht1]). simplify_eq. destruct (Ht1 _ Ht0). lia.
      + assert (is_Some (A !! m')) as [l' Hl'].
        { apply elem_of_dom. rewrite <-(vi_dom _ _ _ Hi). apply elem_of_dom. by eexists. }
        destruct (mo_mm _ _ _ (vi_mm _ _ _ Hi _ _ Hl')) as (d1 & [Hd1 _ _ Ht1]). simplify_eq. destruct (Ht1 _ Ht0). lia.
    - simpl. split; [done|]. intros v x Hv. destruct (vi_fresh _ _ _ Hi) as [Hf _]. specialize (Hf _ _ Hv). lia.
    - exact Hdom.
    - intros d0 t. simpl. rewrite lookup_insert_eq. intros [= <-] Ht0. simpl in Ht0. right. rewrite Ht0 in Hr. destruct Hr as [-> _]. lia. }
  assert (Hd2 : mms (s2 <| rbs := h' |>) !! m = Some d') by (simpl; by rewrite lookup_insert_eq).
  split; [|split; [|split_and!; [done|done|done|done]]].
  - rewrite <-(insert_id A m l Hm). apply (inv_update s _ A L L m l l); try done.
    + apply (lo_rep _ _ _ (vi_links _ _ _ Hi)).
    + apply HL.
    + intros k ks e Hk He. pose proof (lo_fresh _ _ _ (vi_links _ _ _ Hi) k ks e Hk He) as Hf. simpl. destruct e; simpl in *; lia.
    + constructor; [|done|done|].
      * intros p Hp. destruct (Hvm p Hp) as (? & ? & ?). split_and!; [done|done|]. by apply Hsome.
      * exists d'. constructor; [done|done|done|]. intros t Ht. simpl in Ht. split; [|by apply Ht'].
        rewrite Ht in Hr. destruct Hr as (_ & ? & _). done.
  - apply (kept_mms _ _ m d d'); (done || exact Ho).
Qed.

(** ** [insert_vma_struct] *)

Lemma starts_of_fits l1 l2 x :
  sorted_areas (l1 ++ l2) → area_ok x → (∀ p, p ∈ l1 → vm_end p.2 ≤ vm_start x) → (∀ p, p ∈ l2 → vm_end x ≤ vm_start p.2) →
  (∀ p, p ∈ l1 → vm_start p.2 ≤ vm_start x) ∧ (∀ p, p ∈ l2 → vm_start x < vm_start p.2).
Proof.
  intros (Hs1 & Hs2 & _)%sorted_app [Hx _] Hf1 Hf2. split; intros p Hp.
  - specialize (Hf1 p Hp). destruct (sorted_in l1 p Hs1 Hp) as [? _]. lia.
  - specialize (Hf2 p Hp). lia.
Qed.
Lemma sorted_insert l1 l2 p :
  sorted_areas (l1 ++ l2) → area_ok p.2 → (∀ q, q ∈ l1 → before q p) → (∀ q, q ∈ l2 → before p q) → sorted_areas (l1 ++ p :: l2).
Proof.
  intros (Hs1 & Hs2 & Hb)%sorted_app Hp H1 H2. apply sorted_app. split; [done|]. split; [by apply sorted_cons|].
  intros q r Hq [->|Hr]%elem_of_cons; auto.
Qed.

(** The place of the new area; the tree already holds it. *)
Lemma area_place s A L m d l1 l2 v x :
  vmm_inv s A L → A !! m = Some (l1 ++ l2) → mm_fields m d s (l1 ++ l2) → loose s A L m v x →
  (∀ p, p ∈ l1 → vm_start p.2 ≤ vm_start x) → (∀ p, p ∈ l2 → vm_start x < vm_start p.2) →
  ∃ h, (match mmap_tree d with
        | Some t => mmap_prev ← insert_vma_rb t v true;
            mret (match mmap_prev with Some p => list_link p | None => mmap_list m end)
        | None => list_walk (place_body m (vm_start x)) (mmap_list m, mmap_list m) end : M vst vlink) s = Ok (pos m l1, s <| rbs := h |>) ∧
    (∀ t, mmap_tree d = Some t → holds_seq (tree_of s t) h ((rb_link <$> l1.*1) ++ rb_link v :: (rb_link <$> l2.*1))) ∧
    (∀ v', v' ∉ v :: (l1 ++ l2).*1 → h !! rb_link v' = rbs s !! rb_link v') ∧
    (∀ t, mmap_tree d ≠ Some t → h !! tree_nil t = rbs s !! tree_nil t ∧ h !! tree_root t = rbs s !! tree_root t) ∧
    (∀ v', is_Some (rbs s !! rb_link v') → is_Some (h !! rb_link v')).
Proof.
  intros Hi Hm [Hd _ _ Htree] Hl H1 H2. pose proof (vi_mm _ _ _ Hi _ _ Hm) as [Hvm Hnd Hs _].
  pose proof (mm_lists _ _ _ _ _ Hi Hm) as HL. assert (Hv : ∀ p, p ∈ l1 ++ l2 → vmas s !! p.1 = Some p.2) by (intros p Hp; apply Hvm, Hp).
  pose proof (loose_notin _ _ _ _ _ _ _ _ Hi Hl Hm) as Hnin. destruct (mmap_tree d) as [t|].
  - destruct (Htree t eq_refl) as [_ Hh].
    destruct (tree_place s t v x l1 l2) as (h & E & Hh' & Hfr); try done; [apply Hl|apply Hl|]. exists h.
    split; [|split; [by intros t' [= <-]|split; [|split]]].
    + unfold insert_vma_rb. rewrite (bind_ok _ _ _ (last l1.*1) (s <| rbs := h |>)).
      { unfold mret, M_ret. do 2 f_equal. unfold pos, cursor. rewrite !fmap_last. by destruct (last l1). }
      rewrite (bind_ok _ _ s s s) by done. rewrite (bind_ok _ _ _ _ _ (on_rbs_ok _ _ _ _ E)).
      pose proof (rb_node_prev_ok (tree_of s t) h _ _ _ Hh') as Ep.
      rewrite (bind_ok _ _ (s <| rbs := h |>) (last (rb_link <$> l1.*1)) (s <| rbs := h |>)) by (by apply on_rbs_read).
      rewrite !fmap_last. by destruct (last l1).
    + intros v' Hv'. apply Hfr; [intros [= ->]; set_solver|]. unfold footprint. simpl.
      rewrite !elem_of_union, !elem_of_singleton, elem_of_list_to_set. intros [?|[?|Hin]]; [done|done|].
      apply list_elem_of_fmap in Hin as (v0 & [= <-] & ?). set_solver.
    + intros t' Ht'. split; apply Hfr; try done; unfold footprint; simpl; rewrite !elem_of_union, !elem_of_singleton, elem_of_list_to_set;
        (intros [?|[?|Hin]]; [congruence|congruence|]); by apply list_elem_of_fmap in Hin as (v0 & ? & ?).
    + intros v' Hv'. destruct (decide (v' ∈ v :: (l1 ++ l2).*1)) as [Hin|Hin].
      * eapply holds_seq_dom; [exact Hh'|]. rewrite fmap_app in Hin.
        rewrite elem_of_app, elem_of_cons. apply elem_of_cons in Hin as [->|Hin]; [by right; left|].
        apply elem_of_app in Hin as [Hin|Hin]; [left|right; right]; by apply list_elem_of_fmap_2.
      * rewrite Hfr; [done|intros [= ->]; set_solver|]. unfold footprint. simpl.
        rewrite !elem_of_union, !elem_of_singleton, elem_of_list_to_set. intros [?|[?|Hin']]; [done|done|].
        apply list_elem_of_fmap in Hin' as (v0 & [= <-] & ?). set_solver.
  - exists (rbs s). split; [|done]. rewrite (list_walk_ok _ _ _ (Ok (pos m l1, s))); [by destruct s|].
    apply (place_loop _ s L m (vm_start x) [] l1 l2); try done. pose proof (lists_size _ _ _ _ HL) as Hsz. rewrite length_app in Hsz. lia.
Qed.

Lemma check_overlap_ok s v1 v2 x y :
  vmas s !! v1 = Some x → vmas s !! v2 = Some y → vm_start x < vm_end x → vm_start y < vm_end y →
  check_vma_overlap v1 v2 s = if vm_end x <=? vm_start y then Ok (tt, s) else Err Panic.
Proof.
  intros H1 H2 Hx Hy. unfold check_vma_overlap. rewrite (bind_ok _ _ _ _ _ (get_vma_ok _ _ _ H1)), (bind_ok _ _ _ _ _ (get_vma_ok _ _ _ H2)).
  rewrite (bind_ok _ _ s tt s) by (unfold assert; by rewrite (proj2 (Z.ltb_lt (vm_start x) (vm_end x)) Hx)).
  destruct (vm_end x <=? vm_start y); [|done]. rewrite (bind_ok _ _ s tt s) by done.
  unfold assert. by rewrite (proj2 (Z.ltb_lt (vm_start y) (vm_end y)) Hy).
Qed.

(** The two checks look at the neighbours only. *)
Lemma check_neighbours s m v x l1 l2 :
  (∀ p, p ∈ l1 ++ l2 → vmas s !! p.1 = Some p.2) → vmas s !! v = Some x → sorted_areas (l1 ++ l2) → vm_start x < vm_end x →
  (_ ← (if decide (pos m l1 ≠ mmap_list m) then p ← le2vma (pos m l1); check_vma_overlap p v else mret tt);
   (if decide (first m l2 ≠ mmap_list m) then n ← le2vma (first m l2); check_vma_overlap v n else mret tt) : M vst unit) s =
  if bool_decide (Forall (λ p, vm_end p.2 ≤ vm_start x) l1 ∧ Forall (λ p, vm_end x ≤ vm_start p.2) l2) then Ok (tt, s) else Err Panic.
Proof.
  intros Hv Hx (Hs1 & Hs2 & _)%sorted_app Hlt.
  assert (E1 : (if decide (pos m l1 ≠ mmap_list m) then p ← le2vma (pos m l1); check_vma_overlap p v else mret tt : M vst unit) s =
    if bool_decide (Forall (λ p, vm_end p.2 ≤ vm_start x) l1) then Ok (tt, s) else Err Panic).
  { destruct l1 as [|p l1 _] using rev_ind; [by rewrite decide_False by auto|]. rewrite pos_snoc, decide_True by done.
    simpl le2vma. rewrite (bind_ok _ _ s p.1 s) by done. apply sorted_app in Hs1 as (Hs1 & Hp & Hb).
    apply sorted_cons in Hp as (Hp & _). pose proof (ao_range _ Hp) as [? [? ?]].
    rewrite (check_overlap_ok s _ _ p.2 x) by (done || apply Hv; set_solver).
    destruct (Z.leb_spec (vm_end p.2) (vm_start x)) as [Hle|Hgt].
    - rewrite bool_decide_true; [done|]. apply Forall_app. split; [|by constructor].
      apply Forall_forall. intros q Hq. specialize (Hb q p Hq ltac:(set_solver)). unfold before in Hb. simpl. lia.
    - rewrite bool_decide_false; [done|]. intros [_ [Hf _]%Forall_cons]%Forall_app. simpl in Hf. lia. }
  assert (E2 : (if decide (first m l2 ≠ mmap_list m) then n ← le2vma (first m l2); check_vma_overlap v n else mret tt : M vst unit) s =
    if bool_decide (Forall (λ p, vm_end x ≤ vm_start p.2) l2) then Ok (tt, s) else Err Panic).
  { destruct l2 as [|p l2]; [by rewrite decide_False by auto|]. simpl first. rewrite decide_True by done.
    simpl le2vma. rewrite (bind_ok _ _ s p.1 s) by done.
    apply sorted_cons in Hs2 as (Hp & Hs2 & Hb). pose proof (ao_range _ Hp) as [? [? ?]].
    rewrite (check_overlap_ok s _ _ x p.2) by (done || apply Hv; set_solver).
    destruct (Z.leb_spec (vm_end x) (vm_start p.2)) as [Hle|Hgt].
    - rewrite bool_decide_true; [done|]. constructor; [done|].
      apply Forall_forall. intros q Hq. specialize (Hb q Hq). unfold before in Hb. simpl. lia.
    - rewrite bool_decide_false; [done|]. intros [Hf _]%Forall_cons. simpl in Hf. lia. }
  destruct (decide (Forall (λ p, vm_end p.2 ≤ vm_start x) l1)) as [F1|F1].
  - rewrite (bool_decide_true _ F1) in E1. rewrite (bind_ok _ _ _ _ _ E1), E2. erewrite bool_decide_ext; [done|]. tauto.
  - rewrite (bool_decide_false _ F1) in E1. rewrite (bind_err _ _ _ _ E1), bool_decide_false; tauto.
Qed.

(** The steps of [insert_vma_struct] up to the overlap checks. *)
Lemma insert_head s A L m l1 l2 v x :
  vmm_inv s A L → A !! m = Some (l1 ++ l2) → loose s A L m v x → area_ok x →
  (∀ p, p ∈ l1 → vm_start p.2 ≤ vm_start x) → (∀ p, p ∈ l2 → vm_start x < vm_start p.2) →
  ∃ d h, mms s !! m = Some d ∧
    insert_vma_struct m v s =
      (if bool_decide (Forall (λ p, vm_end p.2 ≤ vm_start x) l1 ∧ Forall (λ p, vm_end x ≤ vm_start p.2) l2)
       then (_ ← set_vma v (λ a, a <| vm_mm := Some m |>);
             _ ← on_vlinks (list_add_after (pos m l1) (list_link v));
             _ ← set_mm m (λ d, d <| map_count := s32 (map_count d + 1) |>);
             grow_tree m) (s <| rbs := h |>)
       else Err Panic) ∧
    mm_fields m d s (l1 ++ l2) ∧
    (∀ t, mmap_tree d = Some t → holds_seq (tree_of s t) h ((rb_link <$> l1.*1) ++ rb_link v :: (rb_link <$> l2.*1))) ∧
    (∀ v', v' ∉ v :: (l1 ++ l2).*1 → h !! rb_link v' = rbs s !! rb_link v') ∧
    (∀ t, mmap_tree d ≠ Some t → h !! tree_nil t = rbs s !! tree_nil t ∧ h !! tree_root t = rbs s !! tree_root t) ∧
    (∀ v', is_Some (rbs s !! rb_link v') → is_Some (h !! rb_link v')).
Proof.
  intros Hi Hm Hl Hx H1 H2. pose proof (vi_mm _ _ _ Hi _ _ Hm) as [Hvm Hnd Hs (d & Hd)].
  destruct (area_place _ _ _ _ _ _ _ _ _ Hi Hm Hd Hl H1 H2) as (h & E & Hrest). exists d, h.
  split; [by destruct Hd|]. split; [|by split].
  assert (Hv : ∀ p, p ∈ l1 ++ l2 → vmas s !! p.1 = Some p.2) by (intros p Hp; apply Hvm, Hp).
  unfold insert_vma_struct. rewrite (bind_ok _ _ _ _ _ (get_vma_ok _ _ _ (lv_vma _ _ _ _ _ _ Hl))).
  pose proof (ao_range _ Hx) as [? [Hlt ?]].
  rewrite (bind_ok _ _ s tt s) by (unfold assert; by rewrite (proj2 (Z.ltb_lt _ _) Hlt)).
  destruct Hd as [Hd _ _ _]. rewrite (bind_ok _ _ _ _ _ (get_mm_ok _ _ _ Hd)), (bind_ok _ _ _ _ _ E).
  pose proof (mm_lists _ _ _ _ _ Hi Hm) as HL. set (s1 := s <| rbs := h |>).
  assert (HL1 : lists_ok s1 L m (l1 ++ l2)) by exact HL. rewrite (bind_ok _ _ _ _ _ (next_pos _ _ _ _ _ HL1)).
  pose proof (check_neighbours s1 m v x l1 l2 Hv (lv_vma _ _ _ _ _ _ Hl) Hs Hlt) as Ec.
  match goal with |- (?a ≫= (λ _, ?b ≫= ?k)) s1 = _ =>
    transitivity (((a ≫= (λ _, b)) ≫= k) s1); [by rewrite (bind_assoc a (λ _, b) k)|] end.
  destruct (bool_decide _); [by rewrite (bind_ok _ _ _ _ _ Ec)|by rewrite (bind_err _ _ _ _ Ec)].
Qed.

Lemma insert_overlap_panics s A L m l1 l2 v x :
  vmm_inv s A L → A !! m = Some (l1 ++ l2) → loose s A L m v x → area_ok x →
  (∀ p, p ∈ l1 → vm_start p.2 ≤ vm_start x) → (∀ p, p ∈ l2 → vm_start x < vm_start p.2) →
  ¬ (Forall (λ p, vm_end p.2 ≤ vm_start x) l1 ∧ Forall (λ p, vm_end x ≤ vm_start p.2) l2) →
  insert_vma_struct m v s = Err Panic.
Proof.
  intros Hi Hm Hl Hx H1 H2 Hn. destruct (insert_head _ _ _ _ _ _ _ _ Hi Hm Hl Hx H1 H2) as (d & h & _ & E & _).
  by rewrite E, bool_decide_false.
Qed.

Lemma insert_vma_struct_ok s A L m l1 l2 v x :
  vmm_inv s A L → A !! m = Some (l1 ++ l2) → loose s A L m v x → area_ok x →
  (∀ p, p ∈ l1 → vm_end p.2 ≤ vm_start x) → (∀ p, p ∈ l2 → vm_end x ≤ vm_start p.2) →
  let x' := x <| vm_mm := Some m |> in let l' := l1 ++ (v, x') :: l2 in
  ∃ s', insert_vma_struct m v s = Ok (tt, s') ∧
    vmm_inv s' (<[m := l']> A) (<[mmap_list m := list_link <$> l'.*1]> L) ∧ kept s s' ∧
    vmas s' = <[v := x']> (vmas s) ∧ fresh s ≤ fresh s' ∧
    (∀ v', is_Some (rbs s !! rb_link v') → is_Some (rbs s' !! rb_link v')) ∧
    (∀ k, k ≠ list_link v → k ∉ mmap_list m :: (list_link <$> (l1 ++ l2).*1) → vlinks s' !! k = vlinks s !! k).
Proof.
  intros Hi Hm Hl Hx Hf1 Hf2 x' l'. pose proof (vi_mm _ _ _ Hi _ _ Hm) as [Hvm Hnd Hs _].
  destruct (starts_of_fits l1 l2 x Hs Hx Hf1 Hf2) as [H1 H2].
  destruct (insert_head _ _ _ _ _ _ _ _ Hi Hm Hl Hx H1 H2) as (d & h & Hd & E & [_ Hcnt Hca Htree] & Ht & Hout & Htr & Hsome).
  rewrite bool_decide_true in E by (split; by apply Forall_forall). set (s1 := s <| rbs := h |>) in E.
  pose proof (loose_notin _ _ _ _ _ _ _ _ Hi Hl Hm) as Hnin. destruct Hl as [Hv Hvmm Hun Hnode].
  set (s2 := s1 <| vmas := <[v := x']> (vmas s1) |>).
  assert (E2 : set_vma v (λ a, a <| vm_mm := Some m |>) s1 = Ok (tt, s2)) by (by apply set_vma_ok). rewrite (bind_ok _ _ _ _ _ E2) in E.
  destruct (mm_lists _ _ _ _ _ Hi Hm) as [Hrep HLm]. rewrite !fmap_app in HLm.
  destruct (cursor_split (mmap_list m) (list_link <$> l1.*1)) as [a Ha].
  assert (Hdel : delete (list_link v) L = L).
  { apply delete_id. destruct (L !! list_link v) eqn:HLv; [|done]. exfalso. apply (Hun _ _ HLv). set_solver. }
  destruct (list_add_after_at (vlinks s) L (mmap_list m) (list_link <$> l1.*1) (list_link <$> l2.*1) a _ (list_link v) Hrep HLm Ha) as (g & Eg & Hrep'); [by apply unlisted_available|done|].
  pose proof (λ z, list_add_after_frame _ _ _ _ _ _ _ z Hrep HLm Eg) as Hgfr.
  rewrite Hdel in Hrep'. set (s3 := s2 <| vlinks := g |>).
  assert (E3 : on_vlinks (list_add_after (pos m l1) (list_link v)) s2 = Ok (tt, s3)) by (by apply on_vlinks_ok).
  rewrite (bind_ok _ _ _ _ _ E3) in E. set (d' := d <| map_count := s32 (map_count d + 1) |>).
  set (s4 := s3 <| mms := <[m := d']> (mms s3) |>).
  assert (E4 : set_mm m (λ d, d <| map_count := s32 (map_count d + 1) |>) s3 = Ok (tt, s4)) by exact (set_mm_ok s3 m d (λ d, d <| map_count := s32 (map_count d + 1) |>) Hd).
  rewrite (bind_ok _ _ _ _ _ E4) in E.
  assert (Hl' : list_link <$> l'.*1 = (list_link <$> l1.*1) ++ list_link v :: (list_link <$> l2.*1)) by (unfold l'; by rewrite !fmap_app).
  assert (Hs' : sorted_areas l') by (apply sorted_insert; [done|by destruct Hx; constructor|exact Hf1|exact Hf2]).
  assert (Hvf : v < fresh s) by (destruct (vi_fresh _ _ _ Hi) as [Hf _]; by eapply Hf).
  assert (Hi4 : vmm_inv s4 (<[m := l']> A) (<[mmap_list m := list_link <$> l'.*1]> L)).
  { apply (inv_update s _ A L _ m (l1 ++ l2)); [done|done| | | | | |].
    - constructor.
      + intros m' Hne. simpl. by rewrite lookup_insert_ne.
      + intros v' y m' Hv' Hy Hne. simpl. assert (v' ≠ v) by (intros ->; simplify_eq; by specialize (Hvmm _ Hy)).
        rewrite lookup_insert_ne by done. split; [done|]. apply Hout. intros [?|Hin]%elem_of_cons; [done|].
        apply list_elem_of_fmap in Hin as (p & -> & Hp). destruct (Hvm p Hp) as (? & ? & _). congruence.
      + intros m' d0 t Hne Hd0 Ht0. simpl. apply Htr. intros Ht1. apply Hne. by apply (vi_trees _ _ _ Hi m' d0 m d t).
      + simpl. split; [done|]. destruct (vi_fresh _ _ _ Hi) as [Hf _]. intros v' y [[<- <-]|[_ Hy]]%lookup_insert_Some; [done|by eapply Hf].
      + simpl. rewrite dom_insert_lookup_L; [done|by eexists].
      + intros d0 t. simpl. rewrite lookup_insert_eq. intros [= <-] Ht0. left. by exists d.
    - simpl. by rewrite Hl'.
    - by rewrite lookup_insert_eq.
    - intros m' Hne. rewrite lookup_insert_ne; [done|congruence].
    - intros k ks e [[<- <-]|[_ Hk]]%lookup_insert_Some He.
      + rewrite Hl' in He. pose proof (lo_fresh _ _ _ (vi_links _ _ _ Hi) _ _ e HLm) as Hf.
        assert (e = list_link v ∨ e ∈ mmap_list m :: (list_link <$> l1.*1) ++ (list_link <$> l2.*1)) as [->|Hin]; [|done|by apply Hf].
        rewrite elem_of_cons, elem_of_app, elem_of_cons in He. rewrite elem_of_cons, elem_of_app. tauto.
      + by apply (lo_fresh _ _ _ (vi_links _ _ _ Hi) k ks).
    - constructor.
      + intros p. unfold l'. rewrite elem_of_app, elem_of_cons. simpl. intros Hp.
        assert (p = (v, x') ∨ p ∈ l1 ++ l2) as [->|Hin] by set_solver.
        * simpl. rewrite lookup_insert_eq. split_and!; [done|done|]. by apply Hsome.
        * destruct (Hvm p Hin) as (? & ? & ?). assert (p.1 ≠ v) by (intros <-; apply Hnin; by apply list_elem_of_fmap_2).
          rewrite lookup_insert_ne by done. split_and!; [done|done|]. by apply Hsome.
      + unfold l'. rewrite fmap_app. simpl. rewrite <-Permutation_middle. apply NoDup_cons. rewrite <-fmap_app. done.
      + done.
      + exists d'. constructor; simpl.
        * by rewrite lookup_insert_eq.
        * unfold l'. rewrite length_app. simpl. rewrite length_app in Hcnt. rewrite Hcnt.
          pose proof (sorted_count _ Hs) as Hc. rewrite length_app in Hc. rewrite s32_id; lia.
        * intros v' Hv'. specialize (Hca v' Hv'). unfold l'. rewrite fmap_app in *. set_solver.
        * intros t Ht0. split; [by apply Htree|]. unfold l'. rewrite !fmap_app. simpl.
          by apply (holds_seq_compare (tree_of s t)), Ht. }
  destruct (grow_tree_ok s4 _ _ m l' Hi4) as (s' & E' & Hi' & Hk' & Hv' & Hvl' & Hfr' & Hsome'); [by rewrite lookup_insert_eq|].
  exists s'. split; [congruence|]. split; [done|]. split; [|split; [by rewrite Hv'|split; [done|split]]].
  - eapply kept_trans; [|exact Hk']. eapply (kept_mms s s4 m d d'); (done || by exists 0%nat).
  - intros v' Hin. apply Hsome'. by apply Hsome.
  - intros k Hk1 Hk2. rewrite Hvl'. simpl. apply Hgfr; [done|]. by rewrite <-!fmap_app.
Qed.

(** ** [remove_vma_struct] *)

Lemma remove_vma_struct_ok s A L m l1 p l2 :
  vmm_inv s A L → A !! m = Some (l1 ++ p :: l2) →
  ∃ s', remove_vma_struct m p.1 s = Ok (0, s') ∧
    vmm_inv s' (<[m := l1 ++ l2]> A) (<[mmap_list m := list_link <$> (l1 ++ l2).*1]> L) ∧ kept s s' ∧
    vmas s' = vmas s ∧ loose s' (<[m := l1 ++ l2]> A) (<[mmap_list m := list_link <$> (l1 ++ l2).*1]> L) m p.1 p.2 ∧
    fresh s' = fresh s ∧ (∀ v, is_Some (rbs s !! rb_link v) → is_Some (rbs s' !! rb_link v)).
Proof.
  intros Hi Hm. pose proof (vi_mm _ _ _ Hi _ _ Hm) as [Hvm Hnd Hs (d & [Hd Hcnt Hca Htree])].
  destruct (Hvm p ltac:(set_solver)) as (Hvp & Hmp & Hnp). destruct (mm_lists _ _ _ _ _ Hi Hm) as [Hrep HLm].
  unfold remove_vma_struct. rewrite (bind_ok _ _ _ _ _ (get_vma_ok _ _ _ Hvp)).
  rewrite (bind_ok _ _ s tt s) by (unfold assert; by rewrite bool_decide_true).
  rewrite (bind_ok _ _ _ _ _ (get_mm_ok _ _ _ Hd)), (bind_ok _ _ s s s) by done.
  assert (∃ h, (match mmap_tree d with Some t => on_rbs (rb_delete (tree_of s t) (rb_link p.1)) | None => mret tt end : M vst unit) s = Ok (tt, s <| rbs := h |>) ∧
    (∀ t, mmap_tree d = Some t → holds_seq (tree_of s t) h (rb_link <$> (l1 ++ l2).*1)) ∧
    (∀ v, v ∉ (l1 ++ p :: l2).*1 → h !! rb_link v = rbs s !! rb_link v) ∧
    (∀ t, mmap_tree d ≠ Some t → h !! tree_nil t = rbs s !! tree_nil t ∧ h !! tree_root t = rbs s !! tree_root t) ∧
    (∀ v, is_Some (rbs s !! rb_link v) → is_Some (h !! rb_link v))) as (h & Eh & Hh & Hout & Htr & Hsome).
  { destruct (mmap_tree d) as [t|]; [|exists (rbs s); split; [by destruct s|done]].
    destruct (Htree t eq_refl) as [_ Hh]. rewrite !fmap_app in Hh. simpl in Hh.
    destruct (rb_delete_spec _ _ _ _ _ Hh) as (h & Eh & Hh' & Hfr & Hp). exists h.
    split; [by apply on_rbs_ok|]. split; [intros t' [= <-]; by rewrite !fmap_app|].
    assert (Hfoot : ∀ n, (∀ v, n = rb_link v → v ∉ (l1 ++ p :: l2).*1) → n ≠ tree_nil t → n ≠ tree_root t → h !! n = rbs s !! n).
    { intros n Hn H1 H2. apply Hfr. unfold footprint. simpl. rewrite !elem_of_union, !elem_of_singleton, elem_of_list_to_set.
      intros [?|[?|Hin]]; [done|done|]. assert (n ∈ rb_link <$> (l1 ++ p :: l2).*1) as Hin' by by rewrite !fmap_app.
      apply list_elem_of_fmap in Hin' as (v & -> & Hv). by apply (Hn v). }
    split; [intros v Hv; apply Hfoot; [by intros v' [= <-]|done|done]|]. split.
    - intros t' Ht'. split; apply Hfoot; congruence.
    - intros v Hv. destruct (decide (v ∈ (l1 ++ p :: l2).*1)) as [Hin|Hin].
      + destruct (decide (v = p.1)) as [->|Hne]; [done|]. eapply holds_seq_dom; [exact Hh'|].
        rewrite <-fmap_app. apply list_elem_of_fmap_2. rewrite fmap_app in *. simpl in Hin. set_solver.
      + rewrite Hfoot; [done|by intros v' [= <-]|done|done]. }
  rewrite (bind_ok _ _ _ _ _ Eh). set (s1 := s <| rbs := h |>). rewrite !fmap_app in HLm. simpl in HLm.
  destruct (rep_del _ _ _ _ _ _ Hrep HLm) as (g & Eg & Hrep'). set (s2 := s1 <| vlinks := g |>).
  rewrite (bind_ok _ _ s1 tt s2) by (by apply on_vlinks_ok).
  pose proof (rep_del_unlisted _ _ _ _ _ _ Hrep HLm) as Hun.
  set (c := if bool_decide (mmap_cache d = Some p.1) then None else mmap_cache d).
  set (d' := d <| mmap_cache := c |> <| map_count := s32 (map_count d - 1) |>).
  set (s' := s2 <| mms := <[m := d']> (mms s2) |>).
  assert (E : (_ ← when (bool_decide (mmap_cache d = Some p.1)) (set_mm m (λ d, d <| mmap_cache := None |>));
               _ ← set_mm m (λ d, d <| map_count := s32 (map_count d - 1) |>); mret 0 : M vst Z) s2 = Ok (0, s')).
  { unfold when. destruct (bool_decide _) eqn:Hb.
    - rewrite (bind_ok _ _ _ _ _ (set_mm_ok s2 m d (λ d, d <| mmap_cache := None |>) Hd)).
      erewrite (bind_ok _ _ _ _ _ (set_mm_ok _ m _ (λ d, d <| map_count := s32 (map_count d - 1) |>) (lookup_insert_eq _ _ _))).
      unfold mret, M_ret, s', d', c. simpl. by rewrite insert_insert_eq.
    - rewrite (bind_ok _ _ s2 tt s2) by done.
      rewrite (bind_ok _ _ _ _ _ (set_mm_ok s2 m d (λ d, d <| map_count := s32 (map_count d - 1) |>) Hd)).
      unfold mret, M_ret, s', d', c. by destruct d. }
  exists s'. split; [exact E|]. rewrite <-fmap_app, <-fmap_app in Hrep', Hun.
  assert (Hk : kept s s') by (eapply (kept_mms s s' m d d'); (done || by exists 0%nat)).
  apply sorted_app in Hs as (Hs1 & (Hp & Hs2 & Hb2)%sorted_cons & Hb).
  rewrite fmap_app in Hnd. simpl in Hnd. rewrite <-Permutation_middle in Hnd. apply NoDup_cons in Hnd as [Hpn Hnd]. rewrite <-fmap_app in Hnd, Hpn.
  split; [|split; [done|split; [done|split; [|split; [done|exact Hsome]]]]].
  2:{ constructor; [exact Hvp|intros m' Hm'; congruence|exact Hun|by apply Hsome]. }
  apply (inv_update s _ A L _ m (l1 ++ p :: l2)); [done|done| | | | | |].
  - constructor.
    + intros m' Hne. simpl. by rewrite lookup_insert_ne.
    + intros v' y m' Hv' Hy Hne. split; [done|]. apply Hout. intros Hin.
      apply list_elem_of_fmap in Hin as (q & -> & Hq). destruct (Hvm q Hq) as (? & ? & _). congruence.
    + intros m' d0 t Hne Hd0 Ht0. apply Htr. intros Ht1. apply Hne. by apply (vi_trees _ _ _ Hi m' d0 m d t).
    + split; [done|]. apply (vi_fresh _ _ _ Hi).
    + simpl. rewrite dom_insert_lookup_L; [done|by eexists].
    + intros d0 t. simpl. rewrite lookup_insert_eq. intros [= <-] Ht0. left. by exists d.
  - exact Hrep'.
  - by rewrite lookup_insert_eq.
  - intros m' Hne. rewrite lookup_insert_ne; [done|congruence].
  - intros k ks e [[<- <-]|[_ Hk']]%lookup_insert_Some He; [|by apply (lo_fresh _ _ _ (vi_links _ _ _ Hi) k ks)].
    apply (lo_fresh _ _ _ (vi_links _ _ _ Hi) _ _ e HLm). rewrite !fmap_app in He.
    rewrite elem_of_cons, elem_of_app in He. rewrite elem_of_cons, elem_of_app, elem_of_cons. tauto.
  - constructor.
    + intros q Hq. destruct (Hvm q ltac:(set_solver)) as (? & ? & ?). split_and!; [done|done|]. by apply Hsome.
    + done.
    + apply sorted_app. split; [done|]. split; [done|]. intros q r Hq Hr. apply Hb; [done|set_solver].
    + exists d'. constructor; simpl.
      * by rewrite lookup_insert_eq.
      * rewrite length_app in *. simpl in Hcnt. rewrite Hcnt.
        assert (Hs0 : sorted_areas (l1 ++ p :: l2)) by (apply sorted_app; split; [done|]; split; [by apply sorted_cons|done]).
        pose proof (sorted_count _ Hs0) as Hc. rewrite length_app in Hc. simpl in Hc. rewrite s32_id; lia.
      * unfold c. case_bool_decide as Hc; [done|]. intros v' Hv'. specialize (Hca v' Hv').
        rewrite fmap_app in *. simpl in Hca. assert (v' ≠ p.1) by congruence. set_solver.
      * intros t Ht0. split; [by apply Htree|]. by apply (holds_seq_compare (tree_of s t)), Hh.
Qed.
