(* ===== verification/VmmMap.v ===== *)
(** * Mapping memory

    What [mm_map] does on every branch. *)

From Stdlib Require Import Sorted.
From S2P Require Import Prelude DList RbTree RbRep RbInv RbInsert RbTreeSpec Vmm VmmInv VmmInsert.

Implicit Types (s : vst) (m v t addr start : Z) (x y : vma_struct) (p q : entry) (l : list entry)
  (A : gmap Z (list entry)) (L : gmap vlink (list vlink)).

(** ** New areas *)

(** The invariant does not depend on what no address space owns. *)
Lemma inv_extend s s' A L :
  vmm_inv s A L → framed s s' (fresh s) → mms s' = mms s → vlinks s' = vlinks s → vmm_inv s' A L.
Proof.
  intros Hi F Hmms Hvl. pose proof (vi_fresh _ _ _ Hi) as [_ Hf].
  assert (Hne : ∀ m l, A !! m = Some l → m ≠ fresh s).
  { intros m l Hm ->. destruct (mo_mm _ _ _ (vi_mm _ _ _ Hi _ _ Hm)) as (d & [Hd _ _ _]). specialize (Hf _ _ Hd). lia. }
  destruct Hi as [[Hr Hl Hlf] Hdom Hmm Htr Hfr]. destruct (fr_fresh _ _ _ F) as [Hle Hvf]. constructor.
  - constructor; [by rewrite Hvl|done|]. intros k ks e Hk He. specialize (Hlf k ks e Hk He). destruct e; simpl in *; lia.
  - by rewrite Hmms.
  - intros m l Hm. eapply mm_ok_frame; [exact F|by eapply Hne|by apply Hmm].
  - by rewrite Hmms.
  - split; [exact Hvf|]. intros m d Hd. rewrite Hmms in Hd. specialize (Hf _ _ Hd). lia.
Qed.

Definition new_area (start end_ flags : Z) : vma_struct := mk_vma None start end_ flags None 0.

Lemma vma_create_ok s A L m start end_ flags :
  vmm_inv s A L →
  ∃ r s', vma_create start end_ flags s = Ok (r, s') ∧ vmm_inv s' A L ∧ kept s s' ∧ mms s' = mms s ∧ vlinks s' = vlinks s ∧
    match r with
    | None => head (oom s) = Some true
    | Some v => head (oom s) ≠ Some true ∧ vmas s !! v = None ∧ vmas s' = <[v := new_area start end_ flags]> (vmas s) ∧
        loose s' A L m v (new_area start end_ flags) ∧ (∀ v', is_Some (rbs s !! rb_link v') → is_Some (rbs s' !! rb_link v'))
    end.
Proof.
  intros Hi. destruct (kmalloc_new s) as (r & s1 & E & Hs1 & Hr). unfold vma_create. rewrite (bind_ok _ _ _ _ _ E).
  pose proof (vi_fresh _ _ _ Hi) as [Hvf _]. destruct r as [v|].
  - assert (v = fresh s ∧ head (oom s) ≠ Some true) as [-> Ho] by (destruct (head (oom s)) as [[]|]; split; congruence).
    assert (Hnone : vmas s !! fresh s = None).
    { destruct (vmas s !! fresh s) as [x|] eqn:Hx; [|done]. specialize (Hvf _ _ Hx). lia. }
    do 2 eexists. split; [done|]. subst s1. split; [|split; [constructor; [done..|exists 1%nat; by destruct (oom s)|done]|split; [done|split; [done|]]]].
    + eapply inv_extend; [exact Hi| |done..]. constructor; simpl.
      * done.
      * intros v' y m' Hv' Hy _. assert (v' ≠ fresh s) by congruence. rewrite !lookup_insert_ne by congruence. done.
      * intros m' d t Hne Hd Ht. by rewrite !lookup_insert_ne by congruence.
      * split; [lia|]. intros v' y [[<- <-]|[_ Hy]]%lookup_insert_Some; [lia|]. specialize (Hvf _ _ Hy). lia.
      * done.
      * intros d t Hd Ht. left. by exists d.
    + split; [done|]. split; [done|]. split; [done|]. split.
      * constructor; simpl; [by rewrite lookup_insert_eq|done| |by rewrite lookup_insert_eq].
        intros k ks Hk He. pose proof (lo_fresh _ _ _ (vi_links _ _ _ Hi) k ks _ Hk He) as Hf. simpl in Hf. lia.
      * intros v' Hv'. simpl. rewrite lookup_insert. by case_decide.
  - assert (head (oom s) = Some true) as Ho by (destruct (head (oom s)) as [[]|]; congruence).
    do 2 eexists. split; [done|]. subst s1.
    split; [|split; [constructor; [done..|exists 1%nat; by destruct (oom s)|done]|by split_and!]].
    eapply inv_extend; [exact Hi| |done..]. constructor; simpl; try done. intros d t Hd Ht. left. by exists d.
Qed.

(** ** Page ranges *)

Lemma user_area start end_ flags :
  USER_ACCESS start end_ = true → start mod PGSIZE = 0 → end_ mod PGSIZE = 0 → area_ok (new_area start end_ flags).
Proof.
  intros [[?%Z.leb_le ?%Z.ltb_lt]%andb_true_iff ?%Z.leb_le]%andb_true_iff Hp1 Hp2. by constructor.
Qed.

Lemma ROUNDDOWN_mod a : ROUNDDOWN a PGSIZE mod PGSIZE = 0.
Proof. unfold ROUNDDOWN. rewrite Zminus_mod_idemp_r, Z.sub_diag. done. Qed.
Lemma ROUNDUP_mod a : ROUNDUP a PGSIZE mod PGSIZE = 0.
Proof. unfold ROUNDUP. change (u32 PGSIZE) with PGSIZE. apply ROUNDDOWN_mod. Qed.

(** ** [mm_map] *)

(** Two ranges have an address in common. *)
Definition overlaps x (start end_ : Z) : Prop := vm_start x < end_ ∧ start < vm_end x.
#[export] Instance overlaps_dec x start end_ : Decision (overlaps x start end_).
Proof. unfold overlaps. apply _. Defined.

Lemma fits_split start end_ l :
  sorted_areas l → start < end_ → (∀ p, p ∈ l → ¬ overlaps p.2 start end_) →
  ∃ l1 l2, l = l1 ++ l2 ∧ (∀ p, p ∈ l1 → vm_end p.2 ≤ start) ∧ (∀ p, p ∈ l2 → end_ ≤ vm_start p.2).
Proof.
  intros Hs Hlt Hno. destruct (place_split start l Hs) as (l1 & l2 & -> & H1 & H2). exists l1, l2. split; [done|].
  unfold overlaps in Hno. split; intros p Hp.
  - specialize (H1 p Hp). specialize (Hno p ltac:(set_solver)). lia.
  - specialize (H2 p Hp). specialize (Hno p ltac:(set_solver)). destruct (sorted_in _ p Hs) as [? _]; [set_solver|]. lia.
Qed.

(** The result of [insert_vma_struct], by overlap. *)
Lemma insert_new s A L m l v x :
  vmm_inv s A L → A !! m = Some l → loose s A L m v x → area_ok x →
  if decide (Exists (λ p, overlaps p.2 (vm_start x) (vm_end x)) l) then insert_vma_struct m v s = Err Panic
  else ∃ s' l1 l2, insert_vma_struct m v s = Ok (tt, s') ∧ l = l1 ++ l2 ∧
    vmm_ok s' (<[m := l1 ++ (v, x <| vm_mm := Some m |>) :: l2]> A) ∧ kept s s'.
Proof.
  intros Hi Hm Hl Hx. destruct (mo_sorted _ _ _ (vi_mm _ _ _ Hi _ _ Hm)) as [Hss Hok].
  pose proof (ao_range _ Hx) as [? [Hlt ?]]. case_decide as Hov.
  - destruct (place_split (vm_start x) l) as (l1 & l2 & -> & H1 & H2); [done|].
    eapply insert_overlap_panics; [done..|]. rewrite !Forall_forall. intros [F1 F2].
    apply Exists_exists in Hov as (p & [Hp|Hp]%elem_of_app & Ho); unfold overlaps in Ho; [specialize (F1 p Hp)|specialize (F2 p Hp)]; simpl in *; lia.
  - destruct (fits_split (vm_start x) (vm_end x) l) as (l1 & l2 & -> & F1 & F2); [done|done| |].
    { intros p Hp Ho. apply Hov, Exists_exists. by exists p. }
    destruct (insert_vma_struct_ok s A L m l1 l2 v x Hi Hm Hl Hx F1 F2) as (s' & E & Hi' & Hk & _).
    exists s', l1, l2. split; [done|]. split; [done|]. split; [by eexists|done].
Qed.

Definition map_range (addr len : Z) : Z * Z := (ROUNDDOWN addr PGSIZE, ROUNDUP (u32 (addr + len)) PGSIZE).

Lemma mm_map_steps s s1 m addr len flags r :
  let '(start, end_) := map_range addr len in
  USER_ACCESS start end_ = true → find_vma (Some m) start s = Ok (r, s1) →
  mm_map (Some m) addr len flags s =
    (a ← (match r with Some v => a ← get_vma v; mret (vm_start a <? end_) | None => mret false end);
     if (a : bool) then mret (- E_INVAL, None)
     else
       vma ← vma_create start end_ (Z.ldiff flags VM_SHARE);
       match vma with
       | None => mret (- E_NO_MEM, None)
       | Some v => _ ← insert_vma_struct m v; mret (0, Some v)
       end) s1.
Proof.
  unfold map_range. intros Hua E. unfold mm_map. cbv zeta. rewrite Hua. cbv beta iota delta [negb].
  rewrite (bind_ok _ _ s tt s) by done. rewrite (bind_ok _ _ s m s) by done. by rewrite (bind_ok _ _ _ _ _ E).
Qed.

(** C13. [mm_map] on every branch: a range outside user memory is refused; a
    range that starts inside an area is refused; without memory it fails and
    changes nothing; a range that starts in a hole but reaches into a later
    area panics the kernel; otherwise a private area of the rounded range is
    added at its place, and the address space stays sorted and disjoint. *)
Theorem mm_map_correct s A m l addr len flags :
  vmm_ok s A → A !! m = Some l →
  let '(start, end_) := map_range addr len in
  if negb (USER_ACCESS start end_) then mm_map (Some m) addr len flags s = Ok ((- E_INVAL, None), s)
  else match find_in start l with
  | Some _ => ∃ s', mm_map (Some m) addr len flags s = Ok ((- E_INVAL, None), s') ∧ vmm_ok s' A ∧ kept s s'
  | None =>
      if decide (head (oom s) = Some true)
      then ∃ s', mm_map (Some m) addr len flags s = Ok ((- E_NO_MEM, None), s') ∧ vmm_ok s' A ∧ kept s s'
      else if decide (Exists (λ p, overlaps p.2 start end_) l) then mm_map (Some m) addr len flags s = Err Panic
      else ∃ s' v l1 l2, mm_map (Some m) addr len flags s = Ok ((0, Some v), s') ∧ l = l1 ++ l2 ∧ vmas s !! v = None ∧
        vmm_ok s' (<[m := l1 ++ (v, mk_vma (Some m) start end_ (Z.ldiff flags VM_SHARE) None 0) :: l2]> A) ∧ kept s s'
  end.
Proof.
  intros [L Hi] Hm. pose proof (λ s1 r, mm_map_steps s s1 m addr len flags r) as Hst. unfold map_range in *.
  set (start := ROUNDDOWN addr PGSIZE) in *. set (end_ := ROUNDUP _ _) in *.
  destruct (USER_ACCESS start end_) eqn:Hua; simpl negb; cbv iota.
  2:{ unfold mm_map. cbv zeta. fold start end_. by rewrite Hua. }
  destruct (find_vma_ok s A L m l start Hi Hm) as (s1 & E1 & Hi1 & Hq).
  rewrite (Hst _ _ eq_refl E1). clear Hst.
  assert (Hoom : oom s1 = oom s ∧ vmas s1 = vmas s) by (by destruct Hq as (M & -> & _)). destruct Hoom as [Ho Hvs].
  apply quiet_kept in Hq. pose proof (user_area start end_ (Z.ldiff flags VM_SHARE) Hua (ROUNDDOWN_mod _) (ROUNDUP_mod _)) as Hok.
  destruct (find_in start l) as [v|] eqn:Hf.
  - apply find_in_Some in Hf as (p & Hp & <- & Hc). exists s1.
    destruct (mo_vmas _ _ _ (vi_mm _ _ _ Hi1 _ _ Hm) p Hp) as (Hv & _).
    rewrite (bind_ok _ _ s1 true s1).
    { split; [done|]. split; [by exists L|done]. }
    rewrite (bind_ok _ _ _ _ _ (get_vma_ok _ _ _ Hv)). unfold mret, M_ret. do 2 f_equal. apply Z.ltb_lt.
    unfold contains in Hc. pose proof (ao_range _ Hok) as [? [? ?]]. simpl in *. lia.
  - rewrite (bind_ok _ _ s1 false s1) by done. cbv iota.
    destruct (vma_create_ok s1 A L m start end_ (Z.ldiff flags VM_SHARE) Hi1) as (r & s2 & E2 & Hi2 & Hk2 & _ & _ & Hr).
    rewrite (bind_ok _ _ _ _ _ E2). rewrite Ho in Hr. assert (Hk : kept s s2) by (by eapply kept_trans). destruct r as [v|].
    + destruct Hr as (Hno & Hv & _ & Hl & _). rewrite (decide_False _ _ Hno). rewrite Hvs in Hv.
      pose proof (insert_new s2 A L m l v _ Hi2 Hm Hl Hok) as Hins. simpl vm_start in Hins. simpl vm_end in Hins.
      destruct (decide _); [by rewrite (bind_err _ _ _ _ Hins)|].
      destruct Hins as (s3 & l1 & l2 & E3 & -> & Hok3 & Hk3). rewrite (bind_ok _ _ _ _ _ E3).
      exists s3, v, l1, l2. split_and!; [done|done|done|exact Hok3|by eapply kept_trans].
    + rewrite (decide_True _ _ Hr). exists s2. split_and!; [done|by exists L|done].
Qed.
