(* ===== verification/VmmUnmap.v ===== *)
(** * Unmapping memory

    What [mm_unmap] does on every branch: the areas that remain, and the
    ranges it takes out of the page table. *)

From Stdlib Require Import Sorted.
From S2P Require Import Prelude DList RbTree RbRep RbInv RbInsert RbTreeSpec Vmm VmmInv VmmInsert VmmMap.

Implicit Types (s : vst) (m v t addr start : Z) (x y : vma_struct) (p q : entry) (l : list entry)
  (A : gmap Z (list entry)) (L : gmap vlink (list vlink)).

(** ** Changing an area in place *)

Lemma inv_set_vma s A L m l l' v x x' :
  vmm_inv s A L → A !! m = Some l → vmas s !! v = Some x → (∀ m', vm_mm x = Some m' → m' = m) →
  l'.*1 = l.*1 → sorted_areas l' → (∀ p, p ∈ l' → <[v := x']> (vmas s) !! p.1 = Some p.2 ∧ vm_mm p.2 = Some m) →
  vmm_inv (s <| vmas := <[v := x']> (vmas s) |>) (<[m := l']> A) L.
Proof.
  intros Hi Hm Hv Hmm Hids Hs Hp. destruct (vi_mm _ _ _ Hi _ _ Hm) as [Hvm Hnd _ (d & [Hd Hcnt Hca Htree])].
  destruct (mm_lists _ _ _ _ _ Hi Hm) as [Hrep HLm]. pose proof (vi_fresh _ _ _ Hi) as [Hf _].
  apply (inv_update s _ A L L m l l'); try done.
  - constructor; try done.
    + intros v' y m' Hv' Hy Hne. simpl. rewrite lookup_insert_ne; [done|]. intros ->. simplify_eq. by specialize (Hmm _ Hy).
    + simpl. split; [done|]. intros v' y [[<- <-]|[_ Hy]]%lookup_insert_Some; eauto.
    + intros d0 t Hd0 Ht. left. by exists d0.
  - by rewrite Hids.
  - intros k ks e Hk He. by apply (lo_fresh _ _ _ (vi_links _ _ _ Hi) k ks).
  - constructor; [|by rewrite Hids|done|].
    + intros p Hin. destruct (Hp p Hin) as [? ?]. split_and!; [done|done|]. simpl.
      assert (p.1 ∈ l.*1) as Hin' by (rewrite <-Hids; by apply list_elem_of_fmap_2).
      apply list_elem_of_fmap in Hin' as (q & -> & Hq). by apply Hvm.
    + exists d. constructor; [done| |by rewrite Hids|].
      * by rewrite Hcnt, <-(length_fmap fst l), <-Hids, length_fmap.
      * intros t Ht. rewrite Hids. destruct (Htree t Ht). split; [done|]. by apply (holds_seq_compare (tree_of s t)).
Qed.

Lemma kept_vmas s h : kept s (s <| vmas := h |>).
Proof. constructor; (done || by exists 0%nat). Qed.
Lemma kept_vlinks s h : kept s (s <| vlinks := h |>).
Proof. constructor; (done || by exists 0%nat). Qed.

(** ** [vma_resize] and [unmap_vma_range] *)

Definition shared x : bool := negb (Z.land (vm_flags x) VM_SHARE =? 0).
Definition resized x (start end_ : Z) : vma_struct :=
  x <| shmem_off := if shared x then u32 (shmem_off x + (start - vm_start x)) else shmem_off x |> <| vm_start := start |> <| vm_end := end_ |>.

Lemma vma_resize_ok s v x start end_ :
  vmas s !! v = Some x → start mod PGSIZE = 0 → end_ mod PGSIZE = 0 → vm_start x ≤ start → start < end_ → end_ ≤ vm_end x →
  vma_resize v start end_ s = Ok (tt, s <| vmas := <[v := resized x start end_]> (vmas s) |>).
Proof.
  intros Hv Hp1 Hp2 H1 H2 H3. unfold vma_resize.
  rewrite (bind_ok _ _ s tt s) by (unfold assert; by rewrite Hp1, Hp2). rewrite (bind_ok _ _ _ _ _ (get_vma_ok _ _ _ Hv)).
  rewrite (bind_ok _ _ s tt s).
  2:{ unfold assert. by rewrite (proj2 (Z.leb_le _ _) H1), (proj2 (Z.ltb_lt _ _) H2), (proj2 (Z.leb_le _ _) H3). }
  unfold when, resized, shared. destruct (negb _).
  - rewrite (bind_ok _ _ _ _ _ (set_vma_ok s v x _ Hv)).
    erewrite set_vma_ok; [|simpl; by rewrite lookup_insert_eq]. simpl. by rewrite insert_insert_eq.
  - rewrite (bind_ok _ _ s tt s) by done. rewrite (set_vma_ok _ _ _ _ Hv). by destruct x.
Qed.

Lemma resized_ok x start end_ :
  area_ok x → start mod PGSIZE = 0 → end_ mod PGSIZE = 0 → vm_start x ≤ start → start < end_ → end_ ≤ vm_end x → area_ok (resized x start end_).
Proof. intros [[? [? ?]] _] ? ? ? ? ?. constructor; simpl; [lia|done]. Qed.

(** What [unmap_vma_range] does to the page table. *)
Definition is_io x : bool := negb (Z.land (vm_flags x) VM_IO =? 0).
Definition unmap_events (pg : Z) x (start end_ : Z) : list event :=
  if is_io x then (λ i, unmap_page pg (start + i * PGSIZE)) <$> seqZ 0 ((end_ - start) / PGSIZE)
  else [unmap_range pg start end_].

Lemma page_list_S (n : nat) pg start :
  [unmap_page pg start] ++ ((λ i, unmap_page pg (start + 4096 + i * 4096)) <$> seqZ 0 (Z.of_nat (S n))) =
  (λ i, unmap_page pg (start + i * 4096)) <$> seqZ 0 (Z.of_nat (S (S n))).
Proof.
  rewrite (seqZ_cons 0 (Z.of_nat (S (S n)))) by lia. replace (Z.pred (Z.of_nat (S (S n)))) with (Z.of_nat (S n)) by lia.
  rewrite fmap_cons, Z.mul_0_l, Z.add_0_r. simpl app. f_equal. change (Z.succ 0) with (1 + 0).
  rewrite <-(fmap_add_seqZ 1 0), <-list_fmap_compose. apply list_fmap_ext. intros i z _. simpl. f_equal. lia.
Qed.
Lemma unmap_io_loop (n : nat) pg end_ start s fuel :
  0 ≤ start → end_ = start + Z.of_nat (S n) * PGSIZE → end_ ≤ USERTOP → (n < fuel)%nat →
  loop fuel (unmap_io_body pg end_) (start, start) s =
    Ok (tt, s <| events := events s ++ ((λ i, unmap_page pg (start + i * PGSIZE)) <$> seqZ 0 (Z.of_nat (S n))) |>).
Proof.
  revert start s fuel. induction n as [|n IH]; intros start s [|fuel] H0 He Hu Hf; try lia; unfold USERTOP, PGSIZE in *.
  - apply loop_stop. unfold unmap_io_body. cbv beta iota zeta. rewrite Z.sub_diag. unfold PGSIZE. change (u32 0) with 0. rewrite Z.sub_0_r.
    rewrite (u32_id 4096), (u32_id (end_ - start)) by lia. destruct (Z.ltb_spec (end_ - start) 4096); [lia|]. rewrite (u32_id (start + 4096)) by lia. rewrite (bind_ok _ _ _ _ _ eq_refl).
    rewrite (proj2 (Z.ltb_ge (start + 4096) end_)) by lia. rewrite andb_false_r. unfold mret, M_ret, modify.
    change (seqZ 0 (Z.of_nat 1)) with [0]. rewrite list_fmap_singleton. by rewrite Z.mul_0_l, Z.add_0_r.
  - set (s1 := s <| events := events s ++ [unmap_page pg start] |>).
    rewrite (loop_next _ _ _ _ (start + 4096, start + 4096) s1).
    + rewrite IH by lia. subst s1. rewrite <-page_list_S, app_assoc. done.
    + unfold unmap_io_body. cbv beta iota zeta. rewrite Z.sub_diag. unfold PGSIZE. change (u32 0) with 0. rewrite Z.sub_0_r.
      rewrite (u32_id 4096), (u32_id (end_ - start)) by lia. destruct (Z.ltb_spec (end_ - start) 4096); [lia|]. rewrite (u32_id (start + 4096)) by lia. rewrite (bind_ok _ _ _ _ _ eq_refl).
      rewrite (proj2 (Z.ltb_lt (start + 4096) end_)) by lia. destruct (Z.eqb_spec (start + 4096) 0); [lia|]. done.
Qed.

Lemma unmap_vma_range_ok s pg v x start end_ :
  vmas s !! v = Some x → start mod PGSIZE = 0 → end_ mod PGSIZE = 0 → USERBASE ≤ start → start < end_ → end_ ≤ USERTOP →
  unmap_vma_range pg v start end_ s = Ok (tt, s <| events := events s ++ unmap_events pg x start end_ |>).
Proof.
  intros Hv Hp1 Hp2 H1 H2 H3. unfold unmap_vma_range.
  rewrite (bind_ok _ _ s tt s) by (unfold assert; by rewrite Hp1, Hp2). rewrite (bind_ok _ _ _ _ _ (get_vma_ok _ _ _ Hv)).
  unfold unmap_events, is_io. destruct (negb _); [|done].
  assert (Hrd : ROUNDDOWN start PGSIZE = start).
  { unfold ROUNDDOWN. rewrite u32_id by (unfold USERBASE, USERTOP in *; lia). rewrite Hp1. lia. }
  assert (Hn : ∃ n, end_ = start + Z.of_nat (S n) * PGSIZE).
  { apply Z.div_exact in Hp1, Hp2; [|done..]. exists (Z.to_nat (end_ / PGSIZE - start / PGSIZE - 1)).
    assert (start / PGSIZE < end_ / PGSIZE) by (unfold PGSIZE in *; lia). rewrite Nat2Z.inj_succ, Z2Nat.id by lia. unfold PGSIZE in *. lia. }
  destruct Hn as [n Hn]. rewrite Hrd.
  assert (Hq : (end_ - start) / PGSIZE = Z.of_nat (S n)).
  { rewrite Hn. replace (start + Z.of_nat (S n) * PGSIZE - start) with (Z.of_nat (S n) * PGSIZE) by lia. by apply Z.div_mul. }
  rewrite (unmap_io_loop n) by (unfold USERBASE in *; lia). by rewrite Hq.
Qed.

(** ** Areas taken out of the list *)

(** Pieces of an area outside [[start, end_)]. *)
Definition cut (start end_ : Z) p : list entry :=
  if decide (overlaps p.2 start end_) then
    if vm_start p.2 <? start then [(p.1, resized p.2 (vm_start p.2) start)]
    else if end_ <? vm_end p.2 then [(p.1, resized p.2 end_ (vm_end p.2))] else []
  else [p].
(** What leaves the page table with it. *)
Definition cut_events (pg start end_ : Z) p : list event :=
  if vm_start p.2 <? start then unmap_events pg p.2 start (vm_end p.2)
  else unmap_events pg p.2 (vm_start p.2) (if end_ <? vm_end p.2 then end_ else vm_end p.2).

Record freed s m p : Prop := {
  fd_vma : vmas s !! p.1 = Some p.2;
  fd_mm : vm_mm p.2 = Some m;
  fd_node : is_Some (rbs s !! rb_link p.1);
}.

Lemma inv_links s A L h L' :
  vmm_inv s A L → rep h L' → (∀ m, L' !! mmap_list m = L !! mmap_list m) →
  (∀ k ks e, L' !! k = Some ks → e ∈ k :: ks → link_fresh (fresh s) e) → vmm_inv (s <| vlinks := h |>) A L'.
Proof.
  intros [[Hr Hl Hlf] Hdom Hmm Htr Hfr] Hr' Hm' Hf'. constructor; [|done| |done|done].
  - constructor; [done| |done]. intros m l Hm. rewrite Hm'. by apply Hl.
  - intros m l Hm. destruct (Hmm m l Hm) as [H1 H2 H3 (d & [H4 H5 H6 H7])]. constructor; [done..|]. by exists d.
Qed.

(** The list of removed areas, last removed first. *)
Definition free_ring (F : list entry) : list vlink := list_link <$> F.*1.
Definition release_state s A L (F : list entry) : Prop :=
  vmm_inv s A L ∧ L !! free_list = Some (free_ring F).

Lemma collect_step s A L m l1 p l2 F :
  release_state s A L F → A !! m = Some (l1 ++ p :: l2) →
  ∃ s' L', (_ ← remove_vma_struct m p.1; on_vlinks (list_add free_list (list_link p.1)) : M vst unit) s = Ok (tt, s') ∧
    release_state s' (<[m := l1 ++ l2]> A) L' (p :: F) ∧ kept s s' ∧ vmas s' = vmas s ∧
    (∀ v, is_Some (rbs s !! rb_link v) → is_Some (rbs s' !! rb_link v)).
Proof.
  intros [Hi HF] Hm. destruct (remove_vma_struct_ok s A L m l1 p l2 Hi Hm) as (s1 & E1 & Hi1 & Hk1 & Hv1 & Hl1 & Hf1 & Hs1).
  rewrite (bind_ok _ _ _ _ _ E1). set (L1 := <[mmap_list m := _]> L) in *.
  assert (HF1 : L1 !! free_list = Some (free_ring F)) by (unfold L1; by rewrite lookup_insert_ne).
  pose proof (lo_rep _ _ _ (vi_links _ _ _ Hi1)) as Hr1. pose proof (lv_link _ _ _ _ _ _ Hl1) as Hun.
  destruct (list_add_after_spec (vlinks s1) L1 free_list _ (list_link p.1) Hr1 HF1) as (h & Eh & Hr2); [by apply unlisted_available|done|].
  assert (Hdel : delete (list_link p.1) L1 = L1).
  { apply delete_id. destruct (L1 !! list_link p.1) eqn:HLv; [|done]. exfalso. apply (Hun _ _ HLv). set_solver. }
  rewrite Hdel in Hr2. exists (s1 <| vlinks := h |>), (<[free_list := list_link p.1 :: free_ring F]> L1).
  split; [by apply on_vlinks_ok|]. split; [|split; [|split; [done|exact Hs1]]].
  - split; [|by rewrite lookup_insert_eq]. eapply inv_links; [exact Hi1|exact Hr2|intros m'; by rewrite lookup_insert_ne|].
    intros k ks e [[<- <-]|[_ Hk]]%lookup_insert_Some He; [|by apply (lo_fresh _ _ _ (vi_links _ _ _ Hi1) k ks)].
    apply elem_of_cons in He as [->|[->|He]%elem_of_cons]; [done| |].
    + simpl. destruct (vi_fresh _ _ _ Hi1) as [Hf _]. eapply Hf, Hl1.
    + apply (lo_fresh _ _ _ (vi_links _ _ _ Hi1) _ _ e HF1). set_solver.
  - eapply kept_trans; [exact Hk1|apply kept_vlinks].
Qed.

Lemma collect_loop fuel s A L m end_ l1 p mid l2 F :
  release_state s A L F → A !! m = Some (l1 ++ (p :: mid) ++ l2) →
  (∀ q, q ∈ p :: mid → vm_start q.2 < end_) → (∀ q, q ∈ l2 → end_ ≤ vm_start q.2) → (S (length mid) < fuel)%nat →
  ∃ s' L', loop fuel (collect_body m end_) p.1 s = Ok (tt, s') ∧
    release_state s' (<[m := l1 ++ l2]> A) L' (rev (p :: mid) ++ F) ∧ kept s s' ∧ vmas s' = vmas s ∧
    (∀ v, is_Some (rbs s !! rb_link v) → is_Some (rbs s' !! rb_link v)).
Proof.
  revert fuel s A L p F. induction mid as [|p' mid IH]; intros [|fuel] s A L p F Hr Hm Hmid Hl2 Hf; try (simpl in Hf; lia);
    pose proof Hr as [Hi _]; pose proof (mm_lists _ _ _ _ _ Hi Hm) as HL; simpl app in Hm;
    destruct (collect_step _ _ _ _ _ _ _ _ Hr Hm) as (s1 & L1 & E1 & Hr1 & Hk1 & Hv1 & Hs1);
    destruct (vi_mm _ _ _ Hi _ _ Hm) as [Hvm _ _ _]; destruct (Hvm p ltac:(set_solver)) as (Hvp & _).
  - assert (Hnext : on_vlinks (list_next (list_link p.1)) s = Ok (first m l2, s)).
    { rewrite <-(pos_snoc m l1 p). apply (next_pos _ L). by rewrite <-app_assoc. }
    assert (Hb : collect_body m end_ p.1 s = ((if decide (first m l2 = mmap_list m) then mret (inr tt)
        else v ← le2vma (first m l2); mret (inl v) : M vst (Z + unit)) s1)).
    { unfold collect_body. rewrite (bind_ok _ _ _ _ _ (get_vma_ok _ _ _ Hvp)).
      rewrite (proj2 (Z.ltb_lt _ _) (Hmid p ltac:(set_solver))). rewrite (bind_ok _ _ _ _ _ Hnext).
      apply bind_inv in E1 as (r & s0 & E1 & E1'). rewrite (bind_ok _ _ _ _ _ E1). by rewrite (bind_ok _ _ _ _ _ E1'). }
    exists s1, L1. split; [|by split_and!].
    destruct l2 as [|q l2]; simpl first in Hb.
    + apply loop_stop. by rewrite Hb, decide_True.
    + rewrite decide_False in Hb by done. destruct fuel as [|fuel]; [simpl in Hf; lia|].
      rewrite (loop_next _ _ _ _ q.1 s1); [|by rewrite Hb]. apply loop_stop. unfold collect_body.
      assert (Hq : vmas s1 !! q.1 = Some q.2) by (rewrite Hv1; apply Hvm; set_solver).
      rewrite (bind_ok _ _ _ _ _ (get_vma_ok _ _ _ Hq)). by rewrite (proj2 (Z.ltb_ge _ _) (Hl2 q ltac:(set_solver))).
  - destruct (IH fuel s1 (<[m := l1 ++ (p' :: mid) ++ l2]> A) L1 p' (p :: F)) as (s2 & L2 & E2 & Hr2 & Hk2 & Hv2 & Hs2); try done.
    + by rewrite lookup_insert_eq.
    + intros q Hq. apply Hmid. set_solver.
    + simpl in Hf. lia.
    + exists s2, L2. split; [|split; [|split; [by eapply kept_trans|split; [congruence|auto]]]].
      * rewrite (loop_next _ _ _ _ p'.1 s1); [exact E2|]. unfold collect_body. rewrite (bind_ok _ _ _ _ _ (get_vma_ok _ _ _ Hvp)).
        rewrite (proj2 (Z.ltb_lt _ _) (Hmid p ltac:(set_solver))).
        assert (Hnext : on_vlinks (list_next (list_link p.1)) s = Ok (list_link p'.1, s)).
        { rewrite <-(pos_snoc m l1 p). apply (next_pos _ L _ _ ((p' :: mid) ++ l2)). by rewrite <-app_assoc. }
        rewrite (bind_ok _ _ _ _ _ Hnext).
        apply bind_inv in E1 as (r & s0 & E1 & E1'). rewrite (bind_ok _ _ _ _ _ E1). by rewrite (bind_ok _ _ _ _ _ E1'), decide_False.
      * rewrite insert_insert_eq in Hr2. simpl rev in *. rewrite <-!app_assoc in *. exact Hr2.
Qed.

(** ** Releasing them

    The walk along the list of removed areas reads only their forward links,
    which the insertions elsewhere leave alone. *)

Definition ffirst (F : list entry) : vlink := match F with [] => free_list | p :: _ => list_link p.1 end.
Fixpoint chained (h : gmap vlink (list_entry vlink)) (F : list entry) : Prop :=
  match F with [] => True | p :: F => next_of h (list_link p.1) = Some (ffirst F) ∧ chained h F end.

Lemma chained_frame h h' F :
  (∀ p, p ∈ F → h' !! list_link p.1 = h !! list_link p.1) → chained h F → chained h' F.
Proof.
  induction F as [|p F IH]; [done|]. simpl. intros Hf [Hn Hc]. split; [unfold next_of in *; rewrite Hf by set_solver; done|].
  apply IH; [|done]. intros q Hq. apply Hf. set_solver.
Qed.
Lemma ring_chained h L F : rep h L → L !! free_list = Some (free_ring F) → chained h F.
Proof.
  intros Hr HF. assert (H : ∀ F0 F1, F = F0 ++ F1 → chained h F1); [|by apply (H [])].
  intros F0 F1. revert F0. induction F1 as [|p F1 IH]; intros F0 ->; [done|]. simpl. split; [|apply (IH (F0 ++ [p])); by rewrite <-app_assoc].
  unfold free_ring in HF. rewrite !fmap_app in HF.
  assert (HF' : L !! free_list = Some (((list_link <$> F0.*1) ++ [list_link p.1]) ++ (list_link <$> F1.*1))) by (by rewrite <-app_assoc).
  pose proof (list_next_cursor _ _ _ _ _ Hr HF') as E. rewrite cursor_snoc in E. unfold list_next, deref, mbind, M_bind in E.
  unfold next_of. destruct (h !! list_link p.1) as [e|]; [|done]. injection E as E. simpl. f_equal. rewrite E. by destruct F1.
Qed.

Lemma loose_freed s A L m p : loose s A L m p.1 p.2 → vm_mm p.2 = Some m → freed s m p.
Proof. intros [H1 _ _ H2] Hm. by constructor. Qed.
Lemma freed_loose s A L m p : freed s m p → unlisted L (list_link p.1) → loose s A L m p.1 p.2.
Proof. intros [H1 H2 H3] Hun. constructor; [done|intros m' ?; congruence|done|done]. Qed.

Lemma mm_same x m : vm_mm x = Some m → x <| vm_mm := Some m |> = x.
Proof. intros H. destruct x. simpl in *. by subst. Qed.

(** [kept], but [h] are the shared memories now and the events [evs] happened. *)
Definition kept_as s s' (h : gmap Z shmem_struct) (evs : list event) : Prop :=
  kept (s <| shmems := h |> <| events := events s ++ evs |>) s'.
Definition kept_events s s' (evs : list event) : Prop := kept (s <| events := events s ++ evs |>) s'.
Lemma kept_events_nil s s' : kept s s' → kept_events s s' [].
Proof. intros [H1 H2 H3 H4 H5]. constructor; simpl; [done|by rewrite app_nil_r|done..]. Qed.
Lemma kept_as_nil s s' : kept s s' → kept_as s s' (shmems s) [].
Proof. intros [H1 H2 H3 H4 H5]. constructor; simpl; [done|by rewrite app_nil_r|done..]. Qed.
Lemma kept_as_app s1 s2 s3 h2 h3 e1 e2 : kept_as s1 s2 h2 e1 → kept_as s2 s3 h3 e2 → kept_as s1 s3 h3 (e1 ++ e2).
Proof.
  intros [H1 H2 H3 [k H4] H5] [G1 G2 G3 [k' G4] G5]. simpl in *.
  constructor; simpl; [congruence|by rewrite G2, H2, app_assoc|congruence| |intros m; by rewrite G5, H5].
  exists (k + k')%nat. by rewrite G4, H4, drop_drop.
Qed.
Lemma kept_events_app s1 s2 s3 e1 e2 : kept_events s1 s2 e1 → kept_events s2 s3 e2 → kept_events s1 s3 (e1 ++ e2).
Proof. intros H1 H2. refine (kept_as_app s1 s2 s3 (shmems s1) (shmems s1) e1 e2 H1 _). destruct H1 as [E _ _ _ _]. simpl in E. unfold kept_as. by rewrite <-E. Qed.
Lemma kept_as_after s1 s2 s3 h e : kept s1 s2 → kept_as s2 s3 h e → kept_as s1 s3 h e.
Proof. intros H1 H2. by apply (kept_as_app s1 s2 s3 (shmems s1) h [] e (kept_as_nil _ _ H1)). Qed.

(** Changes of the shared memories and events. *)
Lemma shmems_inv s A L h : vmm_inv s A L → vmm_inv (s <| shmems := h |>) A L.
Proof.
  intros [[Hr Hl Hlf] Hdom Hmm Htr Hfr]. constructor; [by constructor|done| |done|done].
  intros m l Hm. destruct (Hmm m l Hm) as [H1 H2 H3 (d & [H4 H5 H6 H7])]. constructor; [done..|]. by exists d.
Qed.
Lemma events_inv s A L evs : vmm_inv s A L → vmm_inv (s <| events := evs |>) A L.
Proof.
  intros [[Hr Hl Hlf] Hdom Hmm Htr Hfr]. constructor; [by constructor|done| |done|done].
  intros m l Hm. destruct (Hmm m l Hm) as [H1 H2 H3 (d & [H4 H5 H6 H7])]. constructor; [done..|]. by exists d.
Qed.

(** The reference a removed area gives back, and the end of a shared memory
    without references; [None] when the area holds no live shared memory. *)
Definition drop_ref p (h : gmap Z shmem_struct) : option (gmap Z shmem_struct * list event) :=
  if shared p.2 then
    match shmem p.2 with
    | Some sh =>
        match h !! sh with
        | Some d => Some (if s32 (shmem_ref d - 1) =? 0 then (delete sh h, [shmem_destroy sh])
                          else (<[sh := d <| shmem_ref := s32 (shmem_ref d - 1) |>]> h, []))
        | None => None
        end
    | None => None
    end
  else Some (h, []).

Lemma drop_ref_ok s A L m l p :
  vmm_inv s A L → A !! m = Some l → loose s A L m p.1 p.2 →
  match drop_ref p (shmems s) with
  | None => vma_destroy p.1 s = Err Fault
  | Some (h, evs) => vma_destroy p.1 s = kfree_vma p.1 (s <| shmems := h |> <| events := events s ++ evs |>)
  end.
Proof.
  intros Hi Hm [Hv _ _ _]. unfold vma_destroy, drop_ref. rewrite (bind_ok _ _ _ _ _ (get_vma_ok _ _ _ Hv)).
  change (negb (Z.land (vm_flags p.2) VM_SHARE =? 0)) with (shared p.2).
  destruct (shared p.2).
  2:{ rewrite (bind_ok _ _ s tt s) by done. f_equal. destruct s. simpl. by rewrite app_nil_r. }
  unfold shmem_ref_dec, shmem_ref_add. destruct (shmem p.2) as [sh|]; [|done].
  unfold deref, modify, emit, when, mbind, M_bind, mret, M_ret. simpl.
  destruct (shmems s !! sh) as [d|] eqn:Hd; simpl; [|done].
  replace (shmem_ref d + -1) with (shmem_ref d - 1) by lia. destruct (s32 (shmem_ref d - 1) =? 0); simpl.
  - f_equal. destruct s. simpl. by rewrite delete_insert_eq.
  - f_equal. destruct s. simpl. by rewrite app_nil_r.
Qed.

(** Giving an area back. *)
Lemma kfree_vma_ok s A L m l p :
  vmm_inv s A L → A !! m = Some l → loose s A L m p.1 p.2 →
  ∃ s', kfree_vma p.1 s = Ok (tt, s') ∧ vmm_inv s' A L ∧ kept s s' ∧ mms s' = mms s ∧
    (∀ q, q.1 ≠ p.1 → freed s m q → freed s' m q) ∧ (∀ k, k ≠ list_link p.1 → vlinks s' !! k = vlinks s !! k).
Proof.
  intros Hi Hm Hl. pose proof (loose_notin _ _ _ _ _ _ _ _ Hi Hl Hm) as Hnin. destruct Hl as [Hv Hmm Hun Hnode].
  unfold kfree_vma. rewrite (bind_ok _ _ _ _ _ (get_vma_ok _ _ _ Hv)).
  eexists. split; [done|]. destruct (vi_mm _ _ _ Hi _ _ Hm) as [Hvm Hnd Hs (d & [Hd Hcnt Hca Htree])].
  destruct (mm_lists _ _ _ _ _ Hi Hm) as [Hrep HLm]. pose proof (vi_fresh _ _ _ Hi) as [Hf _].
  assert (Hne : ∀ q, q ∈ l → q.1 ≠ p.1) by (intros q Hq Heq; apply Hnin; rewrite <-Heq; by apply list_elem_of_fmap_2).
  split; [|split; [constructor; (done || by exists 0%nat)|split; [done|split]]].
  - rewrite <-(insert_id A m l Hm). apply (inv_update s _ A L L m l l); try done.
    + constructor; try done.
      * intros v' y m' Hv' Hy Hne'. simpl. assert (v' ≠ p.1) by (intros ->; simplify_eq; by specialize (Hmm _ Hy)).
        rewrite !lookup_delete_ne by congruence. done.
      * intros m' d0 t _ _ _. simpl. by rewrite !lookup_delete_ne by congruence.
      * simpl. split; [done|]. intros v' y [_ Hy]%lookup_delete_Some. eauto.
      * intros d0 t Hd0 Ht. left. by exists d0.
    + by apply rep_forget.
    + intros k ks e Hk He. by apply (lo_fresh _ _ _ (vi_links _ _ _ Hi) k ks).
    + constructor; [|done|done|].
      * intros q Hq. destruct (Hvm q Hq) as (? & ? & ?). simpl. specialize (Hne q Hq). rewrite !lookup_delete_ne by congruence. done.
      * exists d. constructor; [done..|]. intros t Ht. destruct (Htree t Ht) as [? Hh]. split; [done|].
        apply (holds_seq_frame _ (rbs s)); [|by apply (holds_seq_compare (tree_of s t))]. intros n Hn. simpl. rewrite lookup_delete_ne; [done|]. intros <-.
        unfold footprint in Hn. simpl in Hn. rewrite !elem_of_union, !elem_of_singleton, elem_of_list_to_set in Hn.
        destruct Hn as [?|[?|Hin]]; [done|done|]. by apply list_elem_of_fmap in Hin as (v' & [= <-] & ?).
  - intros q Hq [H1 H2 H3]. constructor; simpl; [by rewrite lookup_delete_ne by congruence|done|by rewrite lookup_delete_ne by congruence].
  - intros k Hk. simpl. by rewrite lookup_delete_ne by congruence.
Qed.

(** Changing a removed area. *)
Lemma set_freed_ok s A L m l p x' :
  vmm_inv s A L → A !! m = Some l → loose s A L m p.1 p.2 → vm_mm p.2 = Some m → vm_mm x' = Some m →
  let s' := s <| vmas := <[p.1 := x']> (vmas s) |> in
  vmm_inv s' A L ∧ loose s' A L m p.1 x' ∧ (∀ q, q.1 ≠ p.1 → freed s m q → freed s' m q).
Proof.
  intros Hi Hm Hl Hmp Hmx s'. pose proof (loose_notin _ _ _ _ _ _ _ _ Hi Hl Hm) as Hnin. destruct Hl as [Hv Hmm Hun Hnode].
  destruct (vi_mm _ _ _ Hi _ _ Hm) as [Hvm Hnd Hs _]. split; [|split].
  - unfold s'. rewrite <-(insert_id A m l Hm). apply (inv_set_vma s A L m l l p.1 p.2 x'); try done.
    intros q Hq. destruct (Hvm q Hq) as (? & ? & _). split; [|done]. rewrite lookup_insert_ne; [done|].
    intros Heq. apply Hnin. rewrite Heq. by apply list_elem_of_fmap_2.
  - constructor; simpl; [by rewrite lookup_insert_eq|intros m' ?; congruence|done|done].
  - intros q Hq [H1 H2 H3]. constructor; simpl; [by rewrite lookup_insert_ne by congruence|done|done].
Qed.

(** One removed area, and those still to be released. *)
Record releasing s A L m (l1 R l2 F : list entry) : Prop := {
  rl_inv : vmm_inv s A L;
  rl_mm : A !! m = Some (l1 ++ R ++ l2);
  rl_sorted : sorted_areas (l1 ++ rev F ++ R ++ l2);
  rl_chain : chained (vlinks s) F;
  rl_freed : ∀ q, q ∈ F → freed s m q ∧ unlisted L (list_link q.1);
  rl_nodup : NoDup F.*1;
}.

Lemma reinsert_step s A L m l1 R l2 p F st en a b pg :
  releasing s A L m l1 R l2 (p :: F) → st mod PGSIZE = 0 → en mod PGSIZE = 0 → a mod PGSIZE = 0 → b mod PGSIZE = 0 →
  vm_start p.2 ≤ st → st < en → en ≤ vm_end p.2 → USERBASE ≤ a → a < b → b ≤ USERTOP →
  let p' := (p.1, resized p.2 st en) in
  ∃ s' L', (_ ← vma_resize p.1 st en; _ ← insert_vma_struct m p.1; unmap_vma_range pg p.1 a b : M vst unit) s = Ok (tt, s') ∧
    releasing s' (<[m := l1 ++ (p' :: R) ++ l2]> A) L' m l1 (p' :: R) l2 F ∧ kept_events s s' (unmap_events pg p.2 a b).
Proof.
  intros [Hi Hm Hs Hch Hfd Hnd] Hp1 Hp2 Hp3 Hp4 H1 H2 H3 H4 H5 H6 p'.
  destruct (Hfd p ltac:(set_solver)) as [Hp Hun]. pose proof (freed_loose _ A L _ _ Hp Hun) as Hl. destruct Hp as [Hv Hmm Hnode].
  simpl rev in Hs. rewrite <-app_assoc in Hs. simpl app in Hs.
  apply sorted_app in Hs as (Hs1 & Hs23 & Hb1). apply sorted_app in Hs23 as (HsF & Hs3 & HbF).
  apply sorted_cons in Hs3 as (Hpo & Hs3 & Hb3).
  rewrite (bind_ok _ _ _ _ _ (vma_resize_ok s _ _ st en Hv Hp1 Hp2 H1 H2 H3)). set (x' := resized p.2 st en).
  destruct (set_freed_ok s A L m _ p x' Hi Hm Hl Hmm Hmm) as (Hi1 & Hl1 & Hfr1). set (s1 := s <| vmas := _ |>) in *.
  pose proof (resized_ok _ st en Hpo Hp1 Hp2 H1 H2 H3) as Hx'. fold x' in Hx'.
  destruct (insert_vma_struct_ok s1 A L m l1 (R ++ l2) p.1 x' Hi1 Hm Hl1 Hx') as (s2 & E2 & Hi2 & Hk2 & Hv2 & _ & Hn2 & Hlk2).
  { intros q Hq. specialize (Hb1 q p Hq ltac:(set_solver)). unfold before in Hb1. simpl. lia. }
  { intros q Hq. specialize (Hb3 q Hq). unfold before in Hb3. simpl. lia. }
  rewrite (mm_same x' m Hmm) in Hi2, Hv2. rewrite (bind_ok _ _ _ _ _ E2).
  assert (Hvx : vmas s2 !! p.1 = Some x') by (rewrite Hv2; apply lookup_insert_eq).
  rewrite (unmap_vma_range_ok s2 pg p.1 x' a b Hvx Hp3 Hp4 H4 H5 H6).
  eexists. exists (<[mmap_list m := list_link <$> (l1 ++ p' :: R ++ l2).*1]> L). split; [done|]. split.
  - constructor.
    + apply events_inv, Hi2.
    + by rewrite lookup_insert_eq.
    + apply sorted_app. split; [done|]. split.
      * apply sorted_app. split; [done|]. split; [apply sorted_cons; split; [done|split; [done|]]|].
        -- intros q Hq. specialize (Hb3 q Hq). unfold before in *. simpl. lia.
        -- intros q r Hq [->|Hr]%elem_of_cons; [|apply HbF; set_solver].
           specialize (HbF q p Hq ltac:(set_solver)). unfold before in *. simpl. lia.
      * intros q r Hq [Hr|[->|Hr]%elem_of_cons]%elem_of_app; [apply Hb1; set_solver| |apply Hb1; set_solver].
        specialize (Hb1 q p Hq ltac:(set_solver)). unfold before in *. simpl. lia.
    + apply (chained_frame (vlinks s1)); [|apply Hch]. intros q Hq. apply Hlk2.
      * intros [= Heq]. apply NoDup_cons in Hnd as [Hnd _]. apply Hnd. rewrite <-Heq. by apply list_elem_of_fmap_2.
      * destruct (Hfd q ltac:(set_solver)) as [_ Hunq]. apply Hunq. by apply (lo_list _ _ _ (vi_links _ _ _ Hi1)).
    + intros q Hq. destruct (Hfd q ltac:(set_solver)) as [Hfq Hunq].
      assert (Hne : q.1 ≠ p.1).
      { intros Heq. apply NoDup_cons in Hnd as [Hnd _]. apply Hnd. rewrite <-Heq. by apply list_elem_of_fmap_2. }
      destruct (Hfr1 q Hne Hfq) as [G1 G2 G3]. split.
      * constructor; simpl; [by rewrite Hv2, lookup_insert_ne|done|by apply Hn2].
      * intros k ks [[<- <-]|[Hk1 Hk2']]%lookup_insert_Some Hin; [|by apply (Hunq _ _ Hk2')].
        apply elem_of_cons in Hin as [?|Hin]; [done|]. apply list_elem_of_fmap in Hin as (v & [= <-] & Hin).
        pose proof (loose_notin _ _ _ _ _ _ _ _ Hi (freed_loose _ A L _ _ Hfq Hunq) Hm) as Hnin.
        rewrite !fmap_app, fmap_cons, fmap_app in Hin. rewrite !fmap_app in Hnin. simpl in Hin. set_solver.
    + by apply NoDup_cons in Hnd as [_ ?].
  - apply (kept_events_app s s2 _ [] (unmap_events pg p.2 a b)).
    + apply kept_events_nil. eapply kept_trans; [|exact Hk2]. apply kept_vmas.
    + apply kept_refl.
Qed.

Lemma destroy_step s A L m l1 R l2 p F pg :
  releasing s A L m l1 R l2 (p :: F) →
  let body : M vst unit := _ ← unmap_vma_range pg p.1 (vm_start p.2) (vm_end p.2); vma_destroy p.1 in
  match drop_ref p (shmems s) with
  | None => body s = Err Fault
  | Some (h, evs) => ∃ s', body s = Ok (tt, s') ∧ releasing s' A L m l1 R l2 F ∧
      kept_as s s' h (unmap_events pg p.2 (vm_start p.2) (vm_end p.2) ++ evs)
  end.
Proof.
  intros [Hi Hm Hs Hch Hfd Hnd] body. unfold body.
  destruct (Hfd p ltac:(set_solver)) as [Hp Hun]. pose proof (freed_loose _ A L _ _ Hp Hun) as Hl. destruct Hp as [Hv Hmm Hnode].
  simpl rev in Hs. rewrite <-app_assoc in Hs. simpl app in Hs.
  pose proof Hs as Hs'. apply sorted_app in Hs' as (Hs1 & Hs23 & Hb1). apply sorted_app in Hs23 as (HsF & Hs3 & HbF).
  apply sorted_cons in Hs3 as ([[Hr1 [Hr2 Hr3]] [Hq1 Hq2]] & Hs3 & Hb3).
  rewrite (bind_ok _ _ _ _ _ (unmap_vma_range_ok s pg p.1 p.2 _ _ Hv Hq1 Hq2 Hr1 Hr2 Hr3)). set (s1 := s <| events := _ |>).
  assert (Hl1 : loose s1 A L m p.1 p.2) by (destruct Hl; by constructor).
  pose proof (drop_ref_ok s1 A L m _ p (events_inv _ _ _ _ Hi) Hm Hl1) as Hdr. change (shmems s1) with (shmems s) in Hdr.
  destruct (drop_ref p (shmems s)) as [[h evs]|]; [|exact Hdr]. set (s1' := s1 <| shmems := h |> <| events := _ |>) in Hdr.
  assert (Hl1' : loose s1' A L m p.1 p.2) by (destruct Hl1; by constructor).
  destruct (kfree_vma_ok s1' A L m _ p (events_inv _ _ _ _ (shmems_inv _ _ _ _ (events_inv _ _ _ _ Hi))) Hm Hl1') as (s2 & E2 & Hi2 & Hk2 & _ & Hfr & Hlk).
  exists s2. split; [by rewrite Hdr|]. apply NoDup_cons in Hnd as [Hpn Hnd].
  assert (Hne : ∀ q, q ∈ F → q.1 ≠ p.1) by (intros q Hq Heq; apply Hpn; rewrite <-Heq; by apply list_elem_of_fmap_2).
  split; [|unfold kept_as; rewrite app_assoc; exact Hk2]. constructor; [done|done| | | |done].
  - apply sorted_app. split; [done|]. split; [|intros q r Hq Hr; apply Hb1; set_solver].
    apply sorted_app. split; [done|]. split; [done|]. intros q r Hq Hr. apply HbF; set_solver.
  - apply (chained_frame (vlinks s1)); [|apply Hch]. intros q Hq. apply Hlk. specialize (Hne q Hq). congruence.
  - intros q Hq. destruct (Hfd q ltac:(set_solver)) as [Hfq Hunq]. split; [|done]. apply Hfr; [by apply Hne|].
    destruct Hfq. by constructor.
Qed.

(** Areas that the release leaves or takes apart correctly. *)
Definition cuttable (start end_ : Z) p : Prop :=
  overlaps p.2 start end_ ∧ ¬ (vm_start p.2 < start ∧ end_ < vm_end p.2).

(** What the release of an area, and of the areas [F] in turn, does to the
    shared memories, with the events. *)
Definition cut_refs (start end_ : Z) p (h : gmap Z shmem_struct) : option (gmap Z shmem_struct * list event) :=
  match cut start end_ p with [] => drop_ref p h | _ => Some (h, []) end.
Fixpoint release_all (pg start end_ : Z) (F : list entry) (h : gmap Z shmem_struct) : option (gmap Z shmem_struct * list event) :=
  match F with
  | [] => Some (h, [])
  | p :: F =>
      match cut_refs start end_ p h with
      | Some (h1, e1) =>
          match release_all pg start end_ F h1 with
          | Some (h2, e2) => Some (h2, (cut_events pg start end_ p ++ e1) ++ e2)
          | None => None
          end
      | None => None
      end
  end.

Lemma release_step s A L m l1 R l2 p F start end_ d :
  releasing s A L m l1 R l2 (p :: F) → cuttable start end_ p → USER_ACCESS start end_ = true →
  start mod PGSIZE = 0 → end_ mod PGSIZE = 0 → mms s !! m = Some d →
  match cut_refs start end_ p (shmems s) with
  | None => release_body m start end_ (list_link p.1) s = Err Fault
  | Some (h, evs) =>
      ∃ s' A' L', release_body m start end_ (list_link p.1) s = Ok (inl (ffirst F), s') ∧
        A' = <[m := l1 ++ (cut start end_ p ++ R) ++ l2]> A ∧
        releasing s' A' L' m l1 (cut start end_ p ++ R) l2 F ∧ kept_as s s' h (cut_events (pgdir d) start end_ p ++ evs)
  end.
Proof.
  intros Hr [[Ho1 Ho2] Hns] [[Hu1%Z.leb_le Hu2%Z.ltb_lt]%andb_true_iff Hu3%Z.leb_le]%andb_true_iff Hp1 Hp2 Hd.
  pose proof Hr as [Hi Hm Hs [Hn Hch] Hfd Hnd]. destruct (Hfd p ltac:(set_solver)) as [[Hv Hmm Hnode] _].
  assert (Hpo : area_ok p.2).
  { apply (sorted_in _ p Hs). simpl rev. set_solver. }
  pose proof Hpo as [[Hr1 [Hr2 Hr3]] [Hq1 Hq2]].
  assert (Hnext : on_vlinks (list_next (list_link p.1)) s = Ok (ffirst F, s)).
  { apply on_vlinks_read. unfold list_next, deref, mbind, M_bind. unfold next_of in Hn.
    destruct (vlinks s !! list_link p.1) as [e|]; [|done]. simpl in Hn. by injection Hn as ->. }
  assert (Hb : ∀ o : res (unit * vst), (if vm_start p.2 <? start
      then _ ← vma_resize p.1 (vm_start p.2) start; _ ← insert_vma_struct m p.1; unmap_vma_range (pgdir d) p.1 start (vm_end p.2)
      else if end_ <? vm_end p.2
      then _ ← vma_resize p.1 end_ (vm_end p.2); _ ← insert_vma_struct m p.1; unmap_vma_range (pgdir d) p.1 (vm_start p.2) end_
      else _ ← unmap_vma_range (pgdir d) p.1 (vm_start p.2) (vm_end p.2); vma_destroy p.1 : M vst unit) s = o →
    release_body m start end_ (list_link p.1) s = match o with Ok (_, s') => Ok (inl (ffirst F), s') | Err e => Err e end).
  { intros o E. unfold release_body. rewrite decide_True by done. simpl le2vma. rewrite (bind_ok _ _ s p.1 s) by done.
    rewrite (bind_ok _ _ _ _ _ Hnext), (bind_ok _ _ _ _ _ (get_vma_ok _ _ _ Hv)), (bind_ok _ _ _ _ _ (get_mm_ok _ _ _ Hd)).
    destruct o as [[[] s']|e]; [by rewrite (bind_ok _ _ _ _ _ E)|by rewrite (bind_err _ _ _ _ E)]. }
  unfold cut_refs, cut, cut_events in *. rewrite (decide_True _ _ (conj Ho1 Ho2 : overlaps _ _ _)) in *.
  destruct (Z.ltb_spec (vm_start p.2) start) as [Hlt|Hge]; [|destruct (Z.ltb_spec end_ (vm_end p.2)) as [Hlt2|Hge2]].
  - destruct (reinsert_step s A L m l1 R l2 p F (vm_start p.2) start start (vm_end p.2) (pgdir d) Hr) as (s' & L' & E & Hr' & Hk); try done; try lia.
    eexists s', _, L'. split; [by rewrite (Hb _ E)|]. split; [done|]. split; [exact Hr'|by rewrite app_nil_r].
  - destruct (reinsert_step s A L m l1 R l2 p F end_ (vm_end p.2) (vm_start p.2) end_ (pgdir d) Hr) as (s' & L' & E & Hr' & Hk); try done; try lia.
    eexists s', _, L'. split; [by rewrite (Hb _ E)|]. split; [done|]. split; [exact Hr'|by rewrite app_nil_r].
  - pose proof (destroy_step s A L m l1 R l2 p F (pgdir d) Hr) as Hde. cbv zeta in Hde.
    destruct (drop_ref p (shmems s)) as [[h evs]|]; [|by rewrite (Hb _ Hde)]. destruct Hde as (s' & E & Hr' & Hk).
    exists s', A, L. split; [by rewrite (Hb _ E)|]. split; [|split; [exact Hr'|exact Hk]]. simpl. by rewrite insert_id.
Qed.

Lemma release_loop fuel s A L m l1 R l2 F start end_ d :
  releasing s A L m l1 R l2 F → (∀ p, p ∈ F → cuttable start end_ p) → USER_ACCESS start end_ = true →
  start mod PGSIZE = 0 → end_ mod PGSIZE = 0 → mms s !! m = Some d → (length F < fuel)%nat →
  match release_all (pgdir d) start end_ F (shmems s) with
  | None => loop fuel (release_body m start end_) (ffirst F) s = Err Fault
  | Some (h, evs) =>
      ∃ s', loop fuel (release_body m start end_) (ffirst F) s = Ok (tt, s') ∧
        vmm_ok s' (<[m := l1 ++ (flat_map (cut start end_) (rev F) ++ R) ++ l2]> A) ∧ kept_as s s' h evs
  end.
Proof.
  revert fuel s A L R d. induction F as [|p F IH]; intros [|fuel] s A L R d Hr Hc Hu Hp1 Hp2 Hd Hf; try (simpl in Hf; lia).
  - exists s. split; [apply loop_stop; done|]. simpl.
    destruct Hr as [Hi Hm _ _ _ _]. rewrite insert_id by done. split; [by exists L|apply kept_as_nil, kept_refl].
  - simpl release_all. simpl ffirst.
    pose proof (release_step s A L m l1 R l2 p F start end_ d Hr (Hc p ltac:(set_solver)) Hu Hp1 Hp2 Hd) as Hst.
    destruct (cut_refs start end_ p (shmems s)) as [[h1 e1]|].
    2:{ simpl. unfold mbind, M_bind. by rewrite Hst. }
    destruct Hst as (s1 & A1 & L1 & E1 & -> & Hr1 & Hk1). destruct (kept_mm _ _ m d Hk1) as (d1 & Hd1 & Hmeta); [done|].
    assert (pgdir d1 = pgdir d) as Hpg by (unfold meta in Hmeta; simpl in Hmeta; congruence).
    assert (shmems s1 = h1) as Hh1 by (destruct Hk1 as [Ek _ _ _ _]; exact Ek).
    specialize (IH fuel s1 _ L1 _ d1 Hr1). rewrite Hpg, Hh1 in IH. rewrite (loop_next _ _ _ _ _ _ E1).
    assert (length F < fuel)%nat as Hf' by (simpl in Hf; lia).
    specialize (IH ltac:(intros q Hq; apply Hc; set_solver) Hu Hp1 Hp2 Hd1 Hf').
    destruct (release_all (pgdir d) start end_ F h1) as [[h2 e2]|]; [|exact IH]. destruct IH as (s2 & E2 & Hok & Hk2).
    exists s2. split; [exact E2|]. split.
    + simpl rev. rewrite flat_map_app. simpl flat_map. rewrite app_nil_r, <-!app_assoc in *. rewrite insert_insert_eq in Hok. exact Hok.
    + eapply kept_as_app; [exact Hk1|exact Hk2].
Qed.

(** ** [mm_unmap] *)

(** The areas that meet the range are consecutive. *)
Lemma overlap_split l p0 start end_ :
  sorted_areas l → p0 ∈ l → contains start p0.2 → start < end_ →
  ∃ l1 mid l2, l = l1 ++ (p0 :: mid) ++ l2 ∧
    (∀ q, q ∈ p0 :: mid → overlaps q.2 start end_) ∧ (∀ q, q ∈ l1 ++ l2 → ¬ overlaps q.2 start end_) ∧
    (∀ q, q ∈ mid → start ≤ vm_start q.2) ∧ (∀ q, q ∈ l2 → end_ ≤ vm_start q.2).
Proof.
  intros Hs Hp [Hc1 Hc2] Hlt. apply list_elem_of_split in Hp as (l1 & rest & ->).
  apply sorted_app in Hs as (Hs1 & Hsr & Hb1). apply sorted_cons in Hsr as (Hp0 & Hsr & Hb0).
  destruct (place_split (end_ - 1) rest Hsr) as (mid & l2 & -> & Hmid & Hl2).
  exists l1, mid, l2. split; [done|]. unfold overlaps, before in *. split_and!.
  - intros q [->|Hq]%elem_of_cons; [lia|]. specialize (Hmid q Hq). specialize (Hb0 q ltac:(set_solver)).
    destruct (sorted_in _ q Hsr ltac:(set_solver)) as [? _]. lia.
  - intros q [Hq|Hq]%elem_of_app; [specialize (Hb1 q p0 Hq ltac:(set_solver)); lia|]. specialize (Hl2 q Hq). lia.
  - intros q Hq. specialize (Hb0 q ltac:(set_solver)). lia.
  - intros q Hq. specialize (Hl2 q Hq). lia.
Qed.

Lemma cut_outside start end_ l : (∀ q, q ∈ l → ¬ overlaps q.2 start end_) → flat_map (cut start end_) l = l.
Proof.
  induction l as [|p l IH]; intros H; [done|]. simpl. rewrite IH by set_solver. unfold cut. rewrite decide_False; [done|]. apply H. set_solver.
Qed.
Lemma filter_mid {X} (P : X → Prop) `{∀ a, Decision (P a)} (l1 mid l2 : list X) :
  (∀ a, a ∈ mid → P a) → (∀ a, a ∈ l1 ++ l2 → ¬ P a) → filter P (l1 ++ mid ++ l2) = mid.
Proof.
  intros H1 H2. assert (Hno : ∀ l0 : list X, (∀ a, a ∈ l0 → ¬ P a) → filter P l0 = []).
  { induction l0 as [|a l0 IH]; intros Hl0; [done|]. rewrite filter_cons_False by (apply Hl0; set_solver). apply IH. set_solver. }
  rewrite !filter_app, (Hno l1), (Hno l2), app_nil_r by set_solver. simpl. clear H2.
  induction mid as [|a mid IH]; [done|]. rewrite filter_cons_True by (apply H1; set_solver). f_equal. apply IH. set_solver.
Qed.

Lemma mm_unmap_steps s s1 m addr len v x d :
  let '(start, end_) := map_range addr len in
  USER_ACCESS start end_ = true → find_vma (Some m) start s = Ok (Some v, s1) → vmas s1 !! v = Some x → mms s1 !! m = Some d →
  mm_unmap (Some m) addr len s =
    (if end_ <=? vm_start x then mret 0
     else if (vm_start x <? start) && (end_ <? vm_end x) then
       nvma ← vma_create (vm_start x) start (vm_flags x);
       match nvma with
       | None => mret (- E_NO_MEM)
       | Some n =>
           _ ← vma_resize v end_ (vm_end x);
           _ ← insert_vma_struct m n;
           _ ← unmap_vma_range (pgdir d) v start end_;
           mret 0
       end
     else
       _ ← on_vlinks (list_init free_list);
       _ ← list_walk (collect_body m end_) v;
       le ← on_vlinks (list_next free_list);
       _ ← list_walk (release_body m start end_) le;
       mret 0) s1.
Proof.
  unfold map_range. intros Hua E Hv Hd. unfold mm_unmap. cbv zeta. rewrite Hua. cbv beta iota delta [negb].
  rewrite (bind_ok _ _ s tt s) by done. rewrite (bind_ok _ _ s m s) by done. rewrite (bind_ok _ _ _ _ _ E).
  by rewrite (bind_ok _ _ _ _ _ (get_vma_ok _ _ _ Hv)), (bind_ok _ _ _ _ _ (get_mm_ok _ _ _ Hd)).
Qed.

(** A range whose first page is in no area. *)
Lemma mm_unmap_hole s A L m l addr len :
  let '(start, end_) := map_range addr len in
  vmm_inv s A L → A !! m = Some l → USER_ACCESS start end_ = true → find_in start l = None →
  ∃ s', mm_unmap (Some m) addr len s = Ok (0, s') ∧ vmm_inv s' A L ∧ quiet s s'.
Proof.
  unfold map_range. intros Hi Hm Hua Hf. destruct (find_vma_ok s A L m l (ROUNDDOWN addr PGSIZE) Hi Hm) as (s1 & E1 & Hi1 & Hq).
  rewrite Hf in E1. exists s1. split; [|done]. unfold mm_unmap. cbv zeta. rewrite Hua. cbv beta iota delta [negb].
  rewrite (bind_ok _ _ s tt s) by done. rewrite (bind_ok _ _ s m s) by done. by rewrite (bind_ok _ _ _ _ _ E1).
Qed.

(** The part from [list_init(&free_list)] on. *)
Lemma unmap_areas_ok s A m l1 p0 mid l2 start end_ d :
  vmm_ok s A → A !! m = Some (l1 ++ (p0 :: mid) ++ l2) → (∀ p, p ∈ p0 :: mid → cuttable start end_ p) →
  (∀ q, q ∈ l2 → end_ ≤ vm_start q.2) → USER_ACCESS start end_ = true →
  start mod PGSIZE = 0 → end_ mod PGSIZE = 0 → mms s !! m = Some d →
  let body : M vst Z :=
    _ ← on_vlinks (list_init free_list);
    _ ← list_walk (collect_body m end_) p0.1;
    le ← on_vlinks (list_next free_list);
    _ ← list_walk (release_body m start end_) le; mret 0 in
  match release_all (pgdir d) start end_ (rev (p0 :: mid)) (shmems s) with
  | None => body s = Err Fault
  | Some (h, evs) =>
      ∃ s', body s = Ok (0, s') ∧ vmm_ok s' (<[m := l1 ++ flat_map (cut start end_) (p0 :: mid) ++ l2]> A) ∧ kept_as s s' h evs
  end.
Proof.
  intros [L0 Hi0] Hm Hc Hl2 Hu Hp1 Hp2 Hd body. unfold body.
  (* what an earlier call left of its own list is forgotten *)
  assert (∃ L, vmm_inv s A L ∧ L !! free_list = None ∧ available L free_list) as (L & Hi & Hno & Hav).
  { exists (filter (λ kl, free_list ∉ kl.1 :: kl.2) L0).
    assert (Hsub : filter (λ kl, free_list ∉ kl.1 :: kl.2) L0 ⊆ L0) by apply map_filter_subseteq.
    assert (Hkeep : ∀ m', filter (λ kl, free_list ∉ kl.1 :: kl.2) L0 !! mmap_list m' = L0 !! mmap_list m' ∨ A !! m' = None).
    { intros m'. destruct (A !! m') as [l'|] eqn:Hm'; [|by right]. left. pose proof (lo_list _ _ _ (vi_links _ _ _ Hi0) _ _ Hm') as HL.
      rewrite HL. apply map_lookup_filter_Some. split; [done|]. simpl. intros [?|Hin]%elem_of_cons; [done|].
      by apply list_elem_of_fmap in Hin as (? & ? & ?). }
    assert (Hun : unlisted (filter (λ kl, free_list ∉ kl.1 :: kl.2) L0) free_list).
    { intros k ks Hk. by apply map_lookup_filter_Some in Hk as [_ ?]. }
    split; [|split; [|by apply unlisted_available]].
    - destruct Hi0 as [[Hr Hl Hlf] Hdom Hmm Htr Hfr]. constructor; [|done..]. constructor.
      + by eapply rep_weaken.
      + intros m' l' Hm'. destruct (Hkeep m') as [->|?]; [by apply Hl|congruence].
      + intros k ks e Hk. apply (Hlf k ks e). by eapply lookup_weaken.
    - destruct (_ !! free_list) eqn:E; [|done]. exfalso. eapply Hun; [exact E|set_solver]. }
  pose proof (lo_rep _ _ _ (vi_links _ _ _ Hi)) as Hr. destruct (rep_init _ _ free_list Hr Hav) as (h & Eh & Hr1).
  rewrite (bind_ok _ _ _ _ _ (on_vlinks_ok _ _ _ _ Eh)). set (s1 := s <| vlinks := h |>).
  assert (Hi1 : vmm_inv s1 A (<[free_list := []]> L)).
  { eapply inv_links; [exact Hi|exact Hr1|intros m'; by rewrite lookup_insert_ne|].
    intros k ks e [[<- <-]|[_ Hk]]%lookup_insert_Some He; [by apply list_elem_of_singleton in He as ->|].
    by apply (lo_fresh _ _ _ (vi_links _ _ _ Hi) k ks). }
  assert (Hrel : release_state s1 A (<[free_list := []]> L) []) by (split; [done|by rewrite lookup_insert_eq]).
  pose proof (lists_size _ _ _ _ (mm_lists _ _ _ _ _ Hi1 Hm)) as Hsz. rewrite !length_app in Hsz. simpl in Hsz.
  destruct (collect_loop (S (size (vlinks s1))) s1 A _ m end_ l1 p0 mid l2 [] Hrel Hm) as (s2 & L2 & E2 & [Hi2 HF2] & Hk2 & Hv2 & Hn2);
    [intros q Hq; apply Hc in Hq as [[? ?] _]; done|done|simpl; lia|].
  rewrite (bind_ok _ _ s1 tt s2) by exact E2. rewrite app_nil_r in HF2. set (F := rev (p0 :: mid)) in *.
  pose proof (lo_rep _ _ _ (vi_links _ _ _ Hi2)) as Hr2.
  assert (En : on_vlinks (list_next free_list) s2 = Ok (ffirst F, s2)).
  { apply on_vlinks_read. refine (eq_trans (list_next_cursor _ _ free_list [] (free_ring F) Hr2 HF2) _). by destruct F. }
  rewrite (bind_ok _ _ _ _ _ En).
  destruct (vi_mm _ _ _ Hi _ _ Hm) as [Hvm Hnd Hs _].
  assert (HinF : ∀ q, q ∈ F → q ∈ p0 :: mid) by (intros q Hq; unfold F in Hq; rewrite list_elem_of_In in Hq; apply in_rev in Hq; by apply list_elem_of_In).
  assert (Hrl : releasing s2 (<[m := l1 ++ l2]> A) (delete free_list L2) m l1 [] l2 F).
  { constructor.
    - destruct s2 as [a1 a2 a3 a4 a5 a6 a7 a8 a9]. apply (inv_links _ _ L2 a4 (delete free_list L2)) in Hi2; [exact Hi2| | |].
      + eapply rep_weaken; [apply delete_subseteq|exact Hr2].
      + intros m'. by rewrite lookup_delete_ne.
      + intros k ks e [_ Hk]%lookup_delete_Some. by apply (lo_fresh _ _ _ (vi_links _ _ _ Hi2) k ks).
    - by rewrite lookup_insert_eq.
    - unfold F. by rewrite rev_involutive.
    - by eapply ring_chained.
    - intros q Hq. destruct (Hvm q ltac:(apply HinF in Hq; set_solver)) as (H1 & H2 & H3). split.
      + constructor; [by rewrite Hv2|done|by apply Hn2].
      + intros k ks [Hk1 Hk]%lookup_delete_Some Hin. apply Hk1. destruct Hr2 as [_ Hdj].
        apply (Hdj free_list (free_ring F) k ks (list_link q.1)); [done|done| |done].
        apply elem_of_cons. right. by apply list_elem_of_fmap_2, list_elem_of_fmap_2.
    - assert (NoDup (p0 :: mid).*1) as Hnd'.
      { rewrite !fmap_app in Hnd. apply NoDup_app in Hnd as (_ & _ & Hnd). by apply NoDup_app in Hnd as (? & _). }
      unfold F. change ((rev (p0 :: mid)).*1) with (map fst (rev (p0 :: mid))).
      rewrite map_rev. apply NoDup_ListNoDup. apply NoDup_rev. by apply NoDup_ListNoDup. }
  assert (Hk02 : kept s s2) by (eapply kept_trans; [apply kept_vlinks|exact Hk2]).
  destruct (kept_mm s s2 m d) as (d2 & Hd2 & Hmeta); [done|done|].
  assert (pgdir d2 = pgdir d) as Hpg by (unfold meta in Hmeta; simpl in Hmeta; congruence).
  pose proof (release_loop (S (size (vlinks s2))) s2 _ _ m l1 [] l2 F start end_ d2 Hrl) as Hlp.
  rewrite Hpg, (kp_shmems _ _ Hk02) in Hlp. specialize (Hlp ltac:(intros p Hp; apply Hc; by apply HinF) Hu Hp1 Hp2 Hd2).
  assert (length F < S (size (vlinks s2)))%nat as Hfuel.
  { pose proof (rep_size _ _ _ _ Hr2 HF2) as Hsz2. unfold free_ring in Hsz2. rewrite !length_fmap in Hsz2. lia. }
  specialize (Hlp Hfuel). destruct (release_all (pgdir d) start end_ F (shmems s)) as [[hs evs]|]; [|by rewrite (bind_err (list_walk (release_body m start end_) (ffirst F)) _ s2 Fault Hlp)].
  destruct Hlp as (s3 & E3 & Hok & Hk3). exists s3. split; [by rewrite (bind_ok _ _ s2 tt s3)|]. split; [|by eapply kept_as_after].
  rewrite insert_insert_eq, app_nil_r in Hok. unfold F in Hok. rewrite rev_involutive in Hok. exact Hok.
Qed.

(** The two halves of an area unmapped in the middle.  The left one keeps the
    flags, the sharing flag included, but not the shared memory. *)
Definition split_areas (m n v : Z) x (start end_ : Z) : list entry :=
  [(n, mk_vma (Some m) (vm_start x) start (vm_flags x) None 0); (v, resized x end_ (vm_end x))].

Lemma split_area_ok s A m l1 v x l2 start end_ d :
  vmm_ok s A → A !! m = Some (l1 ++ (v, x) :: l2) → vm_start x < start → end_ < vm_end x → USER_ACCESS start end_ = true →
  start mod PGSIZE = 0 → end_ mod PGSIZE = 0 → mms s !! m = Some d → head (oom s) ≠ Some true →
  ∃ s' n, (nvma ← vma_create (vm_start x) start (vm_flags x);
       match nvma with
       | None => mret (- E_NO_MEM)
       | Some n =>
           _ ← vma_resize v end_ (vm_end x);
           _ ← insert_vma_struct m n;
           _ ← unmap_vma_range (pgdir d) v start end_;
           mret 0
       end : M vst Z) s = Ok (0, s') ∧ vmas s !! n = None ∧
    vmm_ok s' (<[m := l1 ++ split_areas m n v x start end_ ++ l2]> A) ∧ kept_events s s' (unmap_events (pgdir d) x start end_).
Proof.
  intros [L Hi] Hm H1 H2 Hu Hp1 Hp2 Hd Hoom. destruct (vi_mm _ _ _ Hi _ _ Hm) as [Hvm Hnd Hs _].
  pose proof Hu as [[Hu1%Z.leb_le Hu2%Z.ltb_lt]%andb_true_iff Hu3%Z.leb_le]%andb_true_iff.
  destruct (Hvm (v, x) ltac:(set_solver)) as (Hv & Hmx & _). simpl in Hv, Hmx.
  apply sorted_app in Hs as (Hs1 & Hsr & Hb1). apply sorted_cons in Hsr as (Hxo & Hs2 & Hb2). simpl in Hxo.
  pose proof Hxo as [[Hr1 [Hr2 Hr3]] [Hq1 Hq2]].
  destruct (vma_create_ok s A L m (vm_start x) start (vm_flags x) Hi) as (r & s1 & E1 & Hi1 & Hk1 & Hmm1 & Hvl1 & Hr).
  rewrite (bind_ok _ _ _ _ _ E1). destruct r as [n|]; [|done]. destruct Hr as (_ & Hno & Hv1 & Hl1 & Hn1).
  assert (Hnv : n ≠ v) by congruence. assert (Hvv1 : vmas s1 !! v = Some x) by (by rewrite Hv1, lookup_insert_ne).
  rewrite (bind_ok _ _ _ _ _ (vma_resize_ok s1 v x end_ (vm_end x) Hvv1 Hp2 Hq2 ltac:(lia) ltac:(lia) ltac:(lia))).
  set (x' := resized x end_ (vm_end x)). set (s2 := s1 <| vmas := _ |>).
  assert (Hx' : area_ok x') by (apply resized_ok; [done|done|done|lia|lia|lia]).
  assert (Hi2 : vmm_inv s2 (<[m := l1 ++ (v, x') :: l2]> A) L).
  { apply (inv_set_vma s1 A L m _ _ v x x' Hi1 Hm Hvv1); [congruence|by rewrite !fmap_app| |].
    - apply sorted_app. split; [done|]. split; [apply sorted_cons; split_and!; [done|done|exact Hb2]|].
      intros p q Hp [->|Hq]%elem_of_cons; [|apply Hb1; set_solver]. specialize (Hb1 p (v, x) Hp ltac:(set_solver)).
      unfold before in *. simpl in *. lia.
    - intros p Hp. assert (p = (v, x') ∨ p ∈ l1 ++ (v, x) :: l2 ∧ p.1 ≠ v) as [->|[Hp' Hne]].
      { rewrite fmap_app, fmap_cons, <-Permutation_middle in Hnd. apply NoDup_cons in Hnd as [Hnd _]. rewrite <-fmap_app in Hnd.
        assert (p = (v, x') ∨ p ∈ l1 ++ l2) as [?|Hin] by set_solver; [by left|]. right. split; [set_solver|].
        intros <-. apply Hnd. simpl. by apply list_elem_of_fmap_2. }
      + simpl. rewrite lookup_insert_eq. done.
      + destruct (Hvm p Hp') as (? & ? & _). rewrite lookup_insert_ne by done. rewrite Hv1, lookup_insert_ne by congruence. done. }
  assert (Hl2 : loose s2 (<[m := l1 ++ (v, x') :: l2]> A) L m n (new_area (vm_start x) start (vm_flags x))).
  { destruct Hl1 as [G1 G2 G3 G4]. constructor; [|done|done|done]. simpl. by rewrite lookup_insert_ne. }
  destruct (insert_vma_struct_ok s2 _ L m l1 ((v, x') :: l2) n _ Hi2 (lookup_insert_eq _ _ _) Hl2) as (s3 & E3 & Hi3 & Hk3 & Hv3 & _).
  { apply user_area; [|done|done]. unfold USER_ACCESS. apply andb_true_iff. split; [apply andb_true_iff; split|]; [apply Z.leb_le|apply Z.ltb_lt|apply Z.leb_le]; lia. }
  { intros q Hq. specialize (Hb1 q (v, x) Hq ltac:(set_solver)). unfold before in Hb1. simpl in *. lia. }
  { intros q [->|Hq]%elem_of_cons; simpl; [lia|]. specialize (Hb2 q Hq). unfold before in Hb2. simpl in *. lia. }
  rewrite (bind_ok _ _ _ _ _ E3). assert (Hvv3 : vmas s3 !! v = Some x').
  { rewrite Hv3, lookup_insert_ne by done. simpl. by rewrite lookup_insert_eq. }
  rewrite (bind_ok _ _ _ _ _ (unmap_vma_range_ok s3 (pgdir d) v x' start end_ Hvv3 Hp1 Hp2 Hu1 Hu2 Hu3)).
  eexists. exists n. split; [done|]. split; [done|]. split.
  - exists (<[mmap_list m := list_link <$> (l1 ++ split_areas m n v x start end_ ++ l2).*1]> L). apply events_inv.
    rewrite insert_insert_eq in Hi3. exact Hi3.
  - apply (kept_events_app s s3 _ [] (unmap_events (pgdir d) x start end_)); [|apply kept_refl].
    apply kept_events_nil. eapply kept_trans; [exact Hk1|]. eapply kept_trans; [|exact Hk3]. apply kept_vmas.
Qed.

(** What [mm_unmap] of the range answers in state [s].  When its first page is
    in no area, nothing happens, whatever areas the rest of the range meets.  A
    range inside one area splits it, which needs memory.  Otherwise every area
    loses exactly its part of the range. *)
Definition unmap_spec s A m l d (start end_ : Z) (r : res (Z * vst)) : Prop :=
  match find_in start l with
  | None => ∃ s', r = Ok (0, s') ∧ vmm_ok s' A ∧ kept s s'
  | Some v =>
      ∃ x l1 l2, l = l1 ++ (v, x) :: l2 ∧ contains start x ∧
      if (vm_start x <? start) && (end_ <? vm_end x) then
        if decide (head (oom s) = Some true)
        then ∃ s', r = Ok (- E_NO_MEM, s') ∧ vmm_ok s' A ∧ kept s s'
        else ∃ s' n, r = Ok (0, s') ∧ vmas s !! n = None ∧
          vmm_ok s' (<[m := l1 ++ split_areas m n v x start end_ ++ l2]> A) ∧ kept_events s s' (unmap_events (pgdir d) x start end_)
      else
        match release_all (pgdir d) start end_ (rev (filter (λ p, overlaps p.2 start end_) l)) (shmems s) with
        | None => r = Err Fault
        | Some (h, evs) => ∃ s', r = Ok (0, s') ∧ vmm_ok s' (<[m := flat_map (cut start end_) l]> A) ∧ kept_as s s' h evs
        end
  end.

Lemma unmap_user_range s A m l d addr len :
  let '(start, end_) := map_range addr len in
  vmm_ok s A → A !! m = Some l → mms s !! m = Some d → USER_ACCESS start end_ = true →
  unmap_spec s A m l d start end_ (mm_unmap (Some m) addr len s).
Proof.
  pose proof (λ s1 v x d, mm_unmap_steps s s1 m addr len v x d) as Hst. unfold map_range in *.
  set (start := ROUNDDOWN addr PGSIZE) in *. set (end_ := ROUNDUP _ _) in *. intros [L Hi] Hm Hd Hua. unfold unmap_spec.
  pose proof (ROUNDDOWN_mod addr : start mod PGSIZE = 0) as Hp1. pose proof (ROUNDUP_mod (u32 (addr + len)) : end_ mod PGSIZE = 0) as Hp2.
  pose proof Hua as [[_ Hlt%Z.ltb_lt]%andb_true_iff _]%andb_true_iff.
  destruct (find_vma_ok s A L m l start Hi Hm) as (s1 & E1 & Hi1 & Hq). pose proof (quiet_kept _ _ Hq) as Hk1.
  destruct (quiet_mm _ _ _ _ Hq Hd) as (d1 & Hd1 & Hunc). assert (Hpg : pgdir d1 = pgdir d) by (unfold uncached in Hunc; simpl in Hunc; congruence).
  assert (Hoom : oom s1 = oom s ∧ vmas s1 = vmas s) by (by destruct Hq as (M & -> & _)). destruct Hoom as [Ho Hvs].
  destruct (find_in start l) as [v|] eqn:Hf.
  2:{ pose proof (mm_unmap_hole s A L m l addr len) as Hh. unfold map_range in Hh. fold start end_ in Hh.
      destruct (Hh Hi Hm Hua Hf) as (s2 & E2 & Hi2 & Hq2). exists s2. split; [done|]. split; [by exists L|by apply quiet_kept]. }
  apply find_in_Some in Hf as ([v' x] & Hp & Hvv & Hc). simpl in Hvv, Hc. subst v'.
  destruct (vi_mm _ _ _ Hi1 _ _ Hm) as [Hvm Hnd Hs _]. destruct (Hvm _ Hp) as (Hv & _). simpl in Hv.
  specialize (Hst s1 v x d1 Hua E1 Hv Hd1). rewrite (proj2 (Z.leb_gt end_ (vm_start x))) in Hst by (unfold contains in Hc; lia).
  destruct (overlap_split l (v, x) start end_ Hs Hp Hc Hlt) as (l1 & mid & l2 & El & Hov & Hno & Hmid & Hl2).
  exists x, l1, (mid ++ l2). split; [exact El|]. split; [exact Hc|].
  destruct ((vm_start x <? start) && (end_ <? vm_end x)) eqn:Hsp.
  - apply andb_true_iff in Hsp as [Hs1%Z.ltb_lt Hs2%Z.ltb_lt]. case_decide as Hoom.
    + rewrite <-Ho in Hoom. destruct (vma_create_ok s1 A L m (vm_start x) start (vm_flags x) Hi1) as (r & s2 & E2 & Hi2 & Hk2 & _ & _ & Hr).
      rewrite (bind_ok _ _ _ _ _ E2) in Hst. destruct r as [n|]; [by destruct Hr|]. exists s2. split; [exact Hst|].
      split; [by exists L|by eapply kept_trans].
    + rewrite <-Ho in Hoom. subst l.
      destruct (split_area_ok s1 A m l1 v x (mid ++ l2) start end_ d1 (ex_intro _ L Hi1) Hm Hs1 Hs2 Hua Hp1 Hp2 Hd1 Hoom) as (s2 & n & E2 & Hn & Hok & Hk2).
      exists s2, n. rewrite Hst, Hvs in *. rewrite Hpg in *. split_and!; [done|done|done|].
      by apply (kept_events_app s s1 s2 []); [apply kept_events_nil|].
  - subst l. rewrite (filter_mid (λ p, overlaps p.2 start end_)) by done.
    pose proof (unmap_areas_ok s1 A m l1 (v, x) mid l2 start end_ d1 (ex_intro _ L Hi1) Hm) as Hua2.
    cbv zeta in Hua2. rewrite Hpg, (kp_shmems _ _ Hk1) in Hua2. rewrite Hst.
    assert (∀ p, p ∈ (v, x) :: mid → cuttable start end_ p) as Hcut.
    { intros p Hin. split; [by apply Hov|].
      apply elem_of_cons in Hin as [->|Hin]; simpl; [|specialize (Hmid p Hin); lia].
      intros [?%Z.ltb_lt ?%Z.ltb_lt]. apply andb_false_iff in Hsp as []; congruence. }
    specialize (Hua2 Hcut Hl2 Hua Hp1 Hp2 Hd1).
    destruct (release_all (pgdir d) start end_ (rev ((v, x) :: mid)) (shmems s)) as [[h evs]|]; [|exact Hua2].
    destruct Hua2 as (s2 & E2 & Hok & Hk2). exists s2. split; [exact E2|]. split; [|by eapply kept_as_after].
    rewrite !flat_map_app, (cut_outside _ _ l1), (cut_outside _ _ l2) by set_solver. exact Hok.
Qed.

(** The areas after a successful call: each loses its part of the range, unless
    the first page of the range is in none. *)
Definition pieces (m n start end_ : Z) p : list entry :=
  if (vm_start p.2 <? start) && (end_ <? vm_end p.2) then split_areas m n p.1 p.2 start end_ else cut start end_ p.
Definition areas_left (m n start end_ : Z) l : list entry :=
  match find_in start l with None => l | Some _ => flat_map (pieces m n start end_) l end.

Lemma pieces_outside m n start end_ p q : start < end_ → q ∈ pieces m n start end_ p → ¬ overlaps q.2 start end_.
Proof.
  intros Hlt. unfold pieces, cut, split_areas. destruct (_ && _).
  - intros [->|Hq]%elem_of_cons; [unfold overlaps; simpl; lia|]. apply list_elem_of_singleton in Hq as ->. unfold overlaps. simpl. lia.
  - case_decide as Ho; [|intros ->%list_elem_of_singleton; done].
    destruct (Z.ltb_spec (vm_start p.2) start); [|destruct (Z.ltb_spec end_ (vm_end p.2))];
      (intros ->%list_elem_of_singleton || intros []%elem_of_nil); unfold overlaps; simpl; lia.
Qed.
Lemma areas_left_outside m n start end_ l q :
  start < end_ → find_in start l ≠ None → q ∈ areas_left m n start end_ l → ¬ overlaps q.2 start end_.
Proof.
  intros Hlt Hf. unfold areas_left. destruct (find_in start l); [|done].
  intros (p & Hp & Hq)%list_elem_of_In%in_flat_map. eapply pieces_outside; [done|]. by apply list_elem_of_In.
Qed.

Lemma flat_map_local {X Y} (f g : X → list Y) (xs : list X) : (∀ a, a ∈ xs → f a = g a) → flat_map f xs = flat_map g xs.
Proof. induction xs as [|a xs IH]; intros H; [done|]. simpl. rewrite H, IH by set_solver. done. Qed.

Lemma unmap_spec_areas s A m l d start end_ s' :
  A !! m = Some l → sorted_areas l → start < end_ → unmap_spec s A m l d start end_ (Ok (0, s')) →
  ∃ n, vmm_ok s' (<[m := areas_left m n start end_ l]> A).
Proof.
  intros Hm Hs Hlt. unfold unmap_spec, areas_left. destruct (find_in start l) as [v|].
  2:{ intros (s1 & [= <-] & Hok & _). exists 0. by rewrite insert_id. }
  intros (x & l1 & l2 & -> & [Hc1 Hc2] & H).
  assert (Hother : ∀ p, p ∈ l1 ++ l2 → vm_end p.2 ≤ vm_start x ∨ vm_end x ≤ vm_start p.2).
  { apply sorted_app in Hs as (_ & (_ & _ & Hb2)%sorted_cons & Hb1). intros p [Hp|Hp]%elem_of_app; [left|right].
    - exact (Hb1 p (v, x) Hp ltac:(set_solver)).
    - exact (Hb2 p Hp). }
  destruct (_ && _) eqn:Hsp.
  - apply andb_true_iff in Hsp as Hsp'. destruct Hsp' as [Hl%Z.ltb_lt Hr%Z.ltb_lt].
    case_decide; [by destruct H as (s1 & [=] & _)|]. destruct H as (s1 & n & [= <-] & _ & Hok & _). exists n.
    assert (Ho : ∀ l0 : list entry, (∀ p, p ∈ l0 → p ∈ l1 ++ l2) → flat_map (pieces m n start end_) l0 = l0).
    { intros l0 Hin. transitivity (flat_map (cut start end_) l0).
      - apply flat_map_local. intros p Hp. unfold pieces. specialize (Hother p (Hin p Hp)).
        destruct (Z.ltb_spec (vm_start p.2) start), (Z.ltb_spec end_ (vm_end p.2)); simpl; (done || lia).
      - apply cut_outside. intros p Hp. specialize (Hother p (Hin p Hp)). unfold overlaps. lia. }
    rewrite flat_map_app. simpl flat_map. rewrite !Ho by set_solver. unfold pieces. simpl. by rewrite Hsp.
  - destruct (release_all _ _ _ _ _) as [[h evs]|]; [|done]. destruct H as (s1 & [= <-] & Hok & _). exists 0.
    rewrite (flat_map_local _ (cut start end_)); [done|]. intros p Hp. unfold pieces.
    destruct ((vm_start p.2 <? start) && (end_ <? vm_end p.2)) eqn:Hp2; [|reflexivity]. apply andb_true_iff in Hp2 as [Hl%Z.ltb_lt Hr%Z.ltb_lt].
    assert (p = (v, x) ∨ p ∈ l1 ++ l2) as [->|Hin] by set_solver.
    + simpl in *. apply andb_false_iff in Hsp as [?%Z.ltb_ge|?%Z.ltb_ge]; lia.
    + specialize (Hother p Hin). lia.
Qed.

(** C12. [mm_unmap] refuses a range outside user memory and otherwise answers
    as [unmap_spec] says: nothing happens when the first page of the range is
    in no area; a range inside one area splits it, or fails with [- E_NO_MEM];
    every other range is cut out of all areas, from the address space and from
    the page table.  An area that goes entirely gives back its reference to
    the shared memory it maps, which ends when that was the last one; the call
    faults exactly when such an area is marked as shared but holds no live
    shared memory. *)
Theorem mm_unmap_correct s A m l d addr len :
  vmm_ok s A → A !! m = Some l → mms s !! m = Some d →
  let '(start, end_) := map_range addr len in
  if negb (USER_ACCESS start end_) then mm_unmap (Some m) addr len s = Ok (- E_INVAL, s)
  else unmap_spec s A m l d start end_ (mm_unmap (Some m) addr len s).
Proof.
  intros Hok Hm Hd. pose proof (unmap_user_range s A m l d addr len) as H. unfold map_range in *.
  destruct (USER_ACCESS _ _) eqn:Hua; [by apply H|]. unfold mm_unmap. cbv zeta. by rewrite Hua.
Qed.
