(* ===== verification/VmmUser.v ===== *)
(** * User pointers, free ranges and the heap

    [user_mem_check] accepts a buffer exactly when every byte of it may be
    accessed; [get_unmapped_area] answers the highest free range;
    [mm_brk] extends the heap. *)

From Stdlib Require Import Sorted.
From S2P Require Import Prelude DList RbTree RbRep RbInv RbInsert RbTreeSpec Vmm VmmInv VmmInsert VmmMap VmmUnmap.

Implicit Types (s : vst) (m v t addr start : Z) (x y : vma_struct) (p q : entry) (l : list entry)
  (A : gmap Z (list entry)) (L : gmap vlink (list vlink)).

(** ** [user_mem_check] *)

(** The access to [a] that an area allows: its flag, and not the guard page
    of a stack. *)
Definition allowed (write : bool) x (a : Z) : Prop :=
  Z.land (vm_flags x) (if write then VM_WRITE else VM_READ) ≠ 0 ∧
  (write = true → Z.land (vm_flags x) VM_STACK ≠ 0 → vm_start x + PGSIZE ≤ a).
Definition accessible l (write : bool) (a : Z) : Prop := ∃ p, p ∈ l ∧ contains a p.2 ∧ allowed write p.2 a.

Lemma contains_unique l p q a : sorted_areas l → NoDup l.*1 → p ∈ l → q ∈ l → contains a p.2 → contains a q.2 → p.2 = q.2.
Proof.
  intros Hs Hnd Hp Hq Hcp Hcq. assert (p.1 = q.1) as Heq.
  { pose proof (find_in_unique a l p Hs Hp Hcp). pose proof (find_in_unique a l q Hs Hq Hcq). congruence. }
  apply list_elem_of_split in Hp as (l1 & l2 & ->). rewrite fmap_app, fmap_cons, <-Permutation_middle in Hnd.
  apply NoDup_cons in Hnd as [Hnd _]. rewrite <-fmap_app in Hnd.
  assert (q = p ∨ q ∈ l1 ++ l2) as [->|Hin] by set_solver; [done|]. destruct Hnd. rewrite Heq. by apply list_elem_of_fmap_2.
Qed.

(** One area: it decides all its addresses from [start] on. *)
Lemma area_step l p start (write : bool) :
  sorted_areas l → NoDup l.*1 → p ∈ l → contains start p.2 →
  let ok := negb (Z.land (vm_flags p.2) (if write then VM_WRITE else VM_READ) =? 0) &&
            negb (write && negb (Z.land (vm_flags p.2) VM_STACK =? 0) && (start <? u32 (vm_start p.2 + PGSIZE))) in
  (ok = true → ∀ a, start ≤ a < vm_end p.2 → accessible l write a) ∧ (accessible l write start → ok = true).
Proof.
  intros Hs Hnd Hp Hc ok. destruct (sorted_in l p Hs Hp) as [[Hr1 [Hr2 Hr3]] _].
  assert (Hu : u32 (vm_start p.2 + PGSIZE) = vm_start p.2 + PGSIZE) by (apply u32_id; unfold PGSIZE, USERBASE, USERTOP in *; lia).
  unfold ok. rewrite Hu. split.
  - intros [Hf Hst]%andb_true_iff a Ha. exists p. split; [done|]. split; [unfold contains in *; lia|]. split.
    + by apply negb_true_iff, Z.eqb_neq in Hf.
    + intros -> Hsf. apply negb_true_iff, andb_false_iff in Hst as [Hst|Hst].
      * simpl in Hst. apply negb_false_iff, Z.eqb_eq in Hst. done.
      * apply Z.ltb_ge in Hst. lia.
  - intros (q & Hq & Hcq & Hal). rewrite <-(contains_unique l p q start Hs Hnd Hp Hq Hc Hcq) in Hal. destruct Hal as [Hf Hst].
    apply andb_true_iff. split; [by apply negb_true_iff, Z.eqb_neq|]. apply negb_true_iff.
    destruct write; [|done]. simpl. destruct (Z.eqb_spec (Z.land (vm_flags p.2) VM_STACK) 0) as [E0|E0]; [done|].
    simpl. apply Z.ltb_ge. by apply Hst.
Qed.

Lemma mem_check_loop fuel s A L m l1 l2 start end_ (write : bool) :
  vmm_inv s A L → A !! m = Some (l1 ++ l2) → (∀ p, p ∈ l1 → vm_end p.2 ≤ start) → (length l2 < fuel)%nat →
  ∃ b s', loop fuel (mem_check_body (Some m) end_ write) start s = Ok (b, s') ∧ vmm_inv s' A L ∧ kept s s' ∧
    (b = true ↔ ∀ a, start ≤ a < end_ → accessible (l1 ++ l2) write a).
Proof.
  revert s l1 l2 start. induction fuel as [|fuel IH]; intros s l1 l2 start Hi Hm Hl1 Hf; [lia|].
  destruct (Z.ltb_spec start end_) as [Hlt|Hge].
  2:{ exists true, s. split; [apply loop_stop; unfold mem_check_body; by rewrite (proj2 (Z.ltb_ge start end_) Hge)|].
      split; [done|]. split; [apply kept_refl|]. split; [intros _ a Ha; lia|done]. }
  destruct (vi_mm _ _ _ Hi _ _ Hm) as [_ Hnd Hs _].
  destruct (find_vma_ok s A L m _ start Hi Hm) as (s1 & E1 & Hi1 & Hq). apply quiet_kept in Hq.
  destruct (find_in start (l1 ++ l2)) as [v|] eqn:Hfi.
  2:{ exists false, s1. split; [|split; [done|split; [done|]]].
      - apply loop_stop. unfold mem_check_body. rewrite (proj2 (Z.ltb_lt start end_) Hlt). by rewrite (bind_ok _ _ _ _ _ E1).
      - split; [done|]. intros Hacc. destruct (Hacc start ltac:(lia)) as (p & Hp & Hc & _).
        by apply (proj1 (find_in_None start (l1 ++ l2)) Hfi) in Hc. }
  apply find_in_Some in Hfi as (p & Hp & <- & Hc). destruct (mo_vmas _ _ _ (vi_mm _ _ _ Hi1 _ _ Hm) p Hp) as (Hv & _).
  destruct (area_step (l1 ++ l2) p start write Hs Hnd Hp Hc) as [Hok1 Hok2].
  set (ok := negb _ && _) in *. 
  assert (Hb : mem_check_body (Some m) end_ write start s = Ok (if ok then inl (vm_end p.2) else inr false, s1)).
  { unfold mem_check_body. rewrite (proj2 (Z.ltb_lt start end_) Hlt), (bind_ok _ _ _ _ _ E1), (bind_ok _ _ _ _ _ (get_vma_ok _ _ _ Hv)).
    rewrite (proj2 (Z.ltb_ge start (vm_start p.2))) by (unfold contains in Hc; lia). unfold ok.
    by destruct (Z.land _ (if write then _ else _) =? 0), (write && _ && _). }
  destruct ok eqn:Hok.
  2:{ exists false, s1. split; [by apply loop_stop|]. split; [done|]. split; [done|]. split; [done|].
      intros Hacc. apply Hok2, Hacc. unfold contains in Hc. lia. }
  assert (Hp2 : p ∈ l2).
  { apply elem_of_app in Hp as [Hp|]; [|done]. specialize (Hl1 p Hp). unfold contains in Hc. lia. }
  apply list_elem_of_split in Hp2 as (l2a & l2b & ->). rewrite length_app in Hf. simpl in Hf.
  assert (El : l1 ++ l2a ++ p :: l2b = (l1 ++ l2a ++ [p]) ++ l2b) by by rewrite <-!app_assoc. rewrite El in Hm |- *.
  destruct (IH s1 (l1 ++ l2a ++ [p]) l2b (vm_end p.2) Hi1 Hm) as (b & s2 & E2 & Hi2 & Hk2 & Hb2); [|lia|].
  { rewrite El in Hs. apply sorted_app in Hs as (Hs & _ & _). rewrite app_assoc in Hs. apply sorted_app in Hs as (_ & [Hpo _]%sorted_cons & Hb1).
    destruct Hpo as [[_ [Hr _]] _]. intros q Hq'. rewrite app_assoc in Hq'. apply elem_of_app in Hq' as [Hq'|Hq'%list_elem_of_singleton]; [|subst; lia].
    specialize (Hb1 q p Hq' ltac:(set_solver)). unfold before in Hb1. lia. }
  exists b, s2. split; [by rewrite (loop_next _ _ _ _ _ _ Hb)|]. split; [done|]. split; [by eapply kept_trans|].
  rewrite Hb2. rewrite El in Hok1. split; intros Hacc a Ha.
  - destruct (Z.ltb_spec a (vm_end p.2)); [apply Hok1; [done|lia]|apply Hacc; lia].
  - apply Hacc. unfold contains in Hc. lia.
Qed.

(** C11. [user_mem_check] accepts a buffer exactly when it lies in user memory
    and every byte of it is in an area that allows the access; writes to a
    stack stop above its first page.  Only the lookup cache changes. *)
Theorem user_mem_check_correct s A m l addr len write :
  vmm_ok s A → A !! m = Some l →
  ∃ b s', user_mem_check (Some m) addr len write s = Ok (b, s') ∧ vmm_ok s' A ∧ kept s s' ∧
    (b = true ↔ USER_ACCESS addr (u32 (addr + len)) = true ∧
      ∀ a, addr ≤ a < u32 (addr + len) → accessible l write a).
Proof.
  intros [L Hi] Hm. unfold user_mem_check. destruct (USER_ACCESS addr (u32 (addr + len))); simpl negb; cbv iota.
  - pose proof (lists_size _ _ _ _ (mm_lists _ _ _ _ _ Hi Hm)) as Hsz.
    destruct (mem_check_loop (S (size (vlinks s))) s A L m [] l addr (u32 (addr + len)) write Hi Hm) as (b & s' & E & Hi' & Hk & Hb); [set_solver|lia|].
    exists b, s'. split; [exact E|]. split; [by exists L|]. split; [done|]. rewrite Hb. simpl. tauto.
  - exists false, s. split; [done|]. split; [by exists L|]. split; [apply kept_refl|]. split; [done|]. by intros [? _].
Qed.

(** ** [get_unmapped_area] *)

Definition free_range l (len r : Z) : Prop :=
  USERBASE ≤ r ∧ r + len ≤ USERTOP ∧ ∀ p, p ∈ l → ¬ overlaps p.2 r (r + len).

Lemma unmapped_loop fuel s A L m l1 l2 len start :
  vmm_inv s A L → A !! m = Some (l1 ++ l2) → 0 < len → 0 ≤ start → start + len ≤ USERTOP →
  (∀ p, p ∈ l2 → start + len ≤ vm_start p.2) → (∀ r, free_range (l1 ++ l2) len r → r ≤ start) → (length l1 < fuel)%nat →
  ∃ r, loop fuel (unmapped_body m len) (first m l2, start) s = Ok (r, s) ∧
    (r ≠ 0 → free_range (l1 ++ l2) len r ∧ ∀ r', free_range (l1 ++ l2) len r' → r' ≤ r) ∧
    (r = 0 → ∀ r', ¬ free_range (l1 ++ l2) len r').
Proof.
  intros Hi. revert fuel l2 start. induction l1 as [|p l1 IH] using rev_ind; intros [|fuel] l2 start Hm Hlen H0 Htop Hl2 Hmax Hf; try lia.
  - simpl app in *. exists (if USERBASE <=? start then start else 0). split.
    { apply loop_stop. unfold unmapped_body. rewrite (bind_ok _ _ _ _ _ (prev_first s L m [] l2 (mm_lists _ _ _ _ _ Hi Hm))). by rewrite decide_True. }
    destruct (Z.leb_spec USERBASE start) as [Hle|Hgt].
    + split; [|unfold USERBASE in *; lia]. intros _. split; [|exact Hmax]. split_and!; [done|done|].
      intros p Hp Ho. specialize (Hl2 p Hp). unfold overlaps in Ho. lia.
    + split; [done|]. intros _ r Hr. specialize (Hmax r Hr). destruct Hr as [Hr _]. lia.
  - destruct (vi_mm _ _ _ Hi _ _ Hm) as [Hvm _ Hs _]. rewrite length_app in Hf. simpl in Hf.
    destruct (Hvm p ltac:(set_solver)) as (Hv & _).
    pose proof Hs as ((Hs1 & [Hpo _]%sorted_cons & Hb1)%sorted_app & _ & Hb2)%sorted_app. destruct Hpo as [[Hr1 [Hr2 Hr3]] _].
    set (next := if vm_end p.2 <=? start then inr start
      else if vm_start p.2 <? u32 (start + len) then if vm_start p.2 <=? len then inr 0 else inl (list_link p.1, vm_start p.2 - len)
      else inl (list_link p.1, start) : vlink * Z + Z).
    assert (Hb : unmapped_body m len (first m l2, start) s = Ok (next, s)).
    { unfold unmapped_body. rewrite (bind_ok _ _ _ _ _ (prev_first s L m (l1 ++ [p]) l2 (mm_lists _ _ _ _ _ Hi Hm))), pos_snoc.
      rewrite decide_False by done. simpl le2vma. rewrite (bind_ok _ _ s p.1 s), (bind_ok _ _ _ _ _ (get_vma_ok _ _ _ Hv)) by done.
      unfold next. by repeat case_match. }
    assert (El : (l1 ++ [p]) ++ l2 = l1 ++ (p :: l2)) by by rewrite <-app_assoc. rewrite El in Hm, Hmax |- *.
    unfold next in Hb. rewrite u32_id in Hb by (unfold USERTOP in *; lia).
    destruct (Z.leb_spec (vm_end p.2) start) as [Hle|Hgt].
    + exists start. split; [by apply loop_stop|]. split; [|unfold USERBASE in *; lia]. intros _. split; [|exact Hmax].
      split_and!; [lia|done|]. intros q [Hq|[->|Hq]%elem_of_cons]%elem_of_app Ho; unfold overlaps in Ho.
      * specialize (Hb1 q p Hq ltac:(set_solver)). unfold before in Hb1. lia.
      * lia.
      * specialize (Hl2 q Hq). lia.
    + destruct (Z.ltb_spec (vm_start p.2) (start + len)) as [Hlt|Hge].
      * assert (Hmax' : ∀ r, free_range (l1 ++ p :: l2) len r → r ≤ vm_start p.2 - len).
        { intros r Hr. specialize (Hmax r Hr). destruct Hr as (_ & _ & Hr). specialize (Hr p ltac:(set_solver)). unfold overlaps in Hr. lia. }
        destruct (Z.leb_spec (vm_start p.2) len) as [Hle2|Hgt2].
        -- exists 0. split; [by apply loop_stop|]. split; [done|]. intros _ r Hr. specialize (Hmax' r Hr). destruct Hr as [Hr _]. unfold USERBASE in *. lia.
        -- destruct (IH fuel (p :: l2) (vm_start p.2 - len) Hm) as (r & E & Hr); [done|lia|lia| |done|lia|].
           { intros q [->|Hq]%elem_of_cons; [lia|]. specialize (Hl2 q Hq). lia. }
           exists r. split; [by rewrite (loop_next _ _ _ _ _ _ Hb)|exact Hr].
      * destruct (IH fuel (p :: l2) start Hm) as (r & E & Hr); [done|lia|lia| |done|lia|].
        { intros q [->|Hq]%elem_of_cons; [lia|]. by apply Hl2. }
        exists r. split; [by rewrite (loop_next _ _ _ _ _ _ Hb)|exact Hr].
Qed.

(** C35. [get_unmapped_area] answers the highest address at which [len] bytes
    of user memory are free, and 0 exactly when there are none. *)
Theorem get_unmapped_area_correct s A m l len :
  vmm_ok s A → A !! m = Some l → 0 < len →
  ∃ r, get_unmapped_area m len s = Ok (r, s) ∧
    (r ≠ 0 → free_range l len r ∧ ∀ r', free_range l len r' → r' ≤ r) ∧
    (r = 0 → ∀ r', ¬ free_range l len r').
Proof.
  intros [L Hi] Hm Hlen. unfold get_unmapped_area. destruct (Z.eqb_spec len 0) as [?|_]; [lia|]. simpl orb.
  destruct (Z.ltb_spec USERTOP len) as [Hgt|Hle].
  - exists 0. split; [done|]. split; [done|]. intros _ r (Hr1 & Hr2 & _). unfold USERBASE in *. lia.
  - pose proof (lists_size _ _ _ _ (mm_lists _ _ _ _ _ Hi Hm)) as Hsz.
    destruct (unmapped_loop (S (size (vlinks s))) s A L m l [] len (USERTOP - len) Hi) as (r & E & Hr); rewrite ?app_nil_r; try done; try lia.
    + intros p Hp. by apply elem_of_nil in Hp.
    + intros r (_ & Hr & _). lia.
    + exists r. rewrite app_nil_r in Hr. split; [exact E|exact Hr].
Qed.

(** ** [mm_brk] *)

Lemma page_range start end_ :
  USER_ACCESS start end_ = true → start mod PGSIZE = 0 → end_ mod PGSIZE = 0 → map_range start (end_ - start) = (start, end_).
Proof.
  intros [[?%Z.leb_le ?%Z.ltb_lt]%andb_true_iff ?%Z.leb_le]%andb_true_iff Hm1 Hm2. unfold map_range, USERBASE, USERTOP in *.
  assert (Hr : ∀ z, 0 ≤ z < 2 ^ 32 → z mod PGSIZE = 0 → ROUNDDOWN z PGSIZE = z).
  { intros z Hz Hzm. unfold ROUNDDOWN. rewrite u32_id, Hzm by done. lia. }
  rewrite Hr by (done || lia). f_equal. replace (start + (end_ - start)) with end_ by lia. rewrite (u32_id end_) by lia.
  destruct (ROUNDUP_page end_) as [Hb Hm3]; [lia|unfold PGSIZE; lia|].
  unfold PGSIZE in *. apply Z.div_exact in Hm2, Hm3; lia.
Qed.

Definition RW : Z := Z.lor VM_READ VM_WRITE.

(** [mm_brk] after the call of [mm_unmap]. *)
Definition brk_tail (m start end_ : Z) : M vst Z :=
  vma ← find_vma (Some m) (u32 (start - 1));
  grow ← (match vma with
          | Some v => a ← get_vma v; mret (if (vm_end a =? start) && (vm_flags a =? RW) then Some v else None)
          | None => mret None
          end);
  match grow with
  | Some v => _ ← set_vma v (λ a, a <| vm_end := end_ |>); mret 0
  | None =>
      nvma ← vma_create start end_ RW;
      match nvma with
      | None => mret (- E_NO_MEM)
      | Some n => _ ← insert_vma_struct m n; mret 0
      end
  end.

(** What it answers in state [s], whose address space [m] has the areas [l].  A
    readable and writable area that ends where the range starts is extended
    over the range, whatever areas it then overlaps; without such an area a new
    one is added, which needs memory, and an overlap panics. *)
Definition brk_spec s A m l (start end_ : Z) (r : res (Z * vst)) : Prop :=
  (∀ l1 v x l2, l = l1 ++ (v, x) :: l2 → vm_end x = start → vm_flags x = RW →
    ∃ s', r = Ok (0, s') ∧ kept s s' ∧ vmas s' = <[v := x <| vm_end := end_ |>]> (vmas s) ∧
      ((∀ p, p ∈ l2 → end_ ≤ vm_start p.2) → vmm_ok s' (<[m := l1 ++ (v, x <| vm_end := end_ |>) :: l2]> A)) ∧
      (∀ p, p ∈ l2 → vm_start p.2 < end_ →
        vmas s' !! p.1 = Some p.2 ∧ overlaps (x <| vm_end := end_ |>) (vm_start p.2) (vm_end p.2))) ∧
  ((∀ p, p ∈ l → vm_end p.2 = start → vm_flags p.2 ≠ RW) →
    if decide (head (oom s) = Some true)
    then ∃ s', r = Ok (- E_NO_MEM, s') ∧ vmm_ok s' A ∧ kept s s'
    else if decide (Exists (λ p, overlaps p.2 start end_) l) then r = Err Panic
    else ∃ s' v l1 l2, r = Ok (0, s') ∧ l = l1 ++ l2 ∧ vmas s !! v = None ∧
      vmm_ok s' (<[m := l1 ++ (v, mk_vma (Some m) start end_ RW None 0) :: l2]> A) ∧ kept s s').

Lemma brk_tail_ok s A m l start end_ :
  vmm_ok s A → A !! m = Some l → USER_ACCESS start end_ = true → start mod PGSIZE = 0 → end_ mod PGSIZE = 0 →
  brk_spec s A m l start end_ (brk_tail m start end_ s).
Proof.
  intros [L Hi] Hm Hua Hp1 Hp2. pose proof Hua as [[Hu1%Z.leb_le Hu2%Z.ltb_lt]%andb_true_iff Hu3%Z.leb_le]%andb_true_iff.
  destruct (find_vma_ok s A L m l (start - 1) Hi Hm) as (s1 & E1 & Hi1 & Hq).
  pose proof (eq_refl (brk_tail m start end_ s)) as E. unfold brk_tail at 2 in E.
  rewrite u32_id in E by (unfold USERBASE, USERTOP in *; lia). rewrite (bind_ok _ _ _ _ _ E1) in E.
  destruct (vi_mm _ _ _ Hi1 _ _ Hm) as [Hvm Hnd Hs _].
  assert (Hoom : oom s1 = oom s ∧ vmas s1 = vmas s) by (by destruct Hq as (M & -> & _)). destruct Hoom as [Ho Hvs].
  apply quiet_kept in Hq. split.
  - intros l1 v x l2 -> Hend Hfl. destruct (Hvm (v, x) ltac:(set_solver)) as (Hv & Hmx & _). simpl in Hv, Hmx.
    destruct (sorted_in _ (v, x) Hs ltac:(set_solver)) as [[Hr1 [Hr2 Hr3]] [Hq1 Hq2]]. simpl in *.
    rewrite (find_in_unique _ _ (v, x) Hs) in E by (set_solver || (unfold contains; simpl; lia)). simpl in E.
    rewrite (bind_ok _ _ s1 (Some v) s1) in E.
    2:{ rewrite (bind_ok _ _ _ _ _ (get_vma_ok _ _ _ Hv)). by rewrite Hend, Hfl, !Z.eqb_refl. }
    cbv beta iota in E.
    rewrite (bind_ok _ _ _ _ _ (set_vma_ok s1 v x _ Hv)) in E. cbv beta in E.
    eexists. split; [exact E|]. split; [eapply kept_trans; [exact Hq|apply kept_vmas]|]. split; [by rewrite <-Hvs|].
    rewrite fmap_app, fmap_cons, <-Permutation_middle in Hnd. apply NoDup_cons in Hnd as [Hnd _]. rewrite <-fmap_app in Hnd. simpl in Hnd.
    apply sorted_app in Hs as (Hs1 & Hsr & Hb1). apply sorted_cons in Hsr as (Hxo & Hs2 & Hb2). split.
    + intros Hfit. exists L. apply (inv_set_vma s1 A L m _ _ v x _ Hi1 Hm Hv); [congruence|by rewrite !fmap_app| |].
      * apply sorted_app. split; [done|]. split.
        -- apply sorted_cons. split; [constructor; simpl; [lia|done]|]. split; [done|exact Hfit].
        -- intros p q Hp [->|Hq']%elem_of_cons; [|apply Hb1; set_solver]. specialize (Hb1 p (v, x) Hp ltac:(set_solver)).
           unfold before in *. simpl in *. lia.
      * intros p Hp. assert (p = (v, x <| vm_end := end_ |>) ∨ p ∈ l1 ++ l2) as [->|Hin] by set_solver.
        -- simpl. by rewrite lookup_insert_eq.
        -- destruct (Hvm p ltac:(set_solver)) as (? & ? & _). rewrite lookup_insert_ne; [done|]. intros ->. apply Hnd. by apply list_elem_of_fmap_2.
    + intros p Hp Hlt. destruct (Hvm p ltac:(set_solver)) as (Hvp & _). simpl. split.
      * rewrite lookup_insert_ne; [done|]. intros ->. apply Hnd. rewrite fmap_app. apply elem_of_app. right. by apply list_elem_of_fmap_2.
      * specialize (Hb2 p Hp). destruct (sorted_in _ p Hs2 Hp) as [? _]. unfold overlaps, before in *. simpl in *. lia.
  - intros Hno. rewrite (bind_ok _ _ s1 None s1) in E.
    2:{ destruct (find_in (start - 1) l) as [v|] eqn:Hfi; [|done]. apply find_in_Some in Hfi as (p & Hp & <- & Hc).
        destruct (Hvm p Hp) as (Hv & _). rewrite (bind_ok _ _ _ _ _ (get_vma_ok _ _ _ Hv)). unfold mret, M_ret. do 2 f_equal.
        destruct (Z.eqb_spec (vm_end p.2) start) as [He|]; [|done]. by rewrite (proj2 (Z.eqb_neq _ _) (Hno p Hp He)). }
    cbv beta iota in E.
    destruct (vma_create_ok s1 A L m start end_ RW Hi1) as (r & s2 & E2 & Hi2 & Hk2 & _ & _ & Hr).
    rewrite (bind_ok _ _ _ _ _ E2) in E. rewrite Ho in Hr. assert (Hk : kept s s2) by (by eapply kept_trans). destruct r as [v|].
    + destruct Hr as (Hno' & Hv & _ & Hl & _). rewrite (decide_False _ _ Hno'). rewrite Hvs in Hv.
      pose proof (insert_new s2 A L m l v _ Hi2 Hm Hl (user_area _ _ RW Hua Hp1 Hp2)) as Hins. simpl vm_start in Hins. simpl vm_end in Hins.
      destruct (decide _); [by rewrite E, (bind_err _ _ _ _ Hins)|].
      destruct Hins as (s3 & l1 & l2 & E3 & -> & Hok3 & Hk3). rewrite (bind_ok _ _ _ _ _ E3) in E.
      exists s3, v, l1, l2. split_and!; [done|done|done|exact Hok3|by eapply kept_trans].
    + rewrite (decide_True _ _ Hr). exists s2. split_and!; [done|by exists L|done].
Qed.

(** C36. [mm_brk] refuses a range outside user memory; otherwise it first
    unmaps the range ([unmap_spec]) and passes on what [mm_unmap] answers when
    that is not 0.  From the areas that are left it goes on as [brk_spec] says:
    a readable and writable area that ends where the range starts is extended
    over the range, otherwise a new area is added, or [- E_NO_MEM].  Areas in
    its way are only those of a range whose first page was in no area. *)
Theorem mm_brk_correct s A m l d addr len :
  let '(start, end_) := map_range addr len in
  vmm_ok s A → A !! m = Some l → mms s !! m = Some d →
  if negb (USER_ACCESS start end_) then mm_brk (Some m) addr len s = Ok (- E_INVAL, s)
  else ∃ r, mm_unmap (Some m) start (end_ - start) s = r ∧ unmap_spec s A m l d start end_ r ∧
    match r with
    | Err e => mm_brk (Some m) addr len s = Err e
    | Ok (ret, s0) =>
        if decide (ret = 0) then
          ∃ n, let l0 := areas_left m n start end_ l in
            vmm_ok s0 (<[m := l0]> A) ∧ brk_spec s0 (<[m := l0]> A) m l0 start end_ (mm_brk (Some m) addr len s) ∧
            (find_in start l ≠ None → ∀ q, q ∈ l0 → ¬ overlaps q.2 start end_)
        else mm_brk (Some m) addr len s = Ok (ret, s0)
    end.
Proof.
  unfold map_range. set (start := ROUNDDOWN addr PGSIZE) in *. set (end_ := ROUNDUP _ _) in *. intros Hok Hm Hd.
  unfold mm_brk. cbv zeta. fold start end_. destruct (USER_ACCESS start end_) eqn:Hua; [|done]. cbv beta iota delta [negb].
  pose proof (ROUNDDOWN_mod addr : start mod PGSIZE = 0) as Hp1. pose proof (ROUNDUP_mod (u32 (addr + len)) : end_ mod PGSIZE = 0) as Hp2.
  pose proof Hua as [[_ Hlt%Z.ltb_lt]%andb_true_iff _]%andb_true_iff.
  pose proof (unmap_user_range s A m l d start (end_ - start)) as Hun. rewrite (page_range start end_ Hua Hp1 Hp2) in Hun.
  specialize (Hun Hok Hm Hd Hua). eexists. split; [done|]. split; [exact Hun|].
  destruct (mm_unmap (Some m) start (end_ - start) s) as [[ret s0]|e] eqn:E; [|exact (bind_err _ _ _ _ E)].
  rewrite (bind_ok _ _ _ _ _ E). destruct (Z.eqb_spec ret 0) as [->|Hne]; [|by rewrite decide_False]. rewrite decide_True by done.
  assert (Hs : sorted_areas l) by (destruct Hok as [L Hi]; apply (vi_mm _ _ _ Hi _ _ Hm)).
  destruct (unmap_spec_areas s A m l d start end_ s0 Hm Hs Hlt Hun) as [n Hok0]. exists n. split; [exact Hok0|].
  split; [|by intros Hf q; apply areas_left_outside].
  exact (brk_tail_ok s0 _ m _ start end_ Hok0 (lookup_insert_eq _ _ _) Hua Hp1 Hp2).
Qed.
