(* ===== verification/VmmFork.v ===== *)
(** * Creating and duplicating an address space

    [mm_create] makes an empty address space; [dup_mmap] gives the child of a
    fork the areas of its parent. *)

From Stdlib Require Import Sorted.
From S2P Require Import Prelude DList RbTree RbRep RbInv RbInsert RbTreeSpec Vmm VmmInv VmmInsert VmmMap VmmUnmap.

Implicit Types (s : vst) (m v t addr start : Z) (x y : vma_struct) (p q : entry) (l : list entry)
  (A : gmap Z (list entry)) (L : gmap vlink (list vlink)).

(** ** [mm_create] *)

Lemma mm_create_ok s A L :
  vmm_inv s A L → head (oom s) ≠ Some true →
  ∃ s' L', mm_create s = Ok (Some (fresh s), s') ∧ A !! fresh s = None ∧ vmm_inv s' (<[fresh s := []]> A) L' ∧
    shmems s' = shmems s ∧ events s' = events s ∧ copies s' = copies s.
Proof.
  intros Hi Hoom. destruct (kmalloc_new s) as (r & s1 & E & Hs1 & Hr). unfold mm_create. rewrite (bind_ok _ _ _ _ _ E).
  assert (r = Some (fresh s)) as -> by (destruct (head (oom s)) as [[]|]; congruence). clear Hr. set (m := fresh s) in *.
  destruct Hi as [[Hrep Hl Hlf] Hdom Hmm Htr [Hf1 Hf2]].
  assert (Hnew : ∀ e, link_fresh (fresh s) e → e ≠ mmap_list m ∧ e ≠ proc_mm_link m).
  { intros e He. split; intros ->; simpl in He; unfold m in He; lia. }
  assert (Hun : unlisted L (mmap_list m) ∧ unlisted L (proc_mm_link m)).
  { split; intros k ks Hk Hin; specialize (Hlf k ks _ Hk Hin); by apply Hnew in Hlf as [? ?]. }
  assert (HA : A !! m = None).
  { apply not_elem_of_dom. rewrite <-Hdom. intros [d Hd]%elem_of_dom. specialize (Hf2 _ _ Hd). unfold m in Hf2. lia. }
  destruct (rep_init _ _ (mmap_list m) Hrep) as (h1 & E1 & Hr1); [by apply unlisted_available, Hun|].
  assert (Hun2 : unlisted (<[mmap_list m := []]> L) (proc_mm_link m)).
  { intros k ks [[<- <-]|[_ Hk]]%lookup_insert_Some Hin; [by rewrite list_elem_of_singleton in Hin|]. by apply (proj2 Hun k ks Hk). }
  destruct (rep_init _ _ (proc_mm_link m) Hr1) as (h2 & E2 & Hr2); [by apply unlisted_available|].
  assert (Hvl : vlinks s1 = vlinks s) by by rewrite Hs1.
  rewrite <-Hvl in E1. rewrite (bind_ok _ _ _ _ _ (on_vlinks_ok _ _ _ _ E1)). set (s2 := s1 <| vlinks := h1 |>).
  set (s3 := s2 <| mms := <[m := mk_mm None None 0 0 0 0 0 0 0 1]> (mms s2) |>). rewrite (bind_ok _ _ s2 tt s3) by done.
  rewrite (bind_ok _ _ _ _ _ (on_vlinks_ok _ s3 _ _ E2)). subst s3 s2.
  eexists. exists (<[proc_mm_link m := []]> (<[mmap_list m := []]> L)). split; [done|]. split; [done|]. subst s1. simpl.
  split; [|done]. set (d0 := mk_mm _ _ _ _ _ _ _ _ _ _).
  assert (Hne : ∀ m' l, A !! m' = Some l → m' ≠ m) by (intros m' l Hm' ->; congruence).
  constructor; simpl.
  - constructor; simpl; [done| |].
    + intros m' l [[<- <-]|[Hn Hm']]%lookup_insert_Some; [by rewrite lookup_insert_ne, lookup_insert_eq|].
      rewrite !lookup_insert_ne by congruence. by apply Hl.
    + intros k ks e [[<- <-]|[_ [[<- <-]|[_ Hk]]%lookup_insert_Some]]%lookup_insert_Some He.
      * rewrite list_elem_of_singleton in He. subst e. simpl. unfold m. lia.
      * rewrite list_elem_of_singleton in He. subst e. simpl. unfold m. lia.
      * specialize (Hlf k ks e Hk He). destruct e; simpl in *; lia.
  - by rewrite !dom_insert_L, Hdom.
  - intros m' l [[<- <-]|[Hn Hm']]%lookup_insert_Some.
    + constructor; [intros p Hp; by apply elem_of_nil in Hp|by apply NoDup_nil|split; [constructor|done]|].
      exists d0. constructor; simpl; [by rewrite lookup_insert_eq|done|done|done].
    + destruct (Hmm m' l Hm') as [H1 H2 H3 (d & [H4 H5 H6 H7])]. constructor; [done..|]. exists d.
      constructor; simpl; [by rewrite lookup_insert_ne|done|done|]. intros t Ht. destruct (H7 t Ht). split; [lia|done].
  - intros m1 d1 m2 d2 t [[<- <-]|[N1 H1]]%lookup_insert_Some [[<- <-]|[N2 H2]]%lookup_insert_Some Ht1 Ht2; try done. eauto.
  - split; [intros v x Hv; specialize (Hf1 _ _ Hv); lia|]. intros m' d [[<- <-]|[_ Hd]]%lookup_insert_Some; [unfold m; lia|].
    specialize (Hf2 _ _ Hd). lia.
Qed.

(** ** [dup_mmap] *)

(** The copy of an area, and the references it takes. *)
Definition copy_vma (m : Z) x : vma_struct :=
  mk_vma (Some m) (vm_start x) (vm_end x) (vm_flags x) (if shared x then shmem x else None) (if shared x then shmem_off x else 0).
Definition copy_of (m : Z) p q : Prop := q.2 = copy_vma m p.2.
Definition take_ref p (h : gmap Z shmem_struct) : gmap Z shmem_struct :=
  match (if shared p.2 then shmem p.2 else None) with
  | Some sh => alter (λ d, d <| shmem_ref := s32 (shmem_ref d + 1) |>) sh h
  | None => h
  end.
Definition shmem_live (h : gmap Z shmem_struct) p : Prop :=
  shared p.2 = true → ∃ sh d, shmem p.2 = Some sh ∧ h !! sh = Some d.

Lemma take_ref_live p q h : shmem_live h q → shmem_live (take_ref p h) q.
Proof.
  intros Hq Hs. destruct (Hq Hs) as (sh & d & Hsh & Hd). exists sh. unfold take_ref. destruct (if shared p.2 then _ else _) as [sh'|]; [|by eexists].
  destruct (decide (sh' = sh)) as [->|Hne]; [rewrite lookup_alter_eq, Hd; by eexists|rewrite lookup_alter_ne by done; by eexists].
Qed.

Lemma copies_inv s A L c : vmm_inv s A L → vmm_inv (s <| copies := c |>) A L.
Proof.
  intros [[Hr Hl Hlf] Hdom Hmm Htr Hfr]. constructor; [by constructor|done| |done|done].
  intros m l Hm. destruct (Hmm m l Hm) as [H1 H2 H3 (d & [H4 H5 H6 H7])]. constructor; [done..|]. by exists d.
Qed.

(** The sharing part of one step. *)
Lemma share_step s A L m l n p :
  vmm_inv s A L → A !! m = Some l → loose s A L m n (new_area (vm_start p.2) (vm_end p.2) (vm_flags p.2)) → shmem_live (shmems s) p →
  ∃ x', when (shared p.2) (_ ← set_vma n (λ b, b <| shmem := shmem p.2 |> <| shmem_off := shmem_off p.2 |>);
               _ ← shmem_ref_inc (shmem p.2); mret tt) s =
      Ok (tt, s <| vmas := <[n := x']> (vmas s) |> <| shmems := take_ref p (shmems s) |>) ∧
    x' <| vm_mm := Some m |> = copy_vma m p.2 ∧ vm_mm x' = None ∧
    vmm_inv (s <| vmas := <[n := x']> (vmas s) |> <| shmems := take_ref p (shmems s) |>) A L ∧
    loose (s <| vmas := <[n := x']> (vmas s) |> <| shmems := take_ref p (shmems s) |>) A L m n x'.
Proof.
  intros Hi Hm Hl Hlive. pose proof (loose_notin _ _ _ _ _ _ _ _ Hi Hl Hm) as Hnin. destruct Hl as [Hv Hmm Hun Hnode].
  destruct (vi_mm _ _ _ Hi _ _ Hm) as [Hvm _ Hs _].
  assert (Hgen : ∀ x', vm_mm x' = None → vmm_inv (s <| vmas := <[n := x']> (vmas s) |> <| shmems := take_ref p (shmems s) |>) A L ∧
    loose (s <| vmas := <[n := x']> (vmas s) |> <| shmems := take_ref p (shmems s) |>) A L m n x').
  { intros x' Hx'. split.
    - apply shmems_inv. rewrite <-(insert_id A m l Hm). apply (inv_set_vma s A L m l l n _ x' Hi Hm Hv); try done.
      intros q Hq. destruct (Hvm q Hq) as (? & ? & _). split; [|done]. rewrite lookup_insert_ne; [done|].
      intros Heq. apply Hnin. rewrite Heq. by apply list_elem_of_fmap_2.
    - constructor; simpl; [by rewrite lookup_insert_eq|intros m' ?; congruence|done|done]. }
  unfold when, copy_vma, take_ref. destruct (shared p.2) eqn:Hsh.
  - destruct (Hlive Hsh) as (sh & d & Hp & Hd). set (x' := new_area (vm_start p.2) (vm_end p.2) (vm_flags p.2) <| shmem := shmem p.2 |> <| shmem_off := shmem_off p.2 |>).
    exists x'. split; [|split; [done|split; [done|]]].
    + rewrite (bind_ok _ _ _ _ _ (set_vma_ok s n _ (λ b, b <| shmem := shmem p.2 |> <| shmem_off := shmem_off p.2 |>) Hv)).
      fold x'. unfold shmem_ref_inc, shmem_ref_add. rewrite Hp. unfold deref, mbind, M_bind, modify, mret, M_ret. simpl. rewrite Hd. simpl.
      do 3 f_equal. apply map_eq. intros i. rewrite lookup_insert. case_decide as Hi'; [subst; by rewrite lookup_alter_eq, Hd|by rewrite lookup_alter_ne].
    + unfold take_ref in Hgen. rewrite Hsh, Hp in Hgen. rewrite Hp. by apply Hgen.
  - exists (new_area (vm_start p.2) (vm_end p.2) (vm_flags p.2)). split; [|split; [done|split; [done|]]].
    + rewrite insert_id by done. by destruct s.
    + unfold take_ref in Hgen. rewrite Hsh in Hgen. by apply Hgen.
Qed.

Lemma copies_sorted l lt m : Forall2 (copy_of m) l lt → ∀ q, q ∈ lt → ∃ p, p ∈ l ∧ vm_start q.2 = vm_start p.2 ∧ vm_end q.2 = vm_end p.2.
Proof.
  induction 1 as [|p q l lt Hc _ IH]; intros r Hr; [by apply elem_of_nil in Hr|].
  apply elem_of_cons in Hr as [->|Hr]; [exists p; rewrite Hc; set_solver|]. destruct (IH r Hr) as (p' & ? & ?). exists p'. set_solver.
Qed.

(** The events and answers of a partial copy. *)
Definition copy_event (to from : Z) p : event := copy_range to from (vm_start p.2) (vm_end p.2) (shared p.2).

(** Everything of [s] that a copy of the areas [l2] keeps or changes in a
    known way. *)
Record copied s s' (to from : Z) l2 : Prop := {
  cp_events : events s' = events s ++ (copy_event to from <$> rev l2);
  cp_shmems : shmems s' = foldr take_ref (shmems s) l2;
  cp_mms : ∀ m, meta <$> mms s' !! m = meta <$> mms s !! m;
  cp_copies : copies s' = drop (length l2) (copies s);
  cp_oom : ∃ k, oom s' = drop k (oom s);
}.

Lemma copied_refl s s' to from : kept s s' → copied s s' to from [].
Proof. intros [H1 H2 H3 H4 H5]. constructor; simpl; [by rewrite app_nil_r|done..]. Qed.
Lemma copied_app s1 s2 s3 to from l1 l2 : copied s1 s2 to from l2 → copied s2 s3 to from l1 → copied s1 s3 to from (l1 ++ l2).
Proof.
  intros [G1 G2 G3 G4 [k G5]] [K1 K2 K3 K4 [k' K5]]. constructor.
  - by rewrite K1, G1, rev_app_distr, fmap_app, app_assoc.
  - by rewrite K2, G2, foldr_app.
  - intros m. by rewrite K3, G3.
  - by rewrite K4, G4, drop_drop, length_app, Nat.add_comm.
  - exists (k + k')%nat. by rewrite K5, G5, drop_drop.
Qed.

(** The answer of the [i]-th copy of a page table range from now on. *)
Definition answer (c : list Z) (i : nat) : Z := default 0 (c !! i).

(** Why the copy ended with [r] when the areas [lb] were copied, the last one
    first, and [la] were not. *)
Inductive dup_outcome s (la lb : list entry) : Z → Prop :=
  | dup_all : la = [] → (∀ i, (i < length lb)%nat → answer (copies s) i = 0) → dup_outcome s la lb 0
  | dup_copy_failed n : length lb = S n → (∀ i, (i < n)%nat → answer (copies s) i = 0) → answer (copies s) n ≠ 0 →
      dup_outcome s la lb (- E_NO_MEM)
  | dup_no_area k : la ≠ [] → (∀ i, (i < length lb)%nat → answer (copies s) i = 0) → head (drop k (oom s)) = Some true →
      dup_outcome s la lb (- E_NO_MEM).

Lemma dup_outcome_step s s1 la lb p r to from :
  copied s s1 to from [p] → answer (copies s) 0 = 0 → dup_outcome s1 la lb r → dup_outcome s la (lb ++ [p]) r.
Proof.
  intros [_ _ _ Hc [k Ho]] H0 H.
  assert (Hn : ∀ n, (∀ i, (i < n)%nat → answer (copies s1) i = 0) → ∀ i, (i < S n)%nat → answer (copies s) i = 0).
  { intros n Hn [|i] Hi; [done|]. specialize (Hn i ltac:(lia)). unfold answer in *. by rewrite Hc, lookup_drop in Hn. }
  assert (Hlen : length (lb ++ [p]) = S (length lb)) by (rewrite length_app; simpl; lia).
  destruct H as [Hla Hall|n Hl Hall Hne|k' Hla Hall Hk'].
  - apply dup_all; [done|]. rewrite Hlen. by apply Hn.
  - apply (dup_copy_failed s la _ (S n)); [lia|by apply Hn|]. unfold answer in *. by rewrite Hc, lookup_drop in Hne.
  - apply (dup_no_area s la _ (k + k')); [done|rewrite Hlen; by apply Hn|]. by rewrite <-drop_drop, <-Ho.
Qed.

Lemma dup_step s A L mt mf l1 p l2 lt dt df :
  vmm_inv s A L → A !! mf = Some ((l1 ++ [p]) ++ l2) → A !! mt = Some lt → mt ≠ mf → Forall2 (copy_of mt) l2 lt →
  mms s !! mt = Some dt → mms s !! mf = Some df → shmem_live (shmems s) p →
  (∃ s', dup_body mt mf (first mf l2) s = Ok (inr (- E_NO_MEM), s') ∧ vmm_inv s' A L ∧ kept s s' ∧ head (oom s) = Some true) ∨
  (∃ s' L' n, dup_body mt mf (first mf l2) s =
      Ok (if decide (answer (copies s) 0 = 0) then inl (list_link p.1) else inr (- E_NO_MEM), s') ∧
    vmm_inv s' (<[mt := (n, copy_vma mt p.2) :: lt]> A) L' ∧ copied s s' (pgdir dt) (pgdir df) [p]).
Proof.
  intros Hi Hmf Hmt Hne Hcp Hdt Hdf Hlive. destruct (vi_mm _ _ _ Hi _ _ Hmf) as [Hvm Hnd Hs _].
  destruct (Hvm p ltac:(set_solver)) as (Hvp & _). pose proof (prev_first s L mf (l1 ++ [p]) l2 (mm_lists _ _ _ _ _ Hi Hmf)) as Ep.
  rewrite pos_snoc in Ep. destruct (sorted_in _ p Hs ltac:(set_solver)) as [[Hr1 [Hr2 Hr3]] [Hq1 Hq2]].
  destruct (vma_create_ok s A L mt (vm_start p.2) (vm_end p.2) (vm_flags p.2) Hi) as (r & s1 & E1 & Hi1 & Hk1 & Hmm1 & Hvl1 & Hr).
  unfold dup_body. rewrite (bind_ok _ _ _ _ _ Ep), decide_False by done. simpl le2vma. rewrite (bind_ok _ _ s p.1 s) by done.
  rewrite (bind_ok _ _ _ _ _ (get_vma_ok _ _ _ Hvp)), (bind_ok _ _ _ _ _ E1). destruct r as [n|]; [right|left].
  2:{ exists s1. split_and!; done. }
  destruct Hr as (_ & Hno & Hv1 & Hl1 & _). cbv zeta. fold (shared p.2).
  assert (Hlive1 : shmem_live (shmems s1) p) by (by rewrite (kp_shmems _ _ Hk1)).
  destruct (share_step s1 A L mt lt n p Hi1 Hmt Hl1 Hlive1) as (x' & E2 & Hx' & Hx0 & Hi2 & Hl2).
  rewrite (bind_ok _ _ _ _ _ E2). set (s2 := s1 <| vmas := _ |> <| shmems := _ |>) in *.
  assert (Hrange : vm_start x' = vm_start p.2 ∧ vm_end x' = vm_end p.2).
  { unfold copy_vma in Hx'. destruct x'. simpl in *. by simplify_eq. }
  destruct Hrange as [Hxs Hxe].
  destruct (insert_vma_struct_ok s2 A L mt [] lt n x' Hi2 Hmt Hl2) as (s3 & E3 & Hi3 & Hk3 & _).
  { constructor; rewrite Hxs, Hxe; [lia|done]. } { intros q Hq. by apply elem_of_nil in Hq. }
  { intros q Hq. destruct (copies_sorted _ _ _ Hcp q Hq) as (p' & Hp' & -> & _). rewrite Hxe.
    apply sorted_app in Hs as (_ & _ & Hb). specialize (Hb p p' ltac:(set_solver) Hp'). done. }
  rewrite Hx' in Hi3. rewrite (bind_ok _ _ _ _ _ E3).
  assert (Hmeta : ∀ m, meta <$> mms s3 !! m = meta <$> mms s !! m).
  { intros m. rewrite (kp_mms _ _ Hk3 m). simpl. by rewrite Hmm1. }
  pose proof (Hmeta mt) as Hmt3. pose proof (Hmeta mf) as Hmf3. rewrite Hdt in Hmt3. rewrite Hdf in Hmf3.
  apply fmap_Some in Hmt3 as (dt3 & Hdt3 & Hpt). apply fmap_Some in Hmf3 as (df3 & Hdf3 & Hpf).
  rewrite (bind_ok _ _ _ _ _ (get_mm_ok _ _ _ Hdt3)), (bind_ok _ _ _ _ _ (get_mm_ok _ _ _ Hdf3)).
  assert (pgdir dt3 = pgdir dt ∧ pgdir df3 = pgdir df) as [-> ->] by (unfold meta in Hpt, Hpf; simpl in *; split; congruence).
  set (s4 := s3 <| events := events s3 ++ [copy_range (pgdir dt) (pgdir df) (vm_start p.2) (vm_end p.2) (shared p.2)] |>).
  rewrite (bind_ok _ _ s3 tt s4), (bind_ok _ _ s4 s4 s4) by done. set (s5 := s4 <| copies := tail (copies s4) |>).
  rewrite (bind_ok _ _ s4 tt s5) by done.
  assert (Hcs : copies s4 = copies s) by (simpl; rewrite (kp_copies _ _ Hk3); simpl; apply (kp_copies _ _ Hk1)).
  eexists s5, _, n. split.
  { rewrite Hcs. unfold answer. rewrite <-head_lookup. destruct (Z.eqb_spec (default 0 (head (copies s))) 0) as [E0|E0]; simpl.
    - by rewrite decide_True.
    - by rewrite decide_False. }
  split; [apply copies_inv, events_inv, Hi3|].
  constructor; simpl.
  - rewrite (kp_events _ _ Hk3). simpl. by rewrite (kp_events _ _ Hk1).
  - rewrite (kp_shmems _ _ Hk3). simpl. by rewrite (kp_shmems _ _ Hk1).
  - exact Hmeta.
  - change (tail (copies s4) = drop 1 (copies s)). rewrite Hcs. by destruct (copies s).
  - destruct (kp_oom _ _ Hk1) as [k1 O1], (kp_oom _ _ Hk3) as [k3 O3]. simpl in O3. exists (k1 + k3)%nat. by rewrite O3, O1, drop_drop.
Qed.

Lemma dup_loop fuel s A L mt mf l1 l2 lt dt df :
  vmm_inv s A L → A !! mf = Some (l1 ++ l2) → A !! mt = Some lt → mt ≠ mf → Forall2 (copy_of mt) l2 lt →
  mms s !! mt = Some dt → mms s !! mf = Some df → (∀ p, p ∈ l1 → shmem_live (shmems s) p) → (length l1 < fuel)%nat →
  ∃ r s' la lb lt', loop fuel (dup_body mt mf) (first mf l2) s = Ok (r, s') ∧ l1 = la ++ lb ∧ dup_outcome s la lb r ∧
    vmm_ok s' (<[mt := lt']> A) ∧ Forall2 (copy_of mt) (lb ++ l2) lt' ∧ copied s s' (pgdir dt) (pgdir df) lb.
Proof.
  revert fuel s A L l2 lt dt df. induction l1 as [|p l1 IH] using rev_ind; intros [|fuel] s A L l2 lt dt df Hi Hmf Hmt Hne Hcp Hdt Hdf Hlive Hf; try lia.
  - exists 0, s, [], [], lt. split; [|split; [done|split; [by apply dup_all; [|simpl; lia]|split; [rewrite insert_id by done; by exists L|split; [done|]]]]].
    + apply loop_stop. unfold dup_body. rewrite (bind_ok _ _ _ _ _ (prev_first s L mf [] l2 (mm_lists _ _ _ _ _ Hi Hmf))).
      by rewrite decide_True.
    + apply copied_refl, kept_refl.
  - rewrite length_app in Hf. simpl in Hf.
    destruct (dup_step s A L mt mf l1 p l2 lt dt df Hi Hmf Hmt Hne Hcp Hdt Hdf (Hlive p ltac:(set_solver)))
      as [(s1 & E1 & Hi1 & Hk1 & Ho1)|(s1 & L1 & n & E1 & Hi1 & Hc1)].
    { exists (- E_NO_MEM), s1, (l1 ++ [p]), [], lt. split; [by apply loop_stop|]. split; [by rewrite app_nil_r|].
      split; [apply (dup_no_area s _ _ 0); [by destruct l1|simpl; lia|done]|].
      split; [rewrite insert_id by done; by exists L|]. split; [done|by apply copied_refl]. }
    assert (Hcp' : Forall2 (copy_of mt) (p :: l2) ((n, copy_vma mt p.2) :: lt)) by by constructor.
    case_decide as Ha.
    + pose proof (cp_mms _ _ _ _ _ Hc1 mt) as Hmt3. pose proof (cp_mms _ _ _ _ _ Hc1 mf) as Hmf3. rewrite Hdt in Hmt3. rewrite Hdf in Hmf3.
      apply fmap_Some in Hmt3 as (dt3 & Hdt3 & Hpt). apply fmap_Some in Hmf3 as (df3 & Hdf3 & Hpf).
      assert (pgdir dt3 = pgdir dt ∧ pgdir df3 = pgdir df) as [Hpt' Hpf'] by (unfold meta in Hpt, Hpf; simpl in *; split; congruence).
      destruct (IH fuel s1 (<[mt := (n, copy_vma mt p.2) :: lt]> A) L1 (p :: l2) ((n, copy_vma mt p.2) :: lt) dt3 df3 Hi1)
        as (r & s2 & la & lb & lt' & E2 & -> & Hr2 & Hok2 & Hcp2 & Hc2); try done.
      { rewrite lookup_insert_ne by done. by rewrite <-app_assoc in Hmf. } { by rewrite lookup_insert_eq. }
      { intros q Hq. rewrite (cp_shmems _ _ _ _ _ Hc1). simpl. apply take_ref_live, Hlive. set_solver. } { lia. }
      exists r, s2, la, (lb ++ [p]), lt'. split; [by rewrite (loop_next _ _ _ _ _ _ E1)|]. split; [by rewrite app_assoc|].
      split; [by eapply dup_outcome_step|]. rewrite insert_insert_eq in Hok2. split; [done|]. rewrite <-app_assoc. split; [done|].
      rewrite Hpt', Hpf' in Hc2. by eapply copied_app.
    + exists (- E_NO_MEM), s1, l1, [p], ((n, copy_vma mt p.2) :: lt). split; [by apply loop_stop|]. split; [done|].
      split; [by apply (dup_copy_failed s _ _ 0); [|lia|]|]. split; [by exists L1|]. done.
Qed.

(** C14. [dup_mmap] of a parent to an empty child, as [fork] does it: the areas
    are copied from the last to the first, each with its range, flags and
    shared memory, which gains a reference, and each range is copied in the
    page table, shared or copy-on-write.  It returns 0 exactly when all of them
    are copied and every page table copy succeeded; otherwise it returns
    [- E_NO_MEM] with the areas from some point on, and stopped either right
    after the first page table copy that failed, or because [kmalloc] refused
    the next area. *)
Theorem dup_mmap_correct s A mt mf l dt df :
  vmm_ok s A → A !! mf = Some l → A !! mt = Some [] → mt ≠ mf → mms s !! mt = Some dt → mms s !! mf = Some df →
  (∀ p, p ∈ l → shmem_live (shmems s) p) →
  ∃ r s' la lb lt, dup_mmap (Some mt) (Some mf) s = Ok (r, s') ∧ l = la ++ lb ∧ dup_outcome s la lb r ∧
    vmm_ok s' (<[mt := lt]> A) ∧ Forall2 (copy_of mt) lb lt ∧ copied s s' (pgdir dt) (pgdir df) lb.
Proof.
  intros [L Hi] Hmf Hmt Hne Hdt Hdf Hlive. unfold dup_mmap.
  rewrite (bind_ok _ _ s tt s), (bind_ok _ _ s mt s), (bind_ok _ _ s mf s) by done.
  pose proof (lists_size _ _ _ _ (mm_lists _ _ _ _ _ Hi Hmf)) as Hsz. rewrite <-(app_nil_r l) in Hmf.
  destruct (dup_loop (S (size (vlinks s))) s A L mt mf l [] [] dt df Hi Hmf Hmt Hne (Forall2_nil_2 _ _ (copy_of mt)) Hdt Hdf Hlive) as (r & s' & la & lb & lt & E & Hrest); [lia|].
  rewrite app_nil_r in Hrest. by exists r, s', la, lb, lt.
Qed.
