(* ===== verification/VmmSim.v ===== *)
(** * Concrete address spaces

    The theorems on address spaces, applied to small states whose hypotheses
    are checked by computation. *)

From Stdlib Require Import Sorted.
From S2P Require Import Prelude DList RbTree RbTreeSpec Vmm VmmInv VmmInsert VmmMap VmmUnmap VmmUser VmmFork.

(** ** Building a state *)

Definition mm0 (m : Z) (l : list entry) : mm_struct := mk_mm None None (m * 0x1000) (Z.of_nat (length l)) 0 0 0 0 0 1.
Definition junk (v : Z) : rb_node vnode := mk_rb false (rb_link v) (rb_link v) (rb_link v).
Definition rings (S : list (Z * list entry)) : list (vlink * list vlink) :=
  flat_map (λ e, [(mmap_list e.1, list_link <$> e.2.*1); (proc_mm_link e.1, [])]) S.
Definition space (S : list (Z * list entry)) (n : Z) (o : list bool) (c : list Z) : vst :=
  mk_vst (list_to_map (flat_map snd S)) (list_to_map ((λ e, (e.1, mm0 e.1 e.2)) <$> S)) ∅ (build (rings S))
    (list_to_map ((λ p, (rb_link p.1, junk p.1)) <$> flat_map snd S)) n o c [].

Lemma space_ok S n o c :
  NoDup S.*1 → NoDup (flat_map snd S).*1 → NoDup (nodes (rings S)) →
  (∀ e, e ∈ S → e.1 < n ∧ sorted_areas e.2 ∧ ∀ p, p ∈ e.2 → p.1 < n ∧ vm_mm p.2 = Some e.1) →
  vmm_ok (space S n o c) (list_to_map S).
Proof.
  intros HS Hids Hnodes Hall. exists (list_to_map (rings S)).
  assert (Hrings : NoDup (rings S).*1).
  { clear -HS. induction S as [|e S IH]; [constructor|]. simpl in *. apply NoDup_cons in HS as [He HS]. specialize (IH HS).
    assert (Hin : ∀ k, k ∈ (rings S).*1 → ∃ m, m ∈ S.*1 ∧ (k = mmap_list m ∨ k = proc_mm_link m)).
    { clear. induction S as [|e S IH]; intros k Hk; [by apply elem_of_nil in Hk|]. simpl in Hk.
      apply elem_of_cons in Hk as [->|[->|Hk]%elem_of_cons]; [exists e.1; set_solver..|]. destruct (IH k Hk) as (m & ? & ?). exists m. set_solver. }
    apply NoDup_cons. split.
    - intros [?|Hk]%elem_of_cons; [done|]. destruct (Hin _ Hk) as (m & Hm & [[= <-]|?]); done.
    - apply NoDup_cons. split; [|done]. intros Hk. destruct (Hin _ Hk) as (m & Hm & [?|[= <-]]); done. }
  assert (Hmem : ∀ m l, (list_to_map S : gmap Z (list entry)) !! m = Some l ↔ (m, l) ∈ S) by (intros m l; split; [apply elem_of_list_to_map_2|by apply elem_of_list_to_map_1]).
  assert (Hvm : ∀ m l p, (m, l) ∈ S → p ∈ l → (list_to_map (flat_map snd S) : gmap Z vma_struct) !! p.1 = Some p.2 ∧ p ∈ flat_map snd S).
  { intros m l p Hm Hp. assert (p ∈ flat_map snd S) as Hin by (apply list_elem_of_In, in_flat_map; exists (m, l); rewrite <-!list_elem_of_In; done).
    split; [|done]. apply elem_of_list_to_map_1; [done|]. by destruct p. }
  constructor.
  - constructor.
    + by apply build_rep.
    + intros m l Hm%Hmem. apply elem_of_list_to_map_1; [done|]. apply list_elem_of_In, in_flat_map. exists (m, l). rewrite <-list_elem_of_In. split; [done|by left].
    + intros k ks e Hk He. apply elem_of_list_to_map_2, list_elem_of_In, in_flat_map in Hk as ([m l] & Hin & Hk). rewrite <-list_elem_of_In in Hin.
      destruct (Hall _ Hin) as (Hm & _ & Hp). simpl in *. destruct Hk as [[= <- <-]|[[= <- <-]|[]]].
      * apply elem_of_cons in He as [->|He]; [done|]. apply list_elem_of_fmap in He as (v & -> & Hv). apply list_elem_of_fmap in Hv as (p & -> & Hpl).
        simpl. by apply Hp.
      * rewrite list_elem_of_singleton in He. by subst e.
  - simpl. apply set_eq. intros m. rewrite !elem_of_dom. split.
    + intros [d Hd%elem_of_list_to_map_2]. apply list_elem_of_fmap in Hd as ([m' l] & [= -> ->] & Hin). exists l. by apply Hmem.
    + intros [l Hl%Hmem]. exists (mm0 m l). apply elem_of_list_to_map_1.
      * rewrite <-list_fmap_compose. exact HS.
      * apply list_elem_of_fmap. by exists (m, l).
  - intros m l Hm%Hmem. destruct (Hall _ Hm) as (Hmn & Hs & Hp). simpl in *. constructor.
    + intros p Hpl. destruct (Hvm m l p Hm Hpl) as [Hv Hin]. split_and!; [done|by apply Hp|]. simpl. exists (junk p.1).
      apply elem_of_list_to_map_1.
      * rewrite <-list_fmap_compose. change (NoDup (((λ v, rb_link v) ∘ fst) <$> flat_map snd S)). rewrite list_fmap_compose. apply NoDup_fmap; [by intros ?? [=]|done].
      * apply list_elem_of_fmap. by exists p.
    + clear -Hids Hm. induction S as [|e S IH]; [by apply elem_of_nil in Hm|]. simpl in Hids. rewrite fmap_app in Hids.
      apply NoDup_app in Hids as (H1 & _ & H2). apply elem_of_cons in Hm as [<-|Hm]; [done|auto].
    + done.
    + exists (mm0 m l). constructor; simpl; [|done|done|done]. apply elem_of_list_to_map_1.
      * rewrite <-list_fmap_compose. exact HS.
      * apply list_elem_of_fmap. by exists (m, l).
  - intros m1 d1 m2 d2 t Hd1 _ Ht1 _. simpl in Hd1. apply elem_of_list_to_map_2, list_elem_of_fmap in Hd1 as ([m l] & [= -> ->] & _). done.
  - split; simpl.
    + intros v x Hv. apply elem_of_list_to_map_2, list_elem_of_In, in_flat_map in Hv as ([m l] & Hin & Hv). rewrite <-list_elem_of_In in Hin. apply list_elem_of_In in Hv.
      destruct (Hall _ Hin) as (_ & _ & Hp). by apply (Hp (v, x)).
    + intros m d Hd. apply elem_of_list_to_map_2, list_elem_of_fmap in Hd as ([m' l] & [= -> ->] & Hin). by destruct (Hall _ Hin).
Qed.

(** An address space with a heap of one page, a hole of two pages and a
    writable mapping of two pages, and one that is empty. *)
Definition heap_area : vma_struct := mk_vma (Some 1) 0x30001000 0x30002000 RW None 0.
Definition map_area : vma_struct := mk_vma (Some 1) 0x30004000 0x30006000 RW None 0.
Definition areas1 : list entry := [(3, heap_area); (4, map_area)].
Definition spaces : list (Z * list entry) := [(1, areas1); (2, [])].
Definition space1 (o : list bool) (c : list Z) : vst := space spaces 10 o c.

Lemma areas1_sorted : sorted_areas areas1.
Proof.
  split; [repeat constructor; unfold before; simpl; lia|].
  apply Forall_cons; split; [|apply Forall_cons; split; [|done]]; constructor; simpl; split_and!; done.
Qed.
Lemma space1_ok o c : vmm_ok (space1 o c) (list_to_map spaces).
Proof.
  apply space_ok; [apply (bool_decide_unpack _); by vm_compute..|].
  intros e [->|[->|[]%elem_of_nil]%elem_of_cons]%elem_of_cons; simpl; (split; [lia|split; [|]]).
  - apply areas1_sorted.
  - intros p [->|[->|[]%elem_of_nil]%elem_of_cons]%elem_of_cons; simpl; (split; [lia|done]).
  - split; constructor.
  - intros p []%elem_of_nil.
Qed.

(** An address space with one shared area of two pages, the last to map its
    shared memory. *)
Definition share_area : vma_struct := mk_vma (Some 1) 0x30001000 0x30003000 (Z.lor RW VM_SHARE) (Some 7) 0.
Definition spaces2 : list (Z * list entry) := [(1, [(5, share_area)])].
Definition space2 : vst := space spaces2 10 [] [] <| shmems := {[7 := mk_shmem 1 0x2000]} |>.
Lemma space2_ok : vmm_ok space2 (list_to_map spaces2).
Proof.
  assert (vmm_ok (space spaces2 10 [] []) (list_to_map spaces2)) as [L Hi]; [|exists L; by apply shmems_inv].
  apply space_ok; [apply (bool_decide_unpack _); by vm_compute..|].
  intros e [->|[]%elem_of_nil]%elem_of_cons. simpl. split; [lia|split].
  - split; [repeat constructor|]. apply Forall_singleton. by constructor; simpl; split_and!.
  - intros p ->%list_elem_of_singleton. simpl. split; [lia|done].
Qed.

(** ** The theorems at these states *)

(** Replace closed terms by their values. *)
Ltac eval_in H t := let v := eval vm_compute in t in replace t with v in H by (vm_compute; reflexivity); cbv beta iota in H.

Lemma areas1_elem p : p ∈ areas1 → p = (3, heap_area) ∨ p = (4, map_area).
Proof. intros [->|[->|[]%elem_of_nil]%elem_of_cons]%elem_of_cons; auto. Qed.

(** A mapping in the hole; one that reaches into the mapping; no memory. *)
Lemma mm_map_correct_witness :
  (∃ s' v, mm_map (Some 1) 0x30002000 0x1000 VM_READ (space1 [] []) = Ok ((0, Some v), s')) ∧
  mm_map (Some 1) 0x30003000 0x2000 VM_READ (space1 [] []) = Err Panic ∧
  (∃ s', mm_map (Some 1) 0x30002000 0x1000 VM_READ (space1 [true] []) = Ok ((- E_NO_MEM, None), s')).
Proof.
  split; [|split].
  - pose proof (mm_map_correct (space1 [] []) _ 1 areas1 0x30002000 0x1000 VM_READ (space1_ok _ _) eq_refl) as H.
    eval_in H (map_range 0x30002000 0x1000). eval_in H (USER_ACCESS 0x30002000 0x30003000). eval_in H (find_in 0x30002000 areas1).
    rewrite decide_False in H by done. rewrite decide_False in H by (apply (bool_decide_unpack _); by vm_compute).
    destruct H as (s' & v & l1 & l2 & E & _). by exists s', v.
  - pose proof (mm_map_correct (space1 [] []) _ 1 areas1 0x30003000 0x2000 VM_READ (space1_ok _ _) eq_refl) as H.
    eval_in H (map_range 0x30003000 0x2000). eval_in H (USER_ACCESS 0x30003000 0x30005000). eval_in H (find_in 0x30003000 areas1).
    rewrite decide_False in H by done. rewrite decide_True in H by (apply (bool_decide_unpack _); by vm_compute). exact H.
  - pose proof (mm_map_correct (space1 [true] []) _ 1 areas1 0x30002000 0x1000 VM_READ (space1_ok _ _) eq_refl) as H.
    eval_in H (map_range 0x30002000 0x1000). eval_in H (USER_ACCESS 0x30002000 0x30003000). eval_in H (find_in 0x30002000 areas1).
    rewrite decide_True in H by done. destruct H as (s' & E & _). by exists s'.
Defined.

(** From the heap's page on: the heap and the first page of the mapping go;
    a range that starts in the hole leaves everything in place; the last shared
    area takes its shared memory with it. *)
Lemma mm_unmap_correct_witness :
  (∃ s', mm_unmap (Some 1) 0x30001000 0x4000 (space1 [] []) = Ok (0, s') ∧
    vmm_ok s' (<[1 := [(4, resized map_area 0x30005000 0x30006000)]]> (list_to_map spaces)) ∧
    events s' = [unmap_range 0x1000 0x30004000 0x30005000; unmap_range 0x1000 0x30001000 0x30002000]) ∧
  (∃ s', mm_unmap (Some 1) 0x30002000 0x4000 (space1 [] []) = Ok (0, s') ∧ vmm_ok s' (list_to_map spaces)) ∧
  (∃ s', mm_unmap (Some 1) 0x30001000 0x2000 space2 = Ok (0, s') ∧ vmm_ok s' (<[1 := []]> (list_to_map spaces2)) ∧
    shmems s' = ∅ ∧ events s' = [unmap_range 0x1000 0x30001000 0x30003000; shmem_destroy 7]).
Proof.
  split; [|split].
  - pose proof (mm_unmap_correct (space1 [] []) _ 1 areas1 (mm0 1 areas1) 0x30001000 0x4000 (space1_ok _ _) eq_refl eq_refl) as H.
    eval_in H (map_range 0x30001000 0x4000). eval_in H (USER_ACCESS 0x30001000 0x30005000). unfold unmap_spec in H. eval_in H (find_in 0x30001000 areas1).
    destruct H as (x & l1 & l2 & El & Hc & H).
    assert (x = heap_area) as ->.
    { destruct (areas1_elem (3, x)) as [[= ->]|[=]]; [rewrite El; set_solver|done]. }
    eval_in H ((vm_start heap_area <? 0x30001000) && (0x30005000 <? vm_end heap_area)).
    eval_in H (release_all (pgdir (mm0 1 areas1)) 0x30001000 0x30005000 (rev (filter (λ p, overlaps p.2 0x30001000 0x30005000) areas1)) (shmems (space1 [] []))).
    destruct H as (s' & E & Hok & Hk).
    exists s'. split; [exact E|]. split.
    + replace [(4, resized map_area 0x30005000 0x30006000)] with (flat_map (cut 0x30001000 0x30005000) areas1) by (vm_compute; reflexivity). exact Hok.
    + rewrite (kp_events _ _ Hk). vm_compute. reflexivity.
  - pose proof (mm_unmap_correct (space1 [] []) _ 1 areas1 (mm0 1 areas1) 0x30002000 0x4000 (space1_ok _ _) eq_refl eq_refl) as H.
    eval_in H (map_range 0x30002000 0x4000). eval_in H (USER_ACCESS 0x30002000 0x30006000). unfold unmap_spec in H. eval_in H (find_in 0x30002000 areas1).
    destruct H as (s' & E & Hok & _). by exists s'.
  - pose proof (mm_unmap_correct space2 _ 1 [(5, share_area)] (mm0 1 [(5, share_area)]) 0x30001000 0x2000 space2_ok eq_refl eq_refl) as H.
    eval_in H (map_range 0x30001000 0x2000). eval_in H (USER_ACCESS 0x30001000 0x30003000). unfold unmap_spec in H.
    eval_in H (find_in 0x30001000 [(5, share_area)]).
    destruct H as (x & l1 & l2 & El & Hc & H).
    assert (x = share_area) as -> by (assert ((5, x) ∈ [(5, share_area)]) as [= ->]%list_elem_of_singleton; [rewrite El; set_solver|done]).
    eval_in H ((vm_start share_area <? 0x30001000) && (0x30003000 <? vm_end share_area)).
    eval_in H (release_all (pgdir (mm0 1 [(5, share_area)])) 0x30001000 0x30003000 (rev (filter (λ p, overlaps p.2 0x30001000 0x30003000) [(5, share_area)])) (shmems space2)).
    destruct H as (s' & E & Hok & [H1 H2 _ _ _]). exists s'. split; [exact E|]. split; [exact Hok|]. split; [exact H1|exact H2].
Defined.

(** A buffer inside the mapping may be written, one that ends in the hole not. *)
Lemma user_mem_check_correct_witness :
  (∃ s', user_mem_check (Some 1) 0x30004800 0x1000 true (space1 [] []) = Ok (true, s')) ∧
  (∃ s', user_mem_check (Some 1) 0x30001800 0x1000 false (space1 [] []) = Ok (false, s')).
Proof.
  split.
  - destruct (user_mem_check_correct (space1 [] []) _ 1 areas1 0x30004800 0x1000 true (space1_ok _ _) eq_refl) as (b & s' & E & _ & _ & Hb).
    exists s'. assert (b = true) as ->; [|exact E]. apply Hb. split; [by vm_compute|]. replace (u32 (0x30004800 + 0x1000)) with 0x30005800 by by vm_compute.
    intros a Ha. exists (4, map_area). split; [right; left|]. unfold contains. simpl. split; [lia|]. split; [done|]. intros _ Hst. by destruct Hst.
  - destruct (user_mem_check_correct (space1 [] []) _ 1 areas1 0x30001800 0x1000 false (space1_ok _ _) eq_refl) as (b & s' & E & _ & _ & Hb).
    exists s'. destruct b; [|exact E]. exfalso. destruct (proj1 Hb eq_refl) as [_ Hacc].
    replace (u32 (0x30001800 + 0x1000)) with 0x30002800 in Hacc by by vm_compute.
    destruct (Hacc 0x30002000) as (p & Hp & Hc & _); [lia|]. apply areas1_elem in Hp as [->| ->]; unfold contains in Hc; simpl in Hc; lia.
Defined.

Lemma get_unmapped_area_correct_witness :
  ∃ r, get_unmapped_area 1 0x2000 (space1 [] []) = Ok (r, space1 [] []) ∧ free_range areas1 0x2000 r ∧ 0x6fffe000 ≤ r.
Proof.
  destruct (get_unmapped_area_correct (space1 [] []) _ 1 areas1 0x2000 (space1_ok _ _) eq_refl ltac:(lia)) as (r & E & H1 & H2).
  assert (Hf : free_range areas1 0x2000 0x6fffe000).
  { split_and!; [done|done|]. intros p [->| ->]%areas1_elem; unfold overlaps; simpl; lia. }
  exists r. split; [exact E|]. destruct H1 as [Hr Hmax]; [intros ->; by apply (H2 eq_refl 0x6fffe000)|]. split; [exact Hr|by apply Hmax].
Defined.

(** The heap grows over the hole and the first page of the mapping; a range
    that starts with the heap replaces it. *)
Lemma mm_brk_correct_witness :
  (∃ s', mm_brk (Some 1) 0x30002000 0x3000 (space1 [] []) = Ok (0, s') ∧
    vmas s' !! 3 = Some (heap_area <| vm_end := 0x30005000 |>) ∧ vmas s' !! 4 = Some map_area ∧
    overlaps (heap_area <| vm_end := 0x30005000 |>) (vm_start map_area) (vm_end map_area)) ∧
  (∃ s' v, mm_brk (Some 1) 0x30001000 0x1800 (space1 [] []) = Ok (0, s') ∧
    vmm_ok s' (<[1 := [(v, mk_vma (Some 1) 0x30001000 0x30003000 RW None 0); (4, map_area)]]> (list_to_map spaces))).
Proof.
  split.
  - pose proof (mm_brk_correct (space1 [] []) (list_to_map spaces) 1 areas1 (mm0 1 areas1) 0x30002000 0x3000) as H.
    eval_in H (map_range 0x30002000 0x3000). specialize (H (space1_ok _ _) eq_refl eq_refl). eval_in H (USER_ACCESS 0x30002000 0x30005000).
    destruct H as (r & _ & Hu & H). unfold unmap_spec in Hu. eval_in Hu (find_in 0x30002000 areas1). destruct Hu as (s0 & -> & _ & Hk).
    rewrite decide_True in H by done. destruct H as (n & _ & [H _] & _). unfold areas_left in H. eval_in H (find_in 0x30002000 areas1).
    destruct (H [] 3 heap_area [(4, map_area)] eq_refl eq_refl eq_refl) as (s' & E & _ & Hv & _ & Hov).
    destruct (Hov (4, map_area)) as [Hv4 Ho]; [left|by vm_compute|]. exists s'. split; [exact E|]. split; [|split; [exact Hv4|exact Ho]].
    rewrite Hv. apply lookup_insert_eq.
  - pose proof (mm_brk_correct (space1 [] []) (list_to_map spaces) 1 areas1 (mm0 1 areas1) 0x30001000 0x1800) as H.
    eval_in H (map_range 0x30001000 0x1800). specialize (H (space1_ok _ _) eq_refl eq_refl). eval_in H (USER_ACCESS 0x30001000 0x30003000).
    destruct H as (r & _ & Hu & H). unfold unmap_spec in Hu. eval_in Hu (find_in 0x30001000 areas1).
    destruct Hu as (x & l1 & l2 & El & _ & Hu).
    assert (x = heap_area) as ->.
    { destruct (areas1_elem (3, x)) as [[= ->]|[=]]; [rewrite El; set_solver|done]. }
    eval_in Hu ((vm_start heap_area <? 0x30001000) && (0x30003000 <? vm_end heap_area)).
    eval_in Hu (release_all (pgdir (mm0 1 areas1)) 0x30001000 0x30003000 (rev (filter (λ p, overlaps p.2 0x30001000 0x30003000) areas1)) (shmems (space1 [] []))).
    destruct Hu as (s0 & -> & _ & Hk). rewrite decide_True in H by done. destruct H as (n & _ & [_ H] & _).
    replace (areas_left 1 n 0x30001000 0x30003000 areas1) with [(4, map_area)] in H by (vm_compute; reflexivity).
    specialize (H ltac:(intros p ->%list_elem_of_singleton He; vm_compute in He; discriminate)).
    assert (oom s0 = []) as Ho by (destruct (kp_oom _ _ Hk) as [k ->]; by destruct k). rewrite Ho in H.
    rewrite decide_False in H by done. rewrite decide_False in H by (apply (bool_decide_unpack _); by vm_compute).
    destruct H as (s' & v & a & b & E & Eab & _ & Hok & _). rewrite insert_insert_eq in Hok. exists s', v. split; [exact E|].
    destruct a as [|? a]; simpl in Eab; [subst b; exact Hok|]. injection Eab as <- Eab. exfalso.
    destruct a; [|discriminate]. simpl in Eab. subst b. destruct Hok as [L Hi].
    destruct (vi_mm _ _ _ Hi 1 _ (lookup_insert_eq _ _ _)) as [_ _ [Hs _] _]. simpl in Hs.
    apply StronglySorted_inv in Hs as [_ Hs]. apply Forall_cons in Hs as [Hs _]. unfold before in Hs. simpl in Hs. lia.
Defined.

(** The second of the two page table copies fails. *)
Lemma dup_mmap_correct_witness :
  ∃ s' lt, dup_mmap (Some 2) (Some 1) (space1 [] [0; 7]) = Ok (- E_NO_MEM, s') ∧
    Forall2 (copy_of 2) areas1 lt ∧ vmm_ok s' (<[2 := lt]> (list_to_map spaces)).
Proof.
  destruct (dup_mmap_correct (space1 [] [0; 7]) _ 2 1 areas1 (mm0 2 []) (mm0 1 areas1) (space1_ok _ _) eq_refl eq_refl ltac:(done) eq_refl eq_refl)
    as (r & s' & la & lb & lt & E & El & Ho & Hok & Hcp & _).
  { intros p [->| ->]%areas1_elem Hs; vm_compute in Hs; done. }
  assert (Hlen : (length la + length lb = 2)%nat) by (rewrite <-length_app, <-El; reflexivity).
  exists s', lt. destruct Ho as [Hla Hall|n Hl Hall Hne|k Hla Hall Hk].
  - subst la. simpl in Hlen. specialize (Hall 1%nat ltac:(lia)). vm_compute in Hall. discriminate.
  - destruct n as [|[|n]]; [by destruct Hne| |lia]. destruct la; simpl in *; [|lia]. subst lb. by split_and!.
  - by destruct k.
Defined.
