(* ===== verification/Vc4Cl.v ===== *)
(** * VideoCore IV command lists

    [mach-raspberrypi/vc4/vc4_packet.h], [vc4_cl.h] and [vc4_cl.c]: packet
    numbers and sizes, the write cursor [vc4_cl] with the [cl_*] emitters, and
    an abstract view of the byte stream: the packets of a render command list
    with their encoding and a decoder. *)

From S2P Require Import Prelude Mem.

(** ** Packets ([vc4_packet.h]) *)

Definition VC4_PACKET_HALT : Z := 0.
Definition VC4_PACKET_NOP : Z := 1.
Definition VC4_PACKET_FLUSH : Z := 4.
Definition VC4_PACKET_FLUSH_ALL : Z := 5.
Definition VC4_PACKET_START_TILE_BINNING : Z := 6.
Definition VC4_PACKET_INCREMENT_SEMAPHORE : Z := 7.
Definition VC4_PACKET_WAIT_ON_SEMAPHORE : Z := 8.
Definition VC4_PACKET_BRANCH_TO_SUB_LIST : Z := 17.
Definition VC4_PACKET_STORE_MS_TILE_BUFFER : Z := 24.
Definition VC4_PACKET_STORE_MS_TILE_BUFFER_AND_EOF : Z := 25.
Definition VC4_PACKET_STORE_TILE_BUFFER_GENERAL : Z := 28.
Definition VC4_PACKET_LOAD_TILE_BUFFER_GENERAL : Z := 29.
Definition VC4_PACKET_GL_INDEXED_PRIMITIVE : Z := 32.
Definition VC4_PACKET_GL_ARRAY_PRIMITIVE : Z := 33.
Definition VC4_PACKET_PRIMITIVE_LIST_FORMAT : Z := 56.
Definition VC4_PACKET_GL_SHADER_STATE : Z := 64.
Definition VC4_PACKET_NV_SHADER_STATE : Z := 65.
Definition VC4_PACKET_CONFIGURATION_BITS : Z := 96.
Definition VC4_PACKET_FLAT_SHADE_FLAGS : Z := 97.
Definition VC4_PACKET_POINT_SIZE : Z := 98.
Definition VC4_PACKET_LINE_WIDTH : Z := 99.
Definition VC4_PACKET_RHT_X_BOUNDARY : Z := 100.
Definition VC4_PACKET_DEPTH_OFFSET : Z := 101.
Definition VC4_PACKET_CLIP_WINDOW : Z := 102.
Definition VC4_PACKET_VIEWPORT_OFFSET : Z := 103.
Definition VC4_PACKET_CLIPPER_XY_SCALING : Z := 105.
Definition VC4_PACKET_CLIPPER_Z_SCALING : Z := 106.
Definition VC4_PACKET_TILE_BINNING_MODE_CONFIG : Z := 112.
Definition VC4_PACKET_TILE_RENDERING_MODE_CONFIG : Z := 113.
Definition VC4_PACKET_CLEAR_COLORS : Z := 114.
Definition VC4_PACKET_TILE_COORDINATES : Z := 115.
Definition VC4_PACKET_GEM_HANDLES : Z := 254.

Definition VC4_PACKET_WAIT_ON_SEMAPHORE_SIZE : Z := 1.
Definition VC4_PACKET_BRANCH_TO_SUB_LIST_SIZE : Z := 5.
Definition VC4_PACKET_STORE_MS_TILE_BUFFER_SIZE : Z := 1.
Definition VC4_PACKET_STORE_TILE_BUFFER_GENERAL_SIZE : Z := 7.
Definition VC4_PACKET_LOAD_TILE_BUFFER_GENERAL_SIZE : Z := 7.
Definition VC4_PACKET_TILE_RENDERING_MODE_CONFIG_SIZE : Z := 11.
Definition VC4_PACKET_CLEAR_COLORS_SIZE : Z := 14.
Definition VC4_PACKET_TILE_COORDINATES_SIZE : Z := 3.

(** [VC4_MASK], [VC4_GET_FIELD]; [BIT(n)] is [Z.shiftl 1 n]. *)
Definition VC4_MASK (high low : Z) : Z := Z.shiftl (Z.shiftl 1 (high - low + 1) - 1) low.
Definition VC4_GET_FIELD (word mask shift : Z) : Z := Z.shiftr (Z.land word mask) shift.

Definition VC4_LOADSTORE_TILE_BUFFER_EOF : Z := 8.
Definition VC4_STORE_TILE_BUFFER_DISABLE_VG_MASK_CLEAR : Z := 32768.
Definition VC4_STORE_TILE_BUFFER_DISABLE_ZS_CLEAR : Z := 16384.
Definition VC4_STORE_TILE_BUFFER_DISABLE_COLOR_CLEAR : Z := 8192.
Definition VC4_LOADSTORE_TILE_BUFFER_FORMAT_MASK : Z := VC4_MASK 9 8.
Definition VC4_LOADSTORE_TILE_BUFFER_FORMAT_SHIFT : Z := 8.
Definition VC4_LOADSTORE_TILE_BUFFER_TILING_MASK : Z := VC4_MASK 5 4.
Definition VC4_LOADSTORE_TILE_BUFFER_TILING_SHIFT : Z := 4.
Definition VC4_LOADSTORE_TILE_BUFFER_BUFFER_MASK : Z := VC4_MASK 2 0.
Definition VC4_LOADSTORE_TILE_BUFFER_BUFFER_SHIFT : Z := 0.
Definition VC4_LOADSTORE_TILE_BUFFER_NONE : Z := 0.
Definition VC4_LOADSTORE_TILE_BUFFER_COLOR : Z := 1.
Definition VC4_LOADSTORE_TILE_BUFFER_ZS : Z := 2.
Definition VC4_LOADSTORE_TILE_BUFFER_RGBA8888 : Z := 0.
Definition VC4_LOADSTORE_TILE_BUFFER_BGR565_DITHER : Z := 1.
Definition VC4_LOADSTORE_TILE_BUFFER_BGR565 : Z := 2.
Definition VC4_TILING_FORMAT_LT : Z := 2.
Definition VC4_RENDER_CONFIG_MEMORY_FORMAT_MASK : Z := VC4_MASK 7 6.
Definition VC4_RENDER_CONFIG_MEMORY_FORMAT_SHIFT : Z := 6.
Definition VC4_RENDER_CONFIG_FORMAT_MASK : Z := VC4_MASK 3 2.
Definition VC4_RENDER_CONFIG_FORMAT_SHIFT : Z := 2.
Definition VC4_RENDER_CONFIG_FORMAT_BGR565_DITHERED : Z := 0.
Definition VC4_RENDER_CONFIG_FORMAT_RGBA8888 : Z := 1.
Definition VC4_RENDER_CONFIG_FORMAT_BGR565 : Z := 2.

(** ** The write cursor ([vc4_cl.h], [vc4_cl.c]) *)

Record vc4_cl : Type := mk_cl {
  cl_base : Z;
  cl_next : Z;
  cl_reloc_next : Z;
  cl_size : Z;
}.
#[export] Instance eta_vc4_cl : Eta vc4_cl :=
  λ r, mk_cl (cl_base r) (cl_next r) (cl_reloc_next r) (cl_size r).

Definition vc4_init_cl (cl : vc4_cl) : vc4_cl :=
  cl <| cl_base := 0 |> <| cl_next := 0 |> <| cl_size := 0 |>.

Definition vc4_reset_cl (cl : vc4_cl) : vc4_cl := cl <| cl_next := cl_base cl |>.

Definition cl_offset (cl : vc4_cl) : Z := u32 (cl_next cl - cl_base cl).

Definition cl_advance (cl : vc4_cl) (n : Z) : vc4_cl := cl <| cl_next := cl_next cl + n |>.

(** The emitters act on the cursor and on memory. *)
Definition cl_st : Type := vc4_cl * gmap Z Z.

Definition cl_u8 (n : Z) (st : cl_st) : cl_st :=
  let '(cl, m) := st in (cl_advance cl 1, <[cl_next cl := u8 n]> m).

Definition cl_u16 (n : Z) (st : cl_st) : cl_st :=
  let '(cl, m) := st in (cl_advance cl 2, put_unaligned_16 (cl_next cl) (u16 n) m).

Definition cl_u32 (n : Z) (st : cl_st) : cl_st :=
  let '(cl, m) := st in (cl_advance cl 4, put_unaligned_32 (cl_next cl) (u32 n) m).

Definition cl_aligned_u32 (n : Z) (st : cl_st) : cl_st :=
  let '(cl, m) := st in (cl_advance cl 4, write_bytes (cl_next cl) (le_bytes 4 (u32 n)) m).

(** ** What an emitter writes *)

(** [emits f bs]: [f] appends exactly the bytes [bs] at the cursor and
    touches nothing else. *)
Definition emits (f : cl_st → cl_st) (bs : list Z) : Prop :=
  ∀ cl m, f (cl, m) =
    (cl <| cl_next := cl_next cl + Z.of_nat (length bs) |>,
     write_bytes (cl_next cl) bs m).

Lemma emits_id : emits (λ st, st) [].
Proof. intros [] m. unfold emits. simpl. by rewrite Z.add_0_r. Qed.

Lemma emits_comp f g bs1 bs2 :
  emits f bs1 → emits g bs2 → emits (λ st, g (f st)) (bs1 ++ bs2).
Proof.
  intros Hf Hg cl m. rewrite Hf, Hg. destruct cl. simpl.
  rewrite write_bytes_app, length_app, Nat2Z.inj_add, Z.add_assoc. done.
Qed.

Lemma emits_if (b : bool) f g bs1 bs2 :
  emits f bs1 → emits g bs2 →
  emits (λ st, if b then f st else g st) (if b then bs1 else bs2).
Proof. by destruct b. Qed.

Lemma emits_u8 n : emits (cl_u8 n) [u8 n].
Proof. intros cl m. done. Qed.
Lemma emits_u16 n : emits (cl_u16 n) (le_bytes 2 (u16 n)).
Proof. intros cl m. done. Qed.
Lemma emits_u32 n : emits (cl_u32 n) (le_bytes 4 (u32 n)).
Proof. intros cl m. done. Qed.

#[export] Hint Resolve emits_id emits_u8 emits_u16 emits_u32 : ucore.

(** ** Packets of a render command list *)

Inductive rcl_packet : Type :=
| PClearColors (c0 c1 z s : Z)
| PTileCoordinates (x y : Z)
| PStoreGeneral (bits addr : Z)
| PLoadGeneral (bits addr : Z)
| PRenderingConfig (addr width height bits : Z)
| PWaitSemaphore
| PBranchToSubList (addr : Z)
| PStoreMs
| PStoreMsAndEof.

Definition encode_packet (p : rcl_packet) : list Z :=
  match p with
  | PClearColors c0 c1 z s =>
      [VC4_PACKET_CLEAR_COLORS] ++ le_bytes 4 c0 ++ le_bytes 4 c1 ++ le_bytes 4 z ++ [s]
  | PTileCoordinates x y => [VC4_PACKET_TILE_COORDINATES; x; y]
  | PStoreGeneral bits addr =>
      [VC4_PACKET_STORE_TILE_BUFFER_GENERAL] ++ le_bytes 2 bits ++ le_bytes 4 addr
  | PLoadGeneral bits addr =>
      [VC4_PACKET_LOAD_TILE_BUFFER_GENERAL] ++ le_bytes 2 bits ++ le_bytes 4 addr
  | PRenderingConfig addr w h bits =>
      [VC4_PACKET_TILE_RENDERING_MODE_CONFIG] ++
      le_bytes 4 addr ++ le_bytes 2 w ++ le_bytes 2 h ++ le_bytes 2 bits
  | PWaitSemaphore => [VC4_PACKET_WAIT_ON_SEMAPHORE]
  | PBranchToSubList addr => [VC4_PACKET_BRANCH_TO_SUB_LIST] ++ le_bytes 4 addr
  | PStoreMs => [VC4_PACKET_STORE_MS_TILE_BUFFER]
  | PStoreMsAndEof => [VC4_PACKET_STORE_MS_TILE_BUFFER_AND_EOF]
  end.

Definition encode (ps : list rcl_packet) : list Z := flat_map encode_packet ps.

Lemma encode_app ps qs : encode (ps ++ qs) = encode ps ++ encode qs.
Proof. unfold encode. apply flat_map_app. Qed.

(** The reader the hardware specification prescribes: the first byte selects
    the packet, which fixes its length. *)
Definition u32_at (bs : list Z) (i : nat) : Z := le_combine (take 4 (drop i bs)).
Definition u16_at (bs : list Z) (i : nat) : Z := le_combine (take 2 (drop i bs)).
Definition u8_at (bs : list Z) (i : nat) : Z := default 0 (bs !! i).

Definition decode_packet (bs : list Z) : option (rcl_packet * nat) :=
  match bs with
  | [] => None
  | c :: _ =>
      if c =? VC4_PACKET_CLEAR_COLORS then
        Some (PClearColors (u32_at bs 1) (u32_at bs 5) (u32_at bs 9) (u8_at bs 13), 14%nat)
      else if c =? VC4_PACKET_TILE_COORDINATES then
        Some (PTileCoordinates (u8_at bs 1) (u8_at bs 2), 3%nat)
      else if c =? VC4_PACKET_STORE_TILE_BUFFER_GENERAL then
        Some (PStoreGeneral (u16_at bs 1) (u32_at bs 3), 7%nat)
      else if c =? VC4_PACKET_LOAD_TILE_BUFFER_GENERAL then
        Some (PLoadGeneral (u16_at bs 1) (u32_at bs 3), 7%nat)
      else if c =? VC4_PACKET_TILE_RENDERING_MODE_CONFIG then
        Some (PRenderingConfig (u32_at bs 1) (u16_at bs 5) (u16_at bs 7) (u16_at bs 9), 11%nat)
      else if c =? VC4_PACKET_WAIT_ON_SEMAPHORE then Some (PWaitSemaphore, 1%nat)
      else if c =? VC4_PACKET_BRANCH_TO_SUB_LIST then
        Some (PBranchToSubList (u32_at bs 1), 5%nat)
      else if c =? VC4_PACKET_STORE_MS_TILE_BUFFER then Some (PStoreMs, 1%nat)
      else if c =? VC4_PACKET_STORE_MS_TILE_BUFFER_AND_EOF then Some (PStoreMsAndEof, 1%nat)
      else None
  end.

Fixpoint decode (fuel : nat) (bs : list Z) : option (list rcl_packet) :=
  match bs, fuel with
  | [], _ => Some []
  | _, O => None
  | _, S fuel' =>
      '(p, n) ← decode_packet bs;
      if (n <=? length bs)%nat then
        ps ← decode fuel' (drop n bs); Some (p :: ps)
      else None
  end.

(** Field widths. *)
Definition packet_ok (p : rcl_packet) : Prop :=
  match p with
  | PClearColors c0 c1 z s =>
      0 ≤ c0 < 2 ^ 32 ∧ 0 ≤ c1 < 2 ^ 32 ∧ 0 ≤ z < 2 ^ 32 ∧ 0 ≤ s < 256
  | PTileCoordinates x y => 0 ≤ x < 256 ∧ 0 ≤ y < 256
  | PStoreGeneral bits addr | PLoadGeneral bits addr =>
      0 ≤ bits < 2 ^ 16 ∧ 0 ≤ addr < 2 ^ 32
  | PRenderingConfig addr w h bits =>
      0 ≤ addr < 2 ^ 32 ∧ 0 ≤ w < 2 ^ 16 ∧ 0 ≤ h < 2 ^ 16 ∧ 0 ≤ bits < 2 ^ 16
  | PBranchToSubList addr => 0 ≤ addr < 2 ^ 32
  | PWaitSemaphore | PStoreMs | PStoreMsAndEof => True
  end.

Lemma decode_encode_packet p rest :
  packet_ok p →
  decode_packet (encode_packet p ++ rest) = Some (p, length (encode_packet p)).
Proof.
  pose proof le_combine_u32 as H32. pose proof le_combine_u16 as H16.
  destruct p; simpl packet_ok; intros Hok; destruct_and?; cbn;
    unfold u32_at, u16_at, u8_at; cbn; change (take 0 rest) with (@nil Z); cbn [le_combine];
    repeat match goal with
    | |- context [?x mod 256 + 256 * (?x / 256 mod 256 + 256 * (?x / 256 / 256 mod 256 +
           256 * (?x / 256 / 256 / 256 mod 256 + 256 * 0)))] =>
        change (x mod 256 + 256 * (x / 256 mod 256 + 256 * (x / 256 / 256 mod 256 +
           256 * (x / 256 / 256 / 256 mod 256 + 256 * 0)))) with (le_combine (le_bytes 4 x));
        rewrite (H32 x) by lia
    | |- context [?x mod 256 + 256 * (?x / 256 mod 256 + 256 * 0)] =>
        change (x mod 256 + 256 * (x / 256 mod 256 + 256 * 0)) with (le_combine (le_bytes 2 x));
        rewrite (H16 x) by lia
    end; reflexivity.
Qed.

Lemma encode_packet_nonempty p : (0 < length (encode_packet p))%nat.
Proof. destruct p; simpl; lia. Qed.

Lemma decode_encode ps fuel :
  Forall packet_ok ps → (length ps ≤ fuel)%nat → decode fuel (encode ps) = Some ps.
Proof.
  intros Hok. revert fuel. induction Hok as [|p ps Hp _ IH]; intros fuel Hf.
  { by destruct fuel. }
  destruct fuel as [|fuel]; simpl in Hf; [lia|].
  change (encode (p :: ps)) with (encode_packet p ++ encode ps).
  pose proof (encode_packet_nonempty p) as Hne.
  pose proof (decode_encode_packet p (encode ps) Hp) as Hd.
  destruct (encode_packet p ++ encode ps) as [|c bs] eqn:E.
  { apply (f_equal length) in E. rewrite length_app in E. simpl in E. lia. }
  assert (length (encode_packet p) ≤ length (c :: bs))%nat as Hle.
  { rewrite <-E, length_app. lia. }
  apply Nat.leb_le in Hle.
  change (decode (S fuel) (c :: bs)) with
    ('(p, n) ← decode_packet (c :: bs);
     if (n <=? length (c :: bs))%nat then
       ps ← decode fuel (drop n (c :: bs)); Some (p :: ps)
     else None).
  rewrite Hd. cbn [mbind option_bind]. rewrite Hle. rewrite <-E, drop_app_length, IH by lia. done.
Qed.
