(* ===== verification/Vc4Bo.v ===== *)
(** * VideoCore IV buffer objects

    [mach-raspberrypi/mailbox_property.c] (the calls the driver makes),
    [vc4/vc4_bo.c] and the device set-up of [vc4/vc4_drv.c].

    A buffer object (BO) is a block of GPU memory obtained from the firmware
    through the mailbox.  The device keeps one slot per firmware handle.
    What the firmware does with a message is not code of the repository: it is
    the parameter [mbox_call] below, a function from the words of the message
    buffer to the words the firmware leaves there. *)

From S2P Require Import Prelude DList Mem.

(** ** Data ([vc4_drv.h], [vc4_drm.h]) *)

Inductive vc4_kernel_bo_type : Type :=
| VC4_BO_TYPE_FB
| VC4_BO_TYPE_V3D
| VC4_BO_TYPE_BIN
| VC4_BO_TYPE_RCL
| VC4_BO_TYPE_BCL.

#[export] Instance vc4_kernel_bo_type_eq_dec : EqDecision vc4_kernel_bo_type.
Proof. solve_decision. Defined.

(** [struct vc4_bo]; its [unref_head] lives in the store of list entries. *)
Record vc4_bo : Type := mk_bo {
  bo_size : Z;
  bo_handle : Z;
  bo_paddr : Z;
  bo_vaddr : Z;
  bo_type : vc4_kernel_bo_type;
}.

(** [memset(bo, 0, sizeof(struct vc4_bo))]: the zero enumerator is
    [VC4_BO_TYPE_FB]. *)
Definition zero_bo : vc4_bo := mk_bo 0 0 0 0 VC4_BO_TYPE_FB.

(** The [list_entry_t] members the driver links: the head in the exec
    structure and one entry per BO. *)
Inductive vlink : Type :=
| unref_list
| unref_head (bo : Z).

#[export] Instance vlink_eq_dec : EqDecision vlink.
Proof. solve_decision. Defined.
#[export] Instance vlink_countable : Countable vlink.
Proof.
  apply (inj_countable' (λ x, match x with unref_list => None | unref_head b => Some b end)
    (λ o, match o with None => unref_list | Some b => unref_head b end)).
  by intros [].
Defined.

(** [VC4_DEV_BO_NENTRY]: (2 * PGSIZE - 20) / 28 slots. *)
Definition VC4_DEV_BO_NENTRY : Z := (2 * PGSIZE - 20) / 28.

Definition MEM_FLAG_COHERENT : Z := 8.
Definition MEM_FLAG_ZERO : Z := 16.

Definition RPI_FIRMWARE_STATUS_REQUEST : Z := 0.
Definition RPI_FIRMWARE_STATUS_SUCCESS : Z := 2147483648.
Definition RPI_FIRMWARE_PROPERTY_END : Z := 0.
Definition RPI_FIRMWARE_ALLOCATE_MEMORY : Z := 196620.
Definition RPI_FIRMWARE_LOCK_MEMORY : Z := 196621.
Definition RPI_FIRMWARE_UNLOCK_MEMORY : Z := 196622.
Definition RPI_FIRMWARE_RELEASE_MEMORY : Z := 196623.
Definition MAX_MESSAGE_BUFFER_SIZE : Z := 4096.

(** The message exchange: [mbox_write] of the buffer's address followed by
    [mbox_read], as seen in the buffer. *)
Class Firmware (FW : Type) := mbox_call : list Z → FW → list Z * FW.

(** ** Driver state *)

Section vc4_bo.
Context {FW : Type} `{Firmware FW}.

(** [struct vc4_dev], the GPU memory the BOs live in ([vaddr = paddr]), the
    I/O windows that are mapped, the list entries, the firmware, the memory
    of the calling process, the allocator calls made so far, and the trace
    of V3D register writes. *)
Record vc4_state : Type := mk_vc4 {
  fb_bo : option Z;
  bin_bo : option Z;
  bin_alloc_size : Z;
  handle_bo_map : list vc4_bo;
  gmem : gmap Z Z;
  iomap : gmap Z Z;
  links : gmap vlink (list_entry vlink);
  fw : FW;
  umem : gmap Z Z;
  kcount : nat;
  v3d_log : list (Z * Z);
}.
#[global] Instance eta_vc4_state : Eta vc4_state := λ r,
  mk_vc4 (fb_bo r) (bin_bo r) (bin_alloc_size r) (handle_bo_map r) (gmem r)
    (iomap r) (links r) (fw r) (umem r) (kcount r) (v3d_log r).

(** Run an operation of [list.h] on the list entries of the driver. *)
Definition on_links {A} (m : M (gmap vlink (list_entry vlink)) A) : M vc4_state A := λ s,
  match m (links s) with
  | Ok (a, l) => Ok (a, s <| links := l |>)
  | Err e => Err e
  end.

(** ** Mailbox property calls ([mailbox_property.c]) *)

(** [data] is an array of words, [tag_size] its size in bytes. *)
Definition mbox_property_list (data : list Z) (s : vc4_state) : (Z * list Z) * vc4_state :=
  let tag_size := 4 * Z.of_nat (length data) in
  let size := tag_size + 12 in
  if MAX_MESSAGE_BUFFER_SIZE <=? size then ((- E_INVAL, data), s)
  else
    let buf := [size; RPI_FIRMWARE_STATUS_REQUEST] ++ data ++ [RPI_FIRMWARE_PROPERTY_END] in
    let '(buf', f') := mbox_call buf (fw s) in
    let s' := s <| fw := f' |> in
    if negb (default 0 (buf' !! 1%nat) =? RPI_FIRMWARE_STATUS_SUCCESS) then
      ((- E_INVAL, data), s')
    else ((0, take (length data) (drop 2 buf')), s').

Definition mbox_property (tag : Z) (tag_data : list Z) (s : vc4_state) : (Z * list Z) * vc4_state :=
  let header := [tag; 4 * Z.of_nat (length tag_data); 0] in
  let '((ret, data'), s') := mbox_property_list (header ++ tag_data) s in
  ((ret, drop 3 data'), s').

Definition mbox_mem_alloc (size align flags : Z) (s : vc4_state) : Z * vc4_state :=
  let '((ret, data), s') := mbox_property RPI_FIRMWARE_ALLOCATE_MEMORY [size; align; flags] s in
  if negb (ret =? 0) then (0, s') else (default 0 (data !! 0%nat), s').

Definition mbox_mem_free (handle : Z) (s : vc4_state) : Z * vc4_state :=
  let '((ret, data), s') := mbox_property RPI_FIRMWARE_RELEASE_MEMORY [handle] s in
  if negb (default 0 (data !! 0%nat) =? 0) then (- E_INVAL, s') else (ret, s').

Definition mbox_mem_lock (handle : Z) (s : vc4_state) : Z * vc4_state :=
  let '((ret, data), s') := mbox_property RPI_FIRMWARE_LOCK_MEMORY [handle] s in
  if negb (ret =? 0) then (0, s') else (default 0 (data !! 0%nat), s').

Definition mbox_mem_unlock (handle : Z) (s : vc4_state) : Z * vc4_state :=
  let '((ret, data), s') := mbox_property RPI_FIRMWARE_UNLOCK_MEMORY [handle] s in
  if negb (default 0 (data !! 0%nat) =? 0) then (- E_INVAL, s') else (ret, s').

Definition lift {A} (f : vc4_state → A * vc4_state) : M vc4_state A := λ s, Ok (f s).

(** ** Buffer objects ([vc4_bo.c]) *)

Definition get_bo (h : Z) : M vc4_state vc4_bo :=
  deref (λ s, handle_bo_map s !! Z.to_nat h).
Definition set_bo (h : Z) (bo : vc4_bo) : M vc4_state unit :=
  modify (λ s, s <| handle_bo_map := <[Z.to_nat h := bo]> (handle_bo_map s) |>).

(** The result is the slot of the BO, [None] for [NULL]. *)
Definition vc4_bo_create (size : Z) (type : vc4_kernel_bo_type) : M vc4_state (option Z) :=
  if bool_decide (type = VC4_BO_TYPE_FB) then gets fb_bo
  else if size =? 0 then mret None
  else
    let size := ROUNDUP size PGSIZE in
    handle ← lift (mbox_mem_alloc size PGSIZE (Z.lor MEM_FLAG_COHERENT MEM_FLAG_ZERO));
    if handle =? 0 then mret None
    else if VC4_DEV_BO_NENTRY <=? handle then
      _ ← lift (mbox_mem_free handle); mret None
    else
      bus_addr ← lift (mbox_mem_lock handle);
      if bus_addr =? 0 then
        _ ← lift (mbox_mem_free handle); mret None
      else
        _ ← modify (λ s, s <| iomap := <[bus_addr := size]> (iomap s) |>);
        _ ← get_bo handle;
        _ ← set_bo handle (mk_bo size handle bus_addr bus_addr type);
        _ ← on_links (list_init (unref_head handle));
        mret (Some handle).

Definition vc4_bo_destroy (h : Z) : M vc4_state unit :=
  bo ← get_bo h;
  if bool_decide (bo_type bo = VC4_BO_TYPE_FB) then mret tt
  else
    _ ← modify (λ s, s <| iomap := delete (bo_vaddr bo) (iomap s) |>);
    _ ← lift (mbox_mem_unlock (bo_handle bo));
    _ ← lift (mbox_mem_free (bo_handle bo));
    _ ← set_bo h zero_bo;
    modify (λ s, s <| links := delete (unref_head h) (links s) |>).

Definition vc4_lookup_bo (handle : Z) : M vc4_state (option Z) :=
  if VC4_DEV_BO_NENTRY <=? handle then mret None
  else
    bo ← get_bo handle;
    if negb (bo_handle bo =? handle) || (bo_size bo =? 0) then mret None
    else mret (Some handle).

(** [struct drm_vc4_create_bo] *)
Record drm_vc4_create_bo : Type := mk_create_bo {
  cb_size : Z; cb_handle : Z; cb_flags : Z }.
Definition VC4_CREATE_BO_IS_FRAMEBUFFER : Z := 1.

Definition vc4_create_bo_ioctl (args : drm_vc4_create_bo) : M vc4_state (Z * drm_vc4_create_bo) :=
  r ← (if negb (Z.land (cb_flags args) VC4_CREATE_BO_IS_FRAMEBUFFER =? 0)
       then vc4_bo_create (cb_size args) VC4_BO_TYPE_FB
       else vc4_bo_create (cb_size args) VC4_BO_TYPE_V3D);
  match r with
  | None => mret (- E_NOMEM, args)
  | Some h =>
      bo ← get_bo h;
      mret (0, mk_create_bo (bo_size bo) (bo_handle bo) (cb_flags args))
  end.

Definition vc4_free_bo_ioctl (handle : Z) : M vc4_state Z :=
  r ← vc4_lookup_bo handle;
  match r with
  | None => mret (- E_INVAL)
  | Some h => _ ← vc4_bo_destroy h; mret 0
  end.

(** ** Device set-up ([vc4_drv.c]) *)

(** The slots are the [VC4_DEV_BO_NENTRY] entries behind the device. *)
Definition bo_map_init : M vc4_state unit :=
  modify (λ s, s <| handle_bo_map := replicate (Z.to_nat VC4_DEV_BO_NENTRY) zero_bo |>).

Definition vc4_allocate_bin_bo : M vc4_state Z :=
  let size := 512 * 1024 in
  r ← vc4_bo_create size VC4_BO_TYPE_BIN;
  match r with
  | None => mret (- E_NOMEM)
  | Some h => _ ← modify (λ s, s <| bin_bo := Some h |> <| bin_alloc_size := size |>); mret 0
  end.

(** [fb] is [get_fb_info()]: screen size, handle, bus address, mapping. *)
Definition vc4_bind_fb_bo (fb : option (Z * Z * Z * Z)) : M vc4_state Z :=
  match fb with
  | None => mret (- E_NODEV)
  | Some (screen_size, handle, fb_bus_address, screen_base) =>
      _ ← get_bo handle;
      _ ← set_bo handle (mk_bo screen_size handle fb_bus_address screen_base VC4_BO_TYPE_FB);
      _ ← on_links (list_init (unref_head handle));
      _ ← modify (λ s, s <| fb_bo := Some handle |>);
      mret 0
  end.

End vc4_bo.
Arguments vc4_state FW : clear implicits.
