(* ===== verification/Vc4BoSpec.v ===== *)
(** * What the buffer-object table guarantees

    The interface to the firmware's allocator ([FirmwareLaws]), and the
    theorems about creating, looking up and destroying BOs: a created BO is
    found under its handle with a page-rounded size, a destroyed one is not
    found any more, and no path loses a handle of the firmware. *)

From S2P Require Import Prelude DList Mem Vc4Bo.

(** ** The firmware's allocator

    The message of a property call and the word of the answer the driver
    reads; an answer whose status is not [SUCCESS] counts as 0. *)

Definition request (tag : Z) (data : list Z) : list Z :=
  [4 * Z.of_nat (length data) + 24; RPI_FIRMWARE_STATUS_REQUEST; tag;
   4 * Z.of_nat (length data); 0] ++ data ++ [RPI_FIRMWARE_PROPERTY_END].

Definition answer (buf : list Z) : Z :=
  if default 0 (buf !! 1%nat) =? RPI_FIRMWARE_STATUS_SUCCESS then default 0 (buf !! 5%nat) else 0.

(** What the mailbox documentation says of the memory tags: [fw_blocks] are the
    sizes of the handles that are allocated, [fw_locked] the bus address and
    the size of those whose memory is locked.  Locked memory lies in the 32-bit
    address space and no two locked blocks overlap; a handle is unlocked before
    it is released. *)
Class FirmwareLaws (FW : Type) `{Firmware FW} := {
  fw_blocks : FW → gmap Z Z;
  fw_locked : FW → gmap Z (Z * Z);
  fw_words buf f : Forall (λ w, 0 ≤ w < 2 ^ 32) (mbox_call buf f).1;
  fw_alloc size align flags f :
    let r := mbox_call (request RPI_FIRMWARE_ALLOCATE_MEMORY [size; align; flags]) f in
    fw_locked r.2 = fw_locked f ∧
    ((answer r.1 = 0 ∧ fw_blocks r.2 = fw_blocks f) ∨
     (answer r.1 ≠ 0 ∧ fw_blocks f !! answer r.1 = None ∧ fw_locked f !! answer r.1 = None ∧
      fw_blocks r.2 = <[answer r.1 := size]> (fw_blocks f)));
  fw_lock h size f :
    fw_blocks f !! h = Some size →
    let r := mbox_call (request RPI_FIRMWARE_LOCK_MEMORY [h]) f in
    fw_blocks r.2 = fw_blocks f ∧
    ((answer r.1 = 0 ∧ fw_locked r.2 = fw_locked f) ∨
     (answer r.1 ≠ 0 ∧ answer r.1 + size ≤ 2 ^ 32 ∧
      fw_locked r.2 = <[h := (answer r.1, size)]> (fw_locked f) ∧
      ∀ h' b n, h' ≠ h → fw_locked f !! h' = Some (b, n) →
        answer r.1 + size ≤ b ∨ b + n ≤ answer r.1));
  fw_unlock h f :
    let f' := (mbox_call (request RPI_FIRMWARE_UNLOCK_MEMORY [h]) f).2 in
    fw_blocks f' = fw_blocks f ∧ fw_locked f' = delete h (fw_locked f);
  fw_free h f :
    fw_locked f !! h = None →
    let f' := (mbox_call (request RPI_FIRMWARE_RELEASE_MEMORY [h]) f).2 in
    fw_blocks f' = delete h (fw_blocks f) ∧ fw_locked f' = fw_locked f;
}.

Definition fw_live {FW} `{FirmwareLaws FW} (f : FW) : gset Z := dom (fw_blocks f).

Section bo_spec.
Context {FW : Type} `{FirmwareLaws FW}.
Implicit Types d : vc4_state FW.

Definition live d : gset Z := fw_live (fw d).
Definition locked d : gmap Z (Z * Z) := fw_locked (fw d).

(** The memory from [bus] on overlaps no locked block of [d]. *)
Definition apart d (bus size : Z) : Prop :=
  ∀ h b n, locked d !! h = Some (b, n) → bus + size ≤ b ∨ b + n ≤ bus.

(** ** The property calls *)

Lemma mbox_property_ok tag data d :
  (length data < 1000)%nat →
  let r := mbox_call (request tag data) (fw d) in
  mbox_property tag data d =
    ((if default 0 (r.1 !! 1%nat) =? RPI_FIRMWARE_STATUS_SUCCESS
      then (0, take (length data) (drop 5 r.1)) else (- E_INVAL, data)),
     d <| fw := r.2 |>).
Proof.
  intros Hlen. unfold mbox_property, mbox_property_list. simpl length.
  replace (4 * Z.of_nat (S (S (S (length data)))) + 12) with (4 * Z.of_nat (length data) + 24) by lia.
  rewrite (proj2 (Z.leb_gt _ _)) by (unfold MAX_MESSAGE_BUFFER_SIZE; lia).
  change ([_; _] ++ ([tag; _; 0] ++ data) ++ [RPI_FIRMWARE_PROPERTY_END]) with (request tag data).
  destruct (mbox_call (request tag data) (fw d)) as [buf' f'] eqn:E. cbn [fst snd].
  destruct (_ =? RPI_FIRMWARE_STATUS_SUCCESS); cbn [negb]; [|done].
  rewrite skipn_firstn_comm, drop_drop. do 2 f_equal. f_equal. lia.
Qed.

Lemma mbox_mem_alloc_ok size align flags d :
  let r := mbox_call (request RPI_FIRMWARE_ALLOCATE_MEMORY [size; align; flags]) (fw d) in
  mbox_mem_alloc size align flags d = (answer r.1, d <| fw := r.2 |>).
Proof.
  unfold mbox_mem_alloc, answer. rewrite mbox_property_ok by (simpl; lia). cbn [fst snd].
  destruct (_ =? RPI_FIRMWARE_STATUS_SUCCESS); simpl; [|done].
  f_equal. rewrite lookup_take_lt by lia. by rewrite lookup_drop.
Qed.

Lemma mbox_mem_lock_ok h d :
  let r := mbox_call (request RPI_FIRMWARE_LOCK_MEMORY [h]) (fw d) in
  mbox_mem_lock h d = (answer r.1, d <| fw := r.2 |>).
Proof.
  unfold mbox_mem_lock, answer. rewrite mbox_property_ok by (simpl; lia). cbn [fst snd].
  destruct (_ =? RPI_FIRMWARE_STATUS_SUCCESS); simpl; [|done].
  f_equal. rewrite lookup_take_lt by lia. by rewrite lookup_drop.
Qed.

Lemma mbox_mem_unlock_ok h d :
  ∃ r, mbox_mem_unlock h d =
    (r, d <| fw := (mbox_call (request RPI_FIRMWARE_UNLOCK_MEMORY [h]) (fw d)).2 |>).
Proof.
  unfold mbox_mem_unlock. rewrite mbox_property_ok by (simpl; lia). cbn [fst snd].
  destruct (_ =? RPI_FIRMWARE_STATUS_SUCCESS); cbn beta iota;
    match goal with |- context [if ?b then _ else _] => destruct b end; eauto.
Qed.

Lemma mbox_mem_free_ok h d :
  ∃ r, mbox_mem_free h d =
    (r, d <| fw := (mbox_call (request RPI_FIRMWARE_RELEASE_MEMORY [h]) (fw d)).2 |>).
Proof.
  unfold mbox_mem_free. rewrite mbox_property_ok by (simpl; lia). cbn [fst snd].
  destruct (_ =? RPI_FIRMWARE_STATUS_SUCCESS); cbn beta iota;
    match goal with |- context [if ?b then _ else _] => destruct b end; eauto.
Qed.

Lemma answer_range tag data f : 0 ≤ answer (mbox_call (request tag data) f).1 < 2 ^ 32.
Proof.
  unfold answer. destruct (_ =? _); [|lia].
  destruct (_ !! 5%nat) as [w|] eqn:E; simpl; [|lia].
  pose proof (fw_words (request tag data) f) as Hf. rewrite Forall_lookup in Hf. eauto.
Qed.

Lemma wp_lift {A} (f : vc4_state FW → A * vc4_state FW) d (Q : A → vc4_state FW → Prop) :
  Q (f d).1 (f d).2 → wp (lift f) d Q.
Proof. intros HQ. exists (f d).1, (f d).2. split; [|done]. unfold lift. by destruct (f d). Qed.

(** ** Creating a BO *)

(** The state of the device after a BO was created at slot [h]. *)
Definition with_bo (h bus size : Z) (type : vc4_kernel_bo_type) (f : FW) d : vc4_state FW :=
  d <| fw := f |>
    <| iomap := <[bus := size]> (iomap d) |>
    <| handle_bo_map := <[Z.to_nat h := mk_bo size h bus bus type]> (handle_bo_map d) |>
    <| links := <[unref_head h := mk_entry (unref_head h) (unref_head h)]> (links d) |>.

Definition map_ok d : Prop := length (handle_bo_map d) = Z.to_nat VC4_DEV_BO_NENTRY.

Lemma vc4_bo_create_spec size type d :
  type ≠ VC4_BO_TYPE_FB → map_ok d →
  wp (vc4_bo_create size type) d (λ r d',
    match r with
    | None => ∃ f', d' = d <| fw := f' |> ∧ fw_live f' = live d ∧ fw_locked f' = locked d
    | Some h => ∃ bus f', 0 < h < VC4_DEV_BO_NENTRY ∧ 0 < bus < 2 ^ 32 ∧ h ∉ live d ∧
        fw_live f' = {[h]} ∪ live d ∧ size ≠ 0 ∧
        d' = with_bo h bus (ROUNDUP size PGSIZE) type f' d ∧
        locked d !! h = None ∧ fw_locked f' = <[h := (bus, ROUNDUP size PGSIZE)]> (locked d) ∧
        bus + ROUNDUP size PGSIZE ≤ 2 ^ 32 ∧ apart d bus (ROUNDUP size PGSIZE)
    end).
Proof.
  intros Ht Hmap. unfold vc4_bo_create. rewrite bool_decide_false by done.
  destruct (Z.eqb_spec size 0) as [->|Hs].
  { apply wp_ret. exists (fw d). split_and!; [by destruct d|done..]. }
  apply wp_bind, wp_lift. rewrite mbox_mem_alloc_ok. cbn [fst snd].
  pose proof (fw_alloc (ROUNDUP size PGSIZE) PGSIZE (Z.lor MEM_FLAG_COHERENT MEM_FLAG_ZERO) (fw d))
    as Hal.
  pose proof (answer_range RPI_FIRMWARE_ALLOCATE_MEMORY
    [ROUNDUP size PGSIZE; PGSIZE; Z.lor MEM_FLAG_COHERENT MEM_FLAG_ZERO] (fw d)) as Hr.
  cbv zeta in Hal. destruct (mbox_call _ (fw d)) as [buf f1]. cbn [fst snd] in *.
  set (h := answer buf) in *. clearbody h. destruct Hal as [Hlk1 Hal].
  destruct (Z.eqb_spec h 0) as [->|Hh].
  { apply wp_ret. exists f1. unfold fw_live, live. by destruct Hal as [[_ ->]|[? _]]. }
  destruct Hal as [[? _]|(_ & Hfresh & Hunl & Hlive)]; [done|].
  set (size' := ROUNDUP size PGSIZE) in *.
  assert (h ∉ live d) as Hnew by (by apply not_elem_of_dom).
  assert (∀ d1, fw_blocks (fw d1) = <[h := size']> (fw_blocks (fw d)) → locked d1 = locked d →
    wp (_ ← lift (mbox_mem_free h); mret None) d1 (λ (r : option Z) d', r = None ∧
      ∃ f', d' = d1 <| fw := f' |> ∧ fw_live f' = live d ∧ fw_locked f' = locked d)) as Hfree.
  { intros d1 H1 H2. apply wp_bind, wp_lift. destruct (mbox_mem_free_ok h d1) as [r ->]. cbn [fst snd].
    unfold locked in H2. destruct (fw_free h (fw d1)) as [F1 F2]; [by rewrite H2|].
    apply wp_ret. split; [done|]. eexists. split; [done|].
    rewrite F2, H2. split; [|done]. unfold fw_live. by rewrite F1, H1, delete_insert_id. }
  wp_step.
  { eapply wp_mono; [by apply Hfree|]. by intros ? ? [-> ?]. }
  apply Z.leb_gt in Hc. apply wp_bind, wp_lift. rewrite mbox_mem_lock_ok. cbn [fst snd].
  destruct (fw_lock h size' f1) as [Hlock1 Hlock2]; [by rewrite Hlive, lookup_insert_eq|].
  pose proof (answer_range RPI_FIRMWARE_LOCK_MEMORY [h] f1) as Hb. simpl fw.
  destruct (mbox_call _ f1) as [buf2 f2]. cbn [fst snd] in *.
  set (bus := answer buf2) in *. clearbody bus. destruct (Z.eqb_spec bus 0) as [->|Hbus].
  { destruct Hlock2 as [[_ Hlock2]|[? _]]; [|done].
    eapply wp_mono; [apply Hfree; unfold locked; simpl; congruence|]. by intros ? ? [-> ?]. }
  destruct Hlock2 as [[? _]|(_ & Htop & Hlock2 & Hapart)]; [done|].
  apply wp_bind, wp_modify.
  destruct (lookup_lt_is_Some_2 (handle_bo_map d) (Z.to_nat h)) as [bo Hbo]; [rewrite Hmap; lia|].
  apply wp_bind. eapply wp_deref; [done|]. apply wp_bind, wp_modify. apply wp_bind.
  eapply wp_ok; [done|]. apply wp_ret. exists bus, f2. split_and!; try done; try lia.
  - unfold fw_live, live. by rewrite Hlock1, Hlive, dom_insert_L.
  - unfold locked. by rewrite Hlock2, Hlk1.
  - intros h' b n Hh'. apply (Hapart h'); [|by rewrite Hlk1].
    intros ->. unfold locked in Hh'. congruence.
Qed.

(** ** Destroying a BO *)

Definition without_bo (h : Z) (bo : vc4_bo) (f : FW) d : vc4_state FW :=
  d <| iomap := delete (bo_vaddr bo) (iomap d) |>
    <| fw := f |>
    <| handle_bo_map := <[Z.to_nat h := zero_bo]> (handle_bo_map d) |>
    <| links := delete (unref_head h) (links d) |>.

Lemma vc4_bo_destroy_spec h bo d :
  handle_bo_map d !! Z.to_nat h = Some bo → bo_type bo ≠ VC4_BO_TYPE_FB →
  ∃ f', vc4_bo_destroy h d = Ok (tt, without_bo h bo f' d) ∧
        fw_live f' = live d ∖ {[bo_handle bo]} ∧ fw_locked f' = delete (bo_handle bo) (locked d).
Proof.
  intros Hbo Ht. unfold vc4_bo_destroy.
  rewrite (bind_ok _ _ d bo d) by (unfold get_bo, deref; by rewrite Hbo).
  rewrite bool_decide_false by done. rewrite (bind_ok _ _ _ _ _ eq_refl).
  set (d1 := d <| iomap := _ |>).
  destruct (mbox_mem_unlock_ok (bo_handle bo) d1) as [r1 E1].
  rewrite (bind_ok _ _ _ _ _ (f_equal Ok E1)). set (d2 := d1 <| fw := _ |>).
  destruct (mbox_mem_free_ok (bo_handle bo) d2) as [r2 E2].
  rewrite (bind_ok _ _ _ _ _ (f_equal Ok E2)).
  rewrite (bind_ok _ _ _ _ _ eq_refl). eexists. split; [reflexivity|].
  destruct (fw_unlock (bo_handle bo) (fw d)) as [U1 U2].
  destruct (fw_free (bo_handle bo) (fw d2)) as [F1 F2]; [simpl; by rewrite U2, lookup_delete_eq|].
  unfold fw_live. rewrite F1, F2. simpl. by rewrite U1, U2, dom_delete_L.
Qed.

(** ** Looking a BO up *)

Definition bo_found d (h : Z) : bool :=
  (h <? VC4_DEV_BO_NENTRY) &&
  match handle_bo_map d !! Z.to_nat h with
  | Some bo => (bo_handle bo =? h) && negb (bo_size bo =? 0)
  | None => false
  end.

Lemma vc4_lookup_bo_spec h d :
  map_ok d → 0 ≤ h →
  vc4_lookup_bo h d = Ok (if bo_found d h then Some h else None, d).
Proof.
  intros Hmap Hh. unfold vc4_lookup_bo, bo_found.
  destruct (Z.leb_spec VC4_DEV_BO_NENTRY h) as [Hle|Hlt].
  { by rewrite (proj2 (Z.ltb_ge _ _)) by lia. }
  rewrite (proj2 (Z.ltb_lt _ _)) by lia.
  destruct (lookup_lt_is_Some_2 (handle_bo_map d) (Z.to_nat h)) as [bo Hbo]; [rewrite Hmap; lia|].
  rewrite (bind_ok _ _ d bo d) by (unfold get_bo, deref; by rewrite Hbo).
  rewrite Hbo. simpl. by destruct (bo_handle bo =? h), (bo_size bo =? 0).
Qed.

Lemma with_bo_found h bus size type f d :
  map_ok d → 0 < h < VC4_DEV_BO_NENTRY → size ≠ 0 →
  bo_found (with_bo h bus size type f d) h = true.
Proof.
  intros Hmap Hh Hs. unfold bo_found. rewrite (proj2 (Z.ltb_lt _ _)) by lia. simpl.
  rewrite list_lookup_insert_eq by (rewrite Hmap; lia). simpl.
  by rewrite Z.eqb_refl, (proj2 (Z.eqb_neq _ _)).
Qed.

Lemma without_bo_not_found h bo f d :
  map_ok d → 0 < h → bo_found (without_bo h bo f d) h = false.
Proof.
  intros Hmap Hh. unfold bo_found. destruct (Z.ltb_spec h VC4_DEV_BO_NENTRY); [|done].
  simpl handle_bo_map. rewrite list_lookup_insert_eq by (rewrite Hmap; lia).
  destruct (Z.eqb_spec (bo_handle zero_bo) h) as [E|_]; [simpl in E; lia|done].
Qed.


(** The device's own binning BO is not protected from
    [vc4_free_bo_ioctl]: any caller that names its handle releases it, and the
    device goes on using the slot, now with address 0, as the binner's memory. *)
Theorem vc4_free_bo_ioctl_frees_bin_bo (h : Z) (bo : vc4_bo) (d : vc4_state FW) :
  map_ok d → 0 < h < VC4_DEV_BO_NENTRY → bin_bo d = Some h →
  handle_bo_map d !! Z.to_nat h = Some bo → bo_type bo = VC4_BO_TYPE_BIN →
  bo_handle bo = h → bo_size bo ≠ 0 →
  wp (vc4_free_bo_ioctl h) d (λ ret d',
    ret = 0 ∧ bin_bo d' = Some h ∧ h ∉ live d' ∧
    bo_paddr <$> handle_bo_map d' !! Z.to_nat h = Some 0).
Proof.
  intros Hmap Hh Hbin Hbo Hty Hhd Hsz. unfold vc4_free_bo_ioctl. apply wp_bind.
  eapply wp_ok; [rewrite vc4_lookup_bo_spec by (done || lia); reflexivity|].
  assert (bo_found d h = true) as ->.
  { unfold bo_found. rewrite Hbo, (proj2 (Z.ltb_lt _ _)), (proj2 (Z.eqb_eq _ _) Hhd) by lia.
    by rewrite (proj2 (Z.eqb_neq _ _) Hsz). }
  destruct (vc4_bo_destroy_spec h bo d Hbo) as (f' & E & Hl & _); [by rewrite Hty|].
  apply wp_bind. eapply wp_ok; [done|]. apply wp_ret. split_and!; [done|done|..].
  - unfold live at 1. simpl. rewrite Hl, Hhd. set_solver.
  - simpl. by rewrite list_lookup_insert_eq by (rewrite Hmap; lia).
Qed.

End bo_spec.
