(* ===== verification/Vc4Validate.v ===== *)
(** * Validation of a submitted binner command list

    [vc4/vc4_validate.c]: user space submits a binner command list and shader
    records that name buffer objects by index.  The kernel copies them packet
    by packet into GPU memory, checks each packet and replaces every index by
    the physical address of its BO.

    The untrusted data is the kernel's copy [temp] (a list of bytes, addressed
    by offset); the validated packets go to GPU memory [v_mem].  Reading
    outside [temp] is a [Fault]. *)

From S2P Require Import Prelude DList Mem Vc4Cl Vc4Bo.

(** ** Data ([vc4_drm.h], [vc4_drv.h]) *)

Record drm_vc4_submit_rcl_surface : Type := mk_surface {
  surf_hindex : Z; surf_offset : Z; surf_bits : Z; surf_flags : Z }.

Record drm_vc4_submit_cl : Type := mk_submit {
  a_bin_cl : Z; a_shader_rec : Z; a_uniforms : Z; a_bo_handles : Z;
  a_bin_cl_size : Z; a_shader_rec_size : Z; a_shader_rec_count : Z;
  a_uniforms_size : Z; a_bo_handle_count : Z;
  a_width : Z; a_height : Z;
  a_min_x_tile : Z; a_min_y_tile : Z; a_max_x_tile : Z; a_max_y_tile : Z;
  a_color_read : drm_vc4_submit_rcl_surface;
  a_color_write : drm_vc4_submit_rcl_surface;
  a_zs_read : drm_vc4_submit_rcl_surface;
  a_zs_write : drm_vc4_submit_rcl_surface;
  a_clear_color0 : Z; a_clear_color1 : Z; a_clear_z : Z; a_clear_s : Z;
  a_flags : Z }.

Definition VC4_SUBMIT_CL_USE_CLEAR_COLOR : Z := 1.

(** [struct vc4_shader_state] *)
Record vc4_shader_state : Type := mk_shader_state { ss_addr : Z; ss_max_index : Z }.

(** [struct vc4_exec_info].  [x_bo] holds the slots of the BOs; pointers into
    the kernel copy are offsets into [temp]. *)
Record vc4_exec_info : Type := mk_exec {
  x_args : drm_vc4_submit_cl;
  x_bo : list Z;
  x_fb_bo : option Z;
  x_bo_count : Z;
  x_bo_index0 : Z; x_bo_index1 : Z;
  x_exec_bo : option Z;
  x_shader_state : list vc4_shader_state;
  x_shader_state_size : Z;
  x_shader_state_count : Z;
  x_bin_tiles_x : Z; x_bin_tiles_y : Z;
  x_tile_alloc_offset : Z;
  x_ct0ca : Z; x_ct0ea : Z; x_ct1ca : Z; x_ct1ea : Z;
  x_shader_rec_u : Z;
  x_shader_rec_v : Z;
  x_shader_rec_p : Z;
  x_shader_rec_size : Z;
}.
#[export] Instance eta_vc4_exec_info : Eta vc4_exec_info := λ r,
  mk_exec (x_args r) (x_bo r) (x_fb_bo r) (x_bo_count r) (x_bo_index0 r) (x_bo_index1 r)
    (x_exec_bo r) (x_shader_state r) (x_shader_state_size r) (x_shader_state_count r)
    (x_bin_tiles_x r) (x_bin_tiles_y r) (x_tile_alloc_offset r)
    (x_ct0ca r) (x_ct0ea r) (x_ct1ca r) (x_ct1ea r)
    (x_shader_rec_u r) (x_shader_rec_v r) (x_shader_rec_p r) (x_shader_rec_size r).

(** What validation changes: the exec structure and GPU memory. *)
Record vstate : Type := mk_vstate { v_exec : vc4_exec_info; v_mem : gmap Z Z }.
#[export] Instance eta_vstate : Eta vstate := λ r, mk_vstate (v_exec r) (v_mem r).

Definition on_exec (f : vc4_exec_info → vc4_exec_info) : M vstate unit :=
  modify (λ s, s <| v_exec := f (v_exec s) |>).
Definition on_mem (f : gmap Z Z → gmap Z Z) : M vstate unit :=
  modify (λ s, s <| v_mem := f (v_mem s) |>).
Definition ret_code (z : Z) : M vstate Z := mret z.

Definition VC4_BIN_CONFIG_ALLOC_BLOCK_SIZE_MASK : Z := VC4_MASK 6 5.
Definition VC4_BIN_CONFIG_ALLOC_INIT_BLOCK_SIZE_MASK : Z := VC4_MASK 4 3.
Definition VC4_BIN_CONFIG_AUTO_INIT_TSDA : Z := 4.
Definition VC4_BIN_CONFIG_ALLOC_INIT_BLOCK_SIZE_32 : Z := 0.
Definition VC4_BIN_CONFIG_ALLOC_BLOCK_SIZE_128 : Z := 2.

Section validate.
Context {FW : Type}.
Variable dev : vc4_state FW.
Variable temp : list Z.

(** Loads from the kernel copy. *)
Definition temp_bytes (off : Z) (n : nat) : M vstate (list Z) := λ s,
  if (0 <=? off) && (off + Z.of_nat n <=? Z.of_nat (length temp)) then
    Ok (take n (drop (Z.to_nat off) temp), s)
  else Err Fault.
Definition temp_u8 (off : Z) : M vstate Z :=
  bs ← temp_bytes off 1; mret (le_combine bs).
Definition temp_u32 (off : Z) : M vstate Z :=
  bs ← temp_bytes off 4; mret (le_combine bs).

Definition bo_at (h : Z) : M vstate vc4_bo :=
  deref (λ _, handle_bo_map dev !! Z.to_nat h).

Definition vc4_use_bo (hindex : Z) : M vstate (option Z) :=
  s ← get;
  let exec := v_exec s in
  if x_bo_count exec <=? hindex then mret None
  else h ← deref (λ _, x_bo exec !! Z.to_nat hindex); mret (Some h).

Definition vc4_use_handle (i : nat) : M vstate (option Z) :=
  s ← get;
  vc4_use_bo (if decide (i = 0%nat) then x_bo_index0 (v_exec s) else x_bo_index1 (v_exec s)).

(** [exec->shader_state[i]] *)
Definition get_shader_state (i : Z) : M vstate vc4_shader_state :=
  deref (λ s, x_shader_state (v_exec s) !! Z.to_nat i).
Definition set_shader_state (i : Z) (st : vc4_shader_state) : M vstate unit :=
  on_exec (λ e, e <| x_shader_state := <[Z.to_nat i := st]> (x_shader_state e) |>).

Definition validate_indexed_prim_list (validated untrusted : Z) : M vstate Z :=
  length ← temp_u32 (untrusted + 1);
  offset ← temp_u32 (untrusted + 5);
  max_index ← temp_u32 (untrusted + 9);
  mode ← temp_u8 untrusted;
  let index_size := if negb (Z.shiftr mode 4 =? 0) then 2 else 1 in
  s ← get;
  let count := x_shader_state_count (v_exec s) in
  if count =? 0 then ret_code (- E_INVAL)
  else
    st ← get_shader_state (count - 1);
    _ ← (if ss_max_index st <? max_index
         then set_shader_state (count - 1) (mk_shader_state (ss_addr st) max_index)
         else mret tt);
    ib ← vc4_use_handle 0;
    match ib with
    | None => ret_code (- E_INVAL)
    | Some h =>
        bo ← bo_at h;
        if (bo_size bo <? offset) || ((bo_size bo - offset) / index_size <? length)
        then ret_code (- E_INVAL)
        else
          _ ← on_mem (put_unaligned_32 (validated + 5) (u32 (bo_paddr bo + offset)));
          ret_code 0
    end.

Definition validate_gl_array_primitive (validated untrusted : Z) : M vstate Z :=
  length ← temp_u32 (untrusted + 1);
  base_index ← temp_u32 (untrusted + 5);
  s ← get;
  let count := x_shader_state_count (v_exec s) in
  if count =? 0 then ret_code (- E_INVAL)
  else
    st ← get_shader_state (count - 1);
    if u32 (length + base_index) <? length then ret_code (- E_INVAL)
    else
      let max_index := u32 (length + base_index - 1) in
      _ ← (if ss_max_index st <? max_index
           then set_shader_state (count - 1) (mk_shader_state (ss_addr st) max_index)
           else mret tt);
      ret_code 0.

Definition validate_nv_shader_state (validated untrusted : Z) : M vstate Z :=
  s ← get;
  let i := x_shader_state_count (v_exec s) in
  _ ← on_exec (λ e, e <| x_shader_state_count := u32 (i + 1) |>);
  if x_shader_state_size (v_exec s) <=? i then ret_code (- E_INVAL)
  else
    addr ← temp_u32 untrusted;
    _ ← get_shader_state i;
    _ ← set_shader_state i (mk_shader_state addr 0);
    _ ← on_mem (put_unaligned_32 validated (u32 (x_shader_rec_p (v_exec s) + addr)));
    _ ← on_exec (λ e, e <| x_shader_rec_p := u32 (x_shader_rec_p (v_exec s) + 16) |>);
    ret_code 0.

Definition validate_tile_binning_config (validated untrusted : Z) : M vstate Z :=
  tx ← temp_u8 (untrusted + 12);
  ty ← temp_u8 (untrusted + 13);
  _ ← on_exec (λ e, e <| x_bin_tiles_x := tx |> <| x_bin_tiles_y := ty |>);
  let tile_count := tx * ty in
  flags ← temp_u8 (untrusted + 14);
  bin ← deref (λ _, bin_bo dev);
  bo ← bo_at bin;
  let bin_addr := bo_paddr bo in
  let tile_state_size := u32 (48 * tile_count) in
  let config :=
    Z.lor (Z.lor (Z.lor
      (Z.land flags (Z.lnot (Z.lor VC4_BIN_CONFIG_ALLOC_INIT_BLOCK_SIZE_MASK
                                   VC4_BIN_CONFIG_ALLOC_BLOCK_SIZE_MASK)))
      VC4_BIN_CONFIG_AUTO_INIT_TSDA)
      (Z.shiftl VC4_BIN_CONFIG_ALLOC_INIT_BLOCK_SIZE_32 3))
      (Z.shiftl VC4_BIN_CONFIG_ALLOC_BLOCK_SIZE_128 5) in
  _ ← on_mem (λ m, <[validated + 14 := u8 config]> m);
  let tao := u32 (bin_addr + ROUNDUP tile_state_size 4096) in
  _ ← on_exec (λ e, e <| x_tile_alloc_offset := tao |>);
  _ ← on_mem (put_unaligned_32 (validated + 0) tao);
  _ ← on_mem (put_unaligned_32 (validated + 4) (u32 (bin_addr + bin_alloc_size dev - tao)));
  _ ← on_mem (put_unaligned_32 (validated + 8) bin_addr);
  ret_code 0.

Definition validate_gem_handles (validated untrusted : Z) : M vstate Z :=
  i0 ← temp_u32 untrusted;
  i1 ← temp_u32 (untrusted + 4);
  _ ← on_exec (λ e, e <| x_bo_index0 := i0 |> <| x_bo_index1 := i1 |>);
  ret_code 0.

(** [cmd_info]: length of the packet and its validator, [None] for an entry
    without a name. *)
Definition cmd_info (cmd : Z) : option (Z * option (Z → Z → M vstate Z)) :=
  if cmd =? VC4_PACKET_HALT then Some (1, None)
  else if cmd =? VC4_PACKET_NOP then Some (1, None)
  else if cmd =? VC4_PACKET_FLUSH then Some (1, None)
  else if cmd =? VC4_PACKET_FLUSH_ALL then Some (1, None)
  else if cmd =? VC4_PACKET_START_TILE_BINNING then Some (1, None)
  else if cmd =? VC4_PACKET_INCREMENT_SEMAPHORE then Some (1, None)
  else if cmd =? VC4_PACKET_GL_INDEXED_PRIMITIVE then Some (14, Some validate_indexed_prim_list)
  else if cmd =? VC4_PACKET_GL_ARRAY_PRIMITIVE then Some (10, Some validate_gl_array_primitive)
  else if cmd =? VC4_PACKET_PRIMITIVE_LIST_FORMAT then Some (2, None)
  else if cmd =? VC4_PACKET_GL_SHADER_STATE then Some (5, None)
  else if cmd =? VC4_PACKET_NV_SHADER_STATE then Some (5, Some validate_nv_shader_state)
  else if cmd =? VC4_PACKET_CONFIGURATION_BITS then Some (4, None)
  else if cmd =? VC4_PACKET_FLAT_SHADE_FLAGS then Some (5, None)
  else if cmd =? VC4_PACKET_POINT_SIZE then Some (5, None)
  else if cmd =? VC4_PACKET_LINE_WIDTH then Some (5, None)
  else if cmd =? VC4_PACKET_RHT_X_BOUNDARY then Some (3, None)
  else if cmd =? VC4_PACKET_DEPTH_OFFSET then Some (5, None)
  else if cmd =? VC4_PACKET_CLIP_WINDOW then Some (9, None)
  else if cmd =? VC4_PACKET_VIEWPORT_OFFSET then Some (5, None)
  else if cmd =? VC4_PACKET_CLIPPER_XY_SCALING then Some (9, None)
  else if cmd =? VC4_PACKET_CLIPPER_Z_SCALING then Some (9, None)
  else if cmd =? VC4_PACKET_TILE_BINNING_MODE_CONFIG then Some (16, Some validate_tile_binning_config)
  else if cmd =? VC4_PACKET_GEM_HANDLES then Some (9, Some validate_gem_handles)
  else None.

Definition CMD_INFO_SIZE : Z := 255.

(** One round of the loop of [vc4_validate_bin_cl]; the loop state is
    [(dst_offset, src_offset)], the result of the loop the value returned
    early or [dst_offset]. *)
Definition validate_packet (validated unvalidated len : Z) (offs : Z * Z) :
    M vstate ((Z * Z) + (Z + Z)) :=
  let '(dst_offset, src_offset) := offs in
  if negb (src_offset <? len) then mret (inr (inr dst_offset))
  else
    let dst_pkt := validated + dst_offset in
    let src_pkt := unvalidated + src_offset in
    cmd ← temp_u8 src_pkt;
    if CMD_INFO_SIZE <=? cmd then mret (inr (inl (- E_INVAL)))
    else
      match cmd_info cmd with
      | None => mret (inr (inl (- E_INVAL)))
      | Some (ilen, func) =>
          if len <? u32 (src_offset + ilen) then mret (inr (inl (- E_INVAL)))
          else
            _ ← (if negb (cmd =? VC4_PACKET_GEM_HANDLES) then
                   bs ← temp_bytes src_pkt (Z.to_nat ilen);
                   on_mem (write_bytes dst_pkt bs)
                 else mret tt);
            ret ← (match func with
                   | Some f => f (dst_pkt + 1) (src_pkt + 1)
                   | None => ret_code 0
                   end);
            if negb (ret =? 0) then mret (inr (inl (- E_INVAL)))
            else
              let src_offset := u32 (src_offset + ilen) in
              let dst_offset := if negb (cmd =? VC4_PACKET_GEM_HANDLES)
                                then u32 (dst_offset + ilen) else dst_offset in
              if cmd =? VC4_PACKET_HALT then mret (inr (inr dst_offset))
              else mret (inl (dst_offset, src_offset))
      end.

Definition vc4_validate_bin_cl (validated unvalidated : Z) : M vstate Z :=
  s ← get;
  let len := a_bin_cl_size (x_args (v_exec s)) in
  r ← loop (S (Z.to_nat len)) (validate_packet validated unvalidated len) (0, 0);
  match r with
  | inl ret => ret_code ret
  | inr dst_offset =>
      _ ← on_exec (λ e, e <| x_ct0ea := u32 (x_ct0ca e + dst_offset) |>);
      ret_code 0
  end.

(** The handle loop of [validate_nv_shader_rec]: [nr_relocs] BOs are looked
    up.  The C array [bo] has [shader_reloc_count] = 1 element; the model
    gives storage to all [nr_relocs] of them (see the findings). *)
Fixpoint use_relocs (src_handles : Z) (n : nat) : M vstate (option (list Z)) :=
  match n with
  | O => mret (Some [])
  | S n' =>
      hidx ← temp_u32 src_handles;
      r ← vc4_use_bo hidx;
      match r with
      | None => mret None
      | Some h =>
          rest ← use_relocs (src_handles + 4) n';
          mret (match rest with Some hs => Some (h :: hs) | None => None end)
      end
  end.

Definition validate_nv_shader_rec (i : Z) : M vstate Z :=
  s ← get;
  let exec := v_exec s in
  let shader_reloc_count := 1 in
  let packet_size := 16 in
  let nr_relocs := shader_reloc_count + 2 in
  if x_shader_rec_size exec <? nr_relocs * 4 then ret_code (- E_INVAL)
  else
    let src_handles := x_shader_rec_u exec in
    _ ← on_exec (λ e, e <| x_shader_rec_u := x_shader_rec_u e + nr_relocs * 4 |>
                        <| x_shader_rec_size := x_shader_rec_size e - nr_relocs * 4 |>);
    s1 ← get;
    if x_shader_rec_size (v_exec s1) <? packet_size then ret_code (- E_INVAL)
    else
      let pkt_u := x_shader_rec_u (v_exec s1) in
      let pkt_v := x_shader_rec_v (v_exec s1) in
      bs ← temp_bytes pkt_u (Z.to_nat packet_size);
      _ ← on_mem (write_bytes pkt_v bs);
      _ ← on_exec (λ e, e <| x_shader_rec_u := x_shader_rec_u e + packet_size |>
                          <| x_shader_rec_v := x_shader_rec_v e + packet_size |>
                          <| x_shader_rec_size := x_shader_rec_size e - packet_size |>);
      r ← use_relocs src_handles (Z.to_nat nr_relocs);
      match r with
      | Some [h0; h1; h2] =>
          stride ← temp_u8 (pkt_u + 1);
          fs_offset ← temp_u32 (pkt_u + 4);
          uniform_offset ← temp_u32 (pkt_u + 8);
          data_offset ← temp_u32 (pkt_u + 12);
          bo0 ← bo_at h0;
          _ ← on_mem (put_unaligned_32 (pkt_v + 4) (u32 (bo_paddr bo0 + fs_offset)));
          bo1 ← bo_at h1;
          _ ← on_mem (put_unaligned_32 (pkt_v + 8) (u32 (bo_paddr bo1 + uniform_offset)));
          bo2 ← bo_at h2;
          st ← get_shader_state i;
          if negb (stride =? 0) && (u32 (bo_size bo2 - data_offset) / stride <? ss_max_index st)
          then ret_code (- E_INVAL)
          else
            _ ← on_mem (put_unaligned_32 (pkt_v + 12) (u32 (bo_paddr bo2 + data_offset)));
            ret_code 0
      | _ => ret_code (- E_INVAL)
      end.

Definition vc4_validate_shader_recs : M vstate Z :=
  s ← get;
  let count := x_shader_state_count (v_exec s) in
  loop (S (Z.to_nat count))
    (λ i, if negb (i <? count) then mret (inr 0)
          else
            ret ← validate_nv_shader_rec i;
            if negb (ret =? 0) then mret (inr ret) else mret (inl (i + 1))) 0.

End validate.
