(* ===== verification/Vc4Reloc.v ===== *)
(** * What validation should produce

    The reference the validators of [vc4/vc4_validate.c] are compared with: a
    pure translation of the bytes user space submits into the bytes the GPU
    reads.  A binner list is cut into packets by a table of lengths; each
    packet is copied, with the addresses in it replaced by those of buffer
    objects, or refuses the list.  [cl_safe] says what a translated list
    guarantees whatever was submitted. *)

From S2P Require Import Prelude Mem Vc4Cl Vc4Bo Vc4Validate.

(** ** Replacing a part of a list *)

Definition splice {A} (o : nat) (ys xs : list A) : list A :=
  take o xs ++ ys ++ drop (o + length ys) xs.

Lemma length_splice {A} o (ys xs : list A) :
  (o + length ys ≤ length xs)%nat → length (splice o ys xs) = length xs.
Proof. intros. unfold splice. rewrite !length_app, length_take, length_drop. lia. Qed.

Lemma splice_at {A} o (ys xs : list A) :
  (o + length ys ≤ length xs)%nat → take (length ys) (drop o (splice o ys xs)) = ys.
Proof.
  intros. unfold splice. rewrite drop_app_length' by (rewrite length_take; lia).
  apply take_app_length.
Qed.

Lemma splice_before {A} o n k (ys xs : list A) :
  (k + n ≤ o)%nat → (o ≤ length xs)%nat → take n (drop k (splice o ys xs)) = take n (drop k xs).
Proof.
  intros. unfold splice. rewrite drop_app_le by (rewrite length_take; lia).
  rewrite take_app_le by (rewrite length_drop, length_take; lia).
  rewrite skipn_firstn_comm, take_take. f_equal. lia.
Qed.

Lemma splice_behind {A} o n k (ys xs : list A) :
  (o + length ys ≤ k)%nat → (o ≤ length xs)%nat → take n (drop k (splice o ys xs)) = take n (drop k xs).
Proof.
  intros. unfold splice. rewrite drop_app_ge by (rewrite length_take; lia).
  rewrite drop_app_ge by (rewrite length_take; lia).
  rewrite drop_drop, length_take. do 2 f_equal. lia.
Qed.

Lemma u8_at_take (xs : list Z) o : u8_at xs o = le_combine (take 1 (drop o xs)).
Proof.
  unfold u8_at. destruct (xs !! o) as [b|] eqn:E; simpl.
  - rewrite (drop_S _ _ _ E). simpl. lia.
  - apply lookup_ge_None in E. by rewrite drop_ge.
Qed.

(** Writing into a string that was just written. *)
Lemma write_splice a o ys xs m :
  (o + length ys ≤ length xs)%nat →
  write_bytes (a + Z.of_nat o) ys (write_bytes a xs m) = write_bytes a (splice o ys xs) m.
Proof.
  intros Hlen. apply map_eq. intros x.
  destruct (decide (a ≤ x < a + Z.of_nat (length xs))) as [Hin|Hout]; cycle 1.
  { rewrite !write_bytes_outside; rewrite ?length_splice by done; lia || done. }
  set (i := Z.to_nat (x - a)). replace x with (a + Z.of_nat i) by lia.
  destruct (lookup_lt_is_Some_2 (splice o ys xs) i) as [b Hb]; [rewrite length_splice by done; lia|].
  rewrite (write_bytes_inside _ _ _ _ _ Hb). unfold splice in Hb.
  destruct (decide (i < o)%nat) as [Hlt|Hge].
  { rewrite lookup_app_l, lookup_take_lt in Hb by (rewrite ?length_take; lia).
    rewrite write_bytes_outside by lia. by apply write_bytes_inside. }
  rewrite lookup_app_r in Hb by (rewrite length_take; lia). rewrite length_take_le in Hb by lia.
  destruct (decide (i - o < length ys)%nat) as [Hlt2|Hge2].
  - rewrite lookup_app_l in Hb by lia.
    rewrite <-(write_bytes_inside (a + Z.of_nat o) ys (write_bytes a xs m) _ _ Hb). f_equal. lia.
  - rewrite lookup_app_r, lookup_drop in Hb by lia. rewrite write_bytes_outside by lia.
    apply write_bytes_inside. rewrite <-Hb. f_equal. lia.
Qed.

Lemma put_splice a o v xs m :
  (o + 4 ≤ length xs)%nat →
  put_unaligned_32 (a + Z.of_nat o) v (write_bytes a xs m) = write_bytes a (splice o (le_bytes 4 v) xs) m.
Proof. intros. apply write_splice. by rewrite le_bytes_length. Qed.

Lemma insert_splice a o b xs m :
  (o < length xs)%nat →
  <[a + Z.of_nat o := b]> (write_bytes a xs m) = write_bytes a (splice o [b] xs) m.
Proof. intros. apply (write_splice a o [b]). simpl. lia. Qed.

(** A word that was spliced in. *)
Lemma u32_at_splice o v xs :
  (o + 4 ≤ length xs)%nat → u32_at (splice o (le_bytes 4 v) xs) o = u32 v.
Proof.
  intros. unfold u32_at. pose proof (splice_at o (le_bytes 4 v) xs) as Hs.
  rewrite le_bytes_length in Hs. rewrite Hs by lia. apply le_combine_bytes.
Qed.

(** ** The packets of a binner list *)

(** The packets user space may submit, with their lengths; the names are in
    [vc4_packet.h]. *)
Definition bin_packets : list (Z * nat) :=
  [(0, 1%nat); (1, 1%nat); (4, 1%nat); (5, 1%nat); (6, 1%nat); (7, 1%nat);
   (VC4_PACKET_GL_INDEXED_PRIMITIVE, 14%nat); (VC4_PACKET_GL_ARRAY_PRIMITIVE, 10%nat);
   (56, 2%nat); (VC4_PACKET_GL_SHADER_STATE, 5%nat); (VC4_PACKET_NV_SHADER_STATE, 5%nat);
   (96, 4%nat); (97, 5%nat); (98, 5%nat); (99, 5%nat); (100, 3%nat); (101, 5%nat);
   (102, 9%nat); (103, 5%nat); (105, 9%nat); (106, 9%nat);
   (VC4_PACKET_TILE_BINNING_MODE_CONFIG, 16%nat); (VC4_PACKET_GEM_HANDLES, 9%nat)].

Fixpoint packet_length (l : list (Z * nat)) (cmd : Z) : option nat :=
  match l with
  | [] => None
  | (c, n) :: l' => if cmd =? c then Some n else packet_length l' cmd
  end.

(** What a list has set up when its packets are gone through: the handle
    indices of the last handles packet, the shader states declared, with the
    largest vertex index used from each, and the tile area. *)
Record cl_state : Type := mk_cl_state {
  cl_index0 : Z;
  cl_index1 : Z;
  cl_states : list vc4_shader_state;
  cl_tiles : Z * Z;
  cl_alloc : Z;
}.
#[export] Instance eta_cl_state : Eta cl_state := λ r,
  mk_cl_state (cl_index0 r) (cl_index1 r) (cl_states r) (cl_tiles r) (cl_alloc r).

(** A primitive uses vertices up to [mx] of the last shader state. *)
Definition use_vertices (mx : Z) (p : cl_state) : cl_state :=
  p <| cl_states := alter (λ st, mk_shader_state (ss_addr st) (Z.max (ss_max_index st) mx))
         (pred (length (cl_states p))) (cl_states p) |>.

Definition index_size (mode : Z) : Z := if Z.shiftr mode 4 =? 0 then 1 else 2.

(** The job a list belongs to: its buffer objects by index, the binning BO and
    its size, the number of shader states it declared, and the bus address of
    its shader records. *)
Record cl_job : Type := mk_cl_job {
  job_bo : Z → option vc4_bo;
  job_bin : vc4_bo;
  job_bin_size : Z;
  job_states : Z;
  job_rec_p : Z;
}.

Section reference.
Variable J : cl_job.

(** An indexed primitive reads its indices from the first handle's BO, where
    they must lie. *)
Definition relocate_indexed (p : cl_state) (pkt : list Z) : option (cl_state * list Z) :=
  match last (cl_states p), job_bo J (cl_index0 p) with
  | Some _, Some bo =>
      if u32_at pkt 6 + index_size (u8_at pkt 1) * u32_at pkt 2 <=? bo_size bo then
        Some (use_vertices (u32_at pkt 10) p,
              splice 6 (le_bytes 4 (u32 (bo_paddr bo + u32_at pkt 6))) pkt)
      else None
  | _, _ => None
  end.

(** The vertices of an array primitive are numbered within 32 bits. *)
Definition relocate_array (p : cl_state) (pkt : list Z) : option (cl_state * list Z) :=
  match last (cl_states p) with
  | Some _ =>
      if u32_at pkt 2 + u32_at pkt 6 <? 2 ^ 32 then
        Some (use_vertices (u32 (u32_at pkt 2 + u32_at pkt 6 - 1)) p, pkt)
      else None
  | None => None
  end.

(** The [k]-th shader state names the [k]-th record of the job, plus the word
    user space gave. *)
Definition relocate_state (p : cl_state) (pkt : list Z) : option (cl_state * list Z) :=
  let k := Z.of_nat (length (cl_states p)) in
  if k <? job_states J then
    Some (p <| cl_states := cl_states p ++ [mk_shader_state (u32_at pkt 1) 0] |>,
          splice 1 (le_bytes 4 (u32 (job_rec_p J + 16 * k + u32_at pkt 1))) pkt)
  else None.

(** Tile state data at the start of the binning BO, 48 bytes a tile, then from
    the next page on the tile allocation memory up to the end of the BO;
    initial and further blocks of 32 and 128 bytes. *)
Definition relocate_binning (p : cl_state) (pkt : list Z) : cl_state * list Z :=
  let tx := u8_at pkt 13 in
  let ty := u8_at pkt 14 in
  let start := bo_paddr (job_bin J) in
  let alloc := u32 (start + (48 * (tx * ty) + 4095) / 4096 * 4096) in
  (p <| cl_tiles := (tx, ty) |> <| cl_alloc := alloc |>,
   splice 9 (le_bytes 4 start)
     (splice 5 (le_bytes 4 (u32 (start + job_bin_size J - alloc)))
       (splice 1 (le_bytes 4 alloc)
         (splice 15 [Z.lor (Z.land (u8_at pkt 15) 135) 68] pkt)))).

Definition relocate (p : cl_state) (pkt : list Z) : option (cl_state * list Z) :=
  let cmd := u8_at pkt 0 in
  if cmd =? VC4_PACKET_GL_INDEXED_PRIMITIVE then relocate_indexed p pkt
  else if cmd =? VC4_PACKET_GL_ARRAY_PRIMITIVE then relocate_array p pkt
  else if cmd =? VC4_PACKET_NV_SHADER_STATE then relocate_state p pkt
  else if cmd =? VC4_PACKET_TILE_BINNING_MODE_CONFIG then Some (relocate_binning p pkt)
  else if cmd =? VC4_PACKET_GEM_HANDLES then
    Some (p <| cl_index0 := u32_at pkt 1 |> <| cl_index1 := u32_at pkt 5 |>, [])
  else Some (p, pkt).

(** The whole list, up to its end or to a halt packet. *)
Fixpoint translate (fuel : nat) (p : cl_state) (src : list Z) : option (cl_state * list Z) :=
  match fuel, src with
  | O, _ => None
  | S _, [] => Some (p, [])
  | S fuel', cmd :: _ =>
      match packet_length bin_packets cmd with
      | None => None
      | Some n =>
          if (length src <? n)%nat then None
          else
            match relocate p (take n src) with
            | None => None
            | Some (p', out) =>
                if cmd =? VC4_PACKET_HALT then Some (p', out)
                else
                  match translate fuel' p' (drop n src) with
                  | None => None
                  | Some (p'', outs) => Some (p'', out ++ outs)
                  end
            end
      end
  end.

Definition translate_cl (p : cl_state) (src : list Z) : option (cl_state * list Z) :=
  translate (S (length src)) p src.

(** ** Shader records *)

(** A record of the input is three handle indices and 16 bytes; the bytes are
    copied with their three addresses replaced.  The vertices that are used
    must fit between the data offset and the end of the third BO (at the width
    of that subtraction). *)
Definition relocate_rec (st : vc4_shader_state) (src : list Z) : option (list Z) :=
  match job_bo J (u32_at src 0), job_bo J (u32_at src 4), job_bo J (u32_at src 8) with
  | Some bo0, Some bo1, Some bo2 =>
      let r := drop 12 src in
      let stride := u8_at r 1 in
      if (stride =? 0) || (ss_max_index st * stride <=? u32 (bo_size bo2 - u32_at r 12)) then
        Some (splice 12 (le_bytes 4 (u32 (bo_paddr bo2 + u32_at r 12)))
               (splice 8 (le_bytes 4 (u32 (bo_paddr bo1 + u32_at r 8)))
                 (splice 4 (le_bytes 4 (u32 (bo_paddr bo0 + u32_at r 4))) r)))
      else None
  | _, _, _ => None
  end.

(** One record for each shader state of the binner list. *)
Fixpoint translate_recs (sts : list vc4_shader_state) (src : list Z) : option (list Z) :=
  match sts with
  | [] => Some []
  | st :: sts' =>
      if (length src <? 28)%nat then None
      else
        match relocate_rec st (take 28 src) with
        | None => None
        | Some r =>
            match translate_recs sts' (drop 28 src) with
            | None => None
            | Some rs => Some (r ++ rs)
            end
        end
  end.

End reference.

(** ** What a translated list guarantees *)

(** The [n] bytes from [addr] lie in the BO, up to the wrap of the 32-bit bus
    address. *)
Definition inside_bo (bo : vc4_bo) (addr n : Z) : Prop :=
  ∃ offset, 0 ≤ offset ∧ offset + n ≤ bo_size bo ∧ addr = u32 (bo_paddr bo + offset).

(** A packet for the hardware: it has the length of its number, an indexed
    primitive reads its indices inside a BO of the job, and a binning
    configuration divides the binning BO between tile states and tile
    allocation. *)
Record packet_safe (J : cl_job) (pkt : list Z) : Prop := {
  safe_length : packet_length bin_packets (u8_at pkt 0) = Some (length pkt);
  safe_hardware : u8_at pkt 0 ≠ VC4_PACKET_GEM_HANDLES;
  safe_indexed : u8_at pkt 0 = VC4_PACKET_GL_INDEXED_PRIMITIVE →
    ∃ i bo, job_bo J i = Some bo ∧
      inside_bo bo (u32_at pkt 6) (index_size (u8_at pkt 1) * u32_at pkt 2);
  safe_binning : u8_at pkt 0 = VC4_PACKET_TILE_BINNING_MODE_CONFIG →
    u32_at pkt 9 = u32 (bo_paddr (job_bin J)) ∧
    u32_at pkt 1 = u32 (bo_paddr (job_bin J) +
      (48 * (u8_at pkt 13 * u8_at pkt 14) + 4095) / 4096 * 4096) ∧
    u32 (u32_at pkt 1 + u32_at pkt 5) = u32 (bo_paddr (job_bin J) + job_bin_size J);
}.

Lemma u32_at_range xs o : Forall (λ b, 0 ≤ b < 256) xs → 0 ≤ u32_at xs o < 2 ^ 32.
Proof.
  intros Hb. unfold u32_at.
  assert (Forall (λ b, 0 ≤ b < 256) (take 4 (drop o xs))) as H by (by apply Forall_take, Forall_drop).
  apply le_combine_range in H. split; [lia|]. eapply Z.lt_le_trans; [apply H|].
  change (2 ^ 32) with (256 ^ 4). apply Z.pow_le_mono_r; [lia|]. rewrite length_take. lia.
Qed.

Lemma u8_at_range xs o : Forall (λ b, 0 ≤ b < 256) xs → 0 ≤ u8_at xs o < 256.
Proof.
  intros Hb. unfold u8_at. destruct (xs !! o) as [b|] eqn:E; simpl; [|lia].
  rewrite Forall_lookup in Hb. eauto.
Qed.

(** Reading a packet whose middle was replaced. *)
Lemma u8_at_splice o ys xs k :
  (o + length ys ≤ length xs)%nat → (k < o ∨ o + length ys ≤ k)%nat →
  u8_at (splice o ys xs) k = u8_at xs k.
Proof.
  intros ? [?|?]; rewrite !u8_at_take; f_equal; [apply splice_before|apply splice_behind]; lia.
Qed.
Lemma u32_at_outside o ys xs k :
  (o + length ys ≤ length xs)%nat → (k + 4 ≤ o ∨ o + length ys ≤ k)%nat →
  u32_at (splice o ys xs) k = u32_at xs k.
Proof.
  intros ? [?|?]; unfold u32_at; f_equal; [apply splice_before|apply splice_behind]; lia.
Qed.

(** The side conditions of the lemmas on [splice]. *)
#[local] Arguments le_bytes : simpl never.
Ltac splice_len := rewrite ?length_splice by splice_len; rewrite ?le_bytes_length; simpl; lia.

Lemma relocate_safe J p pkt p' out :
  Forall (λ b, 0 ≤ b < 256) pkt → packet_length bin_packets (u8_at pkt 0) = Some (length pkt) →
  relocate J p pkt = Some (p', out) →
  (u8_at pkt 0 = VC4_PACKET_GEM_HANDLES ∧ out = []) ∨ packet_safe J out.
Proof.
  intros Hb Hlen. unfold relocate.
  destruct (Z.eqb_spec (u8_at pkt 0) VC4_PACKET_GL_INDEXED_PRIMITIVE) as [E|N1].
  { rewrite E in Hlen. injection Hlen as Hlen. unfold relocate_indexed.
    destruct (last _); [|done]. destruct (job_bo J _) as [bo|] eqn:Hbo; [|done].
    destruct (Z.leb_spec (u32_at pkt 6 + index_size (u8_at pkt 1) * u32_at pkt 2) (bo_size bo));
      [|done]. intros [= <- <-]. right.
    assert (∀ k, (k < 6)%nat → u8_at (splice 6 (le_bytes 4 (u32 (bo_paddr bo + u32_at pkt 6))) pkt) k
      = u8_at pkt k) as Hk by (intros k Hk; apply u8_at_splice; [splice_len|lia]).
    constructor; rewrite ?Hk by lia; rewrite ?E; [|done| |done].
    - rewrite length_splice by splice_len. by rewrite <-Hlen.
    - intros _. exists (cl_index0 p), bo. split; [done|]. exists (u32_at pkt 6).
      pose proof (u32_at_range pkt 6 Hb). rewrite u32_at_splice, u32_u32 by lia.
      rewrite u32_at_outside by (splice_len || lia). split_and!; [lia|lia|done]. }
  destruct (Z.eqb_spec (u8_at pkt 0) VC4_PACKET_GL_ARRAY_PRIMITIVE) as [E|N2].
  { unfold relocate_array. destruct (last _); [|done]. destruct (_ <? _); [|done].
    intros [= <- <-]. right. constructor; rewrite ?E in *; done. }
  destruct (Z.eqb_spec (u8_at pkt 0) VC4_PACKET_NV_SHADER_STATE) as [E|N3].
  { rewrite E in Hlen. injection Hlen as Hlen. unfold relocate_state.
    destruct (_ <? _); [|done]. intros [= <- <-]. right.
    constructor; rewrite ?length_splice, ?u8_at_splice, ?E by (splice_len || lia); try done.
    by rewrite <-Hlen. }
  destruct (Z.eqb_spec (u8_at pkt 0) VC4_PACKET_TILE_BINNING_MODE_CONFIG) as [E|N4].
  { rewrite E in Hlen. injection Hlen as Hlen. unfold relocate_binning.
    intros [= <- <-]. right.
    constructor; rewrite ?length_splice, ?u8_at_splice, ?E by (splice_len || lia); try done.
    { by rewrite <-Hlen. }
    intros _. rewrite u32_at_splice by splice_len.
    rewrite !(u32_at_outside 9) by (splice_len || lia). rewrite u32_at_splice by splice_len.
    rewrite !(u32_at_outside 5) by (splice_len || lia). rewrite u32_at_splice by splice_len.
    rewrite !u32_u32. split_and!; [done..|]. unfold u32. rewrite Zplus_mod_idemp_r. f_equal. lia. }
  destruct (Z.eqb_spec (u8_at pkt 0) VC4_PACKET_GEM_HANDLES) as [E|N5]; intros [= <- <-]; [by left|].
  right. by constructor.
Qed.

(** A packet keeps its length, and one that is not for the hardware vanishes. *)
Lemma relocate_length J p pkt p' out :
  packet_length bin_packets (u8_at pkt 0) = Some (length pkt) →
  relocate J p pkt = Some (p', out) →
  length out = if u8_at pkt 0 =? VC4_PACKET_GEM_HANDLES then 0%nat else length pkt.
Proof.
  intros Hlen. unfold relocate.
  destruct (Z.eqb_spec (u8_at pkt 0) VC4_PACKET_GL_INDEXED_PRIMITIVE) as [E|_].
  { rewrite E in *. injection Hlen as Hlen. unfold relocate_indexed. repeat case_match; try done.
    intros [= <- <-]. splice_len. }
  destruct (Z.eqb_spec (u8_at pkt 0) VC4_PACKET_GL_ARRAY_PRIMITIVE) as [E|_].
  { rewrite E. unfold relocate_array. repeat case_match; try done. by intros [= <- <-]. }
  destruct (Z.eqb_spec (u8_at pkt 0) VC4_PACKET_NV_SHADER_STATE) as [E|_].
  { rewrite E in *. injection Hlen as Hlen. unfold relocate_state. case_match; [|done].
    intros [= <- <-]. splice_len. }
  destruct (Z.eqb_spec (u8_at pkt 0) VC4_PACKET_TILE_BINNING_MODE_CONFIG) as [E|_].
  { rewrite E in *. injection Hlen as Hlen. unfold relocate_binning. intros [= <- <-]. splice_len. }
  by destruct (_ =? _); intros [= <- <-].
Qed.

(** Whatever was submitted, a translated list is a sequence of safe packets. *)
Lemma translate_safe J fuel p src p' out :
  Forall (λ b, 0 ≤ b < 256) src → translate J fuel p src = Some (p', out) →
  ∃ pkts, out = concat pkts ∧ Forall (packet_safe J) pkts.
Proof.
  revert p src p' out. induction fuel as [|fuel IH]; intros p src p' out Hb; [done|].
  destruct src as [|cmd src']; [intros [= <- <-]; by exists []|].
  cbn [translate]. destruct (packet_length bin_packets cmd) as [n|] eqn:Hn; [|done].
  set (src := cmd :: src') in *. destruct (Nat.ltb_spec (length src) n) as [|Hle]; [done|].
  destruct (relocate J p (take n src)) as [[p1 o1]|] eqn:Hr; [|done].
  assert (u8_at (take n src) 0 = cmd) as Hcmd.
  { destruct n as [|n]; [|done]. exfalso. clear -Hn. unfold bin_packets, packet_length in Hn.
    repeat case_match; discriminate. }
  assert (∃ pk, o1 = concat pk ∧ Forall (packet_safe J) pk) as (pk & -> & Hpk).
  { apply relocate_safe in Hr; rewrite ?Hcmd in *; [|by apply Forall_take|].
    - destruct Hr as [[_ ->]|Hr]; [by exists []|]. exists [o1]. split; [by rewrite concat_cons, app_nil_r|].
      by constructor.
    - rewrite Hn. f_equal. rewrite length_take. lia. }
  destruct (cmd =? VC4_PACKET_HALT); [intros [= <- <-]; by exists pk|].
  destruct (translate J fuel p1 (drop n src)) as [[p2 o2]|] eqn:Ht; [|done].
  intros [= <- <-]. destruct (IH _ _ _ _ ltac:(by apply Forall_drop) Ht) as (pks & -> & Hpks).
  exists (pk ++ pks). rewrite concat_app. split; [done|]. by apply Forall_app.
Qed.

(** ** One packet of the translation *)

Lemma packet_length_pos cmd n : packet_length bin_packets cmd = Some n → (0 < n ≤ 16)%nat.
Proof.
  unfold bin_packets, packet_length. intros H.
  repeat match type of H with (if ?b then _ else _) = _ =>
    destruct b; [injection H as <-; lia|] end. done.
Qed.

Lemma packet_length_big cmd : 255 ≤ cmd → packet_length bin_packets cmd = None.
Proof.
  intros H. unfold bin_packets, packet_length.
  repeat match goal with |- (if ?c =? ?k then _ else _) = _ =>
    rewrite (proj2 (Z.eqb_neq c k)) by (intros ->; revert H; vm_compute; intros H; by apply H) end.
  done.
Qed.

(** Any fuel beyond the length of the list gives the same result. *)
Lemma translate_fuel J n m p src :
  (length src < n)%nat → (length src < m)%nat → translate J n p src = translate J m p src.
Proof.
  revert m p src. induction n as [|n IH]; intros [|m] p src Hn Hm; try lia.
  destruct src as [|cmd src']; [done|]. cbn [translate].
  destruct (packet_length bin_packets cmd) as [k|] eqn:Hk; [|done].
  destruct (_ <? _)%nat; [done|]. destruct (relocate _ _ _) as [[p' o]|]; [|done].
  destruct (cmd =? _); [done|]. apply packet_length_pos in Hk.
  rewrite (IH m); [done|..]; rewrite length_drop; simpl in *; lia.
Qed.

Definition prepend (out : list Z) (r : option (cl_state * list Z)) : option (cl_state * list Z) :=
  match r with Some (p, outs) => Some (p, out ++ outs) | None => None end.

Lemma prepend_app o1 o2 r : prepend o1 (prepend o2 r) = prepend (o1 ++ o2) r.
Proof. destruct r as [[p o]|]; simpl; [by rewrite app_assoc|done]. Qed.

Lemma translate_cl_nil J p : translate_cl J p [] = Some (p, []).
Proof. done. Qed.

Lemma translate_cl_step J p cmd src :
  translate_cl J p (cmd :: src) =
  match packet_length bin_packets cmd with
  | None => None
  | Some n =>
      if (length (cmd :: src) <? n)%nat then None
      else
        match relocate J p (take n (cmd :: src)) with
        | None => None
        | Some (p', out) =>
            if cmd =? VC4_PACKET_HALT then Some (p', out)
            else prepend out (translate_cl J p' (drop n (cmd :: src)))
        end
  end.
Proof.
  unfold translate_cl. cbn [translate]. destruct (packet_length bin_packets cmd) as [n|] eqn:Hn; [|done].
  destruct (_ <? _)%nat; [done|]. destruct (relocate _ _ _) as [[p' o]|]; [|done].
  destruct (cmd =? _); [done|]. apply packet_length_pos in Hn.
  rewrite (translate_fuel J _ (S (length (drop n (cmd :: src))))); [done|..];
    rewrite length_drop; simpl; lia.
Qed.

(** ** What translated records guarantee *)

(** Nothing read before the end of the third BO when the data offset, the
    difference between the address in the record and the start of the BO, lies
    inside it. *)
Record rec_safe (J : cl_job) (st : vc4_shader_state) (r : list Z) : Prop := {
  rec_length : length r = 16%nat;
  rec_vertices : ∃ i bo offset, job_bo J i = Some bo ∧ 0 ≤ offset < 2 ^ 32 ∧
    u32_at r 12 = u32 (bo_paddr bo + offset) ∧
    (offset ≤ bo_size bo → offset + ss_max_index st * u8_at r 1 ≤ bo_size bo);
}.

Lemma relocate_rec_safe J st src r :
  Forall (λ b, 0 ≤ b < 256) src → length src = 28%nat →
  relocate_rec J st src = Some r → rec_safe J st r.
Proof.
  intros Hb Hlen. unfold relocate_rec.
  destruct (job_bo J (u32_at src 0)) as [bo0|]; [|done].
  destruct (job_bo J (u32_at src 4)) as [bo1|]; [|done].
  destruct (job_bo J (u32_at src 8)) as [bo2|] eqn:Hbo; [|done]. set (d := drop 12 src).
  assert (length d = 16%nat) as Hd by (unfold d; rewrite length_drop; lia).
  assert (0 ≤ u32_at d 12 < 2 ^ 32) as Hoff by (apply u32_at_range; by apply Forall_drop).
  destruct (_ || _) eqn:Hg; [|done]. intros [= <-]. constructor; [splice_len|].
  exists (u32_at src 8), bo2, (u32_at d 12). rewrite u32_at_splice, u32_u32 by splice_len.
  split_and!; [done|lia|lia|done|]. intros Hin.
  rewrite !u8_at_splice by (splice_len || lia).
  apply orb_true_iff in Hg as [Hz%Z.eqb_eq|Hle%Z.leb_le]; [rewrite Hz; lia|].
  assert (u32 (bo_size bo2 - u32_at d 12) ≤ bo_size bo2 - u32_at d 12) by (apply Z.mod_le; lia). lia.
Qed.

Lemma translate_recs_safe J sts src out :
  Forall (λ b, 0 ≤ b < 256) src → translate_recs J sts src = Some out →
  ∃ recs, out = concat recs ∧ Forall2 (rec_safe J) sts recs.
Proof.
  revert src out. induction sts as [|st sts IH]; intros src out Hb; simpl.
  { intros [= <-]. exists []. by split; [|constructor]. }
  destruct (Nat.ltb_spec (length src) 28) as [|Hl]; [done|].
  destruct (relocate_rec J st (take 28 src)) as [r|] eqn:Hr; [|done].
  destruct (translate_recs J sts (drop 28 src)) as [rs|] eqn:Hrs; [|done]. intros [= <-].
  destruct (IH _ _ ltac:(by apply Forall_drop) Hrs) as (recs & -> & Hrecs).
  exists (r :: recs). split; [done|]. constructor; [|done].
  eapply relocate_rec_safe; [..|exact Hr]; [by apply Forall_take|]. rewrite length_take. lia.
Qed.

Lemma relocate_rec_length J st src r :
  length src = 28%nat → relocate_rec J st src = Some r → length r = 16%nat.
Proof.
  intros Hlen. unfold relocate_rec. repeat case_match; try done. intros [= <-].
  assert (length (drop 12 src) = 16%nat) by (rewrite length_drop; lia). splice_len.
Qed.
