(* ===== verification/Vc4ValidateSpec.v ===== *)
(** * What validation guarantees

    The validators compute the translation of [Vc4Reloc]: for every submitted
    byte string they return, write only into their output area, and accept
    exactly the lists and records the translation accepts, leaving there the
    bytes it prescribes. *)

From S2P Require Import Prelude DList Mem Vc4Cl Vc4Bo Vc4Validate Vc4Reloc.

Section spec.
Context {FW : Type}.
Variable dev : vc4_state FW.
Variable temp : list Z.

#[local] Arguments le_bytes : simpl never.

(** ** Well-formed submissions *)

Definition bo_valid (h : Z) : Prop := is_Some (handle_bo_map dev !! Z.to_nat h).

(** The exec structure [vc4_get_bcl] sets up, and which the validators keep:
    the BO table and the shader-state table are as long as declared. *)
Record exec_ok (e : vc4_exec_info) : Prop := {
  ok_bo_count : 0 ≤ x_bo_count e ≤ Z.of_nat (length (x_bo e));
  ok_bos : Forall bo_valid (x_bo e);
  ok_states : x_shader_state_size e ≤ Z.of_nat (length (x_shader_state e));
  ok_count : 0 ≤ x_shader_state_count e ≤ x_shader_state_size e;
  ok_size : x_shader_state_size e < 2 ^ 32;
  ok_index0 : 0 ≤ x_bo_index0 e;
  ok_rec_p : 0 ≤ x_shader_rec_p e < 2 ^ 32;
}.

Definition dev_ok : Prop := ∃ h, bin_bo dev = Some h ∧ bo_valid h.

Definition bytes_ok : Prop := Forall (λ b, 0 ≤ b < 256) temp.

(** Fields no validator of a bin packet changes. *)
Definition exec_frame (e e' : vc4_exec_info) : Prop :=
  x_args e' = x_args e ∧ x_bo e' = x_bo e ∧ x_bo_count e' = x_bo_count e ∧
  x_exec_bo e' = x_exec_bo e ∧ x_shader_state_size e' = x_shader_state_size e ∧
  length (x_shader_state e') = length (x_shader_state e) ∧
  x_ct0ca e' = x_ct0ca e ∧ x_shader_rec_u e' = x_shader_rec_u e ∧
  x_shader_rec_v e' = x_shader_rec_v e ∧ x_shader_rec_size e' = x_shader_rec_size e.

(** ** Reading the kernel copy *)

Lemma wp_temp_bytes off n s (Q : list Z → vstate → Prop) :
  0 ≤ off → off + Z.of_nat n ≤ Z.of_nat (length temp) →
  Q (take n (drop (Z.to_nat off) temp)) s → wp (temp_bytes temp off n) s Q.
Proof.
  intros ?? HQ. eapply wp_ok; [|exact HQ]. unfold temp_bytes.
  rewrite (proj2 (Z.leb_le 0 off)), (proj2 (Z.leb_le (off + _) _)) by lia. done.
Qed.

Definition temp_val (off : Z) (n : nat) : Z :=
  le_combine (take n (drop (Z.to_nat off) temp)).

Lemma wp_temp_u8 off s (Q : Z → vstate → Prop) :
  0 ≤ off → off + 1 ≤ Z.of_nat (length temp) →
  Q (temp_val off 1) s → wp (temp_u8 temp off) s Q.
Proof. intros. apply wp_bind, wp_temp_bytes; [lia..|]. by apply wp_ret. Qed.

Lemma wp_temp_u32 off s (Q : Z → vstate → Prop) :
  0 ≤ off → off + 4 ≤ Z.of_nat (length temp) →
  Q (temp_val off 4) s → wp (temp_u32 temp off) s Q.
Proof. intros. apply wp_bind, wp_temp_bytes; [lia..|]. by apply wp_ret. Qed.

Lemma temp_val_range off n :
  bytes_ok → 0 ≤ temp_val off n < 256 ^ Z.of_nat n.
Proof.
  intros Hb. unfold temp_val.
  assert (Forall (λ b, 0 ≤ b < 256) (take n (drop (Z.to_nat off) temp))) as H
    by (by apply Forall_take, Forall_drop).
  apply le_combine_range in H.
  split; [lia|]. eapply Z.lt_le_trans; [apply H|].
  apply Z.pow_le_mono_r; [lia|]. rewrite length_take. lia.
Qed.

(** The packet of [n] bytes at [src], and its fields. *)
Definition pkt_at (src : Z) (n : nat) : list Z := take n (drop (Z.to_nat src) temp).

Lemma pkt_at_length src n :
  0 ≤ src → src + Z.of_nat n ≤ Z.of_nat (length temp) → length (pkt_at src n) = n.
Proof. intros. unfold pkt_at. rewrite length_take, length_drop. lia. Qed.

Lemma pkt_at_bytes src n : bytes_ok → Forall (λ b, 0 ≤ b < 256) (pkt_at src n).
Proof. intros. by apply Forall_take, Forall_drop. Qed.

Lemma temp_val_pkt src n k j :
  0 ≤ src → (k + j ≤ n)%nat →
  temp_val (src + Z.of_nat k) j = le_combine (take j (drop k (pkt_at src n))).
Proof.
  intros. unfold temp_val, pkt_at. f_equal. rewrite skipn_firstn_comm, take_take, drop_drop.
  f_equal; [lia|]. f_equal. lia.
Qed.

Lemma wp_pkt_u8 src n k off s (Q : Z → vstate → Prop) :
  off = src + Z.of_nat k → (k < n)%nat → 0 ≤ src → src + Z.of_nat n ≤ Z.of_nat (length temp) →
  Q (u8_at (pkt_at src n) k) s → wp (temp_u8 temp off) s Q.
Proof.
  intros -> ??? HQ. apply wp_temp_u8; [lia..|]. rewrite (temp_val_pkt src n) by lia.
  by rewrite <-u8_at_take.
Qed.

Lemma wp_pkt_u32 src n k off s (Q : Z → vstate → Prop) :
  off = src + Z.of_nat k → (k + 4 ≤ n)%nat → 0 ≤ src → src + Z.of_nat n ≤ Z.of_nat (length temp) →
  Q (u32_at (pkt_at src n) k) s → wp (temp_u32 temp off) s Q.
Proof. intros -> ??? HQ. apply wp_temp_u32; [lia..|]. by rewrite (temp_val_pkt src n) by lia. Qed.

(** ** The frame of the exec structure *)

Lemma exec_frame_refl e : exec_frame e e.
Proof. repeat split. Qed.
Lemma exec_frame_trans e1 e2 e3 : exec_frame e1 e2 → exec_frame e2 e3 → exec_frame e1 e3.
Proof. unfold exec_frame. intros ??. destruct_and!. repeat split; congruence. Qed.

Lemma bo_valid_lookup h : bo_valid h → ∃ bo, handle_bo_map dev !! Z.to_nat h = Some bo.
Proof. by intros [bo ?]; exists bo. Qed.

(** ** The job of an exec structure *)

(** [rec_p] is the bus address of the job's first shader record. *)
Definition job_of (rec_p : Z) (e : vc4_exec_info) : cl_job := mk_cl_job
  (λ i, if i <? x_bo_count e then
          match x_bo e !! Z.to_nat i with
          | Some h => handle_bo_map dev !! Z.to_nat h
          | None => None
          end
        else None)
  (default zero_bo (match bin_bo dev with
                    | Some h => handle_bo_map dev !! Z.to_nat h | None => None end))
  (bin_alloc_size dev) (x_shader_state_size e) rec_p.

Lemma job_of_frame rec_p e e' : exec_frame e e' → job_of rec_p e' = job_of rec_p e.
Proof. intros (_ & Hbo & Hcnt & _ & Hsz & _). unfold job_of. by rewrite Hbo, Hcnt, Hsz. Qed.

(** The exec structure holds what the packets gone through have set up. *)
Record cl_agrees (J : cl_job) (p : cl_state) (e : vc4_exec_info) : Prop := {
  ag_index0 : x_bo_index0 e = cl_index0 p;
  ag_index1 : x_bo_index1 e = cl_index1 p;
  ag_count : x_shader_state_count e = Z.of_nat (length (cl_states p));
  ag_states : take (length (cl_states p)) (x_shader_state e) = cl_states p;
  ag_tiles : (x_bin_tiles_x e, x_bin_tiles_y e) = cl_tiles p;
  ag_alloc : x_tile_alloc_offset e = cl_alloc p;
  ag_rec_p : x_shader_rec_p e = u32 (job_rec_p J + 16 * Z.of_nat (length (cl_states p)));
}.

Lemma wp_use_bo rp i s (Q : option Z → vstate → Prop) :
  exec_ok (v_exec s) → 0 ≤ i →
  (job_bo (job_of rp (v_exec s)) i = None → Q None s) →
  (∀ h bo, job_bo (job_of rp (v_exec s)) i = Some bo →
    handle_bo_map dev !! Z.to_nat h = Some bo → Q (Some h) s) →
  wp (vc4_use_bo i) s Q.
Proof.
  intros Hok Hi HN HS. unfold vc4_use_bo. apply wp_bind, wp_get. simpl in HN, HS. wp_step.
  { apply Z.leb_le in Hc. apply wp_ret, HN. by rewrite (proj2 (Z.ltb_ge _ _)). }
  apply Z.leb_gt in Hc. destruct (ok_bo_count _ Hok) as [_ Hcnt].
  destruct (lookup_lt_is_Some_2 (x_bo (v_exec s)) (Z.to_nat i)) as [h Hh]; [lia|].
  rewrite (proj2 (Z.ltb_lt _ _)), Hh in HS by done.
  apply wp_bind. eapply wp_deref; [done|]. apply wp_ret.
  destruct (bo_valid_lookup h) as [bo Hbo].
  { pose proof (ok_bos _ Hok) as Hf. rewrite Forall_lookup in Hf. eauto. }
  by eapply HS.
Qed.

(** The shader state declared last. *)
Lemma wp_last_state J p s (Q : vc4_shader_state → vstate → Prop) :
  cl_agrees J p (v_exec s) → x_shader_state_count (v_exec s) ≠ 0 →
  (∀ st, last (cl_states p) = Some st → Q st s) →
  wp (get_shader_state (x_shader_state_count (v_exec s) - 1)) s Q.
Proof.
  intros Ha Hc HQ. pose proof (ag_count _ _ _ Ha) as Hn. pose proof (ag_states _ _ _ Ha) as Hst.
  destruct (last (cl_states p)) as [st|] eqn:El.
  2:{ apply last_None in El. rewrite El in Hn. by simpl in Hn. }
  eapply wp_deref; [|by apply HQ]. rewrite last_lookup, <-Hst in El.
  rewrite lookup_take_Some in El. destruct El as [El _]. rewrite <-El. f_equal.
  rewrite Hst. lia.
Qed.

Lemma wp_bo_at h bo s (Q : vc4_bo → vstate → Prop) :
  handle_bo_map dev !! Z.to_nat h = Some bo → Q bo s → wp (bo_at dev h) s Q.
Proof. intros. by eapply wp_deref. Qed.


(** ** The packet validators *)

(** What each of them promises for a packet of [n] bytes: the result of the
    reference, or [-E_INVAL] with writes confined to the packet. *)
Definition vpost (J : cl_job) (m0 : gmap Z Z) (dst : Z) (n : nat) (s : vstate)
    (r : option (cl_state * list Z)) (ret : Z) (s' : vstate) : Prop :=
  exec_frame (v_exec s) (v_exec s') ∧
  match r with
  | Some (p', out) => ret = 0 ∧ v_mem s' = write_bytes dst out m0 ∧
      cl_agrees J p' (v_exec s') ∧ exec_ok (v_exec s')
  | None => ret = - E_INVAL ∧ mem_frame dst (dst + Z.of_nat n) m0 (v_mem s')
  end.

(** The copy of a packet changes nothing outside it. *)
Lemma copy_frame dst src n m :
  0 ≤ src → src + Z.of_nat n ≤ Z.of_nat (length temp) →
  mem_frame dst (dst + Z.of_nat n) m (write_bytes dst (pkt_at src n) m).
Proof. intros. apply mem_frame_write; [lia|]. rewrite pkt_at_length by lia. lia. Qed.

Lemma alter_last_insert (l xs : list vc4_shader_state) f st :
  take (length l) xs = l → last l = Some st →
  take (length (alter f (pred (length l)) l)) (<[pred (length l) := f st]> xs)
    = alter f (pred (length l)) l.
Proof.
  intros Ht Hl. rewrite length_alter, take_insert_lt, Ht by (destruct l; simpl in *; [done|lia]).
  rewrite last_lookup in Hl. apply list_eq. intros i.
  destruct (decide (i = pred (length l))) as [->|Hne].
  - rewrite list_lookup_insert_eq, list_lookup_alter_eq, Hl by (by eapply lookup_lt_Some). done.
  - by rewrite list_lookup_insert_ne, list_lookup_alter_ne.
Qed.

(** Raising the maximal index of the current shader state. *)
Lemma wp_raise_max J p st mx s (Q : unit → vstate → Prop) :
  exec_ok (v_exec s) → cl_agrees J p (v_exec s) → last (cl_states p) = Some st →
  (∀ s', v_mem s' = v_mem s → exec_frame (v_exec s) (v_exec s') → exec_ok (v_exec s') →
         cl_agrees J (use_vertices mx p) (v_exec s') → Q tt s') →
  wp (if ss_max_index st <? mx
      then set_shader_state (x_shader_state_count (v_exec s) - 1) (mk_shader_state (ss_addr st) mx)
      else mret tt) s Q.
Proof.
  intros Hok Ha Hst HQ. pose proof Ha as [A0 A1 A2 A3 A4 A5 A6].
  assert (0 < length (cl_states p))%nat as Hpos by (destruct (cl_states p); simpl in *; [done|lia]).
  assert (Z.to_nat (x_shader_state_count (v_exec s) - 1) = pred (length (cl_states p))) as Hi by lia.
  destruct (Z.ltb_spec (ss_max_index st) mx) as [Hlt|Hge].
  - apply wp_modify. apply HQ; simpl; [done|..].
    + repeat split. simpl. apply length_insert.
    + destruct Hok. constructor; simpl; try done. by rewrite length_insert.
    + constructor; simpl; rewrite ?length_alter; try done. rewrite Hi.
      pose proof (alter_last_insert _ _ (λ st, mk_shader_state (ss_addr st) (Z.max (ss_max_index st) mx))
        st A3 Hst) as E. rewrite length_alter in E.
      replace (Z.max (ss_max_index st) mx) with mx in E by lia. exact E.
  - apply wp_ret, HQ; auto using exec_frame_refl. constructor; simpl; rewrite ?length_alter; try done.
    rewrite A3. symmetry. apply list_eq. intros i. rewrite last_lookup in Hst.
    destruct (decide (i = pred (length (cl_states p)))) as [->|Hne].
    + rewrite list_lookup_alter_eq, Hst. simpl. f_equal. destruct st. simpl in *. f_equal. lia.
    + by rewrite list_lookup_alter_ne.
Qed.

Lemma indexed_prim_spec rp J p dst src m0 s :
  J = job_of rp (v_exec s) → bytes_ok → exec_ok (v_exec s) → cl_agrees J p (v_exec s) →
  0 ≤ src → src + 14 ≤ Z.of_nat (length temp) → v_mem s = write_bytes dst (pkt_at src 14) m0 →
  wp (validate_indexed_prim_list dev temp (dst + 1) (src + 1)) s
     (vpost J m0 dst 14 s (relocate_indexed J p (pkt_at src 14))).
Proof.
  intros HJ0 Hb Hok Ha Hs Hlen Hm. unfold validate_indexed_prim_list, ret_code.
  pose proof (copy_frame dst src 14 m0 ltac:(lia) ltac:(lia)) as Hcp. rewrite <-Hm in Hcp.
  apply wp_bind, (wp_pkt_u32 src 14 2); [lia..|]. apply wp_bind, (wp_pkt_u32 src 14 6); [lia..|].
  apply wp_bind, (wp_pkt_u32 src 14 10); [lia..|]. apply wp_bind, (wp_pkt_u8 src 14 1); [lia..|].
  set (pkt := pkt_at src 14) in *. pose proof (pkt_at_bytes src 14 Hb) as Hpb. fold pkt in Hpb.
  apply wp_bind, wp_get. unfold relocate_indexed. wp_step.
  { apply wp_ret. split; [apply exec_frame_refl|].
    apply Z.eqb_eq in Hc. rewrite (ag_count _ _ _ Ha) in Hc.
    destruct (cl_states p); [done|simpl in Hc; lia]. }
  apply Z.eqb_neq in Hc. apply wp_bind, (wp_last_state J p); [done..|]. intros st Hst. rewrite Hst.
  apply wp_bind, (wp_raise_max J p); [done..|]. intros s1 Hm1 Hf1 Hok1 Ha1.
  assert (job_of rp (v_exec s1) = J) as HJ by (rewrite HJ0; by apply job_of_frame).
  apply wp_bind. unfold vc4_use_handle. apply wp_bind, wp_get. simpl.
  apply (wp_use_bo rp); [done|by apply ok_index0|..]; rewrite (ag_index0 _ _ _ Ha1), HJ; simpl cl_index0.
  { intros ->. apply wp_ret. split; [done|]. rewrite Hm1. by destruct (last _). }
  intros h bo -> Hbo. apply wp_bind. eapply wp_bo_at; [done|].
  pose proof (u32_at_range pkt 6 Hpb) as R6. pose proof (u32_at_range pkt 2 Hpb) as R2.
  set (w := if negb (Z.shiftr (u8_at pkt 1) 4 =? 0) then 2 else 1).
  assert (index_size (u8_at pkt 1) = w) as -> by (unfold index_size, w; by destruct (_ =? 0)).
  assert (0 < w) by (unfold w; destruct (negb _); lia). clearbody w.
  assert ((bo_size bo <? u32_at pkt 6) || ((bo_size bo - u32_at pkt 6) / w <? u32_at pkt 2) =
    negb (u32_at pkt 6 + w * u32_at pkt 2 <=? bo_size bo)) as ->.
  { apply eq_true_iff_eq. rewrite orb_true_iff, negb_true_iff, !Z.ltb_lt, Z.leb_gt.
    Z.to_euclidean_division_equations; nia. }
  destruct (_ <=? bo_size bo); cbn [negb].
  - apply wp_bind, wp_modify. apply wp_ret. split_and!; simpl; [done|done| |done|done].
    rewrite Hm1, Hm. replace (dst + 1 + 5) with (dst + Z.of_nat 6) by lia.
    apply put_splice. unfold pkt. rewrite pkt_at_length; lia.
  - apply wp_ret. split; [done|]. by rewrite Hm1.
Qed.

Lemma gl_array_spec rp J p dst src m0 s :
  J = job_of rp (v_exec s) → bytes_ok → exec_ok (v_exec s) → cl_agrees J p (v_exec s) →
  0 ≤ src → src + 10 ≤ Z.of_nat (length temp) → v_mem s = write_bytes dst (pkt_at src 10) m0 →
  wp (validate_gl_array_primitive temp (dst + 1) (src + 1)) s
     (vpost J m0 dst 10 s (relocate_array p (pkt_at src 10))).
Proof.
  intros HJ0 Hb Hok Ha Hs Hlen Hm. unfold validate_gl_array_primitive, ret_code.
  pose proof (copy_frame dst src 10 m0 ltac:(lia) ltac:(lia)) as Hcp. rewrite <-Hm in Hcp.
  apply wp_bind, (wp_pkt_u32 src 10 2); [lia..|]. apply wp_bind, (wp_pkt_u32 src 10 6); [lia..|].
  set (pkt := pkt_at src 10) in *. pose proof (pkt_at_bytes src 10 Hb) as Hpb. fold pkt in Hpb.
  apply wp_bind, wp_get. unfold relocate_array. wp_step.
  { apply wp_ret. split; [apply exec_frame_refl|].
    apply Z.eqb_eq in Hc. rewrite (ag_count _ _ _ Ha) in Hc.
    destruct (cl_states p); [done|simpl in Hc; lia]. }
  apply Z.eqb_neq in Hc. apply wp_bind, (wp_last_state J p); [done..|]. intros st Hst. rewrite Hst.
  pose proof (u32_at_range pkt 6 Hpb) as R6. pose proof (u32_at_range pkt 2 Hpb) as R2.
  assert ((u32 (u32_at pkt 2 + u32_at pkt 6) <? u32_at pkt 2) =
    negb (u32_at pkt 2 + u32_at pkt 6 <? 2 ^ 32)) as ->.
  { apply eq_true_iff_eq. rewrite negb_true_iff, Z.ltb_lt, Z.ltb_ge. unfold u32.
    Z.to_euclidean_division_equations; nia. }
  destruct (_ <? 2 ^ 32); cbn [negb]; [|by apply wp_ret; split; [apply exec_frame_refl|]].
  apply wp_bind, (wp_raise_max J p); [done..|]. intros s1 Hm1 Hf1 Hok1 Ha1.
  apply wp_ret. split_and!; [done|done|by rewrite Hm1|done|done].
Qed.

Lemma nv_shader_state_spec rp J p dst src m0 s :
  J = job_of rp (v_exec s) → bytes_ok → exec_ok (v_exec s) → cl_agrees J p (v_exec s) →
  0 ≤ src → src + 5 ≤ Z.of_nat (length temp) → v_mem s = write_bytes dst (pkt_at src 5) m0 →
  wp (validate_nv_shader_state temp (dst + 1) (src + 1)) s
     (vpost J m0 dst 5 s (relocate_state J p (pkt_at src 5))).
Proof.
  intros HJ0 Hb Hok Ha Hs Hlen Hm. unfold validate_nv_shader_state, ret_code, on_exec, on_mem.
  pose proof (copy_frame dst src 5 m0 ltac:(lia) ltac:(lia)) as Hcp. rewrite <-Hm in Hcp.
  pose proof Ha as [A0 A1 A2 A3 A4 A5 A6].
  apply wp_bind, wp_get. apply wp_bind, wp_modify. unfold relocate_state. rewrite <-A2.
  assert (job_states J = x_shader_state_size (v_exec s)) as -> by (by rewrite HJ0).
  rewrite Z.leb_antisym. destruct (Z.ltb_spec (x_shader_state_count (v_exec s))
    (x_shader_state_size (v_exec s))) as [Hlt|Hge]; cbn [negb].
  2:{ apply wp_ret. split; [repeat split|done]. }
  pose proof (ok_count _ Hok). pose proof (ok_size _ Hok). pose proof (ok_states _ Hok).
  apply wp_bind, (wp_pkt_u32 src 5 1); [lia..|]. set (pkt := pkt_at src 5) in *. apply wp_bind.
  destruct (lookup_lt_is_Some_2 (x_shader_state (v_exec s))
    (Z.to_nat (x_shader_state_count (v_exec s)))) as [st Hst]; [lia|].
  eapply wp_deref; [done|]. do 3 apply wp_bind, wp_modify. apply wp_ret. simpl.
  assert (Z.to_nat (x_shader_state_count (v_exec s)) = length (cl_states p)) as Hi by lia.
  split_and!; [repeat split; apply length_insert|done|..].
  - cbn [v_mem]. rewrite Hm, <-(put_splice dst 1) by (unfold pkt; rewrite pkt_at_length; lia).
    rewrite A6, A2. cbn [v_mem]. f_equal. unfold u32. by rewrite Zplus_mod_idemp_l.
  - constructor; simpl; rewrite ?length_app; simpl; try done.
    + rewrite A2, u32_id by lia.  lia.
    + rewrite Hi in *. apply list_eq. intros i.
      destruct (decide (i < length (cl_states p))%nat) as [Hlt'|Hge'].
      * rewrite lookup_take_lt, list_lookup_insert_ne, lookup_app_l by lia.
        by rewrite <-A3, lookup_take_lt by lia.
      * destruct (decide (i = length (cl_states p))) as [->|].
        -- rewrite lookup_take_lt by lia. rewrite list_lookup_insert_eq by (by eapply lookup_lt_Some).
           by rewrite lookup_app_r, Nat.sub_diag by lia.
        -- rewrite lookup_take_ge by lia. symmetry. apply lookup_ge_None. rewrite length_app. simpl. lia.
    + rewrite A6. unfold u32. rewrite Zplus_mod_idemp_l. f_equal. lia.
  - destruct Hok. constructor; simpl; try done.
    + by rewrite length_insert.
    + rewrite u32_id by lia. lia.
    + apply u32_range.
Qed.

(** The configuration byte: the user's flags without the two block sizes. *)
Lemma config_byte b :
  0 ≤ b < 256 →
  u8 (Z.lor (Z.lor (Z.lor
    (Z.land b (Z.lnot (Z.lor VC4_BIN_CONFIG_ALLOC_INIT_BLOCK_SIZE_MASK VC4_BIN_CONFIG_ALLOC_BLOCK_SIZE_MASK)))
    VC4_BIN_CONFIG_AUTO_INIT_TSDA) (Z.shiftl VC4_BIN_CONFIG_ALLOC_INIT_BLOCK_SIZE_32 3))
    (Z.shiftl VC4_BIN_CONFIG_ALLOC_BLOCK_SIZE_128 5)) = Z.lor (Z.land b 135) 68.
Proof.
  intros Hb. rewrite <-(Z2Nat.id b) by lia. assert (Z.to_nat b < 256)%nat as Hn by lia.
  revert Hn. generalize (Z.to_nat b). clear. intros n Hn.
  do 256 (destruct n as [|n]; [reflexivity|]). lia.
Qed.

Lemma page_up n : 0 ≤ n < 2 ^ 31 → ROUNDUP (u32 n) 4096 = (n + 4095) / 4096 * 4096.
Proof.
  intros Hn. unfold ROUNDUP, ROUNDDOWN. rewrite !u32_u32, (u32_id 4096), (u32_id n) by lia.
  rewrite u32_id by lia. Z.to_euclidean_division_equations; lia.
Qed.

Lemma binning_config_spec rp J p dst src m0 s :
  J = job_of rp (v_exec s) → dev_ok → bytes_ok → exec_ok (v_exec s) → cl_agrees J p (v_exec s) →
  0 ≤ src → src + 16 ≤ Z.of_nat (length temp) → v_mem s = write_bytes dst (pkt_at src 16) m0 →
  wp (validate_tile_binning_config dev temp (dst + 1) (src + 1)) s
     (vpost J m0 dst 16 s (Some (relocate_binning J p (pkt_at src 16)))).
Proof.
  intros HJ0 (h & Hbin & Hv) Hb Hok Ha Hs Hlen Hm. destruct (bo_valid_lookup _ Hv) as [bo Hbo].
  assert (job_bin J = bo) as HJ by (rewrite HJ0; simpl; by rewrite Hbin, Hbo).
  assert (job_bin_size J = bin_alloc_size dev) as HJs by (by rewrite HJ0).
  unfold validate_tile_binning_config, ret_code, on_exec, on_mem.
  apply wp_bind, (wp_pkt_u8 src 16 13); [lia..|]. apply wp_bind, (wp_pkt_u8 src 16 14); [lia..|].
  apply wp_bind, wp_modify. apply wp_bind, (wp_pkt_u8 src 16 15); [lia..|].
  set (pkt := pkt_at src 16) in *. pose proof (pkt_at_bytes src 16 Hb) as Hpb. fold pkt in Hpb.
  pose proof (u8_at_range pkt 13 Hpb). pose proof (u8_at_range pkt 14 Hpb).
  assert (length pkt = 16%nat) as Hpl by (apply pkt_at_length; lia).
  apply wp_bind. eapply wp_deref; [done|]. apply wp_bind. eapply wp_bo_at; [done|].
  rewrite config_byte, page_up by (by apply u8_at_range || nia).
  do 5 apply wp_bind, wp_modify. apply wp_ret. unfold relocate_binning. rewrite HJ, HJs. simpl.
  split_and!; [by repeat split|done|..].
  - rewrite Hm. replace (dst + 1 + 14) with (dst + Z.of_nat 15) by lia.
    replace (dst + 1 + 0) with (dst + Z.of_nat 1) by lia.
    replace (dst + 1 + 4) with (dst + Z.of_nat 5) by lia.
    replace (dst + 1 + 8) with (dst + Z.of_nat 9) by lia.
    rewrite insert_splice by lia. by rewrite !put_splice by splice_len.
  - destruct Ha. by constructor.
  - destruct Hok. by constructor.
Qed.

Lemma gem_handles_spec rp J p dst src s :
  J = job_of rp (v_exec s) → bytes_ok → exec_ok (v_exec s) → cl_agrees J p (v_exec s) →
  0 ≤ src → src + 9 ≤ Z.of_nat (length temp) →
  wp (validate_gem_handles temp (dst + 1) (src + 1)) s
     (vpost J (v_mem s) dst 9 s (Some (p <| cl_index0 := u32_at (pkt_at src 9) 1 |>
                                         <| cl_index1 := u32_at (pkt_at src 9) 5 |>, []))).
Proof.
  intros HJ0 Hb Hok Ha Hs Hlen. unfold validate_gem_handles, ret_code, on_exec.
  apply wp_bind, (wp_pkt_u32 src 9 1); [lia..|]. apply wp_bind, (wp_pkt_u32 src 9 5); [lia..|].
  apply wp_bind, wp_modify. apply wp_ret. simpl. split_and!; [by repeat split|done|done|..].
  - destruct Ha. by constructor.
  - pose proof (u32_at_range (pkt_at src 9) 1 (pkt_at_bytes src 9 Hb)).
    destruct Hok. constructor; simpl; try done; lia.
Qed.

(** The entries of the packet table. *)
Lemma cmd_info_inv cmd ilen func :
  cmd_info dev temp cmd = Some (ilen, func) →
  packet_length bin_packets cmd = Some (Z.to_nat ilen) ∧ 0 < ilen ≤ 16 ∧
  ((func = None ∧ cmd ≠ VC4_PACKET_GL_INDEXED_PRIMITIVE ∧ cmd ≠ VC4_PACKET_GL_ARRAY_PRIMITIVE ∧
    cmd ≠ VC4_PACKET_NV_SHADER_STATE ∧ cmd ≠ VC4_PACKET_TILE_BINNING_MODE_CONFIG ∧
    cmd ≠ VC4_PACKET_GEM_HANDLES) ∨
   (cmd = VC4_PACKET_GL_INDEXED_PRIMITIVE ∧ ilen = 14 ∧
    func = Some (validate_indexed_prim_list dev temp)) ∨
   (cmd = VC4_PACKET_GL_ARRAY_PRIMITIVE ∧ ilen = 10 ∧
    func = Some (validate_gl_array_primitive temp)) ∨
   (cmd = VC4_PACKET_NV_SHADER_STATE ∧ ilen = 5 ∧
    func = Some (validate_nv_shader_state temp)) ∨
   (cmd = VC4_PACKET_TILE_BINNING_MODE_CONFIG ∧ ilen = 16 ∧
    func = Some (validate_tile_binning_config dev temp)) ∨
   (cmd = VC4_PACKET_GEM_HANDLES ∧ ilen = 9 ∧ func = Some (validate_gem_handles temp))).
Proof.
  unfold cmd_info. intros H.
  repeat match type of H with
  | (if ?c =? ?k then _ else _) = _ =>
      destruct (Z.eqb_spec c k) as [->|?];
      [injection H as <- <-; split; [done|]; split; [lia|];
       first [left; split; [done|split_and!; discriminate]
             |right; repeat (first [left; by split_and! | right]); by split_and!]|]
  end. done.
Qed.

Lemma cmd_info_none cmd : cmd_info dev temp cmd = None → packet_length bin_packets cmd = None.
Proof.
  unfold cmd_info, packet_length, bin_packets. intros H.
  repeat match type of H with (if ?c =? ?k then _ else _) = _ =>
    destruct (c =? k) eqn:?; [discriminate H|] end.
  repeat match goal with |- context [cmd =? ?k] => replace (cmd =? k) with false by (symmetry; assumption) end.
  done.
Qed.

(** A validator run on the copy of its packet computes the reference. *)
Lemma run_validator rp J p cmd ilen func dst src m0 s :
  J = job_of rp (v_exec s) → dev_ok → bytes_ok → exec_ok (v_exec s) → cl_agrees J p (v_exec s) →
  0 ≤ src → cmd_info dev temp cmd = Some (ilen, func) → src + ilen ≤ Z.of_nat (length temp) →
  cmd = u8_at (pkt_at src (Z.to_nat ilen)) 0 →
  v_mem s = (if cmd =? VC4_PACKET_GEM_HANDLES then m0
             else write_bytes dst (pkt_at src (Z.to_nat ilen)) m0) →
  wp (match func with Some f => f (dst + 1) (src + 1) | None => ret_code 0 end) s
     (vpost J m0 dst (Z.to_nat ilen) s (relocate J p (pkt_at src (Z.to_nat ilen)))).
Proof.
  intros HJ Hd Hb Hok Ha Hs Hi Hlen Hcmd Hm.
  destruct (cmd_info_inv _ _ _ Hi) as (_ & Hil & Hcases). unfold relocate. rewrite <-Hcmd.
  destruct Hcases as [(-> & N1 & N2 & N3 & N4 & N5)|[(-> & -> & ->)|[(-> & -> & ->)|[(-> & -> & ->)|
    [(-> & -> & ->)|(-> & -> & ->)]]]]].
  - rewrite !(proj2 (Z.eqb_neq _ _)) in * by done. apply wp_ret.
    split_and!; auto using exec_frame_refl.
  - by apply (indexed_prim_spec rp).
  - by apply (gl_array_spec rp).
  - by apply (nv_shader_state_spec rp).
  - by apply (binning_config_spec rp).
  - simpl in Hm. rewrite <-Hm. by apply (gem_handles_spec rp).
Qed.

(** ** The validation loop *)

Section loop.
Variables (rp validated unvalidated len : Z) (s0 : vstate) (p0 : cl_state).
Hypothesis Hdev : dev_ok.
Hypothesis Hbytes : bytes_ok.
Hypothesis Hunv : 0 ≤ unvalidated.
Hypothesis Htemp : unvalidated + len ≤ Z.of_nat (length temp).
Hypothesis Hlen : 0 ≤ len ≤ 2 ^ 32 - 16.

Local Notation J := (job_of rp (v_exec s0)).
Local Notation src_bytes := (pkt_at unvalidated (Z.to_nat len)).

(** The state of the loop at [(dst_offset, src_offset)]: the translation of
    the list is the output so far and the translation of the rest. *)
Definition loop_inv (offs : Z * Z) (s : vstate) : Prop :=
  ∃ outs p, offs.1 = Z.of_nat (length outs) ∧ offs.1 ≤ offs.2 ≤ len ∧ exec_ok (v_exec s) ∧
    exec_frame (v_exec s0) (v_exec s) ∧ cl_agrees J p (v_exec s) ∧
    v_mem s = write_bytes validated outs (v_mem s0) ∧
    translate_cl J p0 src_bytes =
      prepend outs (translate_cl J p (drop (Z.to_nat offs.2) src_bytes)).

Definition loop_post (r : Z + Z) (s : vstate) : Prop :=
  exec_frame (v_exec s0) (v_exec s) ∧
  match r with
  | inl ret => ret = - E_INVAL ∧ translate_cl J p0 src_bytes = None ∧
      mem_frame validated (validated + len) (v_mem s0) (v_mem s)
  | inr dst => ∃ outs p, translate_cl J p0 src_bytes = Some (p, outs) ∧
      dst = Z.of_nat (length outs) ∧ dst ≤ len ∧ exec_ok (v_exec s) ∧ cl_agrees J p (v_exec s) ∧
      v_mem s = write_bytes validated outs (v_mem s0)
  end.

(** The rest of the list at [src]. *)
Lemma rest_cons src :
  0 ≤ src < len → ∃ b rest, drop (Z.to_nat src) src_bytes = b :: rest ∧
    b = temp_val (unvalidated + src) 1 ∧
    ∀ n, src + Z.of_nat n ≤ len → take n (b :: rest) = pkt_at (unvalidated + src) n.
Proof.
  intros Hs. assert (length src_bytes = Z.to_nat len) as Hl by (apply pkt_at_length; lia).
  destruct (drop (Z.to_nat src) src_bytes) as [|b rest] eqn:E.
  { apply (f_equal length) in E. rewrite length_drop, Hl in E. simpl in E. lia. }
  assert (∀ n, src + Z.of_nat n ≤ len → take n (b :: rest) = pkt_at (unvalidated + src) n) as Hn.
  { intros n Hn. rewrite <-E. unfold pkt_at. rewrite skipn_firstn_comm, take_take, drop_drop.
    f_equal; [lia|]. f_equal. lia. }
  exists b, rest. split_and!; [done| |done].
  pose proof (Hn 1%nat ltac:(lia)) as H1. unfold temp_val. unfold pkt_at in H1. rewrite <-H1.
  simpl. lia.
Qed.

Lemma loop_inv_inval outs p offs s :
  offs.1 = Z.of_nat (length outs) → offs.1 ≤ offs.2 ≤ len → exec_frame (v_exec s0) (v_exec s) →
  v_mem s = write_bytes validated outs (v_mem s0) →
  translate_cl J p0 src_bytes = prepend outs (translate_cl J p (drop (Z.to_nat offs.2) src_bytes)) →
  translate_cl J p (drop (Z.to_nat offs.2) src_bytes) = None →
  loop_post (inl (- E_INVAL)) s.
Proof.
  intros Ho Hr Hf Hm Ht Hn. split_and!; [done|done|by rewrite Ht, Hn|].
  rewrite Hm. apply mem_frame_write; lia.
Qed.

Lemma loop_inv_end outs p dst s :
  dst = Z.of_nat (length outs) → dst ≤ len → exec_frame (v_exec s0) (v_exec s) →
  exec_ok (v_exec s) → cl_agrees J p (v_exec s) → v_mem s = write_bytes validated outs (v_mem s0) →
  translate_cl J p0 src_bytes = Some (p, outs) → loop_post (inr dst) s.
Proof. intros. split; [done|]. by exists outs, p. Qed.

(** The copy of a packet, unless it is for the validator only. *)
Lemma wp_copy_packet cmd dst src ilen s (Q : unit → vstate → Prop) :
  0 ≤ src → 0 ≤ ilen → src + ilen ≤ Z.of_nat (length temp) →
  Q tt (s <| v_mem := if cmd =? VC4_PACKET_GEM_HANDLES then v_mem s
                      else write_bytes dst (pkt_at src (Z.to_nat ilen)) (v_mem s) |>) →
  wp (if negb (cmd =? VC4_PACKET_GEM_HANDLES) then
        bs ← temp_bytes temp src (Z.to_nat ilen); on_mem (write_bytes dst bs)
      else mret tt) s Q.
Proof.
  intros ??? HQ. destruct (cmd =? VC4_PACKET_GEM_HANDLES); cbn [negb].
  - apply wp_ret. by destruct s.
  - apply wp_bind, wp_temp_bytes; [lia..|]. by apply wp_modify.
Qed.

Lemma validate_packet_spec offs s :
  loop_inv offs s →
  wp (validate_packet dev temp validated unvalidated len offs) s (λ r s',
    match r with
    | inl offs' => loop_inv offs' s' ∧ (Z.to_nat (len - offs'.2) < Z.to_nat (len - offs.2))%nat
    | inr b => loop_post b s'
    end).
Proof.
  destruct offs as [dst src]. intros (outs & p & Hd & Hr & Hok & Hf & Ha & Hm & Ht).
  simpl in *. unfold validate_packet. wp_step.
  { apply negb_true_iff, Z.ltb_ge in Hc. apply wp_ret.
    apply (loop_inv_end outs p); try done; [lia|]. rewrite Ht, drop_ge; [simpl; by rewrite app_nil_r|].
    rewrite pkt_at_length; lia. }
  rewrite negb_false_iff, Z.ltb_lt in Hc.
  assert (∀ s', exec_frame (v_exec s0) (v_exec s') → v_mem s' = v_mem s →
    translate_cl J p (drop (Z.to_nat src) src_bytes) = None → loop_post (inl (- E_INVAL)) s') as Hbad.
  { intros s' Hf' Hm' Hn. apply (loop_inv_inval outs p (dst, src)); try done. by rewrite Hm'. }
  destruct (rest_cons src ltac:(lia)) as (b & rest & Erest & Hb & Htake).
  rewrite Erest in *. rewrite translate_cl_step in Hbad.
  apply wp_bind, wp_temp_u8; [lia..|]. rewrite <-Hb. wp_step.
  { apply wp_ret, Hbad; [done|done|]. apply Z.leb_le in Hc0. by rewrite packet_length_big. }
  destruct (cmd_info dev temp b) as [[ilen func]|] eqn:Hi;
    [|apply wp_ret, Hbad; [done|done|]; by rewrite (cmd_info_none _ Hi)].
  destruct (cmd_info_inv _ _ _ Hi) as (Hpl & Hil & _). rewrite Hpl in Hbad.
  set (n := Z.to_nat ilen) in *.
  assert (length (b :: rest) = Z.to_nat (len - src)) as Hrl
    by (rewrite <-Erest, length_drop, pkt_at_length; lia).
  rewrite Hrl in Hbad. rewrite !u32_id by lia. wp_step.
  { apply wp_ret, Hbad; [done|done|]. rewrite Z.ltb_lt in Hc1.
    by destruct (Nat.ltb_spec (Z.to_nat (len - src)) n); [|lia]. }
  rewrite Z.ltb_ge in Hc1. rewrite (Htake n) in Hbad by lia.
  destruct (Nat.ltb_spec (Z.to_nat (len - src)) n) as [|_]; [lia|].
  assert (b = u8_at (pkt_at (unvalidated + src) n) 0) as Hb0.
  { pose proof (temp_val_pkt (unvalidated + src) n 0 1 ltac:(lia) ltac:(lia)) as E.
    by rewrite Z.add_0_r, <-u8_at_take, <-Hb in E. }
  apply wp_bind, wp_copy_packet; [lia..|]. fold n. apply wp_bind. eapply wp_mono.
  { apply (run_validator rp J p b ilen func (validated + dst) (unvalidated + src) (v_mem s));
      try done; simpl; first [lia|exact Hb0|by rewrite (job_of_frame rp _ _ Hf)]. }
  fold n. intros ret s' [Hf' Hpost]. simpl in Hf'.
  assert (exec_frame (v_exec s0) (v_exec s')) as Hf2 by (by eapply exec_frame_trans).
  destruct (relocate J p (pkt_at (unvalidated + src) n)) as [[p' out]|] eqn:Erel.
  2:{ destruct Hpost as [-> Hmf]. apply wp_ret. split_and!; [done|done| |].
      - by rewrite Ht, translate_cl_step, Hpl, Hrl, (proj2 (Nat.ltb_ge _ _)), Htake, Erel by lia.
      - eapply mem_frame_trans; [|eapply mem_frame_weaken; [exact Hmf|lia|lia]].
        rewrite Hm. apply mem_frame_write; lia. }
  destruct Hpost as (-> & Hm' & Ha' & Hok'). cbn [negb Z.eqb].
  apply relocate_length in Erel as Hol; [|by rewrite <-Hb0, pkt_at_length by lia].
  rewrite <-Hb0, pkt_at_length in Hol by lia.
  assert ((if negb (b =? VC4_PACKET_GEM_HANDLES) then dst + ilen else dst) =
    Z.of_nat (length (outs ++ out))) as Hdst.
  { rewrite length_app, Hol. unfold n. destruct (b =? VC4_PACKET_GEM_HANDLES); cbn [negb]; lia. }
  assert (v_mem s' = write_bytes validated (outs ++ out) (v_mem s0)) as Hmem
    by (rewrite Hm', Hm, write_bytes_app; f_equal; lia).
  assert (Z.of_nat (length (outs ++ out)) ≤ src + ilen) as Hle
    by (rewrite length_app, Hol; unfold n; destruct (b =? VC4_PACKET_GEM_HANDLES); lia).
  rewrite translate_cl_step, Hpl, Hrl, (proj2 (Nat.ltb_ge _ _)), Htake, Erel in Ht by lia.
  rewrite Hdst. destruct (b =? VC4_PACKET_HALT); apply wp_ret.
  - apply (loop_inv_end (outs ++ out) p'); try done. lia.
  - split; [|simpl; lia]. exists (outs ++ out), p'. simpl. split_and!; try done.
    rewrite Ht, prepend_app, <-Erest, drop_drop. do 3 f_equal. lia.
Qed.

Lemma validate_loop_spec :
  exec_ok (v_exec s0) → cl_agrees J p0 (v_exec s0) →
  wp (loop (S (Z.to_nat len)) (validate_packet dev temp validated unvalidated len) (0, 0)) s0
     loop_post.
Proof.
  intros Hok Ha. eapply (wp_loop loop_inv (λ offs _, Z.to_nat (len - offs.2))).
  - intros offs s HI. apply (validate_packet_spec offs s HI).
  - exists [], p0. simpl. split_and!; auto using exec_frame_refl; try lia.
    by destruct (translate_cl _ _ _) as [[??]|].
  - simpl. lia.
Qed.
End loop.

Lemma validate_bin_cl_spec (rec_p validated unvalidated : Z) (p : cl_state) (s : vstate) :
  dev_ok → bytes_ok → exec_ok (v_exec s) → 0 ≤ unvalidated →
  let len := a_bin_cl_size (x_args (v_exec s)) in
  0 ≤ len ≤ 2 ^ 32 - 16 → unvalidated + len ≤ Z.of_nat (length temp) →
  let J := job_of rec_p (v_exec s) in
  cl_agrees J p (v_exec s) →
  wp (vc4_validate_bin_cl dev temp validated unvalidated) s (λ ret s',
    exec_frame (v_exec s) (v_exec s') ∧
    match translate_cl J p (pkt_at unvalidated (Z.to_nat len)) with
    | None => ret = - E_INVAL ∧ mem_frame validated (validated + len) (v_mem s) (v_mem s')
    | Some (p', out) => ret = 0 ∧ Z.of_nat (length out) ≤ len ∧
        v_mem s' = write_bytes validated out (v_mem s) ∧
        x_ct0ea (v_exec s') = u32 (x_ct0ca (v_exec s) + Z.of_nat (length out)) ∧
        cl_agrees J p' (v_exec s') ∧ exec_ok (v_exec s')
    end).
Proof.
  intros Hd Hb Hok Hu len Hl Ht J Ha. unfold vc4_validate_bin_cl, ret_code, on_exec.
  apply wp_bind, wp_get. apply wp_bind.
  eapply wp_mono; [by apply (validate_loop_spec rec_p validated unvalidated len s p)|].
  intros [ret|n] s1 (Hf & Hpost).
  - destruct Hpost as (-> & E & Hm). fold J in E. rewrite E. by apply wp_ret.
  - destruct Hpost as (outs & p' & E & -> & Hle & Hok1 & Ha1 & Hm1). fold J in E. rewrite E.
    apply wp_bind, wp_modify. apply wp_ret. simpl.
    pose proof Hf as (_&_&_&_&_&_&Hca&_). split; [done|]. rewrite <-Hca.
    split_and!; try done; [by destruct Ha1|by destruct Hok1].
Qed.


(** ** Shader records *)

(** The cursors over the records: [n] bytes are left in the kernel copy. *)
Record rec_ok (e : vc4_exec_info) : Prop := {
  rec_exec : exec_ok e;
  rec_u : 0 ≤ x_shader_rec_u e;
  rec_size : 0 ≤ x_shader_rec_size e;
  rec_temp : x_shader_rec_u e + x_shader_rec_size e ≤ Z.of_nat (length temp);
}.

(** What a record leaves unchanged. *)
Definition rec_frame (e e' : vc4_exec_info) : Prop :=
  x_args e' = x_args e ∧ x_bo e' = x_bo e ∧ x_bo_count e' = x_bo_count e ∧
  x_shader_state e' = x_shader_state e ∧ x_shader_state_size e' = x_shader_state_size e ∧
  x_shader_state_count e' = x_shader_state_count e ∧
  x_ct0ca e' = x_ct0ca e ∧ x_ct0ea e' = x_ct0ea e ∧ x_shader_rec_p e' = x_shader_rec_p e.

Lemma rec_frame_trans e1 e2 e3 : rec_frame e1 e2 → rec_frame e2 e3 → rec_frame e1 e3.
Proof. unfold rec_frame. intros ??. destruct_and!. repeat split; congruence. Qed.
Lemma job_of_rec_frame rp e e' : rec_frame e e' → job_of rp e' = job_of rp e.
Proof. intros (_&Hbo&Hc&_&Hs&_). unfold job_of. by rewrite Hbo, Hc, Hs. Qed.

(** The three handles of a record. *)
Lemma wp_relocs rp J src s (Q : option (list Z) → vstate → Prop) :
  J = job_of rp (v_exec s) → bytes_ok → exec_ok (v_exec s) → 0 ≤ src →
  src + 28 ≤ Z.of_nat (length temp) →
  (∀ h0 h1 h2 bo0 bo1 bo2,
    job_bo J (u32_at (pkt_at src 28) 0) = Some bo0 → handle_bo_map dev !! Z.to_nat h0 = Some bo0 →
    job_bo J (u32_at (pkt_at src 28) 4) = Some bo1 → handle_bo_map dev !! Z.to_nat h1 = Some bo1 →
    job_bo J (u32_at (pkt_at src 28) 8) = Some bo2 → handle_bo_map dev !! Z.to_nat h2 = Some bo2 →
    Q (Some [h0; h1; h2]) s) →
  ((∀ st, relocate_rec J st (pkt_at src 28) = None) → Q None s) →
  wp (use_relocs temp src 3) s Q.
Proof.
  intros -> Hb Hok Hs Hlen HS HN. unfold relocate_rec in HN. simpl use_relocs.
  pose proof (pkt_at_bytes src 28 Hb) as Hpb.
  apply wp_bind, (wp_pkt_u32 src 28 0); [lia..|].
  apply wp_bind, (wp_use_bo rp); [done|by apply u32_at_range|..].
  { intros E. apply wp_ret, HN. by rewrite E. }
  intros h0 bo0 E0 L0. rewrite E0 in HN. apply wp_bind, wp_bind, (wp_pkt_u32 src 28 4); [lia..|].
  apply wp_bind, (wp_use_bo rp); [done|by apply u32_at_range|..].
  { intros E. do 2 apply wp_ret. apply HN. by rewrite E. }
  intros h1 bo1 E1 L1. rewrite E1 in HN. apply wp_bind, wp_bind, (wp_pkt_u32 src 28 8); [lia..|].
  apply wp_bind, (wp_use_bo rp); [done|by apply u32_at_range|..].
  { intros E. do 3 apply wp_ret. apply HN. by rewrite E. }
  intros h2 bo2 E2 L2. apply wp_bind. do 4 apply wp_ret. by eapply HS.
Qed.

(** The guard on the vertices, as the code computes it. *)
Lemma vertices_guard stride avail mx :
  0 ≤ stride → negb (stride =? 0) && (avail / stride <? mx) = negb ((stride =? 0) || (mx * stride <=? avail)).
Proof.
  intros Hs. destruct (Z.eqb_spec stride 0) as [->|Hne]; cbn [negb andb orb]; [done|].
  apply eq_true_iff_eq. rewrite negb_true_iff, Z.ltb_lt, Z.leb_gt.
  Z.to_euclidean_division_equations; nia.
Qed.

#[local] Arguments use_relocs : simpl never.

(** The reference for the record at the cursor. *)
Definition next_rec (J : cl_job) (st : vc4_shader_state) (e : vc4_exec_info) : option (list Z) :=
  if x_shader_rec_size e <? 28 then None else relocate_rec J st (pkt_at (x_shader_rec_u e) 28).

Lemma validate_nv_shader_rec_spec rp J i st s :
  J = job_of rp (v_exec s) → bytes_ok → rec_ok (v_exec s) → 0 ≤ i →
  x_shader_state (v_exec s) !! Z.to_nat i = Some st →
  wp (validate_nv_shader_rec dev temp i) s (λ ret s',
    match next_rec J st (v_exec s) with
    | None => ret = - E_INVAL ∧
        mem_frame (x_shader_rec_v (v_exec s)) (x_shader_rec_v (v_exec s) + x_shader_rec_size (v_exec s)) (v_mem s) (v_mem s')
    | Some r => ret = 0 ∧ 28 ≤ x_shader_rec_size (v_exec s) ∧ rec_ok (v_exec s') ∧ rec_frame (v_exec s) (v_exec s') ∧
        x_shader_rec_size (v_exec s') = x_shader_rec_size (v_exec s) - 28 ∧
        x_shader_rec_u (v_exec s') = x_shader_rec_u (v_exec s) + 28 ∧
        x_shader_rec_v (v_exec s') = x_shader_rec_v (v_exec s) + 16 ∧
        v_mem s' = write_bytes (x_shader_rec_v (v_exec s)) r (v_mem s)
    end).
Proof.
  intros HJ Hb [Hok Hu Hsz Ht] Hi Hst. unfold validate_nv_shader_rec, ret_code, on_exec, on_mem, next_rec.
  change (Z.to_nat (1 + 2)) with 3%nat. change (Z.to_nat 16) with 16%nat. change ((1 + 2) * 4) with 12.
  apply wp_bind, wp_get. wp_step.
  { apply wp_ret. apply Z.ltb_lt in Hc. rewrite (proj2 (Z.ltb_lt _ _)) by lia. auto with ucore. }
  apply Z.ltb_ge in Hc. apply wp_bind, wp_modify. apply wp_bind, wp_get. simpl. wp_step.
  { apply wp_ret. apply Z.ltb_lt in Hc0. rewrite (proj2 (Z.ltb_lt _ _)) by lia. auto with ucore. }
  apply Z.ltb_ge in Hc0. rewrite (proj2 (Z.ltb_ge _ _)) by lia.
  set (pu := x_shader_rec_u (v_exec s)) in *. set (pv := x_shader_rec_v (v_exec s)) in *.
  set (src := pkt_at pu 28). pose proof (pkt_at_bytes pu 28 Hb) as Hsb. fold src in Hsb.
  assert (pkt_at (pu + 12) 16 = drop 12 src) as Hd.
  { unfold src, pkt_at. rewrite skipn_firstn_comm, drop_drop. do 2 f_equal. lia. }
  apply wp_bind, wp_temp_bytes; [lia..|]. simpl. fold (pkt_at (pu + 12) 16).
  assert (mem_frame pv (pv + x_shader_rec_size (v_exec s)) (v_mem s)
    (write_bytes pv (pkt_at (pu + 12) 16) (v_mem s))) as Hm1
    by (apply mem_frame_write; rewrite ?pkt_at_length; lia).
  do 2 apply wp_bind, wp_modify. simpl. apply wp_bind.
  apply (wp_relocs rp J); simpl; [done|done|by destruct Hok|lia|lia|..].
  2:{ intros E. apply wp_ret. fold src in E. rewrite E. by split. }
  fold src. intros h0 h1 h2 bo0 bo1 bo2 E0 L0 E1 L1 E2 L2. unfold relocate_rec. rewrite E0, E1, E2.
  apply wp_bind, (wp_pkt_u8 (pu + 12) 16 1); [lia..|].
  do 3 (apply wp_bind; first [apply (wp_pkt_u32 (pu + 12) 16 4); [lia..|]
    |apply (wp_pkt_u32 (pu + 12) 16 8); [lia..|]|apply (wp_pkt_u32 (pu + 12) 16 12); [lia..|]]).
  rewrite Hd. set (r := drop 12 src).
  assert (length r = 16%nat) as Hrl by (unfold r; rewrite <-Hd, pkt_at_length; lia).
  do 2 (apply wp_bind; eapply wp_bo_at; [done|]; apply wp_bind, wp_modify).
  apply wp_bind; eapply wp_bo_at; [done|]. apply wp_bind. eapply wp_deref; [done|]. simpl.
  rewrite vertices_guard by (apply u8_at_range; by apply Forall_drop).
  replace (pv + 4) with (pv + Z.of_nat 4) by lia. replace (pv + 8) with (pv + Z.of_nat 8) by lia.
  replace (pv + 12) with (pv + Z.of_nat 12) by lia. rewrite !put_splice by splice_len.
  destruct (_ || _); cbn [negb].
  - apply wp_bind, wp_modify. apply wp_ret. simpl. split_and!; try done; try lia.
    + destruct Hok. constructor; simpl; [by constructor|lia..].
    + by rewrite put_splice by splice_len.
  - apply wp_ret. split; [done|]. apply mem_frame_write; [lia|splice_len].
Qed.

Definition prepend_recs (out : list Z) (r : option (list Z)) : option (list Z) :=
  match r with Some rs => Some (out ++ rs) | None => None end.

Lemma prepend_recs_app o1 o2 r : prepend_recs o1 (prepend_recs o2 r) = prepend_recs (o1 ++ o2) r.
Proof. destruct r; simpl; [by rewrite app_assoc|done]. Qed.

(** The states that have a record, and the bytes of the records. *)
Definition rec_states (e : vc4_exec_info) : list vc4_shader_state :=
  take (Z.to_nat (x_shader_state_count e)) (x_shader_state e).
Definition rec_bytes (e : vc4_exec_info) : list Z :=
  pkt_at (x_shader_rec_u e) (Z.to_nat (x_shader_rec_size e)).

(** The loop over the records, at record [i]: the translation is the output so
    far and the translation of the rest. *)
Definition recs_inv (J : cl_job) (s0 : vstate) (i : Z) (s : vstate) : Prop :=
  let e0 := v_exec s0 in let e := v_exec s in
  0 ≤ i ≤ x_shader_state_count e0 ∧ rec_ok e ∧ rec_frame e0 e ∧
  x_shader_rec_size e = x_shader_rec_size e0 - 28 * i ∧
  x_shader_rec_u e = x_shader_rec_u e0 + 28 * i ∧
  x_shader_rec_v e = x_shader_rec_v e0 + 16 * i ∧
  ∃ outs, Z.of_nat (length outs) = 16 * i ∧
    v_mem s = write_bytes (x_shader_rec_v e0) outs (v_mem s0) ∧
    translate_recs J (rec_states e0) (rec_bytes e0) =
      prepend_recs outs (translate_recs J (drop (Z.to_nat i) (rec_states e0)) (rec_bytes e)).

(** The translation of the rest, one record on. *)
Lemma translate_recs_step J e0 e i st :
  rec_ok e → rec_frame e0 e → 0 ≤ i < x_shader_state_count e0 →
  x_shader_state e !! Z.to_nat i = Some st →
  translate_recs J (drop (Z.to_nat i) (rec_states e0)) (rec_bytes e) =
  match next_rec J st e with
  | None => None
  | Some r => prepend_recs r (translate_recs J (drop (Z.to_nat (i + 1)) (rec_states e0))
                                (drop 28 (rec_bytes e)))
  end.
Proof.
  intros [Hok Hu Hsz Ht] Hfr Hi Hst.
  assert (rec_states e0 !! Z.to_nat i = Some st) as Hl.
  { unfold rec_states. rewrite lookup_take_lt by lia. destruct Hfr as (_&_&_&<-&_). done. }
  rewrite (drop_S _ _ _ Hl). cbn [translate_recs]. unfold next_rec, rec_bytes.
  rewrite pkt_at_length by lia.
  destruct (Z.ltb_spec (x_shader_rec_size e) 28), (Nat.ltb_spec (Z.to_nat (x_shader_rec_size e)) 28);
    try lia; [done|].
  assert (take 28 (pkt_at (x_shader_rec_u e) (Z.to_nat (x_shader_rec_size e))) =
    pkt_at (x_shader_rec_u e) 28) as -> by (unfold pkt_at; rewrite take_take; f_equal; lia).
  destruct (relocate_rec _ _ _); [|done]. replace (Z.to_nat (i + 1)) with (S (Z.to_nat i)) by lia.
  by destruct (translate_recs _ _ _).
Qed.

Lemma next_rec_length J st e r :
  rec_ok e → next_rec J st e = Some r → length r = 16%nat.
Proof.
  intros [_ Hu _ Ht]. unfold next_rec. destruct (Z.ltb_spec (x_shader_rec_size e) 28); [done|].
  apply relocate_rec_length, pkt_at_length; lia.
Qed.

Lemma recs_inv_step rp s0 i s :
  let J := job_of rp (v_exec s0) in
  bytes_ok → recs_inv J s0 i s → i < x_shader_state_count (v_exec s0) →
  wp (validate_nv_shader_rec dev temp i) s (λ ret s',
    (ret = 0 ∧ recs_inv J s0 (i + 1) s') ∨
    (ret = - E_INVAL ∧ translate_recs J (rec_states (v_exec s0)) (rec_bytes (v_exec s0)) = None ∧
     mem_frame (x_shader_rec_v (v_exec s0))
       (x_shader_rec_v (v_exec s0) + x_shader_rec_size (v_exec s0)) (v_mem s0) (v_mem s'))).
Proof.
  intros J Hb (Hi & Hok & Hfr & Hsz & Hu & Hv & outs & Hlen & Hm & Ht) Hlt.
  pose proof (ok_count _ (rec_exec _ Hok)) as Hcnt. pose proof (ok_states _ (rec_exec _ Hok)) as Hss.
  pose proof (rec_size _ Hok) as Hs0. pose proof (rec_u _ Hok) as Hu0.
  assert (x_shader_state_count (v_exec s) = x_shader_state_count (v_exec s0)) as Hc
    by (destruct Hfr as (_&_&_&_&_&?&_); done).
  destruct (lookup_lt_is_Some_2 (x_shader_state (v_exec s)) (Z.to_nat i)) as [st Hst]; [lia|].
  rewrite (translate_recs_step J _ _ i st) in Ht by (done || lia).
  eapply wp_mono; [apply (validate_nv_shader_rec_spec rp J i st s); try done; [|lia]|].
  { symmetry. by apply job_of_rec_frame. }
  intros ret s' Hpost. destruct (next_rec J st (v_exec s)) as [r|] eqn:Hr.
  - left. destruct Hpost as (-> & H28 & Hok1 & Hfr1 & Hsz1 & Hu1 & Hv1 & Hm1). split; [done|].
    apply next_rec_length in Hr as Hrl; [|done].
    split_and!; [lia|lia|done|by eapply rec_frame_trans|lia|lia|lia|].
    exists (outs ++ r). rewrite length_app, Hrl. split_and!; [lia| |].
    + rewrite Hm1, Hm, write_bytes_app. f_equal. lia.
    + rewrite Ht, prepend_recs_app. do 2 f_equal. unfold rec_bytes, pkt_at. rewrite Hsz1, Hu1.
      rewrite skipn_firstn_comm, drop_drop. f_equal; [lia|]. f_equal. lia.
  - right. destruct Hpost as (-> & Hmf). split_and!; [done|by rewrite Ht|].
    eapply mem_frame_trans; [|eapply mem_frame_weaken; [exact Hmf|lia|lia]].
    rewrite Hm. apply mem_frame_write; lia.
Qed.

Lemma validate_shader_recs_spec (rec_p : Z) (s : vstate) :
  bytes_ok → rec_ok (v_exec s) →
  let e := v_exec s in
  wp (vc4_validate_shader_recs dev temp) s (λ ret s',
    match translate_recs (job_of rec_p e) (rec_states e) (rec_bytes e) with
    | None => ret = - E_INVAL ∧
        mem_frame (x_shader_rec_v e) (x_shader_rec_v e + x_shader_rec_size e) (v_mem s) (v_mem s')
    | Some out => ret = 0 ∧ rec_frame e (v_exec s') ∧
        Z.of_nat (length out) = 16 * x_shader_state_count e ∧
        28 * x_shader_state_count e ≤ x_shader_rec_size e ∧
        x_shader_rec_v (v_exec s') = x_shader_rec_v e + 16 * x_shader_state_count e ∧
        v_mem s' = write_bytes (x_shader_rec_v e) out (v_mem s)
    end).
Proof.
  intros Hb Hok e. unfold vc4_validate_shader_recs. apply wp_bind, wp_get.
  pose proof (ok_count _ (rec_exec _ Hok)) as Hcnt.
  eapply (wp_loop (recs_inv (job_of rec_p e) s) (λ i _, Z.to_nat (x_shader_state_count e - i))).
  - intros i s1 HI. pose proof HI as (Hi & Hok1 & Hfr & Hsz & Hu & Hv & outs & Hlen & Hm & Ht). wp_step.
    + rewrite negb_true_iff, Z.ltb_ge in Hc. apply wp_ret.
      assert (i = x_shader_state_count (v_exec s)) as -> by lia.
      pose proof (rec_size _ Hok1). fold e in Ht. rewrite Ht, drop_ge.
      2:{ unfold rec_states. rewrite length_take. unfold e. lia. }
      simpl. rewrite app_nil_r. split_and!; try done. unfold e. lia.
    + rewrite negb_false_iff, Z.ltb_lt in Hc. apply wp_bind.
      eapply wp_mono; [by apply (recs_inv_step rec_p s)|].
      intros ret s' [[-> HI']|(-> & E & Hf)]; simpl; apply wp_ret.
      * split; [done|]. unfold e in *. lia.
      * fold e in E. by rewrite E.
  - split_and!; auto with ucore; try lia; [by repeat split|]. exists []. split_and!; [done|done|].
    simpl. by destruct (translate_recs _ _ _).
  - unfold e. lia.
Qed.


End spec.
