(* ===== verification/Vc4Render.v ===== *)
(** * Render command lists

    [vc4/vc4_render_cl.c]: the kernel writes the render command list itself,
    from the tile rectangle and the surfaces the submission names.  The size of
    the list is computed before it is allocated; an [assert] at the end checks
    that exactly that many bytes were emitted. *)

From S2P Require Import Prelude DList Mem Vc4Cl Vc4Bo Vc4Validate.

(** ** Job state: the device and the exec structure *)

Record jstate (FW : Type) : Type := mk_job { j_dev : vc4_state FW; j_exec : vc4_exec_info }.
Arguments mk_job {FW} j_dev j_exec.
Arguments j_dev {FW} j.
Arguments j_exec {FW} j.
#[export] Instance eta_jstate FW : Eta (jstate FW) := λ r, mk_job (j_dev r) (j_exec r).

(** [struct vc4_rcl_setup]; the cursor [rcl] is the state of the emitters,
    [next_offset] is never used. *)
Record vc4_rcl_setup : Type := mk_setup {
  color_read : option Z;
  color_write : option Z;
  zs_read : option Z;
  zs_write : option Z;
}.

(** The BOs behind the pointers of the setup. *)
Record rcl_bos : Type := mk_rcl_bos {
  cr_bo : option vc4_bo; cw_bo : option vc4_bo; zr_bo : option vc4_bo; zw_bo : option vc4_bo }.

(** ** Emitting a tile *)

Definition vc4_store_before_load (st : cl_st) : cl_st :=
  let st := cl_u8 VC4_PACKET_STORE_TILE_BUFFER_GENERAL st in
  let st := cl_u16 (Z.lor (Z.lor (Z.lor
              (Z.shiftl VC4_LOADSTORE_TILE_BUFFER_NONE VC4_LOADSTORE_TILE_BUFFER_BUFFER_SHIFT)
              VC4_STORE_TILE_BUFFER_DISABLE_COLOR_CLEAR)
              VC4_STORE_TILE_BUFFER_DISABLE_ZS_CLEAR)
              VC4_STORE_TILE_BUFFER_DISABLE_VG_MASK_CLEAR) st in
  cl_u32 0 st.

Definition vc4_tile_coordinates (x y : Z) (st : cl_st) : cl_st :=
  let st := cl_u8 VC4_PACKET_TILE_COORDINATES st in
  let st := cl_u8 x st in
  cl_u8 y st.

Definition has_bin (e : vc4_exec_info) : bool := negb (a_bin_cl_size (x_args e) =? 0).

(** [p != NULL] *)
Definition nonnull {A} (p : option A) : bool := match p with Some _ => true | None => false end.

(** A load or store packet with the surface's bits and address. *)
Definition cl_loadstore (packet bits addr : Z) (st : cl_st) : cl_st :=
  let st := cl_u8 packet st in
  let st := cl_u16 bits st in
  cl_u32 addr st.

(** The body of [emit_tile], statement by statement: the loads, the binner's
    list and the stores. *)
Definition emit_color_read (e : vc4_exec_info) (setup : rcl_bos) (st : cl_st) : cl_st :=
  match cr_bo setup with
  | Some bo => cl_loadstore VC4_PACKET_LOAD_TILE_BUFFER_GENERAL
                 (surf_bits (a_color_read (x_args e)))
                 (bo_paddr bo + surf_offset (a_color_read (x_args e))) st
  | None => st
  end.

Definition emit_zs_read (e : vc4_exec_info) (setup : rcl_bos) (x y : Z) (st : cl_st) : cl_st :=
  match zr_bo setup with
  | Some bo =>
      let st := if nonnull (cr_bo setup)
                then vc4_store_before_load (vc4_tile_coordinates x y st) else st in
      cl_loadstore VC4_PACKET_LOAD_TILE_BUFFER_GENERAL
        (surf_bits (a_zs_read (x_args e)))
        (bo_paddr bo + surf_offset (a_zs_read (x_args e))) st
  | None => st
  end.

Definition emit_bin (e : vc4_exec_info) (x y : Z) (first : bool) (st : cl_st) : cl_st :=
  let st := if first && has_bin e then cl_u8 VC4_PACKET_WAIT_ON_SEMAPHORE st else st in
  if has_bin e then
    cl_u32 (x_tile_alloc_offset e + (y * x_bin_tiles_x e + x) * 32)
      (cl_u8 VC4_PACKET_BRANCH_TO_SUB_LIST st)
  else st.

Definition emit_zs_write (e : vc4_exec_info) (setup : rcl_bos) (last : bool) (st : cl_st) : cl_st :=
  match zw_bo setup with
  | Some bo =>
      let last_tile_write := negb (nonnull (cw_bo setup)) in
      cl_loadstore VC4_PACKET_STORE_TILE_BUFFER_GENERAL
        (Z.lor (surf_bits (a_zs_write (x_args e)))
           (if last_tile_write then 0 else VC4_STORE_TILE_BUFFER_DISABLE_COLOR_CLEAR))
        (Z.lor (u32 (bo_paddr bo + surf_offset (a_zs_write (x_args e))))
           (if last && last_tile_write then VC4_LOADSTORE_TILE_BUFFER_EOF else 0)) st
  | None => st
  end.

Definition emit_color_write (setup : rcl_bos) (x y : Z) (last : bool) (st : cl_st) : cl_st :=
  match cw_bo setup with
  | Some _ =>
      let st := if nonnull (zw_bo setup) then vc4_tile_coordinates x y st else st in
      if last then cl_u8 VC4_PACKET_STORE_MS_TILE_BUFFER_AND_EOF st
      else cl_u8 VC4_PACKET_STORE_MS_TILE_BUFFER st
  | None => st
  end.

Definition emit_tile (e : vc4_exec_info) (setup : rcl_bos) (x y : Z) (first last : bool)
    (st : cl_st) : cl_st :=
  let st := emit_color_read e setup st in
  let st := emit_zs_read e setup x y st in
  let st := vc4_tile_coordinates x y st in
  let st := emit_bin e x y first st in
  let st := emit_zs_write e setup last st in
  emit_color_write setup x y last st.

(** The two nested loops over the tile rectangle; the counters are [uint8_t].
    256 rounds are enough for every bound below 255 (see [x_loop_spec]). *)
Definition x_loop (e : vc4_exec_info) (setup : rcl_bos) (y : Z) : M cl_st unit :=
  let args := x_args e in
  loop 257 (λ x,
    if negb (x <=? a_max_x_tile args) then mret (inr tt)
    else
      let first := (x =? a_min_x_tile args) && (y =? a_min_y_tile args) in
      let last := (x =? a_max_x_tile args) && (y =? a_max_y_tile args) in
      _ ← modify (emit_tile e setup x y first last);
      mret (inl (u8 (x + 1)))) (a_min_x_tile args).

Definition y_loop (e : vc4_exec_info) (setup : rcl_bos) : M cl_st unit :=
  let args := x_args e in
  loop 257 (λ y,
    if negb (y <=? a_max_y_tile args) then mret (inr tt)
    else
      _ ← x_loop e setup y;
      mret (inl (u8 (y + 1)))) (a_min_y_tile args).

Definition use_clear_color (e : vc4_exec_info) : bool :=
  negb (Z.land (a_flags (x_args e)) VC4_SUBMIT_CL_USE_CLEAR_COLOR =? 0).

Definition emit_clear (e : vc4_exec_info) (st : cl_st) : cl_st :=
  let args := x_args e in
  if use_clear_color e then
    let st := cl_u8 VC4_PACKET_CLEAR_COLORS st in
    let st := cl_u32 (a_clear_color0 args) st in
    let st := cl_u32 (a_clear_color1 args) st in
    let st := cl_u32 (a_clear_z args) st in
    let st := cl_u8 (a_clear_s args) st in
    let st := vc4_tile_coordinates 0 0 st in
    let st := cl_u8 VC4_PACKET_STORE_TILE_BUFFER_GENERAL st in
    let st := cl_u16 VC4_LOADSTORE_TILE_BUFFER_NONE st in
    cl_u32 0 st
  else st.

Definition emit_config (e : vc4_exec_info) (setup : rcl_bos) (st : cl_st) : cl_st :=
  let args := x_args e in
  let st := cl_u8 VC4_PACKET_TILE_RENDERING_MODE_CONFIG st in
  let st := cl_u32 (match cw_bo setup with
                    | Some bo => bo_paddr bo + surf_offset (a_color_write args)
                    | None => 0
                    end) st in
  let st := cl_u16 (a_width args) st in
  let st := cl_u16 (a_height args) st in
  cl_u16 (surf_bits (a_color_write args)) st.

(** ** The size computation of [vc4_create_rcl_bo] *)

Definition loop_body_size (e : vc4_exec_info) (setup : vc4_rcl_setup) : Z :=
  let sz := VC4_PACKET_TILE_COORDINATES_SIZE in
  let sz := if nonnull (color_read setup)
            then u32 (sz + VC4_PACKET_LOAD_TILE_BUFFER_GENERAL_SIZE) else sz in
  let sz := if nonnull (zs_read setup) then
              let sz := if nonnull (color_read setup) then
                          u32 (u32 (sz + VC4_PACKET_TILE_COORDINATES_SIZE)
                               + VC4_PACKET_STORE_TILE_BUFFER_GENERAL_SIZE)
                        else sz in
              u32 (sz + VC4_PACKET_LOAD_TILE_BUFFER_GENERAL_SIZE)
            else sz in
  let sz := if has_bin e then u32 (sz + VC4_PACKET_BRANCH_TO_SUB_LIST_SIZE) else sz in
  let sz := if nonnull (zs_write setup)
            then u32 (sz + VC4_PACKET_STORE_TILE_BUFFER_GENERAL_SIZE) else sz in
  let sz := if nonnull (color_write setup)
            then u32 (sz + VC4_PACKET_STORE_MS_TILE_BUFFER_SIZE) else sz in
  u32 (sz + VC4_PACKET_TILE_COORDINATES_SIZE *
         (Z.b2z (nonnull (color_write setup)) + Z.b2z (nonnull (zs_write setup)) - 1)).

Definition rcl_size (e : vc4_exec_info) (setup : vc4_rcl_setup) : Z :=
  let args := x_args e in
  let xtiles := u8 (a_max_x_tile args - a_min_x_tile args + 1) in
  let ytiles := u8 (a_max_y_tile args - a_min_y_tile args + 1) in
  let sz := VC4_PACKET_TILE_RENDERING_MODE_CONFIG_SIZE in
  let sz := if use_clear_color e then
              u32 (sz + (VC4_PACKET_CLEAR_COLORS_SIZE + VC4_PACKET_TILE_COORDINATES_SIZE
                         + VC4_PACKET_STORE_TILE_BUFFER_GENERAL_SIZE))
            else sz in
  let sz := if has_bin e then u32 (sz + VC4_PACKET_WAIT_ON_SEMAPHORE_SIZE) else sz in
  u32 (sz + u32 (xtiles * ytiles * loop_body_size e setup)).

Section render.
Context {FW : Type} `{Firmware FW}.

Definition on_dev {A} (m : M (vc4_state FW) A) : M (jstate FW) A := λ j,
  match m (j_dev j) with
  | Ok (a, d) => Ok (a, j <| j_dev := d |>)
  | Err er => Err er
  end.

(** Run code that acts on the exec structure and GPU memory. *)
Definition on_vstate {A} (m : M vstate A) : M (jstate FW) A := λ j,
  match m (mk_vstate (j_exec j) (gmem (j_dev j))) with
  | Ok (a, v) => Ok (a, mk_job (j_dev j <| gmem := v_mem v |>) (v_exec v))
  | Err er => Err er
  end.

(** [p->...] for a BO pointer that may be [NULL]. *)
Definition resolve (p : option Z) : M (jstate FW) (option vc4_bo) :=
  match p with
  | None => mret None
  | Some h => bo ← on_dev (get_bo h); mret (Some bo)
  end.

Definition vc4_create_rcl_bo (setup : vc4_rcl_setup) : M (jstate FW) Z :=
  j ← get;
  let e := j_exec j in
  let size := rcl_size e setup in
  r ← on_dev (vc4_bo_create size VC4_BO_TYPE_RCL);
  match r with
  | None => mret (- E_NOMEM)
  | Some h =>
      rcl_bo ← on_dev (get_bo h);
      let rcl := vc4_init_cl (mk_cl 0 0 0 0) in
      let rcl := rcl <| cl_base := bo_vaddr rcl_bo |> <| cl_next := bo_vaddr rcl_bo |>
                     <| cl_size := size |> in
      _ ← on_dev (on_links (list_add_before unref_list (unref_head h)));
      cr ← resolve (color_read setup); cw ← resolve (color_write setup);
      zr ← resolve (zs_read setup); zw ← resolve (zs_write setup);
      let bos := mk_rcl_bos cr cw zr zw in
      j1 ← get;
      match y_loop e bos (emit_config e bos (emit_clear e (rcl, gmem (j_dev j1)))) with
      | Err er => fail er
      | Ok (_, (rcl', m')) =>
          _ ← put (j1 <| j_dev := j_dev j1 <| gmem := m' |> |>);
          _ ← assert (cl_offset rcl' =? size);
          _ ← modify (λ j, j <| j_exec := j_exec j
                <| x_ct1ca := bo_paddr rcl_bo |>
                <| x_ct1ea := u32 (bo_paddr rcl_bo + cl_offset rcl') |> |>);
          mret 0
      end
  end.

(** The surface checks: the result and the BO pointer that is stored. *)
Definition vc4_rcl_surface_setup (surf : drm_vc4_submit_rcl_surface) :
    M (jstate FW) (Z * option Z) :=
  let tiling := u8 (VC4_GET_FIELD (surf_bits surf) VC4_LOADSTORE_TILE_BUFFER_TILING_MASK
                      VC4_LOADSTORE_TILE_BUFFER_TILING_SHIFT) in
  let buffer := u8 (VC4_GET_FIELD (surf_bits surf) VC4_LOADSTORE_TILE_BUFFER_BUFFER_MASK
                      VC4_LOADSTORE_TILE_BUFFER_BUFFER_SHIFT) in
  let format := u8 (VC4_GET_FIELD (surf_bits surf) VC4_LOADSTORE_TILE_BUFFER_FORMAT_MASK
                      VC4_LOADSTORE_TILE_BUFFER_FORMAT_SHIFT) in
  if surf_hindex surf =? 2 ^ 32 - 1 then mret (0, None)
  else
    obj ← on_vstate (vc4_use_bo (surf_hindex surf));
    match obj with
    | None => mret (- E_INVAL, None)
    | Some h =>
        if negb (Z.land (surf_bits surf)
             (Z.lnot (Z.lor (Z.lor VC4_LOADSTORE_TILE_BUFFER_TILING_MASK
                                   VC4_LOADSTORE_TILE_BUFFER_BUFFER_MASK)
                            VC4_LOADSTORE_TILE_BUFFER_FORMAT_MASK)) =? 0)
        then mret (- E_INVAL, obj)
        else if VC4_TILING_FORMAT_LT <? tiling then mret (- E_INVAL, obj)
        else if
          (if buffer =? VC4_LOADSTORE_TILE_BUFFER_ZS then format =? 0
           else if buffer =? VC4_LOADSTORE_TILE_BUFFER_COLOR then
             (format =? VC4_LOADSTORE_TILE_BUFFER_BGR565)
             || (format =? VC4_LOADSTORE_TILE_BUFFER_BGR565_DITHER)
             || (format =? VC4_LOADSTORE_TILE_BUFFER_RGBA8888)
           else false)
        then if negb (Z.land (surf_offset surf) 15 =? 0) then mret (- E_INVAL, obj)
             else mret (0, obj)
        else mret (- E_INVAL, obj)
    end.

Definition vc4_rcl_render_config_surface_setup (surf : drm_vc4_submit_rcl_surface) :
    M (jstate FW) (Z * option Z) :=
  let tiling := u8 (VC4_GET_FIELD (surf_bits surf) VC4_RENDER_CONFIG_MEMORY_FORMAT_MASK
                      VC4_RENDER_CONFIG_MEMORY_FORMAT_SHIFT) in
  let format := u8 (VC4_GET_FIELD (surf_bits surf) VC4_RENDER_CONFIG_FORMAT_MASK
                      VC4_RENDER_CONFIG_FORMAT_SHIFT) in
  if negb (Z.land (surf_bits surf)
       (Z.lnot (Z.lor VC4_RENDER_CONFIG_MEMORY_FORMAT_MASK
                      VC4_RENDER_CONFIG_FORMAT_MASK)) =? 0)
  then mret (- E_INVAL, None)
  else if surf_hindex surf =? 2 ^ 32 - 1 then mret (0, None)
  else
    obj ← on_vstate (vc4_use_bo (surf_hindex surf));
    match obj with
    | None => mret (- E_INVAL, None)
    | Some h =>
        if VC4_TILING_FORMAT_LT <? tiling then mret (- E_INVAL, obj)
        else if (format =? VC4_RENDER_CONFIG_FORMAT_BGR565_DITHERED)
             || (format =? VC4_RENDER_CONFIG_FORMAT_BGR565)
             || (format =? VC4_RENDER_CONFIG_FORMAT_RGBA8888)
        then mret (0, obj)
        else mret (- E_INVAL, obj)
    end.

Definition vc4_get_rcl : M (jstate FW) Z :=
  j ← get;
  let e := j_exec j in
  let args := x_args e in
  if (a_max_x_tile args <? a_min_x_tile args) || (a_max_y_tile args <? a_min_y_tile args)
  then mret (- E_INVAL)
  else if has_bin e && ((x_bin_tiles_x e <? a_max_x_tile args)
                        || (x_bin_tiles_y e <? a_max_y_tile args))
  then mret (- E_INVAL)
  else
    '(ret, cr) ← vc4_rcl_surface_setup (a_color_read args);
    if negb (ret =? 0) then mret ret
    else
      '(ret, cw) ← vc4_rcl_render_config_surface_setup (a_color_write args);
      if negb (ret =? 0) then mret ret
      else
        '(ret, zr) ← vc4_rcl_surface_setup (a_zs_read args);
        if negb (ret =? 0) then mret ret
        else
          '(ret, zw) ← vc4_rcl_surface_setup (a_zs_write args);
          if negb (ret =? 0) then mret ret
          else if negb (nonnull cw) && negb (nonnull zw) then mret (- E_INVAL)
          else vc4_create_rcl_bo (mk_setup cr cw zr zw).

End render.
