(* ===== verification/Vc4RenderSpec.v ===== *)
(** * What the render command list contains

    The abstract view of a render command list is the list of its packets;
    the emitters of [Vc4Render] write exactly the encoding of that list, whose
    length is the size the driver allocates. *)

From stdpp Require Import list_numbers.
From S2P Require Import Prelude DList Mem Vc4Cl Vc4Bo Vc4BoSpec Vc4Validate.
From S2P Require Import Vc4ValidateSpec Vc4Render.

(** ** Packets of a job *)

Definition loadstore (load : bool) (bits addr : Z) : rcl_packet :=
  if load then PLoadGeneral (u16 bits) (u32 addr) else PStoreGeneral (u16 bits) (u32 addr).

Definition no_store : rcl_packet := PStoreGeneral 57344 0.

Definition opt_pkts {A} (p : option A) (f : A → list rcl_packet) : list rcl_packet :=
  match p with Some a => f a | None => [] end.

Definition tile_load (e : vc4_exec_info) (b : rcl_bos) (x y : Z) : list rcl_packet :=
  let args := x_args e in
  opt_pkts (cr_bo b) (λ bo,
    [loadstore true (surf_bits (a_color_read args))
       (bo_paddr bo + surf_offset (a_color_read args))]) ++
  opt_pkts (zr_bo b) (λ bo,
    (if nonnull (cr_bo b) then [PTileCoordinates (u8 x) (u8 y); no_store] else []) ++
    [loadstore true (surf_bits (a_zs_read args))
       (bo_paddr bo + surf_offset (a_zs_read args))]).

Definition tile_bin (e : vc4_exec_info) (x y : Z) (first : bool) : list rcl_packet :=
  (if first && has_bin e then [PWaitSemaphore] else []) ++
  (if has_bin e then
     [PBranchToSubList (u32 (x_tile_alloc_offset e + (y * x_bin_tiles_x e + x) * 32))]
   else []).

Definition tile_store (e : vc4_exec_info) (b : rcl_bos) (x y : Z) (last : bool) : list rcl_packet :=
  let args := x_args e in
  let last_tile_write := negb (nonnull (cw_bo b)) in
  opt_pkts (zw_bo b) (λ bo,
    [loadstore false
       (Z.lor (surf_bits (a_zs_write args))
          (if last_tile_write then 0 else VC4_STORE_TILE_BUFFER_DISABLE_COLOR_CLEAR))
       (Z.lor (u32 (bo_paddr bo + surf_offset (a_zs_write args)))
          (if last && last_tile_write then VC4_LOADSTORE_TILE_BUFFER_EOF else 0))]) ++
  opt_pkts (cw_bo b) (λ _,
    (if nonnull (zw_bo b) then [PTileCoordinates (u8 x) (u8 y)] else []) ++
    [if last then PStoreMsAndEof else PStoreMs]).

Definition tile_packets (e : vc4_exec_info) (b : rcl_bos) (x y : Z) (first last : bool) :
    list rcl_packet :=
  tile_load e b x y ++ [PTileCoordinates (u8 x) (u8 y)] ++ tile_bin e x y first ++
  tile_store e b x y last.

Definition is_first (e : vc4_exec_info) (x y : Z) : bool :=
  (x =? a_min_x_tile (x_args e)) && (y =? a_min_y_tile (x_args e)).
Definition is_last (e : vc4_exec_info) (x y : Z) : bool :=
  (x =? a_max_x_tile (x_args e)) && (y =? a_max_y_tile (x_args e)).

(** The columns and rows of the tile rectangle, in the order of the loops. *)
Definition tile_xs (e : vc4_exec_info) : list Z :=
  seqZ (a_min_x_tile (x_args e)) (a_max_x_tile (x_args e) - a_min_x_tile (x_args e) + 1).
Definition tile_ys (e : vc4_exec_info) : list Z :=
  seqZ (a_min_y_tile (x_args e)) (a_max_y_tile (x_args e) - a_min_y_tile (x_args e) + 1).

Definition row_packets (e : vc4_exec_info) (b : rcl_bos) (y : Z) : list rcl_packet :=
  flat_map (λ x, tile_packets e b x y (is_first e x y) (is_last e x y)) (tile_xs e).

Definition clear_packets (e : vc4_exec_info) : list rcl_packet :=
  let args := x_args e in
  if use_clear_color e then
    [PClearColors (u32 (a_clear_color0 args)) (u32 (a_clear_color1 args))
       (u32 (a_clear_z args)) (u8 (a_clear_s args));
     PTileCoordinates 0 0; PStoreGeneral 0 0]
  else [].

Definition config_packet (e : vc4_exec_info) (b : rcl_bos) : rcl_packet :=
  let args := x_args e in
  PRenderingConfig
    (u32 match cw_bo b with Some bo => bo_paddr bo + surf_offset (a_color_write args) | None => 0 end)
    (u16 (a_width args)) (u16 (a_height args)) (u16 (surf_bits (a_color_write args))).

Definition rcl_packets (e : vc4_exec_info) (b : rcl_bos) : list rcl_packet :=
  clear_packets e ++ [config_packet e b] ++ flat_map (row_packets e b) (tile_ys e).

(** ** The emitters write these packets *)

Lemma emits_ext f g bs : emits f bs → (∀ st, g st = f st) → emits g bs.
Proof. intros Hf He cl m. by rewrite He. Qed.

(** [emits_pk f ps]: [f] emits the encoding of [ps]. *)
Definition emits_pk (f : cl_st → cl_st) (ps : list rcl_packet) : Prop := emits f (encode ps).

Lemma emits_pk_id : emits_pk (λ st, st) [].
Proof. apply emits_id. Qed.
Lemma emits_pk_comp f g ps qs :
  emits_pk f ps → emits_pk g qs → emits_pk (λ st, g (f st)) (ps ++ qs).
Proof. unfold emits_pk. rewrite encode_app. apply emits_comp. Qed.
Lemma emits_pk_if (b : bool) f g ps qs :
  emits_pk f ps → emits_pk g qs →
  emits_pk (λ st, if b then f st else g st) (if b then ps else qs).
Proof. by destruct b. Qed.
Lemma emits_pk_opt {A} (p : option A) (f : A → cl_st → cl_st) ps :
  (∀ a, emits_pk (f a) (ps a)) →
  emits_pk (λ st, match p with Some a => f a st | None => st end) (opt_pkts p ps).
Proof. intros. destruct p; simpl; [auto|apply emits_pk_id]. Qed.

Lemma emits_tile_coordinates x y :
  emits_pk (vc4_tile_coordinates x y) [PTileCoordinates (u8 x) (u8 y)].
Proof.
  exact (emits_comp _ _ _ _ (emits_comp _ _ _ _ (emits_u8 VC4_PACKET_TILE_COORDINATES)
           (emits_u8 x)) (emits_u8 y)).
Qed.

Lemma emits_loadstore (load : bool) bits addr :
  emits_pk (cl_loadstore (if load then VC4_PACKET_LOAD_TILE_BUFFER_GENERAL
                          else VC4_PACKET_STORE_TILE_BUFFER_GENERAL) bits addr)
    [loadstore load bits addr].
Proof.
  pose proof (emits_comp _ _ _ _ (emits_comp _ _ _ _
    (emits_u8 (if load then VC4_PACKET_LOAD_TILE_BUFFER_GENERAL
               else VC4_PACKET_STORE_TILE_BUFFER_GENERAL)) (emits_u16 bits)) (emits_u32 addr)) as H.
  destruct load; exact H.
Qed.

Lemma emits_store_before_load : emits_pk vc4_store_before_load [no_store].
Proof. apply (emits_loadstore false 57344 0). Qed.

Lemma emits_color_read e b :
  emits_pk (emit_color_read e b) (opt_pkts (cr_bo b) (λ bo,
    [loadstore true (surf_bits (a_color_read (x_args e)))
       (bo_paddr bo + surf_offset (a_color_read (x_args e)))])).
Proof.
  unfold emit_color_read. destruct (cr_bo b); [apply (emits_loadstore true)|apply emits_pk_id].
Qed.

Lemma emits_zs_read e b x y :
  emits_pk (emit_zs_read e b x y) (opt_pkts (zr_bo b) (λ bo,
    (if nonnull (cr_bo b) then [PTileCoordinates (u8 x) (u8 y); no_store] else []) ++
    [loadstore true (surf_bits (a_zs_read (x_args e)))
       (bo_paddr bo + surf_offset (a_zs_read (x_args e)))])).
Proof.
  unfold emit_zs_read. destruct (zr_bo b) as [bo|]; simpl; [|apply emits_pk_id].
  apply (emits_pk_comp _ _ _ _ (emits_pk_if _ _ _ _ _
    (emits_pk_comp _ _ _ _ (emits_tile_coordinates x y) emits_store_before_load) emits_pk_id)
    (emits_loadstore true _ _)).
Qed.

Lemma emits_bin e x y first : emits_pk (emit_bin e x y first) (tile_bin e x y first).
Proof.
  unfold emit_bin, tile_bin. destruct (has_bin e), first; simpl;
    first [ apply emits_pk_id
          | exact (emits_comp _ _ _ _ (emits_comp _ _ _ _ (emits_u8 VC4_PACKET_WAIT_ON_SEMAPHORE)
              (emits_u8 VC4_PACKET_BRANCH_TO_SUB_LIST)) (emits_u32 _))
          | exact (emits_comp _ _ _ _ (emits_u8 VC4_PACKET_BRANCH_TO_SUB_LIST) (emits_u32 _)) ].
Qed.

Lemma emits_store e b x y last :
  emits_pk (λ st, emit_color_write b x y last (emit_zs_write e b last st)) (tile_store e b x y last).
Proof.
  apply emits_pk_comp.
  - unfold emit_zs_write. destruct (zw_bo b); [apply (emits_loadstore false)|apply emits_pk_id].
  - unfold emit_color_write. destruct (cw_bo b); simpl; [|apply emits_pk_id].
    assert (emits_pk (λ st, if last then cl_u8 VC4_PACKET_STORE_MS_TILE_BUFFER_AND_EOF st
      else cl_u8 VC4_PACKET_STORE_MS_TILE_BUFFER st) [if last then PStoreMsAndEof else PStoreMs])
      as Hst.
    { destruct last; [exact (emits_u8 VC4_PACKET_STORE_MS_TILE_BUFFER_AND_EOF)
                     |exact (emits_u8 VC4_PACKET_STORE_MS_TILE_BUFFER)]. }
    apply (emits_pk_comp _ _ _ _ (emits_pk_if _ _ _ _ _ (emits_tile_coordinates x y) emits_pk_id) Hst).
Qed.

Lemma emits_tile e b x y first last :
  emits_pk (emit_tile e b x y first last) (tile_packets e b x y first last).
Proof.
  unfold tile_packets, tile_load. rewrite !app_assoc.
  apply (emits_pk_comp _ _ _ _ (emits_pk_comp _ _ _ _ (emits_pk_comp _ _ _ _ (emits_pk_comp _ _ _ _
    (emits_color_read e b) (emits_zs_read e b x y)) (emits_tile_coordinates x y))
    (emits_bin e x y first)) (emits_store e b x y last)).
Qed.

Lemma emits_clear e : emits_pk (emit_clear e) (clear_packets e).
Proof.
  unfold emit_clear, clear_packets. destruct (use_clear_color e); [|apply emits_pk_id].
  pose proof (emits_comp _ _ _ _ (emits_comp _ _ _ _ (emits_comp _ _ _ _ (emits_comp _ _ _ _
    (emits_u8 VC4_PACKET_CLEAR_COLORS) (emits_u32 (a_clear_color0 (x_args e))))
    (emits_u32 (a_clear_color1 (x_args e)))) (emits_u32 (a_clear_z (x_args e))))
    (emits_u8 (a_clear_s (x_args e)))) as Hc.
  exact (emits_comp _ _ _ _ (emits_comp _ _ _ _ Hc (emits_tile_coordinates 0 0))
           (emits_loadstore false VC4_LOADSTORE_TILE_BUFFER_NONE 0)).
Qed.

Lemma emits_config e b : emits_pk (emit_config e b) [config_packet e b].
Proof.
  exact (emits_comp _ _ _ _ (emits_comp _ _ _ _ (emits_comp _ _ _ _ (emits_comp _ _ _ _
    (emits_u8 VC4_PACKET_TILE_RENDERING_MODE_CONFIG) (emits_u32 _)) (emits_u16 _)) (emits_u16 _))
    (emits_u16 _)).
Qed.

(** ** The loops over [uint8_t] counters *)

Section u8_loop.
Context {S : Type}.
Variables (max : Z) (m : Z → M S unit) (f : Z → S → S).

Definition u8_body (x : Z) : M S (Z + unit) :=
  if negb (x <=? max) then mret (inr tt) else _ ← m x; mret (inl (u8 (x + 1))).

Lemma u8_body_step x s :
  (∀ x s, m x s = Ok (tt, f x s)) → x ≤ max → u8_body x s = Ok (inl (u8 (x + 1)), f x s).
Proof.
  intros Hm Hx. unfold u8_body. rewrite (proj2 (Z.leb_le x max)) by lia. simpl.
  by erewrite bind_ok.
Qed.

Lemma u8_loop_spec fuel lo s :
  (∀ x s, m x s = Ok (tt, f x s)) → 0 ≤ lo → max < 255 →
  (Z.to_nat (max - lo + 1) < fuel)%nat →
  loop fuel u8_body lo s = Ok (tt, foldl (λ s x, f x s) s (seqZ lo (max - lo + 1))).
Proof.
  intros Hm Hlo Hmax. revert lo s Hlo. induction fuel as [|fuel IH]; intros lo s Hlo Hf; [lia|].
  rewrite loop_step. destruct (Z.leb_spec lo max) as [Hle|Hgt].
  - rewrite u8_body_step by done. rewrite u8_id by lia. rewrite IH by lia.
    rewrite (seqZ_cons lo) by lia. simpl. do 4 f_equal; lia.
  - unfold u8_body. rewrite (proj2 (Z.leb_gt lo max)) by lia. rewrite seqZ_nil by lia. done.
Qed.

(** With the bound 255 the counter wraps and the loop never ends. *)
Lemma u8_loop_diverges fuel lo s :
  (∀ x s, m x s = Ok (tt, f x s)) → 0 ≤ lo < 256 → max = 255 →
  loop fuel u8_body lo s = Err OutOfFuel.
Proof.
  intros Hm Hlo Hmax. revert lo s Hlo. induction fuel as [|fuel IH]; intros lo s Hlo; [done|].
  rewrite loop_step, u8_body_step by (done || lia). apply IH, u8_range.
Qed.
End u8_loop.

(** The tile bounds a submission must respect: an ordered rectangle whose
    counters do not wrap. *)
Record tiles_ok (e : vc4_exec_info) : Prop := {
  tiles_x : 0 ≤ a_min_x_tile (x_args e) ≤ a_max_x_tile (x_args e);
  tiles_y : 0 ≤ a_min_y_tile (x_args e) ≤ a_max_y_tile (x_args e);
  tiles_x_max : a_max_x_tile (x_args e) < 255;
  tiles_y_max : a_max_y_tile (x_args e) < 255;
}.

Definition emit_row (e : vc4_exec_info) (b : rcl_bos) (y : Z) (st : cl_st) : cl_st :=
  foldl (λ st x, emit_tile e b x y (is_first e x y) (is_last e x y) st) st (tile_xs e).

Lemma x_loop_spec e b y st : tiles_ok e → x_loop e b y st = Ok (tt, emit_row e b y st).
Proof.
  intros []. apply (u8_loop_spec (a_max_x_tile (x_args e))
    (λ x, modify (emit_tile e b x y (is_first e x y) (is_last e x y)))
    (λ x, emit_tile e b x y (is_first e x y) (is_last e x y))); [done|lia..].
Qed.

Lemma y_loop_spec e b st :
  tiles_ok e → y_loop e b st = Ok (tt, foldl (λ st y, emit_row e b y st) st (tile_ys e)).
Proof.
  intros Ht. pose proof Ht as []. apply (u8_loop_spec (a_max_y_tile (x_args e))
    (x_loop e b) (emit_row e b)); [|lia..]. intros. by apply x_loop_spec.
Qed.

Lemma emits_foldl (g : Z → cl_st → cl_st) ps l :
  (∀ x, emits_pk (g x) (ps x)) → emits_pk (λ st, foldl (λ st x, g x st) st l) (flat_map ps l).
Proof.
  intros Hg. induction l as [|x l IH]; simpl; [apply emits_pk_id|].
  apply (emits_pk_comp _ _ _ _ (Hg x) IH).
Qed.

Lemma emits_row e b y : emits_pk (emit_row e b y) (row_packets e b y).
Proof. apply emits_foldl. intros x. apply emits_tile. Qed.

(** The body of the list that [vc4_create_rcl_bo] emits. *)
Lemma emits_rcl e b cl m :
  tiles_ok e →
  y_loop e b (emit_config e b (emit_clear e (cl, m))) =
  Ok (tt, (cl <| cl_next := cl_next cl + Z.of_nat (length (encode (rcl_packets e b))) |>,
           write_bytes (cl_next cl) (encode (rcl_packets e b)) m)).
Proof.
  intros Ht. rewrite y_loop_spec by done. do 2 f_equal.
  apply (emits_pk_comp _ _ _ _ (emits_clear e) (emits_pk_comp _ _ _ _ (emits_config e b)
    (emits_foldl _ _ (tile_ys e) (emits_row e b)))).
Qed.

(** ** The size of the list *)

Lemma encode_length_flat_map {A} (f : A → list rcl_packet) l :
  length (encode (flat_map f l)) = sum_list_with (λ a, length (encode (f a))) l.
Proof. induction l as [|a l IH]; simpl; [done|]. rewrite encode_app, length_app, IH. done. Qed.

Definition setup_matches (s : vc4_rcl_setup) (b : rcl_bos) : Prop :=
  nonnull (color_read s) = nonnull (cr_bo b) ∧ nonnull (color_write s) = nonnull (cw_bo b) ∧
  nonnull (zs_read s) = nonnull (zr_bo b) ∧ nonnull (zs_write s) = nonnull (zw_bo b).

Lemma tile_length e s b x y first last :
  setup_matches s b → nonnull (color_write s) || nonnull (zs_write s) = true →
  Z.of_nat (length (encode (tile_packets e b x y first last))) =
  loop_body_size e s + (if first && has_bin e then 1 else 0).
Proof.
  intros (Hcr & Hcw & Hzr & Hzw) Hw. unfold loop_body_size. rewrite Hcr, Hcw, Hzr, Hzw in *.
  unfold tile_packets, tile_load, tile_bin, tile_store.
  destruct b as [[?|] [?|] [?|] [?|]], first, last, (has_bin e); simpl in *; try done.
Qed.

Lemma sum_all (f : Z → nat) B l :
  (∀ x, x ∈ l → Z.of_nat (f x) = B) → Z.of_nat (sum_list_with f l) = Z.of_nat (length l) * B.
Proof.
  induction l as [|x l IH]; intros Hf; simpl; [lia|].
  rewrite Nat2Z.inj_add, (Hf x), IH by set_solver. lia.
Qed.

(** A sum over a range in which the first summand is larger by one. *)
Lemma sum_first (f : Z → nat) B c lo n :
  0 < n → (∀ x, Z.of_nat (f x) = B + (if (x =? lo) && c then 1 else 0)) →
  Z.of_nat (sum_list_with f (seqZ lo n)) = n * B + (if c then 1 else 0).
Proof.
  intros Hn Hf. rewrite seqZ_cons by lia. simpl. rewrite Nat2Z.inj_add, (Hf lo), Z.eqb_refl.
  rewrite (sum_all _ B).
  - rewrite length_seqZ. rewrite Z2Nat.id by lia. destruct c; simpl; lia.
  - intros x Hx. apply elem_of_seqZ in Hx. rewrite Hf, (proj2 (Z.eqb_neq x lo)) by lia. simpl. lia.
Qed.

Lemma loop_body_size_range e s :
  nonnull (color_write s) || nonnull (zs_write s) = true → 0 ≤ loop_body_size e s ≤ 64.
Proof.
  intros Hw. unfold loop_body_size.
  destruct s as [[?|] [?|] [?|] [?|]], (has_bin e); simpl in *; try done; vm_compute; split; discriminate.
Qed.

Lemma mul3_bound a b c :
  0 ≤ a ≤ 255 → 0 ≤ b ≤ 255 → 0 ≤ c ≤ 64 → 0 ≤ a * b * c ≤ 255 * 255 * 64.
Proof.
  intros. assert (0 ≤ a * b ≤ 255 * 255) by nia. nia.
Qed.

Lemma rcl_length e s b :
  tiles_ok e → setup_matches s b → nonnull (color_write s) || nonnull (zs_write s) = true →
  Z.of_nat (length (encode (rcl_packets e b))) = rcl_size e s.
Proof.
  intros [] Hs Hw. pose proof (loop_body_size_range e s Hw) as HB.
  set (xt := a_max_x_tile (x_args e) - a_min_x_tile (x_args e) + 1).
  set (yt := a_max_y_tile (x_args e) - a_min_y_tile (x_args e) + 1).
  assert (Z.of_nat (length (encode (flat_map (row_packets e b) (tile_ys e)))) =
          yt * (xt * loop_body_size e s) + (if has_bin e then 1 else 0)) as Hrows.
  { rewrite encode_length_flat_map. apply sum_first; [lia|]. intros y.
    unfold row_packets. rewrite encode_length_flat_map. apply sum_first; [lia|]. intros x.
    rewrite (tile_length e s) by done. unfold is_first. by rewrite andb_assoc. }
  assert (Z.of_nat (length (encode (clear_packets e))) = if use_clear_color e then 24 else 0) as Hc.
  { unfold clear_packets. by destruct (use_clear_color e). }
  assert (Z.of_nat (length (encode [config_packet e b])) = 11) as Hg by reflexivity.
  unfold rcl_packets. rewrite !encode_app, !length_app, !Nat2Z.inj_add, Hrows, Hc, Hg.
  unfold rcl_size. fold xt yt. rewrite !(u8_id xt), !(u8_id yt) by lia.
  pose proof (mul3_bound xt yt (loop_body_size e s) ltac:(lia) ltac:(lia) HB).
  rewrite (u32_id (xt * yt * _)) by lia.
  match goal with |- _ = u32 (?a + _) =>
    assert (a = 11 + (if use_clear_color e then 24 else 0) + (if has_bin e then 1 else 0)) as ->
      by (by destruct (use_clear_color e), (has_bin e))
  end.
  destruct (use_clear_color e), (has_bin e); rewrite u32_id by lia; lia.
Qed.

(** ** Well-formed packets *)

Lemma loadstore_ok l bits addr : packet_ok (loadstore l bits addr).
Proof. destruct l; simpl; auto with ucore. Qed.
Lemma coords_ok x y : packet_ok (PTileCoordinates (u8 x) (u8 y)).
Proof. simpl. auto with ucore. Qed.
#[local] Hint Resolve loadstore_ok coords_ok : ucore.

Lemma opt_pkts_ok {A} (p : option A) f :
  (∀ a, Forall packet_ok (f a)) → Forall packet_ok (opt_pkts p f).
Proof. destruct p; simpl; auto. Qed.

Ltac pkts_ok :=
  repeat first [ apply opt_pkts_ok; intros ? | apply Forall_app_2 | apply Forall_cons_2
               | apply Forall_nil_2 | apply loadstore_ok | apply coords_ok
               | match goal with |- Forall _ (if ?b then _ else _) => destruct b end
               | match goal with |- packet_ok (if ?b then _ else _) => destruct b end ];
  try done; try (simpl; auto with ucore; lia).

Lemma tile_ok e b x y first last : Forall packet_ok (tile_packets e b x y first last).
Proof.
  unfold tile_packets, tile_load, tile_bin, tile_store. pkts_ok.
Qed.

Lemma rcl_ok e b : Forall packet_ok (rcl_packets e b).
Proof.
  unfold rcl_packets. rewrite !Forall_app. split_and!.
  - unfold clear_packets. destruct (use_clear_color e); [|done].
    rewrite !Forall_cons. split_and!; simpl; auto with ucore; lia.
  - rewrite Forall_singleton. simpl. auto with ucore.
  - rewrite Forall_flat_map. apply Forall_true. intros y.
    unfold row_packets. rewrite Forall_flat_map. apply Forall_true. intros x. apply tile_ok.
Qed.

(** ** The end of the frame

    With a colour buffer, the only packet that ends the frame is the last. *)

Definition is_eof (p : rcl_packet) : bool :=
  match p with PStoreMsAndEof => true | _ => false end.

Definition eofs (ps : list rcl_packet) : nat := length (List.filter is_eof ps).

Lemma eofs_app ps qs : eofs (ps ++ qs) = (eofs ps + eofs qs)%nat.
Proof. unfold eofs. by rewrite List.filter_app, length_app. Qed.

Lemma tile_eofs e b x y first last :
  nonnull (cw_bo b) = true → eofs (tile_packets e b x y first last) = if last then 1%nat else 0%nat.
Proof.
  intros Hcw. unfold tile_packets, tile_load, tile_bin, tile_store.
  destruct b as [[?|] [?|] [?|] [?|]]; try done; by destruct first, last, (has_bin e).
Qed.

(** Both loops end with the tile on which [is_last] holds, and it holds on no
    other. *)
Lemma eofs_range (ps : Z → list rcl_packet) lo n c :
  0 < n → (∀ x, eofs (ps x) = if (x =? lo + n - 1) && c then 1%nat else 0%nat) →
  eofs (flat_map ps (seqZ lo n)) = if c then 1%nat else 0%nat.
Proof.
  intros Hn Hps. replace n with ((n - 1) + 1) by lia. rewrite seqZ_app by lia.
  rewrite flat_map_app, eofs_app, (seqZ_cons _ 1), (seqZ_nil _ (Z.pred 1)) by lia.
  simpl. rewrite app_nil_r, Hps, (proj2 (Z.eqb_eq _ _)) by lia.
  assert (eofs (flat_map ps (seqZ lo (n - 1))) = 0%nat) as ->.
  { assert (∀ x, x ∈ seqZ lo (n - 1) → eofs (ps x) = 0%nat) as H.
    { intros x Hx. apply elem_of_seqZ in Hx. by rewrite Hps, (proj2 (Z.eqb_neq _ _)) by lia. }
    induction (seqZ lo (n - 1)) as [|x l IH]; [done|]. simpl.
    rewrite eofs_app, H, IH by set_solver. done. }
  done.
Qed.

Lemma rcl_eofs e b : tiles_ok e → nonnull (cw_bo b) = true → eofs (rcl_packets e b) = 1%nat.
Proof.
  intros [] Hcw. unfold rcl_packets, tile_ys. rewrite !eofs_app.
  assert (eofs (clear_packets e) = 0%nat) as ->
    by (unfold clear_packets; by destruct (use_clear_color e)).
  rewrite (eofs_range (row_packets e b) _ _ true); [done|lia|]. intros y.
  replace (a_min_y_tile (x_args e) + _ - 1) with (a_max_y_tile (x_args e)) by lia.
  rewrite andb_true_r. apply eofs_range; [lia|]. intros x. rewrite tile_eofs by done.
  by replace (a_min_x_tile (x_args e) + _ - 1) with (a_max_x_tile (x_args e)) by lia.
Qed.

(** ** The job *)

Section job.
Context {FW : Type} `{FirmwareLaws FW}.
Implicit Types j : jstate FW.

Lemma wp_on_dev {A} (m : M (vc4_state FW) A) j Q :
  wp m (j_dev j) (λ a d, Q a (j <| j_dev := d |>)) → wp (on_dev m) j Q.
Proof. intros (a & d & E & HQ). exists a. eexists. split; [|exact HQ]. unfold on_dev. by rewrite E. Qed.

Lemma wp_on_vstate {A} (m : M vstate A) j Q :
  wp m (mk_vstate (j_exec j) (gmem (j_dev j)))
    (λ a v, Q a (mk_job (j_dev j <| gmem := v_mem v |>) (v_exec v))) →
  wp (on_vstate m) j Q.
Proof. intros (a & v & E & HQ). exists a. eexists. split; [|exact HQ]. unfold on_vstate. by rewrite E. Qed.

(** The BO table of the exec structure. *)
Definition bos_ok (e : vc4_exec_info) : Prop :=
  0 ≤ x_bo_count e ≤ Z.of_nat (length (x_bo e)) ∧
  Forall (λ h, 0 ≤ h < VC4_DEV_BO_NENTRY) (x_bo e).

(** [hs] are the BOs of the job that will be released at its end: they are
    linked on the release list in this order, allocated, and their slots hold
    their own handles. *)
Record release_ok (hs : list Z) (d : vc4_state FW) : Prop := {
  rel_map : map_ok d;
  rel_links : rep (links d) {[unref_list := unref_head <$> hs]};
  rel_nodup : NoDup hs;
  rel_live : list_to_set hs ⊆ live d;
  rel_slots h : h ∈ hs → 0 < h < VC4_DEV_BO_NENTRY ∧
    ∃ bo, handle_bo_map d !! Z.to_nat h = Some bo ∧ bo_handle bo = h ∧ bo_type bo ≠ VC4_BO_TYPE_FB;
}.

Definition job_ok (hs : list Z) j : Prop := release_ok hs (j_dev j) ∧ bos_ok (j_exec j).

(** What a job leaves alone: the register log, the device's own BOs and the
    slots of the BOs it did not create. *)
Definition dev_frame (hs : list Z) (d d' : vc4_state FW) : Prop :=
  v3d_log d' = v3d_log d ∧ bin_bo d' = bin_bo d ∧ fb_bo d' = fb_bo d ∧
  bin_alloc_size d' = bin_alloc_size d ∧ umem d' = umem d ∧
  ∀ i, (∀ h, h ∈ hs → i ≠ Z.to_nat h) → handle_bo_map d' !! i = handle_bo_map d !! i.

Lemma slot_valid (d : vc4_state FW) h : map_ok d → 0 ≤ h < VC4_DEV_BO_NENTRY → is_Some (handle_bo_map d !! Z.to_nat h).
Proof. intros Hm Hh. apply lookup_lt_is_Some_2. rewrite Hm. lia. Qed.

Lemma job_eta j : mk_job (j_dev j <| gmem := gmem (j_dev j) |>) (j_exec j) = j.
Proof. by destruct j as [[] e]. Qed.

Lemma wp_job_use_bo i j (Q : option Z → jstate FW → Prop) :
  bos_ok (j_exec j) → 0 ≤ i → Q None j →
  (∀ h, x_bo (j_exec j) !! Z.to_nat i = Some h → 0 ≤ h < VC4_DEV_BO_NENTRY → Q (Some h) j) →
  wp (on_vstate (vc4_use_bo i)) j Q.
Proof.
  intros [Hc Hf] Hi HN HS. apply wp_on_vstate. unfold vc4_use_bo. apply wp_bind, wp_get.
  cbn [v_exec]. wp_step; [apply wp_ret; cbn [v_mem v_exec]; by rewrite job_eta|].
  apply Z.leb_gt in Hc0.
  destruct (lookup_lt_is_Some_2 (x_bo (j_exec j)) (Z.to_nat i)) as [h Hh]; [lia|].
  apply wp_bind. eapply wp_deref; [done|]. apply wp_ret. cbn [v_mem v_exec]. rewrite job_eta.
  apply HS; [done|]. rewrite Forall_lookup in Hf. eauto.
Qed.

(** A surface that was accepted: absent, or a BO of the submission at an
    aligned offset. *)
Definition surface_ok (bos : list Z) (obj : option Z) : Prop :=
  match obj with None => True | Some h => h ∈ bos ∧ 0 ≤ h < VC4_DEV_BO_NENTRY end.

(** The BO a surface of the submission names: index [0xffffffff] for none. *)
Definition surface_of (e : vc4_exec_info) (surf : drm_vc4_submit_rcl_surface) : option Z :=
  if surf_hindex surf =? 2 ^ 32 - 1 then None else x_bo e !! Z.to_nat (surf_hindex surf).

Definition surface_post surf j (r : Z * option Z) j' : Prop :=
  j' = j ∧ (r.1 = 0 ∨ r.1 = - E_INVAL) ∧
  (r.1 = 0 → surface_ok (x_bo (j_exec j)) r.2 ∧ r.2 = surface_of (j_exec j) surf).

(** Past the look-up only the result code is decided. *)
Lemma surface_found surf h j (ret : Z) :
  surf_hindex surf ≠ 2 ^ 32 - 1 → x_bo (j_exec j) !! Z.to_nat (surf_hindex surf) = Some h →
  0 ≤ h < VC4_DEV_BO_NENTRY → ret = 0 ∨ ret = - E_INVAL → surface_post surf j (ret, Some h) j.
Proof.
  intros Hn Hh Hr Hret. split_and!; [done|done|]. intros _. unfold surface_of.
  rewrite (proj2 (Z.eqb_neq _ _)), Hh by done. split; [|done]. split; [|done].
  by eapply list_elem_of_lookup_2.
Qed.

Lemma surface_none surf j :
  surf_hindex surf = 2 ^ 32 - 1 → surface_post surf j (0, None) j.
Proof.
  intros E. split_and!; [done|by left|]. intros _. unfold surface_of. by rewrite E.
Qed.

Lemma surface_inval surf j obj : surface_post surf j (- E_INVAL, obj) j.
Proof. split_and!; [done|by right|done]. Qed.

Lemma surface_setup_spec surf j :
  bos_ok (j_exec j) → 0 ≤ surf_hindex surf →
  wp (vc4_rcl_surface_setup surf) j (surface_post surf j).
Proof.
  intros Hb Hh. unfold vc4_rcl_surface_setup.
  wp_step; [apply wp_ret, surface_none; by apply Z.eqb_eq|]. apply Z.eqb_neq in Hc.
  apply wp_bind, wp_job_use_bo; [done|done|apply wp_ret, surface_inval|].
  intros h Hin Hr. repeat wp_step; apply surface_inval || (apply surface_found; auto).
Qed.

Lemma render_config_spec surf j :
  bos_ok (j_exec j) → 0 ≤ surf_hindex surf →
  wp (vc4_rcl_render_config_surface_setup surf) j (surface_post surf j).
Proof.
  intros Hb Hh. unfold vc4_rcl_render_config_surface_setup.
  wp_step; [apply wp_ret, surface_inval|].
  wp_step; [apply wp_ret, surface_none; by apply Z.eqb_eq|]. apply Z.eqb_neq in Hc0.
  apply wp_bind, wp_job_use_bo; [done|done|apply wp_ret, surface_inval|].
  intros h Hin Hr. repeat wp_step; apply surface_inval || (apply surface_found; auto).
Qed.

Lemma wp_resolve obj j (Q : option vc4_bo → jstate FW → Prop) :
  map_ok (j_dev j) → surface_ok (x_bo (j_exec j)) obj →
  (∀ b, nonnull b = nonnull obj →
    b = (obj ≫= λ h, handle_bo_map (j_dev j) !! Z.to_nat h) → Q b j) →
  wp (resolve obj) j Q.
Proof.
  intros Hm Hs HQ. destruct obj as [h|]; simpl; [|by apply wp_ret, HQ].
  destruct Hs as [_ Hr]. destruct (slot_valid _ _ Hm Hr) as [bo Hbo].
  apply wp_bind, wp_on_dev. eapply wp_deref; [done|]. apply wp_ret.
  replace (j <| j_dev := j_dev j |>) with j by (by destruct j). apply HQ; [done|].
  simpl. by rewrite Hbo.
Qed.
(** A new BO is initialised and appended to the release list. *)
Lemma link_new_bo l hs h :
  rep l {[unref_list := unref_head <$> hs]} → h ∉ hs →
  ∃ l', list_add_before unref_list (unref_head h)
          (<[unref_head h := mk_entry (unref_head h) (unref_head h)]> l) = Ok (tt, l') ∧
        rep l' {[unref_list := unref_head <$> (hs ++ [h])]}.
Proof.
  intros Hrep Hh. set (L := {[unref_list := unref_head <$> hs]} : gmap vlink (list vlink)).
  assert (unlisted L (unref_head h)) as Hun.
  { intros k m Hk. apply lookup_singleton_Some in Hk as [<- <-].
    rewrite not_elem_of_cons, list_elem_of_fmap. split; [done|]. by intros (? & [= ->] & ?). }
  destruct (rep_init l L _ Hrep (unlisted_available _ _ Hun)) as (l1 & [= <-] & Hrep1).
  destruct (list_add_before_spec _ _ unref_list (unref_head <$> hs) (unref_head h) Hrep1)
    as (l2 & E2 & Hrep2).
  - rewrite lookup_insert_ne by done. apply lookup_singleton_eq.
  - split; [|right; apply lookup_insert_eq].
    intros k m Hk. apply lookup_delete_Some in Hk as [Hne Hk].
    rewrite lookup_insert_ne in Hk by done. by apply Hun.
  - done.
  - exists l2. split; [done|]. rewrite fmap_app. simpl.
    rewrite delete_insert_eq in Hrep2.
    rewrite delete_id in Hrep2 by (by apply lookup_singleton_ne).
    unfold L in Hrep2. by rewrite insert_singleton_eq in Hrep2.
Qed.

(** The state after a new BO was created and linked. *)
Lemma release_ok_new hs h bus size type f d l' :
  release_ok hs d → 0 < h < VC4_DEV_BO_NENTRY → h ∉ live d →
  fw_live f = {[h]} ∪ live d → type ≠ VC4_BO_TYPE_FB →
  rep l' {[unref_list := unref_head <$> (hs ++ [h])]} →
  release_ok (hs ++ [h]) (with_bo h bus size type f d <| links := l' |>).
Proof.
  intros [Hm Hl Hn Hv Hs] Hh Hfresh Hlive Hty Hl'.
  assert (h ∉ hs) as Hnew. { intros ?. apply Hfresh, Hv. by apply elem_of_list_to_set. }
  constructor; simpl; [unfold map_ok; simpl; by rewrite length_insert|done| | |].
  - apply NoDup_app. split_and!; [done|set_solver|apply NoDup_singleton].
  - unfold live. simpl. rewrite Hlive, list_to_set_app. set_solver.
  - intros h' Hin. apply elem_of_app in Hin as [Hin|Hin%list_elem_of_singleton].
    + destruct (Hs h' Hin) as (Hr & bo & Hbo & ? & ?). split; [done|]. exists bo.
      rewrite list_lookup_insert_ne; [done|]. assert (h ≠ h') by congruence. lia.
    + subst h'. split; [done|]. eexists.
      rewrite list_lookup_insert_eq; [done|]. rewrite Hm. lia.
Qed.

(** ** Building the list *)

Definition bos_of (d : vc4_state FW) (s : vc4_rcl_setup) : rcl_bos :=
  let look := λ o : option Z, o ≫= λ h, handle_bo_map d !! Z.to_nat h in
  mk_rcl_bos (look (color_read s)) (look (color_write s)) (look (zs_read s)) (look (zs_write s)).

Record setup_ok (bos : list Z) (s : vc4_rcl_setup) : Prop := {
  so_cr : surface_ok bos (color_read s);
  so_cw : surface_ok bos (color_write s);
  so_zr : surface_ok bos (zs_read s);
  so_zw : surface_ok bos (zs_write s);
  so_write : nonnull (color_write s) || nonnull (zs_write s) = true;
}.

(** What a render command list has to be: [n] bytes at [bus], inside a fresh
    BO, that decode to the packets of the job. *)
Definition rcl_built (hs : list Z) (s : vc4_rcl_setup) j j' : Prop :=
  ∃ h bus b, let e := j_exec j in
    h ∉ live (j_dev j) ∧ live (j_dev j') = {[h]} ∪ live (j_dev j) ∧ job_ok (hs ++ [h]) j' ∧
    dev_frame [h] (j_dev j) (j_dev j') ∧
    handle_bo_map (j_dev j') !! Z.to_nat h =
      Some (mk_bo (ROUNDUP (rcl_size e s) PGSIZE) h bus bus VC4_BO_TYPE_RCL) ∧
    rcl_size e s ≤ ROUNDUP (rcl_size e s) PGSIZE ∧
    j_exec j' = e <| x_ct1ca := bus |> <| x_ct1ea := u32 (bus + rcl_size e s) |> ∧
    mem_frame bus (bus + rcl_size e s) (gmem (j_dev j)) (gmem (j_dev j')) ∧
    apart (j_dev j) bus (ROUNDUP (rcl_size e s) PGSIZE) ∧
    setup_matches s b ∧ b = bos_of (j_dev j') s ∧
    ∃ bs, read_bytes (gmem (j_dev j')) bus (Z.to_nat (rcl_size e s)) = Some bs ∧
          decode (length bs) bs = Some (rcl_packets e b).

Lemma encode_length_ge ps : (length ps ≤ length (encode ps))%nat.
Proof.
  induction ps as [|p ps IH]; [done|].
  change (encode (p :: ps)) with (encode_packet p ++ encode ps). rewrite length_app.
  pose proof (encode_packet_nonempty p). simpl. lia.
Qed.

Lemma rcl_size_range e s :
  tiles_ok e → nonnull (color_write s) || nonnull (zs_write s) = true →
  0 ≤ rcl_size e s ≤ 36 + 255 * 255 * 64.
Proof.
  intros [] Hw. pose proof (loop_body_size_range e s Hw) as HB. unfold rcl_size.
  rewrite !u8_id by lia.
  set (P := (a_max_x_tile (x_args e) - a_min_x_tile (x_args e) + 1) *
            (a_max_y_tile (x_args e) - a_min_y_tile (x_args e) + 1) * loop_body_size e s).
  assert (0 ≤ P ≤ 255 * 255 * 64) by (apply mul3_bound; lia).
  rewrite (u32_id P) by lia.
  destruct (use_clear_color e), (has_bin e);
    match goal with |- context [u32 (?a + P)] => let v := eval vm_compute in a in
      change (u32 (a + P)) with (u32 (v + P)) end; rewrite u32_id by lia; lia.
Qed.

Lemma vc4_create_rcl_bo_spec hs s j :
  job_ok hs j → tiles_ok (j_exec j) → setup_ok (x_bo (j_exec j)) s →
  wp (vc4_create_rcl_bo s) j (λ ret j',
    (ret = - E_NOMEM ∧ job_ok hs j' ∧ j_exec j' = j_exec j ∧ dev_frame [] (j_dev j) (j_dev j') ∧
     live (j_dev j') = live (j_dev j) ∧ gmem (j_dev j') = gmem (j_dev j)) ∨
    (ret = 0 ∧ rcl_built hs s j j')).
Proof.
  intros [Hj Hb] Ht [Hcr Hcw Hzr Hzw Hw]. pose proof Hj as [Hm Hl Hnd Hv Hslots].
  pose proof (rcl_size_range _ _ Ht Hw) as Hsz.
  destruct (ROUNDUP_page (rcl_size (j_exec j) s)) as [Hru _]; [lia|unfold PGSIZE; lia|].
  unfold vc4_create_rcl_bo. apply wp_bind, wp_get. apply wp_bind, wp_on_dev.
  eapply wp_mono; [by apply vc4_bo_create_spec|]. intros [h|] d1.
  2:{ intros (f' & -> & Hlive & _). apply wp_ret. left. split_and!; try done.
      split; [|done]. constructor; try done. unfold live. simpl. by rewrite Hlive. }
  intros (bus & f' & Hh & Hbus & Hfresh & Hlive & _ & -> & _ & _ & _ & Hapart).
  assert (h ∉ hs) as Hnew. { intros ?. apply Hfresh, Hv. by apply elem_of_list_to_set. }
  set (bo := mk_bo (ROUNDUP (rcl_size (j_exec j) s) PGSIZE) h bus bus VC4_BO_TYPE_RCL).
  assert (<[Z.to_nat h := bo]> (handle_bo_map (j_dev j)) !! Z.to_nat h = Some bo) as Hbo
    by (apply list_lookup_insert_eq; rewrite Hm; lia).
  apply wp_bind, wp_on_dev. eapply wp_deref; [exact Hbo|]. simpl.
  destruct (link_new_bo _ _ _ Hl Hnew) as (l' & El & Hl').
  apply wp_bind, wp_on_dev. eapply wp_ok; [unfold on_links; simpl; rewrite El; reflexivity|]. simpl.
  match goal with |- wp _ ?x _ => set (j1 := x) end.
  assert (map_ok (j_dev j1)) as Hm1 by (unfold map_ok; simpl; by rewrite length_insert).
  apply wp_bind, wp_resolve; [done|done|]. intros cr Ncr Ecr.
  apply wp_bind, wp_resolve; [done|done|]. intros cw Ncw Ecw.
  apply wp_bind, wp_resolve; [done|done|]. intros zr Nzr Ezr.
  apply wp_bind, wp_resolve; [done|done|]. intros zw Nzw Ezw.
  apply wp_bind, wp_get. rewrite emits_rcl by done. simpl cl_next.
  set (b := mk_rcl_bos cr cw zr zw). set (bs := encode (rcl_packets (j_exec j) b)).
  assert (setup_matches s b) as Hmatch by done.
  pose proof (rcl_length _ _ _ Ht Hmatch Hw) as Hlen. fold bs in Hlen.
  apply wp_bind, wp_put. apply wp_bind, wp_assert.
  { unfold cl_offset. simpl. rewrite Hlen, u32_id by lia. apply Z.eqb_eq. lia. }
  apply wp_bind, wp_modify. apply wp_ret. right. split; [done|]. simpl.
  exists h, bus, b. simpl. split_and!; try done; try lia.
  - split; [|done]. pose proof (release_ok_new _ _ bus (ROUNDUP (rcl_size (j_exec j) s) PGSIZE)
      VC4_BO_TYPE_RCL _ _ _ Hj Hh Hfresh Hlive ltac:(done) Hl') as []. by constructor.
  - repeat split. intros i Hi. simpl. apply list_lookup_insert_ne. apply not_eq_sym, Hi. set_solver.
  - unfold cl_offset. simpl. rewrite Hlen.
    replace (bus + rcl_size (j_exec j) s - bus) with (rcl_size (j_exec j) s) by lia.
    by rewrite (u32_id (rcl_size _ _)) by lia.
  - apply mem_frame_write; lia.
  - unfold bos_of, b. simpl. by rewrite Ecr, Ecw, Ezr, Ezw.
  - exists bs. rewrite <-Hlen, Nat2Z.id. split; [apply read_write_bytes|].
    apply decode_encode; [apply rcl_ok|apply encode_length_ge].
Qed.

(** The fields of the submission that [vc4_get_rcl] reads, at their widths;
    the tile bounds are below 255 (see [x_loop_diverges] for 255). *)
Record rcl_args_ok (a : drm_vc4_submit_cl) : Prop := {
  ra_min_x : 0 ≤ a_min_x_tile a;
  ra_min_y : 0 ≤ a_min_y_tile a;
  ra_max_x : a_max_x_tile a < 255;
  ra_max_y : a_max_y_tile a < 255;
  ra_cr : 0 ≤ surf_hindex (a_color_read a);
  ra_cw : 0 ≤ surf_hindex (a_color_write a);
  ra_zr : 0 ≤ surf_hindex (a_zs_read a);
  ra_zw : 0 ≤ surf_hindex (a_zs_write a);
}.

Definition rcl_failed (hs : list Z) (ret : Z) j j' : Prop :=
  (ret = - E_INVAL ∨ ret = - E_NOMEM) ∧ job_ok hs j' ∧ j_exec j' = j_exec j ∧
  dev_frame [] (j_dev j) (j_dev j') ∧
  live (j_dev j') = live (j_dev j) ∧ gmem (j_dev j') = gmem (j_dev j).

Lemma rcl_failed_inval hs j : job_ok hs j → rcl_failed hs (- E_INVAL) j j.
Proof. intros. split_and!; auto; by repeat split. Qed.

(** One surface after another. *)
Lemma wp_surface surf (m : M (jstate FW) (Z * option Z)) (k : option Z → M (jstate FW) Z) hs j Q :
  job_ok hs j → wp m j (surface_post surf j) →
  (∀ ret, rcl_failed hs ret j j → Q ret j) →
  (∀ obj, surface_ok (x_bo (j_exec j)) obj → obj = surface_of (j_exec j) surf → wp (k obj) j Q) →
  wp ('(ret, obj) ← m; if negb (ret =? 0) then mret ret else k obj) j Q.
Proof.
  intros Hj Hm Hbad Hk. apply wp_bind. eapply wp_mono; [exact Hm|].
  intros [ret obj] j' (-> & Hret & Hobj). simpl in *. destruct Hret as [->| ->]; simpl.
  - by apply Hk; apply Hobj.
  - apply wp_ret, Hbad. by apply rcl_failed_inval.
Qed.

(** The surfaces of the submission. *)
Definition setup_of (e : vc4_exec_info) : vc4_rcl_setup :=
  let a := x_args e in
  mk_setup (surface_of e (a_color_read a)) (surface_of e (a_color_write a))
    (surface_of e (a_zs_read a)) (surface_of e (a_zs_write a)).

Lemma vc4_get_rcl_ok hs j :
  job_ok hs j → rcl_args_ok (x_args (j_exec j)) →
  wp vc4_get_rcl j (λ ret j',
    rcl_failed hs ret j j' ∨
    (ret = 0 ∧ tiles_ok (j_exec j) ∧
     setup_ok (x_bo (j_exec j)) (setup_of (j_exec j)) ∧ rcl_built hs (setup_of (j_exec j)) j j')).
Proof.
  intros Hj Ha. pose proof Hj as [_ Hb]. destruct Ha. unfold vc4_get_rcl.
  apply wp_bind, wp_get. wp_step; [apply wp_ret; left; by apply rcl_failed_inval|].
  split_bools. rewrite Z.ltb_ge in *. wp_step; [apply wp_ret; left; by apply rcl_failed_inval|].
  eapply wp_surface; [done|by apply surface_setup_spec|by left|]. intros cr Hcr Ecr.
  eapply wp_surface; [done|by apply render_config_spec|by left|]. intros cw Hcw Ecw.
  eapply wp_surface; [done|by apply surface_setup_spec|by left|]. intros zr Hzr Ezr.
  eapply wp_surface; [done|by apply surface_setup_spec|by left|]. intros zw Hzw Ezw.
  wp_step; [apply wp_ret; left; by apply rcl_failed_inval|].
  assert (tiles_ok (j_exec j)) as Ht by (constructor; lia).
  assert (setup_ok (x_bo (j_exec j)) (mk_setup cr cw zr zw)) as Hs.
  { constructor; try done. simpl. by destruct (nonnull cw), (nonnull zw). }
  assert (mk_setup cr cw zr zw = setup_of (j_exec j)) as <- by (unfold setup_of; congruence).
  eapply wp_mono; [by apply vc4_create_rcl_bo_spec|]. intros ret j' [(->&?&?&?&?&?)|[-> ?]].
  - left. split_and!; auto.
  - right. eauto.
Qed.

(** C6.  The render command list.  For every submission with tile bounds below
    255, [vc4_get_rcl] returns [-E_INVAL] or [-E_NOMEM] and leaves memory and
    the job as they were, or it returns 0 and has built the list in a fresh
    BO that is on the release list and overlaps no other locked block: the size
    computed in advance is the number
    of bytes emitted (the [assert] never fires), every write stays inside the
    BO, [ct1ca] and [ct1ea] delimit the list, and a reader of the packet format
    finds there exactly the packets of the job for the surfaces of the
    submission, tile by tile. *)
Theorem vc4_get_rcl_correct (hs : list Z) (j : jstate FW) :
  job_ok hs j → rcl_args_ok (x_args (j_exec j)) →
  wp vc4_get_rcl j (λ ret j',
    rcl_failed hs ret j j' ∨
    (ret = 0 ∧ tiles_ok (j_exec j) ∧
     setup_ok (x_bo (j_exec j)) (setup_of (j_exec j)) ∧ rcl_built hs (setup_of (j_exec j)) j j')).
Proof. apply vc4_get_rcl_ok. Qed.

End job.

(** A render list with a colour buffer ends the frame once: over the
    whole tile rectangle exactly one packet carries the end-of-frame marker. *)
Theorem rcl_single_end_of_frame (e : vc4_exec_info) (b : rcl_bos) :
  tiles_ok e → nonnull (cw_bo b) = true → eofs (rcl_packets e b) = 1%nat.
Proof. apply rcl_eofs. Qed.

(** A tile bound of 255, which [vc4_get_rcl] accepts, makes the [uint8_t]
    counter wrap: the row loop does not end, whatever the number of rounds. *)
Theorem x_loop_diverges (e : vc4_exec_info) (b : rcl_bos) (y : Z) (st : cl_st) (fuel : nat) :
  a_max_x_tile (x_args e) = 255 → 0 ≤ a_min_x_tile (x_args e) < 256 →
  loop fuel (u8_body (a_max_x_tile (x_args e)) (λ x,
    modify (emit_tile e b x y (is_first e x y) (is_last e x y)))) (a_min_x_tile (x_args e)) st
    = Err OutOfFuel ∧
  x_loop e b y st = Err OutOfFuel.
Proof.
  intros Hmax Hmin. split.
  - by apply (u8_loop_diverges _ _ (λ x, emit_tile e b x y (is_first e x y) (is_last e x y))).
  - by apply (u8_loop_diverges (a_max_x_tile (x_args e))
      (λ x, modify (emit_tile e b x y (is_first e x y) (is_last e x y)))
      (λ x, emit_tile e b x y (is_first e x y) (is_last e x y))).
Qed.

(** The bound check against the bin configuration is off by one: a
    rectangle whose last column is [bin_tiles_x] passes, and the tile of that
    column branches to the list of the first tile of the next row. *)
Theorem bin_bound_off_by_one (e : vc4_exec_info) (y : Z) :
  has_bin e = true → a_max_x_tile (x_args e) = x_bin_tiles_x e →
  a_max_y_tile (x_args e) = x_bin_tiles_y e →
  (has_bin e && ((x_bin_tiles_x e <? a_max_x_tile (x_args e))
                 || (x_bin_tiles_y e <? a_max_y_tile (x_args e)))) = false ∧
  tile_bin e (a_max_x_tile (x_args e)) y false = tile_bin e 0 (y + 1) false.
Proof.
  intros Hb Hx Hy. split.
  - by rewrite Hx, Hy, !Z.ltb_irrefl, andb_false_r.
  - unfold tile_bin. rewrite Hb, Hx. simpl. do 3 f_equal. lia.
Qed.
