(* ===== verification/Vc4Gem.v ===== *)
(** * Job submission

    [vc4/vc4_gem.c] and the dispatch of [vc4/vc4_drv.c]: a job is set up from
    the arguments of the ioctl (BO look-up, binner list, render list), handed
    to the two hardware threads, and torn down.

    Parameters: [kalloc n] says whether the n-th heap allocation finds memory,
    [junk] is the content of a fresh heap block, [hw log i reg] is the value
    of the V3D register [reg] at the i-th poll after the register writes
    [log], and [polls] bounds the number of polls.  [umem] of the state holds
    the bytes the calling process may read. *)

From S2P Require Import Prelude DList Mem Slab Vc4Cl Vc4Bo Vc4Validate Vc4Render.

Definition V3D_L2CACTL : Z := 32.
Definition V3D_SLCACTL : Z := 36.
Definition V3D_CTNCS (n : Z) : Z := 256 + 4 * n.
Definition V3D_CTNEA (n : Z) : Z := 264 + 4 * n.
Definition V3D_CTNCA (n : Z) : Z := 272 + 4 * n.
Definition V3D_BFC : Z := 308.
Definition V3D_RFC : Z := 312.
Definition V3D_L2CACTL_L2CCLR : Z := 4.

(** [memset(exec, 0, ...)] with the arguments stored. *)
Definition zero_exec (args : drm_vc4_submit_cl) : vc4_exec_info :=
  mk_exec args [] None 0 0 0 None [] 0 0 0 0 0 0 0 0 0 0 0 0 0.

Section gem.
Context {FW : Type} `{Firmware FW}.
Variable kalloc : nat → bool.
Variable junk : Z → Z.
Variable hw : list (Z * Z) → nat → Z → Z.
Variable polls : nat.

(** ** Services *)

Definition job_kmalloc (size : Z) : M (jstate FW) (option Z) :=
  j ← get;
  _ ← put (j <| j_dev := j_dev j <| kcount := Datatypes.S (kcount (j_dev j)) |> |>);
  kmalloc (kalloc (kcount (j_dev j))) size.

(** [copy_from_user]: the bytes, [None] when part of the range may not be
    read.  [room] is the size of the destination; a longer copy overruns it. *)
Definition job_copy_from_user (room src len : Z) : M (jstate FW) (option (list Z)) :=
  j ← get;
  match read_bytes (umem (j_dev j)) src (Z.to_nat len) with
  | None => mret None
  | Some bs => if room <? len then fail Fault else mret (Some bs)
  end.

Definition junk_bytes (n : Z) : list Z := map (λ i, junk (Z.of_nat i)) (seq 0 (Z.to_nat n)).

Definition V3D_WRITE (offset val : Z) : M (jstate FW) unit :=
  modify (λ j, j <| j_dev := j_dev j <| v3d_log := v3d_log (j_dev j) ++ [(offset, val)] |> |>).

(** [while (cond(V3D_READ(offset)));] *)
Definition wait_while (offset : Z) (cond : Z → bool) : M (jstate FW) unit :=
  loop polls (λ i : nat,
    j ← get;
    if cond (hw (v3d_log (j_dev j)) i offset) then mret (inl (S i)) else mret (inr tt)) 0%nat.

Definition on_jexec (f : vc4_exec_info → vc4_exec_info) : M (jstate FW) unit :=
  modify (λ j, j <| j_exec := f (j_exec j) |>).

(** ** Running a job *)

Definition submit_cl (thread start end_ : Z) : M (jstate FW) unit :=
  _ ← V3D_WRITE (V3D_CTNCS thread) 32;
  _ ← wait_while (V3D_CTNCS thread) (λ v, negb (Z.land v 32 =? 0));
  _ ← V3D_WRITE (V3D_CTNCA thread) start;
  V3D_WRITE (V3D_CTNEA thread) end_.

Definition vc4_flush_caches : M (jstate FW) unit :=
  _ ← V3D_WRITE V3D_L2CACTL V3D_L2CACTL_L2CCLR;
  V3D_WRITE V3D_SLCACTL
    (Z.lor (Z.lor (Z.lor (Z.shiftl 15 24) (Z.shiftl 15 16)) (Z.shiftl 15 8)) (Z.shiftl 15 0)).

Definition vc4_submit_next_bin_job : M (jstate FW) unit :=
  _ ← vc4_flush_caches;
  j ← get;
  let exec := j_exec j in
  if x_ct0ca exec =? x_ct0ea exec then mret tt
  else
    _ ← V3D_WRITE V3D_BFC 1;
    _ ← submit_cl 0 (x_ct0ca exec) (x_ct0ea exec);
    wait_while V3D_BFC (λ v, v =? 0).

Definition vc4_submit_next_render_job : M (jstate FW) unit :=
  _ ← V3D_WRITE V3D_RFC 1;
  j ← get;
  let exec := j_exec j in
  _ ← submit_cl 1 (x_ct1ca exec) (x_ct1ea exec);
  wait_while V3D_RFC (λ v, v =? 0).

Definition vc4_queue_submit : M (jstate FW) unit :=
  _ ← vc4_submit_next_bin_job;
  vc4_submit_next_render_job.

(** ** Setting a job up *)

(** The loop over the handles: [exec->bo[i] = vc4_lookup_bo(dev, handles[i])]. *)
Fixpoint lookup_handles (handles : list Z) (n : nat) : M (jstate FW) Z :=
  match n with
  | O => mret 0
  | S n' =>
      bo ← on_dev (vc4_lookup_bo (le_combine (take 4 handles)));
      match bo with
      | None => mret (- E_INVAL)
      | Some h =>
          _ ← on_jexec (λ e, e <| x_bo := x_bo e ++ [h] |>);
          lookup_handles (drop 4 handles) n'
      end
  end.

Definition vc4_cl_lookup_bos : M (jstate FW) Z :=
  j ← get;
  let args := x_args (j_exec j) in
  let bo_count := a_bo_handle_count args in
  _ ← on_jexec (λ e, e <| x_bo_count := bo_count |>);
  if bo_count =? 0 then mret 0
  else
    _ ← on_jexec (λ e, e <| x_fb_bo := fb_bo (j_dev j) |>);
    bo ← job_kmalloc (u32 (bo_count * 4));
    match bo with
    | None => mret (- E_NOMEM)
    | Some _ =>
        handles ← job_kmalloc bo_count;
        match handles with
        | None => mret (- E_NOMEM)
        | Some room =>
            r ← job_copy_from_user room (u32 (a_bo_handles args)) (u32 (bo_count * 4));
            match r with
            | None => mret (- E_FAULT)
            | Some bs => lookup_handles bs (Z.to_nat bo_count)
            end
        end
    end.

(** The layout [vc4_get_bcl] computes: offsets of the shader records and of
    the uniforms, the size of the BO and of the kernel copy. *)
Definition bcl_layout (args : drm_vc4_submit_cl) : Z * Z * Z * Z :=
  let bin_offset := 0 in
  let shader_rec_offset := ROUNDUP (u32 (bin_offset + a_bin_cl_size args)) 16 in
  let uniforms_offset := u32 (shader_rec_offset + a_shader_rec_size args) in
  let exec_size := u32 (uniforms_offset + a_uniforms_size args) in
  let temp_size := u32 (exec_size + u32 (8 * a_shader_rec_count args)) in
  (shader_rec_offset, uniforms_offset, exec_size, temp_size).

Definition bcl_overflow (args : drm_vc4_submit_cl) : bool :=
  let '(shader_rec_offset, uniforms_offset, exec_size, temp_size) := bcl_layout args in
  (shader_rec_offset <? a_bin_cl_size args) || (uniforms_offset <? shader_rec_offset)
  || (exec_size <? uniforms_offset) || ((2 ^ 32 - 1) / 8 <=? a_shader_rec_count args)
  || (temp_size <? exec_size).

(** [size && !copy_from_user(...)]: the bytes copied, none for size 0. *)
Definition copy_opt (room src len : Z) : M (jstate FW) (option (list Z)) :=
  if len =? 0 then mret (Some []) else job_copy_from_user room src len.

(** The two validators, on the exec structure and GPU memory.  [temp] is the
    kernel copy up to [exec_size]; the shader states behind it are
    [x_shader_state]. *)
Definition run_validators (temp : list Z) (validated : Z) : M (jstate FW) Z :=
  j ← get;
  ret ← on_vstate (vc4_validate_bin_cl (j_dev j) temp validated 0);
  if negb (ret =? 0) then mret ret
  else on_vstate (vc4_validate_shader_recs (j_dev j) temp).

Definition vc4_get_bcl : M (jstate FW) Z :=
  j ← get;
  let args := x_args (j_exec j) in
  let '(shader_rec_offset, uniforms_offset, exec_size, temp_size) := bcl_layout args in
  if bcl_overflow args then mret (- E_INVAL)
  else
    temp ← job_kmalloc temp_size;
    match temp with
    | None => mret (- E_NOMEM)
    | Some room =>
        _ ← on_jexec (λ e, e <| x_shader_rec_u := shader_rec_offset |>
              <| x_shader_state :=
                   replicate (Z.to_nat (a_shader_rec_count args)) (mk_shader_state (junk 0) (junk 0)) |>
              <| x_shader_state_size := a_shader_rec_count args |>);
        r1 ← copy_opt room (u32 (a_bin_cl args)) (a_bin_cl_size args);
        match r1 with
        | None => mret (- E_FAULT)
        | Some bin =>
            r2 ← copy_opt (room - shader_rec_offset) (u32 (a_shader_rec args)) (a_shader_rec_size args);
            match r2 with
            | None => mret (- E_FAULT)
            | Some recs =>
                let temp := bin ++ junk_bytes (shader_rec_offset - a_bin_cl_size args)
                            ++ recs ++ junk_bytes (a_uniforms_size args) in
                bo ← on_dev (vc4_bo_create exec_size VC4_BO_TYPE_BCL);
                match bo with
                | None => mret (- E_NOMEM)
                | Some h =>
                    _ ← on_jexec (λ e, e <| x_exec_bo := Some h |>);
                    _ ← on_dev (on_links (list_add_before unref_list (unref_head h)));
                    exec_bo ← on_dev (get_bo h);
                    _ ← on_jexec (λ e, e <| x_ct0ca := u32 (bo_paddr exec_bo + 0) |>
                          <| x_shader_rec_v := bo_vaddr exec_bo + shader_rec_offset |>
                          <| x_shader_rec_p := u32 (bo_paddr exec_bo + shader_rec_offset) |>
                          <| x_shader_rec_size := a_shader_rec_size args |>);
                    run_validators temp (bo_vaddr exec_bo + 0)
                end
            end
        end
    end.

(** ** Tearing a job down *)

(** [le2bo]: the BO whose [unref_head] this is. *)
Definition le2bo (le : vlink) : M (jstate FW) Z :=
  match le with unref_head h => mret h | unref_list => fail Fault end.

(** One round of the loop of [vc4_complete_exec]. *)
Definition complete_step (_ : unit) : M (jstate FW) (unit + unit) :=
  is_empty ← on_dev (on_links (list_empty unref_list));
  if is_empty : bool then mret (inr tt)
  else
    le ← on_dev (on_links (list_next unref_list));
    bo ← le2bo le;
    _ ← on_dev (on_links (list_del (unref_head bo)));
    _ ← on_dev (vc4_bo_destroy bo);
    mret (inl tt).

(** The release list holds at most one entry per slot of the table, which
    bounds the rounds. *)
Definition vc4_complete_exec : M (jstate FW) unit :=
  loop (Z.to_nat VC4_DEV_BO_NENTRY + 1) complete_step tt.

(** ** The ioctls *)

(** The job of [vc4_submit_cl_ioctl] up to the label [fail]. *)
Definition run_job : M (jstate FW) Z :=
  ret ← vc4_cl_lookup_bos;
  if negb (ret =? 0) then mret ret
  else
    j ← get;
    ret ← (if has_bin (j_exec j) then vc4_get_bcl
           else
             _ ← on_jexec (λ e, e <| x_ct0ca := 0 |> <| x_ct0ea := 0 |>);
             mret 0);
    if negb (ret =? 0) then mret ret
    else
      ret ← vc4_get_rcl;
      if negb (ret =? 0) then mret ret
      else _ ← vc4_queue_submit; mret ret.

(** [sizeof(struct vc4_exec_info)] on the 32-bit target. *)
Definition sizeof_vc4_exec_info : Z := 92.

Definition submit_job : M (jstate FW) Z :=
  exec ← job_kmalloc sizeof_vc4_exec_info;
  match exec with
  | None => mret (- E_NOMEM)
  | Some _ =>
      _ ← on_dev (on_links (list_init unref_list));
      ret ← run_job;
      _ ← vc4_complete_exec;
      mret ret
  end.

Definition vc4_submit_cl_ioctl (args : drm_vc4_submit_cl) : M (vc4_state FW) Z := λ d,
  match submit_job (mk_job d (zero_exec args)) with
  | Ok (ret, j) => Ok (ret, j_dev j)
  | Err e => Err e
  end.

End gem.
