(* ===== verification/Vc4GemSpec.v ===== *)
(** * What job submission guarantees

    Every path through [vc4_submit_cl_ioctl], successful or not, returns the
    buffer objects it took from the firmware, leaves the slots of all others
    alone, and touches the hardware registers only after the whole job was
    validated. *)

From stdpp Require Import list_numbers.
From S2P Require Import Prelude DList Mem Slab Vc4Cl Vc4Bo Vc4BoSpec Vc4Validate.
From S2P Require Import Vc4Reloc Vc4ValidateSpec Vc4Render Vc4RenderSpec Vc4Gem.

(** ** The layout of the kernel copy *)

(** The sums as they would be without a machine width. *)
Definition layout_exact (a : drm_vc4_submit_cl) (off : Z) : Prop :=
  bcl_layout a = (off, off + a_shader_rec_size a, off + a_shader_rec_size a + a_uniforms_size a,
    off + a_shader_rec_size a + a_uniforms_size a + 8 * a_shader_rec_count a).

Record sizes_ok (a : drm_vc4_submit_cl) : Prop := {
  sz_bin : 0 ≤ a_bin_cl_size a < 2 ^ 32;
  sz_rec : 0 ≤ a_shader_rec_size a < 2 ^ 32;
  sz_uni : 0 ≤ a_uniforms_size a < 2 ^ 32;
  sz_cnt : 0 ≤ a_shader_rec_count a < 2 ^ 32;
}.

Lemma u32_add_nowrap a b :
  0 ≤ a < 2 ^ 32 → 0 ≤ b < 2 ^ 32 → a ≤ u32 (a + b) → u32 (a + b) = a + b ∧ a + b < 2 ^ 32.
Proof.
  intros Ha Hb Hle. destruct (Z.lt_ge_cases (a + b) (2 ^ 32)) as [?|Hge].
  - rewrite u32_id by lia. lia.
  - exfalso. assert (u32 (a + b) = a + b - 2 ^ 32).
    { unfold u32. symmetry. apply (Z.mod_unique_pos _ _ 1); lia. } lia.
Qed.

Lemma bcl_layout_exact a :
  sizes_ok a → bcl_overflow a = false → 0 < a_bin_cl_size a →
  ∃ off, a_bin_cl_size a ≤ off < a_bin_cl_size a + 16 ∧ layout_exact a off ∧
    off + a_shader_rec_size a + a_uniforms_size a + 8 * a_shader_rec_count a < 2 ^ 32.
Proof.
  intros [] Ho Hpos. unfold bcl_overflow, layout_exact in *. unfold bcl_layout in *.
  rewrite Z.add_0_l, (u32_id (a_bin_cl_size a)) in * by lia.
  set (off := ROUNDUP (a_bin_cl_size a) 16) in *. split_bools. rewrite Z.ltb_ge, Z.leb_gt in *.
  destruct (Z.le_gt_cases (a_bin_cl_size a + 16) (2 ^ 32)) as [Hfit|Hbig].
  2:{ assert (off = 0) by (apply ROUNDUP_wrap; lia). lia. }
  destruct (ROUNDUP_spec (a_bin_cl_size a) 16) as [Hoff _]; [lia..|]. fold off in Hoff.
  assert (off < 2 ^ 32).
  { unfold off, ROUNDUP, ROUNDDOWN. change (u32 16) with 16.
    pose proof (u32_range (u32 (a_bin_cl_size a) + 16 - 1)).
    rewrite u32_u32. pose proof (Z.mod_pos_bound (u32 (u32 (a_bin_cl_size a) + 16 - 1)) 16). lia. }
  destruct (u32_add_nowrap off (a_shader_rec_size a)) as [E1 ?]; [lia..|]. rewrite E1 in *.
  destruct (u32_add_nowrap (off + a_shader_rec_size a) (a_uniforms_size a)) as [E2 ?]; [lia..|].
  rewrite E2 in *.
  assert (u32 (8 * a_shader_rec_count a) = 8 * a_shader_rec_count a) as E3.
  { apply u32_id. change ((2 ^ 32 - 1) / 8) with 536870911 in *. lia. }
  rewrite E3 in *.
  destruct (u32_add_nowrap (off + a_shader_rec_size a + a_uniforms_size a)
    (8 * a_shader_rec_count a)) as [E4 ?]; [lia| |lia|].
  { change ((2 ^ 32 - 1) / 8) with 536870911 in *. lia. }
  exists off. split_and!; [lia..| |lia]. by rewrite E4.
Qed.

(** The overflow checks of [vc4_get_bcl] are complete: when none of them
    fires, the four 32-bit sums are the mathematical ones, so that the binner
    list, the shader records, the uniforms and the shader states follow one
    another without overlap in the [temp_size] bytes allocated. *)
Theorem bcl_overflow_check_complete (a : drm_vc4_submit_cl) :
  sizes_ok a → bcl_overflow a = false → 0 < a_bin_cl_size a →
  ∃ off, a_bin_cl_size a ≤ off < a_bin_cl_size a + 16 ∧ layout_exact a off ∧
    off + a_shader_rec_size a + a_uniforms_size a + 8 * a_shader_rec_count a < 2 ^ 32.
Proof. apply bcl_layout_exact. Qed.

Section gem_spec.
Context {FW : Type} `{FirmwareLaws FW}.
Variable kalloc : nat → bool.
Variable junk : Z → Z.
Variable hw : list (Z * Z) → nat → Z → Z.
Variable polls : nat.
Implicit Types (j : jstate FW) (d : vc4_state FW).

(** ** The hardware *)

(** Each of the polled conditions ends within [polls] polls. *)
Definition hw_responds : Prop := ∀ log,
  (∀ t, ∃ i, (i < polls)%nat ∧ Z.land (hw log i (V3D_CTNCS t)) 32 = 0) ∧
  (∃ i, (i < polls)%nat ∧ hw log i V3D_BFC ≠ 0) ∧
  (∃ i, (i < polls)%nat ∧ hw log i V3D_RFC ≠ 0).

Lemma wait_while_ok off cond j :
  (∃ i, (i < polls)%nat ∧ cond (hw (v3d_log (j_dev j)) i off) = false) →
  wait_while hw polls off cond j = Ok (tt, j).
Proof.
  intros (i & Hi & Hc). unfold wait_while.
  assert (∀ fuel k, (k ≤ i)%nat → (i < k + fuel)%nat →
    loop fuel (λ i : nat, j ← get;
      if cond (hw (v3d_log (j_dev j)) i off) then mret (inl (S i)) else mret (inr tt)) k j
    = Ok (tt, j)) as Hgen.
  { induction fuel as [|fuel IH]; intros k Hk Hf; [lia|]. rewrite loop_step.
    rewrite (bind_ok _ _ _ _ _ eq_refl).
    destruct (cond (hw (v3d_log (j_dev j)) k off)) eqn:E; cbn; [|done].
    apply IH; [|lia]. assert (k ≠ i) by (intros ->; congruence). lia. }
  apply Hgen; lia.
Qed.

(** The register writes of a job. *)
Definition thread_log (t start end_ : Z) : list (Z * Z) :=
  [(V3D_CTNCS t, 32); (V3D_CTNCA t, start); (V3D_CTNEA t, end_)].

Definition job_log (e : vc4_exec_info) : list (Z * Z) :=
  [(V3D_L2CACTL, 4); (V3D_SLCACTL, 252645135)] ++
  (if x_ct0ca e =? x_ct0ea e then []
   else (V3D_BFC, 1) :: thread_log 0 (x_ct0ca e) (x_ct0ea e)) ++
  (V3D_RFC, 1) :: thread_log 1 (x_ct1ca e) (x_ct1ea e).

Definition add_log (l : list (Z * Z)) j : jstate FW :=
  j <| j_dev := j_dev j <| v3d_log := v3d_log (j_dev j) ++ l |> |>.

Lemma add_log_app l1 l2 j : add_log l2 (add_log l1 j) = add_log (l1 ++ l2) j.
Proof. unfold add_log. destruct j as [[] e]. simpl. by rewrite app_assoc. Qed.

Lemma V3D_WRITE_ok o v j : V3D_WRITE o v j = Ok (tt, add_log [(o, v)] j).
Proof. done. Qed.

Lemma wait_stop t j :
  hw_responds →
  wait_while hw polls (V3D_CTNCS t) (λ v, negb (Z.land v 32 =? 0)) j = Ok (tt, j).
Proof.
  intros Hhw. apply wait_while_ok. destruct (Hhw (v3d_log (j_dev j))) as [H1 _].
  destruct (H1 t) as (i & Hi & E). exists i. split; [done|]. by rewrite E.
Qed.

Lemma wait_counter reg j :
  hw_responds → reg = V3D_BFC ∨ reg = V3D_RFC →
  wait_while hw polls reg (λ v, v =? 0) j = Ok (tt, j).
Proof.
  intros Hhw Hreg. apply wait_while_ok.
  destruct (Hhw (v3d_log (j_dev j))) as (_ & (i & Hi & E) & (i' & Hi' & E')).
  destruct Hreg as [->| ->]; [exists i|exists i']; (split; [done|]; by apply Z.eqb_neq).
Qed.

Lemma submit_cl_ok t s e j :
  hw_responds → submit_cl hw polls t s e j = Ok (tt, add_log (thread_log t s e) j).
Proof.
  intros Hhw. unfold submit_cl.
  rewrite (bind_ok _ _ _ _ _ (V3D_WRITE_ok _ _ _)), (bind_ok _ _ _ _ _ (wait_stop _ _ Hhw)).
  rewrite (bind_ok _ _ _ _ _ (V3D_WRITE_ok _ _ _)), V3D_WRITE_ok, !add_log_app. done.
Qed.

Lemma bin_job_ok j :
  hw_responds →
  vc4_submit_next_bin_job hw polls j =
    Ok (tt, add_log ([(V3D_L2CACTL, 4); (V3D_SLCACTL, 252645135)] ++
      (if x_ct0ca (j_exec j) =? x_ct0ea (j_exec j) then []
       else (V3D_BFC, 1) :: thread_log 0 (x_ct0ca (j_exec j)) (x_ct0ea (j_exec j)))) j).
Proof.
  intros Hhw. unfold vc4_submit_next_bin_job.
  rewrite (bind_ok _ _ j tt (add_log [(V3D_L2CACTL, 4); (V3D_SLCACTL, 252645135)] j)).
  - rewrite (bind_ok _ _ _ _ _ eq_refl). change (j_exec (add_log _ j)) with (j_exec j).
    destruct (x_ct0ca (j_exec j) =? x_ct0ea (j_exec j)); [done|].
    rewrite (bind_ok _ _ _ _ _ (V3D_WRITE_ok _ _ _)), (bind_ok _ _ _ _ _ (submit_cl_ok _ _ _ _ Hhw)).
    rewrite wait_counter by auto. by rewrite !add_log_app.
  - unfold vc4_flush_caches. rewrite (bind_ok _ _ _ _ _ (V3D_WRITE_ok _ _ _)), V3D_WRITE_ok.
    by rewrite add_log_app.
Qed.

Lemma queue_submit_ok j :
  hw_responds → vc4_queue_submit hw polls j = Ok (tt, add_log (job_log (j_exec j)) j).
Proof.
  intros Hhw. unfold vc4_queue_submit, vc4_submit_next_render_job.
  rewrite (bind_ok _ _ _ _ _ (bin_job_ok j Hhw)).
  rewrite (bind_ok _ _ _ _ _ (V3D_WRITE_ok _ _ _)), (bind_ok _ _ _ _ _ eq_refl).
  rewrite (bind_ok _ _ _ _ _ (submit_cl_ok _ _ _ _ Hhw)), wait_counter by auto.
  rewrite !add_log_app. unfold job_log. by rewrite <-!app_assoc.
Qed.

(** ** Services *)

(** The device after heap allocations: only their count differs. *)
Definition same_dev d d' : Prop :=
  handle_bo_map d' = handle_bo_map d ∧ links d' = links d ∧ fw d' = fw d ∧
  gmem d' = gmem d ∧ dev_frame [] d d'.

Lemma same_dev_refl d : same_dev d d.
Proof. by repeat split. Qed.
Lemma dev_frame_trans hs d1 d2 d3 : dev_frame hs d1 d2 → dev_frame hs d2 d3 → dev_frame hs d1 d3.
Proof.
  intros (?&?&?&?&?&Ha) (?&?&?&?&?&Hb). split_and!; try congruence.
  intros i Hi. by rewrite Hb, Ha.
Qed.
Lemma same_dev_trans d1 d2 d3 : same_dev d1 d2 → same_dev d2 d3 → same_dev d1 d3.
Proof.
  intros (?&?&?&?&?) (?&?&?&?&?). split_and!; try congruence. by eapply dev_frame_trans.
Qed.
Lemma same_dev_live d d' : same_dev d d' → live d' = live d.
Proof. intros (?&?&Hf&?). unfold live. by rewrite Hf. Qed.
Lemma release_ok_same hs d d' : same_dev d d' → release_ok hs d → release_ok hs d'.
Proof.
  intros Hs []. pose proof (same_dev_live _ _ Hs) as Hl. destruct Hs as (Hm&Hk&_).
  constructor; unfold map_ok in *; rewrite ?Hm, ?Hk, ?Hl; done.
Qed.

Lemma wp_job_kmalloc size j (Q : option Z → jstate FW → Prop) :
  0 < size ≤ 2 ^ 17 →
  (∀ j', j_exec j' = j_exec j → same_dev (j_dev j) (j_dev j') →
    Q None j' ∧ ∀ room, room = size_class size → Q (Some room) j') →
  wp (job_kmalloc kalloc size) j Q.
Proof.
  intros Hs HQ. unfold job_kmalloc. apply wp_bind, wp_get. apply wp_bind, wp_put.
  eapply wp_ok; [by apply kmalloc_ok|].
  match goal with |- Q _ ?j' => destruct (HQ j') as [HN HS] end; [done|by repeat split|].
  destruct (kalloc _); auto.
Qed.

Lemma read_bytes_range m a n bs :
  map_Forall (λ _ b, 0 ≤ b < 256) m → read_bytes m a n = Some bs → Forall (λ b, 0 ≤ b < 256) bs.
Proof.
  intros Hm. revert a bs. induction n as [|n IH]; intros a bs; simpl; [intros [= <-]; constructor|].
  destruct (m !! a) as [b|] eqn:E; simpl; [|done].
  destruct (read_bytes m (a + 1) n) as [bs'|] eqn:E'; simpl; [|done].
  intros [= <-]. constructor; [by apply (Hm _ _ E)|by eapply IH].
Qed.

Definition user_bytes d : Prop := map_Forall (λ _ b, 0 ≤ b < 256) (umem d).

(** The [n] bytes user space passes at a 32-bit address. *)
Definition user_copy d (addr n : Z) (bs : list Z) : Prop :=
  read_bytes (umem d) (u32 addr) (Z.to_nat n) = Some bs.

Lemma wp_copy room addr len j (Q : option (list Z) → jstate FW → Prop) :
  0 ≤ len ≤ room → user_bytes (j_dev j) → Q None j →
  (∀ bs, user_copy (j_dev j) addr len bs → length bs = Z.to_nat len →
    Forall (λ b, 0 ≤ b < 256) bs → Q (Some bs) j) →
  wp (job_copy_from_user room (u32 addr) len) j Q.
Proof.
  intros Hl Hu HN HS. unfold job_copy_from_user. apply wp_bind, wp_get.
  destruct (read_bytes _ _ _) as [bs|] eqn:E; [|by apply wp_ret].
  rewrite (proj2 (Z.ltb_ge _ _)) by lia. apply wp_ret, HS; [done|..].
  - by eapply read_bytes_length.
  - by eapply read_bytes_range.
Qed.

(** ** Looking the BOs up *)

Definition ioctl_ret (ret : Z) : Prop :=
  ret = 0 ∨ ret = - E_INVAL ∨ ret = - E_NOMEM ∨ ret = - E_FAULT.

(** The handles in the bytes user space passed. *)
Definition handles_of (n : nat) (hb : list Z) : list Z := map (λ k, u32_at hb (4 * k)) (seq 0 n).

Lemma handles_of_succ n hb : handles_of (S n) hb = u32_at hb 0 :: handles_of n (drop 4 hb).
Proof.
  unfold handles_of. simpl. f_equal. rewrite <-seq_shift, map_map. apply map_ext. intros k.
  unfold u32_at. rewrite drop_drop. do 3 f_equal. lia.
Qed.

Lemma lookup_handles_ok n bs j :
  map_ok (j_dev j) → Forall (λ b, 0 ≤ b < 256) bs →
  wp (lookup_handles bs n) j (λ ret j', ioctl_ret ret ∧ j_dev j' = j_dev j ∧
    ∃ hs, j_exec j' = j_exec j <| x_bo := x_bo (j_exec j) ++ hs |> ∧
      Forall (λ h, 0 ≤ h ∧ bo_found (j_dev j) h = true) hs ∧ (ret = 0 → hs = handles_of n bs)).
Proof.
  intros Hm. revert bs j Hm. induction n as [|n IH]; intros bs j Hm Hb; simpl.
  { apply wp_ret. split_and!; [by left|done|]. exists []. rewrite app_nil_r.
    split_and!; [by destruct (j_exec j)|done|done]. }
  assert (0 ≤ le_combine (take 4 bs)) as Hnn
    by (apply le_combine_range; by apply Forall_take).
  apply wp_bind, wp_on_dev. eapply wp_ok; [by apply vc4_lookup_bo_spec|].
  replace (j <| j_dev := j_dev j |>) with j by (by destruct j).
  destruct (bo_found (j_dev j) (le_combine (take 4 bs))) eqn:Ef.
  2:{ apply wp_ret. split_and!; [right; by left|done|]. exists []. rewrite app_nil_r.
      split_and!; [by destruct (j_exec j)|done|done]. }
  apply wp_bind, wp_modify. eapply wp_mono; [apply IH; [done|by apply Forall_drop]|].
  intros ret j' (Hret & Hd & hs & He & Hf & Hl). split_and!; [done|done|].
  exists (le_combine (take 4 bs) :: hs). split_and!; [|by constructor|].
  - rewrite He. simpl. by rewrite <-app_assoc.
  - intros E. by rewrite handles_of_succ, (Hl E).
Qed.

(** The job names the BOs of the handles user space passed, which exist. *)
Record submitted (args : drm_vc4_submit_cl) d (hb : list Z) (e : vc4_exec_info) : Prop := {
  sub_args : x_args e = args;
  sub_count : x_bo_count e = a_bo_handle_count args;
  sub_copy : user_copy d (a_bo_handles args) (4 * a_bo_handle_count args) hb;
  sub_bos : x_bo e = handles_of (Z.to_nat (a_bo_handle_count args)) hb;
  sub_found : Forall (λ h, 0 ≤ h ∧ bo_found d h = true) (x_bo e);
}.

(** The exec structure after the look-up: nothing but the BOs is set. *)
Definition looked_up (args : drm_vc4_submit_cl) d (hb : list Z) (e : vc4_exec_info) : Prop :=
  submitted args d hb e ∧ ∃ f, e = zero_exec args <| x_bo_count := x_bo_count e |>
    <| x_fb_bo := f |> <| x_bo := x_bo e |>.

Lemma submitted_bos args d hb e : 0 ≤ a_bo_handle_count args → submitted args d hb e → bos_ok e.
Proof.
  intros Hc [_ Hn _ Hb Hf]. split.
  - rewrite Hn, Hb. unfold handles_of. rewrite length_map, length_seq. lia.
  - eapply Forall_impl; [exact Hf|]. intros h [Hh Hbf]. apply andb_true_iff in Hbf as [Hlt _].
    apply Z.ltb_lt in Hlt. lia.
Qed.

Lemma lookup_bos_ok args j :
  map_ok (j_dev j) → user_bytes (j_dev j) → j_exec j = zero_exec args →
  0 ≤ a_bo_handle_count args ≤ 8 →
  wp (vc4_cl_lookup_bos kalloc) j (λ ret j', ioctl_ret ret ∧ same_dev (j_dev j) (j_dev j') ∧
    (ret = 0 → ∃ hb, looked_up args (j_dev j) hb (j_exec j'))).
Proof.
  intros Hm Hu He Hc. unfold vc4_cl_lookup_bos, on_jexec. apply wp_bind, wp_get. rewrite He.
  apply wp_bind, wp_modify. simpl. wp_step.
  { apply wp_ret. apply Z.eqb_eq in Hc0. split_and!; [by left|apply same_dev_refl|].
    intros _. simpl. rewrite He. exists []. split; [|by exists None].
    constructor; simpl; [done|done| | |constructor]; unfold user_copy; by rewrite Hc0. }
  apply Z.eqb_neq in Hc0. apply wp_bind, wp_modify.
  rewrite (u32_id (_ * 4)) by lia. apply wp_bind, wp_job_kmalloc; [lia|].
  intros j1 He1 Hs1. split; [apply wp_ret; split_and!; [right; right; by left|done|done]|].
  intros _ _. apply wp_bind, wp_job_kmalloc; [lia|].
  intros j2 He2 Hs2. pose proof (same_dev_trans _ _ _ Hs1 Hs2) as Hs. simpl in Hs.
  split; [apply wp_ret; split_and!; [right; right; by left|done|done]|].
  intros room ->. pose proof Hs as (Hmap&_&_&_&(_&_&_&_&Hum&_)). apply wp_bind. apply wp_copy.
  - split; [lia|]. eapply Z.le_trans with (2 ^ 5); [lia|]. apply Z.pow_le_mono_r; lia.
  - unfold user_bytes. by rewrite Hum.
  - apply wp_ret. split_and!; [right; right; by right|done|done].
  - intros bs Hcopy Hlen Hb. eapply wp_mono; [apply lookup_handles_ok; [|done]|].
    { unfold map_ok. by rewrite Hmap. }
    intros ret j3 (Hret & Hd & hs & He3 & Hf & Hl). rewrite Hd. split_and!; [done|done|].
    intros ->. specialize (Hl eq_refl). rewrite He3, He2, He1. simpl. rewrite He.
    exists bs. split; [|by eexists]. constructor; simpl; [done|done| |done|].
    + unfold user_copy in *. by rewrite <-Hum, Z.mul_comm.
    + eapply Forall_impl; [exact Hf|]. intros h. unfold bo_found. by rewrite Hmap.
Qed.

(** ** The binner list *)

(** From [d] to [d'] the job took the BOs [hs] from the firmware. *)
Definition took (hs : list Z) d d' : Prop :=
  release_ok hs d' ∧ live d' = list_to_set hs ∪ live d ∧ (∀ h, h ∈ hs → h ∉ live d) ∧
  dev_frame hs d d'.

Lemma took_same hs d d1 d2 : took hs d d1 → same_dev d1 d2 → took hs d d2.
Proof.
  intros (Hr & Hl & Hf & Hd) Hs. split_and!; [by eapply release_ok_same| |done|].
  - by rewrite (same_dev_live _ _ Hs).
  - destruct Hs as (_&_&_&_&(?&?&?&?&?&Hm)). destruct Hd as (?&?&?&?&?&Hm').
    split_and!; try congruence. intros i Hi. rewrite Hm, Hm'; [done|done|set_solver].
Qed.

Lemma took_from hs d d1 d2 : same_dev d d1 → took hs d1 d2 → took hs d d2.
Proof.
  intros Hs (Hr & Hl & Hf & Hd). rewrite (same_dev_live _ _ Hs) in Hl, Hf.
  destruct Hs as (_&_&_&_&(?&?&?&?&?&Hm)). destruct Hd as (?&?&?&?&?&Hm').
  split_and!; [exact Hr|exact Hl|exact Hf|]. split_and!; try congruence.
  intros i Hi. rewrite Hm', Hm; [done|set_solver|done].
Qed.

Lemma took_nil d : release_ok [] d → took [] d d.
Proof. intros. split_and!; [done|set_solver|set_solver|by repeat split]. Qed.

(** GPU memory is not part of what is tracked. *)
Lemma took_gmem hs d d1 m : took hs d d1 → took hs d (d1 <| gmem := m |>).
Proof. intros ([] & Hl & Hf & Hd). split_and!; [by constructor|done|done|done]. Qed.

(** Creating and linking one more BO. *)
Lemma took_new hs h bus size type f d d1 l' :
  took hs d d1 → 0 < h < VC4_DEV_BO_NENTRY → h ∉ live d1 → fw_live f = {[h]} ∪ live d1 →
  type ≠ VC4_BO_TYPE_FB → rep l' {[unref_list := unref_head <$> (hs ++ [h])]} →
  took (hs ++ [h]) d (with_bo h bus size type f d1 <| links := l' |>).
Proof.
  intros (Hr & Hl & Hf & Hd) Hh Hfresh Hlive Hty Hrep. split_and!.
  - by apply release_ok_new.
  - unfold live at 1. simpl. rewrite Hlive, Hl, list_to_set_app_L. set_solver.
  - intros h' Hin. rewrite Hl in Hfresh. set_solver.
  - destruct Hd as (?&?&?&?&?&Hm). split_and!; try done. intros i Hi. simpl.
    rewrite list_lookup_insert_ne; [apply Hm; set_solver|]. apply not_eq_sym, Hi. set_solver.
Qed.

Lemma junk_bytes_ok n :
  (∀ i, 0 ≤ junk i < 256) →
  Forall (λ b, 0 ≤ b < 256) (junk_bytes junk n) ∧ length (junk_bytes junk n) = Z.to_nat n.
Proof.
  intros Hj. unfold junk_bytes. rewrite length_map, length_seq. split; [|done].
  rewrite Forall_map. by apply Forall_true.
Qed.

Lemma wp_copy_opt room addr len j (Q : option (list Z) → jstate FW → Prop) :
  0 ≤ len ≤ room → user_bytes (j_dev j) → Q None j →
  (∀ bs, user_copy (j_dev j) addr len bs → length bs = Z.to_nat len →
    Forall (λ b, 0 ≤ b < 256) bs → Q (Some bs) j) →
  wp (copy_opt room (u32 addr) len) j Q.
Proof.
  intros Hl Hu HN HS. unfold copy_opt. wp_step; [|by apply wp_copy].
  apply Z.eqb_eq in Hc. apply wp_ret, HS; [|by rewrite Hc|constructor].
  unfold user_copy. by rewrite Hc.
Qed.

(** Jobs that agree translate alike. *)
Record same_job (J J' : cl_job) : Prop := {
  sj_bo i : job_bo J i = job_bo J' i;
  sj_bin : job_bin J = job_bin J';
  sj_bin_size : job_bin_size J = job_bin_size J';
  sj_states : job_states J = job_states J';
  sj_rec_p : job_rec_p J = job_rec_p J';
}.

(** The state a binner list starts in. *)
Definition cl_start : cl_state := mk_cl_state 0 0 [] (0, 0) 0.

(** A binner list and its shader records that were translated from what user
    space passed lie at [ct0ca] in a block of [size] bytes. *)
Definition binner_ready (args : drm_vc4_submit_cl) d (size : Z) (m : gmap Z Z) (e : vc4_exec_info) : Prop :=
  ∃ off bin recs J p out rout,
    user_copy d (a_bin_cl args) (a_bin_cl_size args) bin ∧
    user_copy d (a_shader_rec args) (a_shader_rec_size args) recs ∧
    x_shader_state_size e = a_shader_rec_count args ∧
    same_job J (job_of d (u32 (x_ct0ca e + off)) e) ∧
    translate_cl J cl_start bin = Some (p, out) ∧
    translate_recs J (cl_states p) recs = Some rout ∧
    Z.of_nat (length out) ≤ off ∧ off + Z.of_nat (length rout) ≤ size ∧
    x_ct0ea e = u32 (x_ct0ca e + Z.of_nat (length out)) ∧
    read_bytes m (x_ct0ca e) (length out) = Some out ∧
    read_bytes m (x_ct0ca e + off) (length rout) = Some rout.

Lemma binner_ready_ext args d size m m' e e' :
  binner_ready args d size m e → (∀ x, x_ct0ca e ≤ x < x_ct0ca e + size → m' !! x = m !! x) →
  x_ct0ca e' = x_ct0ca e → x_ct0ea e' = x_ct0ea e → x_shader_state_size e' = x_shader_state_size e →
  x_bo e' = x_bo e → x_bo_count e' = x_bo_count e → binner_ready args d size m' e'.
Proof.
  intros (off & bin & recs & J & p & out & rout & Hb & Hr & Hn & HJ & Ht & Htr & Hl1 & Hl2 & Hea & Ho & Hro)
    Hm Hca Hea' Hsz Hbo Hcnt.
  exists off, bin, recs, J, p, out, rout. rewrite Hca, Hea', Hsz. split_and!; try done.
  - unfold job_of in *. by rewrite Hsz, Hbo, Hcnt.
  - rewrite <-Ho. apply read_bytes_ext. intros x Hx. apply Hm. lia.
  - rewrite <-Hro. apply read_bytes_ext. intros x Hx. apply Hm. lia.
Qed.

(** The kernel copy: the list, padding up to [off], the records, room for the
    uniforms. *)
Definition kernel_copy (args : drm_vc4_submit_cl) (off : Z) (bin recs temp : list Z) : Prop :=
  ∃ pad rest, temp = bin ++ pad ++ recs ++ rest ∧
    Z.of_nat (length bin) = a_bin_cl_size args ∧ Z.of_nat (length pad) = off - a_bin_cl_size args ∧
    Z.of_nat (length recs) = a_shader_rec_size args ∧
    Z.of_nat (length rest) = a_uniforms_size args.

Lemma kernel_copy_parts args off bin recs temp :
  kernel_copy args off bin recs temp →
  pkt_at temp 0 (Z.to_nat (a_bin_cl_size args)) = bin ∧
  pkt_at temp off (Z.to_nat (a_shader_rec_size args)) = recs ∧
  Z.of_nat (length temp) = off + a_shader_rec_size args + a_uniforms_size args ∧
  a_bin_cl_size args ≤ off.
Proof.
  intros (pad & rest & -> & Hb & Hp & Hr & Hu). unfold pkt_at. split_and!.
  - simpl. rewrite drop_0. apply take_app_length'. lia.
  - rewrite !app_assoc, <-app_assoc.
    rewrite drop_app_length' by (rewrite length_app; lia). apply take_app_length'. lia.
  - rewrite !length_app. lia.
  - lia.
Qed.

(** The state in which the validators run. *)
Record bcl_ready (args : drm_vc4_submit_cl) (bin recs temp : list Z) (off validated : Z) j : Prop := {
  br_start : ∃ f h bos, j_exec j = zero_exec args <| x_bo_count := a_bo_handle_count args |>
    <| x_fb_bo := f |> <| x_bo := bos |> <| x_shader_rec_u := off |>
    <| x_shader_state := replicate (Z.to_nat (a_shader_rec_count args)) (mk_shader_state (junk 0) (junk 0)) |>
    <| x_shader_state_size := a_shader_rec_count args |> <| x_exec_bo := h |>
    <| x_ct0ca := u32 validated |> <| x_shader_rec_v := validated + off |>
    <| x_shader_rec_p := u32 (validated + off) |> <| x_shader_rec_size := a_shader_rec_size args |>;
  br_bos : bos_ok (j_exec j);
  br_temp : Forall (λ b, 0 ≤ b < 256) temp;
  br_copy : kernel_copy args off bin recs temp;
}.

Lemma bos_ok_valid d e :
  map_ok d → bos_ok e → Forall (bo_valid d) (x_bo e).
Proof.
  intros Hm [_ Hf]. eapply Forall_impl; [exact Hf|]. intros h Hh. by apply slot_valid.
Qed.

(** The fields of the exec structure the validators leave alone. *)
Definition val_frame (e e' : vc4_exec_info) : Prop :=
  x_args e' = x_args e ∧ x_bo e' = x_bo e ∧ x_bo_count e' = x_bo_count e ∧
  x_shader_state_size e' = x_shader_state_size e ∧ x_ct0ca e' = x_ct0ca e.

Lemma run_validators_ok args bin recs temp off validated j :
  sizes_ok args → a_bin_cl_size args ≤ 2 ^ 32 - 16 → map_ok (j_dev j) → dev_ok (j_dev j) →
  bcl_ready args bin recs temp off validated j →
  let J := job_of (j_dev j) (u32 (validated + off)) (j_exec j) in
  wp (run_validators temp validated) j (λ ret j', ioctl_ret ret ∧
    (∃ m, j_dev j' = j_dev j <| gmem := m |>) ∧
    (ret = 0 → val_frame (j_exec j) (j_exec j') ∧ ∃ p out rout,
      translate_cl J cl_start bin = Some (p, out) ∧
      translate_recs J (cl_states p) recs = Some rout ∧
      Z.of_nat (length out) ≤ a_bin_cl_size args ∧
      Z.of_nat (length rout) ≤ a_shader_rec_size args ∧
      x_ct0ea (j_exec j') = u32 (u32 validated + Z.of_nat (length out)) ∧
      gmem (j_dev j') =
        write_bytes (validated + off) rout (write_bytes validated out (gmem (j_dev j))))).
Proof.
  intros [] Hbig Hm Hdev [(f & h & bos & He) Hbos Htemp Hcopy] J.
  destruct (kernel_copy_parts _ _ _ _ _ Hcopy) as (Hbin & Hrecs & Hlen & Hoff).
  unfold run_validators. apply wp_bind, wp_get.
  assert (exec_ok (j_dev j) (j_exec j)) as Hok.
  { pose proof (u32_range (validated + off)).
    constructor; try (rewrite He; simpl; rewrite ?length_replicate; lia);
      [apply Hbos|by apply bos_ok_valid]. }
  assert (cl_agrees J cl_start (j_exec j)) as Hag.
  { constructor; rewrite He; try done. simpl. by rewrite Z.add_0_r, u32_u32. }
  assert (x_args (j_exec j) = args) as Ha by (by rewrite He).
  apply wp_bind, wp_on_vstate. eapply wp_mono.
  { apply (validate_bin_cl_spec (j_dev j) temp (u32 (validated + off)) validated 0 cl_start
      (mk_vstate (j_exec j) (gmem (j_dev j)))); simpl; rewrite ?Ha; try done; lia. }
  cbn [v_exec v_mem]. rewrite Ha, Hbin. fold J. intros ret v [Hfr Hret].
  destruct (translate_cl J cl_start bin) as [[p out]|] eqn:Et; cycle 1.
  { destruct Hret as [-> _]. cbn [negb Z.eqb]. apply wp_ret.
    split_and!; [right; by left|by eexists|done]. }
  destruct Hret as (-> & Hol & Hm1 & Hea & Hag1 & Hok1). cbn [negb Z.eqb].
  pose proof Hfr as (Ea & Eb & Ec & _ & Es & El & Eca & Eu & Ev & Er).
  apply wp_on_vstate. eapply wp_mono.
  { apply (validate_shader_recs_spec (j_dev j) temp (u32 (validated + off))
      (mk_vstate (v_exec v) (v_mem v))); [done|].
    constructor; simpl; rewrite ?Eu, ?Er, ?He; simpl; [done|lia..]. }
  cbn [v_exec v_mem]. intros ret v2 Hret2.
  assert (rec_states (v_exec v) = cl_states p) as Hst.
  { unfold rec_states. rewrite (ag_count _ _ _ Hag1), Nat2Z.id. apply (ag_states _ _ _ Hag1). }
  assert (rec_bytes temp (v_exec v) = recs) as Hrb
    by (unfold rec_bytes; rewrite Eu, Er, He; exact Hrecs).
  assert (job_of (j_dev j) (u32 (validated + off)) (v_exec v) = J) as HJ by (by apply job_of_frame).
  rewrite HJ, Hst, Hrb in Hret2.
  destruct (translate_recs J (cl_states p) recs) as [rout|] eqn:Er2; cycle 1.
  { destruct Hret2 as [-> _]. split_and!; [right; by left|by eexists|done]. }
  destruct Hret2 as (-> & (Fa & Fb & Fc & _ & Fs & _ & Fca & Fea & _) & Hrl & Hrs & _ & Hm2).
  split_and!; [by left|by eexists|]. intros _. split; [split_and!; simpl; congruence|].
  pose proof (ok_count _ _ Hok1) as Hcnt.
  assert (x_shader_rec_size (v_exec v) = a_shader_rec_size args) as Hsz by (rewrite Er, He; done).
  assert (x_shader_rec_v (v_exec v) = validated + off) as Hv by (rewrite Ev, He; done).
  exists p, out, rout. split_and!; try done; try lia.
  - simpl. rewrite Fea, Hea, He. done.
  - simpl. by rewrite Hm2, Hm1, Hv.
Qed.

Definition bin_ok d : Prop := ∃ h, bin_bo d = Some h ∧ 0 ≤ h < VC4_DEV_BO_NENTRY.

Lemma bin_ok_dev d : map_ok d → bin_ok d → dev_ok d.
Proof. intros Hm (h & Hb & Hh). exists h. split; [done|]. by apply slot_valid. Qed.

(** The firmware knows the handles of the table and of the bin BO. *)
Definition known d : Prop :=
  (∀ h, 0 ≤ h → bo_found d h = true → h ∈ live d) ∧ (∀ h, bin_bo d = Some h → h ∈ live d).

(** A job's own BOs leave the slots of known BOs alone. *)
Lemma took_slot hs d d' h :
  took hs d d' → 0 ≤ h → h ∈ live d → handle_bo_map d' !! Z.to_nat h = handle_bo_map d !! Z.to_nat h.
Proof.
  intros (Hr & _ & Hf & (_&_&_&_&_&Hi)) Hh Hl. apply Hi. intros h' Hin E.
  destruct (rel_slots _ _ Hr h' Hin) as [? _]. assert (h = h') as -> by lia. by apply (Hf h').
Qed.

Lemma took_job hs args d d' hb e rp :
  took hs d d' → known d → bin_ok d → submitted args d hb e →
  same_job (job_of d' rp e) (job_of d rp e).
Proof.
  intros Ht [Hk Hkb] (b & Hb & Hbr) [_ _ _ _ Hf]. pose proof Ht as (_ & _ & _ & (_ & Hbin & _ & Hsz & _)).
  constructor; simpl; try done.
  - intros i. destruct (i <? _); [|done]. destruct (x_bo e !! Z.to_nat i) as [h|] eqn:E; [|done].
    rewrite Forall_lookup in Hf. destruct (Hf _ _ E) as [Hh Hfound]. eapply took_slot; eauto.
  - rewrite Hbin, Hb. f_equal. eapply took_slot; [done|lia|]. by apply Hkb.
Qed.

(** A binner list that is ready to run lies in the job's only BO. *)
Definition bcl_done (args : drm_vc4_submit_cl) d (hs : list Z) j : Prop :=
  ∃ h size, hs = [h] ∧ locked (j_dev j) !! h = Some (x_ct0ca (j_exec j), size) ∧
    binner_ready args d size (gmem (j_dev j)) (j_exec j).

(** What the statements about a submission read of the device. *)
Definition same_view d d' : Prop :=
  umem d' = umem d ∧ handle_bo_map d' = handle_bo_map d ∧ bin_bo d' = bin_bo d ∧
  bin_alloc_size d' = bin_alloc_size d.

Lemma same_dev_view d d' : same_dev d d' → same_view d d'.
Proof. intros (?&_&_&_&(_&?&_&?&?&_)). done. Qed.

Lemma submitted_view args d d' hb e : same_view d d' → submitted args d' hb e ↔ submitted args d hb e.
Proof.
  intros (Hu & Hm & _). split; intros []; constructor; unfold user_copy, bo_found in *;
    rewrite ?Hu, ?Hm in *; done.
Qed.

Lemma binner_ready_view args d d' size m e :
  same_view d d' → binner_ready args d' size m e → binner_ready args d size m e.
Proof.
  intros (Hu & Hm & Hb & Hs) (off & bin & recs & J & p & out & rout & Hr).
  exists off, bin, recs, J, p, out, rout. unfold user_copy, job_of in *. by rewrite Hu, Hm, Hb, Hs in Hr.
Qed.

(** The new BO of the list, with the memory the validators have written. *)
Lemma bcl_done_intro args d hb h bus size off bin recs temp p out rout j0 j :
  took [h] d (j_dev j0) → known d → bin_ok d → submitted args d hb (j_exec j0) →
  0 < bus → bus + size ≤ 2 ^ 32 → locked (j_dev j) !! h = Some (bus, size) →
  user_copy d (a_bin_cl args) (a_bin_cl_size args) bin →
  user_copy d (a_shader_rec args) (a_shader_rec_size args) recs →
  bcl_ready args bin recs temp off bus j0 → val_frame (j_exec j0) (j_exec j) →
  off + a_shader_rec_size args ≤ size →
  translate_cl (job_of (j_dev j0) (u32 (bus + off)) (j_exec j0)) cl_start bin = Some (p, out) →
  translate_recs (job_of (j_dev j0) (u32 (bus + off)) (j_exec j0)) (cl_states p) recs = Some rout →
  Z.of_nat (length out) ≤ a_bin_cl_size args → Z.of_nat (length rout) ≤ a_shader_rec_size args →
  x_ct0ea (j_exec j) = u32 (u32 bus + Z.of_nat (length out)) →
  gmem (j_dev j) = write_bytes (bus + off) rout (write_bytes bus out (gmem (j_dev j0))) →
  0 < a_bin_cl_size args → bcl_done args d [h] j.
Proof.
  intros Ht Hk Hbin Hsub Hbus Htop Hlk Hcb Hcr [(f & h0 & bos & He) _ _ Hcopy] Hval Hsz Htr Hrec Hol Hrl
    Hea Hm Hpos.
  destruct (kernel_copy_parts _ _ _ _ _ Hcopy) as (_ & _ & _ & Hoff).
  destruct Hval as (_ & Vbo & Vcnt & Vsz & Vca).
  assert (u32 bus = bus) as Hb32 by (apply u32_id; lia).
  assert (x_ct0ca (j_exec j) = bus) as Hca by (by rewrite Vca, He).
  exists h, size. rewrite Hca. split_and!; [done|done|].
  exists off, bin, recs, (job_of (j_dev j0) (u32 (bus + off)) (j_exec j0)), p, out, rout.
  rewrite Hca. split_and!; try done; try lia.
  - by rewrite Vsz, He.
  - assert (job_of d (u32 (bus + off)) (j_exec j) = job_of d (u32 (bus + off)) (j_exec j0)) as ->
      by (unfold job_of; by rewrite Vbo, Vcnt, Vsz).
    by eapply took_job.
  - by rewrite Hea, Hb32.
  - rewrite Hm. rewrite (read_bytes_ext (write_bytes bus out (gmem (j_dev j0)))).
    + apply read_write_bytes.
    + intros x Hx. apply write_bytes_outside. lia.
  - rewrite Hm. apply read_write_bytes.
Qed.

Lemma get_bcl_ok args hb j :
  (∀ i, 0 ≤ junk i < 256) → sizes_ok args → 0 < a_bin_cl_size args →
  (bcl_overflow args = false → (bcl_layout args).2 ≤ 2 ^ 17) → 0 ≤ a_bo_handle_count args →
  release_ok [] (j_dev j) → user_bytes (j_dev j) → bin_ok (j_dev j) → known (j_dev j) →
  looked_up args (j_dev j) hb (j_exec j) →
  wp (vc4_get_bcl kalloc junk) j (λ ret j', ioctl_ret ret ∧ ∃ hs,
    took hs (j_dev j) (j_dev j') ∧
    (ret = 0 → submitted args (j_dev j) hb (j_exec j') ∧ bcl_done args (j_dev j) hs j')).
Proof.
  intros Hjunk Hsz Hpos Hfit Hcnt Hr Hu Hbin Hk [Hsub (f & He)].
  pose proof (submitted_bos _ _ _ _ Hcnt Hsub) as Hbos. pose proof (sub_args _ _ _ _ Hsub) as Ha.
  pose proof (sub_count _ _ _ _ Hsub) as Hn.
  pose proof (took_nil _ Hr) as Ht0.
  unfold vc4_get_bcl, on_jexec. apply wp_bind, wp_get. rewrite Ha.
  destruct (bcl_overflow args) eqn:Ho.
  { destruct (bcl_layout args) as [[[? ?] ?] ?]. apply wp_ret.
    split; [right; by left|]. by exists []. }
  destruct (bcl_layout_exact args Hsz Ho Hpos) as (off & Hoff & Hlay & Hsum).
  specialize (Hfit eq_refl). unfold layout_exact in Hlay. rewrite Hlay in *. simpl in Hfit.
  destruct Hsz as [? ? ? ?] eqn:Esz.
  apply wp_bind, wp_job_kmalloc; [lia|]. intros j1 He1 Hs1.
  pose proof (took_same _ _ _ _ Ht0 Hs1) as Ht1.
  split; [apply wp_ret; split; [right; right; by left|]; by exists []|]. intros room ->.
  pose proof (size_class_range (off + a_shader_rec_size args + a_uniforms_size args +
    8 * a_shader_rec_count args) ltac:(lia)) as [Hroom _].
  apply wp_bind, wp_modify. set (j2 := j1 <| j_exec := _ |>).
  assert (umem (j_dev j2) = umem (j_dev j)) as Hum by apply (same_dev_view _ _ Hs1).
  assert (user_bytes (j_dev j2)) as Hu2 by (unfold user_bytes; by rewrite Hum).
  apply wp_bind, wp_copy_opt; [lia|done|..].
  { apply wp_ret. split; [right; right; by right|]. by exists []. }
  intros bin Hbc Hbl Hbf. apply wp_bind, wp_copy_opt; [lia|done|..].
  { apply wp_ret. split; [right; right; by right|]. by exists []. }
  intros recs Hrc Hrl Hrf. apply wp_bind, wp_on_dev.
  eapply wp_mono; [apply vc4_bo_create_spec; [done|apply Ht1]|]. intros [h|] d3.
  2:{ intros (f' & -> & Hlive & _). apply wp_ret. split; [right; right; by left|]. exists [].
      destruct Ht1 as ([] & Hl & Hf & Hd). split; [|done].
      split_and!; [by constructor| |done|done].
      unfold live at 1. simpl. by rewrite Hlive. }
  intros (bus & f' & Hh & Hbus & Hfresh & Hlive & _ & -> & _ & Hlk & Htop & _).
  destruct (link_new_bo (links (j_dev j1)) [] h) as (l' & El & Hl'); [apply Ht1|set_solver|].
  pose proof (took_new [] h bus (ROUNDUP (off + a_shader_rec_size args + a_uniforms_size args) PGSIZE)
    VC4_BO_TYPE_BCL f' _ _ l' Ht1 Hh Hfresh Hlive ltac:(done) Hl') as Ht4.
  apply wp_bind, wp_modify. apply wp_bind, wp_on_dev.
  eapply wp_ok; [unfold on_links; simpl; rewrite El; reflexivity|].
  apply wp_bind, wp_on_dev. simpl j_dev.
  assert (map_ok (j_dev j1)) as Hm1 by apply Ht1.
  eapply wp_deref; [simpl; apply list_lookup_insert_eq; rewrite Hm1; lia|].
  apply wp_bind, wp_modify. simpl bo_vaddr. simpl bo_paddr. rewrite Z.add_0_r.
  match goal with |- wp _ ?x _ => set (j5 := x) end.
  set (temp := bin ++ _ ++ recs ++ _).
  assert (took [h] (j_dev j) (j_dev j5)) as Ht5 by (apply Ht4).
  assert (bcl_ready args bin recs temp off bus j5) as Hready.
  { destruct (junk_bytes_ok (off - a_bin_cl_size args) Hjunk) as [Hj1 Hj2].
    destruct (junk_bytes_ok (a_uniforms_size args) Hjunk) as [Hj3 Hj4].
    constructor; simpl; rewrite ?He1.
    - do 3 eexists. rewrite He, Hn. reflexivity.
    - exact Hbos.
    - unfold temp. rewrite !Forall_app. done.
    - eexists _, _. split; [reflexivity|]. lia. }
  assert (submitted args (j_dev j) hb (j_exec j5)) as Hsub5.
  { destruct Hsub. by constructor; simpl; rewrite ?He1. }
  eapply wp_mono.
  { apply (run_validators_ok args bin recs temp off bus); try done; try lia.
    - apply Ht5.
    - apply bin_ok_dev; [apply Ht5|]. destruct Ht5 as (_&_&_&(_&Hb5&_)).
      destruct Hbin as (b & ? & ?). exists b. by rewrite Hb5. }
  intros ret j6 (Hret & (m & Hd6) & Hok6). split; [done|]. exists [h].
  split; [rewrite Hd6; by apply took_gmem|]. intros ->.
  destruct (Hok6 eq_refl) as (Hval & p & out & rout & T1 & T2 & L1 & L2 & Hea & Hg).
  split.
  { destruct Hsub5, Hval as (V1 & V2 & V3 & _). by constructor; rewrite ?V1, ?V2, ?V3. }
  destruct (ROUNDUP_page (off + a_shader_rec_size args + a_uniforms_size args)) as [Hru _];
    [lia|unfold PGSIZE; lia|].
  eapply (bcl_done_intro args (j_dev j) hb h bus _ off bin recs temp p out rout j5 j6); try done; try lia.
  - rewrite Hd6. unfold locked. simpl. rewrite Hlk. apply lookup_insert_eq.
  - unfold user_copy in *. by rewrite <-Hum.
  - unfold user_copy in *. by rewrite <-Hum.
Qed.

(** ** Tearing the job down *)

Lemma complete_step_ok h hs j :
  release_ok (h :: hs) (j_dev j) →
  ∃ j', complete_step tt j = Ok (inl tt, j') ∧ release_ok hs (j_dev j') ∧
    live (j_dev j') = live (j_dev j) ∖ {[h]} ∧ dev_frame [h] (j_dev j) (j_dev j') ∧
    gmem (j_dev j') = gmem (j_dev j).
Proof.
  intros [Hm Hl Hn Hv Hs]. destruct (Hs h ltac:(set_solver)) as (Hh & bo & Hbo & Hhd & Hty).
  unfold complete_step. rewrite fmap_cons in Hl.
  set (L := {[unref_list := unref_head h :: (unref_head <$> hs)]} : gmap vlink (list vlink)) in *.
  assert (L !! unref_list = Some (unref_head h :: (unref_head <$> hs))) as HL
    by apply lookup_singleton_eq.
  assert (∀ {A} (m : M (gmap vlink (list_entry vlink)) A) a l, m (links (j_dev j)) = Ok (a, l) →
    on_dev (on_links m) j = Ok (a, j <| j_dev := j_dev j <| links := l |> |>)) as Hon.
  { intros A m a l E. unfold on_dev, on_links. by rewrite E. }
  assert (∀ l, l = links (j_dev j) → j <| j_dev := j_dev j <| links := l |> |> = j) as Heta
    by (intros l ->; by destruct j as [[] e]).
  erewrite bind_ok; [|apply Hon, (list_empty_spec _ _ _ _ Hl HL)]. rewrite Heta by done.
  erewrite bind_ok; [|apply Hon, (list_next_spec _ _ unref_list [] _ [] unref_list (unref_head h)
    ((unref_head <$> hs) ++ [unref_list]) Hl HL); done]. rewrite Heta by done.
  rewrite (bind_ok _ _ _ _ _ eq_refl).
  destruct (rep_del _ _ unref_list [] (unref_head h) (unref_head <$> hs) Hl HL) as (l1 & E1 & Hl1).
  erewrite bind_ok; [|apply Hon, E1].
  set (j1 := j <| j_dev := _ |>).
  destruct (vc4_bo_destroy_spec h bo (j_dev j1) Hbo Hty) as (f & E2 & Hf & _).
  erewrite bind_ok; [|unfold on_dev; rewrite E2; reflexivity].
  eexists. split; [reflexivity|]. simpl.
  pose proof (rep_del_unlisted _ _ unref_list [] (unref_head h) (unref_head <$> hs) Hl HL) as Hun.
  unfold L in Hl1, Hun. simpl app in Hl1, Hun. rewrite insert_singleton_eq in Hl1, Hun.
  assert (live (without_bo h bo f (j_dev j1)) = live (j_dev j) ∖ {[h]}) as Hlive.
  { unfold live at 1. simpl. by rewrite Hf, Hhd. }
  apply NoDup_cons in Hn as [Hnh Hn]. split_and!; [constructor|done| |done].
  - unfold map_ok. simpl. by rewrite length_insert.
  - simpl. by apply rep_forget.
  - done.
  - change (list_to_set hs ⊆ live (without_bo h bo f (j_dev j1))). rewrite Hlive. set_solver.
  - intros h' Hin. destruct (Hs h' ltac:(set_solver)) as (Hr' & bo' & Hbo' & ?).
    split; [done|]. exists bo'. simpl. rewrite list_lookup_insert_ne; [done|].
    assert (h ≠ h') by (intros ->; done). lia.
  - repeat split. intros i Hi. simpl. apply list_lookup_insert_ne.
    apply not_eq_sym, Hi. set_solver.
Qed.

Lemma dev_frame_weaken hs hs' d d' : dev_frame hs d d' → hs ⊆ hs' → dev_frame hs' d d'.
Proof. intros (?&?&?&?&?&Hi) Hsub. split_and!; try done. intros i Hx. apply Hi. set_solver. Qed.

Lemma complete_loop_ok hs fuel j :
  release_ok hs (j_dev j) → (length hs < fuel)%nat →
  wp (loop fuel complete_step tt) j (λ _ j', release_ok [] (j_dev j') ∧
    live (j_dev j') = live (j_dev j) ∖ list_to_set hs ∧ dev_frame hs (j_dev j) (j_dev j') ∧
    gmem (j_dev j') = gmem (j_dev j)).
Proof.
  revert fuel j. induction hs as [|h hs IH]; intros [|fuel] j Hr Hf; simpl in Hf; try lia.
  - eapply wp_ok; [|split_and!; [exact Hr|set_solver|by repeat split|done]].
    rewrite loop_step. unfold complete_step, on_dev, on_links.
    assert (list_empty unref_list (links (j_dev j)) = Ok (true, links (j_dev j))) as E.
    { apply (list_empty_spec _ _ unref_list [] (rel_links _ _ Hr)). apply lookup_singleton_eq. }
    erewrite bind_ok; [|rewrite E; reflexivity]. unfold mret, M_ret. do 2 f_equal.
    by destruct j as [[] e].
  - destruct (complete_step_ok _ _ _ Hr) as (j1 & E1 & Hr1 & Hl1 & Hd1 & Hg1).
    destruct (IH fuel j1 Hr1 ltac:(lia)) as (u & j2 & E2 & Hr2 & Hl2 & Hd2 & Hg2).
    exists u, j2. rewrite loop_step, E1. split; [done|]. split_and!; [done| | |congruence].
    + rewrite Hl2, Hl1. set_solver.
    + eapply dev_frame_trans; eapply dev_frame_weaken; eauto; set_solver.
Qed.

(** The fuel of [vc4_complete_exec] suffices: distinct handles within the
    table are at most as many as its slots. *)
Lemma release_length hs d : release_ok hs d → (length hs ≤ Z.to_nat VC4_DEV_BO_NENTRY)%nat.
Proof.
  intros [_ _ Hn _ Hs]. rewrite <-(length_seqZ 0 VC4_DEV_BO_NENTRY).
  apply submseteq_length, NoDup_submseteq; [done|].
  intros h Hh. apply elem_of_seqZ. destruct (Hs h Hh) as [? _]. lia.
Qed.

Lemma complete_exec_ok hs j :
  release_ok hs (j_dev j) →
  wp vc4_complete_exec j (λ _ j', release_ok [] (j_dev j') ∧
    live (j_dev j') = live (j_dev j) ∖ list_to_set hs ∧ dev_frame hs (j_dev j) (j_dev j') ∧
    gmem (j_dev j') = gmem (j_dev j)).
Proof.
  intros Hr. apply complete_loop_ok; [done|]. pose proof (release_length _ _ Hr). lia.
Qed.

(** ** The ioctl *)

(** What the device and the caller bring along: the table has its size, the
    bin BO a slot, the firmware knows the BOs of the table, the user memory
    consists of bytes. *)
Record submit_ok (args : drm_vc4_submit_cl) d : Prop := {
  so_map : map_ok d;
  so_bin : bin_ok d;
  so_known : known d;
  so_user : user_bytes d;
  so_sizes : sizes_ok args;
  so_handles : 0 ≤ a_bo_handle_count args ≤ 8;
  so_temp : bcl_overflow args = false → (bcl_layout args).2 ≤ 2 ^ 17;
  so_rcl : rcl_args_ok args;
}.

(** A render list for the surfaces of the submission lies in memory [m] from
    [ct1ca] to [ct1ea]. *)
Definition rendered (args : drm_vc4_submit_cl) d (e : vc4_exec_info) (m : gmap Z Z) : Prop :=
  x_args e = args ∧ tiles_ok e ∧ ∃ bs,
    x_ct1ea e = u32 (x_ct1ca e + Z.of_nat (length bs)) ∧
    read_bytes m (x_ct1ca e) (length bs) = Some bs ∧
    decode (length bs) bs = Some (rcl_packets e (bos_of d (setup_of e))).

(** The lists of a job that is handed to the hardware, in memory [m]: the
    translation of the submitted binner list, if there is one, and the render
    list, for the BOs the submission names. *)
Definition handed (args : drm_vc4_submit_cl) d (e : vc4_exec_info) (m : gmap Z Z) : Prop :=
  ∃ hb, submitted args d hb e ∧ rendered args d e m ∧
    if a_bin_cl_size args =? 0 then x_ct0ca e = 0 ∧ x_ct0ea e = 0
    else ∃ size, binner_ready args d size m e.

Lemma handed_view args d d' e m : same_view d d' → handed args d' e m → handed args d e m.
Proof.
  intros Hv (hb & Hs & (Ha & Ht & bs & E1 & E2 & E3) & Hb). exists hb.
  split; [by apply (submitted_view _ _ _ _ _ Hv)|]. split; [split_and!; [done|done|exists bs]|].
  - destruct Hv as (_ & Hm & _). unfold bos_of in *. by rewrite Hm in E3.
  - destruct (_ =? 0); [done|]. destruct Hb as (size & Hb). exists size. by eapply binner_ready_view.
Qed.

Lemma took_trans hs h d d1 d2 :
  took hs d d1 → live d2 = {[h]} ∪ live d1 → h ∉ live d1 → release_ok (hs ++ [h]) d2 →
  dev_frame [h] d1 d2 → took (hs ++ [h]) d d2.
Proof.
  intros (Hr & Hl & Hf & Hd) Hl2 Hfresh Hr2 Hd2. split_and!; [done| | |].
  - rewrite Hl2, Hl, list_to_set_app_L. set_solver.
  - rewrite Hl in Hfresh. set_solver.
  - eapply dev_frame_trans; eapply dev_frame_weaken; eauto; set_solver.
Qed.

(** The part of the ioctl that works on the job. *)
Definition job_post (args : drm_vc4_submit_cl) d (ret : Z) j' : Prop :=
  ioctl_ret ret ∧ ∃ hs jm, took hs d (j_dev jm) ∧
    ((ret ≠ 0 ∧ j' = jm) ∨
     (ret = 0 ∧ j' = add_log (job_log (j_exec jm)) jm ∧ handed args d (j_exec jm) (gmem (j_dev jm)))).

Lemma job_post_err args d ret hs j' :
  ioctl_ret ret → ret ≠ 0 → took hs d (j_dev j') → job_post args d ret j'.
Proof. intros. split; [done|]. exists hs, j'. auto. Qed.

(** The binner's part before the render list is built. *)
Definition bin_part (args : drm_vc4_submit_cl) d (hs : list Z) j : Prop :=
  if a_bin_cl_size args =? 0 then x_ct0ca (j_exec j) = 0 ∧ x_ct0ea (j_exec j) = 0
  else bcl_done args d hs j.

(** The BOs of the surfaces are the ones they were. *)
Lemma bos_of_kept args d d' hb e hs :
  took hs d d' → known d → submitted args d hb e →
  bos_of d' (setup_of e) = bos_of d (setup_of e).
Proof.
  intros Ht [Hk _] [_ _ _ _ Hf].
  assert (∀ surf, (surface_of e surf ≫= λ h, handle_bo_map d' !! Z.to_nat h) =
    (surface_of e surf ≫= λ h, handle_bo_map d !! Z.to_nat h)) as Hs.
  { intros surf. unfold surface_of. destruct (_ =? _); [done|].
    destruct (x_bo e !! _) as [h|] eqn:E; [|done]. simpl. rewrite Forall_lookup in Hf.
    destruct (Hf _ _ E) as [Hh Hfound]. eapply took_slot; eauto. }
  unfold bos_of, setup_of. simpl. by rewrite !Hs.
Qed.

(** Building the render list leaves the binner's list alone. *)
Lemma bin_part_kept args d hs j bus n m' e' :
  bin_part args d hs j → apart (j_dev j) bus (ROUNDUP n PGSIZE) → n ≤ ROUNDUP n PGSIZE →
  mem_frame bus (bus + n) (gmem (j_dev j)) m' →
  (∃ b1 b2, e' = j_exec j <| x_ct1ca := b1 |> <| x_ct1ea := b2 |>) →
  if a_bin_cl_size args =? 0 then x_ct0ca e' = 0 ∧ x_ct0ea e' = 0
  else ∃ size, binner_ready args d size m' e'.
Proof.
  unfold bin_part. intros Hb Hap Hn Hm (b1 & b2 & ->). destruct (_ =? 0); [done|].
  destruct Hb as (h & size & _ & Hlk & Hb). exists size. eapply binner_ready_ext; [exact Hb|..]; try done.
  intros x Hx. apply Hm. specialize (Hap _ _ _ Hlk). lia.
Qed.

Lemma finish_ok args d hb hs j :
  hw_responds → known d → took hs d (j_dev j) → 0 ≤ a_bo_handle_count args →
  submitted args d hb (j_exec j) → bin_part args d hs j → rcl_args_ok args →
  wp (ret ← vc4_get_rcl; if negb (ret =? 0) then mret ret
      else _ ← vc4_queue_submit hw polls; mret ret) j (job_post args d).
Proof.
  intros Hhw Hk Ht Hcnt Hsub Hbin Hra. pose proof (submitted_bos _ _ _ _ Hcnt Hsub) as Hb.
  pose proof (sub_args _ _ _ _ Hsub) as Ha. apply wp_bind.
  eapply wp_mono; [apply (vc4_get_rcl_ok hs j); [split; [apply Ht|done]|by rewrite Ha]|].
  intros ret j1 [(Hret & [Hr1 _] & He & Hd & Hl & Hg)|(-> & Htl & Hs & Hb1)].
  - assert (ret ≠ 0) by (destruct Hret as [->| ->]; done).
    rewrite (proj2 (Z.eqb_neq ret 0)) by done. simpl. apply wp_ret.
    apply job_post_err with hs; [unfold ioctl_ret; naive_solver|done|].
    destruct Ht as (_ & Hl0 & Hf0 & Hd0). split_and!; [done|congruence|done|].
    eapply dev_frame_trans; [done|]. eapply dev_frame_weaken; [done|set_solver].
  - simpl. destruct Hb1 as (h & bus & b & Hfresh & Hl & [Hr1 _] & Hd & Hbo & Hru & He & Hmf & Hap & Hma &
      Eb & bs & Hrd & Hdec).
    assert (took (hs ++ [h]) d (j_dev j1)) as Ht1 by (by eapply took_trans).
    apply wp_bind. eapply wp_ok; [by apply queue_submit_ok|]. apply wp_ret.
    split; [by left|]. exists (hs ++ [h]), j1. split; [done|]. right.
    pose proof (read_bytes_length _ _ _ _ Hrd) as Hlen.
    pose proof (rcl_size_range _ _ Htl (so_write _ _ Hs)) as Hsz.
    split_and!; [done|done|]. exists hb. split_and!.
    + rewrite He. by destruct Hsub.
    + rewrite He. split_and!; [done|by destruct Htl|]. exists bs. simpl.
      rewrite Hlen, Z2Nat.id by lia. split_and!; [done|done|].
      rewrite Hlen, Eb, (bos_of_kept args d (j_dev j1) hb (j_exec j) (hs ++ [h])) in Hdec by done.
      exact Hdec.
    + rewrite He. eapply bin_part_kept; [exact Hbin|exact Hap|exact Hru|exact Hmf|eauto].
Qed.

Definition set_no_bin : M (jstate FW) Z :=
  _ ← on_jexec (λ e, e <| x_ct0ca := 0 |> <| x_ct0ea := 0 |>); mret 0.

(** The binner stage: the list is built, or there is none. *)
Lemma bin_stage_ok args d hb j :
  (∀ i, 0 ≤ junk i < 256) → submit_ok args d → release_ok [] d → same_dev d (j_dev j) →
  looked_up args d hb (j_exec j) →
  wp (if has_bin (j_exec j) then vc4_get_bcl kalloc junk else set_no_bin) j (λ ret j',
    ioctl_ret ret ∧ ∃ hs, took hs d (j_dev j') ∧
    (ret = 0 → submitted args d hb (j_exec j') ∧ bin_part args d hs j')).
Proof.
  intros Hjunk [] Hr Hs [Hsub (f & He)]. pose proof (sub_args _ _ _ _ Hsub) as Ha.
  pose proof (took_same _ _ _ _ (took_nil _ Hr) Hs) as Ht1. pose proof (same_dev_view _ _ Hs) as Hv.
  unfold bin_part. destruct (has_bin (j_exec j)) eqn:Hbin; unfold has_bin in Hbin; rewrite Ha in Hbin; cycle 1.
  { apply negb_false_iff in Hbin. rewrite Hbin.
    eapply wp_ok; [reflexivity|]. split; [by left|]. exists []. split; [done|]. intros _.
    split; [|done]. by destruct Hsub. }
  apply negb_true_iff in Hbin. rewrite Hbin. apply Z.eqb_neq in Hbin.
  pose proof Hv as (Hum & Hmap & Hbn & Hbs).
  eapply wp_mono; [apply (get_bcl_ok args hb j Hjunk so_sizes0)|].
  - destruct so_sizes0 as [Hbs' _ _ _]. clear -Hbin Hbs'. lia.
  - done.
  - lia.
  - apply Ht1.
  - unfold user_bytes. by rewrite Hum.
  - destruct so_bin0 as (b & ? & ?). exists b. by rewrite Hbn.
  - unfold known, bo_found in *. rewrite (same_dev_live _ _ Hs), Hmap, Hbn. done.
  - split; [by apply (submitted_view _ _ _ _ _ Hv)|by exists f].
  - intros ret j2 (Hret2 & hs & Ht2 & Hdone). split; [done|]. exists hs. split.
    + by apply (took_from _ _ _ _ Hs).
    + intros ->. destruct (Hdone eq_refl) as (Hsub2 & h & size & -> & Hlk & Hb2).
      split; [by apply (submitted_view _ _ _ _ _ Hv)|]. exists h, size. split_and!; [done|done|].
      by eapply binner_ready_view.
Qed.

Lemma run_job_ok args j :
  (∀ i, 0 ≤ junk i < 256) → hw_responds → submit_ok args (j_dev j) →
  release_ok [] (j_dev j) → j_exec j = zero_exec args →
  wp (run_job kalloc junk hw polls) j (job_post args (j_dev j)).
Proof.
  intros Hjunk Hhw Hok Hr He. pose proof Hok as []. unfold run_job. apply wp_bind.
  eapply wp_mono; [by apply (lookup_bos_ok args)|]. intros ret j1 (Hret & Hs1 & Hok1).
  pose proof (took_same _ _ _ _ (took_nil _ Hr) Hs1) as Ht1.
  destruct (Z.eqb_spec ret 0) as [->|Hne]; cbn [negb];
    [|apply wp_ret; by apply (job_post_err args (j_dev j) ret [])].
  destruct (Hok1 eq_refl) as (hb & Hlk).
  apply wp_bind, wp_get. apply wp_bind.
  eapply wp_mono; [apply (bin_stage_ok args (j_dev j) hb j1 Hjunk Hok Hr Hs1 Hlk)|].
  intros ret j2 (Hret2 & hs & Ht & Hdone).
  destruct (Z.eqb_spec ret 0) as [->|Hne2]; cbn [negb];
    [|apply wp_ret; by apply (job_post_err args (j_dev j) ret hs)].
  destruct (Hdone eq_refl) as (Hb2 & Ha2). apply (finish_ok args (j_dev j) hb hs); try done. lia.
Qed.

(** The state a job starts from: the heap block of the exec structure was
    allocated and the release list initialised. *)
Lemma start_ok args d d1 :
  submit_ok args d → same_dev d d1 →
  let d2 := d1 <| links := <[unref_list := mk_entry unref_list unref_list]> (links d1) |> in
  release_ok [] d2 ∧ submit_ok args d2.
Proof.
  intros Hok (Hm1 & _ & Hf1 & _ & (_ & Hbn1 & _ & _ & Hum1 & _)) d2.
  assert (release_ok [] d2) as Hr2.
  { constructor; simpl; [unfold map_ok; simpl; rewrite Hm1; apply Hok| |constructor|set_solver|set_solver].
    destruct (rep_init (K := vlink) (delete unref_list (links d1)) ∅ unref_list) as (l & E & Hrep).
    - split; by intros ?.
    - apply unlisted_available. by intros ? ?.
    - injection E as <-. by rewrite insert_delete_eq in Hrep. }
  split; [done|]. destruct Hok as [? (hb & ? & ?) Hk ? ? ? ? ?]. constructor; try done.
  - apply Hr2.
  - exists hb. simpl. by rewrite Hbn1.
  - unfold known, bo_found, live in *. simpl. by rewrite Hm1, Hf1, Hbn1.
  - unfold user_bytes. simpl. by rewrite Hum1.
Qed.

(** What the ioctl promises about the device afterwards. *)
Definition submit_post (args : drm_vc4_submit_cl) d (ret : Z) d' : Prop :=
  ioctl_ret ret ∧ live d' = live d ∧
  (∀ h, h ∈ live d → 0 ≤ h → handle_bo_map d' !! Z.to_nat h = handle_bo_map d !! Z.to_nat h) ∧
  (ret ≠ 0 → v3d_log d' = v3d_log d) ∧
  (ret = 0 → ∃ e, v3d_log d' = v3d_log d ++ job_log e ∧ handed args d e (gmem d')).

(** Running the job and tearing it down. *)
Lemma complete_post args d ret j :
  job_post args d ret j → wp vc4_complete_exec j (λ _ j', submit_post args d ret (j_dev j')).
Proof.
  intros (Hret & hs & jm & (Hrm & Hlm & Hfm & Hdm) & Hcase).
  assert (release_ok hs (j_dev j) ∧ live (j_dev j) = live (j_dev jm) ∧
    gmem (j_dev j) = gmem (j_dev jm) ∧ handle_bo_map (j_dev j) = handle_bo_map (j_dev jm))
    as (Hr3 & Hl3 & Hg3 & Hm3).
  { destruct Hcase as [[_ ->]|(_ & -> & _)]; [done|]. destruct Hrm.
    split_and!; [by constructor|done..]. }
  eapply wp_mono; [by apply (complete_exec_ok hs)|].
  intros _ j4 (_ & Hl4 & (Hlog4 & _ & _ & _ & _ & Hi4) & Hg4).
  destruct Hdm as (Hlogm & _ & _ & _ & _ & Him). split_and!; [done| | | |].
  - rewrite Hl4, Hl3, Hlm. set_solver.
  - intros h Hh Hh0. assert (∀ h', h' ∈ hs → Z.to_nat h ≠ Z.to_nat h') as Hne.
    { intros h' Hin E. destruct (rel_slots _ _ Hrm h' Hin) as [? _].
      assert (h = h') as -> by lia. by apply (Hfm h'). }
    by rewrite Hi4, Hm3, Him.
  - intros Hne. destruct Hcase as [[_ ->]|(-> & _)]; [congruence|done].
  - intros ->. destruct Hcase as [[? _]|(_ & -> & Hrn)]; [done|]. exists (j_exec jm). split.
    + rewrite Hlog4. simpl. congruence.
    + by rewrite Hg4, Hg3.
Qed.

Lemma submit_job_ok args d :
  (∀ i, 0 ≤ junk i < 256) → hw_responds → submit_ok args d →
  wp (submit_job kalloc junk hw polls) (mk_job d (zero_exec args)) (λ ret j,
    submit_post args d ret (j_dev j)).
Proof.
  intros Hjunk Hhw Hok. unfold submit_job.
  apply wp_bind, wp_job_kmalloc; [unfold sizeof_vc4_exec_info; lia|].
  intros j1 He1 Hs1. simpl in He1, Hs1.
  pose proof Hs1 as (Hm1 & _ & _ & _ & (Hlog1 & _)). pose proof (same_dev_live _ _ Hs1) as Hl1.
  split.
  { apply wp_ret. split_and!; [unfold ioctl_ret; naive_solver|done| |done|done].
    intros h _ _. by rewrite Hm1. }
  intros room _. destruct (start_ok _ _ _ Hok Hs1) as [Hr2 Hok2].
  apply wp_bind, wp_on_dev. eapply wp_ok; [reflexivity|].
  match goal with |- wp _ ?x _ => set (j2 := x) end.
  apply wp_bind. eapply wp_mono; [apply (run_job_ok args j2 Hjunk Hhw Hok2 Hr2); by rewrite <-He1|].
  intros ret j3 Hpost. apply wp_bind. eapply wp_mono; [by apply (complete_post args (j_dev j2))|].
  intros _ j4 (? & Hl & Hi & Hn & Hz). apply wp_ret.
  change (live (j_dev j2)) with (live (j_dev j1)) in *.
  change (v3d_log (j_dev j2)) with (v3d_log (j_dev j1)) in *.
  change (handle_bo_map (j_dev j2)) with (handle_bo_map (j_dev j1)) in *.
  rewrite Hl1, Hlog1, Hm1 in *. split_and!; try done.
  intros E. destruct (Hz E) as (e & Hlog & Hh). exists e. split; [done|].
  eapply handed_view; [|exact Hh]. pose proof (same_dev_view _ _ Hs1) as (Hv1 & Hv2 & Hv3 & Hv4). done.
Qed.


(** The handle buffer of [vc4_cl_lookup_bos] is allocated with the number
    of handles as its size in bytes: with 9 handles or more the copy of four
    bytes per handle runs past the end of the heap object. *)
Theorem lookup_bos_overruns_handles (n : Z) (bs : list Z) (j : jstate FW) :
  9 ≤ n ≤ 2 ^ 15 → a_bo_handle_count (x_args (j_exec j)) = n → (∀ i, kalloc i = true) →
  read_bytes (umem (j_dev j)) (u32 (a_bo_handles (x_args (j_exec j)))) (Z.to_nat (4 * n)) = Some bs →
  vc4_cl_lookup_bos kalloc j = Err Fault.
Proof.
  intros Hn Hc Hk Hbs. unfold vc4_cl_lookup_bos. rewrite (bind_ok _ _ _ _ _ eq_refl).
  cbv zeta. rewrite Hc, (bind_ok _ _ _ _ _ eq_refl), (proj2 (Z.eqb_neq n 0)) by lia.
  rewrite (bind_ok _ _ _ _ _ eq_refl), (u32_id (n * 4)) by lia.
  assert (∀ size j, 0 < size ≤ 2 ^ 17 → job_kmalloc kalloc size j =
    Ok (Some (size_class size), j <| j_dev := j_dev j <| kcount := S (kcount (j_dev j)) |> |>)) as Hkm.
  { intros size j' Hs. unfold job_kmalloc. rewrite !(bind_ok _ _ _ _ _ eq_refl).
    rewrite kmalloc_ok by done. by rewrite Hk. }
  rewrite (bind_ok _ _ _ _ _ (Hkm (n * 4) _ ltac:(lia))), (bind_ok _ _ _ _ _ (Hkm n _ ltac:(lia))).
  apply bind_err. unfold job_copy_from_user. rewrite (bind_ok _ _ _ _ _ eq_refl). simpl.
  rewrite (Z.mul_comm n 4), Hbs.
  pose proof (size_class_range n ltac:(lia)) as [_ Hlt].
  by destruct (Z.ltb_spec (size_class n) (4 * n)); [|lia].
Qed.

End gem_spec.
