(* ===== verification/Vc4Sim.v ===== *)
(** * A concrete device

    A firmware that obeys the interface of [Vc4BoSpec] (handles are numbered
    from 1), a device with a bin BO, and submissions for it.  The theorems
    about the driver are applied to them: their hypotheses can be met, and the
    driver runs. *)

From S2P Require Import Prelude DList Mem Slab Vc4Cl Vc4Bo Vc4BoSpec Vc4Validate.
From S2P Require Import Vc4Reloc Vc4ValidateSpec Vc4Render Vc4RenderSpec Vc4Gem Vc4GemSpec.

(** ** The firmware: the allocated blocks and the locked ones *)

Record sim : Type := mk_sim { blocks : gmap Z Z; held : gmap Z (Z * Z) }.

Definition new_handle (f : sim) : Z := 1 + foldr Z.max 0 (map_to_list (blocks f)).*1.

Definition sim_answer (w : Z) : list Z := [24; RPI_FIRMWARE_STATUS_SUCCESS; 0; 0; 0; w; 0].

(** The block of a handle lies at a fixed place of its own, 1 MB long. *)
Definition sim_bus (h : Z) : Z := u32 (1073741824 + 1048576 * h).
Definition sim_fits (f : sim) (h : Z) : bool :=
  let size := default 0 (blocks f !! h) in
  negb (sim_bus h =? 0) && (sim_bus h + size <=? 2 ^ 32) &&
  forallb (λ x, (x.1 =? h) || (sim_bus h + size <=? x.2.1) || (x.2.1 + x.2.2 <=? sim_bus h))
    (map_to_list (held f)).

#[export] Instance sim_firmware : Firmware sim := λ buf f,
  let tag := default 0 (buf !! 2%nat) in
  let arg := default 0 (buf !! 5%nat) in
  if tag =? RPI_FIRMWARE_ALLOCATE_MEMORY then
    let h := new_handle f in
    if (h <? 1000) && bool_decide (held f !! h = None) then
      (sim_answer h, mk_sim (<[h := arg]> (blocks f)) (held f))
    else (sim_answer 0, f)
  else if tag =? RPI_FIRMWARE_LOCK_MEMORY then
    if sim_fits f arg then
      (sim_answer (sim_bus arg),
       mk_sim (blocks f) (<[arg := (sim_bus arg, default 0 (blocks f !! arg))]> (held f)))
    else (sim_answer 0, f)
  else if tag =? RPI_FIRMWARE_UNLOCK_MEMORY then
    (sim_answer 0, mk_sim (blocks f) (delete arg (held f)))
  else if tag =? RPI_FIRMWARE_RELEASE_MEMORY then
    (sim_answer 0, mk_sim (delete arg (blocks f)) (held f))
  else (sim_answer 0, f).

Lemma foldr_max_ge (l : list Z) : 0 ≤ foldr Z.max 0 l.
Proof. induction l as [|x l IH]; simpl; lia. Qed.
Lemma foldr_max_in (l : list Z) x : x ∈ l → x ≤ foldr Z.max 0 l.
Proof. induction 1; simpl; lia. Qed.

Lemma new_handle_free f : 0 < new_handle f ∧ blocks f !! new_handle f = None.
Proof.
  unfold new_handle. pose proof (foldr_max_ge (map_to_list (blocks f)).*1). split; [lia|].
  destruct (_ !! _) as [n|] eqn:E; [|done].
  assert (1 + foldr Z.max 0 (map_to_list (blocks f)).*1 ∈ (map_to_list (blocks f)).*1) as Hin.
  { apply list_elem_of_fmap. eexists (_, n). split; [done|]. by apply elem_of_map_to_list. }
  apply foldr_max_in in Hin. lia.
Qed.

Lemma sim_answer_ok h : answer (sim_answer h) = h.
Proof. reflexivity. Qed.

#[export] Program Instance sim_laws : FirmwareLaws sim := {
  fw_blocks f := blocks f;
  fw_locked f := held f;
}.
Next Obligation.
  intros buf f. unfold mbox_call, sim_firmware. pose proof (new_handle_free f) as [Hge _].
  assert (∀ w, 0 ≤ w < 2 ^ 32 → Forall (λ w, 0 ≤ w < 2 ^ 32) (sim_answer w)) as Hans.
  { intros w Hw. unfold sim_answer, RPI_FIRMWARE_STATUS_SUCCESS.
    rewrite !Forall_cons. split_and!; try lia. constructor. }
  destruct (_ =? _).
  { destruct (Z.ltb_spec (new_handle f) 1000); simpl; [destruct (bool_decide _)|]; apply Hans; lia. }
  destruct (_ =? _); [destruct (sim_fits _ _); simpl; apply Hans; [apply u32_range|lia]|].
  destruct (_ =? _); [simpl; apply Hans; lia|].
  destruct (_ =? _); simpl; apply Hans; lia.
Qed.
Next Obligation.
  intros size align flags f. cbv zeta. pose proof (new_handle_free f) as [Hge Hn].
  unfold mbox_call, sim_firmware. cbn -[new_handle Z.ltb].
  destruct (new_handle f <? 1000); [|by split; [|left]].
  case_bool_decide as Hh; cbn [fst snd andb]; [|by split; [|left]]. split; [done|right].
  rewrite sim_answer_ok. split_and!; [lia|done..].
Qed.
Next Obligation.
  intros h size f Hh. unfold mbox_call, sim_firmware.
  cbn -[sim_bus sim_answer answer sim_fits]. destruct (sim_fits f h) eqn:E; cbn [fst snd]; [|by split; [|left]].
  rewrite sim_answer_ok. split; [done|right]. unfold sim_fits in E. rewrite Hh in *. cbn [default] in *.
  apply andb_true_iff in E as [[E1 E2]%andb_true_iff E3].
  apply negb_true_iff, Z.eqb_neq in E1. apply Z.leb_le in E2. split_and!; [done..|].
  intros h' b n Hne Hb. rewrite forallb_forall in E3.
  specialize (E3 (h', (b, n)) ltac:(by apply list_elem_of_In, elem_of_map_to_list)).
  cbn [fst snd] in E3. rewrite (proj2 (Z.eqb_neq _ _) Hne) in E3. cbn [orb] in E3.
  apply orb_true_iff in E3 as [E3%Z.leb_le|E3%Z.leb_le]; auto.
Qed.
Next Obligation. done. Qed.
Next Obligation. done. Qed.

(** ** The device *)

Definition bin_slot : vc4_bo := mk_bo 524288 1 1074790400 1074790400 VC4_BO_TYPE_BIN.
Definition fb_slot : vc4_bo := mk_bo 1228800 2 1075838976 1075838976 VC4_BO_TYPE_FB.

Definition dev0 : vc4_state sim :=
  mk_vc4 (Some 2) (Some 1) 524288
    (<[1%nat := bin_slot]> (<[2%nat := fb_slot]>
      (replicate (Z.to_nat VC4_DEV_BO_NENTRY) zero_bo)))
    ∅ ∅ ∅ (mk_sim {[1 := 524288; 2 := 1228800]} {[1 := (1074790400, 524288)]})
    (write_bytes 100 (le_bytes 4 2) (write_bytes 200 (le_bytes 4 1)
      (write_bytes 300 [6; 1; 0] ∅)))
    0%nat [].

Definition no_surface : drm_vc4_submit_rcl_surface := mk_surface (2 ^ 32 - 1) 0 0 0.

(** One BO (the framebuffer), a binner list of three packets, a rectangle of
    one tile. *)
Definition args0 : drm_vc4_submit_cl :=
  mk_submit 300 0 0 100 3 0 0 0 1 64 64 0 0 0 0 no_surface (mk_surface 0 0 4 0) no_surface no_surface
    0 0 0 0 1.

Lemma dev0_map : map_ok dev0.
Proof. reflexivity. Qed.

Lemma dev0_user : user_bytes dev0.
Proof. apply map_Forall_to_list. vm_compute. repeat constructor; done. Qed.

Definition hw0 : list (Z * Z) → nat → Z → Z := λ _ _ _, 1.

Lemma hw0_responds : hw_responds hw0 1.
Proof. intros log. split_and!; [intros t|..]; exists 0%nat; (split; [lia|done]). Qed.

Lemma dev0_known : known dev0.
Proof.
  split; [|by intros h [= <-]]. intros h Hh Hf.
  destruct (decide (h = 1)) as [->|H1]; [done|]. destruct (decide (h = 2)) as [->|H2]; [done|].
  exfalso. apply andb_true_iff in Hf as [_ Hf].
  destruct (handle_bo_map dev0 !! Z.to_nat h) as [bo|] eqn:E; [|done].
  unfold dev0 in E. cbn [handle_bo_map] in E. rewrite !list_lookup_insert_ne in E by lia.
  apply lookup_replicate in E as [-> _]. by rewrite andb_false_r in Hf.
Qed.

Lemma args0_ok : submit_ok args0 dev0.
Proof.
  constructor; [exact dev0_map|by exists 1|exact dev0_known|exact dev0_user| | | |].
  - by constructor.
  - done.
  - intros _. by vm_compute.
  - by constructor.
Qed.


(** ** Validation *)

Definition exec0 : vc4_exec_info :=
  zero_exec args0 <| x_bo := [2] |> <| x_bo_count := 1 |> <| x_ct0ca := 4096 |>.

(** Handles, a shader state, two indices from offset 16 of the first BO, one
    tile, and the end of the list. *)
Definition bin1 : list Z :=
  [254; 0; 0; 0; 0; 0; 0; 0; 0] ++ [65; 0; 0; 0; 0] ++
  [32; 4; 2; 0; 0; 0; 16; 0; 0; 0; 1; 0; 0; 0] ++
  [112; 0; 0; 0; 0; 0; 0; 0; 0; 0; 0; 0; 0; 1; 1; 0] ++ [6; 4; 0].
Definition args1 : drm_vc4_submit_cl :=
  mk_submit 300 0 0 100 47 28 1 0 1 64 64 0 0 0 0 no_surface (mk_surface 0 0 4 0) no_surface no_surface
    0 0 0 0 1.
Definition exec1 : vc4_exec_info :=
  zero_exec args1 <| x_bo := [2] |> <| x_bo_count := 1 |> <| x_ct0ca := 4096 |>
    <| x_shader_state := [mk_shader_state 7 7] |> <| x_shader_state_size := 1 |>
    <| x_shader_rec_p := 4144 |>.

Lemma exec1_ok : exec_ok dev0 exec1.
Proof. constructor; simpl; try lia. repeat constructor. by eexists. Qed.

Lemma dev0_dev_ok : dev_ok dev0.
Proof. exists 1. split; [done|by eexists]. Qed.

Definition start1 : vstate := mk_vstate exec1 ∅.
Definition out1 : cl_state * list Z :=
  default (cl_start, []) (translate_cl (job_of dev0 4144 exec1) cl_start bin1).

Lemma out1_ok : translate_cl (job_of dev0 4144 exec1) cl_start bin1 = Some out1.
Proof. vm_compute. reflexivity. Qed.


(** One shader record with three handles, a stride of 12 and offsets. *)
Definition rec1 : list Z :=
  replicate 12 0 ++ [0; 12; 0; 0] ++ [64; 0; 0; 0] ++ [128; 0; 0; 0] ++ [0; 1; 0; 0].
Definition rec_exec1 : vc4_exec_info :=
  exec1 <| x_shader_state := [mk_shader_state 0 1] |> <| x_shader_state_count := 1 |>
        <| x_shader_rec_size := 28 |> <| x_shader_rec_v := 4144 |>.

Lemma rec_exec1_ok : rec_ok dev0 rec1 rec_exec1.
Proof.
  constructor; simpl; try lia. constructor; simpl; try lia. repeat constructor. by eexists.
Qed.

Definition rec_start1 : vstate := mk_vstate rec_exec1 ∅.
Definition rec_out1 : list Z :=
  default [] (translate_recs (job_of dev0 4144 rec_exec1) (rec_states rec_exec1) (rec_bytes rec1 rec_exec1)).

Lemma rec_out1_ok :
  translate_recs (job_of dev0 4144 rec_exec1) (rec_states rec_exec1) (rec_bytes rec1 rec_exec1)
    = Some rec_out1.
Proof. vm_compute. reflexivity. Qed.


(** ** Buffer objects *)


Lemma vc4_free_bin_bo_witness :
  ∃ d', vc4_free_bo_ioctl 1 dev0 = Ok (0, d') ∧ bin_bo d' = Some 1 ∧ 1 ∉ live d'.
Proof.
  destruct (vc4_free_bo_ioctl_frees_bin_bo 1 bin_slot dev0 dev0_map
    ltac:(split; reflexivity) eq_refl eq_refl eq_refl eq_refl ltac:(discriminate))
    as (ret & d' & E & -> & Hb & Hl & _).
  exists d'. by split_and!.
Defined.

(** ** Render lists *)

Definition dev1 : vc4_state sim :=
  dev0 <| links := {[unref_list := mk_entry unref_list unref_list]} |>.
Definition job1 : jstate sim := mk_job dev1 exec0.

Lemma job1_ok : job_ok [] job1.
Proof.
  split; [|split; simpl; [lia|repeat constructor; done]].
  constructor; simpl; [done| |constructor|set_solver|set_solver].
  destruct (rep_init (K := vlink) ∅ ∅ unref_list rep_empty) as (l & E & Hrep).
  { apply unlisted_available. by intros ? ?. }
  by injection E as <-.
Qed.

Lemma vc4_get_rcl_witness :
  ∃ j', vc4_get_rcl job1 = Ok (0, j') ∧ rcl_built [] (setup_of exec0) job1 j'.
Proof.
  destruct (vc4_get_rcl_correct [] job1 job1_ok ltac:(by constructor)) as (ret & j' & E & Hcase).
  destruct Hcase as [([->| ->] & _)|(-> & _ & _ & Hb)].
  - vm_compute in E. discriminate E.
  - vm_compute in E. discriminate E.
  - by exists j'.
Defined.

Definition bos0 : rcl_bos := mk_rcl_bos None (Some fb_slot) None None.

Lemma exec0_tiles : tiles_ok exec0.
Proof. by constructor. Qed.

Lemma rcl_single_end_of_frame_witness : eofs (rcl_packets exec0 bos0) = 1%nat.
Proof. exact (rcl_single_end_of_frame exec0 bos0 exec0_tiles eq_refl). Defined.

(** Tile column 255. *)
Definition args255 : drm_vc4_submit_cl :=
  mk_submit 300 0 0 100 3 0 0 0 1 64 64 0 0 255 0 no_surface (mk_surface 0 0 4 0) no_surface
    no_surface 0 0 0 0 1.

Lemma x_loop_diverges_witness :
  x_loop (zero_exec args255) bos0 0 (mk_cl 0 0 0 0, ∅) = Err OutOfFuel.
Proof.
  exact (proj2 (x_loop_diverges (zero_exec args255) bos0 0 (mk_cl 0 0 0 0, ∅) 0 eq_refl
    ltac:(split; [discriminate|reflexivity]))).
Defined.

Lemma bin_bound_off_by_one_witness :
  tile_bin exec0 0 0 false = tile_bin exec0 0 1 false.
Proof. exact (proj2 (bin_bound_off_by_one exec0 0 eq_refl eq_refl eq_refl)). Defined.

(** ** Sizes *)

Lemma bcl_overflow_check_witness :
  ∃ off, 3 ≤ off < 19 ∧ layout_exact args0 off.
Proof.
  destruct (bcl_overflow_check_complete args0 ltac:(by constructor) eq_refl eq_refl)
    as (off & Hoff & Hl & _).
  by exists off.
Defined.

(** Nine handles. *)
Definition args9 : drm_vc4_submit_cl :=
  mk_submit 300 0 0 400 3 0 0 0 9 64 64 0 0 0 0 no_surface (mk_surface 0 0 4 0) no_surface
    no_surface 0 0 0 0 1.
Definition job9 : jstate sim :=
  mk_job (dev1 <| umem := write_bytes 400 (replicate 36 0) ∅ |>) (zero_exec args9).

Lemma lookup_bos_overruns_witness : vc4_cl_lookup_bos (λ _, true) job9 = Err Fault.
Proof.
  exact (lookup_bos_overruns_handles (λ _, true) 9 (replicate 36 0) job9
    ltac:(split; discriminate) eq_refl (λ _, eq_refl) ltac:(vm_compute; reflexivity)).
Defined.
