(* ===== verification/Kern.v ===== *)
(** * Kernel objects: processes, run queues, timers, waits, semaphores

    The state that [schedule/sched.c], [sync/wait.c] and [sync/sem.c] share.
    Objects are named by integers (their addresses); the [list_entry_t]
    members that link them are keys of the list store of [DList].

    Interrupts are disabled, or a spin lock is held, around every operation
    below ([local_intr_save], [spin_lock_irqsave]), so each of them is one
    atomic step; [proc_run] switches [current], and what the resumed process
    does next is another step. *)

From S2P Require Import Prelude DList.

(** The linked members: [proc->run_link], [rq->run_list], [rq->rq_link],
    [proc->thread_group], [timer_list], [timer->timer_link],
    [queue->wait_head], [wait->wait_link]. *)
Inductive klink : Type :=
| run_link (p : Z)
| run_list (q : Z)
| rq_link (q : Z)
| thread_group (p : Z)
| timer_list
| timer_link (t : Z)
| wait_head (q : Z)
| wait_link (w : Z).

#[export] Instance klink_eq_dec : EqDecision klink.
Proof. solve_decision. Defined.
#[export] Instance klink_countable : Countable klink.
Proof.
  refine (inj_countable'
    (λ k, match k with
          | run_link p => (0, p) | run_list p => (1, p) | rq_link p => (2, p)
          | thread_group p => (3, p) | timer_list => (4, 0) | timer_link p => (5, p)
          | wait_head p => (6, p) | wait_link p => (7, p) end)
    (λ x, match x with
          | (0, p) => run_link p | (1, p) => run_list p | (2, p) => rq_link p
          | (3, p) => thread_group p | (4, _) => timer_list | (5, p) => timer_link p
          | (6, p) => wait_head p | (_, p) => wait_link p end) _).
  by intros [].
Defined.

Inductive proc_state : Type := PROC_UNINIT | PROC_SLEEPING | PROC_RUNNABLE | PROC_ZOMBIE.
#[export] Instance proc_state_eq_dec : EqDecision proc_state.
Proof. solve_decision. Defined.

(** The members of [struct proc_struct] that scheduling uses. *)
Record proc_struct : Type := mk_proc {
  state : proc_state;
  pid : Z;
  flags : Z;
  wait_state : Z;
  need_resched : Z;
  time_slice : Z;
  rq : option Z;
  runs : Z;
  cpu_affinity : Z;
}.
#[export] Instance eta_proc_struct : Eta proc_struct := λ r,
  mk_proc (state r) (pid r) (flags r) (wait_state r) (need_resched r) (time_slice r) (rq r)
    (runs r) (cpu_affinity r).

Record run_queue : Type := mk_rq { proc_num : Z; max_time_slice : Z }.
#[export] Instance eta_run_queue : Eta run_queue := λ r, mk_rq (proc_num r) (max_time_slice r).

(** [timer_t]; [linux_timer] is the callback's argument when the timer is one
    of the Linux compatibility layer. *)
Record timer_t : Type := mk_timer { expires : Z; t_proc : Z; linux_timer : option Z }.
#[export] Instance eta_timer_t : Eta timer_t := λ r,
  mk_timer (expires r) (t_proc r) (linux_timer r).

Record wait_t : Type := mk_wait { w_proc : Z; wakeup_flags : Z; wait_queue : option Z }.
#[export] Instance eta_wait_t : Eta wait_t := λ r,
  mk_wait (w_proc r) (wakeup_flags r) (wait_queue r).

(** [semaphore_t]; its wait queue has the address of the semaphore. *)
Record semaphore_t : Type := mk_sem { value : Z; valid : bool; sem_count : Z }.
#[export] Instance eta_semaphore_t : Eta semaphore_t := λ r,
  mk_sem (value r) (valid r) (sem_count r).

Record kst : Type := mk_kst {
  procs : gmap Z proc_struct;
  rqs : gmap Z run_queue;
  timers : gmap Z timer_t;
  waits : gmap Z wait_t;
  sems : gmap Z semaphore_t;
  klinks : gmap klink (list_entry klink);
  current : Z;
  idleproc : Z;
  lcpu_count : Z;
  cpu : Z;
}.
#[export] Instance eta_kst : Eta kst := λ r,
  mk_kst (procs r) (rqs r) (timers r) (waits r) (sems r) (klinks r) (current r) (idleproc r)
    (lcpu_count r) (cpu r).

(** Run an operation of [list.h] on the links of the kernel. *)
Definition on_list {A} (m : M (gmap klink (list_entry klink)) A) : M kst A := λ k,
  match m (klinks k) with
  | Ok (a, l) => Ok (a, k <| klinks := l |>)
  | Err e => Err e
  end.

Definition get_proc (p : Z) : M kst proc_struct := deref (λ k, procs k !! p).
Definition set_proc (p : Z) (f : proc_struct → proc_struct) : M kst unit :=
  v ← get_proc p; modify (λ k, k <| procs := <[p := f v]> (procs k) |>).
Definition get_rq (q : Z) : M kst run_queue := deref (λ k, rqs k !! q).
Definition set_rq (q : Z) (f : run_queue → run_queue) : M kst unit :=
  v ← get_rq q; modify (λ k, k <| rqs := <[q := f v]> (rqs k) |>).
Definition get_timer (t : Z) : M kst timer_t := deref (λ k, timers k !! t).
Definition set_timer (t : Z) (f : timer_t → timer_t) : M kst unit :=
  v ← get_timer t; modify (λ k, k <| timers := <[t := f v]> (timers k) |>).
Definition get_wait (w : Z) : M kst wait_t := deref (λ k, waits k !! w).
Definition set_wait (w : Z) (f : wait_t → wait_t) : M kst unit :=
  v ← get_wait w; modify (λ k, k <| waits := <[w := f v]> (waits k) |>).
Definition get_sem (x : Z) : M kst semaphore_t := deref (λ k, sems k !! x).
Definition set_sem (x : Z) (f : semaphore_t → semaphore_t) : M kst unit :=
  v ← get_sem x; modify (λ k, k <| sems := <[x := f v]> (sems k) |>).

(** [to_struct(le, type, member)] for each linked member; an entry that is not
    that member of an object designates no object. *)
Definition le2proc (le : klink) : M kst Z :=
  match le with run_link p | thread_group p => mret p | _ => fail Fault end.
Definition le2rq (le : klink) : M kst Z :=
  match le with rq_link q => mret q | _ => fail Fault end.
Definition le2timer (le : klink) : M kst Z :=
  match le with timer_link t => mret t | _ => fail Fault end.
Definition le2wait (le : klink) : M kst Z :=
  match le with wait_link w => mret w | _ => fail Fault end.

Definition WT_INTERRUPTED : Z := 2147483648.
Definition WT_TIMER : Z := Z.lor 2 WT_INTERRUPTED.
Definition WT_KSEM : Z := 256.
Definition WT_USEM : Z := Z.lor 257 WT_INTERRUPTED.
Definition WT_SIGNAL : Z := Z.lor 1024 WT_INTERRUPTED.
Definition PF_PINCPU : Z := 2.

(** ** Rules for the accessors *)

Lemma set_proc_ok p f k v :
  procs k !! p = Some v → set_proc p f k = Ok (tt, k <| procs := <[p := f v]> (procs k) |>).
Proof.
  intros Hp. unfold set_proc. rewrite (bind_ok _ _ k v k) by (unfold get_proc, deref; by rewrite Hp).
  done.
Qed.
Lemma set_rq_ok q f k v :
  rqs k !! q = Some v → set_rq q f k = Ok (tt, k <| rqs := <[q := f v]> (rqs k) |>).
Proof.
  intros Hp. unfold set_rq. rewrite (bind_ok _ _ k v k) by (unfold get_rq, deref; by rewrite Hp).
  done.
Qed.
Lemma set_timer_ok t f k v :
  timers k !! t = Some v → set_timer t f k = Ok (tt, k <| timers := <[t := f v]> (timers k) |>).
Proof.
  intros Hp. unfold set_timer. rewrite (bind_ok _ _ k v k) by (unfold get_timer, deref; by rewrite Hp).
  done.
Qed.
Lemma set_wait_ok w f k v :
  waits k !! w = Some v → set_wait w f k = Ok (tt, k <| waits := <[w := f v]> (waits k) |>).
Proof.
  intros Hp. unfold set_wait. rewrite (bind_ok _ _ k v k) by (unfold get_wait, deref; by rewrite Hp).
  done.
Qed.
Lemma set_sem_ok x f k v :
  sems k !! x = Some v → set_sem x f k = Ok (tt, k <| sems := <[x := f v]> (sems k) |>).
Proof.
  intros Hp. unfold set_sem. rewrite (bind_ok _ _ k v k) by (unfold get_sem, deref; by rewrite Hp).
  done.
Qed.
Lemma on_list_ok {A} (m : M (gmap klink (list_entry klink)) A) k a l :
  m (klinks k) = Ok (a, l) → on_list m k = Ok (a, k <| klinks := l |>).
Proof. intros E. unfold on_list. by rewrite E. Qed.

(** A list operation that only reads. *)
Lemma on_list_read {A} (m : M (gmap klink (list_entry klink)) A) k a :
  m (klinks k) = Ok (a, klinks k) → on_list m k = Ok (a, k).
Proof. intros E. unfold on_list. rewrite E. by destruct k. Qed.
