(* ===== verification/Sched.v ===== *)
(** * The scheduler

    [schedule/sched_RR.c], [sched_mpRR.c], [sched_MLFQ.c] (the scheduling
    classes), and [schedule/sched.c] (the core and the timers). *)

From S2P Require Import Prelude DList Kern.

(** ** Scheduling classes ([struct sched_class]) *)

Record sched_class : Type := mk_class {
  c_init : Z → M kst unit;
  c_enqueue : Z → Z → M kst unit;
  c_dequeue : Z → Z → M kst unit;
  c_pick_next : Z → M kst (option Z);
  c_proc_tick : Z → Z → M kst unit;
}.

(** [assert] on the [list_empty] test of a [run_link]. *)
Definition run_link_empty (p : Z) : M kst bool := on_list (list_empty (run_link p)).

(** ** Round robin ([sched_RR.c]) *)

Definition RR_init (q : Z) : M kst unit :=
  _ ← on_list (list_init (run_list q));
  set_rq q (λ r, r <| proc_num := 0 |>).

Definition RR_enqueue (q p : Z) : M kst unit :=
  e ← run_link_empty p;
  _ ← assert e;
  _ ← on_list (list_add_before (run_list q) (run_link p));
  v ← get_proc p;
  r ← get_rq q;
  _ ← (if (time_slice v =? 0) || (max_time_slice r <? time_slice v)
       then set_proc p (λ v, v <| time_slice := max_time_slice r |>)
       else mret tt);
  _ ← set_proc p (λ v, v <| rq := Some q |>);
  set_rq q (λ r, r <| proc_num := u32 (proc_num r + 1) |>).

Definition RR_dequeue (q p : Z) : M kst unit :=
  e ← run_link_empty p;
  v ← get_proc p;
  _ ← assert (negb e && bool_decide (rq v = Some q));
  _ ← on_list (list_del_init (run_link p));
  set_rq q (λ r, r <| proc_num := u32 (proc_num r - 1) |>).

Definition RR_pick_next (q : Z) : M kst (option Z) :=
  le ← on_list (list_next (run_list q));
  if decide (le = run_list q) then mret None
  else p ← le2proc le; mret (Some p).

Definition RR_proc_tick (q p : Z) : M kst unit :=
  v ← get_proc p;
  _ ← (if 0 <? time_slice v then set_proc p (λ v, v <| time_slice := time_slice v - 1 |>)
       else mret tt);
  v ← get_proc p;
  if time_slice v =? 0 then set_proc p (λ v, v <| need_resched := 1 |>) else mret tt.

Definition RR_sched_class : sched_class :=
  mk_class RR_init RR_enqueue RR_dequeue RR_pick_next RR_proc_tick.

(** ** The multiprocessor class ([sched_mpRR.c]) *)

Definition MPRR_init (q : Z) : M kst unit :=
  _ ← on_list (list_init (run_list q));
  set_rq q (λ r, r <| proc_num := 0 |>).

Definition MPRR_enqueue (q p : Z) : M kst unit :=
  e ← run_link_empty p;
  _ ← assert e;
  _ ← on_list (list_add_before (run_list q) (run_link p));
  v ← get_proc p;
  r ← get_rq q;
  _ ← (if (time_slice v =? 0) || (max_time_slice r <? time_slice v)
       then set_proc p (λ v, v <| time_slice := max_time_slice r |>)
       else mret tt);
  _ ← set_proc p (λ v, v <| rq := Some q |>);
  set_rq q (λ r, r <| proc_num := u32 (proc_num r + 1) |>).

Definition MPRR_dequeue (q p : Z) : M kst unit :=
  e ← run_link_empty p;
  v ← get_proc p;
  _ ← assert (negb e && bool_decide (rq v = Some q));
  _ ← on_list (list_del_init (run_link p));
  set_rq q (λ r, r <| proc_num := u32 (proc_num r - 1) |>).

Definition MPRR_pick_next (q : Z) : M kst (option Z) :=
  le ← on_list (list_next (run_list q));
  if decide (le = run_list q) then mret None
  else p ← le2proc le; mret (Some p).

Definition MPRR_proc_tick (q p : Z) : M kst unit :=
  v ← get_proc p;
  _ ← (if 0 <? time_slice v then set_proc p (λ v, v <| time_slice := time_slice v - 1 |>)
       else mret tt);
  v ← get_proc p;
  if time_slice v =? 0 then set_proc p (λ v, v <| need_resched := 1 |>) else mret tt.

Definition MPRR_sched_class : sched_class :=
  mk_class MPRR_init MPRR_enqueue MPRR_dequeue MPRR_pick_next MPRR_proc_tick.

(** ** Multi-level feedback queue ([sched_MLFQ.c])

    The levels are the run queues on the ring of [rq_link]s; one more round
    than there are run queues bounds a walk round the ring. *)

Definition MLFQ_init (q : Z) : M kst unit :=
  k ← get;
  loop (S (size (rqs k))) (λ le,
    nq ← le2rq le;
    _ ← c_init RR_sched_class nq;
    le' ← on_list (list_next le);
    mret (if decide (le' = rq_link q) then inr tt else inl le')) (rq_link q).

Definition MLFQ_enqueue (q p : Z) : M kst unit :=
  e ← run_link_empty p;
  _ ← assert e;
  v ← get_proc p;
  nrq ← (match rq v with
         | Some prq =>
             if time_slice v =? 0 then
               le ← on_list (list_next (rq_link prq));
               nq ← le2rq le;
               mret (if nq =? q then prq else nq)
             else mret q
         | None => mret q
         end);
  c_enqueue RR_sched_class nrq p.

Definition MLFQ_dequeue (q p : Z) : M kst unit :=
  e ← run_link_empty p;
  _ ← assert (negb e);
  v ← get_proc p;
  prq ← deref (λ _, rq v);
  c_dequeue RR_sched_class prq p.

Definition MLFQ_pick_next (q : Z) : M kst (option Z) :=
  k ← get;
  loop (S (size (rqs k))) (λ le,
    nq ← le2rq le;
    next ← c_pick_next RR_sched_class nq;
    match next with
    | Some p => mret (inr (Some p))
    | None =>
        le' ← on_list (list_next le);
        mret (if decide (le' = rq_link q) then inr None else inl le')
    end) (rq_link q).

Definition MLFQ_proc_tick (q p : Z) : M kst unit :=
  v ← get_proc p;
  prq ← deref (λ _, rq v);
  c_proc_tick RR_sched_class prq p.

Definition MLFQ_sched_class : sched_class :=
  mk_class MLFQ_init MLFQ_enqueue MLFQ_dequeue MLFQ_pick_next MLFQ_proc_tick.

(** ** The core ([sched.c]) *)

Section sched.
Variable class : sched_class.
(** The callback of a Linux timer. *)
Variable linux_function : Z → M kst unit.

Definition sched_class_enqueue (p : Z) : M kst unit :=
  k ← get;
  if p =? idleproc k then mret tt
  else
    v ← get_proc p;
    if negb (Z.land (flags v) PF_PINCPU =? 0) then
      _ ← assert ((0 <=? cpu_affinity v) && (cpu_affinity v <? lcpu_count k));
      c_enqueue class (cpu_affinity v) p
    else c_enqueue class (cpu k) p.

Definition sched_class_dequeue (p : Z) : M kst unit :=
  k ← get; c_dequeue class (cpu k) p.

Definition sched_class_pick_next : M kst (option Z) :=
  k ← get; c_pick_next class (cpu k).

Definition sched_class_proc_tick (p : Z) : M kst unit :=
  k ← get;
  if negb (p =? idleproc k) then c_proc_tick class (cpu k) p
  else set_proc p (λ v, v <| need_resched := 1 |>).

(** [sched_init]: the run queue of this processor heads the ring of the run
    queues of the others. *)
Definition sched_init : M kst unit :=
  _ ← on_list (list_init timer_list);
  k ← get;
  _ ← on_list (list_init (rq_link (cpu k)));
  _ ← set_rq (cpu k) (λ r, r <| max_time_slice := 8 |>);
  _ ← loop (S (Z.to_nat (lcpu_count k))) (λ i,
        if i <? lcpu_count k then
          _ ← on_list (list_add_before (rq_link (cpu k)) (rq_link i));
          r0 ← get_rq (cpu k);
          _ ← set_rq i (λ r, r <| max_time_slice := max_time_slice r0 |>);
          mret (inl (i + 1))
        else mret (inr tt)) 1;
  loop (S (Z.to_nat (lcpu_count k))) (λ i,
    if i <? lcpu_count k then _ ← c_init class i; mret (inl (i + 1)) else mret (inr tt)) 0.

Definition stop_proc (p wait : Z) : M kst unit :=
  _ ← set_proc p (λ v, v <| state := PROC_SLEEPING |> <| wait_state := wait |>);
  e ← run_link_empty p;
  if negb e then sched_class_dequeue p else mret tt.

Definition wakeup_proc (p : Z) : M kst unit :=
  v ← get_proc p;
  _ ← assert (negb (bool_decide (state v = PROC_ZOMBIE)));
  if negb (bool_decide (state v = PROC_RUNNABLE)) then
    _ ← set_proc p (λ v, v <| state := PROC_RUNNABLE |> <| wait_state := 0 |>);
    k ← get;
    if negb (p =? current k) then
      _ ← assert (lcpu_count k <=? pid v);
      sched_class_enqueue p
    else mret tt
  else mret tt.

Definition next_thread (p : Z) : M kst Z :=
  le ← on_list (list_next (thread_group p)); le2proc le.

Definition try_to_wakeup (p : Z) : M kst Z :=
  v ← get_proc p;
  _ ← assert (negb (bool_decide (state v = PROC_ZOMBIE)));
  ret ← (if negb (bool_decide (state v = PROC_RUNNABLE)) then
           _ ← set_proc p (λ v, v <| state := PROC_RUNNABLE |> <| wait_state := 0 |>);
           k ← get;
           _ ← (if negb (p =? current k) then sched_class_enqueue p else mret tt);
           mret 1
         else mret 0);
  k ← get;
  _ ← loop (S (size (procs k))) (λ cur,
        next ← next_thread cur;
        if next =? p then mret (inr tt)
        else
          w ← get_proc next;
          _ ← (if bool_decide (state w = PROC_SLEEPING) && (wait_state w =? WT_SIGNAL) then
                 _ ← set_proc next (λ v, v <| state := PROC_RUNNABLE |> <| wait_state := 0 |>);
                 k ← get;
                 if negb (next =? current k) then sched_class_enqueue next else mret tt
               else mret tt);
          mret (inl next)) p;
  mret ret.

(** [proc_run]: from here on [p] runs. *)
Definition proc_run (p : Z) : M kst unit := modify (λ k, k <| current := p |>).

(** [schedule], called outside interrupt context (its assertion). *)
Definition schedule : M kst unit :=
  k ← get;
  let cur := current k in
  _ ← set_proc cur (λ v, v <| need_resched := 0 |>);
  c ← get_proc cur;
  _ ← (if bool_decide (state c = PROC_RUNNABLE) && (lcpu_count k <=? pid c)
       then sched_class_enqueue cur else mret tt);
  picked ← sched_class_pick_next;
  next ← (match picked with
          | Some p => _ ← sched_class_dequeue p; mret p
          | None => mret (idleproc k)
          end);
  _ ← set_proc next (λ v, v <| runs := s32 (runs v + 1) |>);
  if negb (next =? cur) then proc_run next else mret tt.

(** ** Timers: a list of differences *)

Definition add_timer_ (timer : Z) : M kst unit :=
  t ← get_timer timer;
  _ ← assert (0 <? expires t);
  e ← on_list (list_empty (timer_link timer));
  _ ← assert e;
  le ← on_list (list_next timer_list);
  k ← get;
  at_ ← loop (S (size (timers k))) (λ le,
    if decide (le = timer_list) then mret (inr le)
    else
      next ← le2timer le;
      n ← get_timer next;
      t ← get_timer timer;
      if expires t <? expires n then
        _ ← set_timer next (λ n, n <| expires := u32 (expires n - expires t) |>);
        mret (inr le)
      else
        _ ← set_timer timer (λ t, t <| expires := u32 (expires t - expires n) |>);
        le' ← on_list (list_next le);
        mret (inl le')) le;
  on_list (list_add_before at_ (timer_link timer)).

Definition del_timer_ (timer : Z) : M kst unit :=
  e ← on_list (list_empty (timer_link timer));
  if negb e then
    t ← get_timer timer;
    _ ← (if negb (expires t =? 0) then
           le ← on_list (list_next (timer_link timer));
           if decide (le = timer_list) then mret tt
           else
             next ← le2timer le;
             set_timer next (λ n, n <| expires := u32 (expires n + expires t) |>)
         else mret tt);
    on_list (list_del_init (timer_link timer))
  else mret tt.

Definition kfree_timer (timer : Z) : M kst unit :=
  modify (λ k, k <| timers := delete timer (timers k) |>).

(** The loop over the expired timers; the loop state is [(le, timer)]. *)
Definition run_timer_step (st : klink * Z) : M kst ((klink * Z) + unit) :=
  let '(le, timer) := st in
  t ← get_timer timer;
  if negb (expires t =? 0) then mret (inr tt)
  else
    le' ← on_list (list_next le);
    match linux_timer t with
    | Some data =>
        _ ← linux_function data;
        _ ← del_timer_ timer;
        _ ← kfree_timer timer;
        mret (inl (le', timer))
    | None =>
        v ← get_proc (t_proc t);
        _ ← (if negb (wait_state v =? 0)
             then assert (negb (Z.land (wait_state v) WT_INTERRUPTED =? 0)) else mret tt);
        _ ← wakeup_proc (t_proc t);
        _ ← del_timer_ timer;
        if decide (le' = timer_list) then mret (inr tt)
        else timer' ← le2timer le'; mret (inl (le', timer'))
    end.

Definition run_timer_list : M kst unit :=
  le ← on_list (list_next timer_list);
  _ ← (if decide (le = timer_list) then mret tt
       else
         timer ← le2timer le;
         t ← get_timer timer;
         _ ← assert (negb (expires t =? 0));
         _ ← set_timer timer (λ t, t <| expires := u32 (expires t - 1) |>);
         k ← get;
         loop (S (size (timers k))) run_timer_step (le, timer));
  k ← get;
  sched_class_proc_tick (current k).

End sched.
