(* ===== verification/SchedSpec.v ===== *)
(** * What the scheduler guarantees

    A run queue is a FIFO queue of processes.  [RunQueue] is the interface a
    scheduling class offers to the core; the round-robin classes implement it,
    and so does MLFQ on one processor, whose ring of levels has one element.
    The core's theorems are proved against the interface. *)

From S2P Require Import Prelude DList Kern Sched.

(** ** The abstract queue *)

(** The run queue [q] holds the processes [ps], in this order. *)
Definition queue (k : kst) (L : gmap klink (list klink)) (q : Z) (ps : list Z) : Prop :=
  rep (klinks k) L ∧ L !! run_list q = Some (run_link <$> ps) ∧
  (∃ r, rqs k !! q = Some r ∧ proc_num r = Z.of_nat (length ps)) ∧
  (∀ p, p ∈ ps → ∃ v, procs k !! p = Some v ∧ rq v = Some q).

(** A process as [enqueue] leaves it. *)
Definition queued (q slice : Z) (v : proc_struct) : proc_struct :=
  v <| time_slice := if (time_slice v =? 0) || (slice <? time_slice v) then slice else time_slice v |>
    <| rq := Some q |>.

(** What [c_enqueue] and [c_dequeue] change. *)
Definition enqueued (k : kst) (q p : Z) (v : proc_struct) (r : run_queue) l' : kst :=
  k <| klinks := l' |>
    <| procs := <[p := queued q (max_time_slice r) v]> (procs k) |>
    <| rqs := <[q := r <| proc_num := u32 (proc_num r + 1) |>]> (rqs k) |>.

Definition dequeued (k : kst) (q : Z) (r : run_queue) l' : kst :=
  k <| klinks := l' |> <| rqs := <[q := r <| proc_num := u32 (proc_num r - 1) |>]> (rqs k) |>.

(** ** The interface of a scheduling class

    [ok L q] is what the class needs to know of the links of run queue [q]
    besides its run list. *)
Class RunQueue (c : sched_class) (ok : gmap klink (list klink) → Z → Prop) : Prop := {
  rq_ok_frame L L' q : ok L q → L' !! rq_link q = L !! rq_link q → ok L' q;
  rq_enqueue k L q ps p v r :
    queue k L q ps → ok L q → L !! run_link p = Some [] → procs k !! p = Some v →
    rqs k !! q = Some r → rq v = None ∨ rq v = Some q →
    ∃ l', c_enqueue c q p k = Ok (tt, enqueued k q p v r l') ∧
          rep l' (<[run_list q := run_link <$> (ps ++ [p])]> (delete (run_link p) L));
  rq_dequeue k L q p ps r :
    queue k L q (p :: ps) → ok L q → rqs k !! q = Some r →
    ∃ l', c_dequeue c q p k = Ok (tt, dequeued k q r l') ∧
          rep l' (<[run_link p := []]> (<[run_list q := run_link <$> ps]> L));
  rq_pick_next k L q ps :
    queue k L q ps → ok L q → c_pick_next c q k = Ok (head ps, k);
}.

(** ** Round robin implements it *)

Lemma run_link_empty_alone k L p :
  rep (klinks k) L → L !! run_link p = Some [] → run_link_empty p k = Ok (true, k).
Proof. intros Hr Hp. by apply on_list_read, (list_empty_spec _ L _ []). Qed.

Lemma run_link_empty_queued k L q ps p :
  queue k L q ps → p ∈ ps → run_link_empty p k = Ok (false, k).
Proof.
  intros (Hr & Hq & _) Hp. apply on_list_read, (list_empty_elem _ L (run_list q) (run_link <$> ps));
    [done|done|]. by apply list_elem_of_fmap_2.
Qed.

Lemma RR_enqueue_ok k L q ps p v r :
  queue k L q ps → L !! run_link p = Some [] → procs k !! p = Some v → rqs k !! q = Some r →
  ∃ l', RR_enqueue q p k = Ok (tt, enqueued k q p v r l') ∧
        rep l' (<[run_list q := run_link <$> (ps ++ [p])]> (delete (run_link p) L)).
Proof.
  intros (Hr & Hq & _) Hp Hv Hrq. unfold RR_enqueue.
  rewrite (bind_ok _ _ _ _ _ (run_link_empty_alone _ _ _ Hr Hp)).
  rewrite (bind_ok _ _ _ _ _ eq_refl).
  destruct (list_add_before_spec _ L (run_list q) _ (run_link p) Hr Hq) as (l' & El & Hr').
  { by eapply rep_alone_available. } { done. }
  rewrite (bind_ok _ _ _ _ _ (on_list_ok _ _ _ _ El)).
  set (k1 := k <| klinks := l' |>).
  rewrite (bind_ok _ _ k1 v k1) by (unfold get_proc, deref; simpl; by rewrite Hv).
  rewrite (bind_ok _ _ k1 r k1) by (unfold get_rq, deref; simpl; by rewrite Hrq).
  exists l'. split; [|by rewrite fmap_app].
  destruct ((time_slice v =? 0) || (max_time_slice r <? time_slice v)) eqn:E.
  - erewrite (bind_ok _ _ k1); [|by apply set_proc_ok].
    erewrite bind_ok; [|apply set_proc_ok; simpl; by rewrite lookup_insert_eq].
    erewrite set_rq_ok; [|done]. unfold enqueued, queued. simpl. rewrite E, insert_insert_eq. done.
  - rewrite (bind_ok _ _ _ _ _ eq_refl).
    erewrite bind_ok; [|by apply set_proc_ok].
    erewrite set_rq_ok; [|done]. unfold enqueued, queued. simpl. rewrite E.
    destruct v; done.
Qed.

Lemma RR_dequeue_ok k L q p ps r :
  queue k L q (p :: ps) → rqs k !! q = Some r →
  ∃ l', RR_dequeue q p k = Ok (tt, dequeued k q r l') ∧
        rep l' (<[run_link p := []]> (<[run_list q := run_link <$> ps]> L)).
Proof.
  intros HQ Hrq. pose proof HQ as (Hr & Hq & _ & Hps). unfold RR_dequeue.
  rewrite (bind_ok _ _ _ _ _ (run_link_empty_queued _ _ _ _ p HQ ltac:(set_solver))).
  destruct (Hps p ltac:(set_solver)) as (v & Hv & Hvq).
  rewrite (bind_ok _ _ k v k) by (unfold get_proc, deref; by rewrite Hv).
  rewrite bool_decide_true by done. rewrite (bind_ok _ _ _ _ _ eq_refl).
  destruct (list_del_init_spec _ L (run_list q) [] (run_link p) (fmap (M:=list) run_link ps) Hr Hq)
    as (l' & El & Hr').
  rewrite (bind_ok _ _ _ _ _ (on_list_ok _ _ _ _ El)).
  exists l'. split; [|done]. by erewrite set_rq_ok.
Qed.

Lemma RR_pick_next_ok k L q ps :
  queue k L q ps → RR_pick_next q k = Ok (head ps, k).
Proof.
  intros (Hr & Hq & _). unfold RR_pick_next.
  destruct ps as [|p ps]; simpl in Hq.
  - rewrite (bind_ok _ _ k (run_list q) k);
      [|by apply on_list_read, (list_next_spec _ L (run_list q) [] [] [] _ _ [])].
    by rewrite decide_True.
  - rewrite (bind_ok _ _ k (run_link p) k).
    + by rewrite decide_False.
    + apply on_list_read, (list_next_spec _ L (run_list q) [] (run_link p :: (fmap (M:=list) run_link ps)) []
        _ _ ((fmap (M:=list) run_link ps) ++ [run_list q])); done.
Qed.

#[export] Instance RR_RunQueue : RunQueue RR_sched_class (λ _ _, True).
Proof.
  split; [done|intros; by eapply RR_enqueue_ok|intros; by eapply RR_dequeue_ok
         |intros; by eapply RR_pick_next_ok].
Qed.

#[export] Instance MPRR_RunQueue : RunQueue MPRR_sched_class (λ _ _, True).
Proof.
  split; [done|intros; by eapply RR_enqueue_ok|intros; by eapply RR_dequeue_ok
         |intros; by eapply RR_pick_next_ok].
Qed.

(** ** MLFQ implements it when there is one level *)

Definition one_level (L : gmap klink (list klink)) (q : Z) : Prop := L !! rq_link q = Some [].

Lemma list_next_alone k L q :
  rep (klinks k) L → one_level L q → on_list (list_next (rq_link q)) k = Ok (rq_link q, k).
Proof. intros Hr Hq. by apply on_list_read, (list_next_spec _ L (rq_link q) [] [] [] _ _ []). Qed.

Lemma MLFQ_enqueue_ok k L q ps p v r :
  queue k L q ps → one_level L q → L !! run_link p = Some [] → procs k !! p = Some v →
  rqs k !! q = Some r → rq v = None ∨ rq v = Some q →
  ∃ l', MLFQ_enqueue q p k = Ok (tt, enqueued k q p v r l') ∧
        rep l' (<[run_list q := run_link <$> (ps ++ [p])]> (delete (run_link p) L)).
Proof.
  intros HQ Hone Hp Hv Hrq Hvq. pose proof HQ as (Hr & _). unfold MLFQ_enqueue.
  rewrite (bind_ok _ _ _ _ _ (run_link_empty_alone _ _ _ Hr Hp)).
  rewrite (bind_ok _ _ _ _ _ eq_refl).
  rewrite (bind_ok _ _ k v k) by (unfold get_proc, deref; by rewrite Hv).
  rewrite (bind_ok _ _ k q k); [by apply RR_enqueue_ok|].
  destruct Hvq as [->| ->]; [done|]. destruct (time_slice v =? 0); [|done].
  rewrite (bind_ok _ _ _ _ _ (list_next_alone _ _ _ Hr Hone)).
  rewrite (bind_ok _ _ _ _ _ eq_refl). by rewrite Z.eqb_refl.
Qed.

Lemma MLFQ_dequeue_ok k L q p ps r :
  queue k L q (p :: ps) → rqs k !! q = Some r →
  ∃ l', MLFQ_dequeue q p k = Ok (tt, dequeued k q r l') ∧
        rep l' (<[run_link p := []]> (<[run_list q := run_link <$> ps]> L)).
Proof.
  intros HQ Hrq. pose proof HQ as (_ & _ & _ & Hps). unfold MLFQ_dequeue.
  destruct (Hps p ltac:(set_solver)) as (v & Hv & Hvq).
  rewrite (bind_ok _ _ _ _ _ (run_link_empty_queued _ _ _ _ p HQ ltac:(set_solver))).
  rewrite (bind_ok _ _ _ _ _ eq_refl).
  rewrite (bind_ok _ _ k v k) by (unfold get_proc, deref; by rewrite Hv).
  rewrite (bind_ok _ _ k q k) by (unfold deref; by rewrite Hvq). by eapply RR_dequeue_ok.
Qed.

Lemma MLFQ_pick_next_ok k L q ps :
  queue k L q ps → one_level L q → MLFQ_pick_next q k = Ok (head ps, k).
Proof.
  intros HQ Hone. pose proof HQ as (Hr & _). unfold MLFQ_pick_next.
  rewrite (bind_ok _ _ _ _ _ eq_refl), loop_step.
  rewrite (bind_ok _ _ _ _ _ eq_refl), (bind_ok _ _ _ _ _ (RR_pick_next_ok _ _ _ _ HQ)).
  destruct ps as [|p ps]; simpl; [|done].
  rewrite (bind_ok _ _ _ _ _ (list_next_alone _ _ _ Hr Hone)). by rewrite decide_True.
Qed.

#[export] Instance MLFQ_RunQueue : RunQueue MLFQ_sched_class one_level.
Proof.
  split; [intros ??? H E; unfold one_level; by rewrite E|intros; by eapply MLFQ_enqueue_ok|intros; by eapply MLFQ_dequeue_ok
         |intros; by eapply MLFQ_pick_next_ok].
Qed.

(** ** The core *)

Section core.
Context (class : sched_class) (ok : gmap klink (list klink) → Z → Prop) `{!RunQueue class ok}.

(** A process that takes part in scheduling on run queue [q]. *)
Definition runnable (k : kst) (q p : Z) : Prop :=
  ∃ v, procs k !! p = Some v ∧ state v = PROC_RUNNABLE ∧ lcpu_count k ≤ pid v ∧
    Z.land (flags v) PF_PINCPU = 0 ∧ (rq v = None ∨ rq v = Some q) ∧ p ≠ idleproc k.

(** The process [cur] runs, the processes [ps] wait for the processor. *)
Record running_at (k : kst) (L : gmap klink (list klink)) (cur : Z) (ps : list Z) : Prop := {
  run_queue_ok : queue k L (cpu k) ps;
  run_class_ok : ok L (cpu k);
  run_current : current k = cur;
  run_alone : L !! run_link cur = Some [];
  run_procs p : p ∈ cur :: ps → runnable k (cpu k) p;
  run_nodup : NoDup (cur :: ps);
  run_bound : Z.of_nat (length ps) < 2 ^ 31;
}.
Definition running (k : kst) (cur : Z) (ps : list Z) : Prop := ∃ L, running_at k L cur ps.

Lemma enqueue_ok k L ps p v r :
  queue k L (cpu k) ps → ok L (cpu k) → L !! run_link p = Some [] → procs k !! p = Some v →
  rqs k !! cpu k = Some r → rq v = None ∨ rq v = Some (cpu k) →
  Z.land (flags v) PF_PINCPU = 0 → p ≠ idleproc k →
  ∃ l', sched_class_enqueue class p k = Ok (tt, enqueued k (cpu k) p v r l') ∧
        rep l' (<[run_list (cpu k) := run_link <$> (ps ++ [p])]> (delete (run_link p) L)).
Proof.
  intros HQ Hok Hp Hv Hr Hq Hpin Hidle. unfold sched_class_enqueue.
  rewrite (bind_ok _ _ _ _ _ eq_refl), (proj2 (Z.eqb_neq _ _) Hidle).
  rewrite (bind_ok _ _ k v k) by (unfold get_proc, deref; by rewrite Hv).
  rewrite Hpin. simpl. by eapply rq_enqueue.
Qed.

(** The queue after a process was appended. *)
Lemma queue_enqueued k L ps p v r l' :
  queue k L (cpu k) ps → procs k !! p = Some v → rqs k !! cpu k = Some r →
  Z.of_nat (length ps) + 1 < 2 ^ 32 →
  rep l' (<[run_list (cpu k) := run_link <$> (ps ++ [p])]> (delete (run_link p) L)) →
  queue (enqueued k (cpu k) p v r l')
    (<[run_list (cpu k) := run_link <$> (ps ++ [p])]> (delete (run_link p) L)) (cpu k) (ps ++ [p]).
Proof.
  intros (_ & _ & (r' & Hr' & Hn) & Hps) Hv Hr Hlen Hrep. simplify_eq. split_and!.
  - done.
  - apply lookup_insert_eq.
  - eexists. simpl. rewrite lookup_insert_eq. split; [done|]. simpl.
    rewrite Hn, u32_id by lia. rewrite length_app. simpl. lia.
  - intros p' Hp'. simpl. destruct (decide (p' = p)) as [->|Hne].
    + rewrite lookup_insert_eq. eauto.
    + rewrite lookup_insert_ne by done. apply Hps. set_solver.
Qed.

(** The queue after its first process was taken. *)
Lemma queue_dequeued k L p ps r l' :
  queue k L (cpu k) (p :: ps) → rqs k !! cpu k = Some r →
  Z.of_nat (length (p :: ps)) < 2 ^ 32 →
  rep l' (<[run_link p := []]> (<[run_list (cpu k) := run_link <$> ps]> L)) →
  queue (dequeued k (cpu k) r l')
    (<[run_link p := []]> (<[run_list (cpu k) := run_link <$> ps]> L)) (cpu k) ps.
Proof.
  intros (_ & _ & (r' & Hr' & Hn) & Hps) Hr Hlen Hrep. simplify_eq. split_and!.
  - done.
  - rewrite lookup_insert_ne by done. apply lookup_insert_eq.
  - eexists. simpl. rewrite lookup_insert_eq. split; [done|]. simpl in *.
    rewrite Hn, u32_id by lia. lia.
  - intros p' Hp'. simpl. apply Hps. set_solver.
Qed.

(** Changing a process without touching its queue. *)
Lemma queue_set_proc k L q ps p v v' :
  queue k L q ps → procs k !! p = Some v → rq v' = rq v →
  queue (k <| procs := <[p := v']> (procs k) |>) L q ps.
Proof.
  intros (Hr & Hq & Hn & Hps) Hv Hrq. split_and!; try done. intros p' Hp'. simpl.
  destruct (Hps p' Hp') as (w & Hw & Hwq). destruct (decide (p' = p)) as [->|Hne].
  - rewrite lookup_insert_eq. exists v'. simplify_eq. split; [done|]. congruence.
  - rewrite lookup_insert_ne by done. eauto.
Qed.

(** A process stays runnable when only fields that do not matter change. *)
Definition same_sched (q : Z) (v w : proc_struct) : Prop :=
  state w = state v ∧ pid w = pid v ∧ flags w = flags v ∧ (rq w = rq v ∨ rq w = Some q).

Lemma runnable_mono k k' q p :
  runnable k q p → lcpu_count k' = lcpu_count k → idleproc k' = idleproc k →
  (∀ v, procs k !! p = Some v → ∃ w, procs k' !! p = Some w ∧ same_sched q v w) →
  runnable k' q p.
Proof.
  intros (v & Hv & Hs & Hp & Hf & Hq & Hi) Hl Hid Hw.
  destruct (Hw v Hv) as (w & Hw' & Es & Ep & Ef & Eq). exists w.
  split_and!; [done|congruence|congruence|congruence| |congruence]. naive_solver congruence.
Qed.

(** The next process and the queue behind it. *)
Definition turn (s : Z * list Z) : Z * list Z :=
  match s.2 ++ [s.1] with
  | p :: ps => (p, ps)
  | [] => s
  end.

Lemma turn_spec cur ps :
  ∃ nxt rest, ps ++ [cur] = nxt :: rest ∧ turn (cur, ps) = (nxt, rest) ∧
    length rest = length ps ∧ nxt ∈ cur :: ps ∧ (∀ p, p ∈ nxt :: rest ↔ p ∈ cur :: ps).
Proof.
  unfold turn. simpl. destruct ps as [|p ps]; simpl.
  - exists cur, []. split_and!; set_solver.
  - exists p, (ps ++ [cur]). rewrite length_app. simpl. split_and!; [done|done|lia|set_solver|].
    intros x. set_solver.
Qed.

(** Choosing the next process and taking it off the queue. *)
Lemma pick_ok k L p ps r idle :
  queue k L (cpu k) (p :: ps) → ok L (cpu k) → rqs k !! cpu k = Some r →
  ∃ l', (picked ← sched_class_pick_next class;
         match picked with
         | Some p => _ ← sched_class_dequeue class p; mret p
         | None => mret idle
         end) k = Ok (p, dequeued k (cpu k) r l') ∧
    rep l' (<[run_link p := []]> (<[run_list (cpu k) := run_link <$> ps]> L)).
Proof.
  intros HQ Hok Hr.
  assert (sched_class_pick_next class k = Ok (Some p, k)) as E
    by exact (rq_pick_next (c:=class) _ _ _ _ HQ Hok).
  rewrite (bind_ok _ _ _ _ _ E).
  destruct (rq_dequeue (c:=class) k L (cpu k) p ps r HQ Hok Hr) as (l' & E' & Hrep).
  assert (sched_class_dequeue class p k = Ok (tt, dequeued k (cpu k) r l')) as E2 by exact E'.
  exists l'. split; [|done]. by rewrite (bind_ok _ _ _ _ _ E2).
Qed.

Lemma proc_run_ok (k : kst) nxt cur :
  current k = cur →
  (if negb (nxt =? cur) then proc_run nxt else mret tt) k = Ok (tt, k <| current := nxt |>).
Proof. intros <-. destruct (Z.eqb_spec nxt (current k)) as [->|]; [by destruct k|done]. Qed.

(** The state after the switch, before the new process is entered. *)
Lemma switched_running k L cur ps v r l1 l2 nxt rest w :
  running_at k L cur ps → procs k !! cur = Some v → rqs k !! cpu k = Some r →
  ps ++ [cur] = nxt :: rest → length rest = length ps →
  (∀ p, p ∈ nxt :: rest ↔ p ∈ cur :: ps) →
  let v0 := v <| need_resched := 0 |> in
  let k0 := k <| procs := <[cur := v0]> (procs k) |> in
  let k1 := enqueued k0 (cpu k) cur v0 r l1 in
  let r1 := r <| proc_num := u32 (proc_num r + 1) |> in
  let k2 := dequeued k1 (cpu k) r1 l2 in
  let L1 := <[run_list (cpu k) := run_link <$> (ps ++ [cur])]> (delete (run_link cur) L) in
  let L2 := <[run_link nxt := []]> (<[run_list (cpu k) := run_link <$> rest]> L1) in
  rep l1 L1 → rep l2 L2 → procs k2 !! nxt = Some w →
  running_at (k2 <| procs := <[nxt := w <| runs := s32 (runs w + 1) |>]> (procs k2) |>
                 <| current := nxt |>) L2 nxt rest.
Proof.
  intros [HQ Hok Hcur Hal Hps Hnd Hb] Hv Hr Hsplit Hlen Hsame v0 k0 k1 r1 k2 L1 L2 Hrep1 Hrep2 Hw.
  assert (procs k0 !! cur = Some v0) as Hv0 by apply lookup_insert_eq.
  pose proof (queue_set_proc k L (cpu k) ps cur v v0 HQ Hv eq_refl) as HQ0.
  pose proof (queue_enqueued k0 L ps cur v0 r l1 HQ0 Hv0 Hr ltac:(lia) Hrep1) as HQ1.
  rewrite Hsplit in HQ1. fold k1 in HQ1.
  assert (rqs k1 !! cpu k1 = Some r1) as Hr1 by apply lookup_insert_eq.
  assert (queue k1 L1 (cpu k1) (nxt :: rest)) as HQ1' by (unfold L1; by rewrite Hsplit).
  pose proof (queue_dequeued k1 L1 nxt rest r1 l2 HQ1' Hr1 ltac:(simpl; lia) Hrep2) as HQ2.
  constructor.
  - by apply (queue_set_proc k2 L2 (cpu k) rest nxt w).
  - eapply rq_ok_frame; [exact Hok|]. unfold L2, L1. by rewrite !lookup_insert_ne, lookup_delete_ne.
  - done.
  - apply lookup_insert_eq.
  - intros p Hp. apply Hsame in Hp. specialize (Hps p Hp).
    eapply runnable_mono; [exact Hps|done|done|]. intros u Hu. simpl.
    destruct (decide (p = nxt)) as [->|Hne].
    + rewrite lookup_insert_eq. eexists. split; [done|].
      simpl in Hw. destruct (decide (nxt = cur)) as [->|Hne'].
      * rewrite lookup_insert_eq in Hw. simplify_eq. repeat split; by right.
      * rewrite !lookup_insert_ne in Hw by done. simplify_eq. repeat split; by left.
    + rewrite lookup_insert_ne by done. destruct (decide (p = cur)) as [->|Hne'].
      * rewrite lookup_insert_eq. eexists. split; [done|]. simplify_eq. repeat split; by right.
      * rewrite !lookup_insert_ne by done. exists u. split; [done|]. repeat split; by left.
  - rewrite <-Hsplit. apply NoDup_app. apply NoDup_cons in Hnd as [? ?].
    split_and!; [done|set_solver|apply NoDup_singleton].
  - lia.
Qed.

Lemma schedule_ok k cur ps :
  running k cur ps →
  ∃ k', schedule class k = Ok (tt, k') ∧ running k' (turn (cur, ps)).1 (turn (cur, ps)).2 ∧
    cpu k' = cpu k ∧ idleproc k' = idleproc k ∧ timers k' = timers k ∧
    (∀ p, p ∉ cur :: ps → procs k' !! p = procs k !! p).
Proof.
  intros (L & Hrun). pose proof Hrun as [HQ Hok Hcur Hal Hps Hnd Hb].
  destruct (Hps cur ltac:(set_solver)) as (v & Hv & Hst & Hpid & Hfl & Hq & Hidle).
  destruct (turn_spec cur ps) as (nxt & rest & Hsplit & -> & Hlen & Hin & Hsame). cbn [fst snd].
  unfold schedule. rewrite (bind_ok _ _ _ _ _ eq_refl). cbv zeta. rewrite Hcur.
  rewrite (bind_ok _ _ _ _ _ (set_proc_ok _ _ _ _ Hv)).
  set (v0 := v <| need_resched := 0 |>). set (k0 := k <| procs := <[cur := v0]> (procs k) |>).
  assert (procs k0 !! cur = Some v0) as Hv0 by apply lookup_insert_eq.
  rewrite (bind_ok _ _ k0 v0 k0) by (unfold get_proc, deref; by rewrite Hv0).
  rewrite bool_decide_true by done. rewrite (proj2 (Z.leb_le _ _)) by done. cbn [andb].
  assert (queue k0 L (cpu k0) ps) as HQ0 by (by apply (queue_set_proc _ _ _ _ _ v)).
  pose proof HQ as (_ & _ & (r & Hr & Hrn) & _).
  destruct (enqueue_ok k0 L ps cur v0 r HQ0 Hok Hal Hv0 Hr Hq Hfl Hidle) as (l1 & E1 & Hrep1).
  rewrite (bind_ok _ _ _ _ _ E1).
  pose proof (queue_enqueued k0 L ps cur v0 r l1 HQ0 Hv0 Hr ltac:(lia) Hrep1) as HQ1.
  set (k1 := enqueued k0 (cpu k0) cur v0 r l1) in *.
  rewrite Hsplit in HQ1.
  destruct (pick_ok k1 _ nxt rest (r <| proc_num := u32 (proc_num r + 1) |>) (idleproc k) HQ1)
    as (l2 & E2 & Hrep2).
  { eapply rq_ok_frame; [exact Hok|]. by rewrite lookup_insert_ne, lookup_delete_ne. }
  { apply lookup_insert_eq. }
  rewrite bind_assoc, (bind_ok _ _ _ _ _ E2). set (k2 := dequeued k1 _ _ l2) in *.
  assert (is_Some (procs k2 !! nxt)) as [w Hw].
  { simpl. destruct (decide (nxt = cur)) as [->|?]; [by rewrite lookup_insert_eq|].
    rewrite !lookup_insert_ne by done. destruct (Hps nxt ltac:(set_solver)) as (? & -> & _). done. }
  rewrite (bind_ok _ _ _ _ _ (set_proc_ok _ _ _ _ Hw)).
  rewrite <-Hsplit in Hrep2.
  pose proof (switched_running k L cur ps v r l1 l2 nxt rest w Hrun Hv Hr Hsplit Hlen Hsame
    Hrep1 Hrep2 Hw) as Hfin.
  eexists. split; [by apply proc_run_ok|]. split_and!; [by eexists|done..|].
  intros p Hp. simpl. rewrite !lookup_insert_ne; [done|set_solver..].
Qed.

(** ** Fairness *)

Fixpoint schedules (n : nat) : M kst unit :=
  match n with
  | O => mret tt
  | S n' => _ ← schedule class; schedules n'
  end.

(** The running process followed by the waiting ones. *)
Definition line (s : Z * list Z) : list Z := s.1 :: s.2.

Lemma line_turn s : line (turn s) = s.2 ++ [s.1].
Proof. destruct s as [c [|p ps]]; done. Qed.

Lemma line_iter n s :
  (n ≤ length (line s))%nat → line (Nat.iter n turn s) = drop n (line s) ++ take n (line s).
Proof.
  induction n as [|n IH]; intros Hn; [by rewrite app_nil_r|].
  simpl Nat.iter. rewrite line_turn. specialize (IH ltac:(lia)).
  destruct (lookup_lt_is_Some_2 (line s) n) as [x Hx]; [lia|].
  rewrite (drop_S _ _ _ Hx) in IH. unfold line at 1 in IH.
  injection IH as -> ->. rewrite (take_S_r _ _ _ Hx). by rewrite app_assoc.
Qed.

Lemma schedules_ok n k cur ps :
  running k cur ps →
  ∃ k', schedules n k = Ok (tt, k') ∧
    running k' (Nat.iter n turn (cur, ps)).1 (Nat.iter n turn (cur, ps)).2.
Proof.
  revert k cur ps. induction n as [|n IH]; intros k cur ps Hrun; [by exists k|].
  destruct (schedule_ok k cur ps Hrun) as (k1 & E1 & Hrun1 & _).
  destruct (IH _ _ _ Hrun1) as (k2 & E2 & Hrun2). exists k2. simpl schedules.
  rewrite (bind_ok _ _ _ _ _ E1). split; [done|].
  rewrite <-surjective_pairing, <-Nat.iter_succ_r in Hrun2. done.
Qed.

(** C7.  Round-robin scheduling is fair.  With a running process and a queue of
    runnable ones, [schedule] never panics; the process at position [i] of
    the queue runs after [i + 1] calls, so that nobody waits longer than one
    round; and after one call per process the running process and the order
    of the queue are what they were.  This holds for every class that offers
    the [RunQueue] interface. *)
Theorem schedule_fair (k : kst) (cur : Z) (ps : list Z) :
  running k cur ps →
  (∀ i p, ps !! i = Some p → ∃ k', schedules (S i) k = Ok (tt, k') ∧ current k' = p) ∧
  ∃ k', schedules (S (length ps)) k = Ok (tt, k') ∧ running k' cur ps.
Proof.
  intros Hrun. split.
  - intros i p Hp. destruct (schedules_ok (S i) k cur ps Hrun) as (k' & E & (L & Hr)).
    exists k'. split; [exact E|]. rewrite (run_current _ _ _ _ Hr).
    pose proof (lookup_lt_Some _ _ _ Hp).
    pose proof (line_iter (S i) (cur, ps) ltac:(simpl; lia)) as Hl.
    unfold line at 1 in Hl. simpl drop in Hl. rewrite (drop_S _ _ _ Hp) in Hl.
    injection Hl as Hl _. exact Hl.
  - destruct (schedules_ok (S (length ps)) k cur ps Hrun) as (k' & E & Hr).
    exists k'. split; [exact E|].
    pose proof (line_iter (S (length ps)) (cur, ps) ltac:(simpl; lia)) as Hl.
    unfold line in Hl. rewrite drop_ge, take_ge in Hl by (simpl; lia).
    injection Hl as H1 H2. change (Nat.iter (S ?n) turn ?s) with (turn (Nat.iter n turn s)) in Hr.
    rewrite H1, H2 in Hr. exact Hr.
Qed.
End core.
