(* ===== verification/SchedFrame.v ===== *)
(** * What waking and scheduling change

    Frame lemmas for the clients of the scheduler: what [wakeup_proc] and
    [schedule] do to the run queue, and what they leave alone, whichever
    process is running: a runnable one, one that has put itself to sleep, or
    the idle process. *)

From S2P Require Import Prelude DList Kern Sched SchedSpec.

(** ** Frames *)

(** Only the links of the run queue moved. *)
Definition run_key (x : klink) : Prop :=
  match x with run_link _ | run_list _ => True | _ => False end.
Definition lframe (L L' : gmap klink (list klink)) : Prop :=
  ∀ x, L' !! x = L !! x ∨
       (run_key x ∧ (L' !! x = None ∨ ∃ l : list Z, L' !! x = Some (fmap (M:=list) run_link l))).

(** Only processes, run queues, links and [current] moved. *)
Definition kframe (k k' : kst) : Prop :=
  sems k' = sems k ∧ waits k' = waits k ∧ timers k' = timers k ∧ idleproc k' = idleproc k ∧
  lcpu_count k' = lcpu_count k ∧ cpu k' = cpu k.

#[export] Instance kframe_preorder : PreOrder kframe.
Proof. split; [by intros ?|]. intros ??? (?&?&?&?&?&?) (?&?&?&?&?&?). split_and!; congruence. Qed.

#[export] Instance lframe_preorder : PreOrder lframe.
Proof.
  split; [by left|]. intros L1 L2 L3 H12 H23 x.
  destruct (H23 x) as [->|?]; [apply H12|by right].
Qed.

Lemma lframe_other L L' x : lframe L L' → ¬ run_key x → L' !! x = L !! x.
Proof. intros H Hx. destruct (H x) as [?|[? _]]; done. Qed.

Lemma lframe_available L L' x :
  lframe L L' → ¬ run_key x → available L x → available L' x.
Proof.
  intros H Hx [Hun Hal]. split; [|by rewrite (lframe_other _ _ _ H Hx)].
  intros y l Hy. apply lookup_delete_Some in Hy as [Hne Hy].
  destruct (H y) as [E|[Hr [E|[l' E]]]]; rewrite E in Hy.
  - apply (Hun y). by rewrite lookup_delete_ne.
  - done.
  - simplify_eq. intros [->|Hin]%elem_of_cons; [done|].
    apply list_elem_of_fmap in Hin as (? & -> & _). by apply Hx.
Qed.

Lemma lframe_insert L x (l : list Z) :
  run_key x → lframe L (<[x := fmap (M:=list) run_link l]> L).
Proof.
  intros Hx y. destruct (decide (x = y)) as [<-|Hne].
  - right. split; [done|]. right. exists l. apply lookup_insert_eq.
  - left. by apply lookup_insert_ne.
Qed.
Lemma lframe_delete L x : run_key x → lframe L (delete x L).
Proof.
  intros Hx y. destruct (decide (x = y)) as [<-|Hne].
  - right. split; [done|]. left. apply lookup_delete_eq.
  - left. by apply lookup_delete_ne.
Qed.
#[export] Hint Resolve lframe_insert lframe_delete : ucore.

(** The links after an [enqueue] and after a [dequeue]. *)
Definition links_enqueued (L : gmap klink (list klink)) (q : Z) (ps : list Z) (p : Z) :=
  <[run_list q := run_link <$> (ps ++ [p])]> (delete (run_link p) L).
Definition links_dequeued (L : gmap klink (list klink)) (q : Z) (ps : list Z) (p : Z) :=
  <[run_link p := []]> (<[run_list q := run_link <$> ps]> L).

Lemma links_enqueued_frame L q ps p :
  lframe L (links_enqueued L q ps p) ∧
  ∀ p', p' ≠ p → links_enqueued L q ps p !! run_link p' = L !! run_link p'.
Proof.
  split.
  - etrans; [by apply (lframe_delete L (run_link p))|by apply lframe_insert].
  - intros p' Hne. unfold links_enqueued. rewrite lookup_insert_ne by done.
    apply lookup_delete_ne. congruence.
Qed.

Lemma links_dequeued_frame L q ps p :
  lframe L (links_dequeued L q ps p) ∧
  (∀ p', p' ≠ p → links_dequeued L q ps p !! run_link p' = L !! run_link p') ∧
  links_dequeued L q ps p !! run_link p = Some [].
Proof.
  split_and!.
  - etrans; [by apply (lframe_insert L (run_list q) ps)|by apply (lframe_insert _ _ [])].
  - intros p' Hne. unfold links_dequeued. rewrite lookup_insert_ne by congruence.
    by apply lookup_insert_ne.
  - apply lookup_insert_eq.
Qed.

(** ** Processes *)

(** A process the scheduler may put on run queue [q]; its state is [st]. *)
Definition eligible (st : proc_state) (k : kst) (q p : Z) : Prop :=
  ∃ v, procs k !! p = Some v ∧ state v = st ∧ lcpu_count k ≤ pid v ∧
    Z.land (flags v) PF_PINCPU = 0 ∧ (rq v = None ∨ rq v = Some q) ∧ p ≠ idleproc k.

Lemma runnable_eligible k q p : runnable k q p ↔ eligible PROC_RUNNABLE k q p.
Proof. done. Qed.

(** What a change of processes [k ⟶ k'] must keep for the others. *)
Definition pframe (k k' : kst) (q p : Z) : Prop :=
  ∀ v, procs k !! p = Some v → ∃ w, procs k' !! p = Some w ∧ same_sched q v w ∧
    wait_state w = wait_state v.

Lemma pframe_refl k k' q p : procs k' !! p = procs k !! p → pframe k k' q p.
Proof. intros E v Hv. exists v. rewrite E. split; [done|]. split; [|done]. repeat split; auto. Qed.

Lemma pframe_trans k1 k2 k3 q p : pframe k1 k2 q p → pframe k2 k3 q p → pframe k1 k3 q p.
Proof.
  intros H12 H23 v Hv. destruct (H12 v Hv) as (w & Hw & (?&?&?&Hq) & ?).
  destruct (H23 w Hw) as (u & Hu & (?&?&?&Hq') & ?). exists u.
  split; [done|]. split; [|congruence]. split_and!; try congruence. naive_solver congruence.
Qed.

Lemma eligible_mono st k k' q p :
  eligible st k q p → kframe k k' → pframe k k' q p → eligible st k' q p.
Proof.
  intros (v & Hv & Hs & Hp & Hf & Hq & Hi) (_&_&_&Eid&El&_) H.
  destruct (H v Hv) as (w & Hw & (Es&Ep&Ef&Eq) & _). exists w.
  split_and!; [done|congruence|congruence|congruence| |congruence]. naive_solver congruence.
Qed.

Lemma eligible_runnable_ne k q p p' :
  eligible PROC_SLEEPING k q p → runnable k q p' → p ≠ p'.
Proof. intros (v & Hv & Hs & _) (v' & Hv' & Hs' & _) <-. simplify_eq. congruence. Qed.

Section frames.
Context (class : sched_class) (ok : gmap klink (list klink) → Z → Prop) `{!RunQueue class ok}.

Lemma ok_frame L L' q : ok L q → lframe L L' → ok L' q.
Proof. intros Hok H. eapply rq_ok_frame; [exact Hok|]. apply (lframe_other _ _ _ H); by intros []. Qed.

(** ** Waking *)

Definition woken (v : proc_struct) : proc_struct := v <| state := PROC_RUNNABLE |> <| wait_state := 0 |>.

(** Waking a sleeping process that does not run: it goes to the end of the
    run queue. *)
Lemma wakeup_other k L ps p :
  queue k L (cpu k) ps → ok L (cpu k) → L !! run_link p = Some [] →
  eligible PROC_SLEEPING k (cpu k) p → p ≠ current k → Z.of_nat (length ps) + 1 < 2 ^ 32 →
  let L' := links_enqueued L (cpu k) ps p in
  ∃ k', wakeup_proc class p k = Ok (tt, k') ∧ queue k' L' (cpu k) (ps ++ [p]) ∧
    runnable k' (cpu k) p ∧ kframe k k' ∧ current k' = current k ∧
    (∀ p', p' ≠ p → procs k' !! p' = procs k !! p') ∧
    ∃ u, procs k' !! p = Some u ∧ wait_state u = 0.
Proof.
  intros HQ Hok Hal (v & Hv & Hs & Hp & Hf & Hq & Hi) Hc Hlen L'. unfold wakeup_proc.
  rewrite (bind_ok _ _ k v k) by (unfold get_proc, deref; by rewrite Hv). rewrite Hs.
  rewrite (bind_ok _ _ _ _ _ eq_refl). rewrite bool_decide_false by done. cbn [negb].
  rewrite (bind_ok _ _ _ _ _ (set_proc_ok _ _ _ _ Hv)). fold (woken v).
  set (k0 := k <| procs := <[p := woken v]> (procs k) |>).
  rewrite (bind_ok _ _ _ _ _ eq_refl). change (current k0) with (current k).
  change (lcpu_count k0) with (lcpu_count k). rewrite (proj2 (Z.eqb_neq _ _) Hc). cbn [negb].
  rewrite (proj2 (Z.leb_le _ _)) by done. rewrite (bind_ok _ _ _ _ _ eq_refl).
  assert (procs k0 !! p = Some (woken v)) as Hv0 by apply lookup_insert_eq.
  assert (queue k0 L (cpu k0) ps) as HQ0 by (by apply (queue_set_proc _ _ _ _ _ v)).
  pose proof HQ as (_ & _ & (r & Hr & _) & _).
  destruct (enqueue_ok class ok k0 L ps p (woken v) r HQ0 Hok Hal Hv0 Hr Hq Hf Hi) as (l' & E & Hrep).
  eexists. split; [exact E|].
  pose proof (queue_enqueued class ok k0 L ps p (woken v) r l' HQ0 Hv0 Hr Hlen Hrep) as HQ1.
  split; [exact HQ1|]. split_and!; [|done..| |].
  - exists (queued (cpu k) (max_time_slice r) (woken v)). simpl. rewrite lookup_insert_eq.
    split_and!; [done|done|done|done|by right|done].
  - intros p' Hne. simpl. by rewrite !lookup_insert_ne.
  - eexists. split; [apply lookup_insert_eq|done].
Qed.

(** Waking the running process, which has put itself to sleep: it only
    becomes runnable. *)
Lemma wakeup_self k p v :
  procs k !! p = Some v → state v = PROC_SLEEPING → p = current k →
  wakeup_proc class p k = Ok (tt, k <| procs := <[p := woken v]> (procs k) |>).
Proof.
  intros Hv Hs Hc. unfold wakeup_proc.
  rewrite (bind_ok _ _ k v k) by (unfold get_proc, deref; by rewrite Hv). rewrite Hs.
  rewrite (bind_ok _ _ _ _ _ eq_refl). rewrite bool_decide_false by done. cbn [negb].
  rewrite (bind_ok _ _ _ _ _ (set_proc_ok _ _ _ _ Hv)). fold (woken v).
  rewrite (bind_ok _ _ _ _ _ eq_refl). cbn [current]. by rewrite Hc, Z.eqb_refl.
Qed.

(** ** Scheduling *)

(** The end of [schedule]: the processor goes to the first process of the
    queue, or to the idle process. *)
Definition switch (idle cur : Z) : M kst unit :=
  picked ← sched_class_pick_next class;
  next ← (match picked with
          | Some p => _ ← sched_class_dequeue class p; mret p
          | None => mret idle
          end);
  _ ← set_proc next (λ v, v <| runs := s32 (runs v + 1) |>);
  if negb (next =? cur) then proc_run next else mret tt.

Lemma pframe_set k q p v v' :
  procs k !! p = Some v → same_sched q v v' → wait_state v' = wait_state v →
  ∀ p', pframe k (k <| procs := <[p := v']> (procs k) |>) q p'.
Proof.
  intros Hv Hs Hw p' u Hu. simpl. destruct (decide (p' = p)) as [->|Hne].
  - rewrite lookup_insert_eq. exists v'. by simplify_eq.
  - rewrite lookup_insert_ne by done. exists u. split; [done|]. split; [|done]. repeat split; auto.
Qed.

Lemma runs_same q v : same_sched q v (v <| runs := s32 (runs v + 1) |>).
Proof. repeat split; by left. Qed.

Lemma switch_some k L p ps cur :
  queue k L (cpu k) (p :: ps) → ok L (cpu k) → current k = cur →
  Z.of_nat (length (p :: ps)) < 2 ^ 32 →
  ∃ k', switch (idleproc k) cur k = Ok (tt, k') ∧ current k' = p ∧ kframe k k' ∧
    queue k' (links_dequeued L (cpu k) ps p) (cpu k) ps ∧ ∀ p', pframe k k' (cpu k) p'.
Proof.
  intros HQ Hok Hc Hlen. pose proof HQ as (_ & _ & (r & Hr & _) & Hps).
  destruct (pick_ok class ok k L p ps r (idleproc k) HQ Hok Hr) as (l' & E & Hrep).
  unfold switch. rewrite bind_assoc, (bind_ok _ _ _ _ _ E). set (k1 := dequeued k _ _ l').
  destruct (Hps p ltac:(set_solver)) as (v & Hv & _).
  assert (procs k1 !! p = Some v) as Hv1 by done.
  rewrite (bind_ok _ _ _ _ _ (set_proc_ok _ _ _ _ Hv1)).
  eexists. split; [by apply proc_run_ok|]. split_and!; [done|done| |].
  - pose proof (queue_dequeued class ok k L p ps r l' HQ Hr Hlen Hrep) as HQ1.
    by apply (queue_set_proc k1 _ (cpu k) ps p v).
  - intros p'. apply (pframe_set k1 (cpu k) p v _ Hv1 (runs_same _ _) eq_refl).
Qed.

Lemma switch_none k L cur v :
  queue k L (cpu k) [] → ok L (cpu k) → current k = cur → procs k !! idleproc k = Some v →
  ∃ k', switch (idleproc k) cur k = Ok (tt, k') ∧ current k' = idleproc k ∧ kframe k k' ∧
    queue k' L (cpu k) [] ∧ ∀ p', pframe k k' (cpu k) p'.
Proof.
  intros HQ Hok Hc Hv. unfold switch.
  assert (sched_class_pick_next class k = Ok (None, k)) as E
    by exact (rq_pick_next (c:=class) _ _ _ _ HQ Hok).
  rewrite (bind_ok _ _ _ _ _ E), (bind_ok _ _ _ _ _ eq_refl).
  rewrite (bind_ok _ _ _ _ _ (set_proc_ok _ _ _ _ Hv)).
  eexists. split; [by apply proc_run_ok|]. split_and!; [done|done| |].
  - by apply (queue_set_proc k _ (cpu k) [] (idleproc k) v).
  - intros p'. apply (pframe_set k (cpu k) (idleproc k) v _ Hv (runs_same _ _) eq_refl).
Qed.

(** What [schedule] has done: [nxt] runs and [rest] is queued. *)
Record scheduled (k k' : kst) (L L' : gmap klink (list klink)) (line : list Z) (nxt : Z)
    (rest : list Z) : Prop := {
  sd_line : line = nxt :: rest ∨ (line = [] ∧ rest = [] ∧ nxt = idleproc k);
  sd_queue : queue k' L' (cpu k) rest;
  sd_current : current k' = nxt;
  sd_kframe : kframe k k';
  sd_lframe : lframe L L';
  sd_pframe p : pframe k k' (cpu k) p;
  sd_next : line ≠ [] → L' !! run_link nxt = Some [];
  sd_alone p : p ∉ line → L' !! run_link p = L !! run_link p;
}.

Lemma need_resched_same q v : same_sched q v (v <| need_resched := 0 |>).
Proof. repeat split; by left. Qed.

(** The running process does not go back to the queue: it sleeps, or it is
    the idle process. *)
Lemma schedule_leave k L ps cur v i :
  queue k L (cpu k) ps → ok L (cpu k) → current k = cur → procs k !! cur = Some v →
  state v ≠ PROC_RUNNABLE ∨ pid v < lcpu_count k → procs k !! idleproc k = Some i →
  Z.of_nat (length ps) < 2 ^ 32 →
  ∃ k' L' nxt rest, schedule class k = Ok (tt, k') ∧ scheduled k k' L L' ps nxt rest.
Proof.
  intros HQ Hok Hc Hv Hno Hi Hlen. unfold schedule. rewrite (bind_ok _ _ _ _ _ eq_refl). cbv zeta.
  rewrite Hc, (bind_ok _ _ _ _ _ (set_proc_ok _ _ _ _ Hv)).
  set (v0 := v <| need_resched := 0 |>). set (k0 := k <| procs := <[cur := v0]> (procs k) |>).
  assert (procs k0 !! cur = Some v0) as Hv0 by apply lookup_insert_eq.
  rewrite (bind_ok _ _ k0 v0 k0) by (unfold get_proc, deref; by rewrite Hv0).
  assert (bool_decide (state v0 = PROC_RUNNABLE) && (lcpu_count k <=? pid v0) = false) as ->.
  { destruct Hno as [Hn|Hn]; [by rewrite bool_decide_false|].
    rewrite (proj2 (Z.leb_gt _ _)) by exact Hn. by rewrite andb_false_r. }
  rewrite (bind_ok _ _ _ _ _ eq_refl).
  assert (queue k0 L (cpu k0) ps) as HQ0 by (by apply (queue_set_proc _ _ _ _ _ v)).
  pose proof (pframe_set k (cpu k) cur v v0 Hv (need_resched_same _ _) eq_refl) as Hp0.
  destruct ps as [|p ps].
  - assert (is_Some (procs k0 !! idleproc k0)) as [i0 Hi0].
    { simpl. destruct (decide (idleproc k = cur)) as [->|?]; [by rewrite lookup_insert_eq|].
      rewrite lookup_insert_ne by done. by eexists. }
    destruct (switch_none k0 L cur i0 HQ0 Hok Hc Hi0) as (k' & E & Hcur & Hk & HQ' & Hp).
    exists k', L, (idleproc k), []. split; [exact E|].
    constructor; try done; [by right|]. intros p. by eapply pframe_trans.
  - destruct (switch_some k0 L p ps cur HQ0 Hok Hc Hlen) as (k' & E & Hcur & Hk & HQ' & Hp).
    destruct (links_dequeued_frame L (cpu k) ps p) as (Hf & Hother & Hself).
    eexists k', _, p, ps. split; [exact E|].
    constructor; try done; [by left| |].
    + intros p'. by eapply pframe_trans.
    + intros p' Hp'. apply Hother. set_solver.
Qed.

(** The running process is runnable: it goes to the end of the queue. *)
Lemma schedule_requeue k L ps cur :
  queue k L (cpu k) ps → ok L (cpu k) → current k = cur → runnable k (cpu k) cur →
  L !! run_link cur = Some [] → Z.of_nat (length ps) + 1 < 2 ^ 32 →
  ∃ k' L' nxt rest, schedule class k = Ok (tt, k') ∧
    scheduled k k' L L' (ps ++ [cur]) nxt rest.
Proof.
  intros HQ Hok Hc (v & Hv & Hs & Hpid & Hfl & Hq & Hidle) Hal Hlen.
  unfold schedule. rewrite (bind_ok _ _ _ _ _ eq_refl). cbv zeta.
  rewrite Hc, (bind_ok _ _ _ _ _ (set_proc_ok _ _ _ _ Hv)).
  set (v0 := v <| need_resched := 0 |>). set (k0 := k <| procs := <[cur := v0]> (procs k) |>).
  assert (procs k0 !! cur = Some v0) as Hv0 by apply lookup_insert_eq.
  rewrite (bind_ok _ _ k0 v0 k0) by (unfold get_proc, deref; by rewrite Hv0).
  rewrite bool_decide_true by done. rewrite (proj2 (Z.leb_le _ _)) by done. cbn [andb].
  assert (queue k0 L (cpu k0) ps) as HQ0 by (by apply (queue_set_proc _ _ _ _ _ v)).
  pose proof HQ as (_ & _ & (r & Hr & _) & _).
  destruct (enqueue_ok class ok k0 L ps cur v0 r HQ0 Hok Hal Hv0 Hr Hq Hfl Hidle) as (l1 & E1 & Hrep1).
  rewrite (bind_ok _ _ _ _ _ E1).
  pose proof (queue_enqueued class ok k0 L ps cur v0 r l1 HQ0 Hv0 Hr Hlen Hrep1) as HQ1.
  set (k1 := enqueued k0 (cpu k0) cur v0 r l1) in *.
  destruct (links_enqueued_frame L (cpu k) ps cur) as [Hf1 Ho1].
  assert (∀ p, pframe k k1 (cpu k) p) as Hp1.
  { intros p. eapply pframe_trans; [by apply (pframe_set k (cpu k) cur v v0 Hv (need_resched_same _ _))|].
    apply (pframe_set k0 (cpu k) cur v0 _ Hv0); [|done]. repeat split; by right. }
  destruct (ps ++ [cur]) as [|p ps'] eqn:Hline; [by destruct ps|].
  assert (length (p :: ps') = S (length ps)) as Hlen' by (rewrite <-Hline, length_app; simpl; lia).
  assert (cpu k1 = cpu k) as Ecpu by done.
  destruct (switch_some k1 (links_enqueued L (cpu k) ps cur) p ps' cur) as (k' & E & Hcur & Hk & HQ' & Hp).
  { unfold links_enqueued. by rewrite Hline. }
  { by eapply ok_frame. } { done. } { lia. }
  destruct (links_dequeued_frame (links_enqueued L (cpu k) ps cur) (cpu k) ps' p) as (Hf & Hother & Hself).
  eexists k', _, p, ps'. split; [exact E|]. rewrite Ecpu in HQ'. constructor; try done.
  - by left.
  - by etrans.
  - intros p'. by eapply pframe_trans.
  - intros p' Hp'. rewrite Hother by set_solver. apply Ho1.
    intros ->. apply Hp'. rewrite <-Hline. set_solver.
Qed.

End frames.
