(* ===== verification/TimerSpec.v ===== *)
(** * Timers

    The timer list of [sched.c] stores differences: the [expires] of a timer
    counts the ticks after the previous one.  The abstract view is the list of
    deadlines; [add_timer] inserts one deadline and [del_timer] removes one,
    and neither moves the others. *)

From S2P Require Import Prelude DList Kern Sched.

(** ** Lists of differences *)

(** The deadlines of a list of differences, counted from [acc]. *)
Fixpoint deadlines (acc : Z) (l : list (Z * Z)) : list (Z * Z) :=
  match l with
  | [] => []
  | (t, d) :: l' => (t, acc + d) :: deadlines (acc + d) l'
  end.

(** Insertion of a timer [t] due in [e] ticks, as a list of differences and
    as a list of deadlines; after the timers due at the same time. *)
Fixpoint insert_delta (t e : Z) (l : list (Z * Z)) : list (Z * Z) :=
  match l with
  | [] => [(t, e)]
  | (n, d) :: l' =>
      if e <? d then (t, e) :: (n, d - e) :: l' else (n, d) :: insert_delta t (e - d) l'
  end.

Fixpoint insert_deadline (t e : Z) (l : list (Z * Z)) : list (Z * Z) :=
  match l with
  | [] => [(t, e)]
  | (n, d) :: l' => if e <? d then (t, e) :: l else (n, d) :: insert_deadline t e l'
  end.

Lemma insert_delta_deadlines t e acc l :
  deadlines acc (insert_delta t e l) = insert_deadline t (acc + e) (deadlines acc l).
Proof.
  revert e acc. induction l as [|[n d] l IH]; intros e acc; simpl; [done|].
  destruct (Z.ltb_spec e d) as [Hlt|Hge]; simpl.
  - rewrite (proj2 (Z.ltb_lt _ _)) by lia. simpl.
    replace (acc + e + (d - e)) with (acc + d) by lia. done.
  - rewrite (proj2 (Z.ltb_ge _ _)) by lia. rewrite IH.
    replace (acc + d + (e - d)) with (acc + e) by lia. done.
Qed.

(** Deletion: the successor inherits the ticks of the deleted timer. *)
Definition add_to_head (e : Z) (l : list (Z * Z)) : list (Z * Z) :=
  match l with [] => [] | (n, d) :: l' => (n, d + e) :: l' end.

(** The ticks a list of differences spans. *)
Fixpoint span (l : list (Z * Z)) : Z :=
  match l with [] => 0 | (_, d) :: l' => d + span l' end.

Lemma deadlines_app acc l1 l2 :
  deadlines acc (l1 ++ l2) = deadlines acc l1 ++ deadlines (acc + span l1) l2.
Proof.
  revert acc. induction l1 as [|[n d] l1 IH]; intros acc; simpl; [by rewrite Z.add_0_r|].
  rewrite IH. do 3 f_equal. lia.
Qed.

Lemma span_app l1 l2 : span (l1 ++ l2) = span l1 + span l2.
Proof. induction l1 as [|[n d] l1 IH]; simpl; lia. Qed.

Lemma add_to_head_deadlines acc e l :
  deadlines acc (add_to_head e l) = deadlines (acc + e) l.
Proof.
  destruct l as [|[n d] l]; simpl; [done|].
  by replace (acc + (d + e)) with (acc + e + d) by lia.
Qed.

(** ** The timer list of the kernel *)

Definition delta (m : gmap Z timer_t) (t : Z) : Z := default 0 (expires <$> m !! t).
Definition deltas (m : gmap Z timer_t) (ts : list Z) : list (Z * Z) := map (λ t, (t, delta m t)) ts.

(** The list holds the timers [ts]; their differences are unsigned 32-bit
    numbers and so is the last deadline. *)
Record timer_inv (k : kst) (L : gmap klink (list klink)) (ts : list Z) : Prop := {
  ti_rep : rep (klinks k) L;
  ti_list : L !! timer_list = Some (timer_link <$> ts);
  ti_timers t : t ∈ ts → ∃ v, timers k !! t = Some v ∧ 0 ≤ expires v;
  ti_span : span (deltas (timers k) ts) < 2 ^ 32;
}.

Lemma delta_lookup m t v : m !! t = Some v → delta m t = expires v.
Proof. unfold delta. by intros ->. Qed.

Lemma deltas_ext m m' ts : (∀ t, t ∈ ts → m' !! t = m !! t) → deltas m' ts = deltas m ts.
Proof.
  intros Hm. apply map_ext_in. intros t Ht. unfold delta. rewrite Hm; [done|].
  by apply list_elem_of_In.
Qed.

Lemma timer_nodup k L ts : timer_inv k L ts → NoDup ts.
Proof.
  intros [[Hr _] Hl _ _]. destruct (Hr _ _ Hl) as [Hnd _]. apply NoDup_cons in Hnd as [_ Hnd].
  by apply NoDup_fmap_1 in Hnd.
Qed.

Lemma timer_count k L ts : timer_inv k L ts → (length ts ≤ size (timers k))%nat.
Proof.
  intros HI. pose proof (timer_nodup _ _ _ HI) as Hnd.
  rewrite <-(size_dom (timers k) (D := gset Z)), <-(size_list_to_set (C := gset Z) ts Hnd).
  apply subseteq_size. intros t Ht%elem_of_list_to_set. apply elem_of_dom.
  destruct (ti_timers _ _ _ HI t Ht) as (v & -> & _). done.
Qed.

(** The entry behind which nothing of [ts] is left is the head of the list. *)
Definition first_link (ts : list Z) : klink :=
  match ts with [] => timer_list | t :: _ => timer_link t end.

Lemma first_link_app ts : ∃ b, (timer_link <$> ts) ++ [timer_list] = first_link ts :: b.
Proof. destruct ts; simpl; eauto. Qed.

Lemma timer_next k L ts1 t ts2 :
  rep (klinks k) L → L !! timer_list = Some (timer_link <$> (ts1 ++ t :: ts2)) →
  on_list (list_next (timer_link t)) k = Ok (first_link ts2, k).
Proof.
  intros Hr Hl. destruct (first_link_app ts2) as [b Hb]. apply on_list_read.
  apply (list_next_spec _ L timer_list (fmap (M:=list) timer_link (ts1 ++ [t]))
    (fmap (M:=list) timer_link ts2) (timer_list :: fmap (M:=list) timer_link ts1) _ _ b Hr); [|by rewrite fmap_app|done].
  rewrite Hl. by rewrite <-fmap_app, <-app_assoc.
Qed.

Lemma timer_first k L ts :
  rep (klinks k) L → L !! timer_list = Some (timer_link <$> ts) →
  on_list (list_next timer_list) k = Ok (first_link ts, k).
Proof.
  intros Hr Hl. destruct (first_link_app ts) as [b Hb]. apply on_list_read.
  by apply (list_next_spec _ L timer_list [] (fmap (M:=list) timer_link ts) [] _ _ b Hr).
Qed.

(** ** [add_timer] *)

Lemma get_timer_ok k t v : timers k !! t = Some v → get_timer t k = Ok (v, k).
Proof. intros E. unfold get_timer, deref. by rewrite E. Qed.

(** One step of the walk of [__add_timer]. *)
Definition add_body (timer : Z) (le : klink) : M kst (klink + klink) :=
  if decide (le = timer_list) then mret (inr le)
  else
    next ← le2timer le;
    n ← get_timer next;
    t ← get_timer timer;
    if expires t <? expires n then
      _ ← set_timer next (λ n, n <| expires := u32 (expires n - expires t) |>);
      mret (inr le)
    else
      _ ← set_timer timer (λ t, t <| expires := u32 (expires t - expires n) |>);
      le' ← on_list (list_next le);
      mret (inl le').

Lemma span_nonneg m ts :
  (∀ t, t ∈ ts → ∃ v, m !! t = Some v ∧ 0 ≤ expires v) → 0 ≤ span (deltas m ts).
Proof.
  induction ts as [|t ts IH]; intros Hts; [done|]. simpl.
  destruct (Hts t ltac:(set_solver)) as (v & Hv & ?). unfold delta at 1. rewrite Hv. simpl.
  specialize (IH ltac:(set_solver)). lia.
Qed.

Lemma add_walk timer L ts2 : ∀ ts1 k v fuel,
  rep (klinks k) L → L !! timer_list = Some (timer_link <$> (ts1 ++ ts2)) → NoDup ts2 →
  timers k !! timer = Some v → timer ∉ ts2 → 0 ≤ expires v < 2 ^ 32 →
  (∀ t, t ∈ ts2 → ∃ w, timers k !! t = Some w ∧ 0 ≤ expires w) →
  span (deltas (timers k) ts2) < 2 ^ 32 → (length ts2 < fuel)%nat →
  ∃ ts2a ts2b m', ts2 = ts2a ++ ts2b ∧
    loop fuel (add_body timer) (first_link ts2) k = Ok (first_link ts2b, k <| timers := m' |>) ∧
    deltas m' (ts2a ++ timer :: ts2b) =
      insert_delta timer (expires v) (deltas (timers k) ts2) ∧
    (∀ t, t ≠ timer → t ∉ ts2 → m' !! t = timers k !! t) ∧
    (∀ t, t ∈ timer :: ts2 → ∃ w, m' !! t = Some w ∧ 0 ≤ expires w).
Proof.
  induction ts2 as [|n ts2 IH]; intros ts1 k v fuel Hr Hl Hnd Hv Hni Hev Hts Hsp Hf;
    (destruct fuel as [|fuel]; [simpl in Hf; lia|]).
  - exists [], [], (timers k). split; [done|]. rewrite loop_step.
    split_and!; [by destruct k| |done|].
    + simpl. unfold delta. by rewrite Hv.
    + intros t ->%list_elem_of_singleton. exists v. split; [done|lia].
  - destruct (Hts n ltac:(set_solver)) as (w & Hw & Hw0).
    pose proof (span_nonneg (timers k) ts2 ltac:(set_solver)) as Hsn.
    simpl in Hsp. unfold delta at 1 in Hsp. rewrite Hw in Hsp. simpl in Hsp.
    apply NoDup_cons in Hnd as [Hnn Hnd]. rewrite loop_step.
    assert (Hstep : add_body timer (first_link (n :: ts2)) k =
      (if expires v <? expires w then
         Ok (inr (timer_link n), k <| timers := <[n := w <| expires := u32 (expires w - expires v) |>]> (timers k) |>)
       else Ok (inl (first_link ts2),
         k <| timers := <[timer := v <| expires := u32 (expires v - expires w) |>]> (timers k) |>))).
    { unfold add_body. simpl first_link. rewrite decide_False by done.
      rewrite (bind_ok _ _ _ _ _ eq_refl), (bind_ok _ _ _ _ _ (get_timer_ok _ _ _ Hw)).
      rewrite (bind_ok _ _ _ _ _ (get_timer_ok _ _ _ Hv)).
      destruct (expires v <? expires w).
      - by rewrite (bind_ok _ _ _ _ _ (set_timer_ok _ _ _ _ Hw)).
      - rewrite (bind_ok _ _ _ _ _ (set_timer_ok _ _ _ _ Hv)).
        erewrite (bind_ok (on_list _)); [done|]. by apply (timer_next _ L ts1 n ts2). }
    rewrite Hstep. destruct (Z.ltb_spec (expires v) (expires w)) as [Hlt|Hge].
    + exists [], (n :: ts2). eexists. split; [done|]. split; [reflexivity|].
      rewrite u32_id by lia. split_and!.
      * simpl. rewrite (delta_lookup _ n w Hw), (proj2 (Z.ltb_lt _ _) Hlt).
        erewrite (delta_lookup _ timer v); [|by rewrite lookup_insert_ne by set_solver].
        erewrite (delta_lookup _ n); [|by rewrite lookup_insert_eq].
        simpl. do 2 f_equal. apply deltas_ext. intros t Ht. apply lookup_insert_ne. set_solver.
      * intros t Ht Hn. apply lookup_insert_ne. set_solver.
      * intros t Ht. destruct (decide (t = n)) as [->|Hne].
        { rewrite lookup_insert_eq. eexists. split; [done|]. simpl. lia. }
        rewrite lookup_insert_ne by done. set_unfold. destruct Ht as [->|[?|?]]; [|done|auto].
        exists v. split; [done|lia].
    + rewrite u32_id by lia. set (v' := v <| expires := expires v - expires w |>).
      set (k1 := k <| timers := <[timer := v']> (timers k) |>).
      assert (Htk : ∀ t, t ∈ ts2 → timers k1 !! t = timers k !! t)
        by (intros t Ht; simpl; apply lookup_insert_ne; set_solver).
      destruct (IH (ts1 ++ [n]) k1 v' fuel) as (a & b & m' & Hab & E & Hd & Hfr & Hall); try done.
      * by rewrite <-app_assoc.
      * apply lookup_insert_eq.
      * set_solver.
      * simpl. lia.
      * intros t Ht. rewrite Htk by done. set_solver.
      * rewrite (deltas_ext (timers k) (timers k1)) by done. lia.
      * simpl in Hf. lia.
      * rewrite E. exists (n :: a), b, m'. split; [by rewrite Hab|]. split; [done|].
        assert (m' !! n = Some w) as Hm'n.
        { rewrite Hfr; [|set_solver|done]. simpl. rewrite lookup_insert_ne by set_solver. done. }
        split_and!.
        -- simpl. rewrite (delta_lookup m' n w Hm'n), (delta_lookup _ n w Hw).
           rewrite (proj2 (Z.ltb_ge _ _) Hge). f_equal. rewrite Hd. simpl.
           f_equal. by apply deltas_ext.
        -- intros t Ht Hn. rewrite Hfr; [|done|set_solver]. simpl. apply lookup_insert_ne. done.
        -- intros t Ht. destruct (decide (t = n)) as [->|Hne]; [by exists w|].
           apply Hall. set_solver.
Qed.

Lemma span_insert t e l :
  (∀ x, x ∈ l → 0 ≤ x.2) → 0 ≤ e → span (insert_delta t e l) = Z.max e (span l).
Proof.
  revert e. induction l as [|[n d] l IH]; intros e Hl He; simpl; [lia|].
  assert (0 ≤ d) by (apply (Hl (n, d)); set_solver).
  assert (0 ≤ span l) as Hs.
  { clear IH. induction l as [|[m c] l IHl]; simpl; [done|].
    pose proof (Hl (m, c) ltac:(set_solver)). simpl in *. specialize (IHl ltac:(set_solver)). lia. }
  destruct (Z.ltb_spec e d); simpl; [lia|]. rewrite IH by (set_solver || lia). lia.
Qed.

Lemma deltas_nonneg m ts :
  (∀ t, t ∈ ts → ∃ v, m !! t = Some v ∧ 0 ≤ expires v) → ∀ x, x ∈ deltas m ts → 0 ≤ x.2.
Proof.
  intros Hts x (t & -> & Ht)%list_elem_of_fmap. simpl.
  destruct (Hts t Ht) as (v & Hv & ?). by rewrite (delta_lookup _ _ _ Hv).
Qed.

(** A timer that is on no list is none of the pending ones. *)
Lemma timer_alone_notin h L ts t :
  rep h L → L !! timer_list = Some (timer_link <$> ts) → L !! timer_link t = Some [] → t ∉ ts.
Proof.
  intros [_ Hd] Hl Ht Hin.
  assert (timer_list = timer_link t) by (apply (Hd _ _ _ _ (timer_link t) Hl Ht); set_solver).
  done.
Qed.

Lemma add_timer_ok k L ts timer v :
  timer_inv k L ts → timers k !! timer = Some v → 0 < expires v < 2 ^ 32 →
  L !! timer_link timer = Some [] →
  ∃ ts' m' l', add_timer_ timer k = Ok (tt, k <| timers := m' |> <| klinks := l' |>) ∧
    timer_inv (k <| timers := m' |> <| klinks := l' |>)
      (<[timer_list := timer_link <$> ts']> (delete (timer_link timer) L)) ts' ∧
    deltas m' ts' = insert_delta timer (expires v) (deltas (timers k) ts).
Proof.
  intros HI Hv Hev Hal. pose proof HI as [Hr Hl Hts Hsp].
  pose proof (timer_alone_notin _ _ _ _ Hr Hl Hal) as Hni. unfold add_timer_.
  rewrite (bind_ok _ _ _ _ _ (get_timer_ok _ _ _ Hv)).
  rewrite (proj2 (Z.ltb_lt _ _)) by lia. rewrite (bind_ok _ _ _ _ _ eq_refl).
  rewrite (bind_ok _ _ k true k) by (by apply on_list_read, (list_empty_spec _ L _ [])).
  rewrite (bind_ok _ _ _ _ _ eq_refl), (bind_ok _ _ _ _ _ (timer_first _ _ _ Hr Hl)).
  rewrite (bind_ok _ _ _ _ _ eq_refl).
  destruct (add_walk timer L ts [] k v (S (size (timers k)))) as (a & b & m' & -> & E & Hd & _ & Hall);
    try done.
  { by eapply timer_nodup. } { lia. } { pose proof (timer_count _ _ _ HI). lia. }
  unfold add_body in E. rewrite (bind_ok _ _ _ _ _ E).
  destruct (first_link_app b) as [c Hc].
  destruct (list_add_before_at _ L timer_list (fmap (M:=list) timer_link a) (fmap (M:=list) timer_link b) (first_link b) c (timer_link timer) Hr)
    as (l' & El & Hr'); [by rewrite Hl, fmap_app|exact Hc|by eapply rep_alone_available|done|].
  exists (a ++ timer :: b), m', l'. split; [by apply on_list_ok|]. split; [|done].
  constructor; [by rewrite fmap_app|apply lookup_insert_eq| |].
  - intros t Ht. apply Hall. set_solver.
  - simpl. rewrite Hd, span_insert; [lia|by apply deltas_nonneg|lia].
Qed.


(** ** [del_timer] *)

Lemma deadlines_fst acc l : (deadlines acc l).*1 = l.*1.
Proof. revert acc. induction l as [|[t d] l IH]; intros acc; simpl; [done|]. by rewrite IH. Qed.

Lemma deltas_fst m ts : (deltas m ts).*1 = ts.
Proof.
  induction ts as [|t ts IH]; [done|]. change (t :: (deltas m ts).*1 = t :: ts). by rewrite IH.
Qed.

Lemma deltas_app m ts1 ts2 : deltas m (ts1 ++ ts2) = deltas m ts1 ++ deltas m ts2.
Proof. apply map_app. Qed.

Lemma filter_other (t : Z) (l : list (Z * Z)) :
  t ∉ l.*1 → filter (λ x, x.1 ≠ t) l = l.
Proof.
  induction l as [|[n d] l IH]; intros Hn; [done|]. rewrite filter_cons_True by (simpl; set_solver).
  rewrite IH by set_solver. done.
Qed.

(** The differences after the deletion of [t]. *)
Lemma delete_delta m ts1 t ts2 v m' :
  NoDup (ts1 ++ t :: ts2) → m !! t = Some v →
  deltas m' ts1 = deltas m ts1 → deltas m' ts2 = add_to_head (expires v) (deltas m ts2) →
  deadlines 0 (deltas m' (ts1 ++ ts2)) =
    filter (λ x, x.1 ≠ t) (deadlines 0 (deltas m (ts1 ++ t :: ts2))).
Proof.
  intros Hnd Hv E1 E2. rewrite !deltas_app, !deadlines_app, E1, E2.
  apply NoDup_app in Hnd as (_ & Hn1 & Hn2). apply NoDup_cons in Hn2 as [Hn2 _].
  rewrite filter_app, filter_other.
  2: { rewrite deadlines_fst, deltas_fst. intros ?. apply (Hn1 t); set_solver. }
  f_equal. rewrite add_to_head_deadlines. simpl. rewrite (delta_lookup _ _ _ Hv).
  rewrite filter_cons_False by (simpl; tauto).
  rewrite filter_other; [done|]. rewrite deadlines_fst. fold (deltas m ts2). by rewrite deltas_fst.
Qed.

(** The difference of the deleted timer goes to its successor. *)
Lemma del_inherit k L ts1 timer ts2 v :
  timer_inv k L (ts1 ++ timer :: ts2) → timers k !! timer = Some v →
  ∃ m', (if negb (expires v =? 0) then
           le ← on_list (list_next (timer_link timer));
           if decide (le = timer_list) then mret tt
           else
             next ← le2timer le;
             set_timer next (λ n, n <| expires := u32 (expires n + expires v) |>)
         else mret tt) k = Ok (tt, k <| timers := m' |>) ∧
    deltas m' ts2 = add_to_head (expires v) (deltas (timers k) ts2) ∧
    (∀ t, head ts2 ≠ Some t → m' !! t = timers k !! t) ∧
    (∀ t, t ∈ ts2 → ∃ w, m' !! t = Some w ∧ 0 ≤ expires w).
Proof.
  intros HI Hv. pose proof HI as [Hr Hl Hts Hsp]. pose proof (timer_nodup _ _ _ HI) as Hnd.
  rewrite deltas_app, span_app in Hsp. simpl in Hsp. rewrite (delta_lookup _ _ _ Hv) in Hsp.
  pose proof (span_nonneg (timers k) ts1 ltac:(set_solver)).
  assert (0 ≤ expires v) as Hv0 by (destruct (Hts timer ltac:(set_solver)) as (? & ? & ?); by simplify_eq).
  destruct (Z.eqb_spec (expires v) 0) as [Hz|Hz]; cbn [negb].
  { exists (timers k). rewrite Hz. split; [by destruct k|]. split_and!; [|done|set_solver].
    destruct (deltas (timers k) ts2) as [|[n d] l]; simpl; [done|]. by rewrite Z.add_0_r. }
  rewrite (bind_ok _ _ _ _ _ (timer_next _ L ts1 timer ts2 Hr Hl)).
  destruct ts2 as [|n ts2]; simpl first_link.
  { exists (timers k). rewrite decide_True by done. split; [by destruct k|]. set_solver. }
  rewrite decide_False by done. rewrite (bind_ok _ _ _ _ _ eq_refl).
  destruct (Hts n ltac:(set_solver)) as (w & Hw & Hw0).
  apply NoDup_app in Hnd as (_ & _ & [_ [Hn _]%NoDup_cons]%NoDup_cons).
  simpl in Hsp. rewrite (delta_lookup _ _ _ Hw) in Hsp.
  pose proof (span_nonneg (timers k) ts2 ltac:(set_solver)).
  exists (<[n := w <| expires := expires w + expires v |>]> (timers k)).
  split; [by rewrite (set_timer_ok _ _ _ _ Hw), (u32_id (expires w + expires v)) by lia|].
  split_and!.
  - simpl. rewrite (delta_lookup _ _ _ Hw). erewrite (delta_lookup _ n); [|by rewrite lookup_insert_eq].
    simpl. f_equal. apply deltas_ext. intros t Ht. apply lookup_insert_ne. set_solver.
  - intros t Ht. apply lookup_insert_ne. simpl in Ht. congruence.
  - intros t Ht. destruct (decide (t = n)) as [->|Hne].
    + rewrite lookup_insert_eq. eexists. split; [done|]. simpl. lia.
    + rewrite lookup_insert_ne by done. apply Hts. set_solver.
Qed.

Lemma del_timer_ok k L ts1 timer ts2 v :
  timer_inv k L (ts1 ++ timer :: ts2) → timers k !! timer = Some v →
  ∃ m' l', let k' := k <| timers := m' |> <| klinks := l' |> in
    del_timer_ timer k = Ok (tt, k') ∧
    timer_inv k' (<[timer_link timer := []]> (<[timer_list := timer_link <$> (ts1 ++ ts2)]> L))
      (ts1 ++ ts2) ∧
    deltas m' ts1 = deltas (timers k) ts1 ∧
    deltas m' ts2 = add_to_head (expires v) (deltas (timers k) ts2) ∧
    (∀ t, head ts2 ≠ Some t → m' !! t = timers k !! t).
Proof.
  intros HI Hv. pose proof HI as [Hr Hl Hts Hsp].
  pose proof (timer_nodup _ _ _ HI) as Hnd. unfold del_timer_.
  rewrite (bind_ok _ _ k false k); cycle 1.
  { apply on_list_read, (list_empty_elem _ L timer_list _ (timer_link timer) Hr Hl).
    apply list_elem_of_fmap_2. set_solver. }
  cbn [negb]. rewrite (bind_ok _ _ _ _ _ (get_timer_ok _ _ _ Hv)).
  destruct (list_del_init_spec _ L timer_list (fmap (M:=list) timer_link ts1) (timer_link timer)
    (fmap (M:=list) timer_link ts2) Hr) as (l' & El & Hr'); [by rewrite Hl, fmap_app|].
  destruct (del_inherit _ _ _ _ _ _ HI Hv) as (m' & E & Hd2 & Hfr & Hall).
  rewrite (bind_ok _ _ _ _ _ E). exists m', l'. cbv zeta.
  apply NoDup_app in Hnd as (_ & Hn1 & _).
  assert (∀ t, t ∈ ts1 → m' !! t = timers k !! t) as H1.
  { intros t Ht. apply Hfr. intros Hh. apply (Hn1 t Ht). destruct ts2; simplify_eq/=. set_solver. }
  assert (deltas m' ts1 = deltas (timers k) ts1) as Hd1 by by apply deltas_ext.
  split; [by apply on_list_ok|]. split_and!; [|done..]. constructor.
  - by rewrite fmap_app.
  - rewrite lookup_insert_ne by done. by rewrite lookup_insert_eq, fmap_app.
  - intros t Ht. apply elem_of_app in Ht as [Ht|Ht]; [|by apply Hall].
    simpl. rewrite H1 by done. apply Hts. set_solver.
  - change (span (deltas m' (ts1 ++ ts2)) < 2 ^ 32).
    rewrite deltas_app, span_app, Hd1, Hd2. rewrite deltas_app, span_app in Hsp. simpl in Hsp.
    rewrite (delta_lookup _ _ _ Hv) in Hsp.
    destruct (Hts timer ltac:(set_solver)) as (w & ? & ?). simplify_eq.
    destruct (deltas (timers k) ts2) as [|[n d] l]; simpl in *; lia.
Qed.

(** C9.  [del_timer] cancels one timer and moves no other deadline.  For a
    pending timer the code returns, the timer is on no list, and the pending
    timers, with the ticks left to each of them, are those of before without
    it: its successor inherits its difference. *)
Theorem del_timer_deadlines (k : kst) L (ts : list Z) (timer : Z)
    (HI : timer_inv k L ts) (Hin : timer ∈ ts) :
  ∃ ts' L' m' l', let k' := k <| timers := m' |> <| klinks := l' |> in
    del_timer_ timer k = Ok (tt, k') ∧ timer_inv k' L' ts' ∧ L' !! timer_link timer = Some [] ∧
    deadlines 0 (deltas m' ts') =
      filter (λ x, x.1 ≠ timer) (deadlines 0 (deltas (timers k) ts)).
Proof.
  destruct (ti_timers _ _ _ HI timer Hin) as (v & Hv & _). pose proof (timer_nodup _ _ _ HI) as Hnd.
  apply list_elem_of_split in Hin as (ts1 & ts2 & ->).
  destruct (del_timer_ok _ _ _ _ _ _ HI Hv) as (m' & l' & E & HI' & Hd1 & Hd2 & _).
  eexists (ts1 ++ ts2), _, m', l'. split; [exact E|]. split_and!; [exact HI'|by rewrite lookup_insert_eq|].
  by apply (delete_delta _ _ _ _ v).
Qed.

(** ** The tick and the timers of the Linux layer *)

Section tick.
Context (class : sched_class) (linux_function : Z → M kst unit).

(** A callback that returns and leaves the timers alone. *)
Definition quiet (f : Z → M kst unit) : Prop :=
  ∀ d k, ∃ k', f d k = Ok (tt, k') ∧ timers k' = timers k ∧ klinks k' = klinks k.

(** The pending timers after the first one lost a tick. *)
Lemma timer_inv_tick k L t ts v :
  timer_inv k L (t :: ts) → timers k !! t = Some v → 0 < expires v →
  timer_inv (k <| timers := <[t := v <| expires := u32 (expires v - 1) |>]> (timers k) |>) L (t :: ts) ∧
  u32 (expires v - 1) = expires v - 1.
Proof.
  intros HI Hv Hpos. pose proof HI as [Hr Hl Hts Hsp].
  pose proof (timer_nodup _ _ _ HI) as [Hn _]%NoDup_cons.
  simpl in Hsp. rewrite (delta_lookup _ _ _ Hv) in Hsp.
  pose proof (span_nonneg (timers k) ts ltac:(set_solver)).
  rewrite u32_id by lia. split; [|done]. constructor; [done|done| |].
  - intros t' Ht'. simpl. destruct (decide (t' = t)) as [->|Hne].
    + rewrite lookup_insert_eq. eexists. split; [done|]. simpl. lia.
    + rewrite lookup_insert_ne by done. by apply Hts.
  - simpl. erewrite (delta_lookup _ t); [|by rewrite lookup_insert_eq]. simpl.
    rewrite (deltas_ext (timers k)); [lia|].
    intros t' Ht'. apply lookup_insert_ne. set_solver.
Qed.

Lemma linux_timer_step k L t ts v data :
  timer_inv k L (t :: ts) → timers k !! t = Some v → expires v = 0 → linux_timer v = Some data →
  quiet linux_function →
  ∃ le k', run_timer_step class linux_function (timer_link t, t) k = Ok (inl (le, t), k') ∧
    timers k' !! t = None.
Proof.
  intros HI Hv Hz Hl Hq. unfold run_timer_step.
  rewrite (bind_ok _ _ _ _ _ (get_timer_ok _ _ _ Hv)), Hz. cbn [negb Z.eqb].
  rewrite (bind_ok _ _ _ _ _ (timer_next _ L [] t ts (ti_rep _ _ _ HI) (ti_list _ _ _ HI))), Hl.
  destruct (Hq data k) as (k1 & E1 & Et & El). rewrite (bind_ok _ _ _ _ _ E1).
  assert (timer_inv k1 L ([] ++ t :: ts)) as HI1.
  { destruct HI. constructor; by rewrite ?Et, ?El. }
  destruct (del_timer_ok k1 L [] t ts v HI1) as (m' & l' & E2 & _); [by rewrite Et|].
  rewrite (bind_ok _ _ _ _ _ E2), (bind_ok _ _ _ _ _ eq_refl).
  eexists _, _. split; [reflexivity|]. apply lookup_delete_eq.
Qed.

(** An expired Linux timer is used after it was freed.  When the next
    timer to expire is a Linux one and this is its last tick,
    [run_timer_list] calls the function of the timer, frees the timer, and the
    [continue] reads the member [expires] of the freed timer: in a store where
    a freed object is gone the tick faults, whatever the function does short
    of touching the timers. *)
Theorem linux_timer_use_after_free (k : kst) L (t : Z) (ts : list Z) (v : timer_t) (data : Z)
    (HI : timer_inv k L (t :: ts)) (Hv : timers k !! t = Some v) (Hone : expires v = 1)
    (Hlinux : linux_timer v = Some data) (Hq : quiet linux_function) :
  run_timer_list class linux_function k = Err Fault.
Proof.
  unfold run_timer_list.
  rewrite (bind_ok _ _ _ _ _ (timer_first _ _ _ (ti_rep _ _ _ HI) (ti_list _ _ _ HI))).
  simpl first_link. rewrite decide_False by done. apply bind_err.
  rewrite (bind_ok _ _ _ _ _ eq_refl), (bind_ok _ _ _ _ _ (get_timer_ok _ _ _ Hv)), Hone.
  rewrite (bind_ok _ _ _ _ _ eq_refl), (bind_ok _ _ _ _ _ (set_timer_ok _ _ _ _ Hv)), Hone.
  rewrite (bind_ok _ _ _ _ _ eq_refl). cbn [timers].
  destruct (timer_inv_tick _ _ _ _ _ HI Hv ltac:(lia)) as [HI1 _]. rewrite Hone in HI1.
  match goal with |- loop _ _ _ ?k' = _ => set (k1 := k') in * end.
  destruct (linux_timer_step k1 L t ts (v <| expires := u32 (1 - 1) |>) data HI1) as (le & k2 & E & Hn);
    [apply lookup_insert_eq|done|done|done|].
  rewrite loop_step, E.
  destruct (size (timers k1)) as [|n] eqn:Hsz.
  { apply map_size_empty_inv in Hsz. pose proof (lookup_insert_eq (timers k) t (v <| expires := u32 (1 - 1) |>)) as Hx.
    change (timers k1 !! t = Some (v <| expires := u32 (1 - 1) |>)) in Hx. by rewrite Hsz in Hx. }
  rewrite loop_step. unfold run_timer_step. erewrite bind_err; [done|].
  unfold get_timer, deref. by rewrite Hn.
Qed.
End tick.
