(* ===== verification/Wait.v ===== *)
(** * Wait queues and semaphores

    [sync/wait.c], [sync/ipc.h] and the kernel semaphores of [sync/sem.c].
    [down] is cut at its call of [schedule]: [down_enter] is what the process
    does before it gives up the processor and [down_leave] what it does when
    it runs again; what happens in between is the rest of the system.  The
    [wait_t] of a sleeping process lives on its stack, at an address [w] that
    the operations take as an argument. *)

From S2P Require Import Prelude DList Kern Sched.

Section wait.
Variable class : sched_class.

(** ** [wait.c] *)

Definition wait_init (w proc : Z) : M kst unit :=
  k ← get;
  let q := match waits k !! w with Some v => wait_queue v | None => None end in
  _ ← modify (λ k, k <| waits := <[w := mk_wait proc WT_INTERRUPTED q]> (waits k) |>);
  on_list (list_init (wait_link w)).

Definition wait_queue_init (q : Z) : M kst unit := on_list (list_init (wait_head q)).

Definition wait_queue_add (q w : Z) : M kst unit :=
  e ← on_list (list_empty (wait_link w));
  _ ← assert e;
  _ ← set_wait w (λ v, v <| wait_queue := Some q |>);
  on_list (list_add_before (wait_head q) (wait_link w)).

(** The assertion at the head of [wait_queue_del], [_next] and [_prev]. *)
Definition assert_in_queue (q w : Z) : M kst unit :=
  e ← on_list (list_empty (wait_link w));
  v ← get_wait w;
  assert (negb e && bool_decide (wait_queue v = Some q)).

Definition wait_queue_del (q w : Z) : M kst unit :=
  _ ← assert_in_queue q w;
  on_list (list_del_init (wait_link w)).

(** The wait of an entry, or NULL at the head of the queue. *)
Definition wait_at (q : Z) (le : klink) : M kst (option Z) :=
  if decide (le = wait_head q) then mret None
  else w ← le2wait le; mret (Some w).

Definition wait_queue_next (q w : Z) : M kst (option Z) :=
  _ ← assert_in_queue q w;
  le ← on_list (list_next (wait_link w));
  wait_at q le.

Definition wait_queue_prev (q w : Z) : M kst (option Z) :=
  _ ← assert_in_queue q w;
  le ← on_list (list_prev (wait_link w));
  wait_at q le.

Definition wait_queue_first (q : Z) : M kst (option Z) :=
  le ← on_list (list_next (wait_head q));
  wait_at q le.

Definition wait_queue_last (q : Z) : M kst (option Z) :=
  le ← on_list (list_prev (wait_head q));
  wait_at q le.

Definition wait_queue_empty (q : Z) : M kst bool := on_list (list_empty (wait_head q)).

Definition wait_in_queue (w : Z) : M kst bool :=
  v ← get_wait w;
  match wait_queue v with
  | None => mret false
  | Some _ => e ← on_list (list_empty (wait_link w)); mret (negb e)
  end.

Definition wakeup_wait (q w wakeup_flags_ : Z) (del : bool) : M kst unit :=
  _ ← (if del then wait_queue_del q w else mret tt);
  _ ← set_wait w (λ v, v <| wakeup_flags := wakeup_flags_ |>);
  v ← get_wait w;
  wakeup_proc class (w_proc v).

Definition wakeup_first (q wakeup_flags_ : Z) (del : bool) : M kst unit :=
  first ← wait_queue_first q;
  match first with
  | Some w => wakeup_wait q w wakeup_flags_ del
  | None => mret tt
  end.

(** Each round of the first loop takes a wait off the queue and each round of
    the second one moves on; there are no more waits than the store holds. *)
Definition wakeup_queue (q wakeup_flags_ : Z) (del : bool) : M kst unit :=
  first ← wait_queue_first q;
  match first with
  | Some w =>
      k ← get;
      loop (S (size (waits k))) (λ w,
        _ ← wakeup_wait q w wakeup_flags_ del;
        next ← (if del then wait_queue_first q else wait_queue_next q w);
        mret (match next with Some w' => inl w' | None => inr tt end)) w
  | None => mret tt
  end.

Definition wait_current_set (q w wait_state_ : Z) : M kst unit :=
  k ← get;
  _ ← wait_init w (current k);
  _ ← set_proc (current k) (λ v, v <| state := PROC_SLEEPING |> <| wait_state := wait_state_ |>);
  wait_queue_add q w.

Definition wait_current_del (q w : Z) : M kst unit :=
  b ← wait_in_queue w;
  if b : bool then wait_queue_del q w else mret tt.

(** ** [ipc.h] *)

Definition timer_init (timer proc expires_ : Z) : M kst Z :=
  _ ← modify (λ k, k <| timers := <[timer := mk_timer (u32 expires_) proc None]> (timers k) |>);
  _ ← on_list (list_init (timer_link timer));
  mret timer.

Definition ipc_add_timer (timer : option Z) : M kst unit :=
  match timer with Some t => add_timer_ t | None => mret tt end.

Definition ipc_del_timer (timer : option Z) : M kst unit :=
  match timer with Some t => del_timer_ t | None => mret tt end.

Definition ipc_timer_init (timeout ticks timer : Z) : M kst (Z * option Z) :=
  if negb (timeout =? 0) then
    k ← get;
    t ← timer_init timer (current k) timeout;
    mret (ticks, Some t)
  else mret (0, None).

Definition ipc_check_timeout (timeout saved_ticks ticks : Z) : Z :=
  if negb (timeout =? 0) && (timeout <=? u32 (ticks - saved_ticks)) then - E_TIMEOUT else -1.

(** ** [sem.c]: the operations on a semaphore *)

Definition sem_init (x value_ : Z) : M kst unit :=
  _ ← modify (λ k, k <| sems := <[x := mk_sem value_ true 0]> (sems k) |>);
  wait_queue_init x.

Definition up_ (x wait_state_ : Z) : M kst unit :=
  s ← get_sem x;
  _ ← assert (valid s);
  first ← wait_queue_first x;
  match first with
  | None => set_sem x (λ s, s <| value := s32 (value s + 1) |>)
  | Some w =>
      v ← get_wait w;
      p ← get_proc (w_proc v);
      _ ← assert (wait_state p =? wait_state_);
      wakeup_wait x w wait_state_ true
  end.

(** [__down] up to its call of [schedule]: [true] when the value was taken. *)
Definition down_enter (x w wait_state_ : Z) (timer : option Z) : M kst bool :=
  s ← get_sem x;
  _ ← assert (valid s);
  if 0 <? value s then
    _ ← set_sem x (λ s, s <| value := s32 (value s - 1) |>);
    mret true
  else
    _ ← wait_current_set x w wait_state_;
    _ ← ipc_add_timer timer;
    mret false.

(** [__down] after [schedule] returned. *)
Definition down_leave (x w wait_state_ : Z) (timer : option Z) : M kst Z :=
  _ ← ipc_del_timer timer;
  _ ← wait_current_del x w;
  v ← get_wait w;
  mret (if negb (wakeup_flags v =? wait_state_) then wakeup_flags v else 0).

Definition up (x : Z) : M kst unit := up_ x WT_KSEM.

(** [down]: the first part, and the second with its assertion. *)
Definition down_block (x w : Z) : M kst bool :=
  taken ← down_enter x w WT_KSEM None;
  if taken : bool then mret true else _ ← schedule class; mret false.
Definition down_resume (x w : Z) : M kst unit :=
  flags ← down_leave x w WT_KSEM None;
  assert (flags =? 0).

Definition try_down (x : Z) : M kst bool :=
  s ← get_sem x;
  if 0 <? value s then
    _ ← set_sem x (λ s, s <| value := s32 (value s - 1) |>);
    mret true
  else mret false.

(** [usem_up], and the two parts of [usem_down]. *)
Definition usem_up (x : Z) : M kst Z :=
  _ ← up_ x WT_USEM; mret 0.

Definition usem_down_enter (x w t timeout ticks : Z) : M kst (bool * (Z * option Z)) :=
  st ← ipc_timer_init timeout ticks t;
  let '(saved_ticks, timer) := st in
  taken ← down_enter x w WT_USEM timer;
  mret (taken, (saved_ticks, timer)).

Definition usem_down_leave (x w timeout ticks : Z) (st : Z * option Z) : M kst Z :=
  flags ← down_leave x w WT_USEM st.2;
  if flags =? 0 then mret 0
  else
    _ ← assert (flags =? WT_INTERRUPTED);
    mret (ipc_check_timeout timeout st.1 ticks).

End wait.
