(* ===== verification/SemSpec.v ===== *)
(** * Kernel semaphores do not lose wake-ups

    A system of processes that use one kernel semaphore on one processor: they
    call [up], [down] and [try_down], are preempted at any moment, and an
    interrupt may call [up] whatever is running.  A process that is inside
    [down] has a [wait_t] on its stack; it bears the name of the process. *)

From S2P Require Import Prelude DList Kern Sched SchedSpec SchedFrame Wait.

(** Where a process that waits in [down] is: it has not called [schedule]
    yet, or it has. *)
Inductive phase : Type := Entered | Scheduled.

Record sys : Type := mk_sys {
  kern : kst;
  blocked : gmap Z phase;
  n_up : Z;
  n_down : Z;
}.

Section sem.
Context (class : sched_class) (ok : gmap klink (list klink) → Z → Prop) `{!RunQueue class ok}.
Context (x : Z).

Inductive sem_step : sys → sys → Prop :=
| step_up k b u d k' :
    up class x k = Ok (tt, k') →
    sem_step (mk_sys k b u d) (mk_sys k' b (u + 1) d)
| step_take k b u d k' :
    current k ≠ idleproc k → b !! current k = None →
    down_enter x (current k) WT_KSEM None k = Ok (true, k') →
    sem_step (mk_sys k b u d) (mk_sys k' b u (d + 1))
| step_wait k b u d k' :
    current k ≠ idleproc k → b !! current k = None →
    down_enter x (current k) WT_KSEM None k = Ok (false, k') →
    sem_step (mk_sys k b u d) (mk_sys k' (<[current k := Entered]> b) u d)
| step_schedule k b u d k' :
    schedule class k = Ok (tt, k') →
    sem_step (mk_sys k b u d) (mk_sys k' (alter (λ _, Scheduled) (current k) b) u d)
| step_resume k b u d k' :
    b !! current k = Some Scheduled →
    down_resume x (current k) k = Ok (tt, k') →
    sem_step (mk_sys k b u d) (mk_sys k' (delete (current k) b) u (d + 1))
| step_try k b u d k' r :
    b !! current k = None → try_down x k = Ok (r, k') →
    sem_step (mk_sys k b u d) (mk_sys k' b u (if r : bool then d + 1 else d)).

(** ** The invariant *)

Section inv.
Context (init : Z) (members : list Z).
Hypothesis few_members : Z.of_nat (length members) + 1 < 2 ^ 32.

(** [ws]: the processes in the wait queue; [ps]: those in the run queue. *)
Record sem_inv (s : sys) (L : gmap klink (list klink)) (ws ps : list Z) : Prop := {
  i_queue : queue (kern s) L (cpu (kern s)) ps;
  i_ok : ok L (cpu (kern s));
  i_nodup : NoDup ps;
  i_curps : current (kern s) ∉ ps;
  i_runnable p : p ∈ ps → runnable (kern s) (cpu (kern s)) p;
  i_alone p : p ∈ ws ∨ (p = current (kern s) ∧ p ≠ idleproc (kern s)) → L !! run_link p = Some [];
  i_cur : current (kern s) = idleproc (kern s) ∨ current (kern s) ∈ ws ∨
          runnable (kern s) (cpu (kern s)) (current (kern s));
  i_idle : ∃ v, procs (kern s) !! idleproc (kern s) = Some v ∧ pid v < lcpu_count (kern s);
  i_idle_out : blocked s !! idleproc (kern s) = None;
  i_waitq : L !! wait_head x = Some (wait_link <$> ws);
  i_sem : ∃ sm, sems (kern s) !! x = Some sm ∧ valid sm = true ∧ 0 ≤ value sm ∧
          (ws ≠ [] → value sm = 0) ∧
          value sm + n_down s + (Z.of_nat (size (blocked s)) - Z.of_nat (length ws)) = init + n_up s;
  i_asleep p : p ∈ ws → eligible PROC_SLEEPING (kern s) (cpu (kern s)) p ∧
          (∃ v, procs (kern s) !! p = Some v ∧ wait_state v = WT_KSEM) ∧ is_Some (blocked s !! p);
  i_wait p : is_Some (blocked s !! p) → ∃ v, waits (kern s) !! p = Some v ∧ w_proc v = p ∧
          wait_queue v = Some x ∧
          (p ∉ ws → wakeup_flags v = WT_KSEM ∧ L !! wait_link p = Some [] ∧
                    runnable (kern s) (cpu (kern s)) p);
  i_sched : blocked s !! current (kern s) = Some Scheduled → current (kern s) ∉ ws;
  i_free p : blocked s !! p = None → available L (wait_link p);
  i_members p : p ∈ ps ∨ p ∈ ws ∨ (p = current (kern s) ∧ p ≠ idleproc (kern s)) → p ∈ members;
  i_down : 0 ≤ n_down s;
}.

Lemma sem_ws_nodup s L ws ps : sem_inv s L ws ps → NoDup ws.
Proof.
  intros HI. destruct (i_queue _ _ _ _ HI) as ([Hr _] & _).
  destruct (Hr _ _ (i_waitq _ _ _ _ HI)) as [Hnd _]. apply NoDup_cons in Hnd as [_ Hnd].
  by apply NoDup_fmap_1 in Hnd.
Qed.

Lemma sem_ps_few s L ws ps : sem_inv s L ws ps → Z.of_nat (length ps) + 1 < 2 ^ 32.
Proof.
  intros HI. assert (length ps ≤ length members)%nat; [|lia].
  apply submseteq_length, NoDup_submseteq; [by eapply i_nodup|].
  intros p Hp. eapply i_members; eauto.
Qed.

(** Every waiter is inside [down]. *)
Lemma sem_ws_blocked s L ws ps : sem_inv s L ws ps → (length ws ≤ size (blocked s))%nat.
Proof.
  intros HI. pose proof (sem_ws_nodup _ _ _ _ HI) as Hnd.
  rewrite <-(size_dom (blocked s) (D := gset Z)), <-(size_list_to_set (C := gset Z) ws Hnd).
  apply subseteq_size. intros p Hp%elem_of_list_to_set. apply elem_of_dom.
  by apply (i_asleep _ _ _ _ HI p Hp).
Qed.

Lemma first_waiter s L ws ps :
  sem_inv s L ws ps → wait_queue_first x (kern s) = Ok (head ws, kern s).
Proof.
  intros HI. destruct (i_queue _ _ _ _ HI) as (Hr & _). pose proof (i_waitq _ _ _ _ HI) as Hw.
  unfold wait_queue_first. destruct ws as [|w ws].
  - rewrite (bind_ok _ _ _ (wait_head x) (kern s));
      [|by apply on_list_read, (list_next_spec _ L (wait_head x) [] [] [] _ _ [])].
    unfold wait_at. by rewrite decide_True.
  - rewrite (bind_ok _ _ _ (wait_link w) (kern s)).
    + unfold wait_at. by rewrite decide_False.
    + apply on_list_read, (list_next_spec _ L (wait_head x) [] (wait_link w :: (fmap (M:=list) wait_link ws)) []
        _ _ ((fmap (M:=list) wait_link ws) ++ [wait_head x])); done.
Qed.

(** ** [up] *)

Lemma get_wait_ok k w v : waits k !! w = Some v → get_wait w k = Ok (v, k).
Proof. intros E. unfold get_wait, deref. by rewrite E. Qed.
Lemma get_proc_ok k p v : procs k !! p = Some v → get_proc p k = Ok (v, k).
Proof. intros E. unfold get_proc, deref. by rewrite E. Qed.
Lemma get_sem_ok k v : sems k !! x = Some v → get_sem x k = Ok (v, k).
Proof. intros E. unfold get_sem, deref. by rewrite E. Qed.

(** [wait_queue_del] on the first waiter. *)
Lemma del_first k L w ws v :
  rep (klinks k) L → L !! wait_head x = Some (wait_link <$> (w :: ws)) →
  waits k !! w = Some v → wait_queue v = Some x →
  ∃ l', wait_queue_del x w k = Ok (tt, k <| klinks := l' |>) ∧
    rep l' (<[wait_link w := []]> (<[wait_head x := wait_link <$> ws]> L)).
Proof.
  intros Hr Hw Hv Hx. unfold wait_queue_del, assert_in_queue.
  destruct (list_del_init_spec _ L (wait_head x) [] (wait_link w) (fmap (M:=list) wait_link ws) Hr Hw)
    as (l' & El & Hr').
  exists l'. split; [|done]. rewrite <-bind_assoc.
  rewrite (bind_ok _ _ k false k); cycle 1.
  { apply on_list_read, (list_empty_elem _ L (wait_head x) _ (wait_link w) Hr Hw). left. }
  rewrite <-bind_assoc, (bind_ok _ _ _ _ _ (get_wait_ok _ _ _ Hv)).
  rewrite bool_decide_true by done. rewrite (bind_ok _ _ _ _ _ eq_refl). by apply on_list_ok.
Qed.

(** The links after the first waiter was taken off the queue. *)
Definition links_woken (L : gmap klink (list klink)) (w : Z) (ws : list Z) :=
  <[wait_link w := []]> (<[wait_head x := wait_link <$> ws]> L).

Lemma links_woken_other L w ws y :
  y ≠ wait_link w → y ≠ wait_head x → links_woken L w ws !! y = L !! y.
Proof. intros. unfold links_woken. by rewrite !lookup_insert_ne. Qed.

Lemma links_woken_free L w ws p :
  p ≠ w → available L (wait_link p) → L !! wait_head x = Some (wait_link <$> (w :: ws)) →
  available (links_woken L w ws) (wait_link p).
Proof.
  intros Hne [Hun Hal] Hw. split; [|by rewrite links_woken_other by congruence].
  intros y l Hy. apply lookup_delete_Some in Hy as [Hney Hy].
  unfold links_woken in Hy. apply lookup_insert_Some in Hy as [[<- <-]|[Hne2 Hy]]; [set_solver|].
  apply lookup_insert_Some in Hy as [[<- <-]|[Hne3 Hy]].
  - intros Hin. eapply (Hun (wait_head x)); [by rewrite lookup_delete_ne|]. set_solver.
  - apply (Hun y). by rewrite lookup_delete_ne.
Qed.

(** The state just before the first waiter is made runnable. *)
Definition unqueued (k : kst) (w : Z) (v : wait_t) l' : kst :=
  k <| klinks := l' |> <| waits := <[w := v <| wakeup_flags := WT_KSEM |>]> (waits k) |>.

Lemma up_enter s L w ws ps :
  sem_inv s L (w :: ws) ps →
  ∃ v l', waits (kern s) !! w = Some v ∧ w_proc v = w ∧ wait_queue v = Some x ∧
    up class x (kern s) = wakeup_proc class w (unqueued (kern s) w v l') ∧
    rep l' (links_woken L w ws).
Proof.
  intros HI. pose proof (first_waiter _ _ _ _ HI) as Hfirst.
  destruct (i_sem _ _ _ _ HI) as (sm & Hsm & Hval & _).
  destruct (i_asleep _ _ _ _ HI w) as (_ & (pv & Hpv & Hws) & Hbl); [left|].
  destruct (i_wait _ _ _ _ HI w Hbl) as (v & Hv & Hp & Hx & _).
  destruct (i_queue _ _ _ _ HI) as (Hr & _). pose proof (i_waitq _ _ _ _ HI) as Hwq.
  destruct (del_first _ L w ws v Hr Hwq Hv Hx) as (l' & E & Hr').
  exists v, l'. split_and!; try done. unfold up, up_.
  rewrite (bind_ok _ _ _ _ _ (get_sem_ok _ _ Hsm)), Hval, (bind_ok _ _ _ _ _ eq_refl).
  rewrite (bind_ok _ _ _ _ _ Hfirst). cbn [head].
  rewrite (bind_ok _ _ _ _ _ (get_wait_ok _ _ _ Hv)), Hp.
  rewrite (bind_ok _ _ _ _ _ (get_proc_ok _ _ _ Hpv)), Hws, Z.eqb_refl, (bind_ok _ _ _ _ _ eq_refl).
  unfold wakeup_wait. rewrite (bind_ok _ _ _ _ _ E).
  erewrite (bind_ok (set_wait _ _)); [|apply set_wait_ok; exact Hv].
  fold (unqueued (kern s) w v l').
  rewrite (bind_ok _ _ _ (v <| wakeup_flags := WT_KSEM |>) (unqueued (kern s) w v l')).
  - simpl. by rewrite Hp.
  - apply get_wait_ok. apply lookup_insert_eq.
Qed.

Lemma up_woken s L w ws ps k' L' ps' :
  sem_inv s L (w :: ws) ps →
  (∃ v, waits (kern s) !! w = Some v ∧ w_proc v = w ∧ wait_queue v = Some x ∧
        waits k' = <[w := v <| wakeup_flags := WT_KSEM |>]> (waits (kern s))) →
  sems k' = sems (kern s) → cpu k' = cpu (kern s) → idleproc k' = idleproc (kern s) →
  lcpu_count k' = lcpu_count (kern s) → current k' = current (kern s) →
  queue k' L' (cpu (kern s)) ps' → lframe (links_woken L w ws) L' →
  (∀ p, p ≠ w → L' !! run_link p = L !! run_link p) →
  (∀ p, p ≠ w → procs k' !! p = procs (kern s) !! p) → runnable k' (cpu (kern s)) w →
  (w = current (kern s) ∧ ps' = ps ∧ L' !! run_link w = L !! run_link w ∨
   w ≠ current (kern s) ∧ ps' = ps ++ [w]) →
  sem_inv (mk_sys k' (blocked s) (n_up s + 1) (n_down s)) L' ws ps'.
Proof.
  intros HI (v & Hv & Hpv & Hxv & Ew) Es Ec Eid El Ecur HQ HL Hrl Hpr Hrun Hcase.
  pose proof (sem_ws_nodup _ _ _ _ HI) as [Hnw Hnd]%NoDup_cons.
  assert (∀ st p, p ≠ w → eligible st (kern s) (cpu (kern s)) p → eligible st k' (cpu (kern s)) p) as Hel.
  { intros st p Hne (u & Hu & ?). exists u. rewrite Hpr, El, Eid by done. done. }
  assert (∀ p, p ∈ ps → p ≠ w) as Hpsw.
  { intros p Hp ->. destruct (i_asleep _ _ _ _ HI w) as (Hs & _); [left|].
    by apply (eligible_runnable_ne _ _ _ _ Hs (i_runnable _ _ _ _ HI w Hp)). }
  pose proof (i_waitq _ _ _ _ HI) as Hwq.
  assert (∀ y, ¬ run_key y → y ≠ wait_link w → y ≠ wait_head x → L' !! y = L !! y) as HLo.
  { intros y ? ? ?. rewrite (lframe_other _ _ _ HL) by done. by apply links_woken_other. }
  assert (∀ p, p ∈ ps' ↔ p ∈ ps ∨ (p = w ∧ w ≠ current (kern s))) as Hps'.
  { intros p. destruct Hcase as [(? & -> & _)|(? & ->)]; set_solver. }
  assert (is_Some (blocked s !! w)) as Hbw by (apply (i_asleep _ _ _ _ HI w); left).
  assert (size (blocked s) ≥ length (w :: ws))%nat as Hsz by by eapply sem_ws_blocked.
  constructor; cbn [kern blocked n_up n_down]; rewrite ?Ec, ?Ecur, ?Eid, ?El, ?Es, ?Ew.
  - done.
  - eapply rq_ok_frame; [exact (i_ok _ _ _ _ HI)|]. by apply HLo; [intros []| |].
  - destruct Hcase as [(_ & -> & _)|(_ & ->)]; [by eapply i_nodup|]. apply NoDup_app.
    split_and!; [by eapply i_nodup|set_solver|apply NoDup_singleton].
  - rewrite Hps'. pose proof (i_curps _ _ _ _ HI). intros [?|[??]]; [done|congruence].
  - intros p [Hp|[-> _]]%Hps'; [|done]. apply Hel; [by apply Hpsw|]. by eapply i_runnable.
  - intros p Hp. destruct (decide (p = w)) as [->|Hne].
    + destruct Hcase as [(? & _ & ->)|(? & _)]; [apply (i_alone _ _ _ _ HI); set_solver|naive_solver].
    + rewrite Hrl by done. apply (i_alone _ _ _ _ HI). set_solver.
  - destruct (decide (current (kern s) = w)) as [->|Hne]; [by right; right|].
    destruct (i_cur _ _ _ _ HI) as [?|[Hc|?]]; [by left|right; left; set_solver|right; right].
    by apply Hel.
  - destruct (i_idle _ _ _ _ HI) as (i & Hi & ?). exists i. rewrite Hpr; [done|].
    destruct Hrun as (? & _ & _ & _ & _ & _ & Hidle). congruence.
  - by eapply i_idle_out.
  - rewrite (lframe_other _ _ _ HL) by (by intros []). unfold links_woken.
    rewrite lookup_insert_ne by done. apply lookup_insert_eq.
  - destruct (i_sem _ _ _ _ HI) as (sm & ? & ? & ? & Hz & ?). exists sm.
    specialize (Hz ltac:(done)). cbn [length] in *. split_and!; try done. lia.
  - intros p Hp. assert (p ≠ w) by set_solver.
    destruct (i_asleep _ _ _ _ HI p) as (? & ? & ?); [set_solver|].
    split_and!; [by apply Hel|by rewrite Hpr|done].
  - intros p Hp. destruct (decide (p = w)) as [->|Hne].
    + rewrite lookup_insert_eq. eexists. split; [done|]. split_and!; [done|done|].
      intros _. split_and!; [done| |done]. rewrite (lframe_other _ _ _ HL) by (by intros []).
      apply lookup_insert_eq.
    + rewrite lookup_insert_ne by done. destruct (i_wait _ _ _ _ HI p Hp) as (u & ? & ? & ? & Hu).
      exists u. split_and!; [done..|]. intros Hn. destruct Hu as (? & ? & ?); [set_solver|].
      split_and!; [done| |by apply Hel]. rewrite HLo; [done|by intros []|congruence|done].
  - intros Hs Hin. apply (i_sched _ _ _ _ HI Hs). set_solver.
  - intros p Hp. assert (p ≠ w) by (intros ->; rewrite Hp in Hbw; by destruct Hbw).
    eapply lframe_available; [exact HL|by intros []|]. apply links_woken_free; [done| |done].
    by eapply i_free.
  - intros p Hp. apply (i_members _ _ _ _ HI). rewrite Hps' in Hp. set_solver.
  - by eapply i_down.
Qed.

(** The value of the semaphore never exceeds what was put in. *)
Lemma sem_value_bound s L ws ps sm :
  sem_inv s L ws ps → sems (kern s) !! x = Some sm → value sm ≤ init + n_up s.
Proof.
  intros HI Hsm. destruct (i_sem _ _ _ _ HI) as (sm' & ? & _ & _ & _ & ?). simplify_eq.
  pose proof (sem_ws_blocked _ _ _ _ HI). pose proof (i_down _ _ _ _ HI). lia.
Qed.

(** A change of the semaphore's value that nobody waits for. *)
Lemma sem_inv_value s L ps sm val u d :
  sem_inv s L [] ps → sems (kern s) !! x = Some sm → 0 ≤ val → 0 ≤ d →
  val + d + Z.of_nat (size (blocked s)) = init + u →
  sem_inv (mk_sys (kern s <| sems := <[x := sm <| value := val |>]> (sems (kern s)) |>)
    (blocked s) u d) L [] ps.
Proof.
  intros HI Hsm Hval Hd Hc. destruct (i_sem _ _ _ _ HI) as (sm' & ? & ? & _). simplify_eq.
  destruct HI; constructor; try done. exists (sm <| value := val |>). cbn [kern blocked n_up n_down].
  split_and!; [apply lookup_insert_eq|done|done|done|]. simpl. lia.
Qed.

Lemma sem_up_ok s L ws ps :
  sem_inv s L ws ps → init + n_up s + 1 < 2 ^ 31 →
  ∃ k' L' ws' ps', up class x (kern s) = Ok (tt, k') ∧
    sem_inv (mk_sys k' (blocked s) (n_up s + 1) (n_down s)) L' ws' ps'.
Proof.
  intros HI Hb. destruct ws as [|w ws].
  - destruct (i_sem _ _ _ _ HI) as (sm & Hsm & Hval & Hpos & _ & Hc). simpl in Hc.
    pose proof (sem_value_bound _ _ _ _ _ HI Hsm). pose proof (i_down _ _ _ _ HI).
    exists (kern s <| sems := <[x := sm <| value := value sm + 1 |>]> (sems (kern s)) |>), L, [], ps.
    split.
    + unfold up, up_. rewrite (bind_ok _ _ _ _ _ (get_sem_ok _ _ Hsm)), Hval.
      rewrite (bind_ok _ _ _ _ _ eq_refl), (bind_ok _ _ _ _ _ (first_waiter _ _ _ _ HI)).
      cbn [head]. by rewrite (set_sem_ok _ _ _ _ Hsm), s32_id by lia.
    + apply sem_inv_value; try done; lia.
  - destruct (up_enter _ _ _ _ _ HI) as (v & l' & Hv & Hp & Hx & -> & Hrep).
    destruct (i_asleep _ _ _ _ HI w) as (Hsl & _ & Hbl); [left|].
    pose proof (i_queue _ _ _ _ HI) as HQ. pose proof HQ as (_ & Hrl & Hn & Hps).
    set (k1 := unqueued (kern s) w v l').
    assert (queue k1 (links_woken L w ws) (cpu k1) ps) as HQ1.
    { split_and!; [done|by rewrite links_woken_other|done|done]. }
    assert (ok (links_woken L w ws) (cpu k1)) as Hok1.
    { eapply rq_ok_frame; [exact (i_ok _ _ _ _ HI)|]. by apply links_woken_other. }
    destruct (decide (w = current (kern s))) as [Hc|Hc].
    + destruct Hsl as (pv & Hpv & Hst & Hpid & Hfl & Hrq & Hid).
      eexists _, (links_woken L w ws), ws, ps. split; [by apply (wakeup_self class k1 w pv)|].
      eapply (up_woken _ L w); try done.
      * by exists v.
      * by apply (queue_set_proc k1 _ _ _ w pv).
      * intros. by apply links_woken_other.
      * intros p Hne. by apply lookup_insert_ne.
      * exists (woken pv). split; [apply lookup_insert_eq|done].
      * left. split_and!; [done|done|]. by apply links_woken_other.
    + destruct (wakeup_other class ok k1 (links_woken L w ws) ps w HQ1 Hok1) as
        (k' & E & HQ' & Hrun & (Es & Ew & _ & Eid & El & Ec) & Ecur & Hpr & _); [..|done| |].
      * rewrite links_woken_other by done. apply (i_alone _ _ _ _ HI). by left; left.
      * done.
      * pose proof (sem_ps_few _ _ _ _ HI). lia.
      * destruct (links_enqueued_frame (links_woken L w ws) (cpu k1) ps w) as [Hf Ho].
        eexists k', _, ws, (ps ++ [w]). split; [exact E|].
        eapply (up_woken _ L w); try done.
        -- exists v. by rewrite Ew.
        -- intros p Hne. rewrite Ho by done. by apply links_woken_other.
        -- by right.
Qed.

(** ** [down] and [try_down] *)

Lemma sem_take_ok s L ws ps sm :
  sem_inv s L ws ps → init + n_up s < 2 ^ 31 → sems (kern s) !! x = Some sm → 0 < value sm →
  let k' := kern s <| sems := <[x := sm <| value := value sm - 1 |>]> (sems (kern s)) |> in
  set_sem x (λ s, s <| value := s32 (value s - 1) |>) (kern s) = Ok (tt, k') ∧
  sem_inv (mk_sys k' (blocked s) (n_up s) (n_down s + 1)) L ws ps.
Proof.
  intros HI Hb Hsm Hpos k'. pose proof (sem_value_bound _ _ _ _ _ HI Hsm).
  destruct (i_sem _ _ _ _ HI) as (sm' & ? & Hval & _ & Hz & Hc). simplify_eq.
  pose proof (i_down _ _ _ _ HI). assert (ws = []) as ->.
  { destruct ws; [done|]. specialize (Hz ltac:(done)). lia. }
  split; [by rewrite (set_sem_ok _ _ _ _ Hsm), s32_id by lia|].
  simpl in Hc. apply sem_inv_value; try done; lia.
Qed.

Lemma sem_try_ok s L ws ps :
  sem_inv s L ws ps → init + n_up s < 2 ^ 31 →
  ∃ k' r, try_down x (kern s) = Ok (r, k') ∧
    sem_inv (mk_sys k' (blocked s) (n_up s) (if r : bool then n_down s + 1 else n_down s)) L ws ps.
Proof.
  intros HI Hb. destruct (i_sem _ _ _ _ HI) as (sm & Hsm & _). unfold try_down.
  rewrite (bind_ok _ _ _ _ _ (get_sem_ok _ _ Hsm)).
  destruct (Z.ltb_spec 0 (value sm)) as [Hpos|Hz].
  - destruct (sem_take_ok _ _ _ _ _ HI Hb Hsm Hpos) as [E HI'].
    rewrite (bind_ok _ _ _ _ _ E). eexists _, true. split; [done|]. exact HI'.
  - exists (kern s), false. split; [done|]. by destruct s.
Qed.

(** [wait_current_set]: the running process goes to sleep at the end of the
    wait queue. *)
Definition links_waiting (L : gmap klink (list klink)) (ws : list Z) (c : Z) :=
  <[wait_head x := wait_link <$> (ws ++ [c])]> (delete (wait_link c) (<[wait_link c := []]> L)).

Lemma links_waiting_other L ws c y :
  y ≠ wait_link c → y ≠ wait_head x → links_waiting L ws c !! y = L !! y.
Proof.
  intros. unfold links_waiting. by rewrite lookup_insert_ne, lookup_delete_ne, lookup_insert_ne.
Qed.

Lemma links_waiting_free L ws c p :
  p ≠ c → L !! wait_head x = Some (wait_link <$> ws) → available L (wait_link p) →
  available (links_waiting L ws c) (wait_link p).
Proof.
  intros Hne Hw [Hun Hal]. split; [|by rewrite links_waiting_other by congruence].
  intros y l Hy. apply lookup_delete_Some in Hy as [Hney Hy].
  unfold links_waiting in Hy. apply lookup_insert_Some in Hy as [[<- <-]|[Hne2 Hy]].
  - assert (wait_link p ∉ wait_head x :: (wait_link <$> ws)) as Hni.
    { apply (Hun (wait_head x)). by rewrite lookup_delete_ne. }
    rewrite fmap_app. intros Hin. apply Hni. set_solver.
  - apply lookup_delete_Some in Hy as [? Hy]. rewrite lookup_insert_ne in Hy by done.
    apply (Hun y). by rewrite lookup_delete_ne.
Qed.

Definition asleep (pv : proc_struct) : proc_struct :=
  pv <| state := PROC_SLEEPING |> <| wait_state := WT_KSEM |>.

Definition waiting (k : kst) (pv : proc_struct) l' : kst :=
  k <| waits := <[current k := mk_wait (current k) WT_INTERRUPTED (Some x)]> (waits k) |>
    <| procs := <[current k := asleep pv]> (procs k) |> <| klinks := l' |>.

Lemma wait_current_set_ok k L ws pv :
  rep (klinks k) L → L !! wait_head x = Some (wait_link <$> ws) →
  available L (wait_link (current k)) → procs k !! current k = Some pv →
  ∃ l', wait_current_set x (current k) WT_KSEM k = Ok (tt, waiting k pv l') ∧
    rep l' (links_waiting L ws (current k)).
Proof.
  intros Hr Hw Hav Hpv. set (c := current k).
  destruct (rep_init (klinks k) L (wait_link c) Hr Hav) as (l1 & E1 & Hr1).
  set (q := match waits k !! c with Some v => wait_queue v | None => None end).
  set (k0 := k <| waits := <[c := mk_wait c WT_INTERRUPTED q]> (waits k) |>).
  assert (wait_init c c k = Ok (tt, k0 <| klinks := l1 |>)) as Einit.
  { unfold wait_init. rewrite (bind_ok _ _ _ _ _ eq_refl). cbv zeta.
    rewrite (bind_ok _ _ k tt k0) by done. by apply on_list_ok. }
  assert (rep l1 (<[wait_link c := []]> L)) as Hr1' by done.
  destruct (list_add_before_spec l1 (<[wait_link c := []]> L) (wait_head x) (fmap (M:=list) wait_link ws)
    (wait_link c) Hr1') as (l2 & E2 & Hr2).
  { by rewrite lookup_insert_ne. } { eapply rep_alone_available; [done|]. apply lookup_insert_eq. }
  { done. }
  exists l2. split; [|unfold links_waiting; by rewrite fmap_app].
  unfold wait_current_set. rewrite (bind_ok _ _ _ _ _ eq_refl). fold c.
  rewrite (bind_ok _ _ _ _ _ Einit).
  erewrite (bind_ok (set_proc _ _)); [|apply set_proc_ok; exact Hpv]. fold (asleep pv).
  unfold wait_queue_add. erewrite (bind_ok (on_list (list_empty _))); cycle 1.
  { apply on_list_read, (list_empty_spec _ (<[wait_link c := []]> L) _ []); [exact Hr1'|].
    apply lookup_insert_eq. }
  rewrite (bind_ok _ _ _ _ _ eq_refl).
  erewrite (bind_ok (set_wait _ _)); [|apply set_wait_ok; apply lookup_insert_eq].
  erewrite on_list_ok; [|exact E2]. unfold waiting. simpl. by rewrite insert_insert_eq.
Qed.

Lemma sem_wait_inv s L ws ps pv l' :
  sem_inv s L ws ps → current (kern s) ≠ idleproc (kern s) →
  blocked s !! current (kern s) = None → procs (kern s) !! current (kern s) = Some pv →
  (∃ sm, sems (kern s) !! x = Some sm ∧ value sm ≤ 0) →
  rep l' (links_waiting L ws (current (kern s))) →
  sem_inv (mk_sys (waiting (kern s) pv l') (<[current (kern s) := Entered]> (blocked s))
    (n_up s) (n_down s)) (links_waiting L ws (current (kern s))) (ws ++ [current (kern s)]) ps.
Proof.
  intros HI Hid Hbl Hpv (sm & Hsm & Hz) Hrep. set (c := current (kern s)) in *.
  set (k' := waiting (kern s) pv l').
  assert (∀ p, p ∈ ws → p ≠ c) as Hwc.
  { intros p Hp ->. destruct (i_asleep _ _ _ _ HI c Hp) as (_ & _ & [? E]). congruence. }
  assert (runnable (kern s) (cpu (kern s)) c) as (pv' & ? & Hst & Hpid & Hfl & Hq & _).
  { destruct (i_cur _ _ _ _ HI) as [?|[Hc|?]]; [done| |done]. by destruct (Hwc c Hc). }
  simplify_eq. pose proof (i_queue _ _ _ _ HI) as (Hr & Hrl & Hn & Hps).
  pose proof (i_waitq _ _ _ _ HI) as Hwq.
  assert (∀ st p, p ≠ c → eligible st (kern s) (cpu (kern s)) p → eligible st k' (cpu (kern s)) p) as Hel.
  { intros st p Hne (u & Hu & ?). exists u. split; [|done]. simpl.
    by rewrite lookup_insert_ne. }
  assert (∀ p, p ∈ ps → p ≠ c) as Hpc by (intros p Hp ->; by apply (i_curps _ _ _ _ HI)).
  assert (eligible PROC_SLEEPING k' (cpu (kern s)) c) as Hc.
  { exists (asleep pv). split; [apply lookup_insert_eq|done]. }
  constructor; cbn [kern blocked n_up n_down]; fold k';
    change (cpu k') with (cpu (kern s)); change (current k') with c;
    change (idleproc k') with (idleproc (kern s)).
  - split_and!; [done|by rewrite links_waiting_other|done|].
    intros p Hp. pose proof (Hpc p Hp). simpl. rewrite lookup_insert_ne by done. by apply Hps.
  - eapply rq_ok_frame; [exact (i_ok _ _ _ _ HI)|]. by apply links_waiting_other.
  - by eapply i_nodup.
  - by eapply i_curps.
  - intros p Hp. apply Hel; [by apply Hpc|]. by eapply i_runnable.
  - intros p Hp. rewrite links_waiting_other by done. apply (i_alone _ _ _ _ HI). set_solver.
  - right; left. set_solver.
  - destruct (i_idle _ _ _ _ HI) as (i & Hi & ?). exists i. split; [|done].
    simpl. by rewrite lookup_insert_ne.
  - rewrite lookup_insert_ne by done. by eapply i_idle_out.
  - apply lookup_insert_eq.
  - destruct (i_sem _ _ _ _ HI) as (sm' & ? & ? & ? & _ & ?). simplify_eq. exists sm.
    split_and!; [done..| |]; [lia|]. rewrite map_size_insert_None, length_app by done. simpl. lia.
  - intros p [Hp| ->%list_elem_of_singleton]%elem_of_app.
    + destruct (i_asleep _ _ _ _ HI p Hp) as (? & ? & ?). pose proof (Hwc p Hp).
      split_and!; [by apply Hel|simpl; by rewrite lookup_insert_ne|by rewrite lookup_insert_ne].
    + split_and!; [done| |by rewrite lookup_insert_eq]. exists (asleep pv).
      split; [apply lookup_insert_eq|done].
  - intros p Hp. simpl. destruct (decide (p = c)) as [->|Hne].
    + rewrite lookup_insert_eq. eexists. split_and!; [done|done|done|]. set_solver.
    + rewrite lookup_insert_ne in Hp by done.
      destruct (i_wait _ _ _ _ HI p Hp) as (u & ? & ? & ? & Hu). exists u.
      rewrite lookup_insert_ne by done. split_and!; [done..|]. intros Hn'.
      destruct Hu as (? & ? & ?); [set_solver|]. split_and!; [done| |by apply Hel].
      rewrite links_waiting_other by (congruence || done). done.
  - rewrite lookup_insert_eq. done.
  - intros p Hp. destruct (decide (p = c)) as [->|Hne]; [by rewrite lookup_insert_eq in Hp|].
    rewrite lookup_insert_ne in Hp by done. apply links_waiting_free; [done|done|]. by eapply i_free.
  - intros p Hp. apply (i_members _ _ _ _ HI). fold c. set_solver.
  - by eapply i_down.
Qed.

Lemma sem_down_ok s L ws ps :
  sem_inv s L ws ps → init + n_up s < 2 ^ 31 → current (kern s) ≠ idleproc (kern s) →
  blocked s !! current (kern s) = None →
  ∃ k' L' ws' (taken : bool), down_enter x (current (kern s)) WT_KSEM None (kern s) = Ok (taken, k') ∧
    sem_inv (if taken then mk_sys k' (blocked s) (n_up s) (n_down s + 1)
             else mk_sys k' (<[current (kern s) := Entered]> (blocked s)) (n_up s) (n_down s)) L' ws' ps.
Proof.
  intros HI Hb Hid Hbl. destruct (i_sem _ _ _ _ HI) as (sm & Hsm & Hval & _). unfold down_enter.
  rewrite (bind_ok _ _ _ _ _ (get_sem_ok _ _ Hsm)), Hval, (bind_ok _ _ _ _ _ eq_refl).
  destruct (Z.ltb_spec 0 (value sm)) as [Hpos|Hz].
  - destruct (sem_take_ok _ _ _ _ _ HI Hb Hsm Hpos) as [E HI'].
    rewrite (bind_ok _ _ _ _ _ E). eexists _, L, ws, true. split; [done|]. exact HI'.
  - assert (∃ pv, procs (kern s) !! current (kern s) = Some pv) as [pv Hpv].
    { destruct (i_cur _ _ _ _ HI) as [?|[Hc|(pv & ? & _)]]; [done| |by exists pv].
      destruct (i_asleep _ _ _ _ HI _ Hc) as (_ & _ & [? E]). congruence. }
    destruct (i_queue _ _ _ _ HI) as (Hr & _).
    destruct (wait_current_set_ok (kern s) L ws pv) as (l' & E & Hrep); try done;
      [by eapply i_waitq|by eapply i_free|].
    rewrite (bind_ok _ _ _ _ _ E), (bind_ok _ _ _ _ _ eq_refl).
    eexists _, _, _, false. split; [done|]. apply sem_wait_inv; try done. by exists sm.
Qed.

(** ** Scheduling and coming back *)

Lemma sem_scheduled s L ws ps k' L' line nxt rest :
  sem_inv s L ws ps → scheduled (kern s) k' L L' line nxt rest → NoDup line →
  (∀ p, p ∈ line → runnable (kern s) (cpu (kern s)) p) →
  (∀ p, p ∈ line → p ∈ ps ∨ (p = current (kern s) ∧ p ≠ idleproc (kern s))) →
  sem_inv (mk_sys k' (alter (λ _, Scheduled) (current (kern s)) (blocked s)) (n_up s) (n_down s))
    L' ws rest.
Proof.
  intros HI [Hline HQ Hcur Hk HL Hp Hnext Halone] Hnd Hrun Hsub.
  pose proof Hk as (Es & Ew & _ & Eid & El & Ec).
  assert (∀ st p, eligible st (kern s) (cpu (kern s)) p → eligible st k' (cpu (kern s)) p) as Hel.
  { intros st p He. eapply eligible_mono; [exact He|exact Hk|by apply Hp]. }
  assert (∀ p, p ∈ ws → p ∉ line) as Hwl.
  { intros p Hw Hl. destruct (i_asleep _ _ _ _ HI p Hw) as (Hs & _).
    by apply (eligible_runnable_ne _ _ _ _ Hs (Hrun p Hl)). }
  assert (∀ p, is_Some (alter (λ _, Scheduled) (current (kern s)) (blocked s) !! p) ↔
    is_Some (blocked s !! p)) as Hb.
  { intros p. by rewrite lookup_alter_is_Some. }
  assert (rest ⊆ line ∧ (nxt ∈ line ∨ (line = [] ∧ nxt = idleproc (kern s)))) as [Hrest Hnxt].
  { destruct Hline as [->|(-> & -> & ->)]; set_solver. }
  assert (nxt ∉ rest ∧ NoDup rest) as [Hnr Hndr].
  { destruct Hline as [->|(-> & -> & ->)]; [by apply NoDup_cons in Hnd|split; [set_solver|constructor]]. }
  constructor; cbn [kern blocked n_up n_down]; rewrite ?Ec, ?Hcur, ?Eid, ?El, ?Es, ?Ew.
  - done.
  - eapply rq_ok_frame; [exact (i_ok _ _ _ _ HI)|]. apply (lframe_other _ _ _ HL). by intros [].
  - done.
  - done.
  - intros p Hpr. apply Hel, Hrun. set_solver.
  - intros p [Hw|[-> Hne]].
    + rewrite Halone by by apply Hwl. apply (i_alone _ _ _ _ HI). by left.
    + apply Hnext. destruct Hnxt as [?|[_ ?]]; [|done]. destruct line; [set_solver|done].
  - destruct Hnxt as [Hn|[_ ?]]; [right; right; by apply Hel, Hrun|by left].
  - destruct (i_idle _ _ _ _ HI) as (i & Hi & Hpid). destruct (Hp _ _ Hi) as (w & ? & (_ & E & _) & _).
    exists w. split; [done|]. by rewrite E.
  - rewrite lookup_alter_None. by eapply i_idle_out.
  - rewrite (lframe_other _ _ _ HL) by (by intros []). by eapply i_waitq.
  - destruct (i_sem _ _ _ _ HI) as (sm & ? & ? & ? & ? & ?). exists sm. split_and!; try done.
    rewrite <-(size_dom (alter _ _ _) (D := gset Z)), dom_alter_L, size_dom. done.
  - intros p Hpw. destruct (i_asleep _ _ _ _ HI p Hpw) as (? & (v & Hv & Hws) & ?).
    split_and!; [by apply Hel| |by apply Hb]. destruct (Hp _ _ Hv) as (w & ? & _ & E).
    exists w. split; [done|]. by rewrite E.
  - intros p Hpb%Hb. destruct (i_wait _ _ _ _ HI p Hpb) as (u & ? & ? & ? & Hu). exists u.
    split_and!; [done..|]. intros Hn. destruct (Hu Hn) as (? & ? & ?).
    split_and!; [done| |by apply Hel]. by rewrite (lframe_other _ _ _ HL) by (by intros []).
  - intros _ Hw. destruct Hnxt as [Hn|[_ ->]]; [by apply (Hwl nxt)|].
    destruct (i_asleep _ _ _ _ HI _ Hw) as ((v & _ & _ & _ & _ & _ & ?) & _). done.
  - intros p Hpn. apply lookup_alter_None in Hpn.
    eapply lframe_available; [exact HL|by intros []|]. by eapply i_free.
  - intros p Hpm. apply (i_members _ _ _ _ HI). destruct Hpm as [Hr|[?|[-> Hne]]]; [|by auto|].
    + destruct (Hsub p); [set_solver|by left|by right; right].
    + destruct Hnxt as [Hn|[_ ?]]; [|done]. destruct (Hsub nxt Hn); auto.
  - by eapply i_down.
Qed.

Lemma sem_schedule_ok s L ws ps :
  sem_inv s L ws ps →
  ∃ k' L' ps', schedule class (kern s) = Ok (tt, k') ∧
    sem_inv (mk_sys k' (alter (λ _, Scheduled) (current (kern s)) (blocked s)) (n_up s) (n_down s))
      L' ws ps'.
Proof.
  intros HI. destruct (i_idle _ _ _ _ HI) as (i & Hi & Hpid).
  pose proof (sem_ps_few _ _ _ _ HI) as Hlen.
  pose proof (i_queue _ _ _ _ HI) as HQ. pose proof (i_ok _ _ _ _ HI) as Hok.
  assert (∀ v, procs (kern s) !! current (kern s) = Some v →
    state v ≠ PROC_RUNNABLE ∨ pid v < lcpu_count (kern s) →
    ∃ k' L' ps', schedule class (kern s) = Ok (tt, k') ∧
    sem_inv (mk_sys k' (alter (λ _, Scheduled) (current (kern s)) (blocked s)) (n_up s) (n_down s))
      L' ws ps') as Hleave.
  { intros v Hv Hno.
    destruct (schedule_leave class ok _ _ _ _ v i HQ Hok eq_refl Hv Hno Hi ltac:(lia)) as
      (k' & L' & nxt & rest & E & Hsd).
    exists k', L', rest. split; [done|]. eapply sem_scheduled; try done; [by eapply i_nodup| |by left].
    by eapply i_runnable. }
  destruct (i_cur _ _ _ _ HI) as [Hc|[Hc|Hc]].
  - apply (Hleave i); [by rewrite Hc|by right].
  - destruct (i_asleep _ _ _ _ HI _ Hc) as ((v & Hv & Hs & _) & _). apply (Hleave v Hv). left. by rewrite Hs.
  - assert (current (kern s) ≠ idleproc (kern s)) as Hne by by destruct Hc as (? & _ & _ & _ & _ & _ & ?).
    destruct (schedule_requeue class ok _ _ _ _ HQ Hok eq_refl Hc) as (k' & L' & nxt & rest & E & Hsd);
      [apply (i_alone _ _ _ _ HI); by right|done|].
    exists k', L', rest. split; [done|]. eapply sem_scheduled; try done.
    + apply NoDup_app. pose proof (i_curps _ _ _ _ HI).
      split_and!; [by eapply i_nodup|set_solver|apply NoDup_singleton].
    + intros p [Hp| ->%list_elem_of_singleton]%elem_of_app; [by eapply i_runnable|done].
    + intros p [Hp| ->%list_elem_of_singleton]%elem_of_app; [by left|by right].
Qed.

Lemma sem_resume_ok s L ws ps :
  sem_inv s L ws ps → blocked s !! current (kern s) = Some Scheduled →
  down_resume x (current (kern s)) (kern s) = Ok (tt, kern s) ∧
  sem_inv (mk_sys (kern s) (delete (current (kern s)) (blocked s)) (n_up s) (n_down s + 1)) L ws ps.
Proof.
  intros HI Hs. set (c := current (kern s)) in *.
  pose proof (i_sched _ _ _ _ HI Hs) as Hcw. fold c in Hcw.
  destruct (i_wait _ _ _ _ HI c) as (v & Hv & Hp & Hx & Hf); [by eexists|].
  destruct (Hf Hcw) as (Hfl & Hal & _). destruct (i_queue _ _ _ _ HI) as (Hr & _).
  assert (wait_in_queue c (kern s) = Ok (false, kern s)) as Ein.
  { unfold wait_in_queue. rewrite (bind_ok _ _ _ _ _ (get_wait_ok _ _ _ Hv)), Hx.
    rewrite (bind_ok _ _ _ true (kern s)); [done|]. by apply on_list_read, (list_empty_spec _ L _ []). }
  split.
  - unfold down_resume, down_leave, wait_current_del. cbn [ipc_del_timer].
    rewrite <-bind_assoc, (bind_ok _ _ _ _ _ eq_refl).
    rewrite <-bind_assoc, (bind_ok _ _ (kern s) tt (kern s)); cycle 1.
    { by rewrite (bind_ok _ _ _ _ _ Ein). }
    rewrite <-bind_assoc, (bind_ok _ _ _ _ _ (get_wait_ok _ _ _ Hv)), Hfl, Z.eqb_refl. done.
  - assert (size (delete c (blocked s)) = pred (size (blocked s)) ∧ size (blocked s) ≠ 0)%nat as [Hsz Hnz].
    { split; [apply map_size_delete_Some; by eexists|].
      intros Hz%map_size_empty_inv. rewrite Hz in Hs. done. }
    destruct HI; constructor; cbn [kern blocked n_up n_down] in *; try done.
    + apply lookup_delete_None. by right.
    + destruct i_sem0 as (sm & ? & ? & ? & ? & ?). exists sm. split_and!; [done..|]. lia.
    + intros p Hpw. destruct (i_asleep0 p Hpw) as (? & ? & ?). split_and!; [done..|].
      rewrite lookup_delete_ne; [done|]. intros ->. done.
    + intros p Hpb. apply i_wait0. destruct Hpb as [? Hpb]. apply lookup_delete_Some in Hpb as [_ Hpb].
      by eexists.
    + intros p Hpb. apply lookup_delete_None in Hpb as [<-|Hpb]; [|by apply i_free0].
      by eapply rep_alone_available.
    + lia.
Qed.

(** ** Every reachable state *)

Lemma sem_step_up s s' : sem_step s s' → n_up s ≤ n_up s'.
Proof. intros []; simpl; lia. Qed.

Lemma sem_step_inv s s' L ws ps :
  sem_inv s L ws ps → init + n_up s' < 2 ^ 31 → sem_step s s' →
  ∃ L' ws' ps', sem_inv s' L' ws' ps'.
Proof.
  intros HI Hb Hstep. destruct Hstep as [k b u d k' E|k b u d k' Hid Hbl E|k b u d k' Hid Hbl E
    |k b u d k' E|k b u d k' Hbl E|k b u d k' r Hbl E]; cbn [n_up] in Hb.
  - destruct (sem_up_ok _ _ _ _ HI) as (k1 & L' & ws' & ps' & E1 & HI'); [simpl; lia|].
    cbn [kern] in E1. rewrite E in E1. simplify_eq. by exists L', ws', ps'.
  - destruct (sem_down_ok _ _ _ _ HI Hb Hid Hbl) as (k1 & L' & ws' & t & E1 & HI').
    cbn [kern] in E1. rewrite E in E1. simplify_eq. by exists L', ws', ps.
  - destruct (sem_down_ok _ _ _ _ HI Hb Hid Hbl) as (k1 & L' & ws' & t & E1 & HI').
    cbn [kern] in E1. rewrite E in E1. simplify_eq. by exists L', ws', ps.
  - destruct (sem_schedule_ok _ _ _ _ HI) as (k1 & L' & ps' & E1 & HI').
    cbn [kern] in E1. rewrite E in E1. simplify_eq. by exists L', ws, ps'.
  - destruct (sem_resume_ok _ _ _ _ HI Hbl) as (E1 & HI'). cbn [kern] in E1. rewrite E in E1. simplify_eq.
    by exists L, ws, ps.
  - destruct (sem_try_ok _ _ _ _ HI Hb) as (k1 & r1 & E1 & HI'). cbn [kern] in E1. rewrite E in E1. simplify_eq.
    by exists L, ws, ps.
Qed.

Lemma sem_reach_inv s0 s L0 ws0 ps0 :
  sem_inv s0 L0 ws0 ps0 → rtc sem_step s0 s → init + n_up s < 2 ^ 31 →
  ∃ L ws ps, sem_inv s L ws ps.
Proof.
  intros HI Hr. revert s Hr. refine (rtc_ind_r _ _ _ _); [eauto|].
  intros s1 s2 _ Hstep IH Hb. pose proof (sem_step_up _ _ Hstep).
  destruct IH as (L & ws & ps & HI1); [lia|]. by eapply sem_step_inv.
Qed.

(** The waiters are the processes asleep inside [down]. *)
Definition waiters (s : sys) (ws : list Z) : Prop :=
  NoDup ws ∧ ∀ p, p ∈ ws ↔ is_Some (blocked s !! p) ∧
    ∃ v, procs (kern s) !! p = Some v ∧ state v = PROC_SLEEPING.

Lemma sem_waiters s L ws ps : sem_inv s L ws ps → waiters s ws.
Proof.
  intros HI. split; [by eapply sem_ws_nodup|]. intros p. split.
  - intros Hp. destruct (i_asleep _ _ _ _ HI p Hp) as ((v & Hv & Hs & _) & _ & ?). eauto.
  - intros (Hb & v & Hv & Hs). destruct (decide (p ∈ ws)) as [?|Hn]; [done|].
    destruct (i_wait _ _ _ _ HI p Hb) as (u & _ & _ & _ & Hf). destruct (Hf Hn) as (_ & _ & (w & ? & ? & _)).
    simplify_eq. congruence.
Qed.

(** C2.  Kernel semaphores lose no wake-up.  In every state that [up], [down],
    [try_down], preemption and interrupts can reach, the value of the
    semaphore, the [down]s that have returned, and the sleepers that have been
    woken but have not run yet together amount to the initial value plus the
    [up]s; the value is never negative, and nobody sleeps on a semaphore
    whose value is positive.  In particular at most [init + n_up] calls of
    [down] have returned: with [init = 1] the semaphore is a lock. *)
Theorem sem_conservation (s0 s : sys) L0 ws0 ps0
    (HI : sem_inv s0 L0 ws0 ps0) (Hr : rtc sem_step s0 s) (Hb : init + n_up s < 2 ^ 31) :
  ∃ sm ws, sems (kern s) !! x = Some sm ∧ waiters s ws ∧ 0 ≤ value sm ∧
    (ws ≠ [] → value sm = 0) ∧ (length ws ≤ size (blocked s))%nat ∧
    value sm + n_down s + (Z.of_nat (size (blocked s)) - Z.of_nat (length ws)) = init + n_up s ∧
    n_down s ≤ init + n_up s.
Proof.
  destruct (sem_reach_inv _ _ _ _ _ HI Hr Hb) as (L & ws & ps & HI').
  destruct (i_sem _ _ _ _ HI') as (sm & ? & _ & ? & ? & ?). exists sm, ws.
  pose proof (sem_ws_blocked _ _ _ _ HI').
  split_and!; [done|by eapply sem_waiters|done..|lia].
Qed.

(** C3.  Kernel semaphores do not panic.  In every reachable state [up]
    returns, whoever runs; [schedule] returns; a process that is not inside
    [down] may enter it; and a process that comes back from [schedule] inside
    [down] was woken by an [up], so that [down] returns and its assertion
    [flags == 0] holds. *)
Theorem sem_no_panic (s0 s : sys) L0 ws0 ps0
    (HI : sem_inv s0 L0 ws0 ps0) (Hr : rtc sem_step s0 s) (Hb : init + n_up s + 1 < 2 ^ 31) :
  (∃ k', up class x (kern s) = Ok (tt, k')) ∧ (∃ k', schedule class (kern s) = Ok (tt, k')) ∧
  (current (kern s) ≠ idleproc (kern s) → blocked s !! current (kern s) = None →
   ∃ taken k', down_enter x (current (kern s)) WT_KSEM None (kern s) = Ok (taken, k')) ∧
  (blocked s !! current (kern s) = Some Scheduled →
   down_resume x (current (kern s)) (kern s) = Ok (tt, kern s)).
Proof.
  destruct (sem_reach_inv _ _ _ _ _ HI Hr ltac:(lia)) as (L & ws & ps & HI'). split_and!.
  - destruct (sem_up_ok _ _ _ _ HI' Hb) as (? & ? & ? & ? & ? & _). eauto.
  - destruct (sem_schedule_ok _ _ _ _ HI') as (? & ? & ? & ? & _). eauto.
  - intros Hid Hbl. destruct (sem_down_ok _ _ _ _ HI' ltac:(lia) Hid Hbl) as (? & ? & ? & ? & ? & _). eauto.
  - intros Hbl. by destruct (sem_resume_ok _ _ _ _ HI' Hbl).
Qed.

End inv.

(** ** User semaphores: the race between a time-out and [up] *)

(** [up] panics when the first waiter was woken by something else.  A
    process that waits on a user semaphore with a time-out, or that a signal
    interrupts, is woken by [wakeup_proc], which clears its [wait_state], and
    stays in the wait queue until it runs again; an [up] that comes in between
    finds it at the head of the queue and fails the assertion
    [wait->proc->wait_state == wait_state]. *)
Theorem usem_up_after_timeout_panics (k : kst) L ps w ws v sm
    (HQ : queue k L (cpu k) ps) (Hok : ok L (cpu k)) (Hlen : Z.of_nat (length ps) + 1 < 2 ^ 32)
    (Hw : L !! wait_head x = Some (wait_link <$> (w :: ws))) (Hv : waits k !! w = Some v)
    (Hsm : sems k !! x = Some sm) (Hvalid : valid sm = true)
    (Hs : eligible PROC_SLEEPING k (cpu k) (w_proc v)) (Hal : L !! run_link (w_proc v) = Some [])
    (Hcur : w_proc v ≠ current k) :
  ∃ k', wakeup_proc class (w_proc v) k = Ok (tt, k') ∧ usem_up class x k' = Err Panic.
Proof.
  destruct (wakeup_other class ok k L ps (w_proc v) HQ Hok Hal Hs Hcur Hlen) as
    (k' & E & (Hr & _) & _ & (Es & Ew & _) & _ & _ & pv & Hpv & Hz).
  exists k'. split; [exact E|]. unfold usem_up, up_. apply bind_err.
  destruct (links_enqueued_frame L (cpu k) ps (w_proc v)) as [Hf _].
  rewrite (bind_ok _ _ k' sm k') by (apply get_sem_ok; by rewrite Es).
  rewrite Hvalid, (bind_ok _ _ _ _ _ eq_refl). unfold wait_queue_first. rewrite <-bind_assoc.
  rewrite (bind_ok _ _ _ (wait_link w) k'); cycle 1.
  { apply on_list_read, (list_next_spec _ _ (wait_head x) [] (wait_link w :: (fmap (M:=list) wait_link ws)) []
      _ _ ((fmap (M:=list) wait_link ws) ++ [wait_head x]) Hr); [|done..].
    rewrite (lframe_other _ _ _ Hf) by (by intros []). done. }
  unfold wait_at. rewrite decide_False by done. cbn [le2wait].
  rewrite (bind_ok _ _ k' (Some w) k') by done.
  rewrite (bind_ok _ _ _ _ _ (get_wait_ok k' w v ltac:(by rewrite Ew))).
  by rewrite (bind_ok _ _ _ _ _ (get_proc_ok _ _ _ Hpv)), Hz.
Qed.
End sem.
