(* ===== verification/KernSim.v ===== *)
(** * Concrete kernel states

    The theorems on scheduling, timers and semaphores, applied to small
    states whose hypotheses are checked by computation. *)

From S2P Require Import Prelude DList Kern Sched SchedSpec SchedFrame TimerSpec Wait SemSpec.

(** ** A machine with an idle process and two others *)

Definition proc0 (n : Z) : proc_struct := mk_proc PROC_RUNNABLE n 0 0 0 5 None 0 0.
Definition no_callback (d : Z) : M kst unit := mret tt.

(** Process 2 runs, process 3 is queued; nobody waits on semaphore 100. *)
Definition links2 : list (klink * list klink) :=
  [(run_list 0, [run_link 3]); (rq_link 0, []); (run_link 2, []); (wait_head 100, []);
   (timer_list, [timer_link 7; timer_link 8]); (timer_link 9, [])].

Definition kst2 : kst := mk_kst
  (list_to_map [(1, proc0 0); (2, proc0 2); (3, proc0 3 <| rq := Some 0 |>)])
  (list_to_map [(0, mk_rq 1 5)])
  (list_to_map [(7, mk_timer 1 3 (Some 0)); (8, mk_timer 2 3 None); (9, mk_timer 2 2 None)]) ∅
  (list_to_map [(100, mk_sem 1 true 0)]) (build links2) 2 1 1 0.

Lemma links2_rep : rep (klinks kst2) (list_to_map links2).
Proof. apply build_rep. by apply (bool_decide_unpack _). Qed.

Lemma kst2_running : running one_level kst2 2 [3].
Proof.
  exists (list_to_map links2). constructor; try done.
  - split_and!; [apply links2_rep|done|by eexists|]. intros p ->%list_elem_of_singleton. by eexists.
  - intros p Hp. set_unfold. destruct Hp as [->|[->|[]]].
    + exists (proc0 2). split_and!; [done..|by left|done].
    + exists (proc0 3 <| rq := Some 0 |>). split_and!; [done..|by right|done].
  - by apply (bool_decide_unpack _).
Qed.

Lemma schedule_fair_witness :
  ∃ k', schedules MLFQ_sched_class 1 kst2 = Ok (tt, k') ∧ current k' = 3.
Proof. exact (proj1 (schedule_fair MLFQ_sched_class one_level kst2 2 [3] kst2_running) O 3 eq_refl). Defined.

(** ** Timers *)

Lemma kst2_timers : timer_inv kst2 (list_to_map links2) [7; 8].
Proof.
  constructor; [apply links2_rep|done| |done].
  intros t Ht. set_unfold. destruct Ht as [->|[->|[]]]; by eexists.
Qed.


Lemma del_timer_deadlines_witness :
  ∃ ts' L' m' l', let k' := kst2 <| timers := m' |> <| klinks := l' |> in
    del_timer_ 7 kst2 = Ok (tt, k') ∧ timer_inv k' L' ts' ∧ L' !! timer_link 7 = Some [] ∧
    deadlines 0 (deltas m' ts') = [(8, 3)].
Proof.
  exact (del_timer_deadlines kst2 _ [7; 8] 7 kst2_timers ltac:(set_solver)).
Defined.

Lemma linux_timer_witness : run_timer_list MLFQ_sched_class no_callback kst2 = Err Fault.
Proof.
  apply (linux_timer_use_after_free MLFQ_sched_class no_callback kst2 (list_to_map links2) 7 [8]
    (mk_timer 1 3 (Some 0)) 0 kst2_timers eq_refl eq_refl eq_refl).
  intros d k. by exists k.
Defined.

(** ** Semaphores *)

Definition sys2 : sys := mk_sys kst2 ∅ 0 0.

Lemma sys2_inv : sem_inv one_level 100 1 [2; 3] sys2 (list_to_map links2) [] [3].
Proof.
  destruct kst2_running as (L & HL). constructor; cbn [kern sys2 blocked n_up n_down]; try done.
  - split_and!; [apply links2_rep|done|by eexists|]. intros p ->%list_elem_of_singleton. by eexists.
  - by apply (bool_decide_unpack _).
  - by apply (bool_decide_unpack _).
  - intros p ->%list_elem_of_singleton. apply (run_procs _ _ _ _ _ HL). set_solver.
  - intros p [Hp|[-> _]]; [by apply not_elem_of_nil in Hp|done].
  - right; right. apply (run_procs _ _ _ _ _ HL). set_solver.
  - by eexists.
  - by eexists.
  - intros p Hp. by apply not_elem_of_nil in Hp.
  - intros p [? Hp]. done.
  - intros p _. apply unlisted_available. intros y l Hy Hin.
    assert (wait_link p ∈ nodes links2) as Hin2 by by eapply nodes_lookup.
    unfold nodes in Hin2. simpl in Hin2. set_solver.
  - intros p Hp. change (current kst2) with 2 in Hp. set_solver.
Qed.

Definition st_of (m : M kst unit) (k : kst) : kst := match m k with Ok (_, k') => k' | Err _ => k end.
Definition st_of' (m : M kst bool) (k : kst) : kst := match m k with Ok (_, k') => k' | Err _ => k end.

(** Process 2 takes the semaphore and is preempted; process 3 finds it taken,
    goes to sleep and gives up the processor; process 2 releases it. *)
Definition tr1 : kst := st_of' (down_enter 100 2 WT_KSEM None) kst2.
Definition tr2 : kst := st_of (schedule MLFQ_sched_class) tr1.
Definition tr3 : kst := st_of' (down_enter 100 3 WT_KSEM None) tr2.
Definition tr4 : kst := st_of (schedule MLFQ_sched_class) tr3.
Definition tr5 : kst := st_of (up MLFQ_sched_class 100) tr4.
Definition tr6 : kst := st_of (schedule MLFQ_sched_class) tr5.
Definition sys6 : sys := mk_sys tr6 (<[3 := Scheduled]> ∅) 1 1.

(** [step_schedule], with the control states given. *)
Lemma step_schedule_to k b u d k' b' :
  schedule MLFQ_sched_class k = Ok (tt, k') → alter (λ _, Scheduled) (current k) b = b' →
  sem_step MLFQ_sched_class 100 (mk_sys k b u d) (mk_sys k' b' u d).
Proof. intros ? <-. by apply step_schedule. Qed.

Lemma sys2_trace : rtc (sem_step MLFQ_sched_class 100) sys2 sys6.
Proof.
  apply (rtc_l _ _ (mk_sys tr1 ∅ 0 1)); [by apply step_take; vm_compute|].
  apply (rtc_l _ _ (mk_sys tr2 ∅ 0 1)); [by apply step_schedule_to; vm_compute|].
  apply (rtc_l _ _ (mk_sys tr3 (<[3 := Entered]> ∅) 0 1)).
  { change 3 with (current tr2). by apply step_wait; vm_compute. }
  apply (rtc_l _ _ (mk_sys tr4 (<[3 := Scheduled]> ∅) 0 1)); [by apply step_schedule_to; vm_compute|].
  apply (rtc_l _ _ (mk_sys tr5 (<[3 := Scheduled]> ∅) 1 1)).
  { apply (step_up _ _ tr4 _ 0). by vm_compute. }
  apply rtc_once. by apply step_schedule_to; vm_compute.
Qed.

Lemma sem_conservation_witness :
  ∃ sm ws, sems tr6 !! 100 = Some sm ∧ waiters sys6 ws ∧ 0 ≤ value sm ∧
    (ws ≠ [] → value sm = 0) ∧ (length ws ≤ 1)%nat ∧
    value sm + 1 + (1 - Z.of_nat (length ws)) = 1 + 1 ∧ 1 ≤ 1 + 1.
Proof.
  exact (sem_conservation MLFQ_sched_class one_level 100 1 [2; 3] ltac:(done) sys2 sys6 _ _ _
    sys2_inv sys2_trace ltac:(done)).
Defined.

Lemma sem_no_panic_witness : down_resume 100 3 tr6 = Ok (tt, tr6).
Proof.
  exact (proj2 (proj2 (proj2 (sem_no_panic MLFQ_sched_class one_level 100 1 [2; 3] ltac:(done) sys2 sys6
    _ _ _ sys2_inv sys2_trace ltac:(done)))) eq_refl).
Defined.

(** Process 3 sleeps on user semaphore 100. *)
Definition links3 : list (klink * list klink) :=
  [(run_list 0, []); (rq_link 0, []); (run_link 2, []); (run_link 3, []);
   (wait_head 100, [wait_link 3])].
Definition kst3 : kst := mk_kst
  (list_to_map [(1, proc0 0); (2, proc0 2);
     (3, proc0 3 <| state := PROC_SLEEPING |> <| wait_state := WT_USEM |>)])
  (list_to_map [(0, mk_rq 0 5)]) ∅ (list_to_map [(3, mk_wait 3 WT_INTERRUPTED (Some 100))])
  (list_to_map [(100, mk_sem 0 true 1)]) (build links3) 2 1 1 0.

Lemma usem_up_witness :
  ∃ k', wakeup_proc MLFQ_sched_class 3 kst3 = Ok (tt, k') ∧
    usem_up MLFQ_sched_class 100 k' = Err Panic.
Proof.
  apply (usem_up_after_timeout_panics MLFQ_sched_class one_level 100 kst3 (list_to_map links3) []
    3 [] (mk_wait 3 WT_INTERRUPTED (Some 100)) (mk_sem 0 true 1)); try done.
  - split_and!; [|done|by eexists|by intros p Hp%not_elem_of_nil].
    apply build_rep. by apply (bool_decide_unpack _).
  - eexists. split; [done|]. split_and!; [done..|by left|done].
Defined.
