(* ===== verification/Pipe.v ===== *)
(** * Pipes

    [fs/pipe/pipe_state.c].  [lock_state] and [unlock_state] are [down] and
    [up] on a semaphore of initial value 1, so that the code between them is
    one atomic section; [pipe_read_section] and [pipe_write_section] are these
    sections.  Between sections a thread may be interrupted, and the phases of
    [pthread] say where it is: about to enter a section, between [unlock_state]
    and [wait_current_set], or asleep on the pipe's queue. *)

From S2P Require Import Prelude.

(** [PGSIZE - sizeof(struct pipe_state)]: two positions, a pointer, two
    words, a semaphore of 28 bytes and two wait queues of 12. *)
Definition PIPE_BUFSIZE : Z := PGSIZE - 72.

Record pipe_state : Type := mk_pipe {
  p_rpos : Z;
  p_wpos : Z;
  buf : gmap Z Z;
  isclosed : bool;
  ref_count : Z;
}.
#[export] Instance eta_pipe_state : Eta pipe_state := λ r,
  mk_pipe (p_rpos r) (p_wpos r) (buf r) (isclosed r) (ref_count r).

(** [b] is what the freshly allocated buffer holds. *)
Definition pipe_state_create (b : gmap Z Z) : pipe_state := mk_pipe 0 0 b false 1.

Definition is_empty (st : pipe_state) : bool := p_rpos st =? p_wpos st.
Definition is_full (st : pipe_state) : bool := PIPE_BUFSIZE <=? u32 (p_wpos st - p_rpos st).

Definition pipe_state_size (st : pipe_state) (write : bool) : Z :=
  let size := u32 (p_wpos st - p_rpos st) in
  if write then if isclosed st then 0 else u32 (PIPE_BUFSIZE - size) else size.

Definition pipe_state_acquire : M pipe_state unit :=
  st ← get;
  _ ← assert (0 <? ref_count st);
  put (st <| ref_count := s32 (ref_count st + 1) |>).

(** [true]: the pipe was freed; [waiting]: somebody is on one of its queues. *)
Definition pipe_state_release (waiting : bool) : M pipe_state bool :=
  st ← get;
  _ ← assert (0 <? ref_count st);
  _ ← put (st <| ref_count := ref_count st - 1 |>);
  if ref_count st - 1 =? 0 then _ ← assert (negb waiting); mret true else mret false.

(** ** The sections under the lock *)

(** How a section ends: [Leave], with whom it wakes; or [Wait], the lock being
    released and the thread about to wait. *)
Inductive outcome (A : Type) : Type :=
| Leave (ret : A) (wake : bool)
| Wait (ret : A) (wake : bool).
Arguments Leave {A} ret wake.
Arguments Wait {A} ret wake.

(** One byte: [*(buf + ret) = state->buf[state->p_rpos % PIPE_BUFSIZE]]. *)
Definition pipe_get : M pipe_state Z :=
  b ← deref (λ st, buf st !! (u32 (p_rpos st) mod PIPE_BUFSIZE));
  _ ← modify (λ st, st <| p_rpos := s32 (p_rpos st + 1) |>);
  mret b.

Definition pipe_put (b : Z) : M pipe_state unit :=
  _ ← modify (λ st, st <| buf := <[u32 (p_wpos st) mod PIPE_BUFSIZE := b]> (buf st) |>);
  modify (λ st, st <| p_wpos := s32 (p_wpos st + 1) |>).

(** [pipe_state_read] under the lock; the bytes read are the result. *)
Definition pipe_read_section (n : nat) : M pipe_state (outcome (list Z)) :=
  st ← get;
  if is_empty st then
    mret (if isclosed st then Leave [] false else Wait [] false)
  else
    out ← loop (S n) (λ out : list Z,
      st ← get;
      if (length out <? n)%nat && negb (is_empty st) then
        b ← pipe_get; mret (inl (out ++ [b]))
      else mret (inr out)) [];
    mret (Leave out (negb (length out =? 0)%nat)).

(** [pipe_state_write] under the lock; [data] is what is left to write and the
    result what is left then. *)
Definition pipe_write_section (data : list Z) : M pipe_state (outcome (list Z)) :=
  st ← get;
  if isclosed st then mret (Leave data false)
  else
    loop (S (length data)) (λ '(step, rest),
      match rest with
      | [] => mret (inr (Leave [] (negb (step =? 0))))
      | b :: rest' =>
          st ← get;
          if is_full st then mret (inr (Wait rest true))
          else _ ← pipe_put b; mret (inl (step + 1, rest'))
      end) (0, data).

(** ** Threads *)

(** A reader of [n] bytes, a writer of [data] of which [rest] is left. *)
Inductive pthread : Type :=
| Reading (n : nat) | ReadWait (n : nat) | ReadSleep (n : nat) | ReadDone (out : list Z)
| Writing (data rest : list Z) | WriteWait (data rest : list Z) | WriteSleep (data rest : list Z)
| WriteDone (data rest : list Z).

(** [wakeup_reader] and [wakeup_writer]: the sleepers leave the queue with
    [WT_PIPE] and go to [try_again]. *)
Definition wakeup_reader (t : pthread) : pthread :=
  match t with ReadSleep n => Reading n | _ => t end.
Definition wakeup_writer (t : pthread) : pthread :=
  match t with WriteSleep data rest => Writing data rest | _ => t end.

Record psys : Type := mk_psys {
  pipe : pipe_state;
  threads : gmap Z pthread;
  written : list Z;
  readb : list Z;
}.

Definition read_phase (n : nat) (o : outcome (list Z)) : pthread :=
  match o with Leave out _ => ReadDone out | Wait _ _ => ReadWait n end.
Definition write_phase (data : list Z) (o : outcome (list Z)) : pthread :=
  match o with Leave rest _ => WriteDone data rest | Wait rest _ => WriteWait data rest end.
Definition woken_by {A} (o : outcome A) (f : pthread → pthread) (ts : gmap Z pthread) : gmap Z pthread :=
  match o with Leave _ true | Wait _ true => f <$> ts | _ => ts end.
Definition result {A} (o : outcome A) : A := match o with Leave a _ | Wait a _ => a end.

Inductive pipe_step : psys → psys → Prop :=
| ps_read s i n o st' :
    threads s !! i = Some (Reading n) → pipe_read_section n (pipe s) = Ok (o, st') →
    pipe_step s (mk_psys st' (woken_by o wakeup_writer (<[i := read_phase n o]> (threads s)))
      (written s) (readb s ++ result o))
| ps_write s i data rest o st' :
    threads s !! i = Some (Writing data rest) → pipe_write_section rest (pipe s) = Ok (o, st') →
    pipe_step s (mk_psys st' (woken_by o wakeup_reader (<[i := write_phase data o]> (threads s)))
      (written s ++ take (length rest - length (result o)) rest) (readb s))
| ps_read_sleep s i n :
    threads s !! i = Some (ReadWait n) →
    pipe_step s (mk_psys (pipe s) (<[i := ReadSleep n]> (threads s)) (written s) (readb s))
| ps_write_sleep s i data rest :
    threads s !! i = Some (WriteWait data rest) →
    pipe_step s (mk_psys (pipe s) (<[i := WriteSleep data rest]> (threads s)) (written s) (readb s))
| ps_read_interrupted s i n :
    threads s !! i = Some (ReadSleep n) →
    pipe_step s (mk_psys (pipe s) (<[i := ReadDone []]> (threads s)) (written s) (readb s))
| ps_write_interrupted s i data rest :
    threads s !! i = Some (WriteSleep data rest) →
    pipe_step s (mk_psys (pipe s) (<[i := WriteDone data rest]> (threads s)) (written s) (readb s))
| ps_close s :
    0 < ref_count (pipe s) →
    pipe_step s (mk_psys (pipe s <| isclosed := true |>)
      (wakeup_writer <$> (wakeup_reader <$> threads s)) (written s) (readb s)).

(** ** The contents of a pipe *)

(** [content st l]: the pipe holds the bytes [l], oldest first; the positions
    have not overflowed. *)
Definition byte_at (st : pipe_state) (i : Z) : option Z := buf st !! (i mod PIPE_BUFSIZE).

Record content (st : pipe_state) (l : list Z) : Prop := {
  ct_rpos : 0 ≤ p_rpos st;
  ct_wpos : p_wpos st = p_rpos st + Z.of_nat (length l);
  ct_bound : p_wpos st < 2 ^ 31;
  ct_size : Z.of_nat (length l) ≤ PIPE_BUFSIZE;
  ct_bytes (i : nat) b : l !! i = Some b → byte_at st (p_rpos st + Z.of_nat i) = Some b;
}.

Lemma content_create b : content (pipe_state_create b) [].
Proof. constructor; done. Qed.

Lemma content_empty st l : content st l → is_empty st = bool_decide (l = []).
Proof.
  intros [Hr Hw _ _ _]. unfold is_empty. rewrite Hw. destruct l as [|b l]; simpl.
  - rewrite Z.add_0_r. by rewrite Z.eqb_refl.
  - apply Z.eqb_neq. lia.
Qed.

Lemma content_size st l : content st l → u32 (p_wpos st - p_rpos st) = Z.of_nat (length l).
Proof. intros [Hr Hw Hb Hs _]. rewrite Hw, u32_id; [lia|]. unfold PIPE_BUFSIZE, PGSIZE in Hs. lia. Qed.

Lemma content_full st l :
  content st l → is_full st = (PIPE_BUFSIZE <=? Z.of_nat (length l)).
Proof. intros Hc. unfold is_full. by rewrite (content_size _ _ Hc). Qed.

Lemma pipe_get_ok st b l :
  content st (b :: l) →
  let st' := st <| p_rpos := p_rpos st + 1 |> in
  pipe_get st = Ok (b, st') ∧ content st' l.
Proof.
  intros [Hr Hw Hb Hs Hbytes] st'. simpl in Hw, Hs. split.
  - pose proof (Hbytes 0%nat b eq_refl) as H0. unfold byte_at in H0. rewrite Z.add_0_r in H0.
    unfold pipe_get. rewrite (bind_ok _ _ st b st).
    + unfold mbind, M_bind, modify. by rewrite s32_id by lia.
    + unfold deref. rewrite u32_id by lia. by rewrite H0.
  - constructor; cbn [p_rpos p_wpos st']; [simpl; lia|simpl; lia|done|lia|].
    intros i b' Hi. specialize (Hbytes (S i) b' Hi). unfold byte_at in *. simpl.
    replace (p_rpos st + 1 + Z.of_nat i) with (p_rpos st + Z.of_nat (S i)) by lia. done.
Qed.

(** Two positions less than a buffer apart use different cells. *)
Lemma slot_ne i j : i < j → j < i + PIPE_BUFSIZE → i mod PIPE_BUFSIZE ≠ j mod PIPE_BUFSIZE.
Proof.
  unfold PIPE_BUFSIZE, PGSIZE. intros Hij Hj E.
  pose proof (Z.div_mod i 4024 ltac:(lia)). pose proof (Z.div_mod j 4024 ltac:(lia)).
  change (4096 - 72) with 4024 in *. nia.
Qed.

Lemma pipe_put_ok st b l :
  content st l → Z.of_nat (length l) < PIPE_BUFSIZE → p_wpos st + 1 < 2 ^ 31 →
  ∃ st', pipe_put b st = Ok (tt, st') ∧ content st' (l ++ [b]) ∧
    p_wpos st' = p_wpos st + 1 ∧ isclosed st' = isclosed st ∧ ref_count st' = ref_count st.
Proof.
  intros [Hr Hw Hb Hs Hbytes] Hlen Hb1. eexists. split; [done|]. simpl.
  rewrite s32_id by lia. split_and!; try done. constructor; simpl.
  - done.
  - rewrite length_app. simpl. lia.
  - lia.
  - rewrite length_app. simpl. lia.
  - intros i b' Hi. unfold byte_at. simpl. rewrite (u32_id (p_wpos st)) by lia.
    apply lookup_app_Some in Hi as [Hi|[Hge Hi]].
    + pose proof (lookup_lt_Some _ _ _ Hi). rewrite lookup_insert_ne; [by apply Hbytes|].
      apply not_eq_sym, slot_ne; lia.
    + apply list_lookup_singleton_Some in Hi as [Hz <-].
      replace (p_rpos st + Z.of_nat i) with (p_wpos st) by lia. apply lookup_insert_eq.
Qed.
