(* ===== verification/PipeSpec.v ===== *)
(** * Pipes are FIFO queues

    No interleaving of readers and writers loses, invents or reorders a byte;
    but a reader can miss its wake-up. *)

From S2P Require Import Prelude Pipe.

(** ** One section *)

Lemma read_loop_ok (n : nat) : ∀ l out st fuel,
  content st l → (length out ≤ n)%nat → (n - length out < fuel)%nat →
  ∃ st', loop fuel (λ out : list Z,
      st ← get;
      if (length out <? n)%nat && negb (is_empty st) then
        b ← pipe_get; mret (inl (out ++ [b]))
      else mret (inr out)) out st = Ok (out ++ take (n - length out) l, st') ∧
    content st' (drop (n - length out) l) ∧ p_wpos st' = p_wpos st ∧
    isclosed st' = isclosed st ∧ ref_count st' = ref_count st.
Proof.
  induction l as [|b l IH]; intros out st fuel Hc Hle Hf; (destruct fuel as [|fuel]; [lia|]).
  - erewrite loop_stop.
    2: { rewrite (bind_ok _ _ _ _ _ eq_refl), (content_empty _ _ Hc), bool_decide_true by done.
         by rewrite andb_false_r. }
    rewrite take_nil, drop_nil, app_nil_r. by exists st.
  - destruct (Nat.ltb_spec (length out) n) as [Hlt|Hge].
    + destruct (pipe_get_ok _ _ _ Hc) as [E Hc'].
      erewrite loop_next.
      2: { rewrite (bind_ok _ _ _ _ _ eq_refl), (content_empty _ _ Hc), bool_decide_false by done.
           rewrite (proj2 (Nat.ltb_lt _ _) Hlt). cbn [negb andb]. by rewrite (bind_ok _ _ _ _ _ E). }
      destruct (IH (out ++ [b]) _ fuel Hc') as (st' & E' & Hc'' & Hw & Hcl & Hrc).
      { rewrite length_app. simpl. lia. } { rewrite length_app. simpl. lia. }
      exists st'. rewrite E'.
      replace (n - length out)%nat with (S (n - length (out ++ [b]))) by (rewrite length_app; simpl; lia).
      simpl. rewrite <-app_assoc. by split_and!.
    + erewrite loop_stop.
      2: { rewrite (bind_ok _ _ _ _ _ eq_refl), (proj2 (Nat.ltb_ge _ _) Hge). done. }
      replace (n - length out)%nat with 0%nat by lia. rewrite app_nil_r. by exists st.
Qed.

(** What [pipe_state_read] does under the lock: it takes the first bytes, or
    leaves because the pipe is closed, or waits. *)
Lemma pipe_read_section_ok n st l :
  content st l →
  ∃ o st', pipe_read_section n st = Ok (o, st') ∧ result o = take n l ∧ content st' (drop n l) ∧
    isclosed st' = isclosed st ∧ ref_count st' = ref_count st ∧ p_wpos st' = p_wpos st ∧
    o = (if decide (l = []) then if isclosed st then Leave [] false else Wait [] false
         else Leave (take n l) (negb (length (take n l) =? 0)%nat)).
Proof.
  intros Hc. unfold pipe_read_section. rewrite (bind_ok _ _ _ _ _ eq_refl), (content_empty _ _ Hc).
  destruct (decide (l = [])) as [->|Hne].
  - rewrite bool_decide_true by done. eexists _, st. split; [done|]. rewrite take_nil, drop_nil.
    split_and!; try done. by destruct (isclosed st).
  - rewrite bool_decide_false by done.
    destruct (read_loop_ok n l [] st (S n) Hc) as (st' & E & Hc' & Hw & Hcl & Hrc); [simpl; lia..|].
    rewrite (bind_ok _ _ _ _ _ E). simpl in *. rewrite Nat.sub_0_r in *.
    eexists _, st'. split; [done|]. by split_and!.
Qed.

Lemma write_loop_ok rest : ∀ step l st fuel,
  content st l → 0 ≤ step → (length rest < fuel)%nat →
  p_wpos st + (PIPE_BUFSIZE - Z.of_nat (length l)) < 2 ^ 31 →
  ∃ o st' k, loop fuel (λ '(step, rest),
      match rest with
      | [] => mret (inr (Leave [] (negb (step =? 0))))
      | b :: rest' =>
          st ← get;
          if is_full st then mret (inr (Wait rest true))
          else _ ← pipe_put b; mret (inl (step + 1, rest'))
      end) (step, rest) st = Ok (o, st') ∧
    result o = drop k rest ∧ (k ≤ length rest)%nat ∧ content st' (l ++ take k rest) ∧
    isclosed st' = isclosed st ∧ ref_count st' = ref_count st ∧
    p_wpos st' = p_wpos st + Z.of_nat k ∧
    o = (if decide (drop k rest = []) then Leave [] (negb (step + Z.of_nat k =? 0))
         else Wait (drop k rest) true) ∧
    (drop k rest ≠ [] → Z.of_nat (length (l ++ take k rest)) = PIPE_BUFSIZE).
Proof.
  induction rest as [|b rest IH]; intros step l st fuel Hc Hst Hf Hb;
    (destruct fuel as [|fuel]; [simpl in Hf; lia|]).
  - erewrite loop_stop by reflexivity.
    exists (Leave [] (negb (step =? 0))), st, 0%nat. simpl. rewrite !Z.add_0_r, app_nil_r. by split_and!.
  - destruct (Z.leb_spec PIPE_BUFSIZE (Z.of_nat (length l))) as [Hfull|Hroom].
    + erewrite loop_stop.
      2: { by rewrite (bind_ok _ _ _ _ _ eq_refl), (content_full _ _ Hc), (proj2 (Z.leb_le _ _) Hfull). }
      exists (Wait (b :: rest) true), st, 0%nat. simpl. rewrite app_nil_r. split_and!; try done; [lia|lia|].
      intros _. pose proof (ct_size _ _ Hc). lia.
    + simpl in Hf.
      destruct (pipe_put_ok st b l Hc Hroom ltac:(lia)) as (st1 & E1 & Hc1 & Hw1 & Hcl1 & Hrc1).
      erewrite loop_next.
      2: { rewrite (bind_ok _ _ _ _ _ eq_refl), (content_full _ _ Hc), (proj2 (Z.leb_gt _ _) Hroom).
           by rewrite (bind_ok _ _ _ _ _ E1). }
      destruct (IH (step + 1) (l ++ [b]) st1 fuel Hc1) as
        (o & st' & k & E & Hres & Hk & Hc' & Hcl & Hrc & Hw & Ho & Hfin);
        [lia|lia|rewrite length_app; simpl; lia|].
      exists o, st', (S k). simpl. rewrite <-app_assoc in Hc', Hfin. simpl in Hc', Hfin.
      split_and!; try done; [lia|congruence|congruence|lia|].
      rewrite Ho. by replace (step + 1 + Z.of_nat k) with (step + Z.of_nat (S k)) by lia.
Qed.

(** What [pipe_state_write] does under the lock: it appends what fits, and
    waits only when the pipe is full. *)
Lemma pipe_write_section_ok data st l :
  content st l → p_wpos st + PIPE_BUFSIZE < 2 ^ 31 →
  ∃ o st' k, pipe_write_section data st = Ok (o, st') ∧ (k ≤ length data)%nat ∧
    result o = drop k data ∧ content st' (l ++ take k data) ∧
    isclosed st' = isclosed st ∧ ref_count st' = ref_count st ∧
    p_wpos st' = p_wpos st + Z.of_nat k ∧
    o = (if isclosed st then Leave data false
         else if decide (drop k data = []) then Leave [] (negb (Z.of_nat k =? 0))
         else Wait (drop k data) true) ∧
    (isclosed st = false → drop k data ≠ [] → Z.of_nat (length (l ++ take k data)) = PIPE_BUFSIZE).
Proof.
  intros Hc Hb. unfold pipe_write_section. rewrite (bind_ok _ _ _ _ _ eq_refl).
  destruct (isclosed st) eqn:Hcl.
  - exists (Leave data false), st, 0%nat. simpl. rewrite app_nil_r, Hcl, Z.add_0_r. split_and!; try done. lia.
  - destruct (write_loop_ok data 0 l st (S (length data)) Hc) as
      (o & st' & k & E & Hres & Hk & Hc' & Hcl' & Hrc & Hw & Ho & Hfin); [lia..|].
    exists o, st', k. rewrite Hcl in Hcl'. by split_and!.
Qed.

(** ** Every interleaving *)

(** The ghost logs: everything written was read or is in the pipe. *)
Definition pipe_inv (s : psys) : Prop :=
  ∃ l, content (pipe s) l ∧ written s = readb s ++ l ∧
    p_wpos (pipe s) = Z.of_nat (length (written s)).

Lemma step_written s s' : pipe_step s s' → (length (written s) ≤ length (written s'))%nat.
Proof. intros []; simpl; rewrite ?length_app; lia. Qed.

Lemma pipe_step_inv s s' :
  pipe_inv s → Z.of_nat (length (written s)) + PIPE_BUFSIZE < 2 ^ 31 → pipe_step s s' → pipe_inv s'.
Proof.
  intros (l & Hc & Hlog & Hw) Hb Hstep.
  destruct Hstep as [s i n o st' _ E|s i data rest o st' _ E|s i n|s i data rest|s i n|s i data rest|s Hr];
    try by exists l.
  - destruct (pipe_read_section_ok n (pipe s) l Hc) as (o' & st1 & E' & Hres & Hc' & _ & _ & Hw' & _).
    rewrite E in E'. simplify_eq. exists (drop n l). cbn [pipe written readb].
    rewrite Hres, <-app_assoc, take_drop. split_and!; [done|done|congruence].
  - destruct (pipe_write_section_ok rest (pipe s) l Hc) as
      (o' & st1 & k & E' & Hk & Hres & Hc' & _ & _ & Hw' & _); [lia|].
    rewrite E in E'. simplify_eq. exists (l ++ take k rest). cbn [pipe written readb].
    rewrite Hres, length_drop. replace (length rest - (length rest - k))%nat with k by lia.
    split_and!; [done|by rewrite Hlog, app_assoc|].
    rewrite Hw', Hw, length_app, length_take. lia.
  - exists l. split_and!; [|done|done]. destruct Hc. by constructor.
Qed.

Lemma pipe_reach_inv s0 s :
  pipe_inv s0 → rtc pipe_step s0 s → Z.of_nat (length (written s)) + PIPE_BUFSIZE < 2 ^ 31 → pipe_inv s.
Proof.
  intros HI Hr. revert s Hr. refine (rtc_ind_r _ _ _ _); [done|].
  intros s1 s2 _ Hstep IH Hb. pose proof (step_written _ _ Hstep).
  apply (pipe_step_inv s1); [apply IH; lia|lia|done].
Qed.

(** A fresh pipe with its threads. *)
Definition pipe_start (b : gmap Z Z) (ts : gmap Z pthread) : psys := mk_psys (pipe_state_create b) ts [] [].

Lemma pipe_start_inv b ts : pipe_inv (pipe_start b ts).
Proof. exists []. split_and!; [apply content_create|done|done]. Qed.

(** C34.  A pipe is a FIFO queue.  In every state that readers, writers, waits,
    interruptions and a close can reach from a fresh pipe, as long as fewer
    than 2^31 - 4096 bytes were written (later the positions overflow), the bytes written are the bytes read followed
    by the at most [PIPE_BUFSIZE] bytes in the pipe, in order: nothing is
    lost, invented or reordered.  And the sections return there: a read takes
    the oldest bytes, as many as it asked for or as there are, and waits only
    on an empty open pipe; a write appends what fits and waits only when the
    pipe is full. *)
Theorem pipe_fifo (b : gmap Z Z) (ts : gmap Z pthread) (s : psys)
    (Hr : rtc pipe_step (pipe_start b ts) s)
    (Hb : Z.of_nat (length (written s)) + PIPE_BUFSIZE < 2 ^ 31) :
  ∃ l, written s = readb s ++ l ∧ Z.of_nat (length l) ≤ PIPE_BUFSIZE ∧
    (∀ write, pipe_state_size (pipe s) write = if write then if isclosed (pipe s) then 0
       else PIPE_BUFSIZE - Z.of_nat (length l) else Z.of_nat (length l)) ∧
    (∀ n, ∃ st', pipe_read_section n (pipe s) =
       Ok (if decide (l = []) then if isclosed (pipe s) then Leave [] false else Wait [] false
           else Leave (take n l) (negb (length (take n l) =? 0)%nat), st') ∧ content st' (drop n l)) ∧
    (∀ data, ∃ k st', pipe_write_section data (pipe s) =
       Ok (if isclosed (pipe s) then Leave data false
           else if decide (drop k data = []) then Leave [] (negb (Z.of_nat k =? 0))
           else Wait (drop k data) true, st') ∧ content st' (l ++ take k data) ∧
       (isclosed (pipe s) = false → drop k data ≠ [] →
        Z.of_nat (length (l ++ take k data)) = PIPE_BUFSIZE)).
Proof.
  destruct (pipe_reach_inv _ s (pipe_start_inv b ts) Hr Hb) as (l & Hc & Hlog & Hw).
  pose proof (ct_size _ _ Hc) as Hsz. exists l. split_and!; [done|done| | |].
  - intros write. unfold pipe_state_size. rewrite (content_size _ _ Hc).
    rewrite u32_id by (unfold PIPE_BUFSIZE, PGSIZE in *; lia). done.
  - intros n. destruct (pipe_read_section_ok n _ _ Hc) as (o & st' & E & _ & Hc' & _ & _ & _ & ->).
    by exists st'.
  - intros data. destruct (pipe_write_section_ok data _ _ Hc) as
      (o & st' & k & E & _ & _ & Hc' & _ & _ & _ & -> & Hfin); [lia|]. by exists k, st'.
Qed.

(** Two bytes written and one of them read. *)
Definition pipe2 : psys :=
  mk_psys (mk_pipe 1 2 (<[0 := 65]> (<[1 := 66]> ∅)) false 1)
    (<[1 := ReadDone [65]]> (<[2 := WriteDone [65; 66] []]> ∅)) [65; 66] [65].

Lemma pipe_fifo_witness :
  ∃ l, [65; 66] = [65] ++ l ∧
    ∃ st', pipe_read_section 5 (pipe pipe2) =
       Ok (if decide (l = []) then Wait [] false
           else Leave (take 5 l) (negb (length (take 5 l) =? 0)%nat), st').
Proof.
  destruct (pipe_fifo ∅ (<[1 := Reading 1]> (<[2 := Writing [65; 66] [65; 66]]> ∅)) pipe2) as
    (l & E & _ & _ & Hread & _).
  - eapply rtc_l; [by apply (ps_write _ 2 [65; 66] [65; 66] (Leave [] true)
      (mk_pipe 0 2 (<[0 := 65]> (<[1 := 66]> ∅)) false 1))|].
    eapply rtc_l; [by apply (ps_read _ 1 1 (Leave [65] true) (pipe pipe2))|]. simpl.
    match goal with |- rtc _ ?a ?b => assert (a = b) as ->; done end.
  - done.
  - exists l. split; [exact E|]. destruct (Hread 5%nat) as (st' & E' & _). by exists st'.
Defined.

(** A reader can miss its wake-up.  [pipe_state_read] unlocks the pipe
    before it puts itself in the wait queue; a writer that runs in between
    finds nobody to wake, and the reader goes to sleep although the pipe holds
    data.  For every byte there is such a run, and in its last state every
    thread sleeps or is done. *)
Theorem pipe_lost_wakeup (b : gmap Z Z) (x : Z) :
  ∃ s, rtc pipe_step (pipe_start b (<[1 := Reading 1]> (<[2 := Writing [x] [x]]> ∅))) s ∧
    threads s = <[1 := ReadSleep 1]> (<[2 := WriteDone [x] []]> ∅) ∧
    pipe_state_size (pipe s) false = 1 ∧ content (pipe s) [x].
Proof.
  destruct (pipe_write_section_ok [x] (pipe_state_create b) [] (content_create b)) as
    (o & st' & k & E & Hk & Hres & Hc & _ & _ & _ & -> & Hfin); [done|].
  assert (k = 1%nat) as ->.
  { destruct k as [|[|k]]; [|done|simpl in Hk; lia].
    specialize (Hfin eq_refl ltac:(done)). done. }
  simpl in E, Hc. clear Hres Hfin Hk.
  exists (mk_psys st' (<[1 := ReadSleep 1]> (<[2 := WriteDone [x] []]> ∅)) [x] []).
  split_and!; [|done|by apply (content_size _ _ Hc)|done].
  eapply rtc_l; [by apply (ps_read _ 1 1 (Wait [] false) (pipe_state_create b))|]. simpl.
  eapply rtc_l; [eapply (ps_write _ 2 [x] [x] _ st'); [done|exact E]|]. simpl.
  eapply rtc_l; [by eapply (ps_read_sleep _ 1 1)|]. simpl.
  match goal with |- rtc _ ?a ?b => assert (a = b) as ->; [|done] end. f_equal.
Qed.
