(* ===== verification/Bitmap.v ===== *)
(** * Bitmaps of the simple file system

    [fs/sfs/bitmap.c]: the map of free blocks; a set bit is a free block. *)

From S2P Require Import Prelude Slab.

Definition WORD_BITS : Z := 32.

Record bitmap : Type := mk_bitmap { nbits : Z; nwords : Z; bmap : list Z }.
#[export] Instance eta_bitmap : Eta bitmap := λ r, mk_bitmap (nbits r) (nwords r) (bmap r).

(** [libs/types.h] *)
Definition ROUNDUP_DIV (a n : Z) : Z := u32 (a + n - 1) / n.

(** [1 << offset], as a [WORD_TYPE]. *)
Definition bit_mask (offset : Z) : Z := Z.shiftl 1 offset.

(** [map[ix] = w] and [map[ix]]; outside the array is a fault. *)
Definition get_word (ix : Z) : M bitmap Z := deref (λ b, bmap b !! Z.to_nat ix).
Definition set_word (ix w : Z) : M bitmap unit :=
  _ ← get_word ix; modify (λ b, b <| bmap := <[Z.to_nat ix := w]> (bmap b) |>).

(** The loop that takes the bits past the end out of the last word. *)
Definition overbits_body (ix o : Z) : M bitmap (Z + unit) :=
  if o <? WORD_BITS then
    w ← get_word ix;
    _ ← set_word ix (Z.lxor w (bit_mask o));
    mret (inl (o + 1))
  else mret (inr tt).
Definition mark_overbits (ix overbits : Z) : M bitmap unit :=
  loop (S (Z.to_nat (WORD_BITS - overbits))) (overbits_body ix) overbits.

(** [avail1] and [avail2]: whether the allocations succeed. *)
Definition bitmap_create (avail1 avail2 : bool) (n : Z) : M bitmap bool :=
  _ ← assert (negb (n =? 0) && (n <? u32 (n + WORD_BITS)));
  p ← kmalloc avail1 12;
  match p with
  | None => mret false
  | Some _ =>
      let nw := ROUNDUP_DIV n WORD_BITS in
      q ← kmalloc avail2 (u32 (4 * nw));
      match q with
      | None => mret false
      | Some _ =>
          _ ← put (mk_bitmap n nw (replicate (Z.to_nat nw) (2 ^ 32 - 1)));
          _ ← (if negb (n =? u32 (nw * WORD_BITS)) then
                 let ix := nw - 1 in
                 let overbits := n - ix * WORD_BITS in
                 _ ← assert (n / WORD_BITS =? ix);
                 _ ← assert ((0 <? overbits) && (overbits <? WORD_BITS));
                 mark_overbits ix overbits
               else mret tt);
          mret true
      end
  end.

(** The inner loop of [bitmap_alloc]: the first set bit of a word. *)
Definition first_bit_body (w offset : Z) : M bitmap (Z + option Z) :=
  if offset <? WORD_BITS then
    mret (if negb (Z.land w (bit_mask offset) =? 0) then inr (Some offset) else inl (offset + 1))
  else mret (inr None).
Definition first_bit (w : Z) : M bitmap (option Z) := loop 33 (first_bit_body w) 0.

(** One word of the search. *)
Definition alloc_body (nw ix : Z) : M bitmap (Z + Z * Z) :=
  if ix <? nw then
    w ← get_word ix;
    if negb (w =? 0) then
      offset ← first_bit w;
      match offset with
      | Some offset =>
          _ ← set_word ix (Z.lxor w (bit_mask offset));
          mret (inr (0, u32 (ix * WORD_BITS + offset)))
      | None => fail Panic
      end
    else mret (inl (ix + 1))
  else mret (inr (- E_NO_MEM, 0)).

Definition bitmap_alloc : M bitmap (Z * Z) :=
  b ← get; loop (S (Z.to_nat (nwords b))) (alloc_body (nwords b)) 0.

(** The word and the mask of a bit. *)
Definition bitmap_translate (index : Z) : M bitmap (Z * Z) :=
  b ← get;
  _ ← assert (index <? nbits b);
  mret (index / WORD_BITS, bit_mask (index mod WORD_BITS)).

Definition bitmap_test (index : Z) : M bitmap bool :=
  wm ← bitmap_translate index;
  w ← get_word wm.1;
  mret (negb (Z.land w wm.2 =? 0)).

Definition bitmap_free (index : Z) : M bitmap unit :=
  wm ← bitmap_translate index;
  w ← get_word wm.1;
  _ ← assert (Z.land w wm.2 =? 0);
  set_word wm.1 (Z.lor w wm.2).

Definition bitmap_getdata : M bitmap (list Z * Z) :=
  b ← get; mret (bmap b, u32 (4 * nwords b)).

(** ** A bitmap is a set *)

(** Bit [i] of the array of words. *)
Definition bit (l : list Z) (i : Z) : bool :=
  match l !! Z.to_nat (i / WORD_BITS) with
  | Some w => Z.testbit w (i mod WORD_BITS)
  | None => false
  end.

(** [b] is a bitmap of [n] bits of which those of [s] are free. *)
Record bitmap_rep (b : bitmap) (n : Z) (s : gset Z) : Prop := {
  br_nbits : nbits b = n;
  br_n : 0 < n < 2 ^ 31;
  br_nwords : nwords b = (n + 31) / 32;
  br_length : Z.of_nat (length (bmap b)) = nwords b;
  br_words w : w ∈ bmap b → 0 ≤ w < 2 ^ 32;
  br_bits i : 0 ≤ i → i ∈ s ↔ bit (bmap b) i = true;
  br_range i : i ∈ s → 0 ≤ i < n;
}.

(** ** Bits and words *)

Lemma land_mask w o : 0 ≤ o → (Z.land w (bit_mask o) =? 0) = negb (Z.testbit w o).
Proof.
  intros Ho. unfold bit_mask. rewrite Z.shiftl_1_l.
  destruct (Z.testbit w o) eqn:E; simpl.
  - apply Z.eqb_neq. intros H0. assert (Z.testbit (Z.land w (2 ^ o)) o = true) as Hb.
    { rewrite Z.land_spec, E, Z.pow2_bits_true; done. }
    rewrite H0, Z.bits_0 in Hb. done.
  - apply Z.eqb_eq, Z.bits_inj'. intros i Hi. rewrite Z.land_spec, Z.pow2_bits_eqb, Z.bits_0 by lia.
    destruct (Z.eqb_spec o i) as [->|]; [by rewrite E|by rewrite andb_false_r].
Qed.

Lemma lxor_mask_bit w o i :
  0 ≤ o → Z.testbit (Z.lxor w (bit_mask o)) i = if i =? o then negb (Z.testbit w i) else Z.testbit w i.
Proof.
  intros Ho. unfold bit_mask. rewrite Z.shiftl_1_l, Z.lxor_spec, Z.pow2_bits_eqb by done.
  rewrite Z.eqb_sym. destruct (i =? o); destruct (Z.testbit w i); done.
Qed.

Lemma lor_mask_bit w o i :
  0 ≤ o → Z.testbit (Z.lor w (bit_mask o)) i = (i =? o) || Z.testbit w i.
Proof.
  intros Ho. unfold bit_mask. rewrite Z.shiftl_1_l, Z.lor_spec, Z.pow2_bits_eqb by done.
  rewrite Z.eqb_sym. destruct (i =? o); destruct (Z.testbit w i); done.
Qed.

(** Bounded bitwise operations stay in a word. *)
Lemma word_range w : (0 ≤ w < 2 ^ 32) ↔ (0 ≤ w ∧ ∀ i, 32 ≤ i → Z.testbit w i = false).
Proof.
  split.
  - intros [H0 H1]. split; [done|]. intros i Hi. apply Z.bits_above_log2; [done|].
    destruct (decide (w = 0)) as [->|]; [simpl; lia|]. apply Z.log2_lt_pow2; [lia|].
    apply (Z.lt_le_trans _ (2 ^ 32)); [done|]. apply Z.pow_le_mono_r; lia.
  - intros [H0 Hb]. split; [done|]. destruct (decide (w = 0)) as [->|]; [done|].
    apply Z.log2_lt_pow2; [lia|]. destruct (Z.lt_ge_cases (Z.log2 w) 32) as [|Hge]; [done|].
    specialize (Hb _ Hge). rewrite Z.bit_log2 in Hb by lia. done.
Qed.

Lemma lxor_mask_range w o : 0 ≤ o < 32 → 0 ≤ w < 2 ^ 32 → 0 ≤ Z.lxor w (bit_mask o) < 2 ^ 32.
Proof.
  intros Ho Hw. apply word_range in Hw as [H0 Hb]. apply word_range. split.
  - apply Z.lxor_nonneg. unfold bit_mask. rewrite Z.shiftl_1_l. pose proof (Z.pow_nonneg 2 o). lia.
  - intros i Hi. rewrite lxor_mask_bit by lia. rewrite (proj2 (Z.eqb_neq _ _)) by lia. auto.
Qed.

Lemma lor_mask_range w o : 0 ≤ o < 32 → 0 ≤ w < 2 ^ 32 → 0 ≤ Z.lor w (bit_mask o) < 2 ^ 32.
Proof.
  intros Ho Hw. apply word_range in Hw as [H0 Hb]. apply word_range. split.
  - apply Z.lor_nonneg. split; [done|]. unfold bit_mask. rewrite Z.shiftl_1_l. apply Z.pow_nonneg. lia.
  - intros i Hi. rewrite lor_mask_bit by lia. rewrite (proj2 (Z.eqb_neq _ _)) by lia. cbn [orb]. auto.
Qed.

Lemma div_mod_bit i j : 0 ≤ i → 0 ≤ j → i / 32 = j / 32 → i mod 32 = j mod 32 → i = j.
Proof. intros. rewrite (Z.div_mod i 32), (Z.div_mod j 32) by lia. congruence. Qed.

(** Bit [i] after word [ix] was replaced. *)
Lemma bit_insert l ix w i :
  (ix < length l)%nat → 0 ≤ i →
  bit (<[ix := w]> l) i = if decide (Z.to_nat (i / 32) = ix) then Z.testbit w (i mod 32) else bit l i.
Proof.
  intros Hix Hi. unfold bit, WORD_BITS. destruct (decide (Z.to_nat (i / 32) = ix)) as [->|Hne].
  - by rewrite list_lookup_insert_eq.
  - by rewrite list_lookup_insert_ne.
Qed.

(** ** Single bits *)

Lemma rep_word b n s i :
  bitmap_rep b n s → 0 ≤ i < n →
  ∃ w, bmap b !! Z.to_nat (i / 32) = Some w ∧ 0 ≤ w < 2 ^ 32 ∧ Z.testbit w (i mod 32) = bool_decide (i ∈ s).
Proof.
  intros [Hn Hb Hnw Hlen Hw Hbits _] Hi.
  assert (Z.to_nat (i / 32) < length (bmap b))%nat as Hlt.
  { rewrite Hnw in Hlen. apply Nat2Z.inj_lt. rewrite Z2Nat.id, Hlen by (apply Z.div_pos; lia).
    apply Z.div_lt_upper_bound; [lia|]. pose proof (Z.mod_pos_bound (n + 31) 32 ltac:(lia)).
    pose proof (Z.div_mod (n + 31) 32 ltac:(lia)). lia. }
  apply lookup_lt_is_Some in Hlt as [w E]. exists w. split; [done|].
  split; [by apply Hw; eapply list_elem_of_lookup_2|].
  specialize (Hbits i ltac:(lia)). unfold bit, WORD_BITS in Hbits. rewrite E in Hbits.
  destruct (Z.testbit w (i mod 32)); symmetry; [apply bool_decide_eq_true|apply bool_decide_eq_false]; naive_solver.
Qed.

(** Replacing a word so that only bit [i] changes. *)
Lemma rep_set_bit b n s i w w' (v : bool) :
  bitmap_rep b n s → 0 ≤ i < n → bmap b !! Z.to_nat (i / 32) = Some w → 0 ≤ w' < 2 ^ 32 →
  (∀ j, Z.testbit w' j = if j =? i mod 32 then v else Z.testbit w j) →
  bitmap_rep (b <| bmap := <[Z.to_nat (i / 32) := w']> (bmap b) |>) n
    (if v then {[i]} ∪ s else s ∖ {[i]}).
Proof.
  intros [Hn Hb Hnw Hlen Hw Hbits Hr] Hi E Hw' Hj. pose proof (lookup_lt_Some _ _ _ E) as Hlt.
  constructor; simpl; try done.
  - by rewrite length_insert.
  - intros x Hx. apply list_elem_of_lookup in Hx as [k Hk].
    apply list_lookup_insert_Some in Hk as [(<- & <- & _)|[_ Hk]]; [done|].
    apply Hw. by eapply list_elem_of_lookup_2.
  - intros j Hj0. rewrite bit_insert by done. specialize (Hbits j Hj0).
    destruct (decide (j = i)) as [->|Hne].
    + rewrite decide_True by done. rewrite Hj, Z.eqb_refl. destruct v; set_solver.
    + transitivity (j ∈ s); [destruct v; set_solver|]. rewrite Hbits.
      destruct (decide (Z.to_nat (j / 32) = Z.to_nat (i / 32))) as [Hd|Hd]; [|done].
      apply Z2Nat.inj in Hd; [|apply Z.div_pos; lia..].
      rewrite Hj, (proj2 (Z.eqb_neq _ _)) by (intros Hm; apply Hne, div_mod_bit; lia || done).
      unfold bit, WORD_BITS. by rewrite Hd, E.
  - intros j. destruct v; set_unfold; naive_solver lia.
Qed.

Lemma bitmap_translate_ok b n s i :
  bitmap_rep b n s → i < n → bitmap_translate i b = Ok ((i / 32, bit_mask (i mod 32)), b).
Proof.
  intros Hr Hi. unfold bitmap_translate. rewrite (bind_ok _ _ _ _ _ eq_refl), (br_nbits _ _ _ Hr).
  rewrite (proj2 (Z.ltb_lt _ _)) by done. by rewrite (bind_ok _ _ _ _ _ eq_refl).
Qed.

Lemma get_word_ok b ix w : bmap b !! Z.to_nat ix = Some w → get_word ix b = Ok (w, b).
Proof. intros E. unfold get_word, deref. by rewrite E. Qed.
Lemma set_word_ok b ix w w' :
  bmap b !! Z.to_nat ix = Some w →
  set_word ix w' b = Ok (tt, b <| bmap := <[Z.to_nat ix := w']> (bmap b) |>).
Proof. intros E. unfold set_word. by rewrite (bind_ok _ _ _ _ _ (get_word_ok _ _ _ E)). Qed.

Lemma bitmap_test_ok b n s i :
  bitmap_rep b n s → 0 ≤ i < n → bitmap_test i b = Ok (bool_decide (i ∈ s), b).
Proof.
  intros Hr Hi. destruct (rep_word _ _ _ _ Hr Hi) as (w & E & _ & Hb). unfold bitmap_test.
  rewrite (bind_ok _ _ _ _ _ (bitmap_translate_ok _ _ _ _ Hr (proj2 Hi))).
  rewrite (bind_ok _ _ _ _ _ (get_word_ok _ _ _ E)). cbn [fst snd].
  rewrite land_mask by (apply Z.mod_pos_bound; lia). by rewrite negb_involutive, Hb.
Qed.

Lemma bitmap_free_ok b n s i :
  bitmap_rep b n s → 0 ≤ i < n → i ∉ s →
  ∃ b', bitmap_free i b = Ok (tt, b') ∧ bitmap_rep b' n ({[i]} ∪ s).
Proof.
  intros Hr Hi Hn. destruct (rep_word _ _ _ _ Hr Hi) as (w & E & Hw & Hb). unfold bitmap_free.
  pose proof (Z.mod_pos_bound i 32 ltac:(lia)) as Hm. rewrite bool_decide_false in Hb by done.
  rewrite (bind_ok _ _ _ _ _ (bitmap_translate_ok _ _ _ _ Hr (proj2 Hi))).
  rewrite (bind_ok _ _ _ _ _ (get_word_ok _ _ _ E)). cbn [fst snd].
  rewrite land_mask, Hb by lia. rewrite (bind_ok _ _ _ _ _ eq_refl).
  eexists. split; [by eapply set_word_ok|].
  apply (rep_set_bit b n s i w _ true); [done|done|done|by apply lor_mask_range|].
  intros j. rewrite lor_mask_bit by lia. by destruct (j =? i mod 32).
Qed.

(** Freeing a free block is a panic, and so is a block out of range. *)
Lemma bitmap_free_panics b n s i :
  bitmap_rep b n s → 0 ≤ i → i ∈ s ∨ n ≤ i → bitmap_free i b = Err Panic.
Proof.
  intros Hr Hi Hbad. unfold bitmap_free. destruct (Z.lt_ge_cases i n) as [Hlt|Hge].
  - destruct Hbad as [Hin|?]; [|lia].
    destruct (rep_word _ _ _ _ Hr (conj Hi Hlt)) as (w & E & _ & Hb). rewrite bool_decide_true in Hb by done.
    rewrite (bind_ok _ _ _ _ _ (bitmap_translate_ok _ _ _ _ Hr Hlt)).
    rewrite (bind_ok _ _ _ _ _ (get_word_ok _ _ _ E)). cbn [fst snd].
    rewrite land_mask, Hb by (apply Z.mod_pos_bound; lia). done.
  - apply bind_err. unfold bitmap_translate. rewrite (bind_ok _ _ _ _ _ eq_refl), (br_nbits _ _ _ Hr).
    rewrite (proj2 (Z.ltb_ge _ _)) by done. done.
Qed.

(** ** [bitmap_alloc] *)

Lemma first_bit_from (d : nat) : ∀ b w o fuel,
  o = 32 - Z.of_nat d → (d ≤ 32)%nat → (d < fuel)%nat → (∀ j, 0 ≤ j < o → Z.testbit w j = false) →
  0 < w < 2 ^ 32 →
  ∃ o', loop fuel (first_bit_body w) o b = Ok (Some o', b) ∧
    0 ≤ o' < 32 ∧ Z.testbit w o' = true ∧ ∀ j, 0 ≤ j < o' → Z.testbit w j = false.
Proof.
  induction d as [|d IH]; intros b w o fuel Ho Hd Hf Hz Hw;
    (destruct fuel as [|fuel]; [lia|]).
  - exfalso. assert (Z.testbit w (Z.log2 w) = true) as Hb by (apply Z.bit_log2; lia).
    rewrite Hz in Hb; [done|]. split; [apply Z.log2_nonneg|]. rewrite Ho.
    apply Z.log2_lt_pow2; simpl; lia.
  - destruct (Z.testbit w o) eqn:E.
    + erewrite loop_stop.
      2: { unfold first_bit_body. rewrite (proj2 (Z.ltb_lt _ _)), land_mask, E by (unfold WORD_BITS; lia). done. }
      exists o. split_and!; [done|lia|lia|done|done].
    + erewrite loop_next.
      2: { unfold first_bit_body. rewrite (proj2 (Z.ltb_lt _ _)), land_mask, E by (unfold WORD_BITS; lia). done. }
      apply IH; [lia|lia|lia| |done]. intros j Hj. destruct (decide (j = o)) as [->|]; [done|].
      apply Hz. lia.
Qed.

Lemma first_bit_ok b w :
  0 < w < 2 ^ 32 →
  ∃ o, first_bit w b = Ok (Some o, b) ∧ 0 ≤ o < 32 ∧ Z.testbit w o = true ∧
    ∀ j, 0 ≤ j < o → Z.testbit w j = false.
Proof. intros Hw. apply (first_bit_from 32); [lia|lia|lia|intros; lia|done]. Qed.

(** The least free bit. *)
Definition least (s : gset Z) (i : Z) : Prop := i ∈ s ∧ ∀ j, j ∈ s → i ≤ j.

Lemma rep_zero_word b n s ix :
  bitmap_rep b n s → 0 ≤ ix → bmap b !! Z.to_nat ix = Some 0 → ∀ i, i / 32 = ix → 0 ≤ i → i ∉ s.
Proof.
  intros Hr Hix E i Hi H0 Hin. apply (br_bits _ _ _ Hr) in Hin; [|done].
  unfold bit, WORD_BITS in Hin. rewrite Hi, E, Z.bits_0 in Hin. done.
Qed.

(** [0] and the least free block, which is no longer free; or [-E_NO_MEM]. *)
Definition alloc_post (b : bitmap) (n : Z) (s : gset Z) (r : Z * Z) (b' : bitmap) : Prop :=
  (r.1 = 0 ∧ least s r.2 ∧ bitmap_rep b' n (s ∖ {[r.2]})) ∨ (r = (- E_NO_MEM, 0) ∧ s = ∅ ∧ b' = b).

Lemma alloc_take b n s ix w :
  bitmap_rep b n s → 0 ≤ ix < nwords b → (∀ i, i ∈ s → ix * 32 ≤ i) →
  bmap b !! Z.to_nat ix = Some w → w ≠ 0 →
  ∃ o b', first_bit w b = Ok (Some o, b) ∧ set_word ix (Z.lxor w (bit_mask o)) b = Ok (tt, b') ∧
    alloc_post b n s (0, u32 (ix * WORD_BITS + o)) b'.
Proof.
  intros Hr Hix Hlow E Hne. pose proof (br_words _ _ _ Hr w ltac:(by eapply list_elem_of_lookup_2)) as Hw.
  destruct (first_bit_ok b w ltac:(lia)) as (o & Eo & Ho & Hbit & Hfirst).
  exists o. eexists. split; [done|]. split; [by apply (set_word_ok _ _ w)|].
  assert ((ix * 32 + o) / 32 = ix ∧ (ix * 32 + o) mod 32 = o) as [Hdiv Hmod].
  { split; [rewrite Z.div_add_l, Z.div_small by lia; lia|].
    rewrite Z.add_comm, Z.mod_add, Z.mod_small by lia. done. }
  assert (ix * 32 + o ∈ s) as Hin.
  { apply (br_bits _ _ _ Hr); [lia|]. unfold bit, WORD_BITS. by rewrite Hdiv, Hmod, E. }
  pose proof (br_range _ _ _ Hr _ Hin) as Hrange. pose proof (br_n _ _ _ Hr) as Hn.
  left. cbn [fst snd]. unfold WORD_BITS. rewrite u32_id by lia. split_and!; [done| |].
  - split; [done|]. intros j Hj. destruct (Z.le_gt_cases (ix * 32 + o) j) as [|Hlt]; [done|].
    pose proof (Hlow j Hj) as Hge. apply (br_bits _ _ _ Hr) in Hj; [|lia]. unfold bit, WORD_BITS in Hj.
    assert (j / 32 = ix) as Hjd by (symmetry; apply (Z.div_unique_pos _ _ _ (j - ix * 32)); lia).
    rewrite Hjd, E in Hj.
    assert (j mod 32 = j - ix * 32) as Hjm by (symmetry; apply (Z.mod_unique_pos _ _ ix); lia).
    rewrite Hjm, Hfirst in Hj by lia. done.
  - pose proof (rep_set_bit b n s (ix * 32 + o) w (Z.lxor w (bit_mask o)) false) as Hs.
    rewrite Hdiv, Hmod in Hs. apply Hs; [done|done|done|by apply lxor_mask_range|].
    intros j. rewrite lxor_mask_bit by lia. destruct (Z.eqb_spec j o) as [->|]; [by rewrite Hbit|done].
Qed.

Lemma alloc_loop b n s (d : nat) : ∀ ix fuel,
  bitmap_rep b n s → nwords b = ix + Z.of_nat d → 0 ≤ ix → (d < fuel)%nat →
  (∀ i, i ∈ s → ix * 32 ≤ i) →
  wp (loop fuel (alloc_body (nwords b)) ix) b (alloc_post b n s).
Proof.
  induction d as [|d IH]; intros ix fuel Hr Hnw Hix Hf Hlow; (destruct fuel as [|fuel]; [lia|]).
  - eapply wp_ok; [eapply loop_stop; unfold alloc_body; by rewrite (proj2 (Z.ltb_ge _ _)) by lia|]. right.
    split_and!; try done. apply set_eq. intros i. split; [|set_solver]. intros Hi. exfalso.
    pose proof (Hlow i Hi). pose proof (br_range _ _ _ Hr i Hi) as Hri.
    pose proof (br_nwords _ _ _ Hr) as Hdiv.
    pose proof (Z.div_mod (n + 31) 32 ltac:(lia)). pose proof (Z.mod_pos_bound (n + 31) 32 ltac:(lia)). lia.
  - assert (∃ w, bmap b !! Z.to_nat ix = Some w) as [w E].
    { apply lookup_lt_is_Some. pose proof (br_length _ _ _ Hr). lia. }
    destruct (Z.eqb_spec w 0) as [->|Hne].
    + assert (alloc_body (nwords b) ix b = Ok (inl (ix + 1), b)) as Ebody.
      { unfold alloc_body. rewrite (proj2 (Z.ltb_lt _ _)) by lia.
        by rewrite (bind_ok _ _ _ _ _ (get_word_ok _ _ _ E)). }
      unfold wp. rewrite (loop_next _ _ _ _ _ _ Ebody). apply IH; [done|lia|lia|lia|].
      intros i Hi. pose proof (Hlow i Hi) as Hge. pose proof (br_range _ _ _ Hr i Hi).
      destruct (Z.le_gt_cases ((ix + 1) * 32) i) as [|Hlt]; [done|]. exfalso.
      apply (rep_zero_word _ _ _ _ Hr Hix E i); [|lia|done].
      symmetry. apply (Z.div_unique_pos _ _ _ (i - ix * 32)); lia.
    + destruct (alloc_take b n s ix w Hr ltac:(lia) Hlow E Hne) as (o & b' & E1 & E2 & Hpost).
      eapply wp_ok; [|exact Hpost]. eapply loop_stop. unfold alloc_body. rewrite (proj2 (Z.ltb_lt _ _)) by lia.
      rewrite (bind_ok _ _ _ _ _ (get_word_ok _ _ _ E)), (proj2 (Z.eqb_neq _ _) Hne). cbn [negb].
      rewrite (bind_ok _ _ _ _ _ E1), (bind_ok _ _ _ _ _ E2). done.
Qed.

Lemma bitmap_alloc_ok b n s : bitmap_rep b n s → wp bitmap_alloc b (alloc_post b n s).
Proof.
  intros Hr. unfold bitmap_alloc. apply wp_bind, wp_get.
  pose proof (br_length _ _ _ Hr). apply (alloc_loop b n s (Z.to_nat (nwords b))); try done; try lia.
  intros i Hi. pose proof (br_range _ _ _ Hr i Hi). lia.
Qed.

(** ** [bitmap_create] *)

Lemma overbits_loop ix (d : nat) : ∀ b o w fuel,
  o = 32 - Z.of_nat d → (d ≤ 32)%nat → (d < fuel)%nat →
  bmap b !! Z.to_nat ix = Some w → 0 ≤ w < 2 ^ 32 →
  ∃ w', loop fuel (overbits_body ix) o b =
      Ok (tt, b <| bmap := <[Z.to_nat ix := w']> (bmap b) |>) ∧ 0 ≤ w' < 2 ^ 32 ∧
    ∀ j, Z.testbit w' j = if (o <=? j) && (j <? 32) then negb (Z.testbit w j) else Z.testbit w j.
Proof.
  induction d as [|d IH]; intros b o w fuel Ho Hd Hf E Hw; (destruct fuel as [|fuel]; [lia|]).
  - exists w. erewrite loop_stop.
    2: { unfold overbits_body, WORD_BITS. by rewrite (proj2 (Z.ltb_ge _ _)) by lia. }
    rewrite list_insert_id by done. split_and!; [by destruct b|lia|lia|].
    intros j. destruct (Z.leb_spec o j), (Z.ltb_spec j 32); try done. lia.
  - erewrite loop_next.
    2: { unfold overbits_body, WORD_BITS. rewrite (proj2 (Z.ltb_lt _ _)) by lia.
         rewrite (bind_ok _ _ _ _ _ (get_word_ok _ _ _ E)). by rewrite (bind_ok _ _ _ _ _ (set_word_ok _ _ _ _ E)). }
    set (b1 := b <| bmap := <[Z.to_nat ix := Z.lxor w (bit_mask o)]> (bmap b) |>).
    destruct (IH b1 (o + 1) (Z.lxor w (bit_mask o)) fuel) as (w' & E' & Hw' & Hb); [lia|lia|lia| | |].
    { simpl. apply list_lookup_insert_eq. by apply (lookup_lt_Some _ _ w). }
    { apply lxor_mask_range; lia. }
    exists w'. rewrite E'. simpl. rewrite list_insert_insert_eq. split_and!; [done|lia|lia|].
    intros j. rewrite Hb, lxor_mask_bit by lia.
    destruct (Z.leb_spec (o + 1) j), (Z.ltb_spec j 32), (Z.leb_spec o j), (Z.eqb_spec j o); simpl;
      try done; try lia.
Qed.

(** The blocks [0 .. n-1]. *)
Definition all_blocks (n : Z) : gset Z := list_to_set (seqZ 0 n).

Lemma elem_of_all_blocks n i : i ∈ all_blocks n ↔ 0 ≤ i < n.
Proof. unfold all_blocks. rewrite elem_of_list_to_set, elem_of_seqZ. lia. Qed.

Lemma ones_bit j : Z.testbit (2 ^ 32 - 1) j = (0 <=? j) && (j <? 32).
Proof.
  replace (2 ^ 32 - 1) with (Z.ones 32) by done. destruct (Z.leb_spec 0 j); simpl.
  - destruct (Z.ltb_spec j 32); [by apply Z.ones_spec_low|by apply Z.ones_spec_high; lia].
  - by apply Z.testbit_neg_r.
Qed.

Lemma bit_ones n i :
  0 ≤ i → bit (replicate n (2 ^ 32 - 1)) i = bool_decide (i < 32 * Z.of_nat n).
Proof.
  intros Hi. unfold bit, WORD_BITS. pose proof (Z.mod_pos_bound i 32 ltac:(lia)).
  pose proof (Z.div_mod i 32 ltac:(lia)). pose proof (Z.div_pos i 32 Hi ltac:(lia)).
  destruct (replicate n (2 ^ 32 - 1) !! Z.to_nat (i / 32)) as [w|] eqn:E.
  - apply lookup_replicate in E as [-> Hlt]. rewrite ones_bit.
    rewrite (proj2 (Z.leb_le _ _)), (proj2 (Z.ltb_lt _ _)) by lia. symmetry. apply bool_decide_eq_true. lia.
  - apply lookup_replicate_None in E. symmetry. apply bool_decide_eq_false. lia.
Qed.

(** The words of a full bitmap whose last word may be cut. *)
Lemma full_rep n nw l :
  0 < n < 2 ^ 31 → nw = (n + 31) / 32 → Z.of_nat (length l) = nw → (∀ w, w ∈ l → 0 ≤ w < 2 ^ 32) →
  (∀ i, 0 ≤ i → bit l i = bool_decide (i < n)) → bitmap_rep (mk_bitmap n nw l) n (all_blocks n).
Proof.
  intros Hn Hnw Hlen Hw Hb. constructor; simpl; try done.
  - intros i Hi. rewrite elem_of_all_blocks, Hb, bool_decide_eq_true by done. lia.
  - intros i. by rewrite elem_of_all_blocks.
Qed.

Lemma bitmap_create_ok avail1 avail2 n b0 :
  0 < n ≤ 2 ^ 20 →
  ∃ b, bitmap_create avail1 avail2 n b0 = Ok (avail1 && avail2, b) ∧
    (avail1 && avail2 = true → bitmap_rep b n (all_blocks n)).
Proof.
  intros Hn. unfold bitmap_create. rewrite (u32_id (n + WORD_BITS)) by (unfold WORD_BITS; lia).
  rewrite (proj2 (Z.eqb_neq n 0)), (proj2 (Z.ltb_lt n (n + WORD_BITS))) by (unfold WORD_BITS; lia).
  rewrite (bind_ok _ _ _ _ _ eq_refl).
  rewrite (bind_ok _ _ _ _ _ (kmalloc_ok avail1 12 b0 ltac:(done))).
  destruct avail1; cbn [andb]; [|by exists b0].
  set (nw := ROUNDUP_DIV n WORD_BITS). cbv zeta.
  assert (nw = (n + 31) / 32) as Hnw.
  { unfold nw, ROUNDUP_DIV, WORD_BITS. rewrite u32_id by lia. f_equal. lia. }
  pose proof (Z.mod_pos_bound (n + 31) 32 ltac:(lia)) as Hm. pose proof (Z.div_mod (n + 31) 32 ltac:(lia)) as Hd.
  rewrite <-Hnw in Hd. rewrite (u32_id (4 * nw)) by lia.
  rewrite (bind_ok _ _ _ _ _ (kmalloc_ok avail2 (4 * nw) b0 ltac:(lia))).
  destruct avail2; [|by exists b0].
  rewrite (bind_ok _ _ _ _ _ eq_refl). set (b1 := mk_bitmap n nw _).
  rewrite (u32_id (nw * WORD_BITS)) by (unfold WORD_BITS; lia). unfold WORD_BITS.
  destruct (Z.eqb_spec n (nw * 32)) as [He|Hne]; cbn [negb].
  { rewrite (bind_ok _ _ _ _ _ eq_refl). exists b1. split; [done|]. intros _. apply full_rep; try done; [lia| | |].
    - rewrite length_replicate. lia.
    - intros w Hw. apply elem_of_replicate in Hw as [-> _]. lia.
    - intros i Hi. rewrite bit_ones by done. apply bool_decide_ext. lia. }
  assert (n / 32 = nw - 1) as Hdiv by (symmetry; apply (Z.div_unique_pos _ _ _ (n - (nw - 1) * 32)); lia).
  set (o := n - (nw - 1) * 32) in *.
  assert ((0 <? o) && (o <? 32) = true) as -> by (apply andb_true_intro; split; apply Z.ltb_lt; lia).
  rewrite Hdiv, Z.eqb_refl.
  assert (bmap b1 !! Z.to_nat (nw - 1) = Some (2 ^ 32 - 1)) as Hw.
  { simpl. apply lookup_replicate. split; [done|lia]. }
  destruct (overbits_loop (nw - 1) (Z.to_nat (32 - o)) b1 o (2 ^ 32 - 1) (S (Z.to_nat (32 - o)))) as
    (w' & E & Hw' & Hb); [lia|lia|lia|done|lia|].
  assert (mark_overbits (nw - 1) o b1 = _) as Emark by exact E.
  rewrite (bind_ok (_ ≫= _) _ b1 tt _ Emark).
  assert (length (bmap b1) = Z.to_nat nw) as Hl by apply length_replicate.
  eexists. split; [done|]. intros _. apply (full_rep n nw); try done; [lia| | |].
  - rewrite length_insert, Hl. lia.
  - intros w Hin. apply list_elem_of_lookup in Hin as [k Hk].
    apply list_lookup_insert_Some in Hk as [(_ & <- & _)|[_ Hk]]; [done|].
    apply lookup_replicate in Hk as [-> _]. lia.
  - intros i Hi. rewrite bit_insert by lia. unfold b1. cbn [bmap]. rewrite bit_ones by done.
    pose proof (Z.mod_pos_bound i 32 ltac:(lia)). pose proof (Z.div_mod i 32 ltac:(lia)).
    pose proof (Z.div_pos i 32 Hi ltac:(lia)).
    destruct (decide (Z.to_nat (i / 32) = Z.to_nat (nw - 1))) as [Heq|Hneq]; [|apply bool_decide_ext; lia].
    rewrite Hb, ones_bit. rewrite (proj2 (Z.leb_le 0 _)), (proj2 (Z.ltb_lt (i mod 32) _)) by lia.
    destruct (Z.leb_spec o (i mod 32)); simpl; symmetry; [apply bool_decide_eq_false|apply bool_decide_eq_true]; lia.
Qed.

(** C37.  A bitmap is a set of free blocks.  [bitmap_create] of 1 to 2^20 bits
    makes every block free, or fails for want of memory.  From then on
    [bitmap_alloc] returns the least free block, which is free no longer, and
    [-E_NO_MEM] exactly when no block is free; [bitmap_test] tells whether a
    block is free; [bitmap_free] frees a block in use and no other, and panics
    on a free block or one out of range.  No operation runs out of fuel. *)
Theorem bitmap_is_set :
  (∀ avail1 avail2 n b0, 0 < n ≤ 2 ^ 20 →
    ∃ b, bitmap_create avail1 avail2 n b0 = Ok (avail1 && avail2, b) ∧
      (avail1 && avail2 = true → bitmap_rep b n (all_blocks n))) ∧
  ∀ b n s, bitmap_rep b n s →
    wp bitmap_alloc b (alloc_post b n s) ∧
    ∀ i, 0 ≤ i →
      (i < n → bitmap_test i b = Ok (bool_decide (i ∈ s), b)) ∧
      (i < n → i ∉ s → ∃ b', bitmap_free i b = Ok (tt, b') ∧ bitmap_rep b' n ({[i]} ∪ s)) ∧
      (i ∈ s ∨ n ≤ i → bitmap_free i b = Err Panic).
Proof.
  split; [apply bitmap_create_ok|]. intros b n s Hr. split; [by apply bitmap_alloc_ok|].
  intros i Hi. split_and!.
  - intros ?. by apply (bitmap_test_ok b n s).
  - intros ??. by apply (bitmap_free_ok b n s).
  - by apply bitmap_free_panics.
Qed.
