(* ===== verification/CString.v ===== *)
(** * Strings and memory blocks

    [libs/string.c] and [__memmove] of [arch/arm/libs/memmove.c] over byte
    memory.  A load or a store outside the mapped addresses is a [Fault]; a
    null-terminated scan therefore takes at most as many steps as there are
    mapped bytes, which is its fuel.  [char] is unsigned on ARM.  The routines
    an architecture replaces are the members of [StringArch], one for each
    [#ifdef __HAVE_ARCH_...]; on ARM [__memset] and [__memcpy] are assembly,
    and arguments here. *)

From S2P Require Import Prelude Mem Slab.

Notation mem := (gmap Z Z).

Definition load (a : Z) : M mem Z := deref (λ m, m !! a).
Definition store (a b : Z) : M mem unit := _ ← load a; modify (λ m, <[a := b]> m).

(** A scan that a null character ends. *)
Definition scan {A B} (body : A → M mem (A + B)) (a : A) : M mem B :=
  m ← get; loop (S (size m)) body a.
(** A loop that runs at most [n] times. *)
Definition count {A B} (n : Z) (body : A → M mem (A + B)) (a : A) : M mem B :=
  loop (S (Z.to_nat n)) body a.

Definition strlen_body (p : Z * Z) : M mem (Z * Z + Z) :=
  let '(s, cnt) := p in
  c ← load s;
  mret (if c =? 0 then inr cnt else inl (s + 1, cnt + 1)).
Definition strlen (s : Z) : M mem Z := scan strlen_body (s, 0).

Definition strnlen_body (len : Z) (p : Z * Z) : M mem (Z * Z + Z) :=
  let '(s, cnt) := p in
  if cnt <? len then
    c ← load s;
    mret (if c =? 0 then inr cnt else inl (s + 1, cnt + 1))
  else mret (inr cnt).
Definition strnlen (s len : Z) : M mem Z := scan (strnlen_body len) (s, 0).

Definition strcpy_body (p : Z * Z) : M mem (Z * Z + unit) :=
  let '(d, s) := p in
  c ← load s;
  _ ← store d c;
  mret (if c =? 0 then inr tt else inl (d + 1, s + 1)).
Definition strcpy (dst src : Z) : M mem Z := _ ← scan strcpy_body (dst, src); mret dst.

Definition strncpy_body (p : Z * Z * Z) : M mem (Z * Z * Z + unit) :=
  let '(d, s, len) := p in
  if 0 <? len then
    c ← load s;
    _ ← store d c;
    mret (inl (d + 1, if c =? 0 then s else s + 1, len - 1))
  else mret (inr tt).
Definition strncpy (dst src len : Z) : M mem Z :=
  _ ← count len strncpy_body (dst, src, len); mret dst.

Definition strcat (dst src : Z) : M mem Z :=
  n ← strlen dst; strcpy (dst + n) src.

Definition strcmp_body (p : Z * Z) : M mem (Z * Z + Z) :=
  let '(s1, s2) := p in
  c1 ← load s1; c2 ← load s2;
  mret (if negb (c1 =? 0) && (c1 =? c2) then inl (s1 + 1, s2 + 1) else inr (c1 - c2)).
Definition strcmp (s1 s2 : Z) : M mem Z := scan strcmp_body (s1, s2).

Definition strncmp_body (p : Z * Z * Z) : M mem (Z * Z * Z + Z) :=
  let '(s1, s2, n) := p in
  if 0 <? n then
    c1 ← load s1; c2 ← load s2;
    mret (if negb (c1 =? 0) && (c1 =? c2) then inl (s1 + 1, s2 + 1, n - 1) else inr (c1 - c2))
  else mret (inr 0).
Definition strncmp (s1 s2 n : Z) : M mem Z := count n strncmp_body (s1, s2, n).

Definition strchr_body (c s : Z) : M mem (Z + option Z) :=
  x ← load s;
  mret (if x =? 0 then inr None else if x =? c then inr (Some s) else inl (s + 1)).
Definition strchr (s c : Z) : M mem (option Z) := scan (strchr_body c) s.

Definition strfind_body (c s : Z) : M mem (Z + Z) :=
  x ← load s;
  mret (if x =? 0 then inr s else if x =? c then inr s else inl (s + 1)).
Definition strfind (s c : Z) : M mem Z := scan (strfind_body c) s.

(** The routines of the architecture: [Some] where its header defines
    [__HAVE_ARCH_MEMSET], [__HAVE_ARCH_MEMMOVE] and [__HAVE_ARCH_MEMCPY]. *)
Class StringArch : Type := {
  arch_memset : option (Z → Z → Z → M mem Z);
  arch_memmove : option (Z → Z → Z → M mem Z);
  arch_memcpy : option (Z → Z → Z → M mem Z);
}.
Definition portable : StringArch := {| arch_memset := None; arch_memmove := None; arch_memcpy := None |}.

Definition memset_body (c : Z) (p : Z * Z) : M mem (Z * Z + unit) :=
  let '(d, n) := p in
  if 0 <? n then _ ← store d c; mret (inl (d + 1, n - 1)) else mret (inr tt).
Definition memset `{!StringArch} (s c n : Z) : M mem Z :=
  match arch_memset with
  | Some f => f s c n
  | None => _ ← count n (memset_body c) (s, n); mret s
  end.

(** The ascending and the descending copy of [memmove]; [memcpy] ascends. *)
Definition forward_body (p : Z * Z * Z) : M mem (Z * Z * Z + unit) :=
  let '(d, s, n) := p in
  if 0 <? n then c ← load s; _ ← store d c; mret (inl (d + 1, s + 1, n - 1))
  else mret (inr tt).
Definition backward_body (p : Z * Z * Z) : M mem (Z * Z * Z + unit) :=
  let '(d, s, n) := p in
  if 0 <? n then c ← load (s - 1); _ ← store (d - 1) c; mret (inl (d - 1, s - 1, n - 1))
  else mret (inr tt).

Definition memcpy `{!StringArch} (dst src n : Z) : M mem Z :=
  match arch_memcpy with
  | Some f => f dst src n
  | None => _ ← count n forward_body (dst, src, n); mret dst
  end.
Definition memmove `{!StringArch} (dst src n : Z) : M mem Z :=
  match arch_memmove with
  | Some f => f dst src n
  | None =>
      _ ← (if (src <? dst) && (dst <? src + n)
           then count n backward_body (dst + n, src + n, n)
           else count n forward_body (dst, src, n));
      mret dst
  end.

(** The ARM port: [__memmove] over the assembly [__memcpy]. *)
Definition __memmove (__memcpy : Z → Z → Z → M mem Z) (dst src n : Z) : M mem Z :=
  if dst <? src then __memcpy dst src n
  else
    _ ← (if (src <? dst) && (dst <? src + n)
         then count n backward_body (dst + n, src + n, n)
         else count n forward_body (dst, src, n));
    mret dst.
Definition arm (__memset __memcpy : Z → Z → Z → M mem Z) : StringArch :=
  {| arch_memset := Some __memset; arch_memmove := Some (__memmove __memcpy); arch_memcpy := Some __memcpy |}.

Definition memcmp_body (p : Z * Z * Z) : M mem (Z * Z * Z + Z) :=
  let '(s1, s2, n) := p in
  if 0 <? n then
    c1 ← load s1; c2 ← load s2;
    mret (if negb (c1 =? c2) then inr (c1 - c2) else inl (s1 + 1, s2 + 1, n - 1))
  else mret (inr 0).
Definition memcmp (v1 v2 n : Z) : M mem Z := count n memcmp_body (v1, v2, n).

(** [(c > 'Z') ? (c - 32) : c] *)
Definition upcase (c : Z) : Z := if 90 <? c then c - 32 else c.
Definition stricmp_body (p : Z * Z) : M mem (Z * Z + Z) :=
  let '(s1, s2) := p in
  c1 ← load s1; c2 ← load s2;
  mret (if negb (c1 =? 0) && (upcase c1 =? upcase c2)
        then inl (s1 + 1, s2 + 1) else inr (upcase c1 - upcase c2)).
Definition stricmp (s1 s2 : Z) : M mem Z := scan stricmp_body (s1, s2).

(** [strdup] and [stradd]: [fresh] is the answer of [kmalloc], [None] when it
    fails. *)
Definition strdup `{!StringArch} (fresh : option Z) (src : Z) : M mem (option Z) :=
  len ← strlen src;
  p ← kmalloc (bool_decide (is_Some fresh)) (u32 (len + 1));
  match p, fresh with
  | Some _, Some dst =>
      _ ← memcpy dst src len;
      _ ← store (dst + len) 0;
      mret (Some dst)
  | _, _ => mret None
  end.
Definition stradd `{!StringArch} (fresh : option Z) (src1 src2 : Z) : M mem (option Z) :=
  len1 ← strlen src1; len2 ← strlen src2;
  p ← kmalloc (bool_decide (is_Some fresh)) (u32 (len1 + len2 + 1));
  match p, fresh with
  | Some _, Some dst =>
      _ ← memcpy dst src1 len1;
      _ ← memcpy (dst + len1) src2 len2;
      _ ← store (dst + len1 + len2) 0;
      mret (Some dst)
  | _, _ => mret None
  end.

(** *** [strtol] *)
Definition skip_blanks_body (s : Z) : M mem (Z + Z) :=
  c ← load s; mret (if (c =? 32) || (c =? 9) then inl (s + 1) else inr s).

Definition digit_of (c : Z) : option Z :=
  if (48 <=? c) && (c <=? 57) then Some (c - 48)
  else if (97 <=? c) && (c <=? 122) then Some (c - 97 + 10)
  else if (65 <=? c) && (c <=? 90) then Some (c - 65 + 10)
  else None.

Definition digits_body (base : Z) (p : Z * Z) : M mem (Z * Z + Z * Z) :=
  let '(s, val) := p in
  c ← load s;
  mret (match digit_of c with
        | Some dig => if base <=? dig then inr (s, val) else inl (s + 1, s32 (val * base + dig))
        | None => inr (s, val)
        end).

(** The base and where the digits start: [s[1]] is read when [s[0]] is ['0']. *)
Definition strtol_base (s base : Z) : M mem (Z * Z) :=
  c0 ← load s;
  hex ← (if ((base =? 0) || (base =? 16)) && (c0 =? 48)
         then c1 ← load (s + 1); mret (c1 =? 120) else mret false);
  mret (if hex : bool then (s + 2, 16)
        else if (base =? 0) && (c0 =? 48) then (s + 1, 8)
        else if base =? 0 then (s, 10) else (s, base)).

(** The value and [*endptr]. *)
Definition strtol (s base : Z) : M mem (Z * Z) :=
  s ← scan skip_blanks_body s;
  c ← load s;
  let '(s, neg) := if c =? 43 then (s + 1, false) else if c =? 45 then (s + 1, true) else (s, false) in
  sb ← strtol_base s base;
  r ← scan (digits_body sb.2) (sb.1, 0);
  mret (if neg then s32 (- r.2) else r.2, r.1).
