(* ===== verification/CStringSpec.v ===== *)
(** * What the string routines do

    A block of memory is seen as the list of its bytes ([bytes_at]), a C
    string as the list of its characters ([str_at]).  Every routine is proved
    to return, with its fuel, and its result and the bytes it leaves are given
    by a function on lists. *)

From S2P Require Import Prelude Mem Slab CString.

Definition bytes_at (m : mem) (a : Z) (l : list Z) : Prop :=
  ∀ (i : nat) c, l !! i = Some c → m !! (a + Z.of_nat i) = Some c.
Definition mapped (m : mem) (a n : Z) : Prop := ∀ x, a ≤ x < a + n → is_Some (m !! x).
Definition chars (l : list Z) : Prop := Forall (λ c, 0 < c < 256) l.
Definition str_at (m : mem) (a : Z) (l : list Z) : Prop := bytes_at m a (l ++ [0]) ∧ chars l.

Lemma bytes_at_app m a l1 l2 :
  bytes_at m a (l1 ++ l2) ↔ bytes_at m a l1 ∧ bytes_at m (a + len l1) l2.
Proof.
  split.
  - intros H. split; intros i c Hi.
    + apply H. by apply lookup_app_l_Some.
    + rewrite <-Z.add_assoc, <-Nat2Z.inj_add. apply H.
      rewrite lookup_app_r by lia. by replace (length l1 + i - length l1)%nat with i by lia.
  - intros [H1 H2] i c Hi. apply lookup_app_Some in Hi as [Hi|[Hge Hi]]; [by apply H1|].
    rewrite <-(H2 _ _ Hi). f_equal. lia.
Qed.

Lemma bytes_at_read m a l : bytes_at m a l ↔ read_bytes m a (length l) = Some l.
Proof.
  revert a. induction l as [|c l IH]; intros a; simpl; [done|].
  change (c :: l) with ([c] ++ l). rewrite bytes_at_app.
  change (len [c]) with 1. cbn [app length read_bytes]. rewrite IH. split.
  - intros [H1 ->]. pose proof (H1 O c eq_refl) as H0. rewrite Z.add_0_r in H0. by rewrite H0.
  - destruct (m !! a) eqn:Ea; simpl; [|done].
    destruct (read_bytes m (a + 1) (length l)) eqn:Er; simpl; [|done]. intros [= -> ->].
    split; [|done]. intros [|[|]] x Hx; simplify_eq/=. by rewrite Z.add_0_r.
Qed.

Lemma bytes_at_write m a l : bytes_at (write_bytes a l m) a l.
Proof. apply bytes_at_read, read_write_bytes. Qed.

Lemma bytes_at_frame m m' a l :
  (∀ x, a ≤ x < a + len l → m' !! x = m !! x) → bytes_at m a l → bytes_at m' a l.
Proof. intros Hx H i c Hi. rewrite Hx; [by apply H|]. apply lookup_lt_Some in Hi. lia. Qed.

Lemma bytes_at_mapped m a l : bytes_at m a l → mapped m a (len l).
Proof.
  intros H x Hx. destruct (lookup_lt_is_Some_2 l (Z.to_nat (x - a))) as [c Hc]; [lia|].
  exists c. rewrite <-(H _ _ Hc). f_equal. lia.
Qed.

Lemma mapped_sub m a n a' n' : mapped m a n → a ≤ a' → a' + n' ≤ a + n → mapped m a' n'.
Proof. intros H ?? x Hx. apply H. lia. Qed.

Lemma mapped_write m a n d l : mapped m a n → mapped (write_bytes d l m) a n.
Proof.
  intros H x Hx. destruct (decide (d ≤ x < d + len l)) as [Hin|Hout].
  - destruct (lookup_lt_is_Some_2 l (Z.to_nat (x - d))) as [c Hc]; [lia|].
    exists c. rewrite <-(write_bytes_inside d l m _ _ Hc). f_equal. lia.
  - rewrite write_bytes_outside by lia. auto.
Qed.

(** There are no more mapped addresses than the map holds. *)
Lemma mapped_size m a n : mapped m a n → n ≤ Z.of_nat (size m).
Proof.
  intros H. rewrite <-(size_dom (D := gset Z)).
  assert (list_to_set (seqZ a n) ⊆ dom m) as Hsub.
  { intros x Hx. apply elem_of_list_to_set, elem_of_seqZ in Hx. by apply elem_of_dom, H. }
  apply subseteq_size in Hsub. rewrite size_list_to_set in Hsub by apply NoDup_seqZ.
  rewrite length_seqZ in Hsub. lia.
Qed.

Lemma str_at_bytes m a l : str_at m a l → bytes_at m a l ∧ m !! (a + len l) = Some 0.
Proof.
  intros [H _]. apply bytes_at_app in H as [H1 H2]. split; [done|].
  pose proof (H2 O 0 eq_refl) as H0. by rewrite Z.add_0_r in H0.
Qed.

Lemma str_at_intro m a l : bytes_at m a l → m !! (a + len l) = Some 0 → chars l → str_at m a l.
Proof.
  intros H1 H2 Hl. split; [|done]. apply bytes_at_app. split; [done|].
  intros [|[|]] c Hc; simplify_eq/=. by rewrite Z.add_0_r.
Qed.

Lemma str_at_size m a l : str_at m a l → len l < Z.of_nat (size m).
Proof.
  intros [H _]. apply bytes_at_mapped, mapped_size in H. rewrite length_app in H. simpl in H. lia.
Qed.

Lemma str_at_frame m m' a l :
  (∀ x, a ≤ x ≤ a + len l → m' !! x = m !! x) → str_at m a l → str_at m' a l.
Proof.
  intros Hx [H Hl]. split; [|done]. eapply bytes_at_frame; [|done].
  rewrite length_app. simpl. intros. apply Hx. lia.
Qed.

Lemma chars_lookup l i c : chars l → l !! i = Some c → 0 < c < 256.
Proof. intros Hl. apply (Forall_lookup_1 _ _ _ _ Hl). Qed.

(** ** Steps *)

(** Two results that differ in arithmetic only. *)
Ltac solve_ret :=
  unfold mret, M_ret; cbn [andb orb negb];
  repeat match goal with
  | |- Ok _ = Ok _ => f_equal
  | |- inl _ = inl _ => f_equal
  | |- inr _ = inr _ => f_equal
  | |- (_, _) = (_, _) => f_equal
  end; try done; lia.

Lemma load_ok m a c : m !! a = Some c → load a m = Ok (c, m).
Proof. intros H. unfold load, deref. by rewrite H. Qed.

Lemma store_ok m a b : is_Some (m !! a) → store a b m = Ok (tt, <[a := b]> m).
Proof. intros [c H]. unfold store. by rewrite (bind_ok _ _ _ _ _ (load_ok _ _ _ H)). Qed.

Lemma load_bind {B} m a c (k : Z → M mem B) : m !! a = Some c → (load a ≫= k) m = k c m.
Proof. intros H. apply bind_ok. by apply load_ok. Qed.
Lemma store_bind {B} m a b (k : unit → M mem B) :
  is_Some (m !! a) → (store a b ≫= k) m = k tt (<[a := b]> m).
Proof. intros H. apply bind_ok. by apply store_ok. Qed.

Lemma write_snoc d l b m : write_bytes d (l ++ [b]) m = <[d + len l := b]> (write_bytes d l m).
Proof. by rewrite write_bytes_app. Qed.

Lemma write_cons_back d b l m :
  write_bytes d (b :: l) m = <[d := b]> (write_bytes (d + 1) l m).
Proof.
  apply map_eq. intros x. simpl. destruct (decide (x = d)) as [->|Hx].
  - rewrite write_bytes_outside by lia. by rewrite !lookup_insert_eq.
  - rewrite lookup_insert_ne by done. destruct (decide (d + 1 ≤ x < d + 1 + len l)).
    + destruct (lookup_lt_is_Some_2 l (Z.to_nat (x - (d + 1)))) as [c Hc]; [lia|].
      replace x with (d + 1 + Z.of_nat (Z.to_nat (x - (d + 1)))) by lia.
      by rewrite !(write_bytes_inside _ _ _ _ _ Hc).
    + rewrite !write_bytes_outside by lia. by apply lookup_insert_ne.
Qed.

(** The element a loop over a list is at. *)
Lemma lookup_lt_ex {A} (l : list A) (i : nat) : (i < length l)%nat → ∃ c, l !! i = Some c.
Proof. apply lookup_lt_is_Some_2. Qed.

(** ** Scans *)

Section scans.
Variables (m : mem) (s : Z) (l : list Z).
Hypothesis Hs : str_at m s l.

Lemma str_char i c : l !! i = Some c → m !! (s + Z.of_nat i) = Some c ∧ (c =? 0) = false.
Proof using Hs.
  intros Hi. destruct (str_at_bytes _ _ _ Hs) as [Hb _]. split; [by apply Hb|].
  apply Z.eqb_neq. pose proof (chars_lookup _ _ _ (proj2 Hs) Hi). lia.
Qed.

Lemma str_end : m !! (s + len l) = Some 0.
Proof using Hs. by apply str_at_bytes. Qed.

(** A scan that passes the first [n] characters and stops at the next. *)
Lemma scan_iter {A B} (body : A → M mem (A + B)) (a : nat → A) (n : nat) b m' :
  (n ≤ length l)%nat →
  (∀ i c, (i < n)%nat → l !! i = Some c → body (a i) m = Ok (inl (a (S i)), m)) →
  body (a n) m = Ok (inr b, m') → scan body (a O) m = Ok (b, m').
Proof using Hs.
  intros Hn Hi Hb. unfold scan. rewrite (bind_ok get _ m m m) by done.
  apply (loop_iter n _ _ a (λ _, m)); [|done|pose proof (str_at_size _ _ _ Hs); lia].
  intros i Hlt. destruct (lookup_lt_ex l i) as [c Hc]; [lia|]. eauto.
Qed.

Lemma strlen_ok : strlen s m = Ok (len l, m).
Proof using Hs.
  unfold strlen.
  pose proof (scan_iter strlen_body (λ i, (s + Z.of_nat i, Z.of_nat i)) (length l)) as Hit.
  simpl in Hit. rewrite Z.add_0_r in Hit. apply Hit; [lia| |].
  - intros i c _ Hc. destruct (str_char _ _ Hc) as [Hm Hz].
    rewrite (load_bind _ _ _ _ Hm), Hz. solve_ret.
  - by rewrite (load_bind _ _ _ _ str_end).
Qed.
End scans.

Lemma count_iter {A B} (N : Z) (body : A → M mem (A + B)) (a : nat → A) (s : nat → mem) (n : nat) b m' :
  Z.of_nat n ≤ N →
  (∀ i, (i < n)%nat → body (a i) (s i) = Ok (inl (a (S i)), s (S i))) →
  body (a n) (s n) = Ok (inr b, m') → count N body (a O) (s O) = Ok (b, m').
Proof. intros Hn Hi Hb. unfold count. apply (loop_iter n); [done|done|lia]. Qed.

(** Of a string, or of the first [n] bytes of a longer block. *)
Lemma strnlen_ok m s l n :
  bytes_at m s l → chars l → (n = len l ∨ len l < n ∧ m !! (s + len l) = Some 0) →
  strnlen s n m = Ok (len l, m).
Proof.
  intros Hb Hl Hn. unfold strnlen, scan. rewrite (bind_ok get _ m m m) by done.
  pose proof (loop_iter (length l) (S (size m)) (strnlen_body n)
    (λ i, (s + Z.of_nat i, Z.of_nat i)) (λ _, m)) as Hit.
  simpl in Hit. rewrite Z.add_0_r in Hit. apply Hit.
  - intros i Hi. destruct (lookup_lt_ex l i Hi) as [c Hc].
    rewrite (proj2 (Z.ltb_lt (Z.of_nat i) n)) by lia. rewrite (load_bind _ _ _ _ (Hb _ _ Hc)).
    pose proof (chars_lookup _ _ _ Hl Hc). rewrite (proj2 (Z.eqb_neq c 0)) by lia. solve_ret.
  - destruct Hn as [->|[Hlt Hz]].
    + by rewrite Z.ltb_irrefl.
    + rewrite (proj2 (Z.ltb_lt (len l) n)) by lia. by rewrite (load_bind _ _ _ _ Hz).
  - apply bytes_at_mapped, mapped_size in Hb. lia.
Qed.

(** ** Comparisons *)

(** The difference of the first bytes that differ; a list that ends first
    counts as followed by a null byte. *)
Fixpoint cmp_bytes (l1 l2 : list Z) : Z :=
  match l1, l2 with
  | [], [] => 0
  | c1 :: _, [] => c1
  | [], c2 :: _ => - c2
  | c1 :: l1', c2 :: l2' => if c1 =? c2 then cmp_bytes l1' l2' else c1 - c2
  end.

(** The lexicographic order. *)
Fixpoint lex_lt (l1 l2 : list Z) : Prop :=
  match l1, l2 with
  | _, [] => False
  | [], _ :: _ => True
  | c1 :: l1', c2 :: l2' => c1 < c2 ∨ c1 = c2 ∧ lex_lt l1' l2'
  end.

Lemma cmp_bytes_lex l1 l2 :
  chars l1 → chars l2 →
  (cmp_bytes l1 l2 = 0 ↔ l1 = l2) ∧ (cmp_bytes l1 l2 < 0 ↔ lex_lt l1 l2) ∧
  (0 < cmp_bytes l1 l2 ↔ lex_lt l2 l1).
Proof.
  intros H1. revert l2. induction H1 as [|c1 l1 Hc1 Hl1 IH]; intros [|c2 l2] H2; simpl.
  - naive_solver lia.
  - apply Forall_cons in H2 as [Hc2 _]. split_and!; split; try done; lia.
  - split_and!; split; try done; lia.
  - apply Forall_cons in H2 as [Hc2 H2]. destruct (Z.eqb_spec c1 c2) as [->|Hne].
    + destruct (IH l2 H2) as (I1 & I2 & I3). rewrite I1, I2, I3. split_and!; split; naive_solver lia.
    + split_and!; split; try naive_solver lia.
Qed.

(** Where two lists part: after [k] equal bytes. *)
Lemma cmp_split l1 l2 : ∃ k : nat,
  (∀ i c, (i < k)%nat → l1 !! i = Some c → l2 !! i = Some c) ∧ (k ≤ length l1)%nat ∧ (k ≤ length l2)%nat ∧
  match l1 !! k, l2 !! k with
  | Some c1, Some c2 => c1 ≠ c2 ∧ cmp_bytes l1 l2 = c1 - c2
  | Some c1, None => cmp_bytes l1 l2 = c1
  | None, Some c2 => cmp_bytes l1 l2 = - c2
  | None, None => cmp_bytes l1 l2 = 0
  end.
Proof.
  revert l2. induction l1 as [|c1 l1 IH]; intros [|c2 l2]; simpl.
  - exists O. split_and!; [lia|lia|lia|done].
  - exists O. split_and!; [lia|lia|lia|done].
  - exists O. split_and!; [lia|lia|lia|done].
  - destruct (Z.eqb_spec c1 c2) as [->|Hne]; [|by exists O; split_and!; [lia|lia|lia|done]].
    destruct (IH l2) as (k & Hk & H1 & H2 & H). exists (S k). split_and!; [|lia|lia|done].
    intros [|i] c Hi; simpl; [done|]. apply Hk. lia.
Qed.

Lemma str_at_char m s l (k : nat) :
  str_at m s l → (k ≤ length l)%nat →
  m !! (s + Z.of_nat k) = Some (default 0 (l !! k)) ∧
  (default 0 (l !! k) =? 0) = bool_decide (k = length l).
Proof.
  intros Hs Hk. destruct (decide (k = length l)) as [->|Hne].
  - rewrite lookup_ge_None_2 by lia. simpl. split; [by apply str_end|by rewrite bool_decide_true].
  - destruct (lookup_lt_ex l k) as [c Hc]; [lia|]. rewrite Hc, bool_decide_false by done. simpl.
    by apply (str_char m s l Hs).
Qed.

Section compare.
Variables (m : mem) (s1 s2 : Z) (l1 l2 : list Z).
Hypothesis Hs1 : str_at m s1 l1.
Hypothesis Hs2 : str_at m s2 l2.

(** [f] is how a character is looked at before it is compared. *)
Lemma cmp_loop (f : Z → Z) (k : nat) :
  f 0 = 0 → (∀ c, 0 < c < 256 → f c ≠ 0) →
  (∀ i c, (i < k)%nat → (f <$> l1) !! i = Some c → (f <$> l2) !! i = Some c) →
  (k ≤ length l1)%nat → (k ≤ length l2)%nat →
  match (f <$> l1) !! k, (f <$> l2) !! k with
  | Some c1, Some c2 => c1 ≠ c2 ∧ cmp_bytes (f <$> l1) (f <$> l2) = c1 - c2
  | Some c1, None => cmp_bytes (f <$> l1) (f <$> l2) = c1
  | None, Some c2 => cmp_bytes (f <$> l1) (f <$> l2) = - c2
  | None, None => cmp_bytes (f <$> l1) (f <$> l2) = 0
  end →
  scan (λ '(a, b), c1 ← load a; c2 ← load b;
    mret (if negb (c1 =? 0) && (f c1 =? f c2) then inl (a + 1, b + 1) else inr (f c1 - f c2))) (s1, s2) m
  = Ok (cmp_bytes (f <$> l1) (f <$> l2), m).
Proof using Hs1 Hs2.
  intros Hf0 Hfc Hk Hk1 Hk2 Hc.
  match goal with |- scan ?b _ _ = _ =>
    pose proof (scan_iter m s1 l1 Hs1 b (λ i, (s1 + Z.of_nat i, s2 + Z.of_nat i)) k) as Hit end.
  simpl in Hit. rewrite !Z.add_0_r in Hit. apply Hit; clear Hit; [done| |].
  - intros i c Hi Hl1. destruct (str_char _ _ _ Hs1 _ _ Hl1) as [Hm Hz].
    assert (Hm2 : ∃ c2, l2 !! i = Some c2 ∧ f c2 = f c).
    { specialize (Hk i (f c) Hi). rewrite !list_lookup_fmap, Hl1 in Hk. specialize (Hk eq_refl).
      destruct (l2 !! i) as [c2|]; [|done]. exists c2. split; [done|]. simpl in Hk. congruence. }
    destruct Hm2 as (c2 & Hl2 & Hcc). destruct (str_char _ _ _ Hs2 _ _ Hl2) as [Hm2 _].
    rewrite (load_bind _ _ _ _ Hm), (load_bind _ _ _ _ Hm2), Hz, Hcc, Z.eqb_refl. simpl negb.
    solve_ret.
  - destruct (str_at_char _ _ _ _ Hs1 Hk1) as [Hm1 Hz1].
    destruct (str_at_char _ _ _ _ Hs2 Hk2) as [Hm2 Hz2].
    rewrite (load_bind _ _ _ _ Hm1), (load_bind _ _ _ _ Hm2), Hz1.
    rewrite !list_lookup_fmap in Hc.
    destruct (decide (k = length l1)) as [Hn1|Hn1]; destruct (decide (k = length l2)) as [Hn2|Hn2]; try rewrite Hn1 in *.
    + rewrite bool_decide_true by done. rewrite !lookup_ge_None_2 in * by lia. simpl in *.
      rewrite Hf0. solve_ret.
    + rewrite bool_decide_true by done. destruct (lookup_lt_ex l2 (length l1)) as [c2 E2]; [lia|].
      rewrite E2 in *. rewrite (lookup_ge_None_2 l1) in * by lia. simpl in *. rewrite Hf0. solve_ret.
    + rewrite bool_decide_false by done. destruct (lookup_lt_ex l1 k) as [c1 E1]; [lia|].
      rewrite E1 in *. rewrite (lookup_ge_None_2 l2) in * by lia. simpl in *. rewrite Hf0.
      pose proof (Hfc c1 (chars_lookup _ _ _ (proj2 Hs1) E1)) as Hne.
      rewrite (proj2 (Z.eqb_neq (f c1) 0)) by done. solve_ret.
    + rewrite bool_decide_false by done. destruct (lookup_lt_ex l1 k) as [c1 E1]; [lia|].
      destruct (lookup_lt_ex l2 k) as [c2 E2]; [lia|]. rewrite E1, E2 in *. simpl in *.
      destruct Hc as [Hne ->]. rewrite (proj2 (Z.eqb_neq (f c1) (f c2))) by done. solve_ret.
Qed.

Lemma strcmp_ok : strcmp s1 s2 m = Ok (cmp_bytes l1 l2, m).
Proof using Hs1 Hs2.
  destruct (cmp_split l1 l2) as (k & Hk & Hk1 & Hk2 & Hc).
  pose proof (cmp_loop (λ c, c) k) as H. rewrite !list_fmap_id in H. by apply H; auto with lia.
Qed.

Lemma upcase_pos c : 0 < c < 256 → upcase c ≠ 0.
Proof using. unfold upcase. destruct (Z.ltb_spec 90 c); lia. Qed.

Lemma stricmp_ok : stricmp s1 s2 m = Ok (cmp_bytes (upcase <$> l1) (upcase <$> l2), m).
Proof using Hs1 Hs2.
  destruct (cmp_split (upcase <$> l1) (upcase <$> l2)) as (k & Hk & Hk1 & Hk2 & Hc).
  rewrite !length_fmap in Hk1, Hk2. by apply (cmp_loop upcase k); auto using upcase_pos.
Qed.
End compare.

(** At most [n] characters. *)
Lemma strncmp_ok m s1 s2 l1 l2 (n : nat) :
  str_at m s1 l1 → str_at m s2 l2 →
  strncmp s1 s2 (Z.of_nat n) m = Ok (cmp_bytes (take n l1) (take n l2), m).
Proof.
  intros Hs1 Hs2. destruct (cmp_split (take n l1) (take n l2)) as (k & Hk & Hk1 & Hk2 & Hc).
  rewrite length_take in Hk1, Hk2.
  pose proof (count_iter (Z.of_nat n) strncmp_body
    (λ i, (s1 + Z.of_nat i, s2 + Z.of_nat i, Z.of_nat n - Z.of_nat i)) (λ _, m) k) as Hit.
  simpl in Hit. rewrite !Z.add_0_r, Z.sub_0_r in Hit. apply Hit; clear Hit; [lia| |].
  - intros i Hi. destruct (lookup_lt_ex l1 i) as [c Hl1]; [lia|].
    assert (Hl2 : l2 !! i = Some c).
    { rewrite <-(lookup_take_lt l2 n) by lia. apply Hk; [done|]. by rewrite lookup_take_lt by lia. }
    destruct (str_char _ _ _ Hs1 _ _ Hl1) as [Hm1 Hz], (str_char _ _ _ Hs2 _ _ Hl2) as [Hm2 _].
    rewrite (proj2 (Z.ltb_lt 0 _)) by lia.
    rewrite (load_bind _ _ _ _ Hm1), (load_bind _ _ _ _ Hm2), Hz, Z.eqb_refl. solve_ret.
  - destruct (decide (k = n)) as [->|Hne].
    { rewrite !(lookup_ge_None_2 (take _ _)) in Hc by (rewrite length_take; lia).
      rewrite (proj2 (Z.ltb_ge 0 _)) by lia. rewrite Hc. done. }
    rewrite (proj2 (Z.ltb_lt 0 _)) by lia. rewrite !lookup_take_lt in Hc by lia.
    destruct (str_at_char _ _ _ k Hs1) as [Hm1 Hz1]; [lia|].
    destruct (str_at_char _ _ _ k Hs2) as [Hm2 Hz2]; [lia|].
    rewrite (load_bind _ _ _ _ Hm1), (load_bind _ _ _ _ Hm2), Hz1.
    destruct (l1 !! k) as [c1|] eqn:E1; destruct (l2 !! k) as [c2|] eqn:E2; simpl in *.
    + rewrite bool_decide_false by (intros ->; by apply lookup_lt_Some in E1; lia).
      destruct Hc as [Hcc ->]. rewrite (proj2 (Z.eqb_neq c1 c2)) by done. solve_ret.
    + rewrite bool_decide_false by (intros ->; by apply lookup_lt_Some in E1; lia).
      pose proof (chars_lookup _ _ _ (proj2 Hs1) E1). rewrite (proj2 (Z.eqb_neq c1 0)) by lia.
      solve_ret.
    + apply lookup_ge_None in E1. rewrite bool_decide_true by lia. solve_ret.
    + apply lookup_ge_None in E1. rewrite bool_decide_true by lia. solve_ret.
Qed.

Lemma memcmp_ok m v1 v2 l1 l2 :
  bytes_at m v1 l1 → bytes_at m v2 l2 → length l1 = length l2 →
  memcmp v1 v2 (len l1) m = Ok (cmp_bytes l1 l2, m).
Proof.
  intros H1 H2 Hlen. destruct (cmp_split l1 l2) as (k & Hk & Hk1 & Hk2 & Hc).
  pose proof (count_iter (len l1) memcmp_body
    (λ i, (v1 + Z.of_nat i, v2 + Z.of_nat i, len l1 - Z.of_nat i)) (λ _, m) k) as Hit.
  simpl in Hit. rewrite !Z.add_0_r, Z.sub_0_r in Hit. apply Hit; clear Hit; [lia| |].
  - intros i Hi. destruct (lookup_lt_ex l1 i) as [c Hl1]; [lia|].
    rewrite (proj2 (Z.ltb_lt 0 _)) by lia.
    rewrite (load_bind _ _ _ _ (H1 _ _ Hl1)), (load_bind _ _ _ _ (H2 _ _ (Hk _ _ Hi Hl1))), Z.eqb_refl.
    solve_ret.
  - destruct (decide (k = length l1)) as [->|Hne].
    { rewrite !lookup_ge_None_2 in Hc by lia. rewrite (proj2 (Z.ltb_ge 0 _)) by lia. by rewrite Hc. }
    destruct (lookup_lt_ex l1 k) as [c1 E1]; [lia|]. destruct (lookup_lt_ex l2 k) as [c2 E2]; [lia|].
    rewrite E1, E2 in Hc. destruct Hc as [Hcc ->]. rewrite (proj2 (Z.ltb_lt 0 _)) by lia.
    rewrite (load_bind _ _ _ _ (H1 _ _ E1)), (load_bind _ _ _ _ (H2 _ _ E2)).
    rewrite (proj2 (Z.eqb_neq c1 c2)) by done. solve_ret.
Qed.

(** ** Searches *)

(** The index of the first [c]. *)
Definition first_index (c : Z) (l : list Z) : option nat := fst <$> list_find (c =.) l.

(** Where a search for [c] stops, and that it passes the characters before. *)
Lemma first_index_cases c l :
  match first_index c l with
  | Some k => l !! k = Some c ∧ ∀ i x, (i < k)%nat → l !! i = Some x → x ≠ c
  | None => ∀ i x, l !! i = Some x → x ≠ c
  end.
Proof.
  unfold first_index. destruct (list_find (c =.) l) as [[k x]|] eqn:E; simpl.
  - apply list_find_Some in E as (E & <- & H). split; [done|].
    intros i y Hi Hy ->. by eapply H.
  - intros i y Hy ->. apply list_find_None in E. rewrite Forall_forall in E.
    by eapply E; [by eapply list_elem_of_lookup_2|].
Qed.

Lemma search_step m s l c i x :
  str_at m s l → l !! i = Some x → x ≠ c →
  m !! (s + Z.of_nat i) = Some x ∧ (x =? 0) = false ∧ (x =? c) = false.
Proof.
  intros Hs Hx Hne. destruct (str_char _ _ _ Hs _ _ Hx). split_and!; try done. by apply Z.eqb_neq.
Qed.

Lemma strchr_ok m s l c :
  str_at m s l → strchr s c m = Ok ((λ k : nat, s + Z.of_nat k) <$> first_index c l, m).
Proof.
  intros Hs. unfold strchr. pose proof (first_index_cases c l) as Hc.
  pose proof (scan_iter m s l Hs (strchr_body c) (λ i, s + Z.of_nat i)) as Hit.
  simpl in Hit. rewrite Z.add_0_r in Hit.
  destruct (first_index c l) as [k|].
  - destruct Hc as [Hk Hlt]. apply (Hit k); [by apply lookup_lt_Some in Hk; lia| |].
    + intros i x Hi Hx. destruct (search_step _ _ _ _ _ _ Hs Hx (Hlt _ _ Hi Hx)) as (Hm & Hz & Hn).
      unfold strchr_body. rewrite (load_bind _ _ _ _ Hm), Hz, Hn. solve_ret.
    + destruct (str_char _ _ _ Hs _ _ Hk) as [Hm Hz].
      unfold strchr_body. by rewrite (load_bind _ _ _ _ Hm), Hz, Z.eqb_refl.
  - apply (Hit (length l)); [done| |].
    + intros i x Hi Hx. destruct (search_step _ _ _ _ _ _ Hs Hx (Hc _ _ Hx)) as (Hm & Hz & Hn).
      unfold strchr_body. rewrite (load_bind _ _ _ _ Hm), Hz, Hn. solve_ret.
    + unfold strchr_body. by rewrite (load_bind _ _ _ _ (str_end _ _ _ Hs)).
Qed.

Lemma strfind_ok m s l c :
  str_at m s l → strfind s c m = Ok (s + Z.of_nat (default (length l) (first_index c l)), m).
Proof.
  intros Hs. unfold strfind. pose proof (first_index_cases c l) as Hc.
  set (k := default (length l) (first_index c l)).
  assert (Hk : (k ≤ length l)%nat ∧ ∀ i x, (i < k)%nat → l !! i = Some x → x ≠ c).
  { subst k. destruct (first_index c l) as [k|]; simpl; [|naive_solver].
    destruct Hc as [Hk ?]. split; [by apply lookup_lt_Some in Hk; lia|done]. }
  destruct Hk as [Hk Hlt].
  pose proof (scan_iter m s l Hs (strfind_body c) (λ i, s + Z.of_nat i) k (s + Z.of_nat k) m Hk) as Hit.
  simpl in Hit. rewrite Z.add_0_r in Hit. apply Hit.
  - intros i x Hi Hx. destruct (search_step _ _ _ _ _ _ Hs Hx (Hlt _ _ Hi Hx)) as (Hm & Hz & Hn).
    unfold strfind_body. rewrite (load_bind _ _ _ _ Hm), Hz, Hn. solve_ret.
  - unfold strfind_body. destruct (str_at_char _ _ _ _ Hs Hk) as [Hm Hz].
    rewrite (load_bind _ _ _ _ Hm), Hz. destruct (bool_decide (k = length l)) eqn:E; [done|].
    apply bool_decide_eq_false in E. subst k.
    destruct (first_index c l) as [k|]; simpl in *; [|done]. destruct Hc as [-> _]. simpl.
    by rewrite Z.eqb_refl.
Qed.

(** ** Copies *)

Lemma write_snoc_lookup d (l : list Z) i c m :
  l !! i = Some c →
  write_bytes d (take (S i) l) m = <[d + Z.of_nat i := c]> (write_bytes d (take i l) m).
Proof.
  intros Hi. rewrite (take_S_r _ _ _ Hi), write_snoc, length_take_le; [done|].
  apply lookup_lt_Some in Hi. lia.
Qed.

Lemma mapped_lookup_write m a n d l x :
  mapped m a n → a ≤ x < a + n → is_Some (write_bytes d l m !! x).
Proof. intros H. apply (mapped_write _ _ _ _ _ H). Qed.

(** What [string.c] asks of the routines of an architecture: [memset] fills the
    block, [memcpy] copies between blocks that do not overlap. *)
Definition fills (f : Z → Z → Z → M mem Z) : Prop :=
  ∀ m s c n, mapped m s (Z.of_nat n) → f s c (Z.of_nat n) m = Ok (s, write_bytes s (replicate n c) m).
Definition copies_apart (f : Z → Z → Z → M mem Z) : Prop :=
  ∀ m d s l, bytes_at m s l → mapped m d (len l) → d + len l ≤ s ∨ s + len l ≤ d →
    f d s (len l) m = Ok (d, write_bytes d l m).
Class StringLaws `{!StringArch} : Prop := {
  memset_law f : arch_memset = Some f → fills f;
  memcpy_law f : arch_memcpy = Some f → copies_apart f;
}.
#[export] Instance portable_laws : @StringLaws portable.
Proof. by split. Qed.

Lemma memset_portable m s c n :
  mapped m s (Z.of_nat n) → @memset portable s c (Z.of_nat n) m = Ok (s, write_bytes s (replicate n c) m).
Proof.
  intros Hm. cbv beta iota delta [memset portable arch_memset]. set (l := replicate n c).
  assert (length l = n) as Hl by apply length_replicate.
  pose proof (count_iter (Z.of_nat n) (memset_body c)
    (λ i, (s + Z.of_nat i, Z.of_nat n - Z.of_nat i)) (λ i, write_bytes s (take i l) m) n tt
    (write_bytes s l m)) as Hit.
  simpl in Hit. rewrite Z.add_0_r, Z.sub_0_r in Hit. specialize (Hit ltac:(lia)).
  erewrite bind_ok; [done|apply Hit; clear Hit].
  - intros i Hi. rewrite (proj2 (Z.ltb_lt 0 _)) by lia.
    rewrite store_bind by (eapply mapped_lookup_write; [done|lia]).
    rewrite <-write_snoc_lookup by (by apply lookup_replicate_2). solve_ret.
  - rewrite (proj2 (Z.ltb_ge 0 _)) by lia. by rewrite take_ge by lia.
Qed.

Section copies.
Variables (m : mem) (d s : Z) (l : list Z).
Hypothesis Hsrc : bytes_at m s l.
Hypothesis Hdst : mapped m d (len l).

(** Reading ahead of the part already written. *)
Lemma copy_source i c :
  d ≤ s ∨ s + len l ≤ d → l !! i = Some c → write_bytes d (take i l) m !! (s + Z.of_nat i) = Some c.
Proof using Hsrc.
  intros Hds Hi. rewrite write_bytes_outside; [by apply Hsrc|].
  pose proof (lookup_lt_Some _ _ _ Hi). rewrite length_take_le by lia. lia.
Qed.

Lemma forward_ok :
  d ≤ s ∨ s + len l ≤ d → count (len l) forward_body (d, s, len l) m = Ok (tt, write_bytes d l m).
Proof using Hsrc Hdst.
  intros Hds.
  pose proof (count_iter (len l) forward_body
    (λ i, (d + Z.of_nat i, s + Z.of_nat i, len l - Z.of_nat i)) (λ i, write_bytes d (take i l) m)
    (length l) tt (write_bytes d l m)) as Hit.
  simpl in Hit. rewrite !Z.add_0_r, Z.sub_0_r in Hit. apply Hit; clear Hit; [lia| |].
  - intros i Hi. destruct (lookup_lt_ex l i Hi) as [c Hc].
    rewrite (proj2 (Z.ltb_lt 0 _)) by lia. rewrite (load_bind _ _ _ _ (copy_source _ _ Hds Hc)).
    rewrite store_bind by (eapply mapped_lookup_write; [done|lia]).
    rewrite <-write_snoc_lookup by done. solve_ret.
  - rewrite (proj2 (Z.ltb_ge 0 _)) by lia. by rewrite take_ge by lia.
Qed.

(** The descending copy: after [i] rounds the last [i] bytes are in place. *)
Lemma backward_ok :
  s ≤ d → count (len l) backward_body (d + len l, s + len l, len l) m = Ok (tt, write_bytes d l m).
Proof using Hsrc Hdst.
  intros Hds.
  pose proof (count_iter (len l) backward_body
    (λ i, (d + len l - Z.of_nat i, s + len l - Z.of_nat i, len l - Z.of_nat i))
    (λ i, write_bytes (d + Z.of_nat (length l - i)) (drop (length l - i) l) m)
    (length l) tt (write_bytes d l m)) as Hit.
  simpl in Hit. rewrite !Z.sub_0_r, Nat.sub_0_r, drop_all in Hit. apply Hit; clear Hit; [lia| |].
  - intros i Hi. set (j := (length l - S i)%nat).
    assert (length l - i = S j)%nat as -> by lia.
    destruct (lookup_lt_ex l j) as [c Hc]; [lia|].
    replace (s + len l - Z.of_nat i - 1) with (s + Z.of_nat j) by lia.
    replace (d + len l - Z.of_nat i - 1) with (d + Z.of_nat j) by lia.
    rewrite (proj2 (Z.ltb_lt 0 _)) by lia. rewrite (load_bind _ _ c).
    2:{ rewrite write_bytes_outside by lia. by apply Hsrc. }
    rewrite store_bind by (eapply mapped_lookup_write; [done|lia]).
    rewrite (drop_S _ _ _ Hc), write_cons_back.
    replace (d + Z.of_nat (S j)) with (d + Z.of_nat j + 1) by lia. solve_ret.
  - rewrite (proj2 (Z.ltb_ge 0 _)) by lia. by rewrite Nat.sub_diag, Z.add_0_r.
Qed.

Lemma memcpy_portable : d ≤ s ∨ s + len l ≤ d → @memcpy portable d s (len l) m = Ok (d, write_bytes d l m).
Proof using Hsrc Hdst. intros Hds. cbv beta iota delta [memcpy portable arch_memcpy]. by rewrite (bind_ok _ _ _ _ _ (forward_ok Hds)). Qed.

Lemma move_loops_ok :
  (_ ← (if (s <? d) && (d <? s + len l)
        then count (len l) backward_body (d + len l, s + len l, len l)
        else count (len l) forward_body (d, s, len l));
   mret d : M mem Z) m = Ok (d, write_bytes d l m).
Proof using Hsrc Hdst.
  destruct ((s <? d) && (d <? s + len l)) eqn:E.
  - apply andb_true_iff in E as [E1%Z.ltb_lt E2%Z.ltb_lt]. by rewrite (bind_ok _ _ _ _ _ (backward_ok ltac:(lia))).
  - apply andb_false_iff in E as [E%Z.ltb_ge|E%Z.ltb_ge];
      by rewrite (bind_ok _ _ _ _ _ (forward_ok ltac:(lia))).
Qed.

Lemma memcpy_ok `{!StringArch} `{!StringLaws} : d + len l ≤ s ∨ s + len l ≤ d → memcpy d s (len l) m = Ok (d, write_bytes d l m).
Proof using Hsrc Hdst.
  intros Hds. destruct arch_memcpy as [f|] eqn:E; [|unfold memcpy; rewrite E; by rewrite (bind_ok _ _ _ _ _ (forward_ok ltac:(lia)))].
  unfold memcpy. rewrite E. by apply (memcpy_law f E).
Qed.

Lemma arm_memmove_ok f :
  copies_apart f → ¬ (d < s < d + len l) → __memmove f d s (len l) m = Ok (d, write_bytes d l m).
Proof using Hsrc Hdst.
  intros Hf Hds. unfold __memmove. destruct (Z.ltb_spec d s); [apply Hf; [done|done|lia]|apply move_loops_ok].
Qed.
End copies.

(** [strcpy] copies the characters and the null. *)
Lemma strcpy_ok m d s l :
  str_at m s l → mapped m d (len l + 1) → d ≤ s ∨ s + len l < d →
  strcpy d s m = Ok (d, write_bytes d (l ++ [0]) m).
Proof.
  intros Hs Hd Hds. unfold strcpy, scan.
  assert (Hl1 : len (l ++ [0]) = len l + 1) by (rewrite length_app; simpl; lia).
  assert (Hz : (l ++ [0]) !! length l = Some 0) by (by apply list_lookup_middle).
  pose proof (loop_iter (length l) (S (size m)) strcpy_body
    (λ i, (d + Z.of_nat i, s + Z.of_nat i)) (λ i, write_bytes d (take i (l ++ [0])) m)) as Hit.
  simpl in Hit. rewrite !Z.add_0_r in Hit.
  rewrite (bind_ok _ _ m tt (write_bytes d (l ++ [0]) m)); [done|].
  rewrite (bind_ok get _ m m m) by done. apply Hit; clear Hit.
  - intros i Hi. destruct (lookup_lt_ex l i Hi) as [c Hc].
    assert (Hc' : (l ++ [0]) !! i = Some c) by (by apply lookup_app_l_Some).
    rewrite (load_bind _ _ _ _ (copy_source m d s _ (proj1 Hs) _ _ ltac:(lia) Hc')).
    rewrite store_bind by (eapply mapped_lookup_write; [done|lia]).
    pose proof (chars_lookup _ _ _ (proj2 Hs) Hc). rewrite (proj2 (Z.eqb_neq c 0)) by lia.
    rewrite <-write_snoc_lookup by done. solve_ret.
  - rewrite (load_bind _ _ _ _ (copy_source m d s _ (proj1 Hs) _ _ ltac:(lia) Hz)).
    rewrite store_bind by (eapply mapped_lookup_write; [done|lia]).
    rewrite <-write_snoc_lookup by done. rewrite take_ge by (rewrite length_app; simpl; lia). done.
  - pose proof (str_at_size _ _ _ Hs). lia.
Qed.

Lemma strcat_ok m d s l1 l2 :
  str_at m d l1 → str_at m s l2 → mapped m (d + len l1) (len l2 + 1) →
  d + len l1 ≤ s ∨ s + len l2 < d + len l1 →
  strcat d s m = Ok (d + len l1, write_bytes (d + len l1) (l2 ++ [0]) m).
Proof.
  intros Hd Hs Hm Hds. unfold strcat. rewrite (bind_ok _ _ _ _ _ (strlen_ok _ _ _ Hd)).
  by apply strcpy_ok.
Qed.

(** [strncpy] copies [n] characters, or the string padded with nulls. *)
Definition padded (n : nat) (l : list Z) : list Z := take n (l ++ replicate n 0).

Lemma padded_length n l : length (padded n l) = n.
Proof. unfold padded. rewrite length_take, length_app, length_replicate. lia. Qed.

Lemma padded_lookup n l i : (i < n)%nat → padded n l !! i = Some (default 0 (l !! i)).
Proof.
  intros Hi. unfold padded. rewrite lookup_take_lt by done.
  destruct (l !! i) as [c|] eqn:E; simpl; [by apply lookup_app_l_Some|].
  apply lookup_ge_None in E. rewrite lookup_app_r by lia. apply lookup_replicate_2. lia.
Qed.

Lemma strncpy_ok m d s l n :
  str_at m s l → mapped m d (Z.of_nat n) → d + Z.of_nat n ≤ s ∨ s + len l < d →
  strncpy d s (Z.of_nat n) m = Ok (d, write_bytes d (padded n l) m).
Proof.
  intros Hs Hd Hds. unfold strncpy. pose proof (padded_length n l) as Hpl.
  pose proof (count_iter (Z.of_nat n) strncpy_body
    (λ i, (d + Z.of_nat i, s + Z.of_nat (Nat.min i (length l)), Z.of_nat n - Z.of_nat i))
    (λ i, write_bytes d (take i (padded n l)) m) n tt (write_bytes d (padded n l) m)) as Hit.
  simpl in Hit. rewrite !Z.add_0_r, Z.sub_0_r in Hit. specialize (Hit ltac:(lia)).
  erewrite bind_ok; [done|apply Hit; clear Hit].
  - intros i Hi. rewrite (proj2 (Z.ltb_lt 0 _)) by lia.
    pose proof (padded_lookup n l i Hi) as Hp.
    destruct (str_at_char _ _ _ (Nat.min i (length l)) Hs ltac:(lia)) as [Hm Hz].
    assert (Hmin : l !! Nat.min i (length l) = l !! i).
    { destruct (decide (i ≤ length l)%nat); [by rewrite Nat.min_l by lia|].
      rewrite Nat.min_r, !lookup_ge_None_2 by lia. done. }
    rewrite Hmin in *. rewrite (load_bind _ _ (default 0 (l !! i))).
    2:{ rewrite write_bytes_outside; [done|]. rewrite length_take. lia. }
    rewrite store_bind by (eapply mapped_lookup_write; [done|lia]).
    rewrite <-write_snoc_lookup by done. rewrite Hz.
    change (match length l with O => O | S m' => S (Nat.min i m') end) with (Nat.min (S i) (length l)).
    case_bool_decide; solve_ret.
  - rewrite (proj2 (Z.ltb_ge 0 _)) by lia. by rewrite take_ge by lia.
Qed.

(** ** Copies in fresh memory *)

Lemma store_end m d l :
  mapped m d (len l + 1) →
  store (d + len l) 0 (write_bytes d l m) = Ok (tt, write_bytes d (l ++ [0]) m).
Proof. intros Hm. rewrite store_ok by (eapply mapped_lookup_write; [done|lia]). by rewrite write_snoc. Qed.

(** [fresh] designates [n] mapped bytes apart from the block [[a, a + k)]. *)
Definition apart (a k b n : Z) : Prop := a + k ≤ b ∨ b + n ≤ a.

Lemma strdup_ok `{!StringArch} `{!StringLaws} m fresh s l :
  str_at m s l → len l < 2 ^ 17 →
  (∀ d, fresh = Some d → mapped m d (len l + 1) ∧ apart s (len l + 1) d (len l + 1)) →
  strdup fresh s m = Ok (fresh, match fresh with Some d => write_bytes d (l ++ [0]) m | None => m end).
Proof.
  intros Hs Hl Hf. unfold strdup. rewrite (bind_ok _ _ _ _ _ (strlen_ok _ _ _ Hs)).
  rewrite (bind_ok _ _ _ _ _ (kmalloc_ok _ (u32 (len l + 1)) m ltac:(rewrite u32_id; lia))).
  destruct fresh as [d|]; [|done]. rewrite bool_decide_true by done.
  destruct (Hf d eq_refl) as [Hd Hds]. destruct (str_at_bytes _ _ _ Hs) as [Hb _].
  rewrite (bind_ok _ _ _ _ _ (memcpy_ok m d s l Hb (mapped_sub m d (len l + 1) d (len l) Hd ltac:(lia) ltac:(lia)) ltac:(unfold apart in Hds; lia))).
  by rewrite (bind_ok _ _ _ _ _ (store_end m d l Hd)).
Qed.

Lemma stradd_ok `{!StringArch} `{!StringLaws} m fresh s1 s2 l1 l2 :
  str_at m s1 l1 → str_at m s2 l2 → len l1 + len l2 < 2 ^ 17 →
  (∀ d, fresh = Some d → mapped m d (len l1 + len l2 + 1) ∧
     apart s1 (len l1 + 1) d (len l1 + len l2 + 1) ∧ apart s2 (len l2 + 1) d (len l1 + len l2 + 1)) →
  stradd fresh s1 s2 m =
    Ok (fresh, match fresh with Some d => write_bytes d (l1 ++ l2 ++ [0]) m | None => m end).
Proof.
  intros Hs1 Hs2 Hl Hf. unfold stradd.
  rewrite (bind_ok _ _ _ _ _ (strlen_ok _ _ _ Hs1)), (bind_ok _ _ _ _ _ (strlen_ok _ _ _ Hs2)).
  rewrite (bind_ok _ _ _ _ _ (kmalloc_ok _ (u32 (len l1 + len l2 + 1)) m ltac:(rewrite u32_id; lia))).
  destruct fresh as [d|]; [|done]. rewrite bool_decide_true by done.
  destruct (Hf d eq_refl) as (Hd & Ha1 & Ha2). unfold apart in Ha1, Ha2.
  destruct (str_at_bytes _ _ _ Hs1) as [Hb1 _], (str_at_bytes _ _ _ Hs2) as [Hb2 _].
  rewrite (bind_ok _ _ _ _ _ (memcpy_ok m d s1 l1 Hb1 (mapped_sub m d (len l1 + len l2 + 1) d (len l1) Hd ltac:(lia) ltac:(lia)) ltac:(lia))).
  set (m1 := write_bytes d l1 m).
  assert (Hb2' : bytes_at m1 s2 l2).
  { eapply bytes_at_frame; [|done]. intros x Hx. apply write_bytes_outside. lia. }
  assert (Hd1 : mapped m1 (d + len l1) (len l2 + 1)).
  { apply mapped_write. eapply mapped_sub; [done|lia|lia]. }
  rewrite (bind_ok _ _ _ _ _ (memcpy_ok m1 (d + len l1) s2 l2 Hb2' (mapped_sub m1 (d + len l1) (len l2 + 1) (d + len l1) (len l2) Hd1 ltac:(lia) ltac:(lia)) ltac:(lia))).
  rewrite (bind_ok _ _ _ _ _ (store_end m1 (d + len l1) l2 Hd1)). subst m1. by rewrite <-write_bytes_app.
Qed.

(** ** Properties *)

(** C40.  The portable [memmove] of [string.c] copies right whatever the
    overlap: for [n] mapped bytes at the source and at the destination, in any
    position to each other, it returns the destination and leaves there the
    bytes the source held before, and every other byte as it was.  So does the
    ARM port's, with an assembly [__memcpy] that copies between blocks apart,
    unless the destination lies below the source and overlaps it: there
    [__memmove] leaves the whole copy to [__memcpy], although [string.c] asks
    [memcpy]'s blocks not to overlap. *)
Theorem memmove_correct (asm_memset asm_memcpy : Z → Z → Z → M mem Z) (m : mem) (dst src : Z) (l : list Z) :
  copies_apart asm_memcpy → bytes_at m src l → mapped m dst (len l) →
  @memmove portable dst src (len l) m = Ok (dst, write_bytes dst l m) ∧
  (if decide (dst < src < dst + len l)
   then @memmove (arm asm_memset asm_memcpy) dst src (len l) m = asm_memcpy dst src (len l) m
   else @memmove (arm asm_memset asm_memcpy) dst src (len l) m = Ok (dst, write_bytes dst l m)).
Proof.
  intros Hf Hs Hd. split; [by apply move_loops_ok|]. unfold memmove. simpl. case_decide.
  - unfold __memmove. by rewrite (proj2 (Z.ltb_lt dst src)) by lia.
  - by apply arm_memmove_ok.
Qed.

(** The string builders.  When the destination has room and lies apart
    from the sources, [strcpy], [strncpy] and [strcat] leave there the source, the source cut or padded
    with nulls to [n] bytes, and the concatenation, each ended by a null but
    for [strncpy]; [strdup] and [stradd] do so in fresh memory, or return
    [NULL] and change nothing when there is none.  Nothing else changes. *)
Theorem string_builders_correct `{!StringArch} `{!StringLaws} (m : mem) (d s1 s2 : Z) (l1 l2 : list Z) (n : nat) (fresh : option Z) :
  str_at m s1 l1 → str_at m s2 l2 → len l1 + len l2 + 1 < 2 ^ 17 →
  let room := len l1 + len l2 + Z.of_nat n + 1 in
  mapped m d room → apart s1 (len l1 + 1) d room → apart s2 (len l2 + 1) d room →
  (∀ f, fresh = Some f → mapped m f room ∧ apart s1 (len l1 + 1) f room ∧ apart s2 (len l2 + 1) f room) →
  let at_fresh l := match fresh with Some f => write_bytes f l m | None => m end in
  (let m1 := write_bytes d (l1 ++ [0]) m in
   strcpy d s1 m = Ok (d, m1) ∧ str_at m1 d l1 ∧
   let m2 := write_bytes (d + len l1) (l2 ++ [0]) m1 in
   strcat d s2 m1 = Ok (d + len l1, m2) ∧ str_at m2 d (l1 ++ l2)) ∧
  strncpy d s1 (Z.of_nat n) m = Ok (d, write_bytes d (padded n l1) m) ∧
  strdup fresh s1 m = Ok (fresh, at_fresh (l1 ++ [0])) ∧
  stradd fresh s1 s2 m = Ok (fresh, at_fresh (l1 ++ l2 ++ [0])).
Proof.
  intros Hs1 Hs2 Hl room Hd Ha1 Ha2 Hf at_fresh. unfold apart in *.
  assert (Hf' : ∀ f k, k ≤ room → fresh = Some f → mapped m f k ∧
    (s1 + (len l1 + 1) ≤ f ∨ f + k ≤ s1) ∧ (s2 + (len l2 + 1) ≤ f ∨ f + k ≤ s2)).
  { intros f k Hk Hfr. destruct (Hf f Hfr) as (H1 & H2 & H3). split_and!; [|lia|lia].
    eapply mapped_sub; [done|lia|lia]. }
  assert (Hc1 : str_at (write_bytes d (l1 ++ [0]) m) d l1) by (split; [apply bytes_at_write|apply Hs1]).
  split_and!.
  - apply strcpy_ok; [done|eapply mapped_sub; [done|lia|lia]|lia].
  - done.
  - apply strcat_ok; [done| |apply mapped_write; eapply mapped_sub; [done|lia|lia]|lia].
    eapply str_at_frame; [|done]. intros x Hx. apply write_bytes_outside.
    rewrite length_app. simpl. lia.
  - split; [|apply Forall_app; split; [apply Hs1|apply Hs2]]. rewrite <-app_assoc. apply bytes_at_app. split.
    + eapply bytes_at_frame; [|by apply str_at_bytes]. intros x Hx. apply write_bytes_outside. lia.
    + apply bytes_at_write.
  - apply strncpy_ok; [done|eapply mapped_sub; [done|lia|lia]|lia].
  - apply strdup_ok; [done|lia|]. intros f Hfr. destruct (Hf' f (len l1 + 1) ltac:(lia) Hfr) as (?&?&?).
    unfold apart. split; [done|lia].
  - apply stradd_ok; [done|done|lia|]. intros f Hfr.
    destruct (Hf' f (len l1 + len l2 + 1) ltac:(lia) Hfr) as (?&?&?). unfold apart. split_and!; [done|lia|lia].
Qed.

(** The comparisons.  [strcmp] of two strings is zero when they are equal,
    negative when the first is smaller in the lexicographic order of unsigned
    characters and positive when it is larger; [strncmp] is the same on the
    first [n] characters, [memcmp] on two blocks; [stricmp] is [strcmp] after
    subtracting 32 from every character above ['Z'].  [strlen] and the
    searches [strchr] and [strfind] return the length, the first occurrence
    or the end.  None of them changes memory. *)
Theorem string_observers_correct (m : mem) (s1 s2 c : Z) (l1 l2 : list Z) (n : nat) :
  str_at m s1 l1 → str_at m s2 l2 →
  strlen s1 m = Ok (len l1, m) ∧
  strnlen s1 (Z.of_nat n) m = Ok (Z.of_nat (Nat.min n (length l1)), m) ∧
  (∃ r, strcmp s1 s2 m = Ok (r, m) ∧
     (r = 0 ↔ l1 = l2) ∧ (r < 0 ↔ lex_lt l1 l2) ∧ (0 < r ↔ lex_lt l2 l1)) ∧
  (∃ r, strncmp s1 s2 (Z.of_nat n) m = Ok (r, m) ∧ (r = 0 ↔ take n l1 = take n l2) ∧
     (r < 0 ↔ lex_lt (take n l1) (take n l2)) ∧ (0 < r ↔ lex_lt (take n l2) (take n l1))) ∧
  (length l1 = length l2 → memcmp s1 s2 (len l1) m = Ok (cmp_bytes l1 l2, m)) ∧
  stricmp s1 s2 m = Ok (cmp_bytes (upcase <$> l1) (upcase <$> l2), m) ∧
  strchr s1 c m = Ok ((λ k : nat, s1 + Z.of_nat k) <$> first_index c l1, m) ∧
  strfind s1 c m = Ok (s1 + Z.of_nat (default (length l1) (first_index c l1)), m).
Proof.
  intros Hs1 Hs2. destruct (str_at_bytes _ _ _ Hs1) as [Hb1 Hz1], (str_at_bytes _ _ _ Hs2) as [Hb2 _].
  assert (Ht : ∀ l, chars l → chars (take n l)) by (intros; by apply Forall_take).
  split_and!.
  - by apply strlen_ok.
  - destruct (decide (n ≤ length l1)%nat).
    + rewrite Nat.min_l by lia. rewrite <-(firstn_length_le l1 (n := n)) at 2 by lia. apply strnlen_ok.
      * apply (bytes_at_app _ _ _ (drop n l1)). by rewrite take_drop.
      * apply Ht, Hs1.
      * rewrite length_take. lia.
    + rewrite Nat.min_r by lia. apply strnlen_ok; [done|apply Hs1|]. right. split; [lia|done].
  - eexists. split; [by apply strcmp_ok|]. apply cmp_bytes_lex; [apply Hs1|apply Hs2].
  - eexists. split; [by apply strncmp_ok|]. apply cmp_bytes_lex; apply Ht; [apply Hs1|apply Hs2].
  - intros. by apply memcmp_ok.
  - by apply stricmp_ok.
  - by apply strchr_ok.
  - by apply strfind_ok.
Qed.

(** [stricmp] takes punctuation for other characters.  It subtracts 32
    from every character above ['Z'] instead of the letters only, so that it
    answers 0, "equal", on the different one-character strings of [c] and
    [c - 32] for every [c] from 91 to 96 and above 122, that are no letters:
    ["["] equals [";"]. *)
Theorem stricmp_confuses_punctuation (m : mem) (s1 s2 c : Z) :
  90 < c < 256 → c - 32 < 91 → str_at m s1 [c] → str_at m s2 [c - 32] →
  stricmp s1 s2 m = Ok (0, m).
Proof.
  intros Hc Hc2 Hs1 Hs2. rewrite (stricmp_ok _ _ _ _ _ Hs1 Hs2). simpl. unfold upcase.
  rewrite (proj2 (Z.ltb_lt 90 c)), (proj2 (Z.ltb_ge 90 (c - 32))) by lia. by rewrite Z.eqb_refl.
Qed.

(** ** Witnesses *)

(** Two strings, ["ab"] and ["b"], and 16 bytes of room. *)
Definition demo_mem : mem := write_bytes 100 [97; 98; 0] (write_bytes 110 [98; 0] (write_bytes 120 (replicate 16 0) ∅)).

Lemma demo_mapped a n : 0 ≤ n → 120 ≤ a → a + n ≤ 136 → mapped demo_mem a n.
Proof.
  intros Hn H1 H2 x Hx. unfold demo_mem. apply (mapped_lookup_write _ 120 16); [|lia].
  apply mapped_write. pose proof (bytes_at_mapped _ _ _ (bytes_at_write ∅ 120 (replicate 16 0))) as Hw.
  exact Hw.
Qed.
Lemma demo_str1 : str_at demo_mem 100 [97; 98].
Proof. split; [by apply bytes_at_read|repeat constructor; lia]. Qed.
Lemma demo_str2 : str_at demo_mem 110 [98].
Proof. split; [by apply bytes_at_read|repeat constructor; lia]. Qed.

Lemma memmove_correct_witness :
  let A := arm (@memset portable) (@memcpy portable) in
  ∃ m, @memmove portable 101 100 2 demo_mem = Ok (101, m) ∧ @memmove A 101 100 2 demo_mem = Ok (101, m) ∧
    bytes_at m 101 [97; 98] ∧ m !! 100 = Some 97.
Proof.
  pose proof (memmove_correct (@memset portable) (@memcpy portable) demo_mem 101 100 [97; 98]
    (λ m d s l Hs Hd Hap, memcpy_portable m d s l Hs Hd ltac:(lia)) (proj1 (str_at_bytes _ _ _ demo_str1))) as H.
  destruct H as (E & E2); [|rewrite decide_False in E2 by (simpl; lia); eexists; split; [exact E|split; [exact E2|split; [apply bytes_at_write|reflexivity]]]].
  intros x Hx. assert (x = 101 ∨ x = 102) as [->| ->] by (simpl in Hx; lia); by eexists.
Defined.

Lemma string_builders_witness :
  ∃ m, strcpy 120 100 demo_mem = Ok (120, m) ∧ str_at m 120 [97; 98] ∧
    @strdup portable None 100 demo_mem = Ok (None, demo_mem).
Proof.
  destruct (@string_builders_correct portable _ demo_mem 120 100 110 [97; 98] [98] 2 None demo_str1 demo_str2)
    as ((E & Hs & _) & _ & Ed & _).
  - done.
  - apply demo_mapped; simpl; lia.
  - unfold apart. simpl. lia.
  - unfold apart. simpl. lia.
  - done.
  - eexists. split; [exact E|]. split; [exact Hs|exact Ed].
Defined.

Lemma string_observers_witness :
  strlen 100 demo_mem = Ok (2, demo_mem) ∧ ∃ r, strcmp 100 110 demo_mem = Ok (r, demo_mem) ∧ r < 0.
Proof.
  destruct (string_observers_correct demo_mem 100 110 98 [97; 98] [98] 1 demo_str1 demo_str2)
    as (E & _ & (r & Er & _ & Hlt & _) & _).
  split; [exact E|]. exists r. split; [exact Er|]. apply Hlt. simpl. lia.
Defined.

Definition punct_mem : mem := write_bytes 100 [91; 0] (write_bytes 110 [59; 0] ∅).
Lemma stricmp_punctuation_witness : stricmp 100 110 punct_mem = Ok (0, punct_mem).
Proof.
  apply (stricmp_confuses_punctuation punct_mem 100 110 91); [lia|lia| |];
    (split; [by apply bytes_at_read|repeat constructor; lia]).
Defined.
