(* ===== verification/Printfmt.v ===== *)
(** * Formatted printing

    [libs/printfmt.c].  The formatter is written over any character sink, as
    the C code is over [putch] and [putdat]: the console and the bounded
    buffer of [snprintf] are two instances.  A format is the list of its
    characters, its terminating null being implied; a string argument is the
    list of the bytes that can be read from it, its null included, so that an
    unterminated one makes the formatter fault where the C code reads on. *)

From S2P Require Import Prelude Mem CString.

(** Character codes. *)
Fixpoint codes (s : string) : list Z :=
  match s with
  | EmptyString => []
  | String a s' => Z.of_nat (Ascii.nat_of_ascii a) :: codes s'
  end.

(** The variable arguments: [int], [long] and pointers take one word, [long
    long] two; a [char *] is [None] when it is [NULL]. *)
Inductive arg : Type :=
| AWord (z : Z)
| ADouble (z : Z)
| AStr (s : option (list Z)).

Definition MAXERROR : Z := 39.
Definition error_string : list (option string) :=
  [ None; Some "Operation not permitted"; Some "No such file or directory";
    Some "No such process"; Some "Interrupted system call"; Some "I/O error";
    Some "No such device or address"; Some "Argument list too long"; Some "Exec format error";
    Some "Bad file number"; Some "No child processes"; Some "Try again"; Some "Out of memory";
    Some "Permission denied"; Some "Bad address"; Some "Block device required";
    Some "Device or resource busy"; Some "File exists"; Some "Cross-device link";
    Some "No such device"; Some "Not a directory"; Some "Is a directory";
    Some "Invalid argument"; Some "File table overflow"; Some "Too many open files";
    Some "Not a typewriter"; Some "Text file busy"; Some "File too large";
    Some "No space left on device"; Some "Illegal seek"; Some "Read-only file system";
    Some "Too many links"; Some "Broken pipe"; Some "Math argument out of domain of func";
    Some "Math result not representable"; Some "Unimplemented Feature"; Some "Panic Failure";
    Some "Process is killed"; Some "Unspecified or unknown problem";
    Some "SWAP READ/WRITE fault" ]%string.

(** The locals of an escape: [padc], [width], [precision], [lflag], [altflag]. *)
Record fspec : Type := mk_fspec {
  padc : Z; width : Z; precision : Z; lflag : Z; altflag : bool;
}.
#[export] Instance eta_fspec : Eta fspec := λ r,
  mk_fspec (padc r) (width r) (precision r) (lflag r) (altflag r).
Definition fspec0 : fspec := mk_fspec 32 (-1) (-1) 0 false.

Section printfmt.
Context {St : Type} (putch : Z → M St unit).

(** [printnum]; a number of 64 bits has at most 64 digits. *)
Definition pad_body (pc w : Z) : M St (Z + unit) :=
  let w := s32 (w - 1) in
  if 0 <? w then _ ← putch pc; mret (inl w) else mret (inr tt).

Definition hex_digits : list Z := codes "0123456789abcdef".

Fixpoint printnum (fuel : nat) (num base width padc : Z) : M St unit :=
  match fuel with
  | O => fail OutOfFuel
  | S fuel' =>
      _ ← (if base <=? num then printnum fuel' (num / base) base (s32 (width - 1)) padc
           else loop (S (Z.to_nat (s32 (width - 1)))) (pad_body padc) width);
      c ← deref (λ _, hex_digits !! Z.to_nat (num mod base));
      putch c
  end.

(** [getuint] and [getint]; their result is an [unsigned long long]. *)
Definition va_word (args : list arg) : M St (Z * list arg) :=
  deref (λ _, match args with AWord z :: r => Some (u32 z, r) | _ => None end).
Definition getuint (lf : Z) (args : list arg) : M St (Z * list arg) :=
  if 2 <=? lf
  then deref (λ _, match args with ADouble z :: r => Some (u64 z, r) | _ => None end)
  else va_word args.
Definition getint (lf : Z) (args : list arg) : M St (Z * list arg) :=
  if 2 <=? lf then getuint lf args
  else va ← va_word args; mret (u64 (s32 va.1), va.2).
Definition va_str (args : list arg) : M St (list Z * list arg) :=
  deref (λ _, match args with
    | AStr (Some s) :: r => Some (s, r)
    | AStr None :: r => Some (codes "(null)" ++ [0], r)
    | _ => None
    end).

(** [strnlen] on the bytes of a string argument. *)
Fixpoint bytes_strnlen (p : list Z) (n : Z) : option Z :=
  match p with
  | [] => if n <=? 0 then Some 0 else None
  | c :: p' => if n <=? 0 then Some 0 else if c =? 0 then Some 0 else Z.succ <$> bytes_strnlen p' (n - 1)
  end.

(** The three loops of ["%s"]. *)
Definition fill_body (pc w : Z) : M St (Z + Z) :=
  if 0 <? w then _ ← putch pc; mret (inl (s32 (w - 1))) else mret (inr w).
Definition fill (pc w : Z) : M St Z := loop (S (Z.to_nat w)) (fill_body pc) w.

Definition text_body (alt : bool) (q : list Z * Z * Z) : M St (list Z * Z * Z + Z) :=
  let '(p, prec, w) := q in
  ch ← deref (λ _, head p);
  if ch =? 0 then mret (inr w)
  else
    let prec' := if prec <? 0 then prec else prec - 1 in
    if (prec <? 0) || (0 <=? prec') then
      _ ← putch (if alt && ((ch <? 32) || (126 <? ch)) then 63 else ch);
      mret (inl (tail p, prec', s32 (w - 1)))
    else mret (inr w).

Definition put_string (sp : fspec) (p : list Z) : M St unit :=
  w ← (if (0 <? width sp) && negb (padc sp =? 45) then
         n ← deref (λ _, bytes_strnlen p (u32 (precision sp)));
         fill (padc sp) (s32 (width sp - n))
       else mret (width sp));
  w ← loop (S (length p)) (text_body (altflag sp)) (p, precision sp, w);
  _ ← fill 32 w;
  mret tt.

(** ** The format *)

Definition is_digit (ch : Z) : bool := (48 <=? ch) && (ch <=? 57).

(** One escape in [fmt]: [inl] is [goto reswitch], [inr] is [break]. *)
Section escape.
Variable fmt : list Z.
Variable printfmt : list Z → list arg → M St unit.

Definition fchar (i : Z) : M St Z := deref (λ _, if i <? 0 then None else (fmt ++ [0]) !! Z.to_nat i).

(** The width field: the digits from the one just read, [ch], on. *)
Definition number_body (q : Z * Z * Z) : M St (Z * Z * Z + Z * Z) :=
  let '(i, prec, ch) := q in
  let prec := s32 (prec * 10 + ch - 48) in
  ch ← fchar i;
  mret (if is_digit ch then inl (i + 1, prec, ch) else inr (i, prec)).

Definition process_precision (sp : fspec) (prec : Z) : fspec :=
  if width sp <? 0 then sp <| width := prec |> <| precision := -1 |>
  else sp <| precision := prec |>.

(** [for (fmt--; fmt[-1] != '%'; fmt--);] *)
Definition rewind_body (i : Z) : M St (Z + Z) :=
  ch ← fchar (i - 1);
  mret (if ch =? 37 then inr i else inl (i - 1)).

(** How an escape that prints a number ends. *)
Definition put_number (sp : fspec) (base : Z) (va : Z * list arg) : M St (list arg) :=
  _ ← printnum 64 va.1 base (width sp) (padc sp); mret va.2.

Definition put_error (err : Z) : M St unit :=
  let err := if err <? 0 then s32 (- err) else err in
  if MAXERROR <? err then printfmt (codes "error %d") [AWord err]
  else
    p ← deref (λ _, if err <? 0 then None else error_string !! Z.to_nat err);
    match p with
    | None => printfmt (codes "error %d") [AWord err]
    | Some p => printfmt (codes "%s") [AStr (Some (codes p ++ [0]))]
    end.

(** The conversions: the arguments that are left, [None] for an unrecognised
    escape. *)
Definition conversion (ch : Z) (sp : fspec) (args : list arg) : M St (option (list arg)) :=
  if ch =? 99 (* c *) then
    va ← va_word args; _ ← putch va.1; mret (Some va.2)
  else if ch =? 101 (* e *) then
    va ← va_word args; _ ← put_error (s32 va.1); mret (Some va.2)
  else if ch =? 115 (* s *) then
    va ← va_str args; _ ← put_string sp va.1; mret (Some va.2)
  else if ch =? 100 (* d *) then
    va ← getint (lflag sp) args;
    if 2 ^ 63 <=? va.1 then
      _ ← putch 45; r ← put_number sp 10 (u64 (- va.1), va.2); mret (Some r)
    else r ← put_number sp 10 va; mret (Some r)
  else if ch =? 117 (* u *) then
    va ← getuint (lflag sp) args; r ← put_number sp 10 va; mret (Some r)
  else if ch =? 111 (* o *) then
    va ← getuint (lflag sp) args; r ← put_number sp 8 va; mret (Some r)
  else if ch =? 112 (* p *) then
    _ ← putch 48; _ ← putch 120;
    va ← va_word args; r ← put_number sp 16 va; mret (Some r)
  else if (ch =? 120) || (ch =? 88) (* x, X *) then
    va ← getuint (lflag sp) args; r ← put_number sp 16 va; mret (Some r)
  else if ch =? 37 (* % *) then _ ← putch ch; mret (Some args)
  else mret None.

Definition escape_body (q : Z * list arg * fspec) : M St (Z * list arg * fspec + Z * list arg) :=
  let '(i, args, sp) := q in
  ch ← fchar i;
  let i := i + 1 in
  if ch =? 45 (* - *) then mret (inl (i, args, sp <| padc := 45 |>))
  else if ch =? 48 (* 0 *) then mret (inl (i, args, sp <| padc := 48 |>))
  else if is_digit ch then
    r ← loop (S (length fmt)) number_body (i, 0, ch);
    mret (inl (r.1, args, process_precision sp r.2))
  else if ch =? 42 (* * *) then
    va ← va_word args; mret (inl (i, va.2, process_precision sp (s32 va.1)))
  else if ch =? 46 (* . *) then
    mret (inl (i, args, if width sp <? 0 then sp <| width := 0 |> else sp))
  else if ch =? 35 (* # *) then mret (inl (i, args, sp <| altflag := true |>))
  else if ch =? 108 (* l *) then mret (inl (i, args, sp <| lflag := lflag sp + 1 |>))
  else
    r ← conversion ch sp args;
    match r with
    | Some args => mret (inr (i, args))
    | None =>
        _ ← putch 37;
        i ← loop (S (length fmt)) rewind_body (i - 1);
        mret (inr (i, args))
    end.

(** The text up to the next ['%']: the position after it, [None] at the end. *)
Definition plain_body (i : Z) : M St (Z + option Z) :=
  ch ← fchar i;
  if ch =? 37 then mret (inr (Some (i + 1)))
  else if ch =? 0 then mret (inr None)
  else _ ← putch ch; mret (inl (i + 1)).

Definition format_body (q : Z * list arg) : M St (Z * list arg + unit) :=
  let '(i, args) := q in
  r ← loop (S (length fmt)) plain_body i;
  match r with
  | None => mret (inr tt)
  | Some i => r ← loop (S (S (length fmt))) escape_body (i, args, fspec0); mret (inl r)
  end.

Definition format (args : list arg) : M St unit := loop (S (length fmt)) format_body (0, args).
End escape.

(** ["%e"] calls [printfmt] again, with formats that hold no ["%e"]. *)
Fixpoint vprintfmt_ (depth : nat) (fmt : list Z) (args : list arg) : M St unit :=
  match depth with
  | O => fail OutOfFuel
  | S d => format fmt (vprintfmt_ d) args
  end.
Definition vprintfmt (fmt : list Z) (args : list arg) : M St unit := vprintfmt_ 2 fmt args.
End printfmt.

(** ** The sinks *)

(** What a console receives. *)
Definition console_putch (ch : Z) : M (list Z) unit := modify (λ out, out ++ [ch]).

Record sprintbuf : Type := mk_sprintbuf { sbuf : Z; ebuf : Z; cnt : Z }.
#[export] Instance eta_sprintbuf : Eta sprintbuf := λ r, mk_sprintbuf (sbuf r) (ebuf r) (cnt r).

Definition on_mem_of {B A} (f : M mem A) : M (mem * B) A := λ s,
  match f s.1 with Ok (a, m) => Ok (a, (m, s.2)) | Err e => Err e end.
Definition on_buf (f : sprintbuf → sprintbuf) : M (mem * sprintbuf) unit := modify (λ s, (s.1, f s.2)).

Definition sprintputch (ch : Z) : M (mem * sprintbuf) unit :=
  _ ← on_buf (λ b, b <| cnt := s32 (cnt b + 1) |>);
  s ← get;
  let b := s.2 in
  if sbuf b <? ebuf b then
    _ ← on_mem_of (store (sbuf b) (u8 ch));
    on_buf (λ b, b <| sbuf := sbuf b + 1 |>)
  else mret tt.

Definition ucore_vsnprintf (str size : Z) (fmt : list Z) (args : list arg) : M mem Z :=
  let e := u32 (str + size - 1) in
  if (str =? 0) || (e <? str) then mret (- E_INVAL)
  else
    m ← get;
    match (_ ← vprintfmt sprintputch fmt args;
           s ← get;
           on_mem_of (store (sbuf s.2) 0)) (m, mk_sprintbuf str e 0)
    with
    | Ok (_, (m', b)) => _ ← put m'; mret (cnt b)
    | Err e => fail e
    end.

Definition snprintf (str size : Z) (fmt : list Z) (args : list arg) : M mem Z :=
  ucore_vsnprintf str size fmt args.
