(* ===== verification/PrintfmtSpec.v ===== *)
(** * What the formatter prints

    The formatter over the console is the specification of the formatter over
    any other sink ([refines]); it always returns or faults ([safe]), and the
    numbers it prints read back with [strtol]. *)

From S2P Require Import Prelude Mem CString CStringSpec Printfmt.

(** ** Simulation between two sinks *)

(** From states related by [R] the second computation does what the first one
    does: the same result in related states, or the same error. *)
Definition refines {S1 S2 A} (R : S1 → S2 → Prop) (m1 : M S1 A) (m2 : M S2 A) : Prop :=
  ∀ s1 s2, R s1 s2 →
  match m1 s1 with
  | Ok (a, s1') => ∃ s2', m2 s2 = Ok (a, s2') ∧ R s1' s2'
  | Err e => m2 s2 = Err e
  end.

Section refines.
Context {S1 S2 : Type} (R : S1 → S2 → Prop).

Lemma refines_ret {A} (a : A) : refines R (mret a) (mret a).
Proof. intros s1 s2 H. by exists s2. Qed.
Lemma refines_fail {A} e : refines R (fail (A := A) e) (fail e).
Proof. by intros s1 s2 H. Qed.
Lemma refines_deref {A} (o : option A) : refines R (deref (λ _, o)) (deref (λ _, o)).
Proof. intros s1 s2 H. unfold deref. destruct o; [by exists s2|done]. Qed.

Lemma refines_bind {A B} (m1 : M S1 A) (m2 : M S2 A) (k1 : A → M S1 B) (k2 : A → M S2 B) :
  refines R m1 m2 → (∀ a, refines R (k1 a) (k2 a)) → refines R (m1 ≫= k1) (m2 ≫= k2).
Proof.
  intros Hm Hk s1 s2 H. specialize (Hm s1 s2 H). unfold mbind, M_bind.
  destruct (m1 s1) as [[a s1']|e]; [|by rewrite Hm].
  destruct Hm as (s2' & -> & H'). by apply Hk.
Qed.

Lemma refines_loop {A B} fuel (b1 : A → M S1 (A + B)) (b2 : A → M S2 (A + B)) :
  (∀ a, refines R (b1 a) (b2 a)) → ∀ a, refines R (loop fuel b1 a) (loop fuel b2 a).
Proof.
  intros Hb. induction fuel as [|fuel IH]; intros a; simpl; [apply refines_fail|].
  apply refines_bind; [done|]. intros [a'|r]; [apply IH|apply refines_ret].
Qed.
End refines.

Create HintDb refines.
#[export] Hint Resolve refines_ret refines_fail refines_deref : refines.

(** Both sides are the same code. *)
Ltac refine_code :=
  repeat first
    [ progress intros
    | solve [eauto with refines]
    | progress (unfold va_str, va_word; cbv beta)
    | apply refines_bind
    | apply refines_loop
    | match goal with |- refines _ (let '(_, _) := ?q in _) _ => destruct q
                    | |- refines _ (if ?b then _ else _) _ => destruct b
                    | |- refines _ (match ?q with _ => _ end) _ => destruct q end ].

Section simulation.
Context {S1 S2 : Type} (R : S1 → S2 → Prop) (p1 : Z → M S1 unit) (p2 : Z → M S2 unit).
Hypothesis Hputch : ∀ ch, refines R (p1 ch) (p2 ch).
#[local] Hint Resolve Hputch : refines.

Lemma printnum_refines fuel num base w pc :
  refines R (printnum p1 fuel num base w pc) (printnum p2 fuel num base w pc).
Proof using Hputch.
  revert num w. induction fuel as [|fuel IH]; intros num w; simpl; [apply refines_fail|].
  unfold pad_body. refine_code.
Qed.
#[local] Hint Resolve printnum_refines : refines.

Lemma fill_refines pc w : refines R (fill p1 pc w) (fill p2 pc w).
Proof using Hputch. unfold fill, fill_body. refine_code. Qed.
#[local] Hint Resolve fill_refines : refines.

Lemma put_string_refines sp p : refines R (put_string p1 sp p) (put_string p2 sp p).
Proof using Hputch. unfold put_string, text_body. refine_code. Qed.
#[local] Hint Resolve put_string_refines : refines.

Lemma getuint_refines lf args : refines R (getuint lf args) (getuint lf args).
Proof using. unfold getuint. refine_code. Qed.
#[local] Hint Resolve getuint_refines : refines.

Lemma getint_refines lf args : refines R (getint lf args) (getint lf args).
Proof using. unfold getint. refine_code. Qed.
#[local] Hint Resolve getint_refines : refines.

Lemma put_number_refines sp base va : refines R (put_number p1 sp base va) (put_number p2 sp base va).
Proof using Hputch. unfold put_number. refine_code. Qed.
#[local] Hint Resolve put_number_refines : refines.

Lemma fchar_refines fmt i : refines R (fchar fmt i) (fchar fmt i).
Proof using. apply refines_deref. Qed.
#[local] Hint Resolve fchar_refines : refines.

Lemma format_refines fmt (f1 : list Z → list arg → M S1 unit) (f2 : list Z → list arg → M S2 unit) args :
  (∀ fmt args, refines R (f1 fmt args) (f2 fmt args)) →
  refines R (format p1 fmt f1 args) (format p2 fmt f2 args).
Proof using Hputch.
  intros Hf. unfold format, format_body, plain_body, escape_body, conversion, put_error, number_body, rewind_body.
  refine_code.
Qed.

Lemma vprintfmt_refines fmt args : refines R (vprintfmt p1 fmt args) (vprintfmt p2 fmt args).
Proof using Hputch.
  unfold vprintfmt. generalize 2%nat as d. intros d. revert fmt args.
  induction d as [|d IH]; intros fmt args; simpl; [apply refines_fail|by apply format_refines].
Qed.
End simulation.

(** ** Termination *)

(** The code returns or faults: it neither panics nor runs out of fuel. *)
Definition safe {St A} (m : M St A) : Prop := ∀ s e, m s = Err e → e = Fault.

Section safe.
Context {St : Type}.
Implicit Types s : St.

Lemma safe_ret {A} (a : A) : safe (mret (M := M St) a).
Proof. by intros s e. Qed.
Lemma safe_deref {A} (f : St → option A) : safe (deref f).
Proof. intros s e. unfold deref. destruct (f s); [done|]. by intros [= <-]. Qed.
Lemma safe_bind {A B} (m : M St A) (k : A → M St B) :
  safe m → (∀ s a s', m s = Ok (a, s') → safe (k a)) → safe (m ≫= k).
Proof.
  intros Hm Hk s e. unfold mbind, M_bind. destruct (m s) as [[a s']|] eqn:E; [|naive_solver].
  by apply (Hk _ _ _ E).
Qed.

(** A loop with an invariant and a measure on its argument. *)
Lemma safe_loop {A B} (I : A → Prop) (μ : A → nat) (body : A → M St (A + B)) :
  (∀ a, I a → safe (body a)) →
  (∀ a s a' s', I a → body a s = Ok (inl a', s') → I a' ∧ (μ a' < μ a)%nat) →
  ∀ fuel a, I a → (μ a < fuel)%nat → safe (loop fuel body a).
Proof.
  intros Hs Hb fuel. induction fuel as [|fuel IH]; intros a HI Hf; [lia|].
  simpl. apply safe_bind; [by apply Hs|]. intros s [a'|b] s' E; [|apply safe_ret].
  destruct (Hb _ _ _ _ HI E). apply IH; [done|lia].
Qed.
End safe.
#[export] Hint Resolve safe_ret safe_deref : refines.

Lemma s32_le z : - 2 ^ 31 ≤ z → s32 z ≤ z.
Proof.
  intros Hz. unfold s32. assert ((z + 2 ^ 31) mod 2 ^ 32 ≤ z + 2 ^ 31); [|lia].
  apply Z.mod_le; lia.
Qed.

(** Results of the small computations. *)
Lemma deref_inv {St A} (f : St → option A) s a s' : deref f s = Ok (a, s') → f s = Some a ∧ s' = s.
Proof. unfold deref. destruct (f s); [|done]. intros [= <- <-]. done. Qed.

Section total.
Context {St : Type} (putch : Z → M St unit).
Hypothesis Hputch : ∀ ch, safe (putch ch).
#[local] Hint Resolve Hputch : refines.

Ltac safe_code :=
  repeat first
    [ progress intros
    | solve [eauto with refines]
    | progress (unfold va_str, va_word; cbv beta)
    | match goal with |- safe (mbind _ _) => apply safe_bind end
    | match goal with |- safe (let '(_, _) := ?q in _) => destruct q
                    | |- safe (if ?b then _ else _) => destruct b
                    | |- safe (match ?q with _ => _ end) => destruct q end ].

Lemma pad_safe pc w : safe (loop (S (Z.to_nat (s32 (w - 1)))) (pad_body putch pc) w).
Proof using Hputch.
  apply (safe_loop (λ _, True) (λ w, Z.to_nat (s32 (w - 1)))); [| |done|lia].
  - intros a _. unfold pad_body. safe_code.
  - intros a s a' s' _. unfold pad_body. destruct (Z.ltb_spec 0 (s32 (a - 1))); intros; inv_bind.
    split; [done|]. pose proof (s32_le (s32 (a - 1) - 1)). lia.
Qed.
#[local] Hint Resolve pad_safe : refines.

Lemma printnum_safe fuel num base w pc :
  2 ≤ base → 0 ≤ num < base ^ Z.of_nat (S fuel) → safe (printnum putch (S fuel) num base w pc).
Proof using Hputch.
  intros Hb. revert num w. induction fuel as [|fuel IH]; intros num w Hn;
    apply safe_bind; try (by safe_code); destruct (Z.leb_spec base num); try (by safe_code).
  - change (Z.of_nat 1) with 1 in Hn. rewrite Z.pow_1_r in Hn. lia.
  - rewrite Nat2Z.inj_succ, Z.pow_succ_r in Hn by lia. apply IH.
    split; [apply Z.div_pos; lia|]. apply Z.div_lt_upper_bound; lia.
Qed.

Lemma fill_safe pc w : safe (fill putch pc w).
Proof using Hputch.
  unfold fill. apply (safe_loop (λ _, True) Z.to_nat); [| |done|lia].
  - intros a _. unfold fill_body. safe_code.
  - intros a s a' s' _. unfold fill_body. destruct (Z.ltb_spec 0 a); intros; inv_bind.
    split; [done|]. pose proof (s32_le (a - 1)). lia.
Qed.
#[local] Hint Resolve fill_safe : refines.

Lemma put_string_safe sp p : safe (put_string putch sp p).
Proof using Hputch.
  unfold put_string. apply safe_bind; [safe_code|]. intros _ w _ _. apply safe_bind; [|safe_code].
  apply (safe_loop (λ _, True) (λ q, length q.1.1)); [| |done|simpl; lia].
  - intros [[l prec] w'] _. unfold text_body. safe_code.
  - intros [[l prec] w'] s a' s' _. unfold text_body. intros H. inv_bind.
    destruct l as [|c l]; [done|].
    destruct (v =? 0); [by inv_bind|]. destruct (_ || _); inv_bind. split; [done|simpl; lia].
Qed.
#[local] Hint Resolve put_string_safe : refines.

Lemma u64_range z : 0 ≤ u64 z < 2 ^ 64.
Proof using. apply Z.mod_pos_bound. lia. Qed.

(** The number arguments are 64-bit values. *)
Lemma getuint_range lf args (s : St) va s' :
  getuint lf args s = Ok (va, s') → 0 ≤ va.1 < 2 ^ 64.
Proof using.
  unfold getuint, va_word. destruct (2 <=? lf); intros [H _]%deref_inv.
  - destruct args as [|[]]; simplify_eq/=. apply u64_range.
  - destruct args as [|[z| |]]; simplify_eq/=. pose proof (u32_range z). lia.
Qed.
Lemma getint_range lf args (s : St) va s' :
  getint lf args s = Ok (va, s') → 0 ≤ va.1 < 2 ^ 64.
Proof using.
  unfold getint. destruct (2 <=? lf); [apply getuint_range|]. intros H. inv_bind. apply u64_range.
Qed.

Lemma put_number_safe sp base va :
  2 ≤ base → 0 ≤ va.1 < 2 ^ 64 → safe (put_number putch sp base va).
Proof using Hputch.
  intros Hb Hv. unfold put_number. apply safe_bind; [|safe_code]. apply printnum_safe; [done|].
  split; [lia|]. assert (2 ^ 64 ≤ base ^ Z.of_nat 64); [|lia]. apply Z.pow_le_mono_l. lia.
Qed.
#[local] Hint Resolve put_number_safe getuint_range getint_range u64_range : refines.

(** *** The scanning loops *)
Section scanning.
Variable fmt : list Z.
Notation n := (Z.of_nat (length fmt)).

Lemma fchar_safe i : safe (fchar (St := St) fmt i).
Proof using. apply safe_deref. Qed.
#[local] Hint Resolve fchar_safe : refines.

(** A character that was read lies in the format or is its end. *)
Lemma fchar_inv i s ch s' :
  fchar (St := St) fmt i s = Ok (ch, s') → 0 ≤ i ≤ n ∧ (i = n → ch = 0) ∧ s' = s.
Proof using.
  unfold fchar. intros [H ->]%deref_inv. destruct (Z.ltb_spec i 0); [done|].
  pose proof (lookup_lt_Some _ _ _ H) as Hl. rewrite length_app in Hl. simpl in Hl.
  split_and!; [lia|lia| |done]. intros ->. rewrite Nat2Z.id, list_lookup_middle in H by done. congruence.
Qed.

Lemma number_safe i ch : 0 < i → safe (loop (S (length fmt)) (number_body (St := St) fmt) (i, 0, ch)).
Proof using.
  intros Hi. apply (safe_loop (λ q, 0 < q.1.1) (λ q, Z.to_nat (n + 1 - q.1.1))); [| |done|simpl; lia].
  - intros [[j prec] c] _. unfold number_body. safe_code.
  - intros [[j prec] c] s a' s' Hj. unfold number_body. intros H. inv_bind.
    apply fchar_inv in Hm as (Hr & _ & ->). destruct (is_digit v); simplify_eq/=. lia.
Qed.

(** The digits are passed, the character after them is not. *)
Lemma number_inv i ch s r s' :
  loop (S (length fmt)) (number_body (St := St) fmt) (i, 0, ch) s = Ok (r, s') → i ≤ r.1 ≤ n.
Proof using.
  intros H. revert H. apply (loop_partial (λ q _, i ≤ q.1.1) (λ r _, i ≤ r.1 ≤ n)); [|simpl; lia].
  intros [[j prec] c] s0 r0 s0' Hj. unfold number_body. intros H. inv_bind.
  apply fchar_inv in Hm as (Hr & _ & ->). destruct (is_digit v); simplify_eq/=; lia.
Qed.

Lemma rewind_safe i : i ≤ n → safe (loop (S (length fmt)) (rewind_body (St := St) fmt) i).
Proof using.
  intros Hi. apply (safe_loop (λ _, True) Z.to_nat); [| |done|lia].
  - intros j _. unfold rewind_body. safe_code.
  - intros j s a' s' _. unfold rewind_body. intros H. inv_bind.
    apply fchar_inv in Hm as (Hr & _ & ->). destruct (v =? 37); simplify_eq/=. lia.
Qed.

(** The character before position [b] is a ['%']. *)
Definition after_percent (b : Z) : Prop := 0 < b ∧ (fmt ++ [0]) !! Z.to_nat (b - 1) = Some 37.

Lemma fchar_percent b (s : St) : after_percent b → fchar fmt (b - 1) s = Ok (37, s).
Proof using.
  intros [Hb E]. unfold fchar, deref. destruct (Z.ltb_spec (b - 1) 0); [lia|]. by rewrite E.
Qed.

(** Rewinding from behind a ['%'] stops there at the latest. *)
Lemma rewind_inv b i s r s' :
  after_percent b → b ≤ i ≤ n →
  loop (S (length fmt)) (rewind_body (St := St) fmt) i s = Ok (r, s') → b ≤ r ≤ n.
Proof using.
  intros Hb Hi H. revert H.
  apply (loop_partial (λ j _, b ≤ j ≤ n) (λ r _, b ≤ r ≤ n)); [|done].
  intros j s0 r0 s0' Hj. unfold rewind_body. intros H. inv_bind.
  destruct (decide (j = b)) as [->|Hne].
  - rewrite (fchar_percent _ _ Hb) in Hm. simplify_eq. simpl. lia.
  - destruct (v =? 37); simplify_eq/=; lia.
Qed.

Lemma plain_inv i s r s' :
  loop (S (length fmt)) (plain_body putch fmt) i s = Ok (Some r, s') → i < r ≤ n ∧ after_percent r.
Proof using.
  intros H.
  pose proof (loop_partial (λ j _, i ≤ j)
    (λ o _, match o with Some j => i < j ≤ n ∧ after_percent j | None => True end)
    (plain_body putch fmt)) as Hl.
  refine (Hl _ _ _ _ (Some r) _ _ H); [clear H Hl r s s'|lia].
  intros j s r s' Hj. unfold plain_body. intros H. inv_bind.
  pose proof (fchar_inv _ _ _ _ Hm) as (Hr & Hend & ->). destruct (Z.eqb_spec v 37) as [E37|_]; [subst v|].
  - inv_bind. assert (j ≠ n) by (intros ->; by specialize (Hend eq_refl)). split; [lia|].
    split; [lia|]. replace (j + 1 - 1) with j by lia. unfold fchar in Hm.
    apply deref_inv in Hm as [E _]. destruct (Z.ltb_spec j 0); [done|done].
  - destruct (v =? 0); inv_bind; [done|]. lia.
Qed.

Lemma plain_safe i : 0 ≤ i ≤ n → safe (loop (S (length fmt)) (plain_body putch fmt) i).
Proof using Hputch.
  intros Hi. apply (safe_loop (λ j, 0 ≤ j ≤ n) (λ j, Z.to_nat (n - j))); [| |done|lia].
  - intros j _. unfold plain_body. safe_code.
  - intros j s a' s' _. unfold plain_body. intros H. inv_bind.
    apply fchar_inv in Hm as (Hr & Hend & ->). destruct (v =? 37); [by inv_bind|].
    destruct (Z.eqb_spec v 0) as [|Hv]; inv_bind.
    assert (j ≠ n) by (intros Hj; by specialize (Hend Hj)). lia.
Qed.

(** *** Escapes *)
Variable printfmt : list Z → list arg → M St unit.

(** Printing an error name, which only an ['e'] after a ['%'] does. *)
Definition nested_safe : Prop :=
  (∀ args, safe (printfmt (codes "error %d") args)) ∧ (∀ args, safe (printfmt (codes "%s") args)).
Definition has_error : Prop :=
  ∃ b i, after_percent b ∧ b ≤ i ∧ (fmt ++ [0]) !! Z.to_nat i = Some 101.
Hypothesis Hprintfmt : has_error → nested_safe.

Lemma put_error_safe err : nested_safe → safe (put_error printfmt err).
Proof using.
  intros [H1 H2]. unfold put_error.
  destruct (MAXERROR <? _); [apply H1|]. apply safe_bind; [apply safe_deref|].
  intros _ [p|] _ _; [apply H2|apply H1].
Qed.

Lemma conversion_safe ch sp args :
  (ch = 101 → nested_safe) → safe (conversion putch printfmt ch sp args).
Proof using Hputch.
  intros He.
  assert (Hnum : ∀ base va, 2 ≤ base → 0 ≤ va.1 < 2 ^ 64 →
    safe (r ← put_number putch sp base va; mret (Some r))) by (intros; safe_code).
  assert (Huint : ∀ base, 2 ≤ base →
    safe (va ← getuint (lflag sp) args; r ← put_number putch sp base va; mret (Some r))).
  { intros base Hb. apply safe_bind; [unfold getuint; safe_code|]. intros s va s' E.
    apply Hnum; [done|by eapply getuint_range]. }
  unfold conversion. destruct (ch =? 99); [by safe_code|].
  destruct (Z.eqb_spec ch 101) as [E|_].
  { specialize (He E). apply safe_bind; [apply safe_deref|]. intros s va s' _.
    apply safe_bind; [by apply put_error_safe|]. safe_code. }
  repeat (match goal with |- safe (if ?b then _ else _) => destruct b end; try (by safe_code); try (apply Huint; lia)).
  - apply safe_bind; [unfold getint, getuint; safe_code|]. intros s va s' E.
    pose proof (getint_range _ _ _ _ _ E). destruct (2 ^ 63 <=? va.1); [|apply Hnum; [lia|done]].
    apply safe_bind; [done|]. intros _ _ _ _. apply Hnum; [lia|apply u64_range].
  - do 2 (apply safe_bind; [done|]; intros _ _ _ _). apply safe_bind; [apply safe_deref|].
    intros s va s' E. apply Hnum; [lia|]. unfold va_word in E. apply deref_inv in E as [E _].
    destruct args as [|[z| |]]; simplify_eq/=. pose proof (u32_range z). lia.
Qed.

Lemma conversion_end args sp s r s' : conversion putch printfmt 0 sp args s = Ok (r, s') → r = None.
Proof using. unfold conversion. simpl. intros H. by inv_bind. Qed.

Notation espec := (Z * list arg * fspec)%type.

Lemma escape_safe b (q : espec) :
  after_percent b → b ≤ q.1.1 → safe (escape_body putch fmt printfmt q).
Proof using Hputch Hprintfmt.
  destruct q as [[i args] sp]. simpl. intros Hb Hi. unfold escape_body.
  apply safe_bind; [apply fchar_safe|]. intros s ch s' E.
  pose proof (fchar_inv _ _ _ _ E) as (Hr & _ & ->).
  assert (He : ch = 101 → nested_safe).
  { intros ->. apply Hprintfmt. exists b, i. split_and!; [done|done|].
    unfold fchar in E. apply deref_inv in E as [E _]. by destruct (i <? 0). }
  assert (0 < i) by (destruct Hb; lia).
  repeat (match goal with |- safe (if ?b then _ else _) => destruct b end; try (by safe_code)).
  - apply safe_bind; [apply number_safe; lia|]. safe_code.
  - apply safe_bind; [by apply conversion_safe|]. intros s0 [args'|] s0' _; [safe_code|].
    apply safe_bind; [apply Hputch|]. intros _ _ _ _. apply safe_bind; [apply rewind_safe; lia|]. safe_code.
Qed.

(** Where an escape that began at [b] goes on. *)
Lemma escape_inv b (q : espec) s r s' :
  after_percent b → b ≤ q.1.1 → escape_body putch fmt printfmt q s = Ok (r, s') →
  match r with
  | inl q' => q.1.1 < q'.1.1
  | inr (j, _) => b ≤ j ≤ n
  end ∧ q.1.1 ≤ n.
Proof using.
  destruct q as [[i args] sp]. simpl. intros Hb Hi. unfold escape_body. intros H.
  apply bind_inv in H as (ch & s1 & Hch & H). apply fchar_inv in Hch as (Hr & Hend & ->).
  split; [|lia].
  repeat (match type of H with (if ?b then _ else _) _ = _ => destruct b end;
    [try (by inv_bind; simpl; lia)|]).
  - apply bind_inv in H as (o & s2 & Hl & H). apply number_inv in Hl. inv_bind. simpl. lia.
  - apply bind_inv in H as (o & s2 & Hc & H). destruct o as [args'|].
    + inv_bind. split; [lia|]. assert (i ≠ n); [|lia]. intros Hn.
      rewrite (Hend Hn) in Hc. by apply conversion_end in Hc.
    + apply bind_inv in H as (u & s3 & _ & H). apply bind_inv in H as (k & s4 & Hw & H).
      apply (rewind_inv b) in Hw; [|done|lia]. by inv_bind.
Qed.

Lemma format_safe args : safe (format putch fmt printfmt args).
Proof using Hputch Hprintfmt.
  unfold format.
  apply (safe_loop (λ q, 0 ≤ q.1 ≤ n) (λ q, Z.to_nat (n - q.1))); [| |simpl; lia|simpl; lia].
  - intros [i args0] Hi. unfold format_body. apply safe_bind; [by apply plain_safe|].
    intros s [j|] s' E; [|safe_code]. apply plain_inv in E as [Hj Hp].
    apply safe_bind; [|safe_code]. simpl in Hi.
    apply (safe_loop (λ q : espec, j ≤ q.1.1) (λ q, Z.to_nat (n + 1 - q.1.1))); [| |simpl; lia|simpl; lia].
    + intros q Hq. by apply (escape_safe j).
    + intros q s1 q' s1' Hq E. destruct (escape_inv _ _ _ _ _ Hp Hq E). lia.
  - intros [i args0] s [i' args'] s' Hi. unfold format_body. intros H.
    apply bind_inv in H as ([j|] & s1 & Hpl & H); [|by inv_bind].
    apply plain_inv in Hpl as [Hj Hp]. apply bind_inv in H as (r & s2 & Hl & H). inv_bind. simpl in Hi |- *.
    assert (Hr : j ≤ i' ≤ n); [|lia].
    refine (loop_partial (λ (q : espec) _, j ≤ q.1.1) (λ (r : Z * list arg) _, j ≤ r.1 ≤ n) _ _ _ _ _ (i', args') _ _ Hl);
      [|simpl; lia].
    intros q s3 [q'|[j' ?]] s3' Hq E; destruct (escape_inv _ _ _ _ _ Hp Hq E); simpl in *; lia.
Qed.
End scanning.

(** The formats of the nested calls hold no ["%e"]. *)
Lemma no_error fmt k :
  length fmt = S k →
  (∀ b, after_percent fmt b → Z.to_nat b = k) → fmt !! k ≠ Some 101 → ¬ has_error fmt.
Proof using.
  intros Hl Hb Hk (b & i & Hp & Hi & E). specialize (Hb b Hp). destruct Hp as [Hp _].
  pose proof (lookup_lt_Some _ _ _ E) as Hlt. rewrite length_app in Hlt. simpl in Hlt.
  assert (Z.to_nat i = k ∨ Z.to_nat i = S k) as [Hik|Hik] by lia; rewrite Hik in E.
  - by rewrite lookup_app_l in E by lia.
  - rewrite <-Hl, list_lookup_middle in E by done. done.
Qed.

Lemma percent_at fmt k b :
  after_percent fmt b → (∀ i, (fmt ++ [0]) !! i = Some 37 → S i = k) → Z.to_nat b = k.
Proof using. intros [Hb E] Hk. apply Hk in E. lia. Qed.

Lemma nested_formats_safe d args fmt :
  fmt = codes "error %d" ∨ fmt = codes "%s" → safe (vprintfmt_ putch (S d) fmt args).
Proof using Hputch.
  intros Hf. simpl. apply format_safe. intros He. exfalso. revert He.
  destruct Hf as [->| ->].
  - apply (no_error _ 7); [done| |done]. intros b Hb. apply (percent_at _ _ _ Hb).
    intros i Hi. do 9 (destruct i as [|i]; [done || (by vm_compute in Hi)|]). done.
  - apply (no_error _ 1); [done| |done]. intros b Hb. apply (percent_at _ _ _ Hb).
    intros i Hi. do 3 (destruct i as [|i]; [done || (by vm_compute in Hi)|]). done.
Qed.

Lemma vprintfmt_safe fmt args : safe (vprintfmt putch fmt args).
Proof using Hputch.
  unfold vprintfmt. change (vprintfmt_ putch 2 fmt args) with (format putch fmt (vprintfmt_ putch 1) args).
  apply format_safe. intros _. split; intros args'; apply nested_formats_safe; auto.
Qed.
End total.
