(* ===== verification/PrintfmtNum.v ===== *)
(** * Numbers printed and read back

    The digits [printnum] writes, the buffer [snprintf] leaves, and [strtol]
    as the inverse of both. *)

From S2P Require Import Prelude Mem CString CStringSpec Printfmt PrintfmtSpec.

(** ** Digits *)

Fixpoint digits (fuel : nat) (num base : Z) : list Z :=
  match fuel with
  | O => []
  | S fuel' => (if base <=? num then digits fuel' (num / base) base else []) ++ [num mod base]
  end.

(** The number that digits stand for, the first the most significant. *)
Definition num_of (base : Z) (ds : list Z) : Z := foldl (λ v d, v * base + d) 0 ds.
Definition hexc (d : Z) : Z := if d <? 10 then 48 + d else 87 + d.

Lemma num_of_snoc base ds d : num_of base (ds ++ [d]) = num_of base ds * base + d.
Proof. unfold num_of. by rewrite foldl_app. Qed.

Section digits.
Variable base : Z.
Hypothesis Hbase : 2 ≤ base ≤ 16.

Lemma div_bound num k : 0 ≤ num < base ^ Z.of_nat (S k) → 0 ≤ num / base < base ^ Z.of_nat k.
Proof using Hbase.
  rewrite Nat2Z.inj_succ, Z.pow_succ_r by lia. intros Hn.
  split; [apply Z.div_pos; lia|]. apply Z.div_lt_upper_bound; lia.
Qed.

Lemma digits_num fuel num : 0 ≤ num < base ^ Z.of_nat (S fuel) → num_of base (digits (S fuel) num base) = num.
Proof using Hbase.
  revert num. induction fuel as [|fuel IH]; intros num Hn.
  - change (Z.of_nat 1) with 1 in Hn. rewrite Z.pow_1_r in Hn. simpl.
    rewrite (proj2 (Z.leb_gt base num)) by lia. unfold num_of. simpl. rewrite Z.mod_small by lia. lia.
  - change (digits (S (S fuel)) num base) with
      ((if base <=? num then digits (S fuel) (num / base) base else []) ++ [num mod base]).
    rewrite num_of_snoc. pose proof (Z.div_mod num base). destruct (Z.leb_spec base num).
    + rewrite IH by (by apply div_bound). lia.
    + rewrite Z.mod_small by lia. unfold num_of. simpl. lia.
Qed.

Lemma digits_range fuel num : 0 ≤ num → Forall (λ d, 0 ≤ d < base) (digits fuel num base).
Proof using Hbase.
  revert num. induction fuel as [|fuel IH]; intros num Hn; simpl; [done|].
  apply Forall_app. split; [|repeat constructor; apply Z.mod_pos_bound; lia].
  destruct (base <=? num); [apply IH, Z.div_pos; lia|done].
Qed.

Lemma digits_length fuel num k : 0 ≤ num < base ^ Z.of_nat (S k) → (length (digits fuel num base) ≤ S k)%nat.
Proof using Hbase.
  revert num k. induction fuel as [|fuel IH]; intros num k Hn; simpl; [lia|].
  rewrite length_app. simpl. destruct (Z.leb_spec base num); [|simpl; lia].
  destruct k as [|k]; [change (Z.of_nat 1) with 1 in Hn; rewrite Z.pow_1_r in Hn; lia|].
  specialize (IH _ _ (div_bound _ _ Hn)). lia.
Qed.

Lemma digits_nonnil fuel num : digits (S fuel) num base ≠ [].
Proof using. simpl. by intros [_ ?]%app_eq_nil. Qed.
End digits.

Lemma hexc_lookup d : 0 ≤ d < 16 → hex_digits !! Z.to_nat d = Some (hexc d).
Proof.
  intros Hd. assert (∃ k : nat, (k < 16)%nat ∧ d = Z.of_nat k) as (k & Hk & ->) by (exists (Z.to_nat d); lia).
  rewrite Nat2Z.id. do 16 (destruct k as [|k]; [done|]). lia.
Qed.

Lemma hexc_char d : 0 ≤ d < 16 → 48 ≤ hexc d ≤ 102 ∧ digit_of (hexc d) = Some d.
Proof.
  intros Hd. unfold hexc, digit_of. destruct (Z.ltb_spec d 10).
  - rewrite (proj2 (Z.leb_le 48 _)), (proj2 (Z.leb_le _ 57)) by lia. simpl. split; [lia|]. f_equal. lia.
  - rewrite (proj2 (Z.leb_le 48 _)), (proj2 (Z.leb_gt _ 57)) by lia.
    rewrite (proj2 (Z.leb_le 97 _)), (proj2 (Z.leb_le _ 122)) by lia. simpl. split; [lia|]. f_equal. lia.
Qed.

Lemma mod_digit num base : 2 ≤ base ≤ 16 → 0 ≤ num mod base < 16.
Proof. intros Hb. pose proof (Z.mod_pos_bound num base ltac:(lia)). lia. Qed.

(** ** [printnum] *)

Lemma console_ok ch out : console_putch ch out = Ok (tt, out ++ [ch]).
Proof. done. Qed.

Lemma pad_ok pc w out :
  - 2 ^ 31 < w < 2 ^ 31 →
  loop (S (Z.to_nat (s32 (w - 1)))) (pad_body console_putch pc) w out
  = Ok (tt, out ++ replicate (Z.to_nat (w - 1)) pc).
Proof.
  intros Hw. rewrite s32_id by lia. remember (Z.to_nat (w - 1)) as n eqn:Hn.
  revert w Hn Hw out. induction n as [|n IH]; intros w Hn Hw out.
  - rewrite (loop_stop _ _ _ _ tt out); [by rewrite app_nil_r|].
    unfold pad_body. rewrite s32_id by lia. by rewrite (proj2 (Z.ltb_ge 0 _)) by lia.
  - rewrite (loop_next _ _ _ _ (w - 1) (out ++ [pc])).
    + rewrite IH by lia. simpl. by rewrite <-app_assoc.
    + unfold pad_body. rewrite s32_id by lia. by rewrite (proj2 (Z.ltb_lt 0 _)) by lia.
Qed.

(** The pads, then the digits. *)
Definition padded_digits (fuel : nat) (num base w pc : Z) : list Z :=
  let ds := digits fuel num base in
  replicate (Z.to_nat (w - len ds)) pc ++ (hexc <$> ds).

Lemma printnum_ok fuel num base w pc out :
  2 ≤ base ≤ 16 → 0 ≤ num < base ^ Z.of_nat (S fuel) →
  - 2 ^ 31 + Z.of_nat (S fuel) < w < 2 ^ 31 →
  printnum console_putch (S fuel) num base w pc out = Ok (tt, out ++ padded_digits (S fuel) num base w pc).
Proof.
  intros Hb. unfold padded_digits. revert num w out. induction fuel as [|fuel IH]; intros num w out Hn Hw.
  - change (Z.of_nat 1) with 1 in Hn. rewrite Z.pow_1_r in Hn. simpl.
    rewrite (proj2 (Z.leb_gt base num)) by lia. rewrite (bind_ok _ _ _ _ _ (pad_ok pc w out ltac:(lia))).
    unfold mbind, M_bind, deref. rewrite hexc_lookup by by apply mod_digit.
    unfold console_putch, modify. simpl. by rewrite <-app_assoc.
  - change (printnum console_putch (S (S fuel)) num base w pc) with
      (_ ← (if base <=? num then printnum console_putch (S fuel) (num / base) base (s32 (w - 1)) pc
           else loop (S (Z.to_nat (s32 (w - 1)))) (pad_body console_putch pc) w);
       c ← deref (λ _, hex_digits !! Z.to_nat (num mod base));
       console_putch c).
    change (digits (S (S fuel)) num base) with
      ((if base <=? num then digits (S fuel) (num / base) base else []) ++ [num mod base]).
    destruct (Z.leb_spec base num).
    + rewrite s32_id by lia. rewrite (bind_ok _ _ _ _ _ (IH (num / base) (w - 1) out (div_bound _ Hb _ _ Hn) ltac:(lia))).
      unfold mbind, M_bind, deref. rewrite hexc_lookup by by apply mod_digit.
      unfold console_putch, modify. rewrite fmap_app, length_app.
      replace (w - Z.of_nat (length (digits (S fuel) (num / base) base) + length [num mod base]))
        with (w - 1 - len (digits (S fuel) (num / base) base)) by (simpl length; lia).
      by rewrite <-!app_assoc.
    + rewrite (bind_ok _ _ _ _ _ (pad_ok pc w out ltac:(lia))).
      unfold mbind, M_bind, deref. rewrite hexc_lookup by by apply mod_digit.
      unfold console_putch, modify. simpl. by rewrite <-app_assoc.
Qed.

(** ** [snprintf]: the buffer holds what the console would show *)

(** The buffer after the characters [l], [n] being the room without the null. *)
Definition buffered (m0 : mem) (str n : Z) (l : list Z) (s : mem * sprintbuf) : Prop :=
  s.1 = write_bytes str (take (Z.to_nat n) (u8 <$> l)) m0 ∧
  sbuf s.2 = str + Z.min n (len l) ∧ ebuf s.2 = str + n ∧ cnt s.2 = s32 (len l).

Lemma s32_idemp_add z d : s32 (s32 z + d) = s32 (z + d).
Proof.
  unfold s32. f_equal.
  replace ((z + 2 ^ 31) mod 2 ^ 32 - 2 ^ 31 + d + 2 ^ 31) with ((z + 2 ^ 31) mod 2 ^ 32 + d) by lia.
  rewrite Z.add_mod_idemp_l by lia. f_equal. lia.
Qed.

Lemma sprintputch_refines m0 str n ch :
  0 ≤ n → mapped m0 str (n + 1) →
  refines (buffered m0 str n) (console_putch ch) (sprintputch ch).
Proof.
  intros Hn Hm l [m b] (Em & Eb & Ee & Ec). simpl in *. subst m.
  unfold console_putch, modify, sprintputch, on_buf, modify, mbind, M_bind, get. simpl.
  rewrite Eb, Ee. destruct (Z.ltb_spec (str + Z.min n (len l)) (str + n)) as [Hlt|Hge].
  - assert (Hl : len l < n) by lia. rewrite Z.min_r by lia.
    assert (Ht : take (Z.to_nat n) (u8 <$> l) = u8 <$> l) by (apply take_ge; rewrite length_fmap; lia).
    rewrite Ht. unfold on_mem_of. simpl. rewrite store_ok by (eapply mapped_lookup_write; [done|lia]).
    eexists. split; [done|]. unfold buffered. simpl. rewrite fmap_app, length_app. simpl.
    rewrite take_ge by (rewrite length_app, length_fmap; simpl; lia).
    rewrite write_snoc, length_fmap. split_and!; [done|lia|done|].
    rewrite Ec. rewrite s32_idemp_add. f_equal. lia.
  - eexists. split; [done|]. unfold buffered. simpl. rewrite fmap_app, length_app. simpl.
    rewrite take_app_le by (rewrite length_fmap; lia). split_and!; [done|lia|done|].
    rewrite Ec, s32_idemp_add. f_equal. lia.
Qed.

(** In a buffer that fits in memory; [n] is its size without the null. *)
Lemma snprintf_console m str size fmt args :
  0 < str → 0 < size → str + size ≤ 2 ^ 32 → mapped m str size →
  match vprintfmt console_putch fmt args [] with
  | Ok (_, out) => snprintf str size fmt args m =
      Ok (s32 (len out), write_bytes str (take (Z.to_nat (size - 1)) (u8 <$> out) ++ [0]) m)
  | Err e => snprintf str size fmt args m = Err e
  end.
Proof.
  intros Hstr Hpos Hfit Hm. unfold snprintf, ucore_vsnprintf. set (n := size - 1).
  assert (Ee : u32 (str + size - 1) = str + n) by (rewrite u32_id; lia). rewrite Ee.
  rewrite (proj2 (Z.eqb_neq str 0)), (proj2 (Z.ltb_ge (str + n) str)) by lia. cbn [orb].
  rewrite (bind_ok get _ m m m) by done.
  assert (H0 : buffered m str n [] (m, mk_sprintbuf str (str + n) 0)).
  { unfold buffered. simpl. rewrite take_nil. split_and!; [done|lia|done|done]. }
  assert (Hm1 : mapped m str (n + 1)) by (by replace (n + 1) with size by lia).
  pose proof (vprintfmt_refines (buffered m str n) console_putch sprintputch
    (λ ch, sprintputch_refines m str n ch ltac:(lia) Hm1) fmt args _ _ H0) as Hr.
  destruct (vprintfmt console_putch fmt args []) as [[[] out]|e] eqn:Ev.
  - destruct Hr as ([m' b] & Er & Em & Eb & _ & Ec). simpl in Em, Eb, Ec. subst m'.
    rewrite (bind_ok _ _ _ _ _ Er), (bind_ok get _ _ (_, b) (_, b)) by done.
    unfold on_mem_of. cbn [fst snd]. rewrite Eb.
    assert (Hl : Z.min n (len out) = len (take (Z.to_nat n) (u8 <$> out)))
      by (rewrite length_take, length_fmap; lia).
    rewrite Hl, store_ok by (eapply mapped_lookup_write; [done|lia]). rewrite <-write_snoc.
    unfold mbind, M_bind, put, mret, M_ret. by rewrite Ec.
  - by rewrite (bind_err _ _ _ _ Hr).
Qed.

Lemma snprintf_buffer m str size fmt args out :
  0 < str → 0 < size → str + size ≤ 2 ^ 32 → mapped m str size →
  vprintfmt console_putch fmt args [] = Ok (tt, out) →
  snprintf str size fmt args m =
    Ok (s32 (len out), write_bytes str (take (Z.to_nat (size - 1)) (u8 <$> out) ++ [0]) m).
Proof.
  intros H1 H2 H3 H4 Ho. pose proof (snprintf_console m str size fmt args H1 H2 H3 H4) as H.
  by rewrite Ho in H.
Qed.

(** C38.  [snprintf] stays in its buffer and prints what the console would.
    For every format and arguments the formatter returns or faults on a
    missing argument or an unterminated string; it never panics and its loops
    end.  When the console shows [out], [snprintf] of [size] bytes leaves the
    first [size - 1] characters of [out] and a null there, changes no other
    byte and returns the length of all of [out]; when the console faults, so
    does it.  A null buffer, a size of 0 or one that wraps around the address
    space is answered with [-E_INVAL]. *)
Theorem snprintf_correct (m : mem) (str size : Z) (fmt : list Z) (args : list arg) :
  0 ≤ str < 2 ^ 32 → 0 ≤ size < 2 ^ 32 →
  if (str =? 0) || (u32 (str + size - 1) <? str) then snprintf str size fmt args m = Ok (- E_INVAL, m)
  else mapped m str size →
    match vprintfmt console_putch fmt args [] with
    | Ok (_, out) => snprintf str size fmt args m =
        Ok (s32 (len out), write_bytes str (take (Z.to_nat (size - 1)) (u8 <$> out) ++ [0]) m)
    | Err e => e = Fault ∧ snprintf str size fmt args m = Err Fault
    end.
Proof.
  intros Hstr Hsize. destruct ((str =? 0) || (u32 (str + size - 1) <? str)) eqn:E0.
  { unfold snprintf, ucore_vsnprintf. by rewrite E0. }
  intros Hm. apply orb_false_iff in E0 as [E0%Z.eqb_neq Ew%Z.ltb_ge].
  assert (Hfit : 0 < size ∧ str + size ≤ 2 ^ 32).
  { destruct (decide (str + size - 1 < 2 ^ 32)) as [Hs|Hs].
    - rewrite u32_id in Ew by lia. lia.
    - exfalso. unfold u32 in Ew. rewrite <-(Z.mod_unique_pos _ _ 1 (str + size - 1 - 2 ^ 32)) in Ew; lia. }
  pose proof (snprintf_console m str size fmt args ltac:(lia) ltac:(lia) ltac:(lia) Hm) as H.
  destruct (vprintfmt console_putch fmt args []) as [[[] out]|e] eqn:Ev; [exact H|].
  assert (e = Fault) as ->; [|done].
  eapply (vprintfmt_safe console_putch); [|exact Ev]. by intros ch s e'.
Qed.

(** ** [strtol] on printed digits *)

Section strtol.
Variable base : Z.
Hypothesis Hbase : 2 ≤ base ≤ 16.

Lemma num_of_take ds i d :
  ds !! i = Some d → num_of base (take (S i) ds) = num_of base (take i ds) * base + d.
Proof using. intros Hd. by rewrite (take_S_r _ _ _ Hd), num_of_snoc. Qed.

Lemma s32_step v d : s32 (s32 v * base + d) = s32 (v * base + d).
Proof using.
  unfold s32. f_equal. set (w := v + 2 ^ 31).
  pose proof (Z.div_mod w (2 ^ 32) ltac:(lia)) as Hw.
  replace (v * base + d + 2 ^ 31) with ((w mod 2 ^ 32 - 2 ^ 31) * base + d + 2 ^ 31 + w / 2 ^ 32 * base * 2 ^ 32) by lia.
  by rewrite Z.mod_add by lia.
Qed.

(** The digit loop on a string of digits. *)
Lemma digits_loop m s ds :
  str_at m s (hexc <$> ds) → Forall (λ d, 0 ≤ d < base) ds →
  scan (digits_body base) (s, 0) m = Ok ((s + len ds, s32 (num_of base ds)), m).
Proof using Hbase.
  intros Hs Hds.
  pose proof (scan_iter m s _ Hs (digits_body base)
    (λ i, (s + Z.of_nat i, s32 (num_of base (take i ds)))) (length ds)) as Hit.
  rewrite length_fmap in Hit. simpl in Hit. rewrite Z.add_0_r in Hit.
  apply Hit; clear Hit; [lia| |].
  - intros i c Hi Hc. destruct (str_char _ _ _ Hs _ _ Hc) as [Hm _].
    rewrite list_lookup_fmap in Hc. destruct (ds !! i) as [d|] eqn:Hd; [|done]. simpl in Hc. simplify_eq.
    pose proof (Forall_lookup_1 _ _ _ _ Hds Hd) as Hr. simpl in Hr.
    rewrite (load_bind _ _ _ _ Hm). destruct (hexc_char d) as [_ ->]; [lia|].
    rewrite (proj2 (Z.leb_gt base d)) by lia.
    rewrite s32_step, <-(num_of_take _ _ _ Hd). solve_ret.
  - pose proof (str_end _ _ _ Hs) as Hm. rewrite length_fmap in Hm.
    rewrite (load_bind _ _ _ _ Hm). simpl. by rewrite take_ge by lia.
Qed.

(** No prefix is taken for the digits of a number in its own base. *)
Lemma strtol_base_ok m s ds :
  str_at m s (hexc <$> ds) → Forall (λ d, 0 ≤ d < base) ds → ds ≠ [] →
  strtol_base s base m = Ok ((s, base), m).
Proof using Hbase.
  intros Hs Hds Hne. destruct ds as [|d ds]; [done|]. apply Forall_cons in Hds as [Hd Hds].
  destruct (str_char _ _ _ Hs O (hexc d)) as [Hm _]; [done|]. rewrite Z.add_0_r in Hm.
  unfold strtol_base. rewrite (load_bind _ _ _ _ Hm), (proj2 (Z.eqb_neq base 0)) by lia. simpl.
  assert (Hx : ∃ c, m !! (s + 1) = Some c ∧ c ≠ 120).
  { destruct ds as [|d' ds].
    - exists 0. split; [|done]. pose proof (str_end _ _ _ Hs) as He. exact He.
    - destruct (str_char _ _ _ Hs 1%nat (hexc d')) as [Hm' _]; [done|]. exists (hexc d'). split; [exact Hm'|].
      apply Forall_cons in Hds as [Hd' _]. destruct (hexc_char d') as [Hx _]; lia. }
  destruct Hx as (c & Hc & Hcx). destruct ((base =? 16) && (hexc d =? 48)).
  - rewrite <-bind_assoc, (load_bind _ _ _ _ Hc). rewrite (proj2 (Z.eqb_neq c 120)) by done. done.
  - done.
Qed.

(** A sign, then digits. *)
Lemma strtol_ok m s (neg : bool) ds :
  str_at m s ((if neg then [45] else []) ++ (hexc <$> ds)) →
  Forall (λ d, 0 ≤ d < base) ds → ds ≠ [] →
  strtol s base m =
    Ok ((s32 (if neg then - num_of base ds else num_of base ds), s + (if neg then 1 else 0) + len ds), m).
Proof using Hbase.
  intros Hs Hds Hne. unfold strtol.
  assert (H0 : ∃ c, m !! s = Some c ∧ c ≠ 32 ∧ c ≠ 9 ∧ c ≠ 43 ∧ (c =? 45) = neg).
  { destruct neg.
    - exists 45. destruct (str_char _ _ _ Hs O 45) as [Hm _]; [done|]. by rewrite Z.add_0_r in Hm.
    - destruct ds as [|d ds]; [done|]. apply Forall_cons in Hds as [Hd _].
      destruct (str_char _ _ _ Hs O (hexc d)) as [Hm _]; [done|]. rewrite Z.add_0_r in Hm.
      exists (hexc d). destruct (hexc_char d) as [Hc _]; [lia|]. split; [done|].
      split_and!; [lia|lia|lia|]. apply Z.eqb_neq. lia. }
  destruct H0 as (c & Hc & Hn1 & Hn2 & Hn3 & Hneg).
  assert (Hblank : scan skip_blanks_body s m = Ok (s, m)).
  { unfold scan. rewrite (bind_ok get _ m m m) by done. apply loop_stop.
    unfold skip_blanks_body. rewrite (load_bind _ _ _ _ Hc).
    by rewrite (proj2 (Z.eqb_neq c 32)), (proj2 (Z.eqb_neq c 9)) by done. }
  rewrite (bind_ok _ _ _ _ _ Hblank), (load_bind _ _ _ _ Hc), (proj2 (Z.eqb_neq c 43)), Hneg by done.
  assert (Hs' : str_at m (s + if neg then 1 else 0) (hexc <$> ds)).
  { destruct Hs as [Hb Hch]. rewrite <-app_assoc in Hb. apply bytes_at_app in Hb as [_ Hb].
    apply Forall_app in Hch as [_ Hch]. split; [|done]. by destruct neg. }
  destruct neg.
  - rewrite (bind_ok _ _ _ _ _ (strtol_base_ok _ _ _ Hs' Hds Hne)). cbn [fst snd].
    rewrite (bind_ok _ _ _ _ _ (digits_loop _ _ _ Hs' Hds)). unfold mret, M_ret. cbn [fst snd].
    do 3 f_equal. unfold s32.
    apply (f_equal (λ z, z - 2 ^ 31)).
    replace (- ((num_of base ds + 2 ^ 31) mod 2 ^ 32 - 2 ^ 31) + 2 ^ 31)
      with (2 ^ 32 - (num_of base ds + 2 ^ 31) mod 2 ^ 32) by lia.
    rewrite Zminus_mod_idemp_r.
    f_equal. lia.
  - rewrite Z.add_0_r in *. rewrite (bind_ok _ _ _ _ _ (strtol_base_ok _ _ _ Hs' Hds Hne)). cbn [fst snd].
    by rewrite (bind_ok _ _ _ _ _ (digits_loop _ _ _ Hs' Hds)).
Qed.
End strtol.

(** ** One conversion *)

Lemma put_number_ok base va out :
  2 ≤ base ≤ 16 → 0 ≤ va.1 < 2 ^ 64 →
  put_number console_putch fspec0 base va out =
    Ok (va.2, out ++ (hexc <$> digits 64 va.1 base)).
Proof.
  intros Hb Hv. unfold put_number.
  assert (2 ^ 64 ≤ base ^ Z.of_nat 64) by (apply Z.pow_le_mono_l; lia).
  rewrite (bind_ok _ _ _ _ _ (printnum_ok 63 va.1 base (-1) 32 out Hb ltac:(lia) ltac:(lia))).
  unfold padded_digits. replace (Z.to_nat _) with O by lia. done.
Qed.

(** A format that is one escape without flags. *)
Lemma single_escape c args args' out out' :
  c ∈ [100; 120; 111] →
  (∀ f, conversion console_putch f c fspec0 args out = Ok (Some args', out')) →
  vprintfmt console_putch [37; c] args out = Ok (tt, out').
Proof.
  intros Hc Hconv. unfold vprintfmt.
  change (vprintfmt_ console_putch 2 [37; c] args out) with
    (format console_putch [37; c] (vprintfmt_ console_putch 1) args out).
  specialize (Hconv (vprintfmt_ console_putch 1)). revert Hconv.
  generalize (vprintfmt_ console_putch 1) as f. intros f Hconv. unfold format.
  rewrite (loop_next _ _ _ _ (2, args') out').
  - apply loop_stop. unfold format_body.
    by rewrite (bind_ok _ _ out' None out') by by apply loop_stop.
  - unfold format_body. rewrite (bind_ok _ _ out (Some 1) out) by by apply loop_stop.
    rewrite (bind_ok _ _ out (2, args') out'); [done|]. apply loop_stop. unfold escape_body.
    rewrite (bind_ok _ _ out c out) by done.
    assert ((c =? 45) = false ∧ (c =? 48) = false ∧ is_digit c = false ∧ (c =? 42) = false ∧
      (c =? 46) = false ∧ (c =? 35) = false ∧ (c =? 108) = false) as (-> & -> & -> & -> & -> & -> & ->).
    { rewrite !elem_of_cons in Hc. destruct Hc as [->|[->|[->|[]%elem_of_nil]]]; done. }
    by rewrite (bind_ok _ _ _ _ _ Hconv).
Qed.

Lemma print_unsigned c base z :
  (c = 120 ∧ base = 16) ∨ (c = 111 ∧ base = 8) →
  vprintfmt console_putch [37; c] [AWord z] [] = Ok (tt, hexc <$> digits 64 (u32 z) base).
Proof.
  intros Hc. apply (single_escape _ _ []).
  { destruct Hc as [[-> _]|[-> _]]; set_solver. }
  intros f. pose proof (u32_range z).
  assert (Hp : put_number console_putch fspec0 base (u32 z, []) [] = Ok ([], hexc <$> digits 64 (u32 z) base)).
  { rewrite put_number_ok; [done|destruct Hc as [[_ ->]|[_ ->]]; lia|simpl; lia]. }
  destruct Hc as [[-> ->]|[-> ->]]; unfold conversion; cbn [Z.eqb Pos.eqb orb];
    rewrite (bind_ok _ _ [] (u32 z, []) []) by done; by rewrite (bind_ok _ _ _ _ _ Hp).
Qed.

Lemma u64_small z : 0 ≤ z < 2 ^ 64 → u64 z = z.
Proof. apply Z.mod_small. Qed.

Lemma print_decimal z :
  - 2 ^ 31 ≤ z < 2 ^ 31 →
  vprintfmt console_putch [37; 100] [AWord z] [] =
    Ok (tt, (if z <? 0 then [45] else []) ++ (hexc <$> digits 64 (Z.abs z) 10)).
Proof.
  intros Hz. apply (single_escape _ _ []); [set_solver|]. intros f.
  unfold conversion, getint. cbn [Z.eqb Pos.eqb].
  rewrite (bind_ok _ _ [] (u64 z, []) []).
  2:{ change (Ok (u64 (s32 (u32 z)), @nil arg, @nil Z) = Ok (u64 z, [], [])). do 3 f_equal.
      unfold u32. rewrite <-(s32_id z) at 2 by done. unfold s32. f_equal. f_equal.
      by rewrite Z.add_mod_idemp_l by lia. }
  cbn [fst snd]. destruct (Z.ltb_spec z 0).
  - assert (u64 z = z + 2 ^ 64) as ->.
    { unfold u64. symmetry. apply (Z.mod_unique_pos _ _ (-1)); lia. }
    rewrite (proj2 (Z.leb_le (2 ^ 63) _)) by lia.
    rewrite (bind_ok _ _ [] tt [45]) by done.
    replace (u64 (- (z + 2 ^ 64))) with (Z.abs z).
    2:{ unfold u64. apply (Z.mod_unique_pos _ _ (-1)); lia. }
    rewrite (bind_ok _ _ _ _ _ (put_number_ok 10 (Z.abs z, []) [45] ltac:(lia) ltac:(simpl; lia))).
    done.
  - rewrite u64_small by lia. rewrite (proj2 (Z.leb_gt (2 ^ 63) z)) by lia.
    rewrite (bind_ok _ _ _ _ _ (put_number_ok 10 (z, []) [] ltac:(lia) ltac:(simpl; lia))).
    by rewrite Z.abs_eq by lia.
Qed.

(** The conversions and their bases. *)
Definition radix (c base : Z) : Prop := (c = 100 ∧ base = 10) ∨ (c = 120 ∧ base = 16) ∨ (c = 111 ∧ base = 8).

(** What an escape prints for an [int], as sign and digits. *)
Lemma print_int c base z :
  radix c base → - 2 ^ 31 ≤ z < 2 ^ 31 →
  ∃ (neg : bool) ds,
    vprintfmt console_putch [37; c] [AWord z] [] = Ok (tt, (if neg then [45] else []) ++ (hexc <$> ds)) ∧
    Forall (λ d, 0 ≤ d < base) ds ∧ ds ≠ [] ∧
    len ((if neg then [45] else []) ++ (hexc <$> ds)) ≤ 11 ∧
    s32 (if neg then - num_of base ds else num_of base ds) = z.
Proof.
  intros [[-> ->]|Hc] Hz.
  - exists (z <? 0), (digits 64 (Z.abs z) 10). rewrite print_decimal by done.
    assert (Hp : 2 ^ 64 ≤ 10 ^ Z.of_nat 64) by (apply Z.pow_le_mono_l; lia).
    rewrite (digits_num 10 ltac:(lia) 63 (Z.abs z)) by lia.
    pose proof (digits_length 10 ltac:(lia) 64 (Z.abs z) 9 ltac:(change (10 ^ Z.of_nat 10) with 10000000000; lia)).
    split_and!; [done|apply digits_range; lia|apply digits_nonnil| |].
    + rewrite length_app, length_fmap. destruct (z <? 0); cbn [length]; lia.
    + destruct (Z.ltb_spec z 0); rewrite s32_id; lia.
  - exists false, (digits 64 (u32 z) base). rewrite (print_unsigned c base) by done.
    pose proof (u32_range z) as Hu.
    assert (Hb : 2 ≤ base ≤ 16) by (destruct Hc as [[_ ->]|[_ ->]]; lia).
    assert (Hp : 2 ^ 64 ≤ base ^ Z.of_nat 64) by (apply Z.pow_le_mono_l; lia).
    rewrite (digits_num base Hb 63 (u32 z)) by lia.
    split_and!; [done|apply digits_range; lia|apply digits_nonnil| |].
    + rewrite app_nil_l, length_fmap. assert (length (digits 64 (u32 z) base) ≤ 11)%nat; [|lia].
      apply digits_length; [done|]. split; [lia|]. destruct Hc as [[_ ->]|[_ ->]].
      * change (16 ^ Z.of_nat 11) with 17592186044416. lia.
      * change (8 ^ Z.of_nat 11) with 8589934592. lia.
    + rewrite <-(s32_id z) at 2 by done. unfold s32, u32. f_equal. by rewrite Z.add_mod_idemp_l by lia.
Qed.

(** C39.  Numbers read back as they were printed.  For every [int] and each of
    the conversions [%d], [%x] and [%o], [snprintf] into a buffer of 12 bytes
    or more writes there a string of at most 11 characters that [strtol], in
    the base of the conversion, reads as the same [int] and whose end it
    reports; nothing outside the buffer changes. *)
Theorem snprintf_strtol (m : mem) (str size c base z : Z) :
  radix c base → - 2 ^ 31 ≤ z < 2 ^ 31 →
  0 < str → 12 ≤ size → str + size ≤ 2 ^ 32 → mapped m str size →
  ∃ n m', snprintf str size [37; c] [AWord z] m = Ok (n, m') ∧ n ≤ 11 ∧
    (∀ x, x < str ∨ str + size ≤ x → m' !! x = m !! x) ∧
    strtol str base m' = Ok ((z, str + n), m').
Proof.
  intros Hc Hz Hstr Hsize Hfit Hm.
  destruct (print_int c base z Hc Hz) as (neg & ds & Hp & Hds & Hne & Hlen & Hval).
  assert (Hb : 2 ≤ base ≤ 16) by (unfold radix in Hc; lia).
  set (out := (if neg then [45] else []) ++ (hexc <$> ds)) in *.
  pose proof (snprintf_buffer m str size [37; c] [AWord z] out ltac:(lia) ltac:(lia) Hfit Hm Hp) as Hs.
  assert (Hchars : chars out).
  { apply Forall_app. split; [destruct neg; repeat constructor; lia|].
    apply Forall_fmap. eapply Forall_impl; [exact Hds|]. intros d Hd. simpl in Hd |- *.
    destruct (hexc_char d) as [Hx _]; lia. }
  assert (Hu : u8 <$> out = out).
  { rewrite <-(list_fmap_id out) at 2. apply Forall_fmap_ext_1. eapply Forall_impl; [exact Hchars|].
    intros d Hd. simpl. unfold u8. apply Z.mod_small. simpl in Hd. lia. }
  rewrite Hu, take_ge, s32_id in Hs by lia.
  exists (len out), (write_bytes str (out ++ [0]) m). split_and!; [done|done| |].
  - intros x Hx. apply write_bytes_outside. rewrite length_app. simpl length. lia.
  - assert (Hst : str_at (write_bytes str (out ++ [0]) m) str out) by (split; [apply bytes_at_write|done]).
    rewrite (strtol_ok base Hb _ _ neg ds Hst Hds Hne), Hval.
    replace (str + (if neg then 1 else 0) + len ds) with (str + len out); [done|].
    unfold out. rewrite length_app, length_fmap. destruct neg; cbn [length]; lia.
Qed.

(** The flag ['-'], "to pad on the right", pads a number on the left with
    minus signs: [%-5d] of 7 is ["----7"]. *)
Example minus_flag_prints_minus :
  vprintfmt console_putch (codes "%-5d") [AWord 7] [] = Ok (tt, codes "----7").
Proof. vm_compute. reflexivity. Qed.

(** The width of a negative number does not count its sign, which comes before
    the padding: [%5d] of -42 is ["-   42"]. *)
Example sign_before_padding :
  vprintfmt console_putch (codes "%5d") [AWord (-42)] [] = Ok (tt, codes "-   42").
Proof. vm_compute. reflexivity. Qed.

(** [%e] of the least [int] reads before the table of error names. *)
Example error_of_int_min :
  vprintfmt console_putch (codes "%e") [AWord (- 2 ^ 31)] [] = Err Fault.
Proof. vm_compute. reflexivity. Qed.

(** ** Witnesses *)

Lemma snprintf_correct_witness :
  snprintf 120 4 (codes "%s%d") [AStr None; AWord 5] demo_mem =
    Ok (7, write_bytes 120 (codes "(nu" ++ [0]) demo_mem).
Proof.
  pose proof (snprintf_correct demo_mem 120 4 (codes "%s%d") [AStr None; AWord 5] ltac:(lia) ltac:(lia)) as H.
  change ((120 =? 0) || (u32 (120 + 4 - 1) <? 120)) with false in H.
  specialize (H (demo_mapped 120 4 ltac:(lia) ltac:(lia) ltac:(lia))).
  assert (E : vprintfmt console_putch (codes "%s%d") [AStr None; AWord 5] [] = Ok (tt, codes "(null)5"))
    by (vm_compute; reflexivity).
  rewrite E in H. exact H.
Defined.

Lemma snprintf_strtol_witness :
  ∃ n m', snprintf 120 12 [37; 100] [AWord (-42)] demo_mem = Ok (n, m') ∧
    strtol 120 10 m' = Ok ((-42, 120 + n), m').
Proof.
  destruct (snprintf_strtol demo_mem 120 12 100 10 (-42)) as (n & m' & E & _ & _ & Es).
  - left. done.
  - lia.
  - lia.
  - lia.
  - lia.
  - apply demo_mapped; lia.
  - exists n, m'. split; [exact E|exact Es].
Defined.
