(* ===== verification/Bytes.v ===== *)
(** * Ranges of byte arrays

    Buffers and disk blocks are lists of bytes; [slice] is a range of one and
    [splice] stores a range.  The kernel copies with [load_range] and
    [store_range], which fault outside the array. *)

From S2P Require Import Prelude.

Definition slice (l : list Z) (pos n : Z) : list Z := take (Z.to_nat n) (drop (Z.to_nat pos) l).
Definition splice (l : list Z) (pos : Z) (bs : list Z) : list Z :=
  take (Z.to_nat pos) l ++ bs ++ drop (Z.to_nat pos + length bs) l.

Definition in_range (l : list Z) (pos n : Z) : bool := (0 <=? pos) && (0 <=? n) && (pos + n <=? Z.of_nat (length l)).

(** [memcpy] from and to an array; outside the array is a fault. *)
Definition load_range {S} (l : list Z) (pos n : Z) : M S (list Z) :=
  if in_range l pos n then mret (slice l pos n) else fail Fault.
Definition store_range {S} (l : list Z) (pos : Z) (bs : list Z) : M S (list Z) :=
  if in_range l pos (Z.of_nat (length bs)) then mret (splice l pos bs) else fail Fault.



Section bytes.
Implicit Types (l bs : list Z) (pos n i : Z).

Lemma in_range_spec l pos n : in_range l pos n = true ↔ 0 ≤ pos ∧ 0 ≤ n ∧ pos + n ≤ len l.
Proof. unfold in_range. rewrite !andb_true_iff, !Z.leb_le. tauto. Qed.

Lemma load_range_ok {S} l pos n (s : S) : in_range l pos n = true → load_range l pos n s = Ok (slice l pos n, s).
Proof. unfold load_range. by intros ->. Qed.
Lemma store_range_ok {S} l pos bs (s : S) :
  in_range l pos (len bs) = true → store_range l pos bs s = Ok (splice l pos bs, s).
Proof. unfold store_range. by intros ->. Qed.

Lemma slice_length l pos n : in_range l pos n = true → length (slice l pos n) = Z.to_nat n.
Proof. rewrite in_range_spec. intros. unfold slice. rewrite length_take, length_drop. lia. Qed.
Lemma slice_len l pos n : in_range l pos n = true → len (slice l pos n) = n.
Proof. intros H. rewrite slice_length by done. apply in_range_spec in H. lia. Qed.

Lemma splice_length l pos bs : in_range l pos (len bs) = true → length (splice l pos bs) = length l.
Proof.
  rewrite in_range_spec. intros. unfold splice. rewrite !length_app, length_take, length_drop. lia.
Qed.

Lemma slice_lookup l pos n (i : nat) :
  slice l pos n !! i = if decide (Z.of_nat i < n) then l !! (Z.to_nat pos + i)%nat else None.
Proof.
  unfold slice. case_decide.
  - rewrite lookup_take_lt by lia. by rewrite lookup_drop.
  - apply lookup_take_ge. lia.
Qed.

Lemma splice_lookup l pos bs (i : nat) :
  in_range l pos (len bs) = true →
  splice l pos bs !! i =
    if decide (pos ≤ Z.of_nat i < pos + len bs) then bs !! (i - Z.to_nat pos)%nat else l !! i.
Proof.
  rewrite in_range_spec. intros Hr. unfold splice. case_decide as Hi.
  - rewrite lookup_app_r, length_take by (rewrite length_take; lia).
    rewrite lookup_app_l by lia. f_equal. lia.
  - destruct (decide (Z.of_nat i < pos)).
    + rewrite lookup_app_l by (rewrite length_take; lia). by rewrite lookup_take_lt by lia.
    + rewrite lookup_app_r, length_take by (rewrite length_take; lia).
      rewrite lookup_app_r, lookup_drop by lia. f_equal. lia.
Qed.

Lemma slice_all l : slice l 0 (len l) = l.
Proof. unfold slice. rewrite drop_0, take_ge; [done|lia]. Qed.

Lemma slice_app l pos n m' : 0 ≤ pos → 0 ≤ n → 0 ≤ m' → slice l pos n ++ slice l (pos + n) m' = slice l pos (n + m').
Proof.
  intros. unfold slice. rewrite !Z2Nat.inj_add by lia. rewrite <-drop_drop. apply take_take_drop.
Qed.

Lemma slice_splice_eq l pos bs : in_range l pos (len bs) = true → slice (splice l pos bs) pos (len bs) = bs.
Proof.
  intros Hr. pose proof Hr as H. apply in_range_spec in H. apply list_eq. intros i.
  rewrite slice_lookup, splice_lookup by done. case_decide.
  - rewrite decide_True by lia. f_equal. lia.
  - symmetry. apply lookup_ge_None_2. lia.
Qed.

Lemma slice_splice_ne l pos bs pos' n :
  in_range l pos (len bs) = true → 0 ≤ pos' → pos' + n ≤ pos ∨ pos + len bs ≤ pos' →
  slice (splice l pos bs) pos' n = slice l pos' n.
Proof.
  intros Hr Hp H. apply list_eq. intros i. rewrite !slice_lookup, splice_lookup by done.
  case_decide; [|done]. by rewrite decide_False by lia.
Qed.

Lemma splice_splice l pos bs bs' :
  in_range l pos (len (bs ++ bs')) = true →
  splice (splice l pos bs) (pos + len bs) bs' = splice l pos (bs ++ bs').
Proof.
  intros Hr. pose proof Hr as H. apply in_range_spec in H. rewrite length_app in H.
  assert (in_range l pos (len bs) = true) as H1 by (apply in_range_spec; lia).
  assert (in_range (splice l pos bs) (pos + len bs) (len bs') = true) as H2.
  { apply in_range_spec. rewrite splice_length by done. lia. }
  apply list_eq. intros i. rewrite !splice_lookup by done. rewrite length_app.
  repeat case_decide; try lia; try done.
  - rewrite lookup_app_r by lia. f_equal. lia.
  - by rewrite lookup_app_l by lia.
Qed.

Lemma splice_nil l pos : 0 ≤ pos → splice l pos [] = l.
Proof. intros. unfold splice. simpl. rewrite Nat.add_0_r. apply take_drop. Qed.

Lemma splice_slice l pos n : in_range l pos n = true → splice l pos (slice l pos n) = l.
Proof.
  intros Hr. assert (len (slice l pos n) = n) as Hn by by apply slice_len.
  apply list_eq. intros i. rewrite splice_lookup by by rewrite Hn. rewrite Hn.
  apply in_range_spec in Hr. case_decide; [|done]. rewrite slice_lookup, decide_True by lia. f_equal. lia.
Qed.

Lemma slice_slice l pos n pos' n' :
  0 ≤ pos → 0 ≤ pos' → pos' + n' ≤ n → slice (slice l pos n) pos' n' = slice l (pos + pos') n'.
Proof.
  intros. apply list_eq. intros i. rewrite !slice_lookup. case_decide; [|done].
  rewrite decide_True by lia. f_equal. lia.
Qed.

Lemma slice_replicate (k : nat) (x : Z) pos n :
  0 ≤ pos → 0 ≤ n → pos + n ≤ Z.of_nat k → slice (replicate k x) pos n = replicate (Z.to_nat n) x.
Proof. intros. unfold slice. rewrite drop_replicate, take_replicate. f_equal. lia. Qed.
End bytes.
