(* ===== verification/Disk.v ===== *)
(** * Block devices

    [fs/iobuf.c], [fs/devs/dev_disk0.c] and the ARM RAM disk below it
    ([arch/arm/driver/ide.c], [ramdisk.c]).  A file system sees a device through
    [dop_io]; the interface [BlockDevice] states what it relies on, and the
    RAM disk implements it ([disk0_io_correct]).

    The memory that an [iobuf] describes is a list of bytes [io_mem], and
    [io_base] is a position in it. *)

From S2P Require Import Prelude Bytes.

(** ** [fs/iobuf.c] *)

Record iobuf : Type := mk_iobuf {
  io_mem : list Z;
  io_base : Z;
  io_offset : Z;
  io_len : Z;
  io_resid : Z;
}.
#[export] Instance eta_iobuf : Eta iobuf := λ r, mk_iobuf (io_mem r) (io_base r) (io_offset r) (io_len r) (io_resid r).

Definition iobuf_init (mem : list Z) (base len offset : Z) : iobuf := mk_iobuf mem base offset len len.

Definition iobuf_skip (n : Z) : M iobuf unit :=
  iob ← get;
  _ ← assert (n <=? io_resid iob);
  put (iob <| io_base := io_base iob + n |> <| io_offset := s32 (io_offset iob + n) |>
           <| io_resid := io_resid iob - n |>).

(** [iobuf_move(iob, data, len, m2b, &copied)]: the result, [copied] and the
    content of [data]; [m2b] moves from [data] into the buffer. *)
Definition iobuf_move (data : list Z) (len : Z) (m2b : bool) : M iobuf (Z * Z * list Z) :=
  iob ← get;
  let alen := if len <? io_resid iob then len else io_resid iob in
  if 0 <? alen then
    data' ← (if m2b then
               bs ← load_range data 0 alen;
               m ← store_range (io_mem iob) (io_base iob) bs;
               _ ← put (iob <| io_mem := m |>);
               mret data
             else
               bs ← load_range (io_mem iob) (io_base iob) alen;
               store_range data 0 bs);
    _ ← iobuf_skip alen;
    mret (if len - alen =? 0 then 0 else - E_NO_MEM, alen, data')
  else mret (if len =? 0 then 0 else - E_NO_MEM, alen, data).

Definition iobuf_move_zeros (len : Z) : M iobuf (Z * Z) :=
  iob ← get;
  let alen := if len <? io_resid iob then len else io_resid iob in
  if 0 <? alen then
    m ← store_range (io_mem iob) (io_base iob) (replicate (Z.to_nat alen) 0);
    _ ← put (iob <| io_mem := m |>);
    _ ← iobuf_skip alen;
    mret (if len - alen =? 0 then 0 else - E_NO_MEM, alen)
  else mret (if len =? 0 then 0 else - E_NO_MEM, alen).

(** ** What a file system relies on

    [d_io dev iob write] is [dop_io]; [dblock dev b] is the content of block [b].
    A transfer of one whole block inside the device succeeds, moves exactly
    that block and keeps every other block. *)

Definition BLKSIZE : Z := PGSIZE.

Class BlockDevice (D : Type) := {
  d_io : iobuf → bool → M D (Z * iobuf);
  d_blocks : D → Z;
  d_blocksize : D → Z;
  dblock : D → Z → list Z;
}.

(** The request for block [b] with the memory [mem] at [pos]. *)
Definition block_iob (mem : list Z) (pos b : Z) : iobuf := iobuf_init mem pos BLKSIZE (s32 (u32 (b * BLKSIZE))).

Class BlockDeviceLaws (D : Type) `{BlockDevice D} := {
  d_wf : D → Prop;
  dblock_length d b : d_wf d → 0 ≤ b < d_blocks d → length (dblock d b) = Z.to_nat BLKSIZE;
  d_read d mem pos b : d_wf d → 0 ≤ b < d_blocks d → in_range mem pos BLKSIZE = true →
    ∃ iob' d', d_io (block_iob mem pos b) false d = Ok ((0, iob'), d') ∧
      io_mem iob' = splice mem pos (dblock d b) ∧ d_wf d' ∧ d_blocks d' = d_blocks d ∧ d_blocksize d' = d_blocksize d ∧
      ∀ b', 0 ≤ b' < d_blocks d → dblock d' b' = dblock d b';
  d_write d mem pos b : d_wf d → 0 ≤ b < d_blocks d → in_range mem pos BLKSIZE = true →
    ∃ iob' d', d_io (block_iob mem pos b) true d = Ok ((0, iob'), d') ∧
      io_mem iob' = mem ∧ d_wf d' ∧ d_blocks d' = d_blocks d ∧ d_blocksize d' = d_blocksize d ∧
      ∀ b', 0 ≤ b' < d_blocks d → dblock d' b' = if b' =? b then slice mem pos BLKSIZE else dblock d b';
}.

(** ** The RAM disk *)

Definition SECTSIZE : Z := 512.
Definition DISK0_BLKSIZE : Z := PGSIZE.
Definition DISK0_BUFSIZE : Z := 4 * DISK0_BLKSIZE.
Definition DISK0_BLK_NSECT : Z := DISK0_BLKSIZE / SECTSIZE.

(** [struct ide_device] and the memory behind [iobase]; the members of
    [struct device] that [disk0_io] uses; [disk0_buffer]. *)
Record disk0 : Type := mk_disk0 {
  rd_valid : bool;
  rd_lba : Z;
  rd_data : list Z;
  dk_blocks : Z;
  dk_blocksize : Z;
  disk0_buffer : list Z;
}.
#[export] Instance eta_disk0 : Eta disk0 :=
  λ r, mk_disk0 (rd_valid r) (rd_lba r) (rd_data r) (dk_blocks r) (dk_blocksize r) (disk0_buffer r).

(** [ramdisk_init_struct] with an initial RAM disk that holds [img]. *)
Definition ramdisk_init_struct (img : list Z) : M disk0 unit :=
  let size := Z.of_nat (length img) in
  _ ← modify (λ d, d <| rd_valid := false |> <| rd_lba := 0 |>);
  _ ← assert (size mod SECTSIZE =? 0);
  if negb (size =? 0) then
    modify (λ d, d <| rd_valid := true |> <| rd_lba := size / SECTSIZE |> <| rd_data := img |>)
  else mret tt.

(** [nsecs < 0] is a comparison of an unsigned number. *)
Definition ramdisk_read (secno nsecs : Z) : M disk0 (Z * list Z) :=
  d ← get;
  let n := let r := u32 (rd_lba d - secno) in if nsecs <? r then nsecs else r in
  if n <? 0 then mret (-1, [])
  else bs ← load_range (rd_data d) (secno * SECTSIZE) (n * SECTSIZE); mret (0, bs).

Definition ramdisk_write (secno : Z) (src : list Z) (nsecs : Z) : M disk0 Z :=
  d ← get;
  let n := let r := u32 (rd_lba d - secno) in if nsecs <? r then nsecs else r in
  if n <? 0 then mret (-1)
  else
    bs ← load_range src 0 (n * SECTSIZE);
    data ← store_range (rd_data d) (secno * SECTSIZE) bs;
    _ ← put (d <| rd_data := data |>);
    mret 0.

(** A device that is not there reads and writes nothing. *)
Definition ide_read_secs (secno nsecs : Z) : M disk0 (Z * list Z) :=
  d ← get; if rd_valid d then ramdisk_read secno nsecs else mret (0, []).
Definition ide_write_secs (secno : Z) (src : list Z) (nsecs : Z) : M disk0 Z :=
  d ← get; if rd_valid d then ramdisk_write secno src nsecs else mret 0.
Definition ide_device_size : M disk0 Z := d ← get; mret (if rd_valid d then rd_lba d else 0).

(** ** [fs/devs/dev_disk0.c] *)

Definition disk0_read_blks_nolock (blkno nblks : Z) : M disk0 unit :=
  r ← ide_read_secs (u32 (blkno * DISK0_BLK_NSECT)) (u32 (nblks * DISK0_BLK_NSECT));
  if r.1 =? 0 then
    d ← get;
    b ← store_range (disk0_buffer d) 0 r.2;
    put (d <| disk0_buffer := b |>)
  else fail Panic.

Definition disk0_write_blks_nolock (blkno nblks : Z) : M disk0 unit :=
  d ← get;
  ret ← ide_write_secs (u32 (blkno * DISK0_BLK_NSECT)) (disk0_buffer d) (u32 (nblks * DISK0_BLK_NSECT));
  if ret =? 0 then mret tt else fail Panic.

(** A call on the [iobuf] that is passed by pointer. *)
Definition with_iob {S A} (m : M iobuf A) (iob : iobuf) : M S (A * iobuf) := λ s,
  match m iob with Ok (a, iob') => Ok ((a, iob'), s) | Err e => Err e end.

(** One turn of the transfer loop: the [iobuf], [resid] and [blkno]. *)
Definition disk0_body (write : bool) (p : iobuf * Z * Z) : M disk0 (iobuf * Z * Z + iobuf) :=
  let '(iob, resid, blkno) := p in
  if resid =? 0 then mret (inr iob) else
  if write then
    d ← get;
    m ← with_iob (iobuf_move (disk0_buffer d) DISK0_BUFSIZE false) iob;
    let '((_, copied, buf), iob') := m in
    _ ← put (d <| disk0_buffer := buf |>);
    _ ← assert (negb (copied =? 0) && (copied <=? resid) && (copied mod DISK0_BLKSIZE =? 0));
    let nblks := copied / DISK0_BLKSIZE in
    _ ← disk0_write_blks_nolock blkno nblks;
    mret (inl (iob', resid - copied, u32 (blkno + nblks)))
  else
    let alen := if resid <? DISK0_BUFSIZE then resid else DISK0_BUFSIZE in
    let nblks := alen / DISK0_BLKSIZE in
    _ ← disk0_read_blks_nolock blkno nblks;
    d ← get;
    m ← with_iob (iobuf_move (disk0_buffer d) alen true) iob;
    let '((_, copied, _), iob') := m in
    _ ← assert ((copied =? alen) && (copied mod DISK0_BLKSIZE =? 0));
    mret (inl (iob', resid - copied, u32 (blkno + nblks))).

(** [offset / DISK0_BLKSIZE] and [%] are signed divisions. *)
Definition disk0_io (iob : iobuf) (write : bool) : M disk0 (Z * iobuf) :=
  d ← get;
  let offset := io_offset iob in
  let resid := io_resid iob in
  let blkno := u32 (Z.quot offset DISK0_BLKSIZE) in
  let nblks := resid / DISK0_BLKSIZE in
  if negb (Z.rem offset DISK0_BLKSIZE =? 0) || negb (resid mod DISK0_BLKSIZE =? 0) then mret (- E_INVAL, iob) else
  if dk_blocks d <? u32 (blkno + nblks) then mret (- E_INVAL, iob) else
  if nblks =? 0 then mret (0, iob) else
  iob' ← loop (S (Z.to_nat resid)) (disk0_body write) (iob, resid, blkno);
  mret (0, iob').

(** [buf]: what [kmalloc(DISK0_BUFSIZE)] returns, with its content. *)
Definition disk0_device_init (buf : option (list Z)) : M disk0 unit :=
  d ← get;
  _ ← assert (rd_valid d);
  size ← ide_device_size;
  _ ← modify (λ d, d <| dk_blocks := size / DISK0_BLK_NSECT |> <| dk_blocksize := DISK0_BLKSIZE |>);
  match buf with
  | Some b => modify (λ d, d <| disk0_buffer := b |>)
  | None => fail Panic
  end.

(** ** The RAM disk is a block device *)

Lemma iobuf_move_out iob data n :
  0 < n → in_range (io_mem iob) (io_base iob) (Z.min n (io_resid iob)) = true → 0 < io_resid iob →
  in_range data 0 (Z.min n (io_resid iob)) = true →
  let k := Z.min n (io_resid iob) in
  ∃ iob', iobuf_move data n false iob =
      Ok ((if n - k =? 0 then 0 else - E_NO_MEM, k, splice data 0 (slice (io_mem iob) (io_base iob) k)), iob') ∧
    io_mem iob' = io_mem iob ∧ io_base iob' = io_base iob + k ∧ io_resid iob' = io_resid iob - k.
Proof.
  intros Hn Hm Hr Hd k. unfold iobuf_move. rewrite (bind_ok _ _ _ _ _ eq_refl). cbv zeta.
  replace (if n <? io_resid iob then n else io_resid iob) with k by (unfold k; destruct (Z.ltb_spec n (io_resid iob)); lia).
  rewrite (proj2 (Z.ltb_lt 0 k)) by lia.
  assert (len (slice (io_mem iob) (io_base iob) k) = k) as Hl by by apply slice_len.
  rewrite (bind_ok _ _ iob (splice data 0 (slice (io_mem iob) (io_base iob) k)) iob).
  2: { rewrite (bind_ok _ _ _ _ _ (load_range_ok _ _ _ _ Hm)). apply store_range_ok. by rewrite Hl. }
  unfold iobuf_skip. rewrite (bind_ok _ _ _ tt (iob <| io_base := io_base iob + k |>
    <| io_offset := s32 (io_offset iob + k) |> <| io_resid := io_resid iob - k |>)); [by eexists|].
  rewrite (bind_ok _ _ _ _ _ eq_refl). by rewrite (proj2 (Z.leb_le _ _)) by lia.
Qed.

Lemma iobuf_move_in iob data n :
  0 < n ≤ io_resid iob → in_range (io_mem iob) (io_base iob) n = true → in_range data 0 n = true →
  ∃ iob', iobuf_move data n true iob = Ok ((0, n, data), iob') ∧
    io_mem iob' = splice (io_mem iob) (io_base iob) (slice data 0 n) ∧
    io_base iob' = io_base iob + n ∧ io_resid iob' = io_resid iob - n.
Proof.
  intros Hn Hm Hd. unfold iobuf_move. rewrite (bind_ok _ _ _ _ _ eq_refl). cbv zeta.
  replace (if n <? io_resid iob then n else io_resid iob) with n by (destruct (Z.ltb_spec n (io_resid iob)); lia).
  rewrite (proj2 (Z.ltb_lt 0 n)) by lia.
  set (m := splice (io_mem iob) (io_base iob) (slice data 0 n)).
  rewrite (bind_ok _ _ iob data (iob <| io_mem := m |>)).
  2: { rewrite (bind_ok _ _ _ _ _ (load_range_ok _ _ _ _ Hd)).
       rewrite (bind_ok _ _ _ m iob); [done|]. apply store_range_ok. by rewrite slice_len. }
  unfold iobuf_skip. rewrite (bind_ok _ _ _ tt (iob <| io_mem := m |> <| io_base := io_base iob + n |>
    <| io_offset := s32 (io_offset iob + n) |> <| io_resid := io_resid iob - n |>)).
  2: { rewrite (bind_ok _ _ _ _ _ eq_refl). simpl. by rewrite (proj2 (Z.leb_le _ _)) by lia. }
  rewrite Z.sub_diag. by eexists.
Qed.

Record disk0_wf (d : disk0) : Prop := {
  dw_valid : rd_valid d = true;
  dw_lba : 0 ≤ rd_lba d < 2 ^ 22;
  dw_data : len (rd_data d) = rd_lba d * SECTSIZE;
  dw_blocks : dk_blocks d = rd_lba d / DISK0_BLK_NSECT;
  dw_blksize : dk_blocksize d = DISK0_BLKSIZE;
  dw_buffer : len (disk0_buffer d) = DISK0_BUFSIZE;
}.

Ltac disk0_consts := change DISK0_BLKSIZE with 4096 in *; change DISK0_BLK_NSECT with 8 in *;
  change DISK0_BUFSIZE with 16384 in *; change SECTSIZE with 512 in *.

Lemma disk0_range d b k :
  disk0_wf d → 0 ≤ b → 0 ≤ k → b + k ≤ dk_blocks d →
  in_range (rd_data d) (b * 4096) (k * 4096) = true ∧ b + k < 2 ^ 19.
Proof.
  intros [] ???. disk0_consts. rewrite in_range_spec.
  pose proof (Z.div_mod (rd_lba d) 8 ltac:(lia)). pose proof (Z.mod_pos_bound (rd_lba d) 8 ltac:(lia)). lia.
Qed.

Lemma disk0_read_blks_ok d b k :
  disk0_wf d → 0 ≤ b → 0 ≤ k ≤ 4 → b + k ≤ dk_blocks d →
  disk0_read_blks_nolock b k d =
    Ok (tt, d <| disk0_buffer := splice (disk0_buffer d) 0 (slice (rd_data d) (b * 4096) (k * 4096)) |>).
Proof.
  intros Hwf Hb Hk Hbk. destruct (disk0_range d b k Hwf Hb ltac:(lia) Hbk) as [Hr Hlt]. destruct Hwf. disk0_consts.
  unfold disk0_read_blks_nolock, ide_read_secs, ramdisk_read. disk0_consts. rewrite !u32_id by lia.
  pose proof (Z.div_mod (rd_lba d) 8 ltac:(lia)). pose proof (Z.mod_pos_bound (rd_lba d) 8 ltac:(lia)).
  erewrite bind_ok; [|rewrite (bind_ok _ _ _ _ _ eq_refl), dw_valid0, (bind_ok _ _ _ _ _ eq_refl); cbv zeta;
    rewrite u32_id by lia].
  2: { replace (if k * 8 <? rd_lba d - b * 8 then k * 8 else rd_lba d - b * 8) with (k * 8)
         by (destruct (Z.ltb_spec (k * 8) (rd_lba d - b * 8)); lia).
       rewrite (proj2 (Z.ltb_ge _ _)) by lia.
       replace (b * 8 * 512) with (b * 4096) by lia. replace (k * 8 * 512) with (k * 4096) by lia.
       by rewrite (bind_ok _ _ _ _ _ (load_range_ok _ _ _ _ Hr)). }
  cbn [fst snd]. rewrite Z.eqb_refl, (bind_ok _ _ _ _ _ eq_refl).
  rewrite (bind_ok _ _ d (splice (disk0_buffer d) 0 (slice (rd_data d) (b * 4096) (k * 4096))) d); [done|].
  apply store_range_ok. rewrite slice_len by done. apply in_range_spec. lia.
Qed.

Lemma disk0_write_blks_ok d b k :
  disk0_wf d → 0 ≤ b → 0 ≤ k ≤ 4 → b + k ≤ dk_blocks d →
  disk0_write_blks_nolock b k d =
    Ok (tt, d <| rd_data := splice (rd_data d) (b * 4096) (slice (disk0_buffer d) 0 (k * 4096)) |>).
Proof.
  intros Hwf Hb Hk Hbk. destruct (disk0_range d b k Hwf Hb ltac:(lia) Hbk) as [Hr Hlt]. destruct Hwf. disk0_consts.
  unfold disk0_write_blks_nolock, ide_write_secs, ramdisk_write. disk0_consts. rewrite !u32_id by lia.
  pose proof (Z.div_mod (rd_lba d) 8 ltac:(lia)). pose proof (Z.mod_pos_bound (rd_lba d) 8 ltac:(lia)).
  assert (in_range (disk0_buffer d) 0 (k * 4096) = true) as Hb2 by (apply in_range_spec; lia).
  rewrite (bind_ok _ _ _ _ _ eq_refl).
  erewrite bind_ok; [|rewrite (bind_ok _ _ _ _ _ eq_refl), dw_valid0, (bind_ok _ _ _ _ _ eq_refl); cbv zeta;
    rewrite u32_id by lia].
  2: { replace (if k * 8 <? rd_lba d - b * 8 then k * 8 else rd_lba d - b * 8) with (k * 8)
         by (destruct (Z.ltb_spec (k * 8) (rd_lba d - b * 8)); lia).
       rewrite (proj2 (Z.ltb_ge _ _)) by lia.
       replace (b * 8 * 512) with (b * 4096) by lia. replace (k * 8 * 512) with (k * 4096) by lia.
       rewrite (bind_ok _ _ _ _ _ (load_range_ok _ _ _ _ Hb2)).
       rewrite (bind_ok _ _ d (splice (rd_data d) (b * 4096) (slice (disk0_buffer d) 0 (k * 4096))) d); [done|].
       apply store_range_ok. by rewrite slice_len. }
  done.
Qed.

(** One turn moves up to four blocks. *)
Lemma disk0_body_read d iob b k :
  disk0_wf d → 0 ≤ b → 0 < k → b + k ≤ dk_blocks d → io_resid iob = k * 4096 →
  in_range (io_mem iob) (io_base iob) (k * 4096) = true →
  let j := Z.min k 4 in
  ∃ iob' d', disk0_body false (iob, k * 4096, b) d = Ok (inl (iob', (k - j) * 4096, b + j), d') ∧
    io_mem iob' = splice (io_mem iob) (io_base iob) (slice (rd_data d) (b * 4096) (j * 4096)) ∧
    io_base iob' = io_base iob + j * 4096 ∧ io_resid iob' = (k - j) * 4096 ∧
    disk0_wf d' ∧ rd_data d' = rd_data d ∧ dk_blocks d' = dk_blocks d ∧ rd_lba d' = rd_lba d.
Proof.
  intros Hwf Hb Hk Hbk Hres Hm j. destruct (disk0_range d b j Hwf Hb ltac:(lia) ltac:(lia)) as [Hr Hlt].
  unfold disk0_body. rewrite (proj2 (Z.eqb_neq (k * 4096) 0)) by lia. disk0_consts. cbv zeta.
  replace (if k * 4096 <? 16384 then k * 4096 else 16384) with (j * 4096)
    by (unfold j; destruct (Z.ltb_spec (k * 4096) 16384); lia).
  rewrite Z.div_mul by lia.
  rewrite (bind_ok _ _ _ _ _ (disk0_read_blks_ok d b j Hwf Hb ltac:(lia) ltac:(lia))).
  pose proof (dw_buffer _ Hwf) as Hbl. disk0_consts. apply in_range_spec in Hm.
  assert (len (slice (rd_data d) (b * 4096) (j * 4096)) = j * 4096) as Hsl by by apply slice_len.
  set (buf := splice _ _ _). set (d' := d <| disk0_buffer := buf |>).
  assert (len buf = 16384) as Hbuf.
  { unfold buf. rewrite splice_length; [done|]. rewrite Hsl. apply in_range_spec. lia. }
  assert (slice buf 0 (j * 4096) = slice (rd_data d) (b * 4096) (j * 4096)) as Hsame.
  { rewrite <-Hsl at 1. apply slice_splice_eq. rewrite Hsl. apply in_range_spec. lia. }
  destruct (iobuf_move_in iob buf (j * 4096)) as (iob' & E & H1 & H2 & H3); [lia|apply in_range_spec; lia..|].
  rewrite (bind_ok _ _ _ _ _ eq_refl).
  rewrite (bind_ok (with_iob _ _) _ d' ((0, j * 4096, buf), iob') d')
    by (unfold with_iob; change (disk0_buffer _) with buf; by rewrite E).
  rewrite Z.eqb_refl, Z.mod_mul by lia. rewrite (bind_ok _ _ _ _ _ eq_refl). exists iob', d'.
  rewrite u32_id by lia. rewrite <-Z.mul_sub_distr_r. rewrite Hsame in H1.
  split_and!; try done; [lia|]. destruct Hwf. by constructor.
Qed.

Lemma disk0_body_write d iob b k :
  disk0_wf d → 0 ≤ b → 0 < k → b + k ≤ dk_blocks d → io_resid iob = k * 4096 →
  in_range (io_mem iob) (io_base iob) (k * 4096) = true →
  let j := Z.min k 4 in
  ∃ iob' d', disk0_body true (iob, k * 4096, b) d = Ok (inl (iob', (k - j) * 4096, b + j), d') ∧
    io_mem iob' = io_mem iob ∧ io_base iob' = io_base iob + j * 4096 ∧ io_resid iob' = (k - j) * 4096 ∧
    disk0_wf d' ∧ rd_data d' = splice (rd_data d) (b * 4096) (slice (io_mem iob) (io_base iob) (j * 4096)) ∧
    dk_blocks d' = dk_blocks d ∧ rd_lba d' = rd_lba d.
Proof.
  intros Hwf Hb Hk Hbk Hres Hm j. destruct (disk0_range d b j Hwf Hb ltac:(lia) ltac:(lia)) as [Hr Hlt].
  unfold disk0_body. rewrite (proj2 (Z.eqb_neq (k * 4096) 0)) by lia. disk0_consts.
  pose proof (dw_buffer _ Hwf) as Hbl. disk0_consts. apply in_range_spec in Hm as Hm'.
  destruct (iobuf_move_out iob (disk0_buffer d) 16384) as (iob' & E & H1 & H2 & H3); [lia|apply in_range_spec; lia|lia|apply in_range_spec; lia|].
  replace (Z.min 16384 (io_resid iob)) with (j * 4096) in * by lia.
  set (data := slice (io_mem iob) (io_base iob) (j * 4096)) in *.
  assert (len data = j * 4096) as Hdl by (apply slice_len, in_range_spec; lia).
  set (buf := splice (disk0_buffer d) 0 data) in *.
  assert (slice buf 0 (j * 4096) = data) as Hsame.
  { rewrite <-Hdl at 1. apply slice_splice_eq. rewrite Hdl. apply in_range_spec. lia. }
  assert (len buf = 16384) as Hbuf by (unfold buf; rewrite splice_length; [done|apply in_range_spec; lia]).
  set (d' := d <| disk0_buffer := buf |>).
  rewrite (bind_ok _ _ _ _ _ eq_refl). rewrite (bind_ok (with_iob _ _) _ d _ d) by (unfold with_iob; by rewrite E). cbv beta iota.
  rewrite (bind_ok _ _ _ tt d') by done.
  rewrite (proj2 (Z.eqb_neq (j * 4096) 0)), (proj2 (Z.leb_le (j * 4096) (k * 4096))), Z.mod_mul by lia.
  rewrite (bind_ok _ _ _ _ _ eq_refl). cbv zeta. rewrite Z.div_mul by lia.
  assert (disk0_wf d') as Hwf' by (destruct Hwf; by constructor).
  rewrite (bind_ok _ _ _ _ _ (disk0_write_blks_ok d' b j Hwf' Hb ltac:(lia) ltac:(simpl; lia))).
  change (disk0_buffer d') with buf. change (rd_data d') with (rd_data d). rewrite Hsame.
  eexists iob', _. rewrite u32_id by lia. rewrite <-Z.mul_sub_distr_r. split; [done|].
  split_and!; try done; [lia|]. destruct Hwf'. constructor; try done. simpl.
  rewrite splice_length; [done|]. by rewrite Hdl.
Qed.

Lemma disk0_loop_read (n : nat) : ∀ d iob b k fuel,
  disk0_wf d → 0 ≤ b → 0 ≤ k → b + k ≤ dk_blocks d → io_resid iob = k * 4096 → k ≤ Z.of_nat n → (n < fuel)%nat →
  in_range (io_mem iob) (io_base iob) (k * 4096) = true →
  ∃ iob' d', loop fuel (disk0_body false) (iob, k * 4096, b) d = Ok (iob', d') ∧
    io_mem iob' = splice (io_mem iob) (io_base iob) (slice (rd_data d) (b * 4096) (k * 4096)) ∧
    disk0_wf d' ∧ rd_data d' = rd_data d ∧ dk_blocks d' = dk_blocks d ∧ rd_lba d' = rd_lba d.
Proof.
  induction n as [|n IH]; intros d iob b k fuel Hwf Hb Hk Hbk Hres Hn Hf Hm; (destruct fuel as [|fuel]; [lia|]);
    (destruct (decide (k = 0)) as [->|Hne];
      [exists iob, d; rewrite Z.mul_0_l in *; rewrite (loop_stop _ _ _ _ iob d) by done; split_and!; try done;
       change (slice _ _ 0) with (@nil Z); symmetry; apply splice_nil; apply in_range_spec in Hm; lia|]); [lia|].
  destruct (disk0_body_read d iob b k) as (iob1 & d1 & E & H1 & H2 & H3 & Hwf1 & Hd1 & Hk1 & Hl1); [done|lia..|done|done|].
  rewrite (loop_next _ _ _ _ _ _ E). set (j := Z.min k 4) in *. apply in_range_spec in Hm.
  destruct (disk0_range d b j Hwf Hb ltac:(lia) ltac:(lia)) as [Hr Hlt].
  destruct (disk0_range d b k Hwf Hb ltac:(lia) ltac:(lia)) as [Hr' _]. apply in_range_spec in Hr'.
  assert (len (slice (rd_data d) (b * 4096) (j * 4096)) = j * 4096) as Hsl by by apply slice_len.
  assert (len (slice (rd_data d) (b * 4096) (k * 4096)) = k * 4096) as Hsk by (apply slice_len, in_range_spec; lia).
  destruct (IH d1 iob1 (b + j) (k - j) fuel) as (iob' & d' & E' & H1' & Hwf' & Hd' & Hk' & Hl'); [done|lia..|done|lia|lia| |].
  { apply in_range_spec. rewrite H1, H2, splice_length; [lia|]. rewrite Hsl. apply in_range_spec. lia. }
  exists iob', d'. rewrite E'. split_and!; try congruence. rewrite H1', H1, H2, Hd1.
  rewrite <-Hsl at 2. rewrite Z.mul_add_distr_r.
  assert (slice (rd_data d) (b * 4096) (j * 4096) ++ slice (rd_data d) (b * 4096 + j * 4096) ((k - j) * 4096) =
    slice (rd_data d) (b * 4096) (k * 4096)) as Happ.
  { rewrite slice_app by lia. f_equal. lia. }
  rewrite splice_splice, Happ; [done|]. rewrite Happ, Hsk. apply in_range_spec. lia.
Qed.

Lemma disk0_loop_write (n : nat) : ∀ d iob b k fuel,
  disk0_wf d → 0 ≤ b → 0 ≤ k → b + k ≤ dk_blocks d → io_resid iob = k * 4096 → k ≤ Z.of_nat n → (n < fuel)%nat →
  in_range (io_mem iob) (io_base iob) (k * 4096) = true →
  ∃ iob' d', loop fuel (disk0_body true) (iob, k * 4096, b) d = Ok (iob', d') ∧ io_mem iob' = io_mem iob ∧
    disk0_wf d' ∧ rd_data d' = splice (rd_data d) (b * 4096) (slice (io_mem iob) (io_base iob) (k * 4096)) ∧
    dk_blocks d' = dk_blocks d ∧ rd_lba d' = rd_lba d.
Proof.
  induction n as [|n IH]; intros d iob b k fuel Hwf Hb Hk Hbk Hres Hn Hf Hm; (destruct fuel as [|fuel]; [lia|]);
    (destruct (decide (k = 0)) as [->|Hne];
      [exists iob, d; rewrite Z.mul_0_l in *; rewrite (loop_stop _ _ _ _ iob d) by done; split_and!; try done;
       change (slice _ _ 0) with (@nil Z); symmetry; apply splice_nil; lia|]); [lia|].
  destruct (disk0_body_write d iob b k) as (iob1 & d1 & E & H1 & H2 & H3 & Hwf1 & Hd1 & Hk1 & Hl1); [done|lia..|done|done|].
  rewrite (loop_next _ _ _ _ _ _ E). set (j := Z.min k 4) in *. apply in_range_spec in Hm.
  destruct (disk0_range d b k Hwf Hb ltac:(lia) ltac:(lia)) as [Hr' _]. apply in_range_spec in Hr'.
  destruct (IH d1 iob1 (b + j) (k - j) fuel) as (iob' & d' & E' & H1' & Hwf' & Hd' & Hk' & Hl'); [done|lia..|done|lia|lia| |].
  { apply in_range_spec. rewrite H1, H2. lia. }
  exists iob', d'. rewrite E'. split_and!; try congruence. rewrite Hd', Hd1, H1, H2.
  assert (len (slice (io_mem iob) (io_base iob) (j * 4096)) = j * 4096) as Hsl by (apply slice_len, in_range_spec; lia).
  assert (slice (io_mem iob) (io_base iob) (j * 4096) ++ slice (io_mem iob) (io_base iob + j * 4096) ((k - j) * 4096) =
    slice (io_mem iob) (io_base iob) (k * 4096)) as Happ.
  { rewrite slice_app by lia. f_equal. lia. }
  rewrite Z.mul_add_distr_r. rewrite <-Hsl at 2. rewrite splice_splice, Happ; [done|].
  rewrite Happ, slice_len by (apply in_range_spec; lia). apply in_range_spec. lia.
Qed.

(** A request for [k] whole blocks from block [b]. *)
Definition disk0_iob (mem : list Z) (pos b k : Z) : iobuf := iobuf_init mem pos (k * DISK0_BLKSIZE) (s32 (u32 (b * DISK0_BLKSIZE))).

Lemma disk0_io_start d mem pos b k write :
  disk0_wf d → 0 ≤ b → 0 < k → b + k ≤ dk_blocks d →
  disk0_io (disk0_iob mem pos b k) write d =
  (iob' ← loop (S (Z.to_nat (k * 4096))) (disk0_body write) (disk0_iob mem pos b k, k * 4096, b); mret (0, iob')) d.
Proof.
  intros Hwf Hb Hk Hbk. destruct (disk0_range d b k Hwf Hb ltac:(lia) Hbk) as [_ Hlt].
  unfold disk0_io. rewrite (bind_ok _ _ _ _ _ eq_refl). cbv zeta.
  unfold disk0_iob, iobuf_init. cbn [io_offset io_resid]. disk0_consts.
  rewrite (u32_id (b * 4096)), s32_id, Z.quot_div_nonneg, Z.rem_mod_nonneg, Z.div_mul, Z.mod_mul, !Z.mod_mul by lia.
  rewrite Z.div_mul by lia. rewrite (u32_id b), u32_id by lia. cbn [orb negb Z.eqb].
  rewrite (proj2 (Z.ltb_ge (dk_blocks d) (b + k))), (proj2 (Z.eqb_neq k 0)) by lia. done.
Qed.

(** A block number below zero, [m] blocks before the device, as the unsigned
    number it becomes. *)
Lemma disk0_before d b m :
  disk0_wf d → b = 2 ^ 32 - m → 0 < m ≤ 2 ^ 19 →
  let secno := u32 (b * DISK0_BLK_NSECT) in
  u32 (rd_lba d - secno) = rd_lba d + 8 * m ∧
  ∀ n, 0 < n → in_range (rd_data d) (secno * SECTSIZE) (n * SECTSIZE) = false.
Proof.
  intros [] -> Hm. disk0_consts. cbv zeta.
  assert (u32 ((2 ^ 32 - m) * 8) = 2 ^ 32 - 8 * m) as ->.
  { unfold u32. symmetry. apply (Z.mod_unique_pos _ _ 7); lia. }
  split.
  - unfold u32. symmetry. apply (Z.mod_unique_pos _ _ (-1)); lia.
  - intros n Hn. apply not_true_iff_false. rewrite in_range_spec. lia.
Qed.

Lemma disk0_read_before d b k m :
  disk0_wf d → b = 2 ^ 32 - m → 0 < m ≤ 2 ^ 19 → 0 < k ≤ 4 →
  disk0_read_blks_nolock b k d = Err Fault.
Proof.
  intros Hwf Hb Hm Hk. destruct (disk0_before d b m Hwf Hb Hm) as [Hl Hr].
  pose proof (dw_lba _ Hwf). unfold disk0_read_blks_nolock, ide_read_secs, ramdisk_read.
  apply bind_err. rewrite (bind_ok _ _ _ _ _ eq_refl), (dw_valid _ Hwf), (bind_ok _ _ _ _ _ eq_refl).
  cbv zeta. rewrite Hl. disk0_consts. rewrite (u32_id (k * 8)) by lia.
  set (n := if k * 8 <? rd_lba d + 8 * m then k * 8 else rd_lba d + 8 * m).
  assert (0 < n) by (unfold n; destruct (_ <? _); lia).
  rewrite (proj2 (Z.ltb_ge n 0)) by lia. apply bind_err. unfold load_range. by rewrite Hr.
Qed.

Lemma disk0_write_before d b k m :
  disk0_wf d → b = 2 ^ 32 - m → 0 < m ≤ 2 ^ 19 → 0 < k ≤ 4 →
  disk0_write_blks_nolock b k d = Err Fault.
Proof.
  intros Hwf Hb Hm Hk. destruct (disk0_before d b m Hwf Hb Hm) as [Hl Hr].
  pose proof (dw_lba _ Hwf). pose proof (dw_buffer _ Hwf) as Hbuf.
  unfold disk0_write_blks_nolock, ide_write_secs, ramdisk_write.
  rewrite (bind_ok _ _ _ _ _ eq_refl).
  apply bind_err. rewrite (bind_ok _ _ _ _ _ eq_refl), (dw_valid _ Hwf), (bind_ok _ _ _ _ _ eq_refl).
  cbv zeta. rewrite Hl. disk0_consts. rewrite (u32_id (k * 8)) by lia.
  set (n := if k * 8 <? rd_lba d + 8 * m then k * 8 else rd_lba d + 8 * m).
  assert (0 < n ≤ k * 8) by (unfold n; destruct (Z.ltb_spec (k * 8) (rd_lba d + 8 * m)); lia).
  rewrite (proj2 (Z.ltb_ge n 0)) by lia.
  assert (in_range (disk0_buffer d) 0 (n * 512) = true) as Hin by (apply in_range_spec; lia).
  rewrite (bind_ok _ _ _ _ _ (load_range_ok _ _ _ _ Hin)).
  apply bind_err. unfold store_range. rewrite slice_len by done. by rewrite Hr by lia.
Qed.

Lemma disk0_body_before d iob b k m write :
  disk0_wf d → b = 2 ^ 32 - m → 0 < m ≤ 2 ^ 19 → 0 < k → io_resid iob = k * 4096 →
  in_range (io_mem iob) (io_base iob) (k * 4096) = true →
  disk0_body write (iob, k * 4096, b) d = Err Fault.
Proof.
  intros Hwf Hb Hm Hk Hres Hin. unfold disk0_body.
  rewrite (proj2 (Z.eqb_neq (k * 4096) 0)) by lia. disk0_consts. set (j := Z.min k 4).
  apply in_range_spec in Hin as Hin'. pose proof (dw_buffer _ Hwf) as Hbl. disk0_consts. destruct write.
  - destruct (iobuf_move_out iob (disk0_buffer d) 16384) as (iob' & E & H1 & H2 & H3);
      [lia|apply in_range_spec; lia|lia|apply in_range_spec; lia|].
    replace (Z.min 16384 (io_resid iob)) with (j * 4096) in * by lia.
    set (data := slice (io_mem iob) (io_base iob) (j * 4096)) in *.
    assert (len data = j * 4096) as Hdl by (apply slice_len, in_range_spec; lia).
    set (buf := splice (disk0_buffer d) 0 data) in *.
    assert (len buf = 16384) as Hbuf
      by (unfold buf; rewrite splice_length; [done|apply in_range_spec; lia]).
    set (d' := d <| disk0_buffer := buf |>).
    rewrite (bind_ok _ _ _ _ _ eq_refl).
    rewrite (bind_ok (with_iob _ _) _ d _ d) by (unfold with_iob; by rewrite E). cbv beta iota.
    rewrite (bind_ok _ _ _ tt d') by done.
    rewrite (proj2 (Z.eqb_neq (j * 4096) 0)), (proj2 (Z.leb_le (j * 4096) (k * 4096))), Z.mod_mul by lia.
    rewrite (bind_ok _ _ _ _ _ eq_refl). cbv zeta. rewrite Z.div_mul by lia. apply bind_err.
    apply (disk0_write_before d' b j m); [destruct Hwf; by constructor|done|lia|lia].
  - cbv zeta. replace (if k * 4096 <? 16384 then k * 4096 else 16384) with (j * 4096)
      by (unfold j; destruct (Z.ltb_spec (k * 4096) 16384); lia).
    rewrite Z.div_mul by lia. apply bind_err. apply (disk0_read_before d b j m); [done|done|lia|lia].
Qed.

Lemma disk0_unaligned d iob write :
  ¬ (io_offset iob mod 4096 = 0 ∧ io_resid iob mod 4096 = 0) →
  disk0_io iob write d = Ok ((- E_INVAL, iob), d).
Proof.
  intros Hna. unfold disk0_io. rewrite (bind_ok _ _ _ _ _ eq_refl). cbv zeta. disk0_consts.
  destruct (Z.eqb_spec (Z.rem (io_offset iob) 4096) 0) as [E1|], (Z.eqb_spec (io_resid iob mod 4096) 0) as [E2|];
    try done. exfalso. apply Hna. split; [|done].
  by apply Z.mod_divide, Z.rem_divide.
Qed.

(** The check of the end of the device, for every offset and length. *)
Lemma disk0_check d iob write :
  disk0_wf d → - 2 ^ 31 ≤ io_offset iob < 2 ^ 31 → 0 ≤ io_resid iob < 2 ^ 32 →
  io_offset iob mod 4096 = 0 → io_resid iob mod 4096 = 0 →
  let b := io_offset iob / 4096 in let k := io_resid iob / 4096 in
  disk0_io iob write d =
    if dk_blocks d <? u32 (b + k) then Ok ((- E_INVAL, iob), d)
    else if k =? 0 then Ok ((0, iob), d)
    else (iob' ← loop (S (Z.to_nat (io_resid iob))) (disk0_body write) (iob, io_resid iob, u32 b);
          mret (0, iob')) d.
Proof.
  intros Hwf Ho Hr Eo Er b k. unfold disk0_io. rewrite (bind_ok _ _ _ _ _ eq_refl). cbv zeta. disk0_consts.
  assert (Z.rem (io_offset iob) 4096 = 0 ∧ Z.quot (io_offset iob) 4096 = b) as [-> ->].
  { assert (io_offset iob = b * 4096) as -> by (unfold b; pose proof (Z.div_mod (io_offset iob) 4096); lia).
    by rewrite Z.rem_mul, Z.quot_mul by lia. }
  rewrite Er. cbn [orb negb Z.eqb]. fold k.
  assert (u32 (u32 b + k) = u32 (b + k)) as -> by (unfold u32; apply Zplus_mod_idemp_l).
  destruct (_ <? _); [done|]. by destruct (k =? 0).
Qed.

(** C29.  The disk driver over the RAM disk, for every offset and length.  A
    request for whole blocks that lie inside the device succeeds for any number
    of blocks, in chunks of the driver's buffer: reading fills exactly the
    caller's range with the blocks and leaves the disk as it was, writing
    replaces exactly these blocks by the caller's bytes.  The loop ends, and no
    assertion of the driver fails.  A request that is not aligned to blocks is
    [-E_INVAL] and changes nothing, and so does a request that starts at or
    behind the start of the device and leads past its end; an empty one inside
    it is 0.  A request that starts before the device, at a negative offset, is
    [-E_INVAL] unless it reaches the device and ends in it: then the sum of the
    check wraps around, the check passes, and memory outside the RAM disk is
    accessed. *)
Theorem disk0_io_correct d :
  disk0_wf d →
  (∀ mem pos b k, 0 ≤ b → 0 < k → b + k ≤ dk_blocks d → in_range mem pos (k * DISK0_BLKSIZE) = true →
    wp (disk0_io (disk0_iob mem pos b k) false) d (λ r d', r.1 = 0 ∧ disk0_wf d' ∧ rd_data d' = rd_data d ∧
      io_mem r.2 = splice mem pos (slice (rd_data d) (b * DISK0_BLKSIZE) (k * DISK0_BLKSIZE))) ∧
    wp (disk0_io (disk0_iob mem pos b k) true) d (λ r d', r.1 = 0 ∧ disk0_wf d' ∧ io_mem r.2 = mem ∧
      rd_data d' = splice (rd_data d) (b * DISK0_BLKSIZE) (slice mem pos (k * DISK0_BLKSIZE)))) ∧
  (∀ iob write, - 2 ^ 31 ≤ io_offset iob < 2 ^ 31 → 0 ≤ io_resid iob < 2 ^ 32 →
    let fits := io_offset iob + io_resid iob ≤ dk_blocks d * DISK0_BLKSIZE in
    (io_offset iob mod DISK0_BLKSIZE ≠ 0 ∨ io_resid iob mod DISK0_BLKSIZE ≠ 0 ∨ ¬ fits ∨
       (io_offset iob < 0 ∧ io_offset iob + io_resid iob < 0) →
     disk0_io iob write d = Ok ((- E_INVAL, iob), d)) ∧
    (io_offset iob mod DISK0_BLKSIZE = 0 → io_resid iob = 0 → 0 ≤ io_offset iob → fits →
     disk0_io iob write d = Ok ((0, iob), d)) ∧
    (io_offset iob mod DISK0_BLKSIZE = 0 → io_resid iob mod DISK0_BLKSIZE = 0 →
     io_offset iob < 0 ≤ io_offset iob + io_resid iob → fits →
     in_range (io_mem iob) (io_base iob) (io_resid iob) = true →
     disk0_io iob write d = Err Fault)).
Proof.
  intros Hwf. disk0_consts. split.
  - intros mem pos b k Hb Hk Hbk Hm. split; unfold wp; rewrite disk0_io_start by done.
    + destruct (disk0_loop_read (Z.to_nat k) d (disk0_iob mem pos b k) b k (S (Z.to_nat (k * 4096))))
        as (iob' & d' & E & H1 & Hwf' & Hd' & _); [done|lia..|done|lia|lia|done|].
      exists (0, iob'), d'. by rewrite (bind_ok _ _ _ _ _ E).
    + destruct (disk0_loop_write (Z.to_nat k) d (disk0_iob mem pos b k) b k (S (Z.to_nat (k * 4096))))
        as (iob' & d' & E & H1 & Hwf' & Hd' & _); [done|lia..|done|lia|lia|done|].
      exists (0, iob'), d'. by rewrite (bind_ok _ _ _ _ _ E).
  - intros iob write Ho Hr fits. assert (0 ≤ dk_blocks d < 2 ^ 19) as Hdk.
    { destruct Hwf. disk0_consts. rewrite dw_blocks0.
      split; [apply Z.div_pos; lia|apply Z.div_lt_upper_bound; lia]. }
    destruct (decide (io_offset iob mod 4096 = 0 ∧ io_resid iob mod 4096 = 0)) as [[Eo Er]|Hna].
    2:{ split_and!; [intros _; by apply disk0_unaligned|..].
        - intros E1 E2. exfalso. apply Hna. by rewrite E2.
        - intros E1 E2. exfalso. by apply Hna. }
    rewrite (disk0_check d iob write) by done. cbv zeta.
    pose proof (Z.div_mod (io_offset iob) 4096 ltac:(lia)) as Eb.
    pose proof (Z.div_mod (io_resid iob) 4096 ltac:(lia)) as Ek. rewrite Eo, Z.add_0_r in Eb. rewrite Er, Z.add_0_r in Ek.
    set (b := io_offset iob / 4096) in *. set (k := io_resid iob / 4096) in *. clearbody b k. unfold fits.
    split_and!.
    + intros Hbad. assert (dk_blocks d < u32 (b + k)) as Hlt.
      { destruct (Z.lt_ge_cases (b + k) 0).
        - assert (u32 (b + k) = 2 ^ 32 + (b + k)) as ->; [|lia].
          unfold u32. symmetry. apply (Z.mod_unique_pos _ _ (-1)); lia.
        - rewrite u32_id by lia. lia. }
      by rewrite (proj2 (Z.ltb_lt _ _) Hlt).
    + intros _ Hk Hb Hf. rewrite u32_id by lia. rewrite (proj2 (Z.ltb_ge _ _)) by lia.
      by rewrite (proj2 (Z.eqb_eq k 0)) by lia.
    + intros _ _ Hb Hf Hin. rewrite u32_id by lia. rewrite (proj2 (Z.ltb_ge _ _)) by lia.
      rewrite (proj2 (Z.eqb_neq k 0)) by lia. apply bind_err.
      assert (u32 b = 2 ^ 32 - (- b)) as Hub by (unfold u32; symmetry; apply (Z.mod_unique_pos _ _ (-1)); lia).
      rewrite loop_step. assert (io_resid iob = k * 4096) as Hk by lia. rewrite Hk in *.
      by rewrite (disk0_body_before d iob (u32 b) k (- b)) by (done || lia).
Qed.

#[export] Instance disk0_device : BlockDevice disk0 := {|
  d_io iob write := disk0_io iob write;
  d_blocks := dk_blocks;
  d_blocksize := dk_blocksize;
  dblock d b := slice (rd_data d) (b * DISK0_BLKSIZE) DISK0_BLKSIZE;
|}.

#[export] Program Instance disk0_laws : BlockDeviceLaws disk0 := {| d_wf := disk0_wf |}.
Next Obligation.
  intros d b Hwf Hb. simpl in *. destruct (disk0_range d b 1 Hwf) as [Hr _]; [lia..|].
  rewrite Z.mul_1_l in Hr. apply slice_length, Hr.
Qed.
Next Obligation.
  intros d mem pos b Hwf Hb Hm. simpl in *.
  pose proof (disk0_io_start d mem pos b 1 false Hwf ltac:(lia) ltac:(lia) ltac:(lia)) as Hstart.
  destruct (disk0_loop_read 1 d (disk0_iob mem pos b 1) b 1 (S (Z.to_nat (1 * 4096)))) as
    (iob' & d' & E & H1 & Hwf' & Hd' & Hk' & Hl'); [done|lia..|done|lia|lia|done|].
  rewrite (bind_ok _ _ _ _ _ E) in Hstart. exists iob', d'. split; [exact Hstart|]. clear Hstart E. rewrite Z.mul_1_l in *. split_and!; [exact H1|done|exact Hk'| |].
  - by rewrite (dw_blksize _ Hwf'), (dw_blksize _ Hwf).
  - intros b' _. by rewrite Hd'.
Qed.
Next Obligation.
  intros d mem pos b Hwf Hb Hm. simpl in *.
  pose proof (disk0_io_start d mem pos b 1 true Hwf ltac:(lia) ltac:(lia) ltac:(lia)) as Hstart.
  destruct (disk0_loop_write 1 d (disk0_iob mem pos b 1) b 1 (S (Z.to_nat (1 * 4096)))) as
    (iob' & d' & E & H1 & Hwf' & Hd' & Hk' & Hl'); [done|lia..|done|lia|lia|done|].
  rewrite (bind_ok _ _ _ _ _ E) in Hstart. exists iob', d'. split; [exact Hstart|]. clear Hstart E. rewrite Z.mul_1_l in *. split_and!; [exact H1|done|exact Hk'| |].
  - by rewrite (dw_blksize _ Hwf'), (dw_blksize _ Hwf).
  - intros b' Hb'. rewrite Hd'. cbn [disk0_iob iobuf_init io_mem io_base]. change BLKSIZE with 4096 in *. disk0_consts.
    assert (len (slice mem pos 4096) = 4096) as Hs by by apply slice_len.
    destruct (disk0_range d b 1 Hwf ltac:(lia) ltac:(lia) ltac:(lia)) as [Hr _].
    destruct (Z.eqb_spec b' b) as [->|Hne].
    + pose proof (slice_splice_eq (rd_data d) (b * 4096) (slice mem pos 4096)) as Hx. rewrite Hs in Hx. by apply Hx.
    + apply slice_splice_ne; [by rewrite Hs|lia|]. rewrite Hs. lia.
Qed.
