(* ===== verification/Sfs.v ===== *)
(** * The simple file system

    [fs/sfs/sfs_io.c], [sfs_inode.c], [sfs_fs.c] and the reference counts of
    [fs/vfs/inode.c], over any block device ([BlockDevice]).

    The state is [struct sfs_fs] with the inodes in memory.  An inode is named
    by its address; [struct inode], the [struct sfs_inode] in it and its [din]
    are one record.  Each operation runs with the semaphores of the file system
    and of its inodes free, so that taking them does not block: what is left of
    [trylock_sin] is its test for a removed inode.  An out parameter is a
    component of the result, 0 where the code leaves it unset.  [oom] says for
    each [kmalloc] to come whether it succeeds. *)

From S2P Require Import Prelude Bytes Mem DList Slab Bitmap Disk CStringSpec.

(** ** [fs/sfs/sfs.h] *)

Definition SFS_MAGIC : Z := 0x2f8dbe2a.
Definition SFS_BLKSIZE : Z := PGSIZE.
Definition SFS_NDIRECT : Z := 12.
Definition SFS_MAX_INFO_LEN : Z := 31.
Definition SFS_MAX_FNAME_LEN : Z := 255.
Definition SFS_MAX_FILE_SIZE : Z := 1024 * 1024 * 128.
Definition SFS_BLKN_SUPER : Z := 0.
Definition SFS_BLKN_ROOT : Z := 1.
Definition SFS_BLKN_FREEMAP : Z := 2.
Definition SFS_BLKBITS : Z := SFS_BLKSIZE * 8.
Definition SFS_BLK_NENTRY : Z := SFS_BLKSIZE / 4.
Definition SFS_TYPE_FILE : Z := 1.
Definition SFS_TYPE_DIR : Z := 2.
Definition SFS_TYPE_LINK : Z := 3.

Definition E_EXISTS : Z := E_EXIST.
Definition E_NOTEMPTY : Z := E_ISDIR.
Definition E_NA_DEV : Z := E_BUSY.

(** [struct sfs_super] *)
Record sfs_super : Type := mk_super { magic : Z; blocks : Z; unused_blocks : Z; info : list Z }.
#[export] Instance eta_super : Eta sfs_super := λ r, mk_super (magic r) (blocks r) (unused_blocks r) (info r).

(** [struct sfs_disk_inode]; [fileinfo.size] and [dirinfo.slots] are the same
    word [din_size]. *)
Record sfs_disk_inode : Type := mk_din {
  din_size : Z;
  din_parent : Z;
  din_type : Z;
  din_nlinks : Z;
  din_blocks : Z;
  direct : list Z;
  indirect : Z;
  db_indirect : Z;
}.
#[export] Instance eta_din : Eta sfs_disk_inode := λ r,
  mk_din (din_size r) (din_parent r) (din_type r) (din_nlinks r) (din_blocks r) (direct r) (indirect r) (db_indirect r).

(** [struct sfs_disk_entry] *)
Record sfs_disk_entry : Type := mk_entry_ { de_ino : Z; de_name : list Z }.

(** The structures as they lie in memory and on disk. *)
Definition super_bytes (u : sfs_super) : list Z :=
  le_bytes 4 (magic u) ++ le_bytes 4 (blocks u) ++ le_bytes 4 (unused_blocks u) ++ info u.
Definition super_of_bytes (bs : list Z) : sfs_super :=
  mk_super (le_combine (slice bs 0 4)) (le_combine (slice bs 4 4)) (le_combine (slice bs 8 4)) (slice bs 12 32).

Definition words_bytes (ws : list Z) : list Z := w ← ws; le_bytes 4 w.
Definition words_of_bytes (n : nat) (bs : list Z) : list Z :=
  (λ i, le_combine (slice bs (4 * Z.of_nat i) 4)) <$> seq 0 n.

Definition din_bytes (d : sfs_disk_inode) : list Z :=
  le_bytes 4 (din_size d) ++ le_bytes 4 (din_parent d) ++ le_bytes 2 (din_type d) ++ le_bytes 2 (din_nlinks d) ++
  le_bytes 4 (din_blocks d) ++ words_bytes (direct d) ++ le_bytes 4 (indirect d) ++ le_bytes 4 (db_indirect d).
Definition din_of_bytes (bs : list Z) : sfs_disk_inode :=
  mk_din (le_combine (slice bs 0 4)) (le_combine (slice bs 4 4)) (le_combine (slice bs 8 2)) (le_combine (slice bs 10 2))
    (le_combine (slice bs 12 4)) (words_of_bytes 12 (slice bs 16 48)) (le_combine (slice bs 64 4))
    (le_combine (slice bs 68 4)).
Definition sizeof_din : Z := 72.

Definition entry_bytes (e : sfs_disk_entry) : list Z := le_bytes 4 (de_ino e) ++ de_name e.
Definition entry_of_bytes (bs : list Z) : sfs_disk_entry := mk_entry_ (le_combine (slice bs 0 4)) (slice bs 4 256).
Definition sizeof_entry : Z := 260.
Definition sfs_dentry_size : Z := 256.

(** The string at the start of an array. *)
Fixpoint c_str (bs : list Z) : list Z :=
  match bs with
  | [] => []
  | c :: bs' => if c =? 0 then [] else c :: c_str bs'
  end.

(** Which table of operations an inode has. *)
Inductive inode_ops : Type := sfs_node_dirops | sfs_node_fileops.
#[export] Instance inode_ops_eq_dec : EqDecision inode_ops.
Proof. solve_decision. Defined.

Record sfs_inode : Type := mk_sin {
  din : sfs_disk_inode;
  ino : Z;
  flags : Z;
  dirty : bool;
  reclaim_count : Z;
  in_ops : inode_ops;
  ref_count : Z;
  open_count : Z;
}.
#[export] Instance eta_sin : Eta sfs_inode := λ r,
  mk_sin (din r) (ino r) (flags r) (dirty r) (reclaim_count r) (in_ops r) (ref_count r) (open_count r).

Definition SFSInodeRemoved (sin : sfs_inode) : bool := Z.testbit (flags sin) 0.

(** The lists: [inode_list], the table [hash_list] and the links of inodes. *)
Inductive flink : Type := InodeList | HashList (h : Z) | InodeLink (n : Z) | HashLink (n : Z).
#[export] Instance flink_eq_dec : EqDecision flink.
Proof. solve_decision. Defined.
#[export] Instance flink_countable : Countable flink.
Proof.
  refine (inj_countable' (λ l, match l with
    | InodeList => inl () | HashList h => inr (inl h) | InodeLink n => inr (inr (inl n)) | HashLink n => inr (inr (inr n)) end)
    (λ l, match l with
    | inl () => InodeList | inr (inl h) => HashList h | inr (inr (inl n)) => InodeLink n | inr (inr (inr n)) => HashLink n end) _).
  by intros [].
Defined.

(** [hash32(x, SFS_HLIST_SHIFT)] of [libs/hash.c] *)
Definition SFS_HLIST_SHIFT : Z := 10.
Definition SFS_HLIST_SIZE : Z := Z.shiftl 1 SFS_HLIST_SHIFT.
Definition hash32 (val bits : Z) : Z := Z.shiftr (u32 (val * 0x9e370001)) (32 - bits).
Definition sin_hashfn (x : Z) : Z := hash32 x SFS_HLIST_SHIFT.

Record sfs_fs (D : Type) : Type := mk_sfs {
  super : sfs_super;
  dev : D;
  freemap : bitmap;
  super_dirty : bool;
  sfs_buffer : list Z;
  flinks : gmap flink (list_entry flink);
  inodes : gmap Z sfs_inode;
  next_inode : Z;
  oom : list bool;
}.
Arguments mk_sfs {D} super dev freemap super_dirty sfs_buffer flinks inodes next_inode oom.
Arguments super {D}. Arguments dev {D}. Arguments freemap {D}. Arguments super_dirty {D}.
Arguments sfs_buffer {D}. Arguments flinks {D}. Arguments inodes {D}. Arguments next_inode {D}. Arguments oom {D}.
#[export] Instance eta_sfs {D} : Eta (sfs_fs D) := λ r,
  mk_sfs (super r) (dev r) (freemap r) (super_dirty r) (sfs_buffer r) (flinks r) (inodes r) (next_inode r) (oom r).

Definition sfs_freemap_bits (u : sfs_super) : Z := ROUNDUP (blocks u) SFS_BLKBITS.
Definition sfs_freemap_blocks (u : sfs_super) : Z := ROUNDUP_DIV (blocks u) SFS_BLKBITS.

Section sfs.
Context {D : Type} `{BlockDevice D}.
Notation M := (M (sfs_fs D)).

(** [kmalloc(size)] *)
Definition alloc (size : Z) : M bool :=
  s ← get;
  _ ← put (s <| oom := tail (oom s) |>);
  p ← kmalloc (default true (head (oom s))) size;
  mret (match p with Some _ => true | None => false end).

Definition get_sin (n : Z) : M sfs_inode := deref (λ s, inodes s !! n).
Definition put_sin (n : Z) (sin : sfs_inode) : M unit := modify (λ s, s <| inodes := <[n := sin]> (inodes s) |>).
(** An assignment to members of an inode, and to members of its [din]. *)
Definition on_sin (n : Z) (f : sfs_inode → sfs_inode) : M unit := sin ← get_sin n; put_sin n (f sin).
Definition on_din (n : Z) (f : sfs_disk_inode → sfs_disk_inode) : M unit :=
  on_sin n (λ sin, sin <| din := f (din sin) |>).
Definition set_dirty (n : Z) : M unit := on_sin n (λ sin, sin <| dirty := true |>).
Definition get_din (n : Z) : M sfs_disk_inode := sin ← get_sin n; mret (din sin).

(** ** [fs/sfs/sfs_io.c] *)

(** The content of the buffer after the transfer is part of the result. *)
Definition sfs_rwblock_nolock (buf : list Z) (pos blkno : Z) (write check : bool) : M (Z * list Z) :=
  s ← get;
  _ ← assert ((negb (blkno =? 0) || negb check) && (blkno <? blocks (super s)));
  r ← on_field dev (d_io (block_iob buf pos blkno) write);
  mret (r.1, io_mem r.2).

Definition rwblock_body (write : bool) (p : list Z * Z * Z * Z) : M (list Z * Z * Z * Z + Z * list Z) :=
  let '(buf, pos, blkno, nblks) := p in
  if nblks =? 0 then mret (inr (0, buf)) else
  r ← sfs_rwblock_nolock buf pos blkno write true;
  if r.1 =? 0 then mret (inl (r.2, pos + SFS_BLKSIZE, u32 (blkno + 1), nblks - 1)) else mret (inr r).
Definition sfs_rwblock (buf : list Z) (pos blkno nblks : Z) (write : bool) : M (Z * list Z) :=
  loop (S (Z.to_nat nblks)) (rwblock_body write) (buf, pos, blkno, nblks).

Definition sfs_rblock (buf : list Z) (pos blkno nblks : Z) : M (Z * list Z) := sfs_rwblock buf pos blkno nblks false.
Definition sfs_wblock (buf : list Z) (pos blkno nblks : Z) : M (Z * list Z) := sfs_rwblock buf pos blkno nblks true.

(** A transfer to or from [sfs_buffer]. *)
Definition rw_buffer (blkno : Z) (write check : bool) : M Z :=
  s ← get;
  r ← sfs_rwblock_nolock (sfs_buffer s) 0 blkno write check;
  _ ← modify (λ s, s <| sfs_buffer := r.2 |>);
  mret r.1.

(** The bytes that are copied to [buf]; none when the block cannot be read. *)
Definition sfs_rbuf (n blkno offset : Z) : M (Z * list Z) :=
  _ ← assert ((0 <=? offset) && (offset <? SFS_BLKSIZE) && (u32 (offset + n) <=? SFS_BLKSIZE));
  ret ← rw_buffer blkno false true;
  if ret =? 0 then s ← get; bs ← load_range (sfs_buffer s) offset n; mret (ret, bs) else mret (ret, []).

Definition sfs_wbuf (bs : list Z) (blkno offset : Z) : M Z :=
  _ ← assert ((0 <=? offset) && (offset <? SFS_BLKSIZE) && (u32 (offset + len bs) <=? SFS_BLKSIZE));
  ret ← rw_buffer blkno false true;
  if ret =? 0 then
    s ← get;
    b ← store_range (sfs_buffer s) offset bs;
    _ ← modify (λ s, s <| sfs_buffer := b |>);
    rw_buffer blkno true true
  else mret ret.

Definition clear_buffer : M unit := modify (λ s, s <| sfs_buffer := replicate (Z.to_nat SFS_BLKSIZE) 0 |>).

Definition sfs_sync_super : M Z :=
  _ ← clear_buffer;
  s ← get;
  b ← store_range (sfs_buffer s) 0 (super_bytes (super s));
  _ ← modify (λ s, s <| sfs_buffer := b |>);
  rw_buffer SFS_BLKN_SUPER true false.

Definition sfs_sync_freemap : M Z :=
  s ← get;
  data ← on_field freemap bitmap_getdata;
  r ← sfs_wblock (words_bytes data.1) 0 SFS_BLKN_FREEMAP (sfs_freemap_blocks (super s));
  mret r.1.

Definition clear_block_body (p : Z * Z) : M (Z * Z + Z) :=
  let '(blkno, nblks) := p in
  if nblks =? 0 then mret (inr 0) else
  ret ← rw_buffer blkno true true;
  if ret =? 0 then mret (inl (u32 (blkno + 1), nblks - 1)) else mret (inr ret).
Definition sfs_clear_block (blkno nblks : Z) : M Z :=
  _ ← clear_buffer;
  loop (S (Z.to_nat nblks)) clear_block_body (blkno, nblks).

(** ** Blocks: [fs/sfs/sfs_inode.c] *)

Definition sfs_block_inuse (ino : Z) : M bool :=
  s ← get;
  if negb (ino =? 0) && (ino <? blocks (super s)) then
    b ← on_field freemap (bitmap_test ino); mret (negb b)
  else fail Panic.

Definition assert_inuse (ino : Z) : M unit := b ← sfs_block_inuse ino; assert b.

Definition sfs_block_alloc : M (Z * Z) :=
  r ← on_field freemap bitmap_alloc;
  if r.1 =? 0 then
    s ← get;
    _ ← assert (0 <? unused_blocks (super s));
    _ ← put (s <| super := super s <| unused_blocks := unused_blocks (super s) - 1 |> |> <| super_dirty := true |>);
    _ ← assert_inuse r.2;
    ret ← sfs_clear_block r.2 1;
    mret (ret, r.2)
  else mret r.

Definition sfs_block_free (ino : Z) : M unit :=
  _ ← assert_inuse ino;
  _ ← on_field freemap (bitmap_free ino);
  modify (λ s, s <| super := super s <| unused_blocks := u32 (unused_blocks (super s) + 1) |> |> <| super_dirty := true |>).

(** ** The block map of an inode *)

(** The common end: take a block for the entry [index] of block [ent]. *)
Definition sfs_bmap_add_sub (ent0 ent index : Z) : M (Z * Z * Z) :=
  let cleanup := when (negb (ent =? ent0)) (sfs_block_free ent) in
  r ← sfs_block_alloc;
  let '(ret, ino) := r in
  if negb (ret =? 0) then _ ← cleanup; mret (ret, ent0, 0) else
  ret ← sfs_wbuf (le_bytes 4 ino) ent (index * 4);
  if negb (ret =? 0) then _ ← sfs_block_free ino; _ ← cleanup; mret (ret, ent0, 0) else
  mret (0, ent, ino).

(** Results: the error code, [*entp] and [*ino_store]. *)
Definition sfs_bmap_get_sub_nolock (ent0 index : Z) (create : bool) : M (Z * Z * Z) :=
  _ ← assert (index <? SFS_BLK_NENTRY);
  if negb (ent0 =? 0) then
    r ← sfs_rbuf 4 ent0 (index * 4);
    let '(ret, bs) := r in
    if negb (ret =? 0) then mret (ret, ent0, 0) else
    let ino := le_combine bs in
    if negb (ino =? 0) || negb create then mret (0, ent0, ino) else sfs_bmap_add_sub ent0 ent0 index
  else if negb create then mret (0, ent0, 0)
  else
    r ← sfs_block_alloc;
    let '(ret, ent) := r in
    if negb (ret =? 0) then mret (ret, ent0, 0) else sfs_bmap_add_sub ent0 ent index.

Definition finish_get (ino : Z) : M (Z * Z) :=
  _ ← when (negb (ino =? 0)) (assert_inuse ino); mret (0, ino).

Definition sfs_bmap_get_nolock (n index : Z) (create : bool) : M (Z * Z) :=
  d ← get_din n;
  if index <? SFS_NDIRECT then
    ino ← deref (λ _, direct d !! Z.to_nat index);
    if (ino =? 0) && create then
      r ← sfs_block_alloc;
      let '(ret, ino) := r in
      if negb (ret =? 0) then mret (ret, 0) else
      _ ← on_din n (λ d, d <| direct := <[Z.to_nat index := ino]> (direct d) |>);
      _ ← set_dirty n;
      finish_get ino
    else finish_get ino
  else
  let index := index - SFS_NDIRECT in
  if index <? SFS_BLK_NENTRY then
    r ← sfs_bmap_get_sub_nolock (indirect d) index create;
    let '(ret, ent, ino) := r in
    if negb (ret =? 0) then mret (ret, 0) else
    _ ← when (negb (ent =? indirect d))
      (_ ← assert (indirect d =? 0); _ ← on_din n (λ d, d <| indirect := ent |>); set_dirty n);
    finish_get ino
  else
  let index := index - SFS_BLK_NENTRY in
  r ← sfs_bmap_get_sub_nolock (db_indirect d) (index / SFS_BLK_NENTRY) create;
  let '(ret, ent, ino) := r in
  if negb (ret =? 0) then mret (ret, 0) else
  _ ← when (negb (ent =? db_indirect d))
    (_ ← assert (db_indirect d =? 0); _ ← on_din n (λ d, d <| db_indirect := ent |>); set_dirty n);
  if negb (ino =? 0) then
    r ← sfs_bmap_get_sub_nolock ino (index mod SFS_BLK_NENTRY) create;
    let '(ret, _, ino) := r in
    if negb (ret =? 0) then mret (ret, 0) else finish_get ino
  else finish_get ino.

Definition sfs_bmap_free_sub_nolock (ent index : Z) : M Z :=
  _ ← assert_inuse ent;
  _ ← assert (index <? SFS_BLK_NENTRY);
  r ← sfs_rbuf 4 ent (index * 4);
  let '(ret, bs) := r in
  if negb (ret =? 0) then mret ret else
  let ino := le_combine bs in
  if negb (ino =? 0) then
    ret ← sfs_wbuf (le_bytes 4 0) ent (index * 4);
    if negb (ret =? 0) then mret ret else
    _ ← sfs_block_free ino; mret 0
  else mret 0.

Definition sfs_bmap_free_nolock (n index : Z) : M Z :=
  d ← get_din n;
  if index <? SFS_NDIRECT then
    ino ← deref (λ _, direct d !! Z.to_nat index);
    if negb (ino =? 0) then
      _ ← sfs_block_free ino;
      _ ← on_din n (λ d, d <| direct := <[Z.to_nat index := 0]> (direct d) |>);
      _ ← set_dirty n;
      mret 0
    else mret 0
  else
  let index := index - SFS_NDIRECT in
  if index <? SFS_BLK_NENTRY then
    if negb (indirect d =? 0) then sfs_bmap_free_sub_nolock (indirect d) index else mret 0
  else
  let index := index - SFS_BLK_NENTRY in
  if negb (db_indirect d =? 0) then
    r ← sfs_bmap_get_sub_nolock (db_indirect d) (index / SFS_BLK_NENTRY) false;
    let '(ret, _, ino) := r in
    if negb (ret =? 0) then mret ret else
    if negb (ino =? 0) then sfs_bmap_free_sub_nolock ino (index mod SFS_BLK_NENTRY) else mret 0
  else mret 0.

(** The error code and the block. *)
Definition sfs_bmap_load_nolock (n index : Z) : M (Z * Z) :=
  d ← get_din n;
  _ ← assert (index <=? din_blocks d);
  let create := index =? din_blocks d in
  r ← sfs_bmap_get_nolock n index create;
  let '(ret, ino) := r in
  if negb (ret =? 0) then mret (ret, 0) else
  _ ← assert_inuse ino;
  _ ← when create (on_din n (λ d, d <| din_blocks := u32 (din_blocks d + 1) |>));
  mret (0, ino).

Definition sfs_bmap_truncate_nolock (n : Z) : M Z :=
  d ← get_din n;
  _ ← assert (negb (din_blocks d =? 0));
  ret ← sfs_bmap_free_nolock n (din_blocks d - 1);
  if negb (ret =? 0) then mret ret else
  _ ← on_din n (λ d, d <| din_blocks := din_blocks d - 1 |>);
  _ ← set_dirty n;
  mret 0.

(** ** Reading and writing *)

Definition trylock_sin (n : Z) : M Z := sin ← get_sin n; mret (if SFSInodeRemoved sin then - E_NOENT else 0).

(** [sfs_buf_op] and [sfs_block_op]: part of a block, and a whole block, to or
    from [buf] at [pos].  The result has the content of the buffer. *)
Definition sfs_buf_op (write : bool) (buf : list Z) (pos n blkno offset : Z) : M (Z * list Z) :=
  if write then
    bs ← load_range buf pos n;
    ret ← sfs_wbuf bs blkno offset;
    mret (ret, buf)
  else
    r ← sfs_rbuf n blkno offset;
    if r.1 =? 0 then buf' ← store_range buf pos r.2; mret (r.1, buf') else mret (r.1, buf).
Definition sfs_block_op (write : bool) (buf : list Z) (pos blkno : Z) : M (Z * list Z) := sfs_rwblock buf pos blkno 1 write.

(** Load the block [blkno] of the file, and transfer to or from it. *)
Definition io_part (n blkno : Z) (buf : list Z) (op : Z → M (Z * list Z)) : M (Z * list Z) :=
  r ← sfs_bmap_load_nolock n blkno;
  if negb (r.1 =? 0) then mret (r.1, buf) else op r.2.

(** The loop over whole blocks; the state is [buf], [pos], [alen], [blkno],
    [nblks], and the result the error code, the buffer, [pos], [alen], [blkno]. *)
Definition io_body (n : Z) (write : bool) (p : list Z * Z * Z * Z * Z) :
    M (list Z * Z * Z * Z * Z + Z * (list Z * Z * Z * Z)) :=
  let '(buf, pos, alen, blkno, nblks) := p in
  if nblks =? 0 then mret (inr (0, (buf, pos, alen, blkno))) else
  r ← io_part n blkno buf (sfs_block_op write buf pos);
  if r.1 =? 0 then mret (inl (r.2, pos + SFS_BLKSIZE, alen + SFS_BLKSIZE, blkno + 1, nblks - 1))
  else mret (inr (r.1, (r.2, pos, alen, blkno))).

(** The whole blocks and the part of the last block. *)
Definition io_rest (n : Z) (write : bool) (endpos : Z) (p : list Z * Z * Z * Z * Z) : M (Z * list Z * Z) :=
  r ← loop (S (Z.to_nat p.2)) (io_body n write) p;
  let '(ret, (buf, pos, alen, blkno)) := r in
  if negb (ret =? 0) then mret (ret, buf, alen) else
  let size := endpos mod SFS_BLKSIZE in
  if negb (size =? 0) then
    r ← io_part n blkno buf (λ ino, sfs_buf_op write buf pos size ino 0);
    if negb (r.1 =? 0) then mret (r.1, r.2, alen) else mret (0, r.2, alen + size)
  else mret (0, buf, alen).

(** Everything up to [out:]: the error code, the buffer and [alen]. *)
Definition io_transfer (n : Z) (write : bool) (buf : list Z) (pos offset endpos : Z) : M (Z * list Z * Z) :=
  let blkno := offset / SFS_BLKSIZE in
  let nblks := endpos / SFS_BLKSIZE - blkno in
  let blkoff := offset mod SFS_BLKSIZE in
  if negb (blkoff =? 0) then
    let size := if negb (nblks =? 0) then SFS_BLKSIZE - blkoff else endpos - offset in
    r ← io_part n blkno buf (λ ino, sfs_buf_op write buf pos size ino blkoff);
    if negb (r.1 =? 0) then mret (r.1, r.2, 0) else
    if nblks =? 0 then mret (0, r.2, size) else io_rest n write endpos (r.2, pos + size, size, blkno + 1, nblks - 1)
  else io_rest n write endpos (buf, pos, 0, blkno, nblks).

(** Results: the error code, [*alenp] and the buffer. *)
Definition sfs_io_nolock (n : Z) (buf : list Z) (pos offset alen0 : Z) (write : bool) : M (Z * Z * list Z) :=
  d ← get_din n;
  _ ← assert (negb (din_type d =? SFS_TYPE_DIR));
  let endpos := s32 (offset + alen0) in
  if (offset <? 0) || (SFS_MAX_FILE_SIZE <=? offset) || (endpos <? offset) then mret (- E_INVAL, 0, buf) else
  if offset =? endpos then mret (0, 0, buf) else
  let endpos := if SFS_MAX_FILE_SIZE <? endpos then SFS_MAX_FILE_SIZE else endpos in
  if negb write && (din_size d <=? offset) then mret (0, 0, buf) else
  let endpos := if negb write && (din_size d <? endpos) then din_size d else endpos in
  r ← io_transfer n write buf pos offset endpos;
  let '(ret, buf, alen) := r in
  d ← get_din n;
  _ ← when (din_size d <? u32 (offset + alen)) (_ ← on_din n (λ d, d <| din_size := u32 (offset + alen) |>); set_dirty n);
  mret (ret, alen, buf).

Definition sfs_io (n : Z) (iob : iobuf) (write : bool) : M (Z * iobuf) :=
  ret ← trylock_sin n;
  if negb (ret =? 0) then mret (ret, iob) else
  r ← sfs_io_nolock n (io_mem iob) (io_base iob) (io_offset iob) (io_resid iob) write;
  let '(ret, alen, buf) := r in
  let iob := iob <| io_mem := buf |> in
  if negb (alen =? 0) then r ← with_iob (iobuf_skip alen) iob; mret (ret, r.2) else mret (ret, iob).
Definition sfs_read (n : Z) (iob : iobuf) : M (Z * iobuf) := sfs_io n iob false.
Definition sfs_write (n : Z) (iob : iobuf) : M (Z * iobuf) := sfs_io n iob true.

(** ** Truncating *)

Definition grow_body (n tblks nblks : Z) : M (Z + Z) :=
  if nblks =? tblks then mret (inr 0) else
  r ← sfs_bmap_load_nolock n nblks;
  if negb (r.1 =? 0) then mret (inr r.1) else mret (inl (nblks + 1)).
Definition shrink_body (n tblks nblks : Z) : M (Z + Z) :=
  if tblks =? nblks then mret (inr 0) else
  ret ← sfs_bmap_truncate_nolock n;
  if negb (ret =? 0) then mret (inr ret) else mret (inl (nblks - 1)).

Definition sfs_truncfile (n newlen : Z) : M Z :=
  if (newlen <? 0) || (SFS_MAX_FILE_SIZE <? newlen) then mret (- E_INVAL) else
  d ← get_din n;
  _ ← assert (negb (din_type d =? SFS_TYPE_DIR));
  let tblks := ROUNDUP_DIV newlen SFS_BLKSIZE in
  if din_size d =? newlen then _ ← assert (tblks =? din_blocks d); mret 0 else
  ret ← trylock_sin n;
  if negb (ret =? 0) then mret ret else
  d ← get_din n;
  let nblks := din_blocks d in
  ret ← (if nblks <? tblks then loop (S (Z.to_nat (tblks - nblks))) (grow_body n tblks) nblks
         else if tblks <? nblks then loop (S (Z.to_nat (nblks - tblks))) (shrink_body n tblks) nblks
         else mret 0);
  if negb (ret =? 0) then mret ret else
  d ← get_din n;
  _ ← assert (din_blocks d =? tblks);
  _ ← on_din n (λ d, d <| din_size := newlen |>);
  _ ← set_dirty n;
  mret 0.

(** [inode_check] of [fs/vfs/inode.c], and the dispatch of [vop_truncate]. *)
Definition MAX_INODE_COUNT : Z := 0x10000.
Definition inode_check (n : Z) : M unit :=
  sin ← get_sin n;
  _ ← assert ((open_count sin <=? ref_count sin) && (0 <=? open_count sin));
  assert ((ref_count sin <? MAX_INODE_COUNT) && (open_count sin <? MAX_INODE_COUNT)).

Definition vop_truncate (n newlen : Z) : M Z :=
  _ ← inode_check n;
  sin ← get_sin n;
  match in_ops sin with
  | sfs_node_dirops => mret (- E_ISDIR)
  | sfs_node_fileops => sfs_truncfile n newlen
  end.

Definition sfs_tryseek (n pos : Z) : M Z :=
  if (pos <? 0) || (SFS_MAX_FILE_SIZE <=? pos) then mret (- E_INVAL) else
  d ← get_din n;
  if din_size d <? pos then vop_truncate n pos else mret 0.
End sfs.
