(* ===== verification/SfsVol.v ===== *)
(** * The volume of a simple file system

    Reading and writing blocks, taking and returning them: what the functions
    of [sfs_io.c] and [sfs_block_*] do to the content of the device and to the
    set of free blocks. *)

From S2P Require Import Prelude Bytes Mem DList Slab Bitmap Disk Sfs.

Section vol.
Context {D : Type} `{BlockDevice D, !BlockDeviceLaws D}.
Implicit Types (s : sfs_fs D) (b n : Z) (F : gset Z).

Definition blk s b : list Z := dblock (dev s) b.
Definition zeros : list Z := replicate (Z.to_nat SFS_BLKSIZE) 0.

(** The device is sound, the free map is the set [F], and the count agrees. *)
Record vol_ok s F : Prop := {
  v_dev : d_wf (dev s);
  v_blocks : 0 < blocks (super s) ≤ 2 ^ 30;
  v_device : blocks (super s) ≤ d_blocks (dev s);
  v_free : bitmap_rep (freemap s) (sfs_freemap_bits (super s)) F;
  v_count : unused_blocks (super s) = Z.of_nat (size F);
  v_range b : b ∈ F → 0 < b < blocks (super s);
  v_buffer : length (sfs_buffer s) = Z.to_nat SFS_BLKSIZE;
}.

(** What lies outside the volume: the inodes, the lists and the next
    allocations. *)
Record mem_same s s' : Prop := {
  m_inodes : inodes s' = inodes s;
  m_flinks : flinks s' = flinks s;
  m_next : next_inode s' = next_inode s;
  m_oom : oom s' = oom s;
  m_blocks : blocks (super s') = blocks (super s);
  m_magic : magic (super s') = magic (super s);
  m_info : info (super s') = info (super s);
  m_dblocks : d_blocks (dev s') = d_blocks (dev s);
  m_dblksize : d_blocksize (dev s') = d_blocksize (dev s);
  m_dirty : super_dirty s = true → super_dirty s' = true;
}.

(** Only the device and the transfer buffer may differ. *)
Record io_same s s' : Prop := {
  io_mem_same : mem_same s s';
  io_super : super s' = super s;
  io_sdirty : super_dirty s' = super_dirty s;
  io_freemap : freemap s' = freemap s;
}.

#[export] Instance mem_same_refl : Reflexive mem_same.
Proof. by constructor. Qed.
#[export] Instance mem_same_trans : Transitive mem_same.
Proof. intros s1 s2 s3 [] []. constructor; try congruence. auto. Qed.
#[export] Instance io_same_refl : Reflexive io_same.
Proof. by constructor. Qed.
#[export] Instance io_same_trans : Transitive io_same.
Proof. intros s1 s2 s3 [] []. constructor; [by etrans|congruence..]. Qed.

(** The blocks of the device in [s'] are those of [s], but for those of [P]. *)
Definition same_except (P : Z → Prop) s s' : Prop := ∀ b, 0 ≤ b < blocks (super s) → ¬ P b → blk s' b = blk s b.

Lemma same_except_refl P s : same_except P s s.
Proof. by intros b. Qed.
Lemma same_except_trans P s1 s2 s3 :
  mem_same s1 s2 → same_except P s1 s2 → same_except P s2 s3 → same_except P s1 s3.
Proof. intros Hm H1 H2 b Hb Hp. rewrite H2; [by apply H1|by rewrite (m_blocks _ _ Hm)|done]. Qed.
Lemma same_except_weaken (P Q : Z → Prop) s s' : (∀ b, P b → Q b) → same_except P s s' → same_except Q s s'.
Proof. intros HPQ Hs b Hb Hq. apply Hs; [done|]. intros Hp. by apply Hq, HPQ. Qed.

Lemma vol_in s F b : vol_ok s F → b ∉ F → 0 < b < blocks (super s) → 0 ≤ b < d_blocks (dev s).
Proof. intros []. lia. Qed.

Lemma blk_length s F b : vol_ok s F → 0 ≤ b < blocks (super s) → length (blk s b) = Z.to_nat SFS_BLKSIZE.
Proof. intros []. intros. apply dblock_length; [done|lia]. Qed.
Lemma blk_len s F b : vol_ok s F → 0 ≤ b < blocks (super s) → len (blk s b) = SFS_BLKSIZE.
Proof. intros ??. rewrite (blk_length s F) by done. done. Qed.

Lemma buffer_range s F : vol_ok s F → in_range (sfs_buffer s) 0 BLKSIZE = true.
Proof. intros []. apply in_range_spec. rewrite v_buffer0. by vm_compute. Qed.

(** ** Transfers *)

Lemma rwblock_nolock_read s F buf pos b check :
  vol_ok s F → 0 ≤ b < blocks (super s) → b ≠ 0 ∨ check = false → in_range buf pos BLKSIZE = true →
  ∃ s', sfs_rwblock_nolock buf pos b false check s = Ok ((0, splice buf pos (blk s b)), s') ∧
    vol_ok s' F ∧ io_same s s' ∧ same_except (λ _, False) s s' ∧ sfs_buffer s' = sfs_buffer s.
Proof.
  intros Hv Hb Hc Hr. pose proof (v_device _ _ Hv) as Hd.
  destruct (d_read (dev s) buf pos b) as (iob' & d' & E & Hmem & Hwf & Hbl & Hbs & Hsame); [by destruct Hv|lia|done|].
  exists (s <| dev := d' |>). unfold sfs_rwblock_nolock. rewrite (bind_ok _ _ _ _ _ eq_refl).
  rewrite (bind_ok _ _ s tt s).
  2: { unfold assert. destruct Hc as [Hc| ->]; [rewrite (proj2 (Z.eqb_neq b 0)) by done|rewrite orb_true_r];
       by rewrite (proj2 (Z.ltb_lt _ _)) by lia. }
  rewrite (bind_ok _ _ _ _ _ (on_field_ok dev _ _ _ _ E)). cbn [fst snd]. rewrite Hmem.
  split; [done|]. split; [|split; [constructor; [by constructor|done..]|split; [|done]]].
  - destruct Hv. constructor; simpl; try done. by rewrite Hbl.
  - intros b' Hb' _. apply Hsame. lia.
Qed.

Lemma rwblock_nolock_write s F buf pos b check :
  vol_ok s F → 0 ≤ b < blocks (super s) → b ≠ 0 ∨ check = false → in_range buf pos BLKSIZE = true →
  ∃ s', sfs_rwblock_nolock buf pos b true check s = Ok ((0, buf), s') ∧
    vol_ok s' F ∧ io_same s s' ∧ same_except (λ x, x = b) s s' ∧ blk s' b = slice buf pos BLKSIZE ∧
    sfs_buffer s' = sfs_buffer s.
Proof.
  intros Hv Hb Hc Hr. pose proof (v_device _ _ Hv) as Hd.
  destruct (d_write (dev s) buf pos b) as (iob' & d' & E & Hmem & Hwf & Hbl & Hbs & Hsame); [by destruct Hv|lia|done|].
  exists (s <| dev := d' |>). unfold sfs_rwblock_nolock. rewrite (bind_ok _ _ _ _ _ eq_refl).
  rewrite (bind_ok _ _ s tt s).
  2: { unfold assert. destruct Hc as [Hc| ->]; [rewrite (proj2 (Z.eqb_neq b 0)) by done|rewrite orb_true_r];
       by rewrite (proj2 (Z.ltb_lt _ _)) by lia. }
  rewrite (bind_ok _ _ _ _ _ (on_field_ok dev _ _ _ _ E)). cbn [fst snd]. rewrite Hmem.
  split; [done|]. split; [|split; [constructor; [by constructor|done..]|split; [|split; [|done]]]].
  - destruct Hv. constructor; simpl; try done. by rewrite Hbl.
  - intros b' Hb' Hne. unfold blk. simpl. rewrite Hsame by lia. by rewrite (proj2 (Z.eqb_neq _ _)) by done.
  - unfold blk. simpl. rewrite Hsame by lia. by rewrite Z.eqb_refl.
Qed.

(** One whole block, as [sfs_rblock] and [sfs_wblock] transfer it. *)
Lemma rwblock_read_one s F buf pos b :
  vol_ok s F → 0 < b < blocks (super s) → in_range buf pos BLKSIZE = true →
  ∃ s', sfs_rwblock buf pos b 1 false s = Ok ((0, splice buf pos (blk s b)), s') ∧
    vol_ok s' F ∧ io_same s s' ∧ same_except (λ _, False) s s'.
Proof.
  intros Hv Hb Hr. destruct (rwblock_nolock_read s F buf pos b true) as (s' & E & ? & ? & ? & _); [done|lia|lia|done|].
  exists s'. split; [|done]. unfold sfs_rwblock. change (S (Z.to_nat 1)) with 2%nat.
  rewrite (loop_next _ _ _ _ (splice buf pos (blk s b), pos + SFS_BLKSIZE, u32 (b + 1), 0) s'); [done|].
  cbn [rwblock_body Z.eqb]. rewrite (bind_ok _ _ _ _ _ E). done.
Qed.
Lemma rwblock_write_one s F buf pos b :
  vol_ok s F → 0 < b < blocks (super s) → in_range buf pos BLKSIZE = true →
  ∃ s', sfs_rwblock buf pos b 1 true s = Ok ((0, buf), s') ∧
    vol_ok s' F ∧ io_same s s' ∧ same_except (λ x, x = b) s s' ∧ blk s' b = slice buf pos BLKSIZE.
Proof.
  intros Hv Hb Hr. destruct (rwblock_nolock_write s F buf pos b true) as (s' & E & ? & ? & ? & ? & _); [done|lia|lia|done|].
  exists s'. split; [|done]. unfold sfs_rwblock. change (S (Z.to_nat 1)) with 2%nat.
  rewrite (loop_next _ _ _ _ (buf, pos + SFS_BLKSIZE, u32 (b + 1), 0) s'); [done|].
  cbn [rwblock_body Z.eqb]. rewrite (bind_ok _ _ _ _ _ E). done.
Qed.

Lemma set_buffer_vol s F bs :
  length bs = Z.to_nat SFS_BLKSIZE → vol_ok s F → vol_ok (s <| sfs_buffer := bs |>) F ∧ io_same s (s <| sfs_buffer := bs |>).
Proof. intros Hl []. split; [by constructor|by repeat constructor]. Qed.

Lemma rw_buffer_read s F b check :
  vol_ok s F → 0 ≤ b < blocks (super s) → b ≠ 0 ∨ check = false →
  ∃ s', rw_buffer b false check s = Ok (0, s') ∧ vol_ok s' F ∧ io_same s s' ∧ same_except (λ _, False) s s' ∧
    sfs_buffer s' = blk s b.
Proof.
  intros Hv Hb Hc. pose proof (buffer_range s F Hv) as Hr.
  destruct (rwblock_nolock_read s F (sfs_buffer s) 0 b check) as (s1 & E & Hv1 & Hs1 & He & _); [done..|].
  assert (splice (sfs_buffer s) 0 (blk s b) = blk s b) as Hsp.
  { pose proof (splice_slice (blk s b) 0 SFS_BLKSIZE) as Hx. unfold splice in *. cbn [Z.to_nat take Nat.add app] in *.
    rewrite drop_ge, app_nil_r by (rewrite (blk_length s F), (v_buffer _ _ Hv); done). done. }
  destruct (set_buffer_vol s1 F (blk s b)) as [Hv2 Hs2]; [by apply (blk_length s F)|done|].
  eexists. split.
  { unfold rw_buffer. rewrite (bind_ok _ _ _ _ _ eq_refl), (bind_ok _ _ _ _ _ E). cbn [fst snd]. rewrite Hsp.
    rewrite (bind_ok _ _ _ _ _ eq_refl). done. }
  split_and!; [done|by etrans|exact He|done].
Qed.

Lemma rw_buffer_write s F b check :
  vol_ok s F → 0 ≤ b < blocks (super s) → b ≠ 0 ∨ check = false →
  ∃ s', rw_buffer b true check s = Ok (0, s') ∧ vol_ok s' F ∧ io_same s s' ∧ same_except (λ x, x = b) s s' ∧
    blk s' b = sfs_buffer s ∧ sfs_buffer s' = sfs_buffer s.
Proof.
  intros Hv Hb Hc. pose proof (buffer_range s F Hv) as Hr.
  destruct (rwblock_nolock_write s F (sfs_buffer s) 0 b check) as (s1 & E & Hv1 & Hs1 & He & Hw & _); [done..|].
  assert (slice (sfs_buffer s) 0 BLKSIZE = sfs_buffer s) as Hsl.
  { rewrite <-(slice_all (sfs_buffer s)) at 2. f_equal. by rewrite (v_buffer _ _ Hv). }
  destruct (set_buffer_vol s1 F (sfs_buffer s)) as [Hv2 Hs2]; [by destruct Hv|done|].
  eexists. split.
  { unfold rw_buffer. rewrite (bind_ok _ _ _ _ _ eq_refl), (bind_ok _ _ _ _ _ E). cbn [fst snd].
    rewrite (bind_ok _ _ _ _ _ eq_refl). done. }
  rewrite Hsl in Hw. split_and!; [done|by etrans|exact He|exact Hw|done].
Qed.

Lemma buffer_args off n : 0 ≤ off < SFS_BLKSIZE → 0 ≤ n → off + n ≤ SFS_BLKSIZE →
  (0 <=? off) && (off <? SFS_BLKSIZE) && (u32 (off + n) <=? SFS_BLKSIZE) = true.
Proof.
  intros. change SFS_BLKSIZE with 4096 in *. rewrite u32_id by lia.
  rewrite (proj2 (Z.leb_le 0 _)), (proj2 (Z.ltb_lt _ _)), (proj2 (Z.leb_le _ _)) by lia. done.
Qed.

(** Bytes [off .. off+n-1] of a block. *)
Lemma rbuf_ok s F b off n :
  vol_ok s F → 0 < b < blocks (super s) → 0 ≤ off < SFS_BLKSIZE → 0 ≤ n → off + n ≤ SFS_BLKSIZE →
  ∃ s', sfs_rbuf n b off s = Ok ((0, slice (blk s b) off n), s') ∧
    vol_ok s' F ∧ io_same s s' ∧ same_except (λ _, False) s s'.
Proof.
  intros Hv Hb Ho Hn Hon. destruct (rw_buffer_read s F b true) as (s' & E & Hv' & Hs & He & Hbuf); [done|lia|lia|].
  exists s'. split; [|done]. unfold sfs_rbuf. rewrite buffer_args by done. rewrite (bind_ok _ _ _ _ _ eq_refl).
  rewrite (bind_ok _ _ _ _ _ E). cbn [Z.eqb]. rewrite (bind_ok _ _ _ _ _ eq_refl).
  assert (in_range (sfs_buffer s') off n = true) as Hr.
  { apply in_range_spec. rewrite (v_buffer _ _ Hv'). change (Z.of_nat (Z.to_nat SFS_BLKSIZE)) with SFS_BLKSIZE. lia. }
  rewrite (bind_ok _ _ _ _ _ (load_range_ok _ _ _ _ Hr)). by rewrite Hbuf.
Qed.

Lemma wbuf_ok s F b off bs :
  vol_ok s F → 0 < b < blocks (super s) → 0 ≤ off < SFS_BLKSIZE → off + len bs ≤ SFS_BLKSIZE →
  ∃ s', sfs_wbuf bs b off s = Ok (0, s') ∧
    vol_ok s' F ∧ io_same s s' ∧ same_except (λ x, x = b) s s' ∧ blk s' b = splice (blk s b) off bs.
Proof.
  intros Hv Hb Ho Hon. destruct (rw_buffer_read s F b true) as (s1 & E & Hv1 & Hs1 & He1 & Hbuf); [done|lia|lia|].
  assert (in_range (sfs_buffer s1) off (len bs) = true) as Hr.
  { apply in_range_spec. rewrite (v_buffer _ _ Hv1). change (Z.of_nat (Z.to_nat SFS_BLKSIZE)) with SFS_BLKSIZE. lia. }
  destruct (set_buffer_vol s1 F (splice (sfs_buffer s1) off bs)) as [Hv2 Hs2].
  { rewrite splice_length by done. by destruct Hv1. } { done. }
  destruct (rw_buffer_write (s1 <| sfs_buffer := splice (sfs_buffer s1) off bs |>) F b true) as
    (s' & E' & Hv' & Hs' & He' & Hw & _); [done| |lia|].
  { rewrite (m_blocks s); [lia|]. apply io_mem_same. by etrans. }
  exists s'. split.
  { unfold sfs_wbuf. rewrite buffer_args by (done || lia). rewrite (bind_ok _ _ _ _ _ eq_refl).
    rewrite (bind_ok _ _ _ _ _ E). cbn [Z.eqb]. rewrite (bind_ok _ _ _ _ _ eq_refl).
    rewrite (bind_ok _ _ _ _ _ (store_range_ok _ _ _ _ Hr)). by rewrite (bind_ok _ _ _ _ _ eq_refl). }
  assert (io_same s (s1 <| sfs_buffer := splice (sfs_buffer s1) off bs |>)) as Hs12 by by etrans.
  split_and!; [done|by etrans| |].
  - eapply same_except_trans; [exact (io_mem_same _ _ Hs12)| |exact He'].
    intros x Hx _. apply (He1 x Hx). tauto.
  - rewrite Hw. cbn. by rewrite Hbuf.
Qed.

Lemma clear_block_ok s F b :
  vol_ok s F → 0 < b < blocks (super s) →
  ∃ s', sfs_clear_block b 1 s = Ok (0, s') ∧
    vol_ok s' F ∧ io_same s s' ∧ same_except (λ x, x = b) s s' ∧ blk s' b = zeros.
Proof.
  intros Hv Hb. destruct (set_buffer_vol s F zeros) as [Hv1 Hs1]; [apply length_replicate|done|].
  destruct (rw_buffer_write (s <| sfs_buffer := zeros |>) F b true) as (s' & E & Hv' & Hs' & He & Hw & _); [done|simpl; lia|lia|].
  exists s'. split; [|split_and!; [done|by etrans|exact He|exact Hw]].
  unfold sfs_clear_block, clear_buffer. rewrite (bind_ok _ _ _ _ _ eq_refl). fold zeros.
  change (S (Z.to_nat 1)) with 2%nat.
  rewrite (loop_next _ _ _ _ (u32 (b + 1), 0) s'); [done|].
  unfold clear_block_body. cbn [Z.eqb]. by rewrite (bind_ok _ _ _ _ _ E).
Qed.

(** ** Free blocks *)

Lemma freemap_bits_ge u : 0 < blocks u ≤ 2 ^ 30 → blocks u ≤ sfs_freemap_bits u.
Proof. intros. unfold sfs_freemap_bits. change SFS_BLKBITS with 32768. apply ROUNDUP_spec; lia. Qed.

Lemma field_id s : s <| freemap := freemap s |> = s.
Proof. by destruct s. Qed.

Lemma block_inuse_ok s F b : vol_ok s F → 0 < b < blocks (super s) → sfs_block_inuse b s = Ok (negb (bool_decide (b ∈ F)), s).
Proof.
  intros Hv Hb. unfold sfs_block_inuse. rewrite (bind_ok _ _ _ _ _ eq_refl).
  rewrite (proj2 (Z.eqb_neq b 0)), (proj2 (Z.ltb_lt _ _)) by lia. cbn [negb andb].
  pose proof (freemap_bits_ge (super s) (v_blocks _ _ Hv)).
  rewrite (bind_ok _ _ _ _ _ (on_field_ok freemap _ s _ _ (bitmap_test_ok _ _ _ b (v_free _ _ Hv) ltac:(lia)))).
  by rewrite field_id.
Qed.

Lemma assert_inuse_ok s F b : vol_ok s F → 0 < b < blocks (super s) → b ∉ F → assert_inuse b s = Ok (tt, s).
Proof.
  intros Hv Hb Hf. unfold assert_inuse. rewrite (bind_ok _ _ _ _ _ (block_inuse_ok s F b Hv Hb)).
  by rewrite bool_decide_false.
Qed.

Lemma free_size s F : vol_ok s F → Z.of_nat (size F) ≤ blocks (super s).
Proof.
  intros []. assert (F ⊆ list_to_set (seqZ 0 (blocks (super s)))) as Hsub.
  { intros b Hb. apply elem_of_list_to_set, elem_of_seqZ. apply v_range0 in Hb. lia. }
  apply subseteq_size in Hsub. rewrite size_list_to_set, length_seqZ in Hsub by apply NoDup_seqZ. lia.
Qed.

(** The free map without [b], the count one less. *)
Lemma take_vol s F b fm :
  vol_ok s F → b ∈ F → bitmap_rep fm (sfs_freemap_bits (super s)) (F ∖ {[b]}) →
  let s' := s <| freemap := fm |> <| super := super s <| unused_blocks := unused_blocks (super s) - 1 |> |>
              <| super_dirty := true |> in
  0 < unused_blocks (super s) ∧ vol_ok s' (F ∖ {[b]}) ∧ mem_same s s'.
Proof.
  intros [] Hb Hfm s'. assert (size F = S (size (F ∖ {[b]}))) as Hsz.
  { rewrite (union_difference_L {[b]} F) at 1 by set_solver. rewrite size_union by set_solver.
    by rewrite size_singleton. }
  split_and!; [lia| |by constructor]. constructor; try done.
  - simpl. lia.
  - intros x Hx. apply v_range0. set_solver.
Qed.

Lemma put_vol s F b fm :
  vol_ok s F → b ∉ F → 0 < b < blocks (super s) → bitmap_rep fm (sfs_freemap_bits (super s)) ({[b]} ∪ F) →
  let s' := s <| freemap := fm |> <| super := super s <| unused_blocks := u32 (unused_blocks (super s) + 1) |> |>
              <| super_dirty := true |> in
  vol_ok s' ({[b]} ∪ F) ∧ mem_same s s'.
Proof.
  intros Hv Hb Hr Hfm s'. pose proof (free_size s F Hv). destruct Hv. split; [|by constructor].
  constructor; try done.
  - simpl. rewrite size_union, size_singleton by set_solver. rewrite u32_id by lia. lia.
  - intros x Hx. simpl. apply elem_of_union in Hx as [->%elem_of_singleton|Hx]; [done|by apply v_range0].
Qed.

(** The least free block, cleared and no longer free. *)
Lemma block_alloc_some s F :
  vol_ok s F → F ≠ ∅ →
  ∃ b s', sfs_block_alloc s = Ok ((0, b), s') ∧ least F b ∧ vol_ok s' (F ∖ {[b]}) ∧ mem_same s s' ∧
    same_except (λ x, x = b) s s' ∧ blk s' b = zeros.
Proof.
  intros Hv Hne. destruct (bitmap_alloc_ok _ _ _ (v_free _ _ Hv)) as (r & fm & E & [(Hr & Hl & Hfm)|(_ & -> & _)]); [|done].
  destruct r as [ret b]. cbn [fst snd] in *. subst ret. destruct (take_vol s F b fm Hv (proj1 Hl) Hfm) as (Hu & Hv1 & Hm1).
  set (s1 := s <| freemap := fm |> <| super := _ |> <| super_dirty := true |>) in *.
  pose proof (v_range _ _ Hv b (proj1 Hl)) as Hb.
  destruct (clear_block_ok s1 (F ∖ {[b]}) b Hv1 Hb) as (s' & E' & Hv' & Hs' & He' & Hw).
  exists b, s'. split; [|split_and!; [done|done|by etrans; [|apply io_mem_same]| |done]].
  - unfold sfs_block_alloc. rewrite (bind_ok _ _ _ _ _ (on_field_ok freemap _ s _ _ E)). cbn [fst snd Z.eqb].
    rewrite (bind_ok _ _ _ _ _ eq_refl).
    rewrite (bind_ok _ _ (s <| freemap := fm |>) tt (s <| freemap := fm |>)) by (unfold assert; by rewrite (proj2 (Z.ltb_lt _ _))).
    rewrite (bind_ok _ _ _ tt s1) by done.
    rewrite (bind_ok _ _ _ _ _ (assert_inuse_ok s1 (F ∖ {[b]}) b Hv1 Hb ltac:(set_solver))).
    by rewrite (bind_ok _ _ _ _ _ E').
  - exact He'.
Qed.

Lemma block_alloc_none s : vol_ok s ∅ → sfs_block_alloc s = Ok ((- E_NO_MEM, 0), s).
Proof.
  intros Hv. destruct (bitmap_alloc_ok _ _ _ (v_free _ _ Hv)) as (r & fm & E & [(_ & [Hin _] & _)|(-> & _ & ->)]); [set_solver|].
  unfold sfs_block_alloc. rewrite (bind_ok _ _ _ _ _ (on_field_ok freemap _ s _ _ E)). by rewrite field_id.
Qed.

Lemma block_free_ok s F b :
  vol_ok s F → b ∉ F → 0 < b < blocks (super s) →
  ∃ s', sfs_block_free b s = Ok (tt, s') ∧ vol_ok s' ({[b]} ∪ F) ∧ mem_same s s' ∧ same_except (λ _, False) s s'.
Proof.
  intros Hv Hf Hb. pose proof (freemap_bits_ge (super s) (v_blocks _ _ Hv)).
  destruct (bitmap_free_ok _ _ _ b (v_free _ _ Hv) ltac:(lia) Hf) as (fm & E & Hfm).
  destruct (put_vol s F b fm Hv Hf Hb Hfm) as [Hv' Hm'].
  eexists. split; [|split; [exact Hv'|split; [exact Hm'|by intros x]]].
  unfold sfs_block_free. rewrite (bind_ok _ _ _ _ _ (assert_inuse_ok s F b Hv Hb Hf)).
  by rewrite (bind_ok _ _ _ _ _ (on_field_ok freemap _ s _ _ E)).
Qed.

(** A block that is free, or out of range, cannot be freed. *)
Lemma block_free_panics s F b : vol_ok s F → 0 ≤ b → b ∈ F ∨ b = 0 ∨ blocks (super s) ≤ b → sfs_block_free b s = Err Panic.
Proof.
  intros Hv H0 Hbad. unfold sfs_block_free. apply bind_err. unfold assert_inuse.
  destruct (decide (0 < b < blocks (super s))) as [Hb|Hb].
  - rewrite (bind_ok _ _ _ _ _ (block_inuse_ok s F b Hv Hb)). destruct Hbad as [Hin|?]; [|lia]. by rewrite bool_decide_true.
  - apply bind_err. unfold sfs_block_inuse. rewrite (bind_ok _ _ _ _ _ eq_refl).
    destruct (Z.eqb_spec b 0); [done|]. by rewrite (proj2 (Z.ltb_ge _ _)) by lia.
Qed.
End vol.
