(* ===== verification/SfsTree.v ===== *)
(** * The block tree of an inode

    An inode reaches its blocks through twelve direct pointers, an indirect
    block and a doubly indirect block.  [role] names the places of that tree,
    and [tree_ok B d T] says that the pointers in the inode [d] and in the
    blocks with contents [B] are those of the finite map [T] from places to
    block numbers. *)

From S2P Require Import Prelude Bytes Mem DList Slab Bitmap Disk Sfs SfsVol.

(** The block [i] of the file, the indirect block, the doubly indirect block
    and the [k]-th block below that. *)
Inductive role : Type := Data (i : Z) | Ind | Dbl | Sub (k : Z).
#[export] Instance role_eq_dec : EqDecision role.
Proof. solve_decision. Defined.
#[export] Instance role_countable : Countable role.
Proof.
  refine (inj_countable' (λ r, match r with
    | Data i => inl i | Ind => inr (inl ()) | Dbl => inr (inr (inl ())) | Sub k => inr (inr (inr k)) end)
    (λ r, match r with
    | inl i => Data i | inr (inl ()) => Ind | inr (inr (inl ())) => Dbl | inr (inr (inr k)) => Sub k end) _).
  by intros [].
Defined.

(** Where the pointer to a place is: in the inode or in the block of another
    place, and its index there. *)
Definition up (r : role) : option role * Z :=
  match r with
  | Data i =>
      if i <? 12 then (None, i)
      else if i <? 1036 then (Some Ind, i - 12)
      else (Some (Sub ((i - 1036) / 1024)), (i - 1036) mod 1024)
  | Ind => (None, 12)
  | Dbl => (None, 13)
  | Sub k => (Some Dbl, k)
  end.

(** The largest number of blocks of a file. *)
Definition MAX_BLOCKS : Z := 12 + 1024 + 1024 * 1024.

Definition valid (r : role) : Prop :=
  match r with Data i => 0 ≤ i < MAX_BLOCKS | Sub k => 0 ≤ k < 1024 | _ => True end.

Definition root_ptr (d : sfs_disk_inode) (j : Z) : Z :=
  if j <? 12 then default 0 (direct d !! Z.to_nat j) else if j =? 12 then indirect d else db_indirect d.

(** Entry [j] of an indirect block. *)
Definition word (bs : list Z) (j : Z) : Z := le_combine (slice bs (j * 4) 4).

Notation tree := (gmap role Z).

(** The block numbers of the tree. *)
Definition in_tree (T : tree) (b : Z) : Prop := ∃ r, T !! r = Some b.
Definition meta (T : tree) (b : Z) : Prop := ∃ r, T !! r = Some b ∧ ∀ i, r ≠ Data i.

Record tree_ok (B : Z → list Z) (d : sfs_disk_inode) (T : tree) : Prop := {
  t_root r j : up r = (None, j) → valid r → root_ptr d j = default 0 (T !! r);
  t_node r p j e : up r = (Some p, j) → valid r → T !! p = Some e → word (B e) j = default 0 (T !! r);
  t_up r b : T !! r = Some b → valid r ∧ ∀ p j, up r = (Some p, j) → is_Some (T !! p);
  t_inj r1 r2 b : T !! r1 = Some b → T !! r2 = Some b → r1 = r2;
  t_direct : length (direct d) = 12%nat;
}.

(** The tree holds exactly the blocks below [nb] of the file. *)
Definition data_ok (T : tree) (nb : Z) : Prop := ∀ i, is_Some (T !! Data i) ↔ 0 ≤ i < nb.

(** ** Places and indices *)

Lemma up_range r p j : up r = (p, j) → valid r → 0 ≤ j < 1024 ∧ (p = None → j < 14).
Proof.
  destruct r as [i| | |k]; cbn; unfold MAX_BLOCKS; [|naive_solver lia..].
  destruct (Z.ltb_spec i 12); [naive_solver lia|]. destruct (Z.ltb_spec i 1036); intros [= <- <-] ?.
  - split; [lia|done].
  - split; [|done]. apply Z.mod_pos_bound. lia.
Qed.

Lemma up_inj r1 r2 pj : up r1 = pj → up r2 = pj → valid r1 → valid r2 → r1 = r2.
Proof.
  intros <-. destruct r1 as [i| | |k], r2 as [i'| | |k']; cbn; unfold MAX_BLOCKS; intros E Hv1 Hv2; try done;
    repeat match goal with
    | E : context [?a <? ?b] |- _ => destruct (Z.ltb_spec a b)
    end; simplify_eq; try lia; f_equal; try lia.
  pose proof (Z.div_mod (i - 1036) 1024 ltac:(lia)). pose proof (Z.div_mod (i' - 1036) 1024 ltac:(lia)). lia.
Qed.

Lemma up_parent r p j : up r = (Some p, j) → valid r → valid p ∧ (∀ i, p ≠ Data i) ∧ p ≠ r.
Proof.
  destruct r as [i| | |k]; cbn; unfold MAX_BLOCKS; [|naive_solver..].
  destruct (Z.ltb_spec i 12); [done|]. destruct (Z.ltb_spec i 1036); intros [= <- <-] ?; [done|].
  split; [|done]. split; [apply Z.div_pos; lia|]. apply Z.div_lt_upper_bound; lia.
Qed.

(** ** Entries of a block *)

Lemma word_zeros j : 0 ≤ j < 1024 → word zeros j = 0.
Proof. intros. unfold word, zeros. rewrite slice_replicate by (unfold SFS_BLKSIZE, PGSIZE; lia). done. Qed.

Lemma entry_range bs j : len bs = SFS_BLKSIZE → 0 ≤ j < 1024 → in_range bs (j * 4) 4 = true.
Proof. intros Hl ?. apply in_range_spec. unfold SFS_BLKSIZE, PGSIZE in Hl. lia. Qed.

Lemma word_splice bs j w j' :
  len bs = SFS_BLKSIZE → 0 ≤ j < 1024 → 0 ≤ j' < 1024 → 0 ≤ w < 2 ^ 32 →
  word (splice bs (j * 4) (le_bytes 4 w)) j' = if j' =? j then w else word bs j'.
Proof.
  intros Hl Hj Hj' Hw. pose proof (entry_range bs j Hl Hj) as Hr. unfold word.
  destruct (Z.eqb_spec j' j) as [->|Hne].
  - pose proof (slice_splice_eq bs (j * 4) (le_bytes 4 w)) as E. rewrite le_bytes_length in E.
    change (Z.of_nat 4) with 4 in E. rewrite (E Hr). by apply le_combine_u32.
  - rewrite slice_splice_ne; [done|by rewrite le_bytes_length|lia|]. rewrite le_bytes_length. lia.
Qed.

(** ** Changing the tree *)

(** Writing a pointer of the inode. *)
Definition set_root (j b : Z) (d : sfs_disk_inode) : sfs_disk_inode :=
  if j <? 12 then d <| direct := <[Z.to_nat j := b]> (direct d) |>
  else if j =? 12 then d <| indirect := b |> else d <| db_indirect := b |>.

Lemma root_ptr_set d j b j' :
  length (direct d) = 12%nat → 0 ≤ j < 14 → 0 ≤ j' < 14 →
  root_ptr (set_root j b d) j' = if j' =? j then b else root_ptr d j'.
Proof.
  intros Hl Hj Hj'. unfold root_ptr, set_root.
  destruct (Z.ltb_spec j 12), (Z.ltb_spec j' 12), (Z.eqb_spec j 12), (Z.eqb_spec j' 12), (Z.eqb_spec j' j); simpl; try lia; try done.
  - subst. by rewrite list_lookup_insert_eq by lia.
  - by rewrite list_lookup_insert_ne by lia.
Qed.
Lemma direct_set_root j b d : length (direct (set_root j b d)) = length (direct d).
Proof. unfold set_root. destruct (j <? 12); simpl; [by rewrite length_insert|]. by destruct (j =? 12). Qed.

Section tree.
Implicit Types (B : Z → list Z) (T : tree) (d : sfs_disk_inode).

Lemma tree_ext B B' d T : tree_ok B d T → (∀ b, meta T b → B' b = B b) → tree_ok B' d T.
Proof.
  intros [] Hext. constructor; try done. intros r p j e Hup Hv He. rewrite Hext; [by eapply t_node0|].
  exists p. split; [done|]. by apply (up_parent r p j).
Qed.

Lemma root_ptr_ext d d' j : direct d' = direct d → indirect d' = indirect d → db_indirect d' = db_indirect d →
  root_ptr d' j = root_ptr d j.
Proof. unfold root_ptr. by intros -> -> ->. Qed.

Lemma tree_din_ext B d d' T :
  tree_ok B d T → direct d' = direct d → indirect d' = indirect d → db_indirect d' = db_indirect d → tree_ok B d' T.
Proof.
  intros [] E1 E2 E3. constructor; try done; [|by rewrite E1].
  intros r j Hup Hv. rewrite (root_ptr_ext d d') by done. by apply t_root0.
Qed.

Lemma no_child B d T r p j : tree_ok B d T → up r = (Some p, j) → T !! p = None → T !! r = None.
Proof.
  intros Ht Hup Hp. destruct (T !! r) as [b|] eqn:E; [|done].
  destruct (proj2 (t_up _ _ _ Ht _ _ E) p j Hup) as [e He]. congruence.
Qed.

(** A new block for a place, whose block is zero. *)
Lemma tree_insert B B' d d' T r b :
  tree_ok B d T → valid r → T !! r = None → ¬ in_tree T b → B' b = zeros →
  (∀ p j, up r = (Some p, j) → is_Some (T !! p)) →
  (∀ r' j, up r' = (None, j) → valid r' → root_ptr d' j = if decide (r' = r) then b else root_ptr d j) →
  (∀ r' p j e, up r' = (Some p, j) → valid r' → T !! p = Some e →
    word (B' e) j = if decide (r' = r) then b else word (B e) j) →
  length (direct d') = 12%nat →
  tree_ok B' d' (<[r := b]> T).
Proof.
  intros Ht Hv Hr Hb Hz Hpar Hroot Hnode Hdir. constructor; try done.
  - intros r' j Hup Hv'. rewrite (Hroot r') by done. case_decide as Hc.
    + subst. by rewrite lookup_insert_eq.
    + rewrite lookup_insert_ne by done. by apply (t_root _ _ _ Ht).
  - intros r' p j e Hup Hv' He. destruct (up_parent _ _ _ Hup Hv') as (_ & _ & Hpr).
    destruct (decide (p = r)) as [->|Hne].
    + rewrite lookup_insert_eq in He. injection He as <-. rewrite Hz, word_zeros by by apply (up_range _ _ _ Hup).
      rewrite lookup_insert_ne by done. by rewrite (no_child B d T r' r j).
    + rewrite lookup_insert_ne in He by done. rewrite (Hnode r' p j e) by done. case_decide as Hc.
      * subst. by rewrite lookup_insert_eq.
      * rewrite lookup_insert_ne by done. by apply (t_node _ _ _ Ht) with p.
  - intros r' b' E. destruct (decide (r' = r)) as [->|Hne].
    + split; [done|]. intros p j Hup. destruct (Hpar p j Hup) as [e He]. destruct (up_parent _ _ _ Hup Hv) as (_ & _ & Hpr).
      exists e. by rewrite lookup_insert_ne.
    + rewrite lookup_insert_ne in E by done. destruct (t_up _ _ _ Ht _ _ E) as [Hv' Hp]. split; [done|].
      intros p j Hup. destruct (decide (p = r)) as [->|]; [by rewrite lookup_insert_eq|].
      rewrite lookup_insert_ne by done. by apply (Hp p j).
  - intros r1 r2 b' [[H1 H2]|[_ E1]]%lookup_insert_Some [[H3 H4]|[_ E2]]%lookup_insert_Some; subst; try done.
    + destruct Hb. by exists r2.
    + destruct Hb. by exists r1.
    + by apply (t_inj _ _ _ Ht _ _ b').
Qed.

Lemma tree_insert_root B B' d T r j b :
  tree_ok B d T → valid r → up r = (None, j) → T !! r = None → ¬ in_tree T b → B' b = zeros →
  (∀ x, meta T x → B' x = B x) →
  tree_ok B' (set_root j b d) (<[r := b]> T).
Proof.
  intros Ht Hv Hup Hr Hb Hz Hext. pose proof (t_direct _ _ _ Ht) as Hd.
  apply (tree_insert B _ d); try done; [congruence| | |by rewrite direct_set_root].
  - intros r' j' Hup' Hv'. destruct (up_range _ _ _ Hup Hv), (up_range _ _ _ Hup' Hv').
    rewrite root_ptr_set by (try done; naive_solver lia). case_decide as Hc.
    + subst r'. rewrite Hup in Hup'. injection Hup' as <-. by rewrite Z.eqb_refl.
    + destruct (Z.eqb_spec j' j) as [->|]; [|done]. destruct Hc. by apply (up_inj _ _ (None, j)).
  - intros r' p j' e Hup' Hv' He. rewrite decide_False by congruence. rewrite Hext; [done|].
    exists p. split; [done|]. by apply (up_parent r' p j').
Qed.

Lemma tree_insert_node B B' d T r p j e b :
  tree_ok B d T → valid r → up r = (Some p, j) → T !! r = None → T !! p = Some e → ¬ in_tree T b → B' b = zeros →
  0 ≤ b < 2 ^ 32 → len (B e) = SFS_BLKSIZE → B' e = splice (B e) (j * 4) (le_bytes 4 b) →
  (∀ x, meta T x → x ≠ e → B' x = B x) →
  tree_ok B' d (<[r := b]> T).
Proof.
  intros Ht Hv Hup Hr Hp Hb Hz Hw Hl He Hext. pose proof (t_direct _ _ _ Ht) as Hd.
  apply (tree_insert B _ d); try done.
  - intros p' j' E. rewrite Hup in E. injection E as <- <-. by eexists.
  - intros r' j' Hup' Hv'. rewrite decide_False by congruence. done.
  - intros r' p' j' e' Hup' Hv' He'. destruct (decide (e' = e)) as [->|Hne].
    + assert (p' = p) as -> by by apply (t_inj _ _ _ Ht _ _ e).
      rewrite He, word_splice; [|done|by apply (up_range _ _ _ Hup)|by apply (up_range _ _ _ Hup')|done].
      case_decide as Hc.
      * subst r'. rewrite Hup in Hup'. injection Hup' as <-. by rewrite Z.eqb_refl.
      * destruct (Z.eqb_spec j' j) as [->|]; [|done]. destruct Hc. by apply (up_inj _ _ (Some p, j)).
    + rewrite decide_False; [|intros ->; rewrite Hup in Hup'; injection Hup' as <- <-; congruence].
      rewrite Hext; [done| |done]. exists p'. split; [done|]. by apply (up_parent r' p' j').
Qed.

(** Clearing the pointer to a place without children. *)
Lemma tree_delete B B' d d' T r b :
  tree_ok B d T → valid r → T !! r = Some b → (∀ r' j, up r' = (Some r, j) → T !! r' = None) →
  (∀ r' j, up r' = (None, j) → valid r' → root_ptr d' j = if decide (r' = r) then 0 else root_ptr d j) →
  (∀ r' p j e, up r' = (Some p, j) → valid r' → T !! p = Some e → p ≠ r →
    word (B' e) j = if decide (r' = r) then 0 else word (B e) j) →
  length (direct d') = 12%nat →
  tree_ok B' d' (delete r T).
Proof.
  intros Ht Hv Hr Hleaf Hroot Hnode Hdir. constructor; try done.
  - intros r' j Hup Hv'. rewrite (Hroot r') by done. case_decide as Hc.
    + subst. by rewrite lookup_delete_eq.
    + rewrite lookup_delete_ne by done. by apply (t_root _ _ _ Ht).
  - intros r' p j e Hup Hv' He. apply lookup_delete_Some in He as [Hne He].
    rewrite (Hnode r' p j e) by done. case_decide as Hc.
    + subst. by rewrite lookup_delete_eq.
    + rewrite lookup_delete_ne by done. by apply (t_node _ _ _ Ht) with p.
  - intros r' b' [Hne E]%lookup_delete_Some. destruct (t_up _ _ _ Ht _ _ E) as [Hv' Hp]. split; [done|].
    intros p j Hup. rewrite lookup_delete_ne; [by apply (Hp p j)|]. intros ->. by rewrite (Hleaf r' j) in E.
  - intros r1 r2 b' [_ E1]%lookup_delete_Some [_ E2]%lookup_delete_Some. by apply (t_inj _ _ _ Ht _ _ b').
Qed.

Lemma tree_delete_root B d T r j b :
  tree_ok B d T → valid r → up r = (None, j) → T !! r = Some b → (∀ r' j, up r' = (Some r, j) → T !! r' = None) →
  tree_ok B (set_root j 0 d) (delete r T).
Proof.
  intros Ht Hv Hup Hr Hleaf. pose proof (t_direct _ _ _ Ht) as Hd.
  apply (tree_delete B _ d) with b; try done; [| |by rewrite direct_set_root].
  - intros r' j' Hup' Hv'. destruct (up_range _ _ _ Hup Hv), (up_range _ _ _ Hup' Hv').
    rewrite root_ptr_set by (try done; naive_solver lia). case_decide as Hc.
    + subst r'. rewrite Hup in Hup'. injection Hup' as <-. by rewrite Z.eqb_refl.
    + destruct (Z.eqb_spec j' j) as [->|]; [|done]. destruct Hc. by apply (up_inj _ _ (None, j)).
  - intros r' p j' e Hup' Hv' He Hne. by rewrite decide_False by congruence.
Qed.

Lemma tree_delete_node B B' d T r p j e b :
  tree_ok B d T → valid r → up r = (Some p, j) → T !! p = Some e → T !! r = Some b →
  (∀ r' j, up r' = (Some r, j) → T !! r' = None) →
  len (B e) = SFS_BLKSIZE → B' e = splice (B e) (j * 4) (le_bytes 4 0) → (∀ x, meta T x → x ≠ e → B' x = B x) →
  tree_ok B' d (delete r T).
Proof.
  intros Ht Hv Hup Hp Hr Hleaf Hl He Hext. pose proof (t_direct _ _ _ Ht) as Hd.
  apply (tree_delete B _ d) with b; try done.
  - intros r' j' Hup' Hv'. by rewrite decide_False by congruence.
  - intros r' p' j' e' Hup' Hv' He' Hne'. destruct (decide (e' = e)) as [->|Hne].
    + assert (p' = p) as -> by by apply (t_inj _ _ _ Ht _ _ e).
      rewrite He, word_splice; [|done|by apply (up_range _ _ _ Hup)|by apply (up_range _ _ _ Hup')|done].
      case_decide as Hc.
      * subst r'. rewrite Hup in Hup'. injection Hup' as <-. by rewrite Z.eqb_refl.
      * destruct (Z.eqb_spec j' j) as [->|]; [|done]. destruct Hc. by apply (up_inj _ _ (Some p, j)).
    + rewrite decide_False; [|intros ->; rewrite Hup in Hup'; injection Hup' as <- <-; congruence].
      rewrite Hext; [done| |done]. exists p'. split; [done|]. by apply (up_parent r' p' j').
Qed.
End tree.
