(* ===== verification/SfsMap.v ===== *)
(** * The block map of an inode

    [sfs_bmap_get], [sfs_bmap_load] and [sfs_bmap_truncate] against the tree
    of [SfsTree]: which block they find, which blocks they take or give back,
    and that nothing else of the volume changes. *)

From S2P Require Import Prelude Bytes Mem DList Slab Bitmap Disk Sfs SfsVol SfsTree.

(** Results for the places of an indirect block, from [F] and [T] to [F'] and
    [T']: blocks only move from the free set into the tree. *)
Record moved (F : gset Z) (T : tree) (F' : gset Z) (T' : tree) : Prop := {
  mv_tree : T ⊆ T';
  mv_free : F' ⊆ F;
  mv_all x : x ∈ F ∨ in_tree T x ↔ x ∈ F' ∨ in_tree T' x;
  mv_disj x : in_tree T' x → x ∉ F';
}.

Lemma moved_refl F T : (∀ x, in_tree T x → x ∉ F) → moved F T F T.
Proof. by constructor. Qed.
Lemma moved_trans F1 T1 F2 T2 F3 T3 : moved F1 T1 F2 T2 → moved F2 T2 F3 T3 → moved F1 T1 F3 T3.
Proof.
  intros [H1 H2 H3 H4] [H1' H2' H3' H4']. constructor; [by etrans|by etrans| |done]. intros x. by rewrite H3, H3'.
Qed.

Lemma in_tree_insert T r b x : T !! r = None → in_tree (<[r := b]> T) x ↔ x = b ∨ in_tree T x.
Proof.
  intros Hr. split.
  - intros [r' [[_ ->]|[_ E]]%lookup_insert_Some]; [by left|right; by exists r'].
  - intros [->|[r' E]]; [exists r; by rewrite lookup_insert_eq|]. exists r'. rewrite lookup_insert_ne; [done|congruence].
Qed.
Lemma in_tree_delete T r b x : T !! r = Some b → (∀ r1 r2 y, T !! r1 = Some y → T !! r2 = Some y → r1 = r2) →
  in_tree (delete r T) x ↔ x ≠ b ∧ in_tree T x.
Proof.
  intros Hr Hinj. split.
  - intros [r' [Hne E]%lookup_delete_Some]. split; [|by exists r']. intros ->. by destruct Hne, (Hinj r r' b).
  - intros [Hne [r' E]]. exists r'. rewrite lookup_delete_ne; [done|congruence].
Qed.
Lemma meta_in T x : meta T x → in_tree T x.
Proof. intros (r & E & _). by exists r. Qed.

Lemma moved_insert F T r b : T !! r = None → b ∈ F → (∀ x, in_tree T x → x ∉ F) → moved F T (F ∖ {[b]}) (<[r := b]> T).
Proof.
  intros Hr Hb Hd. constructor; [by apply insert_subseteq|set_solver| |].
  - intros x. rewrite in_tree_insert by done. destruct (decide (x = b)); set_solver.
  - intros x. rewrite in_tree_insert by done. intros [->|Hx]; [set_solver|]. apply Hd in Hx. set_solver.
Qed.

(** A block that may be written while blocks are taken for the tree. *)
Definition touched (F : gset Z) (T : tree) (x : Z) : Prop := x ∈ F ∨ meta T x.

Lemma moved_touched F T F' T' B d x : tree_ok B d T' → moved F T F' T' → touched F' T' x → touched F T x.
Proof.
  intros Ht Hm [Hx|(r & E & Hr)]; [left; by apply (mv_free _ _ _ _ Hm)|].
  destruct (proj2 (mv_all _ _ _ _ Hm x)) as [?|[r' E']]; [right; by exists r|by left|].
  right. exists r'. split; [done|]. assert (r' = r) as ->; [|done].
  apply (t_inj _ _ _ Ht _ _ x); [|done]. by apply (lookup_weaken T T'), (mv_tree _ _ _ _ Hm).
Qed.

Section map.
Context {D : Type} `{BlockDevice D, !BlockDeviceLaws D}.
Implicit Types (s : sfs_fs D) (b n : Z) (F : gset Z) (T : tree).

(** The blocks of a tree are in range and in use. *)
Definition tree_in s F T : Prop := ∀ x, in_tree T x → 0 < x < blocks (super s) ∧ x ∉ F.

Lemma tree_in_same s s' F T : mem_same s s' → tree_in s F T → tree_in s' F T.
Proof. intros Hm Ht x Hx. rewrite (m_blocks _ _ Hm). by apply Ht. Qed.
Lemma tree_in_moved s s' F T F' T' :
  vol_ok s F → mem_same s s' → moved F T F' T' → tree_in s F T → tree_in s' F' T'.
Proof.
  intros Hv Hm Hmv Ht x Hx. rewrite (m_blocks _ _ Hm). split; [|by apply (mv_disj _ _ _ _ Hmv)].
  destruct (proj2 (mv_all _ _ _ _ Hmv x)) as [?|?]; [by right|by apply (v_range _ _ Hv)|by apply Ht].
Qed.

Lemma index_ok j : 0 ≤ j < 1024 → (j <? SFS_BLK_NENTRY) = true.
Proof. intros. apply Z.ltb_lt. unfold SFS_BLK_NENTRY. change (SFS_BLKSIZE / 4) with 1024. lia. Qed.

(** ** One entry of an indirect block *)

Lemma read_entry s F e j :
  vol_ok s F → 0 < e < blocks (super s) → 0 ≤ j < 1024 →
  ∃ s' bs, sfs_rbuf 4 e (j * 4) s = Ok ((0, bs), s') ∧ le_combine bs = word (blk s e) j ∧
    vol_ok s' F ∧ io_same s s' ∧ same_except (λ _, False) s s'.
Proof.
  intros Hv He Hj. destruct (rbuf_ok s F e (j * 4) 4) as (s' & E & H'); [done|done|unfold SFS_BLKSIZE, PGSIZE; lia..|].
  by exists s', (slice (blk s e) (j * 4) 4).
Qed.

Lemma write_entry s F e j w :
  vol_ok s F → 0 < e < blocks (super s) → 0 ≤ j < 1024 →
  ∃ s', sfs_wbuf (le_bytes 4 w) e (j * 4) s = Ok (0, s') ∧
    vol_ok s' F ∧ io_same s s' ∧ same_except (λ x, x = e) s s' ∧ blk s' e = splice (blk s e) (j * 4) (le_bytes 4 w).
Proof.
  intros Hv He Hj. apply (wbuf_ok s F); [done|done|unfold SFS_BLKSIZE, PGSIZE; lia|].
  rewrite le_bytes_length. unfold SFS_BLKSIZE, PGSIZE. lia.
Qed.

(** Taking a block for entry [j] of the block [e]. *)
Lemma add_sub_some s F ent0 e j :
  vol_ok s F → F ≠ ∅ → 0 < e < blocks (super s) → e ∉ F → 0 ≤ j < 1024 →
  ∃ b s', sfs_bmap_add_sub ent0 e j s = Ok ((0, e, b), s') ∧ b ∈ F ∧
    vol_ok s' (F ∖ {[b]}) ∧ mem_same s s' ∧ same_except (λ x, x = b ∨ x = e) s s' ∧ blk s' b = zeros ∧
    blk s' e = splice (blk s e) (j * 4) (le_bytes 4 b).
Proof.
  intros Hv Hne He Hef Hj. destruct (block_alloc_some s F Hv Hne) as (b & s1 & E & [Hb _] & Hv1 & Hm1 & He1 & Hz).
  assert (e ≠ b) as Hneb by congruence. pose proof (v_range _ _ Hv b Hb) as Hbr.
  destruct (write_entry s1 (F ∖ {[b]}) e j b) as (s2 & E2 & Hv2 & Hs2 & He2 & Hw); [done|by rewrite (m_blocks _ _ Hm1)|done|].
  exists b, s2. split.
  { unfold sfs_bmap_add_sub. rewrite (bind_ok _ _ _ _ _ E). cbn [negb Z.eqb].
    by rewrite (bind_ok _ _ _ _ _ E2). }
  split_and!; [done|done|by etrans; [|apply io_mem_same]| | |].
  - intros x Hx Hn. rewrite He2; [apply He1; [done|tauto]|by rewrite (m_blocks _ _ Hm1)|tauto].
  - rewrite He2; [done|rewrite (m_blocks _ _ Hm1); lia|congruence].
  - rewrite Hw, He1; [done|lia|done].
Qed.

Lemma add_sub_none s ent0 e j :
  vol_ok s ∅ → 0 < e < blocks (super s) →
  ∃ s', sfs_bmap_add_sub ent0 e j s = Ok ((- E_NO_MEM, ent0, 0), s') ∧
    vol_ok s' (if decide (e = ent0) then ∅ else {[e]}) ∧ mem_same s s' ∧ same_except (λ _, False) s s'.
Proof.
  intros Hv He. unfold sfs_bmap_add_sub. rewrite (bind_ok _ _ _ _ _ (block_alloc_none s Hv)).
  change (negb (- E_NO_MEM =? 0)) with true. cbn iota.
  destruct (Z.eqb_spec e ent0) as [->|Hne]; cbn [negb when].
  - exists s. rewrite (bind_ok _ _ _ _ _ eq_refl), decide_True by done. by split_and!.
  - destruct (block_free_ok s ∅ e) as (s' & E & Hv' & H'); [done|set_solver|done|].
    exists s'. rewrite (bind_ok _ _ _ _ _ E), decide_False by done. rewrite (right_id_L ∅ (∪)) in Hv'. done.
Qed.

(** ** [sfs_bmap_get_sub_nolock] *)

(** The pointer that is there, or 0 when nothing is to be created. *)
Lemma get_sub_found s F d T r p j create :
  vol_ok s F → tree_in s F T → tree_ok (blk s) d T → valid r → up r = (Some p, j) →
  is_Some (T !! r) ∨ create = false →
  ∃ s', sfs_bmap_get_sub_nolock (default 0 (T !! p)) j create s =
      Ok ((0, default 0 (T !! p), default 0 (T !! r)), s') ∧
    vol_ok s' F ∧ io_same s s' ∧ same_except (λ _, False) s s'.
Proof.
  intros Hv Hin Ht Hr Hup Hc. destruct (up_range _ _ _ Hup Hr) as [Hj _].
  unfold sfs_bmap_get_sub_nolock. rewrite (index_ok j Hj). rewrite (bind_ok _ _ _ _ _ eq_refl).
  destruct (T !! p) as [e|] eqn:Ep; cbn [default from_option id].
  - destruct (Hin e) as [He Hef]; [by exists p|]. rewrite (proj2 (Z.eqb_neq e 0)) by lia. cbn [negb].
    destruct (read_entry s F e j) as (s' & bs & E & Hw & Hv' & Hs' & He'); [done..|].
    exists s'. split; [|done]. rewrite (bind_ok _ _ _ _ _ E). cbn [negb Z.eqb]. cbv zeta.
    rewrite Hw, (t_node _ _ _ Ht r p j e) by done.
    destruct (T !! r) as [b|] eqn:Er; cbn [default from_option id].
    + destruct (Hin b) as [Hb _]; [by exists r|]. by rewrite (proj2 (Z.eqb_neq b 0)) by lia.
    + destruct Hc as [[? ?]| ->]; done.
  - assert (T !! r = None) as Er by by eapply no_child. rewrite Er in *.
    destruct Hc as [[? ?]| ->]; [done|]. exists s. split_and!; done.
Qed.

(** What creating the place [r] below [p] comes to: no space, and nothing has
    changed; or a new block for [r], and one for [p] if that was missing. *)
Definition created s F d T r p jp (res : Z * Z * Z) s' : Prop :=
  let ent0 := default 0 (T !! p) in
  mem_same s s' ∧ same_except (touched F T) s s' ∧
  ((res = (- E_NO_MEM, ent0, 0) ∧ vol_ok s' F ∧ tree_ok (blk s') d T ∧ (size F ≤ 1)%nat) ∨
   ∃ e b F', let T' := <[r := b]> (<[p := e]> T) in
     res = (0, e, b) ∧ vol_ok s' F' ∧ moved F T F' T' ∧ blk s' b = zeros ∧
     (ent0 ≠ 0 → e = ent0) ∧ e ≠ 0 ∧
     tree_ok (blk s') (if decide (e = ent0) then d else set_root jp e d) T').

Lemma get_sub_create_below s F d T r p j jp e :
  vol_ok s F → tree_in s F T → tree_ok (blk s) d T → valid r → up r = (Some p, j) → T !! r = None → T !! p = Some e →
  ∃ res s', sfs_bmap_get_sub_nolock e j true s = Ok (res, s') ∧ created s F d T r p jp res s'.
Proof.
  intros Hv Hin Ht Hr Hup Hn Ep. destruct (up_range _ _ _ Hup Hr) as [Hj _].
  destruct (up_parent _ _ _ Hup Hr) as (Hpv & Hpd & Hpr). unfold created. rewrite Ep. cbn [default from_option id].
  unfold sfs_bmap_get_sub_nolock. rewrite (index_ok j Hj). rewrite (bind_ok _ _ _ _ _ eq_refl).
  destruct (Hin e) as [He Hef]; [by exists p|]. rewrite (proj2 (Z.eqb_neq e 0)) by lia. cbn [negb].
  assert (meta T e) as Hme by by exists p.
  destruct (read_entry s F e j) as (s1 & bs & E & Hw & Hv1 & Hs1 & He1); [done..|].
  rewrite (bind_ok _ _ _ _ _ E). cbn [negb Z.eqb]. cbv zeta.
  rewrite Hw, (t_node _ _ _ Ht r p j e), Hn by done. cbn [default from_option id negb Z.eqb orb].
  pose proof (io_mem_same _ _ Hs1) as Hm1. assert (0 < e < blocks (super s1)) as He' by by rewrite (m_blocks _ _ Hm1).
  destruct (decide (F = ∅)) as [->|HF].
  - destruct (add_sub_none s1 e e j Hv1 He') as (s2 & E2 & Hv2 & Hm2 & He2). rewrite decide_True in Hv2 by done.
    assert (∀ x, 0 ≤ x < blocks (super s) → blk s2 x = blk s x) as Hframe.
    { intros x Hx. rewrite He2, He1; [done|done|tauto|by rewrite (m_blocks _ _ Hm1)|tauto]. }
    exists (- E_NO_MEM, e, 0), s2. split; [done|]. split; [by etrans|]. split; [by intros x Hx _; apply Hframe|].
    left. rewrite size_empty. split_and!; [done|done| |lia].
    apply (tree_ext (blk s)); [done|]. intros x Hx. apply Hframe. apply meta_in, Hin in Hx. lia.
  - destruct (add_sub_some s1 F e e j Hv1 HF He' Hef Hj) as (b & s2 & E2 & Hb & Hv2 & Hm2 & He2 & Hz & Hbe).
    pose proof (v_range _ _ Hv b Hb) as Hbr.
    assert (¬ in_tree T b) as Hnb by (intros Hx; by destruct (Hin b Hx)).
    assert (blk s1 e = blk s e) as Hse by (apply He1; [lia|tauto]).
    assert (∀ x, 0 ≤ x < blocks (super s) → x ≠ b → x ≠ e → blk s2 x = blk s x) as Hframe.
    { intros x Hx ??. rewrite He2, He1; [done|lia|tauto|rewrite (m_blocks _ _ Hm1); lia|tauto]. }
    exists (0, e, b), s2. split; [done|]. split; [by etrans|]. split.
    { intros x Hx Hnt. apply Hframe; [lia| |]; intros ->; apply Hnt; [by left|by right]. }
    right. exists e, b, (F ∖ {[b]}). rewrite (insert_id T p e) by done. rewrite decide_True by done.
    split_and!; [done|done| |done|done|lia|].
    { apply moved_insert; [done|done|]. intros x Hx. by apply Hin. }
    apply (tree_insert_node (blk s) _ d T r p j e b); try done.
    + pose proof (v_blocks _ _ Hv). lia.
    + apply (blk_len s F); [done|lia].
    + by rewrite Hbe, Hse.
    + intros x Hx Hxe. destruct (Hin x (meta_in _ _ Hx)) as [Hxr Hxf]. apply Hframe; [lia|congruence|done].
Qed.

Lemma get_sub_create_both s F d T r p j jp :
  vol_ok s F → tree_in s F T → tree_ok (blk s) d T → valid r → up r = (Some p, j) → T !! r = None →
  T !! p = None → up p = (None, jp) →
  ∃ res s', sfs_bmap_get_sub_nolock 0 j true s = Ok (res, s') ∧ created s F d T r p jp res s'.
Proof.
  intros Hv Hin Ht Hr Hup Hn Ep Hp. destruct (up_range _ _ _ Hup Hr) as [Hj _].
  destruct (up_parent _ _ _ Hup Hr) as (Hpv & Hpd & Hpr). unfold created. rewrite Ep. cbn [default from_option id].
  unfold sfs_bmap_get_sub_nolock. rewrite (index_ok j Hj). rewrite (bind_ok _ _ _ _ _ eq_refl). cbn [negb Z.eqb].
  destruct (decide (F = ∅)) as [->|HF].
  { rewrite (bind_ok _ _ _ _ _ (block_alloc_none s Hv)). exists (- E_NO_MEM, 0, 0), s.
    split; [done|]. split; [done|]. split; [apply same_except_refl|]. left. rewrite size_empty. split_and!; [done..|lia]. }
  destruct (block_alloc_some s F Hv HF) as (e & s1 & E & [Hef _] & Hv1 & Hm1 & He1 & Hze).
  rewrite (bind_ok _ _ _ _ _ E). cbn [negb Z.eqb]. pose proof (v_range _ _ Hv e Hef) as Her.
  assert (¬ in_tree T e) as Hne by (intros Hx; by destruct (Hin e Hx)).
  assert (0 < e < blocks (super s1)) as Her1 by by rewrite (m_blocks _ _ Hm1).
  destruct (decide (F ∖ {[e]} = ∅)) as [HF'|HF'].
  - rewrite HF' in Hv1. destruct (add_sub_none s1 0 e j Hv1 Her1) as (s2 & E2 & Hv2 & Hm2 & He2).
    rewrite decide_False in Hv2 by lia. assert (F = {[e]}) as HFe.
    { apply set_eq. intros x. split; [|set_solver]. intros Hx. destruct (decide (x = e)); set_solver. }
    assert (∀ x, 0 ≤ x < blocks (super s) → x ∉ F → blk s2 x = blk s x) as Hframe.
    { intros x Hx Hnt. rewrite He2, He1; [done|done|congruence|by rewrite (m_blocks _ _ Hm1)|tauto]. }
    exists (- E_NO_MEM, 0, 0), s2. split; [done|]. split; [by etrans|]. split.
    { intros x Hx Hnt. apply Hframe; [done|]. intros ?. apply Hnt. by left. }
    left. rewrite HFe at 2. rewrite size_singleton. split_and!; [done|by rewrite HFe| |lia].
    apply (tree_ext (blk s)); [done|]. intros x Hx. apply meta_in, Hin in Hx as [??]. apply Hframe; [lia|done].
  - destruct (add_sub_some s1 (F ∖ {[e]}) 0 e j Hv1 HF' Her1 ltac:(set_solver) Hj) as
      (b & s2 & E2 & Hb & Hv2 & Hm2 & He2 & Hz & Hbe).
    assert (b ∈ F ∧ b ≠ e) as [Hbf Hneb] by set_solver. pose proof (v_range _ _ Hv b Hbf) as Hbr.
    exists (0, e, b), s2. split; [done|]. split; [by etrans|]. split.
    { intros x Hx Hnt. assert (x ≠ b ∧ x ≠ e) as [??] by (split; intros ->; apply Hnt; by left).
      rewrite He2, He1; [done|lia|done|rewrite (m_blocks _ _ Hm1); lia|tauto]. }
    right. exists e, b, (F ∖ {[e]} ∖ {[b]}). rewrite decide_False by lia.
    assert (moved F T (F ∖ {[e]}) (<[p := e]> T)) as Hmv1.
    { apply moved_insert; [done|done|]. intros x Hx. by apply Hin. }
    assert (<[p := e]> T !! r = None) as Hn' by by rewrite lookup_insert_ne.
    assert (tree_ok (blk s1) (set_root jp e d) (<[p := e]> T)) as Ht1.
    { apply (tree_insert_root (blk s)); try done. intros x Hx. destruct (Hin x (meta_in _ _ Hx)) as [??].
      apply He1; [lia|]. congruence. }
    split_and!; [done|done| |done|done|lia|].
    { eapply moved_trans; [done|]. apply moved_insert; [done|set_solver|]. apply (mv_disj _ _ _ _ Hmv1). }
    apply (tree_insert_node (blk s1) _ _ _ r p j e b); try done.
    + by rewrite lookup_insert_eq.
    + rewrite in_tree_insert by done. intros [->|Hx]; [done|]. by destruct (Hin b Hx).
    + pose proof (v_blocks _ _ Hv). lia.
    + apply (blk_len s1 (F ∖ {[e]})); [done|lia].
    + intros x Hx Hxe. assert (in_tree T x) as Hxt.
      { apply meta_in in Hx. rewrite in_tree_insert in Hx by done. by destruct Hx. }
      destruct (Hin x Hxt) as [? ?]. apply He2; [rewrite (m_blocks _ _ Hm1); lia|]. intros [->| ->]; done.
Qed.

Lemma get_sub_create s F d T r p j jp :
  vol_ok s F → tree_in s F T → tree_ok (blk s) d T → valid r → up r = (Some p, j) → T !! r = None →
  (T !! p = None → up p = (None, jp)) →
  ∃ res s', sfs_bmap_get_sub_nolock (default 0 (T !! p)) j true s = Ok (res, s') ∧ created s F d T r p jp res s'.
Proof.
  intros Hv Hin Ht Hr Hup Hn Hp. destruct (T !! p) as [e|] eqn:Ep; cbn [default from_option id].
  - by apply get_sub_create_below.
  - apply get_sub_create_both; try done. by apply Hp.
Qed.

(** ** An inode and its tree *)

Definition set_sin s n (sin : sfs_inode) : sfs_fs D := s <| inodes := <[n := sin]> (inodes s) |>.

(** All but the volume and the inode [n]. *)
Record node_same n s s' : Prop := {
  ns_inodes m : m ≠ n → inodes s' !! m = inodes s !! m;
  ns_mem : mem_same (s <| inodes := ∅ |>) (s' <| inodes := ∅ |>);
}.
Lemma mem_same_forget s s' : mem_same s s' → mem_same (s <| inodes := ∅ |>) (s' <| inodes := ∅ |>).
Proof. intros []. by constructor. Qed.
Lemma mem_node_same n s s' : mem_same s s' → node_same n s s'.
Proof. intros Hm. constructor; [by rewrite (m_inodes _ _ Hm)|by apply mem_same_forget]. Qed.
#[export] Instance node_same_refl n : Reflexive (node_same n).
Proof. intros s. by apply mem_node_same. Qed.
#[export] Instance node_same_trans n : Transitive (node_same n).
Proof.
  intros s1 s2 s3 [H1 H2] [H3 H4]. constructor; [|by etrans]. intros m Hm. rewrite H3, H1 by done. done.
Qed.
Lemma node_same_set n s sin : node_same n s (set_sin s n sin).
Proof. constructor; [intros; by apply lookup_insert_ne|by constructor]. Qed.
Lemma node_blocks n s s' : node_same n s s' → blocks (super s') = blocks (super s).
Proof. intros [_ []]. done. Qed.

Lemma vol_set s F n sin : vol_ok s F → vol_ok (set_sin s n sin) F.
Proof. intros []. by constructor. Qed.

Lemma get_sin_ok s n sin : inodes s !! n = Some sin → get_sin n s = Ok (sin, s).
Proof. unfold get_sin, deref. by intros ->. Qed.
Lemma get_din_ok s n sin : inodes s !! n = Some sin → get_din n s = Ok (din sin, s).
Proof. intros E. unfold get_din. by rewrite (bind_ok _ _ _ _ _ (get_sin_ok _ _ _ E)). Qed.
Lemma on_sin_ok s n sin f : inodes s !! n = Some sin → on_sin n f s = Ok (tt, set_sin s n (f sin)).
Proof. intros E. unfold on_sin. by rewrite (bind_ok _ _ _ _ _ (get_sin_ok _ _ _ E)). Qed.
Lemma on_din_ok s n sin f : inodes s !! n = Some sin → on_din n f s = Ok (tt, set_sin s n (sin <| din := f (din sin) |>)).
Proof. intros E. unfold on_din. by rewrite (on_sin_ok _ _ _ _ E). Qed.
Lemma set_dirty_ok s n sin : inodes s !! n = Some sin → set_dirty n s = Ok (tt, set_sin s n (sin <| dirty := true |>)).
Proof. intros E. unfold set_dirty. by rewrite (on_sin_ok _ _ _ _ E). Qed.
Lemma set_sin_twice s n sin sin' : set_sin (set_sin s n sin) n sin' = set_sin s n sin'.
Proof. unfold set_sin. simpl. by rewrite insert_insert_eq. Qed.
Lemma set_sin_at s n sin : inodes (set_sin s n sin) !! n = Some sin.
Proof. apply lookup_insert_eq. Qed.

(** Changing members of [din] and marking the inode dirty. *)
Lemma dirty_din_ok s n sin f :
  inodes s !! n = Some sin →
  (_ ← on_din n f; set_dirty n) s = Ok (tt, set_sin s n (sin <| din := f (din sin) |> <| dirty := true |>)).
Proof.
  intros E. rewrite (bind_ok _ _ _ _ _ (on_din_ok _ _ _ _ E)), (set_dirty_ok _ _ _ (set_sin_at _ _ _)).
  by rewrite set_sin_twice.
Qed.

(** What the block map leaves alone in an inode. *)
Record sin_same (a a' : sfs_inode) : Prop := {
  ss_ino : ino a' = ino a;
  ss_flags : flags a' = flags a;
  ss_reclaim : reclaim_count a' = reclaim_count a;
  ss_ops : in_ops a' = in_ops a;
  ss_ref : ref_count a' = ref_count a;
  ss_open : open_count a' = open_count a;
  ss_dirty : dirty a = true → dirty a' = true;
  ss_parent : din_parent (din a') = din_parent (din a);
  ss_type : din_type (din a') = din_type (din a);
  ss_nlinks : din_nlinks (din a') = din_nlinks (din a);
}.
#[export] Instance sin_same_refl : Reflexive sin_same.
Proof. by constructor. Qed.
#[export] Instance sin_same_trans : Transitive sin_same.
Proof. intros a1 a2 a3 [] []. constructor; try congruence. auto. Qed.

(** The inode [n] is in memory with its tree. *)
Record file_at s F n (sin : sfs_inode) T : Prop := {
  fa_vol : vol_ok s F;
  fa_node : inodes s !! n = Some sin;
  fa_in : tree_in s F T;
  fa_tree : tree_ok (blk s) (din sin) T;
}.

(** From one state of a file to a later one, when its map has grown. *)
Record grown n s F (sin : sfs_inode) T s' F' (sin' : sfs_inode) T' : Prop := {
  gr_file : file_at s' F' n sin' T';
  gr_node : node_same n s s';
  gr_sin : sin_same sin sin';
  gr_size : din_size (din sin') = din_size (din sin);
  gr_moved : moved F T F' T';
  gr_same : same_except (touched F T) s s';
}.

Lemma grown_refl n s F sin T : file_at s F n sin T → grown n s F sin T s F sin T.
Proof.
  intros Hf. constructor; [done|done|done|done| |apply same_except_refl].
  apply moved_refl. intros x Hx. by apply (fa_in _ _ _ _ _ Hf).
Qed.

Lemma same_except_moved n s F T s' F' T' s'' B d :
  node_same n s s' → tree_ok B d T' → moved F T F' T' →
  same_except (touched F T) s s' → same_except (touched F' T') s' s'' → same_except (touched F T) s s''.
Proof.
  intros Hn Ht Hm H1 H2 x Hx Hnt. rewrite H2, H1; [done..|by rewrite (node_blocks _ _ _ Hn)|].
  intros Ht'. apply Hnt. by apply (moved_touched _ _ _ _ _ _ _ Ht Hm).
Qed.

Lemma grown_trans n s1 F1 sin1 T1 s2 F2 sin2 T2 s3 F3 sin3 T3 :
  grown n s1 F1 sin1 T1 s2 F2 sin2 T2 → grown n s2 F2 sin2 T2 s3 F3 sin3 T3 → grown n s1 F1 sin1 T1 s3 F3 sin3 T3.
Proof.
  intros [] []. constructor; try done; [by etrans|by etrans|congruence|by eapply moved_trans|].
  eapply same_except_moved; [done|by apply (fa_tree _ _ _ _ _ gr_file0)|done|done|done].
Qed.

(** ** [sfs_bmap_get_nolock] *)

Lemma finish_get_ok s F b : vol_ok s F → (b ≠ 0 → 0 < b < blocks (super s) ∧ b ∉ F) → finish_get b s = Ok ((0, b), s).
Proof.
  intros Hv Hb. unfold finish_get. destruct (Z.eqb_spec b 0) as [->|Hne]; [done|]. destruct (Hb Hne).
  cbn [negb when]. by rewrite (bind_ok _ _ _ _ _ (assert_inuse_ok s F b Hv ltac:(done) ltac:(done))).
Qed.

Lemma tree_ptr_in s F T r : tree_in s F T → default 0 (T !! r) ≠ 0 →
  0 < default 0 (T !! r) < blocks (super s) ∧ default 0 (T !! r) ∉ F.
Proof. intros Hin Hr. destruct (T !! r) as [b|] eqn:E; [|done]. apply Hin. by exists r. Qed.

Lemma finish_tree s F T r : vol_ok s F → tree_in s F T →
  finish_get (default 0 (T !! r)) s = Ok ((0, default 0 (T !! r)), s).
Proof. intros Hv Hin. apply (finish_get_ok s F); [done|]. by apply tree_ptr_in. Qed.

(** The part of the map that [i] falls in, as the code tests it. *)
Lemma data_direct i : 0 ≤ i < 12 → up (Data i) = (None, i) ∧ (i <? SFS_NDIRECT) = true.
Proof. intros. cbn. unfold SFS_NDIRECT. rewrite (proj2 (Z.ltb_lt i 12)) by lia. done. Qed.
Lemma data_indirect i : 12 ≤ i < 1036 →
  up (Data i) = (Some Ind, i - SFS_NDIRECT) ∧ (i <? SFS_NDIRECT) = false ∧ (i - SFS_NDIRECT <? SFS_BLK_NENTRY) = true.
Proof.
  intros. cbn. unfold SFS_NDIRECT. change SFS_BLK_NENTRY with 1024.
  rewrite (proj2 (Z.ltb_ge i 12)), (proj2 (Z.ltb_lt i 1036)), (proj2 (Z.ltb_lt (i - 12) 1024)) by lia. done.
Qed.
Lemma data_double i : 1036 ≤ i < MAX_BLOCKS →
  let k := (i - SFS_NDIRECT - SFS_BLK_NENTRY) / SFS_BLK_NENTRY in
  up (Data i) = (Some (Sub k), (i - SFS_NDIRECT - SFS_BLK_NENTRY) mod SFS_BLK_NENTRY) ∧ valid (Sub k) ∧
  (i <? SFS_NDIRECT) = false ∧ (i - SFS_NDIRECT <? SFS_BLK_NENTRY) = false.
Proof.
  intros Hi k. unfold MAX_BLOCKS in Hi. change SFS_BLK_NENTRY with 1024 in *. unfold SFS_NDIRECT in *.
  assert (k = (i - 1036) / 1024) as Hk by (unfold k; f_equal; lia). cbn.
  rewrite (proj2 (Z.ltb_ge i 12)), (proj2 (Z.ltb_ge i 1036)), (proj2 (Z.ltb_ge (i - 12) 1024)) by lia.
  replace (i - 12 - 1024) with (i - 1036) by lia. rewrite <-Hk. split_and!; try done.
  - rewrite Hk. apply Z.div_pos; lia.
  - rewrite Hk. apply Z.div_lt_upper_bound; lia.
Qed.

Lemma parent_some B d T r p j : tree_ok B d T → up r = (Some p, j) → is_Some (T !! r) → is_Some (T !! p).
Proof. intros Ht Hup [b E]. by apply (proj2 (t_up _ _ _ Ht _ _ E) p j). Qed.

(** A block that the file has, or a request that creates nothing. *)
Lemma bmap_get_found s F n sin T i create :
  file_at s F n sin T → 0 ≤ i < MAX_BLOCKS → is_Some (T !! Data i) ∨ create = false →
  ∃ s', sfs_bmap_get_nolock n i create s = Ok ((0, default 0 (T !! Data i)), s') ∧
    vol_ok s' F ∧ io_same s s' ∧ same_except (λ _, False) s s'.
Proof.
  intros [Hv Hn Hin Ht] Hi Hc. unfold sfs_bmap_get_nolock. rewrite (bind_ok _ _ _ _ _ (get_din_ok _ _ _ Hn)).
  destruct (decide (i < 12)) as [Hd|Hd]; [|destruct (decide (i < 1036)) as [Hd'|Hd']].
  - destruct (data_direct i ltac:(lia)) as [Hup ->]. exists s. split; [|by split_and!].
    pose proof (t_root _ _ _ Ht _ _ Hup Hi) as Hr. unfold root_ptr in Hr. rewrite (proj2 (Z.ltb_lt i 12)) in Hr by lia.
    destruct (lookup_lt_is_Some_2 (direct (din sin)) (Z.to_nat i)) as [x Ex]; [rewrite (t_direct _ _ _ Ht); lia|].
    rewrite (bind_ok _ _ s x s) by (unfold deref; by rewrite Ex). rewrite Ex in Hr. cbn in Hr. subst x.
    replace ((default 0 (T !! Data i) =? 0) && create) with false; [by apply (finish_tree s F)|].
    destruct Hc as [[b Eb]| ->]; [|by rewrite andb_false_r]. rewrite Eb. cbn.
    destruct (Hin b) as [? _]; [by exists (Data i)|]. by rewrite (proj2 (Z.eqb_neq b 0)) by lia.
  - destruct (data_indirect i ltac:(lia)) as (Hup & -> & Hlt). cbv zeta. rewrite Hlt.
    destruct (get_sub_found s F (din sin) T (Data i) _ _ create Hv Hin Ht Hi Hup Hc) as (s' & E & Hv' & Hs' & He').
    pose proof (t_root _ _ _ Ht Ind 12 eq_refl I) as Hr. cbn in Hr. rewrite <-Hr in E.
    exists s'. split; [|done]. rewrite (bind_ok _ _ _ _ _ E). cbn [negb Z.eqb]. rewrite Z.eqb_refl. cbn [negb when].
    rewrite (bind_ok _ _ _ _ _ eq_refl). apply (finish_tree s' F); [done|].
    apply (tree_in_same s); [by apply io_mem_same|done].
  - destruct (data_double i ltac:(lia)) as (Hup & Hk & -> & Hlt). cbv zeta. rewrite Hlt.
    set (k := _ / SFS_BLK_NENTRY) in *.
    assert (is_Some (T !! Sub k) ∨ create = false) as Hck.
    { destruct Hc as [Hs|]; [left|by right]. by apply (parent_some _ _ _ _ _ _ Ht Hup). }
    destruct (get_sub_found s F (din sin) T (Sub k) Dbl k create Hv Hin Ht Hk eq_refl Hck) as (s1 & E & Hv1 & Hs1 & He1).
    pose proof (t_root _ _ _ Ht Dbl 13 eq_refl I) as Hr. cbn in Hr. rewrite <-Hr in E.
    rewrite (bind_ok _ _ _ _ _ E). cbn [negb Z.eqb]. rewrite Z.eqb_refl. cbn [negb when]. rewrite (bind_ok _ _ _ _ _ eq_refl).
    pose proof (tree_in_same s s1 F T (io_mem_same _ _ Hs1) Hin) as Hin1.
    destruct (Z.eqb_spec (default 0 (T !! Sub k)) 0) as [Hz|Hnz]; cbn [negb].
    + assert (T !! Sub k = None) as Hnone.
      { destruct (T !! Sub k) as [e|] eqn:Ek; [|done]. cbn in Hz. destruct (Hin e) as [? _]; [by exists (Sub k)|]. lia. }
      exists s1. rewrite (no_child _ _ _ _ _ _ Ht Hup Hnone), Hz. split; [|done]. by apply (finish_get_ok s1 F).
    + assert (tree_ok (blk s1) (din sin) T) as Ht1.
      { apply (tree_ext (blk s)); [done|]. intros x Hx. destruct (Hin x (meta_in _ _ Hx)). apply He1; [lia|tauto]. }
      destruct (get_sub_found s1 F (din sin) T (Data i) _ _ create Hv1 Hin1 Ht1 Hi Hup Hc) as (s2 & E2 & Hv2 & Hs2 & He2).
      rewrite (bind_ok _ _ _ _ _ E2). cbn [negb Z.eqb]. exists s2. split; [|split_and!; [done|by etrans|]].
      * apply (finish_tree s2 F); [done|]. apply (tree_in_same s1); [by apply io_mem_same|done].
      * intros x Hx _. rewrite He2, He1; [done|done|tauto|by rewrite (m_blocks _ _ (io_mem_same _ _ Hs1))|tauto].
Qed.

(** Changing [din] keeps the file, if the pointers stay those of the tree. *)
Lemma file_set_sin s F n sin sin' T :
  file_at s F n sin T → tree_ok (blk s) (din sin') T → file_at (set_sin s n sin') F n sin' T.
Proof. intros [Hv Hn Hin Ht] Ht'. constructor; [by apply vol_set|apply set_sin_at|done|done]. Qed.

(** The volume and the tree have changed, the inode has not. *)
Lemma moved_grown s F n sin T s' F' T' :
  file_at s F n sin T → mem_same s s' → same_except (touched F T) s s' → vol_ok s' F' → moved F T F' T' →
  tree_ok (blk s') (din sin) T' → grown n s F sin T s' F' sin T'.
Proof.
  intros [Hv Hn Hin Ht] Hm Hs Hv' Hmv Ht'. constructor; [|by apply mem_node_same|done..].
  constructor; [done|by rewrite (m_inodes _ _ Hm)|by apply (tree_in_moved s s' F T)|done].
Qed.
Lemma full_grown s F n sin T s' :
  file_at s F n sin T → mem_same s s' → same_except (touched F T) s s' → vol_ok s' F → tree_ok (blk s') (din sin) T →
  grown n s F sin T s' F sin T.
Proof. intros Hf ????. apply moved_grown; try done. apply moved_refl. intros x Hx. by apply (fa_in _ _ _ _ _ Hf). Qed.

(** A new tree whose root pointer [jp] is stored into the inode. *)
Lemma root_grown s F n sin T s' F' T' (jp e : Z) :
  file_at s F n sin T → mem_same s s' → same_except (touched F T) s s' → vol_ok s' F' → moved F T F' T' →
  tree_ok (blk s') (set_root jp e (din sin)) T' →
  grown n s F sin T (set_sin s' n (sin <| din := set_root jp e (din sin) |> <| dirty := true |>)) F'
    (sin <| din := set_root jp e (din sin) |> <| dirty := true |>) T'.
Proof.
  intros [Hv Hn Hin Ht] Hm Hs Hv' Hmv Ht'.
  assert (∀ P : sfs_disk_inode → Z, (∀ d l, P (d <| direct := l |>) = P d) → (∀ d x, P (d <| indirect := x |>) = P d) →
    (∀ d x, P (d <| db_indirect := x |>) = P d) → P (set_root jp e (din sin)) = P (din sin)) as Hkeep.
  { intros P H1 H2 H3. unfold set_root. destruct (jp <? 12), (jp =? 12); auto. }
  constructor; [| | |by apply Hkeep|done|done].
  - constructor; [by apply vol_set|apply set_sin_at|by apply (tree_in_moved s s' F T)|done].
  - etrans; [by apply mem_node_same|apply node_same_set].
  - constructor; try done; by apply Hkeep.
Qed.

Lemma set_root_blocks jp e d : din_blocks (set_root jp e d) = din_blocks d.
Proof. unfold set_root. by destruct (jp <? 12), (jp =? 12). Qed.

(** The code after [sfs_bmap_get_sub_nolock]: a new root pointer is stored. *)
Definition link_root n (ptr ent : Z) (f : sfs_disk_inode → sfs_disk_inode) : M (sfs_fs D) unit :=
  when (negb (ent =? ptr)) (_ ← assert (ptr =? 0); _ ← on_din n f; set_dirty n).

Lemma link_root_ok s F n sin T s1 F' T' jp e ent0 f :
  file_at s F n sin T → mem_same s s1 → same_except (touched F T) s s1 → vol_ok s1 F' → moved F T F' T' →
  (ent0 ≠ 0 → e = ent0) → e ≠ 0 → f (din sin) = set_root jp e (din sin) →
  tree_ok (blk s1) (if decide (e = ent0) then din sin else set_root jp e (din sin)) T' →
  ∃ s2 sin', link_root n ent0 e f s1 = Ok (tt, s2) ∧ grown n s F sin T s2 F' sin' T' ∧
    din_blocks (din sin') = din_blocks (din sin) ∧ ∀ x, blk s2 x = blk s1 x.
Proof.
  intros Hf Hm Hs Hv Hmv He0 He Hfe Ht. unfold link_root. assert (inodes s1 !! n = Some sin) as Hn.
  { rewrite (m_inodes _ _ Hm). by destruct Hf. }
  destruct (Z.eqb_spec e ent0) as [->|Hne]; cbn [negb when].
  - rewrite decide_True in Ht by done. exists s1, sin. split_and!; try done. by apply moved_grown.
  - rewrite decide_False in Ht by done. assert (ent0 = 0) as -> by lia.
    exists (set_sin s1 n (sin <| din := set_root jp e (din sin) |> <| dirty := true |>)),
      (sin <| din := set_root jp e (din sin) |> <| dirty := true |>).
    rewrite (bind_ok _ _ _ _ _ eq_refl), (dirty_din_ok _ _ _ _ Hn), Hfe. split_and!; [done| |apply set_root_blocks|done].
    by apply root_grown.
Qed.

(** The file after a request for a block that it does not have. *)
Definition got n s F sin T (i : Z) (res : Z * Z) s' : Prop :=
  ∃ F' sin' T', grown n s F sin T s' F' sin' T' ∧ din_blocks (din sin') = din_blocks (din sin) ∧
    (∀ k, k ≠ i → T' !! Data k = T !! Data k) ∧
    ((res = (- E_NO_MEM, 0) ∧ T' !! Data i = None ∧ (size F' ≤ 1)%nat) ∨
     ∃ b, res = (0, b) ∧ T' !! Data i = Some b ∧ blk s' b = zeros).

Lemma get_direct s F n sin T i :
  file_at s F n sin T → 0 ≤ i < 12 → T !! Data i = None →
  ∃ res s', sfs_bmap_get_nolock n i true s = Ok (res, s') ∧ got n s F sin T i res s'.
Proof.
  intros Hf Hi Hno. pose proof Hf as [Hv Hn Hin Ht]. destruct (data_direct i Hi) as [Hup Hlt].
  assert (valid (Data i)) as Hvi by (cbn; unfold MAX_BLOCKS; lia).
  unfold sfs_bmap_get_nolock. rewrite (bind_ok _ _ _ _ _ (get_din_ok _ _ _ Hn)), Hlt.
  pose proof (t_root _ _ _ Ht _ _ Hup Hvi) as Hr. unfold root_ptr in Hr. rewrite (proj2 (Z.ltb_lt i 12)) in Hr by lia.
  destruct (lookup_lt_is_Some_2 (direct (din sin)) (Z.to_nat i)) as [x Ex]; [rewrite (t_direct _ _ _ Ht); lia|].
  rewrite (bind_ok _ _ s x s) by (unfold deref; by rewrite Ex). rewrite Ex, Hno in Hr. cbn in Hr. subst x. cbn [Z.eqb andb].
  destruct (decide (F = ∅)) as [->|HF].
  { rewrite (bind_ok _ _ _ _ _ (block_alloc_none s Hv)). exists (- E_NO_MEM, 0), s. split; [done|].
    exists ∅, sin, T. split_and!; [by apply grown_refl|done|done|left; rewrite size_empty; split_and!; [done..|lia]]. }
  destruct (block_alloc_some s F Hv HF) as (b & s1 & E & [Hb _] & Hv1 & Hm1 & He1 & Hz).
  rewrite (bind_ok _ _ _ _ _ E). cbn [negb Z.eqb].
  assert (inodes s1 !! n = Some sin) as Hn1 by by rewrite (m_inodes _ _ Hm1).
  set (f := λ d : sfs_disk_inode, d <| direct := <[Z.to_nat i := b]> (direct d) |>).
  assert (f (din sin) = set_root i b (din sin)) as Hfe by (unfold f, set_root; by rewrite (proj2 (Z.ltb_lt i 12)) by lia).
  rewrite bind_assoc, (bind_ok _ _ _ _ _ (dirty_din_ok _ _ _ f Hn1)), Hfe.
  assert (moved F T (F ∖ {[b]}) (<[Data i := b]> T)) as Hmv.
  { apply moved_insert; [done|done|]. intros x Hx. by apply Hin. }
  assert (¬ in_tree T b) as Hnb by (intros Hx; by destruct (Hin b Hx)).
  assert (tree_ok (blk s1) (set_root i b (din sin)) (<[Data i := b]> T)) as Ht1.
  { apply (tree_insert_root (blk s)); try done. intros x Hx. destruct (Hin x (meta_in _ _ Hx)) as [??].
    apply He1; [lia|]. congruence. }
  eapply (root_grown s F n sin T s1) in Ht1 as Hg; [|done..| |done|done].
  2: { intros x Hx Hnt. apply He1; [done|]. intros ->. apply Hnt. by left. }
  set (sin' := sin <| din := _ |> <| dirty := true |>) in *. set (s2 := set_sin s1 n sin') in *.
  pose proof (v_range _ _ Hv b Hb) as Hbr.
  exists (0, b), s2. split.
  { apply (finish_get_ok s2 (F ∖ {[b]})); [by apply vol_set|]. intros _. split; [|set_solver].
    by rewrite (node_blocks n s s2) by apply Hg. }
  exists (F ∖ {[b]}), sin', (<[Data i := b]> T). split_and!; [done|apply set_root_blocks| |right; exists b].
  - intros k Hk. rewrite lookup_insert_ne; [done|congruence].
  - split_and!; [done|by rewrite lookup_insert_eq|exact Hz].
Qed.

Lemma finish_got s F T i b : vol_ok s F → tree_in s F T → T !! Data i = Some b → finish_get b s = Ok ((0, b), s).
Proof. intros Hv Hin E. apply (finish_get_ok s F); [done|]. intros _. apply Hin. by exists (Data i). Qed.

Lemma get_indirect s F n sin T i :
  file_at s F n sin T → 12 ≤ i < 1036 → T !! Data i = None →
  ∃ res s', sfs_bmap_get_nolock n i true s = Ok (res, s') ∧ got n s F sin T i res s'.
Proof.
  intros Hf Hi Hno. pose proof Hf as [Hv Hn Hin Ht]. destruct (data_indirect i Hi) as (Hup & Hlt1 & Hlt2).
  assert (valid (Data i)) as Hvi by (cbn; unfold MAX_BLOCKS; lia).
  unfold sfs_bmap_get_nolock. rewrite (bind_ok _ _ _ _ _ (get_din_ok _ _ _ Hn)), Hlt1. cbv zeta. rewrite Hlt2.
  destruct (get_sub_create s F (din sin) T (Data i) Ind _ 12 Hv Hin Ht Hvi Hup Hno) as (res & s1 & E & Hm1 & Hs1 & Hcase); [done|].
  pose proof (t_root _ _ _ Ht Ind 12 eq_refl I) as Hr. cbn in Hr. rewrite <-Hr in *.
  rewrite (bind_ok _ _ _ _ _ E).
  destruct Hcase as [(-> & Hv1 & Ht1 & Hsz)|(e & b & F' & -> & Hv1 & Hmv & Hz & He0 & He & Ht1)].
  { exists (- E_NO_MEM, 0), s1. split; [done|]. exists F, sin, T. split_and!; [by apply full_grown|done|done|by left]. }
  cbn [negb Z.eqb].
  destruct (link_root_ok s F n sin T s1 F' _ 12 e (indirect (din sin)) (λ d, d <| indirect := e |>) Hf Hm1 Hs1 Hv1 Hmv He0 He eq_refl Ht1)
    as (s2 & sin' & E2 & Hg & Hbl & Hblk).
  unfold link_root in E2. rewrite (bind_ok _ _ _ _ _ E2). exists (0, b), s2. split.
  - pose proof (gr_file _ _ _ _ _ _ _ _ _ Hg) as Hf2.
    apply (finish_got s2 F' (<[Data i := b]> (<[Ind := e]> T)) i); [apply Hf2|apply Hf2|by rewrite lookup_insert_eq].
  - exists F', sin', (<[Data i := b]> (<[Ind := e]> T)). split_and!; [done|done| |right; exists b].
    + intros k Hk. by rewrite !lookup_insert_ne by congruence.
    + split_and!; [done|by rewrite lookup_insert_eq|by rewrite Hblk].
Qed.

(** The block of pointers [k] below the doubly indirect block: it is there, or
    it is made, or there is no space. *)
Lemma get_sub_k s F n sin T k :
  file_at s F n sin T → valid (Sub k) →
  ∃ ret ent e s1, sfs_bmap_get_sub_nolock (db_indirect (din sin)) k true s = Ok ((ret, ent, e), s1) ∧
    ((ret = - E_NO_MEM ∧ grown n s F sin T s1 F sin T ∧ (size F ≤ 1)%nat ∧ T !! Sub k = None) ∨
     ∃ s2 F2 sin2 T2, ret = 0 ∧
       link_root n (db_indirect (din sin)) ent (λ d, d <| db_indirect := ent |>) s1 = Ok (tt, s2) ∧
       grown n s F sin T s2 F2 sin2 T2 ∧ din_blocks (din sin2) = din_blocks (din sin) ∧
       (∀ i, T2 !! Data i = T !! Data i) ∧ T2 !! Sub k = Some e).
Proof.
  intros Hf Hk. pose proof Hf as [Hv Hn Hin Ht]. pose proof (t_root _ _ _ Ht Dbl 13 eq_refl I) as Hr. cbn in Hr.
  rewrite Hr. destruct (T !! Sub k) as [e|] eqn:Ek.
  - destruct (get_sub_found s F (din sin) T (Sub k) Dbl k true Hv Hin Ht Hk eq_refl) as (s1 & E & Hv1 & Hs1 & He1); [by left|].
    rewrite Ek in E. cbn [default from_option id] in E. eexists _, _, e, s1. split; [exact E|]. right. exists s1, F, sin, T.
    split_and!; try done; [unfold link_root; by rewrite Z.eqb_refl|].
    apply full_grown; [done|by apply io_mem_same| |done|].
    + by apply (same_except_weaken (λ _, False)).
    + apply (tree_ext (blk s)); [done|]. intros x Hx. destruct (Hin x (meta_in _ _ Hx)). apply He1; [lia|tauto].
  - destruct (get_sub_create s F (din sin) T (Sub k) Dbl k 13 Hv Hin Ht Hk eq_refl Ek) as
      ([[ret ent] e] & s1 & E & Hm1 & Hs1 & Hcase); [done|].
    exists ret, ent, e, s1. split; [done|].
    destruct Hcase as [(Hres & Hv1 & Ht1 & Hsz)|(e1 & b & F' & Hres & Hv1 & Hmv & Hz & He0 & He & Ht1)]; simplify_eq.
    + left. split_and!; try done. by apply full_grown.
    + right. destruct (link_root_ok s F n sin T s1 F' _ 13 e1 (default 0 (T !! Dbl)) (λ d, d <| db_indirect := e1 |>)
        Hf Hm1 Hs1 Hv1 Hmv He0 He eq_refl Ht1) as (s2 & sin' & E2 & Hg & Hbl & Hblk).
      eexists s2, F', sin', _. split_and!; [done|exact E2|exact Hg|done| |by rewrite lookup_insert_eq].
      intros i. by rewrite !lookup_insert_ne by done.
Qed.

Lemma get_double s F n sin T i :
  file_at s F n sin T → 1036 ≤ i < MAX_BLOCKS → T !! Data i = None →
  ∃ res s', sfs_bmap_get_nolock n i true s = Ok (res, s') ∧ got n s F sin T i res s'.
Proof.
  intros Hf Hi Hno. pose proof Hf as [Hv Hn Hin Ht]. destruct (data_double i Hi) as (Hup & Hk & Hlt1 & Hlt2).
  assert (valid (Data i)) as Hvi by (cbn; lia).
  unfold sfs_bmap_get_nolock. rewrite (bind_ok _ _ _ _ _ (get_din_ok _ _ _ Hn)), Hlt1. cbv zeta. rewrite Hlt2.
  set (k := _ / SFS_BLK_NENTRY) in *. set (j := _ mod SFS_BLK_NENTRY) in *.
  destruct (get_sub_k s F n sin T k Hf Hk) as (ret & ent & e & s1 & E & Hcase). rewrite (bind_ok _ _ _ _ _ E).
  destruct Hcase as [(-> & Hg & Hsz & _)|(s2 & F2 & sin2 & T2 & -> & E2 & Hg & Hbl & Hdata & Hek)].
  { exists (- E_NO_MEM, 0), s1. split; [done|]. by exists F, sin, T; split_and!; try done; left. }
  cbn [negb Z.eqb]. unfold link_root in E2. rewrite (bind_ok _ _ _ _ _ E2). clear E2 E.
  pose proof (gr_file _ _ _ _ _ _ _ _ _ Hg) as Hf2. pose proof Hf2 as [Hv2 Hn2 Hin2 Ht2].
  destruct (Hin2 e) as [He Hef]; [by exists (Sub k)|]. rewrite (proj2 (Z.eqb_neq e 0)) by lia. cbn [negb].
  destruct (get_sub_create s2 F2 (din sin2) T2 (Data i) (Sub k) j 0 Hv2 Hin2 Ht2 Hvi Hup) as
    (res & s3 & E3 & Hm3 & Hs3 & Hcase); [by rewrite Hdata|congruence|]. rewrite Hek in *. cbn [default from_option id] in *.
  rewrite (bind_ok _ _ _ _ _ E3).
  destruct Hcase as [(-> & Hv3 & Ht3 & Hsz)|(e1 & b & F' & -> & Hv3 & Hmv & Hz & He0 & He1 & Ht3)].
  { exists (- E_NO_MEM, 0), s3. split; [done|]. exists F2, sin2, T2.
    split_and!; [|done|done|left; by rewrite Hdata]. eapply grown_trans; [done|]. by apply full_grown. }
  rewrite He0 in * by lia. rewrite decide_True in Ht3 by done. rewrite (insert_id T2 (Sub k)) in * by done.
  assert (grown n s2 F2 sin2 T2 s3 F' sin2 (<[Data i := b]> T2)) as Hg3 by by apply moved_grown.
  cbn [negb Z.eqb]. exists (0, b), s3. pose proof (gr_file _ _ _ _ _ _ _ _ _ Hg3) as Hf3. split.
  - apply (finish_got s3 F' (<[Data i := b]> T2) i); [apply Hf3|apply Hf3|by rewrite lookup_insert_eq].
  - exists F', sin2, (<[Data i := b]> T2). split_and!; [by eapply grown_trans|done| |right; exists b].
    + intros i' Hi'. rewrite lookup_insert_ne by congruence. apply Hdata.
    + by rewrite lookup_insert_eq.
Qed.

Lemma bmap_get_create s F n sin T i :
  file_at s F n sin T → 0 ≤ i < MAX_BLOCKS → T !! Data i = None →
  ∃ res s', sfs_bmap_get_nolock n i true s = Ok (res, s') ∧ got n s F sin T i res s'.
Proof.
  intros Hf Hi Hno. destruct (decide (i < 12)); [apply get_direct; [done|lia|done]|].
  destruct (decide (i < 1036)); [apply get_indirect|apply get_double]; try done; lia.
Qed.

(** ** [sfs_bmap_load_nolock] *)

Lemma data_bound B d T nb i : tree_ok B d T → data_ok T nb → 0 ≤ i < nb → 0 ≤ i < MAX_BLOCKS.
Proof. intros Ht Hd Hi. apply Hd in Hi as [b E]. by apply (t_up _ _ _ Ht) in E as [Hv _]. Qed.

Lemma file_io s F n sin T s' :
  file_at s F n sin T → vol_ok s' F → io_same s s' → same_except (λ _, False) s s' → file_at s' F n sin T.
Proof.
  intros [Hv Hn Hin Ht] Hv' Hs He. pose proof (io_mem_same _ _ Hs) as Hm. constructor; [done|by rewrite (m_inodes _ _ Hm)| |].
  - by apply (tree_in_same s).
  - apply (tree_ext (blk s)); [done|]. intros x Hx. destruct (Hin x (meta_in _ _ Hx)). apply He; [lia|tauto].
Qed.

(** A block below the end of the file. *)
Lemma bmap_load_old s F n sin T i :
  file_at s F n sin T → data_ok T (din_blocks (din sin)) → 0 ≤ i < din_blocks (din sin) →
  ∃ b s', sfs_bmap_load_nolock n i s = Ok ((0, b), s') ∧ T !! Data i = Some b ∧
    file_at s' F n sin T ∧ io_same s s' ∧ same_except (λ _, False) s s'.
Proof.
  intros Hf Hd Hi. pose proof Hf as [Hv Hn Hin Ht]. pose proof (data_bound _ _ _ _ _ Ht Hd Hi) as Hib.
  destruct (proj2 (Hd i) Hi) as [b Eb]. destruct (bmap_get_found s F n sin T i false Hf Hib ltac:(by right)) as (s' & E & Hv' & Hs & He).
  rewrite Eb in E. cbn [default from_option id] in E. pose proof (file_io _ _ _ _ _ _ Hf Hv' Hs He) as Hf'.
  exists b, s'. split; [|done]. unfold sfs_bmap_load_nolock. rewrite (bind_ok _ _ _ _ _ (get_din_ok _ _ _ Hn)).
  rewrite (proj2 (Z.leb_le i _)) by lia. rewrite (bind_ok _ _ _ _ _ eq_refl). cbv zeta.
  rewrite (proj2 (Z.eqb_neq i _)) by lia. rewrite (bind_ok _ _ _ _ _ E). cbn [negb Z.eqb].
  destruct (fa_in _ _ _ _ _ Hf' b) as [Hb Hbf]; [by exists (Data i)|].
  rewrite (bind_ok _ _ _ _ _ (assert_inuse_ok s' F b Hv' Hb Hbf)). done.
Qed.

(** What loading the block after the last one comes to. *)
Definition extended n s F sin T (res : Z * Z) s' : Prop :=
  let nb := din_blocks (din sin) in
  ∃ F' sin' T', grown n s F sin T s' F' sin' T' ∧ (∀ k, k ≠ nb → T' !! Data k = T !! Data k) ∧
    ((res = (- E_NO_MEM, 0) ∧ din_blocks (din sin') = nb ∧ data_ok T' nb ∧ (size F' ≤ 1)%nat) ∨
     ∃ b, res = (0, b) ∧ T' !! Data nb = Some b ∧ blk s' b = zeros ∧ din_blocks (din sin') = nb + 1 ∧ data_ok T' (nb + 1)).

Lemma bmap_load_new s F n sin T :
  file_at s F n sin T → data_ok T (din_blocks (din sin)) → 0 ≤ din_blocks (din sin) < MAX_BLOCKS →
  ∃ res s', sfs_bmap_load_nolock n (din_blocks (din sin)) s = Ok (res, s') ∧ extended n s F sin T res s'.
Proof.
  intros Hf Hd Hnb. set (nb := din_blocks (din sin)) in *.
  assert (T !! Data nb = None) as Hno.
  { apply eq_None_not_Some. intros Hs. apply Hd in Hs. lia. }
  destruct (bmap_get_create s F n sin T nb Hf Hnb Hno) as (res & s1 & E & F' & sin1 & T1 & Hg & Hbl & Hdata & Hcase).
  unfold sfs_bmap_load_nolock. rewrite (bind_ok _ _ _ _ _ (get_din_ok _ _ _ (fa_node _ _ _ _ _ Hf))). fold nb.
  rewrite Z.leb_refl, (bind_ok _ _ _ _ _ eq_refl). cbv zeta. rewrite Z.eqb_refl, (bind_ok _ _ _ _ _ E).
  destruct Hcase as [(-> & Hno1 & Hsz)|(b & -> & Eb & Hz)].
  { exists (- E_NO_MEM, 0), s1. split; [done|]. exists F', sin1, T1. split_and!; [done|done|left; split_and!; [done|done| |done]].
    intros k. destruct (decide (k = nb)) as [->|Hk]; [rewrite Hno1; split; [by intros []|lia]|]. by rewrite Hdata. }
  cbn [negb Z.eqb]. pose proof (gr_file _ _ _ _ _ _ _ _ _ Hg) as Hf1. pose proof Hf1 as [Hv1 Hn1 Hin1 Ht1].
  destruct (Hin1 b) as [Hb Hbf]; [by exists (Data nb)|].
  rewrite (bind_ok _ _ _ _ _ (assert_inuse_ok s1 F' b Hv1 Hb Hbf)). cbn [when].
  rewrite (bind_ok _ _ _ _ _ (on_din_ok _ _ _ _ Hn1)). rewrite Hbl. unfold MAX_BLOCKS in Hnb. rewrite u32_id by lia.
  set (sin' := sin1 <| din := din sin1 <| din_blocks := nb + 1 |> |>).
  eexists _, (set_sin s1 n sin'). split; [done|]. exists F', sin', T1.
  split_and!; [|done|right; exists b; split_and!; [done|done|done|done|]].
  - eapply grown_trans; [done|]. constructor; [|apply node_same_set|by constructor|done| |done].
    + apply (file_set_sin s1 F' n sin1); [done|]. by apply (tree_din_ext _ (din sin1)).
    + apply moved_refl. intros x Hx. by apply Hin1.
  - intros k. destruct (decide (k = nb)) as [->|Hk].
    + rewrite Eb. split; [lia|done].
    + pose proof (Hd k) as Hk'. rewrite Hdata, Hk' by done. lia.
Qed.

(** ** Giving blocks back *)

Lemma data_leaf B d T i r j : tree_ok B d T → up r = (Some (Data i), j) → T !! r = None.
Proof.
  intros Ht Hup. destruct (T !! r) as [b|] eqn:E; [|done]. destruct (t_up _ _ _ Ht _ _ E) as [Hv _].
  by destruct (up_parent _ _ _ Hup Hv) as (_ & Hp & _); destruct (Hp i).
Qed.

Lemma tree_in_delete s s' B d F T r b :
  tree_ok B d T → T !! r = Some b → mem_same s s' → tree_in s F T → tree_in s' ({[b]} ∪ F) (delete r T).
Proof.
  intros Ht Er Hm Hin x Hx. rewrite (m_blocks _ _ Hm).
  rewrite (in_tree_delete _ _ b) in Hx by (done || apply (t_inj _ _ _ Ht)). destruct Hx as [Hne Hx].
  destruct (Hin x Hx). set_solver.
Qed.

(** An entry of a block of pointers that nothing hangs below. *)
Lemma free_sub_some s F d T r p j e b :
  vol_ok s F → tree_in s F T → tree_ok (blk s) d T → valid r → up r = (Some p, j) → T !! p = Some e → T !! r = Some b →
  (∀ r' j', up r' = (Some r, j') → T !! r' = None) →
  ∃ s', sfs_bmap_free_sub_nolock e j s = Ok (0, s') ∧ vol_ok s' ({[b]} ∪ F) ∧ mem_same s s' ∧
    same_except (λ x, x = e) s s' ∧ tree_ok (blk s') d (delete r T) ∧ tree_in s' ({[b]} ∪ F) (delete r T).
Proof.
  intros Hv Hin Ht Hr Hup Ep Er Hleaf. destruct (up_range _ _ _ Hup Hr) as [Hj _].
  destruct (Hin e) as [He Hef]; [by exists p|]. destruct (Hin b) as [Hb Hbf]; [by exists r|].
  unfold sfs_bmap_free_sub_nolock. rewrite (bind_ok _ _ _ _ _ (assert_inuse_ok s F e Hv He Hef)).
  rewrite (index_ok j Hj), (bind_ok _ _ _ _ _ eq_refl).
  destruct (read_entry s F e j) as (s1 & bs & E1 & Hw & Hv1 & Hs1 & He1); [done..|]. rewrite (bind_ok _ _ _ _ _ E1).
  cbn [negb Z.eqb]. cbv zeta. rewrite Hw, (t_node _ _ _ Ht r p j e), Er by done. cbn [default from_option id].
  rewrite (proj2 (Z.eqb_neq b 0)) by lia. cbn [negb]. pose proof (io_mem_same _ _ Hs1) as Hm1.
  destruct (write_entry s1 F e j 0) as (s2 & E2 & Hv2 & Hs2 & He2 & Hw2); [done|by rewrite (m_blocks _ _ Hm1)|done|].
  rewrite (bind_ok _ _ _ _ _ E2). cbn [negb Z.eqb]. pose proof (io_mem_same _ _ Hs2) as Hm2.
  assert (mem_same s s2) as Hm12 by by etrans.
  destruct (block_free_ok s2 F b) as (s3 & E3 & Hv3 & Hm3 & He3); [done|done|by rewrite (m_blocks _ _ Hm12)|].
  rewrite (bind_ok _ _ _ _ _ E3). assert (mem_same s s3) as Hm13 by by etrans.
  assert (∀ x, 0 ≤ x < blocks (super s) → x ≠ e → blk s3 x = blk s x) as Hframe.
  { intros x Hx Hxe. rewrite He3, He2, He1; [done|done|tauto|by rewrite (m_blocks _ _ Hm1)|done|by rewrite (m_blocks _ _ Hm12)|tauto]. }
  exists s3. split_and!; [done|done|done|by intros x Hx Hne; apply Hframe| |].
  - apply (tree_delete_node (blk s) _ d T r p j e b); try done.
    + apply (blk_len s F); [done|lia].
    + rewrite He3, Hw2, He1; [done|lia|tauto|rewrite (m_blocks _ _ Hm12); lia|tauto].
    + intros x Hx Hxe. destruct (Hin x (meta_in _ _ Hx)). apply Hframe; [lia|done].
  - by apply (tree_in_delete s _ (blk s) d).
Qed.

Lemma free_sub_none s F d T r p j e :
  vol_ok s F → tree_in s F T → tree_ok (blk s) d T → valid r → up r = (Some p, j) → T !! p = Some e → T !! r = None →
  ∃ s', sfs_bmap_free_sub_nolock e j s = Ok (0, s') ∧ vol_ok s' F ∧ io_same s s' ∧ same_except (λ _, False) s s'.
Proof.
  intros Hv Hin Ht Hr Hup Ep Er. destruct (up_range _ _ _ Hup Hr) as [Hj _]. destruct (Hin e) as [He Hef]; [by exists p|].
  unfold sfs_bmap_free_sub_nolock. rewrite (bind_ok _ _ _ _ _ (assert_inuse_ok s F e Hv He Hef)).
  rewrite (index_ok j Hj), (bind_ok _ _ _ _ _ eq_refl).
  destruct (read_entry s F e j) as (s1 & bs & E1 & Hw & H1); [done..|]. rewrite (bind_ok _ _ _ _ _ E1).
  cbn [negb Z.eqb]. cbv zeta. rewrite Hw, (t_node _ _ _ Ht r p j e), Er by done. by exists s1.
Qed.

(** The file after block [i] is given back. *)
Record shrunk n s F (sin : sfs_inode) T (i b : Z) s' (sin' : sfs_inode) : Prop := {
  sh_file : file_at s' ({[b]} ∪ F) n sin' (delete (Data i) T);
  sh_node : node_same n s s';
  sh_sin : sin_same sin sin';
  sh_size : din_size (din sin') = din_size (din sin);
  sh_same : same_except (meta T) s s';
}.

Lemma free_sub_data s F n sin T i b p j e :
  file_at s F n sin T → 0 ≤ i < MAX_BLOCKS → T !! Data i = Some b → up (Data i) = (Some p, j) → T !! p = Some e →
  ∃ s', sfs_bmap_free_sub_nolock e j s = Ok (0, s') ∧ shrunk n s F sin T i b s' sin.
Proof.
  intros [Hv Hn Hin Ht] Hi Eb Hup Ep.
  destruct (free_sub_some s F (din sin) T (Data i) p j e b) as (s' & E & Hv' & Hm & He & Ht' & Hin');
    [done..|by intros ??; apply (data_leaf _ _ _ _ _ _ Ht)|].
  exists s'. split; [done|]. constructor; [|by apply mem_node_same|done|done|].
  - constructor; [done|by rewrite (m_inodes _ _ Hm)|done|done].
  - eapply same_except_weaken; [|done]. intros x ->. exists p. split; [done|]. by apply (up_parent _ _ _ Hup).
Qed.

Lemma shrunk_after_io n s0 s F sin T i b s' sin' :
  io_same s0 s → same_except (λ _, False) s0 s → shrunk n s F sin T i b s' sin' → shrunk n s0 F sin T i b s' sin'.
Proof.
  intros Hs He []. pose proof (io_mem_same _ _ Hs) as Hm. constructor; try done.
  - etrans; [by apply mem_node_same|done].
  - apply (same_except_trans _ _ s); [done| |done]. by apply (same_except_weaken (λ _, False)).
Qed.

Lemma free_direct s F n sin T i b :
  file_at s F n sin T → 0 ≤ i < 12 → T !! Data i = Some b →
  ∃ s' sin', sfs_bmap_free_nolock n i s = Ok (0, s') ∧ shrunk n s F sin T i b s' sin' ∧ din_blocks (din sin') = din_blocks (din sin).
Proof.
  intros Hf Hi Eb. pose proof Hf as [Hv Hn Hin Ht]. destruct (Hin b) as [Hb Hbf]; [by exists (Data i)|].
  unfold sfs_bmap_free_nolock. rewrite (bind_ok _ _ _ _ _ (get_din_ok _ _ _ Hn)).
  destruct (data_direct i Hi) as [Hup ->]. assert (valid (Data i)) as Hvi by (cbn; unfold MAX_BLOCKS; lia).
  pose proof (t_root _ _ _ Ht _ _ Hup Hvi) as Hr. unfold root_ptr in Hr. rewrite (proj2 (Z.ltb_lt i 12)) in Hr by lia.
  destruct (lookup_lt_is_Some_2 (direct (din sin)) (Z.to_nat i)) as [x Ex]; [rewrite (t_direct _ _ _ Ht); lia|].
  rewrite (bind_ok _ _ s x s) by (unfold deref; by rewrite Ex). rewrite Ex, Eb in Hr. cbn in Hr. subst x.
  rewrite (proj2 (Z.eqb_neq b 0)) by lia. cbn [negb].
  destruct (block_free_ok s F b Hv Hbf Hb) as (s1 & E1 & Hv1 & Hm1 & He1). rewrite (bind_ok _ _ _ _ _ E1).
  assert (inodes s1 !! n = Some sin) as Hn1 by by rewrite (m_inodes _ _ Hm1).
  set (f := λ d : sfs_disk_inode, d <| direct := <[Z.to_nat i := 0]> (direct d) |>).
  rewrite bind_assoc, (bind_ok _ _ _ _ _ (dirty_din_ok _ _ _ f Hn1)).
  set (sin' := sin <| din := f (din sin) |> <| dirty := true |>). exists (set_sin s1 n sin'), sin'. split; [done|]. split; [|done].
  constructor; [| |by constructor|done|by apply (same_except_weaken (λ _, False))].
  - constructor; [by apply vol_set|apply set_sin_at|by apply (tree_in_delete s s1 (blk s) (din sin))|].
    apply (tree_ext (blk s)).
    + replace (din sin') with (set_root i 0 (din sin)) by (unfold set_root; by rewrite (proj2 (Z.ltb_lt i 12)) by lia).
      apply (tree_delete_root _ _ _ _ _ b); try done. intros ??. apply (data_leaf _ _ _ _ _ _ Ht).
    + intros y (r & [_ Hy]%lookup_delete_Some & _). destruct (Hin y) as [? _]; [by exists r|]. apply He1; [lia|tauto].
  - etrans; [by apply mem_node_same|apply node_same_set].
Qed.

Lemma bmap_free_last s F n sin T i b :
  file_at s F n sin T → 0 ≤ i < MAX_BLOCKS → T !! Data i = Some b →
  ∃ s' sin', sfs_bmap_free_nolock n i s = Ok (0, s') ∧ shrunk n s F sin T i b s' sin' ∧ din_blocks (din sin') = din_blocks (din sin).
Proof.
  intros Hf Hi Eb. pose proof Hf as [Hv Hn Hin Ht].
  destruct (decide (i < 12)) as [Hd|Hd]; [apply free_direct; [done|lia|done]|].
  unfold sfs_bmap_free_nolock. rewrite (bind_ok _ _ _ _ _ (get_din_ok _ _ _ Hn)).
  destruct (decide (i < 1036)) as [Hd'|Hd'].
  - destruct (data_indirect i ltac:(lia)) as (Hup & -> & Hlt). cbv zeta. rewrite Hlt.
    destruct (parent_some _ _ _ _ _ _ Ht Hup) as [e Ee]; [by rewrite Eb|]. destruct (Hin e) as [He _]; [by exists Ind|].
    pose proof (t_root _ _ _ Ht Ind 12 eq_refl I) as Hr. cbn in Hr. rewrite Hr, Ee. cbn [default from_option id].
    rewrite (proj2 (Z.eqb_neq e 0)) by lia. cbn [negb].
    destruct (free_sub_data s F n sin T i b Ind _ e Hf Hi Eb Hup Ee) as (s' & E & Hsh). by exists s', sin.
  - destruct (data_double i ltac:(lia)) as (Hup & Hk & -> & Hlt). cbv zeta. rewrite Hlt.
    set (k := _ / SFS_BLK_NENTRY) in *.
    destruct (parent_some _ _ _ _ _ _ Ht Hup) as [e Ee]; [by rewrite Eb|]. destruct (Hin e) as [He _]; [by exists (Sub k)|].
    destruct (parent_some _ _ _ (Sub k) Dbl k Ht eq_refl) as [e' Ee']; [by rewrite Ee|]. destruct (Hin e') as [He' _]; [by exists Dbl|].
    destruct (get_sub_found s F (din sin) T (Sub k) Dbl k false Hv Hin Ht Hk eq_refl) as (s1 & E1 & Hv1 & Hs1 & He1); [by right|].
    pose proof (t_root _ _ _ Ht Dbl 13 eq_refl I) as Hr. cbn in Hr. rewrite Hr. rewrite Ee', Ee in *. cbn [default from_option id] in *.
    rewrite (proj2 (Z.eqb_neq e' 0)) by lia. cbn [negb]. rewrite (bind_ok _ _ _ _ _ E1). cbn [negb Z.eqb].
    rewrite (proj2 (Z.eqb_neq e 0)) by lia. cbn [negb].
    destruct (free_sub_data s1 F n sin T i b (Sub k) _ e (file_io _ _ _ _ _ _ Hf Hv1 Hs1 He1) Hi Eb Hup Ee) as (s' & E & Hsh).
    exists s', sin. split; [done|]. split; [|done]. by apply (shrunk_after_io n s s1).
Qed.

(** ** [sfs_bmap_truncate_nolock] *)

Lemma bmap_truncate_ok s F n sin T :
  file_at s F n sin T → data_ok T (din_blocks (din sin)) → 0 < din_blocks (din sin) →
  let i := din_blocks (din sin) - 1 in
  ∃ b s' sin', sfs_bmap_truncate_nolock n s = Ok (0, s') ∧ T !! Data i = Some b ∧ shrunk n s F sin T i b s' sin' ∧
    din_blocks (din sin') = i ∧ data_ok (delete (Data i) T) i ∧ dirty sin' = true.
Proof.
  intros Hf Hd Hpos i. destruct (proj2 (Hd i) ltac:(lia)) as [b Eb].
  pose proof (data_bound _ _ _ _ i (fa_tree _ _ _ _ _ Hf) Hd ltac:(lia)) as Hi.
  destruct (bmap_free_last s F n sin T i b Hf Hi Eb) as (s1 & sin1 & E & Hsh & Hbl).
  pose proof (fa_node _ _ _ _ _ (sh_file _ _ _ _ _ _ _ _ _ Hsh)) as Hn1.
  set (f := λ d : sfs_disk_inode, d <| din_blocks := din_blocks d - 1 |>).
  set (sin' := sin1 <| din := f (din sin1) |> <| dirty := true |>).
  exists b, (set_sin s1 n sin'), sin'. split; [|split; [done|split; [|split; [|split; [|done]]]]].
  - unfold sfs_bmap_truncate_nolock. rewrite (bind_ok _ _ _ _ _ (get_din_ok _ _ _ (fa_node _ _ _ _ _ Hf))).
    rewrite (proj2 (Z.eqb_neq _ 0)) by lia. rewrite (bind_ok _ _ _ _ _ eq_refl), (bind_ok _ _ _ _ _ E). cbn [negb Z.eqb].
    by rewrite bind_assoc, (bind_ok _ _ _ _ _ (dirty_din_ok _ _ _ f Hn1)).
  - destruct Hsh. constructor; [| | |done|done].
    + apply (file_set_sin _ _ n sin1); [done|]. apply (tree_din_ext _ (din sin1)); [by apply (fa_tree _ _ _ _ _ sh_file0)|done..].
    + etrans; [done|apply node_same_set].
    + destruct sh_sin0. by constructor.
  - simpl. by rewrite Hbl.
  - intros k. destruct (decide (k = i)) as [->|Hk].
    + rewrite lookup_delete_eq. split; [by intros []|lia].
    + pose proof (Hd k) as Hk'. rewrite lookup_delete_ne, Hk' by congruence. lia.
Qed.
End map.
