(* ===== verification/SfsFile.v ===== *)
(** * The content of a file

    The blocks of a file, in order, are its content; reading copies a part of
    it, writing replaces a part of it and appends zero blocks where the file
    grows.  [sfs_io_nolock] and [sfs_truncfile] against that content. *)

From S2P Require Import Prelude Bytes Mem DList Slab Bitmap Disk Sfs SfsVol SfsTree SfsMap.

Notation BS := 4096.

(** [C] with zeros up to [k] blocks. *)
Definition ext (C : list Z) (k : Z) : list Z := C ++ replicate (Z.to_nat (k * BS - len C)) 0.

Lemma ext_len C k : len (ext C k) = Z.max (len C) (k * BS).
Proof. unfold ext. rewrite length_app, length_replicate. lia. Qed.
Lemma ext_id C k : k * BS ≤ len C → ext C k = C.
Proof. intros. unfold ext. replace (Z.to_nat _) with 0%nat by lia. apply app_nil_r. Qed.
Lemma ext_next C k : len C = k * BS → ext C (k + 1) = C ++ replicate (Z.to_nat BS) 0.
Proof. intros E. unfold ext. do 2 f_equal. lia. Qed.

Lemma splice_app (C R : list Z) p bs : in_range C p (len bs) = true → splice (C ++ R) p bs = splice C p bs ++ R.
Proof.
  rewrite in_range_spec. intros. unfold splice. rewrite take_app_le, drop_app_le by lia. by rewrite <-!app_assoc.
Qed.

Lemma splice_ext C k p bs : in_range C p (len bs) = true → ext (splice C p bs) k = splice (ext C k) p bs.
Proof. intros Hr. unfold ext. rewrite splice_app, splice_length by done. done. Qed.

Lemma ext_ext C k k' : ext (ext C k) k' = ext C (Z.max k k').
Proof.
  unfold ext. rewrite <-app_assoc, <-replicate_add, length_app, length_replicate. do 2 f_equal. lia.
Qed.

(** Two writes that follow each other are one. *)
Lemma write_write C k1 k2 p b1 b2 :
  0 ≤ p → k1 ≤ k2 → p + len b1 ≤ Z.max (len C) (k1 * BS) → p + len b1 + len b2 ≤ Z.max (len C) (k2 * BS) →
  splice (ext (splice (ext C k1) p b1) k2) (p + len b1) b2 = splice (ext C k2) p (b1 ++ b2).
Proof.
  intros Hp Hk H1 H2. rewrite splice_ext by (apply in_range_spec; rewrite ext_len; lia).
  rewrite ext_ext, Z.max_r by done. apply splice_splice. apply in_range_spec. rewrite ext_len, length_app. lia.
Qed.

Section content.
Context {D : Type} `{BlockDevice D, !BlockDeviceLaws D}.
Implicit Types (s : sfs_fs D) (b n : Z) (F : gset Z) (T : tree).

Definition data_blk T (i : Z) : Z := default 0 (T !! Data i).

(** The first [nb] blocks of the file, in order. *)
Fixpoint content_n s T (nb : nat) : list Z :=
  match nb with
  | O => []
  | S nb' => content_n s T nb' ++ blk s (data_blk T (Z.of_nat nb'))
  end.
Definition content s T (nb : Z) : list Z := content_n s T (Z.to_nat nb).

(** The [nb] blocks are there and have their full length. *)
Definition blocks_full s T (nb : Z) : Prop := ∀ i, 0 ≤ i < nb → len (blk s (data_blk T i)) = BS.

Lemma content_succ s T nb : 0 ≤ nb → content s T (nb + 1) = content s T nb ++ blk s (data_blk T nb).
Proof.
  intros. unfold content. rewrite Z2Nat.inj_add by lia. change (Z.to_nat 1) with 1%nat. rewrite Nat.add_1_r. simpl.
  by rewrite Z2Nat.id by lia.
Qed.

Lemma content_len s T nb : 0 ≤ nb → blocks_full s T nb → len (content s T nb) = nb * BS.
Proof.
  intros Hnb. revert nb Hnb. apply (natlike_ind (λ nb, blocks_full s T nb → len (content s T nb) = nb * BS)); [done|].
  intros nb Hnb IH Hf. rewrite <-Z.add_1_r in *. rewrite content_succ, length_app by done.
  rewrite Nat2Z.inj_add, IH, Hf by (lia || (intros ??; apply Hf; lia)). lia.
Qed.

Lemma content_ext s s' T T' nb :
  0 ≤ nb → (∀ i, 0 ≤ i < nb → blk s' (data_blk T' i) = blk s (data_blk T i)) → content s' T' nb = content s T nb.
Proof.
  intros Hnb. revert nb Hnb.
  apply (natlike_ind (λ nb, (∀ i, 0 ≤ i < nb → blk s' (data_blk T' i) = blk s (data_blk T i)) → content s' T' nb = content s T nb)).
  { done. }
  intros nb Hnb IH Hx. rewrite <-Z.add_1_r in *. rewrite !content_succ, IH, Hx by (lia || (intros; apply Hx; lia)). done.
Qed.

Lemma content_blk s s' T nb : (∀ x, blk s' x = blk s x) → content s' T nb = content s T nb.
Proof. intros Hx. unfold content. induction (Z.to_nat nb) as [|k IH]; [done|]. simpl. by rewrite IH, Hx. Qed.

(** A range inside block [i]. *)
Lemma content_slice s T nb i off n :
  0 ≤ i < nb → blocks_full s T nb → 0 ≤ off → 0 ≤ n → off + n ≤ BS →
  slice (content s T nb) (i * BS + off) n = slice (blk s (data_blk T i)) off n.
Proof.
  intros Hi Hf Ho Hn Hon. assert (0 ≤ nb) as Hnb by lia. revert nb Hnb Hi Hf.
  apply (natlike_ind (λ nb, 0 ≤ i < nb → blocks_full s T nb →
    slice (content s T nb) (i * BS + off) n = slice (blk s (data_blk T i)) off n)); [lia|].
  intros nb Hnb IH Hi Hf. rewrite <-Z.add_1_r in *. rewrite content_succ by done.
  assert (blocks_full s T nb) as Hf' by (intros ??; apply Hf; lia).
  pose proof (content_len s T nb Hnb Hf') as Hl. destruct (decide (i = nb)) as [->|Hne].
  - unfold slice. rewrite drop_app_ge by lia. f_equal. f_equal. lia.
  - rewrite <-IH by (done || lia). unfold slice. rewrite drop_app_le by lia. apply take_app_le.
    rewrite length_drop. lia.
Qed.

(** Writing a range inside block [i]. *)
Lemma content_splice s s' T nb i off bs :
  0 ≤ i < nb → blocks_full s T nb → 0 ≤ off → off + len bs ≤ BS →
  blk s' (data_blk T i) = splice (blk s (data_blk T i)) off bs →
  (∀ k, 0 ≤ k < nb → k ≠ i → blk s' (data_blk T k) = blk s (data_blk T k)) →
  content s' T nb = splice (content s T nb) (i * BS + off) bs.
Proof.
  intros Hi Hf Ho Hon Hb. assert (0 ≤ nb) as Hnb by lia. revert nb Hnb Hi Hf.
  apply (natlike_ind (λ nb, 0 ≤ i < nb → blocks_full s T nb →
    (∀ k, 0 ≤ k < nb → k ≠ i → blk s' (data_blk T k) = blk s (data_blk T k)) →
    content s' T nb = splice (content s T nb) (i * BS + off) bs)); [lia|].
  intros nb Hnb IH Hi Hf Hx. rewrite <-Z.add_1_r in *. rewrite !content_succ by done.
  assert (blocks_full s T nb) as Hf' by (intros ??; apply Hf; lia).
  pose proof (content_len s T nb Hnb Hf') as Hl. destruct (decide (i = nb)) as [->|Hne].
  - rewrite Hb. rewrite (content_ext s s' T T nb) by (done || (intros; apply Hx; lia)).
    pose proof (Hf nb ltac:(lia)) as Hlb. unfold splice.
    rewrite take_app_ge, drop_app_ge by lia. rewrite <-!app_assoc. do 2 f_equal; [f_equal; lia|f_equal; f_equal; lia].
  - rewrite splice_app by (apply in_range_spec; lia).
    rewrite IH by (done || lia || (intros; apply Hx; lia)). by rewrite Hx by lia.
Qed.

(** ** A file and its content *)

Record file_ok s F n (sin : sfs_inode) T : Prop := {
  fo_at : file_at s F n sin T;
  fo_data : data_ok T (din_blocks (din sin));
  fo_blocks : 0 ≤ din_blocks (din sin) ≤ MAX_BLOCKS;
}.

Definition file_content s (sin : sfs_inode) T : list Z := content s T (din_blocks (din sin)).

Lemma file_full s F n sin T : file_at s F n sin T → data_ok T (din_blocks (din sin)) → blocks_full s T (din_blocks (din sin)).
Proof.
  intros [Hv Hn Hin Ht] Hd i Hi. destruct (proj2 (Hd i) Hi) as [b Eb]. unfold data_blk. rewrite Eb. cbn.
  destruct (Hin b) as [? _]; [by exists (Data i)|]. rewrite (blk_len s F) by (done || lia). done.
Qed.

Lemma file_len s F n sin T : file_ok s F n sin T → len (file_content s sin T) = din_blocks (din sin) * BS.
Proof. intros [Ha Hd Hb]. apply content_len; [lia|by apply (file_full s F n)]. Qed.

(** A block of data is not touched while the map grows. *)
Lemma data_untouched s F n sin T i b : file_at s F n sin T → T !! Data i = Some b → ¬ touched F T b.
Proof.
  intros [Hv Hn Hin Ht] Eb [Hf|(r & Er & Hr)].
  - destruct (Hin b) as [_ Hnf]; [by exists (Data i)|done].
  - apply (Hr i). by apply (t_inj _ _ _ Ht _ _ b).
Qed.

Lemma grown_data n s F sin T s' F' sin' T' i b :
  file_at s F n sin T → grown n s F sin T s' F' sin' T' → T !! Data i = Some b → T' !! Data i = Some b ∧ blk s' b = blk s b.
Proof.
  intros Hf Hg Eb. split; [by apply (lookup_weaken T), (mv_tree _ _ _ _ (gr_moved _ _ _ _ _ _ _ _ _ Hg))|].
  apply (gr_same _ _ _ _ _ _ _ _ _ Hg); [|by eapply data_untouched].
  destruct (fa_in _ _ _ _ _ Hf b) as [? _]; [by exists (Data i)|lia].
Qed.

(** The file from one state to another; only its blocks and free ones change. *)
Record progress n s F (sin : sfs_inode) T s' F' (sin' : sfs_inode) T' : Prop := {
  pg_file : file_ok s' F' n sin' T';
  pg_node : node_same n s s';
  pg_sin : sin_same sin sin';
  pg_size : din_size (din sin') = din_size (din sin);
  pg_moved : moved F T F' T';
  pg_same : same_except (λ x, x ∈ F ∨ in_tree T x) s s';
}.

Lemma progress_refl n s F sin T : file_ok s F n sin T → progress n s F sin T s F sin T.
Proof.
  intros Hf. constructor; [done..| |apply same_except_refl]. apply moved_refl. intros x Hx.
  by apply (fa_in _ _ _ _ _ (fo_at _ _ _ _ _ Hf)).
Qed.

Lemma progress_trans n s1 F1 sin1 T1 s2 F2 sin2 T2 s3 F3 sin3 T3 :
  progress n s1 F1 sin1 T1 s2 F2 sin2 T2 → progress n s2 F2 sin2 T2 s3 F3 sin3 T3 → progress n s1 F1 sin1 T1 s3 F3 sin3 T3.
Proof.
  intros [] []. constructor; [done|by etrans|by etrans|congruence|by eapply moved_trans|].
  intros x Hx Hnt. rewrite pg_same1, pg_same0; [done|done|done|by rewrite (node_blocks _ _ _ pg_node0)|].
  intros Hx'. apply Hnt. by apply (mv_all _ _ _ _ pg_moved0).
Qed.

Lemma grown_progress n s F sin T s' F' sin' T' :
  grown n s F sin T s' F' sin' T' → file_ok s' F' n sin' T' → progress n s F sin T s' F' sin' T'.
Proof.
  intros [] Hf. constructor; try done. eapply same_except_weaken; [|done].
  intros x [?|?]; [by left|right; by apply meta_in].
Qed.

Lemma io_progress n s F sin T s' :
  file_ok s F n sin T → vol_ok s' F → io_same s s' → same_except (λ _, False) s s' → progress n s F sin T s' F sin T.
Proof.
  intros [Ha Hd Hb] Hv Hs He. constructor.
  - constructor; [by apply (file_io s)|done|done].
  - by apply mem_node_same, io_mem_same.
  - done.
  - done.
  - apply moved_refl. intros x Hx. by apply (fa_in _ _ _ _ _ Ha).
  - by apply (same_except_weaken (λ _, False)).
Qed.
End content.
