(* ===== verification/SfsIo.v ===== *)
(** * Reading, writing and truncating files

    [sfs_io_nolock] and [sfs_truncfile] against the content of [SfsFile]. *)

From S2P Require Import Prelude Bytes Mem DList Slab Bitmap Disk Sfs SfsVol SfsTree SfsMap SfsFile.

Section io.
Context {D : Type} `{BlockDevice D, !BlockDeviceLaws D}.
Implicit Types (s : sfs_fs D) (b n : Z) (F : gset Z) (T : tree).

(** ** One block of the file *)

(** [op] stores [bs] at [off] in the block that it is given. *)
Definition writes_at (op : Z → M (sfs_fs D) (Z * list Z)) (buf : list Z) (off : Z) (bs : list Z) : Prop :=
  ∀ s F b, vol_ok s F → 0 < b < blocks (super s) → b ∉ F →
    ∃ s', op b s = Ok ((0, buf), s') ∧ vol_ok s' F ∧ io_same s s' ∧ same_except (λ x, x = b) s s' ∧
      blk s' b = splice (blk s b) off bs.

(** [op] reads [n] bytes at [off] of the block into the buffer at [pos]. *)
Definition reads_at (op : Z → M (sfs_fs D) (Z * list Z)) (buf : list Z) (pos off n : Z) : Prop :=
  ∀ s F b, vol_ok s F → 0 < b < blocks (super s) → b ∉ F →
    ∃ s', op b s = Ok ((0, splice buf pos (slice (blk s b) off n)), s') ∧ vol_ok s' F ∧ io_same s s' ∧
      same_except (λ _, False) s s'.

Lemma buf_op_writes buf pos off n :
  in_range buf pos n = true → 0 ≤ off < BS → off + n ≤ BS →
  writes_at (λ b, sfs_buf_op true buf pos n b off) buf off (slice buf pos n).
Proof.
  intros Hr Ho Hn s F b Hv Hb _. assert (len (slice buf pos n) = n) as Hl by by apply slice_len.
  destruct (wbuf_ok s F b off (slice buf pos n)) as (s' & E & H'); [done|done|done|by rewrite Hl|].
  exists s'. split; [|done]. unfold sfs_buf_op. rewrite (bind_ok _ _ _ _ _ (load_range_ok _ _ _ _ Hr)).
  by rewrite (bind_ok _ _ _ _ _ E).
Qed.

Lemma buf_op_reads buf pos off n :
  in_range buf pos n = true → 0 ≤ off < BS → off + n ≤ BS →
  reads_at (λ b, sfs_buf_op false buf pos n b off) buf pos off n.
Proof.
  intros Hr Ho Hn s F b Hv Hb _. pose proof Hr as Hr'. apply in_range_spec in Hr'.
  destruct (rbuf_ok s F b off n) as (s' & E & H'); [done|done|done|lia|done|].
  exists s'. split; [|done]. unfold sfs_buf_op. rewrite (bind_ok _ _ _ _ _ E). cbn [fst snd Z.eqb].
  rewrite (bind_ok _ _ s' (splice buf pos (slice (blk s b) off n)) s'); [done|].
  apply store_range_ok. rewrite slice_len; [done|]. apply in_range_spec. rewrite (blk_len s F) by (done || lia).
  unfold SFS_BLKSIZE, PGSIZE. lia.
Qed.

Lemma splice_whole bs bs' : len bs = len bs' → splice bs 0 bs' = bs'.
Proof. intros. unfold splice. rewrite drop_ge by lia. simpl. apply app_nil_r. Qed.

Lemma block_op_writes buf pos :
  in_range buf pos BS = true → writes_at (sfs_block_op true buf pos) buf 0 (slice buf pos BS).
Proof.
  intros Hr s F b Hv Hb _. destruct (rwblock_write_one s F buf pos b Hv Hb Hr) as (s' & E & Hv' & Hs & He & Hw).
  exists s'. split_and!; [done..|]. rewrite Hw. symmetry. apply splice_whole.
  rewrite slice_len by done. apply (blk_len s F); [done|lia].
Qed.

Lemma block_op_reads buf pos :
  in_range buf pos BS = true → reads_at (sfs_block_op false buf pos) buf pos 0 BS.
Proof.
  intros Hr s F b Hv Hb _. destruct (rwblock_read_one s F buf pos b Hv Hb Hr) as (s' & E & H').
  exists s'. split; [|done]. unfold sfs_block_op. rewrite E. do 4 f_equal. symmetry.
  rewrite <-(slice_all (blk s b)) at 2. f_equal. symmetry. apply (blk_len s F); [done|lia].
Qed.

(** Reading block [i] of the file. *)
Lemma part_read s F n sin T i buf pos off m op :
  file_ok s F n sin T → 0 ≤ i < din_blocks (din sin) → reads_at op buf pos off m →
  0 ≤ off → 0 ≤ m → off + m ≤ BS →
  ∃ s', io_part n i buf op s = Ok ((0, splice buf pos (slice (file_content s sin T) (i * BS + off) m)), s') ∧
    file_ok s' F n sin T ∧ io_same s s' ∧ same_except (λ _, False) s s' ∧
    file_content s' sin T = file_content s sin T.
Proof.
  intros [Ha Hd Hb] Hi Hop Ho Hm Hom.
  destruct (bmap_load_old s F n sin T i Ha Hd Hi) as (b & s1 & E1 & Eb & Ha1 & Hs1 & He1).
  pose proof Ha1 as [Hv1 _ Hin1 _]. destruct (Hin1 b) as [Hbr Hbf]; [by exists (Data i)|].
  destruct (Hop s1 F b Hv1 Hbr Hbf) as (s2 & E2 & Hv2 & Hs2 & He2).
  assert (∀ x, 0 ≤ x < blocks (super s) → blk s1 x = blk s x) as Hb1 by (intros x Hx; apply He1; [done|tauto]).
  assert (∀ x, 0 ≤ x < blocks (super s) → blk s2 x = blk s x) as Hb2.
  { intros x Hx. rewrite He2, Hb1; [done|done|by rewrite (m_blocks _ _ (io_mem_same _ _ Hs1))|tauto]. }
  assert (slice (file_content s sin T) (i * BS + off) m = slice (blk s1 b) off m) as Hsl.
  { unfold file_content. rewrite content_slice by (done || by apply (file_full s F n)). unfold data_blk. rewrite Eb. cbn.
    rewrite Hb1; [done|]. rewrite (m_blocks _ _ (io_mem_same _ _ Hs1)) in Hbr. lia. }
  exists s2. split_and!.
  - unfold io_part. rewrite (bind_ok _ _ _ _ _ E1). cbn [fst snd negb Z.eqb]. by rewrite E2, Hsl.
  - constructor; [by apply (file_io s1)|done|done].
  - by etrans.
  - by intros x Hx _; apply Hb2.
  - apply content_ext; [lia|]. intros k Hk. apply Hb2. unfold data_blk. destruct (proj2 (Hd k) Hk) as [c Ec]. rewrite Ec. cbn.
    destruct (fa_in _ _ _ _ _ Ha c) as [? _]; [by exists (Data k)|lia].
Qed.

(** Writing to the block [b] of the file. *)
Lemma op_write s F n sin T i b buf off bs op :
  file_ok s F n sin T → 0 ≤ i < din_blocks (din sin) → T !! Data i = Some b → writes_at op buf off bs →
  0 ≤ off → off + len bs ≤ BS →
  ∃ s', op b s = Ok ((0, buf), s') ∧ progress n s F sin T s' F sin T ∧
    file_content s' sin T = splice (file_content s sin T) (i * BS + off) bs.
Proof.
  intros [Ha Hd Hb] Hi Eb Hop Ho Hob. pose proof Ha as [Hv Hn Hin Ht]. destruct (Hin b) as [Hbr Hbf]; [by exists (Data i)|].
  destruct (Hop s F b Hv Hbr Hbf) as (s' & E & Hv' & Hs & He & Hw). pose proof (io_mem_same _ _ Hs) as Hm.
  assert (∀ r x, T !! r = Some x → r ≠ Data i → blk s' x = blk s x) as Hother.
  { intros r x Er Hne. destruct (Hin x) as [? _]; [by exists r|]. apply He; [lia|]. intros ->. by destruct Hne, (t_inj _ _ _ Ht r (Data i) b). }
  exists s'. split; [done|]. split.
  - constructor; [|by apply mem_node_same|done|done| |].
    + constructor; [|done|done]. constructor; [done|by rewrite (m_inodes _ _ Hm)|by apply (tree_in_same s)|].
      apply (tree_ext (blk s)); [done|]. intros x (r & Er & Hr). by apply (Hother r).
    + apply moved_refl. intros x Hx. by apply Hin.
    + eapply same_except_weaken; [|done]. intros x ->. right. by exists (Data i).
  - apply content_splice; [done|by apply (file_full s F n)|done|done| |].
    + unfold data_blk. rewrite Eb. done.
    + intros k Hk Hne. unfold data_blk. destruct (proj2 (Hd k) Hk) as [c Ec]. rewrite Ec. cbn. apply (Hother (Data k)); [done|congruence].
Qed.

(** A file whose map grew by one zero block. *)
Lemma extended_progress s F n sin T res s' :
  file_ok s F n sin T → din_blocks (din sin) < MAX_BLOCKS → extended n s F sin T res s' →
  ∃ F' sin' T', progress n s F sin T s' F' sin' T' ∧
    ((res = (- E_NO_MEM, 0) ∧ din_blocks (din sin') = din_blocks (din sin) ∧ (size F' ≤ 1)%nat ∧
      file_content s' sin' T' = file_content s sin T) ∨
     ∃ b, res = (0, b) ∧ T' !! Data (din_blocks (din sin)) = Some b ∧ din_blocks (din sin') = din_blocks (din sin) + 1 ∧
      file_content s' sin' T' = ext (file_content s sin T) (din_blocks (din sin) + 1)).
Proof.
  intros Hf Hlt (F' & sin' & T' & Hg & Hdata & Hcase). pose proof Hf as [Ha Hd Hb].
  assert (∀ i, 0 ≤ i < din_blocks (din sin) → blk s' (data_blk T' i) = blk s (data_blk T i)) as Hsame.
  { intros i Hi. destruct (proj2 (Hd i) Hi) as [b Eb].
    destruct (grown_data _ _ _ _ _ _ _ _ _ _ _ Ha Hg Eb) as [Eb' Hblk]. unfold data_blk. by rewrite Eb, Eb'. }
  exists F', sin', T'. destruct Hcase as [(-> & Hbl & Hd' & Hsz)|(b & -> & Eb & Hz & Hbl & Hd')].
  - split; [|left; split_and!; [done|done|done|]].
    + apply grown_progress; [done|]. constructor; [by apply (gr_file _ _ _ _ _ _ _ _ _ Hg)|by rewrite Hbl|by rewrite Hbl].
    + unfold file_content. rewrite Hbl. by apply content_ext; [lia|].
  - split; [|right; exists b; split_and!; [done|done|done|]].
    + apply grown_progress; [done|]. constructor; [by apply (gr_file _ _ _ _ _ _ _ _ _ Hg)|by rewrite Hbl|rewrite Hbl; lia].
    + rewrite ext_next by by apply (file_len s F n). unfold file_content. rewrite Hbl, content_succ by lia.
      f_equal; [by apply content_ext; [lia|]|]. unfold data_blk. rewrite Eb. exact Hz.
Qed.

(** Writing a part of block [i], which may be the next after the last one. *)
Lemma part_write s F n sin T i buf off bs op :
  file_ok s F n sin T → 0 ≤ i ≤ din_blocks (din sin) → i < MAX_BLOCKS → writes_at op buf off bs →
  0 ≤ off → off + len bs ≤ BS →
  ∃ ret s' F' sin' T', io_part n i buf op s = Ok ((ret, buf), s') ∧ progress n s F sin T s' F' sin' T' ∧
    ((ret = 0 ∧ file_content s' sin' T' = splice (ext (file_content s sin T) (i + 1)) (i * BS + off) bs) ∨
     (ret = - E_NO_MEM ∧ ((size F' ≤ 1)%nat ∧ i = din_blocks (din sin)) ∧ file_content s' sin' T' = file_content s sin T)).
Proof.
  intros Hf Hi Hlt Hop Ho Hob. pose proof Hf as [Ha Hd Hb]. unfold io_part.
  destruct (decide (i = din_blocks (din sin))) as [->|Hne].
  - destruct (bmap_load_new s F n sin T Ha Hd) as (res & s1 & E1 & Hx); [lia|]. rewrite (bind_ok _ _ _ _ _ E1).
    destruct (extended_progress _ _ _ _ _ _ _ Hf Hlt Hx) as (F1 & sin1 & T1 & Hp & [(-> & Hbl & Hsz & Hc)|(b & -> & Eb & Hbl & Hc)]).
    { exists (- E_NO_MEM), s1, F1, sin1, T1. split_and!; [done|done|by right]. }
    cbn [fst snd negb Z.eqb].
    destruct (op_write s1 F1 n sin1 T1 (din_blocks (din sin)) b buf off bs op) as (s2 & E2 & Hp2 & Hc2);
      [apply Hp|lia|done|done|done|done|].
    exists 0, s2, F1, sin1, T1. split_and!; [done|by eapply progress_trans|left]. by rewrite Hc2, Hc.
  - destruct (bmap_load_old s F n sin T i Ha Hd) as (b & s1 & E1 & Eb & Ha1 & Hs1 & He1); [lia|].
    rewrite (bind_ok _ _ _ _ _ E1). cbn [fst snd negb Z.eqb].
    assert (progress n s F sin T s1 F sin T) as Hp by (apply io_progress; [done|apply Ha1|done|done]).
    assert (file_content s1 sin T = file_content s sin T) as Hc1.
    { apply content_ext; [lia|]. intros k Hk. unfold data_blk. destruct (proj2 (Hd k) Hk) as [c Ec]. rewrite Ec. cbn.
      destruct (fa_in _ _ _ _ _ Ha c) as [? _]; [by exists (Data k)|]. apply He1; [lia|tauto]. }
    destruct (op_write s1 F n sin T i b buf off bs op) as (s2 & E2 & Hp2 & Hc2); [apply Hp|lia|done|done|done|done|].
    exists 0, s2, F, sin, T. split_and!; [done|by eapply progress_trans|left]. split; [done|].
    rewrite Hc2, Hc1, ext_id; [done|]. rewrite (file_len s F n) by done. lia.
Qed.

(** ** Writing *)

(** The file content is [C] with the first [alen] bytes of the buffer at
    [offset], in [k] blocks at least. *)
Definition written s sin T (C : list Z) (buf : list Z) (pos offset alen k : Z) : Prop :=
  file_content s sin T = splice (ext C k) offset (slice buf pos alen).

Lemma written_start s sin T buf pos offset k :
  0 ≤ offset → k * BS ≤ len (file_content s sin T) → written s sin T (file_content s sin T) buf pos offset 0 k.
Proof. intros. unfold written. rewrite ext_id by done. change (slice buf pos 0) with (@nil Z). by rewrite splice_nil. Qed.

Lemma written_step s1 sin1 T1 s2 sin2 T2 C buf pos offset a1 k1 a2 k2 :
  written s1 sin1 T1 C buf pos offset a1 k1 →
  written s2 sin2 T2 (file_content s1 sin1 T1) buf (pos + a1) (offset + a1) a2 k2 →
  0 ≤ offset → 0 ≤ a1 → 0 ≤ a2 → k1 ≤ k2 → in_range buf pos (a1 + a2) = true →
  offset + a1 ≤ Z.max (len C) (k1 * BS) → offset + a1 + a2 ≤ Z.max (len C) (k2 * BS) →
  written s2 sin2 T2 C buf pos offset (a1 + a2) k2.
Proof.
  unfold written. intros H1 H2 Ho Ha1 Ha2 Hk Hr He1 He2. pose proof Hr as Hr'. apply in_range_spec in Hr'.
  assert (len (slice buf pos a1) = a1) as Hl1 by (apply slice_len, in_range_spec; lia).
  assert (len (slice buf (pos + a1) a2) = a2) as Hl2 by (apply slice_len, in_range_spec; lia).
  pose proof (write_write C k1 k2 offset (slice buf pos a1) (slice buf (pos + a1) a2)) as Hw. rewrite Hl1, Hl2 in Hw.
  rewrite H2, H1, Hw by lia. by rewrite slice_app by lia.
Qed.

Lemma written_len s F n sin T C buf pos offset alen k :
  file_ok s F n sin T → written s sin T C buf pos offset alen k → in_range buf pos alen = true → 0 ≤ offset →
  offset + alen ≤ Z.max (len C) (k * BS) → din_blocks (din sin) * BS = Z.max (len C) (k * BS).
Proof.
  intros Hf Hw Hr Ho He. pose proof Hr as Hr'. apply in_range_spec in Hr'.
  rewrite <-(file_len s F n sin T) by done. rewrite Hw, splice_length; [apply ext_len|].
  rewrite slice_len by done. apply in_range_spec. rewrite ext_len. lia.
Qed.

Lemma io_loop_write n (k : nat) : ∀ s F sin T buf pos alen blkno,
  file_ok s F n sin T → 0 ≤ blkno ≤ din_blocks (din sin) → blkno + Z.of_nat k < MAX_BLOCKS →
  in_range buf pos (Z.of_nat k * BS) = true →
  ∃ ret m s' F' sin' T',
    loop (S k) (io_body n true) (buf, pos, alen, blkno, Z.of_nat k) s =
      Ok ((ret, (buf, pos + m * BS, alen + m * BS, blkno + m)), s') ∧
    progress n s F sin T s' F' sin' T' ∧ 0 ≤ m ≤ Z.of_nat k ∧
    (ret = 0 ∧ m = Z.of_nat k ∨ ret = - E_NO_MEM ∧ m < Z.of_nat k ∧ (size F' ≤ 1)%nat) ∧
    written s' sin' T' (file_content s sin T) buf pos (blkno * BS) (m * BS) (blkno + m).
Proof.
  induction k as [|k IH]; intros s F sin T buf pos alen blkno Hf Hb Hlt Hr; pose proof (file_len _ _ _ _ _ Hf) as HC.
  { exists 0, 0, s, F, sin, T. rewrite !Z.mul_0_l, !Z.add_0_r. rewrite (loop_stop _ _ _ _ (0, (buf, pos, alen, blkno)) s) by done.
    split_and!; [done|by apply progress_refl|lia|lia|by left|]. apply written_start; lia. }
  pose proof Hr as Hr'. apply in_range_spec in Hr'. rewrite Nat2Z.inj_succ in *.
  assert (in_range buf pos BS = true) as Hr1 by (apply in_range_spec; lia).
  assert (len (slice buf pos BS) = BS) as Hl1 by by apply slice_len.
  destruct (part_write s F n sin T blkno buf 0 (slice buf pos BS) (sfs_block_op true buf pos))
    as (ret & s1 & F1 & sin1 & T1 & E1 & Hp1 & Hcase); [done|lia|lia|by apply block_op_writes|lia|lia|].
  assert (io_body n true (buf, pos, alen, blkno, Z.succ (Z.of_nat k)) s =
    Ok (if ret =? 0 then inl (buf, pos + SFS_BLKSIZE, alen + SFS_BLKSIZE, blkno + 1, Z.of_nat k)
        else inr (ret, (buf, pos, alen, blkno)), s1)) as Ebody.
  { unfold io_body. rewrite (proj2 (Z.eqb_neq _ 0)) by lia. rewrite (bind_ok _ _ _ _ _ E1). cbn [fst snd].
    replace (Z.succ (Z.of_nat k) - 1) with (Z.of_nat k) by lia. by destruct (ret =? 0). }
  destruct Hcase as [(-> & Hc)|(-> & [Hsz _] & Hc)].
  - rewrite (loop_next _ _ _ _ _ _ Ebody). pose proof (pg_file _ _ _ _ _ _ _ _ _ Hp1) as Hf1.
    rewrite Z.add_0_r in Hc. assert (written s1 sin1 T1 (file_content s sin T) buf pos (blkno * BS) BS (blkno + 1)) as Hw1 by exact Hc.
    pose proof (written_len _ _ _ _ _ _ _ _ _ _ _ Hf1 Hw1 Hr1 ltac:(lia) ltac:(lia)) as Hlen1.
    destruct (IH s1 F1 sin1 T1 buf (pos + SFS_BLKSIZE) (alen + SFS_BLKSIZE) (blkno + 1)) as
      (ret & m & s2 & F2 & sin2 & T2 & E2 & Hp2 & Hm & Hret & Hw2); [done|lia|lia|apply in_range_spec; unfold SFS_BLKSIZE, PGSIZE; lia|].
    unfold SFS_BLKSIZE, PGSIZE in *. exists ret, (m + 1), s2, F2, sin2, T2. split_and!; [|by eapply progress_trans|lia|lia| |].
    + rewrite E2. by replace (pos + BS + m * BS) with (pos + (m + 1) * BS) by lia;
        replace (alen + BS + m * BS) with (alen + (m + 1) * BS) by lia; replace (blkno + 1 + m) with (blkno + (m + 1)) by lia.
    + destruct Hret as [[-> ->]|(-> & ? & ?)]; [left; split; lia|right; split_and!; [done|lia|done]].
    + replace ((m + 1) * BS) with (BS + m * BS) by lia. eapply written_step; [exact Hw1| |lia..| |lia|lia].
      * replace (blkno * BS + BS) with ((blkno + 1) * BS) by lia. replace (blkno + (m + 1)) with (blkno + 1 + m) by lia. exact Hw2.
      * apply in_range_spec. lia.
  - exists (- E_NO_MEM), 0, s1, F1, sin1, T1. rewrite !Z.mul_0_l, !Z.add_0_r.
    rewrite (loop_stop _ _ _ _ _ _ Ebody). split_and!; [done|done|lia|lia|right; split_and!; [done|lia|done]|].
    rewrite <-Hc. apply written_start; [lia|]. rewrite Hc. lia.
Qed.

(** The number of blocks that hold [x] bytes. *)
Definition cdiv (x : Z) : Z := (x + 4095) / BS.

Lemma cdiv_spec x : (cdiv x - 1) * BS < x ≤ cdiv x * BS.
Proof. unfold cdiv. pose proof (Z.div_mod (x + 4095) BS ltac:(lia)). pose proof (Z.mod_pos_bound (x + 4095) BS ltac:(lia)). lia. Qed.
Lemma cdiv_unique x k : (k - 1) * BS < x ≤ k * BS → cdiv x = k.
Proof. pose proof (cdiv_spec x). lia. Qed.

(** A transfer from [offset] towards [endpos] that moved [alen] bytes. *)
Definition write_post n s F sin T (C buf : list Z) (pos offset endpos : Z) (ret alen : Z) s' : Prop :=
  ∃ F' sin' T', progress n s F sin T s' F' sin' T' ∧ 0 ≤ alen ≤ endpos - offset ∧
    (ret = 0 ∧ alen = endpos - offset ∨ ret = - E_NO_MEM ∧ alen < endpos - offset ∧ (size F' ≤ 1)%nat) ∧
    written s' sin' T' C buf pos offset alen (cdiv (offset + alen)).

Lemma io_rest_write n s F sin T C buf pos offset alen endpos blkno :
  file_ok s F n sin T → written s sin T C buf pos offset alen blkno → 0 ≤ offset → 0 ≤ alen → offset + alen = blkno * BS →
  blkno ≤ endpos / BS → endpos < MAX_BLOCKS * BS → in_range buf pos (endpos - offset) = true →
  blkno * BS ≤ Z.max (len C) (blkno * BS) →
  ∃ ret alen' s', io_rest n true endpos (buf, pos + alen, alen, blkno, endpos / BS - blkno) s = Ok ((ret, buf, alen'), s') ∧ alen ≤ alen' ∧
    write_post n s F sin T C buf pos offset endpos ret alen' s'.
Proof.
  intros Hf Hw Ho Ha Hoff Hb Hend Hr Hmax. pose proof Hr as Hr'. apply in_range_spec in Hr'.
  pose proof (Z.div_mod endpos BS ltac:(lia)) as Hdm. pose proof (Z.mod_pos_bound endpos BS ltac:(lia)) as Hmod.
  assert (in_range buf pos alen = true) as Hra by (apply in_range_spec; lia).
  pose proof (written_len _ _ _ _ _ _ _ _ _ _ _ Hf Hw Hra Ho ltac:(lia)) as Hlen.
  set (nb := Z.to_nat (endpos / BS - blkno)). assert (endpos / BS - blkno = Z.of_nat nb) as Hnb by lia.
  destruct (io_loop_write n nb s F sin T buf (pos + alen) alen blkno) as
    (ret & m & s1 & F1 & sin1 & T1 & E1 & Hp1 & Hm & Hret & Hw1); [done|lia|lia|apply in_range_spec; lia|].
  pose proof (pg_file _ _ _ _ _ _ _ _ _ Hp1) as Hf1.
  assert (written s1 sin1 T1 C buf pos offset (alen + m * BS) (blkno + m)) as Hw12.
  { eapply written_step; [exact Hw| |lia..| |lia|lia]; [by rewrite Hoff|]. apply in_range_spec. lia. }
  unfold io_rest. rewrite Hnb. cbn [snd]. rewrite Nat2Z.id, (bind_ok _ _ _ _ _ E1).
  destruct Hret as [[-> ->]|(-> & Hlt & Hsz)].
  2: { exists (- E_NO_MEM), (alen + m * BS), s1. split; [done|]. split; [lia|]. exists F1, sin1, T1. split_and!; [done|lia|lia|right; split_and!; [done|lia|done]|].
       by replace (cdiv (offset + (alen + m * BS))) with (blkno + m) by (symmetry; apply cdiv_unique; lia). }
  cbn [negb Z.eqb]. change SFS_BLKSIZE with BS. set (m := Z.of_nat nb) in *. cbv zeta.
  destruct (Z.eqb_spec (endpos mod BS) 0) as [Hz|Hnz]; cbn [negb].
  { exists 0, (alen + m * BS), s1. split; [done|]. split; [lia|]. exists F1, sin1, T1. split_and!; [done|lia|lia|left; split; [done|lia]|].
    by replace (cdiv (offset + (alen + m * BS))) with (blkno + m) by (symmetry; apply cdiv_unique; lia). }
  set (sz := endpos mod BS) in *. assert (in_range buf (pos + alen + m * BS) sz = true) as Hr2 by (apply in_range_spec; lia).
  assert (len (slice buf (pos + alen + m * BS) sz) = sz) as Hl2 by by apply slice_len.
  assert (in_range buf pos (alen + m * BS) = true) as Hr1 by (apply in_range_spec; lia).
  pose proof (written_len _ _ _ _ _ _ _ _ _ _ _ Hf1 Hw12 Hr1 Ho ltac:(lia)) as Hlen1.
  destruct (part_write s1 F1 n sin1 T1 (blkno + m) buf 0 (slice buf (pos + alen + m * BS) sz)
    (λ ino, sfs_buf_op true buf (pos + alen + m * BS) sz ino 0)) as (ret & s2 & F2 & sin2 & T2 & E2 & Hp2 & Hcase);
    [done|lia|lia|apply buf_op_writes; [done|lia|lia]|lia|lia|].
  rewrite (bind_ok _ _ _ _ _ E2). cbn [fst snd]. destruct Hcase as [(-> & Hc)|(-> & [Hsz _] & Hc)].
  - exists 0, (alen + m * BS + sz), s2. split; [done|]. split; [lia|]. exists F2, sin2, T2.
    split_and!; [by eapply progress_trans|lia|lia|left; split; [done|lia]|].
    replace (cdiv (offset + (alen + m * BS + sz))) with (blkno + m + 1) by (symmetry; apply cdiv_unique; lia).
    eapply written_step; [exact Hw12| |lia..| |lia|lia]; [|apply in_range_spec; lia].
    unfold written. rewrite Hc. f_equal; [lia|]. f_equal. lia.
  - exists (- E_NO_MEM), (alen + m * BS), s2. split; [done|]. split; [lia|]. exists F2, sin2, T2.
    split_and!; [by eapply progress_trans|lia|lia|right; split_and!; [done|lia|done]|].
    replace (cdiv (offset + (alen + m * BS))) with (blkno + m) by (symmetry; apply cdiv_unique; lia).
    unfold written. rewrite Hc. exact Hw12.
Qed.

(** The same of a whole transfer: a part in a new block that found no memory
    leaves the file as it was. *)
Definition transfer_post n s F sin T (buf : list Z) (pos offset endpos : Z) (ret alen : Z) s' : Prop :=
  ∃ F' sin' T', progress n s F sin T s' F' sin' T' ∧ 0 ≤ alen ≤ endpos - offset ∧
    (ret = 0 ∧ alen = endpos - offset ∨ ret = - E_NO_MEM ∧ alen < endpos - offset ∧ (size F' ≤ 1)%nat) ∧
    if decide (alen = 0) then file_content s' sin' T' = file_content s sin T
    else written s' sin' T' (file_content s sin T) buf pos offset alen (cdiv (offset + alen)).

Lemma write_transfer n s F sin T buf pos offset endpos ret alen s' :
  0 ≤ offset → (alen = 0 → cdiv offset * BS ≤ len (file_content s sin T)) →
  write_post n s F sin T (file_content s sin T) buf pos offset endpos ret alen s' →
  transfer_post n s F sin T buf pos offset endpos ret alen s'.
Proof.
  intros Ho Hz (F' & sin' & T' & Hp & Ha & Hret & Hw). exists F', sin', T'. split_and!; [done|lia|lia|done|].
  case_decide as H0; [|done]. subst alen. unfold written in Hw. rewrite Z.add_0_r, ext_id in Hw by auto.
  change (slice buf pos 0) with (@nil Z) in Hw. by rewrite splice_nil in Hw.
Qed.

Lemma io_transfer_write n s F sin T buf pos offset endpos :
  file_ok s F n sin T → 0 ≤ offset < endpos → offset / BS ≤ din_blocks (din sin) → endpos < MAX_BLOCKS * BS →
  in_range buf pos (endpos - offset) = true →
  ∃ ret alen s', io_transfer n true buf pos offset endpos s = Ok ((ret, buf, alen), s') ∧
    transfer_post n s F sin T buf pos offset endpos ret alen s'.
Proof.
  intros Hf Ho Hob Hend Hr. pose proof Hr as Hr'. apply in_range_spec in Hr'. pose proof (file_len _ _ _ _ _ Hf) as HC.
  pose proof (Z.div_mod offset BS ltac:(lia)) as Hdm. pose proof (Z.mod_pos_bound offset BS ltac:(lia)) as Hmod.
  pose proof (Z.div_mod endpos BS ltac:(lia)) as Hdme. pose proof (Z.mod_pos_bound endpos BS ltac:(lia)) as Hmode.
  pose proof (Z.div_le_mono offset endpos BS ltac:(lia) ltac:(lia)) as Hle.
  pose proof (Z.div_pos offset BS ltac:(lia) ltac:(lia)) as Hpos.
  unfold io_transfer. change SFS_BLKSIZE with BS. cbv zeta. set (bn := offset / BS) in *. set (bo := offset mod BS) in *.
  destruct (Z.eqb_spec bo 0) as [Hz|Hnz]; cbn [negb].
  { pose proof (io_rest_write n s F sin T (file_content s sin T) buf pos offset 0 endpos bn) as Hx.
    rewrite !Z.add_0_r in Hx. destruct Hx as (ret & alen & s1 & E1 & _ & Hp1); try done; try lia; [apply written_start; lia|].
    exists ret, alen, s1. split; [done|]. apply write_transfer; [lia| |done]. intros _.
    replace (cdiv offset) with bn by (symmetry; apply cdiv_unique; lia). lia. }
  set (sz := if negb (endpos / BS - bn =? 0) then BS - bo else endpos - offset).
  assert (0 < sz ∧ bo + sz ≤ BS ∧ offset + sz ≤ endpos ∧ (endpos / BS - bn ≠ 0 → bo + sz = BS) ∧
    (endpos / BS - bn = 0 → sz = endpos - offset)) as (Hsz & Hsb & Hse & Hfull & Hpart).
  { unfold sz. destruct (Z.eqb_spec (endpos / BS - bn) 0); cbn [negb]; lia. }
  assert (in_range buf pos sz = true) as Hr1 by (apply in_range_spec; lia).
  assert (len (slice buf pos sz) = sz) as Hl1 by by apply slice_len.
  destruct (part_write s F n sin T bn buf bo (slice buf pos sz) (λ ino, sfs_buf_op true buf pos sz ino bo)) as
    (ret & s1 & F1 & sin1 & T1 & E1 & Hp1 & Hcase); [done|lia|lia|apply buf_op_writes; [done|lia|lia]|lia|lia|].
  rewrite (bind_ok _ _ _ _ _ E1). cbn [fst snd]. destruct Hcase as [(-> & Hc)|(-> & [Hs1 _] & Hc)].
  2: { exists (- E_NO_MEM), 0, s1. split; [done|]. exists F1, sin1, T1. split_and!; [done|lia|lia|right; split_and!; [done|lia|done]|].
       by rewrite decide_True. }
  cbn [negb Z.eqb]. pose proof (pg_file _ _ _ _ _ _ _ _ _ Hp1) as Hf1.
  assert (written s1 sin1 T1 (file_content s sin T) buf pos offset sz (bn + 1)) as Hw1.
  { unfold written. rewrite Hc. f_equal. lia. }
  destruct (Z.eqb_spec (endpos / BS - bn) 0) as [Hn0|Hn0].
  - exists 0, sz, s1. split; [done|]. exists F1, sin1, T1. split_and!; [done|lia|lia|left; split; [done|lia]|].
    rewrite decide_False by lia. by replace (cdiv (offset + sz)) with (bn + 1) by (symmetry; apply cdiv_unique; lia).
  - destruct (io_rest_write n s1 F1 sin1 T1 (file_content s sin T) buf pos offset sz endpos (bn + 1)) as
      (ret & alen & s2 & E2 & Hal & F2 & sin2 & T2 & Hp2 & Ha2 & Hret2 & Hw2); [done|done|lia|lia|lia|lia|done|done|lia|].
    exists ret, alen, s2. replace (endpos / BS - bn - 1) with (endpos / BS - (bn + 1)) by lia. split; [done|].
    exists F2, sin2, T2. split_and!; [by eapply progress_trans|lia|lia|done|]. by rewrite decide_False by lia.
Qed.

(** ** Reading *)

Lemma read_step (C buf : list Z) pos off a1 a2 :
  0 ≤ off → 0 ≤ a1 → 0 ≤ a2 → off + a1 + a2 ≤ len C → in_range buf pos (a1 + a2) = true →
  splice (splice buf pos (slice C off a1)) (pos + a1) (slice C (off + a1) a2) = splice buf pos (slice C off (a1 + a2)).
Proof.
  intros Ho Ha1 Ha2 Hc Hr. assert (len (slice C off a1) = a1) as Hl by (apply slice_len, in_range_spec; lia).
  assert (len (slice C off (a1 + a2)) = a1 + a2) as Hl2 by (apply slice_len, in_range_spec; lia).
  pose proof (splice_splice buf pos (slice C off a1) (slice C (off + a1) a2)) as Hs. rewrite slice_app in Hs by lia.
  rewrite Hl, Hl2 in Hs. by apply Hs.
Qed.

Lemma read_range (C buf : list Z) pos off a p n :
  0 ≤ off → 0 ≤ a → off + a ≤ len C → in_range buf pos a = true → in_range buf p n = true →
  in_range (splice buf pos (slice C off a)) p n = true.
Proof.
  intros Ho Ha Hc Hr Hp. unfold in_range. rewrite splice_length; [done|].
  rewrite slice_len; [done|]. apply in_range_spec. lia.
Qed.

(** A read leaves the file, and all the volume, as it was. *)
Record read_same n s F (sin : sfs_inode) T s' : Prop := {
  rs_file : file_ok s' F n sin T;
  rs_io : io_same s s';
  rs_blocks : same_except (λ _, False) s s';
  rs_content : file_content s' sin T = file_content s sin T;
}.
Lemma read_same_refl n s F sin T : file_ok s F n sin T → read_same n s F sin T s.
Proof. intros. constructor; [done|done|apply same_except_refl|done]. Qed.
Lemma read_same_trans n s1 s2 s3 F sin T : read_same n s1 F sin T s2 → read_same n s2 F sin T s3 → read_same n s1 F sin T s3.
Proof.
  intros [] []. constructor; [done|by etrans| |congruence].
  by apply (same_except_trans _ _ s2); [apply io_mem_same| |].
Qed.

Lemma io_loop_read n (k : nat) : ∀ s F sin T buf pos alen blkno,
  file_ok s F n sin T → 0 ≤ blkno → blkno + Z.of_nat k ≤ din_blocks (din sin) → in_range buf pos (Z.of_nat k * BS) = true →
  let k' := Z.of_nat k in
  ∃ s', loop (S k) (io_body n false) (buf, pos, alen, blkno, k') s =
      Ok ((0, (splice buf pos (slice (file_content s sin T) (blkno * BS) (k' * BS)), pos + k' * BS, alen + k' * BS, blkno + k')), s') ∧
    read_same n s F sin T s'.
Proof.
  induction k as [|k IH]; intros s F sin T buf pos alen blkno Hf Hb Hlt Hr k'; pose proof (file_len _ _ _ _ _ Hf) as HC.
  { exists s. split; [|by apply read_same_refl]. unfold k'. apply in_range_spec in Hr.
    change (slice _ _ (Z.of_nat 0 * BS)) with (@nil Z). rewrite splice_nil by lia. rewrite Z.mul_0_l, !Z.add_0_r. done. }
  pose proof Hr as Hr'. apply in_range_spec in Hr'. unfold k'. rewrite Nat2Z.inj_succ in *.
  assert (in_range buf pos BS = true) as Hr1 by (apply in_range_spec; lia).
  destruct (part_read s F n sin T blkno buf pos 0 BS (sfs_block_op false buf pos)) as (s1 & E1 & Hf1 & Hs1 & He1 & Hc1);
    [done|lia|by apply block_op_reads|lia..|].
  rewrite Z.add_0_r in E1. set (buf1 := splice buf pos _) in *.
  assert (io_body n false (buf, pos, alen, blkno, Z.succ (Z.of_nat k)) s =
    Ok (inl (buf1, pos + BS, alen + BS, blkno + 1, Z.of_nat k), s1)) as Ebody.
  { unfold io_body. rewrite (proj2 (Z.eqb_neq _ 0)) by lia. rewrite (bind_ok _ _ _ _ _ E1). cbn [fst snd Z.eqb].
    by replace (Z.succ (Z.of_nat k) - 1) with (Z.of_nat k) by lia. }
  rewrite (loop_next _ _ _ _ _ _ Ebody).
  destruct (IH s1 F sin T buf1 (pos + BS) (alen + BS) (blkno + 1)) as (s2 & E2 & Hs2); [done|lia|lia| |].
  { apply read_range; [lia..|done|apply in_range_spec; lia]. }
  exists s2. split.
  - rewrite E2, Hc1. replace ((blkno + 1) * BS) with (blkno * BS + BS) by lia. unfold buf1.
    rewrite read_step by (lia || (apply in_range_spec; lia)).
    replace (BS + Z.of_nat k * BS) with (Z.succ (Z.of_nat k) * BS) by lia.
    replace (pos + BS + Z.of_nat k * BS) with (pos + Z.succ (Z.of_nat k) * BS) by lia.
    replace (alen + BS + Z.of_nat k * BS) with (alen + Z.succ (Z.of_nat k) * BS) by lia.
    by replace (blkno + 1 + Z.of_nat k) with (blkno + Z.succ (Z.of_nat k)) by lia.
  - eapply read_same_trans; [|done]. by constructor.
Qed.

Lemma io_rest_read n s F sin T buf pos alen endpos blkno :
  file_ok s F n sin T → 0 ≤ blkno ≤ endpos / BS → endpos ≤ din_blocks (din sin) * BS →
  in_range buf pos (endpos - blkno * BS) = true →
  ∃ s', io_rest n false endpos (buf, pos, alen, blkno, endpos / BS - blkno) s =
      Ok ((0, splice buf pos (slice (file_content s sin T) (blkno * BS) (endpos - blkno * BS)), alen + (endpos - blkno * BS)), s') ∧
    read_same n s F sin T s'.
Proof.
  intros Hf Hb Hend Hr. pose proof (file_len _ _ _ _ _ Hf) as HC. pose proof Hr as Hr'. apply in_range_spec in Hr'.
  pose proof (Z.div_mod endpos BS ltac:(lia)) as Hdm. pose proof (Z.mod_pos_bound endpos BS ltac:(lia)) as Hmod.
  set (nb := Z.to_nat (endpos / BS - blkno)). assert (endpos / BS - blkno = Z.of_nat nb) as Hnb by lia.
  assert (in_range buf pos (Z.of_nat nb * BS) = true) as Hr1 by (apply in_range_spec; lia).
  destruct (io_loop_read n nb s F sin T buf pos alen blkno) as (s1 & E1 & Hs1); [done|lia|lia|done|].
  unfold io_rest. rewrite Hnb. cbn [snd]. rewrite Nat2Z.id, (bind_ok _ _ _ _ _ E1). cbn [negb Z.eqb]. clear E1.
  change SFS_BLKSIZE with BS. set (m := Z.of_nat nb) in *. cbv zeta.
  destruct (Z.eqb_spec (endpos mod BS) 0) as [Hz|Hnz]; cbn [negb].
  { exists s1. split; [|done]. by replace (endpos - blkno * BS) with (m * BS) by lia. }
  set (sz := endpos mod BS) in *. set (buf1 := splice buf pos (slice (file_content s sin T) (blkno * BS) (m * BS))).
  destruct (part_read s1 F n sin T (blkno + m) buf1 (pos + m * BS) 0 sz
    (λ ino, sfs_buf_op false buf1 (pos + m * BS) sz ino 0)) as (s2 & E2 & Hf2 & Hs2 & He2 & Hc2);
    [by apply (rs_file _ _ _ _ _ _ Hs1)|lia| |lia..|].
  { apply buf_op_reads; [|lia..]. apply read_range; [lia..|done|apply in_range_spec; lia]. }
  rewrite (bind_ok _ _ _ _ _ E2). cbn [fst snd negb Z.eqb]. exists s2. split.
  - rewrite (rs_content _ _ _ _ _ _ Hs1), Z.add_0_r. unfold buf1. rewrite Z.mul_add_distr_r.
    rewrite read_step by (lia || (apply in_range_spec; lia)).
    replace (m * BS + sz) with (endpos - blkno * BS) by lia. by replace (alen + m * BS + sz) with (alen + (endpos - blkno * BS)) by lia.
  - eapply read_same_trans; [done|]. by constructor.
Qed.

Lemma io_transfer_read n s F sin T buf pos offset endpos :
  file_ok s F n sin T → 0 ≤ offset < endpos → endpos ≤ din_blocks (din sin) * BS →
  in_range buf pos (endpos - offset) = true →
  ∃ s', io_transfer n false buf pos offset endpos s =
      Ok ((0, splice buf pos (slice (file_content s sin T) offset (endpos - offset)), endpos - offset), s') ∧
    read_same n s F sin T s'.
Proof.
  intros Hf Ho Hend Hr. pose proof Hr as Hr'. apply in_range_spec in Hr'. pose proof (file_len _ _ _ _ _ Hf) as HC.
  pose proof (Z.div_mod offset BS ltac:(lia)) as Hdm. pose proof (Z.mod_pos_bound offset BS ltac:(lia)) as Hmod.
  pose proof (Z.div_mod endpos BS ltac:(lia)) as Hdme. pose proof (Z.mod_pos_bound endpos BS ltac:(lia)) as Hmode.
  pose proof (Z.div_le_mono offset endpos BS ltac:(lia) ltac:(lia)) as Hle.
  pose proof (Z.div_pos offset BS ltac:(lia) ltac:(lia)) as Hpos.
  unfold io_transfer. change SFS_BLKSIZE with BS. cbv zeta. set (bn := offset / BS) in *. set (bo := offset mod BS) in *.
  destruct (Z.eqb_spec bo 0) as [Hz|Hnz]; cbn [negb].
  { destruct (io_rest_read n s F sin T buf pos 0 endpos bn) as (s' & E & Hs); [done|lia|lia|apply in_range_spec; lia|].
    exists s'. rewrite E. replace (bn * BS) with offset by lia. done. }
  set (sz := if negb (endpos / BS - bn =? 0) then BS - bo else endpos - offset).
  assert (0 < sz ∧ bo + sz ≤ BS ∧ offset + sz ≤ endpos ∧ (endpos / BS - bn ≠ 0 → bo + sz = BS) ∧
    (endpos / BS - bn = 0 → sz = endpos - offset)) as (Hsz & Hsb & Hse & Hfull & Hpart).
  { unfold sz. destruct (Z.eqb_spec (endpos / BS - bn) 0); cbn [negb]; lia. }
  assert (in_range buf pos sz = true) as Hr1 by (apply in_range_spec; lia).
  destruct (part_read s F n sin T bn buf pos bo sz (λ ino, sfs_buf_op false buf pos sz ino bo)) as (s1 & E1 & Hf1 & Hs1 & He1 & Hc1);
    [done|lia|apply buf_op_reads; [done|lia|lia]|lia..|].
  assert (read_same n s F sin T s1) as Hrs1 by by constructor.
  rewrite (bind_ok _ _ _ _ _ E1). cbn [fst snd negb Z.eqb]. replace (bn * BS + bo) with offset by lia.
  destruct (Z.eqb_spec (endpos / BS - bn) 0) as [Hn0|Hn0].
  - exists s1. split; [|done]. by rewrite (Hpart Hn0).
  - set (buf1 := splice buf pos _). destruct (io_rest_read n s1 F sin T buf1 (pos + sz) sz endpos (bn + 1)) as (s2 & E2 & Hs2); [done|lia|lia| |].
    { apply read_range; [lia..|done|apply in_range_spec; lia]. }
    exists s2. replace (endpos / BS - bn - 1) with (endpos / BS - (bn + 1)) by lia. split; [|by eapply read_same_trans].
    rewrite E2, Hc1. replace ((bn + 1) * BS) with (offset + sz) by lia. unfold buf1.
    rewrite read_step by (lia || (apply in_range_spec; lia)).
    replace (sz + (endpos - (offset + sz))) with (endpos - offset) by lia. done.
Qed.
End io.
