(* ===== verification/SfsFileSpec.v ===== *)
(** * What reading and writing a file guarantee

    The bytes of a regular file, and [sfs_read], [sfs_write] and [sfs_io_nolock]
    as operations on them. *)

From S2P Require Import Prelude Bytes Mem DList Slab Bitmap Disk Sfs SfsVol SfsTree SfsMap SfsFile SfsIo.

(** The bytes of the file: its content up to its size. *)
Lemma splice_bytes (C d : list Z) k sz off :
  0 ≤ sz ≤ len C → 0 ≤ off ≤ sz → off + len d ≤ Z.max (len C) (k * BS) →
  slice (splice (ext C k) off d) 0 (Z.max sz (off + len d)) = splice (slice C 0 sz) off d.
Proof.
  intros Hsz Ho Hd. unfold slice, splice. change (Z.to_nat 0) with 0%nat. rewrite !drop_0.
  assert (take (Z.to_nat off) (ext C k) = take (Z.to_nat off) C) as -> by (unfold ext; apply take_app_le; lia).
  rewrite take_take, Nat.min_l by lia.
  assert (length (take (Z.to_nat off) C) = Z.to_nat off) as Hl1 by (rewrite length_take; lia).
  rewrite take_app_ge by lia. f_equal. rewrite Hl1.
  rewrite take_app_ge by lia. f_equal.
  destruct (decide (sz ≤ off + len d)) as [Hle|Hgt].
  - rewrite Z.max_r by lia. replace (_ - _ - _)%nat with 0%nat by lia. rewrite take_0, drop_ge; [done|].
    rewrite length_take. lia.
  - rewrite Z.max_l, skipn_firstn_comm by lia. unfold ext.
    rewrite drop_app_le, take_app_le by (rewrite ?length_drop; lia). f_equal. lia.
Qed.

Section spec.
Context {D : Type} `{BlockDevice D, !BlockDeviceLaws D}.
Implicit Types (s : sfs_fs D) (b n : Z) (F : gset Z) (T : tree).

(** A regular file in memory: its size lies within its blocks. *)
Record reg_ok s F n (sin : sfs_inode) T : Prop := {
  rg_file : file_ok s F n sin T;
  rg_type : din_type (din sin) ≠ SFS_TYPE_DIR;
  rg_size : 0 ≤ din_size (din sin) ≤ din_blocks (din sin) * BS;
  rg_max : din_size (din sin) ≤ SFS_MAX_FILE_SIZE;
  rg_blocks : din_blocks (din sin) * BS ≤ SFS_MAX_FILE_SIZE;
}.

Definition file_bytes s (sin : sfs_inode) T : list Z := slice (file_content s sin T) 0 (din_size (din sin)).

Lemma file_bytes_len s F n sin T : reg_ok s F n sin T → len (file_bytes s sin T) = din_size (din sin).
Proof.
  intros [Hf _ Hs _ _]. apply slice_len, in_range_spec. rewrite (file_len s F n) by done. lia.
Qed.

(** The arguments of a transfer that the code refuses. *)
Definition io_invalid (offset alen0 : Z) : Prop := offset < 0 ∨ SFS_MAX_FILE_SIZE ≤ offset ∨ 2 ^ 31 ≤ offset + alen0.

Lemma endpos_ok offset alen0 :
  - 2 ^ 31 ≤ offset < 2 ^ 31 → 0 ≤ alen0 < 2 ^ 32 →
  (io_invalid offset alen0 →
    (offset <? 0) || (SFS_MAX_FILE_SIZE <=? offset) || (s32 (offset + alen0) <? offset) = true) ∧
  (¬ io_invalid offset alen0 → 0 ≤ offset < SFS_MAX_FILE_SIZE ∧ s32 (offset + alen0) = offset + alen0 ∧
    (offset <? 0) || (SFS_MAX_FILE_SIZE <=? offset) || (s32 (offset + alen0) <? offset) = false).
Proof.
  intros Ho Ha. unfold io_invalid. assert (SFS_MAX_FILE_SIZE = 2 ^ 27) as HM by done. split.
  - intros Hbad. destruct (Z.ltb_spec offset 0) as [|H0]; [done|].
    destruct (Z.leb_spec SFS_MAX_FILE_SIZE offset) as [|HM2]; [done|]. cbn [orb]. apply Z.ltb_lt.
    unfold s32. destruct (decide (offset + alen0 < 2 ^ 32)).
    + replace ((offset + alen0 + 2 ^ 31) mod 2 ^ 32) with (offset + alen0 + 2 ^ 31 - 2 ^ 32); [lia|].
      apply (Z.mod_unique_pos _ _ 1); lia.
    + replace ((offset + alen0 + 2 ^ 31) mod 2 ^ 32) with (offset + alen0 + 2 ^ 31 - 2 ^ 32); [lia|].
      apply (Z.mod_unique_pos _ _ 1); lia.
  - intros Hok. rewrite s32_id by lia. split; [lia|]. split; [done|].
    rewrite (proj2 (Z.ltb_ge offset 0)), (proj2 (Z.leb_gt SFS_MAX_FILE_SIZE offset)), (proj2 (Z.ltb_ge _ offset)) by lia. done.
Qed.

Lemma io_nolock_start s F n sin T buf pos offset alen0 write :
  reg_ok s F n sin T → - 2 ^ 31 ≤ offset < 2 ^ 31 → 0 ≤ alen0 < 2 ^ 32 → io_invalid offset alen0 →
  sfs_io_nolock n buf pos offset alen0 write s = Ok ((- E_INVAL, 0, buf), s).
Proof.
  intros Hr Ho Ha Hbad. unfold sfs_io_nolock.
  rewrite (bind_ok _ _ _ _ _ (get_din_ok _ _ _ (fa_node _ _ _ _ _ (fo_at _ _ _ _ _ (rg_file _ _ _ _ _ Hr))))).
  rewrite (proj2 (Z.eqb_neq (din_type (din sin)) SFS_TYPE_DIR)) by apply Hr. rewrite (bind_ok _ _ _ _ _ eq_refl). cbv zeta.
  by rewrite (proj1 (endpos_ok offset alen0 Ho Ha) Hbad).
Qed.

(** Reading. *)
Lemma read_nolock_ok s F n sin T buf pos offset alen0 :
  reg_ok s F n sin T → - 2 ^ 31 ≤ offset < 2 ^ 31 → 0 ≤ alen0 < 2 ^ 32 → in_range buf pos alen0 = true → ¬ io_invalid offset alen0 →
  let m := Z.max 0 (Z.min alen0 (din_size (din sin) - offset)) in
  ∃ s', sfs_io_nolock n buf pos offset alen0 false s = Ok ((0, m, splice buf pos (slice (file_bytes s sin T) offset m)), s') ∧
    reg_ok s' F n sin T ∧ io_same s s' ∧ same_except (λ _, False) s s' ∧ file_bytes s' sin T = file_bytes s sin T.
Proof.
  intros Hr Ho Ha Hrange Hok m. destruct (proj2 (endpos_ok offset alen0 Ho Ha) Hok) as (Ho' & He & Hc).
  pose proof (rg_file _ _ _ _ _ Hr) as Hf. pose proof (fa_node _ _ _ _ _ (fo_at _ _ _ _ _ Hf)) as Hn.
  pose proof (rg_size _ _ _ _ _ Hr) as Hsz. pose proof (rg_max _ _ _ _ _ Hr) as Hmax. pose proof Hrange as Hr'. apply in_range_spec in Hr'.
  unfold sfs_io_nolock. rewrite (bind_ok _ _ _ _ _ (get_din_ok _ _ _ Hn)).
  rewrite (proj2 (Z.eqb_neq (din_type (din sin)) SFS_TYPE_DIR)) by apply Hr. rewrite (bind_ok _ _ _ _ _ eq_refl). cbv zeta. rewrite Hc, He.
  assert (m = 0 → ∃ s', Ok ((0, 0, buf), s) = Ok ((0, m, splice buf pos (slice (file_bytes s sin T) offset m)), s') ∧
    reg_ok s' F n sin T ∧ io_same s s' ∧ same_except (λ _, False) s s' ∧ file_bytes s' sin T = file_bytes s sin T) as Hnothing.
  { intros ->. change (slice _ offset 0) with (@nil Z). rewrite splice_nil by lia. by exists s. }
  destruct (Z.eqb_spec offset (offset + alen0)) as [Hz|Hnz]; [apply Hnothing; lia|]. cbn [negb andb].
  set (endpos := if SFS_MAX_FILE_SIZE <? offset + alen0 then SFS_MAX_FILE_SIZE else offset + alen0).
  assert (endpos = Z.min SFS_MAX_FILE_SIZE (offset + alen0)) as Hend by (unfold endpos; destruct (Z.ltb_spec SFS_MAX_FILE_SIZE (offset + alen0)); lia).
  destruct (Z.leb_spec (din_size (din sin)) offset) as [Hle|Hlt]; [apply Hnothing; lia|].
  replace (if din_size (din sin) <? endpos then din_size (din sin) else endpos) with (offset + m)
    by (destruct (Z.ltb_spec (din_size (din sin)) endpos); lia).
  assert (offset + m - offset = m) as Hm by lia.
  destruct (io_transfer_read n s F sin T buf pos offset (offset + m)) as (s' & E & Hs); [done|lia|lia|rewrite Hm; apply in_range_spec; lia|].
  rewrite Hm in E. rewrite (bind_ok _ _ _ _ _ E).
  pose proof (fa_node _ _ _ _ _ (fo_at _ _ _ _ _ (rs_file _ _ _ _ _ _ Hs))) as Hn'.
  rewrite (bind_ok _ _ _ _ _ (get_din_ok _ _ _ Hn')). assert (SFS_MAX_FILE_SIZE = 2 ^ 27) as HM by done.
  rewrite u32_id, (proj2 (Z.ltb_ge (din_size (din sin)) (offset + m))) by lia. cbn [when]. rewrite (bind_ok _ _ _ _ _ eq_refl).
  exists s'. split.
  - unfold file_bytes. rewrite (slice_slice (file_content s sin T) 0) by lia. done.
  - split_and!; [|apply Hs|apply Hs|].
    + destruct Hr. by constructor; [apply Hs|..].
    + unfold file_bytes. by rewrite (rs_content _ _ _ _ _ _ Hs).
Qed.

(** The file after [m] bytes of the buffer were written at [offset]. *)
Record wrote n s F sin T (buf : list Z) (pos offset m : Z) s' F' sin' T' : Prop := {
  wr_file : reg_ok s' F' n sin' T';
  wr_node : node_same n s s';
  wr_sin : sin_same sin sin';
  wr_moved : moved F T F' T';
  wr_same : same_except (λ x, x ∈ F ∨ in_tree T x) s s';
  wr_size : din_size (din sin') = Z.max (din_size (din sin)) (offset + m);
  wr_bytes : file_bytes s' sin' T' = splice (file_bytes s sin T) offset (slice buf pos m);
}.

Lemma wrote_nothing n s F sin T buf pos offset :
  reg_ok s F n sin T → 0 ≤ offset ≤ din_size (din sin) → wrote n s F sin T buf pos offset 0 s F sin T.
Proof.
  intros Hr Ho. constructor; [done|done|done| |apply same_except_refl|lia|].
  - apply moved_refl. intros x Hx. by apply (fa_in _ _ _ _ _ (fo_at _ _ _ _ _ (rg_file _ _ _ _ _ Hr))).
  - change (slice buf pos 0) with (@nil Z). by rewrite splice_nil by lia.
Qed.

(** The same for any offset at which the write finds its first block.  A write
    that starts past the end leaves what the blocks held between the old end
    and the offset, zeros in a new block; and the size becomes the offset at
    least, even when nothing was written for want of blocks. *)
Record stored n s F sin T (buf : list Z) (pos offset m : Z) s' F' sin' T' : Prop := {
  sr_file : file_ok s' F' n sin' T';
  sr_node : node_same n s s';
  sr_sin : sin_same sin sin';
  sr_moved : moved F T F' T';
  sr_same : same_except (λ x, x ∈ F ∨ in_tree T x) s s';
  sr_size : din_size (din sin') = Z.max (din_size (din sin)) (offset + m);
  sr_content : file_content s' sin' T' =
    if decide (m = 0) then file_content s sin T else splice (ext (file_content s sin T) (cdiv (offset + m))) offset (slice buf pos m);
}.

Lemma stored_len n s F sin T buf pos offset m s' F' sin' T' :
  file_ok s F n sin T → stored n s F sin T buf pos offset m s' F' sin' T' → 0 ≤ offset → 0 ≤ m → in_range buf pos m = true →
  din_blocks (din sin') * BS =
    if decide (m = 0) then din_blocks (din sin) * BS else Z.max (din_blocks (din sin) * BS) (cdiv (offset + m) * BS).
Proof.
  intros Hf Hw Ho Hm Hr. pose proof (file_len _ _ _ _ _ Hf) as HC. pose proof (cdiv_spec (offset + m)) as Hcd.
  rewrite <-(file_len s' F' n sin' T') by apply Hw. rewrite (sr_content _ _ _ _ _ _ _ _ _ _ _ _ _ Hw).
  case_decide; [done|]. rewrite splice_length, ext_len, HC; [done|]. rewrite slice_len by done. apply in_range_spec.
  rewrite ext_len. lia.
Qed.

Lemma stored_wrote n s F sin T buf pos offset m s' F' sin' T' :
  reg_ok s F n sin T → 0 ≤ offset ≤ din_size (din sin) → 0 ≤ m → offset + m ≤ SFS_MAX_FILE_SIZE → in_range buf pos m = true →
  stored n s F sin T buf pos offset m s' F' sin' T' → wrote n s F sin T buf pos offset m s' F' sin' T'.
Proof.
  intros Hr Ho Hm Hmax Hra Hst. assert (SFS_MAX_FILE_SIZE = 2 ^ 27) as HM by done.
  pose proof (stored_len _ _ _ _ _ _ _ _ _ _ _ _ _ (rg_file _ _ _ _ _ Hr) Hst ltac:(lia) Hm Hra) as Hlen.
  pose proof (file_len _ _ _ _ _ (rg_file _ _ _ _ _ Hr)) as HC. pose proof (cdiv_spec (offset + m)) as Hcd.
  pose proof (rg_size _ _ _ _ _ Hr) as Hsz. pose proof (rg_blocks _ _ _ _ _ Hr) as Hbl. pose proof (rg_max _ _ _ _ _ Hr) as Hmx.
  destruct Hst as [Hf Hnode Hsin Hmv Hsame Hs' Hc]. constructor; try done.
  - constructor; [done|rewrite (ss_type _ _ Hsin); apply Hr|rewrite Hs', Hlen; case_decide; lia|lia|rewrite Hlen; case_decide; lia].
  - unfold file_bytes. rewrite Hc, Hs'. case_decide as H0.
    + subst m. change (slice buf pos 0) with (@nil Z). by rewrite splice_nil, Z.max_l by lia.
    + assert (len (slice buf pos m) = m) as Hl by by apply slice_len.
      pose proof (splice_bytes (file_content s sin T) (slice buf pos m) (cdiv (offset + m)) (din_size (din sin)) offset) as Hb.
      rewrite Hl in Hb. apply Hb; lia.
Qed.

(** The file after a write past its end that wrote something. *)
Lemma stored_past n s F sin T buf pos offset m s' F' sin' T' :
  reg_ok s F n sin T → din_size (din sin) < offset → 0 < m → offset + m ≤ SFS_MAX_FILE_SIZE → in_range buf pos m = true →
  stored n s F sin T buf pos offset m s' F' sin' T' →
  reg_ok s' F' n sin' T' ∧
  file_bytes s' sin' T' = slice (ext (file_content s sin T) (cdiv (offset + m))) 0 offset ++ slice buf pos m.
Proof.
  intros Hr Ho Hm Hmax Hra Hst. assert (SFS_MAX_FILE_SIZE = 2 ^ 27) as HM by done. pose proof (rg_size _ _ _ _ _ Hr) as Hsz.
  pose proof (stored_len _ _ _ _ _ _ _ _ _ _ _ _ _ (rg_file _ _ _ _ _ Hr) Hst ltac:(lia) ltac:(lia) Hra) as Hlen.
  pose proof (cdiv_spec (offset + m)) as Hcd. pose proof (rg_blocks _ _ _ _ _ Hr) as Hbl.
  pose proof (ext_len (file_content s sin T) (cdiv (offset + m))) as Hel.
  destruct Hst as [Hf Hnode Hsin Hmv Hsame Hs' Hc]. rewrite decide_False in Hc by lia. rewrite decide_False in Hlen by lia. split.
  - constructor; [done|rewrite (ss_type _ _ Hsin); apply Hr|lia|lia|rewrite Hlen; lia].
  - unfold file_bytes. rewrite Hc, Hs', Z.max_r by lia. set (X := ext _ _) in *.
    assert (len (slice buf pos m) = m) as Hl by by apply slice_len.
    unfold slice at 1 3, splice. change (Z.to_nat 0) with 0%nat. rewrite !drop_0.
    assert (length (take (Z.to_nat offset) X) = Z.to_nat offset) as Hl1 by (rewrite length_take; lia).
    rewrite take_app_ge by lia. f_equal. rewrite Hl1. apply take_app_length'. lia.
Qed.

(** From the transfer to the end of [sfs_io_nolock]: the size is updated. *)
Lemma write_finish n s F sin T buf pos offset endpos ret alen s1 :
  reg_ok s F n sin T → 0 ≤ offset < endpos → endpos ≤ SFS_MAX_FILE_SIZE →
  transfer_post n s F sin T buf pos offset endpos ret alen s1 →
  ∃ s' F' sin' T',
    (d ← get_din n;
     _ ← when (din_size d <? u32 (offset + alen)) (_ ← on_din n (λ d, d <| din_size := u32 (offset + alen) |>); set_dirty n);
     mret (ret, alen, buf)) s1 = Ok ((ret, alen, buf), s') ∧
    stored n s F sin T buf pos offset alen s' F' sin' T' ∧ 0 ≤ alen ≤ endpos - offset ∧
    (ret = 0 ∧ alen = endpos - offset ∨ ret = - E_NO_MEM ∧ alen < endpos - offset ∧ (size F' ≤ 1)%nat).
Proof.
  intros Hr Ho Hend (F' & sin1 & T' & Hp & Ha & Hret & Hw). assert (SFS_MAX_FILE_SIZE = 2 ^ 27) as HM by done.
  pose proof (rg_size _ _ _ _ _ Hr) as Hsz.
  destruct Hp as [Hf1 Hnode Hsin Hsize Hmv Hsame]. pose proof (fa_node _ _ _ _ _ (fo_at _ _ _ _ _ Hf1)) as Hn1.
  set (sz := Z.max (din_size (din sin)) (offset + alen)).
  assert (∀ s' sin', inodes s' !! n = Some sin' → file_ok s' F' n sin' T' → node_same n s s' → sin_same sin sin' →
    same_except (λ x, x ∈ F ∨ in_tree T x) s s' → (∀ x, blk s' x = blk s1 x) → din_size (din sin') = sz →
    din_blocks (din sin') = din_blocks (din sin1) → stored n s F sin T buf pos offset alen s' F' sin' T') as Hgoal.
  { intros s' sin' Hn' Hf' Hnode' Hsin' Hsame' Hblk Hs' Hb'. constructor; try done.
    replace (file_content s' sin' T') with (file_content s1 sin1 T'); [by case_decide|].
    unfold file_content. rewrite Hb'. symmetry. by apply content_blk. }
  rewrite (bind_ok _ _ _ _ _ (get_din_ok _ _ _ Hn1)), u32_id, Hsize by lia.
  destruct (Z.ltb_spec (din_size (din sin)) (offset + alen)) as [Hlt|Hge]; cbn [when].
  - rewrite (bind_ok _ _ _ _ _ (dirty_din_ok _ _ _ _ Hn1)).
    set (sin' := sin1 <| din := _ |> <| dirty := true |>). exists (set_sin s1 n sin'), F', sin', T'.
    split; [done|]. split_and!; try done; try lia. apply Hgoal; try done.
    + apply set_sin_at.
    + destruct Hf1 as [Hat Hd Hb]. constructor; [|done|done]. apply (file_set_sin s1 F' n sin1); [done|].
      by apply (tree_din_ext _ (din sin1)); [apply Hat|..].
    + etrans; [done|apply node_same_set].
    + destruct Hsin. by constructor.
    + simpl. unfold sz. lia.
  - rewrite (bind_ok _ _ _ _ _ eq_refl). exists s1, F', sin1, T'. split; [done|]. split_and!; try done; try lia.
    apply Hgoal; try done. rewrite Hsize. unfold sz. lia.
Qed.

(** A write of something at an offset whose block is there or the next. *)
Lemma write_nolock_ok s F n sin T buf pos offset alen0 :
  reg_ok s F n sin T → 0 ≤ offset < 2 ^ 31 → offset / BS ≤ din_blocks (din sin) → 0 < alen0 < 2 ^ 32 → in_range buf pos alen0 = true →
  ¬ io_invalid offset alen0 →
  let want := Z.min alen0 (SFS_MAX_FILE_SIZE - offset) in
  ∃ ret m s' F' sin' T', sfs_io_nolock n buf pos offset alen0 true s = Ok ((ret, m, buf), s') ∧
    stored n s F sin T buf pos offset m s' F' sin' T' ∧ 0 ≤ m ≤ want ∧
    (ret = 0 ∧ m = want ∨ ret = - E_NO_MEM ∧ m < want ∧ (size F' ≤ 1)%nat).
Proof.
  intros Hr Ho Hob Ha Hrange Hok want. assert (SFS_MAX_FILE_SIZE = 2 ^ 27) as HM by done.
  pose proof Hrange as Hr'. apply in_range_spec in Hr'.
  destruct (proj2 (endpos_ok offset alen0 ltac:(lia) ltac:(lia)) Hok) as (Ho' & He & Hc).
  pose proof (rg_file _ _ _ _ _ Hr) as Hf. pose proof (fa_node _ _ _ _ _ (fo_at _ _ _ _ _ Hf)) as Hn.
  unfold sfs_io_nolock. rewrite (bind_ok _ _ _ _ _ (get_din_ok _ _ _ Hn)).
  rewrite (proj2 (Z.eqb_neq (din_type (din sin)) SFS_TYPE_DIR)) by apply Hr. rewrite (bind_ok _ _ _ _ _ eq_refl). cbv zeta. rewrite Hc, He.
  rewrite (proj2 (Z.eqb_neq offset (offset + alen0))) by lia. cbn [negb andb].
  replace (if SFS_MAX_FILE_SIZE <? offset + alen0 then SFS_MAX_FILE_SIZE else offset + alen0) with (offset + want)
    by (destruct (Z.ltb_spec SFS_MAX_FILE_SIZE (offset + alen0)); lia).
  assert (offset + want - offset = want) as Hm by lia.
  destruct (io_transfer_write n s F sin T buf pos offset (offset + want)) as (ret & alen & s1 & E & Hpost);
    [done|lia|done|unfold MAX_BLOCKS; lia|rewrite Hm; apply in_range_spec; lia|].
  rewrite (bind_ok _ _ _ _ _ E).
  destruct (write_finish n s F sin T buf pos offset (offset + want) ret alen s1) as (s' & F' & sin' & T' & E' & Hw & Hlim & Hret);
    [done|lia|lia|done|].
  exists ret, alen, s', F', sin', T'. rewrite Hm in *. split_and!; [exact E'|done|lia|lia|done].
Qed.

(** A write of nothing. *)
Lemma write_nothing_ok s F n sin T buf pos offset alen0 :
  reg_ok s F n sin T → 0 ≤ offset < 2 ^ 31 → ¬ io_invalid offset alen0 → alen0 = 0 →
  sfs_io_nolock n buf pos offset alen0 true s = Ok ((0, 0, buf), s).
Proof.
  intros Hr Ho Hok ->. destruct (proj2 (endpos_ok offset 0 ltac:(lia) ltac:(lia)) Hok) as (Ho' & He & Hc).
  pose proof (fa_node _ _ _ _ _ (fo_at _ _ _ _ _ (rg_file _ _ _ _ _ Hr))) as Hn.
  unfold sfs_io_nolock. rewrite (bind_ok _ _ _ _ _ (get_din_ok _ _ _ Hn)).
  rewrite (proj2 (Z.eqb_neq (din_type (din sin)) SFS_TYPE_DIR)) by apply Hr. rewrite (bind_ok _ _ _ _ _ eq_refl). cbv zeta. rewrite Hc, He.
  by rewrite (proj2 (Z.eqb_eq offset (offset + 0))) by lia.
Qed.

(** ** The system's entry points *)

(** The caller's request lies in its buffer. *)
Record iob_ok (iob : iobuf) : Prop := {
  iob_range : in_range (io_mem iob) (io_base iob) (io_resid iob) = true;
  iob_offset : - 2 ^ 31 ≤ io_offset iob < 2 ^ 31;
  iob_resid : 0 ≤ io_resid iob < 2 ^ 31;
}.

(** [iob] after [m] bytes, with the buffer [mem]. *)
Definition advance (iob : iobuf) (mem : list Z) (m : Z) : iobuf :=
  mk_iobuf mem (io_base iob + m) (io_offset iob + m) (io_len iob) (io_resid iob - m).

Lemma sfs_io_step s n iob write ret m buf s1 s' sin :
  inodes s !! n = Some sin → SFSInodeRemoved sin = false →
  sfs_io_nolock n (io_mem iob) (io_base iob) (io_offset iob) (io_resid iob) write s = Ok ((ret, m, buf), s') →
  s1 = s' → 0 ≤ m ≤ io_resid iob → - 2 ^ 31 ≤ io_offset iob → io_offset iob + m < 2 ^ 31 →
  sfs_io n iob write s = Ok ((ret, advance iob buf m), s1).
Proof.
  intros Hn Hrem E -> Hm Ho1 Ho2. unfold sfs_io.
  rewrite (bind_ok (trylock_sin n) _ s 0 s).
  2: { unfold trylock_sin. rewrite (bind_ok _ _ _ _ _ (get_sin_ok _ _ _ Hn)). by rewrite Hrem. }
  cbn [negb Z.eqb]. rewrite (bind_ok _ _ _ _ _ E). cbv zeta. destruct iob as [mem base off ln res]; simpl in *.
  destruct (Z.eqb_spec m 0) as [->|Hne]; cbn [negb].
  - unfold advance. simpl. by rewrite !Z.add_0_r, Z.sub_0_r.
  - unfold with_iob, iobuf_skip, mbind, M_bind. simpl. unfold assert. rewrite (proj2 (Z.leb_le m res)) by lia. simpl.
    unfold advance. simpl. rewrite s32_id by lia. done.
Qed.

(** A write that starts more than one block past the end of the file is a
    kernel panic: [sfs_bmap_load_nolock] asserts [index <= din->blocks].
    [sfs_tryseek] keeps a single descriptor from getting there, but a second
    one that truncates the file after the seek takes the first one there. *)
Lemma sfs_write_past_end_panics s F n sin T iob :
  reg_ok s F n sin T → iob_ok iob → SFSInodeRemoved sin = false →
  0 ≤ io_offset iob < SFS_MAX_FILE_SIZE → 0 < io_resid iob → io_offset iob + io_resid iob < 2 ^ 31 →
  din_blocks (din sin) < io_offset iob / BS →
  sfs_write n iob s = Err Panic.
Proof.
  intros Hr [Hrange Ho Hres] Hrem Hof Hpos Hend Hbl. assert (SFS_MAX_FILE_SIZE = 32768 * BS) as HM by done.
  pose proof (fa_node _ _ _ _ _ (fo_at _ _ _ _ _ (rg_file _ _ _ _ _ Hr))) as Hn.
  set (off := io_offset iob) in *. set (res := io_resid iob) in *.
  assert (∀ i (m : list Z) op, din_blocks (din sin) < i → io_part n i m op s = Err Panic) as Hpart.
  { intros i m op Hi. unfold io_part. apply bind_err. unfold sfs_bmap_load_nolock.
    rewrite (bind_ok _ _ _ _ _ (get_din_ok _ _ _ Hn)). apply bind_err. unfold assert. by rewrite (proj2 (Z.leb_gt i _)). }
  destruct (proj2 (endpos_ok off res ltac:(lia) ltac:(lia))) as (_ & He & Hc); [unfold io_invalid; lia|].
  unfold sfs_write, sfs_io. rewrite (bind_ok (trylock_sin n) _ s 0 s).
  2: { unfold trylock_sin. rewrite (bind_ok _ _ _ _ _ (get_sin_ok _ _ _ Hn)). by rewrite Hrem. }
  cbn [negb Z.eqb]. apply bind_err. unfold sfs_io_nolock. rewrite (bind_ok _ _ _ _ _ (get_din_ok _ _ _ Hn)).
  rewrite (proj2 (Z.eqb_neq (din_type (din sin)) SFS_TYPE_DIR)) by apply Hr. rewrite (bind_ok _ _ _ _ _ eq_refl). cbv zeta.
  fold off res. rewrite Hc, He, (proj2 (Z.eqb_neq off (off + res))) by lia. cbn [negb andb].
  set (endpos := if SFS_MAX_FILE_SIZE <? off + res then SFS_MAX_FILE_SIZE else off + res).
  assert (off < endpos) as Hep by (unfold endpos; destruct (Z.ltb_spec SFS_MAX_FILE_SIZE (off + res)); lia).
  apply bind_err. unfold io_transfer. change SFS_BLKSIZE with BS. cbv zeta.
  pose proof (Z.div_mod off BS ltac:(lia)) as Hdm. pose proof (Z.mod_pos_bound off BS ltac:(lia)) as Hmod.
  pose proof (Z.div_mod endpos BS ltac:(lia)) as Hdme. pose proof (Z.mod_pos_bound endpos BS ltac:(lia)) as Hmode.
  destruct (Z.eqb_spec (off mod BS) 0) as [Hz|Hnz]; cbn [negb]; [|by apply bind_err, Hpart].
  unfold io_rest. cbn [snd]. destruct (Z.to_nat (endpos / BS - off / BS)) as [|k] eqn:Ek.
  - rewrite (bind_ok _ _ s (0, (io_mem iob, io_base iob, 0, off / BS)) s).
    2: { apply loop_stop. unfold io_body. by rewrite (proj2 (Z.eqb_eq _ 0)) by lia. }
    cbn [negb Z.eqb]. rewrite (proj2 (Z.eqb_neq (endpos mod SFS_BLKSIZE) 0)) by (change SFS_BLKSIZE with BS; lia).
    cbn [negb]. by apply bind_err, Hpart.
  - apply bind_err. rewrite loop_step. unfold io_body. rewrite (proj2 (Z.eqb_neq _ 0)) by lia.
    by rewrite (bind_err _ _ _ _ (Hpart (off / BS) _ _ Hbl)).
Qed.
(** [sfs_write] of something where the first block can be found, and of nothing. *)
Lemma sfs_write_some s F n sin T iob :
  reg_ok s F n sin T → iob_ok iob → SFSInodeRemoved sin = false → ¬ io_invalid (io_offset iob) (io_resid iob) →
  io_offset iob / BS ≤ din_blocks (din sin) → 0 < io_resid iob →
  let want := Z.min (io_resid iob) (SFS_MAX_FILE_SIZE - io_offset iob) in
  ∃ ret m s' F' sin' T', sfs_write n iob s = Ok ((ret, advance iob (io_mem iob) m), s') ∧
    stored n s F sin T (io_mem iob) (io_base iob) (io_offset iob) m s' F' sin' T' ∧ 0 ≤ m ≤ want ∧
    (ret = 0 ∧ m = want ∨ ret = - E_NO_MEM ∧ m < want ∧ (size F' ≤ 1)%nat) ∧ in_range (io_mem iob) (io_base iob) m = true.
Proof.
  intros Hr [Hrange Ho Hres] Hrem Hok Hb Hpos want. pose proof (fa_node _ _ _ _ _ (fo_at _ _ _ _ _ (rg_file _ _ _ _ _ Hr))) as Hn.
  assert (SFS_MAX_FILE_SIZE = 2 ^ 27) as HM by done. unfold io_invalid in Hok.
  destruct (write_nolock_ok s F n sin T (io_mem iob) (io_base iob) (io_offset iob) (io_resid iob)) as
    (ret & m & s' & F' & sin' & T' & E & Hw & Hm & Hret); [done|lia|done|lia|done|done|].
  exists ret, m, s', F', sin', T'. split_and!; [|done|lia|lia|done|].
  - apply (sfs_io_step _ _ _ _ _ _ _ _ _ _ Hn Hrem E eq_refl); unfold want in *; lia.
  - apply in_range_spec in Hrange. apply in_range_spec. unfold want in *. lia.
Qed.

Lemma sfs_write_none s F n sin T iob :
  reg_ok s F n sin T → iob_ok iob → SFSInodeRemoved sin = false → ¬ io_invalid (io_offset iob) (io_resid iob) →
  io_resid iob = 0 → sfs_write n iob s = Ok ((0, iob), s).
Proof.
  intros Hr [Hrange Ho Hres] Hrem Hok Hz. pose proof (fa_node _ _ _ _ _ (fo_at _ _ _ _ _ (rg_file _ _ _ _ _ Hr))) as Hn.
  assert (SFS_MAX_FILE_SIZE = 2 ^ 27) as HM by done. pose proof Hok as Hok'. unfold io_invalid in Hok'.
  pose proof (write_nothing_ok s F n sin T (io_mem iob) (io_base iob) (io_offset iob) (io_resid iob) Hr ltac:(lia) Hok Hz) as E.
  unfold sfs_write. rewrite (sfs_io_step _ _ _ _ _ _ _ _ _ _ Hn Hrem E eq_refl) by lia.
  unfold advance. rewrite !Z.add_0_r, Z.sub_0_r. by destruct iob.
Qed.

(** C16.  Reading and writing a regular file.  The file system promises a
    sequence of bytes.  A removed inode is [-E_NOENT] and an offset or an end
    out of range [-E_INVAL], with nothing changed.  A read returns the bytes at
    the offset, as many as are asked for and are there, changes nothing outside
    the caller's buffer and advances the request.  A write at an offset not past
    the end replaces the bytes there and extends the file, up to the largest
    file size; it succeeds, or reports [-E_NO_MEM] for want of blocks with a
    first part written, as the request tells.  No block changes but those of
    the file and free ones, and every block stays either free or in one place of
    the file.

    A write past the end does nothing when it asks for nothing, and panics when
    its first block is neither one of the file's nor the next.  Otherwise the
    bytes land at the offset and the gap holds what the blocks held, zeros in a
    new block; if no block is found for the first byte, the call fails with
    [-E_NO_MEM] and the size becomes the offset all the same. *)
Theorem sfs_io_correct s F n sin T iob :
  reg_ok s F n sin T → iob_ok iob →
  let buf := io_mem iob in let pos := io_base iob in let offset := io_offset iob in let resid := io_resid iob in
  (SFSInodeRemoved sin = true → ∀ write, sfs_io n iob write s = Ok ((- E_NOENT, iob), s)) ∧
  (SFSInodeRemoved sin = false →
    (io_invalid offset resid → ∀ write, sfs_io n iob write s = Ok ((- E_INVAL, iob), s)) ∧
    (¬ io_invalid offset resid →
      (let m := Z.max 0 (Z.min resid (din_size (din sin) - offset)) in
       ∃ s', sfs_read n iob s = Ok ((0, advance iob (splice buf pos (slice (file_bytes s sin T) offset m)) m), s') ∧
         reg_ok s' F n sin T ∧ io_same s s' ∧ same_except (λ _, False) s s' ∧ file_bytes s' sin T = file_bytes s sin T) ∧
      let want := Z.min resid (SFS_MAX_FILE_SIZE - offset) in
      (offset ≤ din_size (din sin) →
       ∃ ret m s' F' sin' T', sfs_write n iob s = Ok ((ret, advance iob buf m), s') ∧
         wrote n s F sin T buf pos offset m s' F' sin' T' ∧ 0 ≤ m ≤ want ∧
         (ret = 0 ∧ m = want ∨ ret = - E_NO_MEM ∧ m < want ∧ (size F' ≤ 1)%nat)) ∧
      (din_size (din sin) < offset →
       if decide (resid = 0) then sfs_write n iob s = Ok ((0, iob), s)
       else if decide (din_blocks (din sin) < offset / BS) then sfs_write n iob s = Err Panic
       else ∃ ret m s' F' sin' T', sfs_write n iob s = Ok ((ret, advance iob buf m), s') ∧
         stored n s F sin T buf pos offset m s' F' sin' T' ∧ 0 ≤ m ≤ want ∧
         (ret = 0 ∧ m = want ∨ ret = - E_NO_MEM ∧ m < want ∧ (size F' ≤ 1)%nat) ∧
         (0 < m → reg_ok s' F' n sin' T' ∧
           file_bytes s' sin' T' = slice (ext (file_content s sin T) (cdiv (offset + m))) 0 offset ++ slice buf pos m)))).
Proof.
  intros Hr [Hrange Ho Hres] buf pos offset resid. pose proof (fa_node _ _ _ _ _ (fo_at _ _ _ _ _ (rg_file _ _ _ _ _ Hr))) as Hn.
  assert (SFS_MAX_FILE_SIZE = 2 ^ 27) as HM by done. split; [|intros Hrem; split].
  - intros Hrem write. unfold sfs_io. rewrite (bind_ok (trylock_sin n) _ s (- E_NOENT) s); [done|].
    unfold trylock_sin. rewrite (bind_ok _ _ _ _ _ (get_sin_ok _ _ _ Hn)). by rewrite Hrem.
  - intros Hbad write. pose proof (io_nolock_start s F n sin T buf pos offset resid write Hr Ho ltac:(unfold resid; lia) Hbad) as E.
    rewrite (sfs_io_step _ _ _ _ _ _ _ _ _ _ Hn Hrem E eq_refl) by (unfold resid, offset in *; lia).
    unfold advance, buf. rewrite !Z.add_0_r, Z.sub_0_r. by destruct iob.
  - intros Hok. split.
    + intros m. destruct (read_nolock_ok s F n sin T buf pos offset resid) as (s' & E & H'); [done|done|unfold resid; lia|done|done|].
      exists s'. split; [|done]. pose proof (rg_max _ _ _ _ _ Hr). unfold io_invalid in Hok.
      apply (sfs_io_step _ _ _ _ _ _ _ _ _ _ Hn Hrem E eq_refl); unfold m, resid, offset in *; lia.
    + intros want. pose proof Hok as Hok'. unfold io_invalid in Hok'.
      pose proof (sfs_write_some s F n sin T iob Hr (Build_iob_ok _ Hrange Ho Hres) Hrem Hok) as Hwr.
      pose proof (sfs_write_none s F n sin T iob Hr (Build_iob_ok _ Hrange Ho Hres) Hrem Hok) as Hnone.
      fold buf pos offset resid in Hwr, Hnone. cbv zeta in Hwr. fold want in Hwr.
      split.
      * intros Hle. destruct (decide (resid = 0)) as [Hz|Hz].
        -- exists 0, 0, s, F, sin, T. rewrite (Hnone Hz). split; [unfold advance, buf; rewrite !Z.add_0_r, Z.sub_0_r; by destruct iob|].
           split_and!; [apply wrote_nothing; [done|unfold offset in *; lia]|lia|unfold want; lia|left; unfold want; lia].
        -- destruct Hwr as (ret & m & s' & F' & sin' & T' & E & Hw & Hm & Hret & Hin).
           { pose proof (rg_size _ _ _ _ _ Hr). apply Z.div_le_upper_bound; lia. } { unfold resid in *. lia. }
           exists ret, m, s', F', sin', T'. split_and!; [exact E| |lia|lia|done].
           apply stored_wrote; [done|unfold offset in *; lia|lia|unfold want in *; lia|done|done].
      * intros Hgt. case_decide as Hz; [by apply Hnone|]. case_decide as Hb.
        -- apply (sfs_write_past_end_panics s F n sin T iob); [done|by constructor|done|unfold offset in *; lia..|done].
        -- destruct Hwr as (ret & m & s' & F' & sin' & T' & E & Hw & Hm & Hret & Hin); [lia|unfold resid in *; lia|].
           exists ret, m, s', F', sin', T'. split_and!; [exact E|exact Hw|lia|lia|done|]. intros H0.
           apply (stored_past n s F sin T); [done|done|done|unfold want in *; lia|done|done].
Qed.
End spec.
