(* ===== verification/SfsTrunc.v ===== *)
(** * Truncating and extending files

    [sfs_truncfile]: the loops that take blocks for a longer file and give
    back those of a shorter one, and what becomes of the bytes. *)

From S2P Require Import Prelude Bytes Mem DList Slab Bitmap Disk Sfs SfsVol SfsTree SfsMap SfsFile SfsIo SfsFileSpec.

Section trunc.
Context {D : Type} `{BlockDevice D, !BlockDeviceLaws D}.
Implicit Types (s : sfs_fs D) (b n : Z) (F : gset Z) (T : tree).

(** ** Growing *)

Lemma grow_loop n (k : nat) : ∀ s F sin T,
  file_ok s F n sin T → din_blocks (din sin) + Z.of_nat k < MAX_BLOCKS →
  let tblks := din_blocks (din sin) + Z.of_nat k in
  ∃ ret s' F' sin' T', loop (S k) (grow_body n tblks) (din_blocks (din sin)) s = Ok (ret, s') ∧
    progress n s F sin T s' F' sin' T' ∧ file_content s' sin' T' = ext (file_content s sin T) (din_blocks (din sin')) ∧
    din_blocks (din sin) ≤ din_blocks (din sin') ≤ tblks ∧
    (ret = 0 ∧ din_blocks (din sin') = tblks ∨ ret = - E_NO_MEM ∧ din_blocks (din sin') < tblks ∧ (size F' ≤ 1)%nat).
Proof.
  induction k as [|k IH]; intros s F sin T Hf Hlt tblks; pose proof (file_len _ _ _ _ _ Hf) as HC.
  { exists 0, s, F, sin, T. split; [|split; [by apply progress_refl|split; [by rewrite ext_id by lia|split; [lia|left; split; [done|lia]]]]].
    apply loop_stop. unfold grow_body. by rewrite (proj2 (Z.eqb_eq _ tblks)) by lia. }
  pose proof Hf as [Ha Hd Hb].
  destruct (bmap_load_new s F n sin T Ha Hd) as (res & s1 & E1 & Hx); [lia|].
  destruct (extended_progress _ _ _ _ _ _ _ Hf ltac:(lia) Hx) as (F1 & sin1 & T1 & Hp & Hcase).
  assert (grow_body n tblks (din_blocks (din sin)) s =
    Ok (if res.1 =? 0 then inl (din_blocks (din sin) + 1) else inr res.1, s1)) as Ebody.
  { unfold grow_body. rewrite (proj2 (Z.eqb_neq _ tblks)) by lia. rewrite (bind_ok _ _ _ _ _ E1). by destruct (res.1 =? 0). }
  destruct Hcase as [(-> & Hbl & Hsz & Hc)|(b & -> & Eb & Hbl & Hc)].
  - exists (- E_NO_MEM), s1, F1, sin1, T1. split; [by rewrite (loop_stop _ _ _ _ _ _ Ebody)|]. split_and!; [done| |lia|lia|].
    + rewrite Hc, ext_id; [done|lia].
    + right. split_and!; [done|lia|done].
  - rewrite (loop_next _ _ _ _ _ _ Ebody). pose proof (pg_file _ _ _ _ _ _ _ _ _ Hp) as Hf1.
    destruct (IH s1 F1 sin1 T1 Hf1) as (ret & s2 & F2 & sin2 & T2 & E2 & Hp2 & Hc2 & Hb2 & Hret); [lia|].
    rewrite Hbl in *. replace (din_blocks (din sin) + 1 + Z.of_nat k) with tblks in * by lia.
    exists ret, s2, F2, sin2, T2. split; [exact E2|]. split_and!; [by eapply progress_trans| |lia|lia|done].
    rewrite Hc2, Hc, ext_ext. f_equal. lia.
Qed.

(** ** Shrinking *)

(** The file after its last blocks were given back. *)
Record receded n s F (sin : sfs_inode) T s' F' (sin' : sfs_inode) T' : Prop := {
  rc_file : file_ok s' F' n sin' T';
  rc_node : node_same n s s';
  rc_sin : sin_same sin sin';
  rc_size : din_size (din sin') = din_size (din sin);
  rc_tree : T' ⊆ T;
  rc_meta r : (∀ i, r ≠ Data i) → T' !! r = T !! r;
  rc_all x : x ∈ F ∨ in_tree T x ↔ x ∈ F' ∨ in_tree T' x;
  rc_same : same_except (in_tree T) s s';
  rc_content : file_content s' sin' T' = slice (file_content s sin T) 0 (din_blocks (din sin') * BS);
}.

Lemma content_prefix s T nb nb' : 0 ≤ nb ≤ nb' → blocks_full s T nb' → slice (content s T nb') 0 (nb * BS) = content s T nb.
Proof.
  intros Hnb Hf. assert (0 ≤ nb') as Hnb' by lia. revert nb' Hnb' Hnb Hf.
  apply (natlike_ind (λ nb', 0 ≤ nb ≤ nb' → blocks_full s T nb' → slice (content s T nb') 0 (nb * BS) = content s T nb)).
  { intros Hx _. by replace nb with 0 by lia. }
  intros nb' Hnb' IH Hnb Hf. rewrite <-Z.add_1_r in *. assert (blocks_full s T nb') as Hf' by (intros ??; apply Hf; lia).
  destruct (decide (nb = nb' + 1)) as [->|Hne].
  - rewrite <-(content_len s T (nb' + 1)) by (done || lia). apply slice_all.
  - rewrite content_succ by done. rewrite <-IH by (done || lia). unfold slice. rewrite !drop_0. apply take_app_le.
    pose proof (content_len s T nb' Hnb' Hf'). lia.
Qed.

Lemma receded_refl n s F sin T : file_ok s F n sin T → receded n s F sin T s F sin T.
Proof.
  intros Hf. constructor; [done..|apply same_except_refl|]. rewrite <-(file_len s F n sin T) by done. by rewrite slice_all.
Qed.

Lemma receded_trans n s1 F1 sin1 T1 s2 F2 sin2 T2 s3 F3 sin3 T3 :
  receded n s1 F1 sin1 T1 s2 F2 sin2 T2 → receded n s2 F2 sin2 T2 s3 F3 sin3 T3 →
  din_blocks (din sin3) ≤ din_blocks (din sin2) → receded n s1 F1 sin1 T1 s3 F3 sin3 T3.
Proof.
  intros [] [] Hle. constructor; [done|by etrans|by etrans|congruence|by etrans|intros r Hr; by rewrite rc_meta1, rc_meta0|intros x; by rewrite rc_all0, rc_all1| |].
  - intros x Hx Hnt. rewrite rc_same1, rc_same0; [done|done|done|by rewrite (node_blocks _ _ _ rc_node0)|].
    intros [r Er]. apply Hnt. exists r. by apply (lookup_weaken T2).
  - rewrite rc_content1, rc_content0. pose proof (fo_blocks _ _ _ _ _ rc_file1). apply slice_slice; lia.
Qed.

Lemma truncate_receded s F n sin T :
  file_ok s F n sin T → 0 < din_blocks (din sin) →
  ∃ s' F' sin' T', sfs_bmap_truncate_nolock n s = Ok (0, s') ∧ receded n s F sin T s' F' sin' T' ∧
    din_blocks (din sin') = din_blocks (din sin) - 1.
Proof.
  intros Hf Hpos. pose proof Hf as [Ha Hd Hb].
  destruct (bmap_truncate_ok s F n sin T Ha Hd Hpos) as (b & s' & sin' & E & Eb & Hsh & Hbl & Hd' & Hdirty).
  set (i := din_blocks (din sin) - 1) in *.
  pose proof (t_inj _ _ _ (fa_tree _ _ _ _ _ Ha)) as Hinj.
  assert (file_ok s' ({[b]} ∪ F) n sin' (delete (Data i) T)) as Hf'.
  { constructor; [by apply (sh_file _ _ _ _ _ _ _ _ _ Hsh)|by rewrite Hbl|rewrite Hbl; lia]. }
  exists s', ({[b]} ∪ F), sin', (delete (Data i) T). split; [done|]. split; [|by rewrite Hbl].
  destruct Hsh. constructor; try done.
  - apply delete_subseteq.
  - intros r Hr. apply lookup_delete_ne. intros <-. by apply (Hr i).
  - intros x. rewrite (in_tree_delete _ _ b) by done. rewrite elem_of_union, elem_of_singleton.
    destruct (decide (x = b)) as [->|]; [|tauto]. split; [by left; left|]. intros _. right. by exists (Data i).
  - eapply same_except_weaken; [|done]. intros x. apply meta_in.
  - rewrite Hbl. unfold file_content. rewrite Hbl, (content_prefix s T i) by (lia || by apply (file_full s F n)).
    apply content_ext; [lia|]. intros k Hk. unfold data_blk. rewrite lookup_delete_ne by (intros [=]; lia).
    destruct (proj2 (Hd k) ltac:(lia)) as [c Ec]. rewrite Ec. cbn.
    destruct (fa_in _ _ _ _ _ Ha c) as [? _]; [by exists (Data k)|]. apply sh_same; [lia|].
    intros (r & Er & Hr). by apply (Hr k), (Hinj _ _ c).
Qed.

Lemma shrink_loop n (k : nat) : ∀ s F sin T,
  file_ok s F n sin T → Z.of_nat k ≤ din_blocks (din sin) →
  let tblks := din_blocks (din sin) - Z.of_nat k in
  ∃ s' F' sin' T', loop (S k) (shrink_body n tblks) (din_blocks (din sin)) s = Ok (0, s') ∧
    receded n s F sin T s' F' sin' T' ∧ din_blocks (din sin') = tblks.
Proof.
  induction k as [|k IH]; intros s F sin T Hf Hle tblks.
  { exists s, F, sin, T. split; [|split; [by apply receded_refl|lia]].
    apply loop_stop. unfold shrink_body. by rewrite (proj2 (Z.eqb_eq tblks _)) by lia. }
  destruct (truncate_receded s F n sin T Hf) as (s1 & F1 & sin1 & T1 & E1 & Hr1 & Hb1); [lia|].
  assert (shrink_body n tblks (din_blocks (din sin)) s = Ok (inl (din_blocks (din sin1)), s1)) as Ebody.
  { unfold shrink_body. rewrite (proj2 (Z.eqb_neq tblks _)) by lia. rewrite (bind_ok _ _ _ _ _ E1), Hb1. done. }
  rewrite (loop_next _ _ _ _ _ _ Ebody).
  destruct (IH s1 F1 sin1 T1) as (s2 & F2 & sin2 & T2 & E2 & Hr2 & Hb2); [by apply (rc_file _ _ _ _ _ _ _ _ _ Hr1)|lia|].
  replace (din_blocks (din sin1) - Z.of_nat k) with tblks in * by lia.
  exists s2, F2, sin2, T2. split; [exact E2|]. split; [|done]. eapply receded_trans; [done..|lia].
Qed.

(** ** [sfs_truncfile] *)

Lemma tblks_eq newlen : 0 ≤ newlen ≤ SFS_MAX_FILE_SIZE → ROUNDUP_DIV newlen SFS_BLKSIZE = cdiv newlen.
Proof.
  intros Hl. assert (SFS_MAX_FILE_SIZE = 2 ^ 27) as HM by done.
  unfold ROUNDUP_DIV, cdiv. change SFS_BLKSIZE with BS. rewrite u32_id by lia. f_equal. lia.
Qed.

Lemma cdiv_bounds newlen : 0 ≤ newlen ≤ SFS_MAX_FILE_SIZE → 0 ≤ cdiv newlen ∧ cdiv newlen * BS ≤ SFS_MAX_FILE_SIZE.
Proof. intros. assert (SFS_MAX_FILE_SIZE = 32768 * BS) as HM by done. pose proof (cdiv_spec newlen). lia. Qed.

(** Everything of [sfs_truncfile] up to the last assignments. *)
Lemma truncfile_start s F n sin T newlen :
  reg_ok s F n sin T → SFSInodeRemoved sin = false → 0 ≤ newlen ≤ SFS_MAX_FILE_SIZE → newlen ≠ din_size (din sin) →
  sfs_truncfile n newlen s =
  (ret ← (if din_blocks (din sin) <? cdiv newlen then
            loop (S (Z.to_nat (cdiv newlen - din_blocks (din sin)))) (grow_body n (cdiv newlen)) (din_blocks (din sin))
          else if cdiv newlen <? din_blocks (din sin) then
            loop (S (Z.to_nat (din_blocks (din sin) - cdiv newlen))) (shrink_body n (cdiv newlen)) (din_blocks (din sin))
          else mret 0);
   if negb (ret =? 0) then mret ret else
   d ← get_din n;
   _ ← assert (din_blocks d =? cdiv newlen);
   _ ← on_din n (λ d, d <| din_size := newlen |>);
   _ ← set_dirty n;
   mret 0) s.
Proof.
  intros Hr Hrem Hl Hne. pose proof (fa_node _ _ _ _ _ (fo_at _ _ _ _ _ (rg_file _ _ _ _ _ Hr))) as Hn.
  unfold sfs_truncfile. rewrite (proj2 (Z.ltb_ge newlen 0)), (proj2 (Z.ltb_ge SFS_MAX_FILE_SIZE newlen)) by lia. cbn [orb].
  rewrite (bind_ok _ _ _ _ _ (get_din_ok _ _ _ Hn)).
  rewrite (proj2 (Z.eqb_neq (din_type (din sin)) SFS_TYPE_DIR)) by apply Hr. rewrite (bind_ok _ _ _ _ _ eq_refl). cbv zeta.
  rewrite (proj2 (Z.eqb_neq (din_size (din sin)) newlen)) by congruence.
  rewrite (bind_ok (trylock_sin n) _ s 0 s).
  2: { unfold trylock_sin. rewrite (bind_ok _ _ _ _ _ (get_sin_ok _ _ _ Hn)). by rewrite Hrem. }
  cbn [negb Z.eqb]. rewrite (bind_ok _ _ _ _ _ (get_din_ok _ _ _ Hn)), tblks_eq by done. done.
Qed.

(** The last assignments: the new size. *)
Lemma truncfile_finish s F n sin T newlen :
  file_ok s F n sin T → din_blocks (din sin) = cdiv newlen → din_type (din sin) ≠ SFS_TYPE_DIR → 0 ≤ newlen ≤ SFS_MAX_FILE_SIZE →
  ∃ s' sin', (d ← get_din n;
     _ ← assert (din_blocks d =? cdiv newlen);
     _ ← on_din n (λ d, d <| din_size := newlen |>);
     _ ← set_dirty n;
     mret 0) s = Ok (0, s') ∧ reg_ok s' F n sin' T ∧ node_same n s s' ∧ sin_same sin sin' ∧ (∀ x, blk s' x = blk s x) ∧
    din_size (din sin') = newlen ∧ din_blocks (din sin') = cdiv newlen ∧
    file_bytes s' sin' T = slice (file_content s sin T) 0 newlen ∧ dirty sin' = true.
Proof.
  intros Hf Hb Hty Hl. pose proof (fa_node _ _ _ _ _ (fo_at _ _ _ _ _ Hf)) as Hn. pose proof (cdiv_spec newlen).
  pose proof (cdiv_bounds newlen Hl) as [? ?].
  set (sin' := sin <| din := din sin <| din_size := newlen |> |> <| dirty := true |>). exists (set_sin s n sin'), sin'.
  split.
  { rewrite (bind_ok _ _ _ _ _ (get_din_ok _ _ _ Hn)), Hb, Z.eqb_refl, (bind_ok _ _ _ _ _ eq_refl).
    by rewrite bind_assoc, (bind_ok _ _ _ _ _ (dirty_din_ok _ _ _ _ Hn)). }
  destruct Hf as [Hat Hd Hbl]. split_and!; [|apply node_same_set|by constructor|done|done|done| |done].
  - constructor; [|done|simpl; lia|simpl; lia|simpl; lia]. constructor; [|done|done].
    apply (file_set_sin s F n sin); [done|]. by apply (tree_din_ext _ (din sin)); [apply (fa_tree _ _ _ _ _ Hat)|..].
  - unfold file_bytes, file_content. by rewrite (content_blk s).
Qed.

(** What a change of length does: [C] is the content before. *)
Record resized n s F (sin : sfs_inode) T s' F' (sin' : sfs_inode) T' : Prop := {
  rz_file : reg_ok s' F' n sin' T';
  rz_node : node_same n s s';
  rz_sin : sin_same sin sin';
  rz_all x : x ∈ F ∨ in_tree T x ↔ x ∈ F' ∨ in_tree T' x;
  rz_same : same_except (λ x, x ∈ F ∨ in_tree T x) s s';
}.

(** The blocks given back are those of the data past the end; the others, of the
    index too, stay. *)
Definition given_back F T F' T' (nb : Z) : Prop :=
  (∀ x, x ∈ F' ↔ x ∈ F ∨ ∃ i, nb ≤ i ∧ T !! Data i = Some x) ∧
  (∀ r, T' !! r = match r with Data i => if decide (nb ≤ i) then None else T !! r | _ => T !! r end).

Lemma receded_given_back n s F sin T s' F' sin' T' :
  file_ok s F n sin T → receded n s F sin T s' F' sin' T' → given_back F T F' T' (din_blocks (din sin')).
Proof.
  intros Hf Hrc. pose proof (rc_file _ _ _ _ _ _ _ _ _ Hrc) as Hf'. destruct Hrc as [_ _ _ _ Ht Hmeta Hall _ _].
  pose proof (fo_data _ _ _ _ _ Hf') as Hd'. pose proof (t_inj _ _ _ (fa_tree _ _ _ _ _ (fo_at _ _ _ _ _ Hf))) as Hinj.
  assert (∀ x, x ∈ F' → ¬ in_tree T' x) as Hdis.
  { intros x Hx Hin. by apply (fa_in _ _ _ _ _ (fo_at _ _ _ _ _ Hf')) in Hin as [_ ?]. }
  assert (∀ x, x ∈ F → ¬ in_tree T x) as HdisT.
  { intros x Hx Hin. by apply (fa_in _ _ _ _ _ (fo_at _ _ _ _ _ Hf)) in Hin as [_ ?]. }
  assert (∀ i, T' !! Data i = if decide (din_blocks (din sin') ≤ i) then None else T !! Data i) as Hdata.
  { intros i. pose proof (Hd' i) as Hi. case_decide as Hc.
    - apply eq_None_not_Some. intros Hs. apply Hi in Hs. lia.
    - destruct (T' !! Data i) as [b|] eqn:E; [by rewrite (lookup_weaken _ T _ _ E)|]. destruct (T !! Data i) as [b|] eqn:E2; [|done].
      exfalso. destruct (proj1 (fo_data _ _ _ _ _ Hf i) ltac:(by eexists)) as [H0 _]. destruct (proj2 Hi ltac:(lia)) as [? ?]. done. }
  split.
  - intros x. split.
    + intros Hx. destruct (proj2 (Hall x) (or_introl Hx)) as [?|[r Er]]; [by left|right].
      assert (T' !! r = None) as Hn by (destruct (T' !! r) as [b|] eqn:E; [|done]; pose proof (lookup_weaken _ T _ _ E Ht); exfalso; apply (Hdis x Hx); exists r; congruence).
      destruct r as [i| | |k]; try (rewrite Hmeta in Hn by done; congruence). exists i. split; [|done].
      rewrite Hdata in Hn. case_decide; [done|congruence].
    + intros [Hx|(i & Hi & Ei)].
      * destruct (proj1 (Hall x) (or_introl Hx)) as [?|[r Er]]; [done|]. exfalso. apply (HdisT x Hx). exists r. by apply (lookup_weaken T').
      * destruct (proj1 (Hall x)) as [?|[r Er]]; [right; by exists (Data i)|done|]. exfalso.
        rewrite (Hinj r (Data i) x) in Er by (done || by apply (lookup_weaken T')). rewrite Hdata, decide_True in Er by done. done.
  - intros [i| | |k]; [apply Hdata|by apply Hmeta..].
Qed.

Lemma receded_resized n s F sin T s1 F1 sin1 T1 newlen :
  receded n s F sin T s1 F1 sin1 T1 → din_blocks (din sin1) = cdiv newlen → din_type (din sin) ≠ SFS_TYPE_DIR →
  0 ≤ newlen ≤ SFS_MAX_FILE_SIZE → cdiv newlen ≤ din_blocks (din sin) → file_ok s F n sin T →
  ∃ s' sin', (d ← get_din n;
     _ ← assert (din_blocks d =? cdiv newlen);
     _ ← on_din n (λ d, d <| din_size := newlen |>);
     _ ← set_dirty n;
     mret 0) s1 = Ok (0, s') ∧ resized n s F sin T s' F1 sin' T1 ∧ given_back F T F1 T1 (cdiv newlen) ∧
    din_size (din sin') = newlen ∧ din_blocks (din sin') = cdiv newlen ∧
    file_bytes s' sin' T1 = slice (ext (file_content s sin T) (cdiv newlen)) 0 newlen.
Proof.
  intros Hrc Hb Hty Hl Hle Hf. pose proof (rc_file _ _ _ _ _ _ _ _ _ Hrc) as Hf1.
  destruct (truncfile_finish s1 F1 n sin1 T1 newlen) as (s' & sin' & E & Hr & Hn & Hs & Hblk & Hsz & Hb' & Hby & _);
    [done|done|by rewrite (ss_type _ _ (rc_sin _ _ _ _ _ _ _ _ _ Hrc))|done|].
  pose proof (file_len _ _ _ _ _ Hf) as HC. pose proof (cdiv_spec newlen).
  exists s', sin'. pose proof (receded_given_back _ _ _ _ _ _ _ _ _ Hf Hrc) as Hgb. rewrite Hb in Hgb. destruct Hrc. split_and!; [done| |done|done|done|].
  - constructor; [done|by etrans|by etrans|done|].
    intros x Hx Hnt. rewrite Hblk. apply rc_same0; [done|]. intros ?. apply Hnt. by right.
  - rewrite Hby, rc_content0, Hb. rewrite slice_slice by lia. rewrite ext_id by lia. done.
Qed.

Lemma progress_resized n s F sin T s1 F1 sin1 T1 newlen :
  progress n s F sin T s1 F1 sin1 T1 → din_blocks (din sin1) = cdiv newlen → din_type (din sin) ≠ SFS_TYPE_DIR →
  0 ≤ newlen ≤ SFS_MAX_FILE_SIZE → file_content s1 sin1 T1 = ext (file_content s sin T) (din_blocks (din sin1)) →
  ∃ s' sin', (d ← get_din n;
     _ ← assert (din_blocks d =? cdiv newlen);
     _ ← on_din n (λ d, d <| din_size := newlen |>);
     _ ← set_dirty n;
     mret 0) s1 = Ok (0, s') ∧ resized n s F sin T s' F1 sin' T1 ∧ moved F T F1 T1 ∧
    din_size (din sin') = newlen ∧ din_blocks (din sin') = cdiv newlen ∧
    file_bytes s' sin' T1 = slice (ext (file_content s sin T) (cdiv newlen)) 0 newlen.
Proof.
  intros Hp Hb Hty Hl Hc. pose proof (pg_file _ _ _ _ _ _ _ _ _ Hp) as Hf1.
  destruct (truncfile_finish s1 F1 n sin1 T1 newlen) as (s' & sin' & E & Hr & Hn & Hs & Hblk & Hsz & Hb' & Hby & _);
    [done|done|by rewrite (ss_type _ _ (pg_sin _ _ _ _ _ _ _ _ _ Hp))|done|].
  exists s', sin'. destruct Hp as [_ Hn1 Hs1 _ Hmv Hsame]. split_and!; [done| |done|done|done|by rewrite Hby, Hc, Hb].
  constructor; [done|by etrans|by etrans|apply (mv_all _ _ _ _ Hmv)|].
  intros x Hx Hnt. rewrite Hblk. by apply Hsame.
Qed.

(** Asking for the length that the file has is a test of its block count. *)
Lemma truncfile_same s F n sin T :
  reg_ok s F n sin T →
  sfs_truncfile n (din_size (din sin)) s = if din_blocks (din sin) =? cdiv (din_size (din sin)) then Ok (0, s) else Err Panic.
Proof.
  intros Hr. pose proof (fa_node _ _ _ _ _ (fo_at _ _ _ _ _ (rg_file _ _ _ _ _ Hr))) as Hn.
  pose proof (rg_size _ _ _ _ _ Hr). pose proof (rg_max _ _ _ _ _ Hr). unfold sfs_truncfile.
  rewrite (proj2 (Z.ltb_ge (din_size (din sin)) 0)), (proj2 (Z.ltb_ge SFS_MAX_FILE_SIZE (din_size (din sin)))) by lia. cbn [orb].
  rewrite (bind_ok _ _ _ _ _ (get_din_ok _ _ _ Hn)).
  rewrite (proj2 (Z.eqb_neq (din_type (din sin)) SFS_TYPE_DIR)) by apply Hr. rewrite (bind_ok _ _ _ _ _ eq_refl). cbv zeta.
  rewrite Z.eqb_refl, tblks_eq, Z.eqb_sym by lia. by destruct (_ =? _).
Qed.

Lemma truncfile_shrink s F n sin T newlen :
  reg_ok s F n sin T → SFSInodeRemoved sin = false → 0 ≤ newlen ≤ SFS_MAX_FILE_SIZE → newlen ≠ din_size (din sin) →
  cdiv newlen ≤ din_blocks (din sin) →
  ∃ s' F' sin' T', sfs_truncfile n newlen s = Ok (0, s') ∧ resized n s F sin T s' F' sin' T' ∧ given_back F T F' T' (cdiv newlen) ∧
    din_size (din sin') = newlen ∧ din_blocks (din sin') = cdiv newlen ∧
    file_bytes s' sin' T' = slice (ext (file_content s sin T) (cdiv newlen)) 0 newlen.
Proof.
  intros Hr Hrem Hl Hne Hle. rewrite (truncfile_start s F n sin T) by done. rewrite (proj2 (Z.ltb_ge _ (cdiv newlen))) by done.
  pose proof (rg_file _ _ _ _ _ Hr) as Hf. pose proof (rg_type _ _ _ _ _ Hr) as Hty. pose proof (cdiv_bounds newlen Hl) as [? _].
  assert (∃ s1 F1 sin1 T1, (if cdiv newlen <? din_blocks (din sin) then
      loop (S (Z.to_nat (din_blocks (din sin) - cdiv newlen))) (shrink_body n (cdiv newlen)) (din_blocks (din sin))
      else mret 0) s = Ok (0, s1) ∧ receded n s F sin T s1 F1 sin1 T1 ∧ din_blocks (din sin1) = cdiv newlen)
    as (s1 & F1 & sin1 & T1 & E1 & Hrc & Hb1).
  { destruct (Z.ltb_spec (cdiv newlen) (din_blocks (din sin))).
    - destruct (shrink_loop n (Z.to_nat (din_blocks (din sin) - cdiv newlen)) s F sin T Hf) as (s1 & F1 & sin1 & T1 & E1 & Hx1 & Hx2); [lia|].
      rewrite Z2Nat.id in * by lia. replace (din_blocks (din sin) - (din_blocks (din sin) - cdiv newlen)) with (cdiv newlen) in * by lia.
      by exists s1, F1, sin1, T1.
    - exists s, F, sin, T. split; [done|]. split; [by apply receded_refl|lia]. }
  rewrite (bind_ok _ _ _ _ _ E1). cbn [negb Z.eqb].
  destruct (receded_resized n s F sin T s1 F1 sin1 T1 newlen) as (s' & sin' & E & Hx); [done..|].
  by exists s', F1, sin', T1.
Qed.

Lemma truncfile_grow s F n sin T newlen :
  reg_ok s F n sin T → SFSInodeRemoved sin = false → 0 ≤ newlen ≤ SFS_MAX_FILE_SIZE → newlen ≠ din_size (din sin) →
  din_blocks (din sin) < cdiv newlen →
  ∃ ret s' F' sin' T', sfs_truncfile n newlen s = Ok (ret, s') ∧ resized n s F sin T s' F' sin' T' ∧ moved F T F' T' ∧
    ((ret = 0 ∧ din_size (din sin') = newlen ∧ din_blocks (din sin') = cdiv newlen ∧
      file_bytes s' sin' T' = slice (ext (file_content s sin T) (cdiv newlen)) 0 newlen) ∨
     (ret = - E_NO_MEM ∧ (size F' ≤ 1)%nat ∧ din_size (din sin') = din_size (din sin) ∧
      din_blocks (din sin) ≤ din_blocks (din sin') < cdiv newlen ∧ file_bytes s' sin' T' = file_bytes s sin T)).
Proof.
  intros Hr Hrem Hl Hne Hlt. rewrite (truncfile_start s F n sin T) by done. rewrite (proj2 (Z.ltb_lt _ (cdiv newlen))) by done.
  pose proof (rg_file _ _ _ _ _ Hr) as Hf. pose proof (rg_type _ _ _ _ _ Hr) as Hty. pose proof (cdiv_bounds newlen Hl) as [? Hmax].
  assert (SFS_MAX_FILE_SIZE = 32768 * BS) as HM by done.
  destruct (grow_loop n (Z.to_nat (cdiv newlen - din_blocks (din sin))) s F sin T Hf) as (ret & s1 & F1 & sin1 & T1 & E1 & Hp & Hc & Hb & Hret);
    [rewrite Z2Nat.id by lia; unfold MAX_BLOCKS; lia|].
  rewrite Z2Nat.id in * by lia. replace (din_blocks (din sin) + (cdiv newlen - din_blocks (din sin))) with (cdiv newlen) in * by lia.
  rewrite (bind_ok _ _ _ _ _ E1). destruct Hret as [[-> Hb1]|(-> & Hb1 & Hsz)].
  - cbn [negb Z.eqb].
    destruct (progress_resized n s F sin T s1 F1 sin1 T1 newlen) as (s' & sin' & E & Hx & Hm & Hs' & Hb' & Hby); [done..|].
    exists 0, s', F1, sin', T1. split; [done|]. split; [done|]. split; [done|]. by left.
  - exists (- E_NO_MEM), s1, F1, sin1, T1. split; [done|]. pose proof (rg_size _ _ _ _ _ Hr) as Hs. pose proof (file_len _ _ _ _ _ Hf) as HC.
    destruct Hp as [Hf1 Hn1 Hs1 Hz1 Hmv Hsame]. split; [|split; [done|]].
    + constructor; [|done|done|apply (mv_all _ _ _ _ Hmv)|done].
      constructor; [done|by rewrite (ss_type _ _ Hs1)|rewrite Hz1; lia|rewrite Hz1; apply Hr|lia].
    + right. split_and!; [done|done|done|lia|lia|]. unfold file_bytes. rewrite Hc, Hz1. unfold slice, ext. rewrite !drop_0.
      apply take_app_le. lia.
Qed.

(** C17.  Changing the length of a file.  A length out of range is [-E_INVAL]
    and changes nothing; a removed inode is [-E_NOENT].  Asking for the present
    length changes nothing, but panics when the file has more or fewer blocks
    than its size needs.  Otherwise the data blocks become as many as the new
    length needs: the bytes that remain are those of the file, followed by what
    was in its last block and then by zeros.  A shorter file gives back exactly
    its data blocks past the new end, and keeps its index blocks; a longer one
    keeps its blocks and takes free ones.  No block is lost, and none outside of
    the file and of the free ones is touched.  The request fails only for want
    of blocks, with [-E_NO_MEM]; then size and bytes are as before, but the
    blocks already taken stay with the file. *)
Theorem sfs_truncfile_correct s F n sin T newlen :
  reg_ok s F n sin T →
  (newlen < 0 ∨ SFS_MAX_FILE_SIZE < newlen → sfs_truncfile n newlen s = Ok (- E_INVAL, s)) ∧
  (newlen = din_size (din sin) →
    sfs_truncfile n newlen s = if din_blocks (din sin) =? cdiv newlen then Ok (0, s) else Err Panic) ∧
  (0 ≤ newlen ≤ SFS_MAX_FILE_SIZE → newlen ≠ din_size (din sin) →
    (SFSInodeRemoved sin = true → sfs_truncfile n newlen s = Ok (- E_NOENT, s)) ∧
    (SFSInodeRemoved sin = false →
      ∃ ret s' F' sin' T', sfs_truncfile n newlen s = Ok (ret, s') ∧ resized n s F sin T s' F' sin' T' ∧
        ((ret = 0 ∧ din_size (din sin') = newlen ∧ din_blocks (din sin') = cdiv newlen ∧
          file_bytes s' sin' T' = slice (ext (file_content s sin T) (cdiv newlen)) 0 newlen ∧
          if decide (cdiv newlen ≤ din_blocks (din sin)) then given_back F T F' T' (cdiv newlen) else moved F T F' T') ∨
         (ret = - E_NO_MEM ∧ (size F' ≤ 1)%nat ∧ din_blocks (din sin) < cdiv newlen ∧ moved F T F' T' ∧
          din_size (din sin') = din_size (din sin) ∧ din_blocks (din sin) ≤ din_blocks (din sin') < cdiv newlen ∧
          file_bytes s' sin' T' = file_bytes s sin T)))).
Proof.
  intros Hr. pose proof (fa_node _ _ _ _ _ (fo_at _ _ _ _ _ (rg_file _ _ _ _ _ Hr))) as Hn. split_and!.
  - intros Hbad. unfold sfs_truncfile. destruct Hbad as [Hb|Hb].
    + by rewrite (proj2 (Z.ltb_lt newlen 0)).
    + rewrite (proj2 (Z.ltb_lt SFS_MAX_FILE_SIZE newlen)) by done. by rewrite orb_true_r.
  - intros ->. by apply (truncfile_same s F n sin T).
  - intros Hl Hne. split; intros Hrem.
    + unfold sfs_truncfile. rewrite (proj2 (Z.ltb_ge newlen 0)), (proj2 (Z.ltb_ge SFS_MAX_FILE_SIZE newlen)) by lia. cbn [orb].
      rewrite (bind_ok _ _ _ _ _ (get_din_ok _ _ _ Hn)), (proj2 (Z.eqb_neq (din_type (din sin)) SFS_TYPE_DIR)) by apply Hr.
      rewrite (bind_ok _ _ _ _ _ eq_refl). cbv zeta. rewrite (proj2 (Z.eqb_neq (din_size (din sin)) newlen)) by congruence.
      rewrite (bind_ok (trylock_sin n) _ s (- E_NOENT) s); [done|].
      unfold trylock_sin. rewrite (bind_ok _ _ _ _ _ (get_sin_ok _ _ _ Hn)). by rewrite Hrem.
    + destruct (decide (cdiv newlen ≤ din_blocks (din sin))) as [Hle|Hgt].
      * destruct (truncfile_shrink s F n sin T newlen) as (s' & F' & sin' & T' & E & Hx & Hg & Hs & Hb & Hby); [done..|].
        exists 0, s', F', sin', T'. split; [done|]. split; [done|]. left. by split_and!.
      * destruct (truncfile_grow s F n sin T newlen) as (ret & s' & F' & sin' & T' & E & Hx & Hm & Hy); [done|done|done|done|lia|].
        exists ret, s', F', sin', T'. split_and!; [done|done|].
        destruct Hy as [(-> & Hs & Hb & Hby)|(-> & Hz & Hs & Hb & Hby)]; [left; by split_and!|right].
        split_and!; [done|done|lia|done|done|lia|lia|done].
Qed.

(** A file system that runs out of space while a file is extended leaves
    the file in a state that panics: [sfs_truncfile] keeps the blocks it has
    taken but not the size, so that the next request for the file's own
    length, as an [open] with [O_TRUNC] of an empty file makes it, fails the
    assertion [tblks == din->blocks]. *)
Theorem sfs_failed_extension_panics s F n sin T newlen s' sin' :
  reg_ok s F n sin T → SFSInodeRemoved sin = false → din_blocks (din sin) = cdiv (din_size (din sin)) →
  0 ≤ newlen ≤ SFS_MAX_FILE_SIZE → sfs_truncfile n newlen s = Ok (- E_NO_MEM, s') →
  inodes s' !! n = Some sin' → din_blocks (din sin') ≠ din_blocks (din sin) →
  sfs_truncfile n (din_size (din sin')) s' = Err Panic.
Proof.
  intros Hr Hrem Hb Hl E Hn' Hbne. destruct (decide (newlen = din_size (din sin))) as [->|Hne].
  { rewrite (truncfile_same s F n sin T Hr) in E. by destruct (_ =? _). }
  destruct (decide (cdiv newlen ≤ din_blocks (din sin))) as [Hle|Hgt].
  { destruct (truncfile_shrink s F n sin T newlen) as (s1 & F1 & sin1 & T1 & E1 & _); [done..|]. rewrite E1 in E. discriminate E. }
  destruct (truncfile_grow s F n sin T newlen) as (ret & s1 & F1 & sin1 & T1 & E1 & Hx & _ & Hy); [done|done|done|done|lia|].
  rewrite E1 in E. injection E as -> ->. destruct Hy as [[? _]|(_ & Hsz & Hs & Hbl & _)]; [done|].
  pose proof (rz_file _ _ _ _ _ _ _ _ _ Hx) as Hr1.
  assert (sin' = sin1) as ->.
  { pose proof (fa_node _ _ _ _ _ (fo_at _ _ _ _ _ (rg_file _ _ _ _ _ Hr1))) as Hn1. congruence. }
  rewrite (truncfile_same s' F1 n sin1 T1 Hr1). rewrite Hs, <-Hb. by rewrite (proj2 (Z.eqb_neq _ _)).
Qed.

(** [sfs_tryseek] extends a file that is too short, and checks the position. *)
Lemma tryseek_ok s F n sin T pos :
  reg_ok s F n sin T → in_ops sin = sfs_node_fileops →
  sfs_tryseek n pos s =
    if (pos <? 0) || (SFS_MAX_FILE_SIZE <=? pos) then Ok (- E_INVAL, s)
    else if din_size (din sin) <? pos then (_ ← inode_check n; sfs_truncfile n pos) s else Ok (0, s).
Proof.
  intros Hr Hops. pose proof (fa_node _ _ _ _ _ (fo_at _ _ _ _ _ (rg_file _ _ _ _ _ Hr))) as Hn.
  unfold sfs_tryseek. destruct (_ || _); [done|]. rewrite (bind_ok _ _ _ _ _ (get_din_ok _ _ _ Hn)).
  destruct (_ <? pos); [|done]. unfold vop_truncate.
  destruct (inode_check n s) as [[[] s1]|e] eqn:E; [|by rewrite !(bind_err _ _ _ _ E)].
  assert (s1 = s) as ->.
  { unfold inode_check in E. rewrite (bind_ok _ _ _ _ _ (get_sin_ok _ _ _ Hn)) in E. inv_bind.
    unfold assert in *. repeat destruct (_ && _); by simplify_eq. }
  rewrite !(bind_ok _ _ _ _ _ E), (bind_ok _ _ _ _ _ (get_sin_ok _ _ _ Hn)). by rewrite Hops.
Qed.
End trunc.
