(* ===== verification/SfsDir.v ===== *)
(** * Directories and the inode cache of the simple file system

    The rest of [fs/sfs/sfs_inode.c] and the reference counts of
    [fs/vfs/inode.c]: loading, creating and reclaiming inodes, and the entries
    of directories.

    A name is the list of its characters without the final null; [strcmp] on
    names is equality of lists, as [string_observers_correct] shows of the
    byte loops.  A [NULL] out parameter is a result that the caller ignores. *)

From S2P Require Import Prelude Bytes Mem DList Slab Bitmap Disk Sfs.

(** [sizeof(struct inode)]: the union, of which [struct sfs_inode] is the
    largest member, and five words. *)
Definition sizeof_inode : Z := 80.

(** The character ['/'] and the names ["."] and [".."]. *)
Definition SLASH : Z := 47.
Definition DOT : list Z := [46].
Definition DOTDOT : list Z := [46; 46].

Definition O_ACCMODE : Z := 3.
Definition O_RDONLY : Z := 0.
Definition O_APPEND : Z := 0x400.
Definition S_IFLNK : Z := 0xa000.
Definition S_IFREG : Z := 0x8000.
Definition S_IFDIR : Z := 0x4000.

Record stat : Type := mk_stat { st_mode : Z; st_nlinks : Z; st_blocks : Z; st_size : Z }.

Section sfs_dir.
Context {D : Type} `{BlockDevice D}.
Notation M := (M (sfs_fs D)).

(** ** [fs/vfs/inode.c] *)

Definition inode_ref_inc (n : Z) : M Z :=
  sin ← get_sin n;
  let c := s32 (ref_count sin + 1) in
  _ ← put_sin n (sin <| ref_count := c |>);
  mret c.

Definition inode_open_inc (n : Z) : M Z :=
  sin ← get_sin n;
  let c := s32 (open_count sin + 1) in
  _ ← put_sin n (sin <| open_count := c |>);
  mret c.

(** [inode_init]; [n] is the address that [alloc_inode] gave. *)
Definition inode_init (n : Z) (ops : inode_ops) : M unit :=
  _ ← on_sin n (λ sin, sin <| ref_count := 0 |> <| open_count := 0 |>);
  _ ← on_sin n (λ sin, sin <| in_ops := ops |>);
  _ ← inode_ref_inc n;
  mret tt.

Definition inode_kill (n : Z) : M unit :=
  sin ← get_sin n;
  _ ← assert (ref_count sin =? 0);
  _ ← assert (open_count sin =? 0);
  modify (λ s, s <| inodes := delete n (inodes s) |>).

(** ** The inode cache *)

Definition sfs_get_ops (type : Z) : M inode_ops :=
  if type =? SFS_TYPE_DIR then mret sfs_node_dirops
  else if type =? SFS_TYPE_FILE then mret sfs_node_fileops
  else fail Panic.

Definition sfs_hash_list (ino : Z) : flink := HashList (sin_hashfn ino).

Definition sfs_set_links (n : Z) : M unit :=
  _ ← on_field flinks (list_add InodeList (InodeLink n));
  sin ← get_sin n;
  on_field flinks (list_add (sfs_hash_list (ino sin)) (HashLink n)).

Definition sfs_remove_links (n : Z) : M unit :=
  _ ← on_field flinks (list_del (InodeLink n));
  on_field flinks (list_del (HashLink n)).

(** [alloc_inode]: a new address with a structure of unknown content. *)
Definition alloc_inode (d : sfs_disk_inode) : M (option Z) :=
  b ← alloc sizeof_inode;
  if b : bool then
    s ← get;
    let n := next_inode s in
    _ ← put (s <| next_inode := n + 1 |>);
    _ ← put_sin n (mk_sin d 0 0 false 0 sfs_node_fileops 0 0);
    mret (Some n)
  else mret None.

(** The error code and the inode. *)
Definition sfs_create_inode (d : sfs_disk_inode) (ino_ : Z) : M (Z * Z) :=
  p ← alloc_inode d;
  match p with
  | Some n =>
      ops ← sfs_get_ops (din_type d);
      _ ← inode_init n ops;
      _ ← on_sin n (λ sin, sin <| din := d |> <| ino := ino_ |> <| dirty := false |> <| flags := 0 |> <| reclaim_count := 1 |>);
      mret (0, n)
  | None => mret (- E_NO_MEM, 0)
  end.

(** [le2sin(le, hash_link)] and [le2sin(le, inode_link)] *)
Definition le2sin_hash (le : flink) : option Z := match le with HashLink n => Some n | _ => None end.
Definition le2sin_inode (le : flink) : option Z := match le with InodeLink n => Some n | _ => None end.

Definition lookup_nolock_body (ino_ : Z) (list le : flink) : M (flink + option Z) :=
  le ← on_field flinks (list_next le);
  if bool_decide (le = list) then mret (inr None) else
  n ← deref (λ _, le2sin_hash le);
  sin ← get_sin n;
  if ino sin =? ino_ then
    c ← inode_ref_inc n;
    _ ← when (c =? 1) (on_sin n (λ sin, sin <| reclaim_count := s32 (reclaim_count sin + 1) |>));
    mret (inr (Some n))
  else mret (inl le).
Definition lookup_sfs_nolock (ino_ : Z) : M (option Z) :=
  s ← get;
  let list := sfs_hash_list ino_ in
  loop (S (size (flinks s))) (lookup_nolock_body ino_ list) list.

Definition sfs_load_inode (ino_ : Z) : M (Z * Z) :=
  p ← lookup_sfs_nolock ino_;
  match p with
  | Some n => mret (0, n)
  | None =>
      b ← alloc sizeof_din;
      if negb b then mret (- E_NO_MEM, 0) else
      _ ← assert_inuse ino_;
      r ← sfs_rbuf sizeof_din ino_ 0;
      let '(ret, bs) := r in
      if negb (ret =? 0) then mret (ret, 0) else
      let d := din_of_bytes bs in
      _ ← assert (negb (din_nlinks d =? 0));
      r ← sfs_create_inode d ino_;
      if negb (r.1 =? 0) then mret (r.1, 0) else
      _ ← sfs_set_links r.2;
      mret (0, r.2)
  end.

Definition sfs_fsync (n : Z) : M Z :=
  sin ← get_sin n;
  if (din_nlinks (din sin) =? 0) || negb (dirty sin) then mret 0 else
  ret ← trylock_sin n;
  if negb (ret =? 0) then mret ret else
  sin ← get_sin n;
  if dirty sin then
    _ ← on_sin n (λ sin, sin <| dirty := false |>);
    ret ← sfs_wbuf (din_bytes (din sin)) (ino sin) 0;
    _ ← when (negb (ret =? 0)) (set_dirty n);
    mret ret
  else mret ret.

Definition vop_fsync (n : Z) : M Z := _ ← inode_check n; sfs_fsync n.

(** The blocks of an inode that has no name any more; failures are ignored. *)
Definition reclaim_data_body (n nblks : Z) : M (Z + unit) :=
  if nblks =? 0 then mret (inr tt) else
  _ ← sfs_bmap_truncate_nolock n; mret (inl (nblks - 1)).
Definition reclaim_sub_body (ent i : Z) : M (Z + unit) :=
  if i <? SFS_BLK_NENTRY then _ ← sfs_bmap_free_sub_nolock ent i; mret (inl (i + 1)) else mret (inr tt).

Definition sfs_reclaim (n : Z) : M Z :=
  sin ← get_sin n;
  _ ← assert (0 <? reclaim_count sin);
  _ ← on_sin n (λ sin, sin <| reclaim_count := reclaim_count sin - 1 |>);
  if negb (reclaim_count sin - 1 =? 0) then mret (- E_BUSY) else
  _ ← assert ((ref_count sin =? 0) && (open_count sin =? 0));
  ret ← (if din_nlinks (din sin) =? 0 then
           _ ← loop (S (Z.to_nat (din_blocks (din sin)))) (reclaim_data_body n) (din_blocks (din sin));
           mret 0
         else if dirty sin then vop_fsync n
         else mret 0);
  if negb (ret =? 0) then mret ret else
  _ ← sfs_remove_links n;
  sin ← get_sin n;
  _ ← when (din_nlinks (din sin) =? 0)
    (_ ← sfs_block_free (ino sin);
     let ent := indirect (din sin) in
     _ ← when (negb (ent =? 0)) (sfs_block_free ent);
     let ent := db_indirect (din sin) in
     when (negb (ent =? 0))
       (_ ← loop (S (Z.to_nat SFS_BLK_NENTRY)) (reclaim_sub_body ent) 0;
        sfs_block_free ent));
  _ ← inode_kill n;
  mret 0.

Definition inode_ref_dec (n : Z) : M Z :=
  sin ← get_sin n;
  _ ← assert (0 <? ref_count sin);
  let c := ref_count sin - 1 in
  _ ← on_sin n (λ sin, sin <| ref_count := c |>);
  _ ← when (c =? 0) (_ ← inode_check n; _ ← sfs_reclaim n; mret tt);
  mret c.

Definition sfs_close (n : Z) : M Z := vop_fsync n.

Definition inode_open_dec (n : Z) : M Z :=
  sin ← get_sin n;
  _ ← assert (0 <? open_count sin);
  let c := open_count sin - 1 in
  _ ← on_sin n (λ sin, sin <| open_count := c |>);
  _ ← when (c =? 0) (_ ← inode_check n; _ ← sfs_close n; mret tt);
  mret c.

Definition sfs_opendir (open_flags : Z) : M Z :=
  if negb (Z.land open_flags O_ACCMODE =? O_RDONLY) then mret (- E_ISDIR)
  else if negb (Z.land open_flags O_APPEND =? 0) then mret (- E_ISDIR) else mret 0.

Definition sfs_openfile (open_flags : Z) : M Z := mret 0.

Definition sfs_gettype (n : Z) : M (Z * Z) :=
  d ← get_din n;
  if din_type d =? SFS_TYPE_DIR then mret (0, S_IFDIR)
  else if din_type d =? SFS_TYPE_FILE then mret (0, S_IFREG)
  else if din_type d =? SFS_TYPE_LINK then mret (0, S_IFLNK)
  else fail Panic.

Definition sfs_fstat (n : Z) : M (Z * stat) :=
  _ ← inode_check n;
  r ← sfs_gettype n;
  if negb (r.1 =? 0) then mret (r.1, mk_stat 0 0 0 0) else
  d ← get_din n;
  let size := if negb (din_type d =? SFS_TYPE_DIR) then din_size d else u32 (u32 (din_size d + 2) * sfs_dentry_size) in
  mret (0, mk_stat r.2 (din_nlinks d) (din_blocks d) size).

(** ** Directory entries *)

(** The error code and the entry. *)
Definition sfs_dirent_read_nolock (n slot : Z) : M (Z * sfs_disk_entry) :=
  let none := mk_entry_ 0 [] in
  d ← get_din n;
  _ ← assert ((din_type d =? SFS_TYPE_DIR) && ((0 <=? slot) && (slot <? din_blocks d)));
  r ← sfs_bmap_load_nolock n slot;
  if negb (r.1 =? 0) then mret (r.1, none) else
  _ ← assert_inuse r.2;
  r ← sfs_rbuf sizeof_entry r.2 0;
  if negb (r.1 =? 0) then mret (r.1, none) else
  let e := entry_of_bytes r.2 in
  mret (0, mk_entry_ (de_ino e) (<[Z.to_nat SFS_MAX_FNAME_LEN := 0]> (de_name e))).

(** The entry that is written: all zeros for [ino = 0]. *)
Definition new_entry (ino_ : Z) (name : list Z) : sfs_disk_entry :=
  let zero := replicate (Z.to_nat sfs_dentry_size) 0 in
  if ino_ =? 0 then mk_entry_ 0 zero else mk_entry_ ino_ (splice zero 0 (name ++ [0])).

Definition sfs_dirent_write_nolock (n slot ino_ : Z) (name : list Z) : M Z :=
  d ← get_din n;
  _ ← assert ((din_type d =? SFS_TYPE_DIR) && ((0 <=? slot) && (slot <=? din_blocks d)));
  b ← alloc sizeof_entry;
  if negb b then mret (- E_NO_MEM) else
  _ ← when (negb (ino_ =? 0)) (assert (len name <=? SFS_MAX_FNAME_LEN));
  let entry := new_entry ino_ name in
  r ← sfs_bmap_load_nolock n slot;
  if negb (r.1 =? 0) then mret r.1 else
  _ ← assert_inuse r.2;
  sfs_wbuf (entry_bytes entry) r.2 0.

Definition sfs_nlinks_inc_nolock (n : Z) : M unit :=
  _ ← set_dirty n; on_din n (λ d, d <| din_nlinks := u16 (din_nlinks d + 1) |>).
Definition sfs_nlinks_dec_nolock (n : Z) : M unit :=
  d ← get_din n;
  _ ← assert (negb (din_nlinks d =? 0));
  _ ← set_dirty n; on_din n (λ d, d <| din_nlinks := din_nlinks d - 1 |>).
Definition sfs_dirinfo_set_parent (n parent : Z) : M unit :=
  _ ← set_dirty n;
  p ← get_sin parent;
  on_din n (λ d, d <| din_parent := ino p |>).

Definition sfs_dirent_link_nolock (n slot lnk : Z) (name : list Z) : M Z :=
  l ← get_sin lnk;
  ret ← sfs_dirent_write_nolock n slot (ino l) name;
  if negb (ret =? 0) then mret ret else
  _ ← set_dirty n;
  _ ← on_din n (λ d, d <| din_size := u32 (din_size d + 1) |>);
  _ ← set_dirty lnk;
  _ ← on_din lnk (λ d, d <| din_nlinks := u16 (din_nlinks d + 1) |>);
  mret 0.

Definition sfs_dirent_unlink_nolock (n slot lnk : Z) : M Z :=
  ret ← sfs_dirent_write_nolock n slot 0 [];
  if negb (ret =? 0) then mret ret else
  d ← get_din n;
  l ← get_din lnk;
  _ ← assert (negb (din_size d =? 0) && negb (din_nlinks l =? 0));
  _ ← set_dirty n;
  _ ← on_din n (λ d, d <| din_size := din_size d - 1 |>);
  _ ← set_dirty lnk;
  _ ← on_din lnk (λ d, d <| din_nlinks := din_nlinks d - 1 |>);
  mret 0.

(** The results of a search: the error code, [*ino_store], [*slot] and
    [*empty_slot]. *)
Record found : Type := mk_found { f_ret : Z; f_ino : Z; f_slot : Z; f_empty : Z }.

Definition search_slot_body (n : Z) (name : list Z) (nslots : Z) (p : Z * Z) : M (Z * Z + found) :=
  let '(i, empty) := p in
  if i <? nslots then
    r ← sfs_dirent_read_nolock n i;
    let '(ret, entry) := r in
    if negb (ret =? 0) then mret (inr (mk_found ret 0 0 empty)) else
    if de_ino entry =? 0 then mret (inl (i + 1, i)) else
    if bool_decide (name = c_str (de_name entry)) then mret (inr (mk_found 0 (de_ino entry) i empty))
    else mret (inl (i + 1, empty))
  else mret (inr (mk_found (- E_NOENT) 0 0 empty)).
Definition sfs_dirent_search_nolock (n : Z) (name : list Z) : M found :=
  _ ← assert (len name <=? SFS_MAX_FNAME_LEN);
  b ← alloc sizeof_entry;
  if negb b then mret (mk_found (- E_NO_MEM) 0 0 0) else
  d ← get_din n;
  let nslots := din_blocks d in
  loop (S (Z.to_nat nslots)) (search_slot_body n name nslots) (0, nslots).

Definition findino_body (n ino_ nslots i : Z) : M (Z + Z * sfs_disk_entry) :=
  if i <? nslots then
    r ← sfs_dirent_read_nolock n i;
    if negb (r.1 =? 0) then mret (inr r) else
    if de_ino r.2 =? ino_ then mret (inr (0, r.2)) else mret (inl (i + 1))
  else mret (inr (- E_NOENT, mk_entry_ 0 [])).
Definition sfs_dirent_findino_nolock (n ino_ : Z) : M (Z * sfs_disk_entry) :=
  d ← get_din n;
  loop (S (Z.to_nat (din_blocks d))) (findino_body n ino_ (din_blocks d)) 0.

Definition getdirentry_body (n nslots : Z) (p : Z * Z) : M (Z * Z + Z * sfs_disk_entry) :=
  let '(i, slot) := p in
  if i <? nslots then
    r ← sfs_dirent_read_nolock n i;
    if negb (r.1 =? 0) then mret (inr r) else
    if negb (de_ino r.2 =? 0) then
      if slot =? 0 then mret (inr (0, r.2)) else mret (inl (i + 1, slot - 1))
    else mret (inl (i + 1, slot))
  else mret (inr (- E_NOENT, mk_entry_ 0 [])).
Definition sfs_getdirentry_sub_nolock (n slot : Z) : M (Z * sfs_disk_entry) :=
  d ← get_din n;
  loop (S (Z.to_nat (din_blocks d))) (getdirentry_body n (din_blocks d)) (0, slot).

(** [fresh]: what the name of the newly allocated [entry] holds. *)
Definition sfs_getdirentry (fresh : list Z) (n : Z) (iob : iobuf) : M (Z * iobuf) :=
  b ← alloc sizeof_entry;
  if negb b then mret (- E_NO_MEM, iob) else
  let offset := io_offset iob in
  if (offset <? 0) || negb (offset mod sfs_dentry_size =? 0) then mret (- E_INVAL, iob) else
  let slot := offset / sfs_dentry_size in
  d ← get_din n;
  if u32 (din_size d + 2) <=? slot then mret (- E_NOENT, iob) else
  r ← (if slot =? 0 then mret (0, splice fresh 0 (DOT ++ [0]))
       else if slot =? 1 then mret (0, splice fresh 0 (DOTDOT ++ [0]))
       else
         ret ← trylock_sin n;
         if negb (ret =? 0) then mret (ret, []) else
         r ← sfs_getdirentry_sub_nolock n (slot - 2); mret (r.1, de_name r.2));
  let '(ret, name) := r in
  if negb (ret =? 0) then mret (ret, iob) else
  r ← with_iob (iobuf_move name sfs_dentry_size true) iob;
  mret (r.1.1.1, r.2).

(** A new inode that no directory names yet. *)
Definition sfs_dirent_create_inode (type : Z) : M (Z * Z) :=
  b ← alloc sizeof_din;
  if negb b then mret (- E_NO_MEM, 0) else
  let d := mk_din 0 0 type 0 0 (replicate 12 0) 0 0 in
  r ← sfs_block_alloc;
  let '(ret, ino_) := r in
  if negb (ret =? 0) then mret (ret, 0) else
  r ← sfs_create_inode d ino_;
  if negb (r.1 =? 0) then _ ← sfs_block_free ino_; mret (r.1, 0) else
  _ ← sfs_set_links r.2;
  mret (0, r.2).

(** ** Operations on directories *)

Definition too_long (name : list Z) : bool := SFS_MAX_FNAME_LEN <? len name.
Definition is_dots (name : list Z) : bool := bool_decide (name = DOT) || bool_decide (name = DOTDOT).

Definition sfs_load_parent (n : Z) : M (Z * Z) := d ← get_din n; sfs_load_inode (din_parent d).

Definition sfs_lookup_once (n : Z) (name : list Z) : M (Z * Z) :=
  ret ← trylock_sin n;
  if negb (ret =? 0) then mret (ret, 0) else
  f ← sfs_dirent_search_nolock n name;
  if negb (f_ret f =? 0) then mret (f_ret f, 0) else sfs_load_inode (f_ino f).

Definition sfs_mkdir_nolock (n : Z) (name : list Z) : M Z :=
  f ← sfs_dirent_search_nolock n name;
  if negb (f_ret f =? - E_NOENT) then mret (if negb (f_ret f =? 0) then f_ret f else - E_EXISTS) else
  r ← sfs_dirent_create_inode SFS_TYPE_DIR;
  let '(ret, lnk) := r in
  if negb (ret =? 0) then mret ret else
  ret ← sfs_dirent_link_nolock n (f_empty f) lnk name;
  _ ← (if negb (ret =? 0) then
         l ← get_sin lnk;
         _ ← assert (din_nlinks (din l) =? 0);
         assert ((ref_count l =? 1) && (open_count l =? 0))
       else
         _ ← sfs_dirinfo_set_parent lnk n;
         _ ← sfs_nlinks_inc_nolock lnk;
         sfs_nlinks_inc_nolock n);
  _ ← inode_ref_dec lnk;
  mret ret.

Definition sfs_mkdir (n : Z) (name : list Z) : M Z :=
  if too_long name then mret (- E_TOO_BIG) else
  if is_dots name then mret (- E_EXISTS) else
  ret ← trylock_sin n;
  if ret =? 0 then sfs_mkdir_nolock n name else mret ret.

Definition sfs_link_nolock (n lnk : Z) (name : list Z) : M Z :=
  f ← sfs_dirent_search_nolock n name;
  if negb (f_ret f =? - E_NOENT) then mret (if negb (f_ret f =? 0) then f_ret f else - E_EXISTS) else
  sfs_dirent_link_nolock n (f_empty f) lnk name.

Definition sfs_link (n : Z) (name : list Z) (lnk : Z) : M Z :=
  if too_long name then mret (- E_TOO_BIG) else
  if is_dots name then mret (- E_EXISTS) else
  l ← get_din lnk;
  if din_type l =? SFS_TYPE_DIR then mret (- E_ISDIR) else
  ret ← trylock_sin n;
  if ret =? 0 then sfs_link_nolock n lnk name else mret ret.

Definition sfs_rename1_nolock (n : Z) (name new_name : list Z) : M Z :=
  if bool_decide (name = new_name) then mret 0 else
  f ← sfs_dirent_search_nolock n name;
  if negb (f_ret f =? 0) then mret (f_ret f) else
  g ← sfs_dirent_search_nolock n new_name;
  if negb (f_ret g =? - E_NOENT) then mret (if negb (f_ret g =? 0) then f_ret g else - E_EXISTS) else
  sfs_dirent_write_nolock n (f_slot f) (f_ino f) new_name.

Definition sfs_rename2_nolock (n : Z) (name : list Z) (new : Z) (new_name : list Z) : M Z :=
  f ← sfs_dirent_search_nolock n name;
  if negb (f_ret f =? 0) then mret (f_ret f) else
  g ← sfs_dirent_search_nolock new new_name;
  if negb (f_ret g =? - E_NOENT) then mret (if negb (f_ret g =? 0) then f_ret g else - E_EXISTS) else
  r ← sfs_load_inode (f_ino f);
  let '(ret, lnk) := r in
  if negb (ret =? 0) then mret ret else
  ret ← sfs_dirent_unlink_nolock n (f_slot f) lnk;
  ret ← (if negb (ret =? 0) then mret ret else
         l ← get_din lnk;
         let isdir := din_type l =? SFS_TYPE_DIR in
         _ ← when isdir (sfs_nlinks_dec_nolock n);
         ret ← sfs_dirent_link_nolock new (f_empty g) lnk new_name;
         if negb (ret =? 0) then
           e ← sfs_dirent_link_nolock n (f_slot f) lnk name;
           _ ← when (e =? 0) (when isdir (sfs_nlinks_inc_nolock n));
           mret ret
         else
           _ ← when isdir (_ ← sfs_nlinks_inc_nolock new; sfs_dirinfo_set_parent lnk new);
           mret 0);
  _ ← inode_ref_dec lnk;
  mret ret.

Definition sfs_rename (n : Z) (name : list Z) (new : Z) (new_name : list Z) : M Z :=
  if too_long name || too_long new_name then mret (- E_TOO_BIG) else
  if is_dots name then mret (- E_INVAL) else
  if is_dots new_name then mret (- E_EXISTS) else
  ret ← trylock_sin n;
  if negb (ret =? 0) then mret ret else
  if n =? new then sfs_rename1_nolock n name new_name else
  ret ← trylock_sin new;
  if ret =? 0 then sfs_rename2_nolock n name new new_name else mret ret.

Definition sfs_create_nolock (n : Z) (name : list Z) (excl : bool) : M (Z * Z) :=
  f ← sfs_dirent_search_nolock n name;
  if negb (f_ret f =? - E_NOENT) then
    if negb (f_ret f =? 0) then mret (f_ret f, 0) else
    if negb excl then
      r ← sfs_load_inode (f_ino f);
      let '(ret, lnk) := r in
      if negb (ret =? 0) then mret (ret, 0) else
      l ← get_din lnk;
      if din_type l =? SFS_TYPE_FILE then mret (0, lnk) else _ ← inode_ref_dec lnk; mret (- E_EXISTS, 0)
    else mret (- E_EXISTS, 0)
  else
    r ← sfs_dirent_create_inode SFS_TYPE_FILE;
    let '(ret, lnk) := r in
    if negb (ret =? 0) then mret (ret, 0) else
    ret ← sfs_dirent_link_nolock n (f_empty f) lnk name;
    if negb (ret =? 0) then _ ← inode_ref_dec lnk; mret (ret, 0) else mret (0, lnk).

Definition sfs_create (n : Z) (name : list Z) (excl : bool) : M (Z * Z) :=
  if too_long name then mret (- E_TOO_BIG, 0) else
  if is_dots name then mret (- E_EXISTS, 0) else
  ret ← trylock_sin n;
  if ret =? 0 then sfs_create_nolock n name excl else mret (ret, 0).

Definition SetSFSInodeRemoved (n : Z) : M unit := on_sin n (λ sin, sin <| flags := Z.lor (flags sin) 1 |>).

Definition sfs_unlink_nolock (n : Z) (name : list Z) : M Z :=
  f ← sfs_dirent_search_nolock n name;
  if negb (f_ret f =? 0) then mret (f_ret f) else
  r ← sfs_load_inode (f_ino f);
  let '(ret, lnk) := r in
  if negb (ret =? 0) then mret ret else
  l ← get_din lnk;
  ret ← (if negb (din_type l =? SFS_TYPE_DIR) then sfs_dirent_unlink_nolock n (f_slot f) lnk
         else
           ret ← trylock_sin lnk;
           if negb (ret =? 0) then mret ret else
           if negb (din_size l =? 0) then mret (- E_NOTEMPTY) else
           ret ← sfs_dirent_unlink_nolock n (f_slot f) lnk;
           if negb (ret =? 0) then mret ret else
           _ ← SetSFSInodeRemoved lnk;
           _ ← sfs_nlinks_dec_nolock lnk;
           _ ← sfs_nlinks_dec_nolock n;
           mret 0);
  _ ← inode_ref_dec lnk;
  mret ret.

Definition sfs_unlink (n : Z) (name : list Z) : M Z :=
  if too_long name then mret (- E_TOO_BIG) else
  if is_dots name then mret (- E_ISDIR) else
  ret ← trylock_sin n;
  if ret =? 0 then sfs_unlink_nolock n name else mret ret.
End sfs_dir.
