(* ===== verification/SfsDirent.v ===== *)
(** * The entries of a directory

    Each block of a directory holds one entry.  Reading and writing an entry,
    and searching, against the content of the directory as [SfsFile] has it. *)

From S2P Require Import Prelude Bytes Mem DList Slab Bitmap Disk Sfs SfsVol SfsTree SfsMap SfsFile SfsIo SfsDir.

(** ** An entry and its bytes *)

Definition name_ok (name : list Z) : Prop := Forall (λ c, c ≠ 0) name ∧ len name ≤ SFS_MAX_FNAME_LEN.
#[export] Instance name_ok_dec name : Decision (name_ok name).
Proof. unfold name_ok. apply _. Defined.

(** What an entry with these bytes says: an inode number, 0 for an empty slot,
    and a name. *)
Definition entry_says (bs : list Z) : Z * list Z :=
  let e := entry_of_bytes bs in (de_ino e, c_str (<[Z.to_nat SFS_MAX_FNAME_LEN := 0]> (de_name e))).

(** Slot [i] of a directory with content [C]. *)
Definition slot_entry (C : list Z) (i : Z) : Z * list Z := entry_says (slice C (i * BS) sizeof_entry).

Lemma c_str_app name rest : Forall (λ c, c ≠ 0) name → c_str (name ++ 0 :: rest) = name.
Proof.
  induction 1 as [|c name Hc _ IH]; [done|]. simpl. by rewrite (proj2 (Z.eqb_neq c 0)), IH.
Qed.

Lemma c_str_ok bs : Forall (λ c, c ≠ 0) (c_str bs) ∧ len (c_str bs) ≤ len bs.
Proof.
  induction bs as [|c bs [IH1 IH2]]; [done|]. simpl. destruct (Z.eqb_spec c 0); [by split; simpl; [|lia]|].
  split; [by constructor|simpl; lia].
Qed.

Lemma new_entry_name ino name : ino ≠ 0 → name_ok name →
  ∃ rest, de_name (new_entry ino name) = name ++ 0 :: rest ∧ len name + len rest = 255.
Proof.
  intros Hi [_ Hl]. unfold SFS_MAX_FNAME_LEN in Hl. unfold new_entry. rewrite (proj2 (Z.eqb_neq ino 0)) by done. cbn [de_name].
  exists (drop (length (name ++ [0])) (replicate 256 0)). split.
  - unfold splice. change (Z.to_nat 0) with 0%nat. change (Z.to_nat sfs_dentry_size) with 256%nat.
    rewrite Nat.add_0_l, take_0, <-app_assoc. done.
  - rewrite length_drop, length_app, length_replicate. change (length [0]) with 1%nat. lia.
Qed.

Lemma new_entry_length ino name : name_ok name → length (de_name (new_entry ino name)) = 256%nat.
Proof.
  intros Hn. destruct (decide (ino = 0)) as [->|Hi]; [apply length_replicate|].
  destruct (new_entry_name ino name Hi Hn) as (rest & -> & Hl). rewrite length_app. simpl. lia.
Qed.

Lemma new_entry_len ino name : name_ok name → len (entry_bytes (new_entry ino name)) = sizeof_entry.
Proof. intros Hn. unfold entry_bytes. rewrite length_app, le_bytes_length, new_entry_length by done. done. Qed.

Lemma entry_of_new e : length (de_name e) = 256%nat → 0 ≤ de_ino e < 2 ^ 32 → entry_of_bytes (entry_bytes e) = e.
Proof.
  intros Hl Hi. unfold entry_of_bytes, entry_bytes. destruct e as [ino nm]. cbn [de_ino de_name] in *.
  assert (slice (le_bytes 4 ino ++ nm) 0 4 = le_bytes 4 ino) as ->.
  { unfold slice. change (Z.to_nat 0) with 0%nat. rewrite drop_0. change (Z.to_nat 4) with 4%nat.
    rewrite take_app_le by by rewrite le_bytes_length. apply take_ge. by rewrite le_bytes_length. }
  assert (slice (le_bytes 4 ino ++ nm) 4 256 = nm) as ->.
  { unfold slice. change (Z.to_nat 4) with 4%nat. rewrite drop_app_length' by by rewrite le_bytes_length.
    apply take_ge. change (Z.to_nat 256) with 256%nat. lia. }
  by rewrite le_combine_u32.
Qed.

Lemma new_entry_says ino name : 0 < ino < 2 ^ 32 → name_ok name → entry_says (entry_bytes (new_entry ino name)) = (ino, name).
Proof.
  intros Hi Hn. assert (de_ino (new_entry ino name) = ino) as Hino.
  { unfold new_entry. by rewrite (proj2 (Z.eqb_neq ino 0)) by lia. }
  unfold entry_says. rewrite entry_of_new by (by rewrite ?Hino; (by apply new_entry_length || lia)).
  rewrite Hino. f_equal. destruct (new_entry_name ino name ltac:(lia) Hn) as (rest & -> & Hl).
  change (Z.to_nat SFS_MAX_FNAME_LEN) with 255%nat.
  assert (∃ rest', <[255%nat:=0]> (name ++ 0 :: rest) = name ++ 0 :: rest') as [rest' ->].
  { rewrite insert_app_r_alt by lia. destruct (255 - length name)%nat as [|k]; [by exists rest|by exists (<[k:=0]> rest)]. }
  by apply c_str_app, Hn.
Qed.

Lemma free_entry_says : (entry_says (entry_bytes (new_entry 0 []))).1 = 0.
Proof. done. Qed.

(** A slot after an entry is written to slot [i], which may be a new one. *)
Lemma slot_entry_written C i j bs :
  0 ≤ i → 0 ≤ j → len bs = sizeof_entry → i ≤ len C / BS → len C mod BS = 0 → j < Z.max (len C / BS) (i + 1) →
  slot_entry (splice (ext C (i + 1)) (i * BS + 0) bs) j = if j =? i then entry_says bs else slot_entry C j.
Proof.
  intros Hi Hj Hl HiC Hmod Hjn. unfold sizeof_entry in Hl. pose proof (Z.div_mod (len C) BS ltac:(lia)) as Hdm.
  rewrite Z.add_0_r. assert (in_range (ext C (i + 1)) (i * BS) (len bs) = true) as Hr by (apply in_range_spec; rewrite ext_len; lia).
  unfold slot_entry. destruct (Z.eqb_spec j i) as [->|Hne].
  - f_equal. unfold sizeof_entry. rewrite <-Hl. by apply slice_splice_eq.
  - f_equal. unfold sizeof_entry. rewrite slice_splice_ne by (done || lia).
    unfold slice, ext. rewrite drop_app_le by lia. apply take_app_le. rewrite length_drop. lia.
Qed.

Section dirent.
Context {D : Type} `{BlockDevice D, !BlockDeviceLaws D}.
Implicit Types (s : sfs_fs D) (b n : Z) (F : gset Z) (T : tree) (name : list Z).

(** ** Reading an entry *)

Lemma load_old_slice s F n sin T i :
  file_ok s F n sin T → 0 ≤ i < din_blocks (din sin) →
  ∃ b s', sfs_bmap_load_nolock n i s = Ok ((0, b), s') ∧ read_same n s F sin T s' ∧ 0 < b < blocks (super s') ∧ b ∉ F ∧
    ∀ off m, 0 ≤ off → 0 ≤ m → off + m ≤ BS → slice (blk s' b) off m = slice (file_content s sin T) (i * BS + off) m.
Proof.
  intros Hf Hi. pose proof Hf as [Ha Hd Hb]. destruct (bmap_load_old s F n sin T i Ha Hd Hi) as (b & s1 & E1 & Eb & Ha1 & Hs1 & He1).
  pose proof Ha1 as [Hv1 _ Hin1 _]. destruct (Hin1 b) as [Hbr Hbf]; [by exists (Data i)|].
  assert (read_same n s F sin T s1) as Hsame.
  { constructor; [by constructor|done|done|]. apply content_ext; [lia|]. intros k Hk. unfold data_blk.
    destruct (proj2 (Hd k) Hk) as [c Ec]. rewrite Ec. cbn. destruct (fa_in _ _ _ _ _ Ha c) as [? _]; [by exists (Data k)|].
    apply He1; [lia|tauto]. }
  exists b, s1. split_and!; [done|done|lia|lia|done|]. intros off m Ho Hm Hom. rewrite <-(rs_content _ _ _ _ _ _ Hsame). unfold file_content.
  rewrite content_slice by (done || by apply (file_full s1 F n)). unfold data_blk. by rewrite Eb.
Qed.

Lemma dirent_read_ok s F n sin T slot :
  file_ok s F n sin T → din_type (din sin) = SFS_TYPE_DIR → 0 ≤ slot < din_blocks (din sin) →
  ∃ e s', sfs_dirent_read_nolock n slot s = Ok ((0, e), s') ∧ read_same n s F sin T s' ∧
    (de_ino e, c_str (de_name e)) = slot_entry (file_content s sin T) slot ∧ length (de_name e) = 256%nat.
Proof.
  intros Hf Ht Hs. pose proof (fa_node _ _ _ _ _ (fo_at _ _ _ _ _ Hf)) as Hn.
  destruct (load_old_slice s F n sin T slot Hf Hs) as (b & s1 & E1 & Hsame & Hbr & Hbf & Hsl).
  pose proof Hsame as [Hf1 Hs1 He1 Hc1]. pose proof (fa_vol _ _ _ _ _ (fo_at _ _ _ _ _ Hf1)) as Hv1.
  destruct (rbuf_ok s1 F b 0 sizeof_entry) as (s2 & E2 & Hv2 & Hs2 & He2); [done|done|done..|].
  set (bs := slice (blk s1 b) 0 sizeof_entry) in *.
  exists (mk_entry_ (de_ino (entry_of_bytes bs)) (<[Z.to_nat SFS_MAX_FNAME_LEN := 0]> (de_name (entry_of_bytes bs)))), s2. split; [|split; [|split]].
  - unfold sfs_dirent_read_nolock. cbv zeta. rewrite (bind_ok _ _ _ _ _ (get_din_ok _ _ _ Hn)).
    rewrite Ht, Z.eqb_refl, (proj2 (Z.leb_le 0 slot)), (proj2 (Z.ltb_lt slot _)) by lia. rewrite (bind_ok _ _ _ _ _ eq_refl).
    rewrite (bind_ok _ _ _ _ _ E1). cbn [fst snd negb Z.eqb].
    rewrite (bind_ok _ _ _ _ _ (assert_inuse_ok s1 F b Hv1 Hbr Hbf)).
    by rewrite (bind_ok _ _ _ _ _ E2).
  - eapply read_same_trans; [done|]. destruct Hf1 as [Ha1 Hd1 Hb1]. constructor; [by constructor; [apply (file_io s1)|..]|done|done|].
    apply content_ext; [lia|]. intros k Hk. unfold data_blk. destruct (proj2 (Hd1 k) Hk) as [c Ec]. rewrite Ec. cbn.
    destruct (fa_in _ _ _ _ _ Ha1 c) as [? _]; [by exists (Data k)|]. apply He2; [lia|tauto].
  - unfold slot_entry, entry_says. rewrite <-(Z.add_0_r (slot * BS)). rewrite <-Hsl by done. done.
  - cbn [de_name]. rewrite length_insert. unfold bs, entry_of_bytes. cbn [de_name]. change 256%nat with (Z.to_nat 256).
    apply slice_length, in_range_spec. assert (len (slice (blk s1 b) 0 sizeof_entry) = sizeof_entry) as ->; [|done].
    apply slice_len, in_range_spec. rewrite (blk_len s1 F) by (done || lia). done.
Qed.

(** ** Allocations *)

Definition set_oom s (o : list bool) : sfs_fs D := s <| oom := o |>.

Lemma alloc_ok size s : 0 < size ≤ 2 ^ 17 → alloc size s = Ok (default true (head (oom s)), set_oom s (tail (oom s))).
Proof.
  intros Hs. unfold alloc. rewrite (bind_ok _ _ _ _ _ eq_refl), (bind_ok _ _ _ _ _ eq_refl).
  rewrite (bind_ok _ _ _ _ _ (kmalloc_ok _ _ _ Hs)). by destruct (default true (head (oom s))).
Qed.

Lemma file_oom s F n sin T o : file_ok s F n sin T → file_ok (set_oom s o) F n sin T.
Proof. intros [[Hv Hn Hin Ht] Hd Hb]. constructor; [constructor; [by destruct Hv|done..]|done|done]. Qed.

Lemma content_oom s o sin T : file_content (set_oom s o) sin T = file_content s sin T.
Proof. by apply content_blk. Qed.

Lemma node_same_oom n s s' o : node_same n s s' → node_same n (set_oom s o) (set_oom s' o).
Proof. intros [Hi []]. constructor; [done|]. by constructor. Qed.

(** A step of the file [n], whatever was allocated meanwhile. *)
Definition step n s F sin T s' F' sin' T' : Prop := ∃ o, progress n (set_oom s o) F sin T s' F' sin' T'.

Lemma progress_step n s F sin T s' F' sin' T' : progress n s F sin T s' F' sin' T' → step n s F sin T s' F' sin' T'.
Proof. intros Hp. exists (oom s). by destruct s. Qed.

Lemma progress_oom n s F sin T s' F' sin' T' o :
  progress n s F sin T s' F' sin' T' → progress n (set_oom s o) F sin T (set_oom s' o) F' sin' T'.
Proof. intros []. constructor; [by apply file_oom|by apply node_same_oom|done..]. Qed.

Lemma step_trans n s1 F1 sin1 T1 s2 F2 sin2 T2 s3 F3 sin3 T3 :
  step n s1 F1 sin1 T1 s2 F2 sin2 T2 → step n s2 F2 sin2 T2 s3 F3 sin3 T3 → step n s1 F1 sin1 T1 s3 F3 sin3 T3.
Proof.
  intros [o1 H1] [o2 H2]. exists o2. eapply progress_trans; [exact (progress_oom _ _ _ _ _ _ _ _ _ o2 H1)|exact H2].
Qed.

Lemma step_file n s F sin T s' F' sin' T' : step n s F sin T s' F' sin' T' → file_ok s' F' n sin' T'.
Proof. intros [o []]. done. Qed.

Lemma alloc_step n s F sin T o : file_ok s F n sin T → step n s F sin T (set_oom s o) F sin T.
Proof. intros Hf. exists o. by apply progress_refl, file_oom. Qed.

Lemma read_step_dir n s F sin T s' : file_ok s F n sin T → read_same n s F sin T s' → step n s F sin T s' F sin T.
Proof.
  intros Hf [Hf' Hs He _]. apply progress_step, io_progress; [done|apply Hf'|done|done].
Qed.

(** ** Writing an entry *)

Lemma entry_writes ino name : name_ok name →
  writes_at (λ b, _ ← assert_inuse b; ret ← sfs_wbuf (entry_bytes (new_entry ino name)) b 0; mret (ret, @nil Z)) [] 0
    (entry_bytes (new_entry ino name)).
Proof.
  intros Hname s1 F1 b Hv Hb Hbf. rewrite (bind_ok _ _ _ _ _ (assert_inuse_ok s1 F1 b Hv Hb Hbf)).
  destruct (wbuf_ok s1 F1 b 0 (entry_bytes (new_entry ino name))) as (s2 & E2 & H2); [done|done|done|by rewrite new_entry_len|].
  exists s2. by rewrite (bind_ok _ _ _ _ _ E2).
Qed.

Lemma dirent_write_ok s F n sin T slot ino name :
  file_ok s F n sin T → din_type (din sin) = SFS_TYPE_DIR → 0 ≤ slot ≤ din_blocks (din sin) → slot < MAX_BLOCKS → name_ok name →
  let C := file_content s sin T in
  ∃ ret s' F' sin' T', sfs_dirent_write_nolock n slot ino name s = Ok (ret, s') ∧ step n s F sin T s' F' sin' T' ∧
    ((ret = 0 ∧ file_content s' sin' T' = splice (ext C (slot + 1)) (slot * BS + 0) (entry_bytes (new_entry ino name))) ∨
     (ret = - E_NO_MEM ∧ (head (oom s) = Some false ∨ (size F' ≤ 1)%nat ∧ slot = din_blocks (din sin)) ∧ file_content s' sin' T' = C)).
Proof.
  intros Hf Ht Hs Hlt Hname C. pose proof (fa_node _ _ _ _ _ (fo_at _ _ _ _ _ Hf)) as Hn.
  unfold sfs_dirent_write_nolock. rewrite (bind_ok _ _ _ _ _ (get_din_ok _ _ _ Hn)).
  rewrite Ht, Z.eqb_refl, (proj2 (Z.leb_le 0 slot)), (proj2 (Z.leb_le slot _)) by lia. rewrite (bind_ok _ _ _ _ _ eq_refl).
  rewrite (bind_ok _ _ _ _ _ (alloc_ok sizeof_entry s ltac:(done))). set (s0 := set_oom s (tail (oom s))).
  assert (file_ok s0 F n sin T) as Hf0 by by apply file_oom.
  destruct (default true (head (oom s))) eqn:Eo; cbn [negb].
  2: { exists (- E_NO_MEM), s0, F, sin, T. split_and!; [done|by apply alloc_step|right; split_and!; [done|left|apply content_oom]].
       by destruct (head (oom s)) as [[|]|]; simplify_eq/=. }
  rewrite (bind_ok _ _ s0 tt s0) by
    (unfold when; rewrite (proj2 (Z.leb_le (len name) _)) by apply Hname; by destruct (negb (ino =? 0))).
  destruct (part_write s0 F n sin T slot [] 0 (entry_bytes (new_entry ino name)) _ Hf0 Hs Hlt (entry_writes ino name Hname))
    as (ret & s' & F' & sin' & T' & E & Hp & Hcase); [done|by rewrite new_entry_len|].
  exists ret, s', F', sin', T'. split; [|split; [by exists (tail (oom s))|]].
  - cbv zeta. revert E. unfold io_part, mbind, M_bind. destruct (sfs_bmap_load_nolock n slot s0) as [[[r b] s1]|e]; [|done].
    cbn [fst snd]. destruct (negb (r =? 0)); [by intros [= -> ->]|]. destruct (assert_inuse b s1) as [[[] s2]|]; [|done].
    destruct (sfs_wbuf _ b 0 s2) as [[w s3]|]; [|done]. by intros [= -> ->].
  - unfold s0 in Hcase. rewrite content_oom in Hcase.
    destruct Hcase as [(-> & Hc)|(-> & Hsz & Hc)]; [by left|right]. split_and!; [done|by right|done].
Qed.

(** ** Searching *)

Definition slot_of s (sin : sfs_inode) T (i : Z) : Z * list Z := slot_entry (file_content s sin T) i.

(** The slot that [empty_slot] gets: a free one, or the next after the last. *)
Definition empty_slot s (sin : sfs_inode) T (e : Z) : Prop :=
  e = din_blocks (din sin) ∨ 0 ≤ e < din_blocks (din sin) ∧ (slot_of s sin T e).1 = 0.

Definition search_found s (sin : sfs_inode) T name (f : found) : Prop :=
  f_ret f = 0 ∧ 0 ≤ f_slot f < din_blocks (din sin) ∧ slot_of s sin T (f_slot f) = (f_ino f, name) ∧ f_ino f ≠ 0.
Definition search_missed s (sin : sfs_inode) T name (f : found) : Prop :=
  f_ret f = - E_NOENT ∧ empty_slot s sin T (f_empty f) ∧
  ∀ i, 0 ≤ i < din_blocks (din sin) → (slot_of s sin T i).1 ≠ 0 → (slot_of s sin T i).2 ≠ name.

Lemma search_loop n name (k : nat) : ∀ s F sin T i e,
  file_ok s F n sin T → din_type (din sin) = SFS_TYPE_DIR → 0 ≤ i → i + Z.of_nat k = din_blocks (din sin) →
  empty_slot s sin T e → (∀ j, 0 ≤ j < i → (slot_of s sin T j).1 ≠ 0 → (slot_of s sin T j).2 ≠ name) →
  ∃ f s', loop (S k) (search_slot_body n name (din_blocks (din sin))) (i, e) s = Ok (f, s') ∧ read_same n s F sin T s' ∧
    (search_found s sin T name f ∨ search_missed s sin T name f).
Proof.
  induction k as [|k IH]; intros s F sin T i e Hf Ht Hi Hk He Hj.
  - exists (mk_found (- E_NOENT) 0 0 e), s. split; [|split; [by apply read_same_refl|]].
    + apply loop_stop. unfold search_slot_body. by rewrite (proj2 (Z.ltb_ge i _)) by lia.
    + right. split_and!; [done|done|]. intros j Hj'. apply Hj. lia.
  - destruct (dirent_read_ok s F n sin T i Hf Ht ltac:(lia)) as (en & s1 & E & Hsame & Hen & _).
    assert (search_slot_body n name (din_blocks (din sin)) (i, e) s =
      Ok (if de_ino en =? 0 then inl (i + 1, i)
          else if bool_decide (name = c_str (de_name en)) then inr (mk_found 0 (de_ino en) i e) else inl (i + 1, e), s1)) as Ebody.
    { unfold search_slot_body. rewrite (proj2 (Z.ltb_lt i _)), (bind_ok _ _ _ _ _ E) by lia. cbn [negb Z.eqb].
      destruct (de_ino en =? 0); [done|]. by destruct (bool_decide _). }
    assert (∀ x, slot_of s1 sin T x = slot_of s sin T x) as Hso by (intros; unfold slot_of; by rewrite (rs_content _ _ _ _ _ _ Hsame)).
    assert (∀ e', empty_slot s sin T e' → (slot_of s sin T i).1 = 0 ∨ (slot_of s sin T i).2 ≠ name →
      ∃ f s', loop (S k) (search_slot_body n name (din_blocks (din sin))) (i + 1, e') s1 = Ok (f, s') ∧ read_same n s F sin T s' ∧
      (search_found s sin T name f ∨ search_missed s sin T name f)) as Hnext.
    { intros e' He' Hne. destruct (IH s1 F sin T (i + 1) e') as (f & s' & E' & Hs' & Hx); [apply Hsame|done|lia|lia| | |].
      - unfold empty_slot. by rewrite Hso.
      - intros j Hj'. rewrite Hso. destruct (decide (j = i)) as [->|]; [tauto|apply Hj; lia].
      - exists f, s'. split_and!; [done|by eapply read_same_trans|]. revert Hx. unfold search_found, search_missed, empty_slot.
        setoid_rewrite Hso. done. }
    pose proof (f_equal fst Hen) as Hen1. pose proof (f_equal snd Hen) as Hen2. cbn [fst snd] in Hen1, Hen2.
    change (slot_entry (file_content s sin T) i) with (slot_of s sin T i) in *.
    destruct (Z.eqb_spec (de_ino en) 0) as [Hz|Hnz].
    + rewrite (loop_next _ _ _ _ _ _ Ebody). apply Hnext; [right; split; [lia|congruence]|left; congruence].
    + destruct (bool_decide_reflect (name = c_str (de_name en))) as [Hnm|Hnm].
      * rewrite (loop_stop _ _ _ _ _ _ Ebody). exists (mk_found 0 (de_ino en) i e), s1. split_and!; [done|done|left].
        split_and!; [done|simpl; lia|simpl; lia|cbn [f_slot f_ino]; by rewrite <-Hen, <-Hnm|done].
      * rewrite (loop_next _ _ _ _ _ _ Ebody). apply Hnext; [done|right; congruence].
Qed.

Lemma search_ok s F n sin T name :
  file_ok s F n sin T → din_type (din sin) = SFS_TYPE_DIR → len name ≤ SFS_MAX_FNAME_LEN →
  ∃ f s', sfs_dirent_search_nolock n name s = Ok (f, s') ∧ read_same n (set_oom s (tail (oom s))) F sin T s' ∧
    (f_ret f = - E_NO_MEM ∧ head (oom s) = Some false ∨ search_found s sin T name f ∨ search_missed s sin T name f).
Proof.
  intros Hf Ht Hname. set (s0 := set_oom s (tail (oom s))). assert (file_ok s0 F n sin T) as Hf0 by by apply file_oom.
  unfold sfs_dirent_search_nolock. rewrite (proj2 (Z.leb_le (len name) _)) by done. rewrite (bind_ok _ _ _ _ _ eq_refl).
  rewrite (bind_ok _ _ _ _ _ (alloc_ok sizeof_entry s ltac:(done))). fold s0.
  destruct (default true (head (oom s))) eqn:Eo; cbn [negb].
  2: { exists (mk_found (- E_NO_MEM) 0 0 0), s0. split_and!; [done|by apply read_same_refl|left]. by destruct (head (oom s)) as [[|]|]; simplify_eq/=. }
  rewrite (bind_ok _ _ _ _ _ (get_din_ok _ _ _ (fa_node _ _ _ _ _ (fo_at _ _ _ _ _ Hf0)))). cbv zeta.
  destruct (search_loop n name (Z.to_nat (din_blocks (din sin))) s0 F sin T 0 (din_blocks (din sin))) as (f & s' & E & Hs & Hx);
    [done|done|lia|pose proof (fo_blocks _ _ _ _ _ Hf); lia|by left|intros; lia|].
  exists f, s'. split_and!; [done|done|right]. revert Hx. unfold search_found, search_missed, empty_slot, slot_of, s0.
  by setoid_rewrite content_oom.
Qed.
End dirent.
