(* ===== verification/SfsDirSpec.v ===== *)
(** * A directory is a finite map

    The contract of the operations on the entries of one directory: a map from
    names to inode numbers. *)

From S2P Require Import Prelude DList Mem Slab Bitmap Bytes Disk Sfs SfsVol SfsTree SfsMap SfsFile SfsIo SfsFileSpec SfsDir SfsDirent.

(** ** The map that a content represents *)

Definition nslots (C : list Z) : Z := len C / BS.

Record dir_rep (C : list Z) (m : gmap (list Z) Z) : Prop := {
  dr_mod : len C mod BS = 0;
  dr_slot i : 0 ≤ i < nslots C → (slot_entry C i).1 ≠ 0 → m !! (slot_entry C i).2 = Some (slot_entry C i).1;
  dr_name name ino : m !! name = Some ino → ino ≠ 0 ∧ ∃ i, 0 ≤ i < nslots C ∧ slot_entry C i = (ino, name);
  dr_inj i j : 0 ≤ i < nslots C → 0 ≤ j < nslots C → (slot_entry C i).1 ≠ 0 → (slot_entry C j).1 ≠ 0 →
    (slot_entry C i).2 = (slot_entry C j).2 → i = j;
}.

Definition write_slot (C : list Z) (i ino : Z) (name : list Z) : list Z :=
  splice (ext C (i + 1)) (i * BS + 0) (entry_bytes (new_entry ino name)).

Lemma write_slot_len C i ino name : name_ok name → 0 ≤ i → len (write_slot C i ino name) = Z.max (len C) ((i + 1) * BS).
Proof.
  intros Hn Hi. unfold write_slot. rewrite splice_length; [apply ext_len|].
  apply in_range_spec. rewrite ext_len, new_entry_len by done. unfold sizeof_entry. lia.
Qed.

Lemma write_slot_nslots C i ino name :
  name_ok name → 0 ≤ i → len C mod BS = 0 →
  nslots (write_slot C i ino name) = Z.max (nslots C) (i + 1) ∧ len (write_slot C i ino name) mod BS = 0.
Proof.
  intros Hn Hi Hm. unfold nslots. rewrite write_slot_len by done. pose proof (Z.div_mod (len C) BS ltac:(lia)) as Hd.
  destruct (Z.max_spec (len C) ((i + 1) * BS)) as [[? ->]|[? ->]].
  - rewrite Z.div_mul, Z.mod_mul by lia. lia.
  - split; [|done]. assert (i + 1 ≤ len C / BS) by (apply Z.div_le_lower_bound; lia). lia.
Qed.

Lemma write_slot_entry C i ino name j :
  name_ok name → 0 ≤ i ≤ nslots C → len C mod BS = 0 → 0 ≤ j < nslots (write_slot C i ino name) →
  slot_entry (write_slot C i ino name) j = if j =? i then entry_says (entry_bytes (new_entry ino name)) else slot_entry C j.
Proof.
  intros Hn Hi Hm. rewrite (proj1 (write_slot_nslots C i ino name Hn ltac:(lia) Hm)). intros Hj.
  apply slot_entry_written; [lia|lia|by apply new_entry_len|apply Hi|done|apply Hj].
Qed.

(** The slot [i] is free, or the next after the last. *)
Definition slot_free (C : list Z) (i : Z) : Prop := i = nslots C ∨ 0 ≤ i < nslots C ∧ (slot_entry C i).1 = 0.

Lemma nslots_nonneg C : 0 ≤ nslots C.
Proof. apply Z.div_pos; lia. Qed.

Section rep.
Context (C : list Z) (m : gmap (list Z) Z) (Hr : dir_rep C m).

Lemma rep_insert i ino name :
  m !! name = None → slot_free C i → 0 < ino < 2 ^ 32 → name_ok name →
  dir_rep (write_slot C i ino name) (<[name := ino]> m).
Proof.
  intros Hfresh Hfree Hino Hn. destruct Hr as [Hmod Hs Hnm Hinj]. pose proof (nslots_nonneg C) as Hnn.
  assert (0 ≤ i ≤ nslots C) as Hi by (destruct Hfree; lia).
  destruct (write_slot_nslots C i ino name Hn ltac:(lia) Hmod) as [Hl Hmod'].
  pose proof (λ j, write_slot_entry C i ino name j Hn Hi Hmod) as He. rewrite Hl in He. rewrite new_entry_says in He by done.
  assert (∀ j, 0 ≤ j < nslots C → (slot_entry C j).1 ≠ 0 → (slot_entry C j).2 ≠ name) as Hother.
  { intros j Hj Hne Heq. specialize (Hs j Hj Hne). rewrite Heq, Hfresh in Hs. done. }
  constructor; [done|..]; rewrite ?Hl.
  - intros j Hj. rewrite He by done. destruct (Z.eqb_spec j i) as [->|Hne]; cbn [fst snd].
    + intros _. by rewrite lookup_insert_eq.
    + intros Hnz. assert (0 ≤ j < nslots C) as Hj' by lia. rewrite lookup_insert_ne by (intros Heq; by apply (Hother j)). by apply Hs.
  - intros name' ino' [[<- <-]|[Hne Hl']]%lookup_insert_Some.
    + split; [lia|]. exists i. split; [lia|]. by rewrite He, Z.eqb_refl by lia.
    + destruct (Hnm _ _ Hl') as (Hnz & j & Hj & Hx). split; [done|]. exists j. split; [lia|]. rewrite He by lia.
      destruct (Z.eqb_spec j i) as [->|]; [|done]. destruct Hfree as [->|[_ Hz]]; [lia|]. rewrite Hx in Hz. done.
  - intros j k Hj Hk. rewrite !He by done. destruct (Z.eqb_spec j i) as [->|Hji], (Z.eqb_spec k i) as [->|Hki]; cbn [fst snd]; [done|..].
    + intros _ Hnz Heq. exfalso. apply (Hother k); [lia|done|done].
    + intros Hnz _ Heq. exfalso. apply (Hother j); [lia|done|done].
    + apply Hinj; lia.
Qed.

Lemma rep_delete i ino name :
  0 ≤ i < nslots C → slot_entry C i = (ino, name) → ino ≠ 0 →
  dir_rep (write_slot C i 0 []) (delete name m) ∧ m !! name = Some ino ∧ nslots (write_slot C i 0 []) = nslots C ∧
  (slot_entry (write_slot C i 0 []) i).1 = 0.
Proof.
  intros Hi Hslot Hino. destruct Hr as [Hmod Hs Hnm Hinj].
  assert (name_ok []) as Hn by by apply (bool_decide_unpack _).
  destruct (write_slot_nslots C i 0 [] Hn ltac:(lia) Hmod) as [Hl Hmod']. rewrite Z.max_l in Hl by lia.
  pose proof (λ j, write_slot_entry C i 0 [] j Hn ltac:(lia) Hmod) as He. rewrite Hl in He.
  assert (∀ j, 0 ≤ j < nslots C → j ≠ i → (slot_entry C j).1 ≠ 0 → (slot_entry C j).2 ≠ name) as Hother.
  { intros j Hj Hne Hnz Heq. apply Hne, Hinj; [done|done|done|by rewrite Hslot|by rewrite Heq, Hslot]. }
  split_and!; [|pose proof (Hs i Hi) as Hx; rewrite Hslot in Hx; by apply Hx|done|].
  2: { rewrite He, Z.eqb_refl by lia. apply free_entry_says. }
  constructor; [done|..]; rewrite ?Hl.
  - intros j Hj. rewrite He by done. destruct (Z.eqb_spec j i) as [->|Hne]; [by rewrite free_entry_says|].
    intros Hnz. rewrite lookup_delete_ne by (intros Heq; by apply (Hother j)). by apply Hs.
  - intros name' ino' [Hne Hl']%lookup_delete_Some. destruct (Hnm _ _ Hl') as (Hnz & j & Hj & Hx). split; [done|].
    exists j. split; [done|]. rewrite He by done. destruct (Z.eqb_spec j i) as [->|]; [|done]. congruence.
  - intros j k Hj Hk. rewrite !He by done.
    destruct (Z.eqb_spec j i) as [->|Hji], (Z.eqb_spec k i) as [->|Hki]; rewrite ?free_entry_says; try done. by apply Hinj.
Qed.

(** Every name has a slot of its own. *)
Lemma dir_rep_size : Z.of_nat (size m) ≤ nslots C.
Proof.
  destruct Hr as [Hmod Hs Hnm Hinj]. pose proof (nslots_nonneg C) as Hnn.
  set (l := (λ i, (slot_entry C (Z.of_nat i)).2) <$> seq 0 (Z.to_nat (nslots C))).
  assert (dom m ⊆ (list_to_set l : gset (list Z))) as Hsub.
  { intros name [ino Hino]%elem_of_dom. destruct (Hnm _ _ Hino) as (_ & i & Hi & Hx). apply elem_of_list_to_set, list_elem_of_fmap.
    exists (Z.to_nat i). rewrite Z2Nat.id, Hx by lia. split; [done|]. apply elem_of_seq. lia. }
  apply subseteq_size in Hsub. rewrite size_dom in Hsub.
  assert (size (list_to_set l : gset (list Z)) ≤ length l)%nat as Hle.
  { clear. induction l as [|x l IH]; [done|]. cbn [list_to_set length]. rewrite size_union_alt.
    assert (size ({[x]} : gset (list Z)) = 1%nat) as -> by apply size_singleton.
    pose proof (subseteq_size (list_to_set l ∖ {[x]} : gset (list Z)) (list_to_set l) ltac:(set_solver)). lia. }
  assert (length l = Z.to_nat (nslots C)) as Hll by (unfold l; by rewrite length_fmap, length_seq). lia.
Qed.

Lemma rep_lookup i ino name : 0 ≤ i < nslots C → slot_entry C i = (ino, name) → ino ≠ 0 → m !! name = Some ino.
Proof. intros Hi Hx Hz. pose proof (dr_slot _ _ Hr i Hi) as H. rewrite Hx in H. by apply H. Qed.

Lemma rep_missing name :
  (∀ i, 0 ≤ i < nslots C → (slot_entry C i).1 ≠ 0 → (slot_entry C i).2 ≠ name) → m !! name = None.
Proof.
  intros Hno. destruct (m !! name) as [ino|] eqn:E; [|done]. destruct (dr_name _ _ Hr _ _ E) as (Hz & i & Hi & Hx).
  destruct (Hno i Hi); by rewrite Hx.
Qed.
End rep.

Section dir.
Context {D : Type} `{BlockDevice D, !BlockDeviceLaws D}.
Implicit Types (s : sfs_fs D) (b n : Z) (F : gset Z) (T : tree) (name : list Z) (m : gmap (list Z) Z).

(** ** A directory in memory *)

Record dir_ok s F n (sin : sfs_inode) T m : Prop := {
  d_file : file_ok s F n sin T;
  d_type : din_type (din sin) = SFS_TYPE_DIR;
  d_rep : dir_rep (file_content s sin T) m;
  d_count : din_size (din sin) = Z.of_nat (size m);
}.

Lemma content_nslots s F n sin T : file_ok s F n sin T → nslots (file_content s sin T) = din_blocks (din sin).
Proof. intros Hf. unfold nslots. rewrite (file_len s F n) by done. apply Z.div_mul. lia. Qed.

(** Outside of the inodes of [P], the device and the free map nothing changed. *)
Record frame (P : Z → Prop) s s' : Prop := {
  fr_nodes k : ¬ P k → inodes s' !! k = inodes s !! k;
  fr_mem : ∃ o, mem_same (set_oom s o <| inodes := ∅ |>) (s' <| inodes := ∅ |>);
}.

(** The inode [n] goes from one state to another: its blocks come from the
    free ones, and no block of others changes. *)
Record dmove (P : Z → Prop) n s F (sin : sfs_inode) T s' F' (sin' : sfs_inode) T' : Prop := {
  dm_frame : frame P s s';
  dm_sin : sin_same sin sin';
  dm_moved : moved F T F' T';
  dm_same : same_except (λ x, x ∈ F ∨ in_tree T x) s s';
}.

Lemma frame_trans P s1 s2 s3 : frame P s1 s2 → frame P s2 s3 → frame P s1 s3.
Proof.
  intros [H1 [o1 E1]] [H2 [o2 E2]]. constructor; [intros k Hk; by rewrite H2, H1|]. exists o2.
  destruct E1, E2. constructor; simpl in *; try congruence. auto.
Qed.
Lemma frame_weaken (P Q : Z → Prop) s s' : (∀ k, P k → Q k) → frame P s s' → frame Q s s'.
Proof. intros HPQ [H1 H2]. constructor; [|done]. intros k Hk. apply H1. intros Hp. by apply Hk, HPQ. Qed.
Lemma frame_blocks P s s' : frame P s s' → blocks (super s') = blocks (super s).
Proof. intros [_ [o []]]. done. Qed.
Lemma frame_set (P : Z → Prop) s k sin : P k → frame P s (set_sin s k sin).
Proof.
  intros Hk. constructor; [|exists (oom s); by constructor]. intros k' Hk'. simpl. apply lookup_insert_ne. by intros <-.
Qed.

Lemma step_dmove n s F sin T s' F' sin' T' : step n s F sin T s' F' sin' T' → dmove (λ k, k = n) n s F sin T s' F' sin' T'.
Proof.
  intros [o [Hf [Hn Hm] Hs Hz Hmv Hse]]. constructor; [|done|done|done]. constructor; [done|]. by exists o.
Qed.
Lemma dmove_trans P n s1 F1 sin1 T1 s2 F2 sin2 T2 s3 F3 sin3 T3 :
  dmove P n s1 F1 sin1 T1 s2 F2 sin2 T2 → dmove P n s2 F2 sin2 T2 s3 F3 sin3 T3 → dmove P n s1 F1 sin1 T1 s3 F3 sin3 T3.
Proof.
  intros [Hf1 Hs1 Hm1 He1] [Hf2 Hs2 Hm2 He2]. constructor; [by eapply frame_trans|by etrans|by eapply moved_trans|].
  intros x Hx Hnt. rewrite He2, He1; [done|done|done|by rewrite (frame_blocks _ _ _ Hf1)|].
  intros Hx'. apply Hnt. by apply (mv_all _ _ _ _ Hm1).
Qed.
Lemma dmove_weaken (P Q : Z → Prop) n s F sin T s' F' sin' T' :
  (∀ k, P k → Q k) → dmove P n s F sin T s' F' sin' T' → dmove Q n s F sin T s' F' sin' T'.
Proof. intros HPQ []. constructor; [by eapply frame_weaken|done..]. Qed.

(** Changes of inodes in memory only. *)
Lemma file_set s F n sin T sin' :
  file_ok s F n sin T → direct (din sin') = direct (din sin) → indirect (din sin') = indirect (din sin) →
  db_indirect (din sin') = db_indirect (din sin) → din_blocks (din sin') = din_blocks (din sin) →
  file_ok (set_sin s n sin') F n sin' T ∧ file_content (set_sin s n sin') sin' T = file_content s sin T.
Proof.
  intros [Ha Hd Hb] H1 H2 H3 H4. split; [|unfold file_content; rewrite H4; by apply content_blk].
  constructor; [|by rewrite H4|by rewrite H4]. apply (file_set_sin s F n sin sin' T); [done|].
  apply (tree_din_ext _ (din sin)); [apply Ha|done..].
Qed.
Lemma file_set_other s F n sin T k x :
  file_ok s F n sin T → k ≠ n → file_ok (set_sin s k x) F n sin T ∧ file_content (set_sin s k x) sin T = file_content s sin T.
Proof.
  intros [[Hv Hn Hin Ht] Hd Hb] Hk. split; [|by apply content_blk]. constructor; [|done|done].
  constructor; [by apply vol_set|simpl; by rewrite lookup_insert_ne|done|done].
Qed.

(** ** Reading and searching *)

Lemma dir_read s F n sin T m s' : dir_ok s F n sin T m → step n s F sin T s' F sin T →
  file_content s' sin T = file_content s sin T → dir_ok s' F n sin T m.
Proof. intros [] Hs Hc. constructor; [by eapply step_file|done|by rewrite Hc|done]. Qed.

(** What a search answers. *)
Definition search_result s (sin : sfs_inode) T m name (f : found) : Prop :=
  f_ret f = - E_NO_MEM ∨
  f_ret f = 0 ∧ m !! name = Some (f_ino f) ∧ 0 ≤ f_slot f < din_blocks (din sin) ∧
    slot_entry (file_content s sin T) (f_slot f) = (f_ino f, name) ∧ f_ino f ≠ 0 ∨
  f_ret f = - E_NOENT ∧ m !! name = None ∧ slot_free (file_content s sin T) (f_empty f).

Lemma dir_search s F n sin T m name :
  dir_ok s F n sin T m → len name ≤ SFS_MAX_FNAME_LEN →
  ∃ f s', sfs_dirent_search_nolock n name s = Ok (f, s') ∧ dir_ok s' F n sin T m ∧ step n s F sin T s' F sin T ∧
    file_content s' sin T = file_content s sin T ∧ inodes s' = inodes s ∧ same_except (λ _, False) s s' ∧
    oom s' = tail (oom s) ∧ (f_ret f = - E_NO_MEM → head (oom s) = Some false) ∧ search_result s sin T m name f.
Proof.
  intros Hd Hl. pose proof Hd as [Hf Ht Hr Hc]. destruct (search_ok s F n sin T name Hf Ht Hl) as (f & s' & E & Hs & Hcase).
  assert (step n s F sin T s' F sin T) as Hst.
  { exists (tail (oom s)). destruct Hs as [Hf' Hio He _].
    apply io_progress; [by apply file_oom|apply Hf'|done|done]. }
  assert (file_content s' sin T = file_content s sin T) as Hcs by by rewrite (rs_content _ _ _ _ _ _ Hs), content_oom.
  exists f, s'. split_and!; [done|by eapply dir_read|done|done|apply (m_inodes _ _ (io_mem_same _ _ (rs_io _ _ _ _ _ _ Hs)))| |apply (m_oom _ _ (io_mem_same _ _ (rs_io _ _ _ _ _ _ Hs)))| |].
  - intros x Hx Hno. by apply (rs_blocks _ _ _ _ _ _ Hs).
  - intros E1. destruct Hcase as [[_ ?]|[[E2 _]|[E2 _]]]; [done|rewrite E1 in E2; done..].
  - destruct Hcase as [[? _]|[(E1 & Hsl & Hso & Hz)|(E1 & He & Hno)]]; [by left|right; left|right; right].
    + unfold slot_of in Hso. split_and!; [done| |lia|lia|done|done].
      apply (rep_lookup _ _ Hr (f_slot f)); [by rewrite (content_nslots s F n)|done|done].
    + split_and!; [done| |].
      * apply (rep_missing _ _ Hr). intros i Hi. rewrite (content_nslots s F n) in Hi by done. by apply Hno.
      * unfold slot_free. rewrite (content_nslots s F n) by done. exact He.
Qed.

(** ** Writing an entry *)

(** After the entry [slot] was written: the size is the caller's to update. *)
Lemma dir_write s F n sin T m slot ino name :
  dir_ok s F n sin T m → 0 ≤ slot ≤ din_blocks (din sin) → slot < MAX_BLOCKS → name_ok name →
  ∃ ret s' F' sin' T', sfs_dirent_write_nolock n slot ino name s = Ok (ret, s') ∧ step n s F sin T s' F' sin' T' ∧
    ((ret = 0 ∧ file_content s' sin' T' = write_slot (file_content s sin T) slot ino name) ∨
     (ret = - E_NO_MEM ∧ (head (oom s) = Some false ∨ (size F' ≤ 1)%nat ∧ slot = din_blocks (din sin)) ∧ dir_ok s' F' n sin' T' m)).
Proof.
  intros [Hf Ht Hr Hc] Hs Hlt Hn. destruct (dirent_write_ok s F n sin T slot ino name) as (ret & s' & F' & sin' & T' & E & Hst & Hcase); [done..|].
  exists ret, s', F', sin', T'. split_and!; [done|done|]. destruct Hcase as [(-> & Hx)|(-> & Hx & Hy)]; [by left|right]. split_and!; [done|done|].
  pose proof Hst as [o [? ? Hss Hsz ? ?]]. constructor; [done|by rewrite (ss_type _ _ Hss)|by rewrite Hy|by rewrite Hsz].
Qed.

(** The inode of a new name, and of a name that is gone. *)
Definition linked (l : sfs_inode) : sfs_inode := l <| dirty := true |> <| din := din l <| din_nlinks := u16 (din_nlinks (din l) + 1) |> |>.
Definition unlinked (l : sfs_inode) : sfs_inode := l <| dirty := true |> <| din := din l <| din_nlinks := din_nlinks (din l) - 1 |> |>.
Definition resize (sin : sfs_inode) (k : Z) : sfs_inode := sin <| dirty := true |> <| din := din sin <| din_size := k |> |>.

Lemma resize_same a a' k : sin_same a a' → sin_same a (resize a' k).
Proof. intros []. by constructor. Qed.

(** The updates of [sfs_dirent_link_nolock] and [sfs_dirent_unlink_nolock]. *)
Lemma count_names s n sin lnk lsin (f g : sfs_disk_inode → sfs_disk_inode) :
  inodes s !! n = Some sin → inodes s !! lnk = Some lsin → lnk ≠ n →
  (_ ← set_dirty n; _ ← on_din n f; _ ← set_dirty lnk; _ ← on_din lnk g; mret 0) s =
  Ok (0, set_sin (set_sin s n (sin <| dirty := true |> <| din := f (din sin) |>)) lnk (lsin <| dirty := true |> <| din := g (din lsin) |>)).
Proof.
  intros Hn Hl Hne. rewrite (bind_ok _ _ _ _ _ (set_dirty_ok s n sin Hn)).
  rewrite (bind_ok _ _ _ _ _ (on_din_ok _ n _ f (set_sin_at _ _ _))), set_sin_twice.
  set (s1 := set_sin s n _). assert (inodes s1 !! lnk = Some lsin) as Hl1 by (unfold s1; simpl; by rewrite lookup_insert_ne).
  rewrite (bind_ok _ _ _ _ _ (set_dirty_ok s1 lnk lsin Hl1)).
  by rewrite (bind_ok _ _ _ _ _ (on_din_ok _ lnk _ g (set_sin_at _ _ _))), set_sin_twice.
Qed.

Lemma counted s F n sin T s1 F1 sin1 T1 lnk l k :
  step n s F sin T s1 F1 sin1 T1 → lnk ≠ n →
  let s' := set_sin (set_sin s1 n (resize sin1 k)) lnk l in
  file_ok s' F1 n (resize sin1 k) T1 ∧ file_content s' (resize sin1 k) T1 = file_content s1 sin1 T1 ∧
  dmove (λ x, x = n ∨ x = lnk) n s F sin T s' F1 (resize sin1 k) T1.
Proof.
  intros Hst Hne s'. pose proof (step_file _ _ _ _ _ _ _ _ _ Hst) as Hf.
  destruct (file_set s1 F1 n sin1 T1 (resize sin1 k)) as [Hf2 Hc2]; [done..|].
  destruct (file_set_other _ _ _ _ _ lnk l Hf2 Hne) as [Hf3 Hc3]. split_and!; [done|by unfold s'; rewrite Hc3|].
  destruct (step_dmove _ _ _ _ _ _ _ _ _ Hst) as [Hfr Hss Hmv Hse]. constructor; [|by apply resize_same|done|done].
  eapply frame_trans; [eapply frame_weaken; [|exact Hfr]; by left|].
  eapply frame_trans; [by apply (frame_set _ _ n); left|by apply frame_set; right].
Qed.

(** Adding a name. *)
Lemma dir_add s F n sin T m lnk lsin slot name :
  dir_ok s F n sin T m → lnk ≠ n → inodes s !! lnk = Some lsin → 0 < ino lsin < 2 ^ 32 → name_ok name →
  m !! name = None → slot_free (file_content s sin T) slot → din_blocks (din sin) < MAX_BLOCKS →
  ∃ ret s' F' sin' T', sfs_dirent_link_nolock n slot lnk name s = Ok (ret, s') ∧
    dmove (λ k, k = n ∨ k = lnk) n s F sin T s' F' sin' T' ∧
    ((ret = 0 ∧ dir_ok s' F' n sin' T' (<[name := ino lsin]> m) ∧ inodes s' !! lnk = Some (linked lsin) ∧ dirty sin' = true) ∨
     (ret = - E_NO_MEM ∧ (head (oom s) = Some false ∨ (size F' ≤ 1)%nat ∧ slot = din_blocks (din sin)) ∧
      dir_ok s' F' n sin' T' m ∧ inodes s' !! lnk = Some lsin)).
Proof.
  intros Hd Hne Hl Hino Hname Hfresh Hfree Hlt. pose proof Hd as [Hf Ht Hr Hc]. pose proof (content_nslots s F n sin T Hf) as Hns.
  pose proof (fo_blocks _ _ _ _ _ Hf) as Hbl. assert (0 ≤ slot ≤ din_blocks (din sin)) as Hs by (destruct Hfree; lia).
  destruct (dir_write s F n sin T m slot (ino lsin) name Hd Hs) as (ret & s1 & F1 & sin1 & T1 & E & Hst & Hcase); [lia|done|].
  unfold sfs_dirent_link_nolock. rewrite (bind_ok _ _ _ _ _ (get_sin_ok _ _ _ Hl)), (bind_ok _ _ _ _ _ E).
  pose proof (step_dmove _ _ _ _ _ _ _ _ _ Hst) as Hmv.
  assert (inodes s1 !! lnk = Some lsin) as Hl1 by by rewrite (fr_nodes _ _ _ (dm_frame _ _ _ _ _ _ _ _ _ _ Hmv)).
  destruct Hcase as [(-> & Hcn)|(-> & Hx & Hd1)]; cbn [negb Z.eqb].
  - pose proof (step_file _ _ _ _ _ _ _ _ _ Hst) as Hf1. pose proof (fa_node _ _ _ _ _ (fo_at _ _ _ _ _ Hf1)) as Hn1.
    rewrite (count_names s1 n sin1 lnk lsin _ _ Hn1 Hl1 Hne). set (k := u32 (din_size (din sin1) + 1)).
    destruct (counted s F n sin T s1 F1 sin1 T1 lnk (linked lsin) k Hst Hne) as (Hf' & Hc' & Hm').
    exists 0, (set_sin (set_sin s1 n (resize sin1 k)) lnk (linked lsin)), F1, (resize sin1 k), T1.
    split_and!; [done|done|left]. split_and!; [done| |by apply set_sin_at|done]. constructor; [done| | |].
    + cbn. by rewrite (ss_type _ _ (dm_sin _ _ _ _ _ _ _ _ _ _ Hmv)).
    + rewrite Hc', Hcn. by apply rep_insert.
    + cbn. rewrite map_size_insert_None by done. pose proof (dir_rep_size _ _ Hr) as Hsz. rewrite Hns in Hsz.
      destruct Hst as [o [? ? ? Hz ? ?]]. unfold k. rewrite Hz, Hc, u32_id by (unfold MAX_BLOCKS in Hlt; lia). lia.
  - exists (- E_NO_MEM), s1, F1, sin1, T1. split_and!; [done|eapply dmove_weaken; [|done]; by left|right]. by split_and!.
Qed.

(** Removing a name. *)
Lemma dir_del s F n sin T m lnk lsin slot name ino_ :
  dir_ok s F n sin T m → lnk ≠ n → inodes s !! lnk = Some lsin → din_nlinks (din lsin) ≠ 0 →
  0 ≤ slot < din_blocks (din sin) → slot_entry (file_content s sin T) slot = (ino_, name) → ino_ ≠ 0 →
  ∃ ret s' F' sin' T', sfs_dirent_unlink_nolock n slot lnk s = Ok (ret, s') ∧
    dmove (λ k, k = n ∨ k = lnk) n s F sin T s' F' sin' T' ∧
    ((ret = 0 ∧ dir_ok s' F' n sin' T' (delete name m) ∧ inodes s' !! lnk = Some (unlinked lsin) ∧
      slot_free (file_content s' sin' T') slot ∧ din_blocks (din sin') = din_blocks (din sin) ∧ dirty sin' = true) ∨
     (ret = - E_NO_MEM ∧ head (oom s) = Some false ∧ dir_ok s' F' n sin' T' m ∧ inodes s' !! lnk = Some lsin)).
Proof.
  intros Hd Hne Hl Hnl Hs Hslot Hino. pose proof Hd as [Hf Ht Hr Hc]. pose proof (content_nslots s F n sin T Hf) as Hns.
  pose proof (fo_blocks _ _ _ _ _ Hf) as Hbl. assert (name_ok []) as Hname by by apply (bool_decide_unpack _).
  destruct (dir_write s F n sin T m slot 0 [] Hd) as (ret & s1 & F1 & sin1 & T1 & E & Hst & Hcase); [lia|lia|done|].
  unfold sfs_dirent_unlink_nolock. rewrite (bind_ok _ _ _ _ _ E). pose proof (step_dmove _ _ _ _ _ _ _ _ _ Hst) as Hmv.
  assert (inodes s1 !! lnk = Some lsin) as Hl1 by by rewrite (fr_nodes _ _ _ (dm_frame _ _ _ _ _ _ _ _ _ _ Hmv)).
  destruct Hcase as [(-> & Hcn)|(-> & Hx & Hd1)]; cbn [negb Z.eqb].
  - pose proof (step_file _ _ _ _ _ _ _ _ _ Hst) as Hf1. pose proof (fa_node _ _ _ _ _ (fo_at _ _ _ _ _ Hf1)) as Hn1.
    destruct (rep_delete _ _ Hr slot ino_ name) as (Hr' & Hm & Hns' & Hz); [lia|done|done|].
    assert (size m ≠ 0%nat) as Hsz by (intros ->%map_size_empty_inv; by rewrite lookup_empty in Hm).
    assert (din_size (din sin1) = din_size (din sin)) as Hss by by destruct Hst as [o [? ? ? ? ? ?]].
    rewrite (bind_ok _ _ _ _ _ (get_din_ok _ _ _ Hn1)), (bind_ok _ _ _ _ _ (get_din_ok _ _ _ Hl1)).
    rewrite (bind_ok _ _ s1 tt s1) by (unfold assert; by rewrite Hss, Hc, !(proj2 (Z.eqb_neq _ 0)) by (done || lia)).
    rewrite (count_names s1 n sin1 lnk lsin _ _ Hn1 Hl1 Hne). set (k := din_size (din sin1) - 1).
    destruct (counted s F n sin T s1 F1 sin1 T1 lnk (unlinked lsin) k Hst Hne) as (Hf' & Hc' & Hm').
    exists 0, (set_sin (set_sin s1 n (resize sin1 k)) lnk (unlinked lsin)), F1, (resize sin1 k), T1.
    assert (din_blocks (din sin1) = din_blocks (din sin)) as Hb by by rewrite <-(content_nslots _ _ _ _ _ Hf1), Hcn, <-Hns.
    split_and!; [done|done|left]. split_and!; [done| |by apply set_sin_at| |done|done]. 
    + constructor; [done| | |].
      * cbn. by rewrite (ss_type _ _ (dm_sin _ _ _ _ _ _ _ _ _ _ Hmv)).
      * rewrite Hc', Hcn. done.
      * cbn. unfold k. rewrite map_size_delete_Some by by eexists. rewrite Hss, Hc. lia.
    + rewrite Hc', Hcn. right. unfold write_slot in *. rewrite Hns', Hns. done.
  - exists (- E_NO_MEM), s1, F1, sin1, T1. split_and!; [done|eapply dmove_weaken; [|done]; by left|right].
    split_and!; [done| |done|done]. destruct Hx as [?|[_ ?]]; [done|lia].
Qed.
End dir.

(** * Names *)

Lemma too_long_spec name : too_long name = negb (len name <=? SFS_MAX_FNAME_LEN).
Proof. unfold too_long. by rewrite Z.leb_antisym, negb_involutive. Qed.
Lemma is_dots_spec name : is_dots name = true ↔ name = DOT ∨ name = DOTDOT.
Proof. unfold is_dots. by rewrite orb_true_iff, !bool_decide_eq_true. Qed.

(** A name that an operation on entries accepts. *)
Lemma name_checks name : len name ≤ SFS_MAX_FNAME_LEN → name ≠ DOT → name ≠ DOTDOT → too_long name = false ∧ is_dots name = false.
Proof.
  intros Hl H1 H2. rewrite too_long_spec, (proj2 (Z.leb_le _ _)) by done. split; [done|].
  destruct (is_dots name) eqn:E; [|done]. apply is_dots_spec in E. tauto.
Qed.

Lemma splice_same l p a b : in_range l p (len a) = true → length a = length b → splice (splice l p a) p b = splice l p b.
Proof.
  intros Hr Hl. assert (in_range l p (len b) = true) as Hrb by by rewrite <-Hl.
  apply list_eq. intros i. rewrite !splice_lookup; [|done|done|]; [|by apply in_range_spec; rewrite splice_length; [apply in_range_spec|]].
  rewrite Hl. by repeat case_decide.
Qed.

Lemma write_slot_twice C i a x b y :
  name_ok x → name_ok y → 0 ≤ i → write_slot (write_slot C i a x) i b y = write_slot C i b y.
Proof.
  intros Hx Hy Hi. pose proof (new_entry_len a x Hx) as Ha. pose proof (new_entry_len b y Hy) as Hb.
  assert (ext (write_slot C i a x) (i + 1) = write_slot C i a x) as E by (apply ext_id; rewrite write_slot_len by done; lia).
  unfold write_slot at 1. rewrite E. unfold write_slot. apply splice_same; [|lia].
  apply in_range_spec. rewrite ext_len, Ha. unfold sizeof_entry. lia.
Qed.

(** Giving a slot another name. *)
Lemma rep_rename C m i ino name new :
  dir_rep C m → 0 ≤ i < nslots C → slot_entry C i = (ino, name) → 0 < ino < 2 ^ 32 → m !! new = None → name_ok new →
  dir_rep (write_slot C i ino new) (<[new := ino]> (delete name m)).
Proof.
  intros Hr Hi Hs Hino Hnew Hn. assert (name_ok []) as Hnil by by apply (bool_decide_unpack _).
  destruct (rep_delete C m Hr i ino name Hi Hs ltac:(lia)) as (Hr' & Hm & Hns & Hz).
  rewrite <-(write_slot_twice C i 0 [] ino new) by (done || lia).
  apply rep_insert; [done|by rewrite lookup_delete_ne by congruence|right; split; [by rewrite Hns|done]|done|done].
Qed.

Section names.
Context {D : Type} `{BlockDevice D, !BlockDeviceLaws D}.
Implicit Types (s : sfs_fs D) (b n : Z) (F : gset Z) (T : tree) (sin : sfs_inode) (name : list Z) (m : gmap (list Z) Z).

(** Nothing but the device's own state and the pending allocations changed. *)
Record looked s s' : Prop := {
  lk_frame : frame (λ _, False) s s';
  lk_blocks : same_except (λ _, False) s s';
}.

Lemma looked_dmove P n s F sin T s' : file_ok s F n sin T → looked s s' → dmove P n s F sin T s' F sin T.
Proof.
  intros Hf [Hfr Hb]. constructor; [by eapply frame_weaken; [|done]|done| |by eapply same_except_weaken; [|done]].
  apply moved_refl. intros x Hx. by apply (fa_in _ _ _ _ _ (fo_at _ _ _ _ _ Hf)).
Qed.

Lemma step_looked n s F sin T s' :
  step n s F sin T s' F sin T → inodes s' = inodes s → same_except (λ _, False) s s' → looked s s'.
Proof.
  intros [o [? [? Hm] ? ? ? ?]] Hi Hb. constructor; [|done]. constructor; [intros; by rewrite Hi|by exists o].
Qed.

Lemma trylock_ok s F n sin T : file_ok s F n sin T →
  trylock_sin n s = Ok (if SFSInodeRemoved sin then - E_NOENT else 0, s).
Proof.
  intros Hf. unfold trylock_sin. by rewrite (bind_ok _ _ _ _ _ (get_sin_ok _ _ _ (fa_node _ _ _ _ _ (fo_at _ _ _ _ _ Hf)))).
Qed.

(** C21.  A new name for a file.  A directory promises a map from names to
    inodes.  [sfs_link] refuses names that are too long, ["."] and [".."], links
    to directories and a directory that was removed, without an effect.
    Otherwise it answers [-E_EXISTS] when the name is taken; else it adds the
    name, which now maps to the inode's number, and counts the link in the
    inode; or it fails for want of memory or of blocks and the directory has the
    names it had.  Other inodes, and blocks that are neither free nor the
    directory's, are as before. *)
Theorem sfs_link_correct s F n sin T m lnk lsin name :
  dir_ok s F n sin T m → lnk ≠ n → inodes s !! lnk = Some lsin → 0 < ino lsin < 2 ^ 32 → Forall (λ c, c ≠ 0) name →
  din_blocks (din sin) < MAX_BLOCKS →
  (SFS_MAX_FNAME_LEN < len name → sfs_link n name lnk s = Ok (- E_TOO_BIG, s)) ∧
  (name = DOT ∨ name = DOTDOT → sfs_link n name lnk s = Ok (- E_EXISTS, s)) ∧
  (len name ≤ SFS_MAX_FNAME_LEN → name ≠ DOT → name ≠ DOTDOT →
    (din_type (din lsin) = SFS_TYPE_DIR → sfs_link n name lnk s = Ok (- E_ISDIR, s)) ∧
    (din_type (din lsin) ≠ SFS_TYPE_DIR → SFSInodeRemoved sin = true → sfs_link n name lnk s = Ok (- E_NOENT, s)) ∧
    (din_type (din lsin) ≠ SFS_TYPE_DIR → SFSInodeRemoved sin = false →
      ∃ ret s' F' sin' T', sfs_link n name lnk s = Ok (ret, s') ∧ dmove (λ k, k = n ∨ k = lnk) n s F sin T s' F' sin' T' ∧
        ((ret = 0 ∧ m !! name = None ∧ dir_ok s' F' n sin' T' (<[name := ino lsin]> m) ∧ inodes s' !! lnk = Some (linked lsin)) ∨
         (dir_ok s' F' n sin' T' m ∧ inodes s' !! lnk = Some lsin ∧
          (ret = - E_EXISTS ∧ is_Some (m !! name) ∨
           ret = - E_NO_MEM ∧ (head (oom s) = Some false ∨ head (tail (oom s)) = Some false ∨ (size F' ≤ 1)%nat)))))).
Proof.
  intros Hd Hne Hl Hino Hnul Hlt. pose proof (d_file _ _ _ _ _ _ Hd) as Hf. split; [|split; [|intros Hlen Hdot Hdd]].
  - intros Hlong. unfold sfs_link. by rewrite too_long_spec, (proj2 (Z.leb_gt _ _)).
  - intros Hdots. unfold sfs_link. rewrite (proj2 (is_dots_spec name) Hdots), too_long_spec.
    by destruct Hdots as [-> | ->].
  - destruct (name_checks name Hlen Hdot Hdd) as [Hlong Hdots].
    assert (sfs_link n name lnk s = if din_type (din lsin) =? SFS_TYPE_DIR then Ok (- E_ISDIR, s)
      else if SFSInodeRemoved sin then Ok (- E_NOENT, s) else sfs_link_nolock n lnk name s) as E.
    { unfold sfs_link. rewrite Hlong, Hdots, (bind_ok _ _ _ _ _ (get_din_ok _ _ _ Hl)). destruct (_ =? SFS_TYPE_DIR); [done|].
      rewrite (bind_ok _ _ _ _ _ (trylock_ok _ _ _ _ _ Hf)). by destruct (SFSInodeRemoved sin). }
    rewrite E. split; [|split]; [by intros ->|by intros ->%Z.eqb_neq ->|intros ->%Z.eqb_neq ->].
    destruct (dir_search s F n sin T m name Hd Hlen) as (f & s1 & E1 & Hd1 & Hst & Hc & Hi & Hb & Ho & Hoom & Hres).
    pose proof (looked_dmove (λ k, k = n ∨ k = lnk) _ _ _ _ _ _ Hf (step_looked _ _ _ _ _ _ Hst Hi Hb)) as Hmv.
    unfold sfs_link_nolock. rewrite (bind_ok _ _ _ _ _ E1).
    destruct Hres as [Er|[(Er & Hm & Hsl & Hso & Hz)|(Er & Hm & Hfree)]]; rewrite Er.
    + exists (- E_NO_MEM), s1, F, sin, T. split_and!; [done|done|right]. split_and!; [done|by rewrite Hi|right]. split; [done|left]. by apply Hoom.
    + exists (- E_EXISTS), s1, F, sin, T. split_and!; [done|done|right]. split_and!; [done|by rewrite Hi|left]. by rewrite Hm.
    + rewrite Z.eqb_refl. cbn [negb]. rewrite <-Hc in Hfree.
      destruct (dir_add s1 F n sin T m lnk lsin (f_empty f) name) as (ret & s' & F' & sin' & T' & E' & Hmv' & Hcase);
        [done|done|by rewrite Hi|done|done|done|done|done|].
      exists ret, s', F', sin', T'. split_and!; [done|by eapply dmove_trans|].
      destruct Hcase as [(-> & Hd' & Hl' & _)|(-> & Hx & Hd' & Hl')]; [left; by split_and!|right]. split_and!; [done|done|right]. split; [done|]. rewrite Ho in Hx. tauto.
Qed.

(** C22.  Renaming within a directory.  Names that are too long and the dots are
    refused, and so is a directory that was removed.  Renaming a name to itself
    does nothing, whether it exists or not.  Otherwise a missing name is
    [-E_NOENT] and a taken new name [-E_EXISTS]; else the new name maps to what
    the old one did and the old one is gone; or it fails for want of memory
    and the names are as before.  No block outside of the directory changes, and
    no other inode. *)
Theorem sfs_rename_correct s F n sin T m name new :
  dir_ok s F n sin T m → Forall (λ c, c ≠ 0) new → (∀ x i, m !! x = Some i → 0 ≤ i < 2 ^ 32) →
  (SFS_MAX_FNAME_LEN < len name ∨ SFS_MAX_FNAME_LEN < len new → sfs_rename n name n new s = Ok (- E_TOO_BIG, s)) ∧
  (len name ≤ SFS_MAX_FNAME_LEN → len new ≤ SFS_MAX_FNAME_LEN →
    (name = DOT ∨ name = DOTDOT → sfs_rename n name n new s = Ok (- E_INVAL, s)) ∧
    (name ≠ DOT → name ≠ DOTDOT → new = DOT ∨ new = DOTDOT → sfs_rename n name n new s = Ok (- E_EXISTS, s)) ∧
    (name ≠ DOT → name ≠ DOTDOT → new ≠ DOT → new ≠ DOTDOT →
      (SFSInodeRemoved sin = true → sfs_rename n name n new s = Ok (- E_NOENT, s)) ∧
      (SFSInodeRemoved sin = false → name = new → sfs_rename n name n new s = Ok (0, s)) ∧
      (SFSInodeRemoved sin = false → name ≠ new →
        ∃ ret s' F' sin' T', sfs_rename n name n new s = Ok (ret, s') ∧ dmove (λ k, k = n) n s F sin T s' F' sin' T' ∧
          ((ret = 0 ∧ ∃ i, m !! name = Some i ∧ m !! new = None ∧ dir_ok s' F' n sin' T' (<[new := i]> (delete name m))) ∨
           (dir_ok s' F' n sin' T' m ∧
            (ret = - E_NOENT ∧ m !! name = None ∨ ret = - E_EXISTS ∧ is_Some (m !! name) ∧ is_Some (m !! new) ∨
             ret = - E_NO_MEM ∧ Some false ∈ (head <$> [oom s; tail (oom s); tail (tail (oom s))]))))))).
Proof.
  intros Hd Hnul Hrange. pose proof (d_file _ _ _ _ _ _ Hd) as Hf. pose proof (fo_blocks _ _ _ _ _ Hf) as Hmax. split; [|intros Hl1 Hl2; split; [|split]].
  - intros Hlong. unfold sfs_rename. rewrite !too_long_spec. destruct Hlong as [Hx|Hx]; rewrite (proj2 (Z.leb_gt _ _) Hx); [done|].
    by rewrite orb_true_r.
  - intros Hdots. unfold sfs_rename. by rewrite !too_long_spec, !(proj2 (Z.leb_le _ _)), (proj2 (is_dots_spec name) Hdots) by done.
  - intros Hn1 Hn2 Hdots. unfold sfs_rename. destruct (name_checks name Hl1 Hn1 Hn2) as [-> ->].
    by rewrite !too_long_spec, !(proj2 (Z.leb_le _ _)), (proj2 (is_dots_spec new) Hdots) by done.
  - intros Hn1 Hn2 Hm1 Hm2. destruct (name_checks name Hl1 Hn1 Hn2) as [Ha Hb], (name_checks new Hl2 Hm1 Hm2) as [Hc Hd'].
    assert (sfs_rename n name n new s = if SFSInodeRemoved sin then Ok (- E_NOENT, s) else sfs_rename1_nolock n name new s) as E.
    { unfold sfs_rename. rewrite Ha, Hb, Hc, Hd'. cbn [orb]. rewrite (bind_ok _ _ _ _ _ (trylock_ok _ _ _ _ _ Hf)), Z.eqb_refl.
      by destruct (SFSInodeRemoved sin). }
    rewrite E. split; [|split]; [by intros ->|intros -> ->|intros -> Hdiff].
    { unfold sfs_rename1_nolock. by rewrite bool_decide_true. }
    unfold sfs_rename1_nolock. rewrite bool_decide_false by done.
    destruct (dir_search s F n sin T m name Hd Hl1) as (f & s1 & E1 & Hd1 & Hst1 & Hc1 & Hi1 & Hb1 & Ho1 & Hoom1 & Hres1).
    rewrite (bind_ok _ _ _ _ _ E1).
    destruct Hres1 as [Er|[(Er & Hm & Hsl & Hso & Hz)|(Er & Hm & _)]]; rewrite Er.
    { exists (- E_NO_MEM), s1, F, sin, T. split_and!; [done|by apply step_dmove|right]. split; [done|right; right]. split; [done|].
      rewrite <-(Hoom1 Er). by left. }
    2: { exists (- E_NOENT), s1, F, sin, T. split_and!; [done|by apply step_dmove|right]. split; [done|by left]. }
    cbn [negb Z.eqb].
    destruct (dir_search s1 F n sin T m new Hd1 Hl2) as (g & s2 & E2 & Hd2 & Hst2 & Hc2 & Hi2 & Hb2 & Ho2 & Hoom2 & Hres2).
    rewrite (bind_ok _ _ _ _ _ E2). pose proof (step_trans _ _ _ _ _ _ _ _ _ _ _ _ _ Hst1 Hst2) as Hst.
    destruct Hres2 as [Er2|[(Er2 & Hm' & _)|(Er2 & Hm' & _)]]; rewrite Er2.
    { exists (- E_NO_MEM), s2, F, sin, T. split_and!; [done|by apply step_dmove|right]. split; [done|right; right]. split; [done|].
      rewrite <-(Hoom2 Er2), Ho1. right. by left. }
    { exists (- E_EXISTS), s2, F, sin, T. split_and!; [done|by apply step_dmove|right]. split; [done|right; left]. by rewrite Hm, Hm'. }
    rewrite Z.eqb_refl. cbn [negb].
    destruct (dir_write s2 F n sin T m (f_slot f) (f_ino f) new Hd2) as (ret & s' & F' & sin' & T' & E3 & Hst3 & Hcase);
      [lia|lia|done|].
    rewrite E3. pose proof (step_trans _ _ _ _ _ _ _ _ _ _ _ _ _ Hst Hst3) as Hst'.
    exists ret, s', F', sin', T'. split_and!; [done|by apply step_dmove|].
    destruct Hcase as [(-> & Hcn)|(-> & [Hx|Hx] & Hd3)]; [left|right|lia].
    + split; [done|]. exists (f_ino f). split_and!; [done|done|].
      assert (dir_rep (write_slot (file_content s2 sin T) (f_slot f) (f_ino f) new) (<[new := f_ino f]> (delete name m))) as Hrep.
      { apply rep_rename; [apply Hd2|rewrite (content_nslots s2 F n) by apply Hd2; lia|by rewrite Hc2, Hc1| |done|done].
        pose proof (Hrange _ _ Hm). lia. }
      destruct Hst' as [o [Hf' ? Hss Hsz ? ?]]. constructor; [done|by rewrite (ss_type _ _ Hss), (d_type _ _ _ _ _ _ Hd)|by rewrite Hcn|].
      rewrite Hsz, (d_count _ _ _ _ _ _ Hd). rewrite map_size_insert_None by by rewrite lookup_delete_ne by congruence.
      rewrite map_size_delete_Some by by eexists. assert (size m ≠ 0%nat); [|lia].
      intros ->%map_size_empty_inv. by rewrite lookup_empty in Hm.
    + split; [done|right; right]. split; [done|]. rewrite <-Hx, Ho2, Ho1. do 2 right. by left.
Qed.
End names.
