(* ===== verification/SfsCache.v ===== *)
(** * The inode cache

    The inodes in memory are on one list and on the hash lists: at most one for
    each inode number.  Looking up, loading, creating and forgetting inodes. *)

From S2P Require Import Prelude DList Mem Slab Bitmap Bytes Disk Sfs SfsVol SfsTree SfsMap SfsFile SfsIo SfsFileSpec SfsDir SfsDirent SfsDirSpec.

Section cache.
Context {D : Type} `{BlockDevice D, !BlockDeviceLaws D}.
Implicit Types (s : sfs_fs D) (b n i : Z) (F : gset Z) (T : tree) (sin : sfs_inode) (L : gmap flink (list flink)) (ns : list Z).

Lemma sin_hashfn_range x : 0 ≤ sin_hashfn x < SFS_HLIST_SIZE.
Proof.
  unfold sin_hashfn, hash32, SFS_HLIST_SHIFT. change (32 - 10) with 22. change SFS_HLIST_SIZE with 1024.
  rewrite Z.shiftr_div_pow2 by done. unfold u32. pose proof (Z.mod_pos_bound (x * 2654404609) (2 ^ 32) ltac:(done)).
  split; [apply Z.div_pos; lia|apply Z.div_lt_upper_bound; lia].
Qed.

(** The inodes [ns] are in memory; [hs] gives the hash lists. *)
Record cache_at (nodes : gmap Z sfs_inode) L ns (hs : Z → list Z) : Prop := {
  ca_keys k l : L !! k = Some l → k = InodeList ∨ ∃ h, k = HashList h ∧ 0 ≤ h < SFS_HLIST_SIZE;
  ca_list : L !! InodeList = Some (InodeLink <$> ns);
  ca_hash h : 0 ≤ h < SFS_HLIST_SIZE → L !! HashList h = Some (HashLink <$> hs h);
  ca_bucket h n : 0 ≤ h < SFS_HLIST_SIZE → n ∈ hs h ↔ ∃ sin, nodes !! n = Some sin ∧ sin_hashfn (ino sin) = h;
  ca_nodes n : n ∈ ns ↔ is_Some (nodes !! n);
  ca_inj n1 n2 sin1 sin2 : nodes !! n1 = Some sin1 → nodes !! n2 = Some sin2 → ino sin1 = ino sin2 → n1 = n2;
}.
Definition cache_ok s : Prop := ∃ L ns hs, rep (flinks s) L ∧ cache_at (inodes s) L ns hs ∧ ∀ n, is_Some (inodes s !! n) → n < next_inode s.

(** The cache depends on the numbers of the inodes only. *)
Lemma cache_nodes nodes nodes' L ns hs :
  cache_at nodes L ns hs → (∀ n, ino <$> nodes' !! n = ino <$> nodes !! n) → cache_at nodes' L ns hs.
Proof.
  intros [Hk Hl Hh Hb Hn Hi] He. assert (∀ n sin, nodes' !! n = Some sin → ∃ sin0, nodes !! n = Some sin0 ∧ ino sin0 = ino sin) as H1.
  { intros n sin E. pose proof (He n) as Hx. rewrite E in Hx. destruct (nodes !! n) as [s0|]; simplify_eq/=. by exists s0. }
  assert (∀ n sin, nodes !! n = Some sin → ∃ sin0, nodes' !! n = Some sin0 ∧ ino sin0 = ino sin) as H2.
  { intros n sin E. pose proof (He n) as Hx. rewrite E in Hx. destruct (nodes' !! n) as [s0|]; simplify_eq/=. by exists s0. }
  constructor; [done|done|done| | |].
  - intros h n Hr. rewrite (Hb h n Hr). split; intros (sin & E & Hs); [destruct (H2 _ _ E) as (s0 & E0 & Ei)|destruct (H1 _ _ E) as (s0 & E0 & Ei)];
      exists s0; by rewrite Ei.
  - intros n. rewrite Hn. split; intros [sin E]; [destruct (H2 _ _ E) as (s0 & E0 & _)|destruct (H1 _ _ E) as (s0 & E0 & _)]; by exists s0.
  - intros n1 n2 s1 s2 E1 E2 Hii. destruct (H1 _ _ E1) as (x1 & Ex1 & Hx1), (H1 _ _ E2) as (x2 & Ex2 & Hx2). apply (Hi n1 n2 x1 x2); congruence.
Qed.

Lemma cache_set s n sin sin' : cache_ok s → inodes s !! n = Some sin → ino sin' = ino sin → cache_ok (set_sin s n sin').
Proof.
  intros (L & ns & hs & Hr & Hc & Hn) E Hi. exists L, ns, hs. split_and!; [done| |].
  - eapply cache_nodes; [done|]. intros k. simpl. destruct (decide (k = n)) as [->|]; [by rewrite lookup_insert_eq, E; simpl; rewrite Hi|by rewrite lookup_insert_ne].
  - intros k. simpl. destruct (decide (k = n)) as [->|]; [intros _; apply Hn; by eexists|rewrite lookup_insert_ne by done; apply Hn].
Qed.

(** The numbers of the inodes in memory are as they were. *)
Lemma cache_inos s s' : cache_ok s → flinks s' = flinks s → next_inode s' = next_inode s →
  (∀ k, ino <$> inodes s' !! k = ino <$> inodes s !! k) → cache_ok s'.
Proof.
  intros (L & ns & hs & Hr & Hc & Hn) Hf Hx Hi. exists L, ns, hs. rewrite Hf, Hx. split_and!; [done|by eapply cache_nodes|].
  intros k [x Ek]. apply Hn. specialize (Hi k). rewrite Ek in Hi. destruct (inodes s !! k); [by eexists|done].
Qed.

Lemma cache_same s s' : flinks s' = flinks s → inodes s' = inodes s → next_inode s' = next_inode s → cache_ok s → cache_ok s'.
Proof. unfold cache_ok. by intros -> -> ->. Qed.

(** Walking to the next element of a list. *)
Lemma walk_next h L k l1 x l2 : rep h L → L !! k = Some (l1 ++ x :: l2) → list_next (cursor k l1) h = Ok (x, h).
Proof.
  intros Hr Hk. destruct (cursor_split k l1) as [a Ha]. exact (list_next_spec h L k l1 (x :: l2) a (cursor k l1) x (l2 ++ [k]) Hr Hk Ha eq_refl).
Qed.
Lemma walk_end h L k l : rep h L → L !! k = Some l → list_next (cursor k l) h = Ok (k, h).
Proof.
  intros Hr Hk. destruct (cursor_split k l) as [a Ha].
  apply (list_next_spec h L k l [] a (cursor k l) k [] Hr); [by rewrite app_nil_r|done|done].
Qed.

Lemma flinks_next s le v : list_next le (flinks s) = Ok (v, flinks s) → on_field flinks (list_next le) s = Ok (v, s).
Proof. intros E. rewrite (on_field_ok flinks _ _ _ _ E). by destruct s. Qed.

(** ** Looking up *)

(** A cached inode with one more reference. *)
Definition grab (sin : sfs_inode) : sfs_inode :=
  let c := s32 (ref_count sin + 1) in
  let sin := sin <| ref_count := c |> in
  if c =? 1 then sin <| reclaim_count := s32 (reclaim_count sin + 1) |> else sin.

Lemma ref_inc_ok s n sin : inodes s !! n = Some sin →
  inode_ref_inc n s = Ok (s32 (ref_count sin + 1), set_sin s n (sin <| ref_count := s32 (ref_count sin + 1) |>)).
Proof. intros E. unfold inode_ref_inc. by rewrite (bind_ok _ _ _ _ _ (get_sin_ok _ _ _ E)). Qed.

Lemma lookup_loop s L h l1 l2 fuel i :
  rep (flinks s) L → L !! HashList h = Some (HashLink <$> (l1 ++ l2)) → (length l2 < fuel)%nat →
  (∀ n, n ∈ l2 → is_Some (inodes s !! n)) →
  loop fuel (lookup_nolock_body i (HashList h)) (cursor (HashList h) (HashLink <$> l1)) s =
  match list_find (λ n, (ino <$> inodes s !! n) = Some i) l2 with
  | Some (_, n) => match inodes s !! n with Some sin => Ok (Some n, set_sin s n (grab sin)) | None => Err Fault end
  | None => Ok (None, s)
  end.
Proof.
  intros Hr. revert l1 fuel. induction l2 as [|x l2 IH]; intros l1 fuel Hk Hf Hns; (destruct fuel as [|fuel]; [simpl in Hf; lia|]).
  - rewrite app_nil_r in Hk. cbn [list_find]. apply loop_stop. unfold lookup_nolock_body.
    rewrite (bind_ok _ _ _ _ _ (flinks_next _ _ _ (walk_end _ _ _ _ Hr Hk))). by rewrite bool_decide_true.
  - destruct (Hns x) as [sin Hx]; [by left|]. pose proof Hk as Hk'. rewrite fmap_app, fmap_cons in Hk'.
    pose proof (flinks_next _ _ _ (walk_next _ _ _ _ _ _ Hr Hk')) as E. cbn [list_find].
    destruct (decide _) as [Hd|Hd].
    + rewrite Hx. rewrite Hx in Hd. simpl in Hd. apply loop_stop. unfold lookup_nolock_body. rewrite (bind_ok _ _ _ _ _ E).
      rewrite bool_decide_false by done. rewrite (bind_ok _ _ s x s) by done. rewrite (bind_ok _ _ _ _ _ (get_sin_ok _ _ _ Hx)).
      rewrite (proj2 (Z.eqb_eq (ino sin) i)) by congruence. rewrite (bind_ok _ _ _ _ _ (ref_inc_ok _ _ _ Hx)). unfold grab.
      destruct (s32 (ref_count sin + 1) =? 1); cbn [when]; [|done].
      rewrite (bind_ok _ _ _ _ _ (on_sin_ok _ _ _ _ (set_sin_at _ _ _))). by rewrite set_sin_twice.
    + rewrite (loop_next _ _ _ _ (cursor (HashList h) (HashLink <$> (l1 ++ [x]))) s).
      2: { rewrite fmap_app. change (HashLink <$> [x]) with [HashLink x]. rewrite cursor_snoc. unfold lookup_nolock_body. rewrite (bind_ok _ _ _ _ _ E).
           rewrite bool_decide_false by done. rewrite (bind_ok _ _ s x s) by done. rewrite (bind_ok _ _ _ _ _ (get_sin_ok _ _ _ Hx)).
           rewrite (proj2 (Z.eqb_neq (ino sin) i)); [done|]. intros <-. apply Hd. by rewrite Hx. }
      rewrite IH; [|by rewrite <-app_assoc|simpl in Hf; lia|intros; apply Hns; by right].
      destruct (list_find _ l2) as [[j m]|]; done.
Qed.

(** A lookup finds the inode with the number, if there is one. *)
Lemma lookup_nolock_ok s i :
  cache_ok s →
  (∃ n sin, inodes s !! n = Some sin ∧ ino sin = i ∧ lookup_sfs_nolock i s = Ok (Some n, set_sin s n (grab sin))) ∨
  ((∀ n sin, inodes s !! n = Some sin → ino sin ≠ i) ∧ lookup_sfs_nolock i s = Ok (None, s)).
Proof.
  intros (L & ns & hs & Hr & [Hk Hl Hh Hb Hn Hi] & _). pose proof (sin_hashfn_range i) as Hrange. set (h := sin_hashfn i) in *.
  assert (lookup_sfs_nolock i s = match list_find (λ n, (ino <$> inodes s !! n) = Some i) (hs h) with
    | Some (_, n) => match inodes s !! n with Some sin => Ok (Some n, set_sin s n (grab sin)) | None => Err Fault end
    | None => Ok (None, s) end) as E.
  { unfold lookup_sfs_nolock. rewrite (bind_ok _ _ _ _ _ eq_refl). change (sfs_hash_list i) with (HashList h).
    apply (lookup_loop s L h [] (hs h)); [done|by apply Hh| |].
    - pose proof (rep_size _ _ _ _ Hr (Hh h Hrange)) as Hs. rewrite length_fmap in Hs. lia.
    - intros n Hin. apply Hb in Hin as (sin & E & _); [by eexists|done]. }
  rewrite E. destruct (list_find _ (hs h)) as [[j n]|] eqn:Ef.
  - left. apply list_find_Some in Ef as (_ & Hx & _). destruct (inodes s !! n) as [sin|] eqn:En; [|done]. exists n, sin. split_and!; [done|by simplify_eq/=|done].
  - right. split; [|done]. intros n sin En Hino. apply list_find_None in Ef. rewrite Forall_forall in Ef. apply (Ef n); [|by rewrite En; simpl; rewrite Hino].
    apply Hb; [done|]. exists sin. by rewrite Hino.
Qed.

(** ** Adding and removing inodes *)

Lemma inode_unlisted nodes L ns hs n : cache_at nodes L ns hs → n ∉ ns → unlisted L (InodeLink n).
Proof.
  intros [Hk Hl Hh _ _ _] Hn k l E. destruct (Hk _ _ E) as [->|(h & -> & Hr)].
  - rewrite Hl in E. simplify_eq. intros Hx. set_unfold. destruct Hx as [?|(x & ? & ?)]; naive_solver.
  - rewrite Hh in E by done. simplify_eq. intros Hx. set_unfold. destruct Hx as [?|(x & ? & ?)]; naive_solver.
Qed.
Lemma hash_unlisted nodes L ns hs n : cache_at nodes L ns hs → n ∉ ns → unlisted L (HashLink n).
Proof.
  intros [Hk Hl Hh Hb Hns _] Hn k l E. destruct (Hk _ _ E) as [->|(h & -> & Hr)].
  - rewrite Hl in E. simplify_eq. intros Hx. set_unfold. destruct Hx as [?|(x & ? & ?)]; naive_solver.
  - rewrite Hh in E by done. simplify_eq. intros Hx. set_unfold. destruct Hx as [?|(x & ? & Hx)]; simplify_eq.
    apply Hb in Hx as (sin & Hs & _); [|done]. apply Hn, Hns. by eexists.
Qed.

Lemma set_links_ok s nodes L ns hs n sin :
  rep (flinks s) L → cache_at nodes L ns hs → nodes !! n = None → inodes s !! n = Some sin →
  (∀ k x, nodes !! k = Some x → ino x ≠ ino sin) →
  ∃ fl L' hs', sfs_set_links n s = Ok (tt, s <| flinks := fl |>) ∧ rep fl L' ∧ cache_at (<[n := sin]> nodes) L' (n :: ns) hs'.
Proof.
  intros Hr Hc Hnew Hn Hfresh. pose proof Hc as [Hk Hl Hh Hb Hns Hi]. assert (n ∉ ns) as Hni by (rewrite Hns, Hnew; by intros [? ?]).
  pose proof (inode_unlisted _ _ _ _ _ Hc Hni) as Hu. pose proof (sin_hashfn_range (ino sin)) as Hrange. set (h := sin_hashfn (ino sin)) in *.
  destruct (list_add_after_spec (flinks s) L InodeList (InodeLink <$> ns) (InodeLink n)) as (f1 & E1 & Hr1);
    [done|done|by apply unlisted_available|done|].
  assert (L !! InodeLink n = None) as HL1.
  { destruct (L !! InodeLink n) eqn:E; [|done]. destruct (Hk _ _ E) as [?|(? & ? & _)]; done. }
  rewrite delete_id in Hr1 by done. set (L1 := <[InodeList := InodeLink n :: (InodeLink <$> ns)]> L) in *.
  assert (L1 !! HashList h = Some (HashLink <$> hs h)) as HL2 by (unfold L1; rewrite lookup_insert_ne by done; by apply Hh).
  assert (unlisted L1 (HashLink n)) as Hu1.
  { intros k l [[<- <-]|[Hne E]]%lookup_insert_Some; [set_solver|]. by apply (hash_unlisted _ _ _ _ _ Hc Hni k l). }
  destruct (list_add_after_spec f1 L1 (HashList h) (HashLink <$> hs h) (HashLink n)) as (f2 & E2 & Hr2);
    [done|done|by apply unlisted_available|done|].
  assert (L1 !! HashLink n = None) as HL3.
  { unfold L1. rewrite lookup_insert_ne by done. destruct (L !! HashLink n) eqn:E; [|done]. destruct (Hk _ _ E) as [?|(? & ? & _)]; done. }
  rewrite delete_id in Hr2 by done.
  exists f2, (<[HashList h := HashLink n :: (HashLink <$> hs h)]> L1), (λ h', if decide (h' = h) then n :: hs h else hs h').
  split; [|split; [done|]].
  - unfold sfs_set_links. rewrite (bind_ok _ _ _ _ _ (on_field_ok flinks _ _ _ _ E1)).
    match goal with |- (get_sin n ≫= _) ?s1 = _ => rewrite (bind_ok _ _ s1 sin s1 (get_sin_ok s1 n sin Hn)), (on_field_ok flinks _ s1 _ _ E2) end.
    done.
  - constructor.
    + intros k l [[<- <-]|[_ E]]%lookup_insert_Some; [right; by exists h|]. apply lookup_insert_Some in E as [[<- <-]|[_ E]]; [by left|by apply (Hk k l)].
    + rewrite lookup_insert_ne by done. unfold L1. by rewrite lookup_insert_eq.
    + intros h' Hr'. destruct (decide (h' = h)) as [->|Hne]; [by rewrite lookup_insert_eq|].
      unfold L1. rewrite !lookup_insert_ne by congruence. by apply Hh.
    + intros h' k Hr'. destruct (decide (h' = h)) as [->|Hne].
      * rewrite elem_of_cons, (Hb h k Hr'). split.
        -- intros [->|(x & Ex & Hx)]; [exists sin; by rewrite lookup_insert_eq|]. exists x. rewrite lookup_insert_ne; [done|congruence].
        -- intros (x & Ex & Hx). apply lookup_insert_Some in Ex as [[<- <-]|[? ?]]; [by left|right; by exists x].
      * rewrite (Hb h' k Hr'). split.
        -- intros (x & Ex & Hx). exists x. rewrite lookup_insert_ne; [done|congruence].
        -- intros (x & Ex & Hx). apply lookup_insert_Some in Ex as [[<- <-]|[? ?]]; [done|by exists x].
    + intros k. rewrite elem_of_cons, Hns. destruct (decide (k = n)) as [->|Hne]; [rewrite lookup_insert_eq|rewrite lookup_insert_ne by done]; [|naive_solver].
      split; [by eexists|by left].
    + intros k1 k2 x1 x2 E1' E2'. apply lookup_insert_Some in E1', E2'.
      destruct E1' as [[<- <-]|[? E1']], E2' as [[<- <-]|[? E2']].
      * done.
      * intros Hx. by destruct (Hfresh _ _ E2').
      * intros Hx. by destruct (Hfresh _ _ E1').
      * by apply (Hi k1 k2 x1 x2).
Qed.

Lemma rep_nodup h L k l : rep h L → L !! k = Some l → NoDup l.
Proof. intros [Hr _] E. destruct (Hr _ _ E) as [Hnd _]. by apply NoDup_cons in Hnd as [_ ?]. Qed.

Lemma remove_links_ok s L ns hs n sin :
  rep (flinks s) L → cache_at (inodes s) L ns hs → inodes s !! n = Some sin →
  ∃ fl L' ns' hs', sfs_remove_links n s = Ok (tt, s <| flinks := fl |>) ∧ rep fl L' ∧ cache_at (delete n (inodes s)) L' ns' hs'.
Proof.
  intros Hr Hc Hn. pose proof Hc as [Hk Hl Hh Hb Hns Hi]. pose proof (sin_hashfn_range (ino sin)) as Hrange. set (h := sin_hashfn (ino sin)) in *.
  assert (n ∈ ns) as Hin by (apply Hns; by eexists). assert (n ∈ hs h) as Hinh by (apply Hb; [done|by exists sin]).
  pose proof (rep_nodup _ _ _ _ Hr Hl) as Hnd. pose proof (rep_nodup _ _ _ _ Hr (Hh h Hrange)) as Hndh.
  apply NoDup_fmap_1 in Hnd, Hndh.
  apply list_elem_of_split in Hin as (l1 & l2 & ->). apply list_elem_of_split in Hinh as (h1 & h2 & Eh).
  pose proof Hl as Hl'. rewrite fmap_app, fmap_cons in Hl'.
  destruct (rep_del (flinks s) L InodeList (InodeLink <$> l1) (InodeLink n) (InodeLink <$> l2) Hr Hl') as (f1 & E1 & Hr1).
  set (L1 := <[InodeList := _]> L) in *. assert (L1 !! HashList h = Some ((HashLink <$> h1) ++ HashLink n :: (HashLink <$> h2))) as HL1.
  { unfold L1. rewrite lookup_insert_ne by done. rewrite (Hh h Hrange), Eh. by rewrite fmap_app, fmap_cons. }
  destruct (rep_del f1 L1 (HashList h) (HashLink <$> h1) (HashLink n) (HashLink <$> h2) Hr1 HL1) as (f2 & E2 & Hr2).
  exists f2, (<[HashList h := (HashLink <$> h1) ++ (HashLink <$> h2)]> L1), (l1 ++ l2), (λ h', if decide (h' = h) then h1 ++ h2 else hs h').
  split; [|split; [done|]].
  - unfold sfs_remove_links. rewrite (bind_ok _ _ _ _ _ (on_field_ok flinks _ _ _ _ E1)).
    match goal with |- on_field _ _ ?s1 = _ => rewrite (on_field_ok flinks _ s1 _ _ E2) end. done.
  - rewrite Eh in Hndh. apply NoDup_app in Hndh as (_ & Hd1 & Hd2). apply NoDup_cons in Hd2 as [Hd2 _].
    apply NoDup_app in Hnd as (_ & Hn1 & Hn2). apply NoDup_cons in Hn2 as [Hn2 _]. constructor.
    + intros k l [[<- <-]|[_ E]]%lookup_insert_Some; [right; by exists h|]. apply lookup_insert_Some in E as [[<- <-]|[_ E]]; [by left|by apply (Hk k l)].
    + rewrite lookup_insert_ne by done. unfold L1. by rewrite lookup_insert_eq, fmap_app.
    + intros h' Hr'. destruct (decide (h' = h)) as [->|Hne]; [by rewrite lookup_insert_eq, fmap_app|].
      unfold L1. rewrite !lookup_insert_ne by congruence. by apply Hh.
    + intros h' k Hr'. destruct (decide (h' = h)) as [->|Hne].
      * pose proof (Hb h k Hr') as Hbk. rewrite Eh in Hbk. split.
        -- intros Hk'. assert (k ≠ n) as Hkn by (intros ->; set_solver). destruct (proj1 Hbk) as (x & Ex & Hx); [set_solver|].
           exists x. by rewrite lookup_delete_ne.
        -- intros (x & Ex & Hx). apply lookup_delete_Some in Ex as [Hne Ex]. assert (k ∈ h1 ++ n :: h2) by (apply Hbk; by exists x). set_solver.
      * rewrite (Hb h' k Hr'). split.
        -- intros (x & Ex & Hx). exists x. rewrite lookup_delete_ne; [done|]. intros <-. by simplify_eq.
        -- intros (x & Ex & Hx). apply lookup_delete_Some in Ex as [_ Ex]. by exists x.
    + intros k. pose proof (Hns k) as Hx. destruct (decide (k = n)) as [->|Hne].
      * rewrite lookup_delete_eq. split; [set_solver|by intros [? ?]].
      * rewrite lookup_delete_ne by done. rewrite <-Hx. set_solver.
    + intros k1 k2 x1 x2 E1' E2'. apply lookup_delete_Some in E1', E2'. destruct E1' as [_ E1'], E2' as [_ E2']. by apply (Hi k1 k2 x1 x2).
Qed.
End cache.

(** * Loading inodes *)

(** ** An inode and its bytes *)

(** Every member is a number of its width. *)
Record din_wf (d : sfs_disk_inode) : Prop := {
  wf_size : 0 ≤ din_size d < 2 ^ 32;
  wf_parent : 0 ≤ din_parent d < 2 ^ 32;
  wf_type : 0 ≤ din_type d < 2 ^ 16;
  wf_nlinks : 0 ≤ din_nlinks d < 2 ^ 16;
  wf_blocks : 0 ≤ din_blocks d < 2 ^ 32;
  wf_direct : Forall (λ w, 0 ≤ w < 2 ^ 32) (direct d);
  wf_ndirect : length (direct d) = 12%nat;
  wf_indirect : 0 ≤ indirect d < 2 ^ 32;
  wf_db : 0 ≤ db_indirect d < 2 ^ 32;
}.

Lemma words_bytes_len ws : len (words_bytes ws) = 4 * len ws.
Proof.
  induction ws as [|w ws IH]; [done|]. change (words_bytes (w :: ws)) with (le_bytes 4 w ++ words_bytes ws).
  rewrite length_app, le_bytes_length. cbn [length]. lia.
Qed.

Lemma din_bytes_len d : length (direct d) = 12%nat → len (din_bytes d) = sizeof_din.
Proof.
  intros Hd. unfold din_bytes. pose proof (words_bytes_len (direct d)) as Hw. rewrite Hd in Hw.
  rewrite !length_app, !le_bytes_length. unfold sizeof_din. lia.
Qed.

Lemma slice_at a b c pos n : pos = len a → n = len b → slice (a ++ b ++ c) pos n = b.
Proof.
  intros -> ->. unfold slice. rewrite !Nat2Z.id, drop_app_length. apply take_app_length.
Qed.
Lemma slice_last a b pos n : pos = len a → n = len b → slice (a ++ b) pos n = b.
Proof. intros -> ->. unfold slice. rewrite !Nat2Z.id, drop_app_length. apply take_ge. lia. Qed.

Lemma words_roundtrip ws : Forall (λ w, 0 ≤ w < 2 ^ 32) ws → words_of_bytes (length ws) (words_bytes ws) = ws.
Proof.
  intros Hw. unfold words_of_bytes. apply list_eq. intros i. rewrite list_lookup_fmap.
  destruct (decide (i < length ws)%nat) as [Hlt|Hge].
  2: { rewrite lookup_ge_None_2 by (rewrite length_seq; lia). symmetry. apply lookup_ge_None_2. lia. }
  rewrite lookup_seq_lt by done. cbn [fmap option_fmap option_map Nat.add].
  destruct (lookup_lt_is_Some_2 ws i Hlt) as [w Ew]. rewrite Ew. f_equal.
  pose proof (proj1 (Forall_lookup _ _) Hw _ _ Ew) as Hr. cbn beta in Hr.
  pose proof (length_take_le ws i ltac:(lia)) as Hti.
  assert (words_bytes ws = words_bytes (take i ws) ++ le_bytes 4 w ++ words_bytes (drop (S i) ws)) as ->.
  { rewrite <-(take_drop_middle ws i w Ew) at 1. unfold words_bytes. by rewrite bind_app, bind_cons. }
  rewrite slice_at; [by apply le_combine_u32|rewrite words_bytes_len; lia|by rewrite le_bytes_length].
Qed.

(** Reading back what was written. *)
Lemma din_roundtrip d : din_wf d → din_of_bytes (din_bytes d) = d.
Proof.
  intros []. pose proof (words_bytes_len (direct d)) as Hw. rewrite wf_ndirect0 in Hw. unfold din_of_bytes, din_bytes.
  set (b1 := le_bytes 4 (din_size d)). set (b2 := le_bytes 4 (din_parent d)). set (b3 := le_bytes 2 (din_type d)).
  set (b4 := le_bytes 2 (din_nlinks d)). set (b5 := le_bytes 4 (din_blocks d)). set (b6 := words_bytes (direct d)) in *.
  set (b7 := le_bytes 4 (indirect d)). set (b8 := le_bytes 4 (db_indirect d)).
  assert (length b1 = 4 ∧ length b2 = 4 ∧ length b3 = 2 ∧ length b4 = 2 ∧ length b5 = 4 ∧ length b7 = 4 ∧ length b8 = 4)%nat
    as (H1 & H2 & H3 & H4 & H5 & H7 & H8) by (unfold b1, b2, b3, b4, b5, b7, b8; by rewrite !le_bytes_length).
  assert (length b6 = 48%nat) as H6 by lia.
  pose proof (slice_at [] b1) as Hs1. cbn [app] in Hs1.
  rewrite Hs1, (slice_at b1 b2) by (rewrite ?H1, ?H2; done).
  rewrite (app_assoc b1 b2), (slice_at (b1 ++ b2) b3) by (rewrite ?length_app, ?H1, ?H2, ?H3; done).
  rewrite (app_assoc _ b3), (slice_at _ b4) by (rewrite ?length_app, ?H1, ?H2, ?H3, ?H4; done).
  rewrite (app_assoc _ b4), (slice_at _ b5) by (rewrite ?length_app, ?H1, ?H2, ?H3, ?H4, ?H5; done).
  rewrite (app_assoc _ b5), (slice_at _ b6) by (rewrite ?length_app, ?H1, ?H2, ?H3, ?H4, ?H5, ?H6; done).
  rewrite (app_assoc _ b6), (slice_at _ b7) by (rewrite ?length_app, ?H1, ?H2, ?H3, ?H4, ?H5, ?H6, ?H7; done).
  rewrite (app_assoc _ b7), slice_last by (rewrite ?length_app, ?H1, ?H2, ?H3, ?H4, ?H5, ?H6, ?H7, ?H8; done).
  unfold b1, b2, b3, b4, b5, b6, b7, b8. pose proof (words_roundtrip _ wf_direct0) as Hdir. rewrite wf_ndirect0 in Hdir.
  rewrite !le_combine_u32, !le_combine_u16, Hdir by done. by destruct d.
Qed.

Section load.
Context {D : Type} `{BlockDevice D, !BlockDeviceLaws D}.
Implicit Types (s : sfs_fs D) (b n i : Z) (F : gset Z) (T : tree) (sin : sfs_inode) (d : sfs_disk_inode).

(** The same volume on the same device. *)
Record vol_same s s' : Prop := {
  vs_blocks : blocks (super s') = blocks (super s);
  vs_magic : magic (super s') = magic (super s);
  vs_info : info (super s') = info (super s);
  vs_dblocks : d_blocks (dev s') = d_blocks (dev s);
  vs_dblksize : d_blocksize (dev s') = d_blocksize (dev s);
  vs_dirty : super_dirty s = true → super_dirty s' = true;
}.
#[export] Instance vol_same_refl : Reflexive vol_same.
Proof. by constructor. Qed.
#[export] Instance vol_same_trans : Transitive vol_same.
Proof. intros s1 s2 s3 [] []. constructor; try congruence. auto. Qed.
Lemma mem_vol_same s s' : mem_same s s' → vol_same s s'.
Proof. by intros []. Qed.
Lemma frame_vol_same P s s' : frame P s s' → vol_same s s'.
Proof. intros [_ [o []]]. by constructor. Qed.
Lemma node_vol_same n s s' : node_same n s s' → vol_same s s'.
Proof. intros [_ []]. by constructor. Qed.

(** ** Creating an inode in memory *)

Definition ops_of (type : Z) : inode_ops := if type =? SFS_TYPE_DIR then sfs_node_dirops else sfs_node_fileops.
Definition type_ok (type : Z) : Prop := type = SFS_TYPE_DIR ∨ type = SFS_TYPE_FILE.

Lemma get_ops_ok type s : type_ok type → sfs_get_ops type s = Ok (ops_of type, s).
Proof. by intros [-> | ->]. Qed.

(** A fresh inode. *)
Definition fresh_sin d i : sfs_inode := mk_sin d i 0 false 1 (ops_of (din_type d)) 1 0.
(** The state with it, at a new address. *)
Definition with_node s d i : sfs_fs D :=
  set_sin (s <| next_inode := next_inode s + 1 |>) (next_inode s) (fresh_sin d i).

Definition refused (o : list bool) : Prop := head o = Some false.
Lemma granted (o : list bool) : default true (head o) = false ↔ refused o.
Proof. unfold refused. destruct o as [|[|] o]; simpl; naive_solver. Qed.

Lemma create_inode_ok s d i :
  type_ok (din_type d) →
  sfs_create_inode d i s =
    let s0 := set_oom s (tail (oom s)) in
    if default true (head (oom s)) then Ok ((0, next_inode s), with_node s0 d i) else Ok ((- E_NO_MEM, 0), s0).
Proof.
  intros Ht. unfold sfs_create_inode, alloc_inode. cbv zeta. set (s0 := set_oom s (tail (oom s))).
  set (n := next_inode s0). set (s1 := s0 <| next_inode := n + 1 |>).
  rewrite (bind_ok _ _ s (if default true (head (oom s)) then Some n else None)
    (if default true (head (oom s)) then set_sin s1 n (mk_sin d 0 0 false 0 sfs_node_fileops 0 0) else s0)).
  2: { rewrite (bind_ok _ _ _ _ _ (alloc_ok sizeof_inode s ltac:(done))). by destruct (default true (head (oom s))). }
  destruct (default true (head (oom s))); [|done]. rewrite (bind_ok _ _ _ _ _ (get_ops_ok _ _ Ht)).
  rewrite (bind_ok (inode_init n (ops_of (din_type d))) _ _ tt (set_sin s1 n (mk_sin d 0 0 false 0 (ops_of (din_type d)) 1 0))).
  2: { unfold inode_init. rewrite (bind_ok _ _ _ _ _ (on_sin_ok _ _ _ _ (set_sin_at _ _ _))), set_sin_twice.
       rewrite (bind_ok _ _ _ _ _ (on_sin_ok _ _ _ _ (set_sin_at _ _ _))), set_sin_twice.
       by rewrite (bind_ok _ _ _ _ _ (ref_inc_ok _ _ _ (set_sin_at _ _ _))), set_sin_twice. }
  by rewrite (bind_ok _ _ _ _ _ (on_sin_ok _ _ _ _ (set_sin_at _ _ _))), set_sin_twice.
Qed.

(** A new inode joins the cache. *)
Lemma join_cache s d i :
  cache_ok s → (∀ k x, inodes s !! k = Some x → ino x ≠ i) →
  ∃ fl, sfs_set_links (next_inode s) (with_node s d i) = Ok (tt, with_node s d i <| flinks := fl |>) ∧
    cache_ok (with_node s d i <| flinks := fl |>).
Proof.
  intros (L & ns & hs & Hr & Hc & Hn) Hfresh. assert (inodes s !! next_inode s = None) as Hnew.
  { destruct (inodes s !! next_inode s) eqn:E; [|done]. specialize (Hn (next_inode s) ltac:(by eexists)). lia. }
  destruct (set_links_ok (with_node s d i) (inodes s) L ns hs (next_inode s) (fresh_sin d i)) as (fl & L' & hs' & E & Hr' & Hc');
    [done|done|done|apply set_sin_at|done|].
  exists fl. split; [done|]. exists L', (next_inode s :: ns), hs'. split_and!; [done|done|].
  intros k. simpl. destruct (decide (k = next_inode s)) as [->|Hne]; [lia|]. rewrite lookup_insert_ne by done. intros Hk.
  specialize (Hn k Hk). lia.
Qed.

Lemma vol_node s F d i fl : vol_ok s F → vol_ok (with_node s d i <| flinks := fl |>) F.
Proof. intros []. by constructor. Qed.

(** ** Loading *)

(** What block [i] says of the inode there. *)
Definition disk_din s i : sfs_disk_inode := din_of_bytes (slice (blk s i) 0 sizeof_din).

Lemma load_inode_ok s F i :
  vol_ok s F → cache_ok s → 0 < i < blocks (super s) → i ∉ F →
  ((∀ n sin, inodes s !! n = Some sin → ino sin ≠ i) → din_nlinks (disk_din s i) ≠ 0 ∧ type_ok (din_type (disk_din s i))) →
  ∃ ret n s', sfs_load_inode i s = Ok ((ret, n), s') ∧ vol_ok s' F ∧ cache_ok s' ∧ (∀ x, blk s' x = blk s x ∨ ¬ 0 ≤ x < blocks (super s)) ∧
    ((ret = 0 ∧ ∃ sin, inodes s !! n = Some sin ∧ ino sin = i ∧ s' = set_sin s n (grab sin)) ∨
     ((∀ k sin, inodes s !! k = Some sin → ino sin ≠ i) ∧ vol_same s s' ∧
      ((ret = 0 ∧ inodes s !! n = None ∧ inodes s' = <[n := fresh_sin (disk_din s i) i]> (inodes s) ∧ oom s' = tail (tail (oom s))) ∨
       (ret = - E_NO_MEM ∧ inodes s' = inodes s ∧ (refused (oom s) ∨ refused (tail (oom s))))))).
Proof.
  intros Hv Hc Hi Hif Hdisk. unfold sfs_load_inode.
  destruct (lookup_nolock_ok s i Hc) as [(n & sin & En & Hino & E)|[Hno E]]; rewrite (bind_ok _ _ _ _ _ E).
  { exists 0, n, (set_sin s n (grab sin)). split_and!; [done|by apply vol_set| |by left|left].
    - apply (cache_set s n sin); [done|done|]. unfold grab. by destruct (_ =? 1).
    - split; [done|]. by exists sin. }
  destruct (Hdisk Hno) as [Hnl Hty]. set (s0 := set_oom s (tail (oom s))).
  rewrite (bind_ok _ _ _ _ _ (alloc_ok sizeof_din s ltac:(done))). fold s0.
  assert (vol_ok s0 F) as Hv0 by by destruct Hv.
  destruct (default true (head (oom s))) eqn:Eo; cbn [negb].
  2: { exists (- E_NO_MEM), 0, s0. split_and!; [done|done|by apply (cache_same s)|by left|right]. split; [done|].
       split; [done|]. right. split_and!; [done|done|left]. by apply granted. }
  rewrite (bind_ok _ _ _ _ _ (assert_inuse_ok s0 F i Hv0 Hi Hif)).
  destruct (rbuf_ok s0 F i 0 sizeof_din) as (s1 & E1 & Hv1 & Hs1 & He1); [done|done|done..|].
  rewrite (bind_ok _ _ _ _ _ E1). cbn [negb Z.eqb]. cbv zeta. change (din_of_bytes (slice (blk s0 i) 0 sizeof_din)) with (disk_din s i).
  rewrite (bind_ok _ _ s1 tt s1) by (unfold assert; by rewrite (proj2 (Z.eqb_neq _ 0))).
  pose proof (create_inode_ok s1 (disk_din s i) i Hty) as E2. cbv zeta in E2.
  pose proof (io_mem_same _ _ Hs1) as Hm1. set (s2 := set_oom s1 (tail (oom s1))).
  assert (cache_ok s2) as Hc2.
  { apply (cache_same s); [apply (m_flinks _ _ Hm1)|apply (m_inodes _ _ Hm1)|apply (m_next _ _ Hm1)|done]. }
  assert (vol_ok s2 F) as Hv2 by by destruct Hv1.
  assert (∀ x, blk s2 x = blk s x ∨ ¬ 0 ≤ x < blocks (super s)) as Hblk.
  { intros x. destruct (decide (0 ≤ x < blocks (super s))); [left|by right]. apply (He1 x); [done|tauto]. }
  assert (oom s1 = tail (oom s)) as Ho1 by apply (m_oom _ _ Hm1).
  destruct (default true (head (oom s1))) eqn:Eo1; rewrite (bind_ok _ _ _ _ _ E2).
  - cbn [fst snd negb Z.eqb]. assert (next_inode s1 = next_inode s) as Hnx by apply (m_next _ _ Hm1).
    assert (inodes s1 = inodes s) as Hin1 by apply (m_inodes _ _ Hm1).
    destruct (join_cache s2 (disk_din s i) i Hc2) as (fl & E3 & Hc3).
    { intros k x. change (inodes s2) with (inodes s1). rewrite Hin1. apply Hno. }
    change (next_inode s2) with (next_inode s1) in E3.
    rewrite (bind_ok _ _ _ _ _ E3). exists 0, (next_inode s1), (with_node s2 (disk_din s i) i <| flinks := fl |>).
    split_and!; [done|by apply vol_node|done|done|right]. split; [done|]. split.
    + by destruct Hm1.
    + left. split_and!; [done| |simpl; by rewrite Hin1|simpl; by rewrite Ho1]. destruct Hc as (L & ns & hs & _ & _ & Hlt).
      destruct (inodes s !! next_inode s1) eqn:Ex; [|done]. specialize (Hlt (next_inode s1) ltac:(by eexists)). lia.
  - cbn [fst snd negb Z.eqb]. exists (- E_NO_MEM), 0, s2. split_and!; [done|done|done|done|right]. split; [done|].
    split; [by destruct Hm1|right]. split_and!; [done|apply (m_inodes _ _ Hm1)|right].
    rewrite <-Ho1. by apply granted.
Qed.

(** ** Writing back *)

Lemma fsync_ok s F n sin :
  vol_ok s F → inodes s !! n = Some sin → 0 < ino sin < blocks (super s) → length (direct (din sin)) = 12%nat →
  (din_nlinks (din sin) = 0 ∨ dirty sin = false → sfs_fsync n s = Ok (0, s)) ∧
  (din_nlinks (din sin) ≠ 0 → dirty sin = true → SFSInodeRemoved sin = false →
    ∃ s', sfs_fsync n s = Ok (0, s') ∧ vol_ok s' F ∧ node_same n s s' ∧ inodes s' !! n = Some (sin <| dirty := false |>) ∧
      same_except (λ x, x = ino sin) s s' ∧ slice (blk s' (ino sin)) 0 sizeof_din = din_bytes (din sin)).
Proof.
  intros Hv Hn Hi Hd. unfold sfs_fsync. rewrite (bind_ok _ _ _ _ _ (get_sin_ok _ _ _ Hn)). split.
  - intros [-> | ->]; [done|]. by rewrite orb_true_r.
  - intros Hnl Hdirty Hrem. rewrite (proj2 (Z.eqb_neq _ 0)), Hdirty by done. cbn [negb orb].
    rewrite (bind_ok (trylock_sin n) _ s 0 s).
    2: { unfold trylock_sin. rewrite (bind_ok _ _ _ _ _ (get_sin_ok _ _ _ Hn)). by rewrite Hrem. }
    cbn [negb Z.eqb]. rewrite (bind_ok _ _ _ _ _ (get_sin_ok _ _ _ Hn)), Hdirty.
    rewrite (bind_ok _ _ _ _ _ (on_sin_ok _ _ _ _ Hn)). set (s1 := set_sin s n _).
    assert (vol_ok s1 F) as Hv1 by by apply vol_set. pose proof (din_bytes_len _ Hd) as Hl.
    destruct (wbuf_ok s1 F (ino sin) 0 (din_bytes (din sin))) as (s2 & E2 & Hv2 & Hs2 & He2 & Hb2); [done|done|done|by rewrite Hl|].
    rewrite (bind_ok _ _ _ _ _ E2). cbn [negb Z.eqb when]. exists s2. split; [done|]. pose proof (io_mem_same _ _ Hs2) as Hm2.
    split_and!; [done| |rewrite (m_inodes _ _ Hm2); apply set_sin_at|done|].
    + etrans; [apply node_same_set|by apply mem_node_same].
    + rewrite Hb2, <-Hl. apply slice_splice_eq, in_range_spec. rewrite (blk_len s1 F) by (done || (simpl; lia)). rewrite Hl. done.
Qed.

(** ** Giving up a reference *)

Lemma ref_dec_more s n sin :
  inodes s !! n = Some sin → 1 < ref_count sin → inode_ref_dec n s = Ok (ref_count sin - 1, set_sin s n (sin <| ref_count := ref_count sin - 1 |>)).
Proof.
  intros Hn Hr. unfold inode_ref_dec. rewrite (bind_ok _ _ _ _ _ (get_sin_ok _ _ _ Hn)), (proj2 (Z.ltb_lt _ _)) by lia.
  rewrite (bind_ok _ _ _ _ _ eq_refl), (bind_ok _ _ _ _ _ (on_sin_ok _ _ _ _ Hn)). by rewrite (proj2 (Z.eqb_neq _ 0)) by lia.
Qed.

(** The inode as [sfs_reclaim] goes on with it. *)
Definition given_up (sin : sfs_inode) : sfs_inode := sin <| ref_count := 0 |> <| reclaim_count := 0 |>.

Lemma check_ok s n sin : inodes s !! n = Some sin → 0 ≤ open_count sin ≤ ref_count sin → ref_count sin < MAX_INODE_COUNT →
  inode_check n s = Ok (tt, s).
Proof.
  intros Hn Ho Hr. unfold inode_check. rewrite (bind_ok _ _ _ _ _ (get_sin_ok _ _ _ Hn)).
  rewrite (proj2 (Z.leb_le _ _)), (proj2 (Z.leb_le 0 _)) by lia. rewrite (bind_ok _ _ _ _ _ eq_refl).
  by rewrite !(proj2 (Z.ltb_lt _ _)) by lia.
Qed.

(** Removing the inode from memory. *)
Lemma drop_node s n sin :
  cache_ok s → inodes s !! n = Some sin → ref_count sin = 0 → open_count sin = 0 →
  ∃ fl, sfs_remove_links n s = Ok (tt, s <| flinks := fl |>) ∧ (∀ s', inodes s' = inodes s → flinks s' = fl → next_inode s' = next_inode s →
    inode_kill n s' = Ok (tt, s' <| inodes := delete n (inodes s') |>) ∧ cache_ok (s' <| inodes := delete n (inodes s') |>)).
Proof.
  intros (L & ns & hs & Hr & Hc & Hlt) Hn Href Hopen.
  destruct (remove_links_ok s L ns hs n sin Hr Hc Hn) as (fl & L' & ns' & hs' & E & Hr' & Hc').
  exists fl. split; [done|]. intros s' Hi Hf Hx. split.
  - unfold inode_kill. rewrite (bind_ok _ _ s' sin s') by (apply get_sin_ok; by rewrite Hi). rewrite Href, Hopen. done.
  - exists L', ns', hs'. split_and!; [simpl; by rewrite Hf|simpl; by rewrite Hi|].
    intros k. simpl. rewrite Hx, Hi. intros [x [_ Hk]%lookup_delete_Some]. apply Hlt. by eexists.
Qed.

(** A step of [inode_ref_dec] to the body of [sfs_reclaim]. *)
Lemma ref_dec_last s n sin s1 :
  inodes s !! n = Some sin → ref_count sin = 1 → reclaim_count sin = 1 → open_count sin = 0 →
  (ret ← (if din_nlinks (din sin) =? 0 then
            _ ← loop (S (Z.to_nat (din_blocks (din sin)))) (reclaim_data_body n) (din_blocks (din sin)); mret 0
          else if dirty sin then vop_fsync n else mret 0);
   if negb (ret =? 0) then mret ret else
   _ ← sfs_remove_links n;
   sin ← get_sin n;
   _ ← when (din_nlinks (din sin) =? 0)
     (_ ← sfs_block_free (ino sin);
      let ent := indirect (din sin) in
      _ ← when (negb (ent =? 0)) (sfs_block_free ent);
      let ent := db_indirect (din sin) in
      when (negb (ent =? 0))
        (_ ← loop (S (Z.to_nat SFS_BLK_NENTRY)) (reclaim_sub_body ent) 0;
         sfs_block_free ent));
   _ ← inode_kill n;
   mret 0) (set_sin s n (given_up sin)) = Ok (0, s1) →
  inode_ref_dec n s = Ok (0, s1).
Proof.
  intros Hn Href Hrec Hopen E. unfold inode_ref_dec. rewrite (bind_ok _ _ _ _ _ (get_sin_ok _ _ _ Hn)), Href.
  rewrite (bind_ok _ _ _ _ _ eq_refl), (bind_ok _ _ _ _ _ (on_sin_ok _ _ _ _ Hn)). change (1 - 1) with 0. cbn [when Z.eqb].
  set (sin0 := sin <| ref_count := 0 |>). set (s0 := set_sin s n sin0).
  rewrite (bind_ok (_ ← inode_check n; _ ← sfs_reclaim n; mret tt) _ s0 tt s1); [done|].
  assert (inodes s0 !! n = Some sin0) as Hn0 by apply set_sin_at.
  rewrite (bind_ok _ _ _ _ _ (check_ok s0 n sin0 Hn0 ltac:(simpl; lia) ltac:(done))).
  rewrite (bind_ok _ _ s0 0 s1); [done|].
  unfold sfs_reclaim. rewrite (bind_ok _ _ _ _ _ (get_sin_ok _ _ _ Hn0)). change (reclaim_count sin0) with (reclaim_count sin). rewrite Hrec.
  rewrite (bind_ok _ _ _ _ _ eq_refl), (bind_ok _ _ _ _ _ (on_sin_ok _ _ _ _ Hn0)). change (negb (1 - 1 =? 0)) with false. cbv iota.
  change (open_count sin0) with (open_count sin). rewrite Hopen. rewrite (bind_ok _ _ _ _ _ eq_refl).
  unfold s0. rewrite set_sin_twice.
  change (set_sin s n (sin0 <| reclaim_count := reclaim_count sin0 - 1 |>)) with (set_sin s n (sin0 <| reclaim_count := reclaim_count sin - 1 |>)).
  rewrite Hrec. exact E.
Qed.
End load.
