(* ===== verification/SfsReclaim.v ===== *)
(** * The end of an inode in memory

    [sfs_reclaim] when the last reference is given up: an inode without a name
    gives all its blocks back, one with a name is written to its block. *)

From S2P Require Import Prelude Bytes Mem DList Slab Bitmap Disk Sfs SfsVol SfsTree SfsMap SfsFile SfsIo SfsFileSpec SfsTrunc SfsDir SfsDirent SfsDirSpec SfsCache.

Section reclaim.
Context {D : Type} `{BlockDevice D, !BlockDeviceLaws D}.
Implicit Types (s : sfs_fs D) (b n i : Z) (F : gset Z) (T : tree) (sin : sfs_inode) (d : sfs_disk_inode).

(** ** Giving the blocks of pointers back *)

(** The tree [T] that hangs below the inode [d]. *)
Record owns s F d T : Prop := {
  ow_vol : vol_ok s F;
  ow_in : tree_in s F T;
  ow_tree : tree_ok (blk s) d T;
}.

(** Blocks of the tree went to the free ones. *)
Record released s F T s' F' T' : Prop := {
  rl_mem : mem_same s s';
  rl_sub : T' ⊆ T;
  rl_all x : x ∈ F' ∨ in_tree T' x ↔ x ∈ F ∨ in_tree T x;
  rl_same : same_except (in_tree T) s s';
}.

Lemma released_refl s F T : released s F T s F T.
Proof. constructor; [done..|apply same_except_refl]. Qed.
Lemma in_tree_sub T T' x : T' ⊆ T → in_tree T' x → in_tree T x.
Proof. intros Hs [r E]. exists r. by apply (lookup_weaken T'). Qed.
Lemma released_trans s1 F1 T1 s2 F2 T2 s3 F3 T3 :
  released s1 F1 T1 s2 F2 T2 → released s2 F2 T2 s3 F3 T3 → released s1 F1 T1 s3 F3 T3.
Proof.
  intros [Hm1 Hs1 Ha1 He1] [Hm2 Hs2 Ha2 He2]. constructor; [by etrans|by etrans|intros x; by rewrite Ha2, Ha1|].
  apply (same_except_trans _ _ s2); [done|done|].
  eapply same_except_weaken; [|done]. intros x. by apply in_tree_sub.
Qed.

Lemma deleted_all F T r b x :
  T !! r = Some b → (∀ r1 r2 y, T !! r1 = Some y → T !! r2 = Some y → r1 = r2) →
  x ∈ {[b]} ∪ F ∨ in_tree (delete r T) x ↔ x ∈ F ∨ in_tree T x.
Proof.
  intros Er Hinj. rewrite (in_tree_delete _ _ b) by done. rewrite elem_of_union, elem_of_singleton.
  destruct (decide (x = b)) as [->|]; [|tauto]. split; [|by left; left]. intros _. right. by exists r.
Qed.

(** A block that the inode points to. *)
Lemma free_root s F d T r j b :
  owns s F d T → valid r → up r = (None, j) → T !! r = Some b → (∀ r' j, up r' = (Some r, j) → T !! r' = None) →
  ∃ s', sfs_block_free b s = Ok (tt, s') ∧ owns s' ({[b]} ∪ F) (set_root j 0 d) (delete r T) ∧
    released s F T s' ({[b]} ∪ F) (delete r T).
Proof.
  intros [Hv Hin Ht] Hr Hup Er Hleaf. destruct (Hin b) as [Hb Hbf]; [by exists r|].
  destruct (block_free_ok s F b Hv Hbf Hb) as (s' & E & Hv' & Hm & He). exists s'. split; [done|].
  pose proof (t_inj _ _ _ Ht) as Hinj. split.
  - constructor; [done|by apply (tree_in_delete s _ (blk s) d)|].
    apply (tree_ext (blk s)); [by apply (tree_delete_root _ _ _ _ _ b)|]. intros x Hx.
    assert (in_tree T x) as Hx' by (apply (in_tree_sub _ (delete r T)); [apply delete_subseteq|by apply meta_in]).
    destruct (Hin x Hx'). apply He; [lia|tauto].
  - constructor; [done|apply delete_subseteq|intros x; by apply deleted_all|].
    eapply same_except_weaken; [|done]. tauto.
Qed.

(** The entries of the doubly indirect block. *)
Lemma sub_leaf d T k r j B : (∀ i, T !! Data i = None) → tree_ok B d T → up r = (Some (Sub k), j) → T !! r = None.
Proof.
  intros Hno Ht Hup. destruct r as [i| | |k']; [apply Hno|done..].
Qed.

Lemma free_entry s F d T e k :
  owns s F d T → (∀ i, T !! Data i = None) → T !! Dbl = Some e → 0 ≤ k < 1024 →
  ∃ s' F', sfs_bmap_free_sub_nolock e k s = Ok (0, s') ∧ owns s' F' d (delete (Sub k) T) ∧
    released s F T s' F' (delete (Sub k) T).
Proof.
  intros [Hv Hin Ht] Hno Ed Hk. destruct (T !! Sub k) as [b|] eqn:Eb.
  - destruct (free_sub_some s F d T (Sub k) Dbl k e b Hv Hin Ht Hk eq_refl Ed Eb) as (s' & E & Hv' & Hm & He & Ht' & Hin').
    { intros r' j'. by apply (sub_leaf d T k r' j' (blk s)). }
    exists s', ({[b]} ∪ F). split_and!; [done|by constructor|]. constructor; [done|apply delete_subseteq| |].
    + intros x. apply deleted_all; [done|apply (t_inj _ _ _ Ht)].
    + eapply same_except_weaken; [|done]. intros x ->. by exists Dbl.
  - rewrite delete_id by done.
    destruct (free_sub_none s F d T (Sub k) Dbl k e Hv Hin Ht Hk eq_refl Ed Eb) as (s' & E & Hv' & Hs & He).
    pose proof (io_mem_same _ _ Hs) as Hm. exists s', F. split_and!; [done| |].
    + constructor; [done|by eapply tree_in_same|]. apply (tree_ext (blk s)); [done|]. intros x Hx.
      destruct (Hin x (meta_in _ _ Hx)). apply He; [lia|tauto].
    + constructor; [done|done|done|]. eapply same_except_weaken; [|done]. tauto.
Qed.

Lemma free_entries d e (m : nat) : ∀ s F T,
  owns s F d T → (∀ i, T !! Data i = None) → T !! Dbl = Some e → (m ≤ 1024)%nat →
  (∀ k, k < 1024 - Z.of_nat m → T !! Sub k = None) →
  ∃ s' F' T', loop (S m) (reclaim_sub_body e) (1024 - Z.of_nat m) s = Ok (tt, s') ∧ owns s' F' d T' ∧ released s F T s' F' T' ∧
    T' !! Dbl = Some e ∧ ∀ k, T' !! Sub k = None.
Proof.
  induction m as [|m IH]; intros s F T Ho Hno Ed Hm Hk.
  { exists s, F, T. split; [by apply loop_stop|]. split_and!; [done|apply released_refl|done|].
    intros k. destruct (T !! Sub k) eqn:E; [|done]. destruct (t_up _ _ _ (ow_tree _ _ _ _ Ho) _ _ E) as [Hv _].
    simpl in Hv. rewrite Hk in E by lia. done. }
  set (k := 1024 - Z.of_nat (S m)). assert (0 ≤ k < 1024) as Hkr by lia.
  destruct (free_entry s F d T e k Ho Hno Ed Hkr) as (s1 & F1 & E1 & Ho1 & Hr1).
  assert (reclaim_sub_body e k s = Ok (inl (k + 1), s1)) as Eb.
  { unfold reclaim_sub_body. change SFS_BLK_NENTRY with 1024. rewrite (proj2 (Z.ltb_lt _ _)) by lia. by rewrite (bind_ok _ _ _ _ _ E1). }
  destruct (IH s1 F1 (delete (Sub k) T)) as (s2 & F2 & T2 & E2 & Ho2 & Hr2 & Ed2 & Hk2); [done| | |lia| |].
  - intros i. by rewrite lookup_delete_ne.
  - by rewrite lookup_delete_ne.
  - intros k' Hk'. destruct (decide (k' = k)) as [->|]; [by rewrite lookup_delete_eq|].
    rewrite lookup_delete_ne by congruence. apply Hk. lia.
  - exists s2, F2, T2. rewrite (loop_next _ _ _ _ _ _ Eb). replace (k + 1) with (1024 - Z.of_nat m) by lia.
    split; [exact E2|]. split_and!; [done|by eapply released_trans|done|done].
Qed.

(** All of them, when no block of data is left. *)
Lemma free_meta s F d T :
  owns s F d T → (∀ i, T !! Data i = None) →
  ∃ s' F',
    (_ ← when (negb (indirect d =? 0)) (sfs_block_free (indirect d));
     when (negb (db_indirect d =? 0))
       (_ ← loop (S (Z.to_nat SFS_BLK_NENTRY)) (reclaim_sub_body (db_indirect d)) 0; sfs_block_free (db_indirect d))) s = Ok (tt, s') ∧
    vol_ok s' F' ∧ released s F T s' F' ∅.
Proof.
  intros Ho Hno. pose proof Ho as [Hv Hin Ht].
  assert (indirect d = default 0 (T !! Ind)) as EI by apply (t_root _ _ _ Ht Ind 12 eq_refl I).
  assert (db_indirect d = default 0 (T !! Dbl)) as ED by apply (t_root _ _ _ Ht Dbl 13 eq_refl I).
  assert (∃ s1 F1 d1 T1, when (negb (indirect d =? 0)) (sfs_block_free (indirect d)) s = Ok (tt, s1) ∧ owns s1 F1 d1 T1 ∧
    released s F T s1 F1 T1 ∧ T1 = delete Ind T) as (s1 & F1 & d1 & T1 & E1 & Ho1 & Hr1 & HT1).
  { rewrite EI. destruct (T !! Ind) as [b|] eqn:Eb; cbn [default from_option id].
    - destruct (Hin b) as [Hb _]; [by exists Ind|]. rewrite (proj2 (Z.eqb_neq b 0)) by lia. cbn [negb when].
      destruct (free_root s F d T Ind 12 b Ho I eq_refl Eb) as (s1 & E1 & Ho1 & Hr1); [intros [i| | |k] j; [intros _; apply Hno|done..]|].
      eexists s1, _, _, _. by split_and!.
    - exists s, F, d, T. split_and!; [done|done|apply released_refl|]. by rewrite delete_id. }
  rewrite (bind_ok _ _ _ _ _ E1), ED. assert (∀ i, T1 !! Data i = None) as Hno1 by (intros i; rewrite HT1; by rewrite lookup_delete_ne).
  assert (T1 !! Ind = None) as HI1 by by rewrite HT1, lookup_delete_eq.
  assert (T1 !! Dbl = T !! Dbl) as HD1 by by rewrite HT1, lookup_delete_ne.
  destruct (T !! Dbl) as [e|] eqn:Ee; cbn [default from_option id].
  - destruct (Hin e) as [He _]; [by exists Dbl|]. rewrite (proj2 (Z.eqb_neq e 0)) by lia. cbn [negb when].
    destruct (free_entries d1 e 1024 s1 F1 T1) as (s2 & F2 & T2 & E2 & Ho2 & Hr2 & HD2 & HS2); [done|done|done|lia| |].
    { intros k Hk. destruct (T1 !! Sub k) eqn:E; [|done]. destruct (t_up _ _ _ (ow_tree _ _ _ _ Ho1) _ _ E) as [Hval _]. simpl in Hval. lia. }
    change (S (Z.to_nat SFS_BLK_NENTRY)) with (S 1024). change (1024 - Z.of_nat 1024) with 0 in E2. rewrite (bind_ok _ _ _ _ _ E2).
    destruct (free_root s2 F2 d1 T2 Dbl 13 e Ho2 I eq_refl HD2) as (s3 & E3 & Ho3 & Hr3).
    { intros r j Hup. destruct r as [i| | |k]; [|done|done|apply HS2]. cbn in Hup. destruct (i <? 12); [done|]. by destruct (i <? 1036). }
    assert (delete Dbl T2 = ∅) as HT.
    { apply map_eq. intros r. rewrite lookup_empty. destruct (decide (r = Dbl)) as [->|Hne]; [by rewrite lookup_delete_eq|].
      rewrite lookup_delete_ne by done. destruct (T2 !! r) as [x|] eqn:Ex; [|done]. exfalso.
      pose proof (lookup_weaken _ _ _ _ Ex (rl_sub _ _ _ _ _ _ Hr2)) as Ex1.
      destruct r as [i| | |k]; [by rewrite Hno1 in Ex1|by rewrite HI1 in Ex1|done|by rewrite HS2 in Ex]. }
    rewrite HT in Ho3, Hr3. exists s3, ({[e]} ∪ F2). split_and!; [done|apply Ho3|].
    eapply released_trans; [done|]. by eapply released_trans.
  - assert (T1 = ∅) as HT.
    { apply map_eq. intros r. rewrite lookup_empty. destruct (T1 !! r) as [x|] eqn:Ex; [|done]. exfalso.
      destruct r as [i| | |k]; [by rewrite Hno1 in Ex|by rewrite HI1 in Ex|by rewrite HD1 in Ex|].
      destruct (t_up _ _ _ (ow_tree _ _ _ _ Ho1) _ _ Ex) as [_ Hp]. destruct (Hp Dbl k eq_refl) as [y Hy]. by rewrite HD1 in Hy. }
    rewrite HT in *. exists s1, F1. split_and!; [done|apply Ho1|done].
Qed.

(** ** Giving the blocks of data back *)

Lemma reclaim_data n (k : nat) : ∀ s F sin T,
  file_ok s F n sin T → Z.of_nat k = din_blocks (din sin) →
  ∃ s' F' sin' T', loop (S k) (reclaim_data_body n) (Z.of_nat k) s = Ok (tt, s') ∧ receded n s F sin T s' F' sin' T' ∧
    din_blocks (din sin') = 0.
Proof.
  induction k as [|k IH]; intros s F sin T Hf Hk.
  { exists s, F, sin, T. split; [by apply loop_stop|]. split; [by apply receded_refl|lia]. }
  destruct (truncate_receded s F n sin T Hf) as (s1 & F1 & sin1 & T1 & E1 & Hr1 & Hb1); [lia|].
  assert (reclaim_data_body n (Z.of_nat (S k)) s = Ok (inl (Z.of_nat k), s1)) as Eb.
  { unfold reclaim_data_body. rewrite (proj2 (Z.eqb_neq _ 0)) by lia. rewrite (bind_ok _ _ _ _ _ E1).
    by replace (Z.of_nat (S k) - 1) with (Z.of_nat k) by lia. }
  destruct (IH s1 F1 sin1 T1) as (s2 & F2 & sin2 & T2 & E2 & Hr2 & Hb2); [apply (rc_file _ _ _ _ _ _ _ _ _ Hr1)|lia|].
  exists s2, F2, sin2, T2. rewrite (loop_next _ _ _ _ _ _ Eb). split; [exact E2|]. split; [|done].
  eapply receded_trans; [done..|]. rewrite Hb2. pose proof (fo_blocks _ _ _ _ _ (rc_file _ _ _ _ _ _ _ _ _ Hr1)). lia.
Qed.

(** ** An inode without a name *)

(** What is left of an inode that is gone: its blocks are free. *)
Record erased n s F (sin : sfs_inode) T s' F' : Prop := {
  er_vol : vol_ok s' F';
  er_cache : cache_ok s';
  er_nodes : inodes s' = delete n (inodes s);
  er_same : vol_same s s';
  er_oom : oom s' = oom s;
  er_next : next_inode s' = next_inode s;
  er_free x : x ∈ F' ↔ x ∈ F ∨ x = ino sin ∨ in_tree T x;
  er_blocks : same_except (in_tree T) s s';
}.

(** The blocks of the inode itself and of its pointers. *)
Lemma free_inode s F n sin T :
  file_ok s F n sin T → din_blocks (din sin) = 0 → 0 < ino sin < blocks (super s) → ino sin ∉ F → ¬ in_tree T (ino sin) →
  ∃ s' F', (_ ← sfs_block_free (ino sin);
     let ent := indirect (din sin) in
     _ ← when (negb (ent =? 0)) (sfs_block_free ent);
     let ent := db_indirect (din sin) in
     when (negb (ent =? 0)) (_ ← loop (S (Z.to_nat SFS_BLK_NENTRY)) (reclaim_sub_body ent) 0; sfs_block_free ent)) s = Ok (tt, s') ∧
    vol_ok s' F' ∧ mem_same s s' ∧ same_except (in_tree T) s s' ∧ ∀ x, x ∈ F' ↔ x ∈ F ∨ x = ino sin ∨ in_tree T x.
Proof.
  intros [[Hv Hn Hin Ht] Hd Hb] Hz Hi Hif Hit.
  destruct (block_free_ok s F (ino sin) Hv Hif Hi) as (s1 & E1 & Hv1 & Hm1 & He1). rewrite (bind_ok _ _ _ _ _ E1). cbv zeta.
  destruct (free_meta s1 ({[ino sin]} ∪ F) (din sin) T) as (s2 & F2 & E2 & Hv2 & [Hm2 _ Ha2 He2]).
  - constructor; [done| |].
    + intros x Hx. destruct (Hin x Hx). rewrite (m_blocks _ _ Hm1). split; [done|]. rewrite elem_of_union, elem_of_singleton. naive_solver.
    + apply (tree_ext (blk s)); [done|]. intros x Hx. destruct (Hin x (meta_in _ _ Hx)). apply He1; [lia|tauto].
  - intros i. destruct (T !! Data i) eqn:E; [|done]. destruct (proj1 (Hd i) ltac:(by eexists)). lia.
  - exists s2, F2. split_and!; [done|done|by etrans| |].
    + apply (same_except_trans _ _ s1); [done| |done]. eapply same_except_weaken; [|done]. tauto.
    + intros x. specialize (Ha2 x). rewrite elem_of_union, elem_of_singleton in Ha2.
      assert (¬ in_tree ∅ x) by (by intros [r Er]). tauto.
Qed.

Lemma reclaim_removed s F n sin T :
  file_ok s F n sin T → cache_ok s → din_nlinks (din sin) = 0 → ref_count sin = 1 → reclaim_count sin = 1 → open_count sin = 0 →
  0 < ino sin < blocks (super s) → ino sin ∉ F → ¬ in_tree T (ino sin) →
  ∃ s' F', inode_ref_dec n s = Ok (0, s') ∧ erased n s F sin T s' F'.
Proof.
  intros Hf Hc Hnl Href Hrec Hopen Hi Hif Hit. pose proof (fo_blocks _ _ _ _ _ Hf) as Hb.
  set (sin0 := given_up sin). set (s0 := set_sin s n sin0).
  destruct (file_set s F n sin T sin0 Hf) as [Hf0 _]; [done..|]. fold s0 in Hf0.
  assert (cache_ok s0) as Hc0 by (eapply cache_set; [done|apply Hf|done]).
  destruct (reclaim_data n (Z.to_nat (din_blocks (din sin))) s0 F sin0 T Hf0) as (s1 & F1 & sin1 & T1 & E1 & Hr1 & Hb1); [simpl; lia|].
  rewrite Z2Nat.id in E1 by lia. pose proof (rc_file _ _ _ _ _ _ _ _ _ Hr1) as Hf1. pose proof (rc_sin _ _ _ _ _ _ _ _ _ Hr1) as Hs1.
  destruct (rc_node _ _ _ _ _ _ _ _ _ Hr1) as [Hother Hm1]. pose proof (fa_node _ _ _ _ _ (fo_at _ _ _ _ _ Hf1)) as Hn1.
  assert (ino sin1 = ino sin) as Hino by apply (ss_ino _ _ Hs1).
  assert (cache_ok s1) as Hc1.
  { apply (cache_inos s0); [done|apply (m_flinks _ _ Hm1)|apply (m_next _ _ Hm1)|]. intros k. destruct (decide (k = n)) as [->|Hne]; [|by rewrite Hother].
    rewrite Hn1. unfold s0. simpl. rewrite lookup_insert_eq. simpl. by rewrite Hino. }
  destruct (drop_node s1 n sin1 Hc1 Hn1) as (fl & E2 & Hkill); [by rewrite (ss_ref _ _ Hs1)|by rewrite (ss_open _ _ Hs1)|].
  set (s2 := s1 <| flinks := fl |>).
  assert (file_ok s2 F1 n sin1 T1) as Hf2 by by destruct Hf1 as [[[] ? ? ?] ? ?].
  assert (¬ in_tree T1 (ino sin)) as Hit1 by (intros Hx; by apply Hit, (in_tree_sub _ T1), Hx; apply Hr1).
  assert (ino sin ∉ F1) as Hif1.
  { intros Hx. destruct (proj2 (rc_all _ _ _ _ _ _ _ _ _ Hr1 (ino sin))); [by left|done|done]. }
  assert (blocks (super s1) = blocks (super s)) as Hbl by apply (m_blocks _ _ Hm1).
  destruct (free_inode s2 F1 n sin1 T1 Hf2 Hb1) as (s3 & F3 & E3 & Hv3 & Hm3 & He3 & Ha3);
    [rewrite Hino; change (super s2) with (super s1); by rewrite Hbl|by rewrite Hino|by rewrite Hino|].
  destruct (Hkill s3) as [E4 Hc4]; [apply (m_inodes _ _ Hm3)|apply (m_flinks _ _ Hm3)|apply (m_next _ _ Hm3)|].
  exists (s3 <| inodes := delete n (inodes s3) |>), F3. split.
  - apply (ref_dec_last s n sin); [apply Hf|done|done|done|]. fold sin0. fold s0. rewrite Hnl, Z.eqb_refl.
    rewrite (bind_ok _ _ s0 0 s1) by by rewrite (bind_ok _ _ _ _ _ E1). cbn [negb Z.eqb].
    rewrite (bind_ok _ _ _ _ _ E2), (bind_ok _ _ s2 sin1 s2) by by apply get_sin_ok.
    rewrite (ss_nlinks _ _ Hs1 : din_nlinks (din sin1) = din_nlinks (din sin)), Hnl, Z.eqb_refl. cbn [when].
    rewrite (bind_ok _ _ _ _ _ E3), (bind_ok _ _ _ _ _ E4). done.
  - constructor.
    + by destruct Hv3.
    + done.
    + simpl. rewrite (m_inodes _ _ Hm3 : inodes s3 = inodes s1). apply map_eq. intros k.
      destruct (decide (k = n)) as [->|Hne]; [by rewrite !lookup_delete_eq|]. rewrite !lookup_delete_ne by done. rewrite Hother by done.
      unfold s0. simpl. by rewrite lookup_insert_ne.
    + destruct Hm1, Hm3. constructor; simpl in *; try congruence. auto.
    + etrans; [exact (m_oom _ _ Hm3)|exact (m_oom _ _ Hm1)].
    + etrans; [exact (m_next _ _ Hm3)|exact (m_next _ _ Hm1)].
    + intros x. rewrite Ha3, Hino. pose proof (rc_all _ _ _ _ _ _ _ _ _ Hr1 x). tauto.
    + intros x Hx Hnt. transitivity (blk s1 x); [|by apply (rc_same _ _ _ _ _ _ _ _ _ Hr1)].
      apply He3; [change (super s2) with (super s1); by rewrite Hbl|]. intros Hx'. apply Hnt, (in_tree_sub _ T1); [apply Hr1|done].
Qed.

(** ** An inode with a name *)

(** An inode that is written back and no longer in memory. *)
Record evicted n s F (sin : sfs_inode) s' : Prop := {
  ev_vol : vol_ok s' F;
  ev_cache : cache_ok s';
  ev_nodes : inodes s' = delete n (inodes s);
  ev_same : vol_same s s';
  ev_oom : oom s' = oom s;
  ev_next : next_inode s' = next_inode s;
  ev_disk : disk_din s' (ino sin) = din sin;
  ev_blocks : same_except (λ x, x = ino sin) s s';
  ev_clean : dirty sin = false → dev s' = dev s;
}.

Lemma write_back s F n sin :
  vol_ok s F → inodes s !! n = Some sin → din_nlinks (din sin) ≠ 0 → SFSInodeRemoved sin = false →
  ref_count sin = 0 → open_count sin = 0 → 0 < ino sin < blocks (super s) → (dirty sin = true → din_wf (din sin)) →
  (dirty sin = false → disk_din s (ino sin) = din sin) →
  ∃ s', (if dirty sin then vop_fsync n else mret 0) s = Ok (0, s') ∧ vol_ok s' F ∧ node_same n s s' ∧
    inodes s' !! n = Some (sin <| dirty := false |>) ∧ same_except (λ x, x = ino sin) s s' ∧ disk_din s' (ino sin) = din sin ∧
    (dirty sin = false → dev s' = dev s).
Proof.
  intros Hv Hn Hnl Hrem Href Hopen Hi Hwf Hclean. destruct (dirty sin) eqn:Ed.
  - specialize (Hwf eq_refl). destruct (fsync_ok s F n sin Hv Hn Hi (wf_ndirect _ Hwf)) as [_ Hw].
    destruct (Hw Hnl Ed Hrem) as (s' & E & Hv' & Hns & Hn' & He & Hb). exists s'. split_and!; [|done|done|done|done| |done].
    + unfold vop_fsync. rewrite (bind_ok (inode_check n) _ s tt s); [done|]. apply (check_ok s n sin Hn); [by rewrite Href, Hopen|by rewrite Href].
    + unfold disk_din. rewrite Hb. by apply din_roundtrip.
  - exists s. split_and!; [done|done|done| |apply same_except_refl|by apply Hclean|done]. rewrite Hn. f_equal. destruct sin; simpl in *; by subst.
Qed.

Lemma reclaim_kept s F n sin :
  vol_ok s F → cache_ok s → inodes s !! n = Some sin → din_nlinks (din sin) ≠ 0 → SFSInodeRemoved sin = false →
  ref_count sin = 1 → reclaim_count sin = 1 → open_count sin = 0 → 0 < ino sin < blocks (super s) → (dirty sin = true → din_wf (din sin)) →
  (dirty sin = false → disk_din s (ino sin) = din sin) →
  ∃ s', inode_ref_dec n s = Ok (0, s') ∧ evicted n s F sin s'.
Proof.
  intros Hv Hc Hn Hnl Hrem Href Hrec Hopen Hi Hwf Hclean. set (sin0 := given_up sin). set (s0 := set_sin s n sin0).
  assert (inodes s0 !! n = Some sin0) as Hn0 by apply set_sin_at.
  assert (cache_ok s0) as Hc0 by by eapply cache_set.
  destruct (write_back s0 F n sin0) as (s1 & E1 & Hv1 & [Hother Hm1] & Hn1 & He1 & Hd1 & Hcl1); [by apply vol_set|done..|].
  assert (cache_ok s1) as Hc1.
  { apply (cache_inos s0); [done|apply (m_flinks _ _ Hm1)|apply (m_next _ _ Hm1)|].
    intros k. destruct (decide (k = n)) as [->|Hne]; [by rewrite Hn1, Hn0|by rewrite Hother]. }
  destruct (drop_node s1 n _ Hc1 Hn1) as (fl & E2 & Hkill); [done|done|]. set (s2 := s1 <| flinks := fl |>).
  destruct (Hkill s2 eq_refl eq_refl eq_refl) as [E4 Hc4].
  exists (s2 <| inodes := delete n (inodes s2) |>). split.
  - apply (ref_dec_last s n sin); [done..|]. fold sin0. fold s0. rewrite (proj2 (Z.eqb_neq _ 0) Hnl).
    rewrite (bind_ok _ _ _ _ _ E1). cbn [negb Z.eqb].
    rewrite (bind_ok _ _ _ _ _ E2), (bind_ok _ _ s2 (sin0 <| dirty := false |>) s2) by by apply get_sin_ok.
    change (din_nlinks (din (sin0 <| dirty := false |>))) with (din_nlinks (din sin)). rewrite (proj2 (Z.eqb_neq _ 0) Hnl). cbn [when].
    rewrite (bind_ok _ _ s2 tt s2) by done. by rewrite (bind_ok _ _ _ _ _ E4).
  - constructor.
    + by destruct Hv1.
    + done.
    + simpl. apply map_eq. intros k. destruct (decide (k = n)) as [->|Hne]; [by rewrite !lookup_delete_eq|].
      rewrite !lookup_delete_ne by done. rewrite Hother by done. unfold s0. simpl. by rewrite lookup_insert_ne.
    + destruct Hm1. constructor; simpl in *; try congruence. auto.
    + exact (m_oom _ _ Hm1).
    + exact (m_next _ _ Hm1).
    + exact Hd1.
    + exact He1.
    + exact Hcl1.
Qed.

(** ** The contract *)

(** An inode that its last reference keeps in memory. *)
Record last_ref s (sin : sfs_inode) : Prop := {
  lr_ref : ref_count sin = 1;
  lr_reclaim : reclaim_count sin = 1;
  lr_open : open_count sin = 0;
  lr_ino : 0 < ino sin < blocks (super s);
}.

(** C25.  The last reference to a removed inode.  When the last reference to an
    inode with no name is given up, the call succeeds and the inode is no longer
    in memory or in the cache.  Its own block, its blocks of data and its blocks
    of pointers become free, and no other block does; no other block changes,
    and no other inode. *)
Theorem sfs_reclaim_correct s F n sin T :
  file_ok s F n sin T → cache_ok s → last_ref s sin → ino sin ∉ F → ¬ in_tree T (ino sin) → din_nlinks (din sin) = 0 →
  ∃ s' F', inode_ref_dec n s = Ok (0, s') ∧ vol_ok s' F' ∧ cache_ok s' ∧ inodes s' = delete n (inodes s) ∧
    (∀ x, x ∈ F' ↔ x ∈ F ∨ x = ino sin ∨ in_tree T x) ∧ same_except (in_tree T) s s'.
Proof.
  intros Hf Hc [] Hif Hit Hnl. destruct (reclaim_removed s F n sin T) as (s' & F' & E & []); [done..|]. exists s', F'. by split_and!.
Qed.

(** C26.  An inode survives its removal from memory.  When the last reference to
    an inode with a name is given up, the inode goes to its block if it is dirty
    and is no longer in memory; loading its number again gives the same inode,
    with the same blocks and the same content, or fails for want of memory. *)
Theorem sfs_inode_roundtrip s F n sin T :
  file_ok s F n sin T → cache_ok s → last_ref s sin → ino sin ∉ F → ¬ in_tree T (ino sin) → din_nlinks (din sin) ≠ 0 →
  SFSInodeRemoved sin = false → din_wf (din sin) → type_ok (din_type (din sin)) →
  (dirty sin = false → disk_din s (ino sin) = din sin) →
  ∃ s1 ret n' s2, inode_ref_dec n s = Ok (0, s1) ∧ inodes s1 = delete n (inodes s) ∧ same_except (λ x, x = ino sin) s s1 ∧
    sfs_load_inode (ino sin) s1 = Ok ((ret, n'), s2) ∧ cache_ok s2 ∧
    ((ret = 0 ∧ file_ok s2 F n' (fresh_sin (din sin) (ino sin)) T ∧
      file_content s2 (fresh_sin (din sin) (ino sin)) T = file_content s sin T) ∨
     (ret = - E_NO_MEM ∧ (refused (oom s) ∨ refused (tail (oom s))))).
Proof.
  intros Hf Hc [] Hif Hit Hnl Hrem Hwf Hty Hclean. pose proof Hf as [[Hv Hn Hin Ht] Hd Hb].
  destruct (reclaim_kept s F n sin) as (s1 & E1 & [Hv1 Hc1 Hn1 Hs1 Ho1 _ Hd1 He1 _]); [done..|].
  assert (∀ k x, inodes s1 !! k = Some x → ino x ≠ ino sin) as Hno.
  { intros k x Hk. rewrite Hn1 in Hk. apply lookup_delete_Some in Hk as [Hne Hk]. intros Hx.
    destruct Hc as (L & ns & hs & _ & Hca & _). apply Hne. symmetry. by apply (ca_inj _ _ _ _ Hca k n x sin). }
  destruct (load_inode_ok s1 F (ino sin)) as (ret & n' & s2 & E2 & Hv2 & Hc2 & Hb2 & Hcase);
    [done|done|by rewrite (vs_blocks _ _ Hs1)|done|intros _; by rewrite Hd1|].
  exists s1, ret, n', s2. split_and!; [done|done|done|done|done|].
  destruct Hcase as [(_ & x & Hx & Hxi & _)|(_ & Hs2 & [(-> & Hfresh & Hn2 & _)|(-> & _ & Hr)])].
  { by destruct (Hno _ _ Hx). }
  2: { right. by rewrite <-Ho1. }
  left. rewrite Hd1 in Hn2. set (sin' := fresh_sin (din sin) (ino sin)) in *.
  assert (∀ x, in_tree T x → blk s2 x = blk s x) as Hblk.
  { intros x Hx. destruct (Hin x Hx) as [Hr _]. rewrite <-(He1 x) by (lia || by intros ->).
    destruct (Hb2 x) as [?|Hnr]; [done|]. rewrite (vs_blocks _ _ Hs1) in Hnr. lia. }
  split; [done|]. split.
  - constructor; [|done|done]. constructor; [done|by rewrite Hn2, lookup_insert_eq| |].
    + intros x Hx. rewrite (vs_blocks _ _ Hs2), (vs_blocks _ _ Hs1). by apply Hin.
    + apply (tree_ext (blk s)); [done|]. intros x Hx. by apply Hblk, meta_in.
  - unfold file_content. apply content_ext; [simpl; lia|]. intros k Hk. unfold data_blk.
    destruct (proj2 (Hd k) Hk) as [c Ec]. rewrite Ec. cbn. apply Hblk. by exists (Data k).
Qed.
End reclaim.
