(* ===== verification/SfsCreate.v ===== *)
(** * Creating files and directories

    [sfs_dirent_create_inode], [sfs_create] and [sfs_mkdir]: a new inode, its
    name, and what happens to it when the name cannot be written. *)

From S2P Require Import Prelude DList Mem Slab Bitmap Bytes Disk Sfs SfsVol SfsTree SfsMap SfsFile SfsIo SfsFileSpec SfsTrunc SfsDir SfsDirent SfsDirSpec SfsCache SfsReclaim.

Section create.
Context {D : Type} `{BlockDevice D, !BlockDeviceLaws D}.
Implicit Types (s : sfs_fs D) (b n i : Z) (F : gset Z) (T : tree) (sin : sfs_inode) (d : sfs_disk_inode) (name : list Z) (m : gmap (list Z) Z).

(** ** What does not concern a file leaves it alone *)

Lemma file_kept s s' F F' n sin T :
  file_ok s F n sin T → vol_ok s' F' → inodes s' !! n = Some sin → blocks (super s') = blocks (super s) →
  (∀ x, in_tree T x → x ∉ F' ∧ blk s' x = blk s x) →
  file_ok s' F' n sin T ∧ file_content s' sin T = file_content s sin T.
Proof.
  intros [[Hv Hn Hin Ht] Hd Hb] Hv' Hn' Hbl Hx. split.
  - constructor; [|done|done]. constructor; [done|done| |].
    + intros x Hxt. rewrite Hbl. split; [by apply Hin|by apply Hx].
    + apply (tree_ext (blk s)); [done|]. intros x Hxt. by apply Hx, meta_in.
  - unfold file_content. apply content_ext; [lia|]. intros k Hk. unfold data_blk.
    destruct (proj2 (Hd k) Hk) as [c Ec]. rewrite Ec. cbn. apply Hx. by exists (Data k).
Qed.

Lemma dir_kept s s' F F' n sin T m :
  dir_ok s F n sin T m → vol_ok s' F' → inodes s' !! n = Some sin → blocks (super s') = blocks (super s) →
  (∀ x, in_tree T x → x ∉ F' ∧ blk s' x = blk s x) →
  dir_ok s' F' n sin T m.
Proof.
  intros [Hf Ht Hr Hc] Hv Hn Hbl Hx. destruct (file_kept s s' F F' n sin T) as [Hf' E]; [done..|].
  constructor; [done|done|by rewrite E|done].
Qed.

(** An inode without blocks. *)
Lemma empty_file s F n sin :
  vol_ok s F → inodes s !! n = Some sin → direct (din sin) = replicate 12 0 → indirect (din sin) = 0 → db_indirect (din sin) = 0 →
  din_blocks (din sin) = 0 → file_ok s F n sin ∅.
Proof.
  intros Hv Hn Hd Hi Hdb Hz. constructor; [constructor; [done|done| |constructor]| |].
  - by intros x [r Er].
  - intros r j _ _. rewrite lookup_empty. cbn. unfold root_ptr. rewrite Hd, Hi, Hdb. destruct (j <? 12); [|by destruct (j =? 12)].
    destruct (replicate 12 0 !! Z.to_nat j) as [w|] eqn:E; [|done]. by apply lookup_replicate_1 in E as [-> _].
  - done.
  - done.
  - done.
  - by rewrite Hd.
  - intros i. rewrite lookup_empty, Hz. split; [by intros [? ?]|lia].
  - rewrite Hz. unfold MAX_BLOCKS. lia.
Qed.

(** ** A new inode *)

Definition new_sin (type b : Z) : sfs_inode := fresh_sin (mk_din 0 0 type 0 0 (replicate 12 0) 0 0) b.

Lemma dirent_create_ok s F type :
  vol_ok s F → cache_ok s → type_ok type → (∀ k x, inodes s !! k = Some x → ino x ∉ F) →
  ∃ ret lnk s', sfs_dirent_create_inode type s = Ok ((ret, lnk), s') ∧ cache_ok s' ∧ vol_same s s' ∧
    ((ret = 0 ∧ ∃ b, b ∈ F ∧ inodes s !! lnk = None ∧ vol_ok s' (F ∖ {[b]}) ∧ inodes s' = <[lnk := new_sin type b]> (inodes s) ∧
      same_except (λ x, x = b) s s' ∧ oom s' = tail (tail (oom s))) ∨
     (ret = - E_NO_MEM ∧ vol_ok s' F ∧ inodes s' = inodes s ∧ same_except (λ x, x ∈ F) s s' ∧
      (refused (oom s) ∨ refused (tail (oom s)) ∨ F = ∅))).
Proof.
  intros Hv Hc Hty Hused. unfold sfs_dirent_create_inode. set (s0 := set_oom s (tail (oom s))).
  rewrite (bind_ok _ _ _ _ _ (alloc_ok sizeof_din s ltac:(done))). fold s0.
  assert (vol_ok s0 F) as Hv0 by by destruct Hv. assert (cache_ok s0) as Hc0 by by apply (cache_same s).
  destruct (default true (head (oom s))) eqn:Eo; cbn [negb].
  2: { exists (- E_NO_MEM), 0, s0. split_and!; [done|done|done|right]. split_and!; [done|done|done|by intros x|left; by apply granted]. }
  cbv zeta. destruct (decide (F = ∅)) as [->|Hne].
  { rewrite (bind_ok _ _ _ _ _ (block_alloc_none s0 Hv0)). cbn [negb Z.eqb].
    exists (- E_NO_MEM), 0, s0. split_and!; [done|done|done|right]. split_and!; [done|done|done|by intros x|by right; right]. }
  destruct (block_alloc_some s0 F Hv0 Hne) as (b & s1 & E1 & [Hb _] & Hv1 & Hm1 & He1 & _). rewrite (bind_ok _ _ _ _ _ E1). cbn [negb Z.eqb].
  assert (cache_ok s1) as Hc1 by (apply (cache_same s0); [apply Hm1..|done]).
  assert (oom s1 = tail (oom s)) as Ho1 by apply (m_oom _ _ Hm1). assert (inodes s1 = inodes s) as Hi1 by apply (m_inodes _ _ Hm1).
  assert (vol_same s s1) as Hs1 by by destruct Hm1.
  set (d := mk_din 0 0 type 0 0 (replicate 12 0) 0 0). pose proof (create_inode_ok s1 d b Hty) as E2. cbv zeta in E2.
  set (s2 := set_oom s1 (tail (oom s1))) in *. assert (vol_ok s2 (F ∖ {[b]})) as Hv2 by by destruct Hv1.
  assert (cache_ok s2) as Hc2 by by apply (cache_same s1).
  destruct (default true (head (oom s1))) eqn:Eo1; rewrite (bind_ok _ _ _ _ _ E2); cbn [fst snd negb Z.eqb].
  - destruct (join_cache s2 d b Hc2) as (fl & E3 & Hc3).
    { intros k x. change (inodes s2) with (inodes s1). rewrite Hi1. intros Hk <-. by apply (Hused k x). }
    change (next_inode s2) with (next_inode s1) in E3. rewrite (bind_ok _ _ _ _ _ E3).
    exists 0, (next_inode s1), (with_node s2 d b <| flinks := fl |>). split_and!; [done|done| |left].
    + etrans; [exact Hs1|by constructor].
    + split; [done|]. exists b. split_and!; [done| |by apply vol_node|simpl; by rewrite Hi1|exact He1|simpl; by rewrite Ho1].
      destruct Hc1 as (L & ns & hs & _ & _ & Hlt). rewrite <-Hi1. destruct (inodes s1 !! next_inode s1) eqn:Ex; [|done].
      specialize (Hlt (next_inode s1) ltac:(by eexists)). lia.
  - pose proof (v_range _ _ Hv b Hb) as Hr.
    destruct (block_free_ok s2 (F ∖ {[b]}) b Hv2) as (s3 & E3 & Hv3 & Hm3 & He3);
      [set_solver|change (super s2) with (super s1); by rewrite (m_blocks _ _ Hm1 : blocks (super s1) = blocks (super s))|].
    change (- E_NO_MEM =? 0) with false. cbn [negb]. rewrite (bind_ok _ _ _ _ _ E3). exists (- E_NO_MEM), 0, s3.
    replace ({[b]} ∪ F ∖ {[b]}) with F in Hv3 by (apply set_eq; intros x; destruct (decide (x = b)); set_solver).
    split_and!; [done|by apply (cache_same s2); [apply Hm3..|]| |right].
    + etrans; [exact Hs1|]. etrans; [|exact (mem_vol_same _ _ Hm3)]. by constructor.
    + split_and!; [done|done|by rewrite (m_inodes _ _ Hm3)| |right; left; rewrite <-Ho1; by apply granted].
      intros x Hx Hnf. rewrite (He3 x); [|change (super s2) with (super s1); by rewrite (m_blocks _ _ Hm1 : blocks (super s1) = blocks (super s))|tauto].
      apply He1; [done|]. by intros ->.
Qed.

(** ** Inodes in memory *)

(** Each has a number of its own that is not a free block, and references. *)
Record cached s F : Prop := {
  cd_cache : cache_ok s;
  cd_node k x : inodes s !! k = Some x → 0 < ino x < blocks (super s) ∧ ino x ∉ F ∧ 1 ≤ ref_count x ∧ reclaim_count x = 1 ∧
    0 ≤ open_count x ≤ ref_count x;
}.

(** Only the device's own state and the pending allocations differ. *)
Record quiet s F s' : Prop := {
  qt_vol : vol_ok s' F;
  qt_cache : cache_ok s';
  qt_nodes : inodes s' = inodes s;
  qt_same : vol_same s s';
  qt_blocks : same_except (λ _, False) s s';
}.

Lemma quiet_dir s F s' n sin T m : quiet s F s' → dir_ok s F n sin T m → dir_ok s' F n sin T m.
Proof.
  intros [Hv _ Hi Hs Hb] Hd. pose proof (d_file _ _ _ _ _ _ Hd) as [[_ Hn Hin _] _ _].
  apply (dir_kept s s' F F); [done|done|by rewrite Hi|apply (vs_blocks _ _ Hs)|].
  intros x Hx. destruct (Hin x Hx). split; [done|]. apply Hb; [lia|tauto].
Qed.
Lemma quiet_cached s F s' : quiet s F s' → cached s F → cached s' F.
Proof. intros [_ Hc Hi Hs _] [_ Hn]. constructor; [done|]. intros k x. rewrite Hi, (vs_blocks _ _ Hs). apply Hn. Qed.
Lemma vquiet_trans s1 F s2 s3 : quiet s1 F s2 → quiet s2 F s3 → quiet s1 F s3.
Proof.
  intros [_ _ Hi1 Hs1 Hb1] [Hv2 Hc2 Hi2 Hs2 Hb2]. constructor; [done|done|congruence|by etrans|].
  intros x Hx Hn. rewrite Hb2; [by apply Hb1|by rewrite (vs_blocks _ _ Hs1)|done].
Qed.

(** The inode [i], in memory or on the device. *)
Definition is_din s i d : Prop :=
  (∃ k x, inodes s !! k = Some x ∧ ino x = i ∧ d = din x ∧ ref_count x < MAX_INODE_COUNT - 1) ∨
  ((∀ k x, inodes s !! k = Some x → ino x ≠ i) ∧ d = disk_din s i).
Record named s F i d : Prop := {
  nm_din : is_din s i d;
  nm_range : 0 < i < blocks (super s);
  nm_used : i ∉ F;
  nm_links : din_nlinks d ≠ 0;
  nm_type : type_ok (din_type d);
}.

Lemma quiet_named s F s' i d : quiet s F s' → named s F i d → named s' F i d.
Proof.
  intros [_ _ Hi Hs Hb] [Hd Hr]. constructor; [|by rewrite (vs_blocks _ _ Hs)|done..]. unfold is_din. rewrite Hi.
  destruct Hd as [?|[? ->]]; [by left|right]. split; [done|]. unfold disk_din. rewrite Hb; [done|lia|tauto].
Qed.

(** Another reference to an inode, which can be given up again. *)
Lemma load_named s F i d :
  vol_ok s F → cached s F → named s F i d →
  ∃ ret k s1, sfs_load_inode i s = Ok ((ret, k), s1) ∧
    ((ret = - E_NO_MEM ∧ quiet s F s1 ∧ (refused (oom s) ∨ refused (tail (oom s)))) ∨
     (ret = 0 ∧ vol_ok s1 F ∧ cache_ok s1 ∧ vol_same s s1 ∧ same_except (λ _, False) s s1 ∧ (oom s1 = oom s ∨ oom s1 = tail (tail (oom s))) ∧
      ∃ x, inodes s1 = <[k := x]> (inodes s) ∧ ino x = i ∧ din x = d ∧
        ((inodes s !! k = None ∧ x = fresh_sin d i) ∨
         (∃ x0, inodes s !! k = Some x0 ∧ x = x0 <| ref_count := ref_count x0 + 1 |> ∧ ref_count x0 < MAX_INODE_COUNT - 1)))).
Proof.
  intros Hv [Hc Hn] [Hd Hr Hu Hl Ht].
  destruct (load_inode_ok s F i) as (ret & k & s1 & E & Hv1 & Hc1 & Hb1 & Hcase); [done..| |].
  { intros Hno. destruct Hd as [(k & x & Hk & Hx & _)|[_ ->]]; [by destruct (Hno k x)|done]. }
  assert (same_except (λ _, False) s s1) as Hse by (intros x Hx _; by destruct (Hb1 x)).
  exists ret, k, s1. split; [done|]. destruct Hcase as [(-> & x0 & Hk & Hx & ->)|(Hno & Hs & Hcase)].
  - right. split_and!; [done|done|done|by constructor|done|by left|]. exists (x0 <| ref_count := ref_count x0 + 1 |>).
    destruct Hd as [(k' & x' & Hk' & Hx' & -> & Hmax)|[Hno _]]; [|by destruct (Hno k x0)].
    destruct Hc as (L & ns & hs & _ & Hca & _). assert (k' = k) as -> by (apply (ca_inj _ _ _ _ Hca k' k x' x0); congruence).
    assert (x' = x0) as -> by congruence. destruct (Hn k x0 Hk) as (_ & _ & Href & _). unfold MAX_INODE_COUNT in Hmax.
    split_and!; [|done|done|right; by exists x0]. unfold set_sin, grab. simpl.
    assert (s32 (ref_count x0 + 1) = ref_count x0 + 1) as -> by (apply s32_id; lia). by rewrite (proj2 (Z.eqb_neq _ 1)) by lia.
  - destruct Hd as [(k' & x' & Hk' & Hx' & _)|[_ ->]]; [by destruct (Hno k' x')|].
    destruct Hcase as [(-> & Hk & Hi & Ho)|(-> & Hi & Hx)]; [right|left].
    + split_and!; [done..|by right|]. exists (fresh_sin (disk_din s i) i). split_and!; [done|done|done|by left].
    + split_and!; [done|by constructor|done].
Qed.

(** The inode [i] in memory as [x] with a reference more than in [s], where it may
    not be in memory. *)
Definition borrowed s k i d x : Prop :=
  (inodes s !! k = None ∧ x = fresh_sin d i) ∨
  (∃ x0, inodes s !! k = Some x0 ∧ x = x0 <| ref_count := ref_count x0 + 1 |> ∧ ref_count x0 < MAX_INODE_COUNT - 1).

(** Giving it up without a change to it. *)
Lemma drop_held s F s1 k x i d :
  vol_ok s1 F → cache_ok s1 → vol_same s s1 → same_except (λ _, False) s s1 → named s F i d →
  (∀ x0, inodes s !! k = Some x0 → 1 ≤ ref_count x0) →
  inodes s1 = <[k := x]> (inodes s) → ino x = i → din x = d → borrowed s k i d x →
  ∃ c s2, inode_ref_dec k s1 = Ok (c, s2) ∧ quiet s F s2 ∧ oom s2 = oom s1.
Proof.
  intros Hv Hc1 Hs1 Hb1 [Hd Hr Hu Hl Ht] Hn Hi Hx Hdx [[Hk ->]|(x0 & Hk & -> & _)].
  - destruct (reclaim_kept s1 F k (fresh_sin d i)) as (s2 & E & [Hv2 Hc2 Hn2 Hs2 Ho2 _ _ _ Hcl]); try done.
    { by rewrite Hi, lookup_insert_eq. } { by rewrite (vs_blocks _ _ Hs1). }
    { intros _. simpl. destruct Hd as [(k' & x' & Hk' & Hx' & _)|[_ ->]].
      - exfalso. destruct Hc1 as (L & ns & hs & _ & Hca & _). assert (k' ≠ k) as Hne by (intros ->; congruence). apply Hne.
        apply (ca_inj _ _ _ _ Hca k' k x' (fresh_sin d i)); [by rewrite Hi, lookup_insert_ne|by rewrite Hi, lookup_insert_eq|done].
      - unfold disk_din. by rewrite Hb1 by (lia || tauto). }
    exists 0, s2. split; [done|]. split; [|done]. constructor; [done|done| |by etrans|].
    + rewrite Hn2, Hi. by rewrite delete_insert_id.
    + intros y Hy _. rewrite <-(Hb1 y) by tauto. unfold blk. by rewrite Hcl.
  - specialize (Hn x0 Hk). eexists _, _. split; [|split].
    + apply ref_dec_more; [by rewrite Hi, lookup_insert_eq|simpl; lia].
    + constructor.
      * by apply vol_set.
      * eapply cache_set; [done|by rewrite Hi, lookup_insert_eq|done].
      * simpl. rewrite Hi, insert_insert_eq. apply insert_id. rewrite Hk. f_equal. destruct x0; cbn. f_equal. lia.
      * etrans; [exact Hs1|by constructor].
      * exact Hb1.
    + done.
Qed.
Lemma drop_clean s F s1 k x i d :
  vol_ok s1 F → cached s F → cache_ok s1 → vol_same s s1 → same_except (λ _, False) s s1 → named s F i d →
  inodes s1 = <[k := x]> (inodes s) → ino x = i → din x = d → borrowed s k i d x →
  ∃ c s2, inode_ref_dec k s1 = Ok (c, s2) ∧ quiet s F s2.
Proof.
  intros Hv Hc Hc1 Hs1 Hb1 Hnm Hi Hx Hd Hbo. destruct (drop_held s F s1 k x i d) as (c & s2 & E & Hq & _); [done..| |done|done|done|done|by exists c, s2].
  intros x0 Hk. by apply (cd_node _ _ Hc k x0 Hk).
Qed.

(** ** A new file *)

(** The references of an inode are as they were. *)
Definition refs_same (x x' : sfs_inode) : Prop :=
  ino x' = ino x ∧ ref_count x' = ref_count x ∧ reclaim_count x' = reclaim_count x ∧ open_count x' = open_count x.

Lemma cached_change s F s' F' (P : Z → Prop) :
  cached s F → frame P s s' → F' ⊆ F →
  (∀ k, P k → ∃ x x', inodes s !! k = Some x ∧ inodes s' !! k = Some x' ∧ refs_same x x') → (∀ k, P k ∨ ¬ P k) →
  cached s' F'.
Proof.
  intros [Hc Hn] [Hother [o Hm]] HF HP Hdec. constructor.
  - apply (cache_inos s); [done|apply (m_flinks _ _ Hm)|apply (m_next _ _ Hm)|]. intros k. destruct (Hdec k) as [Hk|Hk]; [|by rewrite Hother].
    destruct (HP k Hk) as (x & x' & -> & -> & Hi & _). simpl. by rewrite Hi.
  - intros k x' Hk'. rewrite (m_blocks _ _ Hm : blocks (super s') = blocks (super s)). destruct (Hdec k) as [Hk|Hk].
    + destruct (HP k Hk) as (x & x1 & Hx & Hx1 & Hi & Hr & Hrc & Ho). simplify_eq. rewrite Hi, Hr, Hrc, Ho. destruct (Hn k x Hx). set_solver.
    + rewrite Hother in Hk' by done. destruct (Hn k x' Hk'). set_solver.
Qed.

Lemma sin_same_refs x x' : sin_same x x' → refs_same x x'.
Proof. by intros []. Qed.

(** After an inode joined the cache, or left it. *)
Lemma cached_join s F s' lnk x F' :
  cached s F → cache_ok s' → vol_same s s' → inodes s' = <[lnk := x]> (inodes s) → F' ⊆ F →
  0 < ino x < blocks (super s) → ino x ∉ F' → 1 ≤ ref_count x → reclaim_count x = 1 → 0 ≤ open_count x ≤ ref_count x →
  cached s' F'.
Proof.
  intros [_ Hn] Hc Hs Hi HF Hr Hx H1 H2 H3. constructor; [done|]. intros k y. rewrite Hi, (vs_blocks _ _ Hs).
  intros [[<- <-]|[_ Hk]]%lookup_insert_Some; [done|]. destruct (Hn k y Hk). set_solver.
Qed.

(** What a directory that gets a name for a new inode is left with. *)
Record dir_moved s F (sin : sfs_inode) T s' F' (sin' : sfs_inode) T' : Prop := {
  dv_sin : sin_same sin sin';
  dv_cached : cached s' F';
  dv_same : vol_same s s';
  dv_blocks : same_except (λ x, x ∈ F ∨ in_tree T x) s s';
}.

Lemma create_link s F n sin T m name slot type b s1 lnk :
  dir_ok s F n sin T m → cached s F → name_ok name → m !! name = None → slot_free (file_content s sin T) slot →
  din_blocks (din sin) < MAX_BLOCKS → b ∈ F → inodes s !! lnk = None → vol_ok s1 (F ∖ {[b]}) → cache_ok s1 → vol_same s s1 →
  inodes s1 = <[lnk := new_sin type b]> (inodes s) → same_except (λ x, x = b) s s1 →
  ∃ ret s2 F' sin' T', sfs_dirent_link_nolock n slot lnk name s1 = Ok (ret, s2) ∧ dir_moved s F sin T s2 F' sin' T' ∧
    (∀ k, k ≠ n → k ≠ lnk → inodes s2 !! k = inodes s !! k) ∧ lnk ≠ n ∧ vol_ok s2 F' ∧ b ∉ F' ∧ ¬ in_tree T' b ∧
    (∀ x, x ∈ F ∨ in_tree T x ↔ x ∈ F' ∨ in_tree T' x ∨ x = b) ∧
    ((ret = 0 ∧ dir_ok s2 F' n sin' T' (<[name := b]> m) ∧ inodes s2 !! lnk = Some (linked (new_sin type b))) ∨
     (ret = - E_NO_MEM ∧ dir_ok s2 F' n sin' T' m ∧ inodes s2 !! lnk = Some (new_sin type b) ∧
      (refused (oom s1) ∨ (size F' ≤ 1)%nat))).
Proof.
  intros Hd Hc Hname Hnew Hslot Hmax Hb Hlnk Hv1 Hc1 Hs1 Hi1 Hb1. set (x := new_sin type b) in *.
  pose proof (d_file _ _ _ _ _ _ Hd) as [[Hv Hn Hin Ht] _ _]. pose proof (v_range _ _ Hv b Hb) as Hbr. pose proof (proj2 (v_blocks _ _ Hv)) as Hmaxb.
  assert (lnk ≠ n) as Hne by (intros ->; congruence). assert (¬ in_tree T b) as Hbt by (intros Hx; by apply (Hin b Hx)).
  destruct (file_kept s s1 F (F ∖ {[b]}) n sin T (d_file _ _ _ _ _ _ Hd) Hv1) as [Hf1 Hcn1]; [by rewrite Hi1, lookup_insert_ne|apply (vs_blocks _ _ Hs1)| |].
  { intros y Hy. destruct (Hin y Hy) as [Hyr Hyf]. split; [set_solver|]. apply Hb1; [lia|]. by intros ->. }
  assert (dir_ok s1 (F ∖ {[b]}) n sin T m) as Hd1 by (destruct Hd; constructor; [done|done|by rewrite Hcn1|done]).
  assert (cached s1 (F ∖ {[b]})) as Hcd1 by (apply (cached_join s F s1 lnk x); (done || set_solver)).
  destruct (dir_add s1 (F ∖ {[b]}) n sin T m lnk x slot name) as (ret & s2 & F' & sin' & T' & E & [Hfr Hss Hmv Hse] & Hcase);
    [done|done|by rewrite Hi1, lookup_insert_eq|simpl; lia|done|done|by rewrite Hcn1|done|].
  assert (file_ok s2 F' n sin' T') as Hf2 by (destruct Hcase as [(_ & [] & _)|(_ & _ & [] & _)]; done).
  assert (∃ x', inodes s2 !! lnk = Some x' ∧ refs_same x x') as (x' & Hx' & Hrefs).
  { destruct Hcase as [(_ & _ & Hl & _)|(_ & _ & _ & Hl)]; by eexists. }
  assert (∀ y, y ∈ F ∨ in_tree T y ↔ y ∈ F' ∨ in_tree T' y ∨ y = b) as Hacc.
  { intros y. pose proof (mv_all _ _ _ _ Hmv y) as Hy. rewrite elem_of_difference, elem_of_singleton in Hy. destruct (decide (y = b)) as [->|]; tauto. }
  assert (¬ (b ∈ F' ∨ in_tree T' b)) as Hbn by (rewrite <-(mv_all _ _ _ _ Hmv b); set_solver).
  exists ret, s2, F', sin', T'. split; [done|]. split_and!; [|intros k Hk1 Hk2; rewrite (fr_nodes _ _ _ Hfr) by tauto; by rewrite Hi1, lookup_insert_ne|done|
    apply (fa_vol _ _ _ _ _ (fo_at _ _ _ _ _ Hf2))|tauto|tauto|done|].
  - constructor; [done| |etrans; [exact Hs1|by apply frame_vol_same with (λ k, k = n ∨ k = lnk)]|].
    + eapply (cached_change s1); [done|exact Hfr|apply (mv_free _ _ _ _ Hmv)| |intros k; destruct (decide (k = n)), (decide (k = lnk)); tauto].
      intros k [-> | ->].
      * exists sin, sin'. split_and!; [by rewrite Hi1, lookup_insert_ne|apply (fa_node _ _ _ _ _ (fo_at _ _ _ _ _ Hf2))|by apply sin_same_refs].
      * exists x, x'. by rewrite Hi1, lookup_insert_eq.
    + intros y Hy Hyn. rewrite Hse; [apply Hb1; [done|intros ->; tauto]|by rewrite (vs_blocks _ _ Hs1)|set_solver].
  - destruct Hcase as [(-> & Hd2 & Hl & _)|(-> & Hx & Hd2 & Hl)]; [by left|right]. split_and!; [done|done|done|].
    unfold refused. tauto.
Qed.

(** No name was added: the directory as before, and no block lost. *)
Record not_created s F n sin T m s' F' (sin' : sfs_inode) T' : Prop := {
  nc_moved : dir_moved s F sin T s' F' sin' T';
  nc_dir : dir_ok s' F' n sin' T' m;
  nc_others k : k ≠ n → inodes s' !! k = inodes s !! k;
  nc_blocks x : x ∈ F ∨ in_tree T x ↔ x ∈ F' ∨ in_tree T' x;
  nc_cause : refused (oom s) ∨ refused (tail (oom s)) ∨ refused (tail (tail (oom s))) ∨ (size F' ≤ 2)%nat;
}.
(** The name [name] was added for a new inode, in memory as [lnk], with number
    [b]. *)
Record created_name s F n (sin : sfs_inode) T m name type b lnk s' F' (sin' : sfs_inode) T' : Prop := {
  cn_moved : dir_moved s F sin T s' F' sin' T';
  cn_dir : dir_ok s' F' n sin' T' (<[name := b]> m);
  cn_node : inodes s' !! lnk = Some (linked (new_sin type b));
  cn_fresh : inodes s !! lnk = None;
  cn_others k : k ≠ n → k ≠ lnk → inodes s' !! k = inodes s !! k;
  cn_block : b ∈ F ∧ b ∉ F' ∧ ¬ in_tree T' b;
  cn_blocks x : x ∈ F ∨ in_tree T x ↔ x ∈ F' ∨ in_tree T' x ∨ x = b;
}.

(** The new inode is taken back when the entry cannot be written. *)
Lemma create_undo s F n sin T m type b lnk s2 F' sin' T' :
  dir_moved s F sin T s2 F' sin' T' → dir_ok s2 F' n sin' T' m → inodes s2 !! lnk = Some (new_sin type b) → lnk ≠ n →
  inodes s !! lnk = None → (∀ k, k ≠ n → k ≠ lnk → inodes s2 !! k = inodes s !! k) → b ∈ F → b ∉ F' → ¬ in_tree T' b → vol_ok s F →
  (∀ x, x ∈ F ∨ in_tree T x ↔ x ∈ F' ∨ in_tree T' x ∨ x = b) →
  (refused (oom s) ∨ refused (tail (oom s)) ∨ refused (tail (tail (oom s))) ∨ (size F' ≤ 1)%nat) →
  ∃ s3 F3, inode_ref_dec lnk s2 = Ok (0, s3) ∧ not_created s F n sin T m s3 F3 sin' T'.
Proof.
  intros Hmv Hd2 Hl2 Hne Hlnk Hother Hb HbF HbT Hv Hacc Hx. pose proof (v_range _ _ Hv b Hb) as Hbr. set (x := new_sin type b) in *.
  pose proof (d_file _ _ _ _ _ _ Hd2) as [[Hv2 Hn2' Hin2 _] _ _].
  destruct Hmv as [Hss [Hc2 Hn2] Hs2 Hb2]. assert (blocks (super s2) = blocks (super s)) as Hbl by apply (vs_blocks _ _ Hs2).
  destruct (reclaim_removed s2 F' lnk x ∅) as (s3 & F3 & E3 & [Hv3 Hc3 Hi3 Hs3 _ _ Hf3 Hb3]);
    [by apply empty_file|done|done|done|done|done|by rewrite Hbl|done|by intros [r Er]|].
  exists s3, F3. split; [done|]. change (ino x) with b in Hf3.
  assert (∀ y, y ∈ F3 ↔ y ∈ F' ∨ y = b) as HF3 by (intros y; rewrite Hf3; assert (¬ in_tree ∅ y) by (by intros [r Er]); tauto).
  assert (∀ y, 0 ≤ y < blocks (super s) → blk s3 y = blk s2 y) as Hb23 by (intros y Hy; apply Hb3; [by rewrite Hbl|by intros [r Er]]).
  assert (vol_same s s3) as Hs13 by by etrans. constructor; [constructor; [done| |done|]| | | |].
  - constructor; [done|]. intros k y. rewrite Hi3, (vs_blocks _ _ Hs13). intros [Hk Hy]%lookup_delete_Some.
    destruct (Hn2 k y Hy) as (Hyr & HyF & Hy3). rewrite Hbl in Hyr. split; [done|]. split; [|done]. rewrite HF3. intros [?|Hyb]; [done|].
    destruct Hc2 as (L & ns & hs & _ & Hca & _). apply Hk. by apply (ca_inj _ _ _ _ Hca lnk k x y).
  - intros y Hy Hyn. rewrite Hb23 by done. by apply Hb2.
  - apply (dir_kept s2 s3 F'); [done|done|by rewrite Hi3, lookup_delete_ne|by rewrite (vs_blocks _ _ Hs13)|].
    intros y Hy. destruct (Hin2 y Hy) as [Hyr HyF]. rewrite Hbl in Hyr. split; [|apply Hb23; lia]. rewrite HF3. intros [?| ->]; done.
  - intros k Hk. rewrite Hi3. destruct (decide (k = lnk)) as [->|Hk']; [by rewrite lookup_delete_eq|].
    rewrite lookup_delete_ne by done. by apply Hother.
  - intros y. rewrite Hacc, HF3. tauto.
  - destruct Hx as [?|[?|[?|Hsz]]]; [tauto..|]. do 3 right. assert (F3 ⊆ {[b]} ∪ F') as Hsub by (intros y; rewrite HF3; set_solver).
    apply subseteq_size in Hsub. rewrite size_union_alt, size_singleton in Hsub.
    pose proof (subseteq_size (F' ∖ {[b]}) F' ltac:(set_solver)). lia.
Qed.

(** The two steps of a new name. *)
Lemma create_named s F n sin T m name slot type :
  type_ok type → dir_ok s F n sin T m → cached s F → name_ok name → m !! name = None → slot_free (file_content s sin T) slot →
  din_blocks (din sin) < MAX_BLOCKS →
  ∃ ret lnk s1, sfs_dirent_create_inode type s = Ok ((ret, lnk), s1) ∧
    ((ret = - E_NO_MEM ∧ not_created s F n sin T m s1 F sin T) ∨
     (ret = 0 ∧ lnk ≠ n ∧ ∃ b ret2 s2 F' sin' T', sfs_dirent_link_nolock n slot lnk name s1 = Ok (ret2, s2) ∧
       ((ret2 = 0 ∧ created_name s F n sin T m name type b lnk s2 F' sin' T') ∨
        (ret2 = - E_NO_MEM ∧ inodes s2 !! lnk = Some (new_sin type b) ∧
          ∃ s3 F3, inode_ref_dec lnk s2 = Ok (0, s3) ∧ not_created s F n sin T m s3 F3 sin' T')))).
Proof.
  intros Hty Hd Hc Hname Hnew Hslot Hmax. pose proof (d_file _ _ _ _ _ _ Hd) as [[Hv Hn Hin Ht] _ _].
  destruct (dirent_create_ok s F type) as (ret & lnk & s1 & E1 & Hc1 & Hs1 & Hcase); [done|apply Hc|done| |].
  { intros k x Hk. by apply (cd_node _ _ Hc k x Hk). }
  exists ret, lnk, s1. split; [done|]. destruct Hcase as [(-> & b & Hb & Hlnk & Hv1 & Hi1 & Hb1 & Ho1)|(-> & Hv1 & Hi1 & Hb1 & Hx)].
  2: { left. split; [done|]. assert (∀ x, in_tree T x → x ∉ F ∧ blk s1 x = blk s x) as Hx1.
       { intros x Hx'. destruct (Hin x Hx'). split; [done|]. apply Hb1; [lia|done]. }
       constructor; [constructor; [done| |done|]| | |done|].
       - constructor; [done|]. intros k x. rewrite Hi1, (vs_blocks _ _ Hs1). apply Hc.
       - eapply same_except_weaken; [|done]. tauto.
       - apply (dir_kept s s1 F F); [done|done|by rewrite Hi1|apply (vs_blocks _ _ Hs1)|done].
       - intros; by rewrite Hi1.
       - destruct Hx as [?|[?| ->]]; [tauto|tauto|]. rewrite size_empty. right; right; right; lia. }
  destruct (create_link s F n sin T m name slot type b s1 lnk) as (ret & s2 & F' & sin' & T' & E2 & Hmv & Hother & Hne & Hv2 & HbF & HbT & Hacc & Hcase);
    [done..|]. right. split_and!; [done|done|]. exists b, ret, s2, F', sin', T'. split; [done|].
  destruct Hcase as [(-> & Hd2 & Hl2)|(-> & Hd2 & Hl2 & Hx)]; [left; by constructor|right]. split_and!; [done|done|].
  apply (create_undo s F n sin T m type b lnk s2 F' sin' T'); [done..|]. rewrite Ho1 in Hx. tauto.
Qed.

(** The whole of a new file. *)
Lemma create_new s F n sin T m name slot :
  dir_ok s F n sin T m → cached s F → name_ok name → m !! name = None → slot_free (file_content s sin T) slot →
  din_blocks (din sin) < MAX_BLOCKS →
  ∃ ret lnk s' F' sin' T',
    (r ← sfs_dirent_create_inode SFS_TYPE_FILE;
     let '(ret, lnk) := r in
     if negb (ret =? 0) then mret (ret, 0) else
     ret ← sfs_dirent_link_nolock n slot lnk name;
     if negb (ret =? 0) then _ ← inode_ref_dec lnk; mret (ret, 0) else mret (0, lnk)) s = Ok ((ret, lnk), s') ∧
    dir_moved s F sin T s' F' sin' T' ∧
    ((ret = 0 ∧ ∃ b, b ∈ F ∧ inodes s !! lnk = None ∧ dir_ok s' F' n sin' T' (<[name := b]> m) ∧
      file_ok s' F' lnk (linked (new_sin SFS_TYPE_FILE b)) ∅ ∧ (∀ k, k ≠ n → k ≠ lnk → inodes s' !! k = inodes s !! k) ∧
      (∀ x, x ∈ F ∨ in_tree T x ↔ x ∈ F' ∨ in_tree T' x ∨ x = b)) ∨
     (ret = - E_NO_MEM ∧ not_created s F n sin T m s' F' sin' T')).
Proof.
  intros Hd Hc Hname Hnew Hslot Hmax.
  destruct (create_named s F n sin T m name slot SFS_TYPE_FILE) as (ret & lnk & s1 & E1 & Hcase); [by right|done..|].
  rewrite (bind_ok _ _ _ _ _ E1). destruct Hcase as [(-> & Hnc)|(-> & Hne & b & ret2 & s2 & F' & sin' & T' & E2 & Hcase)]; cbn [negb Z.eqb].
  { exists (- E_NO_MEM), 0, s1, F, sin, T. split_and!; [done|apply Hnc|by right]. }
  rewrite (bind_ok _ _ _ _ _ E2). destruct Hcase as [(-> & Hcn)|(-> & _ & s3 & F3 & E3 & Hnc)].
  - exists 0, lnk, s2, F', sin', T'. destruct Hcn as [Hmv Hd2 Hl2 Hf Ho [Hb _] Hacc]. split_and!; [done|done|left]. split; [done|].
    exists b. split_and!; [done|done|done| |done|done]. apply empty_file; [apply (d_file _ _ _ _ _ _ Hd2)|done..].
  - change (- E_NO_MEM =? 0) with false. cbn [negb]. rewrite (bind_ok _ _ _ _ _ E3). exists (- E_NO_MEM), 0, s3, F3, sin', T'.
    split_and!; [done|apply Hnc|by right].
Qed.

Lemma quiet_moved s F s' sin T : (∀ x, in_tree T x → x ∉ F) → quiet s F s' → cached s F → dir_moved s F sin T s' F sin T.
Proof.
  intros Hin Hq Hc. constructor; [done|by eapply quiet_cached|apply Hq|]. eapply same_except_weaken; [|exact (qt_blocks _ _ _ Hq)]. by intros ? [].
Qed.

Lemma search_quiet s F n sin T m name :
  dir_ok s F n sin T m → cached s F → len name ≤ SFS_MAX_FNAME_LEN →
  ∃ f s1, sfs_dirent_search_nolock n name s = Ok (f, s1) ∧ quiet s F s1 ∧ dir_ok s1 F n sin T m ∧ oom s1 = tail (oom s) ∧
    (f_ret f = - E_NO_MEM → refused (oom s)) ∧ search_result s1 sin T m name f.
Proof.
  intros Hd Hc Hl. destruct (dir_search s F n sin T m name Hd Hl) as (f & s1 & E & Hd1 & Hst & Hcn & Hi & Hb & Ho & Hoom & Hres).
  destruct Hst as [o [? [_ Hm] _ _ _ _]]. exists f, s1. split_and!; [done| |done|done|done|by unfold search_result in *; rewrite Hcn].
  constructor; [apply (d_file _ _ _ _ _ _ Hd1)| |done|by destruct Hm|done].
  apply (cache_same s); [apply (m_flinks _ _ Hm)|done|apply (m_next _ _ Hm)|apply Hc].
Qed.

(** What [sfs_create] answers, and the directory that it leaves. *)
Definition create_result s F n T m name (excl : bool) (ret lnk : Z) s' F' (sin' : sfs_inode) T' : Prop :=
  (ret = 0 ∧ m !! name = None ∧ ∃ b, b ∈ F ∧ inodes s !! lnk = None ∧ dir_ok s' F' n sin' T' (<[name := b]> m) ∧
    file_ok s' F' lnk (linked (new_sin SFS_TYPE_FILE b)) ∅ ∧ (∀ k, k ≠ n → k ≠ lnk → inodes s' !! k = inodes s !! k) ∧
    (∀ x, x ∈ F ∨ in_tree T x ↔ x ∈ F' ∨ in_tree T' x ∨ x = b)) ∨
  (dir_ok s' F' n sin' T' m ∧ (∀ x, x ∈ F ∨ in_tree T x ↔ x ∈ F' ∨ in_tree T' x) ∧
    ((ret = 0 ∧ excl = false ∧ ∃ i d x, m !! name = Some i ∧ named s F i d ∧ din_type d = SFS_TYPE_FILE ∧
       inodes s' !! lnk = Some x ∧ ino x = i ∧ din x = d ∧ (∀ k, k ≠ lnk → inodes s' !! k = inodes s !! k)) ∨
     ((∀ k, k ≠ n → inodes s' !! k = inodes s !! k) ∧
       (ret = - E_EXISTS ∧ (∃ i d, m !! name = Some i ∧ named s F i d ∧ (excl = true ∨ din_type d ≠ SFS_TYPE_FILE)) ∨
        ret = - E_NO_MEM ∧ (Some false ∈ head <$> [oom s; tail (oom s); tail (tail (oom s)); tail (tail (tail (oom s)))] ∨ (size F' ≤ 2)%nat))))).

(** The directory when an inode that it names is in memory. *)
Lemma load_dir s F n sin T m i d s1 k x :
  dir_ok s F n sin T m → cached s F → named s F i d → i ≠ ino sin → vol_ok s1 F → cache_ok s1 → vol_same s s1 →
  same_except (λ _, False) s s1 → inodes s1 = <[k := x]> (inodes s) → ino x = i →
  (inodes s !! k = None ∧ x = fresh_sin d i) ∨
    (∃ x0, inodes s !! k = Some x0 ∧ x = x0 <| ref_count := ref_count x0 + 1 |> ∧ ref_count x0 < MAX_INODE_COUNT - 1) →
  k ≠ n ∧ dir_ok s1 F n sin T m ∧ file_content s1 sin T = file_content s sin T ∧ cached s1 F.
Proof.
  intros Hd Hc Hnm Hi Hv1 Hc1 Hs1 Hb1 Hi1 Hx Hcase. pose proof (d_file _ _ _ _ _ _ Hd) as Hf. pose proof (fo_at _ _ _ _ _ Hf) as [_ Hn Hin _].
  assert (k ≠ n) as Hkn.
  { intros ->. destruct Hcase as [[? _]|(x0 & Hx0 & -> & _)]; [congruence|]. apply Hi. rewrite <-Hx. simpl. congruence. }
  destruct (file_kept s s1 F F n sin T Hf) as [Hf1 Hcn1]; [done|by rewrite Hi1, lookup_insert_ne|apply (vs_blocks _ _ Hs1)| |].
  { intros b Hb. destruct (Hin b Hb). split; [done|]. apply Hb1; [lia|tauto]. }
  split_and!; [done|destruct Hd; constructor; [done|done|by rewrite Hcn1|done]|done|].
  destruct Hcase as [[Hk0 ->]|(x0 & Hk0 & -> & _)].
  - apply (cached_join s F s1 k (fresh_sin d i)); simpl; (done || apply Hnm || lia).
  - destruct (cd_node _ _ Hc k x0 Hk0) as (? & ? & ? & ? & ?).
    apply (cached_join s F s1 k (x0 <| ref_count := ref_count x0 + 1 |>)); simpl; (done || lia).
Qed.

(** The inode of an existing name. *)
Lemma create_open s F n sin T m name i d :
  dir_ok s F n sin T m → cached s F → m !! name = Some i → named s F i d → i ≠ ino sin →
  ∃ ret lnk s',
    (r ← sfs_load_inode i;
     let '(ret, lnk) := r in
     if negb (ret =? 0) then mret (ret, 0) else
     l ← get_din lnk;
     if din_type l =? SFS_TYPE_FILE then mret (0, lnk) else _ ← inode_ref_dec lnk; mret (- E_EXISTS, 0)) s = Ok ((ret, lnk), s') ∧
    dir_moved s F sin T s' F sin T ∧ dir_ok s' F n sin T m ∧
    ((ret = 0 ∧ din_type d = SFS_TYPE_FILE ∧ ∃ x, inodes s' !! lnk = Some x ∧ ino x = i ∧ din x = d ∧ ∀ k, k ≠ lnk → inodes s' !! k = inodes s !! k) ∨
     (inodes s' = inodes s ∧ (ret = - E_EXISTS ∧ din_type d ≠ SFS_TYPE_FILE ∨ ret = - E_NO_MEM ∧ (refused (oom s) ∨ refused (tail (oom s)))))).
Proof.
  intros Hd Hc Hm Hnm Hi. pose proof (d_file _ _ _ _ _ _ Hd) as [[Hv Hn Hin _] _ _].
  assert (∀ x, in_tree T x → x ∉ F) as Hdisj by (intros x Hx; by apply Hin).
  destruct (load_named s F i d Hv Hc Hnm) as (ret & k & s1 & E & [(-> & Hq & Hx)|(-> & Hv1 & Hc1 & Hs1 & Hb1 & _ & x & Hi1 & Hx & Hdx & Hcase)]);
    rewrite (bind_ok _ _ _ _ _ E).
  { exists (- E_NO_MEM), 0, s1. split_and!; [done|by apply quiet_moved|by eapply quiet_dir|right]. split; [apply Hq|by right]. }
  cbn [negb Z.eqb]. assert (inodes s1 !! k = Some x) as Hk by by rewrite Hi1, lookup_insert_eq.
  rewrite (bind_ok _ _ _ _ _ (get_din_ok _ _ _ Hk)), Hdx. destruct (Z.eqb_spec (din_type d) SFS_TYPE_FILE) as [Ht|Ht].
  - destruct (load_dir s F n sin T m i d s1 k x) as (Hkn & Hd1 & _ & Hcd1); [done..|].
    exists 0, k, s1. split; [done|]. split; [constructor; [done|done|done|by eapply same_except_weaken; [|done]; intros ? []]|split; [done|left]].
    split_and!; [done|done|]. exists x. split_and!; [done|done|done|]. intros k' Hk'. by rewrite Hi1, lookup_insert_ne.
  - destruct (drop_clean s F s1 k x i d) as (c & s2 & E2 & Hq); [done..|]. rewrite (bind_ok _ _ _ _ _ E2).
    exists (- E_EXISTS), 0, s2. split_and!; [done|by apply quiet_moved|by eapply quiet_dir|right]. split; [apply Hq|by left].
Qed.

(** C18.  Creating a file in a directory.  Names that are too long, the dots and a
    directory that was removed are refused without an effect.  A name that is
    free gets a new inode: its number was a free block, it is in memory with one
    reference, one link, no blocks and size 0, and the name maps to it.  A name
    that is taken is opened when it is a file and [excl] is not set, else the
    answer is [-E_EXISTS]; without memory or blocks the names are as before and
    no block is lost.  In every case the blocks that are free or the directory's
    are the same but for the new inode's, no other block changes, and the inodes
    in memory and their reference counts stay sound. *)
Theorem sfs_create_correct s F n sin T m name excl :
  dir_ok s F n sin T m → cached s F → Forall (λ c, c ≠ 0) name → din_blocks (din sin) < MAX_BLOCKS →
  (∀ i, m !! name = Some i → i ≠ ino sin ∧ ∃ d, named s F i d) →
  (SFS_MAX_FNAME_LEN < len name → sfs_create n name excl s = Ok ((- E_TOO_BIG, 0), s)) ∧
  (name = DOT ∨ name = DOTDOT → sfs_create n name excl s = Ok ((- E_EXISTS, 0), s)) ∧
  (len name ≤ SFS_MAX_FNAME_LEN → name ≠ DOT → name ≠ DOTDOT →
    (SFSInodeRemoved sin = true → sfs_create n name excl s = Ok ((- E_NOENT, 0), s)) ∧
    (SFSInodeRemoved sin = false →
      ∃ ret lnk s' F' sin' T', sfs_create n name excl s = Ok ((ret, lnk), s') ∧ dir_moved s F sin T s' F' sin' T' ∧
        create_result s F n T m name excl ret lnk s' F' sin' T')).
Proof.
  intros Hd Hc Hnul Hmax Hnamed. pose proof (d_file _ _ _ _ _ _ Hd) as Hf. split; [|split; [|intros Hlen Hdot Hdd]].
  - intros Hlong. unfold sfs_create. by rewrite too_long_spec, (proj2 (Z.leb_gt _ _)).
  - intros Hdots. unfold sfs_create. rewrite (proj2 (is_dots_spec name) Hdots), too_long_spec. by destruct Hdots as [-> | ->].
  - destruct (name_checks name Hlen Hdot Hdd) as [Hlong Hdots].
    assert (sfs_create n name excl s = if SFSInodeRemoved sin then Ok ((- E_NOENT, 0), s) else sfs_create_nolock n name excl s) as E.
    { unfold sfs_create. rewrite Hlong, Hdots, (bind_ok _ _ _ _ _ (trylock_ok _ _ _ _ _ Hf)). by destruct (SFSInodeRemoved sin). }
    rewrite E. split; intros ->; [done|].
    destruct (search_quiet s F n sin T m name Hd Hc Hlen) as (f & s1 & E1 & Hq & Hd1 & Ho1 & Hoom & Hres).
    pose proof (quiet_cached _ _ _ Hq Hc) as Hc1. unfold sfs_create_nolock. rewrite (bind_ok _ _ _ _ _ E1).
    pose proof (d_file _ _ _ _ _ _ Hd) as [[_ _ Hin _] _ _]. assert (∀ x, in_tree T x → x ∉ F) as Hdisj by (intros x Hx; by apply Hin).
    destruct Hres as [Er|[(Er & Hm & _)|(Er & Hm & Hfree)]]; rewrite Er.
    + exists (- E_NO_MEM), 0, s1, F, sin, T. split_and!; [done|by apply quiet_moved|right]. split_and!; [done|done|right].
      split; [intros; by rewrite (qt_nodes _ _ _ Hq)|right]. split; [done|left]. rewrite <-(Hoom Er). by left.
    + destruct (Hnamed _ Hm) as (Hi & d & Hnm). change (negb (0 =? - E_NOENT)) with true. cbn [negb Z.eqb]. cbv iota.
      destruct excl; cbn [negb].
      { exists (- E_EXISTS), 0, s1, F, sin, T. split_and!; [done|by apply quiet_moved|right]. split_and!; [done|done|right].
        split; [intros; by rewrite (qt_nodes _ _ _ Hq)|left]. split; [done|]. exists (f_ino f), d. split_and!; [done|done|by left]. }
      destruct (create_open s1 F n sin T m name (f_ino f) d) as (ret & lnk & s2 & E2 & [Hss2 Hc2 Hs2 Hb2] & Hd2 & Hcase);
        [done|done|done|by eapply quiet_named|done|].
      exists ret, lnk, s2, F, sin, T. split; [exact E2|]. split; [constructor; [done|done|etrans; [apply Hq|done]|]|right; split_and!; [done|done|]].
      * intros y Hy Hyn. rewrite Hb2; [apply (qt_blocks _ _ _ Hq); tauto|by rewrite (vs_blocks _ _ (qt_same _ _ _ Hq))|done].
      * rewrite (qt_nodes _ _ _ Hq) in Hcase. destruct Hcase as [(-> & Ht & x & Hx)|(Hi2 & Hcase)].
        -- left. split_and!; [done|done|]. exists (f_ino f), d, x. by destruct Hx as (? & ? & ? & ?).
        -- right. split; [intros; by rewrite Hi2|]. destruct Hcase as [[-> Ht]|[-> Hx]]; [left|right]; (split; [done|]).
           ++ exists (f_ino f), d. split_and!; [done|done|by right].
           ++ left. rewrite Ho1 in Hx. destruct Hx as [<-|<-]; set_solver.
    + change (negb (- E_NOENT =? - E_NOENT)) with false. cbv iota.
      destruct (create_new s1 F n sin T m name (f_empty f)) as (ret & lnk & s2 & F' & sin' & T' & E2 & [Hss2 Hc2 Hs2 Hb2] & Hcase); [done..|].
      exists ret, lnk, s2, F', sin', T'. split; [exact E2|]. split.
      * constructor; [done|done|etrans; [apply Hq|done]|]. intros y Hy Hyn.
        rewrite Hb2; [apply (qt_blocks _ _ _ Hq); tauto|by rewrite (vs_blocks _ _ (qt_same _ _ _ Hq))|done].
      * destruct Hcase as [(-> & b & Hx)|(-> & [_ Hd2 Hi2 Hacc Hx])]; setoid_rewrite (qt_nodes _ _ _ Hq) in Hx || setoid_rewrite (qt_nodes _ _ _ Hq) in Hi2;
          [left; split_and!; [done|done|by exists b]|right].
        split_and!; [done|done|right]. split; [done|right]. split; [done|]. rewrite Ho1 in Hx.
        destruct Hx as [<-|[<-|[<-|?]]]; [left; set_solver..|by right].
Qed.
End create.

(** * Creating directories *)

Section mkdir.
Context {D : Type} `{BlockDevice D, !BlockDeviceLaws D}.
Implicit Types (s : sfs_fs D) (b n i : Z) (F : gset Z) (T : tree) (sin : sfs_inode) (d : sfs_disk_inode) (name : list Z) (m : gmap (list Z) Z).

(** The new directory: empty, with the links [name] and ["."]. *)
Definition new_dir (parent : Z) : sfs_disk_inode := mk_din 0 parent SFS_TYPE_DIR 2 0 (replicate 12 0) 0 0.
Definition new_dir_sin (parent b : Z) : sfs_inode := fresh_sin (new_dir parent) b <| dirty := true |>.

Lemma nlinks_inc_ok s n sin : inodes s !! n = Some sin → sfs_nlinks_inc_nolock n s = Ok (tt, set_sin s n (linked sin)).
Proof.
  intros Hn. unfold sfs_nlinks_inc_nolock. rewrite (bind_ok _ _ _ _ _ (set_dirty_ok _ _ _ Hn)).
  by rewrite (on_din_ok _ _ _ _ (set_sin_at _ _ _)), set_sin_twice.
Qed.
Lemma dir_parent_ok s n sin parent psin : inodes s !! n = Some sin → inodes s !! parent = Some psin → n ≠ parent →
  sfs_dirinfo_set_parent n parent s = Ok (tt, set_sin s n (sin <| dirty := true |> <| din := din sin <| din_parent := ino psin |> |>)).
Proof.
  intros Hn Hp Hne. unfold sfs_dirinfo_set_parent. rewrite (bind_ok _ _ _ _ _ (set_dirty_ok _ _ _ Hn)).
  rewrite (bind_ok (get_sin parent) _ _ psin (set_sin s n (sin <| dirty := true |>))) by (apply get_sin_ok; simpl; by rewrite lookup_insert_ne).
  by rewrite (on_din_ok _ _ _ _ (set_sin_at _ _ _)), set_sin_twice.
Qed.

(** The links between the directories. *)
Lemma dir_links_ok s n sin lnk b :
  inodes s !! n = Some sin → inodes s !! lnk = Some (linked (new_sin SFS_TYPE_DIR b)) → lnk ≠ n →
  (_ ← sfs_dirinfo_set_parent lnk n; _ ← sfs_nlinks_inc_nolock lnk; sfs_nlinks_inc_nolock n) s =
  Ok (tt, set_sin (set_sin s lnk (new_dir_sin (ino sin) b)) n (linked sin)).
Proof.
  intros Hn Hl Hne. rewrite (bind_ok _ _ _ _ _ (dir_parent_ok _ _ _ _ _ Hl Hn Hne)).
  rewrite (bind_ok _ _ _ _ _ (nlinks_inc_ok _ _ _ (set_sin_at _ _ _))), set_sin_twice.
  set (x := linked _). assert (x = new_dir_sin (ino sin) b) as -> by done.
  by rewrite (nlinks_inc_ok _ n sin) by (simpl; by rewrite lookup_insert_ne).
Qed.

Lemma new_dir_wf parent : 0 ≤ parent < 2 ^ 32 → din_wf (new_dir parent).
Proof. intros. constructor; try (by split); [done|by apply (Forall_replicate _ 12 0)]. Qed.

(** An empty directory on the device. *)
Lemma linked_dir s F n sin T m k x : 
  dir_ok s F n sin T m → k ≠ n →
  let s' := set_sin (set_sin s k x) n (linked sin) in dir_ok s' F n (linked sin) T m ∧ vol_ok s' F.
Proof.
  intros [Hf Ht Hr Hc] Hk s'. destruct (file_set_other s F n sin T k x Hf Hk) as [Hf1 Hc1].
  destruct (file_set _ F n sin T (linked sin) Hf1) as [Hf2 Hc2]; [done..|]. split; [|apply (fa_vol _ _ _ _ _ (fo_at _ _ _ _ _ Hf2))].
  constructor; [done|done|by unfold s'; rewrite Hc2, Hc1|done].
Qed.

(** After the name: the links, and the last reference given up. *)
Lemma mkdir_finish s F n sin T m b lnk :
  dir_ok s F n sin T m → cached s F → inodes s !! lnk = Some (linked (new_sin SFS_TYPE_DIR b)) → lnk ≠ n → ¬ in_tree T b →
  ∃ c s1 s2, (_ ← sfs_dirinfo_set_parent lnk n; _ ← sfs_nlinks_inc_nolock lnk; sfs_nlinks_inc_nolock n) s = Ok (tt, s1) ∧
    inode_ref_dec lnk s1 = Ok (c, s2) ∧ dir_ok s2 F n (linked sin) T m ∧ cached s2 F ∧ vol_same s s2 ∧
    (∀ k, k ≠ n → k ≠ lnk → inodes s2 !! k = inodes s !! k) ∧ inodes s2 !! lnk = None ∧
    same_except (λ x, x = b) s s2 ∧ named s2 F b (new_dir (ino sin)).
Proof.
  intros Hd Hc Hl Hne HbT. pose proof (d_file _ _ _ _ _ _ Hd) as [[_ Hn _ _] _ _]. pose proof (dir_links_ok s n sin lnk b Hn Hl Hne) as E1.
  destruct (linked_dir s F n sin T m lnk (new_dir_sin (ino sin) b) Hd Hne) as [Hd1 Hv1]. set (s1 := set_sin _ n (linked sin)) in *.
  destruct (cd_node _ _ Hc lnk _ Hl) as (Hbr & HbF & _ & _ & _). change (ino (linked (new_sin SFS_TYPE_DIR b))) with b in *.
  destruct (cd_node _ _ Hc n sin Hn) as (Hnr & _). pose proof (proj2 (v_blocks _ _ Hv1)) as Hmax.
  assert (inodes s1 !! lnk = Some (new_dir_sin (ino sin) b)) as Hl1 by (unfold s1; simpl; by rewrite lookup_insert_ne, lookup_insert_eq).
  assert (cache_ok s1) as Hc1.
  { apply (cache_set _ n sin); [|simpl; by rewrite lookup_insert_ne|done]. by apply (cache_set s lnk _ _ (cd_cache _ _ Hc) Hl). }
  destruct (reclaim_kept s1 F lnk (new_dir_sin (ino sin) b)) as (s2 & E2 & [Hv2 Hc2 Hi2 Hs2 _ _ Hdisk Hb2 _]); [done..| |done|].
  { intros _. apply new_dir_wf. change (blocks (super s1)) with (blocks (super s)) in Hmax. lia. }
  change (ino (new_dir_sin (ino sin) b)) with b in *. assert (vol_same s s2) as Hs by (etrans; [|exact Hs2]; by constructor).
  assert (∀ k, k ≠ n → k ≠ lnk → inodes s2 !! k = inodes s !! k) as Hother.
  { intros k H1 H2. rewrite Hi2, lookup_delete_ne by done. unfold s1. simpl. by rewrite !lookup_insert_ne. }
  assert (inodes s2 !! lnk = None) as Hgone by by rewrite Hi2, lookup_delete_eq.
  assert (inodes s2 !! n = Some (linked sin)) as Hn2 by (rewrite Hi2, lookup_delete_ne by done; apply set_sin_at).
  exists 0, s1, s2. split_and!; [done|done| | |done|done|done| |].
  - apply (dir_kept s1 s2 F F); [done|done|done|apply (vs_blocks _ _ Hs2)|]. intros x Hx.
    pose proof (d_file _ _ _ _ _ _ Hd1) as [[_ _ Hin _] _ _]. destruct (Hin x Hx). split; [done|]. apply Hb2; [lia|]. by intros ->.
  - constructor; [done|]. intros k x Hk. rewrite (vs_blocks _ _ Hs). destruct (decide (k = n)) as [->|H1].
    + rewrite Hn2 in Hk. injection Hk as <-. exact (cd_node _ _ Hc n sin Hn).
    + destruct (decide (k = lnk)) as [->|H2]; [congruence|]. rewrite Hother in Hk by done. by apply (cd_node _ _ Hc k).
  - intros x Hx Hxb. by apply Hb2.
  - constructor; [right|by rewrite (vs_blocks _ _ Hs)|done|done|by left]. split; [|done].
    intros k x Hk Hxb. destruct Hc1 as (L & ns & hs & _ & Hca & _). rewrite Hi2 in Hk. apply lookup_delete_Some in Hk as [Hkl Hk].
    apply Hkl. by apply (ca_inj _ _ _ _ Hca lnk k (new_dir_sin (ino sin) b) x).
Qed.

Lemma quiet_dir_moved s F s1 sin T s2 F' sin' T' : quiet s F s1 → dir_moved s1 F sin T s2 F' sin' T' → dir_moved s F sin T s2 F' sin' T'.
Proof.
  intros [_ _ _ Hs Hb] [Hss Hc Hs2 Hb2]. constructor; [done|done|by etrans|]. intros x Hx Hxn.
  rewrite Hb2; [apply Hb; tauto|by rewrite (vs_blocks _ _ Hs)|done].
Qed.

(** What [sfs_mkdir] answers, and what it leaves. *)
Definition mkdir_result s F n (sin : sfs_inode) T m name (ret : Z) s' F' (sin' : sfs_inode) T' : Prop :=
  (ret = 0 ∧ m !! name = None ∧ ∃ b, b ∈ F ∧ dir_ok s' F' n (linked sin') T' (<[name := b]> m) ∧ named s' F' b (new_dir (ino sin)) ∧
    ∀ x, x ∈ F ∨ in_tree T x ↔ x ∈ F' ∨ in_tree T' x ∨ x = b) ∨
  (dir_ok s' F' n sin' T' m ∧ (∀ x, x ∈ F ∨ in_tree T x ↔ x ∈ F' ∨ in_tree T' x) ∧
    (ret = - E_EXISTS ∧ is_Some (m !! name) ∨
     ret = - E_NO_MEM ∧ (Some false ∈ head <$> [oom s; tail (oom s); tail (tail (oom s)); tail (tail (tail (oom s)))] ∨ (size F' ≤ 2)%nat))).

(** C20.  Creating a directory.  Names that are too long, the dots and a directory
    that was removed are refused without an effect.  A name that is free gets a
    new directory: its number was a free block, and on the device it is empty,
    with two links and the directory as its parent; the directory has the name
    and one link more.  A name that is taken is [-E_EXISTS]; without memory or
    blocks the names are as before and no block is lost.  The blocks that are
    free or the directory's are the same but for the new one's, no other block
    changes, no other inode, and the references stay sound. *)
Theorem sfs_mkdir_correct s F n sin T m name :
  dir_ok s F n sin T m → cached s F → Forall (λ c, c ≠ 0) name → din_blocks (din sin) < MAX_BLOCKS →
  (SFS_MAX_FNAME_LEN < len name → sfs_mkdir n name s = Ok (- E_TOO_BIG, s)) ∧
  (name = DOT ∨ name = DOTDOT → sfs_mkdir n name s = Ok (- E_EXISTS, s)) ∧
  (len name ≤ SFS_MAX_FNAME_LEN → name ≠ DOT → name ≠ DOTDOT →
    (SFSInodeRemoved sin = true → sfs_mkdir n name s = Ok (- E_NOENT, s)) ∧
    (SFSInodeRemoved sin = false →
      ∃ ret s' F' sin' T', sfs_mkdir n name s = Ok (ret, s') ∧ dir_moved s F sin T s' F' sin' T' ∧
        (∀ k, k ≠ n → inodes s' !! k = inodes s !! k) ∧ mkdir_result s F n sin T m name ret s' F' sin' T')).
Proof.
  intros Hd Hc Hnul Hmax. pose proof (d_file _ _ _ _ _ _ Hd) as Hf. split; [|split; [|intros Hlen Hdot Hdd]].
  - intros Hlong. unfold sfs_mkdir. by rewrite too_long_spec, (proj2 (Z.leb_gt _ _)).
  - intros Hdots. unfold sfs_mkdir. rewrite (proj2 (is_dots_spec name) Hdots), too_long_spec. by destruct Hdots as [-> | ->].
  - destruct (name_checks name Hlen Hdot Hdd) as [Hlong Hdots].
    assert (sfs_mkdir n name s = if SFSInodeRemoved sin then Ok (- E_NOENT, s) else sfs_mkdir_nolock n name s) as E.
    { unfold sfs_mkdir. rewrite Hlong, Hdots, (bind_ok _ _ _ _ _ (trylock_ok _ _ _ _ _ Hf)). by destruct (SFSInodeRemoved sin). }
    rewrite E. split; intros ->; [done|].
    destruct (search_quiet s F n sin T m name Hd Hc Hlen) as (f & s1 & E1 & Hq & Hd1 & Ho1 & Hoom & Hres).
    pose proof (quiet_cached _ _ _ Hq Hc) as Hc1. unfold sfs_mkdir_nolock. rewrite (bind_ok _ _ _ _ _ E1).
    assert (∀ x, in_tree T x → x ∉ F) as Hdisj by (intros x Hx; by apply (fa_in _ _ _ _ _ (fo_at _ _ _ _ _ Hf))).
    pose proof (quiet_moved s F s1 sin T Hdisj Hq Hc) as Hmv1.
    destruct Hres as [Er|[(Er & Hm & _)|(Er & Hm & Hfree)]]; rewrite Er.
    + exists (- E_NO_MEM), s1, F, sin, T. split_and!; [done|done|intros; by rewrite (qt_nodes _ _ _ Hq)|right]. split_and!; [done|done|right].
      split; [done|left]. rewrite <-(Hoom Er). by left.
    + exists (- E_EXISTS), s1, F, sin, T. split_and!; [done|done|intros; by rewrite (qt_nodes _ _ _ Hq)|right]. split_and!; [done|done|left]. by rewrite Hm.
    + change (negb (- E_NOENT =? - E_NOENT)) with false. cbv iota.
      destruct (create_named s1 F n sin T m name (f_empty f) SFS_TYPE_DIR) as (ret & lnk & s2 & E2 & Hcase); [by left|done..|].
      rewrite (bind_ok _ _ _ _ _ E2). assert (∀ s' F' sin' T', not_created s1 F n sin T m s' F' sin' T' →
        dir_moved s F sin T s' F' sin' T' ∧ (∀ k, k ≠ n → inodes s' !! k = inodes s !! k) ∧ mkdir_result s F n sin T m name (- E_NO_MEM) s' F' sin' T') as Hfail.
      { intros s' F' sin' T' [Hmv Hd' Ho Hacc Hx]. setoid_rewrite (qt_nodes _ _ _ Hq) in Ho. split_and!; [by eapply quiet_dir_moved|done|right].
        split_and!; [done|done|right]. split; [done|]. rewrite Ho1 in Hx. destruct Hx as [<-|[<-|[<-|?]]]; [left; set_solver..|by right]. }
      destruct Hcase as [(-> & Hnc)|(-> & Hne & b & ret2 & s3 & F' & sin' & T' & E3 & Hcase)]; cbn [negb Z.eqb].
      { exists (- E_NO_MEM), s2, F, sin, T. split; [done|by apply Hfail]. }
      rewrite (bind_ok _ _ _ _ _ E3). destruct Hcase as [(-> & [Hmv Hd3 Hl3 Hfr3 Ho3 (HbF & HbF' & HbT) Hacc])|(-> & Hl3 & s4 & F4 & E4 & Hnc)].
      * cbn [negb Z.eqb]. destruct (mkdir_finish s3 F' n sin' T' (<[name := b]> m) b lnk) as (c & s4 & s5 & E4 & E5 & Hd5 & Hc5 & Hs5 & Ho5 & Hg5 & Hb5 & Hnm5);
          [done|apply Hmv|done|done|done|].
        rewrite (bind_ok _ _ _ _ _ E4), (bind_ok _ _ _ _ _ E5). exists 0, s5, F', sin', T'. split; [done|].
        destruct (quiet_dir_moved _ _ _ _ _ _ _ _ _ Hq Hmv) as [Hss _ Hs3 Hb3]. split_and!.
        -- constructor; [done|done|by etrans|]. intros x Hx Hxn. rewrite Hb5; [by apply Hb3|by rewrite (vs_blocks _ _ Hs3)|]. intros ->. tauto.
        -- intros k Hk. destruct (decide (k = lnk)) as [->|Hkl]; [|by rewrite Ho5, Ho3, (qt_nodes _ _ _ Hq)].
           by rewrite Hg5, <-(qt_nodes _ _ _ Hq), Hfr3.
        -- left. split_and!; [done|done|]. exists b. split_and!; [done|done| |done]. by rewrite (ss_ino _ _ Hss) in Hnm5.
      * change (- E_NO_MEM =? 0) with false. cbn [negb]. rewrite (bind_ok (get_sin lnk ≫= _) _ s3 tt s3).
        2: { rewrite (bind_ok _ _ _ _ _ (get_sin_ok _ _ _ Hl3)). done. }
        rewrite (bind_ok _ _ _ _ _ E4). exists (- E_NO_MEM), s4, F4, sin', T'. split; [done|by apply Hfail].
Qed.
End mkdir.
