(* ===== verification/SfsUnlink.v ===== *)
(** * Removing names

    [sfs_unlink]: the entry goes, and with the last name and the last reference
    the inode and all its blocks. *)

From S2P Require Import Prelude Bytes Mem DList Slab Bitmap Disk Sfs SfsVol SfsTree SfsMap SfsFile SfsIo SfsFileSpec SfsTrunc SfsDir SfsDirent SfsDirSpec SfsCache SfsReclaim SfsCreate.

Lemma drop_tails {A} (l : list A) : drop 2 l = tail (tail l).
Proof. by destruct l as [|? [|? ?]]. Qed.
Lemma tail_drop_S {A} q (l : list A) : drop q (tail l) = drop (S q) l.
Proof. destruct l; [by destruct q|done]. Qed.

Section unlink.
Context {D : Type} `{BlockDevice D, !BlockDeviceLaws D}.
Implicit Types (s : sfs_fs D) (b n i k : Z) (F : gset Z) (T : tree) (sin x y : sfs_inode) (d : sfs_disk_inode) (name : list Z) (m : gmap (list Z) Z).

(** ** Giving up a reference, in general *)

(** What becomes of the inode [y] at [k]. *)
Inductive dropped s F k y T s' (F' : gset Z) : Prop :=
  | held : 1 < ref_count y → F' = F → inodes s' = <[k := y <| ref_count := ref_count y - 1 |>]> (inodes s) → dropped s F k y T s' F'
  | freed : ref_count y = 1 → din_nlinks (din y) = 0 → inodes s' = delete k (inodes s) →
      (∀ b, b ∈ F' ↔ b ∈ F ∨ b = ino y ∨ in_tree T b) → dropped s F k y T s' F'
  | stored : ref_count y = 1 → din_nlinks (din y) ≠ 0 → F' = F → inodes s' = delete k (inodes s) → disk_din s' (ino y) = din y →
      dropped s F k y T s' F'.

Lemma drop_file s F k y T :
  file_ok s F k y T → cached s F → open_count y < ref_count y → ¬ in_tree T (ino y) → (∀ j z, inodes s !! j = Some z → ¬ in_tree T (ino z)) →
  (ref_count y = 1 → din_nlinks (din y) ≠ 0 → SFSInodeRemoved y = false ∧ (dirty y = true → din_wf (din y)) ∧
    (dirty y = false → disk_din s (ino y) = din y)) →
  ∃ c s' F', inode_ref_dec k s = Ok (c, s') ∧ dropped s F k y T s' F' ∧ vol_ok s' F' ∧ cached s' F' ∧ vol_same s s' ∧
    same_except (λ b, b = ino y ∨ in_tree T b) s s'.
Proof.
  intros Hf [Hc Hn] Hol Hit Hothers Hlast. pose proof (fo_at _ _ _ _ _ Hf) as [Hv Hk Hin _].
  destruct (Hn k y Hk) as (Hi & Hif & Href & Hrec & Hopen). destruct (decide (ref_count y = 1)) as [E1|Hmore].
  - assert (open_count y = 0) as Ho by lia. specialize (Hlast E1). rename Hlast into Hkept. destruct (decide (din_nlinks (din y) = 0)) as [Hz|Hnz].
    + destruct (reclaim_removed s F k y T) as (s' & F' & E & [Hv' Hc' Hi' Hs' _ _ Hf' Hb']); [done..|].
      exists 0, s', F'. split_and!; [done|by apply freed|done| |done|eapply same_except_weaken; [|done]; by right].
      constructor; [done|]. intros j z. rewrite Hi', (vs_blocks _ _ Hs'). intros [Hj Hz']%lookup_delete_Some.
      destruct (Hn j z Hz') as (? & HF & Hrest). split; [done|]. split; [|done]. rewrite Hf'. intros [?|[Hx|Hx]]; [done| |by eapply Hothers].
      destruct Hc as (L & ns & hs & _ & Hca & _). apply Hj. by apply (ca_inj _ _ _ _ Hca k j y z).
    + destruct (Hkept Hnz) as (Hrem & Hwf & Hclean).
      destruct (reclaim_kept s F k y) as (s' & E & [Hv' Hc' Hi' Hs' _ _ Hd' Hb' _]); [done..|].
      exists 0, s', F. split_and!; [done|by apply stored|done| |done|eapply same_except_weaken; [|done]; by left].
      constructor; [done|]. intros j z. rewrite Hi', (vs_blocks _ _ Hs'). intros [Hj Hz']%lookup_delete_Some. by apply (Hn j z).
  - eexists _, _, F. split; [apply ref_dec_more; [done|lia]|]. split_and!; [by apply held; [lia|..]|by apply vol_set| |by constructor|done].
    constructor; [by eapply cache_set|]. intros j z. simpl. intros [[<- <-]|[_ Hj]]%lookup_insert_Some; [simpl; split_and!; (done || lia)|by apply (Hn j z)].
Qed.

(** ** The inode of the name *)

(** The file or directory [i]: its inode says [d] and its blocks are [Tl]; [T] is
    another tree. *)
Record target s F T i d Tl : Prop := {
  tg_named : named s F i d;
  tg_in : tree_in s F Tl;
  tg_tree : tree_ok (blk s) d Tl;
  tg_data : data_ok Tl (din_blocks d);
  tg_blocks : 0 ≤ din_blocks d ≤ MAX_BLOCKS;
  tg_wf : din_wf d;
  tg_own : ¬ in_tree Tl i ∧ ¬ in_tree T i;
  tg_disjoint b : in_tree T b → ¬ in_tree Tl b;
  tg_others k x : inodes s !! k = Some x → ¬ in_tree Tl (ino x);
  tg_alive k x : inodes s !! k = Some x → ino x = i → SFSInodeRemoved x = false;
  tg_dir : din_type d = SFS_TYPE_DIR → din_nlinks d = 2;
}.

Lemma nlinks_dec_ok s n sin : inodes s !! n = Some sin → din_nlinks (din sin) ≠ 0 →
  sfs_nlinks_dec_nolock n s = Ok (tt, set_sin s n (unlinked sin)).
Proof.
  intros Hn Hz. unfold sfs_nlinks_dec_nolock. rewrite (bind_ok _ _ _ _ _ (get_din_ok _ _ _ Hn)).
  rewrite (proj2 (Z.eqb_neq _ 0) Hz), (bind_ok _ _ _ _ _ eq_refl), (bind_ok _ _ _ _ _ (set_dirty_ok _ _ _ Hn)).
  by rewrite (on_din_ok _ _ _ _ (set_sin_at _ _ _)), set_sin_twice.
Qed.

(** The inode when a name is gone; a directory loses ["."] too. *)
Definition unnamed x : sfs_inode :=
  if din_type (din x) =? SFS_TYPE_DIR then unlinked (unlinked x <| flags := Z.lor (flags x) 1 |>) else unlinked x.

(** The part of [sfs_unlink_nolock] between the two reference counts. *)
Definition unlink_entry n slot lnk (l : sfs_disk_inode) : M (sfs_fs D) Z :=
  if negb (din_type l =? SFS_TYPE_DIR) then sfs_dirent_unlink_nolock n slot lnk
  else
    ret ← trylock_sin lnk;
    if negb (ret =? 0) then mret ret else
    if negb (din_size l =? 0) then mret (- E_NOTEMPTY) else
    ret ← sfs_dirent_unlink_nolock n slot lnk;
    if negb (ret =? 0) then mret ret else
    _ ← SetSFSInodeRemoved lnk;
    _ ← sfs_nlinks_dec_nolock lnk;
    _ ← sfs_nlinks_dec_nolock n;
    mret 0.

(** The directory after that. *)
Record unlink_moved s F n sin T k s' F' sin' T' : Prop := {
  um_frame : frame (λ j, j = n ∨ j = k) s s';
  um_refs : refs_same sin sin';
  um_moved : moved F T F' T';
  um_same : same_except (λ b, b ∈ F ∨ in_tree T b) s s';
}.

Lemma unlink_entry_ok s F n sin T m k x i slot name :
  dir_ok s F n sin T m → k ≠ n → inodes s !! k = Some x → SFSInodeRemoved x = false → din_nlinks (din x) ≠ 0 →
  (din_type (din x) = SFS_TYPE_DIR → din_nlinks (din x) = 2 ∧ din_nlinks (din sin) ≠ 0) →
  0 ≤ slot < din_blocks (din sin) → slot_entry (file_content s sin T) slot = (i, name) → i ≠ 0 →
  ∃ ret s' F' sin' T', unlink_entry n slot k (din x) s = Ok (ret, s') ∧ unlink_moved s F n sin T k s' F' sin' T' ∧
    ((ret = 0 ∧ dir_ok s' F' n sin' T' (delete name m) ∧ inodes s' !! k = Some (unnamed x) ∧
      (din_type (din x) = SFS_TYPE_DIR → din_size (din x) = 0 ∧ din_nlinks (din sin') = din_nlinks (din sin) - 1) ∧
      (din_type (din x) ≠ SFS_TYPE_DIR → din_nlinks (din sin') = din_nlinks (din sin))) ∨
     (dir_ok s' F' n sin' T' m ∧ inodes s' !! k = Some x ∧ din_nlinks (din sin') = din_nlinks (din sin) ∧
      (ret = - E_NOTEMPTY ∧ din_type (din x) = SFS_TYPE_DIR ∧ din_size (din x) ≠ 0 ∨ ret = - E_NO_MEM ∧ refused (oom s)))).
Proof.
  intros Hd Hne Hk Hrem Hnl Hdir Hs Hslot Hi.
  destruct (dir_del s F n sin T m k x slot name i) as (ret & s1 & F1 & sin1 & T1 & E & [Hfr Hss Hmv Hse] & Hcase); [done..|].
  assert (unlink_moved s F n sin T k s1 F1 sin1 T1) as Hum by (constructor; [done|by apply sin_same_refs|done|done]).
  unfold unlink_entry, unnamed. destruct (Z.eqb_spec (din_type (din x)) SFS_TYPE_DIR) as [Ht|Ht]; cbn [negb].
  2: { exists ret, s1, F1, sin1, T1. split; [done|]. split; [done|]. destruct Hcase as [(-> & Hd1 & Hk1 & _)|(-> & Hx & Hd1 & Hk1)]; [left|right].
       - split_and!; [done|done|done|done|]. intros _. apply (ss_nlinks _ _ Hss).
       - split_and!; [done|done|apply (ss_nlinks _ _ Hss)|by right]. }
  destruct (Hdir Ht) as [H2 Hnn].
  rewrite (bind_ok (trylock_sin k) _ s 0 s).
  2: { unfold trylock_sin. rewrite (bind_ok _ _ _ _ _ (get_sin_ok _ _ _ Hk)). by rewrite Hrem. }
  cbn [negb Z.eqb]. destruct (Z.eqb_spec (din_size (din x)) 0) as [Hz|Hz]; cbn [negb].
  2: { exists (- E_NOTEMPTY), s, F, sin, T. pose proof (d_file _ _ _ _ _ _ Hd) as [[_ _ Hin _] _ _]. split; [done|]. split; [|right; split_and!; [done|done|done|by left]].
       constructor; [by constructor; [|exists (oom s)]|done| |apply same_except_refl]. apply moved_refl. intros b Hb. by apply Hin. }
  rewrite (bind_ok _ _ _ _ _ E). destruct Hcase as [(-> & Hd1 & Hk1 & _ & _ & _)|(-> & Hx & Hd1 & Hk1)].
  2: { exists (- E_NO_MEM), s1, F1, sin1, T1. split; [done|]. split; [done|]. right. split_and!; [done|done|apply (ss_nlinks _ _ Hss)|by right]. }
  cbn [negb Z.eqb]. pose proof (d_file _ _ _ _ _ _ Hd1) as Hf1. pose proof (fa_node _ _ _ _ _ (fo_at _ _ _ _ _ Hf1)) as Hn1.
  unfold SetSFSInodeRemoved. rewrite (bind_ok _ _ _ _ _ (on_sin_ok _ _ _ _ Hk1)). set (x1 := unlinked x <| flags := _ |>).
  rewrite (bind_ok _ _ _ _ _ (nlinks_dec_ok _ k x1 (set_sin_at _ _ _) ltac:(simpl; lia))), set_sin_twice.
  set (s2 := set_sin s1 k (unlinked x1)). assert (inodes s2 !! n = Some sin1) as Hn2 by (unfold s2; simpl; by rewrite lookup_insert_ne).
  rewrite (bind_ok _ _ _ _ _ (nlinks_dec_ok s2 n sin1 Hn2 ltac:(rewrite (ss_nlinks _ _ Hss : _ = din_nlinks (din sin)); done))).
  destruct (file_set_other s1 F1 n sin1 T1 k (unlinked x1) Hf1 Hne) as [Hf2 Hc2]. fold s2 in Hf2, Hc2.
  destruct (file_set s2 F1 n sin1 T1 (unlinked sin1) Hf2) as [Hf3 Hc3]; [done..|].
  exists 0, (set_sin s2 n (unlinked sin1)), F1, (unlinked sin1), T1. split; [done|]. split; [|left; split_and!; [done| | | |done]].
  - constructor; [|by destruct (sin_same_refs _ _ Hss) as (? & ? & ? & ?)|done|done].
    eapply frame_trans; [exact Hfr|]. eapply frame_trans; [by apply (frame_set _ _ k); right|by apply (frame_set _ _ n); left].
  - destruct Hd1. constructor; [done|done|by rewrite Hc3, Hc2|done].
  - simpl. by rewrite lookup_insert_ne, lookup_insert_eq.
  - intros _. split; [done|]. simpl. by rewrite (ss_nlinks _ _ Hss : din_nlinks (din sin1) = _).
Qed.

(** ** The inode when the entry is gone *)

Lemma unnamed_refs x : refs_same x (unnamed x).
Proof. unfold unnamed. by destruct (_ =? SFS_TYPE_DIR). Qed.
Lemma unnamed_held x : let y := unnamed (x <| ref_count := ref_count x + 1 |>) in y <| ref_count := ref_count y - 1 |> = unnamed x.
Proof.
  assert (ref_count x + 1 - 1 = ref_count x) as E by lia. destruct x as [dd ? ? ? ? ? r ?]. unfold unnamed. cbn in *.
  by destruct (din_type dd =? SFS_TYPE_DIR); cbn; rewrite E.
Qed.
Definition links_left d : Z := if din_type d =? SFS_TYPE_DIR then din_nlinks d - 1 - 1 else din_nlinks d - 1.
Lemma unnamed_din x : din (unnamed x) = din x <| din_nlinks := links_left (din x) |>.
Proof. unfold unnamed, links_left. by destruct (_ =? SFS_TYPE_DIR). Qed.
Lemma links_left_range d : din_wf d → din_nlinks d ≠ 0 → (din_type d = SFS_TYPE_DIR → din_nlinks d = 2) →
  din_wf (d <| din_nlinks := links_left d |>) ∧ (din_type d = SFS_TYPE_DIR → links_left d = 0).
Proof.
  intros [] Hz Hd. unfold links_left. destruct (Z.eqb_spec (din_type d) SFS_TYPE_DIR) as [Ht|Ht].
  - specialize (Hd Ht). rewrite Hd. split; [|done]. by constructor.
  - split; [constructor; simpl; (done || lia)|done].
Qed.

(** The file of a name when its directory has changed. *)
Lemma target_file s F T i d Tl s' F' T' k y :
  target s F T i d Tl → vol_ok s' F' → vol_same s s' → moved F T F' T' → same_except (λ b, b ∈ F ∨ in_tree T b) s s' →
  inodes s' !! k = Some y → direct (din y) = direct d → indirect (din y) = indirect d → db_indirect (din y) = db_indirect d →
  din_blocks (din y) = din_blocks d → file_ok s' F' k y Tl.
Proof.
  intros [_ Hin Ht Hdata Hb _ _ Hdisj _ _ _] Hv Hs Hmv Hse Hk H1 H2 H3 H4. constructor; [|by rewrite H4|by rewrite H4].
  constructor; [done|done| |].
  - intros b Hbt. rewrite (vs_blocks _ _ Hs). destruct (Hin b Hbt) as [Hr Hf]. split; [done|]. intros Hx. by apply Hf, (mv_free _ _ _ _ Hmv).
  - apply (tree_din_ext _ d); [|done..]. apply (tree_ext (blk s)); [done|]. intros b Hbm. pose proof (meta_in _ _ Hbm) as Hbt.
    destruct (Hin b Hbt) as [Hr Hf]. apply Hse; [lia|]. intros [?|Hx]; [done|by apply (Hdisj b)].
Qed.

(** What is left of a name's file. *)
Definition gone s F T n i d Tl s' F' T' : Prop :=
  (∃ k x, inodes s !! k = Some x ∧ ino x = i ∧ din x = d ∧ (∀ b, b ∈ F ∨ in_tree T b ↔ b ∈ F' ∨ in_tree T' b) ∧
    ∀ j, j ≠ n → inodes s' !! j = (<[k := unnamed x]> (inodes s)) !! j) ∨
  ((∀ k x, inodes s !! k = Some x → ino x ≠ i) ∧ (∀ j, j ≠ n → inodes s' !! j = inodes s !! j) ∧
    (links_left d = 0 ∧ (∀ b, b ∈ F ∨ in_tree T b ∨ b = i ∨ in_tree Tl b ↔ b ∈ F' ∨ in_tree T' b) ∨
     links_left d ≠ 0 ∧ (∀ b, b ∈ F ∨ in_tree T b ↔ b ∈ F' ∨ in_tree T' b) ∧ disk_din s' i = d <| din_nlinks := links_left d |>)).

Lemma borrowed_counts s F k i d x : cached s F → borrowed s k i d x →
  open_count x < ref_count x ∧ (ref_count x = 1 → inodes s !! k = None ∧ x = fresh_sin d i) ∧ (1 < ref_count x → ∃ x0, inodes s !! k = Some x0 ∧ x = x0 <| ref_count := ref_count x0 + 1 |>).
Proof.
  intros [_ Hn] [[Hk ->]|(x0 & Hk & -> & _)].
  - split_and!; [done|done|]. simpl. lia.
  - destruct (Hn k x0 Hk) as (_ & _ & Href & _ & Ho). simpl. split_and!; [lia|lia|]. intros _. by exists x0.
Qed.

Lemma uncached s s2 k i x : cache_ok s2 → inodes s2 = <[k := x]> (inodes s) → ino x = i → inodes s !! k = None →
  ∀ j z, inodes s !! j = Some z → ino z ≠ i.
Proof.
  intros (L & ns & hs & _ & Hca & _) Hi Hx Hk j z Hj Hz. assert (j ≠ k) as Hne by (intros ->; congruence). apply Hne.
  apply (ca_inj _ _ _ _ Hca j k z x); [by rewrite Hi, lookup_insert_ne|by rewrite Hi, lookup_insert_eq|congruence].
Qed.

Lemma unlink_drop s F n sin T i d Tl s2 k x s3 F3 sin3 T3 m' y :
  target s F T i d Tl → cached s F → inodes s !! n = Some sin →
  vol_same s s2 → same_except (λ _, False) s s2 → inodes s2 = <[k := x]> (inodes s) → ino x = i → din x = d → borrowed s k i d x →
  k ≠ n → cached s2 F → unlink_moved s2 F n sin T k s3 F3 sin3 T3 → dir_ok s3 F3 n sin3 T3 m' → inodes s3 !! k = Some y →
  y = x ∨ y = unnamed x →
  ∃ c s4 F4, inode_ref_dec k s3 = Ok (c, s4) ∧ dir_ok s4 F4 n sin3 T3 m' ∧ cached s4 F4 ∧
    (y = x → (∀ b, b ∈ F ∨ in_tree T b ↔ b ∈ F4 ∨ in_tree T3 b) ∧ ∀ j, j ≠ n → inodes s4 !! j = inodes s !! j) ∧
    (y = unnamed x → gone s F T n i d Tl s4 F4 T3).
Proof.
  intros Ht Hc Hn Hs2 Hb2 Hi2 Hx Hdx Hcame Hkn Hc2 [Hfr Hrs Hmv Hse] Hd3 Hk3 Hy.
  pose proof (tg_named _ _ _ _ _ _ Ht) as [_ Hir Hif Hnl Hty]. destruct (tg_own _ _ _ _ _ _ Ht) as [HiTl HiT].
  destruct (borrowed_counts s F k i d x Hc Hcame) as (Hopen & Hone & Hmore).
  assert (refs_same x y) as Hrefs by (destruct Hy as [-> | ->]; [done|apply unnamed_refs]). destruct Hrefs as (Hiy & Hry & Hcy & Hoy).
  assert (ino y = i) as Hyi by congruence. pose proof (frame_vol_same _ _ _ Hfr) as Hs23. assert (vol_same s s3) as Hs3 by by etrans.
  assert (same_except (λ b, b ∈ F ∨ in_tree T b) s s3) as Hb3.
  { intros b Hb Hnb. rewrite Hse; [apply Hb2; tauto|by rewrite (vs_blocks _ _ Hs2)|done]. }
  assert (∀ j, j ≠ n → j ≠ k → inodes s3 !! j = inodes s !! j) as Hj3.
  { intros j H1 H2. rewrite (fr_nodes _ _ _ Hfr) by tauto. by rewrite Hi2, lookup_insert_ne. }
  pose proof (d_file _ _ _ _ _ _ Hd3) as [[Hv3 Hn3 Hin3 _] _ _].
  assert (file_ok s3 F3 k y Tl) as Hfy.
  { apply (target_file s F T i d Tl s3 F3 T3); [done..| | | |]; destruct Hy as [-> | ->]; rewrite ?unnamed_din, ?Hdx; done. }
  assert (cached s3 F3) as Hc3.
  { eapply (cached_change s2 F s3 F3 _ Hc2 Hfr); [apply (mv_free _ _ _ _ Hmv)| |intros j; destruct (decide (j = n)), (decide (j = k)); tauto].
    intros j [-> | ->]; [exists sin, sin3|exists x, y]; rewrite Hi2; [by rewrite lookup_insert_ne|by rewrite lookup_insert_eq]. }
  destruct (drop_file s3 F3 k y Tl Hfy Hc3) as (c & s4 & F4 & E & Hdrop & Hv4 & Hc4 & Hs4 & Hb4); [lia|by rewrite Hyi| | |].
  { intros j z Hz. destruct (decide (j = n)) as [->|Hjn]; [|destruct (decide (j = k)) as [->|Hjk]].
    - assert (z = sin3) as -> by congruence. destruct Hrs as (-> & _). by apply (tg_others _ _ _ _ _ _ Ht n).
    - assert (z = y) as -> by congruence. by rewrite Hyi.
    - rewrite Hj3 in Hz by done. by apply (tg_others _ _ _ _ _ _ Ht j). }
  { intros Hr Hz. destruct Hone as [Hk0 Hxf]; [lia|]. destruct (links_left_range d) as [Hwf Hdir]; [apply Ht|done|apply Ht|].
    destruct Hy as [-> | ->].
    - rewrite Hdx, Hxf. split_and!; [done|done|]. intros _. cbn [ino fresh_sin]. unfold disk_din. rewrite Hb3 by (lia || tauto).
      destruct (nm_din _ _ _ _ (tg_named _ _ _ _ _ _ Ht)) as [(j & z & Hj & Hz' & _)|[_ ->]]; [|done].
      exfalso. revert Hz'. by apply (uncached s s2 k i x (cd_cache _ _ Hc2) Hi2 Hx Hk0 j).
    - rewrite unnamed_din, Hdx in *. split_and!; [|done|].
      + unfold unnamed. rewrite Hdx. destruct (Z.eqb_spec (din_type d) SFS_TYPE_DIR) as [Htd|]; [|by rewrite Hxf]. by destruct Hz, Hdir.
      + unfold unnamed. by destruct (_ =? SFS_TYPE_DIR). }
  exists c, s4, F4. assert (∀ b, b ∈ F ∨ in_tree T b ↔ b ∈ F3 ∨ in_tree T3 b) as Hacc by apply (mv_all _ _ _ _ Hmv).
  split; [done|]. split; [|split; [done|]].
  - apply (dir_kept s3 s4 F3); [done|done| |apply (vs_blocks _ _ Hs4)|].
    + destruct Hdrop as [_ _ ->|_ _ -> _|_ _ _ -> _]; [by rewrite lookup_insert_ne|by rewrite lookup_delete_ne..].
    + intros b Hb. destruct (Hin3 b Hb) as [Hbr Hbf]. assert (b ∈ F ∨ in_tree T b) as HbT by (apply Hacc; by right).
      assert (¬ in_tree Tl b) as HbTl.
      { intros Hx'. destruct (tg_in _ _ _ _ _ _ Ht b Hx'). destruct HbT as [?|HbT]; [done|]. by apply (tg_disjoint _ _ _ _ _ _ Ht b). }
      assert (b ≠ ino y) as Hbi by (rewrite Hyi; intros ->; tauto). split; [|apply Hb4; [lia|tauto]].
      destruct Hdrop as [_ -> _|_ _ _ Hf4|_ _ -> _ _]; [done| |done]. rewrite Hf4. tauto.
  - split.
    + intros ->. destruct Hdrop as [Hr -> Hi4|_ Hz _ _|Hr Hz -> Hi4 _].
      * split; [done|]. intros j Hj. rewrite Hi4. destruct (decide (j = k)) as [->|Hjk]; [|rewrite lookup_insert_ne by done; by apply Hj3].
        rewrite lookup_insert_eq. destruct (Hmore Hr) as (x0 & -> & ->). f_equal. destruct x0; cbn. f_equal. lia.
      * by rewrite Hdx in Hz.
      * destruct (Hone Hr) as [Hk0 _]. split; [done|]. intros j Hj. rewrite Hi4.
        destruct (decide (j = k)) as [->|Hjk]; [by rewrite lookup_delete_eq|rewrite lookup_delete_ne by done; by apply Hj3].
    + intros ->. destruct Hdrop as [Hr -> Hi4|Hr Hz Hi4 Hf4|Hr Hz -> Hi4 Hdd]; try (rewrite unnamed_din, Hdx in Hz; cbn [din_nlinks] in Hz).
      * left. destruct (Hmore ltac:(lia)) as (x0 & Hx0 & ->). exists k, x0. split_and!; [done|done|done|done|].
        intros j Hj. rewrite Hi4. destruct (decide (j = k)) as [->|Hjk]; [|rewrite !lookup_insert_ne by done; by apply Hj3].
        rewrite !lookup_insert_eq. f_equal. apply unnamed_held.
      * right. destruct (Hone ltac:(lia)) as [Hk0 _]. split; [exact (uncached s s2 k i x (cd_cache _ _ Hc2) Hi2 Hx Hk0)|]. split; [|left; split; [done|]].
        -- intros j Hj. rewrite Hi4. destruct (decide (j = k)) as [->|Hjk]; [by rewrite lookup_delete_eq|rewrite lookup_delete_ne by done; by apply Hj3].
        -- intros b. rewrite Hf4, Hyi. specialize (Hacc b). tauto.
      * right. destruct (Hone ltac:(lia)) as [Hk0 _]. split; [exact (uncached s s2 k i x (cd_cache _ _ Hc2) Hi2 Hx Hk0)|]. split; [|right; split_and!; [done|done|]].
        -- intros j Hj. rewrite Hi4. destruct (decide (j = k)) as [->|Hjk]; [by rewrite lookup_delete_eq|rewrite lookup_delete_ne by done; by apply Hj3].
        -- by rewrite Hyi, unnamed_din, Hdx in Hdd.
Qed.

(** ** [sfs_unlink] *)

Lemma quiet_target s F s' T i d Tl : (∀ b, in_tree T b → 0 ≤ b < blocks (super s)) → quiet s F s' → target s F T i d Tl → target s' F T i d Tl.
Proof.
  intros Hin Hq [Hnm Hin' Ht Hdata Hb Hwf Hown Hdis Hoth Hal Hdir]. pose proof Hq as [_ _ Hi Hs Hse]. constructor; try done.
  - by eapply quiet_named.
  - intros b Hbt. rewrite (vs_blocks _ _ Hs). by apply Hin'.
  - apply (tree_ext (blk s)); [done|]. intros b Hbm. destruct (Hin' b (meta_in _ _ Hbm)). apply Hse; [lia|tauto].
  - intros k x. rewrite Hi. apply Hoth.
  - intros k x. rewrite Hi. apply Hal.
Qed.

Lemma quiet_gone s F s1 T n i d Tl s' F' T' : inodes s1 = inodes s → gone s1 F T n i d Tl s' F' T' → gone s F T n i d Tl s' F' T'.
Proof. unfold gone. by intros ->. Qed.

(** What [sfs_unlink] answers, and what it leaves. *)
Definition unlink_result s F n (sin : sfs_inode) T m name (ret : Z) s' F' (sin' : sfs_inode) T' : Prop :=
  (ret = 0 ∧ dir_ok s' F' n sin' T' (delete name m) ∧ ∃ i d Tl, m !! name = Some i ∧ target s F T i d Tl ∧
    (din_type d = SFS_TYPE_DIR → din_size d = 0 ∧ din_nlinks (din sin') = din_nlinks (din sin) - 1) ∧ gone s F T n i d Tl s' F' T') ∨
  (dir_ok s' F' n sin' T' m ∧ (∀ b, b ∈ F ∨ in_tree T b ↔ b ∈ F' ∨ in_tree T' b) ∧ (∀ j, j ≠ n → inodes s' !! j = inodes s !! j) ∧
    (ret = - E_NOENT ∧ m !! name = None ∨
     ret = - E_NOTEMPTY ∧ (∃ i d, m !! name = Some i ∧ named s F i d ∧ din_type d = SFS_TYPE_DIR ∧ din_size d ≠ 0) ∨
     ret = - E_NO_MEM ∧ ∃ q : nat, (q ≤ 3)%nat ∧ refused (drop q (oom s)))).

(** After the search: the inode is loaded, the entry goes, and the reference is
    given up. *)
Lemma unlink_found s F n sin T m name slot i d Tl :
  dir_ok s F n sin T m → cached s F → target s F T i d Tl → i ≠ ino sin → (din_type d = SFS_TYPE_DIR → din_nlinks (din sin) ≠ 0) →
  m !! name = Some i → 0 ≤ slot < din_blocks (din sin) → slot_entry (file_content s sin T) slot = (i, name) →
  ∃ ret s' F' sin' T',
    (r ← sfs_load_inode i;
     let '(ret, lnk) := r in
     if negb (ret =? 0) then mret ret else
     l ← get_din lnk; ret ← unlink_entry n slot lnk l; _ ← inode_ref_dec lnk; mret ret) s = Ok (ret, s') ∧
    cached s' F' ∧ refs_same sin sin' ∧
    ((ret = 0 ∧ dir_ok s' F' n sin' T' (delete name m) ∧ (din_type d = SFS_TYPE_DIR → din_size d = 0 ∧ din_nlinks (din sin') = din_nlinks (din sin) - 1) ∧
      gone s F T n i d Tl s' F' T') ∨
     (dir_ok s' F' n sin' T' m ∧ (∀ b, b ∈ F ∨ in_tree T b ↔ b ∈ F' ∨ in_tree T' b) ∧ (∀ j, j ≠ n → inodes s' !! j = inodes s !! j) ∧
      (ret = - E_NOTEMPTY ∧ din_type d = SFS_TYPE_DIR ∧ din_size d ≠ 0 ∨
       ret = - E_NO_MEM ∧ ∃ q : nat, (q ≤ 2)%nat ∧ refused (drop q (oom s))))).
Proof.
  intros Hd Hc Htg Hi Hnn Hm Hs Hslot. pose proof (d_file _ _ _ _ _ _ Hd) as [[Hv Hn Hin _] _ _]. pose proof (tg_named _ _ _ _ _ _ Htg) as Hnm.
  destruct (load_named s F i d Hv Hc Hnm) as (ret & k & s1 & E & [(-> & Hq & Hx)|(-> & Hv1 & Hc1 & Hs1 & Hb1 & Ho1 & x & Hi1 & Hx & Hdx & Hcame)]);
    rewrite (bind_ok _ _ _ _ _ E).
  { exists (- E_NO_MEM), s1, F, sin, T. split_and!; [done|by eapply quiet_cached|done|right]. split_and!; [by eapply quiet_dir|done|intros; by rewrite (qt_nodes _ _ _ Hq)|right].
    split; [done|]. destruct Hx as [Hx|Hx]; [exists 0%nat|exists 1%nat; rewrite <-tail_drop_S]; (split; [lia|done]). }
  cbn [negb Z.eqb]. destruct (load_dir s F n sin T m i d s1 k x) as (Hkn & Hd1 & Hcn1 & Hcd1); [done..|].
  assert (inodes s1 !! k = Some x) as Hk by by rewrite Hi1, lookup_insert_eq.
  rewrite (bind_ok _ _ _ _ _ (get_din_ok _ _ _ Hk)).
  assert (SFSInodeRemoved x = false) as Hrem.
  { destruct Hcame as [[_ ->]|(x0 & Hx0 & -> & _)]; [done|]. by apply (tg_alive _ _ _ _ _ _ Htg k x0). }
  destruct (unlink_entry_ok s1 F n sin T m k x i slot name) as (ret & s2 & F2 & sin2 & T2 & E2 & Hum & Hcase);
    [done|done|done|done|rewrite Hdx; apply Hnm|rewrite Hdx; intros Ht; split; [by apply (tg_dir _ _ _ _ _ _ Htg)|by apply Hnn]|done|by rewrite Hcn1|
     pose proof (nm_range _ _ _ _ Hnm); lia|].
  rewrite (bind_ok _ _ _ _ _ E2). rewrite Hdx in Hcase.
  assert (∃ m' y, dir_ok s2 F2 n sin2 T2 m' ∧ inodes s2 !! k = Some y ∧ (y = x ∨ y = unnamed x) ∧
    (ret = 0 ∧ m' = delete name m ∧ y = unnamed x ∧ (din_type d = SFS_TYPE_DIR → din_size d = 0 ∧ din_nlinks (din sin2) = din_nlinks (din sin) - 1) ∨
     m' = m ∧ y = x ∧ (ret = - E_NOTEMPTY ∧ din_type d = SFS_TYPE_DIR ∧ din_size d ≠ 0 ∨ ret = - E_NO_MEM ∧ refused (oom s1))))
    as (m' & y & Hd2 & Hk2 & Hy & Hret).
  { destruct Hcase as [(-> & Hd2 & Hk2 & Hz & _)|(Hd2 & Hk2 & _ & Hr)]; [exists (delete name m), (unnamed x)|exists m, x];
      (split_and!; [done|done|tauto|tauto]). }
  destruct (unlink_drop s F n sin T i d Tl s1 k x s2 F2 sin2 T2 m' y) as (c & s3 & F3 & E3 & Hd3 & Hc3 & Hsame & Hgone); [done..|].
  rewrite (bind_ok _ _ _ _ _ E3). exists ret, s3, F3, sin2, T2. split_and!; [done|done|apply Hum|].
  destruct Hret as [(-> & -> & Hyx & Hz)|(-> & Hyx & Hr)]; [left|right].
  - split_and!; [done|done|done|by apply Hgone].
  - destruct (Hsame Hyx) as [Ha Hj]. split_and!; [done|done|done|]. destruct Hr as [?|[-> Hr]]; [by left|right]. split; [done|].
    rewrite <-drop_tails in Ho1. destruct Ho1 as [Ho1|Ho1]; rewrite Ho1 in Hr; [exists 0%nat|exists 2%nat]; (split; [lia|done]).
Qed.

(** C19.  Removing a name.  Names that are too long, the dots and a directory that
    was removed are refused without an effect; a missing name is [-E_NOENT], and a
    directory that has names is [-E_NOTEMPTY].  Otherwise the name is gone from
    the map, or there is no memory and the names are as before.  The inode of
    the name loses a link, a directory two of them and its parent one.  When
    others hold the inode it stays in memory, and no block becomes free; else it
    leaves the memory: with no link left its block and all its blocks become free,
    no others, and with links left its count goes to the device.  So an empty
    directory is removed with 0, where the comment on [vop_unlink] in
    [fs/vfs/inode.h] asks for [EISDIR]. *)
Theorem sfs_unlink_correct s F n sin T m name :
  dir_ok s F n sin T m → cached s F →
  (∀ i, m !! name = Some i → i ≠ ino sin ∧ ∃ d Tl, target s F T i d Tl ∧ (din_type d = SFS_TYPE_DIR → din_nlinks (din sin) ≠ 0)) →
  (SFS_MAX_FNAME_LEN < len name → sfs_unlink n name s = Ok (- E_TOO_BIG, s)) ∧
  (name = DOT ∨ name = DOTDOT → sfs_unlink n name s = Ok (- E_ISDIR, s)) ∧
  (len name ≤ SFS_MAX_FNAME_LEN → name ≠ DOT → name ≠ DOTDOT →
    (SFSInodeRemoved sin = true → sfs_unlink n name s = Ok (- E_NOENT, s)) ∧
    (SFSInodeRemoved sin = false →
      ∃ ret s' F' sin' T', sfs_unlink n name s = Ok (ret, s') ∧ cached s' F' ∧ refs_same sin sin' ∧
        unlink_result s F n sin T m name ret s' F' sin' T')).
Proof.
  intros Hd Hc Htgs. pose proof (d_file _ _ _ _ _ _ Hd) as Hf. split; [|split; [|intros Hlen Hdot Hdd]].
  - intros Hlong. unfold sfs_unlink. by rewrite too_long_spec, (proj2 (Z.leb_gt _ _)).
  - intros Hdots. unfold sfs_unlink. rewrite (proj2 (is_dots_spec name) Hdots), too_long_spec. by destruct Hdots as [-> | ->].
  - destruct (name_checks name Hlen Hdot Hdd) as [Hlong Hdots].
    assert (sfs_unlink n name s = if SFSInodeRemoved sin then Ok (- E_NOENT, s) else sfs_unlink_nolock n name s) as E.
    { unfold sfs_unlink. rewrite Hlong, Hdots, (bind_ok _ _ _ _ _ (trylock_ok _ _ _ _ _ Hf)). by destruct (SFSInodeRemoved sin). }
    rewrite E. split; intros ->; [done|]. pose proof (fo_at _ _ _ _ _ Hf) as [_ _ Hin _].
    destruct (search_quiet s F n sin T m name Hd Hc Hlen) as (f & s1 & E1 & Hq & Hd1 & Ho1 & Hoom & Hres).
    pose proof (quiet_cached _ _ _ Hq Hc) as Hc1. unfold sfs_unlink_nolock. rewrite (bind_ok _ _ _ _ _ E1).
    destruct Hres as [Er|[(Er & Hm & Hs & Hslot & _)|(Er & Hm & _)]]; rewrite Er.
    + exists (- E_NO_MEM), s1, F, sin, T. split_and!; [done|done|done|right]. split_and!; [done|done|intros; by rewrite (qt_nodes _ _ _ Hq)|do 2 right].
      split; [done|]. exists 0%nat. split; [lia|by apply Hoom].
    + cbn [negb Z.eqb]. destruct (Htgs _ Hm) as (Hi & d & Tl & Htg & Hnn).
      assert (target s1 F T (f_ino f) d Tl) as Htg1 by (apply (quiet_target s); [intros b Hb; destruct (Hin b Hb); lia|done|done]).
      destruct (unlink_found s1 F n sin T m name (f_slot f) (f_ino f) d Tl) as (ret & s2 & F2 & sin2 & T2 & E2 & Hc2 & Hrefs & Hcase); [done..|].
      exists ret, s2, F2, sin2, T2. split; [exact E2|]. split_and!; [done|done|].
      destruct Hcase as [(-> & Hd2 & Hz & Hg)|(Hd2 & Ha & Hj & Hr)]; [left|right].
      * split_and!; [done|done|]. exists (f_ino f), d, Tl. split_and!; [done|done|done|]. eapply quiet_gone; [apply Hq|done].
      * split_and!; [done|done|intros; rewrite Hj by done; by rewrite (qt_nodes _ _ _ Hq)|right].
        destruct Hr as [(-> & Ht & Hz)|(-> & q & Hq' & Hx)]; [left|right]; (split; [done|]).
        -- exists (f_ino f), d. split_and!; [done|apply Htg|done|done].
        -- exists (S q). split; [lia|]. rewrite Ho1, tail_drop_S in Hx. done.
    + exists (- E_NOENT), s1, F, sin, T. split_and!; [done|done|done|right]. split_and!; [done|done|intros; by rewrite (qt_nodes _ _ _ Hq)|by left].
Qed.
End unlink.
