(* ===== verification/SfsLookup.v ===== *)
(** * Paths

    [sfs_lookup], [sfs_lookup_parent] and [sfs_namefile] of
    [fs/sfs/sfs_inode.c].

    A path is the list of its characters without the final null.
    [sfs_lookup_subpath] cuts it in place: the result is the string that is left
    at [path] and the pointer that is returned, [None] for [NULL]. *)

From S2P Require Import Prelude Bytes Mem DList Slab Bitmap Disk Sfs SfsDir.

Fixpoint skip_slashes (path : list Z) : list Z :=
  match path with
  | c :: path' => if c =? SLASH then skip_slashes path' else path
  | [] => []
  end.

Definition sfs_lookup_subpath (path : list Z) : list Z * option (list Z) :=
  match list_find (λ c, c = SLASH) path with
  | None => (path, None)
  | Some (i, _) =>
      (take i path, match skip_slashes (drop i path) with [] => None | sub => Some sub end)
  end.

(** [assert( *path != 0 && *path != '/')] *)
Definition is_relative (path : list Z) : bool :=
  match path with [] => false | c :: _ => negb (c =? SLASH) end.

Section sfs_lookup.
Context {D : Type} `{BlockDevice D}.
Notation M := (M (sfs_fs D)).

(** From one directory to the next: the inode that [node] calls [name], and the
    reference to [node] given up. *)
Definition lookup_next (node : Z) (name : list Z) : M (Z * Z) :=
  if negb (bool_decide (name = DOTDOT)) && too_long name then _ ← inode_ref_dec node; mret (- E_TOO_BIG, 0) else
  r ← (if bool_decide (name = DOTDOT) then sfs_load_parent node else sfs_lookup_once node name);
  _ ← inode_ref_dec node;
  mret r.

(** The label [next] of [sfs_lookup]: the component to look up and the rest, or
    nothing at the end of the path. *)
Definition next_body (path : list Z) : M (list Z + option (list Z * option (list Z))) :=
  let '(name, subpath) := sfs_lookup_subpath path in
  if bool_decide (name = DOT) then
    match subpath with Some path => mret (inl path) | None => mret (inr None) end
  else mret (inr (Some (name, subpath))).

Definition lookup_body (p : Z * list Z) : M (Z * list Z + Z * Z) :=
  let '(node, path) := p in
  d ← get_din node;
  if negb (din_type d =? SFS_TYPE_DIR) then _ ← inode_ref_dec node; mret (inr (- E_NOTDIR, 0)) else
  next ← loop (S (length path)) next_body path;
  match next with
  | None => mret (inr (0, node))
  | Some (name, subpath) =>
      r ← lookup_next node name;
      if negb (r.1 =? 0) then mret (inr (r.1, 0)) else
      match subpath with Some path => mret (inl (r.2, path)) | None => mret (inr (0, r.2)) end
  end.
Definition sfs_lookup (node : Z) (path : list Z) : M (Z * Z) :=
  _ ← assert (is_relative path);
  _ ← inode_ref_inc node;
  loop (S (length path)) lookup_body (node, path).

(** The label [next] of [sfs_lookup_parent]: a component with what follows it, or
    the last one. *)
Definition parent_next_body (path : list Z) : M (list Z + list Z * option (list Z)) :=
  let '(name, subpath) := sfs_lookup_subpath path in
  match subpath with
  | None => mret (inr (name, None))
  | Some sub => if bool_decide (name = DOT) then mret (inl sub) else mret (inr (name, Some sub))
  end.

(** The error code, the inode and [*endp]. *)
Definition lookup_parent_body (p : Z * list Z) : M (Z * list Z + Z * Z * list Z) :=
  let '(node, path) := p in
  d ← get_din node;
  if negb (din_type d =? SFS_TYPE_DIR) then _ ← inode_ref_dec node; mret (inr (- E_NOTDIR, 0, [])) else
  next ← loop (S (length path)) parent_next_body path;
  let '(name, subpath) := next in
  match subpath with
  | None => mret (inr (0, node, name))
  | Some path =>
      r ← lookup_next node name;
      if negb (r.1 =? 0) then mret (inr (r.1, 0, [])) else mret (inl (r.2, path))
  end.
Definition sfs_lookup_parent (node : Z) (path : list Z) : M (Z * Z * list Z) :=
  _ ← assert (is_relative path);
  _ ← inode_ref_inc node;
  loop (S (length path)) lookup_parent_body (node, path).

(** [sfs_namefile] writes the names from the node up to the root from the end of
    the buffer [mem] backwards.  One turn: the node, the buffer, [ptr] and
    [resid]; the error code comes first at the end. *)
Definition namefile_body (p : Z * list Z * Z * Z) : M (Z * list Z * Z * Z + Z * Z * list Z * Z * Z) :=
  let '(node, mem, ptr, resid) := p in
  let stop ret node := mret (inr (ret, node, mem, ptr, resid)) in
  sin ← get_sin node;
  let ino_ := ino sin in
  if ino_ =? SFS_BLKN_ROOT then stop 0 node else
  r ← sfs_load_parent node;
  if negb (r.1 =? 0) then stop r.1 node else
  _ ← inode_ref_dec node;
  let node := r.2 in
  sin ← get_sin node;
  _ ← assert (negb (ino_ =? ino sin) && (din_type (din sin) =? SFS_TYPE_DIR));
  ret ← trylock_sin node;
  if negb (ret =? 0) then stop ret node else
  e ← sfs_dirent_findino_nolock node ino_;
  if negb (e.1 =? 0) then stop e.1 node else
  let name := c_str (de_name e.2) in
  let alen := len name + 1 in
  if resid <? alen then stop (- E_NO_MEM) node else
  mem ← store_range mem (ptr - alen) (name ++ [SLASH]);
  mret (inl (node, mem, ptr - alen, resid - alen)).

Definition sfs_namefile (node : Z) (iob : iobuf) : M (Z * iobuf) :=
  if io_resid iob <=? 2 then mret (- E_NO_MEM, iob) else
  b ← alloc sizeof_entry;
  if negb b then mret (- E_NO_MEM, iob) else
  _ ← inode_ref_inc node;
  r ← loop (S (Z.to_nat (io_resid iob))) namefile_body (node, io_mem iob, io_base iob + io_resid iob, io_resid iob - 2);
  let '(ret, node, mem, ptr, resid) := r in
  _ ← inode_ref_dec node;
  if negb (ret =? 0) then mret (ret, iob <| io_mem := mem |>) else
  let alen := io_resid iob - resid - 2 in
  names ← load_range mem ptr alen;
  mem ← store_range mem (io_base iob + 1) names;
  mem ← store_range mem (io_base iob) [SLASH];
  mem ← store_range mem (io_base iob + 1 + alen) [0];
  r ← with_iob (iobuf_skip alen) (iob <| io_mem := mem |>);
  mret (0, r.2).
End sfs_lookup.
