(* ===== verification/SfsLookupSpec.v ===== *)
(** * Looking up paths in a tree of directories

    The file system as a map from numbers of inodes to directories and files,
    and [sfs_lookup], [sfs_lookup_parent] as walks through it. *)

From S2P Require Import Prelude Bytes Mem DList Slab Bitmap Disk Sfs SfsVol SfsTree SfsMap SfsFile SfsIo SfsFileSpec SfsTrunc SfsDir SfsDirent SfsDirSpec SfsCache SfsReclaim SfsCreate SfsUnlink SfsLookup.

(** ** The components of a path *)

Fixpoint components (path : list Z) : list (list Z) :=
  match path with
  | [] => []
  | c :: path' =>
      if c =? SLASH then components path'
      else match path' with
           | c' :: _ => if c' =? SLASH then [c] :: components path'
                        else match components path' with x :: xs => (c :: x) :: xs | [] => [[c]] end
           | [] => [[c]]
           end
  end.

Lemma components_skip path : components (skip_slashes path) = components path.
Proof. induction path as [|c path IH]; [done|]. simpl. by destruct (c =? SLASH) eqn:E; [|cbn; rewrite E]. Qed.

Lemma skip_slashes_length path : (length (skip_slashes path) ≤ length path)%nat.
Proof. induction path as [|c path IH]; [done|]. simpl. destruct (c =? SLASH); simpl; lia. Qed.

Lemma skip_slashes_relative path : skip_slashes path = [] ∨ is_relative (skip_slashes path) = true.
Proof. induction path as [|c path IH]; [by left|]. simpl. destruct (c =? SLASH) eqn:E; [done|]. right. simpl. by rewrite E. Qed.

(** A component and what follows it. *)
Lemma components_app name path :
  name ≠ [] → Forall (λ c, c ≠ SLASH) name → is_relative path = false → components (name ++ path) = name :: components path.
Proof.
  intros Hne Hns Hp. induction Hns as [|c name Hc Hns IH]; [done|].
  assert ((c =? SLASH) = false) as Ec by by apply Z.eqb_neq. cbn [app components]. rewrite Ec. destruct name as [|c' name].
  - destruct path as [|c' path]; [done|]. cbn [app] in *. simpl in Hp. by rewrite (proj1 (negb_false_iff _) Hp).
  - cbn [app]. rewrite (proj2 (Z.eqb_neq c' _)) by by inversion Hns.
    change (c' :: name ++ path) with ((c' :: name) ++ path). by rewrite IH.
Qed.

(** What [sfs_lookup_subpath] leaves to be looked up. *)
Lemma subpath_ok path :
  is_relative path = true →
  ∃ name sub, sfs_lookup_subpath path = (name, sub) ∧
    match sub with
    | None => components path = [name]
    | Some q => components path = name :: components q ∧ is_relative q = true ∧ (length q < length path)%nat
    end.
Proof.
  intros Hp. unfold sfs_lookup_subpath. destruct (list_find (λ c, c = SLASH) path) as [[i c]|] eqn:E.
  2: { apply list_find_None in E. exists path, None. split; [done|]. rewrite <-(app_nil_r path) at 1. rewrite components_app; [done|by intros ->|done|done]. }
  apply list_find_Some in E as (Hi & -> & Hbefore). pose proof (lookup_lt_Some _ _ _ Hi) as Hlt.
  set (sub := match skip_slashes (drop i path) with [] => None | sub => Some sub end). exists (take i path), sub. split; [done|].
  assert (components path = take i path :: components (skip_slashes (drop i path))) as Hc.
  { rewrite components_skip, <-components_app, take_drop; [done| | |].
    - intros Hn. apply (f_equal length) in Hn. rewrite length_take in Hn. simpl in Hn. assert (i = 0%nat) as -> by lia.
      destruct path as [|c path]; [done|]. simpl in Hi. by simplify_eq.
    - apply Forall_lookup_2. intros j c Hj. apply lookup_take_Some in Hj as [Hj Hlt']. by apply (Hbefore j).
    - by rewrite (drop_S path SLASH i Hi). }
  destruct (skip_slashes_relative (drop i path)) as [Hs|Hs]; unfold sub.
  - rewrite Hs in *. by rewrite Hc.
  - destruct (skip_slashes (drop i path)) as [|c q] eqn:Eq; [done|]. split_and!; [done|done|].
    assert (skip_slashes (drop i path) = skip_slashes (drop (S i) path)) as Hx by by rewrite (drop_S path SLASH i Hi).
    rewrite <-Eq, Hx. pose proof (skip_slashes_length (drop (S i) path)) as Hl. rewrite length_drop in Hl. lia.
Qed.

(** ** The tree of directories *)

Inductive fnode : Type := Dir (parent : Z) (names : gmap (list Z) Z) | File.

(** From the directory [i] with parent [p] and names [m] to [name]; or an error
    code. *)
Definition enter (p : Z) (m : gmap (list Z) Z) (i : Z) (name : list Z) : Z + Z :=
  if bool_decide (name = DOT) then inr i
  else if bool_decide (name = DOTDOT) then inr p
  else if too_long name then inl (- E_TOO_BIG)
  else match m !! name with Some j => inr j | None => inl (- E_NOENT) end.

(** Where the components lead to. *)
Fixpoint resolve (G : gmap Z fnode) (i : Z) (names : list (list Z)) : Z + Z :=
  match names with
  | [] => inr i
  | name :: names =>
      match G !! i with
      | Some (Dir p m) => match enter p m i name with inr j => resolve G j names | inl e => inl e end
      | _ => inl (- E_NOTDIR)
      end
  end.

Lemma resolve_dots G i p m k names : G !! i = Some (Dir p m) → resolve G i (replicate k DOT ++ names) = resolve G i names.
Proof. intros Hg. induction k as [|k IH]; [done|]. simpl. by rewrite Hg. Qed.

Section lookup.
Context {D : Type} `{BlockDevice D, !BlockDeviceLaws D}.
Implicit Types (s : sfs_fs D) (b n i : Z) (F : gset Z) (T : tree) (sin : sfs_inode) (d : sfs_disk_inode) (name : list Z)
  (m : gmap (list Z) Z) (G : gmap Z fnode).

(** The inode [i] with its tree of blocks, as [nd] says. *)
Record node_at s F G i (nd : fnode) d T : Prop := {
  na_named : named s F i d;
  na_in : tree_in s F T;
  na_tree : tree_ok (blk s) d T;
  na_data : data_ok T (din_blocks d);
  na_blocks : 0 ≤ din_blocks d ≤ MAX_BLOCKS;
  na_alive k x : inodes s !! k = Some x → ino x = i → SFSInodeRemoved x = false ∧ ref_count x < MAX_INODE_COUNT - 2;
  na_kind : match nd with
            | Dir p m => din_type d = SFS_TYPE_DIR ∧ din_parent d = p ∧ dir_rep (content s T (din_blocks d)) m ∧
                din_size d = Z.of_nat (size m) ∧ is_Some (G !! p) ∧ ∀ name j, m !! name = Some j → is_Some (G !! j)
            | File => din_type d = SFS_TYPE_FILE
            end;
}.
(** The directories and files in [G], in memory or on the device, and no way out
    of them. *)
Definition fs_tree s F G : Prop := ∀ i nd, G !! i = Some nd → ∃ d T, node_at s F G i nd d T.

(** Since [s], a reference was taken to the inode [i] and nothing else happened to
    the file system. *)
Record holding s F s1 k i : Prop := {
  hd_vol : vol_ok s1 F;
  hd_cache : cache_ok s1;
  hd_same : vol_same s s1;
  hd_blocks : same_except (λ _, False) s s1;
  hd_oom : ∃ q, oom s1 = drop q (oom s);
  hd_node : ∃ x, inodes s1 = <[k := x]> (inodes s) ∧ ino x = i ∧ named s F i (din x) ∧ borrowed s k i (din x) x;
}.

Lemma is_din_inj s i d d' : cache_ok s → is_din s i d → is_din s i d' → d = d'.
Proof.
  intros (L & ns & hs & _ & Hca & _) [(k & x & Hk & Hx & -> & _)|[Hno ->]] [(k' & x' & Hk' & Hx' & -> & _)|[Hno' ->]]; [|by destruct (Hno' k x)|by destruct (Hno k' x')|done].
  assert (k = k') as <- by (apply (ca_inj _ _ _ _ Hca k k' x x'); congruence). congruence.
Qed.

Lemma hold_start s F G n sin nd :
  vol_ok s F → cached s F → fs_tree s F G → inodes s !! n = Some sin → G !! ino sin = Some nd →
  ∃ c s1, inode_ref_inc n s = Ok (c, s1) ∧ holding s F s1 n (ino sin).
Proof.
  intros Hv Hc Hg Hn Hi. destruct (Hg _ _ Hi) as (d & T & Hna). destruct (na_alive _ _ _ _ _ _ _ Hna n sin Hn eq_refl) as [_ Hmax].
  destruct (cd_node _ _ Hc n sin Hn) as (_ & _ & Href & _). unfold MAX_INODE_COUNT in Hmax.
  assert (d = din sin) as ->.
  { eapply is_din_inj; [apply Hc|apply Hna|]. left. exists n, sin. unfold MAX_INODE_COUNT. split_and!; (done || lia). }
  eexists _, _. split; [by apply ref_inc_ok|]. rewrite s32_id by lia. constructor.
  - by apply vol_set.
  - by eapply cache_set; [apply Hc|..].
  - by constructor.
  - by intros x.
  - by exists 0%nat.
  - exists (sin <| ref_count := ref_count sin + 1 |>). split_and!; [done|done|apply Hna|]. right. exists sin. unfold MAX_INODE_COUNT. split_and!; (done || lia).
Qed.

Lemma hold_quiet s F s1 s2 k i : holding s F s1 k i → quiet s1 F s2 → (∃ q, oom s2 = drop q (oom s1)) → holding s F s2 k i.
Proof.
  intros [_ _ Hs Hb [q Ho] Hx] [Hv2 Hc2 Hi2 Hs2 Hb2] [q' Ho']. constructor; [done|done|by etrans| | |by rewrite Hi2].
  - intros x Hxr _. rewrite Hb2 by (tauto || by rewrite (vs_blocks _ _ Hs)). apply Hb; tauto.
  - exists (q + q')%nat. by rewrite Ho', Ho, drop_drop.
Qed.

Lemma hold_drop s F s1 k i : cached s F → holding s F s1 k i →
  ∃ c s2, inode_ref_dec k s1 = Ok (c, s2) ∧ quiet s F s2.
Proof.
  intros Hc [Hv Hc1 Hs Hb _ (x & Hi & Hx & Hnm & Hbo)]. by apply (drop_clean s F s1 k x i (din x)).
Qed.

Lemma hold_cached s F s1 k i : cached s F → holding s F s1 k i → cached s1 F.
Proof.
  intros Hc [Hv Hc1 Hs Hb _ (x & Hi & Hx & [_ Hr Hu _ _] & Hbo)]. destruct Hbo as [[Hk Ex]|(x0 & Hk & -> & _)].
  - rewrite Ex in Hi. apply (cached_join s F s1 k (fresh_sin (din x) i)); simpl; (done || lia).
  - destruct (cd_node _ _ Hc k x0 Hk) as (? & ? & ? & ? & ?). apply (cached_join s F s1 k (x0 <| ref_count := ref_count x0 + 1 |>)); simpl; (done || lia).
Qed.

(** What the tree says of the inode that is held, and of the others. *)
Lemma hold_node s F s1 k i G nd d T : cached s F → holding s F s1 k i → node_at s F G i nd d T →
  ∃ x, inodes s1 !! k = Some x ∧ ino x = i ∧ din x = d ∧ SFSInodeRemoved x = false ∧
    file_ok s1 F k x T ∧ file_content s1 x T = content s T (din_blocks d).
Proof.
  intros Hc [Hv Hc1 Hs Hb _ (x & Hi & Hx & Hnm & Hbo)] [Hnd Hin Ht Hdata Hmax Hal _].
  assert (din x = d) as Hd by (eapply is_din_inj; [apply Hc|apply Hnm|apply Hnd]).
  assert (inodes s1 !! k = Some x) as Hk by by rewrite Hi, lookup_insert_eq.
  assert (∀ b, in_tree T b → blk s1 b = blk s b) as Hbt by (intros b Hbt; destruct (Hin b Hbt); apply Hb; [lia|tauto]).
  exists x. split_and!; [done|done|done| | |].
  - destruct Hbo as [[_ ->]|(x0 & Hk0 & -> & _)]; [done|]. by destruct (Hal k x0 Hk0 Hx).
  - constructor; [|by rewrite Hd..]. constructor; [done|done| |].
    + intros b Hbt'. rewrite (vs_blocks _ _ Hs). by apply Hin.
    + rewrite Hd. apply (tree_ext (blk s)); [done|]. intros b Hm. by apply Hbt, meta_in.
  - unfold file_content. rewrite Hd. apply content_ext; [lia|]. intros j Hj. unfold data_blk.
    destruct (proj2 (Hdata j) Hj) as [c Ec]. rewrite Ec. cbn. apply Hbt. by exists (Data j).
Qed.

Lemma hold_named s F s1 k i G j nd d T : cached s F → holding s F s1 k i → node_at s F G j nd d T → named s1 F j d.
Proof.
  intros Hc [Hv Hc1 Hs Hb _ (x & Hi & Hx & Hnm & Hbo)] [[Hd Hr Hu Hl Hty] _ _ _ _ Hal _].
  constructor; [|by rewrite (vs_blocks _ _ Hs)|done..]. unfold is_din. rewrite Hi.
  destruct Hd as [(k' & x' & Hk' & Hx' & -> & _)|[Hno ->]].
  - left. destruct (Hal k' x' Hk' Hx') as [_ Hlt]. destruct (decide (k' = k)) as [->|Hne].
    + exists k, x. rewrite lookup_insert_eq. destruct Hbo as [[Hn _]|(x0 & Hk0 & -> & _)]; [congruence|].
      assert (x0 = x') as -> by congruence. simpl. split_and!; (done || lia).
    + exists k', x'. rewrite lookup_insert_ne by done. split_and!; (done || lia).
  - destruct (decide (j = i)) as [->|Hne].
    + left. exists k, x. rewrite lookup_insert_eq. assert (din x = disk_din s i) as Hdx by (eapply is_din_inj; [apply Hc|apply Hnm|by right]).
      split_and!; [done|done|done|]. destruct Hbo as [[_ ->]|(x0 & Hk0 & -> & _)]; [done|]. by destruct (Hno k x0).
    + right. split; [|unfold disk_din; by rewrite Hb by (lia || tauto)]. intros k' x' [[<- <-]|[_ Hk']]%lookup_insert_Some; [congruence|by apply (Hno k')].
Qed.

Lemma tail_of_drop {A} q (l : list A) : tail (drop q l) = drop (S q) l.
Proof. revert l. induction q as [|q IH]; intros [|x l]; try done. by rewrite !skipn_cons. Qed.
Lemma spent (s s' : sfs_fs D) : oom s' = oom s ∨ oom s' = tail (tail (oom s)) → ∃ q, oom s' = drop q (oom s).
Proof. intros [->| ->]; [by exists 0%nat|]. exists 2%nat. by destruct (oom s) as [|? []]. Qed.

(** Taking a reference to another inode, or to the same, and giving up the first. *)
Lemma hold_load s F s1 k i G j nd : cached s F → fs_tree s F G → holding s F s1 k i → G !! j = Some nd →
  ∃ ret k2 s2 c s3, sfs_load_inode j s1 = Ok ((ret, k2), s2) ∧ inode_ref_dec k s2 = Ok (c, s3) ∧
    (ret = 0 ∧ holding s F s3 k2 j ∨ ret = - E_NO_MEM ∧ (∃ q, refused (drop q (oom s))) ∧ quiet s F s3).
Proof.
  intros Hc Hg Hh Hj. destruct (Hg j nd Hj) as (d2 & T2 & Hna). pose proof (hold_named s F s1 k i G j nd d2 T2 Hc Hh Hna) as Hnm2.
  pose proof (hold_cached _ _ _ _ _ Hc Hh) as Hc1. pose proof Hh as [Hv1 _ Hs1 Hb1 [q Ho1] (x & Hi1 & Hx & Hnm & Hbo)].
  assert (inodes s1 !! k = Some x) as Hk1 by by rewrite Hi1, lookup_insert_eq.
  destruct (load_named s1 F j d2 Hv1 Hc1 Hnm2) as (ret & k2 & s2 & E2 & Hcase). exists ret, k2, s2.
  destruct Hcase as [(-> & Hq & Hr)|(-> & Hv2 & Hc2 & Hs2 & Hb2 & Ho2 & x2 & Hi2 & Hx2 & Hdx2 & Hbo2)].
  { destruct (drop_held s F s2 k x i (din x)) as (c & s3 & E3 & Hq3 & _); [apply Hq..| | |done| | |done|done|done|].
    - etrans; [exact Hs1|apply Hq].
    - intros y Hy _. rewrite (qt_blocks _ _ _ Hq) by (tauto || by rewrite (vs_blocks _ _ Hs1)). apply Hb1; tauto.
    - intros x0 Hk0. by apply (cd_node _ _ Hc k x0).
    - by rewrite (qt_nodes _ _ _ Hq).
    - exists c, s3. split_and!; [done|done|right]. split_and!; [done| |done].
      destruct Hr as [Hr|Hr]; rewrite Ho1 in Hr; [by exists q|]. exists (S q). by rewrite tail_of_drop in Hr. }
  destruct (decide (k2 = k)) as [->|Hne].
  - destruct Hbo2 as [[Hn _]|(x0 & Hk0 & Ex2 & Hmax2)]; [congruence|]. assert (x0 = x) as -> by congruence.
    assert (j = i) as -> by (rewrite <-Hx2, Ex2; exact Hx).
    destruct (drop_held s1 F s2 k x2 i d2) as (c & s3 & E3 & Hq3 & Ho3); [done..| |done|done|done| |].
    + intros x1 Hk. by apply (cd_node _ _ Hc1 k x1).
    + right. by exists x.
    + exists c, s3. split_and!; [done|done|left]. split; [done|]. eapply hold_quiet; [done|done|]. rewrite Ho3. by apply spent.
  - set (sB := s2 <| inodes := <[k2 := x2]> (inodes s) |>).
    assert (j ≠ i) as Hji.
    { intros ->. destruct Hc2 as (L & ns & hs & _ & Hca & _). apply Hne. apply (ca_inj _ _ _ _ Hca k2 k x2 x); [by rewrite Hi2, lookup_insert_eq| |congruence].
      by rewrite Hi2, lookup_insert_ne. }
    assert (∀ b, 0 ≤ b < blocks (super s) → blk sB b = blk s b) as HbB.
    { intros b Hb. change (blk sB b) with (blk s2 b). rewrite Hb2 by (tauto || by rewrite (vs_blocks _ _ Hs1)). apply Hb1; tauto. }
    assert (borrowed s k2 j d2 x2) as Hbo2'.
    { destruct Hbo2 as [[Hn Ex]|(x0 & Hk0 & Ex & Hm)]; [left|right].
      - split; [|done]. by rewrite Hi1, lookup_insert_ne in Hn.
      - exists x0. split_and!; [|done|done]. by rewrite Hi1, lookup_insert_ne in Hk0. }
    assert (named sB F i (din x)) as HnmB.
    { destruct Hnm as [Hd Hr Hu Hl Hty]. constructor; [|change (super sB) with (super s2); rewrite (vs_blocks _ _ Hs2), (vs_blocks _ _ Hs1); done|done..].
      destruct Hd as [(k' & x' & Hk' & Hx' & Hdx' & Hm)|[Hno Hdd]].
      - left. exists k', x'. split_and!; [|done|done|done]. change (inodes sB) with (<[k2 := x2]> (inodes s)).
        rewrite lookup_insert_ne; [done|]. intros ->. destruct Hbo2' as [[Hn _]|(x0 & Hk0 & Ex & _)]; [congruence|].
        apply Hji. rewrite <-Hx2, Ex. simpl. congruence.
      - right. split; [|unfold disk_din in *; by rewrite HbB by lia].
        intros k' x'. change (inodes sB) with (<[k2 := x2]> (inodes s)). intros [[<- <-]|[_ Hk']]%lookup_insert_Some; [congruence|by apply (Hno k')]. }
    destruct (drop_held sB F s2 k x i (din x)) as (c & s3 & E3 & Hq3 & Ho3); [done|done|by constructor|by intros b|done| | |done|done| |].
    + intros x0. change (inodes sB) with (<[k2 := x2]> (inodes s)). rewrite lookup_insert_ne by done. intros Hk. by apply (cd_node _ _ Hc k x0).
    + change (inodes sB) with (<[k2 := x2]> (inodes s)). by rewrite Hi2, Hi1, insert_insert_ne.
    + unfold borrowed. change (inodes sB) with (<[k2 := x2]> (inodes s)). by rewrite lookup_insert_ne.
    + exists c, s3. split_and!; [done|done|left]. split; [done|]. destruct Hq3 as [Hv3 Hc3 Hi3 Hs3 Hb3]. constructor; [done|done| | | |].
      * etrans; [exact Hs1|]. etrans; [exact Hs2|]. destruct Hs3. by constructor.
      * intros b Hb _. rewrite Hb3; [by apply HbB| |tauto]. change (super sB) with (super s2). by rewrite (vs_blocks _ _ Hs2), (vs_blocks _ _ Hs1).
      * destruct (spent s1 s2 Ho2) as [q' Hq']. exists (q + q')%nat. by rewrite Ho3, Hq', Ho1, drop_drop.
      * exists x2. subst d2. split_and!; [done|done|apply Hna|done].
Qed.

(** One step of the walk. *)
Definition stepped s F G (target : Z + Z) (ret k : Z) s' : Prop :=
  (ret = - E_NO_MEM ∧ (∃ q, refused (drop q (oom s))) ∧ quiet s F s') ∨
  match target with inr j => ret = 0 ∧ holding s F s' k j ∧ is_Some (G !! j) | inl e => ret = e ∧ e ≠ 0 ∧ quiet s F s' end.

Lemma lookup_next_ok s F G s1 k i p m name :
  cached s F → fs_tree s F G → holding s F s1 k i → G !! i = Some (Dir p m) → name ≠ DOT →
  ∃ ret k2 s2, lookup_next k name s1 = Ok ((ret, k2), s2) ∧ stepped s F G (enter p m i name) ret k2 s2.
Proof.
  intros Hc Hg Hh Hi Hdot. destruct (Hg _ _ Hi) as (d & T & Hna). pose proof (na_kind _ _ _ _ _ _ _ Hna) as (Ht & Hp & Hr & Hcount & Hgp & Hgm).
  destruct (hold_node s F s1 k i G _ d T Hc Hh Hna) as (x & Hk & Hx & Hd & Hrem & Hf & Hcn).
  unfold lookup_next, enter, stepped. rewrite (bool_decide_false (name = DOT)) by done. destruct (decide (name = DOTDOT)) as [->|Hdd].
  - rewrite bool_decide_true by done. cbn [negb andb]. destruct Hgp as [nd Hgp].
    destruct (hold_load s F s1 k i G p nd Hc Hg Hh Hgp) as (ret & k2 & s2 & c & s3 & E2 & E3 & Hcase).
    rewrite (bind_ok (sfs_load_parent k) _ s1 (ret, k2) s2); [rewrite (bind_ok _ _ _ _ _ E3)|].
    + exists ret, k2, s3. split; [done|]. destruct Hcase as [[-> Hh3]|(-> & Hx3 & Hq3)]; [right|by left]. split_and!; [done|done|by exists nd].
    + unfold sfs_load_parent. rewrite (bind_ok _ _ _ _ _ (get_din_ok _ _ _ Hk)), Hd, Hp. exact E2.
  - rewrite bool_decide_false by done. cbn [negb andb]. destruct (too_long name) eqn:El.
    { destruct (hold_drop s F s1 k i Hc Hh) as (c & s2 & E2 & Hq). rewrite (bind_ok _ _ _ _ _ E2). exists (- E_TOO_BIG), 0, s2. split; [done|]. by right. }
    assert (len name ≤ SFS_MAX_FNAME_LEN) as Hlen by (unfold too_long in El; lia).
    assert (dir_ok s1 F k x T m) as Hdir by (constructor; [done|by rewrite Hd|by rewrite Hcn|by rewrite Hd]).
    destruct (search_quiet s1 F k x T m name Hdir (hold_cached _ _ _ _ _ Hc Hh) Hlen) as (f & s2 & E2 & Hq2 & _ & Ho2 & Hoom & Hres).
    assert (∃ q, oom s2 = drop q (oom s1)) as Hsp by (exists 1%nat; rewrite Ho2; by destruct (oom s1)).
    pose proof (hold_quiet _ _ _ _ _ _ Hh Hq2 Hsp) as Hh2. destruct (hold_drop s F s2 k i Hc Hh2) as (c & s3 & E3 & Hq3).
    assert (∀ a s', (if negb (f_ret f =? 0) then mret (f_ret f, 0) else sfs_load_inode (f_ino f)) s2 = Ok (a, s') → sfs_lookup_once k name s1 = Ok (a, s')) as Honce.
    { intros a s' E. unfold sfs_lookup_once. rewrite (bind_ok _ _ _ _ _ (trylock_ok _ _ _ _ _ Hf)), Hrem. cbn [negb Z.eqb].
      rewrite (bind_ok _ _ _ _ _ E2). exact E. }
    destruct Hres as [Er|[(Er & Hm & _)|(Er & Hm & _)]]; rewrite Er in Honce.
    + rewrite (bind_ok _ _ _ _ _ (Honce _ _ eq_refl)), (bind_ok _ _ _ _ _ E3). exists (- E_NO_MEM), 0, s3. split; [done|left].
      split_and!; [done| |done]. destruct (hd_oom _ _ _ _ _ Hh) as [q Ho]. exists q. rewrite <-Ho. by apply Hoom.
    + rewrite Hm. destruct (Hgm _ _ Hm) as [nd Hj]. destruct (hold_load s F s2 k i G (f_ino f) nd Hc Hg Hh2 Hj) as (ret & k2 & s4 & c' & s5 & E4 & E5 & Hcase).
      rewrite (bind_ok _ _ _ _ _ (Honce _ _ E4)), (bind_ok _ _ _ _ _ E5). exists ret, k2, s5. split; [done|].
      destruct Hcase as [[-> Hh5]|(-> & Hx5 & Hq5)]; [right|by left]. split_and!; [done|done|by exists nd].
    + rewrite Hm, (bind_ok _ _ _ _ _ (Honce _ _ eq_refl)), (bind_ok _ _ _ _ _ E3). exists (- E_NOENT), 0, s3. split; [done|]. by right.
Qed.

(** ** The walks *)

(** [path] has the component [name], before it only ["."], and [sub] after it. *)
Definition leads (path name : list Z) (sub : option (list Z)) : Prop :=
  (∃ k, components path = replicate k DOT ++ name :: match sub with Some q => components q | None => [] end) ∧
  ∀ q, sub = Some q → is_relative q = true ∧ (length q < length path)%nat.

Lemma leads_dot path q name sub :
  components path = DOT :: components q → (length q < length path)%nat → leads q name sub → leads path name sub.
Proof.
  intros Hc Hl [[k Hk] Hs]. split; [exists (S k); by rewrite Hc, Hk|]. intros q' Hq'. destruct (Hs q' Hq'). split; [done|lia].
Qed.
Lemma leads_now path name sub :
  match sub with
  | None => components path = [name]
  | Some q => components path = name :: components q ∧ is_relative q = true ∧ (length q < length path)%nat
  end → leads path name sub.
Proof. destruct sub as [q|]; [intros (Hc & ? & ?)|intros Hc]; (split; [by exists 0%nat|by intros ? [= <-]]). Qed.

Lemma next_loop path fuel s :
  is_relative path = true → (length path < fuel)%nat →
  ∃ next, loop fuel next_body path s = Ok (next, s) ∧
    match next with
    | None => ∃ k, components path = replicate k DOT
    | Some (name, sub) => name ≠ DOT ∧ leads path name sub
    end.
Proof.
  revert path. induction fuel as [|fuel IH]; intros path Hp Hl; [lia|]. destruct (subpath_ok path Hp) as (name & sub & E & Hs).
  destruct (decide (name = DOT)) as [->|Hd].
  - destruct sub as [q|].
    + destruct Hs as (Hc & Hq & Hlq). destruct (IH q Hq) as (next & En & Hn); [lia|]. exists next.
      rewrite (loop_next _ _ _ _ q s) by (unfold next_body; by rewrite E). split; [done|].
      destruct next as [[name sub]|]; [split; [apply Hn|by eapply leads_dot; [..|apply Hn]]|]. destruct Hn as [k Hk]. exists (S k). by rewrite Hc, Hk.
    + exists None. rewrite (loop_stop _ _ _ _ None s) by (unfold next_body; by rewrite E). split; [done|]. by exists 1%nat.
  - exists (Some (name, sub)). rewrite (loop_stop _ _ _ _ (Some (name, sub)) s); [split; [done|split; [done|by apply leads_now]]|].
    unfold next_body. by rewrite E, bool_decide_false.
Qed.
Lemma parent_next_loop path fuel s :
  is_relative path = true → (length path < fuel)%nat →
  ∃ name sub, loop fuel parent_next_body path s = Ok ((name, sub), s) ∧ leads path name sub ∧ (is_Some sub → name ≠ DOT).
Proof.
  revert path. induction fuel as [|fuel IH]; intros path Hp Hl; [lia|]. destruct (subpath_ok path Hp) as (name & sub & E & Hs).
  destruct sub as [q|].
  - destruct (decide (name = DOT)) as [->|Hd].
    + destruct Hs as (Hc & Hq & Hlq). destruct (IH q Hq) as (name & sub & En & Hn & Hd); [lia|]. exists name, sub.
      rewrite (loop_next _ _ _ _ q s) by (unfold parent_next_body; by rewrite E). split_and!; [done|by eapply leads_dot|done].
    + exists name, (Some q). rewrite (loop_stop _ _ _ _ (name, Some q) s) by (unfold parent_next_body; by rewrite E, bool_decide_false).
      split_and!; [done|by apply leads_now|done].
  - exists name, None. rewrite (loop_stop _ _ _ _ (name, None) s) by (unfold parent_next_body; by rewrite E).
    split_and!; [done|by apply leads_now|by intros []].
Qed.

(** The test at the start of each step. *)
Lemma hold_type s F G s1 k i nd : cached s F → fs_tree s F G → holding s F s1 k i → G !! i = Some nd →
  ∃ d, get_din k s1 = Ok (d, s1) ∧ (din_type d =? SFS_TYPE_DIR) = match nd with Dir _ _ => true | File => false end.
Proof.
  intros Hc Hg Hh Hi. destruct (Hg _ _ Hi) as (d & T & Hna). destruct (hold_node s F s1 k i G nd d T Hc Hh Hna) as (x & Hk & _ & Hd & _).
  exists d. rewrite (get_din_ok _ _ _ Hk), Hd. split; [done|]. pose proof (na_kind _ _ _ _ _ _ _ Hna) as Hkind.
  destruct nd; [by rewrite (proj1 Hkind)|by rewrite Hkind].
Qed.

Lemma walk_loop s F G s1 k i path fuel :
  cached s F → fs_tree s F G → holding s F s1 k i → is_Some (G !! i) → is_relative path = true → (length path < fuel)%nat →
  ∃ ret k2 s2, loop fuel lookup_body (k, path) s1 = Ok ((ret, k2), s2) ∧ stepped s F G (resolve G i (components path)) ret k2 s2.
Proof.
  intros Hc Hg. revert s1 k i path. induction fuel as [|fuel IH]; intros s1 k i path Hh [nd Hi] Hp Hl; [lia|].
  destruct (hold_type s F G s1 k i nd Hc Hg Hh Hi) as (d & Ed & Ht). destruct (next_loop path (S (length path)) s1 Hp ltac:(lia)) as (next & En & Hn).
  destruct nd as [p m|].
  2: { destruct (hold_drop s F s1 k i Hc Hh) as (c & s2 & E2 & Hq). exists (- E_NOTDIR), 0, s2. split.
       - apply loop_stop. unfold lookup_body. rewrite (bind_ok _ _ _ _ _ Ed), Ht. cbn [negb]. by rewrite (bind_ok _ _ _ _ _ E2).
       - right. assert (resolve G i (components path) = inl (- E_NOTDIR)) as ->; [|done].
         destruct (subpath_ok path Hp) as (name & sub & _ & Hs). assert (∃ l, components path = name :: l) as [l ->] by (destruct sub; naive_solver).
         simpl. by rewrite Hi. }
  destruct next as [[name sub]|].
  2: { destruct Hn as [q Hq]. exists 0, k, s1. split.
       - apply loop_stop. unfold lookup_body. rewrite (bind_ok _ _ _ _ _ Ed), Ht. cbn [negb]. by rewrite (bind_ok _ _ _ _ _ En).
       - right. rewrite Hq, <-(app_nil_r (replicate q DOT)), (resolve_dots G i p m) by done. simpl. split_and!; [done|done|by eexists]. }
  destruct Hn as [Hdot [[q Hq] Hsub]]. rewrite Hq, (resolve_dots G i p m) by done. cbn [resolve]. rewrite Hi.
  destruct (lookup_next_ok s F G s1 k i p m name Hc Hg Hh Hi Hdot) as (ret & k2 & s2 & E2 & Hst).
  assert (∀ r, ((if negb (ret =? 0) then mret (inr (ret, 0)) else
    match sub with Some path => mret (inl (k2, path)) | None => mret (inr (0, k2)) end) : M (sfs_fs D) (Z * list Z + Z * Z)) s2 = r →
    lookup_body (k, path) s1 = r) as Hbody.
  { intros r E. unfold lookup_body. rewrite (bind_ok _ _ _ _ _ Ed), Ht. cbn [negb]. rewrite (bind_ok _ _ _ _ _ En), (bind_ok _ _ _ _ _ E2). exact E. }
  destruct (Z.eqb_spec ret 0) as [->|Hret]; cbn [negb] in Hbody.
  - destruct Hst as [[? _]|Hst]; [done|]. destruct (enter p m i name) as [e|j]; [by destruct Hst as (<- & ? & _)|]. destruct Hst as (_ & Hh2 & Hj).
    destruct sub as [path'|].
    + destruct (Hsub path' eq_refl) as [Hp' Hl']. destruct (IH s2 k2 j path' Hh2 Hj Hp') as (ret & k3 & s3 & E3 & Hst3); [lia|].
      exists ret, k3, s3. split; [|done]. rewrite (loop_next _ _ _ _ _ _ (Hbody _ eq_refl)). exact E3.
    + exists 0, k2, s2. split; [|by right]. exact (loop_stop _ _ _ _ _ _ (Hbody _ eq_refl)).
  - exists ret, 0, s2. split; [exact (loop_stop _ _ _ _ _ _ (Hbody _ eq_refl))|]. destruct Hst as [?|Hst]; [by left|right].
    destruct (enter p m i name) as [e|j]; [done|]. by destruct Hst as [-> _].
Qed.

(** The directory that the components lead to. *)
Definition resolve_dir G (i : Z) (names : list (list Z)) : Z + Z :=
  match resolve G i names with
  | inr j => match G !! j with Some (Dir _ _) => inr j | _ => inl (- E_NOTDIR) end
  | inl e => inl e
  end.

Lemma components_last path : is_relative path = true → ∃ names name, components path = names ++ [name].
Proof.
  intros Hp. destruct (subpath_ok path Hp) as (name & sub & _ & Hs). assert (components path ≠ []) as Hne by (by destruct sub; [destruct Hs as [-> _]|rewrite Hs]).
  destruct (exists_last Hne) as (names & last & ->). by exists names, last.
Qed.

Lemma resolve_dir_file G i names name : G !! i = Some File → resolve_dir G i names = inl (- E_NOTDIR) ∧ resolve G i (names ++ [name]) = inl (- E_NOTDIR).
Proof. intros Hi. unfold resolve_dir. destruct names; simpl; by rewrite Hi. Qed.

Lemma walk_parent_loop s F G s1 k i path names name fuel :
  cached s F → fs_tree s F G → holding s F s1 k i → is_Some (G !! i) → is_relative path = true → components path = names ++ [name] →
  (length path < fuel)%nat →
  ∃ ret k2 last s2, loop fuel lookup_parent_body (k, path) s1 = Ok ((ret, k2, last), s2) ∧
    stepped s F G (resolve_dir G i names) ret k2 s2 ∧ (ret = 0 → last = name).
Proof.
  intros Hc Hg. revert s1 k i path names. induction fuel as [|fuel IH]; intros s1 k i path names Hh [nd Hi] Hp Hnames Hl; [lia|].
  destruct (hold_type s F G s1 k i nd Hc Hg Hh Hi) as (d & Ed & Ht).
  destruct (parent_next_loop path (S (length path)) s1 Hp ltac:(lia)) as (x & sub & En & [[q Hq] Hsub] & Hdot).
  destruct nd as [p m|].
  2: { destruct (hold_drop s F s1 k i Hc Hh) as (c & s2 & E2 & Hqt). exists (- E_NOTDIR), 0, [], s2. split_and!; [|right|done].
       - apply loop_stop. unfold lookup_parent_body. rewrite (bind_ok _ _ _ _ _ Ed), Ht. cbn [negb]. by rewrite (bind_ok _ _ _ _ _ E2).
       - by rewrite (proj1 (resolve_dir_file G i names name Hi)). }
  rewrite Hnames in Hq. destruct sub as [path'|].
  2: { apply (app_inj_tail names (replicate q DOT) name x) in Hq as [-> ->]. exists 0, k, x, s1. split_and!; [|right|done].
       - apply loop_stop. unfold lookup_parent_body. rewrite (bind_ok _ _ _ _ _ Ed), Ht. cbn [negb]. by rewrite (bind_ok _ _ _ _ _ En).
       - unfold resolve_dir. rewrite <-(app_nil_r (replicate q DOT)), (resolve_dots G i p m) by done. simpl. rewrite Hi. split_and!; [done|done|by eexists]. }
  destruct (Hsub path' eq_refl) as [Hp' Hl']. destruct (components_last path' Hp') as (names' & name' & Hc').
  assert (names = replicate q DOT ++ x :: names' ∧ name' = name) as [-> ->].
  { rewrite Hc' in Hq. change (x :: names' ++ [name']) with ((x :: names') ++ [name']) in Hq. rewrite app_assoc in Hq. by apply app_inj_tail in Hq as [-> ->]. }
  unfold resolve_dir. rewrite (resolve_dots G i p m) by done. cbn [resolve]. rewrite Hi.
  destruct (lookup_next_ok s F G s1 k i p m x Hc Hg Hh Hi (Hdot ltac:(by eexists))) as (ret & k2 & s2 & E2 & Hst).
  assert (∀ r, ((if negb (ret =? 0) then mret (inr (ret, 0, [])) else mret (inl (k2, path'))) : M (sfs_fs D) (Z * list Z + Z * Z * list Z)) s2 = r →
    lookup_parent_body (k, path) s1 = r) as Hbody.
  { intros r E. unfold lookup_parent_body. rewrite (bind_ok _ _ _ _ _ Ed), Ht. cbn [negb]. rewrite (bind_ok _ _ _ _ _ En).
    cbv iota zeta beta. rewrite (bind_ok _ _ _ _ _ E2). exact E. }
  destruct (Z.eqb_spec ret 0) as [->|Hret]; cbn [negb] in Hbody.
  - destruct Hst as [[? _]|Hst]; [done|]. destruct (enter p m i x) as [e|j]; [by destruct Hst as (<- & ? & _)|]. destruct Hst as (_ & Hh2 & Hj).
    destruct (IH s2 k2 j path' names' Hh2 Hj Hp' Hc') as (ret & k3 & last & s3 & E3 & Hst3 & Hlast); [lia|].
    exists ret, k3, last, s3. split_and!; [|exact Hst3|done]. rewrite (loop_next _ _ _ _ _ _ (Hbody _ eq_refl)). exact E3.
  - exists ret, 0, [], s2. split_and!; [exact (loop_stop _ _ _ _ _ _ (Hbody _ eq_refl))| |done]. destruct Hst as [?|Hst]; [by left|right].
    destruct (enter p m i x) as [e|j]; [done|]. by destruct Hst as [-> _].
Qed.

(** C23.  Paths.  A file system is a tree [G] of directories and files, in memory
    or on the device.  A path that is empty or starts with a slash fails the
    assertion.  Any other path leads from the inode [n] where its components lead
    in [G]: [sfs_lookup] answers the inode there, in memory and with one more
    reference than before, or the error of the first component that leads
    nowhere: [-E_NOTDIR], [-E_NOENT] or [-E_TOO_BIG].  [sfs_lookup_parent] does so
    for all components but the last, which is the name it leaves at [endp], and
    requires a directory.  Both may fail for want of memory.  In every case no
    other inode and no reference count is changed, and no block. *)
Theorem sfs_lookup_correct s F G n sin path :
  vol_ok s F → cached s F → fs_tree s F G → inodes s !! n = Some sin → is_Some (G !! ino sin) →
  (is_relative path = false → sfs_lookup n path s = Err Panic ∧ sfs_lookup_parent n path s = Err Panic) ∧
  (is_relative path = true →
    (∃ ret k s', sfs_lookup n path s = Ok ((ret, k), s') ∧ stepped s F G (resolve G (ino sin) (components path)) ret k s') ∧
    ∃ names name, components path = names ++ [name] ∧
      ∃ ret k last s', sfs_lookup_parent n path s = Ok ((ret, k, last), s') ∧
        stepped s F G (resolve_dir G (ino sin) names) ret k s' ∧ (ret = 0 → last = name)).
Proof.
  intros Hv Hc Hg Hn [nd Hi]. split; intros Hp; [unfold sfs_lookup, sfs_lookup_parent; by rewrite Hp|].
  destruct (hold_start s F G n sin nd Hv Hc Hg Hn Hi) as (c & s1 & E1 & Hh). unfold sfs_lookup, sfs_lookup_parent. rewrite Hp. split.
  - rewrite (bind_ok _ _ _ _ _ eq_refl), (bind_ok _ _ _ _ _ E1). apply walk_loop with (i := ino sin); [done..|by exists nd|done|lia].
  - destruct (components_last path Hp) as (names & name & Hnames). exists names, name. split; [done|].
    rewrite (bind_ok _ _ _ _ _ eq_refl), (bind_ok _ _ _ _ _ E1). apply walk_parent_loop with (i := ino sin) (path := path); [done..|by exists nd|done|done|lia].
Qed.

(** ** Names of nodes *)

Lemma read_quiet n s F sin T s' : vol_ok s F → cached s F → read_same n s F sin T s' → quiet s F s' ∧ oom s' = oom s.
Proof.
  intros Hv [Hc _] [Hf Hio Hb _]. pose proof (io_mem_same _ _ Hio) as Hm. split; [|apply (m_oom _ _ Hm)]. constructor.
  - apply (fa_vol _ _ _ _ _ (fo_at _ _ _ _ _ Hf)).
  - apply (cache_same s); [apply (m_flinks _ _ Hm)|apply (m_inodes _ _ Hm)|apply (m_next _ _ Hm)|done].
  - apply (m_inodes _ _ Hm).
  - by apply mem_vol_same.
  - done.
Qed.

Lemma findino_loop n i (k : nat) : ∀ s F sin T j,
  file_ok s F n sin T → din_type (din sin) = SFS_TYPE_DIR → 0 ≤ j → j + Z.of_nat k = din_blocks (din sin) →
  ∃ ret e s', loop (S k) (findino_body n i (din_blocks (din sin))) j s = Ok ((ret, e), s') ∧ read_same n s F sin T s' ∧
    (ret = 0 ∧ (∃ x, 0 ≤ x < din_blocks (din sin) ∧ slot_of s sin T x = (i, c_str (de_name e))) ∨
     ret = - E_NOENT ∧ ∀ x, j ≤ x < din_blocks (din sin) → (slot_of s sin T x).1 ≠ i).
Proof.
  induction k as [|k IH]; intros s F sin T j Hf Ht Hj Hk.
  - eexists (- E_NOENT), _, s. split; [|split; [by apply read_same_refl|right; split; [done|lia]]].
    apply loop_stop. unfold findino_body. by rewrite (proj2 (Z.ltb_ge j _)) by lia.
  - destruct (dirent_read_ok s F n sin T j Hf Ht ltac:(lia)) as (en & s1 & E & Hsame & Hen & _).
    assert (findino_body n i (din_blocks (din sin)) j s = Ok (if de_ino en =? i then inr (0, en) else inl (j + 1), s1)) as Ebody.
    { unfold findino_body. rewrite (proj2 (Z.ltb_lt j _)), (bind_ok _ _ _ _ _ E) by lia. cbn [fst snd negb Z.eqb]. by destruct (de_ino en =? i). }
    change (slot_entry (file_content s sin T) j) with (slot_of s sin T j) in Hen.
    destruct (Z.eqb_spec (de_ino en) i) as [Hi|Hi].
    + exists 0, en, s1. split_and!; [exact (loop_stop _ _ _ _ _ _ Ebody)|done|left]. split; [done|]. exists j. split; [lia|]. by rewrite <-Hen, Hi.
    + destruct (IH s1 F sin T (j + 1)) as (ret & e & s' & E' & Hs' & Hx); [apply Hsame|done|lia|lia|].
      assert (∀ x, slot_of s1 sin T x = slot_of s sin T x) as Hso by (intros; unfold slot_of; by rewrite (rs_content _ _ _ _ _ _ Hsame)).
      exists ret, e, s'. rewrite (loop_next _ _ _ _ _ _ Ebody). split_and!; [done|by eapply read_same_trans|].
      destruct Hx as [(-> & x & Hx & Hsx)|(-> & Hx)]; [left|right]; (split; [done|]).
      * exists x. by rewrite <-Hso.
      * intros x Hxr. destruct (decide (x = j)) as [->|]; [by rewrite <-Hen|rewrite <-Hso; apply Hx; lia].
Qed.

(** The directory's name for an inode. *)
Lemma findino_ok s F n sin T m i : dir_ok s F n sin T m → cached s F → i ≠ 0 →
  ∃ ret e s', sfs_dirent_findino_nolock n i s = Ok ((ret, e), s') ∧ quiet s F s' ∧ oom s' = oom s ∧
    (ret = 0 ∧ m !! c_str (de_name e) = Some i ∨ ret = - E_NOENT ∧ ∀ name, m !! name ≠ Some i).
Proof.
  intros [Hf Ht Hr _] Hc Hi. pose proof (fo_at _ _ _ _ _ Hf) as [Hv Hn _ _]. unfold sfs_dirent_findino_nolock.
  rewrite (bind_ok _ _ _ _ _ (get_din_ok _ _ _ Hn)).
  destruct (findino_loop n i (Z.to_nat (din_blocks (din sin))) s F sin T 0 Hf Ht) as (ret & e & s' & E & Hs & Hcase);
    [lia|pose proof (fo_blocks _ _ _ _ _ Hf); lia|].
  destruct (read_quiet n s F sin T s' Hv Hc Hs) as [Hq Ho]. exists ret, e, s'. split_and!; [done|done|done|].
  unfold slot_of in Hcase. destruct Hcase as [(-> & x & Hx & Hsx)|(-> & Hx)]; [left|right]; (split; [done|]).
  - pose proof (dr_slot _ _ Hr x) as Hslot. rewrite Hsx, (content_nslots s F n) in Hslot by done. by apply Hslot.
  - intros name Hm. destruct (dr_name _ _ Hr _ _ Hm) as (_ & x & Hxr & Hsx). rewrite (content_nslots s F n) in Hxr by done.
    apply (Hx x Hxr). by rewrite Hsx.
Qed.

(** A name that a path can have between two slashes. *)
Record plain name : Prop := {
  pl_some : name ≠ [];
  pl_slash : Forall (λ c, c ≠ SLASH) name;
  pl_dots : name ≠ DOT ∧ name ≠ DOTDOT;
  pl_long : too_long name = false;
}.
(** The names, each with a slash after it. *)
Definition text (names : list (list Z)) : list Z := names ≫= λ name, name ++ [SLASH].

Lemma text_cons name names : text (name :: names) = (name ++ [SLASH]) ++ text names.
Proof. done. Qed.
Lemma components_text names : Forall plain names → components (text names) = names.
Proof.
  induction 1 as [|name names [] _ IH]; [done|]. rewrite text_cons, <-app_assoc. rewrite components_app; [|done|done|done].
  cbn [app components]. rewrite Z.eqb_refl. by rewrite IH.
Qed.

(** Every directory but the root has a name in its parent. *)
Record rooted G : Prop := {
  rt_up i p m : G !! i = Some (Dir p m) → i ≠ SFS_BLKN_ROOT → p ≠ i ∧ ∃ q mp name, G !! p = Some (Dir q mp) ∧ mp !! name = Some i;
  rt_plain i p m name j : G !! i = Some (Dir p m) → m !! name = Some j → plain name;
}.

Lemma resolve_plain G p q m name names i :
  G !! p = Some (Dir q m) → m !! name = Some i → plain name → resolve G p (name :: names) = resolve G i names.
Proof.
  intros Hp Hm [_ _ [Hd1 Hd2] Hl]. cbn [resolve]. rewrite Hp. unfold enter. rewrite !bool_decide_false by done. by rewrite Hl, Hm.
Qed.

(** Writing in front of what was written. *)
Lemma splice_front (l bs bs' : list Z) pos : in_range l (pos - len bs') (len (bs' ++ bs)) = true → 
  splice (splice l pos bs) (pos - len bs') bs' = splice l (pos - len bs') (bs' ++ bs).
Proof.
  intros Hr. pose proof Hr as Hx. rewrite in_range_spec, length_app in Hx.
  assert (in_range l pos (len bs) = true) as H1 by (apply in_range_spec; lia).
  assert (in_range (splice l pos bs) (pos - len bs') (len bs') = true) as H2 by (rewrite in_range_spec, splice_length by done; lia).
  apply list_eq. intros i. rewrite !splice_lookup by done. rewrite length_app.
  destruct (decide (pos - len bs' ≤ Z.of_nat i < pos - len bs' + len bs')).
  - rewrite decide_True by lia. by rewrite lookup_app_l by lia.
  - destruct (decide (pos ≤ Z.of_nat i < pos + len bs)).
    + rewrite decide_True by lia. rewrite lookup_app_r by lia. f_equal. lia.
    + by rewrite decide_False by lia.
Qed.

(** What has been written when [names] lead from the inode at hand to [start]. *)
Definition written (buf : list Z) (hi : Z) (names : list (list Z)) : list Z := splice buf (hi - len (text names)) (text names).
Definition on_path G i (start : Z) names : Prop := resolve G i names = inr start ∧ Forall plain names.

Lemma namefile_loop s F G buf hi r start :
  cached s F → fs_tree s F G → rooted G → 0 ≤ hi - r → hi ≤ len buf →
  ∀ fuel s1 k i p m names,
  holding s F s1 k i → G !! i = Some (Dir p m) → on_path G i start names → len (text names) ≤ r - 2 → (Z.to_nat (r - 2 - len (text names)) < fuel)%nat →
  ∃ ret k' names' s2 c s3,
    loop fuel namefile_body (k, written buf hi names, hi - len (text names), r - 2 - len (text names)) s1 =
      Ok ((ret, k', written buf hi names', hi - len (text names'), r - 2 - len (text names')), s2) ∧
    inode_ref_dec k' s2 = Ok (c, s3) ∧ quiet s F s3 ∧ len (text names') ≤ r - 2 ∧
    (ret = 0 ∧ on_path G SFS_BLKN_ROOT start names' ∨
     ret = - E_NO_MEM ∧ ((∃ q, refused (drop q (oom s))) ∨ ∃ j long, on_path G j start long ∧ r - 2 < len (text long))).
Proof.
  intros Hc Hg Hroot Hlo Hhi. induction fuel as [|fuel IH]; intros s1 k i p m names Hh Hi Hon Hfit Hfuel; [lia|].
  destruct (Hg _ _ Hi) as (d & T & Hna). pose proof (na_kind _ _ _ _ _ _ _ Hna) as (_ & Hp & _ & _ & [ndp Hgp] & _).
  destruct (hold_node s F s1 k i G _ d T Hc Hh Hna) as (x & Hk & Hx & Hd & _).
  eassert (namefile_body (k, written buf hi names, hi - len (text names), r - 2 - len (text names)) s1 = _) as E0.
  { unfold namefile_body. rewrite (bind_ok _ _ _ _ _ (get_sin_ok _ _ _ Hk)), Hx. reflexivity. }
  destruct (Z.eqb_spec i SFS_BLKN_ROOT) as [->|Hir].
  { destruct (hold_drop s F s1 k _ Hc Hh) as (c & s3 & E3 & Hq). exists 0, k, names, s1, c, s3. split_and!; [|done|done|done|by left].
    exact (loop_stop _ _ _ _ _ _ E0). }
  destruct (rt_up _ Hroot i p m Hi Hir) as (Hpi & q & mp & up & Hgp' & Hup).
  destruct (hold_load s F s1 k i G p _ Hc Hg Hh Hgp') as (ret & k2 & s2 & c & s3 & E2 & E3 & Hcase).
  assert (sfs_load_parent k s1 = Ok ((ret, k2), s2)) as Epar.
  { unfold sfs_load_parent. rewrite (bind_ok _ _ _ _ _ (get_din_ok _ _ _ Hk)), Hd, Hp. exact E2. }
  rewrite (bind_ok _ _ _ _ _ Epar) in E0. cbn [fst snd] in E0.
  destruct Hcase as [[-> Hh3]|(-> & Hr & Hq)]; cbn [negb Z.eqb] in E0.
  2: { exists (- E_NO_MEM), k, names, s2, c, s3. split_and!; [exact (loop_stop _ _ _ _ _ _ E0)|done|done|done|right]. split; [done|by left]. }
  rewrite (bind_ok _ _ _ _ _ E3) in E0.
  destruct (Hg _ _ Hgp') as (dp & Tp & Hnap). pose proof (na_kind _ _ _ _ _ _ _ Hnap) as (Htp & _ & Hrp & Hcp & _).
  destruct (hold_node s F s3 k2 p G _ dp Tp Hc Hh3 Hnap) as (y & Hk2 & Hy & Hdy & Hrem & Hf & Hcn).
  assert (dir_ok s3 F k2 y Tp mp) as Hdir by (constructor; [done|by rewrite Hdy|by rewrite Hcn|by rewrite Hdy]).
  rewrite (bind_ok _ _ _ _ _ (get_sin_ok _ _ _ Hk2)), Hy, (proj2 (Z.eqb_neq i p)), Hdy, Htp in E0 by done.
  rewrite (bind_ok _ _ s3 tt s3), (bind_ok _ _ _ _ _ (trylock_ok _ _ _ _ _ Hf)), Hrem in E0 by done. cbn [negb Z.eqb] in E0.
  assert (i ≠ 0) as Hi0 by (pose proof (nm_range _ _ _ _ (na_named _ _ _ _ _ _ _ Hna)); lia).
  destruct (findino_ok s3 F k2 y Tp mp i Hdir (hold_cached _ _ _ _ _ Hc Hh3) Hi0) as (fr & e & s4 & E4 & Hq4 & Ho4 & Hfound).
  rewrite (bind_ok _ _ _ _ _ E4) in E0. cbn [fst snd] in E0.
  assert (∃ q0, oom s4 = drop q0 (oom s3)) as Hsp by by exists 0%nat.
  pose proof (hold_quiet _ _ _ _ _ _ Hh3 Hq4 Hsp) as Hh4.
  destruct Hfound as [(-> & Hm)|(_ & Hno)]; [|by destruct (Hno up)]. cbn [negb Z.eqb] in E0.
  set (name := c_str (de_name e)) in *. pose proof (rt_plain _ Hroot _ _ _ _ _ Hgp' Hm) as Hpl. destruct Hon as [Hres Hall].
  assert (on_path G p start (name :: names)) as Hon' by (split; [by rewrite (resolve_plain G p q mp name names i)|by constructor]).
  assert (len (text (name :: names)) = len name + 1 + len (text names)) as Hlen by (rewrite text_cons, !length_app; simpl; lia).
  destruct (Z.ltb_spec (r - 2 - len (text names)) (len name + 1)) as [Hbig|Hok].
  { destruct (hold_drop s F s4 k2 p Hc Hh4) as (c' & s5 & E5 & Hq5). exists (- E_NO_MEM), k2, names, s4, c', s5.
    split_and!; [exact (loop_stop _ _ _ _ _ _ E0)|done|done|done|right]. split; [done|right]. exists p, (name :: names). split; [done|lia]. }
  assert (in_range buf (hi - len (text names)) (len (text names)) = true) as Hr0 by (apply in_range_spec; lia).
  rewrite (bind_ok _ _ s4 (written buf hi (name :: names)) s4) in E0.
  2: { rewrite store_range_ok by (rewrite in_range_spec; unfold written; rewrite splice_length, length_app by done; simpl; lia).
       do 2 f_equal. unfold written. replace (len name + 1) with (len (name ++ [SLASH])) by (rewrite length_app; simpl; lia).
       rewrite splice_front by (rewrite in_range_spec, <-text_cons, Hlen, length_app; simpl; lia).
       rewrite <-text_cons. f_equal. rewrite Hlen, length_app. simpl. lia. }
  destruct (IH s4 k2 p q mp (name :: names) Hh4 Hgp' Hon') as (ret & k' & names' & s5 & c' & s6 & E5 & Hrest); [lia|lia|].
  exists ret, k', names', s5, c', s6. split; [|exact Hrest]. rewrite (loop_next _ _ _ _ _ _ E0), <-E5.
  replace (hi - len (text names) - (len name + 1)) with (hi - len (text (name :: names))) by lia.
  by replace (r - 2 - len (text names) - (len name + 1)) with (r - 2 - len (text (name :: names))) by lia.
Qed.

(** Only the buffer from [base] to [hi] may differ. *)
Definition within (base hi : Z) (l l' : list Z) : Prop :=
  length l' = length l ∧ ∀ i : nat, Z.of_nat i < base ∨ hi ≤ Z.of_nat i → l' !! i = l !! i.

#[local] Instance within_refl base hi : Reflexive (within base hi).
Proof. by split. Qed.
#[local] Instance within_trans base hi : Transitive (within base hi).
Proof. intros l1 l2 l3 [H1 H2] [H3 H4]. split; [congruence|]. intros i Hi. by rewrite H4, H2. Qed.
Lemma within_splice base hi (l bs : list Z) pos : 0 ≤ base → hi ≤ len l → base ≤ pos → pos + len bs ≤ hi → within base hi l (splice l pos bs).
Proof.
  intros. assert (in_range l pos (len bs) = true) as Hr by (apply in_range_spec; lia). split; [by apply splice_length|].
  intros i Hi. rewrite splice_lookup by done. by rewrite decide_False by lia.
Qed.

(** The names are moved to the front of the buffer, between a slash and a null. *)
Lemma namefile_end base hi (l t : list Z) :
  0 ≤ base → hi ≤ len l → base + len t + 2 ≤ hi →
  let l1 := splice l (base + 1) t in let l2 := splice l1 base [SLASH] in let l3 := splice l2 (base + 1 + len t) [0] in
  within base hi l l3 ∧ slice l3 base (len t + 2) = SLASH :: t ++ [0].
Proof.
  intros Hb Hh Ht l1 l2 l3. assert (within base hi l l1) as H1 by (apply within_splice; lia).
  assert (within base hi l1 l2) as H2 by (apply within_splice; (destruct H1; simpl; lia)).
  assert (within base hi l2 l3) as H3 by (apply within_splice; (destruct H1, H2; simpl; lia)).
  split; [by etrans; [|etrans]|]. destruct H1 as [E1 _], H2 as [E2 _].
  assert (l2 = splice l1 base [SLASH]) as Hl2 by done. replace (len t + 2) with (1 + (len t + 1)) by lia.
  rewrite <-slice_app, <-(slice_app _ (base + 1) (len t) 1) by lia.
  assert (slice l3 (base + 1 + len t) 1 = [0]) as ->.
  { apply (slice_splice_eq l2 (base + 1 + len t) [0]), in_range_spec. simpl. lia. }
  assert (∀ pos n, 0 ≤ pos → pos + n ≤ base + 1 + len t → slice l3 pos n = slice l2 pos n) as H3'.
  { intros pos n Hp Hn. apply slice_splice_ne; [apply in_range_spec; simpl; lia|lia|by left]. }
  rewrite !H3' by lia. assert (slice l2 base 1 = [SLASH]) as ->.
  { apply (slice_splice_eq l1 base [SLASH]), in_range_spec. simpl. lia. }
  assert (slice l2 (base + 1) (len t) = t) as ->; [|done].
  unfold l2. rewrite slice_splice_ne; [|apply in_range_spec; simpl; lia|lia|right; simpl; lia].
  apply slice_splice_eq, in_range_spec. lia.
Qed.

(** C24.  The path of a directory.  [sfs_namefile] writes into the buffer of the
    request a slash, the names that lead from the root to the directory, each
    with a slash after it, and a null, and moves the request on by the length of
    the names; [sfs_lookup] of what it wrote from the root leads back to the
    directory.  It answers [-E_NO_MEM] when the names do not fit, and when there
    is no memory.  It changes no byte outside of the buffer, and no inode, count
    or block. *)
Theorem sfs_namefile_correct s F G n sin p m iob :
  vol_ok s F → cached s F → fs_tree s F G → rooted G → inodes s !! n = Some sin → G !! ino sin = Some (Dir p m) →
  in_range (io_mem iob) (io_base iob) (io_resid iob) = true →
  ∃ ret iob' s', sfs_namefile n iob s = Ok ((ret, iob'), s') ∧ quiet s F s' ∧
    within (io_base iob) (io_base iob + io_resid iob) (io_mem iob) (io_mem iob') ∧
    ((ret = 0 ∧ ∃ names, let path := text names in
        slice (io_mem iob') (io_base iob) (len path + 2) = SLASH :: path ++ [0] ∧ len path + 2 ≤ io_resid iob ∧
        io_base iob' = io_base iob + len path ∧ io_resid iob' = io_resid iob - len path ∧ io_offset iob' = s32 (io_offset iob + len path) ∧
        components path = names ∧ resolve G SFS_BLKN_ROOT names = inr (ino sin)) ∨
     (ret = - E_NO_MEM ∧
        (io_resid iob ≤ 2 ∨ (∃ q, refused (drop q (oom s))) ∨
         ∃ j names, on_path G j (ino sin) names ∧ io_resid iob - 2 < len (text names)))).
Proof.
  intros Hv Hc Hg Hroot Hn Hi Hr. apply in_range_spec in Hr as (Hb & Hr0 & Hlen). unfold sfs_namefile.
  set (r := io_resid iob) in *. set (base := io_base iob) in *.
  assert (quiet s F s) as Hqs by (constructor; [done|apply Hc|done|done|by intros x]).
  destruct (Z.leb_spec r 2) as [Hsmall|Hbig].
  { exists (- E_NO_MEM), iob, s. split_and!; [done|done|done|right]. split; [done|by left]. }
  rewrite (bind_ok _ _ _ _ _ (alloc_ok sizeof_entry s ltac:(done))). set (s0 := set_oom s (tail (oom s))).
  assert (quiet s F s0) as Hq0.
  { constructor; [by destruct Hv|by apply (cache_same s), Hc|done|by constructor|by intros x]. }
  destruct (default true (head (oom s))) eqn:Eo; cbn [negb].
  2: { exists (- E_NO_MEM), iob, s0. split_and!; [done|done|done|right]. split; [done|]. right; left. exists 0%nat. by apply granted. }
  destruct (hold_start s F G n sin _ Hv Hc Hg Hn Hi) as (c & s1 & E1 & Hh).
  rewrite (ref_inc_ok _ _ _ Hn) in E1. injection E1 as <- <-. set (x := sin <| ref_count := s32 (ref_count sin + 1) |>) in *.
  assert (holding s F (set_sin s0 n x) n (ino sin)) as Hh0.
  { eapply hold_quiet; [exact Hh| |exists 1%nat; simpl; by destruct (oom s)]. pose proof Hh as [Hv1 Hc1 _ _ _ _].
    constructor; [by destruct Hv1|by apply (cache_same (set_sin s n x))|done|by constructor|by intros y]. }
  assert (inodes s0 !! n = Some sin) as Hn0 by done. rewrite (bind_ok _ _ _ _ _ (ref_inc_ok _ _ _ Hn0)). fold x.
  pose proof (namefile_loop s F G (io_mem iob) (base + r) r (ino sin) Hc Hg Hroot ltac:(lia) Hlen (S (Z.to_nat r)) _ n (ino sin) p m [] Hh0 Hi) as Hloop.
  destruct Hloop as (ret & k' & names & s2 & c' & s3 & E2 & E3 & Hq3 & Hfit & Hcase); [by split|simpl; lia|simpl; lia|].
  assert (written (io_mem iob) (base + r) [] = io_mem iob) as Hw by (apply splice_nil; simpl; lia).
  simpl (len (text [])) in E2. rewrite Hw, !Z.sub_0_r in E2. rewrite (bind_ok _ _ _ _ _ E2). cbv iota zeta beta. rewrite (bind_ok _ _ _ _ _ E3).
  assert (within base (base + r) (io_mem iob) (written (io_mem iob) (base + r) names)) as Hin by (apply within_splice; lia).
  destruct Hcase as [(-> & Hres & Hall)|(-> & Hcause)]; cbn [negb Z.eqb].
  2: { eexists (- E_NO_MEM), _, s3. split_and!; [done|done|exact Hin|right]. split; [done|]. right. exact Hcause. }
  set (t := text names) in *. replace (r - (r - 2 - len t) - 2) with (len t) by lia. set (l := written _ _ _) in *. destruct Hin as [Hll Hout].
  assert (slice l (base + r - len t) (len t) = t) as Hsl by (apply slice_splice_eq, in_range_spec; lia).
  rewrite (bind_ok _ _ s3 t s3) by (rewrite load_range_ok, Hsl by (apply in_range_spec; lia); done).
  destruct (namefile_end base (base + r) l t) as [Hin2 Htext]; [lia|lia|lia|]. cbv zeta in Hin2, Htext.
  set (l1 := splice l (base + 1) t) in *. set (l2 := splice l1 base [SLASH]) in *. set (l3 := splice l2 (base + 1 + len t) [0]) in *.
  assert (length l1 = length l) as El1 by (apply splice_length, in_range_spec; lia).
  assert (length l2 = length l1) as El2 by (apply splice_length, in_range_spec; simpl; lia).
  rewrite (bind_ok _ _ s3 l1 s3) by (apply store_range_ok, in_range_spec; lia).
  rewrite (bind_ok _ _ s3 l2 s3) by (apply store_range_ok, in_range_spec; simpl; lia).
  rewrite (bind_ok _ _ s3 l3 s3) by (apply store_range_ok, in_range_spec; simpl; lia).
  rewrite (bind_ok _ _ s3 (tt, mk_iobuf l3 (base + len t) (s32 (io_offset iob + len t)) (io_len iob) (r - len t)) s3).
  2: { unfold with_iob, iobuf_skip. rewrite (bind_ok _ _ _ _ _ eq_refl). change (io_resid (iob <| io_mem := l3 |>)) with r.
       by rewrite (proj2 (Z.leb_le (len t) r)) by lia. }
  eexists 0, _, s3. split_and!; [done|done|exact (within_trans _ _ _ _ _ (conj Hll Hout) Hin2)|left]. split; [done|]. exists names. cbv zeta. fold t.
  split_and!; [exact Htext|lia|done|done|done|by apply components_text|done].
Qed.
End lookup.
