(* ===== verification/SfsMount.v ===== *)
(** * Mounting, synchronising and unmounting

    [fs/sfs/sfs_fs.c].  The [struct fs] that [sfs_do_mount] allocates is the
    state: before the call its members but [dev] and [oom] hold what the memory
    held.  The function pointers are not kept; nothing is kept of memory that is
    freed. *)

From S2P Require Import Prelude DList Mem Slab Bitmap Bytes Disk Sfs SfsVol SfsTree SfsMap SfsFile SfsIo SfsFileSpec SfsTrunc SfsDir SfsDirent SfsDirSpec SfsCache SfsReclaim SfsCreate SfsUnlink.

(** [sizeof(struct fs)] *)
Definition sizeof_fs : Z := 164.

Section sfs_mount.
Context {D : Type} `{BlockDevice D}.
Notation M := (M (sfs_fs D)).

Definition sync_body (list le : flink) : M (flink + unit) :=
  le ← on_field flinks (list_next le);
  if bool_decide (le = list) then mret (inr tt) else
  n ← deref (λ _, le2sin_inode le);
  _ ← vop_fsync n;
  mret (inl le).

Definition sfs_sync : M Z :=
  s ← get;
  _ ← loop (S (size (flinks s))) (sync_body InodeList) InodeList;
  s ← get;
  if super_dirty s then
    _ ← modify (λ s, s <| super_dirty := false |>);
    ret ← sfs_sync_super;
    if negb (ret =? 0) then _ ← modify (λ s, s <| super_dirty := true |>); mret ret else
    ret ← sfs_sync_freemap;
    if negb (ret =? 0) then _ ← modify (λ s, s <| super_dirty := true |>); mret ret else
    mret 0
  else mret 0.

Definition sfs_get_root : M Z :=
  r ← sfs_load_inode SFS_BLKN_ROOT;
  if negb (r.1 =? 0) then fail Panic else mret r.2.

Definition sfs_cleanup : M Z :=
  e ← on_field flinks (list_empty InodeList);
  if negb e then mret (- E_BUSY) else
  s ← get;
  _ ← assert (negb (super_dirty s));
  mret 0.

Definition unmount_body (p : Z * Z) : M (Z * Z + Z) :=
  let '(i, ret) := p in
  if i <? 32 then
    ret ← sfs_sync;
    if ret =? 0 then mret (inr ret) else mret (inl (i + 1, ret))
  else mret (inr ret).
Definition sfs_unmount : M Z := loop 33 unmount_body (0, 0).

(** The content of the buffer after the transfer is part of the result. *)
Definition sfs_init_read (buf : list Z) (pos blkno : Z) : M (Z * list Z) :=
  r ← on_field dev (d_io (block_iob buf pos blkno) false);
  mret (r.1, io_mem r.2).

Definition init_freemap_body (p : list Z * Z * Z * Z) : M (list Z * Z * Z * Z + Z * list Z) :=
  let '(data, pos, blkno, nblks) := p in
  if nblks =? 0 then mret (inr (0, data)) else
  r ← sfs_init_read data pos blkno;
  if negb (r.1 =? 0) then mret (inr r)
  else mret (inl (r.2, pos + SFS_BLKSIZE, u32 (blkno + 1), nblks - 1)).
Definition sfs_init_freemap (blkno nblks : Z) : M Z :=
  d ← on_field freemap bitmap_getdata;
  _ ← assert (d.2 =? u32 (nblks * SFS_BLKSIZE));
  r ← loop (S (Z.to_nat nblks)) init_freemap_body (words_bytes d.1, 0, blkno, nblks);
  _ ← modify (λ s, s <| freemap := freemap s <| bmap := words_of_bytes (length d.1) r.2 |> |>);
  mret r.1.

(** [bitmap_create] with the next two allocations. *)
Definition create_freemap (n : Z) : M bool :=
  s ← get;
  let a1 := default true (head (oom s)) in
  let a2 := default true (head (tail (oom s))) in
  _ ← put (s <| oom := if a1 then tail (tail (oom s)) else tail (oom s) |>);
  on_field freemap (bitmap_create a1 a2 n).

Definition init_hash_body (i : Z) : M (Z + unit) :=
  if i <? SFS_HLIST_SIZE then _ ← on_field flinks (list_init (HashList i)); mret (inl (i + 1)) else mret (inr tt).

Definition count_free_body (nbits : Z) (p : Z * Z) : M (Z * Z + Z) :=
  let '(i, unused) := p in
  if i <? nbits then
    b ← on_field freemap (bitmap_test i);
    mret (inl (i + 1, if b : bool then u32 (unused + 1) else unused))
  else mret (inr unused).

Definition sfs_do_mount : M Z :=
  s ← get;
  if negb (d_blocksize (dev s) =? SFS_BLKSIZE) then mret (- E_NA_DEV) else
  b ← alloc sizeof_fs;
  if negb b then mret (- E_NO_MEM) else
  b ← alloc SFS_BLKSIZE;
  if negb b then mret (- E_NO_MEM) else
  s ← get;
  r ← sfs_init_read (sfs_buffer s) 0 SFS_BLKN_SUPER;
  _ ← modify (λ s, s <| sfs_buffer := r.2 |>);
  if negb (r.1 =? 0) then mret r.1 else
  s ← get;
  let u := super_of_bytes (sfs_buffer s) in
  if negb (magic u =? SFS_MAGIC) then mret (- E_INVAL) else
  if d_blocks (dev s) <? blocks u then mret (- E_INVAL) else
  let u := u <| info := <[Z.to_nat SFS_MAX_INFO_LEN := 0]> (info u) |> in
  _ ← modify (λ s, s <| super := u |>);
  b ← alloc (8 * SFS_HLIST_SIZE);
  if negb b then mret (- E_NO_MEM) else
  _ ← loop (S (Z.to_nat SFS_HLIST_SIZE)) init_hash_body 0;
  b ← create_freemap (sfs_freemap_bits u);
  if negb b then mret (- E_NO_MEM) else
  ret ← sfs_init_freemap SFS_BLKN_FREEMAP (sfs_freemap_blocks u);
  if negb (ret =? 0) then mret ret else
  unused ← loop (S (Z.to_nat (sfs_freemap_bits u))) (count_free_body (sfs_freemap_bits u)) (0, 0);
  _ ← assert (unused =? unused_blocks u);
  _ ← modify (λ s, s <| super_dirty := false |>);
  _ ← on_field flinks (list_init InodeList);
  mret 0.
End sfs_mount.

(** * What a mount makes of an image *)

(** ** Sizes *)


(** The superblock and its bytes. *)
Lemma super_roundtrip u :
  0 ≤ magic u < 2 ^ 32 → 0 ≤ blocks u < 2 ^ 32 → 0 ≤ unused_blocks u < 2 ^ 32 → length (info u) = 32%nat →
  super_of_bytes (super_bytes u ++ replicate 4052 0) = u.
Proof.
  intros H1 H2 H3 H4. unfold super_of_bytes, super_bytes.
  set (b1 := le_bytes 4 (magic u)). set (b2 := le_bytes 4 (blocks u)). set (b3 := le_bytes 4 (unused_blocks u)).
  assert (length b1 = 4 ∧ length b2 = 4 ∧ length b3 = 4)%nat as (L1 & L2 & L3) by (unfold b1, b2, b3; by rewrite !le_bytes_length).
  rewrite <-!app_assoc. set (rest := replicate 4052 0). pose proof (slice_at [] b1) as Hs1. cbn [app] in Hs1.
  rewrite Hs1, (slice_at b1 b2) by (rewrite ?L1, ?L2; done).
  rewrite (app_assoc b1 b2), (slice_at (b1 ++ b2) b3) by (rewrite ?length_app, ?L1, ?L2, ?L3; done).
  rewrite (app_assoc _ b3), (slice_at _ (info u)) by (rewrite ?length_app, ?L1, ?L2, ?L3, ?H4; done).
  unfold b1, b2, b3. rewrite !le_combine_u32 by done. by destruct u.
Qed.

Lemma freemap_sizes u : 0 < blocks u ≤ 2 ^ 20 →
  0 < sfs_freemap_blocks u ≤ 32 ∧ sfs_freemap_bits u = sfs_freemap_blocks u * 32768.
Proof.
  intros Hb. unfold sfs_freemap_blocks, sfs_freemap_bits, ROUNDUP_DIV. change SFS_BLKBITS with 32768.
  rewrite u32_id by lia. destruct (ROUNDUP_spec (blocks u) 32768) as [Hr Hm]; [lia..|].
  apply Z.mod_divide in Hm as [q Hq]; [|lia]. rewrite Hq in *.
  assert ((blocks u + 32768 - 1) / 32768 = q) as -> by (symmetry; apply (Z.div_unique_pos _ _ _ (blocks u + 32767 - q * 32768)); lia).
  split; [lia|done].
Qed.

(** Two strings of bytes that agree block by block. *)
Lemma take_blocks (l : list Z) pos : 0 ≤ pos → take (Z.to_nat pos) l ++ slice l pos 4096 = take (Z.to_nat (pos + 4096)) l.
Proof. intros Hp. unfold slice. rewrite Z2Nat.inj_add by lia. by rewrite take_take_drop. Qed.

Lemma slice_len_le l pos n : 0 ≤ pos → 0 ≤ n → pos + n ≤ len l → len (slice l pos n) = n.
Proof. intros. unfold slice. rewrite length_take, length_drop. lia. Qed.

Section mount.
Context {D : Type} `{BlockDevice D, !BlockDeviceLaws D}.
Implicit Types (s : sfs_fs D) (b n i : Z) (F : gset Z) (T : tree) (d : D) (u : sfs_super).

(** ** Reading the image *)

(** A device after it was read. *)
Record dev_same d d' : Prop := {
  dv_wf : d_wf d';
  dv_count : d_blocks d' = d_blocks d;
  dv_size : d_blocksize d' = d_blocksize d;
  dv_data b : 0 ≤ b < d_blocks d → dblock d' b = dblock d b;
}.
Lemma dev_same_refl d : d_wf d → dev_same d d.
Proof. by constructor. Qed.
Lemma dev_same_trans d1 d2 d3 : dev_same d1 d2 → dev_same d2 d3 → dev_same d1 d3.
Proof. intros [? Hc1 ? H1] [? Hc2 ? H2]. constructor; [done|congruence..|]. intros b Hb. rewrite H2, H1; [done|done|by rewrite Hc1]. Qed.

Lemma init_read_ok s buf pos b :
  d_wf (dev s) → 0 ≤ b < d_blocks (dev s) → 0 ≤ pos → pos + 4096 ≤ len buf →
  ∃ d', sfs_init_read buf pos b s = Ok ((0, splice buf pos (dblock (dev s) b)), s <| dev := d' |>) ∧ dev_same (dev s) d'.
Proof.
  intros Hw Hb Hp Hl. destruct (d_read (dev s) buf pos b) as (iob' & d' & E & Hm & Hw' & Hc & Hs & Hd); [done|done| |].
  { apply in_range_spec. change BLKSIZE with 4096. lia. }
  exists d'. split; [|by constructor]. unfold sfs_init_read. rewrite (bind_ok _ _ _ _ _ (on_field_ok dev _ _ _ _ E)). by rewrite <-Hm.
Qed.

Lemma init_freemap_loop (n : nat) : ∀ s data W pos b,
  d_wf (dev s) → 0 ≤ b → b + Z.of_nat n ≤ d_blocks (dev s) → b + Z.of_nat n < 2 ^ 32 → 0 ≤ pos → len data = pos + Z.of_nat n * 4096 →
  len W = pos + Z.of_nat n * 4096 → take (Z.to_nat pos) data = take (Z.to_nat pos) W →
  (∀ i, 0 ≤ i < Z.of_nat n → dblock (dev s) (b + i) = slice W (pos + i * 4096) 4096) →
  ∃ d', loop (S n) init_freemap_body (data, pos, b, Z.of_nat n) s = Ok ((0, W), s <| dev := d' |>) ∧ dev_same (dev s) d'.
Proof.
  induction n as [|n IH]; intros s data W pos b Hw Hb Hbn H32 Hp Hld HlW Htake HW.
  { exists (dev s). split; [|by apply dev_same_refl]. assert (data = W) as ->.
    { rewrite <-(take_ge data (Z.to_nat pos)), <-(take_ge W (Z.to_nat pos)) by lia. done. }
    apply loop_stop. destruct s; done. }
  destruct (init_read_ok s data pos b) as (d1 & E1 & Hd1); [done|lia|lia|lia|].
  specialize (HW 0 ltac:(lia)) as HW0. rewrite Z.add_0_r, Z.add_0_r in HW0. rewrite HW0 in E1.
  assert (len (slice W pos 4096) = 4096) as Hls by (apply slice_len_le; lia).
  assert (in_range data pos (len (slice W pos 4096)) = true) as Hr by (apply in_range_spec; lia).
  set (data1 := splice data pos (slice W pos 4096)) in *.
  destruct (IH (s <| dev := d1 |>) data1 W (pos + 4096) (b + 1)) as (d2 & E2 & Hd2).
  - apply Hd1.
  - lia.
  - simpl. rewrite (dv_count _ _ Hd1). lia.
  - lia.
  - lia.
  - unfold data1. rewrite splice_length by done. lia.
  - lia.
  - unfold data1, splice. rewrite Htake, app_assoc, take_blocks by lia. rewrite take_app_le; [apply take_ge|]; rewrite length_take; lia.
  - intros i Hi. simpl. rewrite (dv_data _ _ Hd1) by lia. replace (b + 1 + i) with (b + (i + 1)) by lia. rewrite HW by lia. f_equal. lia.
  - exists d2. split; [|by eapply dev_same_trans]. rewrite (loop_next _ _ _ _ (data1, pos + SFS_BLKSIZE, b + 1, Z.of_nat n) (s <| dev := d1 |>)); [exact E2|].
    unfold init_freemap_body. rewrite (proj2 (Z.eqb_neq _ 0)) by lia. rewrite (bind_ok _ _ _ _ _ E1). cbn [fst snd negb Z.eqb].
    rewrite u32_id by lia. by replace (Z.of_nat (S n) - 1) with (Z.of_nat n) by lia.
Qed.

(** ** Counting and initialising *)

Definition below F i : gset Z := filter (λ x, x < i) F.

Lemma below_succ F i : size (below F (i + 1)) = (size (below F i) + if decide (i ∈ F) then 1 else 0)%nat.
Proof.
  unfold below. case_decide as Hi.
  - assert (filter (λ x, x < i + 1) F = {[i]} ∪ filter (λ x, x < i) F) as ->.
    { apply set_eq. intros x. rewrite elem_of_union, elem_of_singleton, !elem_of_filter. destruct (decide (x = i)) as [->|]; [|intuition lia].
      split; [by left|]. intros _. split; [lia|done]. }
    rewrite size_union, size_singleton; [lia|]. intros x. rewrite elem_of_singleton, elem_of_filter. lia.
  - rewrite Nat.add_0_r. f_equal. apply set_eq. intros x. rewrite !elem_of_filter. destruct (decide (x = i)) as [->|]; [tauto|intuition lia].
Qed.

Lemma below_zero F fm nb : bitmap_rep fm nb F → below F 0 = ∅.
Proof.
  intros Hr. apply set_eq. intros x. unfold below. rewrite elem_of_filter. split; [|set_solver].
  intros [Hx Hin]. pose proof (br_range _ _ _ Hr x Hin). lia.
Qed.

Lemma count_loop s F nb (k : nat) : ∀ i,
  bitmap_rep (freemap s) nb F → 0 ≤ i → i + Z.of_nat k = nb →
  loop (S k) (count_free_body nb) (i, Z.of_nat (size (below F i))) s = Ok (Z.of_nat (size F), s).
Proof.
  induction k as [|k IH]; intros i Hr Hi Hk.
  { replace i with nb by lia. assert (below F nb = F) as ->.
    { apply set_eq. intros x. unfold below. rewrite elem_of_filter. split; [tauto|]. intros Hx. split; [by apply (br_range _ _ _ Hr)|done]. }
    apply loop_stop. unfold count_free_body. by rewrite (proj2 (Z.ltb_ge _ _)) by lia. }
  rewrite (loop_next _ _ _ _ (i + 1, Z.of_nat (size (below F (i + 1)))) s); [apply IH; [done|lia|lia]|].
  unfold count_free_body. rewrite (proj2 (Z.ltb_lt _ _)) by lia.
  rewrite (bind_ok _ _ _ _ _ (on_field_ok freemap _ s _ _ (bitmap_test_ok _ _ _ i Hr ltac:(lia)))). rewrite field_id.
  rewrite below_succ. pose proof (br_n _ _ _ Hr) as [_ Hmax].
  assert (Z.of_nat (size (below F i)) ≤ i) as Hle.
  { assert (below F i ⊆ all_blocks i) as Hsub.
    { intros x. unfold below. rewrite elem_of_filter, elem_of_all_blocks. intros [? Hx]. pose proof (br_range _ _ _ Hr x Hx). lia. }
    apply subseteq_size in Hsub. assert (size (all_blocks i) ≤ Z.to_nat i)%nat; [|lia].
    unfold all_blocks. rewrite size_list_to_set by apply NoDup_seqZ. by rewrite length_seqZ. }
  destruct (decide (i ∈ F)) as [Hin|Hin].
  - rewrite bool_decide_true, u32_id by (done || lia). by rewrite Nat2Z.inj_add.
  - rewrite bool_decide_false by done. by rewrite Nat.add_0_r.
Qed.

(** The heads of the hash lists below [i] are initialised. *)
Lemma hash_loop s (k : nat) : ∀ i fl L,
  rep fl L → 0 ≤ i → i + Z.of_nat k = SFS_HLIST_SIZE →
  (∀ x l, L !! x = Some l → l = [] ∧ ∃ h, x = HashList h ∧ 0 ≤ h < i) → (∀ h, 0 ≤ h < i → L !! HashList h = Some []) →
  ∃ fl' L', loop (S k) init_hash_body i (s <| flinks := fl |>) = Ok (tt, s <| flinks := fl' |>) ∧ rep fl' L' ∧
    (∀ x l, L' !! x = Some l → l = [] ∧ ∃ h, x = HashList h ∧ 0 ≤ h < SFS_HLIST_SIZE) ∧ (∀ h, 0 ≤ h < SFS_HLIST_SIZE → L' !! HashList h = Some []).
Proof.
  induction k as [|k IH]; intros i fl L Hr Hi Hk HL1 HL2.
  { exists fl, L. assert (i = SFS_HLIST_SIZE) as -> by lia. split; [|done]. apply loop_stop. unfold init_hash_body.
    by rewrite (proj2 (Z.ltb_ge _ _)) by lia. }
  assert (unlisted L (HashList i)) as Hu.
  { intros x l E. destruct (HL1 x l E) as (-> & h & -> & Hh). intros Hx%list_elem_of_singleton. injection Hx as <-. lia. }
  destruct (rep_init fl L (HashList i)) as (fl1 & E1 & Hr1); [done|by apply unlisted_available|].
  destruct (IH (i + 1) fl1 (<[HashList i := []]> L)) as (fl2 & L2 & E2 & Hx); [done|lia|lia| | |].
  - intros x l [[<- <-]|[_ E]]%lookup_insert_Some; [split; [done|]; exists i; split; [done|lia]|].
    destruct (HL1 x l E) as (-> & h & -> & Hh). split; [done|]. exists h. split; [done|lia].
  - intros h Hh. destruct (decide (h = i)) as [->|]; [by rewrite lookup_insert_eq|]. rewrite lookup_insert_ne by congruence. apply HL2. lia.
  - exists fl2, L2. rewrite (loop_next _ _ _ _ (i + 1) (s <| flinks := fl1 |>)); [by split|].
    unfold init_hash_body. rewrite (proj2 (Z.ltb_lt _ _)) by lia.
    assert (on_field flinks (list_init (HashList i)) (s <| flinks := fl |>) = Ok (tt, s <| flinks := fl1 |>)) as E3.
    { exact (on_field_ok flinks (list_init (HashList i)) (s <| flinks := fl |>) tt fl1 E1). }
    by rewrite (bind_ok _ _ _ _ _ E3).
Qed.

(** ** The image of a file system *)

(** The superblock [u] and the free blocks [F] as the device [d] has them. *)
Record image d u F : Prop := {
  im_wf : d_wf d;
  im_size : d_blocksize d = SFS_BLKSIZE;
  im_blocks : 0 < blocks u ≤ 2 ^ 20;
  im_device : blocks u ≤ d_blocks d;
  im_meta : 2 + sfs_freemap_blocks u ≤ blocks u;
  im_magic : magic u = SFS_MAGIC;
  im_info : info u !! 31%nat = Some 0;
  im_super : super_of_bytes (dblock d 0) = u;
  im_count : unused_blocks u = Z.of_nat (size F);
  im_range b : b ∈ F → 0 < b < blocks u;
  im_map : ∃ ws, bitmap_rep (mk_bitmap (sfs_freemap_bits u) (sfs_freemap_blocks u * 1024) ws) (sfs_freemap_bits u) F ∧
    ∀ i, 0 ≤ i < sfs_freemap_blocks u → dblock d (2 + i) = slice (words_bytes ws) (i * 4096) 4096;
}.

Lemma create_freemap_ok s nb : 0 < nb ≤ 2 ^ 20 →
  let ok := default true (head (oom s)) && default true (head (tail (oom s))) in
  ∃ fm o, create_freemap nb s = Ok (ok, s <| oom := o |> <| freemap := fm |>) ∧
    (ok = true → bitmap_rep fm nb (all_blocks nb)) ∧ (ok = false → refused (oom s) ∨ refused (tail (oom s))).
Proof.
  intros Hn ok. destruct (bitmap_create_ok (default true (head (oom s))) (default true (head (tail (oom s)))) nb (freemap s) Hn) as (fm & E & Hr).
  exists fm, (if default true (head (oom s)) then tail (tail (oom s)) else tail (oom s)). split_and!.
  - unfold create_freemap. rewrite (bind_ok _ _ _ _ _ eq_refl). cbv zeta. rewrite (bind_ok _ _ _ _ _ eq_refl).
    match goal with |- on_field _ ?m ?s1 = _ => exact (on_field_ok freemap m s1 _ _ E) end.
  - exact Hr.
  - intros Hf. apply andb_false_iff in Hf as [Hf%granted|Hf%granted]; tauto.
Qed.

Lemma init_freemap_ok s u F ws :
  0 < blocks u ≤ 2 ^ 20 → 2 + sfs_freemap_blocks u ≤ d_blocks (dev s) → d_wf (dev s) →
  (∃ F0, bitmap_rep (freemap s) (sfs_freemap_bits u) F0) →
  bitmap_rep (mk_bitmap (sfs_freemap_bits u) (sfs_freemap_blocks u * 1024) ws) (sfs_freemap_bits u) F →
  (∀ i, 0 ≤ i < sfs_freemap_blocks u → dblock (dev s) (2 + i) = slice (words_bytes ws) (i * 4096) 4096) →
  ∃ d', sfs_init_freemap SFS_BLKN_FREEMAP (sfs_freemap_blocks u) s =
      Ok (0, s <| dev := d' |> <| freemap := mk_bitmap (sfs_freemap_bits u) (sfs_freemap_blocks u * 1024) ws |>) ∧ dev_same (dev s) d'.
Proof.
  intros Hb Hd Hw [F0 [Hn _ Hnw Hlen _ _ _]] [_ _ _ Hl Hws _ _] HW. cbn [bmap nwords] in *. destruct (freemap_sizes u Hb) as [Hnb Hbits].
  set (nb := sfs_freemap_blocks u) in *. assert (nwords (freemap s) = nb * 1024) as Hnw'.
  { rewrite Hnw, Hbits. symmetry. apply (Z.div_unique_pos _ _ _ 31); lia. }
  pose proof (words_bytes_len ws) as HlW. pose proof (words_bytes_len (bmap (freemap s))) as Hld.
  destruct (init_freemap_loop (Z.to_nat nb) s (words_bytes (bmap (freemap s))) (words_bytes ws) 0 SFS_BLKN_FREEMAP) as (d' & E & Hd');
    rewrite ?Z2Nat.id by lia; try (done || lia).
  { unfold SFS_BLKN_FREEMAP. lia. }
  exists d'. split; [|done]. unfold sfs_init_freemap. rewrite (bind_ok _ _ s (bmap (freemap s), u32 (4 * nwords (freemap s))) s) by by destruct s.
  cbn [fst snd]. rewrite Hnw'. replace (4 * (nb * 1024)) with (nb * 4096) by lia. change SFS_BLKSIZE with 4096. rewrite Z.eqb_refl.
  rewrite (bind_ok _ _ _ _ _ eq_refl). rewrite Z2Nat.id in E by lia. rewrite (bind_ok _ _ _ _ _ E). cbn [fst snd].
  rewrite (bind_ok _ _ _ _ _ eq_refl).
  assert (words_of_bytes (length (bmap (freemap s))) (words_bytes ws) = ws) as ->.
  { replace (length (bmap (freemap s))) with (length ws) by lia. apply words_roundtrip, Forall_forall. intros w Hin. by apply Hws. }
  assert (freemap s <| bmap := ws |> = mk_bitmap (sfs_freemap_bits u) (nb * 1024) ws) as Hfm.
  { rewrite <-Hn, <-Hnw'. done. }
  change (freemap (s <| dev := d' |>)) with (freemap s). by rewrite <-Hfm.
Qed.

(** ** [sfs_do_mount] *)

(** The file system [u] in memory, as it is on the device [d]. *)
Record mounted d s' u F : Prop := {
  mt_super : super s' = u;
  mt_vol : vol_ok s' F;
  mt_cache : cache_ok s';
  mt_nodes : inodes s' = ∅;
  mt_dirty : super_dirty s' = false;
  mt_blocks b : 0 ≤ b < blocks u → blk s' b = dblock d b;
}.

(** The superblock in the buffer. *)
Lemma read_super s :
  d_wf (dev s) → 0 < d_blocks (dev s) → length (sfs_buffer s) = 4096%nat →
  ∃ d', sfs_init_read (sfs_buffer s) 0 SFS_BLKN_SUPER s = Ok ((0, dblock (dev s) 0), s <| dev := d' |>) ∧ dev_same (dev s) d'.
Proof.
  intros Hw Hd Hl. destruct (init_read_ok s (sfs_buffer s) 0 0 Hw) as (d' & E & Hd'); [lia|lia|rewrite Hl; lia|].
  exists d'. split; [|done]. unfold SFS_BLKN_SUPER. rewrite E. do 3 f_equal. unfold splice. change (Z.to_nat 0) with 0%nat. rewrite take_0, drop_ge.
  - apply app_nil_r.
  - rewrite Hl, (dblock_length (dev s) 0 Hw) by lia. vm_compute. lia.
Qed.

(** From the superblock on. *)
Lemma mount_rest s u F :
  image (dev s) u F → super s = u → length (sfs_buffer s) = 4096%nat → inodes s = ∅ →
  ∃ ret s',
    (b ← alloc (8 * SFS_HLIST_SIZE);
     if negb b then mret (- E_NO_MEM) else
     _ ← loop (S (Z.to_nat SFS_HLIST_SIZE)) init_hash_body 0;
     b ← create_freemap (sfs_freemap_bits u);
     if negb b then mret (- E_NO_MEM) else
     ret ← sfs_init_freemap SFS_BLKN_FREEMAP (sfs_freemap_blocks u);
     if negb (ret =? 0) then mret ret else
     unused ← loop (S (Z.to_nat (sfs_freemap_bits u))) (count_free_body (sfs_freemap_bits u)) (0, 0);
     _ ← assert (unused =? unused_blocks u);
     _ ← modify (λ s, s <| super_dirty := false |>);
     _ ← on_field flinks (list_init InodeList);
     mret 0) s = Ok (ret, s') ∧
    (ret = 0 ∧ mounted (dev s) s' u F ∨ ret = - E_NO_MEM ∧ ∃ q : nat, (q ≤ 2)%nat ∧ refused (drop q (oom s))).
Proof.
  intros [Hw Hsz Hb Hdev Hmeta _ _ _ Hcount Hrange (ws & Hrep & HW)] Hu Hbuf Hno. destruct (freemap_sizes u Hb) as [Hnb Hbits].
  rewrite (bind_ok _ _ _ _ _ (alloc_ok (8 * SFS_HLIST_SIZE) s ltac:(done))). set (s1 := set_oom s (tail (oom s))).
  destruct (default true (head (oom s))) eqn:E0; cbn [negb].
  2: { exists (- E_NO_MEM), s1. split; [done|right]. split; [done|]. exists 0%nat. split; [lia|by apply granted]. }
  destruct (hash_loop s1 1024 0 (flinks s1) ∅) as (fl & L & E1 & Hr1 & HL1 & HL2); [|lia|done|done|lia|].
  { split; [done|]. intros k1 l1 k2 l2 x Hx. done. }
  rewrite (bind_ok _ _ s1 tt (s1 <| flinks := fl |>)) by (destruct s1; exact E1). set (s2 := s1 <| flinks := fl |>).
  destruct (create_freemap_ok s2 (sfs_freemap_bits u)) as (fm & o & E2 & Hfm & Href); [lia|]. rewrite (bind_ok _ _ _ _ _ E2).
  change (oom s2) with (tail (oom s)) in *. set (ok := default true (head (tail (oom s))) && _) in *. set (s3 := s2 <| oom := o |> <| freemap := fm |>).
  destruct ok; cbn [negb].
  2: { exists (- E_NO_MEM), s3. split; [done|right]. split; [done|]. destruct (Href eq_refl) as [Hx|Hx].
       - exists 1%nat. split; [lia|]. by rewrite <-tail_drop_S.
       - exists 2%nat. split; [lia|]. by rewrite <-!tail_drop_S. }
  destruct (init_freemap_ok s3 u F ws Hb) as (d' & E3 & Hd'); [simpl; lia|done|by eexists; apply Hfm|done|done|].
  rewrite (bind_ok _ _ _ _ _ E3). cbn [negb Z.eqb]. set (s4 := s3 <| dev := d' |> <| freemap := _ |>).
  pose proof (count_loop s4 F (sfs_freemap_bits u) (Z.to_nat (sfs_freemap_bits u)) 0 Hrep) as E4.
  rewrite (below_zero F _ _ Hrep), size_empty in E4. rewrite (bind_ok _ _ _ _ _ (E4 ltac:(lia) ltac:(lia))). rewrite Hcount, Z.eqb_refl.
  rewrite (bind_ok _ _ _ _ _ eq_refl), (bind_ok _ _ _ _ _ eq_refl).
  assert (unlisted L InodeList) as Hun.
  { intros x l E. destruct (HL1 x l E) as (-> & h & -> & _). by intros Hx%list_elem_of_singleton. }
  destruct (rep_init fl L InodeList) as (fl' & E5 & Hr5); [done|by apply unlisted_available|].
  set (s5 := s4 <| super_dirty := false |>).
  assert (on_field flinks (list_init InodeList) s5 = Ok (tt, s5 <| flinks := fl' |>)) as E5' by exact (on_field_ok flinks _ s5 tt fl' E5).
  rewrite (bind_ok _ _ _ _ _ E5'). exists 0, (s5 <| flinks := fl' |>). split; [reflexivity|left]. split; [done|]. clear E1 E2 E3 E4 E5 E5'.
  constructor; [exact Hu| | |exact Hno|reflexivity|].
  - constructor; simpl; rewrite ?Hu; [apply Hd'|lia|by rewrite (dv_count _ _ Hd')|exact Hrep|exact Hcount|exact Hrange|exact Hbuf].
  - exists (<[InodeList := []]> L), [], (λ _, []). simpl. rewrite Hno. split_and!; [done| |intros k [x Hx]; done]. constructor.
    + intros k l [[<- <-]|[_ E]]%lookup_insert_Some; [by left|]. destruct (HL1 k l E) as (_ & h & Hh). right. by exists h.
    + by rewrite lookup_insert_eq.
    + intros h Hh. rewrite lookup_insert_ne by done. by rewrite HL2.
    + intros h k _. split; [set_solver|]. intros (x & Hx & _). done.
    + intros k. split; [set_solver|]. intros [x Hx]. done.
    + done.
  - intros b Hbb. simpl. apply (dv_data _ _ Hd'). simpl. lia.
Qed.

(** The start of [sfs_do_mount], up to the checks of the superblock. *)
Lemma mount_start s :
  d_wf (dev s) → d_blocksize (dev s) = SFS_BLKSIZE → 0 < d_blocks (dev s) → length (sfs_buffer s) = 4096%nat →
  (∃ s', sfs_do_mount s = Ok (- E_NO_MEM, s') ∧ (refused (oom s) ∨ refused (tail (oom s)))) ∨
  (∃ d', dev_same (dev s) d' ∧
    let u := super_of_bytes (dblock (dev s) 0) in
    let s1 := set_oom s (tail (tail (oom s))) <| dev := d' |> <| sfs_buffer := dblock (dev s) 0 |> in
    sfs_do_mount s =
      if negb (magic u =? SFS_MAGIC) then Ok (- E_INVAL, s1) else
      if d_blocks (dev s) <? blocks u then Ok (- E_INVAL, s1) else
      (let u := u <| info := <[Z.to_nat SFS_MAX_INFO_LEN := 0]> (info u) |> in
       b ← alloc (8 * SFS_HLIST_SIZE);
       if negb b then mret (- E_NO_MEM) else
       _ ← loop (S (Z.to_nat SFS_HLIST_SIZE)) init_hash_body 0;
       b ← create_freemap (sfs_freemap_bits u);
       if negb b then mret (- E_NO_MEM) else
       ret ← sfs_init_freemap SFS_BLKN_FREEMAP (sfs_freemap_blocks u);
       if negb (ret =? 0) then mret ret else
       unused ← loop (S (Z.to_nat (sfs_freemap_bits u))) (count_free_body (sfs_freemap_bits u)) (0, 0);
       _ ← assert (unused =? unused_blocks u);
       _ ← modify (λ s, s <| super_dirty := false |>);
       _ ← on_field flinks (list_init InodeList);
       mret 0) (s1 <| super := u <| info := <[Z.to_nat SFS_MAX_INFO_LEN := 0]> (info u) |> |>)).
Proof.
  intros Hw Hsz Hd Hbuf. unfold sfs_do_mount. rewrite (bind_ok _ _ _ _ _ eq_refl), Hsz, Z.eqb_refl. cbn [negb].
  rewrite (bind_ok _ _ _ _ _ (alloc_ok sizeof_fs s ltac:(done))). set (s1 := set_oom s (tail (oom s))).
  destruct (default true (head (oom s))) eqn:E0; cbn [negb].
  2: { left. exists s1. split; [done|left]. by apply granted. }
  rewrite (bind_ok _ _ _ _ _ (alloc_ok SFS_BLKSIZE s1 ltac:(done))). change (oom s1) with (tail (oom s)). set (s2 := set_oom s1 (tail (tail (oom s)))).
  destruct (default true (head (tail (oom s)))) eqn:E1; cbn [negb].
  2: { left. exists s2. split; [done|right]. by apply granted. }
  right. rewrite (bind_ok _ _ _ _ _ eq_refl). destruct (read_super s2 Hw Hd Hbuf) as (d' & E2 & Hd'). exists d'. split; [done|].
  cbv zeta. rewrite (bind_ok _ _ _ _ _ E2), (bind_ok _ _ _ _ _ eq_refl). cbn [fst snd negb Z.eqb].
  rewrite (bind_ok _ _ _ _ _ eq_refl). change (dev s2) with (dev s).
  set (s3 := s2 <| dev := d' |> <| sfs_buffer := dblock (dev s) 0 |>). change (sfs_buffer s3) with (dblock (dev s) 0).
  change (dev s3) with d'. rewrite (dv_count _ _ Hd'). change (dev s2) with (dev s).
  set (u := super_of_bytes (dblock (dev s) 0)). destruct (negb (magic u =? SFS_MAGIC)); [done|].
  destruct (d_blocks (dev s) <? blocks u); [done|]. by rewrite (bind_ok _ _ _ _ _ eq_refl).
Qed.

Lemma mount_image s u F :
  d_wf (dev s) → length (sfs_buffer s) = 4096%nat → 0 < d_blocks (dev s) → image (dev s) u F → inodes s = ∅ →
  ∃ ret s', sfs_do_mount s = Ok (ret, s') ∧
    (ret = 0 ∧ mounted (dev s) s' u F ∨ ret = - E_NO_MEM ∧ ∃ q : nat, (q ≤ 4)%nat ∧ refused (drop q (oom s))).
Proof.
  intros Hw Hbuf Hd Him Hno. destruct (mount_start s Hw (im_size _ _ _ Him) Hd Hbuf) as [(s' & E & Hx)|(d' & Hd' & E)].
  { exists (- E_NO_MEM), s'. split; [done|right]. split; [done|]. destruct Hx as [Hx|Hx]; [exists 0%nat|exists 1%nat; rewrite <-tail_drop_S]; (split; [lia|done]). }
  cbv zeta in E. pose proof Him as [_ Hsz Hb Hdev Hmeta Hmagic Hinfo Hsuper Hcount Hrange (ws & Hrep & HW)]. rewrite Hsuper, Hmagic, Z.eqb_refl in E. cbn [negb] in E.
  rewrite (proj2 (Z.ltb_ge _ _)) in E by lia. change (Z.to_nat SFS_MAX_INFO_LEN) with 31%nat in E. rewrite (list_insert_id _ _ _ Hinfo) in E.
  assert (u <| info := info u |> = u) as Hu by by destruct u. rewrite Hu in E.
  set (s1 := _ <| super := u |>) in E. destruct (mount_rest s1 u F) as (ret & s' & E1 & Hcase).
  + destruct Hd' as [Hw' Hc' Hs' Hd'']. constructor; try done; simpl; [congruence|by rewrite Hc'|by rewrite Hd''|]. exists ws. split; [done|].
    intros i Hi. rewrite Hd''; [by apply HW|]. lia.
  + done.
  + change (sfs_buffer s1) with (dblock (dev s) 0). rewrite (dblock_length _ 0 Hw) by lia. done.
  + exact Hno.
  + exists ret, s'. split; [rewrite E; exact E1|]. destruct Hcase as [(-> & [])|(-> & q & Hq & Hx)]; [left|right].
    * split; [done|]. constructor; try done. intros b Hbb. rewrite mt_blocks0 by done. simpl. apply Hd'. lia.
    * split; [done|]. exists (S (S q)). split; [lia|]. rewrite <-!tail_drop_S. exact Hx.
Qed.

(** C28.  Mounting.  A device with blocks of another size is refused.  A
    superblock with another magic number, or of a volume larger than the device,
    is [-E_INVAL].  From the image of a file system the state in memory is that
    file system: its superblock, exactly its free blocks, a clean map, no inode
    in memory and an empty cache, with every block of the device as it was; or
    there is no memory. *)
Theorem sfs_do_mount_correct s :
  d_wf (dev s) → length (sfs_buffer s) = 4096%nat → 0 < d_blocks (dev s) →
  (d_blocksize (dev s) ≠ SFS_BLKSIZE → sfs_do_mount s = Ok (- E_NA_DEV, s)) ∧
  (d_blocksize (dev s) = SFS_BLKSIZE → let u := super_of_bytes (dblock (dev s) 0) in
    magic u ≠ SFS_MAGIC ∨ d_blocks (dev s) < blocks u →
    ∃ ret s', sfs_do_mount s = Ok (ret, s') ∧ (ret = - E_INVAL ∨ ret = - E_NO_MEM ∧ (refused (oom s) ∨ refused (tail (oom s))))) ∧
  (∀ u F, image (dev s) u F → inodes s = ∅ →
    ∃ ret s', sfs_do_mount s = Ok (ret, s') ∧
      (ret = 0 ∧ mounted (dev s) s' u F ∨ ret = - E_NO_MEM ∧ ∃ q : nat, (q ≤ 4)%nat ∧ refused (drop q (oom s)))).
Proof.
  intros Hw Hbuf Hd. split; [|split].
  - intros Hsz. unfold sfs_do_mount. rewrite (bind_ok _ _ _ _ _ eq_refl). by rewrite (proj2 (Z.eqb_neq _ _) Hsz).
  - intros Hsz u Hbad. destruct (mount_start s Hw Hsz Hd Hbuf) as [(s' & E & Hx)|(d' & Hd' & E)].
    { exists (- E_NO_MEM), s'. split; [done|by right]. }
    cbv zeta in E. fold u in E. destruct (Z.eqb_spec (magic u) SFS_MAGIC) as [Hm|Hm]; cbn [negb] in E.
    + destruct Hbad as [?|Hlt]; [done|]. rewrite (proj2 (Z.ltb_lt _ _) Hlt) in E. eexists _, _. split; [exact E|by left].
    + eexists _, _. split; [exact E|by left].
  - intros u F Him Hno. by apply mount_image.
Qed.
End mount.
