(* ===== verification/SfsSync.v ===== *)
(** * Synchronising and mounting again

    [sfs_sync] puts the superblock, the free map and the inodes on the device;
    mounting that device gives the file system back. *)

From S2P Require Import Prelude Bytes Mem DList Slab Bitmap Disk Sfs SfsVol SfsTree SfsMap SfsFile SfsIo SfsFileSpec SfsTrunc SfsDir SfsDirent SfsDirSpec SfsCache SfsReclaim SfsCreate SfsUnlink SfsMount.

Section sync.
Context {D : Type} `{BlockDevice D, !BlockDeviceLaws D}.
Implicit Types (s : sfs_fs D) (b n i : Z) (F : gset Z) (T : tree) (d : D) (u : sfs_super).

(** ** The superblock and the free map *)

Lemma write_many (m : nat) : ∀ s F buf pos b,
  vol_ok s F → 0 < b → b + Z.of_nat m ≤ blocks (super s) → 0 ≤ pos → pos + Z.of_nat m * 4096 ≤ len buf →
  ∃ s', loop (S m) (rwblock_body true) (buf, pos, b, Z.of_nat m) s = Ok ((0, buf), s') ∧ vol_ok s' F ∧ io_same s s' ∧
    same_except (λ x, b ≤ x < b + Z.of_nat m) s s' ∧
    ∀ i, 0 ≤ i < Z.of_nat m → blk s' (b + i) = slice buf (pos + i * 4096) 4096.
Proof.
  induction m as [|m IH]; intros s F buf pos b Hv Hb Hbm Hp Hl.
  { exists s. split; [by apply loop_stop|]. split_and!; [done|done|apply same_except_refl|lia]. }
  pose proof (v_blocks _ _ Hv) as Hmax.
  destruct (rwblock_nolock_write s F buf pos b true Hv) as (s1 & E1 & Hv1 & Hs1 & He1 & Hw1 & _); [lia|lia|apply in_range_spec; change BLKSIZE with 4096; lia|].
  pose proof (io_mem_same _ _ Hs1) as Hm1.
  destruct (IH s1 F buf (pos + 4096) (b + 1) Hv1) as (s2 & E2 & Hv2 & Hs2 & He2 & Hw2); [lia|rewrite (m_blocks _ _ Hm1); lia|lia|lia|].
  exists s2. split.
  { rewrite (loop_next _ _ _ _ (buf, pos + SFS_BLKSIZE, b + 1, Z.of_nat m) s1); [exact E2|]. unfold rwblock_body.
    rewrite (proj2 (Z.eqb_neq _ 0)) by lia. rewrite (bind_ok _ _ _ _ _ E1). cbn [fst snd Z.eqb]. rewrite u32_id by lia.
    by replace (Z.of_nat (S m) - 1) with (Z.of_nat m) by lia. }
  split_and!; [done|by etrans| |].
  - intros x Hx Hn. rewrite He2; [apply He1; [done|lia]|by rewrite (m_blocks _ _ Hm1)|lia].
  - intros i Hi. destruct (decide (i = 0)) as [->|Hne].
    + rewrite Z.add_0_r, He2, Hw1; [f_equal; lia|rewrite (m_blocks _ _ Hm1); lia|lia].
    + replace (b + i) with (b + 1 + (i - 1)) by lia. rewrite Hw2 by lia. f_equal. lia.
Qed.

Lemma sync_super_ok s F :
  vol_ok s F → length (info (super s)) = 32%nat →
  ∃ s', sfs_sync_super s = Ok (0, s') ∧ vol_ok s' F ∧ io_same s s' ∧ same_except (λ x, x = 0) s s' ∧
    blk s' 0 = super_bytes (super s) ++ replicate 4052 0.
Proof.
  intros Hv Hi. pose proof (v_blocks _ _ Hv) as Hmax. destruct (set_buffer_vol s F zeros) as [Hv1 Hs1]; [apply length_replicate|done|].
  set (s1 := s <| sfs_buffer := zeros |>) in *. unfold sfs_sync_super, clear_buffer. rewrite (bind_ok _ _ _ _ _ eq_refl). fold zeros.
  rewrite (bind_ok _ _ _ _ _ eq_refl). set (bs := super_bytes (super s)).
  assert (len bs = 44) as Hl by (unfold bs, super_bytes; rewrite !length_app, !le_bytes_length, Hi; done).
  change (sfs_buffer s1) with zeros. assert (in_range zeros 0 (len bs) = true) as Hr by (apply in_range_spec; rewrite Hl; unfold zeros; rewrite length_replicate; change (Z.of_nat (Z.to_nat SFS_BLKSIZE)) with 4096; lia).
  rewrite (bind_ok _ _ _ _ _ (store_range_ok _ _ _ _ Hr)), (bind_ok _ _ _ _ _ eq_refl).
  assert (splice zeros 0 bs = bs ++ replicate 4052 0) as Hsp.
  { unfold splice. change (Z.to_nat 0) with 0%nat. rewrite take_0. replace (length bs) with 44%nat by lia.
    unfold zeros. change (Z.to_nat SFS_BLKSIZE) with (44 + 4052)%nat. by rewrite drop_replicate. }
  rewrite Hsp. destruct (set_buffer_vol s1 F (bs ++ replicate 4052 0)) as [Hv2 Hs2].
  { rewrite length_app, length_replicate. replace (length bs) with 44%nat by lia. done. } { done. }
  destruct (rw_buffer_write (s1 <| sfs_buffer := bs ++ replicate 4052 0 |>) F 0 false Hv2) as (s3 & E3 & Hv3 & Hs3 & He3 & Hb3 & _); [simpl; lia|by right|].
  exists s3. split; [exact E3|]. split_and!; [done|etrans; [exact Hs1|by etrans]|exact He3|exact Hb3].
Qed.

Lemma sync_freemap_ok s F :
  vol_ok s F → blocks (super s) ≤ 2 ^ 20 → 2 + sfs_freemap_blocks (super s) ≤ blocks (super s) →
  let nb := sfs_freemap_blocks (super s) in
  ∃ s', sfs_sync_freemap s = Ok (0, s') ∧ vol_ok s' F ∧ io_same s s' ∧ same_except (λ x, 2 ≤ x < 2 + nb) s s' ∧
    ∀ i, 0 ≤ i < nb → blk s' (2 + i) = slice (words_bytes (bmap (freemap s))) (i * 4096) 4096.
Proof.
  intros Hv Hb Hm nb. pose proof (v_blocks _ _ Hv) as Hmax. destruct (freemap_sizes (super s) ltac:(lia)) as [Hnb Hbits]. fold nb in Hnb, Hbits.
  destruct (v_free _ _ Hv) as [_ _ Hnw Hlen _ _ _]. rewrite Hbits in Hnw.
  assert (nwords (freemap s) = nb * 1024) as Hnw' by (rewrite Hnw; symmetry; apply (Z.div_unique_pos _ _ _ 31); lia).
  pose proof (words_bytes_len (bmap (freemap s))) as Hl.
  destruct (write_many (Z.to_nat nb) s F (words_bytes (bmap (freemap s))) 0 2 Hv) as (s' & E & Hv' & Hs' & He' & Hw'); rewrite ?Z2Nat.id by lia; try (done || lia).
  rewrite Z2Nat.id in E, He', Hw' by lia. exists s'. split; [|split_and!; [done|done|done|intros i Hi; by rewrite Hw']].
  unfold sfs_sync_freemap. rewrite (bind_ok _ _ _ _ _ eq_refl).
  rewrite (bind_ok _ _ s (bmap (freemap s), u32 (4 * nwords (freemap s))) s) by by destruct s. fold nb. cbn [fst snd].
  unfold sfs_wblock, sfs_rwblock. change SFS_BLKN_FREEMAP with 2. by rewrite (bind_ok _ _ _ _ _ E).
Qed.

(** ** The inodes *)

(** Whether an inode goes to the device, and the inode afterwards. *)
Definition unsaved (x : sfs_inode) : bool := negb (din_nlinks (din x) =? 0) && dirty x && negb (SFSInodeRemoved x).
Definition flushed (x : sfs_inode) : sfs_inode := if unsaved x then x <| dirty := false |> else x.

Lemma fsync_step s F n x :
  vol_ok s F → inodes s !! n = Some x → 0 < ino x < blocks (super s) → 0 ≤ open_count x ≤ ref_count x → ref_count x < MAX_INODE_COUNT →
  din_wf (din x) →
  ∃ ret s', vop_fsync n s = Ok (ret, s') ∧ vol_ok s' F ∧ node_same n s s' ∧ inodes s' !! n = Some (flushed x) ∧
    same_except (λ b, b = ino x) s s' ∧ (unsaved x = true → disk_din s' (ino x) = din x) ∧ (unsaved x = false → dev s' = dev s).
Proof.
  intros Hv Hn Hi Ho Hr Hwf. unfold vop_fsync. rewrite (bind_ok _ _ _ _ _ (check_ok s n x Hn Ho Hr)).
  destruct (fsync_ok s F n x Hv Hn Hi (wf_ndirect _ Hwf)) as [Hclean Hdirty]. unfold flushed, unsaved.
  destruct (Z.eqb_spec (din_nlinks (din x)) 0) as [Hz|Hz]; cbn [negb andb].
  { exists 0, s. rewrite Hclean by by left. split_and!; [done|done|done|done|apply same_except_refl|done|done]. }
  destruct (dirty x) eqn:Ed; cbn [andb].
  2: { exists 0, s. rewrite Hclean by by right. split_and!; [done|done|done|done|apply same_except_refl|done|done]. }
  destruct (SFSInodeRemoved x) eqn:Er; cbn [negb].
  - exists (- E_NOENT), s. split; [|split_and!; [done|done|done|apply same_except_refl|done|done]].
    unfold sfs_fsync. rewrite (bind_ok _ _ _ _ _ (get_sin_ok _ _ _ Hn)), (proj2 (Z.eqb_neq _ 0) Hz), Ed. cbn [orb negb].
    rewrite (bind_ok (trylock_sin n) _ s (- E_NOENT) s); [done|]. unfold trylock_sin.
    by rewrite (bind_ok _ _ _ _ _ (get_sin_ok _ _ _ Hn)), Er.
  - destruct (Hdirty Hz eq_refl eq_refl) as (s' & E & Hv' & Hs' & Hn' & He & Hb). exists 0, s'.
    split_and!; [done|done|done|done|done| |done]. intros _. unfold disk_din. rewrite Hb. by apply din_roundtrip.
Qed.

(** The inodes that fit the volume: their blocks are not the superblock's or the
    map's. *)
Definition nodes_fit s : Prop := ∀ k x, inodes s !! k = Some x →
  0 < ino x < blocks (super s) ∧ (ino x < 2 ∨ 2 + sfs_freemap_blocks (super s) ≤ ino x) ∧ 0 ≤ open_count x ≤ ref_count x ∧
  ref_count x < MAX_INODE_COUNT ∧ din_wf (din x).

(** The state after the inodes of [l] were synchronised. *)
Record swept s F (l : list Z) s' : Prop := {
  sw_vol : vol_ok s' F;
  sw_mem : mem_same (s <| inodes := ∅ |>) (s' <| inodes := ∅ |>);
  sw_in k x : k ∈ l → inodes s !! k = Some x → inodes s' !! k = Some (flushed x);
  sw_out k : k ∉ l → inodes s' !! k = inodes s !! k;
  sw_disk k x : k ∈ l → inodes s !! k = Some x → unsaved x = true → disk_din s' (ino x) = din x;
  sw_blocks : same_except (λ b, ∃ k x, k ∈ l ∧ inodes s !! k = Some x ∧ ino x = b ∧ unsaved x = true) s s';
}.

Lemma sync_loop F L ns (l2 : list Z) : ∀ s l1 fuel,
  vol_ok s F → rep (flinks s) L → L !! InodeList = Some (InodeLink <$> ns) → ns = l1 ++ l2 → NoDup l2 → (length l2 < fuel)%nat →
  (∀ k, k ∈ l2 → is_Some (inodes s !! k)) → nodes_fit s →
  (∀ k1 k2 x1 x2, inodes s !! k1 = Some x1 → inodes s !! k2 = Some x2 → ino x1 = ino x2 → k1 = k2) →
  ∃ s', loop fuel (sync_body InodeList) (cursor InodeList (InodeLink <$> l1)) s = Ok (tt, s') ∧ swept s F l2 s'.
Proof.
  induction l2 as [|n l2 IH]; intros s l1 fuel Hv Hr HL Hns Hnd Hf Hex Hfit Hinj; (destruct fuel as [|fuel]; [simpl in Hf; lia|]).
  - exists s. rewrite Hns, app_nil_r in HL. split.
    + apply loop_stop. unfold sync_body. rewrite (bind_ok _ _ _ _ _ (flinks_next _ _ _ (walk_end _ _ _ _ Hr HL))). by rewrite bool_decide_true.
    + constructor; [done|done|set_solver|done|set_solver|apply same_except_refl].
  - destruct (Hex n) as [x Hx]; [by left|]. apply NoDup_cons in Hnd as [Hnn Hnd]. destruct (Hfit n x Hx) as (Hi & Hmeta & Ho & Href & Hwf).
    destruct (fsync_step s F n x) as (ret & s1 & E1 & Hv1 & [Hother Hm1] & Hn1 & He1 & Hd1 & Hdev1); [done..|].
    assert (nodes_fit s1) as Hfit1.
    { intros k y Hk. rewrite (m_blocks _ _ Hm1 : blocks (super s1) = blocks (super s)).
      assert (sfs_freemap_blocks (super s1) = sfs_freemap_blocks (super s)) as ->.
      { unfold sfs_freemap_blocks. by rewrite (m_blocks _ _ Hm1 : blocks (super s1) = blocks (super s)). }
      destruct (decide (k = n)) as [->|Hne]; [|rewrite Hother in Hk by done; by apply Hfit in Hk].
      rewrite Hn1 in Hk. injection Hk as <-. unfold flushed. by destruct (unsaved x). }
    assert (∀ k y, inodes s1 !! k = Some y → ∃ y0, inodes s !! k = Some y0 ∧ ino y0 = ino y) as Hback.
    { intros k y Hk. destruct (decide (k = n)) as [->|Hne]; [|exists y; by rewrite <-Hother]. exists x. rewrite Hn1 in Hk. injection Hk as <-.
      split; [done|]. unfold flushed. by destruct (unsaved x). }
    destruct (IH s1 (l1 ++ [n]) fuel) as (s2 & E2 & [Hv2 Hm2 Hin2 Hout2 Hd2 He2]).
    + done.
    + by rewrite (m_flinks _ _ Hm1 : flinks s1 = flinks s).
    + done.
    + by rewrite <-app_assoc.
    + done.
    + simpl in Hf. lia.
    + intros k Hk. rewrite Hother; [apply Hex; by right|]. by intros ->.
    + done.
    + intros k1 k2 y1 y2 H1 H2 Hy. destruct (Hback _ _ H1) as (z1 & Hz1 & Hi1), (Hback _ _ H2) as (z2 & Hz2 & Hi2). apply (Hinj k1 k2 z1 z2); congruence.
    + exists s2. split.
      { rewrite (loop_next _ _ _ _ (cursor InodeList (InodeLink <$> (l1 ++ [n]))) s1); [exact E2|].
        rewrite fmap_app. change (InodeLink <$> [n]) with [InodeLink n]. rewrite cursor_snoc. unfold sync_body.
        rewrite Hns, fmap_app, fmap_cons in HL. rewrite (bind_ok _ _ _ _ _ (flinks_next _ _ _ (walk_next _ _ _ _ _ _ Hr HL))).
        rewrite bool_decide_false by done. rewrite (bind_ok _ _ s n s) by done. by rewrite (bind_ok _ _ _ _ _ E1). }
      assert (∀ k y, k ∈ l2 → inodes s !! k = Some y → ino y ≠ ino x) as Hdiff.
      { intros k y Hk Hy Hii. apply Hnn. by rewrite <-(Hinj k n y x). }
      assert (∀ k, k ∈ l2 → inodes s1 !! k = inodes s !! k) as Hsame by (intros k Hk; apply Hother; by intros ->).
      constructor.
      * done.
      * by etrans.
      * intros k y [->|Hk]%elem_of_cons Hy; [rewrite Hout2 by done; congruence|]. apply Hin2; [done|by rewrite Hsame].
      * intros k Hk. apply not_elem_of_cons in Hk as [H1 H2]. rewrite Hout2 by done. by apply Hother.
      * intros k y [->|Hk]%elem_of_cons Hy Hu; [|apply (Hd2 k y Hk); [by rewrite Hsame|done]]. assert (y = x) as -> by congruence.
        unfold disk_din. rewrite He2; [by apply Hd1|rewrite (m_blocks _ _ Hm1 : blocks (super s1) = blocks (super s)); lia|].
        intros (k & z & Hk & Hz & Hzi & _). rewrite Hsame in Hz by done. by apply (Hdiff k z).
      * intros b Hb Hnb. rewrite He2.
        -- destruct (unsaved x) eqn:Eu; [|unfold blk; by rewrite Hdev1]. apply He1; [done|]. intros ->. apply Hnb. exists n, x. split_and!; [by left|done..].
        -- by rewrite (m_blocks _ _ Hm1 : blocks (super s1) = blocks (super s)).
        -- intros (k & z & Hk & Hz & Hzi). apply Hnb. exists k, z. rewrite Hsame in Hz by done. split_and!; [by right|done..|apply Hzi|apply Hzi].
Qed.

(** ** [sfs_sync] *)

(** A file system that the format of the image can hold. *)
Record savable s : Prop := {
  sv_size : d_blocksize (dev s) = SFS_BLKSIZE;
  sv_blocks : blocks (super s) ≤ 2 ^ 20;
  sv_meta : 2 + sfs_freemap_blocks (super s) ≤ blocks (super s);
  sv_magic : magic (super s) = SFS_MAGIC;
  sv_info : length (info (super s)) = 32%nat ∧ info (super s) !! 31%nat = Some 0;
}.

(** A block of the superblock or of the map. *)
Definition meta_block s b : Prop := b = 0 ∨ 2 ≤ b < 2 + sfs_freemap_blocks (super s).

Lemma super_eq s s' F : vol_ok s F → vol_ok s' F → blocks (super s') = blocks (super s) → magic (super s') = magic (super s) →
  info (super s') = info (super s) → super s' = super s.
Proof.
  intros Hv Hv' Hb Hm Hi. pose proof (v_count _ _ Hv). pose proof (v_count _ _ Hv'). destruct (super s), (super s'). simpl in *. congruence.
Qed.

Lemma image_kept s s' F :
  image (dev s) (super s) F → vol_ok s' F → super s' = super s → d_blocks (dev s') = d_blocks (dev s) →
  d_blocksize (dev s') = d_blocksize (dev s) → (∀ b, meta_block s b → blk s' b = blk s b) → image (dev s') (super s) F.
Proof.
  intros [Hw Hsz Hb Hdev Hmeta Hmagic Hinfo Hsuper Hcount Hrange (ws & Hrep & HW)] Hv' Hs Hdb Hds He. constructor; try done.
  - apply Hv'.
  - congruence.
  - congruence.
  - change (super_of_bytes (blk s' 0) = super s). rewrite He by by left. done.
  - exists ws. split; [done|]. intros i Hi. change (blk s' (2 + i) = slice (words_bytes ws) (i * 4096) 4096). rewrite He by (right; lia). by apply HW.
Qed.

(** Writing the superblock and the map makes the image. *)
Lemma sync_meta s F :
  vol_ok s F → savable s →
  ∃ s', (_ ← modify (λ s, s <| super_dirty := false |>);
    ret ← sfs_sync_super;
    if negb (ret =? 0) then _ ← modify (λ s, s <| super_dirty := true |>); mret ret else
    ret ← sfs_sync_freemap;
    if negb (ret =? 0) then _ ← modify (λ s, s <| super_dirty := true |>); mret ret else
    mret 0) s = Ok (0, s') ∧ vol_ok s' F ∧ super s' = super s ∧ super_dirty s' = false ∧ inodes s' = inodes s ∧ oom s' = oom s ∧
    image (dev s') (super s) F ∧ same_except (meta_block s) s s'.
Proof.
  intros Hv [Hsz Hb Hmeta Hmagic [Hil Hi0]]. rewrite (bind_ok _ _ _ _ _ eq_refl). set (s0 := s <| super_dirty := false |>).
  assert (vol_ok s0 F) as Hv0 by by destruct Hv.
  destruct (sync_super_ok s0 F Hv0 Hil) as (s1 & E1 & Hv1 & Hs1 & He1 & Hb1). rewrite (bind_ok _ _ _ _ _ E1). cbn [negb Z.eqb].
  pose proof (io_super _ _ Hs1) as Hu1. change (super s0) with (super s) in Hu1. pose proof (io_mem_same _ _ Hs1) as Hm1.
  destruct (sync_freemap_ok s1 F Hv1) as (s2 & E2 & Hv2 & Hs2 & He2 & Hw2); [by rewrite Hu1|by rewrite Hu1|].
  rewrite (bind_ok _ _ _ _ _ E2). cbn [negb Z.eqb]. pose proof (io_super _ _ Hs2) as Hu2. pose proof (io_mem_same _ _ Hs2) as Hm2. rewrite Hu1 in He2, Hw2, Hu2.
  pose proof (v_blocks _ _ Hv) as Hmax. destruct (freemap_sizes (super s) ltac:(lia)) as [Hnb Hbits].
  exists s2. split; [done|]. split_and!; [done|done|by rewrite (io_sdirty _ _ Hs2), (io_sdirty _ _ Hs1)|
    by rewrite (m_inodes _ _ Hm2), (m_inodes _ _ Hm1)|by rewrite (m_oom _ _ Hm2), (m_oom _ _ Hm1)| |].
  - constructor; try done.
    + apply Hv2.
    + rewrite (m_dblksize _ _ Hm2), (m_dblksize _ _ Hm1). exact Hsz.
    + lia.
    + pose proof (v_device _ _ Hv2) as Hd2. by rewrite Hu2 in Hd2.
    + change (super_of_bytes (blk s2 0) = super s). rewrite He2 by (rewrite ?Hu1; lia). rewrite Hb1.
      change (super s0) with (super s). apply super_roundtrip; [by rewrite Hmagic|lia| |done].
      rewrite (v_count _ _ Hv). pose proof (free_size s F Hv). lia.
    + by rewrite <-(v_count _ _ Hv).
    + intros b Hbf. by apply (v_range _ _ Hv).
    + exists (bmap (freemap s1)). split; [|done]. pose proof (v_free _ _ Hv1) as Hr. rewrite Hu1 in Hr.
      assert (mk_bitmap (sfs_freemap_bits (super s)) (sfs_freemap_blocks (super s) * 1024) (bmap (freemap s1)) = freemap s1) as ->; [|done].
      destruct Hr as [Hn _ Hnw _ _ _ _]. destruct (freemap s1) as [fn fw fb]. simpl in *. f_equal; [done|]. rewrite Hnw, Hbits.
      apply (Z.div_unique_pos _ _ _ 31); lia.
  - intros b Hbb Hnm. unfold meta_block in Hnm. rewrite He2 by (rewrite ?Hu1; lia). apply He1; [done|lia].
Qed.

Lemma sync_ok s F :
  vol_ok s F → cache_ok s → nodes_fit s → savable s → (super_dirty s = false → image (dev s) (super s) F) →
  ∃ s', sfs_sync s = Ok (0, s') ∧ vol_ok s' F ∧ super s' = super s ∧ super_dirty s' = false ∧ image (dev s') (super s) F ∧
    (∀ k, inodes s' !! k = flushed <$> inodes s !! k) ∧
    (∀ k x, inodes s !! k = Some x → unsaved x = true → disk_din s' (ino x) = din x) ∧
    same_except (λ b, meta_block s b ∨ ∃ k x, inodes s !! k = Some x ∧ ino x = b ∧ unsaved x = true) s s'.
Proof.
  intros Hv Hc Hfit Hsv Him. destruct Hc as (L & ns & hs & Hr & Hca & _). pose proof (ca_list _ _ _ _ Hca) as HL.
  pose proof (rep_nodup _ _ _ _ Hr HL) as Hnd%NoDup_fmap_1.
  assert (length ns < S (size (flinks s)))%nat as Hfuel.
  { pose proof (DList.rep_size _ _ _ _ Hr HL) as Hsz. rewrite length_fmap in Hsz. lia. }
  destruct (sync_loop F L ns ns s [] (S (size (flinks s)))) as (s1 & E1 & [Hv1 Hm1 Hin1 Hout1 Hd1 He1]);
    [done..|by intros k Hk; apply (ca_nodes _ _ _ _ Hca)|done|apply (ca_inj _ _ _ _ Hca)|].
  assert (super s1 = super s) as Hu1 by (apply (super_eq s s1 F Hv Hv1); apply Hm1).
  assert (∀ k, inodes s1 !! k = flushed <$> inodes s !! k) as Hnodes.
  { intros k. destruct (inodes s !! k) as [x|] eqn:Ek.
    - apply Hin1; [|done]. apply (ca_nodes _ _ _ _ Hca). by eexists.
    - rewrite Hout1; [done|]. rewrite (ca_nodes _ _ _ _ Hca), Ek. by intros [? ?]. }
  assert (∀ k x, inodes s !! k = Some x → k ∈ ns) as Hins by (intros k x Hk; apply (ca_nodes _ _ _ _ Hca); by eexists).
  assert (∀ k x b, inodes s !! k = Some x → ino x = b → ¬ meta_block s b) as Hnm.
  { intros k x b Hk <-. destruct (Hfit k x Hk) as (? & ? & _). unfold meta_block. lia. }
  pose proof (v_blocks _ _ Hv) as Hmax. destruct (freemap_sizes (super s)) as [Hnb _]; [destruct Hsv; lia|].
  assert (∀ b, meta_block s b → blk s1 b = blk s b) as Hmeta1.
  { intros b Hb. apply He1; [destruct Hsv, Hb; lia|]. intros (k & x & _ & Hk & Hx & _). by apply (Hnm k x b Hk Hx). }
  unfold sfs_sync. rewrite (bind_ok _ _ _ _ _ eq_refl). change (cursor InodeList (InodeLink <$> [])) with InodeList in E1.
  rewrite (bind_ok _ _ _ _ _ E1), (bind_ok _ _ _ _ _ eq_refl). destruct (super_dirty s1) eqn:Ed.
  - assert (savable s1) as Hsv1.
    { destruct Hsv. constructor; rewrite ?Hu1; try done. by rewrite (m_dblksize _ _ Hm1 : d_blocksize (dev s1) = _). }
    destruct (sync_meta s1 F Hv1 Hsv1) as (s2 & E2 & Hv2 & Hu2 & Hd2 & Hi2 & _ & Him2 & He2). rewrite Hu1 in *.
    exists s2. split; [exact E2|]. split_and!; [done|done|done|done|by rewrite Hi2| |].
    + intros k x Hk Hu. unfold disk_din. rewrite He2; [by apply (Hd1 k x (Hins k x Hk))|rewrite Hu1; destruct (Hfit k x Hk); lia|].
      intros Hb. apply (Hnm k x _ Hk eq_refl). unfold meta_block in *. by rewrite Hu1 in Hb.
    + intros b Hb Hn. rewrite He2; [apply He1; [done|]|by rewrite Hu1|].
      * intros (k & x & _ & Hx). apply Hn. right. by exists k, x.
      * intros Hb'. apply Hn. left. unfold meta_block in *. by rewrite Hu1 in Hb'.
  - assert (super_dirty s = false) as Hds.
    { destruct (super_dirty s) eqn:E; [|done]. pose proof (m_dirty _ _ Hm1 E) as Hx. simpl in Hx. congruence. }
    exists s1. split; [done|]. split_and!; [done|done|done| |done| |].
    + apply (image_kept s s1); [by apply Him|done|done|apply Hm1|apply Hm1|done].
    + intros k x Hk. by apply (Hd1 k x (Hins k x Hk)).
    + intros b Hb Hn. apply He1; [done|]. intros (k & x & _ & Hx). apply Hn. right. by exists k, x.
Qed.

(** C27.  Synchronising and mounting again.  [sfs_sync] succeeds: every dirty
    inode that has a name goes to its block, no inode is dirty afterwards, and
    the image of the file system is on the device.  A mount of that device finds
    the same superblock and the same free blocks, and on it each inode as it
    was in memory; no block changes but those of the superblock, the map and
    the inodes. *)
Theorem sfs_sync_mount_roundtrip s F :
  vol_ok s F → cache_ok s → nodes_fit s → savable s → (super_dirty s = false → image (dev s) (super s) F) →
  (∀ k x, inodes s !! k = Some x → dirty x = false → disk_din s (ino x) = din x) →
  ∃ s', sfs_sync s = Ok (0, s') ∧ super_dirty s' = false ∧ (∀ k, inodes s' !! k = flushed <$> inodes s !! k) ∧
    ∀ t, dev t = dev s' → length (sfs_buffer t) = 4096%nat → inodes t = ∅ →
      ∃ ret t', sfs_do_mount t = Ok (ret, t') ∧
        (ret = - E_NO_MEM ∧ (∃ q : nat, (q ≤ 4)%nat ∧ refused (drop q (oom t))) ∨
         ret = 0 ∧ super t' = super s ∧ vol_ok t' F ∧ cache_ok t' ∧ inodes t' = ∅ ∧
          (∀ k x, inodes s !! k = Some x → din_nlinks (din x) ≠ 0 → SFSInodeRemoved x = false → disk_din t' (ino x) = din x) ∧
          same_except (λ b, meta_block s b ∨ ∃ k x, inodes s !! k = Some x ∧ ino x = b) s t').
Proof.
  intros Hv Hc Hfit Hsv Him Hclean. destruct (sync_ok s F Hv Hc Hfit Hsv Him) as (s' & E & Hv' & Hu & Hd & Him' & Hnodes & Hdisk & He).
  exists s'. split_and!; [done|done|done|]. intros t Ht Hbuf Hno. rewrite <-Ht in Him'.
  pose proof (v_blocks _ _ Hv) as Hmax. destruct Him' as [Hw' Hrest].
  destruct (mount_image t (super s) F Hw' Hbuf) as (ret & t' & E' & Hcase); [lia|by constructor|done|].
  exists ret, t'. split; [done|]. destruct Hcase as [(-> & [Hut Hvt Hct Hnt _ Hbt])|Hx]; [right|by left].
  assert (∀ b, 0 ≤ b < blocks (super s) → blk t' b = blk s' b) as Hblk by (intros b Hb; rewrite Hbt by done; by rewrite Ht).
  split_and!; [done|done|done|done|done| |].
  - intros k x Hk Hnl Hrem. unfold disk_din. rewrite Hblk by (destruct (Hfit k x Hk); lia). destruct (unsaved x) eqn:Eu; [by apply (Hdisk k x)|].
    assert (dirty x = false) as Hdx.
    { unfold unsaved in Eu. rewrite (proj2 (Z.eqb_neq _ 0) Hnl), Hrem in Eu. cbn [negb andb] in Eu. by rewrite andb_true_r in Eu. }
    rewrite <-(Hclean k x Hk Hdx). unfold disk_din. rewrite He; [done|destruct (Hfit k x Hk); lia|].
    intros [Hm|(k' & x' & Hk' & Hx' & Hu')].
    + destruct (Hfit k x Hk) as (? & ? & _). unfold meta_block in Hm. lia.
    + destruct Hc as (L & ns & hs & _ & Hca & _). assert (k' = k) as -> by by apply (ca_inj _ _ _ _ Hca k' k x' x). congruence.
  - intros b Hb Hn. rewrite Hblk by done. apply He; [done|]. intros [Hm|(k & x & Hk & Hx & _)]; apply Hn; [by left|right; by exists k, x].
Qed.
End sync.
