(* ===== verification/SfsSim.v ===== *)
(** * Small volumes

    A RAM disk of eight blocks with one regular file of two blocks and two free
    blocks: the theorems on the disk driver and on files, applied to it.  Then a
    RAM disk of eleven blocks that is mounted, with a root directory, for the
    theorems on directories, inodes and mounts. *)

From S2P Require Import Prelude DList Mem Slab Bitmap Bytes Disk Sfs SfsVol SfsTree SfsMap SfsFile SfsIo SfsFileSpec SfsTrunc SfsDir SfsDirent SfsDirSpec SfsCache SfsReclaim SfsCreate SfsUnlink SfsMount SfsSync SfsLookup SfsLookupSpec.

(** ** The disk *)

Definition zblocks (k : nat) : list Z := replicate (k * 4096) 0.
Definition disk8 : disk0 :=
  mk_disk0 true 64 (zblocks 4 ++ replicate 4096 7 ++ [1; 2; 3; 4] ++ replicate 4092 9 ++ zblocks 2) 8 4096 (zblocks 4).

Lemma disk8_wf : disk0_wf disk8.
Proof. constructor; [done|done|by vm_compute..]. Qed.

Lemma disk0_io_correct_witness :
  wp (disk0_io (disk0_iob (zblocks 6) 100 2 5) false) disk8 (λ r d', r.1 = 0 ∧ disk0_wf d' ∧ rd_data d' = rd_data disk8 ∧
    io_mem r.2 = splice (zblocks 6) 100 (slice (rd_data disk8) 8192 20480)) ∧
  (let iob := iobuf_init (zblocks 6) 0 20480 16384 in disk0_io iob true disk8 = Ok ((- E_INVAL, iob), disk8)) ∧
  disk0_io (iobuf_init (zblocks 6) 0 4096 (- 4096)) false disk8 = Err Fault.
Proof.
  destruct (disk0_io_correct disk8 disk8_wf) as [Hio Hbad]. split; [|split].
  - exact (proj1 (Hio (zblocks 6) 100 2 5 ltac:(lia) ltac:(lia) ltac:(vm_compute; discriminate) ltac:(by vm_compute))).
  - exact (proj1 (Hbad (iobuf_init (zblocks 6) 0 20480 16384) true ltac:(simpl; lia) ltac:(simpl; lia))
      ltac:(right; right; left; vm_compute; intros Hf; by apply Hf)).
  - exact (proj2 (proj2 (Hbad (iobuf_init (zblocks 6) 0 4096 (- 4096)) false ltac:(simpl; lia) ltac:(simpl; lia)))
      eq_refl eq_refl ltac:(simpl; lia) ltac:(vm_compute; discriminate) ltac:(by vm_compute)).
Defined.

(** ** The file system *)

Definition din8 : sfs_disk_inode := mk_din 4100 1 SFS_TYPE_FILE 1 2 [4; 5; 0; 0; 0; 0; 0; 0; 0; 0; 0; 0] 0 0.
Definition sin8 : sfs_inode := mk_sin din8 3 0 false 1 sfs_node_fileops 1 1.
Definition freemap8 : bitmap := mk_bitmap 32768 1024 (192 :: replicate 1023 0).
Definition fs8 : sfs_fs disk0 :=
  mk_sfs (mk_super SFS_MAGIC 8 2 (replicate 32 0)) disk8 freemap8 false (zblocks 1) ∅ {[100 := sin8]} 101 [].
Definition F8 : gset Z := {[6; 7]}.
Definition T8 : tree := {[Data 0 := 4; Data 1 := 5]}.

Lemma below_cases (P : Z → Prop) (k : nat) : Forall P (Z.of_nat <$> seq 0 k) → ∀ i, 0 ≤ i < Z.of_nat k → P i.
Proof.
  intros Hf i Hi. rewrite Forall_forall in Hf. apply Hf, list_elem_of_fmap. exists (Z.to_nat i).
  split; [lia|]. apply elem_of_seq. lia.
Qed.

(** A map whose free blocks are in its first word. *)
Lemma first_word_rep w (F : gset Z) :
  0 ≤ w < 2 ^ 32 → (∀ i, i ∈ F → 0 ≤ i < 32) → (∀ i, 0 ≤ i < 32 → i ∈ F ↔ Z.testbit w i = true) →
  bitmap_rep (mk_bitmap 32768 1024 (w :: replicate 1023 0)) 32768 F.
Proof.
  intros Hw Hr Hb. constructor; [done|done|by vm_compute|by vm_compute| | |].
  - intros w' Hw'. apply elem_of_cons in Hw' as [->|Hw'%elem_of_replicate]; [done|]. by destruct Hw' as [-> _].
  - intros i Hi. cbn [bmap]. unfold bit, WORD_BITS. destruct (decide (i < 32)) as [Hlt|Hge].
    + rewrite Z.div_small, Z.mod_small by lia. by apply Hb.
    + split; [intros Hin; apply Hr in Hin; lia|]. assert (1 ≤ i / 32) by (apply Z.div_le_lower_bound; lia).
      destruct (Z.to_nat (i / 32)) as [|k] eqn:Ek; [lia|]. cbn [lookup list_lookup].
      change (list_lookup k (replicate 1023 0)) with (replicate 1023 0 !! k).
      destruct (replicate 1023 0 !! k) as [x|] eqn:Ew; [|done]. apply lookup_replicate_1 in Ew as [-> _].
      by rewrite Z.testbit_0_l.
  - intros i Hi. specialize (Hr i Hi). lia.
Qed.

Lemma freemap8_rep : bitmap_rep freemap8 32768 F8.
Proof.
  apply first_word_rep; [done|unfold F8; intros i; set_unfold; lia|].
  apply (below_cases (λ i, i ∈ F8 ↔ Z.testbit 192 i = true) 32), (bool_decide_unpack _). by vm_compute.
Qed.

Lemma fs8_vol : vol_ok fs8 F8.
Proof.
  constructor; [apply disk8_wf|done|by vm_compute|apply freemap8_rep|by vm_compute| |by vm_compute].
  unfold F8. intros b. set_unfold. simpl. lia.
Qed.

Lemma T8_lookup r b : T8 !! r = Some b ↔ r = Data 0 ∧ b = 4 ∨ r = Data 1 ∧ b = 5.
Proof. unfold T8. rewrite lookup_insert_Some, lookup_singleton_Some. naive_solver. Qed.

Lemma fs8_file : reg_ok fs8 F8 100 sin8 T8.
Proof.
  constructor; [|done|done|done|done]. constructor; [|intros i|done].
  - constructor; [apply fs8_vol|done| |constructor].
    + intros x [r Hr%T8_lookup]. unfold F8. set_unfold. simpl. destruct Hr as [[_ ->]|[_ ->]]; lia.
    + intros [i| | |k] j; cbn; [|intros [= <-] _; done..|done]. unfold MAX_BLOCKS.
      destruct (Z.ltb_spec i 12) as [Hlt|]; [|by destruct (i <? 1036)]. intros [= <-] Hi.
      apply (below_cases (λ i, root_ptr din8 i = default 0 (T8 !! Data i)) 12); [|lia].
      apply (bool_decide_unpack _). by vm_compute.
    + intros r p j e Hup Hv He. destruct (up_parent _ _ _ Hup Hv) as (_ & Hp & _). apply T8_lookup in He.
      exfalso. clear Hup Hv. destruct He as [[-> _]|[-> _]]; by eapply Hp.
    + intros r b Hb%T8_lookup. destruct Hb as [[-> _]|[-> _]]; (split; [done|]); intros p j; cbn; discriminate.
    + intros r1 r2 b H1%T8_lookup H2%T8_lookup. destruct H1 as [[-> ->]|[-> ->]], H2 as [[-> ?]|[-> ?]]; congruence.
    + done.
  - simpl. split.
    + intros [b Hb%T8_lookup]. destruct Hb as [[[= ->] _]|[[= ->] _]]; lia.
    + intros Hi. assert (i = 0 ∨ i = 1) as [-> | ->] by lia; [by exists 4|by exists 5].
Qed.

(** ** Reading and writing *)

(** A request for ten bytes at offset 4094, to or from the middle of a buffer. *)
Definition iob8 (offset : Z) : iobuf := mk_iobuf (replicate 20 1) 5 offset 10 10.
Lemma iob8_ok offset : 0 ≤ offset < 2 ^ 30 → iob_ok (iob8 offset).
Proof. intros. constructor; [done|simpl; lia|done]. Qed.

Lemma sfs_io_correct_witness :
  (∃ s', sfs_read 100 (iob8 4094) fs8 =
    Ok ((0, mk_iobuf (replicate 5 1 ++ [7; 7; 1; 2; 3; 4] ++ replicate 9 1) 11 4100 10 4), s')) ∧
  (∃ ret m s' F' sin' T', sfs_write 100 (iob8 4094) fs8 = Ok ((ret, advance (iob8 4094) (replicate 20 1) m), s') ∧
    wrote 100 fs8 F8 sin8 T8 (replicate 20 1) 5 4094 m s' F' sin' T' ∧ 0 ≤ m ≤ 10 ∧
    (ret = 0 ∧ m = 10 ∨ ret = - E_NO_MEM ∧ m < 10 ∧ (size F' ≤ 1)%nat)) ∧
  sfs_write 100 (iob8 20000) fs8 = Err Panic.
Proof.
  assert (sfs_write 100 (iob8 20000) fs8 = Err Panic) as Hp.
  { destruct (proj2 (proj2 (sfs_io_correct fs8 F8 100 sin8 T8 (iob8 20000) fs8_file (iob8_ok 20000 ltac:(lia))) eq_refl)
      ltac:(unfold io_invalid; simpl; change SFS_MAX_FILE_SIZE with (2 ^ 27); lia)) as (_ & _ & Hp).
    specialize (Hp ltac:(by vm_compute)). rewrite decide_False in Hp by (simpl; lia). rewrite decide_True in Hp by (by vm_compute). exact Hp. }
  destruct (proj2 (proj2 (sfs_io_correct fs8 F8 100 sin8 T8 (iob8 4094) fs8_file (iob8_ok 4094 ltac:(lia))) eq_refl)
    ltac:(unfold io_invalid; simpl; change SFS_MAX_FILE_SIZE with (2 ^ 27); lia)) as (Hr & Hw & _). split; [|split; [|exact Hp]].
  - destruct Hr as (s' & E & _). exists s'. rewrite E. do 2 f_equal.
  - exact (Hw ltac:(simpl; lia)).
Defined.

Lemma sfs_write_past_end_witness : sfs_write 100 (iob8 20000) fs8 = Err Panic.
Proof.
  exact (sfs_write_past_end_panics fs8 F8 100 sin8 T8 (iob8 20000) fs8_file (iob8_ok 20000 ltac:(lia)) eq_refl
    ltac:(simpl; change SFS_MAX_FILE_SIZE with (2 ^ 27); lia) ltac:(simpl; lia) ltac:(simpl; lia) ltac:(by vm_compute)).
Defined.

(** ** Truncating *)

Lemma sfs_truncfile_correct_witness :
  ∃ ret s' F' sin' T', sfs_truncfile 100 3 fs8 = Ok (ret, s') ∧ resized 100 fs8 F8 sin8 T8 s' F' sin' T' ∧
    (ret = 0 → file_bytes s' sin' T' = [7; 7; 7] ∧ 5 ∈ F' ∧ 4 ∉ F').
Proof.
  destruct (proj2 (proj2 (proj2 (sfs_truncfile_correct fs8 F8 100 sin8 T8 3 fs8_file)) ltac:(by vm_compute) ltac:(done)) eq_refl)
    as (ret & s' & F' & sin' & T' & E & Hr & Hb).
  exists ret, s', F', sin', T'. split; [exact E|]. split; [exact Hr|]. intros ->.
  destruct Hb as [(_ & _ & _ & -> & Hg)|[? _]]; [|discriminate]. split; [by vm_compute|].
  rewrite decide_True in Hg by (by vm_compute). destruct Hg as [Hg _]. split.
  - apply Hg. right. exists 1. split; [by vm_compute|reflexivity].
  - intros H4. apply Hg in H4 as [H4|(i & Hi & Ei)]; [by vm_compute in H4|].
    apply T8_lookup in Ei as [[Ei _]|[_ ?]]; [|discriminate]. injection Ei as ->. by vm_compute in Hi.
Defined.

Definition full8 : sfs_fs disk0 := run_state (sfs_truncfile 100 20000) fs8.

Lemma sfs_failed_extension_witness :
  sfs_truncfile 100 20000 fs8 = Ok (- E_NO_MEM, full8) ∧ sfs_truncfile 100 4100 full8 = Err Panic.
Proof.
  assert (sfs_truncfile 100 20000 fs8 = Ok (- E_NO_MEM, full8)) as E by by_run. split; [exact E|].
  destruct (inodes full8 !! 100) as [sin'|] eqn:Hn; [|exfalso; revert Hn; by vm_compute].
  assert (din_size (din sin') = 4100 ∧ din_blocks (din sin') = 4) as [Hs Hb].
  { assert ((λ s, (din_size (din s), din_blocks (din s))) <$> inodes full8 !! 100 = Some (4100, 4)) as Hx by by vm_compute.
    rewrite Hn in Hx. injection Hx as Hs Hb. exact (conj Hs Hb). }
  rewrite <-Hs.
  exact (sfs_failed_extension_panics fs8 F8 100 sin8 T8 20000 full8 sin' fs8_file eq_refl ltac:(by vm_compute)
    ltac:(clear; change SFS_MAX_FILE_SIZE with (2 ^ 27); lia) E Hn ltac:(rewrite Hb; clear; discriminate)).
Defined.

(** * Directories on a RAM disk *)

(** ** The image *)

Definition pad (bs : list Z) : list Z := bs ++ replicate (4096 - length bs) 0.
Definition super11 : sfs_super := mk_super SFS_MAGIC 11 3 (replicate 32 0).
Definition din_root : sfs_disk_inode := mk_din 1 1 SFS_TYPE_DIR 2 1 (4 :: replicate 11 0) 0 0.
Definition din_a : sfs_disk_inode := mk_din 4096 0 SFS_TYPE_FILE 1 1 (5 :: replicate 11 0) 0 0.
Definition words11 : list Z := 896 :: replicate 1023 0.
Definition name_a : list Z := [97].
Definition name_b : list Z := [98].

Definition disk11 : disk0 :=
  mk_disk0 true 88 (pad (super_bytes super11) ++ pad (din_bytes din_root) ++ words_bytes words11 ++ pad (din_bytes din_a) ++
    pad (entry_bytes (new_entry 3 name_a)) ++ replicate 4096 7 ++ zblocks 5) 11 4096 (zblocks 4).

Lemma disk11_wf : disk0_wf disk11.
Proof. constructor; [done|done|by vm_compute..]. Qed.

Definition F11 : gset Z := {[7; 8; 9]}.

Lemma F11_in i : i ∈ F11 ↔ i = 7 ∨ i = 8 ∨ i = 9.
Proof. unfold F11. set_unfold. tauto. Qed.

Lemma words11_rep : bitmap_rep (mk_bitmap 32768 1024 words11) 32768 F11.
Proof.
  apply first_word_rep; [done|unfold F11; intros i; set_unfold; lia|].
  apply (below_cases (λ i, i ∈ F11 ↔ Z.testbit 896 i = true) 32), (bool_decide_unpack _). by vm_compute.
Qed.

Lemma disk11_image : image disk11 super11 F11.
Proof.
  constructor; [exact disk11_wf|done|simpl; lia|simpl; lia|change (sfs_freemap_blocks super11) with 1; simpl; lia|done|done|by vm_compute|by vm_compute| |].
  - unfold F11. intros b. set_unfold. simpl. lia.
  - exists words11. split; [exact words11_rep|]. intros i Hi. assert (i = 0) as -> by (change (sfs_freemap_blocks super11) with 1 in Hi; lia).
    by vm_compute.
Qed.

(** ** The file system in memory *)

Lemma run_state_ok {S A} (m : M S A) s a s' : m s = Ok (a, s') → run_state m s = s'.
Proof. unfold run_state. by intros ->. Qed.
Lemma run_result_ok {S A} (m : M S A) s a s' : m s = Ok (a, s') → run_result m s = Some a.
Proof. unfold run_result. by intros ->. Qed.


Definition blank11 : sfs_fs disk0 := mk_sfs (mk_super 0 0 0 []) disk11 (mk_bitmap 0 0 []) true (zblocks 1) ∅ ∅ 100 [].

Lemma never_refused q : ¬ refused (drop q []).
Proof. by destruct q. Qed.

(** Mounted, with memory for all that follows. *)
Definition fs11 : sfs_fs disk0 := set_oom (run_state sfs_do_mount blank11) [].

Lemma fs11_mounted : mounted disk11 fs11 super11 F11.
Proof.
  destruct (mount_image blank11 super11 F11) as (ret & s' & E & [(-> & [Hu Hv Hc Hn Hd Hb])|(_ & q & _ & Hx)]);
    [exact disk11_wf|by vm_compute|simpl; lia|exact disk11_image|done| |by destruct (never_refused q)].
  unfold fs11. rewrite (run_state_ok _ _ _ _ E). clear E. constructor; [exact Hu|by destruct Hv| |exact Hn|exact Hd|exact Hb].
  by apply (cache_same s').
Qed.

Lemma fs11_empty : inodes fs11 = ∅.
Proof. exact (mt_nodes _ _ _ _ fs11_mounted). Qed.
Lemma fs11_oom : oom fs11 = [].
Proof. reflexivity. Qed.
#[local] Opaque fs11.

(** Loading an inode when there is memory. *)
Definition loaded (i : Z) (s : sfs_fs disk0) : sfs_fs disk0 := run_state (sfs_load_inode i) s.
Definition address (i : Z) (s : sfs_fs disk0) : Z :=
  match run_result (sfs_load_inode i) s with Some (_, n) => n | None => 0 end.

Lemma loaded_ok s F i :
  vol_ok s F → cache_ok s → oom s = [] → 0 < i < blocks (super s) → i ∉ F → (∀ k x, inodes s !! k = Some x → ino x ≠ i) →
  din_nlinks (disk_din s i) ≠ 0 → type_ok (din_type (disk_din s i)) →
  vol_ok (loaded i s) F ∧ cache_ok (loaded i s) ∧ oom (loaded i s) = [] ∧ vol_same s (loaded i s) ∧ inodes s !! address i s = None ∧
  inodes (loaded i s) = <[address i s := fresh_sin (disk_din s i) i]> (inodes s) ∧
  (∀ b, 0 ≤ b < blocks (super s) → blk (loaded i s) b = blk s b).
Proof.
  intros Hv Hc Ho Hi Hif Hno Hnl Hty.
  destruct (load_inode_ok s F i) as (ret & n & s' & E & Hv' & Hc' & Hb & Hcase); [done..|].
  destruct Hcase as [(_ & x & Hx & Hxi & _)|(_ & Hs & [(-> & Hn & Hi' & Ho')|(_ & _ & Hr)])]; [by destruct (Hno n x)| |by rewrite Ho in Hr; destruct Hr].
  unfold loaded, address. rewrite (run_state_ok _ _ _ _ E), (run_result_ok _ _ _ _ E). clear E. split_and!; [done|done|by rewrite Ho', Ho|done|done|done|].
  intros b Hbb. destruct (Hb b) as [?|Hn']; [assumption|destruct (Hn' Hbb)].
Qed.

(** The root directory, and then the file. *)
Definition root11 : sfs_fs disk0 := loaded 1 fs11.
Definition root_n : Z := address 1 fs11.
Definition sin_root : sfs_inode := fresh_sin din_root 1.
Definition file11 : sfs_fs disk0 := loaded 3 root11.
Definition file_n : Z := address 3 root11.
Definition sin_a : sfs_inode := fresh_sin din_a 3.

Lemma fs11_din i : 0 ≤ i < 11 → disk_din fs11 i = din_of_bytes (slice (dblock disk11 i) 0 sizeof_din).
Proof. intros Hi. unfold disk_din. by rewrite (mt_blocks _ _ _ _ fs11_mounted) by exact Hi. Qed.

Record live (s : sfs_fs disk0) : Prop := {
  lv_vol : vol_ok s F11;
  lv_cache : cache_ok s;
  lv_oom : oom s = [];
  lv_blocks : blocks (super s) = 11;
  lv_disk b : 0 ≤ b < 11 → blk s b = dblock disk11 b;
  lv_same : vol_same fs11 s;
}.

Lemma fs11_live : live fs11.
Proof.
  destruct fs11_mounted as [Hu Hv Hc Hn Hd Hb]. constructor; [exact Hv|exact Hc|exact fs11_oom|by rewrite Hu|exact Hb|reflexivity].
Qed.

Lemma load_live s i d : live s → 0 < i < 11 → i ∉ F11 → (∀ k x, inodes s !! k = Some x → ino x ≠ i) →
  din_of_bytes (slice (dblock disk11 i) 0 sizeof_din) = d → din_nlinks d ≠ 0 → type_ok (din_type d) →
  live (loaded i s) ∧ inodes s !! address i s = None ∧ inodes (loaded i s) = <[address i s := fresh_sin d i]> (inodes s).
Proof.
  intros [Hv Hc Ho Hbl Hb Hs] Hi Hif Hno Hd Hnl Hty. assert (disk_din s i = d) as Hdd by (unfold disk_din; rewrite Hb by lia; done).
  destruct (loaded_ok s F11 i) as (Hv' & Hc' & Ho' & Hs' & Hn & Hi' & Hb'); [done|done|done|by rewrite Hbl|done|done|by rewrite Hdd|by rewrite Hdd|].
  rewrite Hdd in Hi'. split_and!; [|done|done]. constructor; [done|done|done|by rewrite (vs_blocks _ _ Hs')| |by etrans].
  intros b Hbb. rewrite Hb' by by rewrite Hbl. by apply Hb.
Qed.

Lemma root11_live : live root11 ∧ inodes root11 = {[root_n := sin_root]}.
Proof.
  destruct (load_live fs11 1 din_root fs11_live) as (Hl & _ & Hi);
    [lia|rewrite F11_in; lia| |by vm_compute|done|by left|].
  { intros k x. rewrite fs11_empty, lookup_empty. discriminate. }
  split; [exact Hl|]. unfold root11, root_n. rewrite Hi, fs11_empty. reflexivity.
Qed.
#[local] Opaque root11 root_n.

Lemma file11_live : live file11 ∧ inodes file11 = {[file_n := sin_a; root_n := sin_root]} ∧ file_n ≠ root_n.
Proof.
  destruct root11_live as [Hl Hi].
  destruct (load_live root11 3 din_a Hl) as (Hl' & Hn & Hi');
    [lia|rewrite F11_in; lia| |by vm_compute|done|by right|].
  { intros k x. rewrite Hi. intros [_ <-]%lookup_singleton_Some. done. }
  split; [exact Hl'|]. unfold file11, file_n. rewrite Hi', Hi. split; [reflexivity|]. intros Heq. rewrite Hi in Hn.
  apply lookup_singleton_None in Hn. exact (Hn (eq_sym Heq)).
Qed.
#[local] Opaque file11 file_n.

(** ** The directory and the file *)

Lemma one_block s n sin b :
  live s → inodes s !! n = Some sin → 0 < b < 11 → b ∉ F11 → direct (din sin) = b :: replicate 11 0 → indirect (din sin) = 0 →
  db_indirect (din sin) = 0 → din_blocks (din sin) = 1 → file_ok s F11 n sin {[Data 0 := b]}.
Proof.
  intros Hl Hn Hb Hbf Hd Hi Hdb Hbl. constructor; [constructor; [apply Hl|done| |constructor]| |rewrite Hbl; unfold MAX_BLOCKS; lia].
  - intros x [r [_ <-]%lookup_singleton_Some]. by rewrite (lv_blocks _ Hl).
  - intros r j Hup Hv. destruct (up_range _ _ _ Hup Hv) as [Hj _]. unfold root_ptr. rewrite Hd, Hi, Hdb.
    destruct (decide (r = Data 0)) as [->|Hne].
    + cbn in Hup. injection Hup as <-. rewrite lookup_singleton_eq. done.
    + rewrite lookup_singleton_ne by done. destruct r as [i| | |k]; [|by injection Hup as <-..|done]. cbn in Hup.
      destruct (Z.ltb_spec i 12) as [Hlt|]; [|by destruct (i <? 1036)]. injection Hup as <-. rewrite (proj2 (Z.ltb_lt i 12)) by lia.
      assert (i ≠ 0) as Hi0 by (intros ->; done). destruct Hv as [Hv _]. destruct (Z.to_nat i) as [|k] eqn:Ek; [lia|]. cbn [lookup list_lookup].
      change (list_lookup k (replicate 11 0)) with (replicate 11 0 !! k).
      destruct (replicate 11 0 !! k) as [w|] eqn:Ew; [|done]. by apply lookup_replicate_1 in Ew as [-> _].
  - intros r p j e Hup Hv [<- <-]%lookup_singleton_Some. by destruct (up_parent _ _ _ Hup Hv) as (_ & Hp & _); destruct (Hp 0).
  - intros r x [<- <-]%lookup_singleton_Some. split; [done|]. intros p j. cbn. discriminate.
  - intros r1 r2 x [<- _]%lookup_singleton_Some [<- _]%lookup_singleton_Some. done.
  - by rewrite Hd.
  - intros i. rewrite Hbl. destruct (decide (i = 0)) as [->|Hne]; [rewrite lookup_singleton_eq; split; [lia|by eexists]|].
    rewrite lookup_singleton_ne by congruence. split; [by intros [? ?]|lia].
Qed.

Lemma one_content s n sin b : live s → file_ok s F11 n sin {[Data 0 := b]} → din_blocks (din sin) = 1 → 0 < b < 11 →
  file_content s sin {[Data 0 := b]} = dblock disk11 b.
Proof. intros Hl _ Hbl Hb. unfold file_content. rewrite Hbl. apply (lv_disk _ Hl). lia. Qed.

Definition T_root : tree := {[Data 0 := 4]}.
Definition T_a : tree := {[Data 0 := 5]}.
Definition names11 : gmap (list Z) Z := {[name_a := 3]}.

Lemma block4_rep : dir_rep (dblock disk11 4) names11.
Proof.
  assert (len (dblock disk11 4) = 4096) as Hl by by vm_compute. assert (nslots (dblock disk11 4) = 1) as Hn by by vm_compute.
  assert (slot_entry (dblock disk11 4) 0 = (3, name_a)) as He by by vm_compute.
  constructor; rewrite ?Hn.
  - by rewrite Hl.
  - intros i Hi _. assert (i = 0) as -> by lia. by rewrite He.
  - intros name i. unfold names11. intros [<- <-]%lookup_singleton_Some. split; [done|]. exists 0. split; [lia|exact He].
  - lia.
Qed.

Lemma names11_some name i : names11 !! name = Some i → name = name_a ∧ i = 3.
Proof. unfold names11. by intros [<- <-]%lookup_singleton_Some. Qed.

Lemma file11_nodes : inodes file11 !! root_n = Some sin_root ∧ inodes file11 !! file_n = Some sin_a ∧
  ∀ k x, inodes file11 !! k = Some x → (k = root_n ∧ x = sin_root) ∨ (k = file_n ∧ x = sin_a).
Proof.
  destruct file11_live as (_ & Hi & Hne). rewrite Hi. split_and!.
  - rewrite lookup_insert_ne by exact Hne. apply lookup_singleton_eq.
  - apply lookup_insert_eq.
  - intros k x Hk. apply lookup_insert_Some in Hk as [[H1 H2]|[_ Hk]]; [right; split; symmetry; assumption|].
    apply lookup_singleton_Some in Hk as [H1 H2]. left. split; symmetry; assumption.
Qed.

Lemma root11_dir : dir_ok file11 F11 root_n sin_root T_root names11.
Proof.
  destruct file11_live as (Hl & _). destruct file11_nodes as (Hr & _).
  assert (file_ok file11 F11 root_n sin_root T_root) as Hf by (apply one_block; [exact Hl|exact Hr|lia|rewrite F11_in; lia|reflexivity..]).
  constructor; [exact Hf|reflexivity| |by vm_compute].
  unfold T_root in *. rewrite (one_content file11 root_n) by (first [exact Hl|exact Hf|reflexivity|lia]). exact block4_rep.
Qed.

Lemma a11_file : file_ok file11 F11 file_n sin_a T_a.
Proof.
  destruct file11_live as (Hl & _). destruct file11_nodes as (_ & Hf & _).
  apply one_block; [exact Hl|exact Hf|lia|rewrite F11_in; lia|reflexivity..].
Qed.

Lemma names_nul name : name = name_a ∨ name = name_b → Forall (λ c, c ≠ 0) name.
Proof. intros [-> | ->]; by repeat constructor. Qed.

(** ** The theorems on this file system *)

Lemma sfs_link_witness :
  ∃ ret s' F' sin' T', sfs_link root_n name_b file_n file11 = Ok (ret, s') ∧
    dmove (λ k, k = root_n ∨ k = file_n) root_n file11 F11 sin_root T_root s' F' sin' T' ∧
    ((ret = 0 ∧ names11 !! name_b = None ∧ dir_ok s' F' root_n sin' T' (<[name_b := 3]> names11) ∧ inodes s' !! file_n = Some (linked sin_a)) ∨
     (dir_ok s' F' root_n sin' T' names11 ∧ inodes s' !! file_n = Some sin_a ∧
      (ret = - E_EXISTS ∧ is_Some (names11 !! name_b) ∨
       ret = - E_NO_MEM ∧ (head (oom file11) = Some false ∨ head (tail (oom file11)) = Some false ∨ (size F' ≤ 1)%nat)))).
Proof.
  destruct file11_live as (_ & _ & Hne). destruct file11_nodes as (_ & Hf & _).
  destruct (sfs_link_correct file11 F11 root_n sin_root T_root names11 file_n sin_a name_b root11_dir Hne Hf
    ltac:(split; reflexivity) (names_nul name_b (or_intror eq_refl)) ltac:(reflexivity)) as (_ & _ & Hok).
  destruct (Hok ltac:(discriminate) ltac:(discriminate) ltac:(discriminate)) as (_ & _ & H).
  exact (H ltac:(discriminate) eq_refl).
Defined.

Lemma sfs_rename_witness :
  sfs_rename root_n name_a root_n name_a file11 = Ok (0, file11) ∧
  ∃ ret s' F' sin' T', sfs_rename root_n name_a root_n name_b file11 = Ok (ret, s') ∧
    dmove (λ k, k = root_n) root_n file11 F11 sin_root T_root s' F' sin' T' ∧
    (ret = 0 → dir_ok s' F' root_n sin' T' {[name_b := 3]}).
Proof.
  assert (∀ name i, names11 !! name = Some i → 0 ≤ i < 2 ^ 32) as Hrange.
  { intros name i Hx. apply names11_some in Hx as [_ ->]. split; [discriminate|reflexivity]. }
  split.
  - destruct (sfs_rename_correct file11 F11 root_n sin_root T_root names11 name_a name_a root11_dir (names_nul name_a (or_introl eq_refl)) Hrange) as (_ & H).
    destruct (H ltac:(discriminate) ltac:(discriminate)) as (_ & _ & H1).
    destruct (H1 ltac:(discriminate) ltac:(discriminate) ltac:(discriminate) ltac:(discriminate)) as (_ & H2 & _). exact (H2 eq_refl eq_refl).
  - destruct (sfs_rename_correct file11 F11 root_n sin_root T_root names11 name_a name_b root11_dir (names_nul name_b (or_intror eq_refl)) Hrange) as (_ & H).
    destruct (H ltac:(discriminate) ltac:(discriminate)) as (_ & _ & H1).
    destruct (H1 ltac:(discriminate) ltac:(discriminate) ltac:(discriminate) ltac:(discriminate)) as (_ & _ & H2).
    destruct (H2 eq_refl ltac:(discriminate)) as (ret & s' & F' & sin' & T' & E & Hm & Hcase).
    exists ret, s', F', sin', T'. split; [exact E|]. split; [exact Hm|]. clear E Hm. intros ->.
    destruct Hcase as [(_ & i & Hi & _ & Hd)|(_ & [[Hx _]|[[Hx _]|[Hx _]]])]; [|discriminate..].
    apply names11_some in Hi as [_ ->]. exact Hd.
Defined.

Lemma file11_cached : cached file11 F11.
Proof.
  destruct file11_live as (Hl & _). destruct file11_nodes as (_ & _ & Hn). constructor; [apply Hl|].
  intros k x Hk. rewrite (lv_blocks _ Hl). destruct (Hn k x Hk) as [[_ ->]|[_ ->]]; cbn [ino sin_root sin_a fresh_sin ref_count reclaim_count open_count];
    (split; [lia|]; split; [rewrite F11_in; lia|]; split; [lia|]; split; [reflexivity|lia]).
Qed.

Lemma a11_named : named file11 F11 3 din_a.
Proof.
  destruct file11_live as (Hl & _). destruct file11_nodes as (_ & Hf & _).
  constructor; [|rewrite (lv_blocks _ Hl); lia|rewrite F11_in; lia|discriminate|by right].
  left. exists file_n, sin_a. split; [exact Hf|]. split; [reflexivity|]. split; [reflexivity|]. reflexivity.
Qed.

Lemma sfs_create_witness :
  ∃ ret lnk s' F' sin' T', sfs_create root_n name_b true file11 = Ok ((ret, lnk), s') ∧ dir_moved file11 F11 sin_root T_root s' F' sin' T' ∧
    create_result file11 F11 root_n T_root names11 name_b true ret lnk s' F' sin' T'.
Proof.
  assert (∀ i, names11 !! name_b = Some i → i ≠ ino sin_root ∧ ∃ d, named file11 F11 i d) as Hb.
  { intros i Hx. apply names11_some in Hx as [Hx _]. discriminate Hx. }
  destruct (sfs_create_correct file11 F11 root_n sin_root T_root names11 name_b true root11_dir file11_cached (names_nul name_b (or_intror eq_refl))
    ltac:(reflexivity) Hb) as (_ & _ & H). destruct (H ltac:(discriminate) ltac:(discriminate) ltac:(discriminate)) as [_ H1]. exact (H1 eq_refl).
Defined.

Lemma sfs_mkdir_witness :
  ∃ ret s' F' sin' T', sfs_mkdir root_n name_b file11 = Ok (ret, s') ∧ dir_moved file11 F11 sin_root T_root s' F' sin' T' ∧
    (∀ k, k ≠ root_n → inodes s' !! k = inodes file11 !! k) ∧
    mkdir_result file11 F11 root_n sin_root T_root names11 name_b ret s' F' sin' T'.
Proof.
  destruct (sfs_mkdir_correct file11 F11 root_n sin_root T_root names11 name_b root11_dir file11_cached (names_nul name_b (or_intror eq_refl))
    ltac:(reflexivity)) as (_ & _ & H). destruct (H ltac:(discriminate) ltac:(discriminate) ltac:(discriminate)) as [_ H1]. exact (H1 eq_refl).
Defined.

Lemma in_one b x : in_tree {[Data 0 := b]} x → x = b.
Proof. intros [r Hr]. apply lookup_singleton_Some in Hr as [_ Hr]. symmetry. exact Hr. Qed.

Lemma din_a_wf : din_wf din_a.
Proof.
  constructor; [split; [discriminate|reflexivity]..| |reflexivity|split; [discriminate|reflexivity]|split; [discriminate|reflexivity]].
  apply (bool_decide_unpack _). by vm_compute.
Qed.
Lemma din_root_wf : din_wf din_root.
Proof.
  constructor; [split; [discriminate|reflexivity]..| |reflexivity|split; [discriminate|reflexivity]|split; [discriminate|reflexivity]].
  apply (bool_decide_unpack _). by vm_compute.
Qed.

Lemma a11_target : target file11 F11 T_root 3 din_a T_a.
Proof.
  destruct a11_file as [[_ _ Hin Ht] Hd Hb]. destruct file11_nodes as (_ & _ & Hn).
  constructor; [exact a11_named|exact Hin|exact Ht|exact Hd|exact Hb|exact din_a_wf| | | | |discriminate].
  - split; intros Hx; apply in_one in Hx; discriminate Hx.
  - intros b Hx Hy. apply in_one in Hx, Hy. rewrite Hx in Hy. discriminate Hy.
  - intros k x Hk Hx. apply in_one in Hx. destruct (Hn k x Hk) as [[_ Hy]|[_ Hy]]; rewrite Hy in Hx; discriminate Hx.
  - intros k x Hk _. destruct (Hn k x Hk) as [[_ Hy]|[_ Hy]]; rewrite Hy; reflexivity.
Qed.

Lemma sfs_unlink_witness :
  sfs_unlink root_n DOT file11 = Ok (- E_ISDIR, file11) ∧
  ∃ ret s' F' sin' T', sfs_unlink root_n name_a file11 = Ok (ret, s') ∧ cached s' F' ∧ refs_same sin_root sin' ∧
    unlink_result file11 F11 root_n sin_root T_root names11 name_a ret s' F' sin' T'.
Proof.
  assert (∀ name i, names11 !! name = Some i → i ≠ ino sin_root ∧ ∃ d Tl, target file11 F11 T_root i d Tl ∧
    (din_type d = SFS_TYPE_DIR → din_nlinks (din sin_root) ≠ 0)) as Ha.
  { intros name i Hx. apply names11_some in Hx as [_ ->]. split; [discriminate|]. exists din_a, T_a. split; [exact a11_target|discriminate]. }
  split.
  - destruct (sfs_unlink_correct file11 F11 root_n sin_root T_root names11 DOT root11_dir file11_cached (Ha DOT)) as (_ & H & _).
    exact (H (or_introl eq_refl)).
  - destruct (sfs_unlink_correct file11 F11 root_n sin_root T_root names11 name_a root11_dir file11_cached (Ha name_a)) as (_ & _ & H).
    destruct (H ltac:(discriminate) ltac:(discriminate) ltac:(discriminate)) as [_ H1]. exact (H1 eq_refl).
Defined.

(** The file without a link. *)
Definition sin_gone : sfs_inode := sin_a <| din := din_a <| din_nlinks := 0 |> |>.
Definition gone11 : sfs_fs disk0 := set_sin file11 file_n sin_gone.

Lemma set_sin_super {D} (s : sfs_fs D) n x : super (set_sin s n x) = super s.
Proof. reflexivity. Qed.

Lemma a11_last : last_ref file11 sin_a.
Proof.
  destruct file11_live as (Hl & _). constructor; [reflexivity..|]. rewrite (lv_blocks _ Hl). split; reflexivity.
Qed.

Lemma sfs_reclaim_witness :
  ∃ s' F', inode_ref_dec file_n gone11 = Ok (0, s') ∧ vol_ok s' F' ∧ cache_ok s' ∧ inodes s' = delete file_n (inodes gone11) ∧
    (∀ x, x ∈ F' ↔ x ∈ F11 ∨ x = 3 ∨ in_tree T_a x) ∧ same_except (in_tree T_a) gone11 s'.
Proof.
  destruct file11_live as (Hl & _). destruct file11_nodes as (_ & Hf & _).
  destruct (file_set file11 F11 file_n sin_a T_a sin_gone a11_file eq_refl eq_refl eq_refl eq_refl) as [Hg _].
  assert (last_ref gone11 sin_gone) as Hlast by (constructor; [reflexivity..|]; unfold gone11; rewrite set_sin_super, (lv_blocks _ Hl); split; reflexivity).
  exact (sfs_reclaim_correct gone11 F11 file_n sin_gone T_a Hg (cache_set file11 file_n sin_a sin_gone (lv_cache _ Hl) Hf eq_refl) Hlast
    ltac:(rewrite F11_in; intros [?|[?|?]]; discriminate) ltac:(intros Hx; apply in_one in Hx; discriminate Hx) eq_refl).
Defined.

Lemma a11_disk i n d : inodes file11 !! n = Some (fresh_sin d i) → 0 ≤ i < 11 →
  din_of_bytes (slice (dblock disk11 i) 0 sizeof_din) = d → disk_din file11 i = d.
Proof. intros _ Hi Hd. destruct file11_live as (Hl & _). unfold disk_din. rewrite (lv_disk _ Hl i Hi). exact Hd. Qed.

Lemma sfs_inode_roundtrip_witness :
  ∃ s1 ret n' s2, inode_ref_dec file_n file11 = Ok (0, s1) ∧ inodes s1 = delete file_n (inodes file11) ∧
    same_except (λ x, x = 3) file11 s1 ∧ sfs_load_inode 3 s1 = Ok ((ret, n'), s2) ∧ cache_ok s2 ∧
    ((ret = 0 ∧ file_ok s2 F11 n' sin_a T_a ∧ file_content s2 sin_a T_a = file_content file11 sin_a T_a) ∨
     (ret = - E_NO_MEM ∧ (refused (oom file11) ∨ refused (tail (oom file11))))).
Proof.
  destruct file11_live as (Hl & _). destruct file11_nodes as (_ & Hf & _).
  exact (sfs_inode_roundtrip file11 F11 file_n sin_a T_a a11_file (lv_cache _ Hl) a11_last
    ltac:(rewrite F11_in; intros [?|[?|?]]; discriminate) ltac:(intros Hx; apply in_one in Hx; discriminate Hx) ltac:(discriminate)
    eq_refl din_a_wf ltac:(right; reflexivity) (λ _, a11_disk 3 file_n din_a Hf ltac:(lia) ltac:(by vm_compute))).
Defined.

(** ** Mounting and synchronising *)

Definition blank8 : sfs_fs disk0 := mk_sfs (mk_super 0 0 0 []) disk8 (mk_bitmap 0 0 []) true (zblocks 1) ∅ ∅ 100 [].

Lemma sfs_do_mount_witness :
  (∃ s', sfs_do_mount blank11 = Ok (0, s') ∧ mounted disk11 s' super11 F11) ∧
  ∃ s', sfs_do_mount blank8 = Ok (- E_INVAL, s').
Proof.
  split.
  - destruct (sfs_do_mount_correct blank11) as (_ & _ & H); [exact disk11_wf|by vm_compute|reflexivity|].
    destruct (H super11 F11 disk11_image eq_refl) as (ret & s' & E & [[-> Hm]|(_ & q & _ & Hx)]); [exists s'; split; [exact E|exact Hm]|].
    destruct (never_refused q Hx).
  - destruct (sfs_do_mount_correct blank8) as (_ & H & _); [exact disk8_wf|by vm_compute|reflexivity|].
    destruct (H eq_refl ltac:(left; by vm_compute)) as (ret & s' & E & [->|(_ & Hx)]); [exists s'; exact E|].
    destruct Hx as [Hx|Hx]; discriminate Hx.
Defined.

Lemma file11_super : super file11 = super11.
Proof.
  destruct file11_live as (Hl & _). pose proof (lv_same _ Hl) as Hs. pose proof (mt_super _ _ _ _ fs11_mounted) as Hu.
  rewrite (super_eq fs11 file11 F11 (mt_vol _ _ _ _ fs11_mounted) (lv_vol _ Hl) (vs_blocks _ _ Hs) (vs_magic _ _ Hs) (vs_info _ _ Hs)). exact Hu.
Qed.

Lemma file11_savable : savable file11.
Proof.
  destruct file11_live as (Hl & _). constructor; rewrite ?file11_super; [|discriminate|by vm_compute|reflexivity|split; reflexivity].
  exact (dw_blksize _ (v_dev _ _ (lv_vol _ Hl))).
Qed.

Lemma file11_image : image (dev file11) (super file11) F11.
Proof.
  destruct file11_live as (Hl & _). rewrite file11_super. pose proof disk11_image as [_ _ Hb _ Hm Hg Hi Hs Hc Hr (ws & Hw & Hd)].
  assert (∀ b, 0 ≤ b < 11 → dblock (dev file11) b = dblock disk11 b) as He by exact (lv_disk _ Hl).
  constructor; [apply (lv_vol _ Hl)|exact (sv_size _ file11_savable)|exact Hb| |exact Hm|exact Hg|exact Hi| |exact Hc|exact Hr|].
  - pose proof (v_device _ _ (lv_vol _ Hl)) as Hx. rewrite file11_super in Hx. exact Hx.
  - rewrite He by lia. exact Hs.
  - exists ws. split; [exact Hw|]. intros i Hi'. rewrite He; [exact (Hd i Hi')|]. change (sfs_freemap_blocks super11) with 1 in Hi'. lia.
Qed.

Lemma file11_fit : nodes_fit file11.
Proof.
  intros k x Hk. destruct file11_nodes as (_ & _ & Hn). rewrite file11_super. change (sfs_freemap_blocks super11) with 1.
  change (blocks super11) with 11. unfold MAX_INODE_COUNT. destruct (Hn k x Hk) as [[_ ->]|[_ ->]]; cbn [ino sin_root sin_a fresh_sin ref_count open_count din];
    (split; [lia|]; split; [lia|]; split; [lia|]; split; [lia|]); [exact din_root_wf|exact din_a_wf].
Qed.

Lemma sfs_sync_mount_witness :
  ∃ s', sfs_sync file11 = Ok (0, s') ∧ super_dirty s' = false ∧ (∀ k, inodes s' !! k = flushed <$> inodes file11 !! k) ∧
    ∀ t, dev t = dev s' → length (sfs_buffer t) = 4096%nat → inodes t = ∅ →
      ∃ ret t', sfs_do_mount t = Ok (ret, t') ∧
        (ret = - E_NO_MEM ∧ (∃ q : nat, (q ≤ 4)%nat ∧ refused (drop q (oom t))) ∨
         ret = 0 ∧ super t' = super file11 ∧ vol_ok t' F11 ∧ cache_ok t' ∧ inodes t' = ∅ ∧
          (∀ k x, inodes file11 !! k = Some x → din_nlinks (din x) ≠ 0 → SFSInodeRemoved x = false → disk_din t' (ino x) = din x) ∧
          same_except (λ b, meta_block file11 b ∨ ∃ k x, inodes file11 !! k = Some x ∧ ino x = b) file11 t').
Proof.
  destruct file11_live as (Hl & _). destruct file11_nodes as (_ & _ & Hn).
  assert (∀ k x, inodes file11 !! k = Some x → dirty x = false → disk_din file11 (ino x) = din x) as Hclean.
  { intros k x Hk _. destruct (Hn k x Hk) as [[_ Hx]|[_ Hx]]; rewrite Hx in Hk |- *.
    - exact (a11_disk 1 k din_root Hk ltac:(lia) ltac:(by vm_compute)).
    - exact (a11_disk 3 k din_a Hk ltac:(lia) ltac:(by vm_compute)). }
  exact (sfs_sync_mount_roundtrip file11 F11 (lv_vol _ Hl) (lv_cache _ Hl) file11_fit file11_savable (λ _, file11_image) Hclean).
Defined.

(** ** Paths

    The file is turned into an empty directory, which the root has as [name_a]. *)

Definition din_d : sfs_disk_inode := mk_din 0 1 SFS_TYPE_DIR 2 0 (replicate 12 0) 0 0.
Definition sin_d : sfs_inode := sin_a <| din := din_d |> <| dirty := true |>.
Definition dir11 : sfs_fs disk0 := set_sin file11 file_n sin_d.
Definition G11 : gmap Z fnode := {[1 := Dir 1 names11; 3 := Dir 1 ∅]}.

Lemma dir11_nodes : inodes dir11 !! root_n = Some sin_root ∧ inodes dir11 !! file_n = Some sin_d ∧
  ∀ k x, inodes dir11 !! k = Some x → (k = root_n ∧ x = sin_root) ∨ (k = file_n ∧ x = sin_d).
Proof.
  destruct file11_live as (_ & _ & Hne). destruct file11_nodes as (Hr & _ & Hn). unfold dir11.
  change (inodes (set_sin file11 file_n sin_d)) with (<[file_n := sin_d]> (inodes file11)). split_and!.
  - rewrite lookup_insert_ne by exact Hne. exact Hr.
  - apply lookup_insert_eq.
  - intros k x Hk. apply lookup_insert_Some in Hk as [[H1 H2]|[Hk Hx]]; [right; split; symmetry; assumption|].
    destruct (Hn k x Hx) as [?|[H1 _]]; [left; assumption|destruct (Hk (eq_sym H1))].
Qed.

Lemma dir11_vol : vol_ok dir11 F11.
Proof. apply vol_set. destruct file11_live as (Hl & _). apply Hl. Qed.

Lemma dir11_cached : cached dir11 F11.
Proof.
  destruct file11_nodes as (_ & Hf & _). destruct file11_cached as [Hc Hn]. destruct dir11_nodes as (_ & _ & Hd). constructor.
  - apply (cache_set file11 file_n sin_a sin_d Hc Hf). reflexivity.
  - intros k x Hk. unfold dir11. rewrite set_sin_super. destruct (Hd k x Hk) as [[-> ->]|[-> ->]].
    + apply (Hn root_n), file11_nodes.
    + exact (Hn file_n sin_a Hf).
Qed.

Lemma G11_some i nd : G11 !! i = Some nd → (i = 1 ∧ nd = Dir 1 names11) ∨ (i = 3 ∧ nd = Dir 1 ∅).
Proof.
  unfold G11. intros [[<- <-]|[_ Hx]]%lookup_insert_Some; [by left|]. right. by apply lookup_singleton_Some in Hx as [<- <-].
Qed.

Lemma dir11_tree : fs_tree dir11 F11 G11.
Proof.
  destruct dir11_nodes as (Hr & Hf & Hn). pose proof dir11_vol as Hv. destruct file11_live as (Hl & _ & Hne).
  assert (blocks (super dir11) = 11) as Hb by (unfold dir11; rewrite set_sin_super; exact (lv_blocks _ Hl)).
  assert (∀ i k x, inodes dir11 !! k = Some x → ino x = i → SFSInodeRemoved x = false ∧ ref_count x < MAX_INODE_COUNT - 2) as Hal.
  { intros i k x Hk _. destruct (Hn k x Hk) as [[_ ->]|[_ ->]]; split; reflexivity. }
  intros i nd Hi. destruct (G11_some i nd Hi) as [[-> ->]|[-> ->]].
  - pose proof (d_file _ _ _ _ _ _ root11_dir) as Hf11. pose proof (d_rep _ _ _ _ _ _ root11_dir) as Hrep.
    destruct (file_set_other file11 F11 root_n sin_root T_root file_n sin_d Hf11 Hne) as [[[_ _ Hin Ht] Hd Hbl] Hc].
    rewrite <-Hc in Hrep. unfold file_content in Hrep. fold dir11 in Hrep, Hin, Ht.
    exists din_root, T_root. constructor; [|exact Hin|exact Ht|exact Hd|exact Hbl|exact (Hal 1)|].
    + constructor; [left; exists root_n, sin_root; split; [exact Hr|]; split; [reflexivity|]; split; reflexivity|rewrite Hb; lia|rewrite F11_in; lia|discriminate|left; reflexivity].
    + split; [reflexivity|]. split; [reflexivity|]. split; [exact Hrep|]. split; [vm_compute; reflexivity|]. split; [eexists; reflexivity|].
      intros name j Hj. apply names11_some in Hj as [_ ->]. eexists; reflexivity.
  - assert (file_ok dir11 F11 file_n sin_d ∅) as [[_ _ Hin Ht] Hd Hbl] by (apply empty_file; [exact Hv|exact Hf|reflexivity..]).
    exists din_d, ∅. constructor; [|exact Hin|exact Ht|exact Hd|exact Hbl|exact (Hal 3)|].
    + constructor; [left; exists file_n, sin_d; split; [exact Hf|]; split; [reflexivity|]; split; reflexivity|rewrite Hb; lia|rewrite F11_in; lia|discriminate|left; reflexivity].
    + split; [reflexivity|]. split; [reflexivity|]. split; [|split; [reflexivity|split; [eexists; reflexivity|]]].
      * constructor; [reflexivity| | |]; change (nslots (content dir11 ∅ (din_blocks din_d))) with 0; [lia| |lia].
        intros name j Hj. rewrite lookup_empty in Hj. discriminate.
      * intros name j Hj. rewrite lookup_empty in Hj. discriminate.
Qed.

Lemma name_a_plain : plain name_a.
Proof. constructor; [discriminate|by repeat constructor|by split|reflexivity]. Qed.

Lemma G11_rooted : rooted G11.
Proof.
  constructor.
  - intros i p m Hi Hroot. destruct (G11_some _ _ Hi) as [[-> _]|[-> Hx]]; [destruct (Hroot eq_refl)|]. injection Hx as -> ->.
    split; [discriminate|]. exists 1, names11, name_a. split; reflexivity.
  - intros i p m name j Hi Hj. destruct (G11_some _ _ Hi) as [[-> Hx]|[-> Hx]]; injection Hx as -> ->; [|rewrite lookup_empty in Hj; discriminate].
    apply names11_some in Hj as [-> _]. exact name_a_plain.
Qed.

(** ["..//a/."] from the directory leads back to it. *)
Definition path11 : list Z := [46; 46; 47; 47; 97; 47; 46].

Lemma sfs_lookup_witness :
  (∃ ret k s', sfs_lookup file_n path11 dir11 = Ok ((ret, k), s') ∧ stepped dir11 F11 G11 (inr 3) ret k s') ∧
  ∃ ret k last s', sfs_lookup_parent file_n path11 dir11 = Ok ((ret, k, last), s') ∧ stepped dir11 F11 G11 (inr 3) ret k s' ∧ (ret = 0 → last = DOT).
Proof.
  destruct dir11_nodes as (_ & Hf & _).
  destruct (sfs_lookup_correct dir11 F11 G11 file_n sin_d path11 dir11_vol dir11_cached dir11_tree Hf ltac:(eexists; reflexivity)) as (_ & H).
  destruct (H eq_refl) as ((ret & k & s' & E & Hst) & names & name & Hn & ret2 & k2 & last & s2 & E2 & Hst2 & Hlast).
  apply (app_inj_tail [DOTDOT; name_a] names DOT name) in Hn as [<- <-]. split.
  - exists ret, k, s'. split; [exact E|]. clear E. exact Hst.
  - exists ret2, k2, last, s2. split; [exact E2|]. clear E2. split; [exact Hst2|exact Hlast].
Defined.

Definition iob11 : iobuf := mk_iobuf (replicate 40 255) 10 0 20 20.

Lemma sfs_namefile_witness :
  ∃ ret iob' s', sfs_namefile file_n iob11 dir11 = Ok ((ret, iob'), s') ∧ quiet dir11 F11 s' ∧
    (ret = 0 → ∃ names, slice (io_mem iob') 10 (len (text names) + 2) = SLASH :: text names ++ [0] ∧ resolve G11 SFS_BLKN_ROOT names = inr 3).
Proof.
  destruct dir11_nodes as (_ & Hf & _).
  destruct (sfs_namefile_correct dir11 F11 G11 file_n sin_d 1 ∅ iob11 dir11_vol dir11_cached dir11_tree G11_rooted Hf eq_refl eq_refl)
    as (ret & iob' & s' & E & Hq & _ & Hcase).
  exists ret, iob', s'. split; [exact E|]. split; [exact Hq|]. clear E Hq. intros ->.
  destruct Hcase as [(_ & names & H1 & _ & _ & _ & _ & _ & H2)|(Hx & _)]; [|discriminate].
  exists names. split; [exact H1|exact H2].
Defined.
